(* ===== verification/_CoqProject ===== *)
-Q . S2P
Prelude.v
Riscv.v
StringC.v
ListC.v
Buddy.v
BuddyTree.v
AllocI.v
BuddySpec.v
BuddyInit.v
BuddyProps.v
StringHeap.v
Proc.v
ProcQueue.v
ProcSpec.v
ProcLife.v
ProcCalls.v
ProcWait.v
ProcProps.v
Sleeplock.v
Bytes.v
Bio.v
BioSpec.v
BioUse.v
BioProps.v
Log.v
LogSpec.v
LogTx.v
LogProps.v
Vm.v
VmSpec.v
VmMap.v
VmCopy.v
VmFork.v
VmProps.v
Spinlock.v
Ring.v
UserMem.v
VmUser.v
Pipe.v
PipeSpec.v
Blocks.v
Fs.v
FsSpec.v
FsFile.v
FsCache.v
FsRead.v
FsWrite.v
FsWritei.v
FsTrunc.v
FsDisk.v
FsBoot.v
FsDemo.v
FsProps.v
File.v
Sysfile.v
FileSpec.v
FileInv.v
SysfileSpec.v
FileDemo.v
SysfilePipe.v
SysfileProps.v
FileWriteProps.v
Printf.v
PrintfSpec.v
Console.v
ConsoleSpec.v
Grep.v
Umalloc.v
UmallocSpec.v
UmallocProps.v
Filters.v
Virtio.v
VirtioProps.v
MkFs.v
MkFsSpec.v
MkFsImage.v
MkFsProps.v
Sh.v
ShSpec.v
ShProps.v
