(* ===== verification/Prelude.v ===== *)
(** * xv6 (TP_1_OS): a verification library

    The program is a small Unix kernel for RISC-V and its user programs.  The
    kernel allocates memory with a buddy allocator (kernel/buddy.c), runs
    processes from priority queues (kernel/proc.c) in page-table address spaces
    (kernel/vm.c), protects its state with spin locks and sleep locks, and keeps
    files on a disk (kernel/virtio_disk.c) behind a buffer cache (kernel/bio.c) and
    a write-ahead log (kernel/log.c); inodes and directories (kernel/fs.c) live in these blocks,
    and processes reach them, pipes and consoles through open files
    (kernel/file.c, kernel/sysfile.c).  Among the user programs, the C library,
    printf, malloc, the shell, grep and wc carry the algorithms; mkfs, a program
    of the host, builds the first disk image.

    ** How code is modelled

    C code that runs in the kernel is a function of the monad [M S A] defined
    below: it takes a state record [S] and returns a value, or panics, or makes
    an access that has no meaning ([Fault]), or gives up the processor in
    [sleep] or [swtch] ([Sleep], with the state it leaves and the continuation).
    A theorem that a call equals [Ret v s'] therefore also says that it does
    not panic, does not go wild and does not wait.  What other threads do while
    one sleeps is an arbitrary state handed to the continuation.  Integers are
    [Z] with the wrap-around of their C type written out ([u32], [s32], ...);
    arrays are lists with checked access ([aget], [aset]); memory of bytes is a
    finite map.  Loops that are not structural take fuel; a theorem about such a
    function has a bound on the fuel as a hypothesis or proves that the fuel the
    definition computes itself is enough.  Spin locks are the [ctx] of the
    running thread, with nesting and interrupt state; Spinlock.v justifies this
    view.  A component reads code of another either through its definitions or
    through a class: [Alloc] (AllocI.v, memory blocks), [PageAlloc] (VmSpec.v,
    pages), [ProcEnv] (Proc.v, what processes need), [UserMem] (UserMem.v, the
    memory a system call copies from and to), [BlockOps] and [Blocks] (Blocks.v,
    the blocks of a disk inside a transaction), [KernelMem] and [KernelMemOk]
    (File.v and FileSpec.v, the pages and strings the calls on files need).
    BuddySpec.v, VmProps.v, VmUser.v and FsDisk.v give the instances of the
    first five from the modelled code; FileDemo.v has one of the last.

    ** The files

    - Prelude.v: machine integers, arrays, the monad, locks of a thread.
    - Riscv.v, Bytes.v: page table entries and addresses; bytes and words.
    - StringC.v (kernel/string.c, user/ulib.c), StringHeap.v (strdup, strjoin).
    - ListC.v (kernel/list.c), Buddy.v (kernel/buddy.c, kernel/kalloc.c): the
      state is the heap as the code lays it out, the bit vectors and free lists
      of every size.  BuddyTree.v, BuddySpec.v and BuddyInit.v refine it to a
      tree of blocks; BuddyProps.v has the claims.
    - Proc.v, ProcQueue.v, ProcLife.v, ProcCalls.v, ProcWait.v (kernel/proc.c,
      kernel/sysproc.c, parts of kernel/syscall.c, kernel/trap.c and
      kernel/watchdog.c): process table and linked queues in memory;
      ProcSpec.v refines the queues to lists; ProcProps.v has the claims.
    - Sleeplock.v (kernel/sleeplock.c), Spinlock.v (kernel/spinlock.c: a step
      relation of the memory accesses of all processors).
    - Virtio.v (kernel/virtio_disk.c), VirtioProps.v: the descriptors and rings
      shared with the device and the book-keeping of the driver.
    - Bio.v (kernel/bio.c), BioSpec.v and BioUse.v (the cache as a view of the
      disk), BioProps.v (with binit).
    - Log.v (kernel/log.c), LogSpec.v, LogTx.v, LogProps.v: transactions and
      crashes; a crash may happen between any two block writes.
    - Vm.v (kernel/vm.c over physical pages), VmSpec.v, VmMap.v, VmCopy.v,
      VmFork.v (page tables as maps from virtual pages), VmProps.v, VmUser.v.
    - Blocks.v (what fs.c needs of cache and log), Fs.v (kernel/fs.c), FsSpec.v,
      FsFile.v, FsCache.v, FsRead.v, FsWrite.v, FsWritei.v (blocks in
      use, inodes, the contents of a file, the inode cache, reads and writes),
      FsDisk.v (the interface discharged by the log), FsBoot.v (fsinit),
      FsDemo.v (a small disk), FsProps.v (claims).
    - File.v (kernel/file.c, pipealloc of kernel/pipe.c), Sysfile.v
      (kernel/sysfile.c), FileSpec.v, FileInv.v (references and descriptors),
      SysfileSpec.v, SysfilePipe.v, FileDemo.v, SysfileProps.v (claims);
      FileWriteProps.v (a write and its crashes).
    - MkFs.v (mkfs/mkfs.c), MkFsSpec.v, MkFsImage.v (the image while files are
      appended to it), MkFsProps.v: the image as a map from sectors to blocks.
    - UserMem.v (either_copyin, either_copyout and the interface), Ring.v (the
      ring buffers of pipes and consoles), Pipe.v and PipeSpec.v
      (kernel/pipe.c), Console.v and ConsoleSpec.v (kernel/console.c).
    - Printf.v, PrintfSpec.v (kernel/printf.c, user/printf.c), Grep.v
      (user/grep.c), Sh.v, ShSpec.v, ShProps.v (the parser of user/sh.c),
      Filters.v (user/wc.c, user/cat.c, gets of user/ulib.c).
    - Umalloc.v (user/umalloc.c: the headers in memory, over an abstract sbrk
      given by the classes [Sbrk] and [SbrkOk]), UmallocSpec.v, UmallocProps.v.

    ** What the theorems show

    - Allocator: bd_malloc, bd_free and bd_init keep the invariant that free
      and allocated blocks partition the heap, with exact results and the round
      trip; a request above 2^63 bytes makes the code loop for ever.
    - Disk: bread gives the current contents of a block; log_write and begin_op
      keep a transaction within the log; end_op is atomic under crashes and
      initlog recovers, also when it crashes itself.  Recovery loses buffers.
    - Files: readi and writei in terms of the bytes of a file, on every branch,
      and their round trip; references of cached inodes; fsinit after a crash.  A
      write through a descriptor, cut into transactions, leaves a prefix of its
      bytes at any crash.  dup, close, pipe and create_mutex keep references,
      descriptors and pipes in step in every order; a pipe carries its bytes
      from system call to system call.  A mutex descriptor can stop the kernel.
    - Disk driver: a request waits for three descriptors, describes itself to the
      device, sleeps while the device owns the buffer and gives back exactly its
      descriptors; the interrupt ends exactly the finished requests.
    - Image: what mkfs writes is a file system in the sense of the kernel's own
      invariants, with the files it was given.
    - Locks: the spin lock machine refines the atomic view, excludes and makes
      progress.
    - Memory: mappages, copyin, copyout, copyinstr and uvmcopy in terms of the
      map a page table stands for, including what happens without memory.
    - Processes: choice and round robin of the scheduler, exit, wait, sleep,
      wakeup, nice and allocproc, with a race in exit that loses a process.
    - Pipes and consoles: both are queues of bytes; what a call does while it
      holds the lock, and where it goes on when woken up.
    - User code: printf renders its format and atoi reads numbers back; grep
      prints exactly the lines of its pattern's language; the shell's parser
      terminates on every line and reads back the text of every command; malloc
      and free keep the ring of free blocks apart from the blocks in use; wc
      counts its whole input however read cuts it.

    ** Bounds

    Loops over C strings have the fuel [str_fuel m], one more than the size of
    the memory, which no terminated string exceeds.  The parser has
    [parse_fuel], four calls per character.  copyin and copyout copy at least
    one byte per round and have as many rounds.  Page table loops take the
    number of pages as fuel.  Where a thread waits, fuel bounds how often it is
    woken up, and the theorems describe each of its turns.  A write has
    [write_rounds] rounds, one per 3072 bytes and one to find the end.  The ring
    of free blocks of malloc is gone round at most twice ([ring_fuel]); a chain
    of descriptors and the used ring have at most [NUM] entries.  A copy loop of
    wc, cat and mkfs ends after at most one read more than there are bytes.

    ** Not modelled

    Device registers (uart.c, plic.c, start.c) and assembly have no state a
    functional model could check; ramdisk.c is unused.  The cache is modelled over
    an abstract disk; what the device does with a request of virtio_disk.c is
    arbitrary.  The output of procdump, bd_print and dump_locks is for people.
    Of fs.c and sysfile.c everything is a definition but sys_exec; the theorems
    are about the contents of files, the inode cache and the descriptors, not
    about directories and paths.  exec, the dispatch of system calls and traps
    and the remaining user programs are not modelled; of sh.c only the parser
    is. *)

From stdpp Require Export base numbers list gmap strings option.

#[global] Open Scope Z_scope.

(** Linear arithmetic with division and remainder. *)
Ltac dlia := Z.to_euclidean_division_equations; lia.

(** Equations between boolean comparisons: by cases on each comparison. *)
Ltac blia :=
  repeat match goal with
  | |- context [?a =? ?b] => destruct (Z.eqb_spec a b)
  | |- context [?a <=? ?b] => destruct (Z.leb_spec a b)
  | |- context [?a <? ?b] => destruct (Z.ltb_spec a b)
  end; cbn [andb orb negb]; subst; try done; exfalso; lia.

(** ** Machine integers

    A w-bit integer is a [Z]; the wrap-around of C is written out.  On the
    target (riscv64, gcc) [char] is unsigned. *)

Definition u8 (z : Z) : Z := z mod 2 ^ 8.
Definition u16 (z : Z) : Z := z mod 2 ^ 16.
Definition u32 (z : Z) : Z := z mod 2 ^ 32.
Definition u64 (z : Z) : Z := z mod 2 ^ 64.

(** Conversion to [int]: the representative in [-2^31, 2^31). *)
Definition s32 (z : Z) : Z := (z + 2 ^ 31) mod 2 ^ 32 - 2 ^ 31.

(** Conversion to [short]. *)
Definition s16 (z : Z) : Z := (z + 2 ^ 15) mod 2 ^ 16 - 2 ^ 15.

Lemma u32_small z : 0 <= z < 2 ^ 32 -> u32 z = z.
Proof. apply Z.mod_small. Qed.

Lemma u64_small z : 0 <= z < 2 ^ 64 -> u64 z = z.
Proof. apply Z.mod_small. Qed.

Lemma u32_range z : 0 <= u32 z < 2 ^ 32.
Proof. apply Z.mod_pos_bound. lia. Qed.

Lemma u64_range z : 0 <= u64 z < 2 ^ 64.
Proof. apply Z.mod_pos_bound. lia. Qed.

Lemma s32_small z : - 2 ^ 31 <= z < 2 ^ 31 -> s32 z = z.
Proof. intros Hz. unfold s32. rewrite Z.mod_small; lia. Qed.

Lemma s32_range z : - 2 ^ 31 <= s32 z < 2 ^ 31.
Proof. unfold s32. pose proof (Z.mod_pos_bound (z + 2 ^ 31) (2 ^ 32)). lia. Qed.

(** ** Arrays

    [a[i]] with a [Z] index; reading or writing out of bounds is [None]. *)

Definition aget {A} (l : list A) (i : Z) : option A :=
  if decide (0 <= i) then l !! Z.to_nat i else None.

Definition aset {A} (l : list A) (i : Z) (x : A) : option (list A) :=
  if decide (0 <= i < Z.of_nat (length l)) then Some (<[Z.to_nat i := x]> l) else None.

Lemma aget_Some_lt {A} (l : list A) i x :
  aget l i = Some x -> 0 <= i < Z.of_nat (length l).
Proof.
  unfold aget. case_decide; [|done]. intros Hx%lookup_lt_Some. lia.
Qed.

Lemma aget_lookup {A} (l : list A) i x : aget l i = Some x -> l !! Z.to_nat i = Some x.
Proof. unfold aget. by case_decide. Qed.

Lemma aget_cons {A} (x : A) l i : aget (x :: l) i = if i =? 0 then Some x else aget l (i - 1).
Proof.
  unfold aget. destruct (Z.eqb_spec i 0) as [->|Hi]; [done|]. repeat case_decide; try lia; [|done].
  by replace (Z.to_nat i) with (S (Z.to_nat (i - 1))) by lia.
Qed.

Lemma aget_is_Some {A} (l : list A) i :
  0 <= i < Z.of_nat (length l) -> exists x, aget l i = Some x.
Proof.
  intros H. unfold aget. rewrite decide_True by lia.
  apply lookup_lt_is_Some. lia.
Qed.

Lemma aset_is_Some {A} (l : list A) i x :
  0 <= i < Z.of_nat (length l) -> aset l i x = Some (<[Z.to_nat i := x]> l).
Proof. intros H. unfold aset. by rewrite decide_True by lia. Qed.

Lemma aget_aset_eq {A} (l l' : list A) i x :
  aset l i x = Some l' -> aget l' i = Some x.
Proof.
  unfold aset, aget. case_decide; [|done]. intros [= <-].
  rewrite decide_True by lia. apply list_lookup_insert_eq. lia.
Qed.

Lemma aget_aset_ne {A} (l l' : list A) i j x :
  aset l i x = Some l' -> i <> j -> aget l' j = aget l j.
Proof.
  unfold aset, aget. case_decide; [|done]. intros [= <-] Hij.
  case_decide; [|done]. apply list_lookup_insert_ne. lia.
Qed.

Lemma aget_insert {A} (l : list A) i x t :
  0 <= i < Z.of_nat (length l) ->
  aget (<[Z.to_nat i := x]> l) t = if decide (t = i) then Some x else aget l t.
Proof.
  intros Hi. unfold aget. repeat case_decide; try lia; [subst; apply list_lookup_insert_eq; lia| |done].
  apply list_lookup_insert_ne. lia.
Qed.

Lemma aget_of_nat {A} (l : list A) t : aget l (Z.of_nat t) = l !! t.
Proof. unfold aget. rewrite decide_True by lia. by rewrite Nat2Z.id. Qed.

Lemma aset_length {A} (l l' : list A) i x :
  aset l i x = Some l' -> length l' = length l.
Proof. unfold aset. case_decide; [|done]. intros [= <-]. apply length_insert. Qed.

(** ** Outcomes of kernel code

    Kernel code runs on a state [S] and either returns a value, calls
    [panic], performs an access the model gives no meaning to (a wild
    pointer, an index out of bounds), runs out of the fuel that bounds a
    loop, or gives up the CPU in [sleep]: then it has reached a state [s],
    and continues from whatever state [s'] the other threads leave. *)

Inductive res (S A : Type) : Type :=
| Ret (a : A) (s : S)
| Panic (msg : string)
| Fault
| NoFuel
| Sleep (chan : Z) (s : S) (k : S -> res S A).
Arguments Ret {S A} a s.
Arguments Panic {S A} msg.
Arguments Fault {S A}.
Arguments NoFuel {S A}.
Arguments Sleep {S A} chan s k.

Definition M (S A : Type) : Type := S -> res S A.

Fixpoint rbind {S A B} (r : res S A) (f : A -> M S B) : res S B :=
  match r with
  | Ret a s => f a s
  | Panic m => Panic m
  | Fault => Fault
  | NoFuel => NoFuel
  | Sleep c s k => Sleep c s (fun s' => rbind (k s') f)
  end.

Definition bind {S A B} (m : M S A) (f : A -> M S B) : M S B :=
  fun s => rbind (m s) f.

Definition ret {S A} (a : A) : M S A := fun s => Ret a s.
Definition panic {S A} (msg : string) : M S A := fun _ => Panic msg.
Definition fault {S A} : M S A := fun _ => Fault.
Definition nofuel {S A} : M S A := fun _ => NoFuel.
Definition gets {S A} (f : S -> A) : M S A := fun s => Ret (f s) s.
Definition modify {S} (f : S -> S) : M S unit := fun s => Ret tt (f s).

(** A partial read of the state: [None] is a wild access. *)
Definition unwrap {S A} (o : option A) : M S A :=
  match o with Some a => ret a | None => fault end.

Definition when {S} (b : bool) (m : M S unit) : M S unit := if b then m else ret tt.

Declare Scope kern_scope.
Delimit Scope kern_scope with kern.
Notation "x <- m ;; k" := (bind m (fun x => k))
  (at level 100, m at next level, right associativity) : kern_scope.
Notation "m ;;; k" := (bind m (fun _ => k))
  (at level 100, right associativity) : kern_scope.
#[global] Open Scope kern_scope.

(** Running a component inside a larger state. *)
Fixpoint rzoom {S T A} (get : T -> S) (put : S -> T -> T) (t : T) (r : res S A) : res T A :=
  match r with
  | Ret a s => Ret a (put s t)
  | Panic m => Panic m
  | Fault => Fault
  | NoFuel => NoFuel
  | Sleep c s k => Sleep c (put s t) (fun t' => rzoom get put t' (k (get t')))
  end.

Definition zoom {S T A} (get : T -> S) (put : S -> T -> T) (m : M S A) : M T A :=
  fun t => rzoom get put t (m (get t)).

Lemma bind_ret_l {S A B} (m : M S A) (f : A -> M S B) s a s' :
  m s = Ret a s' -> bind m f s = f a s'.
Proof. intros H. unfold bind. by rewrite H. Qed.

Lemma bind_panic {S A B} (m : M S A) (k : A -> M S B) s e : m s = Panic e -> bind m k s = Panic e.
Proof. intros E. unfold bind. by rewrite E. Qed.

Lemma bind_inv {S A B} (m : M S A) (f : A -> M S B) s b s' :
  bind m f s = Ret b s' -> exists a s1, m s = Ret a s1 /\ f a s1 = Ret b s'.
Proof. unfold bind. destruct (m s); cbn; try done. eauto. Qed.

(** Executing the first two steps of a sequence at once. *)
Lemma bind2_ret_l {S A B C} (m1 : M S A) (m2 : A -> M S B) (k : B -> M S C) s b s' :
  bind m1 m2 s = Ret b s' -> bind m1 (fun x => bind (m2 x) k) s = k b s'.
Proof. unfold bind. destruct (m1 s) as [a s1| | | |]; cbn; try done. by intros ->. Qed.

Lemma bind_sleep {S A B} (m : M S A) (f : A -> M S B) s c s' k :
  m s = Sleep c s' k -> bind m f s = Sleep c s' (fun t => rbind (k t) f).
Proof. intros H. unfold bind. by rewrite H. Qed.

Lemma zoom_ret {S T A} (get : T -> S) (put : S -> T -> T) (m : M S A) t a s :
  m (get t) = Ret a s -> zoom get put m t = Ret a (put s t).
Proof. intros H. unfold zoom. by rewrite H. Qed.

(** ** Symbolic execution

    [run H] executes the head of a monadic sequence with an equation [H]
    for it; [mstep] executes the heads that compute. *)

Ltac mstep :=
  repeat (first
    [ progress cbn [rbind]
    | match goal with
      | |- context [bind (ret ?a) ?f ?s] => change (bind (ret a) f s) with (f a s)
      | |- context [bind (gets ?g) ?f ?s] => change (bind (gets g) f s) with (f (g s) s)
      | |- context [bind (modify ?g) ?f ?s] => change (bind (modify g) f s) with (f tt (g s))
      | |- context [bind (panic ?m) ?f ?s] => change (bind (panic m) f s) with (@Panic _ _ m)
      | |- context [bind fault ?f ?s] => change (bind fault f s) with (@Fault _ _)
      | |- context [bind (unwrap (Some ?a)) ?f ?s] =>
          change (bind (unwrap (Some a)) f s) with (f a s)
      | |- context [bind (when true ?m) ?f ?s] =>
          change (bind (when true m) f s) with (bind m f s)
      | |- context [bind (when false ?m) ?f ?s] =>
          change (bind (when false m) f s) with (f tt s)
      end ]); cbv beta.

Ltac run H := rewrite (bind_ret_l _ _ _ _ _ H); cbv beta.

(** ** The processor and the locks it holds

    The thread that runs sees [push_off] nesting, the interrupt flag and the
    spin locks it holds.  A lock is named by its variable and, in an array of
    structures, its index.  [acquire] and [release] are the effect of
    kernel/spinlock.c on the thread that takes a lock nobody else holds;
    Spinlock.v models the lock words themselves and proves that they have
    this effect. *)

Abbreviation lock := (string * Z)%type.

Record ctx := {
  noff : Z;              (** depth of push_off() nesting *)
  intena : bool;         (** were interrupts enabled before push_off()? *)
  intr : bool;           (** the SIE bit of sstatus *)
  held : list lock;      (** the spin locks of this CPU, last taken first *)
  mypid : Z;             (** myproc()->pid *)
  mykilled : bool        (** myproc()->killed *)
}.

Class HasCtx (S : Type) := {
  cx : S -> ctx;
  set_cx : ctx -> S -> S;
  cx_set : forall c s, cx (set_cx c s) = c;
  set_cx_cx : forall s, set_cx (cx s) s = s;
  set_cx_twice : forall c d s, set_cx c (set_cx d s) = set_cx c s
}.

Definition cx_push (c : ctx) : ctx :=
  {| noff := noff c + 1;
     intena := if noff c =? 0 then intr c else intena c;
     intr := false; held := held c; mypid := mypid c; mykilled := mykilled c |}.

Definition cx_pop (c : ctx) : ctx :=
  {| noff := noff c - 1;
     intena := intena c;
     intr := if (noff c - 1 =? 0) && intena c then true else intr c;
     held := held c; mypid := mypid c; mykilled := mykilled c |}.

Definition cx_held (f : list lock -> list lock) (c : ctx) : ctx :=
  {| noff := noff c; intena := intena c; intr := intr c; held := f (held c);
     mypid := mypid c; mykilled := mykilled c |}.

Fixpoint remove_lock (l : lock) (ls : list lock) : list lock :=
  match ls with
  | [] => []
  | x :: r => if decide (x = l) then remove_lock l r else x :: remove_lock l r
  end.

Section Locks.
Context {S : Type} `{HasCtx S}.

Definition holds (l : lock) (s : S) : bool := bool_decide (l ∈ held (cx s)).

Definition acquire (l : lock) : M S unit := fun s =>
  if holds l s then Panic "acquire"
  else Ret tt (set_cx (cx_held (cons l) (cx_push (cx s))) s).

Definition release (l : lock) : M S unit := fun s =>
  if negb (holds l s) then Panic "release"
  else if intr (cx s) then Panic "pop_off - interruptible"
  else if noff (cx s) <? 1 then Panic "pop_off"
  else Ret tt (set_cx (cx_pop (cx_held (remove_lock l) (cx s))) s).

Definition push_off : M S unit := modify (fun s => set_cx (cx_push (cx s)) s).

Definition pop_off : M S unit := fun s =>
  if intr (cx s) then Panic "pop_off - interruptible"
  else if noff (cx s) <? 1 then Panic "pop_off"
  else Ret tt (set_cx (cx_pop (cx s)) s).

(** [sleep(chan, lk)] and [wakeup(chan)] of proc.c, as a component sees them
    whose state does not include the process table: the lock is released,
    other threads run and leave some state, the lock is taken again; waking
    others changes nothing of the component. *)
Definition sleep_on (chan : Z) (lk : lock) : M S unit :=
  release lk ;;; (fun s => Sleep chan s (fun s' => Ret tt s')) ;;; acquire lk.

Definition wakeup_on (chan : Z) : M S unit := ret tt.
End Locks.

(** A context is coherent when interrupts are off while a lock is held and
    every lock accounts for one [push_off]. *)
Definition cx_wf (c : ctx) : Prop :=
  noff c = Z.of_nat (length (held c)) /\ NoDup (held c) /\
  (0 < noff c -> intr c = false).

(** What a balanced acquire/release pair leaves: [intena] is rewritten when
    no lock was held, nothing else changes. *)
Definition touch (c : ctx) : ctx :=
  {| noff := noff c;
     intena := if noff c =? 0 then intr c else intena c;
     intr := intr c; held := held c; mypid := mypid c; mykilled := mykilled c |}.

Lemma touch_idemp c : touch (touch c) = touch c.
Proof. unfold touch; cbn. by destruct (noff c =? 0). Qed.

Lemma touch_wf c : cx_wf c -> cx_wf (touch c).
Proof. done. Qed.

Lemma held_touch c : held (touch c) = held c.
Proof. done. Qed.

Definition locked_cx (l : lock) (c : ctx) : ctx := cx_held (cons l) (cx_push c).

Lemma locked_cx_wf l c : cx_wf c -> l ∉ held c -> cx_wf (locked_cx l c).
Proof.
  intros (Hn & Hd & Hi) Hl. split_and!; cbn; [lia| |done].
  by constructor.
Qed.

Lemma remove_lock_notin l ls : l ∉ ls -> remove_lock l ls = ls.
Proof.
  induction ls as [|x ls IH]; intros Hl; [done|]. cbn.
  rewrite decide_False by set_solver. f_equal. set_solver.
Qed.

Section LockLemmas.
Context {S : Type} `{HasCtx S}.

Lemma acquire_ok l (s : S) :
  l ∉ held (cx s) -> acquire l s = Ret tt (set_cx (locked_cx l (cx s)) s).
Proof. intros Hl. unfold acquire, holds. by rewrite bool_decide_eq_false_2. Qed.

Lemma acquire_twice l (s : S) : l ∈ held (cx s) -> acquire l s = Panic "acquire".
Proof. intros Hl. unfold acquire, holds. by rewrite bool_decide_eq_true_2. Qed.

(** Releasing the lock taken last, in any state with that context. *)
Lemma release_ok l c (s : S) :
  cx_wf c -> l ∉ held c -> cx s = locked_cx l (touch c) ->
  release l s = Ret tt (set_cx (touch c) s).
Proof.
  intros (Hn & Hd & Hi) Hl Hs. unfold release, holds. rewrite Hs. cbn.
  rewrite bool_decide_eq_true_2 by set_solver. cbn.
  destruct (Z.ltb_spec (noff c + 1) 1); [lia|].
  do 2 f_equal. unfold cx_pop, touch; cbn.
  rewrite decide_True, (remove_lock_notin l) by done.
  replace (noff c + 1 - 1) with (noff c) by lia.
  destruct (Z.eqb_spec (noff c) 0) as [E|E]; cbn.
  - by destruct (intr c).
  - rewrite Hi by lia. done.
Qed.

Lemma locked_touch l c : locked_cx l (touch c) = locked_cx l c.
Proof.
  unfold locked_cx, cx_held, cx_push, touch; cbn. by destruct (noff c =? 0).
Qed.

Lemma touch_locked l c : cx_wf c -> touch (locked_cx l c) = locked_cx l c.
Proof.
  intros (Hn & _). unfold touch, locked_cx, cx_held, cx_push. cbn. by rewrite (proj2 (Z.eqb_neq (noff c + 1) 0)) by lia.
Qed.
End LockLemmas.

(** ** Several locks

    [with_locks ls c] is the context of a thread that started from [c] and now
    holds the locks [ls] too, in whatever order it took and released others. *)

Definition with_locks (ls : list lock) (c : ctx) : ctx :=
  {| noff := noff c + Z.of_nat (length ls);
     intena := if noff c =? 0 then intr c else intena c;
     intr := if ls is [] then intr c else false;
     held := ls ++ held c; mypid := mypid c; mykilled := mykilled c |}.

Lemma with_locks_nil c : with_locks [] c = touch c.
Proof. unfold with_locks, touch. cbn. by rewrite Z.add_0_r. Qed.

Lemma with_locks_touch ls c : with_locks ls (touch c) = with_locks ls c.
Proof. unfold with_locks, touch; cbn. by destruct (noff c =? 0). Qed.

Lemma remove_lock_app l ls r : l ∉ r -> remove_lock l (ls ++ r) = remove_lock l ls ++ r.
Proof.
  intros Hl. induction ls as [|x ls IH]; cbn; [by apply remove_lock_notin|].
  case_decide; [done|]. cbn. by rewrite IH.
Qed.

Lemma remove_lock_elem l l' ls : l' ∈ remove_lock l ls <-> l' ∈ ls /\ l' <> l.
Proof.
  induction ls as [|x ls IH]; cbn [remove_lock]; [split; [intros H|intros [H _]]; by apply elem_of_nil in H|].
  case_decide; rewrite ?elem_of_cons, IH; [subst; intuition congruence|]. intuition congruence.
Qed.

Lemma remove_lock_nodup l ls : NoDup ls -> NoDup (remove_lock l ls).
Proof.
  induction ls as [|x ls IH]; cbn [remove_lock]; [done|]. intros [Hx Hn]%list.NoDup_cons. case_decide; [by apply IH|].
  apply list.NoDup_cons. split; [rewrite remove_lock_elem; tauto|by apply IH].
Qed.

Lemma remove_lock_length l ls : NoDup ls -> l ∈ ls -> length ls = Datatypes.S (length (remove_lock l ls)).
Proof.
  induction ls as [|x ls IH]; intros Hd Hl; [by apply not_elem_of_nil in Hl|].
  apply list.NoDup_cons in Hd as [Hx Hd]. cbn. case_decide as E.
  - subst. by rewrite remove_lock_notin.
  - cbn. f_equal. apply IH; [done|]. by apply elem_of_cons in Hl as [->|].
Qed.

Lemma locked_with l ls c :
  noff c = Z.of_nat (length (held c)) -> locked_cx l (with_locks ls c) = with_locks (l :: ls) c.
Proof.
  intros Hn. unfold locked_cx, cx_held, cx_push, with_locks. cbn. f_equal; [lia|].
  destruct (Z.eqb_spec (noff c + Z.of_nat (length ls)) 0) as [E|E]; [|done].
  destruct ls; [|cbn in E; lia]. rewrite (proj2 (Z.eqb_eq (noff c) 0)) by (cbn in E; lia). done.
Qed.

Lemma touch_with_locks ls c :
  noff c = Z.of_nat (length (held c)) -> touch (with_locks ls c) = with_locks ls c.
Proof.
  intros Hn. unfold touch, with_locks. cbn. f_equal.
  destruct (Z.eqb_spec (noff c + Z.of_nat (length ls)) 0) as [E|E]; [|done].
  destruct ls; [|cbn in E; lia]. rewrite (proj2 (Z.eqb_eq (noff c) 0)) by (cbn in E; lia). done.
Qed.

Lemma with_locks_wf ls c : cx_wf c -> NoDup (ls ++ held c) -> cx_wf (with_locks ls c).
Proof.
  intros (Hn & _ & Hi) Hd. split_and!; [|exact Hd|]; cbn.
  - rewrite length_app, Hn. lia.
  - intros Hp. destruct ls; [|done]. apply Hi. cbn in Hp. lia.
Qed.

Section ManyLocks.
Context {S : Type} `{HasCtx S}.

Lemma acquire_with l ls c (s : S) :
  cx_wf c -> cx s = with_locks ls c -> l ∉ ls -> l ∉ held c ->
  acquire l s = Ret tt (set_cx (with_locks (l :: ls) c) s).
Proof.
  intros (Hn & _) Hs Hl Hl'. unfold acquire, holds. rewrite Hs.
  rewrite bool_decide_eq_false_2 by (cbn; set_solver). do 2 f_equal.
  unfold cx_held, cx_push, with_locks. cbn. f_equal; [lia|].
  destruct (Z.eqb_spec (noff c + Z.of_nat (length ls)) 0) as [E|E]; [|done].
  destruct ls; [|cbn in E; lia]. rewrite (proj2 (Z.eqb_eq (noff c) 0)) by (cbn in E; lia). done.
Qed.

Lemma release_with l ls c (s : S) :
  cx_wf c -> cx s = with_locks ls c -> NoDup ls -> l ∈ ls -> l ∉ held c ->
  release l s = Ret tt (set_cx (with_locks (remove_lock l ls) c) s).
Proof.
  intros (Hn & Hd & Hi) Hs Hnd Hl Hl'. unfold release, holds. rewrite Hs.
  rewrite bool_decide_eq_true_2 by (cbn; set_solver).
  pose proof (remove_lock_length l ls Hnd Hl) as Hlen.
  destruct ls as [|x ls]; [by apply not_elem_of_nil in Hl|]. cbn [negb with_locks intr noff].
  rewrite (proj2 (Z.ltb_ge _ 1)) by (cbn [length]; lia).
  do 2 f_equal. unfold cx_pop, cx_held, with_locks.
  cbn [noff intena intr held mypid mykilled]. rewrite remove_lock_app by done.
  rewrite Hlen, Nat2Z.inj_succ.
  replace (noff c + Z.succ (Z.of_nat (length (remove_lock l (x :: ls)))) - 1)
    with (noff c + Z.of_nat (length (remove_lock l (x :: ls)))) by lia.
  f_equal. destruct (remove_lock l (x :: ls)) as [|y r] eqn:E; cbn [length].
  - rewrite Z.add_0_r. destruct (Z.eqb_spec (noff c) 0) as [E0|E0]; cbn [andb].
    + by destruct (intr c).
    + by rewrite Hi by lia.
  - rewrite (proj2 (Z.eqb_neq _ 0)) by lia. done.
Qed.

(** [push_off] and [pop_off] around a read change nothing but [intena]. *)
Lemma push_pop_ok {A} (f : S -> A) ls c (s : S) :
  cx_wf c -> cx s = with_locks ls c -> (forall d, f (set_cx d s) = f s) ->
  (push_off ;;; (x <- gets f ;; (pop_off ;;; ret x))) s = Ret (f s) s.
Proof.
  intros (Hn & _ & Hi) Hs Hf. unfold push_off, pop_off. mstep. unfold bind at 1. rewrite !cx_set, Hf, Hs. cbn [cx_push intr noff with_locks].
  rewrite (proj2 (Z.ltb_ge _ 1)) by lia.
  cbn [rbind]. unfold ret. rewrite set_cx_twice. f_equal.
  rewrite <- (set_cx_cx s) at 2. f_equal. rewrite Hs.
  unfold cx_pop, cx_push, with_locks. cbn [noff intena intr held mypid mykilled].
  replace (noff c + Z.of_nat (length ls) + 1 - 1) with (noff c + Z.of_nat (length ls)) by lia.
  destruct (Z.eqb_spec (noff c + Z.of_nat (length ls)) 0) as [E|E].
  - destruct ls; [|cbn in E; lia]. rewrite (proj2 (Z.eqb_eq (noff c) 0)) by (cbn in E; lia).
    cbn [andb]. by destruct (intr c).
  - cbn [andb]. f_equal. destruct ls; [|done]. cbn in E. rewrite Hi by lia. done.
Qed.
End ManyLocks.
