(* ===== verification/Riscv.v ===== *)
(** * kernel/riscv.h and kernel/memlayout.h: pages, page table entries, addresses

    Addresses and entries are 64-bit numbers; the macros are the bit operations
    of the C code, and the lemmas say what they mean as arithmetic. *)

From S2P Require Import Prelude.

Definition PGSIZE : Z := 4096.
Definition PGSHIFT : Z := 12.

Definition PGROUNDUP (sz : Z) : Z := Z.land (u64 (sz + PGSIZE - 1)) (Z.lnot (PGSIZE - 1)).
Definition PGROUNDDOWN (a : Z) : Z := Z.land a (Z.lnot (PGSIZE - 1)).

Definition PTE_V : Z := 1.
Definition PTE_R : Z := 2.
Definition PTE_W : Z := 4.
Definition PTE_X : Z := 8.
Definition PTE_U : Z := 16.

Definition PA2PTE (pa : Z) : Z := u64 (Z.shiftl (Z.shiftr (u64 pa) 12) 10).
Definition PTE2PA (pte : Z) : Z := u64 (Z.shiftl (Z.shiftr pte 10) 12).
Definition PTE_FLAGS (pte : Z) : Z := Z.land pte 1023.

Definition PXMASK : Z := 511.
Definition PXSHIFT (level : Z) : Z := PGSHIFT + 9 * level.
Definition PX (level va : Z) : Z := Z.land (Z.shiftr va (PXSHIFT level)) PXMASK.

Definition MAXVA : Z := Z.shiftl 1 (9 + 9 + 9 + 12 - 1).

Definition UART0 : Z := 268435456.
Definition VIRTION (n : Z) : Z := 268435456 + (n + 1) * 4096.
Definition CLINT : Z := 33554432.
Definition PLIC : Z := 201326592.
Definition KERNBASE : Z := 2147483648.
Definition PHYSTOP : Z := KERNBASE + 128 * 1024 * 1024.
Definition TRAMPOLINE : Z := MAXVA - PGSIZE.
Definition KSTACK (p : Z) : Z := TRAMPOLINE - (p + 1) * 2 * PGSIZE.
Definition TRAPFRAME : Z := TRAMPOLINE - PGSIZE.

(** ** Their meaning *)

Lemma land_lnot_ones a n : 0 <= n -> Z.land a (Z.lnot (2 ^ n - 1)) = a - a mod 2 ^ n.
Proof.
  intros Hn. replace (2 ^ n - 1) with (Z.ones n) by (rewrite Z.ones_equiv; lia).
  rewrite <- Z.ldiff_land, Z.ldiff_ones_r, Z.shiftl_mul_pow2, Z.shiftr_div_pow2 by lia.
  pose proof (Z.div_mod a (2 ^ n)). lia.
Qed.

Lemma PGROUNDDOWN_eq a : PGROUNDDOWN a = a - a mod PGSIZE.
Proof. unfold PGROUNDDOWN. apply (land_lnot_ones a 12). lia. Qed.

Lemma PGROUNDUP_eq a : 0 <= a < 2 ^ 64 - PGSIZE -> PGROUNDUP a = PGSIZE * ((a + PGSIZE - 1) / PGSIZE).
Proof.
  intros Ha. unfold PGROUNDUP. rewrite u64_small by (unfold PGSIZE in *; lia).
  rewrite (land_lnot_ones _ 12) by lia. change (2 ^ 12) with 4096. unfold PGSIZE. pose proof (Z.div_mod (a + 4096 - 1) 4096). lia.
Qed.

Lemma PX_eq level va : 0 <= level -> PX level va = (va / 2 ^ (12 + 9 * level)) mod 512.
Proof.
  intros Hl. unfold PX, PXSHIFT, PGSHIFT, PXMASK. rewrite Z.shiftr_div_pow2 by lia.
  replace 511 with (Z.ones 9) by done. rewrite Z.land_ones by lia. done.
Qed.

Lemma PX_range level va : 0 <= level -> 0 <= PX level va < 512.
Proof. intros Hl. rewrite PX_eq by done. apply Z.mod_pos_bound. lia. Qed.

(** An entry for a page: its number, and ten bits of flags. *)
Lemma pte_flags_eq pn f : 0 <= f < 1024 -> Z.land (pn * 1024 + f) 1023 = f.
Proof.
  intros Hf. replace 1023 with (Z.ones 10) by done. rewrite Z.land_ones by lia.
  rewrite Z.add_comm, Z.mod_add by lia. apply Z.mod_small. done.
Qed.

Lemma PA2PTE_eq pn : 0 <= pn < 2 ^ 44 -> PA2PTE (pn * PGSIZE) = pn * 1024.
Proof.
  intros Hp. unfold PA2PTE, PGSIZE. rewrite (u64_small (pn * 4096)) by lia. rewrite Z.shiftr_div_pow2, Z.shiftl_mul_pow2 by lia.
  change (2 ^ 12) with 4096. rewrite Z.div_mul by lia. apply u64_small. lia.
Qed.

Lemma PA2PTE_lor pn f : 0 <= pn < 2 ^ 44 -> 0 <= f < 1024 -> Z.lor (PA2PTE (pn * PGSIZE)) f = pn * 1024 + f.
Proof.
  intros Hp Hf. rewrite PA2PTE_eq by done. symmetry.
  rewrite <- Z.lxor_lor; [apply Z.add_nocarry_lxor|]; change 1024 with (2 ^ 10); apply Z.bits_inj'; intros i Hi;
    rewrite Z.land_spec, Z.bits_0, <- Z.shiftl_mul_pow2 by lia; destruct (decide (i < 10)).
  1, 3: rewrite Z.shiftl_spec_low by lia; done.
  all: rewrite (Z.bits_above_log2 f i); [by rewrite andb_false_r|lia|]; destruct (decide (f = 0)) as [->|]; [cbn; lia|];
    apply Z.log2_lt_pow2; [lia|]; apply Z.lt_le_trans with (2 ^ 10); [lia|]; apply Z.pow_le_mono_r; lia.
Qed.

Lemma PTE2PA_eq pn f : 0 <= pn < 2 ^ 44 -> 0 <= f < 1024 -> PTE2PA (pn * 1024 + f) = pn * PGSIZE.
Proof.
  intros Hp Hf. unfold PTE2PA, PGSIZE. rewrite Z.shiftr_div_pow2, Z.shiftl_mul_pow2 by lia. change (2 ^ 10) with 1024.
  rewrite Z.add_comm, Z.div_add, (Z.div_small f) by lia. apply u64_small. lia.
Qed.
