(* ===== verification/StringC.v ===== *)
(** * kernel/string.c and the string functions of user/ulib.c

    Memory is a finite map from addresses to bytes; an access outside its
    domain is a fault ([None]).  A C string is the bytes from an address to
    the first zero byte.  Loops over a counted area recurse on the count,
    loops over a string on fuel; a string of [length] bytes needs one more. *)

From S2P Require Import Prelude.

Abbreviation mem := (gmap Z Z).

Definition ld (m : mem) (a : Z) : option Z := m !! a.

Definition st (m : mem) (a v : Z) : option mem :=
  match m !! a with Some _ => Some (<[a := v]> m) | None => None end.

(** ** Counted loops *)

Fixpoint memset_loop (n : nat) (dst i c : Z) (m : mem) : option mem :=
  match n with
  | O => Some m
  | S n => m ← st m (dst + s32 i) (u8 c); memset_loop n dst (i + 1) c m
  end.

Definition memset (dst c n : Z) (m : mem) : option mem := memset_loop (Z.to_nat n) dst 0 c m.

Fixpoint memcmp_loop (n : nat) (s1 s2 : Z) (m : mem) : option Z :=
  match n with
  | O => Some 0
  | S n =>
      a ← ld m s1; b ← ld m s2;
      if negb (a =? b) then Some (a - b) else memcmp_loop n (s1 + 1) (s2 + 1) m
  end.

Definition memcmp (v1 v2 n : Z) (m : mem) : option Z := memcmp_loop (Z.to_nat n) v1 v2 m.

(** [while(n-- > 0) *d++ = *s++;] *)
Fixpoint copy_up (n : nat) (d s : Z) (m : mem) : option mem :=
  match n with
  | O => Some m
  | S n => c ← ld m s; m ← st m d c; copy_up n (d + 1) (s + 1) m
  end.

(** [while(n-- > 0) *--d = *--s;] *)
Fixpoint copy_down (n : nat) (d s : Z) (m : mem) : option mem :=
  match n with
  | O => Some m
  | S n => c ← ld m (s - 1); m ← st m (d - 1) c; copy_down n (d - 1) (s - 1) m
  end.

Definition memmove (dst src n : Z) (m : mem) : option mem :=
  if (src <? dst) && (dst <? src + n) then copy_down (Z.to_nat n) (dst + n) (src + n) m
  else copy_up (Z.to_nat n) dst src m.

Definition memcpy (dst src n : Z) (m : mem) : option mem := memmove dst src n m.

(** [memmove] of user/ulib.c compares the addresses only. *)
Definition umemmove (vdst vsrc n : Z) (m : mem) : option mem :=
  if vdst <? vsrc then copy_up (Z.to_nat n) vdst vsrc m
  else copy_down (Z.to_nat n) (vdst + n) (vsrc + n) m.

(** [memcmp] of user/ulib.c; [char] is unsigned on this machine. *)
Fixpoint umemcmp_loop (n : nat) (p1 p2 : Z) (m : mem) : option Z :=
  match n with
  | O => Some 0
  | S n =>
      a ← ld m p1; b ← ld m p2;
      if negb (a =? b) then Some (a - b) else umemcmp_loop n (p1 + 1) (p2 + 1) m
  end.

Definition umemcmp (s1 s2 n : Z) (m : mem) : option Z := umemcmp_loop (Z.to_nat n) s1 s2 m.

(** ** Strings *)

Fixpoint strncmp_loop (n : nat) (p q : Z) (m : mem) : option Z :=
  match n with
  | O => Some 0
  | S n' =>
      a ← ld m p;
      if a =? 0 then b ← ld m q; Some (a - b) else
      b ← ld m q;
      if a =? b then strncmp_loop n' (p + 1) (q + 1) m else Some (a - b)
  end.

Definition strncmp (p q n : Z) (m : mem) : option Z := strncmp_loop (Z.to_nat n) p q m.

(** The second loop of [strncpy] and the whole of it. *)
Fixpoint zero_fill (n : nat) (s : Z) (m : mem) : option mem :=
  match n with
  | O => Some m
  | S n => m ← st m s 0; zero_fill n (s + 1) m
  end.

Fixpoint strncpy_loop (n : nat) (s t : Z) (m : mem) : option mem :=
  match n with
  | O => Some m
  | S n =>
      c ← ld m t; m ← st m s c;
      if c =? 0 then zero_fill n (s + 1) m else strncpy_loop n (s + 1) (t + 1) m
  end.

Definition strncpy (s t n : Z) (m : mem) : option mem := strncpy_loop (Z.to_nat n) s t m.

(** The loop of [safestrcpy] and the store of the final zero, with [n] the
    count after the decrement. *)
Fixpoint safestrcpy_loop (n : nat) (s t : Z) (m : mem) : option mem :=
  match n with
  | O => st m s 0
  | S n =>
      c ← ld m t; m ← st m s c;
      if c =? 0 then st m (s + 1) 0 else safestrcpy_loop n (s + 1) (t + 1) m
  end.

Definition safestrcpy (s t n : Z) (m : mem) : option mem :=
  if n <=? 0 then Some m else safestrcpy_loop (Z.to_nat (n - 1)) s t m.

(** A walk over a string reads distinct mapped addresses, so it ends after at
    most [size m] steps. *)
Definition str_fuel (m : mem) : nat := S (size m).

Fixpoint strlen_loop (fuel : nat) (s n : Z) (m : mem) : option Z :=
  match fuel with
  | O => None
  | S fuel => c ← ld m (s + n); if c =? 0 then Some n else strlen_loop fuel s (s32 (n + 1)) m
  end.

Definition strlen (s : Z) (m : mem) : option Z := strlen_loop (str_fuel m) s 0 m.

(** user/ulib.c *)
Fixpoint strcpy_loop (fuel : nat) (s t : Z) (m : mem) : option mem :=
  match fuel with
  | O => None
  | S fuel => c ← ld m t; m ← st m s c; if c =? 0 then Some m else strcpy_loop fuel (s + 1) (t + 1) m
  end.

Definition strcpy (s t : Z) (m : mem) : option mem := strcpy_loop (str_fuel m) s t m.

Fixpoint strcmp_loop (fuel : nat) (p q : Z) (m : mem) : option Z :=
  match fuel with
  | O => None
  | S fuel =>
      a ← ld m p;
      if a =? 0 then b ← ld m q; Some (a - b) else
      b ← ld m q;
      if a =? b then strcmp_loop fuel (p + 1) (q + 1) m else Some (a - b)
  end.

Definition strcmp (p q : Z) (m : mem) : option Z := strcmp_loop (str_fuel m) p q m.

Fixpoint strchr_loop (fuel : nat) (s c : Z) (m : mem) : option Z :=
  match fuel with
  | O => None
  | S fuel =>
      x ← ld m s;
      if x =? 0 then Some 0 else if x =? c then Some s else strchr_loop fuel (s + 1) c m
  end.

Definition strchr (s c : Z) (m : mem) : option Z := strchr_loop (str_fuel m) s c m.

Fixpoint atoi_loop (fuel : nat) (s n : Z) (m : mem) : option Z :=
  match fuel with
  | O => None
  | S fuel =>
      c ← ld m s;
      if (48 <=? c) && (c <=? 57) then atoi_loop fuel (s + 1) (s32 (s32 (s32 (n * 10) + c) - 48)) m
      else Some n
  end.

Definition atoi (s : Z) (m : mem) : option Z := atoi_loop (str_fuel m) s 0 m.

(** ** Copies *)

Definition mapped (m : mem) (a n : Z) : Prop := forall i, 0 <= i < n -> is_Some (m !! (a + i)).

Lemma mapped_at m a n x : mapped m a n -> a <= x < a + n -> is_Some (m !! x).
Proof. intros Hm Hx. specialize (Hm (x - a) ltac:(lia)). by replace (a + (x - a)) with x in Hm by lia. Qed.

Lemma st_ok m a v : is_Some (m !! a) -> st m a v = Some (<[a := v]> m).
Proof. intros [x Hx]. unfold st. by rewrite Hx. Qed.

Lemma mapped_insert m a n b v : mapped m a n -> mapped (<[b := v]> m) a n.
Proof.
  intros Hm i Hi. destruct (decide (b = a + i)) as [->|]; [by rewrite lookup_insert_eq|].
  rewrite lookup_insert_ne by done. by apply Hm.
Qed.

Lemma mapped_tail m a n : mapped m a (n + 1) -> mapped m (a + 1) n.
Proof. intros Hm i Hi. replace (a + 1 + i) with (a + (i + 1)) by lia. apply Hm. lia. Qed.

Definition moved (dst src n : Z) (m m' : mem) : Prop :=
  forall a, m' !! a = if decide (dst <= a < dst + n) then m !! (a - dst + src) else m !! a.

Lemma copy_up_ok n d s m :
  mapped m s (Z.of_nat n) -> mapped m d (Z.of_nat n) -> ~ (0 < d - s < Z.of_nat n) ->
  exists m', copy_up n d s m = Some m' /\ moved d s (Z.of_nat n) m m'.
Proof.
  revert d s m. induction n as [|n IH]; intros d s m Hs Hd Hne; cbn [copy_up].
  - exists m. split; [done|]. intros a. by rewrite decide_False by lia.
  - rewrite Nat2Z.inj_succ, <- Z.add_1_r in *.
    destruct (mapped_at m s _ s Hs ltac:(lia)) as [c Hc]. unfold ld. rewrite Hc. cbn [mbind option_bind].
    rewrite st_ok by (eapply mapped_at; [done|lia]). cbn [mbind option_bind].
    destruct (IH (d + 1) (s + 1) (<[d := c]> m)) as (m' & E & Hm');
      [by apply mapped_insert, mapped_tail|by apply mapped_insert, mapped_tail|lia|].
    exists m'. split; [done|]. intros a. rewrite Hm'.
    destruct (decide (a = d)) as [->|Ha].
    + rewrite decide_False, decide_True by lia. rewrite lookup_insert_eq. by replace (d - d + s) with s by lia.
    + destruct (decide (d <= a < d + (Z.of_nat n + 1))).
      * rewrite decide_True by lia. rewrite lookup_insert_ne by lia. f_equal. lia.
      * rewrite decide_False by lia. by rewrite lookup_insert_ne.
Qed.

(** [d] and [s] are the ends of the two areas. *)
Lemma copy_down_ok n d s m :
  mapped m (s - Z.of_nat n) (Z.of_nat n) -> mapped m (d - Z.of_nat n) (Z.of_nat n) ->
  ~ (0 < s - d < Z.of_nat n) ->
  exists m', copy_down n d s m = Some m' /\ moved (d - Z.of_nat n) (s - Z.of_nat n) (Z.of_nat n) m m'.
Proof.
  revert d s m. induction n as [|n IH]; intros d s m Hs Hd Hne; cbn [copy_down].
  - exists m. split; [done|]. intros a. by rewrite decide_False by lia.
  - rewrite Nat2Z.inj_succ, <- Z.add_1_r in *.
    destruct (mapped_at m _ _ (s - 1) Hs ltac:(lia)) as [c Hc]. unfold ld. rewrite Hc. cbn [mbind option_bind].
    rewrite st_ok by (eapply mapped_at; [done|lia]). cbn [mbind option_bind].
    destruct (IH (d - 1) (s - 1) (<[d - 1 := c]> m)) as (m' & E & Hm'); [| |lia|].
    { apply mapped_insert. intros i Hi. replace (s - 1 - Z.of_nat n + i) with (s - (Z.of_nat n + 1) + i) by lia.
      apply Hs. lia. }
    { apply mapped_insert. intros i Hi. replace (d - 1 - Z.of_nat n + i) with (d - (Z.of_nat n + 1) + i) by lia.
      apply Hd. lia. }
    exists m'. split; [done|]. intros a. rewrite Hm'.
    destruct (decide (a = d - 1)) as [->|Ha].
    + rewrite decide_False, decide_True by lia. rewrite lookup_insert_eq.
      by replace (d - 1 - (d - (Z.of_nat n + 1)) + (s - (Z.of_nat n + 1))) with (s - 1) by lia.
    + destruct (decide (d - (Z.of_nat n + 1) <= a < d - (Z.of_nat n + 1) + (Z.of_nat n + 1))).
      * rewrite decide_True by lia. rewrite lookup_insert_ne by lia. f_equal. lia.
      * rewrite decide_False by lia. by rewrite lookup_insert_ne.
Qed.

Lemma copy_down_ends n d s m :
  0 <= n -> mapped m s n -> mapped m d n -> ~ (0 < s - d < n) ->
  exists m', copy_down (Z.to_nat n) (d + n) (s + n) m = Some m' /\ moved d s n m m'.
Proof.
  intros Hn Hs Hd Hne. destruct (copy_down_ok (Z.to_nat n) (d + n) (s + n) m) as (m' & E & Hm);
    rewrite ?Z2Nat.id in * by lia; rewrite ?Z.add_simpl_r in *; [done|done|lia|]. by exists m'.
Qed.

Lemma memmove_ok dst src n m :
  0 <= n -> mapped m src n -> mapped m dst n ->
  exists m', memmove dst src n m = Some m' /\ moved dst src n m m'.
Proof.
  intros Hn Hs Hd. unfold memmove. destruct ((src <? dst) && (dst <? src + n)) eqn:E.
  - apply andb_true_iff in E as [E1%Z.ltb_lt E2%Z.ltb_lt]. apply copy_down_ends; try done. lia.
  - assert (~ (0 < dst - src < n)).
    { intros H. apply andb_false_iff in E as [E%Z.ltb_ge|E%Z.ltb_ge]; lia. }
    destruct (copy_up_ok (Z.to_nat n) dst src m) as (m' & E' & Hm);
      rewrite ?Z2Nat.id in * by lia; [done|done|done|]. by exists m'.
Qed.

Lemma umemmove_ok dst src n m :
  0 <= n -> mapped m src n -> mapped m dst n ->
  exists m', umemmove dst src n m = Some m' /\ moved dst src n m m'.
Proof.
  intros Hn Hs Hd. unfold umemmove. destruct (Z.ltb_spec dst src).
  - destruct (copy_up_ok (Z.to_nat n) dst src m) as (m' & E' & Hm);
      rewrite ?Z2Nat.id in * by lia; [done|done|lia|]. by exists m'.
  - apply copy_down_ends; try done. lia.
Qed.

Lemma moved_unique dst src n m m1 m2 : moved dst src n m m1 -> moved dst src n m m2 -> m1 = m2.
Proof. intros H1 H2. apply map_eq. intros a. by rewrite H1, H2. Qed.

(** A memory to evaluate the theorems on: ten bytes at address 100. *)
Definition bytes_at (a : Z) (l : list Z) : mem := list_to_map (zip (seqZ a (Z.of_nat (length l))) l).

Lemma mapped_bytes_at a l n : n <= Z.of_nat (length l) -> mapped (bytes_at a l) a n.
Proof.
  intros Hn i Hi. unfold bytes_at.
  destruct (lookup_lt_is_Some_2 l (Z.to_nat i)) as [x Hx]; [lia|].
  exists x. apply elem_of_list_to_map_1.
  - rewrite fst_zip by (rewrite length_seqZ; lia). apply NoDup_seqZ.
  - apply list_elem_of_lookup. exists (Z.to_nat i). rewrite lookup_zip_with. rewrite Hx.
    rewrite lookup_seqZ_lt by lia. cbn. do 3 f_equal. lia.
Qed.

(** [memmove] copies the source area as it was before the call, also when
    the two areas overlap, and changes no other byte. *)
Theorem memmove_spec (dst src n : Z) (m : mem) :
  0 <= n -> mapped m src n -> mapped m dst n ->
  exists m', memmove dst src n m = Some m' /\
    (forall i, 0 <= i < n -> m' !! (dst + i) = m !! (src + i)) /\
    (forall a, ~ (dst <= a < dst + n) -> m' !! a = m !! a).
Proof.
  intros Hn Hs Hd. destruct (memmove_ok dst src n m Hn Hs Hd) as (m' & E & Hm).
  exists m'. split_and!; [done| |].
  - intros i Hi. rewrite Hm, decide_True by lia. f_equal. lia.
  - intros a Ha. rewrite Hm, decide_False by lia. done.
Qed.

Lemma memmove_spec_witness :
  exists m', memmove 102 100 5 (bytes_at 100 [1;2;3;4;5;6;7;8;9;10]) = Some m' /\ m' !! 106 = Some 5.
Proof.
  destruct (memmove_spec 102 100 5 (bytes_at 100 [1;2;3;4;5;6;7;8;9;10])) as (m' & E & H1 & _).
  - lia.
  - by apply mapped_bytes_at.
  - intros i Hi. replace (102 + i) with (100 + (i + 2)) by lia. apply (mapped_bytes_at 100 _ 10); cbn; lia.
  - exists m'. split; [exact E|]. change 106 with (102 + 4). rewrite (H1 4 ltac:(lia)). vm_compute. reflexivity.
Defined.

(** The [memmove] of the user library, which decides the direction of the
    copy by comparing the addresses only, computes the same memory as the
    kernel's. *)
Theorem umemmove_equiv (dst src n : Z) (m : mem) :
  0 <= n -> mapped m src n -> mapped m dst n -> umemmove dst src n m = memmove dst src n m.
Proof.
  intros Hn Hs Hd. destruct (memmove_ok dst src n m Hn Hs Hd) as (m1 & -> & H1).
  destruct (umemmove_ok dst src n m Hn Hs Hd) as (m2 & -> & H2). f_equal. by eapply moved_unique.
Qed.

Lemma umemmove_equiv_witness :
  umemmove 100 103 4 (bytes_at 100 [1;2;3;4;5;6;7;8;9;10]) = memmove 100 103 4 (bytes_at 100 [1;2;3;4;5;6;7;8;9;10]).
Proof.
  apply umemmove_equiv; [lia| |by apply mapped_bytes_at].
  intros i Hi. replace (103 + i) with (100 + (i + 3)) by lia. apply (mapped_bytes_at 100 _ 10); cbn; lia.
Defined.

(** ** Strings *)

Fixpoint cstr (m : mem) (a : Z) (l : list Z) : Prop :=
  match l with
  | [] => m !! a = Some 0
  | x :: l => m !! a = Some x /\ x <> 0 /\ cstr m (a + 1) l
  end.

Lemma cstr_mapped m a l : cstr m a l -> mapped m a (Z.of_nat (length l) + 1).
Proof.
  revert a. induction l as [|x l IH]; cbn [cstr length]; intros a Hc i Hi.
  - replace (a + i) with a by lia. by rewrite Hc.
  - destruct Hc as (Hx & _ & Hc). destruct (decide (i = 0)) as [->|].
    + rewrite Z.add_0_r. by rewrite Hx.
    + replace (a + i) with (a + 1 + (i - 1)) by lia. apply (IH _ Hc). lia.
Qed.

Lemma cstr_frame m m' a l :
  (forall x, a <= x <= a + Z.of_nat (length l) -> m' !! x = m !! x) -> cstr m a l -> cstr m' a l.
Proof.
  revert a. induction l as [|y l IH]; cbn [cstr length]; intros a He Hc; [rewrite He by lia; done|].
  destruct Hc as (H1 & H2 & H3). split_and!; [rewrite He by lia; done|done|].
  apply IH; [|done]. intros x Hx. apply He. lia.
Qed.

(** The fuel is enough for every string. *)
Lemma mapped_size m a n : 0 <= n -> mapped m a n -> n <= Z.of_nat (size m).
Proof.
  intros Hn Hm. rewrite <- size_dom. assert (Hsub : list_to_set (C := gset Z) (seqZ a n) ⊆ dom m).
  { intros x Hx. apply elem_of_list_to_set, elem_of_seqZ in Hx. apply elem_of_dom.
    by apply (mapped_at m a n). }
  apply subseteq_size in Hsub. rewrite size_list_to_set, length_seqZ in Hsub by apply NoDup_seqZ. lia.
Qed.

Lemma cstr_fuel m a l : cstr m a l -> (length l < str_fuel m)%nat.
Proof.
  intros Hc. apply cstr_mapped in Hc. apply mapped_size in Hc; [|lia]. unfold str_fuel. lia.
Qed.

Lemma strlen_loop_ok fuel s n m l :
  cstr m (s + n) l -> (length l < fuel)%nat -> 0 <= n -> n + Z.of_nat (length l) < 2 ^ 31 ->
  strlen_loop fuel s n m = Some (n + Z.of_nat (length l)).
Proof.
  revert n l. induction fuel as [|fuel IH]; intros n l Hc Hf H0 Hn; [lia|]. cbn [strlen_loop]. unfold ld.
  destruct l as [|x l]; cbn [cstr length] in *.
  - rewrite Hc. cbn. f_equal. lia.
  - destruct Hc as (Hx & Hne & Hc). rewrite Hx. cbn [mbind option_bind].
    rewrite (proj2 (Z.eqb_neq x 0)) by done.
    rewrite s32_small by lia. rewrite (IH (n + 1) l); [f_equal; lia| |lia|lia|lia].
    by replace (s + (n + 1)) with (s + n + 1) by lia.
Qed.

Lemma strlen_ok s m l :
  cstr m s l -> Z.of_nat (length l) < 2 ^ 31 -> strlen s m = Some (Z.of_nat (length l)).
Proof.
  intros Hc Hl. unfold strlen. rewrite (strlen_loop_ok _ s 0 m l); [done| |by eapply cstr_fuel|lia|lia].
  by rewrite Z.add_0_r.
Qed.

(** The order [strcmp] and [strncmp] decide. *)
Fixpoint diff (l1 l2 : list Z) : Z :=
  match l1, l2 with
  | [], [] => 0
  | [], y :: _ => - y
  | x :: _, [] => x
  | x :: l1, y :: l2 => if x =? y then diff l1 l2 else x - y
  end.

Lemma strcmp_loop_ok fuel p q m l1 l2 :
  cstr m p l1 -> cstr m q l2 -> (length l1 < fuel)%nat -> strcmp_loop fuel p q m = Some (diff l1 l2).
Proof.
  revert p q l1 l2. induction fuel as [|fuel IH]; intros p q l1 l2 H1 H2 Hf; [lia|]. cbn [strcmp_loop].
  unfold ld. destruct l1 as [|x l1], l2 as [|y l2]; cbn [cstr length] in *.
  - rewrite H1, H2. done.
  - rewrite H1. destruct H2 as (-> & _). done.
  - destruct H1 as (-> & Hx & _). rewrite H2. cbn. rewrite (proj2 (Z.eqb_neq x 0)) by done. f_equal. lia.
  - destruct H1 as (-> & Hx & H1), H2 as (-> & Hy & H2). cbn [mbind option_bind diff].
    rewrite (proj2 (Z.eqb_neq x 0)) by done.
    destruct (x =? y); [|done]. apply IH; [done|done|lia].
Qed.

Lemma strncmp_loop_ok n p q m l1 l2 :
  cstr m p l1 -> cstr m q l2 -> strncmp_loop n p q m = Some (diff (take n l1) (take n l2)).
Proof.
  revert p q l1 l2. induction n as [|n IH]; intros p q l1 l2 H1 H2; [done|]. cbn [strncmp_loop].
  unfold ld. destruct l1 as [|x l1], l2 as [|y l2]; cbn [cstr length take] in *.
  - rewrite H1, H2. done.
  - rewrite H1. destruct H2 as (-> & _). done.
  - destruct H1 as (-> & Hx & _). rewrite H2. cbn. rewrite (proj2 (Z.eqb_neq x 0)) by done. f_equal. lia.
  - destruct H1 as (-> & Hx & H1), H2 as (-> & Hy & H2). cbn [mbind option_bind diff].
    rewrite (proj2 (Z.eqb_neq x 0)) by done.
    destruct (x =? y); [|done]. by apply IH.
Qed.

Definition nonzero (l : list Z) : Prop := Forall (fun x => 0 < x) l.

Lemma diff_zero l1 l2 : nonzero l1 -> nonzero l2 -> diff l1 l2 = 0 <-> l1 = l2.
Proof.
  intros H1. revert l2. induction H1 as [|x l1 Hx H1 IH]; intros [|y l2] H2; cbn; try done;
    inversion H2; subst; [split; [lia|done]|split; [lia|done]|].
  destruct (Z.eqb_spec x y) as [->|Hne]; [rewrite IH by done; naive_solver|]. split; [lia|congruence].
Qed.

Lemma cstr_tail_frame m s c t l :
  cstr m t l -> (s < t \/ t + Z.of_nat (length l) < s) -> cstr (<[s := c]> m) t l.
Proof.
  intros Hc Hd. revert Hc. apply cstr_frame. intros x Hx. apply lookup_insert_ne. lia.
Qed.

Lemma safestrcpy_loop_ok n s t m l :
  cstr m t l -> mapped m s (Z.of_nat n + 1) ->
  (s + Z.of_nat n < t \/ t + Z.of_nat (length l) < s) ->
  exists m', safestrcpy_loop n s t m = Some m' /\ cstr m' s (take n l) /\
    forall a, ~ (s <= a <= s + Z.of_nat n) -> m' !! a = m !! a.
Proof.
  revert s t m l. induction n as [|n IH]; intros s t m l Hc Hm Hd; cbn [safestrcpy_loop].
  - rewrite st_ok by (eapply mapped_at; [done|lia]). eexists. split; [done|].
    split; [by apply lookup_insert_eq|]. intros a Ha. apply lookup_insert_ne. lia.
  - rewrite Nat2Z.inj_succ, <- Z.add_1_r in *. unfold ld. destruct l as [|x l]; cbn [cstr length] in *.
    + rewrite Hc. cbn [mbind option_bind]. rewrite st_ok by (eapply mapped_at; [done|lia]). cbn [mbind option_bind].
      change (0 =? 0) with true. cbn iota.
      rewrite st_ok by (apply mapped_insert with (n := Z.of_nat n + 1 + 1) (a := s) (b := s) (v := 0) in Hm;
        eapply mapped_at; [done|lia]).
      eexists. split; [done|]. split.
      * change (<[s + 1 := 0]> (<[s := 0]> m) !! s = Some 0). rewrite lookup_insert_ne by lia. apply lookup_insert_eq.
      * intros a Ha. rewrite !lookup_insert_ne by lia. done.
    + destruct Hc as (Hx & Hne & Hc). rewrite Hx. cbn [mbind option_bind].
      rewrite st_ok by (eapply mapped_at; [done|lia]). cbn [mbind option_bind].
      rewrite (proj2 (Z.eqb_neq x 0)) by done.
      destruct (IH (s + 1) (t + 1) (<[s := x]> m) l) as (m' & E & Hc' & Hfr).
      { apply cstr_tail_frame; [done|lia]. }
      { apply mapped_insert. by apply mapped_tail. }
      { lia. }
      exists m'. split; [done|]. split.
      * cbn [take cstr]. split_and!; [|done|done]. rewrite Hfr by lia. apply lookup_insert_eq.
      * intros a Ha. rewrite Hfr by lia. apply lookup_insert_ne. lia.
Qed.

Lemma safestrcpy_ok s t n m l :
  0 < n -> cstr m t l -> mapped m s n -> (s + n <= t \/ t + Z.of_nat (length l) < s) ->
  exists m', safestrcpy s t n m = Some m' /\ cstr m' s (take (Z.to_nat (n - 1)) l) /\
    forall a, ~ (s <= a < s + n) -> m' !! a = m !! a.
Proof.
  intros Hn Hc Hm Hd. unfold safestrcpy. rewrite (proj2 (Z.leb_gt n 0)) by done.
  destruct (safestrcpy_loop_ok (Z.to_nat (n - 1)) s t m l) as (m' & E & Hc' & Hfr); [done| |lia|].
  { by replace (Z.of_nat (Z.to_nat (n - 1)) + 1) with n by lia. }
  exists m'. split_and!; [done|done|]. intros a Ha. apply Hfr. lia.
Qed.

(** [safestrcpy(s, t, n)] leaves at [s] the first [n - 1] bytes of the
    string [t], terminated by a zero, and writes nothing outside the [n] bytes
    it was given. *)
Theorem safestrcpy_spec (s t n : Z) (m : mem) (l : list Z) :
  0 < n -> cstr m t l -> mapped m s n -> (s + n <= t \/ t + Z.of_nat (length l) < s) ->
  exists m', safestrcpy s t n m = Some m' /\ cstr m' s (take (Z.to_nat (n - 1)) l) /\
    (forall a, ~ (s <= a < s + n) -> m' !! a = m !! a) /\ cstr m' t l.
Proof.
  intros Hn Hc Hm Hd. destruct (safestrcpy_ok s t n m l Hn Hc Hm Hd) as (m' & E & Hc' & Hfr).
  exists m'. split_and!; [done|done|done|]. revert Hc. apply cstr_frame. intros x Hx. apply Hfr. lia.
Qed.

Lemma safestrcpy_spec_witness :
  exists m', safestrcpy 100 105 3 (bytes_at 100 [1;1;1;1;1;97;98;99;0]) = Some m' /\ cstr m' 100 [97; 98].
Proof.
  destruct (safestrcpy_spec 100 105 3 (bytes_at 100 [1;1;1;1;1;97;98;99;0]) [97; 98; 99]) as (m' & E & Hc & _).
  - lia.
  - vm_compute. repeat split; discriminate.
  - by apply mapped_bytes_at.
  - left. lia.
  - exists m'. split; [exact E|exact Hc].
Defined.

(** [strcmp] compares two strings lexicographically: it returns 0 exactly
    when they are equal, and [strncmp] returns 0 exactly when their first [n]
    bytes are. *)
Theorem strcmp_spec (p q n : Z) (m : mem) (l1 l2 : list Z) :
  cstr m p l1 -> cstr m q l2 -> nonzero l1 -> nonzero l2 ->
  (exists r, strcmp p q m = Some r /\ (r = 0 <-> l1 = l2)) /\
  (exists r, strncmp p q n m = Some r /\ (r = 0 <-> take (Z.to_nat n) l1 = take (Z.to_nat n) l2)).
Proof.
  intros H1 H2 N1 N2. split.
  - exists (diff l1 l2). split; [|by apply diff_zero]. apply strcmp_loop_ok; [done|done|by eapply cstr_fuel].
  - exists (diff (take (Z.to_nat n) l1) (take (Z.to_nat n) l2)). split; [by apply strncmp_loop_ok|].
    apply diff_zero; by apply Forall_take.
Qed.

Lemma strcmp_spec_witness :
  (exists r, strcmp 100 103 (bytes_at 100 [97;98;0;97;99;0]) = Some r /\ (r = 0 <-> [97;98] = [97;99])) /\
  (exists r, strncmp 100 103 1 (bytes_at 100 [97;98;0;97;99;0]) = Some r /\
    (r = 0 <-> take 1 [97;98] = take 1 [97;99])).
Proof.
  apply (strcmp_spec 100 103 1 (bytes_at 100 [97;98;0;97;99;0]) [97;98] [97;99]);
    first [by repeat constructor | vm_compute; repeat split; discriminate].
Defined.

(** ** Numbers *)

Definition digit (c : Z) : bool := (48 <=? c) && (c <=? 57).

(** The number that a list of digits spells in base [b]. *)
Fixpoint value (b acc : Z) (l : list Z) : Z :=
  match l with
  | [] => acc
  | c :: l => value b (acc * b + (c - 48)) l
  end.

Lemma value_mono acc l : 0 <= acc -> Forall (fun c => digit c = true) l -> acc <= value 10 acc l.
Proof.
  intros Ha Hl. revert acc Ha. induction Hl as [|c l Hc Hl IH]; intros acc Ha; cbn; [lia|].
  unfold digit in Hc. apply andb_true_iff in Hc as [?%Z.leb_le ?%Z.leb_le].
  etransitivity; [|apply IH; lia]. lia.
Qed.

Lemma atoi_loop_ok fuel s n m l c :
  (forall i x, l !! i = Some x -> m !! (s + Z.of_nat i) = Some x) ->
  m !! (s + Z.of_nat (length l)) = Some c -> digit c = false ->
  Forall (fun x => digit x = true) l -> (length l < fuel)%nat ->
  0 <= n -> value 10 n l < 2 ^ 31 - 48 -> atoi_loop fuel s n m = Some (value 10 n l).
Proof.
  revert s n l. induction fuel as [|fuel IH]; intros s n l Hm Hc Hnd Hl Hf Hn Hv; [lia|]. cbn [atoi_loop].
  unfold ld. destruct l as [|x l]; cbn [length value] in *.
  - replace (s + Z.of_nat 0) with s in Hc by lia. rewrite Hc. cbn [mbind option_bind].
    unfold digit in Hnd. by rewrite Hnd.
  - pose proof (Hm O x eq_refl) as Hx. replace (s + Z.of_nat 0) with s in Hx by lia. rewrite Hx. cbn [mbind option_bind].
    inversion Hl as [|? ? Hd Hl']; subst. pose proof Hd as Hd'. unfold digit in Hd. rewrite Hd.
    apply andb_true_iff in Hd as [?%Z.leb_le ?%Z.leb_le].
    pose proof (value_mono (n * 10 + (x - 48)) l ltac:(lia) Hl').
    rewrite (s32_small (n * 10)), (s32_small (n * 10 + x)), s32_small by lia.
    replace (n * 10 + x - 48) with (n * 10 + (x - 48)) by lia. apply IH; try done; try lia.
    + intros i y Hy. replace (s + 1 + Z.of_nat i) with (s + Z.of_nat (S i)) by lia. by apply Hm.
    + replace (s + 1 + Z.of_nat (length l)) with (s + Z.of_nat (S (length l))) by lia. done.
Qed.
