(* ===== verification/ListC.v ===== *)
(** * kernel/list.c: doubly-linked circular lists

    The list nodes live in memory: a finite map from the address of a
    [struct list] to its two fields.  Each operation is the sequence of loads
    and stores of the C code.  [dll m lst l] says that the memory [m] holds the
    circular list with head node [lst] and elements [l]; every operation is
    proved to implement its meaning on [l]. *)

From S2P Require Import Prelude.

Record lnode := { next : Z; prev : Z }.

Abbreviation lmem := (gmap Z lnode).

Definition nextof (m : lmem) (a : Z) : option Z := next <$> m !! a.
Definition prevof (m : lmem) (a : Z) : option Z := prev <$> m !! a.

(** A store to a field of raw memory leaves the other field as it is. *)
Definition set_next (m : lmem) (a v : Z) : lmem :=
  <[a := {| next := v; prev := default 0 (prevof m a) |}]> m.
Definition set_prev (m : lmem) (a v : Z) : lmem :=
  <[a := {| next := default 0 (nextof m a); prev := v |}]> m.

Definition ld_next (a : Z) : M lmem Z := fun m => unwrap (nextof m a) m.
Definition ld_prev (a : Z) : M lmem Z := fun m => unwrap (prevof m a) m.
Definition st_next (a v : Z) : M lmem unit := modify (fun m => set_next m a v).
Definition st_prev (a v : Z) : M lmem unit := modify (fun m => set_prev m a v).

(** ** The operations *)

Definition lst_init (lst : Z) : M lmem unit :=
  st_next lst lst ;;;
  st_prev lst lst.

Definition lst_empty (lst : Z) : M lmem bool :=
  n <- ld_next lst ;;
  ret (n =? lst).

Definition lst_remove (e : Z) : M lmem unit :=
  ep <- ld_prev e ;;
  en <- ld_next e ;;
  st_next ep en ;;;
  en <- ld_next e ;;
  ep <- ld_prev e ;;
  st_prev en ep.

Definition lst_pop (lst : Z) : M lmem Z :=
  n <- ld_next lst ;;
  if n =? lst then panic "lst_pop" else
  p <- ld_next lst ;;
  lst_remove p ;;;
  ret p.

Definition lst_push (lst p : Z) : M lmem unit :=
  let e := p in
  n <- ld_next lst ;;
  st_next e n ;;;
  st_prev e lst ;;;
  n <- ld_next lst ;;
  st_prev n p ;;;
  st_next lst e.

(** The addresses [lst_print] prints, in order. *)
Fixpoint lst_print_from (fuel : nat) (lst p : Z) : M lmem (list Z) :=
  match fuel with
  | O => nofuel
  | S fuel =>
      if p =? lst then ret [] else
      n <- ld_next p ;;
      r <- lst_print_from fuel lst n ;;
      ret (p :: r)
  end.

Definition lst_print (fuel : nat) (lst : Z) : M lmem (list Z) :=
  n <- ld_next lst ;;
  lst_print_from fuel lst n.

(** ** The lists they implement *)

Definition links (m : lmem) (a b : Z) : Prop :=
  nextof m a = Some b /\ prevof m b = Some a.

Fixpoint chain (m : lmem) (l : list Z) : Prop :=
  match l with
  | a :: ((b :: _) as r) => links m a b /\ chain m r
  | _ => True
  end.

Definition dll (m : lmem) (lst : Z) (l : list Z) : Prop :=
  NoDup (lst :: l) /\ chain m (lst :: l ++ [lst]).

Lemma nextof_set_next m a v b :
  nextof (set_next m a v) b = if decide (a = b) then Some v else nextof m b.
Proof. unfold nextof, set_next. rewrite lookup_insert. by case_decide. Qed.

Lemma prevof_set_prev m a v b :
  prevof (set_prev m a v) b = if decide (a = b) then Some v else prevof m b.
Proof. unfold prevof, set_prev. rewrite lookup_insert. by case_decide. Qed.

Lemma prevof_set_next m a v b x :
  prevof m b = Some x -> prevof (set_next m a v) b = Some x.
Proof.
  unfold set_next, prevof. rewrite lookup_insert. case_decide; [subst|done].
  by intros ->.
Qed.

Lemma nextof_set_prev m a v b x :
  nextof m b = Some x -> nextof (set_prev m a v) b = Some x.
Proof.
  unfold set_prev, nextof. rewrite lookup_insert. case_decide; [subst|done].
  by intros ->.
Qed.

Lemma set_next_ne m a v b : a <> b -> set_next m a v !! b = m !! b.
Proof. apply lookup_insert_ne. Qed.

Lemma set_prev_ne m a v b : a <> b -> set_prev m a v !! b = m !! b.
Proof. apply lookup_insert_ne. Qed.

Lemma ld_next_ok m a v : nextof m a = Some v -> ld_next a m = Ret v m.
Proof. unfold ld_next. by intros ->. Qed.

Lemma ld_prev_ok m a v : prevof m a = Some v -> ld_prev a m = Ret v m.
Proof. unfold ld_prev. by intros ->. Qed.

Lemma chain_split m l1 x l2 :
  chain m (l1 ++ x :: l2) <-> chain m (l1 ++ [x]) /\ chain m (x :: l2).
Proof.
  induction l1 as [|a l1 IH]; [cbn; tauto|].
  destruct l1 as [|b l1]; cbn in *; tauto.
Qed.

(** A chain only depends on the [next] fields of all its nodes but the last
    and on the [prev] fields of all but the first. *)
Lemma chain_frame m m' x l y :
  (forall a v, a ∈ x :: l -> nextof m a = Some v -> nextof m' a = Some v) ->
  (forall a v, a ∈ l ++ [y] -> prevof m a = Some v -> prevof m' a = Some v) ->
  chain m (x :: l ++ [y]) -> chain m' (x :: l ++ [y]).
Proof.
  revert x. induction l as [|z l IH]; intros x Hn Hp; cbn.
  - intros [[H1 H2] _]. split; [split|done]; [apply Hn|apply Hp]; set_solver.
  - intros [[H1 H2] H3]. split; [split|].
    + apply Hn; [set_solver|done].
    + apply Hp; [set_solver|done].
    + apply IH; [| |done]; intros a v Ha; [apply Hn|apply Hp]; set_solver.
Qed.

Lemma dll_frame m m' lst l :
  (forall a, a ∈ lst :: l -> m' !! a = m !! a) -> dll m lst l -> dll m' lst l.
Proof.
  intros Hm [Hd Hc]. split; [done|].
  apply (chain_frame m); [| |done]; unfold nextof, prevof;
    intros a v Ha; rewrite Hm by set_solver; done.
Qed.

Lemma dll_first m lst l :
  dll m lst l -> nextof m lst = Some (default lst (head l)).
Proof. intros [_ Hc]. destruct l; apply Hc. Qed.

Lemma dll_nil_or_cons lst l : NoDup (lst :: l) -> (default lst (head l) =? lst) = bool_decide (l = []).
Proof.
  intros Hd. destruct l as [|x l]; cbn; [lia|].
  apply Z.eqb_neq. apply list.NoDup_cons in Hd as [Hd _]. set_solver.
Qed.

Lemma lst_init_dll m lst :
  exists m', lst_init lst m = Ret tt m' /\ dll m' lst [] /\
    (forall a, a <> lst -> m' !! a = m !! a).
Proof.
  eexists. split; [done|]. split; [split; [apply NoDup_singleton|]|].
  - cbn. split; [split|done].
    + apply nextof_set_prev. by rewrite nextof_set_next, decide_True.
    + by rewrite prevof_set_prev, decide_True.
  - intros a Ha. by rewrite set_prev_ne, set_next_ne.
Qed.

Lemma lst_empty_dll m lst l :
  dll m lst l -> lst_empty lst m = Ret (bool_decide (l = [])) m.
Proof.
  intros H. unfold lst_empty. run (ld_next_ok _ _ _ (dll_first _ _ _ H)).
  rewrite dll_nil_or_cons by apply H. done.
Qed.

Lemma lst_push_dll m lst e l :
  dll m lst l -> e ∉ lst :: l ->
  exists m', lst_push lst e m = Ret tt m' /\ dll m' lst (e :: l) /\
    (forall a, a ∉ lst :: e :: l -> m' !! a = m !! a).
Proof.
  intros H He. pose proof (dll_first _ _ _ H) as Hf. destruct H as [Hd Hc].
  assert (e <> lst) by set_solver.
  set (f := default lst (head l)) in *.
  assert (Hfin : f ∈ lst :: l) by (subst f; destruct l; set_solver).
  eexists. split.
  { unfold lst_push. run (ld_next_ok _ _ _ Hf). unfold st_next, st_prev. mstep.
    erewrite bind_ret_l.
    2: { apply ld_next_ok. apply nextof_set_prev. rewrite nextof_set_next.
         rewrite decide_False by done. done. }
    cbv beta. mstep. reflexivity. }
  split; [split|].
  - apply list.NoDup_cons in Hd as [Hd1 Hd2]. constructor; [set_solver|]. constructor; [set_solver|done].
  - change (lst :: (e :: l) ++ [lst]) with ([lst] ++ e :: (l ++ [lst])).
    apply chain_split. split.
    + cbn. split; [split|done].
      * by rewrite nextof_set_next, decide_True.
      * apply prevof_set_next. rewrite prevof_set_prev.
        rewrite decide_False by set_solver. by rewrite prevof_set_prev, decide_True.
    + assert (links (set_next (set_prev (set_prev (set_next m e f) e lst) f e) lst e) e f) as Hl.
      { split.
        - rewrite nextof_set_next, decide_False by done.
          do 2 apply nextof_set_prev. by rewrite nextof_set_next, decide_True.
        - apply prevof_set_next. by rewrite prevof_set_prev, decide_True. }
      destruct l as [|x l]; cbn in f; subst f; [by split|].
      split; [done|]. apply chain_split with (l1 := [lst]) in Hc as [_ Hc].
      apply list.NoDup_cons in Hd as [Hd1 [Hd2 Hd3]%list.NoDup_cons].
      revert Hc. apply chain_frame; intros a v Ha Hv.
      * rewrite nextof_set_next, decide_False by set_solver.
        do 2 apply nextof_set_prev. rewrite nextof_set_next, decide_False by set_solver. done.
      * apply prevof_set_next. rewrite !prevof_set_prev.
        rewrite !decide_False by set_solver. by apply prevof_set_next.
  - intros a Ha. rewrite set_next_ne, !set_prev_ne, set_next_ne; set_solver.
Qed.

Lemma chain_mid_links m p e n A B :
  chain m (A ++ p :: e :: n :: B) -> links m p e /\ links m e n.
Proof. intros [_ H]%chain_split. cbn in H. tauto. Qed.

Lemma lst_remove_dll m lst l1 e l2 :
  dll m lst (l1 ++ e :: l2) ->
  exists m', lst_remove e m = Ret tt m' /\ dll m' lst (l1 ++ l2) /\
    (forall a, a ∉ lst :: l1 ++ l2 -> m' !! a = m !! a).
Proof.
  intros [Hd Hc].
  destruct (exists_last (l := lst :: l1)) as (A & p & HA); [done|].
  destruct (l2 ++ [lst]) as [|n B] eqn:HB; [by destruct l2|].
  assert (Hc' : chain m (A ++ p :: e :: n :: B)).
  { replace (A ++ p :: e :: n :: B) with (lst :: (l1 ++ e :: l2) ++ [lst]); [done|].
    rewrite <- HB, <- app_assoc. cbn. by rewrite app_comm_cons, HA, <- app_assoc. }
  pose proof (chain_mid_links _ _ _ _ _ _ Hc') as [[Hpn Hep] [Hen Hnp]].
  assert (Hnd : NoDup (e :: lst :: l1 ++ l2)).
  { revert Hd. apply NoDup_Permutation_proper.
    rewrite <- Permutation_middle. constructor. }
  apply list.NoDup_cons in Hnd as [He Hnd].
  assert (Hp : p ∈ lst :: l1) by (rewrite HA; set_solver).
  assert (Hn : n ∈ lst :: l2) by (assert (n ∈ l2 ++ [lst]) by (rewrite HB; set_solver); set_solver).
  exists (set_prev (set_next m p n) n p). split; [|split; [split; [done|]|]].
  - unfold lst_remove. run (ld_prev_ok _ _ _ Hep). run (ld_next_ok _ _ _ Hen). unfold st_next, st_prev. mstep.
    erewrite bind_ret_l.
    2: { apply ld_next_ok. rewrite nextof_set_next, decide_False by set_solver. done. }
    cbv beta. erewrite bind_ret_l; [|apply ld_prev_ok, prevof_set_next; done]. done.
  - rewrite <- app_assoc, app_comm_cons, HB, HA, <- app_assoc. cbn.
    apply chain_split in Hc' as [HcA HcB]. cbn in HcB. destruct HcB as [_ [_ HcB]].
    apply chain_split. split; [|split].
    + destruct A as [|a A]; [done|]. injection HA as -> HA. subst l1.
      revert HcA. cbn [app]. apply chain_frame; intros a' v Ha Hv.
      * apply nextof_set_prev. rewrite nextof_set_next, decide_False; [done|].
        apply list.NoDup_cons in Hnd as [Hx Hnd]. apply list.NoDup_app in Hnd as [Hnd _].
        apply list.NoDup_app in Hnd as (_ & Hnd & _). set_solver.
      * rewrite prevof_set_prev, decide_False; [by apply prevof_set_next|].
        apply list.NoDup_cons in Hnd as [Hx Hnd]. apply list.NoDup_app in Hnd as (_ & Hnd & _).
        set_solver.
    + split; [apply nextof_set_prev; by rewrite nextof_set_next, decide_True|].
      by rewrite prevof_set_prev, decide_True.
    + destruct l2 as [|n' l2]; cbn in HB; injection HB as -> <-; [done|].
      revert HcB. apply chain_frame; intros a' v Ha Hv.
      * apply nextof_set_prev. rewrite nextof_set_next, decide_False; [done|].
        apply list.NoDup_cons in Hnd as [Hx Hnd]. apply list.NoDup_app in Hnd as (_ & Hnd & _).
        set_solver.
      * rewrite prevof_set_prev, decide_False; [by apply prevof_set_next|].
        apply list.NoDup_cons in Hnd as [Hx Hnd]. apply list.NoDup_app in Hnd as (_ & _ & Hnd).
        apply list.NoDup_cons in Hnd. set_solver.
  - intros a Ha. rewrite set_prev_ne, set_next_ne; set_solver.
Qed.

Lemma lst_pop_dll m lst x l :
  dll m lst (x :: l) ->
  exists m', lst_pop lst m = Ret x m' /\ dll m' lst l /\
    (forall a, a ∉ lst :: l -> m' !! a = m !! a).
Proof.
  intros H. destruct (lst_remove_dll m lst [] x l H) as (m' & Hr & Hd & Hf).
  exists m'. split; [|done]. unfold lst_pop.
  pose proof (dll_first _ _ _ H) as Hx. cbn in Hx.
  run (ld_next_ok _ _ _ Hx).
  assert (x =? lst = false) as ->.
  { apply Z.eqb_neq. destruct H as [Hn _]. apply list.NoDup_cons in Hn. set_solver. }
  run (ld_next_ok _ _ _ Hx). by run Hr.
Qed.

Lemma lst_pop_empty m lst : dll m lst [] -> lst_pop lst m = Panic "lst_pop".
Proof.
  intros H. unfold lst_pop. pose proof (dll_first _ _ _ H) as Hx. cbn in Hx.
  run (ld_next_ok _ _ _ Hx). by rewrite Z.eqb_refl.
Qed.
