(* ===== verification/Buddy.v ===== *)
(** * kernel/buddy.c and kernel/kalloc.c: the buddy allocator

    The state is the C state: the number of sizes, the base address, one
    [sz_info] per size with its two bit arrays of bytes, and the memory of the
    circular free lists, whose heads lie in the [bd_sizes] array at [bd_base]
    and whose nodes lie in the free blocks.  What [printf] writes to the console
    is not part of the state. *)

From S2P Require Import Prelude Riscv ListC.

Definition LEAF_SIZE : Z := 16.
Definition BLK_SIZE (k : Z) : Z := 2 ^ k * LEAF_SIZE.
Definition ROUNDUP (n sz : Z) : Z := (Z.quot (n - 1) sz + 1) * sz.

(** sizeof(Sz_info): a list node and two pointers. *)
Definition SZ_INFO : Z := 32.

Record sz_info := { alloc : list Z; split : list Z }.

Record buddy := {
  b_cx : ctx;
  nsizes : Z;
  bd_base : Z;
  bd_sizes : list sz_info;
  lists : lmem
}.

Definition set_b_cx (c : ctx) (s : buddy) : buddy :=
  {| b_cx := c; nsizes := nsizes s; bd_base := bd_base s; bd_sizes := bd_sizes s;
     lists := lists s |}.
Definition set_nsizes (n : Z) (s : buddy) : buddy :=
  {| b_cx := b_cx s; nsizes := n; bd_base := bd_base s; bd_sizes := bd_sizes s;
     lists := lists s |}.
Definition set_bd_base (b : Z) (s : buddy) : buddy :=
  {| b_cx := b_cx s; nsizes := nsizes s; bd_base := b; bd_sizes := bd_sizes s;
     lists := lists s |}.
Definition set_bd_sizes (z : list sz_info) (s : buddy) : buddy :=
  {| b_cx := b_cx s; nsizes := nsizes s; bd_base := bd_base s; bd_sizes := z;
     lists := lists s |}.
Definition set_lists (m : lmem) (s : buddy) : buddy :=
  {| b_cx := b_cx s; nsizes := nsizes s; bd_base := bd_base s; bd_sizes := bd_sizes s;
     lists := m |}.

#[export] Program Instance buddy_ctx : HasCtx buddy := {| cx := b_cx; set_cx := set_b_cx |}.
Solve All Obligations with (intros; by repeat match goal with s : buddy |- _ => destruct s end).

Definition MAXSIZE (s : buddy) : Z := nsizes s - 1.
Definition NBLK (k : Z) (s : buddy) : Z := 2 ^ (MAXSIZE s - k).

Definition buddy_lock : lock := ("buddy"%string, 0).

(** &bd_sizes[k].free *)
Definition free_head (k : Z) (s : buddy) : Z := bd_base s + SZ_INFO * k.

Definition on_lists {A} (m : M lmem A) : M buddy A := zoom lists set_lists m.

(** ** Bit arrays *)

Definition bit_mask (index : Z) : Z := u8 (Z.shiftl 1 (Z.rem index 8)).

Definition bit_isset (array : list Z) (index : Z) : option bool :=
  b ← aget array (Z.quot index 8);
  let m := bit_mask index in
  Some (Z.land b m =? m).

Definition bit_set (array : list Z) (index : Z) : option (list Z) :=
  b ← aget array (Z.quot index 8);
  aset array (Z.quot index 8) (u8 (Z.lor b (bit_mask index))).

Definition bit_clear (array : list Z) (index : Z) : option (list Z) :=
  b ← aget array (Z.quot index 8);
  aset array (Z.quot index 8) (u8 (Z.land b (Z.lnot (bit_mask index)))).

(** The loop of [bd_print_vector] with [n] bits left to look at, and the ranges
    it prints. *)
Fixpoint print_vector_loop (n : nat) (vector : list Z) (b lb : Z) (last : bool)
    : option (list (Z * Z) * Z * bool) :=
  match n with
  | O => Some ([], lb, last)
  | S n =>
      v ← bit_isset vector b;
      if Bool.eqb last v then print_vector_loop n vector (b + 1) lb last else
      '(out, lb', last') ← print_vector_loop n vector (b + 1) b v;
      Some ((if last then (lb, b) :: out else out), lb', last')
  end.

Definition bd_print_vector (vector : list Z) (len : Z) : option (list (Z * Z)) :=
  '(out, lb, last) ← print_vector_loop (Z.to_nat len) vector 0 0 true;
  Some (if (lb =? 0) || last then out ++ [(lb, len)] else out).

(** [bit_isset(bd_sizes[k].alloc, i)] and so on. *)
Definition alloc_isset (k i : Z) : M buddy bool :=
  z <- gets (fun s => aget (bd_sizes s) k) ;;
  unwrap (z ← z; bit_isset (alloc z) i).

Definition split_isset (k i : Z) : M buddy bool :=
  z <- gets (fun s => aget (bd_sizes s) k) ;;
  unwrap (z ← z; bit_isset (split z) i).

Definition upd_alloc (f : list Z -> option (list Z)) (k : Z) : M buddy unit :=
  l <- gets bd_sizes ;;
  l' <- unwrap (z ← aget l k; a ← f (alloc z); aset l k {| alloc := a; split := split z |}) ;;
  modify (set_bd_sizes l').

Definition upd_split (f : list Z -> option (list Z)) (k : Z) : M buddy unit :=
  l <- gets bd_sizes ;;
  l' <- unwrap (z ← aget l k; a ← f (split z); aset l k {| alloc := alloc z; split := a |}) ;;
  modify (set_bd_sizes l').

Definition set_alloc (k i : Z) : M buddy unit := upd_alloc (fun a => bit_set a i) k.
Definition clear_alloc (k i : Z) : M buddy unit := upd_alloc (fun a => bit_clear a i) k.
Definition set_split (k i : Z) : M buddy unit := upd_split (fun a => bit_set a i) k.
Definition clear_split (k i : Z) : M buddy unit := upd_split (fun a => bit_clear a i) k.

(** ** Sizes and addresses *)

(** The loop of [firstk]: at most 64 doublings of a [uint64] before it wraps
    to zero. *)
Fixpoint firstk_loop (fuel : nat) (n k size : Z) : option Z :=
  match fuel with
  | O => None
  | S fuel => if size <? n then firstk_loop fuel n (k + 1) (u64 (size * 2)) else Some k
  end.

Definition firstk (fuel : nat) (n : Z) : option Z := firstk_loop fuel n 0 LEAF_SIZE.

(** Enough iterations for every size the loop ends on (see [firstk_spec]). *)
Definition firstk_fuel : nat := 64.

Definition blk_index (k p : Z) (s : buddy) : Z :=
  let n := s32 (p - bd_base s) in
  Z.quot n (BLK_SIZE k).

Definition addr (k bi : Z) (s : buddy) : Z :=
  let n := s32 (bi * BLK_SIZE k) in
  bd_base s + n.

(** The buddy of block [bi] at its size. *)
Definition buddy_of (bi : Z) : Z := if Z.rem bi 2 =? 0 then bi + 1 else bi - 1.

(** ** bd_malloc *)

(** [for (k = fk; k < nsizes; k++) if(!lst_empty(&bd_sizes[k].free)) break;]
    with [n] sizes left. *)
Fixpoint find_free (n : nat) (k : Z) : M buddy Z :=
  match n with
  | O => ret k
  | S n =>
      h <- gets (free_head k) ;;
      e <- on_lists (lst_empty h) ;;
      if negb e then ret k else find_free n (k + 1)
  end.

(** [for(; k > fk; k--)]: split the block [p] of size [k], [n = k - fk] times. *)
Fixpoint split_loop (n : nat) (k p : Z) : M buddy unit :=
  match n with
  | O => ret tt
  | S n =>
      let q := p + BLK_SIZE (k - 1) in
      bi <- gets (blk_index k p) ;;
      set_split k bi ;;;
      bi <- gets (blk_index (k - 1) p) ;;
      set_alloc (k - 1) bi ;;;
      h <- gets (free_head (k - 1)) ;;
      on_lists (lst_push h q) ;;;
      split_loop n (k - 1) p
  end.

Definition bd_malloc (nbytes : Z) : M buddy Z :=
  acquire buddy_lock ;;;
  match firstk firstk_fuel nbytes with
  | None => nofuel
  | Some fk =>
      ns <- gets nsizes ;;
      k <- find_free (Z.to_nat (ns - fk)) fk ;;
      if ns <=? k then
        release buddy_lock ;;;
        ret 0
      else
        h <- gets (free_head k) ;;
        p <- on_lists (lst_pop h) ;;
        bi <- gets (blk_index k p) ;;
        set_alloc k bi ;;;
        split_loop (Z.to_nat (k - fk)) k p ;;;
        release buddy_lock ;;;
        ret p
  end.

(** ** bd_free *)

(** The loop of [size] with [n] sizes left to look at. *)
Fixpoint size_loop (n : nat) (k p : Z) : M buddy Z :=
  match n with
  | O => ret 0
  | S n =>
      bi <- gets (blk_index (k + 1) p) ;;
      b <- split_isset (k + 1) bi ;;
      if b : bool then ret k else size_loop n (k + 1) p
  end.

Definition size (p : Z) : M buddy Z :=
  ns <- gets nsizes ;;
  size_loop (Z.to_nat ns) 0 p.

(** The loop of [bd_free] with [n = MAXSIZE - k] sizes left: the size and the
    address to put on a free list. *)
Fixpoint free_loop (n : nat) (k p : Z) : M buddy (Z * Z) :=
  match n with
  | O => ret (k, p)
  | S n =>
      bi <- gets (blk_index k p) ;;
      let buddy := buddy_of bi in
      clear_alloc k bi ;;;
      b <- alloc_isset k buddy ;;
      if b : bool then ret (k, p) else
      q <- gets (addr k buddy) ;;
      on_lists (lst_remove q) ;;;
      let p := if Z.rem buddy 2 =? 0 then q else p in
      bi <- gets (blk_index (k + 1) p) ;;
      clear_split (k + 1) bi ;;;
      free_loop n (k + 1) p
  end.

Definition bd_free (p : Z) : M buddy unit :=
  acquire buddy_lock ;;;
  k <- size p ;;
  mx <- gets MAXSIZE ;;
  kp <- free_loop (Z.to_nat (mx - k)) k p ;;
  h <- gets (free_head (fst kp)) ;;
  on_lists (lst_push h (snd kp)) ;;;
  release buddy_lock.

(** ** Initialisation *)

Definition blk_index_next (k p : Z) (s : buddy) : Z :=
  let n := s32 (Z.quot (p - bd_base s) (BLK_SIZE k)) in
  if negb (Z.rem (p - bd_base s) (BLK_SIZE k) =? 0) then s32 (n + 1) else n.

Fixpoint log2_loop (fuel : nat) (k n : Z) : option Z :=
  match fuel with
  | O => None
  | S fuel => if 1 <? n then log2_loop fuel (k + 1) (Z.shiftr n 1) else Some k
  end.

(** A [uint64] is zero after 64 shifts. *)
Definition log2 (n : Z) : option Z := log2_loop 65 0 n.

(** [for(; bi < bj; bi++)] with [n = bj - bi]. *)
Fixpoint mark_range (n : nat) (k bi : Z) : M buddy unit :=
  match n with
  | O => ret tt
  | S n =>
      when (0 <? k) (set_split k bi) ;;;
      set_alloc k bi ;;;
      mark_range n k (bi + 1)
  end.

Fixpoint mark_sizes (n : nat) (k start stop : Z) : M buddy unit :=
  match n with
  | O => ret tt
  | S n =>
      bi <- gets (blk_index k start) ;;
      bj <- gets (blk_index_next k stop) ;;
      mark_range (Z.to_nat (bj - bi)) k bi ;;;
      mark_sizes n (k + 1) start stop
  end.

Definition bd_mark (start stop : Z) : M buddy unit :=
  if negb (start mod LEAF_SIZE =? 0) || negb (stop mod LEAF_SIZE =? 0) then panic "bd_mark" else
  ns <- gets nsizes ;;
  mark_sizes (Z.to_nat ns) 0 start stop.

Definition bd_initfree_pair (k bi : Z) : M buddy Z :=
  let buddy := buddy_of bi in
  a <- alloc_isset k bi ;;
  b <- alloc_isset k buddy ;;
  if negb (Bool.eqb a b) then
    h <- gets (free_head k) ;;
    x <- gets (addr k (if a : bool then buddy else bi)) ;;
    on_lists (lst_push h x) ;;;
    ret (s32 (BLK_SIZE k))
  else ret 0.

Fixpoint initfree_loop (n : nat) (k bd_left bd_right free : Z) : M buddy Z :=
  match n with
  | O => ret free
  | S n =>
      left <- gets (blk_index_next k bd_left) ;;
      right <- gets (blk_index k bd_right) ;;
      f <- bd_initfree_pair k left ;;
      let free := s32 (free + f) in
      if right <=? left then initfree_loop n (k + 1) bd_left bd_right free else
      f <- bd_initfree_pair k right ;;
      initfree_loop n (k + 1) bd_left bd_right (s32 (free + f))
  end.

Definition bd_initfree (bd_left bd_right : Z) : M buddy Z :=
  mx <- gets MAXSIZE ;;
  initfree_loop (Z.to_nat mx) 0 bd_left bd_right 0.

Definition bd_mark_data_structures (p : Z) : M buddy Z :=
  base <- gets bd_base ;;
  let meta := s32 (p - base) in
  bd_mark base p ;;;
  ret meta.

Definition bd_mark_unavailable (end_ : Z) : M buddy Z :=
  base <- gets bd_base ;;
  mx <- gets MAXSIZE ;;
  let unavailable := s32 (BLK_SIZE mx - (end_ - base)) in
  let unavailable :=
    if 0 <? unavailable then s32 (ROUNDUP unavailable LEAF_SIZE) else unavailable in
  let bd_end := base + BLK_SIZE mx - unavailable in
  bd_mark bd_end (base + BLK_SIZE mx) ;;;
  ret unavailable.

(** [ROUNDUP(NBLK(k), 8)/8] *)
Definition bits_bytes (nblk : Z) : Z := Z.quot (ROUNDUP nblk 8) 8.

(** The first loop: initialise free list [k] and the alloc array of each size;
    the second: the split arrays of the sizes from 1. *)
Fixpoint init_alloc (n : nat) (k p : Z) : M buddy Z :=
  match n with
  | O => ret p
  | S n =>
      h <- gets (free_head k) ;;
      on_lists (lst_init h) ;;;
      nb <- gets (NBLK k) ;;
      let sz := bits_bytes nb in
      upd_alloc (fun _ => Some (replicate (Z.to_nat sz) 0)) k ;;;
      init_alloc n (k + 1) (p + sz)
  end.

Fixpoint init_split (n : nat) (k p : Z) : M buddy Z :=
  match n with
  | O => ret p
  | S n =>
      nb <- gets (NBLK k) ;;
      let sz := bits_bytes nb in
      upd_split (fun _ => Some (replicate (Z.to_nat sz) 0)) k ;;;
      init_split n (k + 1) (p + sz)
  end.

Definition bd_init (base end_ : Z) : M buddy unit :=
  let p := ROUNDUP base LEAF_SIZE in
  modify (set_bd_base p) ;;;
  lg <- unwrap (log2 (u64 (Z.quot (end_ - p) LEAF_SIZE))) ;;
  modify (set_nsizes (lg + 1)) ;;;
  mx <- gets MAXSIZE ;;
  when (BLK_SIZE mx <? end_ - p) (modify (fun s => set_nsizes (nsizes s + 1) s)) ;;;
  ns <- gets nsizes ;;
  modify (set_bd_sizes (replicate (Z.to_nat ns) {| alloc := []; split := [] |})) ;;;
  let p := p + SZ_INFO * ns in
  p <- init_alloc (Z.to_nat ns) 0 p ;;
  p <- init_split (Z.to_nat (ns - 1)) 1 p ;;
  let p := ROUNDUP p LEAF_SIZE in
  meta <- bd_mark_data_structures p ;;
  unavailable <- bd_mark_unavailable end_ ;;
  base <- gets bd_base ;;
  mx <- gets MAXSIZE ;;
  let bd_end := base + BLK_SIZE mx - unavailable in
  free <- bd_initfree p bd_end ;;
  if negb (free =? BLK_SIZE mx - meta - unavailable) then panic "bd_init: free mem"
  else ret tt.

(** ** kernel/kalloc.c *)

(** [end_] is the linker's symbol: the first address after the kernel. *)
Definition kinit (end_ : Z) : M buddy unit :=
  let p := PGROUNDUP end_ in
  bd_init p PHYSTOP.

Definition kfree (pa : Z) : M buddy unit := bd_free pa.
Definition kalloc : M buddy Z := bd_malloc PGSIZE.
