(* ===== verification/BuddyTree.v ===== *)
(** * The abstract buddy tree

    What the bit arrays of kernel/buddy.c mean.  Block [i] of size [k] covers
    the bytes [i * 16 * 2^k, (i+1) * 16 * 2^k) of the heap.  A block is present
    when it is the whole heap or its parent is split; a present block is free,
    used (allocated and not split) or split.  The four elementary changes the
    allocator makes are functions on such a tree, and each keeps it well
    formed. *)

From S2P Require Import Prelude.

Record tree := { A : Z -> Z -> bool; Sp : Z -> Z -> bool }.

Definition upd2 (f : Z -> Z -> bool) (k i : Z) (b : bool) : Z -> Z -> bool :=
  fun k' i' => if decide (k = k' /\ i = i') then b else f k' i'.

Lemma upd2_eq f k i b : upd2 f k i b k i = b.
Proof. unfold upd2. by rewrite decide_True. Qed.

Lemma upd2_ne f k i b k' i' : (k, i) <> (k', i') -> upd2 f k i b k' i' = f k' i'.
Proof. intros H. unfold upd2. rewrite decide_False; [done|]. by intros [-> ->]. Qed.

(** The four changes. *)
Definition take (k i : Z) (t : tree) : tree :=
  {| A := upd2 (A t) k i true; Sp := Sp t |}.
Definition give (k i : Z) (t : tree) : tree :=
  {| A := upd2 (A t) k i false; Sp := Sp t |}.
Definition cut (k i : Z) (t : tree) : tree :=
  {| A := upd2 (A t) (k - 1) (2 * i) true; Sp := upd2 (Sp t) k i true |}.
Definition fuse (k i : Z) (t : tree) : tree :=
  {| A := upd2 (A t) k i false; Sp := upd2 (Sp t) (k + 1) (i / 2) false |}.

Section Tree.
(** The size of the heap is 16 * 2^H bytes. *)
Context (H : Z).

Definition valid (k i : Z) : Prop := 0 <= k <= H /\ 0 <= i < 2 ^ (H - k).

Definition present (t : tree) (k i : Z) : Prop :=
  valid k i /\ (k = H \/ Sp t (k + 1) (i / 2) = true).

Definition free (t : tree) (k i : Z) : Prop := present t k i /\ A t k i = false.
Definition used (t : tree) (k i : Z) : Prop :=
  present t k i /\ A t k i = true /\ Sp t k i = false.

Definition buddyi (i : Z) : Z := if Z.even i then i + 1 else i - 1.

(** Block (k, i) holds none of the [H+1] free-list heads, 32 bytes apart at
    the start of the heap. *)
Definition nohead (k i : Z) : Prop :=
  forall j, 0 <= j <= H -> ~ (i * (2 ^ k * 16) <= 32 * j < (i + 1) * (2 ^ k * 16)).

Record wf (t : tree) : Prop := {
  wf_absent : forall k i, valid k i -> ~ present t k i -> A t k i = false /\ Sp t k i = false;
  wf_split : forall k i, valid k i -> Sp t k i = true -> A t k i = true;
  wf_leaf : forall i, Sp t 0 i = false;
  wf_head : forall k i, free t k i -> nohead k i;
  wf_coalesced : forall k i, k < H -> free t k i -> ~ free t k (buddyi i)
}.

Lemma pow2_pos k : 0 <= k -> 0 < 2 ^ k.
Proof. intros. apply Z.pow_pos_nonneg; lia. Qed.

Lemma pow2_S k : 0 <= k -> 2 ^ (k + 1) = 2 * 2 ^ k.
Proof. intros. rewrite Z.pow_add_r by lia. lia. Qed.

Lemma valid_parent k i : valid k i -> k < H -> valid (k + 1) (i / 2).
Proof.
  intros [Hk Hi] Hlt. split; [lia|].
  replace (H - k) with ((H - (k + 1)) + 1) in Hi by lia.
  rewrite pow2_S in Hi by lia.
  split; [apply Z.div_pos; lia|]. apply Z.div_lt_upper_bound; lia.
Qed.

Lemma valid_child k i b : valid k i -> 1 <= k -> 0 <= b <= 1 -> valid (k - 1) (2 * i + b).
Proof.
  intros [Hk Hi] H1 Hb. split; [lia|].
  replace (H - (k - 1)) with ((H - k) + 1) by lia.
  rewrite pow2_S by lia. lia.
Qed.

Lemma valid_half k j : valid k (j / 2) -> 1 <= k -> valid (k - 1) j.
Proof.
  intros Hv Hk. pose proof (Z.div_mod j 2 ltac:(lia)). pose proof (Z.mod_pos_bound j 2 ltac:(lia)).
  rewrite H0. apply valid_child; [done|done|lia].
Qed.

Lemma even_div2 i : Z.even i = true -> i = 2 * (i / 2).
Proof.
  intros He. pose proof (Z.div_mod i 2 ltac:(lia)) as Hd.
  rewrite Zeven_mod in He. lia.
Qed.

Lemma odd_div2 i : Z.even i = false -> i = 2 * (i / 2) + 1.
Proof.
  intros He. pose proof (Z.div_mod i 2 ltac:(lia)) as Hd.
  rewrite Zeven_mod in He. pose proof (Z.mod_pos_bound i 2). lia.
Qed.

Lemma buddyi_half i : buddyi i / 2 = i / 2.
Proof.
  unfold buddyi. destruct (Z.even i) eqn:E;
    [apply even_div2 in E|apply odd_div2 in E]; dlia.
Qed.

Lemma buddyi_invol i : buddyi (buddyi i) = i.
Proof.
  unfold buddyi at 2. destruct (Z.even i) eqn:E; unfold buddyi.
  - rewrite Z.even_add, E. cbn. lia.
  - rewrite Z.even_sub, E. cbn. lia.
Qed.

Lemma buddyi_ne i : buddyi i <> i.
Proof. unfold buddyi. destruct (Z.even i); lia. Qed.

Lemma half_cases i j : i / 2 = j / 2 -> i = j \/ i = buddyi j.
Proof.
  intros E. unfold buddyi.
  destruct (Z.even i) eqn:Ei; [apply even_div2 in Ei|apply odd_div2 in Ei];
  destruct (Z.even j) eqn:Ej; try apply even_div2 in Ej; try apply odd_div2 in Ej; lia.
Qed.

Lemma valid_buddy k i : valid k i -> k < H -> valid k (buddyi i).
Proof.
  intros [Hk Hi] Hlt. split; [lia|].
  replace (H - k) with ((H - (k + 1)) + 1) in * by lia.
  rewrite pow2_S in * by lia. unfold buddyi.
  destruct (Z.even i) eqn:E; [apply even_div2 in E|apply odd_div2 in E]; lia.
Qed.

Lemma present_buddy t k i : present t k i -> k < H -> present t k (buddyi i).
Proof.
  intros [Hv Hp] Hlt. split; [by apply valid_buddy|].
  rewrite buddyi_half. destruct Hp; [lia|by right].
Qed.

Lemma present_parent t k i :
  wf t -> present t k i -> k < H -> present t (k + 1) (i / 2) /\ Sp t (k + 1) (i / 2) = true.
Proof.
  intros Hw [Hv [->|Hs]] Hlt; [lia|]. split; [|done].
  pose proof (valid_parent _ _ Hv Hlt) as Hv'.
  split; [done|].
  destruct (decide (k + 1 = H)) as [->|Hne]; [by left|].
  destruct (Sp t (k + 1 + 1) (i / 2 / 2)) eqn:E; [by right|].
  destruct (wf_absent _ Hw _ _ Hv') as [_ Hx]; [|congruence].
  intros [_ [?|?]]; [lia|congruence].
Qed.

(** Every proper ancestor of a present block is split. *)
Lemma ancestor_split t k i d :
  wf t -> present t k i -> 1 <= d -> k + d <= H -> Sp t (k + d) (i / 2 ^ d) = true.
Proof.
  intros Hw Hp Hd. revert k i Hp. pattern d. apply Z.le_ind with (n := 1); [solve_proper| | |done].
  - intros k i Hp Hle. change (2 ^ 1) with 2. apply present_parent; [done|done|lia].
  - intros m Hm IH k i Hp Hle.
    destruct (present_parent _ _ _ Hw Hp) as [Hp' _]; [lia|].
    specialize (IH _ _ Hp' ltac:(lia)).
    replace (k + Z.succ m) with (k + 1 + m) by lia.
    replace (Z.succ m) with (1 + m) by lia.
    rewrite Z.pow_add_r, <- Z.div_div by lia. exact IH.
Qed.

(** Blocks that overlap are nested: the index of the larger one. *)
Lemma overlap_nested k i k' j x :
  0 <= k <= k' ->
  i * (2 ^ k * 16) <= x < (i + 1) * (2 ^ k * 16) ->
  j * (2 ^ k' * 16) <= x < (j + 1) * (2 ^ k' * 16) ->
  i / 2 ^ (k' - k) = j.
Proof.
  intros Hk Hi Hj.
  assert (E : 2 ^ k' = 2 ^ (k' - k) * 2 ^ k).
  { rewrite <- Z.pow_add_r by lia. f_equal. lia. }
  pose proof (pow2_pos k ltac:(lia)). pose proof (pow2_pos (k' - k) ltac:(lia)).
  rewrite E in Hj. symmetry. apply Z.div_unique with (r := i - j * 2 ^ (k' - k)); [|lia].
  left. nia.
Qed.

Lemma leaves_disjoint_le t k i k' j x :
  k <= k' ->
  wf t -> present t k i -> present t k' j -> Sp t k' j = false ->
  i * (2 ^ k * 16) <= x < (i + 1) * (2 ^ k * 16) ->
  j * (2 ^ k' * 16) <= x < (j + 1) * (2 ^ k' * 16) ->
  k = k' /\ i = j.
Proof.
  intros Hle Hw Hp Hp' Hs' Hi Hj.
  pose proof (proj1 (proj1 Hp)) as Hk. pose proof (proj1 (proj1 Hp')) as Hk'.
  pose proof (overlap_nested k i k' j x ltac:(lia) Hi Hj) as E.
  destruct (decide (k = k')) as [->|Hne].
  - rewrite Z.sub_diag in E. change (2 ^ 0) with 1 in E. rewrite Z.div_1_r in E. done.
  - pose proof (ancestor_split t k i (k' - k) Hw Hp ltac:(lia) ltac:(lia)) as Hx.
    rewrite E in Hx. replace (k + (k' - k)) with k' in Hx by lia. congruence.
Qed.

(** Two present blocks that are not split and share a byte are the same block. *)
Lemma leaves_disjoint t k i k' j x :
  wf t -> present t k i -> Sp t k i = false -> present t k' j -> Sp t k' j = false ->
  i * (2 ^ k * 16) <= x < (i + 1) * (2 ^ k * 16) ->
  j * (2 ^ k' * 16) <= x < (j + 1) * (2 ^ k' * 16) ->
  k = k' /\ i = j.
Proof.
  intros Hw Hp Hs Hp' Hs' Hi Hj. destruct (decide (k <= k')).
  - by eapply leaves_disjoint_le.
  - destruct (leaves_disjoint_le t k' j k i x) as [-> ->]; auto; lia.
Qed.

Lemma free_not_split t k i : wf t -> free t k i -> Sp t k i = false.
Proof.
  intros Hw [[Hv _] HA]. destruct (Sp t k i) eqn:E; [|done].
  apply (wf_split _ Hw) in E; [congruence|done].
Qed.

Lemma present_Sp_ext t t' k i :
  Sp t' (k + 1) (i / 2) = Sp t (k + 1) (i / 2) -> present t' k i <-> present t k i.
Proof. unfold present. by intros ->. Qed.

Lemma present_dec t k i : valid k i -> present t k i \/ ~ present t k i.
Proof.
  intros Hv. destruct (decide (k = H)); [left; split; auto|].
  destruct (Sp t (k + 1) (i / 2)) eqn:E; [left; split; auto|].
  right. intros [_ [?|?]]; [done|congruence].
Qed.

(** *** take *)

Lemma take_present t k i k' j : present (take k i t) k' j <-> present t k' j.
Proof. done. Qed.

Lemma take_free t k i k' j :
  free (take k i t) k' j <-> free t k' j /\ (k', j) <> (k, i).
Proof.
  unfold free. rewrite take_present. cbn. unfold upd2. case_decide as E.
  - destruct E as [-> ->]. naive_solver.
  - split; [intros []; split; [done|naive_solver]|tauto].
Qed.

Lemma take_used t k i k' j :
  wf t -> free t k i ->
  used (take k i t) k' j <-> used t k' j \/ (k', j) = (k, i).
Proof.
  intros Hw Hf. unfold used. rewrite take_present. cbn. unfold upd2. case_decide as E.
  - destruct E as [-> ->]. pose proof (free_not_split _ _ _ Hw Hf). destruct Hf. naive_solver.
  - naive_solver.
Qed.

Lemma take_wf t k i : wf t -> free t k i -> wf (take k i t).
Proof.
  intros Hw Hf. split.
  - intros k' j Hv Hn. rewrite take_present in Hn. cbn. unfold upd2. case_decide as E.
    + destruct E as [-> ->]. by destruct Hf.
    + by apply (wf_absent _ Hw).
  - intros k' j Hv Hs. cbn in *. unfold upd2. case_decide; [done|]. by apply (wf_split _ Hw).
  - apply (wf_leaf _ Hw).
  - intros k' j [Hf' _]%take_free. by apply (wf_head _ Hw).
  - intros k' j Hlt [Hf1 _]%take_free [Hf2 _]%take_free. exact (wf_coalesced _ Hw _ _ Hlt Hf1 Hf2).
Qed.

(** *** give *)

Lemma give_present t k i k' j : present (give k i t) k' j <-> present t k' j.
Proof. done. Qed.

Lemma give_free t k i k' j :
  present t k i ->
  free (give k i t) k' j <-> free t k' j \/ (k', j) = (k, i).
Proof.
  intros Hp. unfold free. rewrite give_present. cbn. unfold upd2. case_decide as E.
  - destruct E as [-> ->]. naive_solver.
  - naive_solver.
Qed.

Lemma give_used t k i k' j :
  used (give k i t) k' j <-> used t k' j /\ (k', j) <> (k, i).
Proof.
  unfold used. rewrite give_present. cbn. unfold upd2. case_decide as E; naive_solver.
Qed.

Lemma give_wf t k i :
  wf t -> used t k i -> nohead k i -> (k < H -> A t k (buddyi i) = true) -> wf (give k i t).
Proof.
  intros Hw [Hp [HA HS]] Hn Hb. split.
  - intros k' j Hv Hx. rewrite give_present in Hx. cbn. unfold upd2. case_decide as E.
    + by destruct E as [-> ->].
    + by apply (wf_absent _ Hw).
  - intros k' j Hv Hs. cbn in *. unfold upd2. case_decide as E.
    + destruct E as [-> ->]. congruence.
    + by apply (wf_split _ Hw).
  - apply (wf_leaf _ Hw).
  - intros k' j [Hf|[= -> ->]]%give_free; [by apply (wf_head _ Hw)|done|done].
  - intros k' j Hlt [Hf1|[= -> ->]]%give_free [Hf2|Heq]%give_free; try done.
    + exact (wf_coalesced _ Hw _ _ Hlt Hf1 Hf2).
    + injection Heq as -> E. destruct Hf1 as [_ Hf1].
      rewrite <- (buddyi_invol j), E in Hf1. rewrite Hb in Hf1; [done|lia].
    + destruct Hf2 as [_ Hf2]. rewrite Hb in Hf2; [done|lia].
    + injection Heq as E. by apply buddyi_ne in E.
Qed.

(** *** cut: split a used block, its first half stays used *)

Lemma cut_present t k i k' j :
  used t k i -> 1 <= k ->
  present (cut k i t) k' j <-> present t k' j \/ (k' = k - 1 /\ j / 2 = i).
Proof.
  intros [Hp [HA HS]] Hk. unfold present at 1. cbn. unfold upd2. case_decide as E.
  - destruct E as [-> ->]. split.
    + intros [Hv _]. right. split; [lia|done].
    + intros [[Hv _]|[E1 E2]]; [by split; auto|].
      split; [|by right]. replace k' with (k' + 1 - 1) by lia.
      apply valid_half; [apply Hp|lia].
  - split; [by left|]. intros [?|[-> E2]]; [done|]. exfalso. apply E. split; lia.
Qed.

Lemma child_absent t k i j :
  wf t -> used t k i -> 1 <= k -> j / 2 = i ->
  ~ present t (k - 1) j /\ A t (k - 1) j = false /\ Sp t (k - 1) j = false.
Proof.
  intros Hw [Hp [HA HS]] Hk Hj. assert (Hn : ~ present t (k - 1) j).
  { intros [_ [E|E]]; [destruct Hp as [[? ?] _]; lia|].
    rewrite Hj in E. replace (k - 1 + 1) with k in E by lia. congruence. }
  split; [done|]. apply (wf_absent _ Hw); [|done].
  apply valid_half; [rewrite Hj; apply Hp|done].
Qed.

Lemma cut_free t k i k' j :
  wf t -> used t k i -> 1 <= k ->
  free (cut k i t) k' j <-> free t k' j \/ (k', j) = (k - 1, 2 * i + 1).
Proof.
  intros Hw Hu Hk. unfold free. rewrite cut_present by done. cbn. unfold upd2.
  pose proof (child_absent t k i (2 * i) Hw Hu Hk ltac:(dlia)) as (Hn0 & _).
  pose proof (child_absent t k i (2 * i + 1) Hw Hu Hk ltac:(dlia)) as (Hn1 & HA1 & _).
  case_decide as E.
  - destruct E as [<- <-]. split; [by intros [_ ?]|].
    intros [[? _]|[= ?]]; [done|lia].
  - split.
    + intros [[Hp|[-> Hj]] HA]; [by left|]. right. f_equal.
      assert (j <> 2 * i) by naive_solver. dlia.
    + intros [[Hp HA]|[= -> ->]]; [by auto|]. split; [right; split; [done|dlia]|done].
Qed.

Lemma cut_used t k i k' j :
  wf t -> used t k i -> 1 <= k ->
  used (cut k i t) k' j <-> (used t k' j /\ (k', j) <> (k, i)) \/ (k', j) = (k - 1, 2 * i).
Proof.
  intros Hw Hu Hk. unfold used. rewrite cut_present by done. cbn. unfold upd2.
  pose proof (child_absent t k i (2 * i) Hw Hu Hk ltac:(dlia)) as (Hn0 & _ & HS0).
  destruct (decide (k - 1 = k' /\ 2 * i = j)) as [E|E].
  - destruct E as [<- <-]. rewrite decide_False by lia.
    split; [by right|]. intros _. split; [right; split; [done|dlia]|done].
  - case_decide as E'.
    + destruct E' as [-> ->]. split; [by intros (_ & _ & ?)|].
      intros [[_ ?]|[= ? ?]]; [done|lia].
    + split.
      * intros ([Hp|[-> Hj]] & HA & HS).
        -- left. split; [done|]. intros [= -> ->]. by apply E'.
        -- pose proof (child_absent t k i j Hw Hu Hk Hj) as (_ & HA1 & _). congruence.
      * intros [[(Hp & HA & HS) _]|[= -> ->]]; [by auto|]. by destruct E.
Qed.

Lemma nohead_child k i j : 1 <= k -> nohead k i -> j / 2 = i -> nohead (k - 1) j.
Proof.
  intros Hk Hn Hj x Hx Hr. apply (Hn x Hx).
  replace k with (k - 1 + 1) by lia. rewrite pow2_S by lia.
  pose proof (pow2_pos (k - 1) ltac:(lia)).
  assert (j = 2 * i \/ j = 2 * i + 1) as [-> | ->] by dlia; nia.
Qed.

Lemma cut_wf t k i :
  wf t -> used t k i -> 1 <= k -> nohead k i -> wf (cut k i t).
Proof.
  intros Hw Hu Hk Hn. split.
  - intros k' j Hv Hx. rewrite cut_present in Hx by done. cbn. unfold upd2.
    rewrite !decide_False; [apply (wf_absent _ Hw); tauto| |].
    + intros [<- <-]. apply Hx. left. apply Hu.
    + intros [<- <-]. apply Hx. right. split; [done|dlia].
  - intros k' j Hv Hs. cbn in *. unfold upd2 in *.
    destruct (decide (k - 1 = k' /\ 2 * i = j)); [done|].
    destruct (decide (k = k' /\ i = j)) as [[<- <-]|]; [apply Hu|by apply (wf_split _ Hw)].
  - intros j. cbn. unfold upd2. rewrite decide_False by lia. apply (wf_leaf _ Hw).
  - intros k' j Hf. rewrite cut_free in Hf by done.
    destruct Hf as [Hf|[= -> ->]]; [by apply (wf_head _ Hw)|].
    apply (nohead_child _ i); [done|done|dlia].
  - intros k' j Hlt Hf1 Hf2. rewrite cut_free in Hf1, Hf2 by done.
    destruct Hf1 as [Hf1|[= -> ->]], Hf2 as [Hf2|Heq].
    + exact (wf_coalesced _ Hw _ _ Hlt Hf1 Hf2).
    + injection Heq as -> E. destruct Hf1 as [Hp1 _]. revert Hp1.
      apply (child_absent t k i j Hw Hu Hk). rewrite <- buddyi_half, E. dlia.
    + destruct Hf2 as [Hp2 _]. revert Hp2.
      apply (child_absent t k i _ Hw Hu Hk). rewrite buddyi_half. dlia.
    + injection Heq as E. by apply buddyi_ne in E.
Qed.

(** *** fuse: a used block and its free buddy become one used block *)

Section Fuse.
Context (t : tree) (k i : Z).
Context (Hw : wf t) (Hk : k < H) (Hu : used t k i) (Hb : free t k (buddyi i)).

Lemma fuse_present k' j :
  present (fuse k i t) k' j <-> present t k' j /\ ~ (k' = k /\ j / 2 = i / 2).
Proof.
  unfold present. cbn. unfold upd2. case_decide as E.
  - destruct E as [E1 E2]. split; [|intros [_ []]; split; [lia|done]].
    intros [_ [?|?]]; [lia|done].
  - split; [intros [Hv Hp]; split; [done|]; intros [-> E2]; apply E; split; [lia|done]|tauto].
Qed.

Lemma fuse_parent : present t (k + 1) (i / 2) /\ Sp t (k + 1) (i / 2) = true.
Proof. apply present_parent; [done|apply Hu|done]. Qed.

Lemma fuse_free k' j :
  free (fuse k i t) k' j <-> free t k' j /\ (k', j) <> (k, buddyi i).
Proof.
  unfold free. rewrite fuse_present. cbn. unfold upd2. split.
  - intros [[Hp Hne] HA]. case_decide as E; [exfalso; apply Hne; naive_solver|].
    split; [done|]. intros [= -> ->]. apply Hne. split; [done|apply buddyi_half].
  - intros [[Hp HA] Hne]. split; [split; [done|]|by case_decide].
    intros [-> E]. apply half_cases in E as [-> | ->]; [|done].
    destruct Hu as (_ & ? & _). congruence.
Qed.

Lemma fuse_used k' j :
  used (fuse k i t) k' j <-> (used t k' j /\ (k', j) <> (k, i)) \/ (k', j) = (k + 1, i / 2).
Proof.
  pose proof fuse_parent as [Hpp HSp].
  unfold used. rewrite fuse_present. cbn. unfold upd2. split.
  - intros ([Hp Hne] & HA & HS).
    destruct (decide (k = k' /\ i = j)) as [E|E]; [done|].
    destruct (decide (k + 1 = k' /\ i / 2 = j)) as [[<- <-]|E']; [by right|].
    left. split; [done|]. intros [= -> ->]. by apply E.
  - intros [[(Hp & HA & HS) Hne]|[= -> ->]].
    + rewrite decide_False by naive_solver. split_and!; [done| |done|by case_decide].
      intros [-> E]. apply half_cases in E as [-> | ->]; [done|].
      destruct Hb. congruence.
    + rewrite decide_False, decide_True by lia. split_and!; [done|lia| |done].
      by apply (wf_split _ Hw); [apply Hpp|].
Qed.

Lemma nohead_join : nohead k i -> nohead (k + 1) (i / 2).
Proof.
  intros Hn x Hx Hr. pose proof (wf_head _ Hw _ _ Hb) as Hn'.
  destruct Hu as [[[? ?] _] _]. rewrite pow2_S in Hr by lia.
  pose proof (pow2_pos k ltac:(lia)).
  specialize (Hn x Hx). specialize (Hn' x Hx). revert Hn Hn' Hr.
  assert (Hc : forall y B X, ~ (2 * y * B <= X < (2 * y + 1) * B) ->
    ~ ((2 * y + 1) * B <= X < (2 * y + 1 + 1) * B) -> ~ (y * (2 * B) <= X < (y + 1) * (2 * B))) by lia.
  rewrite <- Z.mul_assoc. unfold buddyi. generalize (2 ^ k * 16). intros B.
  destruct (Z.even i) eqn:E; [apply even_div2 in E|apply odd_div2 in E];
    generalize dependent (i / 2); intros y ->; intros Hn Hn' Hr;
    revert Hr; apply Hc; [exact Hn|exact Hn'| |exact Hn].
  replace (2 * y + 1 - 1) with (2 * y) in Hn' by lia. exact Hn'.
Qed.

Lemma fuse_wf : wf (fuse k i t).
Proof.
  pose proof fuse_parent as [Hpp HSp]. split.
  - intros k' j Hv Hx. rewrite fuse_present in Hx. cbn. unfold upd2.
    destruct (present_dec t k' j Hv) as [Hp|Hp].
    + assert (k' = k /\ j / 2 = i / 2) as [-> E] by (destruct (decide (k' = k /\ j / 2 = i / 2)); tauto).
      rewrite (decide_False (P := k + 1 = k /\ _)) by lia.
      apply half_cases in E as [-> | ->].
      * rewrite decide_True by done. split; [done|apply Hu].
      * split; [case_decide; [done|apply Hb]|by apply free_not_split].
    + destruct (wf_absent _ Hw _ _ Hv Hp) as [-> ->]. split; by case_decide.
  - intros k' j Hv Hs. cbn in *. unfold upd2 in *. case_decide as E'; [done|].
    case_decide as E.
    + destruct E as [<- <-]. destruct Hu as (_ & _ & ?). congruence.
    + by apply (wf_split _ Hw).
  - intros j. cbn. unfold upd2. case_decide; [done|]. apply (wf_leaf _ Hw).
  - intros k' j [Hf _]%fuse_free. by apply (wf_head _ Hw).
  - intros k' j Hlt [Hf1 _]%fuse_free [Hf2 _]%fuse_free. exact (wf_coalesced _ Hw _ _ Hlt Hf1 Hf2).
Qed.
End Fuse.
(** *** The used blocks determine the tree *)

(** A split block contains a used block. *)
Lemma split_has_used t n k i :
  wf t -> valid k i -> k = Z.of_nat n -> Sp t k i = true ->
  exists j x, used t j x /\ 0 <= j < k /\ x / 2 ^ (k - j) = i.
Proof.
  intros Hw. revert k i. induction n as [|n IH]; intros k i Hv Hk HS.
  { assert (k = 0) as -> by lia. pose proof (wf_leaf _ Hw i). congruence. }
  assert (Hc : forall b, 0 <= b <= 1 -> present t (k - 1) (2 * i + b)).
  { intros b Hb. split; [apply valid_child; [done|lia|done]|right].
    replace (k - 1 + 1) with k by lia. replace ((2 * i + b) / 2) with i by dlia. done. }
  assert (exists b, 0 <= b <= 1 /\ A t (k - 1) (2 * i + b) = true) as (b & Hb & HA).
  { destruct (A t (k - 1) (2 * i + 0)) eqn:E0; [by exists 0|].
    destruct (A t (k - 1) (2 * i + 1)) eqn:E1; [by exists 1|]. exfalso.
    apply (wf_coalesced _ Hw (k - 1) (2 * i + 0)); [destruct Hv; lia|split; [apply Hc; lia|done]|].
    replace (buddyi (2 * i + 0)) with (2 * i + 1); [split; [apply Hc; lia|done]|].
    unfold buddyi. rewrite Z.add_0_r. rewrite Z.even_mul. done. }
  specialize (Hc b Hb). destruct (Sp t (k - 1) (2 * i + b)) eqn:ES.
  - destruct (IH (k - 1) (2 * i + b)) as (j & x & Hu & Hj & Hx); [apply Hc|lia|done|].
    exists j, x. split_and!; [done|lia|lia|].
    replace (k - j) with ((k - 1 - j) + 1) by lia. rewrite pow2_S by lia.
    rewrite (Z.mul_comm 2), <- Z.div_div by (pose proof (pow2_pos (k - 1 - j)); lia).
    rewrite Hx. dlia.
  - exists (k - 1), (2 * i + b). split_and!; [done|lia|lia|].
    replace (k - (k - 1)) with 1 by lia. change (2 ^ 1) with 2. dlia.
Qed.

Lemma split_iff t k i :
  wf t -> valid k i ->
  Sp t k i = true <-> exists j x, used t j x /\ 0 <= j < k /\ x / 2 ^ (k - j) = i.
Proof.
  intros Hw Hv. split.
  - intros HS. apply (split_has_used t (Z.to_nat k)); [done|done|destruct Hv; lia|done].
  - intros (j & x & Hu & Hj & <-). destruct Hv as [Hk _].
    replace k with (j + (k - j)) at 1 by lia. apply ancestor_split; [done|apply Hu|lia|lia].
Qed.

Lemma used_determines t t' :
  wf t -> wf t' -> (forall k i, used t k i <-> used t' k i) ->
  forall k i, free t k i <-> free t' k i.
Proof.
  intros Hw Hw' Hu.
  assert (HS : forall k i, valid k i -> Sp t k i = Sp t' k i).
  { intros k i Hv. apply Bool.eq_true_iff_eq. rewrite !split_iff by done. by setoid_rewrite Hu. }
  assert (Hp : forall k i, present t k i <-> present t' k i).
  { intros k i. destruct (decide (k = H)) as [->|Hne]; [unfold present; naive_solver|].
    split; intros [Hv [?|?]]; try done; (split; [done|right]);
      [rewrite <- HS|rewrite HS]; try done; apply valid_parent; destruct Hv; try done; lia. }
  assert (Ha : forall t1 k i, wf t1 -> free t1 k i <-> present t1 k i /\ ~ used t1 k i /\ Sp t1 k i = false).
  { intros t1 k i Hw1. split.
    - intros Hf. split_and!; [apply Hf| |by apply free_not_split]. intros (_ & ? & _).
      destruct Hf. congruence.
    - intros (Hpr & Hnu & HS1). split; [done|]. destruct (A t1 k i) eqn:E; [|done].
      exfalso. by apply Hnu. }
  intros k i. rewrite !Ha, Hp, Hu by done. split; intros (Hpr & Hnu & Hs); split_and!; try done;
    [rewrite <- HS|rewrite HS]; try done; apply Hpr.
Qed.
End Tree.
