(* ===== verification/AllocI.v ===== *)
(** * What a memory allocator promises to its callers

    The processes, the page tables and the pipes obtain memory with [bd_malloc]
    or [kalloc] and give it back with [bd_free] or [kfree].  Their files are
    written against this interface; [BuddySpec] shows that the allocator of
    kernel/buddy.c implements it. *)

From S2P Require Import Prelude.

Class Alloc (S : Type) `{HasCtx S} := {
  malloc : Z -> M S Z;
  mfree : Z -> M S unit;
  alloc_lock : lock;
  (** The invariant, the address of the heap, and the allocated areas. *)
  alloc_inv : S -> Prop;
  alloc_base : S -> Z;
  live : S -> Z -> Z -> Prop;

  (** Areas are nonempty, have nonzero addresses and do not overlap. *)
  live_pos s p z : alloc_inv s -> live s p z -> 0 < p /\ 0 < z;
  live_disjoint s p z p' z' :
    alloc_inv s -> live s p z -> live s p' z' ->
    (p, z) = (p', z') \/ p + z <= p' \/ p' + z' <= p;

  (** The allocator does not depend on the interrupt state. *)
  alloc_inv_cx c s : alloc_inv s -> alloc_inv (set_cx c s);
  live_cx c s p z : live (set_cx c s) p z <-> live s p z;
  alloc_base_cx c s : alloc_base (set_cx c s) = alloc_base s;

  malloc_spec s n :
    alloc_inv s -> cx_wf (cx s) -> alloc_lock ∉ held (cx s) -> 0 <= n <= 2 ^ 63 ->
    exists p s', malloc n s = Ret p s' /\ alloc_inv s' /\ cx s' = touch (cx s) /\
      alloc_base s' = alloc_base s /\
      ((p = 0 /\ forall q z, live s' q z <-> live s q z) \/
       (exists z, n <= z /\ (z | p - alloc_base s) /\ (forall y, ~ live s p y) /\
         forall q y, live s' q y <-> live s q y \/ (q, y) = (p, z)));

  mfree_spec s p z :
    alloc_inv s -> cx_wf (cx s) -> alloc_lock ∉ held (cx s) -> live s p z ->
    exists s', mfree p s = Ret tt s' /\ alloc_inv s' /\ cx s' = touch (cx s) /\
      alloc_base s' = alloc_base s /\
      forall q y, live s' q y <-> live s q y /\ q <> p;

  (** Right after an area is freed, a request that fits in it succeeds. *)
  mfree_malloc s p z s' n q s'' :
    alloc_inv s -> cx_wf (cx s) -> alloc_lock ∉ held (cx s) -> live s p z ->
    mfree p s = Ret tt s' -> 0 <= n <= z -> n <= 2 ^ 63 -> malloc n s' = Ret q s'' -> q <> 0
}.
