(* ===== verification/BuddySpec.v ===== *)
(** * Correctness of the buddy allocator

    [rep s t]: the bit arrays and the free lists of the C state [s] represent
    the abstract tree [t] of BuddyTree.v. *)

From S2P Require Import Prelude Riscv ListC Buddy BuddyTree AllocI.

(** ** Bit arrays *)

Definition bit (arr : list Z) (i : Z) : bool :=
  match aget arr (i / 8) with Some b => Z.testbit b (i mod 8) | None => false end.

Definition bytes_ok (arr : list Z) : Prop := Forall (fun b => 0 <= b < 256) arr.

Definition in_bits (arr : list Z) (i : Z) : Prop := 0 <= i < 8 * Z.of_nat (length arr).

Lemma bit_mask_pow i : 0 <= i -> bit_mask i = 2 ^ (i mod 8).
Proof.
  intros Hi. unfold bit_mask, u8. rewrite Z.rem_mod_nonneg by lia.
  rewrite Z.shiftl_1_l. apply Z.mod_small.
  pose proof (Z.mod_pos_bound i 8 ltac:(lia)).
  split; [apply Z.pow_nonneg; lia|]. apply Z.pow_lt_mono_r; lia.
Qed.

Lemma land_pow2_eqb b r : 0 <= r -> (Z.land b (2 ^ r) =? 2 ^ r) = Z.testbit b r.
Proof.
  intros Hr. assert (E : Z.land b (2 ^ r) = if Z.testbit b r then 2 ^ r else 0).
  { apply Z.bits_inj'. intros n Hn. rewrite Z.land_spec, Z.pow2_bits_eqb by done.
    destruct (Z.eqb_spec r n) as [->|Hne].
    - destruct (Z.testbit b n); cbn; [by rewrite Z.pow2_bits_true|by rewrite Z.bits_0].
    - rewrite andb_false_r. destruct (Z.testbit b r);
        [by rewrite Z.pow2_bits_false|by rewrite Z.bits_0]. }
  rewrite E. pose proof (pow2_pos r Hr). destruct (Z.testbit b r); lia.
Qed.

Lemma byte_idx arr i : in_bits arr i -> exists b, aget arr (i / 8) = Some b.
Proof. intros Hi. unfold in_bits in Hi. apply aget_is_Some. dlia. Qed.

Lemma byte_ok arr i b : bytes_ok arr -> aget arr i = Some b -> 0 <= b < 256.
Proof.
  intros Hb Hg. unfold aget in Hg. case_decide; [|done].
  eapply Forall_lookup_1 in Hg; [|exact Hb]. done.
Qed.

Lemma bit_isset_ok arr i : in_bits arr i -> bit_isset arr i = Some (bit arr i).
Proof.
  intros Hi. destruct (byte_idx _ _ Hi) as [b Hb]. unfold bit_isset, bit.
  rewrite Z.quot_div_nonneg by (unfold in_bits in Hi; lia). rewrite Hb. cbn.
  rewrite bit_mask_pow by (unfold in_bits in Hi; lia).
  rewrite land_pow2_eqb; [done|]. apply Z.mod_pos_bound. lia.
Qed.

(** Storing a byte that differs from the old one in at most bit [i]. *)
Lemma bit_store arr i b b' v :
  bytes_ok arr -> in_bits arr i -> aget arr (i / 8) = Some b -> 0 <= b' < 256 ->
  (forall r, 0 <= r < 8 -> Z.testbit b' r = if decide (r = i mod 8) then v else Z.testbit b r) ->
  exists arr', aset arr (i / 8) b' = Some arr' /\ bytes_ok arr' /\ length arr' = length arr /\
    forall j, 0 <= j -> bit arr' j = if decide (j = i) then v else bit arr j.
Proof.
  intros Hb Hi Hg Hb' Hbits. eexists. split; [apply aset_is_Some; by eapply aget_Some_lt|].
  split_and!.
  - apply Forall_insert; done.
  - apply length_insert.
  - intros j Hj.
    assert (Ha : aset arr (i / 8) b' = Some (<[Z.to_nat (i / 8):=b']> arr))
      by (apply aset_is_Some; by eapply aget_Some_lt).
    unfold bit. destruct (decide (i / 8 = j / 8)) as [E|E].
    + rewrite <- E, (aget_aset_eq _ _ _ _ Ha), Hg, Hbits by (apply Z.mod_pos_bound; lia).
      destruct (decide (j = i)) as [->|Hne]; [by rewrite decide_True|].
      rewrite decide_False; [done|]. dlia.
    + rewrite (aget_aset_ne _ _ _ _ _ Ha E). rewrite decide_False; [done|]. by intros ->.
Qed.

Lemma testbit_byte_bound x : (forall r, 8 <= r -> Z.testbit x r = false) -> 0 <= x -> x < 256.
Proof.
  intros Hx H0. destruct (decide (x = 0)); [lia|]. change 256 with (2 ^ 8).
  apply Z.log2_lt_pow2; [lia|].
  destruct (decide (Z.log2 x < 8)); [done|].
  specialize (Hx (Z.log2 x) ltac:(lia)). rewrite Z.bit_log2 in Hx by lia. done.
Qed.

Lemma byte_high b r : 0 <= b < 256 -> 8 <= r -> Z.testbit b r = false.
Proof.
  intros Hb Hr. destruct (decide (b = 0)) as [->|]; [apply Z.bits_0|].
  apply Z.bits_above_log2; [lia|]. assert (Z.log2 b < 8); [|lia].
  apply Z.log2_lt_pow2; [lia|]. change (2 ^ 8) with 256. lia.
Qed.

Lemma bit_set_ok arr i :
  bytes_ok arr -> in_bits arr i ->
  exists arr', bit_set arr i = Some arr' /\ bytes_ok arr' /\ length arr' = length arr /\
    forall j, 0 <= j -> bit arr' j = if decide (j = i) then true else bit arr j.
Proof.
  intros Hb Hi. destruct (byte_idx _ _ Hi) as [b Hg]. unfold bit_set.
  rewrite Z.quot_div_nonneg by (unfold in_bits in Hi; lia). rewrite Hg. cbn.
  rewrite bit_mask_pow by (unfold in_bits in Hi; lia).
  pose proof (byte_ok _ _ _ Hb Hg) as Hbb. pose proof (Z.mod_pos_bound i 8 ltac:(lia)) as Hm.
  assert (0 <= Z.lor b (2 ^ (i mod 8)) < 256) as Hr.
  { split; [apply Z.lor_nonneg; split; [lia|apply Z.pow_nonneg; lia]|].
    apply testbit_byte_bound; [|apply Z.lor_nonneg; split; [lia|apply Z.pow_nonneg; lia]].
    intros r Hr. rewrite Z.lor_spec, byte_high, Z.pow2_bits_false by lia. done. }
  unfold u8. rewrite Z.mod_small by done.
  apply (bit_store _ _ b); try done. intros r Hr'. rewrite Z.lor_spec, Z.pow2_bits_eqb by lia.
  case_decide as E; [rewrite E, Z.eqb_refl; apply orb_true_r|].
  destruct (Z.eqb_spec (i mod 8) r); [lia|]. apply orb_false_r.
Qed.

Lemma bit_clear_ok arr i :
  bytes_ok arr -> in_bits arr i ->
  exists arr', bit_clear arr i = Some arr' /\ bytes_ok arr' /\ length arr' = length arr /\
    forall j, 0 <= j -> bit arr' j = if decide (j = i) then false else bit arr j.
Proof.
  intros Hb Hi. destruct (byte_idx _ _ Hi) as [b Hg]. unfold bit_clear.
  rewrite Z.quot_div_nonneg by (unfold in_bits in Hi; lia). rewrite Hg. cbn.
  rewrite bit_mask_pow by (unfold in_bits in Hi; lia).
  pose proof (byte_ok _ _ _ Hb Hg) as Hbb. pose proof (Z.mod_pos_bound i 8 ltac:(lia)) as Hm.
  assert (0 <= Z.land b (Z.lnot (2 ^ (i mod 8))) < 256) as Hr.
  { assert (0 <= Z.land b (Z.lnot (2 ^ (i mod 8)))) by (apply Z.land_nonneg; lia).
    split; [done|]. apply testbit_byte_bound; [|done].
    intros r Hr. by rewrite Z.land_spec, byte_high by lia. }
  unfold u8. rewrite Z.mod_small by done.
  apply (bit_store _ _ b); try done. intros r Hr'.
  rewrite Z.land_spec, Z.lnot_spec, Z.pow2_bits_eqb by lia.
  case_decide as E; [rewrite E, Z.eqb_refl; apply andb_false_r|].
  destruct (Z.eqb_spec (i mod 8) r); [lia|]. apply andb_true_r.
Qed.

(** ** Representation of the bits *)

Record brep (n : Z) (zs : list sz_info) (a sp : Z -> Z -> bool) : Prop := {
  brep_len : Z.of_nat (length zs) = n;
  brep_alloc : forall k z, aget zs k = Some z ->
    bytes_ok (alloc z) /\ 2 ^ (n - 1 - k) <= 8 * Z.of_nat (length (alloc z)) /\
    forall i, valid (n - 1) k i -> bit (alloc z) i = a k i;
  brep_split : forall k z, aget zs k = Some z -> 1 <= k ->
    bytes_ok (split z) /\ 2 ^ (n - 1 - k) <= 8 * Z.of_nat (length (split z)) /\
    forall i, valid (n - 1) k i -> bit (split z) i = sp k i
}.

Section Bits.
Context (s : buddy) (a sp : Z -> Z -> bool).
Context (Hrep : brep (nsizes s) (bd_sizes s) a sp).

Lemma brep_get k i : valid (nsizes s - 1) k i -> exists z, aget (bd_sizes s) k = Some z.
Proof. intros [Hk _]. apply aget_is_Some. rewrite (brep_len _ _ _ _ Hrep). lia. Qed.

Lemma alloc_isset_ok k i :
  valid (nsizes s - 1) k i -> alloc_isset k i s = Ret (a k i) s.
Proof.
  intros Hv. destruct (brep_get _ _ Hv) as [z Hz].
  destruct (brep_alloc _ _ _ _ Hrep _ _ Hz) as (_ & Hl & Hb).
  unfold alloc_isset. mstep. rewrite Hz. cbn.
  rewrite bit_isset_ok by (destruct Hv; unfold in_bits; lia). cbn. by rewrite Hb.
Qed.

Lemma split_isset_ok k i :
  valid (nsizes s - 1) k i -> 1 <= k -> split_isset k i s = Ret (sp k i) s.
Proof.
  intros Hv Hk. destruct (brep_get _ _ Hv) as [z Hz].
  destruct (brep_split _ _ _ _ Hrep _ _ Hz Hk) as (_ & Hl & Hb).
  unfold split_isset. mstep. rewrite Hz. cbn.
  rewrite bit_isset_ok by (destruct Hv; unfold in_bits; lia). cbn. by rewrite Hb.
Qed.

(** An update of bit [i] of the alloc array of size [k]. *)
Lemma upd_alloc_ok f k i v :
  valid (nsizes s - 1) k i ->
  (forall arr, bytes_ok arr -> in_bits arr i ->
    exists arr', f arr = Some arr' /\ bytes_ok arr' /\ length arr' = length arr /\
      forall j, 0 <= j -> bit arr' j = if decide (j = i) then v else bit arr j) ->
  exists zs', upd_alloc f k s = Ret tt (set_bd_sizes zs' s) /\
    brep (nsizes s) zs' (upd2 a k i v) sp.
Proof.
  intros Hv Hf. destruct (brep_get _ _ Hv) as [z Hz].
  destruct (brep_alloc _ _ _ _ Hrep _ _ Hz) as (Hok & Hl & Hb).
  destruct (Hf (alloc z) Hok) as (arr' & Hfa & Hok' & Hlen & Hbit);
    [destruct Hv; unfold in_bits; lia|].
  pose proof (aget_Some_lt _ _ _ Hz) as Hlt.
  unfold upd_alloc. mstep. rewrite Hz. cbn. rewrite Hfa. cbn.
  rewrite aset_is_Some by done. mstep. eexists. split; [done|].
  assert (Ha := aset_is_Some _ _ {| alloc := arr'; split := split z |} Hlt).
  split.
  - rewrite length_insert. apply (brep_len _ _ _ _ Hrep).
  - intros k' z' Hz'. destruct (decide (k = k')) as [<-|Hne].
    + rewrite (aget_aset_eq _ _ _ _ Ha) in Hz'. injection Hz' as <-. cbn.
      rewrite Hlen. split_and!; [done|done|]. intros j Hj. rewrite Hbit by (destruct Hj; lia).
      unfold upd2. case_decide as E; [subst; by rewrite decide_True|].
      rewrite decide_False by naive_solver. by apply Hb.
    + rewrite (aget_aset_ne _ _ _ _ _ Ha Hne) in Hz'.
      destruct (brep_alloc _ _ _ _ Hrep _ _ Hz') as (H1 & H2 & H3).
      split_and!; [done|done|]. intros j Hj. rewrite upd2_ne by naive_solver. by apply H3.
  - intros k' z' Hz' Hk'. destruct (decide (k = k')) as [<-|Hne].
    + rewrite (aget_aset_eq _ _ _ _ Ha) in Hz'. injection Hz' as <-. cbn.
      by apply (brep_split _ _ _ _ Hrep).
    + rewrite (aget_aset_ne _ _ _ _ _ Ha Hne) in Hz'. by apply (brep_split _ _ _ _ Hrep).
Qed.

Lemma upd_split_ok f k i v :
  valid (nsizes s - 1) k i -> 1 <= k ->
  (forall arr, bytes_ok arr -> in_bits arr i ->
    exists arr', f arr = Some arr' /\ bytes_ok arr' /\ length arr' = length arr /\
      forall j, 0 <= j -> bit arr' j = if decide (j = i) then v else bit arr j) ->
  exists zs', upd_split f k s = Ret tt (set_bd_sizes zs' s) /\
    brep (nsizes s) zs' a (upd2 sp k i v).
Proof.
  intros Hv Hk Hf. destruct (brep_get _ _ Hv) as [z Hz].
  destruct (brep_split _ _ _ _ Hrep _ _ Hz Hk) as (Hok & Hl & Hb).
  destruct (Hf (split z) Hok) as (arr' & Hfa & Hok' & Hlen & Hbit);
    [destruct Hv; unfold in_bits; lia|].
  pose proof (aget_Some_lt _ _ _ Hz) as Hlt.
  unfold upd_split. mstep. rewrite Hz. cbn. rewrite Hfa. cbn.
  rewrite aset_is_Some by done. mstep. eexists. split; [done|].
  assert (Ha := aset_is_Some _ _ {| alloc := alloc z; split := arr' |} Hlt).
  split.
  - rewrite length_insert. apply (brep_len _ _ _ _ Hrep).
  - intros k' z' Hz'. destruct (decide (k = k')) as [<-|Hne].
    + rewrite (aget_aset_eq _ _ _ _ Ha) in Hz'. injection Hz' as <-. cbn.
      by apply (brep_alloc _ _ _ _ Hrep).
    + rewrite (aget_aset_ne _ _ _ _ _ Ha Hne) in Hz'. by apply (brep_alloc _ _ _ _ Hrep).
  - intros k' z' Hz' Hk'. destruct (decide (k = k')) as [<-|Hne].
    + rewrite (aget_aset_eq _ _ _ _ Ha) in Hz'. injection Hz' as <-. cbn.
      rewrite Hlen. split_and!; [done|done|]. intros j Hj. rewrite Hbit by (destruct Hj; lia).
      unfold upd2. case_decide as E; [subst; by rewrite decide_True|].
      rewrite decide_False by naive_solver. by apply Hb.
    + rewrite (aget_aset_ne _ _ _ _ _ Ha Hne) in Hz'.
      destruct (brep_split _ _ _ _ Hrep _ _ Hz' Hk') as (H1 & H2 & H3).
      split_and!; [done|done|]. intros j Hj. rewrite upd2_ne by naive_solver. by apply H3.
Qed.

Lemma set_alloc_ok k i : valid (nsizes s - 1) k i ->
  exists zs', set_alloc k i s = Ret tt (set_bd_sizes zs' s) /\
    brep (nsizes s) zs' (upd2 a k i true) sp.
Proof. intros Hv. apply upd_alloc_ok; [done|]. intros. by apply bit_set_ok. Qed.

Lemma clear_alloc_ok k i : valid (nsizes s - 1) k i ->
  exists zs', clear_alloc k i s = Ret tt (set_bd_sizes zs' s) /\
    brep (nsizes s) zs' (upd2 a k i false) sp.
Proof. intros Hv. apply upd_alloc_ok; [done|]. intros. by apply bit_clear_ok. Qed.

Lemma set_split_ok k i : valid (nsizes s - 1) k i -> 1 <= k ->
  exists zs', set_split k i s = Ret tt (set_bd_sizes zs' s) /\
    brep (nsizes s) zs' a (upd2 sp k i true).
Proof. intros Hv Hk. apply upd_split_ok; [done|done|]. intros. by apply bit_set_ok. Qed.

Lemma clear_split_ok k i : valid (nsizes s - 1) k i -> 1 <= k ->
  exists zs', clear_split k i s = Ret tt (set_bd_sizes zs' s) /\
    brep (nsizes s) zs' a (upd2 sp k i false).
Proof. intros Hv Hk. apply upd_split_ok; [done|done|]. intros. by apply bit_clear_ok. Qed.
End Bits.

(** ** Representation of the free lists *)

Definition lrep (n base : Z) (m : lmem) (F : Z -> Z -> Prop) : Prop :=
  forall k, 0 <= k < n -> exists l, dll m (base + SZ_INFO * k) l /\
    forall x, x ∈ l <-> exists i, F k i /\ x = base + i * BLK_SIZE k.

(** Distinct free blocks have distinct addresses, none of them a list head. *)
Definition sep (n : Z) (F : Z -> Z -> Prop) : Prop :=
  (forall k i k' i', F k i -> F k' i' -> i * BLK_SIZE k = i' * BLK_SIZE k' -> k = k' /\ i = i') /\
  (forall k i j, F k i -> 0 <= j < n -> i * BLK_SIZE k <> SZ_INFO * j).

Lemma wf_sep n t : wf (n - 1) t -> sep n (free (n - 1) t).
Proof.
  intros Hw. split.
  - intros k i k' i' Hf Hf' E. pose proof (proj1 (proj1 (proj1 Hf))). pose proof (proj1 (proj1 (proj1 Hf'))).
    pose proof (pow2_pos k ltac:(lia)). pose proof (pow2_pos k' ltac:(lia)).
    unfold BLK_SIZE, LEAF_SIZE in E.
    apply (leaves_disjoint (n - 1) t k i k' i' (i * (2 ^ k * 16))); try done;
      [apply Hf|by eapply free_not_split|apply Hf'|by eapply free_not_split| |]; lia.
  - intros k i j Hf Hj E. pose proof (proj1 (proj1 (proj1 Hf))).
    pose proof (pow2_pos k ltac:(lia)). unfold BLK_SIZE, LEAF_SIZE, SZ_INFO in E.
    apply (wf_head _ _ Hw _ _ Hf j); lia.
Qed.

Section Lists.
Context (n base : Z) (m : lmem) (F : Z -> Z -> Prop).
Context (Hrep : lrep n base m F).

Lemma lrep_empty k :
  0 <= k < n -> exists b, lst_empty (base + SZ_INFO * k) m = Ret b m /\
    if b : bool then forall i, ~ F k i else exists i, F k i.
Proof.
  intros Hk. destruct (Hrep k Hk) as (l & Hl & Hin).
  eexists. split; [by apply lst_empty_dll|]. case_bool_decide as E.
  - subst. intros i Hi. assert (base + i * BLK_SIZE k ∈ []) as Hx by (apply Hin; eauto).
    by apply not_elem_of_nil in Hx.
  - destruct l as [|x l]; [done|]. destruct (proj1 (Hin x)) as (i & Hi & _); [set_solver|]. eauto.
Qed.

(** Replacing list [k], in a memory that differs from the old one only on the
    nodes of the old and of the new list. *)
Lemma lrep_upd m' F' k l l' :
  sep n F -> sep n F' -> 0 <= k < n ->
  dll m (base + SZ_INFO * k) l ->
  (forall x, x ∈ l <-> exists i, F k i /\ x = base + i * BLK_SIZE k) ->
  dll m' (base + SZ_INFO * k) l' ->
  (forall x, x ∈ l' <-> exists i, F' k i /\ x = base + i * BLK_SIZE k) ->
  (forall k' i, k' <> k -> F' k' i <-> F k' i) ->
  (forall x, x ∉ (base + SZ_INFO * k) :: l ++ l' -> m' !! x = m !! x) ->
  lrep n base m' F'.
Proof.
  intros [HF1 HF2] [HF'1 HF'2] Hk Hl Hin Hl' Hin' Hoth Hm k' Hk'.
  destruct (decide (k' = k)) as [->|Hne]; [by exists l'|].
  destruct (Hrep k' Hk') as (l2 & Hl2 & Hin2). exists l2. split.
  - revert Hl2. apply dll_frame. intros x Hx. apply Hm. unfold SZ_INFO in *.
    rewrite elem_of_cons, elem_of_app, Hin, Hin'.
    apply elem_of_cons in Hx as [->|Hx].
    + intros [E|[(i & Hi & E)|(i & Hi & E)]]; [lia| |].
      * apply (HF2 k i k' Hi Hk'). lia.
      * apply (HF'2 k i k' Hi Hk'). lia.
    + apply Hin2 in Hx as (j & Hj & ->).
      intros [E|[(i & Hi & E)|(i & Hi & E)]].
      * apply (HF2 k' j k Hj Hk). lia.
      * destruct (HF1 k i k' j Hi Hj); lia.
      * apply Hoth in Hj; [|done]. destruct (HF'1 k i k' j Hi Hj); lia.
  - intros x. rewrite Hin2. setoid_rewrite Hoth; [done|done].
Qed.

Lemma lrep_push F' k i :
  sep n F -> sep n F' -> 0 <= k < n -> ~ F k i ->
  (forall k' j, F' k' j <-> F k' j \/ (k', j) = (k, i)) ->
  exists m', lst_push (base + SZ_INFO * k) (base + i * BLK_SIZE k) m = Ret tt m' /\
    lrep n base m' F'.
Proof.
  intros HF HF' Hk Hni Hiff. destruct (Hrep k Hk) as (l & Hl & Hin).
  assert (Hik : F' k i) by (apply Hiff; auto).
  destruct (lst_push_dll m (base + SZ_INFO * k) (base + i * BLK_SIZE k) l Hl) as (m' & Hp & Hd & Hfr).
  { rewrite elem_of_cons, Hin. intros [E|(j & Hj & E)].
    - apply (proj2 HF' k i k Hik Hk). lia.
    - destruct (proj1 HF' k i k j Hik) as [_ ->]; [apply Hiff; auto|lia|done]. }
  exists m'. split; [done|]. apply (lrep_upd m' F' k l (base + i * BLK_SIZE k :: l)); try done.
  - intros x. rewrite elem_of_cons, Hin. setoid_rewrite Hiff. split.
    + intros [->|(j & Hj & ->)]; eauto.
    + intros (j & [Hj|[= ->]] & ->); eauto.
  - intros k' j Hne. rewrite Hiff. naive_solver.
  - intros x Hx. apply Hfr. set_solver.
Qed.

Lemma lrep_remove F' k i :
  sep n F -> sep n F' -> 0 <= k < n -> F k i ->
  (forall k' j, F' k' j <-> F k' j /\ (k', j) <> (k, i)) ->
  exists m', lst_remove (base + i * BLK_SIZE k) m = Ret tt m' /\ lrep n base m' F'.
Proof.
  intros HF HF' Hk Hi Hiff. destruct (Hrep k Hk) as (l & Hl & Hin).
  assert (Hx : base + i * BLK_SIZE k ∈ l) by (apply Hin; eauto).
  apply list_elem_of_split in Hx as (l1 & l2 & ->).
  destruct (lst_remove_dll _ _ _ _ _ Hl) as (m' & Hp & Hd & Hfr).
  exists m'. split; [done|]. apply (lrep_upd m' F' k _ (l1 ++ l2) HF HF' Hk Hl Hin Hd).
  - destruct Hl as [Hnd _]. apply list.NoDup_cons in Hnd as [_ Hnd].
    assert (Hnot : base + i * BLK_SIZE k ∉ l1 ++ l2).
    { rewrite <- Permutation_middle in Hnd. apply list.NoDup_cons in Hnd as [Hnd _]. exact Hnd. }
    intros x. setoid_rewrite Hiff. split.
    + intros Hx. destruct (proj1 (Hin x)) as (j & Hj & ->); [set_solver|].
      exists j. split; [split; [done|]|done]. intros [= ->]. done.
    + intros (j & [Hj Hne] & ->). assert (base + j * BLK_SIZE k ∈ l1 ++ base + i * BLK_SIZE k :: l2)
        as Hx by (apply Hin; eauto).
      apply elem_of_app in Hx as [Hx|Hx]; [set_solver|].
      apply elem_of_cons in Hx as [E|Hx]; [|set_solver].
      destruct (proj1 HF k j k i Hj Hi) as [_ ->]; [lia|done].
  - intros k' j Hne. rewrite Hiff. naive_solver.
  - intros x Hx. apply Hfr. set_solver.
Qed.

Lemma lrep_pop k :
  sep n F -> 0 <= k < n -> (exists i, F k i) ->
  exists i m', F k i /\
    lst_pop (base + SZ_INFO * k) m = Ret (base + i * BLK_SIZE k) m' /\
    forall F', sep n F' -> (forall k' j, F' k' j <-> F k' j /\ (k', j) <> (k, i)) -> lrep n base m' F'.
Proof.
  intros HF Hk [i0 Hi0]. destruct (Hrep k Hk) as (l & Hl & Hin).
  assert (Hx : base + i0 * BLK_SIZE k ∈ l) by (apply Hin; eauto).
  destruct l as [|x l]; [by apply not_elem_of_nil in Hx|].
  destruct (proj1 (Hin x)) as (i & Hi & ->); [set_solver|].
  destruct (lst_pop_dll _ _ _ _ Hl) as (m' & Hp & Hd & Hfr).
  exists i, m'. split_and!; [done|done|]. intros F' HF' Hiff.
  destruct (lrep_remove F' k i HF HF' Hk Hi Hiff) as (m2 & Hr & Hl2).
  enough (m2 = m') as -> by done.
  unfold lst_pop in Hp. apply bind_inv in Hp as (a1 & s1 & Ha1 & Hp).
  unfold ld_next, unwrap in Ha1. destruct (nextof m _) eqn:E1 in Ha1; [|done].
  injection Ha1 as <- <-. destruct (_ =? _) in Hp; [done|].
  apply bind_inv in Hp as (a2 & s2 & Ha2 & Hp). unfold ld_next, unwrap in Ha2.
  rewrite E1 in Ha2. injection Ha2 as <- <-.
  pose proof (dll_first _ _ _ Hl) as Hf. cbn in Hf. rewrite Hf in E1. injection E1 as <-.
  apply bind_inv in Hp as (a3 & s3 & Ha3 & Hp). rewrite Hr in Ha3. injection Ha3 as <- <-.
  injection Hp as E. done.
Qed.
End Lists.

(** ** The allocator represents a tree *)

Record rep (s : buddy) (t : tree) : Prop := {
  rep_sizes : 1 <= nsizes s <= 27;
  rep_base : 0 < bd_base s;
  rep_bits : brep (nsizes s) (bd_sizes s) (A t) (Sp t);
  rep_lists : lrep (nsizes s) (bd_base s) (lists s) (free (nsizes s - 1) t);
  rep_wf : wf (nsizes s - 1) t
}.

Lemma rep_set_cx c s t : rep s t -> rep (set_cx c s) t.
Proof. intros []. by split. Qed.

Section Addresses.
Context (s : buddy) (Hn : 1 <= nsizes s <= 27).

Lemma pow2_le k d : 0 <= k -> 0 <= d -> 2 ^ (k + d) = 2 ^ k * 2 ^ d.
Proof. intros. by rewrite Z.pow_add_r by lia. Qed.

Lemma blk_off k i :
  valid (nsizes s - 1) k i -> 0 <= i * BLK_SIZE k /\ (i + 1) * BLK_SIZE k <= BLK_SIZE (nsizes s - 1).
Proof.
  intros [Hk Hi]. unfold BLK_SIZE, LEAF_SIZE. pose proof (pow2_pos k ltac:(lia)).
  replace (nsizes s - 1) with (k + (nsizes s - 1 - k)) at 1 by lia.
  rewrite pow2_le by lia. nia.
Qed.

Lemma heap_small : BLK_SIZE (nsizes s - 1) <= 2 ^ 30.
Proof.
  unfold BLK_SIZE, LEAF_SIZE. assert (2 ^ (nsizes s - 1) <= 2 ^ 26) by (apply Z.pow_le_mono_r; lia). lia.
Qed.

Lemma blk_pos k : 0 <= k -> 0 < BLK_SIZE k.
Proof. intros. unfold BLK_SIZE, LEAF_SIZE. pose proof (pow2_pos k ltac:(lia)). lia. Qed.

Lemma blk_index_ok k i k' :
  valid (nsizes s - 1) k i -> k <= k' ->
  blk_index k' (bd_base s + i * BLK_SIZE k) s = i / 2 ^ (k' - k).
Proof.
  intros Hv Hk'. pose proof (blk_off _ _ Hv) as [H0 H1]. pose proof heap_small. destruct Hv as [Hk Hi].
  pose proof (blk_pos k ltac:(lia)) as Hb.
  unfold blk_index. replace (bd_base s + i * BLK_SIZE k - bd_base s) with (i * BLK_SIZE k) by lia.
  rewrite s32_small by lia. rewrite Z.quot_div_nonneg by (try apply blk_pos; lia).
  unfold BLK_SIZE. replace k' with (k + (k' - k)) at 1 by lia. rewrite pow2_le by lia.
  replace (i * (2 ^ k * LEAF_SIZE)) with (i * (2 ^ k * LEAF_SIZE)) by lia.
  replace (2 ^ k * 2 ^ (k' - k) * LEAF_SIZE) with (2 ^ (k' - k) * (2 ^ k * LEAF_SIZE)) by lia.
  apply Z.div_mul_cancel_r; [pose proof (pow2_pos (k' - k) ltac:(lia)); lia|].
  unfold BLK_SIZE in Hb. lia.
Qed.

Lemma blk_index_same k i :
  valid (nsizes s - 1) k i -> blk_index k (bd_base s + i * BLK_SIZE k) s = i.
Proof.
  intros Hv. rewrite (blk_index_ok k i k Hv) by lia. rewrite Z.sub_diag. apply Z.div_1_r.
Qed.

Lemma addr_ok k i : valid (nsizes s - 1) k i -> addr k i s = bd_base s + i * BLK_SIZE k.
Proof.
  intros Hv. pose proof (blk_off _ _ Hv). pose proof heap_small. destruct Hv as [Hk Hi].
  pose proof (blk_pos k ltac:(lia)). unfold addr. rewrite s32_small by lia. done.
Qed.

Lemma buddy_of_ok i : 0 <= i -> buddy_of i = buddyi i.
Proof.
  intros. unfold buddy_of, buddyi. rewrite Z.rem_mod_nonneg by lia. rewrite Zeven_mod.
  done.
Qed.
End Addresses.

(** One free list operation in the allocator's state. *)
Lemma on_lists_ret {X} (m : M lmem X) s a m' :
  m (lists s) = Ret a m' -> on_lists m s = Ret a (set_lists m' s).
Proof. intros E. unfold on_lists. by apply zoom_ret. Qed.

Lemma set_lists_same s : set_lists (lists s) s = s.
Proof. by destruct s. Qed.

(** ** bd_malloc *)

Lemma find_free_ok s t n k :
  rep s t -> 0 <= k -> k + Z.of_nat n <= nsizes s ->
  exists k', find_free n k s = Ret k' s /\ k <= k' <= k + Z.of_nat n /\
    (forall j i, k <= j < k' -> ~ free (nsizes s - 1) t j i) /\
    (k' < k + Z.of_nat n -> exists i, free (nsizes s - 1) t k' i).
Proof.
  intros Hr. revert k. induction n as [|n IH]; intros k H0 Hk; cbn [find_free].
  - exists k. split_and!; [done|lia|lia|intros; lia|lia].
  - destruct (lrep_empty _ _ _ _ (rep_lists _ _ Hr) k ltac:(lia)) as (b & Hb & Hx).
    mstep. apply on_lists_ret in Hb. rewrite set_lists_same in Hb. run Hb. destruct b; cbn [negb].
    + destruct (IH (k + 1)) as (k' & E & Hle & Hno & Hsome); [lia|lia|].
      exists k'. split_and!; [done|lia|lia| |intros; apply Hsome; lia].
      intros j i Hj. destruct (decide (j = k)) as [->|]; [apply Hx|apply Hno; lia].
    + exists k. split_and!; [done|lia|lia|intros; lia|done].
Qed.

(** The invariant of both loops: the block in hand is used and holds no list head. *)
Record hand (s : buddy) (t : tree) (k i : Z) : Prop := {
  hand_rep : rep s t;
  hand_used : used (nsizes s - 1) t k i;
  hand_head : nohead (nsizes s - 1) k i
}.

Lemma hand_valid s t k i : hand s t k i -> valid (nsizes s - 1) k i.
Proof. intros [_ [[Hv _] _] _]. exact Hv. Qed.

Definition same (s s' : buddy) : Prop :=
  nsizes s' = nsizes s /\ bd_base s' = bd_base s /\ b_cx s' = b_cx s.

Lemma same_trans s s' s'' : same s s' -> same s' s'' -> same s s''.
Proof. unfold same. intuition congruence. Qed.

(** [lst_pop] and [bit_set(alloc)]: the popped block becomes the block in hand. *)
Lemma pop_ok s t k :
  rep s t -> 0 <= k < nsizes s -> (exists i, free (nsizes s - 1) t k i) ->
  exists i m zs, free (nsizes s - 1) t k i /\
    on_lists (lst_pop (free_head k s)) s = Ret (bd_base s + i * BLK_SIZE k) (set_lists m s) /\
    set_alloc k i (set_lists m s) = Ret tt (set_bd_sizes zs (set_lists m s)) /\
    hand (set_bd_sizes zs (set_lists m s)) (take k i t) k i.
Proof.
  intros Hr Hk Hex. pose proof (rep_wf _ _ Hr) as Hw.
  destruct (lrep_pop _ _ _ _ (rep_lists _ _ Hr) k (wf_sep _ _ Hw) Hk Hex) as (i & m & Hf & Hp & Hm).
  destruct (set_alloc_ok (set_lists m s) (A t) (Sp t) (rep_bits _ _ Hr) k i) as (zs & Hs & Hb);
    [apply Hf|].
  pose proof (take_wf _ _ _ _ Hw Hf) as Hw'.
  exists i, m, zs. split_and!; [done|by apply on_lists_ret|done|]. split.
  - split; [apply Hr|apply Hr|exact Hb| |exact Hw'].
    apply Hm; [by apply wf_sep|]. intros. apply take_free.
  - apply take_used; [done|done|by right].
  - apply (wf_head _ _ Hw _ _ Hf).
Qed.

(** One iteration of the splitting loop cuts the block in hand and keeps its
    first half. *)
Lemma split_step s t k i :
  hand s t k i -> 1 <= k ->
  exists zs1 zs2 m,
    set_split k i s = Ret tt (set_bd_sizes zs1 s) /\
    set_alloc (k - 1) (2 * i) (set_bd_sizes zs1 s) = Ret tt (set_bd_sizes zs2 s) /\
    on_lists (lst_push (free_head (k - 1) s) (bd_base s + (2 * i + 1) * BLK_SIZE (k - 1)))
      (set_bd_sizes zs2 s) = Ret tt (set_lists m (set_bd_sizes zs2 s)) /\
    hand (set_lists m (set_bd_sizes zs2 s)) (cut k i t) (k - 1) (2 * i).
Proof.
  intros Hh Hk. pose proof (hand_valid _ _ _ _ Hh) as Hv. destruct Hh as [Hr Hu Hn].
  pose proof (rep_wf _ _ Hr) as Hw. pose proof (cut_wf _ _ _ _ Hw Hu Hk Hn) as Hw'.
  destruct (set_split_ok s _ _ (rep_bits _ _ Hr) k i Hv Hk) as (zs1 & H1 & Hb1).
  destruct (set_alloc_ok (set_bd_sizes zs1 s) _ _ Hb1 (k - 1) (2 * i)) as (zs2 & H2 & Hb2).
  { replace (2 * i) with (2 * i + 0) by lia. apply valid_child; [done|done|lia]. }
  destruct (lrep_push _ _ _ _ (rep_lists _ _ Hr) (free (nsizes s - 1) (cut k i t)) (k - 1) (2 * i + 1))
    as (m & H3 & Hl); [by apply wf_sep|by apply wf_sep|destruct Hv; lia| | |].
  { intros [Hp _]. apply (child_absent _ _ _ _ (2 * i + 1) Hw Hu Hk) in Hp; [done|dlia]. }
  { intros. by apply cut_free. }
  exists zs1, zs2, m. split_and!; [done|done|by apply on_lists_ret|]. split.
  - split; [apply Hr|apply Hr|exact Hb2|exact Hl|exact Hw'].
  - apply cut_used; [done|done|done|by right].
  - apply (nohead_child _ k i); [done|done|dlia].
Qed.

Lemma split_loop_ok n s t k i :
  hand s t k i -> Z.of_nat n <= k ->
  exists s' t', split_loop n k (bd_base s + i * BLK_SIZE k) s = Ret tt s' /\ same s s' /\
    hand s' t' (k - Z.of_nat n) (i * 2 ^ Z.of_nat n) /\
    forall k' j, used (nsizes s - 1) t' k' j <->
      (used (nsizes s - 1) t k' j /\ (k', j) <> (k, i)) \/ (k', j) = (k - Z.of_nat n, i * 2 ^ Z.of_nat n).
Proof.
  revert s t k i. induction n as [|n IH]; intros s t k i Hh Hk; cbn [split_loop].
  - exists s, t. rewrite Z.sub_0_r, Z.mul_1_r. split_and!; [done|done|done|].
    intros k' j. destruct (decide ((k', j) = (k, i))) as [[= -> ->]|]; [|tauto].
    split; [by right|]. intros _. apply Hh.
  - destruct (split_step s t k i Hh ltac:(lia)) as (zs1 & zs2 & m & H1 & H2 & H3 & Hh').
    pose proof (hand_valid _ _ _ _ Hh) as Hv. pose proof (rep_sizes _ _ (hand_rep _ _ _ _ Hh)) as Hsz.
    pose proof (hand_valid _ _ _ _ Hh') as Hv'. cbn in Hv'.
    assert (E : bd_base s + i * BLK_SIZE k = bd_base s + (2 * i) * BLK_SIZE (k - 1)).
    { unfold BLK_SIZE. replace k with (k - 1 + 1) at 1 by lia. rewrite pow2_S by lia. lia. }
    mstep. rewrite blk_index_same by done. run H1. mstep. rewrite E.
    rewrite (blk_index_same (set_bd_sizes zs1 s) Hsz) by done. run H2. mstep.
    replace (bd_base s + 2 * i * BLK_SIZE (k - 1) + BLK_SIZE (k - 1))
      with (bd_base s + (2 * i + 1) * BLK_SIZE (k - 1)) by lia.
    run H3. destruct (IH _ _ _ _ Hh' ltac:(lia)) as (s' & t' & E' & Hsm & Hs' & Hu').
    exists s', t'. cbn in E'. split_and!; [exact E'|exact Hsm| |].
    + replace (k - Z.of_nat (S n)) with (k - 1 - Z.of_nat n) by lia.
      replace (i * 2 ^ Z.of_nat (S n)) with (2 * i * 2 ^ Z.of_nat n)
        by (rewrite Nat2Z.inj_succ, <- Z.add_1_r, pow2_S by lia; lia). done.
    + intros k' j. cbn in Hu'. rewrite Hu', cut_used by (try apply Hh; lia || apply Hh).
      replace (k - Z.of_nat (S n)) with (k - 1 - Z.of_nat n) by lia.
      replace (i * 2 ^ Z.of_nat (S n)) with (2 * i * 2 ^ Z.of_nat n)
        by (rewrite Nat2Z.inj_succ, <- Z.add_1_r, pow2_S by lia; lia).
      assert (~ used (nsizes s - 1) t (k - 1) (2 * i)).
      { intros [Hp _]. apply (child_absent _ t k i (2 * i)) in Hp;
          [done|apply Hh|apply Hh|lia|dlia]. }
      split; [|naive_solver]. intros [[[?|?] ?]|?]; [by left|done|by right].
Qed.

(** ** bd_free *)

Lemma nohead_top s t k i : hand s t k i -> k < nsizes s - 1.
Proof.
  intros Hh. pose proof (hand_valid _ _ _ _ Hh) as [Hk Hi].
  destruct (decide (k = nsizes s - 1)) as [->|]; [|lia]. exfalso.
  rewrite Z.sub_diag in Hi. apply (hand_head _ _ _ _ Hh 0); [lia|].
  pose proof (pow2_pos (nsizes s - 1)). nia.
Qed.

Lemma blk_down H k i j :
  valid H k i -> 0 <= j <= k ->
  valid H j (i * 2 ^ (k - j)) /\ i * BLK_SIZE k = i * 2 ^ (k - j) * BLK_SIZE j.
Proof.
  intros [Hk Hi] Hj. pose proof (pow2_pos (k - j) ltac:(lia)).
  split; [split; [lia|]|].
  - replace (H - j) with ((H - k) + (k - j)) by lia. rewrite pow2_le by lia. nia.
  - unfold BLK_SIZE. replace k with ((k - j) + j) at 1 by lia. rewrite pow2_le by lia. lia.
Qed.

(** Inside a used block nothing is split. *)
Lemma used_not_split H t k i j :
  wf H t -> used H t k i -> 0 <= j <= k -> Sp t j (i * 2 ^ (k - j)) = false.
Proof.
  intros Hw [[Hv Hp] [HA HS]] Hj. destruct (blk_down H k i j Hv Hj) as [Hv' _].
  destruct (decide (j = k)) as [->|Hne]; [by rewrite Z.sub_diag, Z.mul_1_r|].
  destruct (Sp t j (i * 2 ^ (k - j))) eqn:E; [|done].
  destruct (present_dec H t j (i * 2 ^ (k - j)) Hv') as [Hpr|Hn].
  - pose proof (ancestor_split H t j _ (k - j) Hw Hpr ltac:(lia) ltac:(destruct Hv; lia)) as Hx.
    replace (j + (k - j)) with k in Hx by lia.
    rewrite Z.div_mul in Hx by (pose proof (pow2_pos (k - j)); lia). congruence.
  - destruct (wf_absent _ _ Hw _ _ Hv' Hn). congruence.
Qed.

Lemma size_loop_ok s t k i n j :
  hand s t k i -> 0 <= j <= k -> k < j + Z.of_nat n ->
  size_loop n j (bd_base s + i * BLK_SIZE k) s = Ret k s.
Proof.
  intros Hh. pose proof (hand_valid _ _ _ _ Hh) as Hv. pose proof (nohead_top _ _ _ _ Hh) as Htop.
  destruct Hh as [Hr Hu _]. pose proof (rep_wf _ _ Hr) as Hw. pose proof (rep_sizes _ _ Hr) as Hsz.
  revert j. induction n as [|n IH]; intros j Hj Hn; [lia|]. cbn [size_loop]. mstep.
  destruct (decide (j = k)) as [->|Hne].
  - rewrite (blk_index_ok s Hsz k i (k + 1) Hv) by lia.
    replace (k + 1 - k) with 1 by lia. change (2 ^ 1) with 2.
    destruct (present_parent _ _ _ _ Hw (proj1 Hu) Htop) as [[Hv' _] HS].
    run (split_isset_ok s _ _ (rep_bits _ _ Hr) _ _ Hv' ltac:(lia)). by rewrite HS.
  - destruct (blk_down _ k i (j + 1) Hv ltac:(lia)) as [Hv' E]. rewrite E.
    rewrite (blk_index_same s Hsz _ _ Hv').
    run (split_isset_ok s _ _ (rep_bits _ _ Hr) _ _ Hv' ltac:(lia)).
    rewrite (used_not_split _ _ _ _ _ Hw Hu) by lia. rewrite <- E. apply IH; lia.
Qed.

Lemma size_ok s t k i : hand s t k i -> size (bd_base s + i * BLK_SIZE k) s = Ret k s.
Proof.
  intros Hh. pose proof (hand_valid _ _ _ _ Hh) as [? _].
  unfold size. mstep. apply (size_loop_ok _ t); [done|lia|lia].
Qed.

(** One iteration of the merging loop: the buddy is free, leaves its free list,
    and the parent becomes the block in hand. *)
Lemma fuse_step s t k i zs :
  hand s t k i -> A t k (buddyi i) = false ->
  brep (nsizes s) zs (upd2 (A t) k i false) (Sp t) ->
  exists m zs',
    on_lists (lst_remove (bd_base s + buddyi i * BLK_SIZE k)) (set_bd_sizes zs s)
      = Ret tt (set_lists m (set_bd_sizes zs s)) /\
    clear_split (k + 1) (i / 2) (set_lists m (set_bd_sizes zs s))
      = Ret tt (set_bd_sizes zs' (set_lists m s)) /\
    hand (set_bd_sizes zs' (set_lists m s)) (fuse k i t) (k + 1) (i / 2).
Proof.
  intros Hh HA Hb. pose proof (nohead_top _ _ _ _ Hh) as Htop.
  pose proof (hand_valid _ _ _ _ Hh) as [Hk _]. destruct Hh as [Hr Hu Hn].
  pose proof (rep_wf _ _ Hr) as Hw.
  assert (Hf : free (nsizes s - 1) t k (buddyi i)) by (split; [apply present_buddy; [apply Hu|done]|done]).
  pose proof (fuse_wf _ _ _ _ Hw Htop Hu Hf) as Hw'.
  destruct (lrep_remove _ _ _ _ (rep_lists _ _ Hr) (free (nsizes s - 1) (fuse k i t)) k (buddyi i))
    as (m & H1 & Hl); [by apply wf_sep|by apply wf_sep|lia|done|intros; by apply fuse_free|].
  destruct (fuse_parent _ _ _ _ Hw Htop Hu) as [[Hv' _] _].
  destruct (clear_split_ok (set_lists m (set_bd_sizes zs s)) _ _ Hb _ _ Hv' ltac:(lia)) as (zs' & H2 & Hb').
  exists m, zs'. split_and!; [by apply on_lists_ret|exact H2|]. split.
  - split; [apply Hr|apply Hr|exact Hb'|exact Hl|exact Hw'].
  - apply fuse_used; auto.
  - by apply (nohead_join _ t).
Qed.

(** What the merging loop leaves: [(k, i)] is to be put on its free list, its
    alloc bit already cleared. *)
Record merged (s : buddy) (t : tree) (k i : Z) : Prop := {
  merged_sizes : 1 <= nsizes s <= 27;
  merged_base : 0 < bd_base s;
  merged_bits : brep (nsizes s) (bd_sizes s) (upd2 (A t) k i false) (Sp t);
  merged_lists : lrep (nsizes s) (bd_base s) (lists s) (free (nsizes s - 1) t);
  merged_wf : wf (nsizes s - 1) t;
  merged_used : used (nsizes s - 1) t k i;
  merged_head : nohead (nsizes s - 1) k i;
  merged_buddy : A t k (buddyi i) = true
}.

Lemma buddyi_nonneg i : 0 <= i -> 0 <= buddyi i.
Proof. intros. unfold buddyi. destruct (Z.even i) eqn:E; [lia|]. apply odd_div2 in E. dlia. Qed.

Lemma addr_parent base k i :
  0 <= k -> 0 <= i ->
  (if Z.rem (buddyi i) 2 =? 0 then base + buddyi i * BLK_SIZE k else base + i * BLK_SIZE k)
  = base + (i / 2) * BLK_SIZE (k + 1).
Proof.
  intros Hk Hi. assert (E : BLK_SIZE (k + 1) = 2 * BLK_SIZE k)
    by (unfold BLK_SIZE; rewrite pow2_S by lia; lia).
  rewrite E. replace (Z.rem (buddyi i) 2 =? 0) with (Z.even (buddyi i))
    by (rewrite Z.rem_mod_nonneg by (try apply buddyi_nonneg; lia); by rewrite Zeven_mod).
  unfold buddyi. destruct (Z.even i) eqn:Ei.
  - rewrite Z.even_add, Ei. cbn. apply even_div2 in Ei. lia.
  - rewrite Z.even_sub, Ei. cbn. apply odd_div2 in Ei. lia.
Qed.

Lemma free_loop_ok n s t k i :
  hand s t k i -> nsizes s - 1 - k = Z.of_nat n ->
  exists s' t' k' i', free_loop n k (bd_base s + i * BLK_SIZE k) s
      = Ret (k', bd_base s + i' * BLK_SIZE k') s' /\ same s s' /\ merged s' t' k' i' /\ k <= k' /\
    (used (nsizes s - 1) t k' i' -> (k', i') = (k, i)) /\
    forall k2 j, used (nsizes s - 1) t' k2 j <->
      (used (nsizes s - 1) t k2 j /\ (k2, j) <> (k, i)) \/ (k2, j) = (k', i').
Proof.
  revert s t k i. induction n as [|n IH]; intros s t k i Hh Hn;
    pose proof (nohead_top _ _ _ _ Hh) as Htop; [lia|]. cbn [free_loop].
  pose proof (hand_valid _ _ _ _ Hh) as Hv. pose proof (hand_rep _ _ _ _ Hh) as Hr.
  pose proof (hand_used _ _ _ _ Hh) as Hu. pose proof (rep_sizes _ _ Hr) as Hsz.
  pose proof (valid_buddy _ _ _ Hv Htop) as Hvb.
  destruct Hv as [Hk Hi]. mstep. rewrite blk_index_same by done.
  rewrite buddy_of_ok by lia.
  destruct (clear_alloc_ok s _ _ (rep_bits _ _ Hr) k i) as (zs & H1 & Hb); [done|]. run H1.
  run (alloc_isset_ok (set_bd_sizes zs s) _ _ Hb k (buddyi i) Hvb).
  rewrite upd2_ne by (intros [= E]; by apply (buddyi_ne i)).
  destruct (A t k (buddyi i)) eqn:EA.
  - exists (set_bd_sizes zs s), t, k, i. split_and!; [done|done| |done|done|].
    + split; [apply Hr|apply Hr|done|apply Hr|apply Hr|done|exact (hand_head _ _ _ _ Hh)|done].
    + intros k2 j. destruct (decide ((k2, j) = (k, i))) as [[= -> ->]|]; tauto.
  - destruct (fuse_step s t k i zs Hh EA Hb) as (m & zs' & H2 & H3 & Hh').
    mstep. rewrite addr_ok by done. cbn [bd_base set_bd_sizes]. run H2. mstep.
    rewrite addr_parent by lia. pose proof (hand_valid _ _ _ _ Hh') as Hv'.
    rewrite (blk_index_same (set_lists m (set_bd_sizes zs s)) Hsz) by done. run H3.
    destruct (IH _ _ _ _ Hh' ltac:(cbn; lia)) as (s' & t' & k' & i' & E' & Hsm & Hm & Hle & Hnew & Hu').
    assert (Hf : free (nsizes s - 1) t k (buddyi i)) by (split; [apply present_buddy; [apply Hu|done]|done]).
    assert (Hfu := fuse_used _ _ _ _ (rep_wf _ _ Hr) Htop Hu Hf).
    assert (~ used (nsizes s - 1) t (k + 1) (i / 2)) as Hnu.
    { intros (_ & _ & HS). destruct (fuse_parent _ _ _ _ (rep_wf _ _ Hr) Htop Hu). congruence. }
    exists s', t', k', i'. cbn in Hnew, Hu'. split_and!; [exact E'|exact Hsm|done|lia| |].
    + intros Hx. destruct (decide ((k', i') = (k, i))); [done|]. exfalso. apply Hnu.
      assert ((k', i') = (k + 1, i / 2)) as [= <- <-]; [|done]. apply Hnew, Hfu. by left.
    + intros k2 j. rewrite Hu', Hfu.
      split; [|naive_solver]. intros [[[?|?] ?]|?]; [by left|done|by right].
Qed.

(** Pushing the merged block gives it back. *)
Lemma push_merged s t k i :
  merged s t k i ->
  exists m, on_lists (lst_push (free_head k s) (bd_base s + i * BLK_SIZE k)) s
      = Ret tt (set_lists m s) /\ rep (set_lists m s) (give k i t).
Proof.
  intros [Hsz Hbs Hb Hl Hw Hu Hn HA].
  pose proof (give_wf _ _ _ _ Hw Hu Hn (fun _ => HA)) as Hw'.
  destruct (lrep_push _ _ _ _ Hl (free (nsizes s - 1) (give k i t)) k i) as (m & H1 & Hl').
  - by apply wf_sep.
  - by apply wf_sep.
  - destruct Hu as [[[? _] _] _]. lia.
  - intros [_ HA']. destruct Hu as (_ & ? & _). congruence.
  - intros. apply give_free. apply Hu.
  - exists m. split; [by apply on_lists_ret|]. by split.
Qed.

(** ** The size search *)

Lemma firstk_loop_ok fuel n k :
  0 <= n <= 2 ^ 63 -> 0 <= k <= 59 -> (60 <= k + Z.of_nat fuel) ->
  exists k', firstk_loop fuel n k (BLK_SIZE k) = Some k' /\ k <= k' <= 59 /\ n <= BLK_SIZE k' /\
    forall j, k <= j < k' -> BLK_SIZE j < n.
Proof.
  intros Hn. revert k. induction fuel as [|fuel IH]; intros k Hk Hf; [lia|]. cbn [firstk_loop].
  destruct (BLK_SIZE k <? n) eqn:E; [apply Z.ltb_lt in E|apply Z.ltb_ge in E].
  - destruct (decide (k = 59)) as [->|Hne]; [exfalso; change (BLK_SIZE 59) with (2 ^ 63) in E; lia|].
    assert (u64 (BLK_SIZE k * 2) = BLK_SIZE (k + 1)) as ->.
    { assert (Eb : BLK_SIZE (k + 1) = BLK_SIZE k * 2) by (unfold BLK_SIZE; rewrite pow2_S by lia; lia).
      rewrite Eb. apply u64_small. unfold BLK_SIZE, LEAF_SIZE in *.
      assert (2 ^ k <= 2 ^ 58) by (apply Z.pow_le_mono_r; lia).
      pose proof (pow2_pos k ltac:(lia)). lia. }
    destruct (IH (k + 1)) as (k' & H1 & H2 & H3 & H4); [lia|lia|].
    exists k'. split_and!; [done|lia|lia|done|]. intros j Hj.
    destruct (decide (j = k)) as [->|]; [done|apply H4; lia].
  - exists k. split_and!; [done|lia|lia|done|]. intros; lia.
Qed.

Lemma firstk_ok n :
  0 <= n <= 2 ^ 63 ->
  exists k, firstk firstk_fuel n = Some k /\ 0 <= k <= 59 /\ n <= BLK_SIZE k /\
    forall j, 0 <= j < k -> BLK_SIZE j < n.
Proof. intros Hn. by apply (firstk_loop_ok 64 n 0). Qed.

Lemma firstk_loop_zero fuel n k : 0 < n -> firstk_loop fuel n k 0 = None.
Proof.
  intros Hn. revert k. induction fuel as [|fuel IH]; intros k; [done|]. cbn [firstk_loop].
  replace (0 <? n) with true by lia. apply IH.
Qed.

Lemma firstk_loop_big fuel n k :
  2 ^ 63 < n < 2 ^ 64 -> 0 <= k <= 59 -> firstk_loop fuel n k (BLK_SIZE k) = None.
Proof.
  intros Hn. revert k. induction fuel as [|fuel IH]; intros k Hk; [done|]. cbn [firstk_loop].
  assert (2 ^ k <= 2 ^ 59) by (apply Z.pow_le_mono_r; lia). pose proof (pow2_pos k ltac:(lia)).
  replace (BLK_SIZE k <? n) with true by (unfold BLK_SIZE, LEAF_SIZE in *; lia).
  destruct (decide (k = 59)) as [->|Hne].
  - change (u64 (BLK_SIZE 59 * 2)) with 0. apply firstk_loop_zero. lia.
  - assert (2 ^ k <= 2 ^ 58) by (apply Z.pow_le_mono_r; lia).
    assert (Eb : BLK_SIZE (k + 1) = BLK_SIZE k * 2) by (unfold BLK_SIZE; rewrite pow2_S by lia; lia).
    rewrite u64_small by (unfold BLK_SIZE, LEAF_SIZE in *; lia). rewrite <- Eb. apply IH. lia.
Qed.

(** ** The allocator as its callers see it *)

(** The tree that the bit arrays of a state spell out. *)
Definition tree_of (s : buddy) : tree :=
  {| A := fun k i => match aget (bd_sizes s) k with Some z => bit (alloc z) i | None => false end;
     Sp := fun k i => if k =? 0 then false else
       match aget (bd_sizes s) k with Some z => bit (split z) i | None => false end |}.

Lemma wf_ext H t t' :
  (forall k i, valid H k i -> A t' k i = A t k i /\ Sp t' k i = Sp t k i) ->
  (forall i, Sp t' 0 i = false) ->
  (forall k i, free H t' k i <-> free H t k i) /\ (forall k i, used H t' k i <-> used H t k i) /\
  (wf H t -> wf H t').
Proof.
  intros He Hz.
  assert (Hp : forall k i, present H t' k i <-> present H t k i).
  { intros k i. unfold present. split; intros [Hv Hs]; (split; [done|]);
      (destruct (decide (k = H)) as [->|]; [by left|]); right;
      (destruct Hs as [|Hs]; [done|]); rewrite <- Hs; [symmetry|];
      apply He; apply valid_parent; destruct Hv; try done; lia. }
  assert (Hf : forall k i, free H t' k i <-> free H t k i).
  { intros k i. unfold free. rewrite Hp. split; intros [Hpr HA]; (split; [done|]);
      rewrite <- HA; [symmetry|]; apply He, Hpr. }
  split_and!; [done| |].
  - intros k i. unfold used. rewrite Hp. split; intros (Hpr & HA & HS);
      destruct (He k i (proj1 Hpr)); split_and!; congruence || done.
  - intros Hw. split.
    + intros k i Hv Hn. destruct (He k i Hv) as [-> ->]. rewrite Hp in Hn. by apply (wf_absent _ _ Hw).
    + intros k i Hv. destruct (He k i Hv) as [-> ->]. by apply (wf_split _ _ Hw).
    + done.
    + intros k i Hfr%Hf. by apply (wf_head _ _ Hw).
    + intros k i Hk Hf1%Hf Hf2%Hf. exact (wf_coalesced _ _ Hw _ _ Hk Hf1 Hf2).
Qed.

Lemma tree_of_ok s t :
  rep s t -> rep s (tree_of s) /\
    forall k i, used (nsizes s - 1) (tree_of s) k i <-> used (nsizes s - 1) t k i.
Proof.
  intros [Hn Hb Hbits Hl Hw].
  assert (He : forall k i, valid (nsizes s - 1) k i ->
    A (tree_of s) k i = A t k i /\ Sp (tree_of s) k i = Sp t k i).
  { intros k i Hv. destruct (brep_get s _ _ Hbits _ _ Hv) as [z Hz]. cbn. rewrite Hz. split.
    - apply (brep_alloc _ _ _ _ Hbits _ _ Hz). done.
    - destruct (k =? 0) eqn:E.
      + apply Z.eqb_eq in E as ->. by rewrite (wf_leaf _ _ Hw).
      + apply (brep_split _ _ _ _ Hbits _ _ Hz); [|done]. destruct Hv; lia. }
  destruct (wf_ext _ t (tree_of s) He ltac:(done)) as (Hf & Hu & Hwf).
  split; [|done]. split; [done|done| | |by apply Hwf].
  - destruct Hbits as [H1 H2 H3]. split; [done| |].
    + intros k z Hz. destruct (H2 k z Hz) as (? & ? & Hx). split_and!; [done|done|].
      intros i Hi. rewrite Hx by done. symmetry. by apply He.
    + intros k z Hz Hk. destruct (H3 k z Hz Hk) as (? & ? & Hx). split_and!; [done|done|].
      intros i Hi. rewrite Hx by done. symmetry. by apply He.
  - intros k Hk. destruct (Hl k Hk) as (l & Hd & Hin). exists l. split; [done|].
    intros x. rewrite Hin. by setoid_rewrite Hf.
Qed.

(** The allocator's invariant. *)
Definition bd_inv (s : buddy) : Prop := rep s (tree_of s).

(** [p] is the address of an allocated block of [z] bytes (that holds none of
    the free list heads). *)
Definition bd_live (s : buddy) (p z : Z) : Prop :=
  exists k i, used (nsizes s - 1) (tree_of s) k i /\ nohead (nsizes s - 1) k i /\
    p = bd_base s + i * BLK_SIZE k /\ z = BLK_SIZE k.

Lemma rep_inv s t : rep s t -> bd_inv s.
Proof. intros Hr. by apply (tree_of_ok s t). Qed.

Lemma rep_live s t p z :
  rep s t -> bd_live s p z <-> exists k i, used (nsizes s - 1) t k i /\ nohead (nsizes s - 1) k i /\
    p = bd_base s + i * BLK_SIZE k /\ z = BLK_SIZE k.
Proof. intros Hr. unfold bd_live. destruct (tree_of_ok s t Hr) as [_ Hu]. by setoid_rewrite Hu. Qed.

Lemma BLK_SIZE_inj k k' : 0 <= k -> 0 <= k' -> BLK_SIZE k = BLK_SIZE k' -> k = k'.
Proof.
  intros Hk Hk' E. unfold BLK_SIZE, LEAF_SIZE in E. apply (Z.pow_inj_r 2); lia.
Qed.

Lemma bd_live_pos s p z : bd_inv s -> bd_live s p z -> 0 < p /\ 0 < z.
Proof.
  intros Hr (k & i & [[Hv _] _] & _ & -> & ->). pose proof (rep_base _ _ Hr).
  pose proof (blk_off s (rep_sizes _ _ Hr) _ _ Hv) as [? _]. destruct Hv. split; [lia|apply blk_pos; lia].
Qed.

(** Two used blocks that start at the same address are the same block. *)
Lemma used_addr_inj H t k i k' i' :
  wf H t -> used H t k i -> used H t k' i' -> i * BLK_SIZE k = i' * BLK_SIZE k' -> k = k' /\ i = i'.
Proof.
  intros Hw (Hp & _ & HS) (Hp' & _ & HS') E.
  pose proof (pow2_pos k ltac:(apply Hp)). pose proof (pow2_pos k' ltac:(apply Hp')).
  unfold BLK_SIZE, LEAF_SIZE in E.
  apply (leaves_disjoint H t k i k' i' (i * (2 ^ k * 16))); try done; lia.
Qed.

Lemma bd_live_disjoint s p z p' z' :
  bd_inv s -> bd_live s p z -> bd_live s p' z' ->
  (p, z) = (p', z') \/ p + z <= p' \/ p' + z' <= p.
Proof.
  intros Hr (k & i & (Hp & _ & HS) & _ & -> & ->) (k' & i' & (Hp' & _ & HS') & _ & -> & ->).
  pose proof (rep_wf _ _ Hr) as Hw.
  pose proof (blk_pos k ltac:(apply Hp)). pose proof (blk_pos k' ltac:(apply Hp')).
  destruct (decide ((k, i) = (k', i'))) as [[= -> ->]|Hne]; [by left|right].
  assert (Hx : forall x, i * BLK_SIZE k <= x < (i + 1) * BLK_SIZE k ->
    i' * BLK_SIZE k' <= x < (i' + 1) * BLK_SIZE k' -> False).
  { intros x H1 H2. destruct (leaves_disjoint _ _ k i k' i' x Hw Hp HS Hp' HS' H1 H2). congruence. }
  pose proof (Hx (i * BLK_SIZE k)). pose proof (Hx (i' * BLK_SIZE k')). lia.
Qed.

Notation top s := (nsizes s - 1).

Lemma find_free_all s t fk :
  rep s t -> 0 <= fk ->
  exists k, find_free (Z.to_nat (nsizes s - fk)) fk s = Ret k s /\ fk <= k /\
    (forall j i, fk <= j < k -> ~ free (top s) t j i) /\
    (k < nsizes s -> exists i, free (top s) t k i).
Proof.
  intros Hr Hfk. destruct (decide (nsizes s <= fk)) as [Hle|Hgt].
  - replace (Z.to_nat (nsizes s - fk)) with O by lia. exists fk. split_and!; [done|lia|lia|lia].
  - destruct (find_free_ok s t (Z.to_nat (nsizes s - fk)) fk Hr) as (k & H1 & H2 & H3 & H4); [lia|lia|].
    exists k. split_and!; [done|lia|done|intros; apply H4; lia].
Qed.

Lemma free_used_addr H t k i k' j :
  wf H t -> free H t k i -> used H t k' j -> j * BLK_SIZE k' <> i * BLK_SIZE k.
Proof.
  intros Hw Hf (Hp & HA & HS) E.
  pose proof (pow2_pos k ltac:(apply Hf)). pose proof (pow2_pos k' ltac:(apply Hp)).
  unfold BLK_SIZE, LEAF_SIZE in E. destruct Hf as [Hpf HAf].
  destruct (leaves_disjoint H t k' j k i (i * (2 ^ k * 16)) Hw Hp HS Hpf) as [-> ->];
    [by eapply free_not_split|lia|lia|congruence].
Qed.

(** The block of size [k] taken from its free list and split down to [fk]. *)
Lemma take_block_ok s t fk k :
  rep s t -> 0 <= fk <= k -> k < nsizes s -> (exists i, free (top s) t k i) ->
  exists m zs i s' t',
    on_lists (lst_pop (free_head k s)) s = Ret (bd_base s + i * BLK_SIZE fk) (set_lists m s) /\
    set_alloc k (blk_index k (bd_base s + i * BLK_SIZE fk) (set_lists m s)) (set_lists m s)
      = Ret tt (set_bd_sizes zs (set_lists m s)) /\
    split_loop (Z.to_nat (k - fk)) k (bd_base s + i * BLK_SIZE fk) (set_bd_sizes zs (set_lists m s))
      = Ret tt s' /\ same s s' /\ rep s' t' /\ nohead (top s) fk i /\
    (forall k' j, used (top s) t k' j -> j * BLK_SIZE k' <> i * BLK_SIZE fk) /\
    (forall k' j, used (top s) t' k' j <-> used (top s) t k' j \/ (k', j) = (fk, i)).
Proof.
  intros Hr Hfk Hk Hex.
  destruct (pop_ok s _ k Hr ltac:(lia) Hex) as (i & m & zs & Hf & Hp & Hs & Hh).
  pose proof (hand_valid _ _ _ _ Hh) as Hv. pose proof (rep_wf _ _ Hr) as Hw.
  destruct (split_loop_ok (Z.to_nat (k - fk)) _ _ _ _ Hh ltac:(lia)) as (s' & t' & Hl & Hsm & Hh' & Hu).
  rewrite Z2Nat.id in * by lia. replace (k - (k - fk)) with fk in * by lia. cbn in Hl, Hu.
  destruct (blk_down (top s) k i fk Hv ltac:(lia)) as [_ E].
  exists m, zs, (i * 2 ^ (k - fk)), s', t'. rewrite <- E.
  rewrite (blk_index_same (set_lists m s) (rep_sizes _ _ Hr)) by done.
  split_and!; [done|done|done|done|apply Hh'| | |].
  - destruct Hsm as [E1 _]. cbn in E1. rewrite <- E1. exact (hand_head _ _ _ _ Hh').
  - intros k' j. by apply free_used_addr.
  - intros k' j. rewrite Hu, take_used by done.
    assert (~ used (top s) t k i) by (intros Hx; by apply (free_used_addr _ _ _ _ _ _ Hw Hf Hx)).
    naive_solver.
Qed.

(** Releasing the allocator's lock. *)
Ltac unlock c :=
  first [erewrite bind_ret_l by (apply (release_ok _ c); [done|done|cbn; by rewrite ?locked_touch])
        |erewrite (release_ok _ c); [|done|done|cbn; by rewrite ?locked_touch]].

Lemma bd_malloc_ok s n :
  bd_inv s -> cx_wf (cx s) -> buddy_lock ∉ held (cx s) -> 0 <= n <= 2 ^ 63 ->
  exists p s' fk, bd_malloc n s = Ret p s' /\ bd_inv s' /\ cx s' = touch (cx s) /\
    nsizes s' = nsizes s /\ bd_base s' = bd_base s /\ firstk firstk_fuel n = Some fk /\
    ((p = 0 /\ s' = set_cx (cx s') s /\ forall k i, fk <= k -> ~ free (top s) (tree_of s) k i) \/
     (exists i, p = bd_base s + i * BLK_SIZE fk /\ nohead (top s) fk i /\
       (forall k j, used (top s) (tree_of s) k j -> j * BLK_SIZE k <> i * BLK_SIZE fk) /\
       forall k j, used (top s) (tree_of s') k j <-> used (top s) (tree_of s) k j \/ (k, j) = (fk, i))).
Proof.
  intros Hr Hc Hl Hn. destruct (firstk_ok n Hn) as (fk & Hfk & Hk & _).
  unfold bd_malloc. run (acquire_ok buddy_lock s Hl). rewrite Hfk. mstep.
  set (s0 := set_cx _ s). assert (Hr0 : rep s0 (tree_of s)) by by apply rep_set_cx.
  destruct (find_free_all s0 _ fk Hr0 ltac:(lia)) as (k & H1 & H2 & H3 & H4). run H1.
  destruct (Z.leb_spec (nsizes s0) k) as [Hle|Hlt].
  - unlock (cx s). mstep. exists 0, (set_cx (touch (cx s)) s0), fk.
    split_and!; try done; [by eapply rep_inv, rep_set_cx|].
    left. split_and!; [done|by destruct s|]. intros k' i Hk' Hf. apply (H3 k' i); [|done].
    destruct Hf as [[[? _] _] _]. cbn in *. lia.
  - destruct (take_block_ok s0 _ fk k Hr0 ltac:(lia) Hlt (H4 Hlt))
      as (m & zs & i & s' & t' & Hp & Hs & Hsp & (E1 & E2 & E3) & Hr' & Hn' & Hnu & Hu).
    mstep. run Hp. mstep. run Hs. run Hsp. cbn in E1, E2, E3.
    erewrite bind_ret_l by (apply (release_ok _ (cx s)); [done|done|cbn; by rewrite E3, locked_touch]).
    mstep. exists (bd_base s + i * BLK_SIZE fk), (set_cx (touch (cx s)) s'), fk.
    pose proof (rep_set_cx (touch (cx s)) _ _ Hr') as Hr''.
    split_and!; try done; [by eapply rep_inv|]. right. exists i. split_and!; [done|done|exact Hnu|].
    intros k' j. cbn in Hu. rewrite <- Hu, <- E1. exact (proj2 (tree_of_ok _ t' Hr'') k' j).
Qed.

Lemma bd_free_ok s k i :
  bd_inv s -> cx_wf (cx s) -> buddy_lock ∉ held (cx s) ->
  used (top s) (tree_of s) k i -> nohead (top s) k i ->
  exists s', bd_free (bd_base s + i * BLK_SIZE k) s = Ret tt s' /\ bd_inv s' /\
    cx s' = touch (cx s) /\ nsizes s' = nsizes s /\ bd_base s' = bd_base s /\
    (exists k' j, k <= k' /\ free (top s) (tree_of s') k' j) /\
    forall k' j, used (top s) (tree_of s') k' j <->
      used (top s) (tree_of s) k' j /\ (k', j) <> (k, i).
Proof.
  intros Hr Hc Hl Hu Hn. unfold bd_free. run (acquire_ok buddy_lock s Hl).
  set (s0 := set_cx _ s). assert (Hh : hand s0 (tree_of s) k i) by (split; [by apply rep_set_cx|done|done]).
  run (size_ok _ _ _ _ Hh). mstep.
  pose proof (hand_valid _ _ _ _ Hh) as [Hk _].
  destruct (free_loop_ok (Z.to_nat (MAXSIZE s0 - k)) _ _ _ _ Hh) as (s1 & t1 & k1 & i1 & H1 & (E1 & E2 & E3) & Hm & Hle & Hnew & Hu1);
    [unfold MAXSIZE; lia|]. run H1. mstep. cbn in E1, E2, E3.
  destruct (push_merged _ _ _ _ Hm) as (m & H2 & Hr2). rewrite E2 in H2. cbn [fst snd]. run H2.
  rewrite (release_ok _ (cx s)); [|done|done|cbn; by rewrite E3, locked_touch].
  eexists. pose proof (rep_set_cx (touch (cx s)) _ _ Hr2) as Hr3.
  destruct (tree_of_ok _ _ Hr3) as [Hr4 Hu3].
  split_and!; [done|by eapply rep_inv|done|done|done| |].
  { exists k1, i1. split; [done|]. rewrite <- E1.
    apply (used_determines _ _ (give k1 i1 t1)); [exact (rep_wf _ _ Hr4)|exact (rep_wf _ _ Hr3)|exact Hu3|].
    apply give_free; [apply (merged_used _ _ _ _ Hm)|by right]. }
  intros k' j. cbn in Hu3, Hu1. rewrite E1 in Hu3.
  rewrite Hu3, give_used, Hu1. split; [naive_solver|]. intros [Hu' Hne]. split; [by left|].
  intros E. injection E as -> ->. apply Hne. by apply Hnew.
Qed.

(** The allocator implements the interface its callers rely on. *)

Lemma bd_malloc_live s n :
  bd_inv s -> cx_wf (cx s) -> buddy_lock ∉ held (cx s) -> 0 <= n <= 2 ^ 63 ->
  exists p s', bd_malloc n s = Ret p s' /\ bd_inv s' /\ cx s' = touch (cx s) /\
    bd_base s' = bd_base s /\
    ((p = 0 /\ forall q z, bd_live s' q z <-> bd_live s q z) \/
     (exists z, n <= z /\ (z | p - bd_base s) /\ (forall y, ~ bd_live s p y) /\
       forall q y, bd_live s' q y <-> bd_live s q y \/ (q, y) = (p, z))).
Proof.
  intros Hr Hc Hl Hn. destruct (bd_malloc_ok s n Hr Hc Hl Hn)
    as (p & s' & fk & E & Hr' & Hc' & E1 & E2 & Hfk & Hcase).
  destruct (firstk_ok n Hn) as (fk' & Hfk' & Hk & Hsz & _). assert (fk' = fk) as -> by congruence.
  exists p, s'. split_and!; [done|done|done|done|]. destruct Hcase as [(-> & Es & _)|(i & -> & Hnh & Hnew & Hu)].
  - left. split; [done|]. intros q z. rewrite Es. done.
  - right. exists (BLK_SIZE fk). split_and!; [done|exists i; lia| |].
    + intros y (k & j & Hu' & _ & Ep & _). apply (Hnew k j Hu'). lia.
    + intros q y. unfold bd_live. rewrite E1, E2. setoid_rewrite Hu. split.
      * intros (k & j & [Hu'|[= -> ->]] & Hh & -> & ->); [left; eauto 10|by right].
      * intros [(k & j & Hu' & Hh & -> & ->)|[= -> ->]]; [exists k, j|exists fk, i]; auto.
Qed.

Lemma bd_free_live s p z :
  bd_inv s -> cx_wf (cx s) -> buddy_lock ∉ held (cx s) -> bd_live s p z ->
  exists s', bd_free p s = Ret tt s' /\ bd_inv s' /\ cx s' = touch (cx s) /\
    bd_base s' = bd_base s /\
    forall q y, bd_live s' q y <-> bd_live s q y /\ q <> p.
Proof.
  intros Hr Hc Hl (k & i & Hu & Hn & -> & ->).
  destruct (bd_free_ok s k i Hr Hc Hl Hu Hn) as (s' & E & Hr' & Hc' & E1 & E2 & _ & Hu').
  exists s'. split_and!; [done|done|done|done|]. intros q y. unfold bd_live. rewrite E1, E2.
  setoid_rewrite Hu'. split.
  - intros (k' & j & [Hu2 Hne] & Hh & -> & ->). split; [eauto 10|]. intros Eq. apply Hne.
    destruct (used_addr_inj _ _ k' j k i (rep_wf _ _ Hr) Hu2 Hu) as [-> ->]; [lia|done].
  - intros [(k' & j & Hu2 & Hh & -> & ->) Hne]. exists k', j. split_and!; try done.
    intros [= -> ->]. done.
Qed.

Lemma bd_free_malloc s p z s' n q s'' :
  bd_inv s -> cx_wf (cx s) -> buddy_lock ∉ held (cx s) -> bd_live s p z ->
  bd_free p s = Ret tt s' -> 0 <= n <= z -> n <= 2 ^ 63 -> bd_malloc n s' = Ret q s'' -> q <> 0.
Proof.
  intros Hr Hc Hl (k & i & Hu & Hn & -> & ->) E Hsz Hbig E'.
  destruct (bd_free_ok s k i Hr Hc Hl Hu Hn) as (s1 & E1 & Hr1 & Hc1 & En & _ & (k' & j & Hk & Hf) & _).
  assert (s1 = s') as -> by congruence.
  destruct (bd_malloc_ok s' n Hr1) as (q' & s2 & fk & E2 & _ & _ & _ & _ & Hfk & Hcase);
    [rewrite Hc1; by apply touch_wf|by rewrite Hc1|lia|].
  assert (q' = q) as -> by congruence.
  destruct Hcase as [(_ & _ & Hno)|(i' & -> & _ & _ & Hu2)].
  - exfalso. destruct (firstk_ok n ltac:(lia)) as (fk' & Hfk' & Hfk0 & _ & Hmin).
    assert (fk' = fk) as -> by congruence. apply (Hno k' j); [|by rewrite En].
    destruct (decide (fk <= k)); [lia|]. destruct Hu as [[[Hk0 _] _] _]. specialize (Hmin k ltac:(lia)). lia.
  - pose proof (rep_base _ _ Hr1). assert (Hx : used (top s') (tree_of s2) fk i') by (apply Hu2; by right).
    destruct Hx as [[[? ?] _] _]. pose proof (blk_pos fk ltac:(lia)). nia.
Qed.

#[export] Instance buddy_alloc : Alloc buddy := {|
  malloc := bd_malloc;
  mfree := bd_free;
  alloc_lock := buddy_lock;
  alloc_inv := bd_inv;
  alloc_base := bd_base;
  live := bd_live;
  live_pos := bd_live_pos;
  live_disjoint := bd_live_disjoint;
  alloc_inv_cx := fun c s H => rep_set_cx c s _ H;
  live_cx := fun c s p z => iff_refl _;
  alloc_base_cx := fun c s => eq_refl;
  malloc_spec := bd_malloc_live;
  mfree_spec := bd_free_live;
  mfree_malloc := bd_free_malloc
|}.
