(* ===== verification/BuddyInit.v ===== *)
(** * Initialisation of the buddy allocator

    [bd_init] marks the blocks that hold its own data and those beyond the end
    of memory, and puts the remaining blocks on the free lists.  For every heap
    of at least a page and less than a gigabyte whose size is not a power of
    two it returns, and the state it leaves satisfies the invariant [bd_inv]
    of [BuddySpec], with exactly the bytes between the end of its own data and
    the end of memory in free blocks. *)

From S2P Require Import Prelude Riscv ListC Buddy BuddyTree AllocI BuddySpec.

Lemma brep_ext n zs a sp a' sp' :
  brep n zs a sp ->
  (forall k i, valid (n - 1) k i -> a' k i = a k i) ->
  (forall k i, valid (n - 1) k i -> 1 <= k -> sp' k i = sp k i) ->
  brep n zs a' sp'.
Proof.
  intros [H1 H2 H3] Ha Hs. split; [done| |].
  - intros k z Hz. destruct (H2 k z Hz) as (? & ? & Hb). split_and!; [done|done|].
    intros i Hi. by rewrite Hb, Ha.
  - intros k z Hz Hk. destruct (H3 k z Hz Hk) as (? & ? & Hb). split_and!; [done|done|].
    intros i Hi. by rewrite Hb, Hs.
Qed.

Lemma blk_big k : k <= 26 -> BLK_SIZE k <= 2 ^ 30.
Proof.
  intros. unfold BLK_SIZE, LEAF_SIZE. assert (2 ^ k <= 2 ^ 26) by (apply Z.pow_le_mono_r; lia). lia.
Qed.

(** ** Marking *)

Definition mark (f : Z -> Z -> bool) (p : Z -> Z -> bool) : Z -> Z -> bool :=
  fun k i => p k i || f k i.

Lemma mark_range_ok n k bi s a sp :
  brep (nsizes s) (bd_sizes s) a sp -> 0 <= k < nsizes s -> 0 <= bi ->
  bi + Z.of_nat n <= 2 ^ (top s - k) ->
  let rg := fun k' i => (k' =? k) && (bi <=? i) && (i <? bi + Z.of_nat n) in
  exists zs, mark_range n k bi s = Ret tt (set_bd_sizes zs s) /\
    brep (nsizes s) zs (mark a rg) (mark sp rg).
Proof.
  revert bi s a sp. induction n as [|n IH]; intros bi s a sp Hb Hk H0 Hle; cbn [mark_range]; cbv zeta.
  - exists (bd_sizes s). split; [by destruct s|]. apply (brep_ext _ _ _ _ _ _ Hb); intros k' i _; [|intros _];
      unfold mark; replace ((k' =? k) && (bi <=? i) && (i <? bi + Z.of_nat 0)) with false by blia; done.
  - assert (Hv : valid (top s) k bi) by (split; lia).
    assert (exists zs1, when (0 <? k) (set_split k bi) s = Ret tt (set_bd_sizes zs1 s) /\
      brep (nsizes s) zs1 a (upd2 sp k bi true)) as (zs1 & E1 & Hb1).
    { destruct (Z.ltb_spec 0 k).
      - apply (set_split_ok s _ _ Hb); [done|lia].
      - exists (bd_sizes s). split; [by destruct s|]. apply (brep_ext _ _ _ _ _ _ Hb); [done|].
        intros k' i _ Hk'. apply upd2_ne. intros [= ]; lia. }
    run E1. destruct (set_alloc_ok (set_bd_sizes zs1 s) _ _ Hb1 k bi Hv) as (zs2 & E2 & Hb2). run E2.
    destruct (IH (bi + 1) (set_bd_sizes zs2 s) _ _ Hb2) as (zs & E & Hb3); [done|lia|cbn; lia|].
    exists zs. split; [exact E|]. apply (brep_ext _ _ _ _ _ _ Hb3); intros k' i _; [|intros _];
      unfold mark, upd2; (case_decide as Ed; [destruct Ed as [<- <-]|]); blia.
Qed.

(** Marking at every size: [lo k] and [hi k] are the first and the last index. *)
Lemma mark_sizes_ok n k s start stop lo hi a sp :
  brep (nsizes s) (bd_sizes s) a sp -> 0 <= k -> k + Z.of_nat n = nsizes s ->
  (forall s', bd_base s' = bd_base s -> forall k, 0 <= k < nsizes s ->
    blk_index k start s' = lo k /\ blk_index_next k stop s' = hi k /\
    0 <= lo k /\ hi k <= 2 ^ (top s - k)) ->
  let rg := fun k' i => (k <=? k') && (lo k' <=? i) && (i <? hi k') in
  exists zs, mark_sizes n k start stop s = Ret tt (set_bd_sizes zs s) /\
    brep (nsizes s) zs (mark a rg) (mark sp rg).
Proof.
  revert k s a sp. induction n as [|n IH]; intros k s a sp Hb Hk Hn Hidx; cbn [mark_sizes]; cbv zeta.
  - exists (bd_sizes s). split; [by destruct s|]. apply (brep_ext _ _ _ _ _ _ Hb); intros k' i [? _]; [|intros _];
      unfold mark; replace (k <=? k') with false by blia; done.
  - destruct (Hidx s eq_refl k ltac:(lia)) as (E1 & E2 & Hlo & Hhi). mstep. rewrite E1, E2.
    assert (exists zs1, mark_range (Z.to_nat (hi k - lo k)) k (lo k) s = Ret tt (set_bd_sizes zs1 s) /\
      brep (nsizes s) zs1 (mark a (fun k' i => (k' =? k) && (lo k <=? i) && (i <? hi k)))
        (mark sp (fun k' i => (k' =? k) && (lo k <=? i) && (i <? hi k)))) as (zs1 & E3 & Hb1).
    { destruct (decide (lo k <= hi k)) as [Hlt|Hge].
      - destruct (mark_range_ok (Z.to_nat (hi k - lo k)) k (lo k) s a sp Hb) as (zs1 & E3 & Hb1);
          [lia|lia|lia|]. exists zs1. split; [done|].
        by replace (lo k + Z.of_nat (Z.to_nat (hi k - lo k))) with (hi k) in Hb1 by lia.
      - replace (Z.to_nat (hi k - lo k)) with O by lia. exists (bd_sizes s). split; [by destruct s|].
        apply (brep_ext _ _ _ _ _ _ Hb); intros k' i _; [|intros _]; unfold mark;
          replace ((k' =? k) && (lo k <=? i) && (i <? hi k)) with false by blia; done. }
    run E3. destruct (IH (k + 1) (set_bd_sizes zs1 s) _ _ Hb1) as (zs & E & Hb2); [lia|cbn; lia|done|].
    exists zs. split; [exact E|]. apply (brep_ext _ _ _ _ _ _ Hb2); intros k' i _; [|intros _];
      unfold mark; destruct (Z.eqb_spec k' k) as [->|];
      rewrite ?orb_assoc; f_equal; blia.
Qed.

(** ** Allocation of the bit arrays *)

Definition zeros (z : Z) : list Z := replicate (Z.to_nat z) 0.

Lemma bits_bytes_ok x : 0 < x -> 0 <= bits_bytes x /\ x <= 8 * bits_bytes x <= x + 7.
Proof.
  intros Hx. unfold bits_bytes, ROUNDUP. rewrite (Z.quot_div_nonneg (x - 1) 8) by lia.
  rewrite Z.quot_mul by lia. dlia.
Qed.

Lemma bytes_ok_zeros z : bytes_ok (zeros z).
Proof. unfold bytes_ok, zeros. apply Forall_replicate. lia. Qed.

Lemma bit_zeros z i : bit (zeros z) i = false.
Proof.
  unfold bit, zeros. destruct (aget (replicate (Z.to_nat z) 0) (i / 8)) as [b|] eqn:E; [|done].
  unfold aget in E. case_decide; [|done]. apply lookup_replicate in E as [-> _].
  apply Z.bits_0.
Qed.

Lemma upd_alloc_const s k z l :
  aget (bd_sizes s) k = Some z ->
  upd_alloc (fun _ => Some l) k s =
    Ret tt (set_bd_sizes (<[Z.to_nat k := {| alloc := l; split := split z |}]> (bd_sizes s)) s).
Proof.
  intros Hz. unfold upd_alloc. mstep. rewrite Hz. cbn.
  by rewrite aset_is_Some by (eapply aget_Some_lt; done).
Qed.

Lemma upd_split_const s k z l :
  aget (bd_sizes s) k = Some z ->
  upd_split (fun _ => Some l) k s =
    Ret tt (set_bd_sizes (<[Z.to_nat k := {| alloc := alloc z; split := l |}]> (bd_sizes s)) s).
Proof.
  intros Hz. unfold upd_split. mstep. rewrite Hz. cbn.
  by rewrite aset_is_Some by (eapply aget_Some_lt; done).
Qed.

(** The list heads from [k] on are initialised, those before keep their lists. *)
Lemma init_alloc_ok n k p s :
  0 <= k -> k + Z.of_nat n = nsizes s -> Z.of_nat (length (bd_sizes s)) = nsizes s ->
  exists p' s', init_alloc n k p s = Ret p' s' /\ same s s' /\
    Z.of_nat (length (bd_sizes s')) = nsizes s /\
    p <= p' /\ 8 * (p' - p) <= 2 ^ (nsizes s - k) + 7 * Z.of_nat n /\
    (forall j, 0 <= j < k -> aget (bd_sizes s') j = aget (bd_sizes s) j) /\
    (forall j, k <= j < nsizes s -> exists z, aget (bd_sizes s) j = Some z /\
      aget (bd_sizes s') j = Some {| alloc := zeros (bits_bytes (2 ^ (top s - j))); split := split z |}) /\
    (forall j, k <= j < nsizes s -> dll (lists s') (bd_base s + SZ_INFO * j) []) /\
    (forall a, (forall j, k <= j < nsizes s -> a <> bd_base s + SZ_INFO * j) -> lists s' !! a = lists s !! a).
Proof.
  revert k p s. induction n as [|n IH]; intros k p s Hk Hn Hlen; cbn [init_alloc].
  - exists p, s. pose proof (pow2_pos (nsizes s - k)). split_and!; try done; lia.
  - destruct (aget_is_Some (bd_sizes s) k) as [z Hz]; [lia|].
    mstep. destruct (lst_init_dll (lists s) (free_head k s)) as (m & Hm & Hd & Hfr).
    apply on_lists_ret in Hm. run Hm. mstep. erewrite bind_ret_l by (by apply upd_alloc_const).
    set (s1 := set_bd_sizes _ _).
    assert (Hpw : 2 ^ (nsizes s - k) = 2 * 2 ^ (top s - k))
      by (rewrite <- pow2_S by lia; f_equal; lia).
    pose proof (bits_bytes_ok (2 ^ (top s - k)) ltac:(apply pow2_pos; lia)) as Hbb.
    change (NBLK k (set_lists m s)) with (2 ^ (top s - k)).
    set (q := p + bits_bytes _).
    destruct (IH (k + 1) q s1) as (p' & s' & E & Hsm & Hl' & Hp1 & Hp2 & Hbef & Haft & Hdl & Hfr').
    { lia. } { cbn; lia. } { cbn. rewrite length_insert. lia. }
    assert (Ha := aset_is_Some (bd_sizes s) k
      {| alloc := zeros (bits_bytes (2 ^ (top s - k))); split := split z |} ltac:(lia)).
    exists p', s'. cbn in Hsm, Hl', Hp2, Hbef, Haft, Hdl, Hfr'.
    split_and!; [exact E|exact Hsm|exact Hl'|lia| | | | |].
    + replace (nsizes s - (k + 1)) with (top s - k) in Hp2 by lia. lia.
    + intros j Hj. rewrite Hbef by lia. by apply (aget_aset_ne _ _ _ _ _ Ha); lia.
    + intros j Hj. destruct (decide (j = k)) as [->|Hne].
      * exists z. split; [done|]. rewrite Hbef by lia. by apply (aget_aset_eq _ _ _ _ Ha).
      * destruct (Haft j ltac:(lia)) as (z' & Hz' & ->). exists z'. split; [|done].
        rewrite <- Hz'. symmetry. apply (aget_aset_ne _ _ _ _ _ Ha). lia.
    + intros j Hj. destruct (decide (j = k)) as [->|Hne]; [|apply Hdl; lia].
      revert Hd. apply dll_frame. intros x Hx. apply list_elem_of_singleton in Hx as ->.
      apply Hfr'. intros j' Hj'. unfold free_head, SZ_INFO. lia.
    + intros a Ha'. rewrite Hfr' by (intros j Hj; apply Ha'; lia).
      apply Hfr. intros ->. apply (Ha' k); [lia|done].
Qed.

Lemma init_split_ok n k p s :
  0 <= k -> k + Z.of_nat n = nsizes s -> Z.of_nat (length (bd_sizes s)) = nsizes s ->
  exists p' zs, init_split n k p s = Ret p' (set_bd_sizes zs s) /\
    Z.of_nat (length zs) = nsizes s /\
    p <= p' /\ 8 * (p' - p) <= 2 ^ (nsizes s - k) + 7 * Z.of_nat n /\
    (forall j, 0 <= j < k -> aget zs j = aget (bd_sizes s) j) /\
    (forall j, k <= j < nsizes s -> exists z, aget (bd_sizes s) j = Some z /\
      aget zs j = Some {| alloc := alloc z; split := zeros (bits_bytes (2 ^ (top s - j))) |}).
Proof.
  revert k p s. induction n as [|n IH]; intros k p s Hk Hn Hlen; cbn [init_split].
  - exists p, (bd_sizes s). pose proof (pow2_pos (nsizes s - k)).
    split_and!; try done; try lia. by destruct s.
  - destruct (aget_is_Some (bd_sizes s) k) as [z Hz]; [lia|].
    mstep. erewrite bind_ret_l by (by apply upd_split_const). set (s1 := set_bd_sizes _ _).
    assert (Hpw : 2 ^ (nsizes s - k) = 2 * 2 ^ (top s - k))
      by (rewrite <- pow2_S by lia; f_equal; lia).
    pose proof (bits_bytes_ok (2 ^ (top s - k)) ltac:(apply pow2_pos; lia)) as Hbb.
    change (NBLK k s) with (2 ^ (top s - k)). set (q := p + bits_bytes _).
    destruct (IH (k + 1) q s1) as (p' & zs & E & Hl' & Hp1 & Hp2 & Hbef & Haft).
    { lia. } { cbn; lia. } { cbn. rewrite length_insert. lia. }
    assert (Ha := aset_is_Some (bd_sizes s) k
      {| alloc := alloc z; split := zeros (bits_bytes (2 ^ (top s - k))) |} ltac:(lia)).
    exists p', zs. cbn in Hl', Hp2, Hbef, Haft. split_and!; [exact E|exact Hl'|lia| | |].
    + replace (nsizes s - (k + 1)) with (top s - k) in Hp2 by lia. lia.
    + intros j Hj. rewrite Hbef by lia. by apply (aget_aset_ne _ _ _ _ _ Ha); lia.
    + intros j Hj. destruct (decide (j = k)) as [->|Hne].
      * exists z. split; [done|]. rewrite Hbef by lia. by apply (aget_aset_eq _ _ _ _ Ha).
      * destruct (Haft j ltac:(lia)) as (z' & Hz' & ->). exists z'. split; [|done].
        rewrite <- Hz'. symmetry. apply (aget_aset_ne _ _ _ _ _ Ha). lia.
Qed.

(** ** The bytes of the arrays *)

Definition arrays_len (zs : list sz_info) : Z :=
  foldr (fun z n => Z.of_nat (length (alloc z)) + Z.of_nat (length (split z)) + n) 0 zs.

(** The first address after the allocator's own data: the array [bd_sizes],
    then the alloc and the split arrays, in whole leaves. *)
Definition data_end (s : buddy) : Z :=
  ROUNDUP (bd_base s + SZ_INFO * nsizes s + arrays_len (bd_sizes s)) LEAF_SIZE.

Lemma arrays_len_aset zs k z z' zs' :
  aget zs k = Some z -> aset zs k z' = Some zs' ->
  arrays_len zs' = arrays_len zs - Z.of_nat (length (alloc z)) - Z.of_nat (length (split z)) +
    Z.of_nat (length (alloc z')) + Z.of_nat (length (split z')).
Proof.
  unfold aget, aset. intros Hg Hs. case_decide; [|done]. case_decide; [|done]. simplify_eq.
  revert Hg. generalize (Z.to_nat k). clear. unfold arrays_len.
  induction zs as [|y zs IH]; intros [|j] Hg; cbn in *; simplify_eq; [lia|].
  specialize (IH j Hg). unfold insert in *. lia.
Qed.

Lemma upd_alloc_inv f k s s' :
  upd_alloc f k s = Ret tt s' ->
  exists z a zs, aget (bd_sizes s) k = Some z /\ f (alloc z) = Some a /\ s' = set_bd_sizes zs s /\
    aset (bd_sizes s) k {| alloc := a; split := split z |} = Some zs.
Proof.
  unfold upd_alloc. mstep. intros (zs & s1 & E & F)%bind_inv. unfold unwrap in E.
  destruct (aget (bd_sizes s) k) as [z|] eqn:Ez; [|done]. cbn in E.
  destruct (f (alloc z)) as [a|] eqn:Ea; [|done]. cbn in E.
  destruct (aset _ _ _) as [zs'|] eqn:Es; [|done]. cbn in E, F. unfold ret in E. simplify_eq.
  injection F as <-. by exists z, a, zs.
Qed.

Lemma upd_split_inv f k s s' :
  upd_split f k s = Ret tt s' ->
  exists z a zs, aget (bd_sizes s) k = Some z /\ f (split z) = Some a /\ s' = set_bd_sizes zs s /\
    aset (bd_sizes s) k {| alloc := alloc z; split := a |} = Some zs.
Proof.
  unfold upd_split. mstep. intros (zs & s1 & E & F)%bind_inv. unfold unwrap in E.
  destruct (aget (bd_sizes s) k) as [z|] eqn:Ez; [|done]. cbn in E.
  destruct (f (split z)) as [a|] eqn:Ea; [|done]. cbn in E.
  destruct (aset _ _ _) as [zs'|] eqn:Es; [|done]. cbn in E, F. unfold ret in E. simplify_eq.
  injection F as <-. by exists z, a, zs.
Qed.

Lemma bit_set_length l i l' : bit_set l i = Some l' -> length l' = length l.
Proof.
  unfold bit_set. destruct (aget l _); [|done]. cbn. unfold aset. case_decide; [|done].
  intros [= <-]. apply length_insert.
Qed.

Lemma mark_range_len n k bi s s' :
  mark_range n k bi s = Ret tt s' -> arrays_len (bd_sizes s') = arrays_len (bd_sizes s).
Proof.
  revert bi s. induction n as [|n IH]; intros bi s E; cbn [mark_range] in E; [by injection E as <-|].
  apply bind_inv in E as ([] & s1 & E1 & E). apply bind_inv in E as ([] & s2 & E2 & E).
  rewrite (IH _ _ E). unfold set_alloc in E2. apply upd_alloc_inv in E2 as (z & a & zs & Hg & Hf & -> & Hs).
  cbn [bd_sizes set_bd_sizes]. rewrite (arrays_len_aset _ _ _ _ _ Hg Hs). cbn.
  rewrite (bit_set_length _ _ _ Hf). replace (arrays_len (bd_sizes s1)) with (arrays_len (bd_sizes s)); [lia|].
  destruct (0 <? k); cbn [when] in E1; [|by injection E1 as <-].
  unfold set_split in E1. apply upd_split_inv in E1 as (z' & a' & zs' & Hg' & Hf' & -> & Hs').
  cbn [bd_sizes set_bd_sizes]. rewrite (arrays_len_aset _ _ _ _ _ Hg' Hs'). cbn.
  rewrite (bit_set_length _ _ _ Hf'). lia.
Qed.

Lemma bd_mark_len start stop s s' :
  bd_mark start stop s = Ret tt s' -> arrays_len (bd_sizes s') = arrays_len (bd_sizes s).
Proof.
  unfold bd_mark. case_match; [done|]. mstep. generalize (Z.to_nat (nsizes s)) as n. generalize 0 as k.
  intros k n. revert k s. induction n as [|n IH]; intros k s E; cbn [mark_sizes] in E; [by injection E as <-|].
  revert E. mstep. intros ([] & s1 & E1 & E)%bind_inv. rewrite (IH _ _ E). by eapply mark_range_len.
Qed.

(** The pointer the loops advance moves by the bytes of the arrays they make. *)
Lemma init_alloc_len n k p s p' s' :
  (forall j z, k <= j -> aget (bd_sizes s) j = Some z -> alloc z = []) ->
  init_alloc n k p s = Ret p' s' -> p' - p = arrays_len (bd_sizes s') - arrays_len (bd_sizes s).
Proof.
  revert k p s. induction n as [|n IH]; intros k p s Hz E; cbn [init_alloc] in E; [injection E as <- <-; lia|].
  revert E. mstep. intros ([] & s1 & E1 & E)%bind_inv. revert E. mstep. intros ([] & s2 & E2 & E)%bind_inv.
  assert (E0 : bd_sizes s1 = bd_sizes s /\ nsizes s1 = nsizes s).
  { unfold on_lists, zoom in E1. repeat case_match; try done. by injection E1 as <-. }
  destruct E0 as [E0 E0']. unfold NBLK, MAXSIZE in *. rewrite E0' in *.
  apply upd_alloc_inv in E2 as (z & a & zs & Hg & [= <-] & -> & Hs). rewrite E0 in *.
  pose proof (arrays_len_aset _ _ _ _ _ Hg Hs) as Hl. cbn in Hl.
  rewrite length_replicate, (Hz k z (Z.le_refl k) Hg) in Hl. cbn in Hl.
  pose proof (aget_Some_lt _ _ _ Hg) as Hlt.
  assert (Hnn : 0 <= bits_bytes (2 ^ (nsizes s - 1 - k))).
  { unfold bits_bytes, ROUNDUP. rewrite Z.quot_mul by lia.
    pose proof (Z.pow_nonneg 2 (nsizes s - 1 - k) ltac:(lia)). clear -H. dlia. }
  apply IH in E; [cbn [bd_sizes set_bd_sizes] in E; lia|]. cbn. intros j z' Hj Hg'.
  rewrite (aget_aset_ne _ _ _ _ _ Hs) in Hg' by lia. apply (Hz j z'); [lia|done].
Qed.

Lemma init_split_len n k p s p' s' :
  (forall j z, k <= j -> aget (bd_sizes s) j = Some z -> split z = []) ->
  init_split n k p s = Ret p' s' -> p' - p = arrays_len (bd_sizes s') - arrays_len (bd_sizes s).
Proof.
  revert k p s. induction n as [|n IH]; intros k p s Hz E; cbn [init_split] in E; [injection E as <- <-; lia|].
  revert E. mstep. intros ([] & s2 & E2 & E)%bind_inv. unfold NBLK, MAXSIZE in *.
  apply upd_split_inv in E2 as (z & a & zs & Hg & [= <-] & -> & Hs).
  pose proof (arrays_len_aset _ _ _ _ _ Hg Hs) as Hl. cbn in Hl.
  rewrite length_replicate, (Hz k z (Z.le_refl k) Hg) in Hl. cbn in Hl.
  assert (Hnn : 0 <= bits_bytes (2 ^ (nsizes s - 1 - k))).
  { unfold bits_bytes, ROUNDUP. rewrite Z.quot_mul by lia.
    pose proof (Z.pow_nonneg 2 (nsizes s - 1 - k) ltac:(lia)). clear -H. dlia. }
  apply IH in E; [cbn [bd_sizes set_bd_sizes] in E; lia|]. cbn. intros j z' Hj Hg'.
  rewrite (aget_aset_ne _ _ _ _ _ Hs) in Hg' by lia. apply (Hz j z'); [lia|done].
Qed.

(** ** The tree [bd_init] builds

    The heap has [top + 1] sizes; the metadata ends at offset [mt] and memory
    at offset [en]. *)
Section Layout.
Context (H mt en : Z).
Context (HH : 1 <= H <= 26).
Context (Hmt : 0 < mt) (Hen : mt <= en).
Context (Hheads : 32 * (H + 1) <= mt).
Context (Hmeta : 4 * mt <= BLK_SIZE (H - 1)).
Context (Hmem : BLK_SIZE (H - 1) <= en < BLK_SIZE H).
Context (Hal : (16 | mt)) (Hal' : (16 | en)).

(** First index after the metadata, first index touching the end. *)
Definition lft (k : Z) : Z := - (- mt / BLK_SIZE k).
Definition rgt (k : Z) : Z := en / BLK_SIZE k.

Definition inuse (k i : Z) : bool := (i <? lft k) || (rgt k <=? i).
Definition tree0 : tree := {| A := inuse; Sp := fun k i => (0 <? k) && inuse k i |}.

Lemma blk_S k : 0 <= k -> BLK_SIZE (k + 1) = 2 * BLK_SIZE k.
Proof. intros. unfold BLK_SIZE. rewrite pow2_S by lia. lia. Qed.

Lemma lft_S k : 0 <= k -> lft (k + 1) = (lft k + 1) / 2.
Proof.
  intros Hk. unfold lft. pose proof (blk_pos k Hk). rewrite blk_S, (Z.mul_comm 2) by done.
  rewrite <- Z.div_div by lia. dlia.
Qed.

Lemma rgt_S k : 0 <= k -> rgt (k + 1) = rgt k / 2.
Proof.
  intros Hk. unfold rgt. pose proof (blk_pos k Hk). rewrite blk_S, (Z.mul_comm 2) by done.
  by rewrite <- Z.div_div by lia.
Qed.

Lemma BLK_mono k k' : 0 <= k <= k' -> BLK_SIZE k <= BLK_SIZE k'.
Proof.
  intros. unfold BLK_SIZE, LEAF_SIZE. assert (2 ^ k <= 2 ^ k') by (apply Z.pow_le_mono_r; lia). lia.
Qed.

Lemma lft_spec k : 0 <= k -> (lft k - 1) * BLK_SIZE k < mt <= lft k * BLK_SIZE k.
Proof.
  intros Hk. unfold lft. pose proof (blk_pos k Hk) as Hb.
  pose proof (Z.div_mod (- mt) (BLK_SIZE k) ltac:(lia)). pose proof (Z.mod_pos_bound (- mt) _ Hb). lia.
Qed.

Lemma rgt_spec k : 0 <= k -> rgt k * BLK_SIZE k <= en < (rgt k + 1) * BLK_SIZE k.
Proof.
  intros Hk. unfold rgt. pose proof (blk_pos k Hk) as Hb.
  pose proof (Z.div_mod en (BLK_SIZE k) ltac:(lia)). pose proof (Z.mod_pos_bound en _ Hb). lia.
Qed.

Lemma lft_pos k : 0 <= k -> 1 <= lft k.
Proof. intros Hk. pose proof (lft_spec k Hk). pose proof (blk_pos k Hk). nia. Qed.

(** Between the two there is always room, and for at least two blocks when
    the first index is even. *)
Lemma room k : 0 <= k < H -> 1 <= rgt k /\ (lft k = 1 \/ lft k + 2 <= rgt k).
Proof.
  intros Hk. pose proof (lft_spec k ltac:(lia)) as Hl. pose proof (rgt_spec k ltac:(lia)) as Hr.
  pose proof (blk_pos k ltac:(lia)) as Hb. pose proof (BLK_mono k (H - 1) ltac:(lia)) as Hm.
  pose proof (lft_pos k ltac:(lia)) as Hp. split; [nia|].
  destruct (decide (lft k = 1)); [by left|right]. assert (BLK_SIZE k < mt) by nia. nia.
Qed.

Lemma rgt_bound k : 0 <= k <= H -> 0 <= rgt k < 2 ^ (H - k).
Proof.
  intros Hk. pose proof (rgt_spec k ltac:(lia)) as Hr. pose proof (blk_pos k ltac:(lia)) as Hb.
  assert (E : BLK_SIZE H = 2 ^ (H - k) * BLK_SIZE k).
  { unfold BLK_SIZE. replace H with ((H - k) + k) at 1 by lia. rewrite pow2_le by lia. lia. }
  split; [nia|]. apply (Z.mul_lt_mono_pos_r (BLK_SIZE k)); lia.
Qed.

Lemma inuse_top i : 0 <= i -> inuse H i = true.
Proof.
  intros Hi. unfold inuse. pose proof (rgt_bound H ltac:(lia)) as Hr. rewrite Z.sub_diag in Hr.
  change (2 ^ 0) with 1 in Hr. replace (rgt H <=? i) with true by lia. apply orb_true_r.
Qed.

Lemma inuse_parent k i : 0 <= k -> inuse k i = true -> inuse (k + 1) (i / 2) = true.
Proof.
  intros Hk. unfold inuse. rewrite lft_S, rgt_S by done. rewrite !orb_true_iff, !Z.ltb_lt, !Z.leb_le.
  intros [?|?]; [left; dlia|right; dlia].
Qed.

Lemma free0_iff k i :
  free H tree0 k i <-> 0 <= k < H /\ lft k < rgt k /\
    ((i = lft k /\ Z.even i = false) \/ (i = rgt k - 1 /\ Z.even i = true)).
Proof.
  unfold free, present. cbn. split.
  - intros [[Hv [->|HS]] HA]; [rewrite inuse_top in HA by apply Hv; done|].
    destruct Hv as [Hk Hi]. assert (k < H).
    { destruct (decide (k = H)) as [->|]; [rewrite inuse_top in HA by lia; done|lia]. }
    apply andb_true_iff in HS as [_ HS]. unfold inuse in *. rewrite lft_S, rgt_S in HS by lia.
    rewrite orb_true_iff, Z.ltb_lt, Z.leb_le in HS. rewrite orb_false_iff, Z.ltb_ge, Z.leb_gt in HA.
    destruct (Z.even i) eqn:E; [apply even_div2 in E|apply odd_div2 in E];
      split_and!; try lia; destruct HS; [exfalso|right|left|exfalso]; dlia.
  - intros (Hk & Hlr & Hi). pose proof (lft_pos k ltac:(lia)). pose proof (rgt_bound k ltac:(lia)).
    assert (lft k <= i < rgt k) as Hin by (destruct Hi as [[-> _]|[-> _]]; lia).
    unfold inuse. rewrite lft_S, rgt_S by lia. split; [split; [split; lia|right]|lia].
    rewrite andb_true_iff, orb_true_iff, !Z.ltb_lt, Z.leb_le. split; [lia|].
    destruct Hi as [[E Ho]|[E Ho]]; [apply odd_div2 in Ho; left|apply even_div2 in Ho; right]; dlia.
Qed.

Lemma tree0_wf : wf H tree0.
Proof.
  split; cbn.
  - intros k i Hv Hn. assert (HA : inuse k i = false); [|by rewrite HA, andb_false_r].
    destruct (inuse k i) eqn:E; [|done]. exfalso. apply Hn. split; [done|].
    destruct (decide (k = H)) as [->|]; [by left|right]. cbn. destruct Hv as [Hk _].
    rewrite (inuse_parent k i) by (try done; lia). by replace (0 <? k + 1) with true by lia.
  - intros k i _ Hs. by apply andb_true_iff in Hs as [_ Hs].
  - done.
  - intros k i Hf j Hj Hr. apply free0_iff in Hf as (Hk & Hlr & Hi).
    assert (lft k <= i) by (destruct Hi as [[-> _]|[-> _]]; lia).
    pose proof (lft_spec k ltac:(lia)). pose proof (blk_pos k ltac:(lia)) as Hb.
    change (2 ^ k * 16) with (BLK_SIZE k) in Hr. nia.
  - intros k i Hk Hf Hf'. apply free0_iff in Hf as (Hk' & Hlr & Hi).
    apply free0_iff in Hf' as (_ & _ & Hi'). destruct (room k Hk') as [_ Hrm]. unfold buddyi in Hi'.
    destruct Hi as [[-> E]|[-> E]]; rewrite E in Hi'.
    + destruct Hi' as [[? _]|[? _]]; [lia|]. destruct Hrm; lia.
    + destruct Hi' as [[E' Ho]|[E' Ho]]; [|lia]. destruct Hrm as [Hr|Hr]; [|lia].
      rewrite Hr in E'. rewrite E' in Ho. lia.
Qed.

(** ** Filling the free lists *)

(** The state after marking, with the free blocks in [F] on their lists. *)
Record filling (s : buddy) (F : Z -> Z -> Prop) : Prop := {
  fill_sizes : nsizes s = H + 1;
  fill_bits : brep (nsizes s) (bd_sizes s) (A tree0) (Sp tree0);
  fill_lists : lrep (nsizes s) (bd_base s) (lists s) F;
  fill_free : forall k i, F k i -> free H tree0 k i
}.

Lemma sep_sub n F F' : sep n F -> (forall k i, F' k i -> F k i) -> sep n F'.
Proof. unfold sep. intros [H1 H2] Hs. split; eauto. Qed.

Lemma filling_sep s F : filling s F -> sep (nsizes s) F.
Proof.
  intros Hf. apply (sep_sub _ (free H tree0)); [|apply Hf].
  replace H with (nsizes s - 1) by (rewrite (fill_sizes _ _ Hf); lia). apply wf_sep.
  rewrite (fill_sizes _ _ Hf). replace (H + 1 - 1) with H by lia. apply tree0_wf.
Qed.

Lemma filling_ext s F F' : filling s F -> (forall k i, F' k i <-> F k i) -> filling s F'.
Proof.
  intros [H1 H2 H3 H4] He. split; [done|done| |intros k i Hx; by apply H4, He].
  intros k Hk. destruct (H3 k Hk) as (l & Hd & Hin). exists l. split; [done|].
  intros x. rewrite Hin. by setoid_rewrite He.
Qed.

(** Pushing one more free block. *)
Lemma fill_push s F k i :
  filling s F -> free H tree0 k i -> ~ F k i ->
  exists m, on_lists (lst_push (free_head k s) (addr k i s)) s = Ret tt (set_lists m s) /\
    filling (set_lists m s) (fun k' j => F k' j \/ (k', j) = (k, i)).
Proof.
  intros Hf Hfr Hn. pose proof (filling_sep _ _ Hf) as Hsep. destruct Hf as [H1 H2 H3 H4] eqn:E.
  assert (Hv : valid (top s) k i) by (rewrite H1; replace (H + 1 - 1) with H by lia; apply Hfr).
  rewrite addr_ok by (try done; lia).
  assert (Hsub : forall k' j, F k' j \/ (k', j) = (k, i) -> free H tree0 k' j)
    by (intros k' j [Hx|[= -> ->]]; auto).
  destruct (lrep_push _ _ _ _ H3 (fun k' j => F k' j \/ (k', j) = (k, i)) k i) as (m & Hm & Hl).
  - done.
  - apply (sep_sub _ (free H tree0)); [|done]. rewrite H1. replace H with (H + 1 - 1) at 2 by lia.
    apply wf_sep. replace (H + 1 - 1) with H by lia. apply tree0_wf.
  - destruct Hv. lia.
  - done.
  - done.
  - exists m. split; [by apply on_lists_ret|]. by split.
Qed.

(** A pair with one block in use puts the other on its free list. *)
Lemma pair_ok s F k bi x :
  filling s F -> valid H k bi -> 0 <= k < H ->
  x = (if inuse k bi then buddyi bi else bi) ->
  inuse k bi = negb (inuse k (buddyi bi)) -> free H tree0 k x -> ~ F k x ->
  exists m, bd_initfree_pair k bi s = Ret (BLK_SIZE k) (set_lists m s) /\
    filling (set_lists m s) (fun k' j => F k' j \/ (k', j) = (k, x)).
Proof.
  intros Hf Hv Hk Hx Hdiff Hfr Hn. pose proof (fill_sizes _ _ Hf) as Hsz.
  assert (ET : top s = H) by lia. unfold bd_initfree_pair.
  rewrite buddy_of_ok by (destruct Hv; lia).
  run (alloc_isset_ok s _ _ (fill_bits _ _ Hf) k bi ltac:(by rewrite ET)).
  run (alloc_isset_ok s _ _ (fill_bits _ _ Hf) k (buddyi bi) ltac:(rewrite ET; apply valid_buddy; [done|lia])).
  destruct (fill_push s F k x Hf Hfr Hn) as (m & Hm & Hf'). exists m. split; [|done].
  assert (Hs : s32 (BLK_SIZE k) = BLK_SIZE k).
  { pose proof (blk_pos k ltac:(lia)). pose proof (heap_small s ltac:(lia)).
    pose proof (BLK_mono k H ltac:(lia)). rewrite ET in *. apply s32_small. lia. }
  rewrite Hdiff in Hx. cbn [A tree0]. rewrite Hdiff.
  destruct (inuse k (buddyi bi)); cbn [negb Bool.eqb] in *; mstep;
    rewrite <- Hx; run Hm; mstep; by rewrite Hs.
Qed.

Lemma pair_none s F k bi :
  filling s F -> valid H k bi -> 0 <= k < H -> inuse k bi = inuse k (buddyi bi) ->
  bd_initfree_pair k bi s = Ret 0 s.
Proof.
  intros Hf Hv Hk Hsame. pose proof (fill_sizes _ _ Hf) as Hsz.
  assert (ET : top s = H) by lia. unfold bd_initfree_pair.
  rewrite buddy_of_ok by (destruct Hv; lia).
  run (alloc_isset_ok s _ _ (fill_bits _ _ Hf) k bi ltac:(by rewrite ET)).
  run (alloc_isset_ok s _ _ (fill_bits _ _ Hf) k (buddyi bi) ltac:(rewrite ET; apply valid_buddy; [done|lia])).
  cbn [A tree0]. rewrite Hsame, Bool.eqb_reflx. done.
Qed.

Definition freel (k : Z) : bool := (lft k <? rgt k) && negb (Z.even (lft k)).
Definition freer (k : Z) : bool := (lft k <? rgt k) && Z.even (rgt k - 1).

Lemma lft_valid k : 0 <= k < H -> lft k <= rgt k /\ valid H k (lft k) /\ valid H k (rgt k).
Proof.
  intros Hk. pose proof (lft_pos k ltac:(lia)). pose proof (rgt_bound k ltac:(lia)).
  destruct (room k Hk). unfold valid. lia.
Qed.

Lemma left_ok s F k :
  filling s F -> 0 <= k < H -> (forall i, ~ F k i) ->
  exists m, bd_initfree_pair k (lft k) s = Ret (if freel k then BLK_SIZE k else 0) (set_lists m s) /\
    filling (set_lists m s) (fun k' j => F k' j \/ (freel k = true /\ (k', j) = (k, lft k))).
Proof.
  intros Hf Hk Hn. destruct (lft_valid k Hk) as (Hle & Hv & _). destruct (room k Hk) as [_ Hrm].
  destruct (freel k) eqn:E.
  - unfold freel in E. apply andb_true_iff in E as [Hlt Ho]. apply Z.ltb_lt in Hlt.
    apply Bool.negb_true_iff in Ho.
    assert (E1 : inuse k (lft k) = false) by (unfold inuse; blia).
    assert (E2 : inuse k (buddyi (lft k)) = true) by (unfold inuse, buddyi; rewrite Ho; blia).
    destruct (pair_ok s F k (lft k) (lft k)) as (m & Hm & Hf'); try done; [by rewrite E1|by rewrite E1, E2| |].
    { apply free0_iff. auto. }
    exists m. split; [done|]. apply (filling_ext _ _ _ Hf'). naive_solver.
  - exists (lists s). rewrite set_lists_same. split.
    + apply (pair_none s F); try done. unfold freel in E. apply andb_false_iff in E as [E|E].
      * apply Z.ltb_ge in E. assert (E1 : lft k = 1) by lia. assert (E2 : rgt k = 1) by lia.
        unfold inuse. rewrite E1, E2. done.
      * apply Bool.negb_false_iff in E. destruct Hrm as [Hr|Hr]; [by rewrite Hr in E|].
        unfold inuse, buddyi. rewrite E. blia.
    + apply (filling_ext _ _ _ Hf). naive_solver.
Qed.

Lemma right_ok s F k :
  filling s F -> 0 <= k < H -> lft k < rgt k -> (freer k = true -> ~ F k (rgt k - 1)) ->
  exists m, bd_initfree_pair k (rgt k) s = Ret (if freer k then BLK_SIZE k else 0) (set_lists m s) /\
    filling (set_lists m s) (fun k' j => F k' j \/ (freer k = true /\ (k', j) = (k, rgt k - 1))).
Proof.
  intros Hf Hk Hlt Hn. destruct (lft_valid k Hk) as (Hle & _ & Hv).
  assert (E1 : inuse k (rgt k) = true) by (unfold inuse; blia).
  assert (Hev : Z.even (rgt k - 1) = negb (Z.even (rgt k))).
  { rewrite Z.even_sub. by destruct (Z.even (rgt k)). }
  unfold freer in *. replace (lft k <? rgt k) with true in * by lia. cbn [andb] in *.
  destruct (Z.even (rgt k - 1)) eqn:Ho.
  - assert (Hr : Z.even (rgt k) = false) by (by destruct (Z.even (rgt k))).
    assert (Hb : buddyi (rgt k) = rgt k - 1) by (unfold buddyi; by rewrite Hr).
    assert (E2 : inuse k (rgt k - 1) = false) by (unfold inuse; blia).
    destruct (pair_ok s F k (rgt k) (rgt k - 1)) as (m & Hm & Hf'); try done;
      [by rewrite E1|by rewrite Hb, E1, E2|apply free0_iff; auto|by apply Hn|].
    exists m. split; [done|]. apply (filling_ext _ _ _ Hf'). naive_solver.
  - exists (lists s). rewrite set_lists_same. split.
    + apply (pair_none s F); try done. assert (Hr : Z.even (rgt k) = true) by (by destruct (Z.even (rgt k))).
      rewrite E1. unfold inuse, buddyi. rewrite Hr. blia.
    + apply (filling_ext _ _ _ Hf). naive_solver.
Qed.

Lemma free0_at k i :
  0 <= k < H ->
  free H tree0 k i <-> (freel k = true /\ i = lft k) \/ (freer k = true /\ i = rgt k - 1).
Proof.
  intros Hk. rewrite free0_iff. unfold freel, freer. rewrite !andb_true_iff, !Z.ltb_lt, Bool.negb_true_iff.
  split.
  - intros (_ & Hlt & [[-> ?]|[-> ?]]); auto.
  - intros [[[? ?] ->]|[[? ?] ->]]; auto.
Qed.

(** Bytes in free blocks of size [k]. *)
Lemma free_bytes k :
  0 <= k < H ->
  Z.max 0 (rgt k - lft k) * BLK_SIZE k =
    (if freel k then BLK_SIZE k else 0) + (if freer k then BLK_SIZE k else 0) +
    Z.max 0 (rgt (k + 1) - lft (k + 1)) * BLK_SIZE (k + 1).
Proof.
  intros Hk. destruct (lft_valid k Hk) as (Hle & _ & _). destruct (room k Hk) as [_ Hrm].
  rewrite lft_S, rgt_S, blk_S by lia. unfold freel, freer.
  destruct (Z.ltb_spec (lft k) (rgt k)) as [Hlt|Hge]; cbn [andb].
  - assert (Z.even (rgt k - 1) = negb (Z.even (rgt k))) as -> by
      (rewrite Z.even_sub; by destruct (Z.even (rgt k))).
    assert (Hd : Z.max 0 (rgt k - lft k) = Z.b2z (negb (Z.even (lft k))) + Z.b2z (negb (Z.even (rgt k))) +
      2 * Z.max 0 (rgt k / 2 - (lft k + 1) / 2)).
    { destruct (Z.even (lft k)) eqn:El; [apply even_div2 in El|apply odd_div2 in El];
      destruct (Z.even (rgt k)) eqn:Er; try apply even_div2 in Er; try apply odd_div2 in Er;
      cbn [negb Z.b2z]; destruct Hrm; dlia. }
    rewrite Hd. destruct (Z.even (lft k)), (Z.even (rgt k)); cbn [negb Z.b2z]; lia.
  - assert (lft k = 1) as -> by lia. assert (rgt k = 1) as -> by lia. reflexivity.
Qed.

Lemma initfree_idx s k :
  0 <= k < H -> blk_index_next k (bd_base s + mt) s = lft k /\ blk_index k (bd_base s + en) s = rgt k.
Proof.
  intros Hk. unfold blk_index_next, blk_index. rewrite !Z.add_simpl_l.
  pose proof (blk_pos k ltac:(lia)) as Hb. pose proof (blk_big H ltac:(lia)) as Hbig.
  rewrite (s32_small en) by lia. rewrite !Z.quot_div_nonneg, Z.rem_mod_nonneg by lia.
  assert (0 <= mt / BLK_SIZE k <= mt) by (split; [apply Z.div_pos; lia|apply Z.div_le_upper_bound; nia]).
  rewrite (s32_small (mt / _)) by lia. split; [|done].
  unfold lft. destruct (Z.eqb_spec (mt mod BLK_SIZE k) 0) as [E|E]; cbn [negb].
  - rewrite Z.div_opp_l_z by lia. lia.
  - rewrite s32_small by lia. rewrite Z.div_opp_l_nz by lia. lia.
Qed.

Lemma initfree_loop_ok n s k f :
  filling s (fun k' i => k' < k /\ free H tree0 k' i) -> 0 <= k -> k + Z.of_nat n = H ->
  0 <= f -> f + Z.max 0 (rgt k - lft k) * BLK_SIZE k = en - mt ->
  exists m, initfree_loop n k (bd_base s + mt) (bd_base s + en) f s = Ret (en - mt) (set_lists m s) /\
    filling (set_lists m s) (free H tree0).
Proof.
  revert s k f. induction n as [|n IH]; intros s k f Hf Hk Hn Hf0 Hsum; cbn [initfree_loop].
  - assert (k = H) as -> by lia. exists (lists s). rewrite set_lists_same. split.
    + replace f with (en - mt); [done|]. pose proof (lft_pos H ltac:(lia)).
      pose proof (rgt_bound H ltac:(lia)) as Hr. rewrite Z.sub_diag in Hr. change (2 ^ 0) with 1 in Hr.
      replace (Z.max 0 (rgt H - lft H)) with 0 in Hsum by lia. lia.
    + apply (filling_ext _ _ _ Hf). intros k i. split; [|by intros [_ ?]]. intros Hx.
      split; [|done]. apply free0_iff in Hx as [? _]. lia.
  - destruct (initfree_idx s k ltac:(lia)) as [E1 E2]. mstep. rewrite E1, E2.
    destruct (left_ok s _ k Hf ltac:(lia)) as (m1 & H1 & Hf1); [lia|]. run H1.
    pose proof (free_bytes k ltac:(lia)) as Hbytes.
    pose proof (blk_big H ltac:(lia)) as Hbig.
    assert (Hnn : 0 <= Z.max 0 (rgt (k + 1) - lft (k + 1)) * BLK_SIZE (k + 1))
      by (pose proof (blk_pos (k + 1)); apply Z.mul_nonneg_nonneg; lia).
    pose proof (blk_pos k Hk) as Hb. rewrite s32_small by (destruct (freel k), (freer k); lia).
    destruct (Z.leb_spec (rgt k) (lft k)) as [Hle|Hlt].
    + assert (freel k = false /\ freer k = false) as [El Er] by (unfold freel, freer; split; blia).
      rewrite El, Er in *. apply (IH (set_lists m1 s)); [|lia|lia|lia|lia].
      apply (filling_ext _ _ _ Hf1). intros k' i. split; [|intros [[? ?]|[? _]]; [split; [lia|done]|done]].
      intros [Hk' Hx]. left. destruct (decide (k' = k)) as [->|]; [|split; [lia|done]].
      apply free0_at in Hx; [|lia]. rewrite El, Er in Hx. naive_solver.
    + destruct (right_ok _ _ k Hf1 ltac:(lia) Hlt) as (m2 & H2 & Hf2).
      { intros Er [[? _]|[El [= E]]]; [lia|]. unfold freel, freer in *.
        rewrite E in Er. destruct (Z.even (lft k)); rewrite andb_comm in El, Er; done. }
      run H2. rewrite s32_small by (destruct (freel k), (freer k); lia).
      destruct (IH (set_lists m2 s) (k + 1) (f + (if freel k then BLK_SIZE k else 0) + (if freer k then BLK_SIZE k else 0)))
        as (m & E & Hfin); [|lia|lia|destruct (freel k), (freer k); lia|lia|].
      * apply (filling_ext _ _ _ Hf2). intros k' i. split.
        { intros [Hk' Hx]. destruct (decide (k' = k)) as [->|]; [|left; left; split; [lia|done]].
          apply free0_at in Hx as [[? ->]|[? ->]]; [left; right; done|right; done|lia]. }
        { intros [[[? ?]|[? [= -> ->]]]|[? [= -> ->]]]; (split; [lia|]); [done|..];
            apply free0_at; auto; lia. }
      * exists m. split; [exact E|exact Hfin].
Qed.

(** ** Marking the metadata and the unavailable memory *)

Lemma lft_bound k : 0 <= k <= H -> 0 <= lft k <= 2 ^ (H - k).
Proof.
  intros Hk. pose proof (lft_pos k ltac:(lia)). pose proof (rgt_bound k ltac:(lia)).
  destruct (decide (k = H)) as [->|]; [|destruct (lft_valid k ltac:(lia)); lia].
  pose proof (lft_spec H ltac:(lia)). pose proof (blk_pos H ltac:(lia)). rewrite Z.sub_diag. cbn. nia.
Qed.

Lemma mark_meta_idx s k :
  0 <= k <= H -> blk_index k (bd_base s) s = 0 /\ blk_index_next k (bd_base s + mt) s = lft k.
Proof.
  intros Hk. split; [unfold blk_index; by rewrite Z.sub_diag|].
  destruct (decide (k < H)) as [|Hn]; [apply initfree_idx; lia|]. assert (k = H) as -> by lia.
  pose proof (lft_spec H ltac:(lia)). pose proof (lft_bound H ltac:(lia)) as Hl.
  rewrite Z.sub_diag in Hl. change (2 ^ 0) with 1 in Hl. pose proof (blk_pos H ltac:(lia)).
  unfold blk_index_next. rewrite Z.add_simpl_l. assert (mt < BLK_SIZE H) by lia.
  rewrite Z.quot_small, Z.rem_small by lia. replace (mt =? 0) with false by blia. cbn [negb].
  change (s32 (s32 0 + 1)) with 1. pose proof (lft_pos H ltac:(lia)). lia.
Qed.

Lemma mark_end_idx s k :
  0 <= k <= H -> blk_index k (bd_base s + en) s = rgt k /\
    blk_index_next k (bd_base s + BLK_SIZE H) s = 2 ^ (H - k).
Proof.
  intros Hk. pose proof (blk_big H ltac:(lia)) as Hbig.
  pose proof (blk_pos k ltac:(lia)) as Hb. split.
  - unfold blk_index, rgt. rewrite Z.add_simpl_l, s32_small by lia. by rewrite Z.quot_div_nonneg by lia.
  - unfold blk_index_next. rewrite Z.add_simpl_l.
    assert (E : BLK_SIZE H = 2 ^ (H - k) * BLK_SIZE k).
    { unfold BLK_SIZE. replace H with ((H - k) + k) at 1 by lia. rewrite pow2_le by lia. lia. }
    rewrite E, Z.quot_mul, Z.rem_mul by lia. cbn [negb Z.eqb].
    rewrite s32_small; [done|]. pose proof (pow2_pos (H - k) ltac:(lia)). nia.
Qed.

Lemma bd_mark_ok s start stop lo hi a sp :
  nsizes s = H + 1 -> brep (nsizes s) (bd_sizes s) a sp -> (16 | start) -> (16 | stop) ->
  (forall s', bd_base s' = bd_base s -> forall k, 0 <= k <= H ->
    blk_index k start s' = lo k /\ blk_index_next k stop s' = hi k /\
    0 <= lo k /\ hi k <= 2 ^ (H - k)) ->
  exists zs, bd_mark start stop s = Ret tt (set_bd_sizes zs s) /\
    brep (nsizes s) zs (mark a (fun k i => (lo k <=? i) && (i <? hi k)))
      (mark sp (fun k i => (lo k <=? i) && (i <? hi k))).
Proof.
  intros Hn Hb Hs1 Hs2 Hidx. unfold bd_mark.
  apply Z.mod_divide in Hs1, Hs2; try lia. unfold LEAF_SIZE. rewrite Hs1, Hs2. cbn [negb Z.eqb orb]. mstep.
  destruct (mark_sizes_ok (Z.to_nat (nsizes s)) 0 s start stop lo hi a sp Hb) as (zs & E & Hb'); [lia|lia| |].
  - intros s' Es k Hk. replace (top s) with H by lia. apply Hidx; [done|lia].
  - exists zs. split; [done|]. apply (brep_ext _ _ _ _ _ _ Hb'); intros k i [? _]; [|intros _]; unfold mark;
      by replace (0 <=? k) with true by lia.
Qed.

(** Both marks together. *)
Lemma marks_ok s :
  nsizes s = H + 1 -> (16 | bd_base s) ->
  brep (nsizes s) (bd_sizes s) (fun _ _ => false) (fun _ _ => false) ->
  exists zs1 zs2,
    bd_mark (bd_base s) (bd_base s + mt) s = Ret tt (set_bd_sizes zs1 s) /\
    bd_mark (bd_base s + en) (bd_base s + BLK_SIZE H) (set_bd_sizes zs1 s) = Ret tt (set_bd_sizes zs2 s) /\
    brep (nsizes s) zs2 (A tree0) (Sp tree0).
Proof.
  intros Hn Hba Hb.
  destruct (bd_mark_ok s (bd_base s) (bd_base s + mt) (fun _ => 0) lft _ _ Hn Hb) as (zs1 & E1 & Hb1);
    [done|by apply Z.divide_add_r| |].
  { intros s' Es k Hk. rewrite <- Es. destruct (mark_meta_idx s' k Hk).
    pose proof (lft_bound k Hk). split_and!; try done; lia. }
  destruct (bd_mark_ok (set_bd_sizes zs1 s) (bd_base s + en) (bd_base s + BLK_SIZE H) rgt
    (fun k => 2 ^ (H - k)) _ _ Hn Hb1) as (zs2 & E2 & Hb2);
    [by apply Z.divide_add_r|apply Z.divide_add_r; [done|exists (2 ^ H); done]| |].
  { intros s' Es k Hk. cbn in Es. rewrite <- Es. destruct (mark_end_idx s' k Hk).
    pose proof (rgt_bound k Hk). split_and!; try done; lia. }
  exists zs1, zs2. split_and!; [done|done|]. apply (brep_ext _ _ _ _ _ _ Hb2); cbn.
  - intros k i [Hk Hi]. rewrite Hn in Hi. replace (H + 1 - 1 - k) with (H - k) in Hi by lia.
    unfold mark, inuse. blia.
  - intros k i [Hk Hi] H1. rewrite Hn in Hi. replace (H + 1 - 1 - k) with (H - k) in Hi by lia.
    unfold mark, inuse. blia.
Qed.

(** Every byte from the metadata to the end of memory is in a free block. *)
Lemma free_covers x :
  mt <= x < en ->
  exists k i, free H tree0 k i /\ i * BLK_SIZE k <= x < (i + 1) * BLK_SIZE k.
Proof.
  intros Hx.
  assert (Hgo : forall n k i, 0 <= k -> k + Z.of_nat n = H -> valid H k i -> inuse k i = false ->
    i * BLK_SIZE k <= x < (i + 1) * BLK_SIZE k ->
    exists k i, free H tree0 k i /\ i * BLK_SIZE k <= x < (i + 1) * BLK_SIZE k).
  { induction n as [|n IH]; intros k i Hk Hn Hv Hu Hr.
    { assert (k = H) as -> by lia. rewrite inuse_top in Hu by (destruct Hv; lia). done. }
    destruct (inuse (k + 1) (i / 2)) eqn:E.
    - exists k, i. split; [|done]. split; [|done]. split; [done|]. right. cbn. rewrite E.
      by replace (0 <? k + 1) with true by lia.
    - apply (IH (k + 1) (i / 2)); [lia|lia|apply valid_parent; [done|lia]|done|].
      rewrite blk_S by lia. pose proof (blk_pos k Hk).
      assert (i = 2 * (i / 2) \/ i = 2 * (i / 2) + 1) as [E'|E'] by (clear; dlia); rewrite E' in Hr; lia. }
  apply (Hgo (Z.to_nat H) 0 (x / 16)); [lia|lia| | |].
  - unfold BLK_SIZE, LEAF_SIZE in Hmem. split; [lia|]. rewrite Z.sub_0_r.
    clear -Hx Hmem Hmt. generalize dependent (2 ^ H). intros. dlia.
  - unfold inuse, lft, rgt. change (BLK_SIZE 0) with 16. destruct Hal as [a Ea], Hal' as [b Eb].
    rewrite orb_false_iff, Z.ltb_ge, Z.leb_gt. clear -Hx Ea Eb. dlia.
  - change (BLK_SIZE 0) with 16. clear. dlia.
Qed.

(** No byte before the end of the metadata or after the end of memory is. *)
Lemma free_within k i x :
  free H tree0 k i -> i * BLK_SIZE k <= x < (i + 1) * BLK_SIZE k -> mt <= x < en.
Proof.
  intros (Hk & Hlr & Hi)%free0_iff Hx. pose proof (blk_pos k ltac:(lia)) as Hb.
  assert (Hin : lft k <= i < rgt k) by (destruct Hi as [[-> _]|[-> _]]; lia). clear Hi. unfold lft, rgt in Hin.
  pose proof (Z.mul_div_le en (BLK_SIZE k) Hb). pose proof (Z.mul_div_le (- mt) (BLK_SIZE k) Hb). nia.
Qed.
End Layout.

(** ** [bd_init] *)

Lemma log2_loop_ok fuel k n :
  1 <= n < 2 ^ Z.of_nat fuel -> log2_loop fuel k n = Some (k + Z.log2 n).
Proof.
  revert k n. induction fuel as [|fuel IH]; intros k n Hn; [cbn in Hn; lia|]. cbn [log2_loop].
  destruct (Z.ltb_spec 1 n) as [Hlt|Hge].
  - rewrite Nat2Z.inj_succ, Z.pow_succ_r in Hn by lia. rewrite Z.shiftr_div_pow2 by lia.
    change (2 ^ 1) with 2. rewrite IH by dlia. f_equal.
    assert (Z.log2 n = Z.log2 (n / 2) + 1); [|lia].
    change (n / 2) with (n / 2 ^ 1). rewrite <- Z.shiftr_div_pow2, Z.log2_shiftr by lia.
    pose proof (Z.log2_pos n ltac:(lia)). lia.
  - assert (n = 1) as -> by lia. cbn. f_equal. lia.
Qed.

Lemma ROUNDUP_ok n z : 0 < n -> 0 < z -> (z | ROUNDUP n z) /\ n <= ROUNDUP n z < n + z.
Proof.
  intros Hn Hz. unfold ROUNDUP. rewrite Z.quot_div_nonneg by lia.
  split; [by exists ((n - 1) / z + 1)|].
  pose proof (Z.div_mod (n - 1) z ltac:(lia)). pose proof (Z.mod_pos_bound (n - 1) z Hz). lia.
Qed.

Lemma pow_lin n : 9 <= n -> 50 * n <= 2 ^ n.
Proof.
  intros Hn. pattern n. apply Z.le_ind with (n := 9); [solve_proper|done| |done].
  intros m Hm IH. rewrite Z.pow_succ_r by lia. lia.
Qed.

Definition size_levels (sz : Z) : Z := Z.log2 (sz / 16) + 1.

(** The shape of a heap of [sz] bytes. *)
Lemma levels_ok sz :
  4096 <= sz < 2 ^ 30 -> (forall k, 0 <= k -> sz <> BLK_SIZE k) ->
  let H := size_levels sz in
  9 <= H <= 26 /\ BLK_SIZE (H - 1) < sz < BLK_SIZE H.
Proof.
  intros Hsz Hne H. subst H. unfold size_levels.
  assert (Hq : 256 <= sz / 16 < 2 ^ 26) by dlia.
  destruct (Z.log2_spec (sz / 16) ltac:(lia)) as [Hl1 Hl2].
  assert (8 <= Z.log2 (sz / 16)) by (change 8 with (Z.log2 256); apply Z.log2_le_mono; lia).
  assert (Z.log2 (sz / 16) < 26) by (apply Z.log2_lt_pow2; lia).
  split; [lia|]. replace (Z.log2 (sz / 16) + 1 - 1) with (Z.log2 (sz / 16)) by lia.
  specialize (Hne (Z.log2 (sz / 16)) ltac:(lia)). unfold BLK_SIZE, LEAF_SIZE in *.
  unfold Z.succ in Hl2. generalize dependent (2 ^ Z.log2 (sz / 16)).
  generalize dependent (2 ^ (Z.log2 (sz / 16) + 1)). intros. dlia.
Qed.

(** The state once the arrays are allocated. *)
Lemma arrays_ok s p :
  1 <= nsizes s <= 27 -> bd_sizes s = replicate (Z.to_nat (nsizes s)) {| alloc := []; split := [] |} ->
  exists p1 p2 s1 zs,
    init_alloc (Z.to_nat (nsizes s)) 0 p s = Ret p1 s1 /\ same s s1 /\
    init_split (Z.to_nat (nsizes s - 1)) 1 p1 s1 = Ret p2 (set_bd_sizes zs s1) /\
    p <= p2 /\ 8 * (p2 - p) <= 3 * 2 ^ (nsizes s - 1) + 14 * nsizes s /\ p2 = p + arrays_len zs /\
    brep (nsizes s) zs (fun _ _ => false) (fun _ _ => false) /\
    lrep (nsizes s) (bd_base s) (lists s1) (fun _ _ => False).
Proof.
  intros Hn Hz.
  assert (Hlen : Z.of_nat (length (bd_sizes s)) = nsizes s) by (rewrite Hz, length_replicate; lia).
  destruct (init_alloc_ok (Z.to_nat (nsizes s)) 0 p s) as (p1 & s1 & E1 & Hsm & Hl1 & Hp1 & Hp1' & _ & Ha & Hd & _);
    [lia|lia|done|].
  pose proof Hsm as (En & Eb & _).
  destruct (init_split_ok (Z.to_nat (nsizes s - 1)) 1 p1 s1) as (p2 & zs & E2 & Hl2 & Hp2 & Hp2' & Hb0 & Hs);
    [lia|lia|lia|]. rewrite En in *.
  assert (Hnil : forall j z, aget (bd_sizes s) j = Some z -> z = {| alloc := []; split := [] |}).
  { intros j z. rewrite Hz. unfold aget. case_decide; [|done]. by intros [? _]%lookup_replicate. }
  exists p1, p2, s1, zs. split_and!; [done|done|done|lia| | | |].
  - rewrite Z.sub_0_r in Hp1'. replace (nsizes s) with ((nsizes s - 1) + 1) in Hp1' at 1 by lia.
    rewrite pow2_S in Hp1' by lia. lia.
  - apply init_alloc_len in E1; [|by intros j z _ ->%Hnil].
    apply init_split_len in E2; [|intros j z Hj Hg; pose proof (aget_Some_lt _ _ _ Hg);
      destruct (Ha j ltac:(lia)) as (z0 & ->%Hnil & Hg'); by simplify_eq].
    cbn [bd_sizes set_bd_sizes] in E2. assert (arrays_len (bd_sizes s) = 0); [|lia].
    rewrite Hz. clear. induction (Z.to_nat (nsizes s)) as [|n IH]; [done|exact IH].
  - assert (Hzlen : forall j, 0 <= j < nsizes s ->
      2 ^ (nsizes s - 1 - j) <= 8 * Z.of_nat (length (zeros (bits_bytes (2 ^ (nsizes s - 1 - j)))))).
    { intros j Hj. pose proof (bits_bytes_ok (2 ^ (nsizes s - 1 - j)) ltac:(apply pow2_pos; lia)).
      unfold zeros. rewrite length_replicate. lia. }
    split; [lia| |].
    + intros k z Hk. pose proof (aget_Some_lt _ _ _ Hk) as Hlt.
      destruct (Ha k ltac:(lia)) as (z0 & _ & Hz0).
      assert (alloc z = zeros (bits_bytes (2 ^ (nsizes s - 1 - k)))) as ->.
      { destruct (decide (k = 0)) as [->|]; [rewrite Hb0 in Hk by lia; by simplify_eq|].
        destruct (Hs k ltac:(lia)) as (z1 & Hz1 & Hz2). simplify_eq. done. }
      split_and!; [apply bytes_ok_zeros|apply Hzlen; lia|]. intros i _. apply bit_zeros.
    + intros k z Hk H1. pose proof (aget_Some_lt _ _ _ Hk) as Hlt.
      destruct (Hs k ltac:(lia)) as (z1 & _ & Hz2). rewrite Hk in Hz2. injection Hz2 as ->. cbn.
      split_and!; [apply bytes_ok_zeros|apply Hzlen; lia|]. intros i _. apply bit_zeros.
  - intros k Hk. exists []. split; [apply Hd; lia|]. intros x. split; [by intros ?%not_elem_of_nil|naive_solver].
Qed.

(** The end of the available memory, as [bd_mark_unavailable] computes it. *)
Lemma unavailable_ok H sz :
  1 <= H -> BLK_SIZE (H - 1) < sz < BLK_SIZE H ->
  let en := BLK_SIZE H - ROUNDUP (BLK_SIZE H - sz) LEAF_SIZE in
  BLK_SIZE (H - 1) <= en < BLK_SIZE H /\ (16 | en) /\ sz - 16 < en <= sz.
Proof.
  intros HH Hsz en. destruct (ROUNDUP_ok (BLK_SIZE H - sz) LEAF_SIZE) as [[a Ha] Hb]; [lia|done|].
  subst en. rewrite Ha in *. unfold BLK_SIZE, LEAF_SIZE in *.
  assert (E : 2 ^ H = 2 * 2 ^ (H - 1)) by (replace H with (H - 1 + 1) at 1 by lia; apply pow2_S; lia).
  rewrite E in *. split_and!; try lia. exists (2 * 2 ^ (H - 1) - a). lia.
Qed.

(** The metadata is small. *)
Lemma meta_ok H P p :
  9 <= H -> 0 < P -> (16 | P) -> P + 32 * (H + 1) <= p ->
  8 * (p - (P + 32 * (H + 1))) <= 3 * 2 ^ H + 14 * (H + 1) ->
  let mt := ROUNDUP p LEAF_SIZE - P in
  (16 | mt) /\ 32 * (H + 1) <= mt /\ 4 * mt <= BLK_SIZE (H - 1).
Proof.
  intros HH HP [b Hal] Hp Hp' mt. destruct (ROUNDUP_ok p LEAF_SIZE) as [[a Ha] Hb]; [lia|done|].
  subst mt. rewrite Ha in *. pose proof (pow_lin H HH) as Hl. unfold BLK_SIZE, LEAF_SIZE in *.
  assert (E : 2 ^ H = 2 * 2 ^ (H - 1)) by (replace H with (H - 1 + 1) at 1 by lia; apply pow2_S; lia).
  split_and!; [exists (a - b); lia|lia|lia].
Qed.

Lemma mark_data_ok s s' p :
  bd_mark (bd_base s) p s = Ret tt s' -> 0 <= p - bd_base s < 2 ^ 31 ->
  bd_mark_data_structures p s = Ret (p - bd_base s) s'.
Proof.
  intros E Hr. unfold bd_mark_data_structures. mstep. run E. mstep. by rewrite s32_small by lia.
Qed.

Lemma mark_unavailable_ok s s' end_ H :
  nsizes s = H + 1 -> BLK_SIZE H <= 2 ^ 30 -> 0 < end_ - bd_base s < BLK_SIZE H ->
  let u := ROUNDUP (BLK_SIZE H - (end_ - bd_base s)) LEAF_SIZE in
  bd_mark (bd_base s + (BLK_SIZE H - u)) (bd_base s + BLK_SIZE H) s = Ret tt s' ->
  bd_mark_unavailable end_ s = Ret u s'.
Proof.
  intros Hn Hbig Hr u E. unfold bd_mark_unavailable. mstep.
  replace (MAXSIZE s) with H by (unfold MAXSIZE; lia).
  rewrite (s32_small (BLK_SIZE H - _)) by lia.
  destruct (ROUNDUP_ok (BLK_SIZE H - (end_ - bd_base s)) LEAF_SIZE) as [_ Hu]; [lia|done|].
  fold u in Hu. replace (0 <? BLK_SIZE H - (end_ - bd_base s)) with true by lia.
  fold u. rewrite s32_small by (unfold LEAF_SIZE in Hu; lia).
  replace (bd_base s + BLK_SIZE H - u) with (bd_base s + (BLK_SIZE H - u)) by lia. by run E.
Qed.

(** The free lists, from the marked state. *)
Lemma bd_initfree_ok H mt en s :
  1 <= H <= 26 -> 32 * (H + 1) <= mt -> 4 * mt <= BLK_SIZE (H - 1) ->
  BLK_SIZE (H - 1) <= en < BLK_SIZE H -> (16 | mt) -> (16 | en) ->
  nsizes s = H + 1 -> brep (nsizes s) (bd_sizes s) (A (tree0 mt en)) (Sp (tree0 mt en)) ->
  lrep (nsizes s) (bd_base s) (lists s) (fun _ _ => False) -> 0 < bd_base s ->
  exists m, bd_initfree (bd_base s + mt) (bd_base s + en) s = Ret (en - mt) (set_lists m s) /\
    rep (set_lists m s) (tree0 mt en).
Proof.
  intros HH Hm2 Hm3 He1 Hm1 He2 Hn Hb Hl Hbase. unfold bd_initfree. mstep.
  replace (MAXSIZE s) with H by (unfold MAXSIZE; lia).
  destruct (initfree_loop_ok H mt en HH ltac:(lia) ltac:(lia) Hm2 Hm3 He1 Hm1 He2 (Z.to_nat H) s 0 0)
    as (m & E & [F1 F2 F3 F4]); [|lia|lia|lia| |].
  - split; [done|done| |naive_solver]. intros k Hk. destruct (Hl k Hk) as (l & Hd & Hin).
    exists l. split; [done|]. intros x. rewrite Hin. split; [naive_solver|].
    intros (i & [Hk0 [[[Hv _] _] _]] & _). lia.
  - unfold lft, rgt. change (BLK_SIZE 0) with 16. destruct Hm1 as [a Ha], He2 as [b Hb'].
    assert (Hle : 0 < mt <= en) by lia. clear -Ha Hb' Hle. dlia.
  - exists m. split; [done|]. split; [cbn; lia|done|done| |].
    + cbn [nsizes set_lists] in *. by replace (nsizes s - 1) with H by lia.
    + cbn [nsizes set_lists]. replace (nsizes s - 1) with H by lia. apply tree0_wf; try done; lia.
Qed.

(** [bd_init] after the arrays are allocated. *)
Lemma init_finish s H mt sz :
  1 <= H <= 26 -> BLK_SIZE (H - 1) < sz < BLK_SIZE H ->
  32 * (H + 1) <= mt -> 4 * mt <= BLK_SIZE (H - 1) -> (16 | mt) ->
  nsizes s = H + 1 -> 0 < bd_base s -> (16 | bd_base s) ->
  brep (nsizes s) (bd_sizes s) (fun _ _ => false) (fun _ _ => false) ->
  lrep (nsizes s) (bd_base s) (lists s) (fun _ _ => False) ->
  let p := bd_base s + mt in
  exists s',
    (meta <- bd_mark_data_structures p ;;
     unavailable <- bd_mark_unavailable (bd_base s + sz) ;;
     base <- gets bd_base ;;
     mx <- gets MAXSIZE ;;
     let bd_end := base + BLK_SIZE mx - unavailable in
     free <- bd_initfree p bd_end ;;
     if negb (free =? BLK_SIZE mx - meta - unavailable) then panic "bd_init: free mem"
     else ret tt) s = Ret tt s' /\
    rep s' (tree0 mt (16 * (sz / 16))) /\ same s s' /\ arrays_len (bd_sizes s') = arrays_len (bd_sizes s).
Proof.
  intros HH Hlv Hm2 Hm3 Hm1 Hn Hbs Hal Hb Hl p.
  destruct (unavailable_ok H sz ltac:(lia) Hlv) as (He1 & He2 & He3). cbv zeta in *.
  set (u := ROUNDUP (BLK_SIZE H - sz) LEAF_SIZE) in *.
  assert (E16 : 16 * (sz / 16) = BLK_SIZE H - u).
  { destruct He2 as [a Ha]. rewrite Ha in *. clear -He3. dlia. }
  rewrite E16. clear E16. pose proof (blk_big H ltac:(lia)) as Hbig.
  destruct (marks_ok H mt (BLK_SIZE H - u) HH ltac:(lia) ltac:(lia) Hm2 Hm3 He1 Hm1 He2 s Hn Hal Hb)
    as (zs1 & zs2 & M1 & M2 & Hb').
  run (mark_data_ok _ _ _ M1 ltac:(lia)).
  assert (Hu : bd_mark_unavailable (bd_base s + sz) (set_bd_sizes zs1 s) = Ret u (set_bd_sizes zs2 s)).
  { assert (Eu : ROUNDUP (BLK_SIZE H - (bd_base s + sz - bd_base s)) LEAF_SIZE = u) by (unfold u; f_equal; lia).
    rewrite <- Eu. apply (mark_unavailable_ok (set_bd_sizes zs1 s)); cbn [bd_base nsizes set_bd_sizes]; [done|done|lia|].
    by rewrite Eu. }
  run Hu. mstep. change (MAXSIZE (set_bd_sizes zs2 s)) with (nsizes s - 1). rewrite Hn.
  replace (H + 1 - 1) with H by lia. cbn [bd_base set_bd_sizes].
  replace (bd_base s + BLK_SIZE H - u) with (bd_base s + (BLK_SIZE H - u)) by lia.
  destruct (bd_initfree_ok H mt (BLK_SIZE H - u) (set_bd_sizes zs2 s) HH Hm2 Hm3 He1 Hm1 He2 Hn Hb' Hl Hbs)
    as (m & E & Hr). subst p. run E.
  replace (bd_base s + mt - bd_base s) with mt by lia.
  replace (BLK_SIZE H - u - mt =? BLK_SIZE H - mt - u) with true by (symmetry; apply Z.eqb_eq; lia).
  cbn [negb]. eexists. split_and!; try done. cbn [bd_sizes set_bd_sizes set_lists].
  apply bd_mark_len in M1, M2. cbn [bd_sizes set_bd_sizes] in M1, M2. congruence.
Qed.

Section Init.
Context (s : buddy) (base end_ : Z).
Context (Hbase : 0 < base).
Context (Hsz : 4096 <= end_ - ROUNDUP base LEAF_SIZE < 2 ^ 30).
Context (Hpow : forall k, 0 <= k -> end_ - ROUNDUP base LEAF_SIZE <> BLK_SIZE k).

Notation P := (ROUNDUP base LEAF_SIZE).
Notation sz := (end_ - P).
Notation H := (size_levels sz).

Definition init_state : buddy :=
  {| b_cx := b_cx s; nsizes := H + 1; bd_base := P;
     bd_sizes := replicate (Z.to_nat (H + 1)) {| alloc := []; split := [] |}; lists := lists s |}.

Lemma bd_init_ok :
  exists mt s', mt = data_end s' - P /\ 4 * mt <= sz /\ bd_init base end_ s = Ret tt s' /\
    rep s' (tree0 mt (16 * (sz / 16))) /\ nsizes s' = H + 1 /\ bd_base s' = P /\ cx s' = cx s /\
    forall x, mt <= x < 16 * (sz / 16) <->
      exists k i, free H (tree0 mt (16 * (sz / 16))) k i /\ i * BLK_SIZE k <= x < (i + 1) * BLK_SIZE k.
Proof using Hbase Hsz Hpow.
  destruct (levels_ok sz Hsz Hpow) as [HH Hlv]. destruct (ROUNDUP_ok base LEAF_SIZE Hbase ltac:(done)) as [HP HPb].
  unfold bd_init. mstep. rewrite (Z.quot_div_nonneg sz LEAF_SIZE ltac:(lia) eq_refl).
  change (sz / LEAF_SIZE) with (sz / 16).
  rewrite u64_small by dlia. unfold log2. rewrite log2_loop_ok by dlia. rewrite Z.add_0_l.
  change (Z.log2 (sz / 16) + 1) with H. mstep.
  change (MAXSIZE _) with (H - 1) at 1. replace (BLK_SIZE (H - 1) <? sz) with true by lia. cbn [when]. mstep.
  set (s1 := set_bd_sizes _ _). assert (E1 : s1 = init_state) by done. clearbody s1. subst s1.
  change (nsizes (set_nsizes _ _)) with (H + 1).
  destruct (arrays_ok init_state (P + SZ_INFO * (H + 1)))
    as (p1 & p2 & s1 & zs & E1 & (Es1 & Es2 & Es3) & E2 & Hp & Hp' & Hp2 & Hb & Hl); [cbn; lia|done|].
  cbn [nsizes init_state] in *. run E1. run E2. replace (H + 1 - 1) with H in Hp' by lia.
  destruct (meta_ok H P p2 ltac:(lia) ltac:(lia) HP Hp Hp') as (Hm1 & Hm2 & Hm3). cbv zeta in *.
  set (mt := ROUNDUP p2 LEAF_SIZE - P) in *. cbn [bd_base init_state] in Es2.
  destruct (init_finish (set_bd_sizes zs s1) H mt sz) as (s' & E & Hr & (F1 & F2 & F3) & F4);
    cbn [nsizes bd_base bd_sizes lists set_bd_sizes]; rewrite ?Es1, ?Es2; try done; try lia.
  cbn [nsizes bd_base bd_sizes set_bd_sizes] in E, F1, F2, F4. rewrite Es2 in E, F2.
  replace (P + mt) with (ROUNDUP p2 LEAF_SIZE) in E by lia.
  replace (P + sz) with end_ in E by lia.
  exists mt, s'. split_and!; [|lia|exact E|done|congruence|done|cbn; by rewrite F3|].
  { unfold data_end. rewrite F4, F2, F1, Es1. unfold mt. do 2 f_equal. lia. }
  assert (Hen : BLK_SIZE (H - 1) <= 16 * (sz / 16)).
  { replace (H - 1) with (H - 1) by lia. destruct (unavailable_ok H sz ltac:(lia) Hlv) as (He1 & [a Ha] & He3).
    cbv zeta in *. rewrite Ha in *. clear -He1 He3. dlia. }
  assert (Hen' : 16 * (sz / 16) <= sz) by (clear; dlia).
  intros x. split; [intros Hx; apply free_covers; try done; try lia; by exists (sz / 16); lia|].
  intros (k & i & Hf & Hx). eapply (free_within H mt (16 * (sz / 16))); try done; try lia. by exists (sz / 16); lia.
Qed.
End Init.
