(* ===== verification/BuddyProps.v ===== *)
(** * The properties of the buddy allocator

    The theorems about [bd_init], [bd_malloc] and [bd_free], each with an
    instance on the heap [bd_init] builds in 5000 bytes of memory. *)

From S2P Require Import Prelude Riscv ListC Buddy BuddyTree AllocI BuddySpec BuddyInit.

(** A small heap, to evaluate the theorems on. *)
Definition ctx0 : ctx :=
  {| noff := 0; intena := false; intr := true; held := []; mypid := 1; mykilled := false |}.
Definition nomem : buddy :=
  {| b_cx := ctx0; nsizes := 0; bd_base := 0; bd_sizes := []; lists := ∅ |}.
Definition heap0 : buddy :=
  match bd_init 65536 70536 nomem with Ret _ s => s | _ => nomem end.

Lemma ctx0_wf : cx_wf ctx0.
Proof. split_and!; [done|constructor|done]. Qed.

Lemma not_blk_5000 k : 0 <= k -> 70536 - ROUNDUP 65536 LEAF_SIZE <> BLK_SIZE k.
Proof.
  change (70536 - ROUNDUP 65536 LEAF_SIZE) with 5000. unfold BLK_SIZE, LEAF_SIZE. intros Hk E.
  destruct (decide (k <= 8)).
  - assert (2 ^ k <= 2 ^ 8) by (apply Z.pow_le_mono_r; lia). lia.
  - assert (2 ^ 9 <= 2 ^ k) by (apply Z.pow_le_mono_r; lia). lia.
Qed.

Lemma heap0_inv : bd_inv heap0 /\ cx heap0 = ctx0.
Proof.
  destruct (bd_init_ok nomem 65536 70536 ltac:(lia) ltac:(done) not_blk_5000)
    as (mt & s' & _ & _ & E & Hr & _ & _ & Hc & _).
  assert (heap0 = s') as -> by (unfold heap0; by rewrite E). split; [by eapply rep_inv|done].
Qed.

Lemma heap0_ready : cx_wf (cx heap0) /\ buddy_lock ∉ held (cx heap0).
Proof. destruct heap0_inv as [_ ->]. split; [apply ctx0_wf|apply not_elem_of_nil]. Qed.

Lemma heap0_malloc : exists p s, bd_malloc 100 heap0 = Ret p s /\ p <> 0.
Proof.
  assert (Hv : match bd_malloc 100 heap0 with Ret p _ => negb (p =? 0) | _ => false end = true)
    by (vm_compute; reflexivity).
  destruct (bd_malloc 100 heap0) as [p s| | | |]; try done. exists p, s. split; [done|].
  intros ->. done.
Qed.

(** The heap is too small for a page. *)
Lemma heap0_page c : exists h, bd_malloc 4096 (set_cx (with_locks [("proc"%string, c)] ctx0) heap0) = Ret 0 h.
Proof.
  assert (Hv : match bd_malloc 4096 (set_cx (with_locks [("proc"%string, c)] ctx0) heap0) with
    | Ret p _ => p =? 0 | _ => false end = true) by (vm_compute; reflexivity).
  destruct (bd_malloc 4096 _) as [p h| | | |]; try done. apply Z.eqb_eq in Hv as ->. by exists h.
Qed.

#[global] Opaque heap0.

(** C1: [bd_malloc(n)] ends, keeps the allocator's invariant and leaves the
    processor's interrupt state as it found it.  It returns 0 and changes
    nothing exactly when no free block is large enough; otherwise it returns a
    block of the smallest size that holds [n] bytes, aligned to its size,
    disjoint from every allocated block, and the allocated blocks become the
    old ones and the new one. *)
Theorem bd_malloc_spec (s : buddy) (n : Z) :
  bd_inv s -> cx_wf (cx s) -> buddy_lock ∉ held (cx s) -> 0 <= n <= 2 ^ 63 ->
  exists p s', bd_malloc n s = Ret p s' /\ bd_inv s' /\ cx s' = touch (cx s) /\
    ((p = 0 /\ s' = set_cx (cx s') s /\
      forall k i, n <= BLK_SIZE k -> ~ free (nsizes s - 1) (tree_of s) k i) \/
     (exists k, 0 < p /\ n <= BLK_SIZE k /\ (forall j, 0 <= j < k -> BLK_SIZE j < n) /\
       (BLK_SIZE k | p - bd_base s) /\
       (forall q y, bd_live s q y -> q + y <= p \/ p + BLK_SIZE k <= q) /\
       forall q y, bd_live s' q y <-> bd_live s q y \/ (q, y) = (p, BLK_SIZE k))).
Proof.
  intros Hr Hc Hl Hn. destruct (bd_malloc_ok s n Hr Hc Hl Hn)
    as (p & s' & fk & E & Hr' & Hc' & E1 & E2 & Hfk & Hcase).
  destruct (firstk_ok n Hn) as (fk' & Hfk' & Hk & Hsz & Hmin). assert (fk' = fk) as -> by congruence.
  exists p, s'. split_and!; [done|done|done|]. destruct Hcase as [(-> & Es & Hno)|(i & -> & Hnh & Hnew & Hu)].
  - left. split_and!; [done|done|]. intros k i Hki Hf. apply (Hno k i); [|done].
    destruct (decide (fk <= k)); [done|]. destruct Hf as [[[? _] _] _]. specialize (Hmin k ltac:(lia)). lia.
  - right. exists fk.
    assert (Hlive : forall q y, bd_live s' q y <-> bd_live s q y \/ (q, y) = (bd_base s + i * BLK_SIZE fk, BLK_SIZE fk)).
    { intros q y. unfold bd_live. rewrite E1, E2. setoid_rewrite Hu. split.
      - intros (k & j & [Hu'|[= -> ->]] & Hh & -> & ->); [left; eauto 10|by right].
      - intros [(k & j & Hu' & Hh & -> & ->)|[= -> ->]]; [exists k, j|exists fk, i]; auto. }
    assert (Hnl : bd_live s' (bd_base s + i * BLK_SIZE fk) (BLK_SIZE fk)) by (apply Hlive; auto).
    split_and!; [exact (proj1 (bd_live_pos _ _ _ Hr' Hnl))|done|done|exists i; lia| |done].
    intros q y Hq. destruct (bd_live_disjoint s' q y _ _ Hr' ltac:(apply Hlive; auto) Hnl) as [[= -> ->]|]; [|lia].
    destruct Hq as (k & j & Hu' & _ & Ep & _). exfalso. apply (Hnew k j Hu'). lia.
Qed.

Lemma bd_malloc_spec_witness :
  exists p s', bd_malloc 100 heap0 = Ret p s' /\ bd_inv s' /\ exists k, bd_live s' p (BLK_SIZE k).
Proof.
  destruct heap0_malloc as (p0 & s0 & E0 & Hp0).
  destruct (bd_malloc_spec heap0 100 (proj1 heap0_inv) (proj1 heap0_ready) (proj2 heap0_ready) ltac:(lia))
    as (p & s' & E & Hr & _ & [(-> & _)|(k & _ & H1 & H2 & _ & _ & Hu)]).
  - congruence.
  - exists p, s'. split_and!; [exact E|exact Hr|]. exists k. apply Hu. by right.
Defined.

(** C2: [bd_free(p)], for an allocated block [p], ends, keeps the invariant
    (in particular no two buddies are left free side by side) and the
    interrupt state, and removes exactly that block from the allocated ones. *)
Theorem bd_free_spec (s : buddy) (p z : Z) :
  bd_inv s -> cx_wf (cx s) -> buddy_lock ∉ held (cx s) -> bd_live s p z ->
  exists s', bd_free p s = Ret tt s' /\ bd_inv s' /\ cx s' = touch (cx s) /\
    bd_base s' = bd_base s /\ nsizes s' = nsizes s /\
    forall q y, bd_live s' q y <-> bd_live s q y /\ q <> p.
Proof.
  intros Hr Hc Hl Hlive. destruct (bd_free_live s p z Hr Hc Hl Hlive) as (s' & E & Hr' & Hc' & Eb & Hu).
  exists s'. split_and!; try done.
  destruct Hlive as (k & i & Hused & Hn & -> & ->).
  destruct (bd_free_ok s k i Hr Hc Hl Hused Hn) as (s2 & E2 & _ & _ & En & _). congruence.
Qed.

Lemma bd_free_spec_witness :
  exists p s1 s2, bd_malloc 100 heap0 = Ret p s1 /\ bd_free p s1 = Ret tt s2 /\ bd_inv s2.
Proof.
  destruct heap0_malloc as (p0 & s0 & E0 & Hp0).
  destruct (bd_malloc_live heap0 100 (proj1 heap0_inv) (proj1 heap0_ready) (proj2 heap0_ready) ltac:(lia))
    as (p & s1 & E & Hr & Hc & _ & [[-> _]|(z & _ & _ & _ & Hu)]).
  - congruence.
  - destruct heap0_ready as [Hwf Hnl].
    destruct (bd_free_spec s1 p z Hr) as (s2 & E2 & Hr2 & _);
      [rewrite Hc; by apply touch_wf|by rewrite Hc, held_touch|apply Hu; by right|].
    exists p, s1, s2. split_and!; [exact E|exact E2|exact Hr2].
Defined.

(** C3: freeing a block just allocated undoes the allocation: the free blocks
    are, at every size, the same as before, so the splits of [bd_malloc] are
    all merged back. *)
Theorem bd_malloc_free_roundtrip (s : buddy) (n p : Z) (s1 : buddy) :
  bd_inv s -> cx_wf (cx s) -> buddy_lock ∉ held (cx s) -> 0 <= n <= 2 ^ 63 ->
  bd_malloc n s = Ret p s1 -> p <> 0 ->
  exists s2, bd_free p s1 = Ret tt s2 /\ bd_inv s2 /\ nsizes s2 = nsizes s /\ bd_base s2 = bd_base s /\
    (forall k i, free (nsizes s - 1) (tree_of s2) k i <-> free (nsizes s - 1) (tree_of s) k i) /\
    (forall k i, used (nsizes s - 1) (tree_of s2) k i <-> used (nsizes s - 1) (tree_of s) k i).
Proof.
  intros Hr Hc Hl Hn E Hp. destruct (bd_malloc_ok s n Hr Hc Hl Hn)
    as (p' & s' & fk & E' & Hr' & Hc' & E1 & E2 & _ & Hcase).
  rewrite E' in E. injection E as -> ->. destruct Hcase as [(-> & _)|(i & -> & Hnh & Hnew & Hu)]; [done|].
  destruct (bd_free_ok s1 fk i Hr') as (s2 & F & Hr2 & _ & F1 & F2 & _ & Hu2);
    [rewrite Hc'; by apply touch_wf|by rewrite Hc'|rewrite E1; apply Hu; by right|by rewrite E1|].
  rewrite E1 in *. rewrite <- E2. exists s2.
  assert (Hused : forall k j, used (nsizes s - 1) (tree_of s2) k j <-> used (nsizes s - 1) (tree_of s) k j).
  { intros k j. rewrite Hu2, Hu. split; [naive_solver|]. intros Hx. split; [by left|].
    intros [= -> ->]. by apply (Hnew fk i). }
  split_and!; [done|done|congruence|congruence| |done].
  intros k j. apply used_determines; [|apply (rep_wf _ _ Hr)|done].
  pose proof (rep_wf _ _ Hr2) as Hw. by rewrite F1 in Hw.
Qed.

Lemma bd_malloc_free_roundtrip_witness :
  exists p s1 s2, bd_malloc 100 heap0 = Ret p s1 /\ bd_free p s1 = Ret tt s2 /\
    forall k i, free (nsizes heap0 - 1) (tree_of s2) k i <-> free (nsizes heap0 - 1) (tree_of heap0) k i.
Proof.
  destruct heap0_malloc as (p & s1 & E & Hp). exists p, s1. destruct (bd_malloc_free_roundtrip heap0 100 p s1) as (s2 & F & _ & _ & _ & Hf & _);
    [apply heap0_inv|apply heap0_ready|apply heap0_ready|lia|exact E|exact Hp|].
  exists s2. split_and!; [exact E|exact F|exact Hf].
Defined.

(** C4: [bd_init(base, end)] on a heap of at least a page and less than a
    gigabyte, whose size is not a power of two, returns without a panic and the
    state it leaves satisfies the invariant.  The bytes in free blocks are
    exactly those from the end of its own data (the array [bd_sizes] and the
    bytes of every alloc and split array, rounded up to 16) to the end of
    memory (rounded down to 16), and that data is at most a quarter of the
    heap. *)
Theorem bd_init_spec (s : buddy) (base end_ : Z) :
  0 < base -> 4096 <= end_ - ROUNDUP base LEAF_SIZE < 2 ^ 30 ->
  (forall k, 0 <= k -> end_ - ROUNDUP base LEAF_SIZE <> BLK_SIZE k) ->
  exists s', bd_init base end_ s = Ret tt s' /\ bd_inv s' /\ cx s' = cx s /\
    bd_base s' = ROUNDUP base LEAF_SIZE /\ 4 * (data_end s' - bd_base s') <= end_ - bd_base s' /\
    forall x, data_end s' <= x < bd_base s' + 16 * ((end_ - bd_base s') / 16) <->
      exists k i, free (nsizes s' - 1) (tree_of s') k i /\
        bd_base s' + i * BLK_SIZE k <= x < bd_base s' + (i + 1) * BLK_SIZE k.
Proof.
  intros Hb Hsz Hp. destruct (bd_init_ok s base end_ Hb Hsz Hp)
    as (mt & s' & Hm & Hm4 & E & Hr & Hn & Hbs & Hc & Hcov).
  exists s'. split_and!; [done|by eapply rep_inv|done|done|lia|].
  assert (Hfree : forall k i, free (nsizes s' - 1) (tree_of s') k i <->
    free (size_levels (end_ - ROUNDUP base LEAF_SIZE))
      (tree0 mt (16 * ((end_ - ROUNDUP base LEAF_SIZE) / 16))) k i).
  { intros k i. rewrite Hn, Z.add_simpl_r. apply used_determines.
    - pose proof (rep_wf _ _ (rep_inv _ _ Hr)) as Hw. by rewrite Hn, Z.add_simpl_r in Hw.
    - pose proof (rep_wf _ _ Hr) as Hw. by rewrite Hn, Z.add_simpl_r in Hw.
    - pose proof (proj2 (tree_of_ok _ _ Hr)) as Hu. by rewrite Hn, Z.add_simpl_r in Hu. }
  intros x. setoid_rewrite Hfree. rewrite Hbs. specialize (Hcov (x - ROUNDUP base LEAF_SIZE)).
  split.
  - intros Hx. destruct (proj1 Hcov ltac:(lia)) as (k & i & Hf & Hr'). exists k, i. split; [done|lia].
  - intros (k & i & Hf & Hr'). enough (mt <= x - ROUNDUP base LEAF_SIZE < 16 * ((end_ - ROUNDUP base LEAF_SIZE) / 16)) by lia.
    apply Hcov. exists k, i. split; [done|lia].
Qed.

Lemma bd_init_spec_witness :
  exists s', bd_init 65536 70536 nomem = Ret tt s' /\ bd_inv s' /\ bd_base s' = 65536 /\
    forall x, data_end s' <= x < 70528 <->
      exists k i, free (nsizes s' - 1) (tree_of s') k i /\ 65536 + i * BLK_SIZE k <= x < 65536 + (i + 1) * BLK_SIZE k.
Proof.
  destruct (bd_init_spec nomem 65536 70536 ltac:(lia) ltac:(done) not_blk_5000) as (s' & E & Hr & _ & Hb & _ & Hf).
  change (ROUNDUP 65536 LEAF_SIZE) with 65536 in Hb. rewrite Hb in Hf.
  exists s'. split_and!; [exact E|exact Hr|exact Hb|exact Hf].
Defined.

(** A request of more than 2^63 bytes never returns: in [firstk] the size,
    a 64-bit integer, doubles from 2^63 to 0 and stays 0, so the loop does not
    end, with the allocator's lock held. *)
Theorem bd_malloc_huge_diverges (n : Z) (fuel : nat) :
  2 ^ 63 < n < 2 ^ 64 -> firstk fuel n = None.
Proof. intros Hn. apply (firstk_loop_big fuel n 0); lia. Qed.

Lemma bd_malloc_huge_diverges_witness : firstk 1000 (2 ^ 64 - 1) = None.
Proof. apply bd_malloc_huge_diverges. lia. Defined.

(** ** Printing a bit vector *)

Definition in_range (b : Z) (r : Z * Z) : Prop := fst r <= b < snd r.

(** What the loop prints from bit [b] on, when the bits from [lb] to [b] all
    equal [last]. *)
Lemma print_vector_loop_ok n vec b lb last :
  bytes_ok vec -> 0 <= lb <= b -> b + Z.of_nat n <= 8 * Z.of_nat (length vec) ->
  (forall j, lb <= j < b -> bit vec j = last) ->
  exists out lb' last', print_vector_loop n vec b lb last = Some (out, lb', last') /\
    lb <= lb' <= b + Z.of_nat n /\
    (forall j, lb' <= j < b + Z.of_nat n -> bit vec j = last') /\
    (forall j, lb <= j < lb' -> bit vec j = true <-> Exists (in_range j) out) /\
    (forall j, Exists (in_range j) out -> lb <= j < lb').
Proof.
  revert b lb last. induction n as [|n IH]; intros b lb last Hok Hlb Hlen Hrun; cbn [print_vector_loop].
  - exists [], lb, last. rewrite Z.add_0_r. split_and!; try done; try lia.
    intros j Hj. by apply Exists_nil in Hj.
  - rewrite bit_isset_ok by (unfold in_bits; lia). cbn [mbind option_bind].
    destruct (Bool.eqb_spec last (bit vec b)) as [E|E].
    + destruct (IH (b + 1) lb last Hok) as (out & lb' & last' & Eq & H1 & H3 & H4 & H5); [lia|lia| |].
      { intros j Hj. destruct (decide (j = b)) as [->|]; [done|apply Hrun; lia]. }
      exists out, lb', last'. split_and!; try done; try lia. intros; apply H3; lia.
    + destruct (IH (b + 1) b (bit vec b) Hok) as (out & lb' & last' & Eq & H1 & H3 & H4 & H5);
        [lia|lia|intros j Hj; by assert (j = b) as -> by lia|].
      rewrite Eq. cbn [mbind option_bind]. eexists _, lb', last'. split; [done|].
      split_and!; try lia; [intros; apply H3; lia| |].
      * intros j Hj. destruct (decide (j < b)) as [Hlt|Hge].
        -- rewrite Hrun by lia. destruct last; [split; [intros _; left; unfold in_range; cbn; lia|done]|].
           split; [done|]. intros Hx. apply H5 in Hx. lia.
        -- rewrite H4 by lia. destruct last; [|done]. split; [by right|].
           intros Hx. inversion Hx as [? ? Hr|]; subst; [unfold in_range in Hr; cbn in Hr; lia|done].
      * intros j Hj. destruct last; [|apply H5 in Hj; lia].
        inversion Hj as [? ? Hr|? ? Hr]; subst; [unfold in_range in Hr; cbn in Hr; lia|apply H5 in Hr; lia].
Qed.

(** [bd_print_vector(vector, len)] prints ranges whose union is the set of
    1 bits below [len], whenever one of those bits is set. *)
Theorem bd_print_vector_spec (vec : list Z) (len : Z) :
  bytes_ok vec -> 0 <= len <= 8 * Z.of_nat (length vec) -> (exists j, 0 <= j < len /\ bit vec j = true) ->
  exists out, bd_print_vector vec len = Some out /\
    forall j, Exists (in_range j) out <-> 0 <= j < len /\ bit vec j = true.
Proof.
  intros Hok Hlen (j0 & Hj0 & Hb0).
  destruct (print_vector_loop_ok (Z.to_nat len) vec 0 0 true Hok) as (out & lb & last & E & H1 & H3 & H4 & H5);
    [lia|lia|lia|]. rewrite Z2Nat.id, Z.add_0_l in * by lia.
  unfold bd_print_vector. rewrite E. cbn [mbind option_bind].
  assert (Hlast : lb = 0 -> last = true) by (intros ->; rewrite <- H3 with (j := j0); [done|lia]).
  eexists. split; [done|]. intros j. destruct ((lb =? 0) || last) eqn:Ec.
  - assert (last = true) as -> by (destruct (Z.eqb_spec lb 0); auto).
    rewrite Exists_app, Exists_cons, Exists_nil. unfold in_range at 2. cbn [fst snd]. split.
    + intros [Hx|[Hx|[]]]; [pose proof (H5 j Hx); split; [lia|by apply H4]|split; [lia|apply H3; lia]].
    + intros [Hj Hb]. destruct (decide (j < lb)); [left; apply H4; [lia|done]|right; left; lia].
  - apply orb_false_iff in Ec as [_ ->]. split.
    + intros Hx. pose proof (H5 j Hx). split; [lia|]. by apply H4.
    + intros [Hj Hb]. destruct (decide (j < lb)); [apply H4; [lia|done]|]. rewrite H3 in Hb by lia. done.
Qed.

Lemma bd_print_vector_spec_witness :
  exists out, bd_print_vector [6; 3] 16 = Some out /\
    forall j, Exists (in_range j) out <-> 0 <= j < 16 /\ bit [6; 3] j = true.
Proof.
  apply bd_print_vector_spec; [by repeat constructor|done|]. by exists 1.
Defined.

(** A vector of zeros is printed as one range of 1 bits that covers all of
    it. *)
Theorem bd_print_vector_zeros (len : Z) :
  0 < len -> bd_print_vector (zeros (bits_bytes len)) len = Some [(0, 0); (0, len)].
Proof.
  intros Hlen. pose proof (bits_bytes_ok len Hlen) as Hb.
  assert (Hl : Z.of_nat (length (zeros (bits_bytes len))) = bits_bytes len)
    by (unfold zeros; rewrite length_replicate; lia).
  assert (Hgo : forall n b, 0 <= b -> b + Z.of_nat n <= len ->
    print_vector_loop n (zeros (bits_bytes len)) b 0 false = Some ([], 0, false)).
  { induction n as [|n IH]; intros b H0 Hle; [done|]. cbn [print_vector_loop].
    rewrite bit_isset_ok by (unfold in_bits; lia). rewrite bit_zeros. cbn. apply IH; lia. }
  unfold bd_print_vector. destruct (Z.to_nat len) as [|n] eqn:E; [lia|]. cbn [print_vector_loop].
  rewrite bit_isset_ok by (unfold in_bits; lia). rewrite bit_zeros. cbn [mbind option_bind Bool.eqb].
  rewrite Hgo by lia. done.
Qed.

Lemma bd_print_vector_zeros_witness : bd_print_vector (zeros (bits_bytes 12)) 12 = Some [(0, 0); (0, 12)].
Proof. apply bd_print_vector_zeros. lia. Defined.
