(* ===== verification/StringHeap.v ===== *)
(** * kernel/string.c: strdup and strjoin

    The two functions that allocate.  The state is the bytes of memory and an
    allocator, of which only the interface [Alloc] is used. *)

From S2P Require Import Prelude Riscv AllocI StringC Buddy BuddySpec BuddyProps.

Record smem (E : Type) := { bytes : mem; heap : E }.
Arguments bytes {E} _.
Arguments heap {E} _.

Section Strings.
Context {E : Type} `{HasCtx E} `{!Alloc E}.

Definition set_bytes (m : mem) (s : smem E) : smem E := {| bytes := m; heap := heap s |}.
Definition set_heap (h : E) (s : smem E) : smem E := {| bytes := bytes s; heap := h |}.

(** Functions of [StringC] on the bytes. *)
Definition rd {A} (f : mem -> option A) : M (smem E) A := fun s => unwrap (f (bytes s)) s.
Definition wr (f : mem -> option mem) : M (smem E) unit :=
  m <- rd f ;; modify (set_bytes m).

Definition on_heap {A} (m : M E A) : M (smem E) A := zoom heap set_heap m.

Definition strdup (s : Z) : M (smem E) Z :=
  l <- rd (strlen s) ;;
  let n := s32 (l + 1) in
  d <- on_heap (malloc (u64 n)) ;;
  wr (safestrcpy d s n) ;;;
  ret d.

(** The first loop of [strjoin]: [n], the bytes needed. *)
Fixpoint join_size (s : list Z) (n : Z) : M (smem E) Z :=
  match s with
  | [] => ret n
  | p :: s => l <- rd (strlen p) ;; join_size s (s32 (n + s32 (l + 1)))
  end.

(** The second: copy each string to [d] and a space after it. *)
Fixpoint join_copy (s : list Z) (d : Z) : M (smem E) Z :=
  match s with
  | [] => ret d
  | p :: s =>
      n <- rd (strlen p) ;;
      wr (safestrcpy d p (s32 (n + 1))) ;;;
      let d := d + n in
      wr (fun m => st m d 32) ;;;
      join_copy s (d + 1)
  end.

(** [s] is the vector of string pointers, up to the null pointer. *)
Definition strjoin (s : list Z) : M (smem E) Z :=
  n <- join_size s 0 ;;
  d <- on_heap (malloc (u64 n)) ;;
  let od := d in
  d <- join_copy s d ;;
  wr (fun m => st m (d - 1) 0) ;;;
  ret od.

(** ** Proofs *)

Lemma rd_ok {A} (f : mem -> option A) s a : f (bytes s) = Some a -> rd f s = Ret a s.
Proof. intros E1. unfold rd. by rewrite E1. Qed.

Lemma wr_ok f s m : f (bytes s) = Some m -> wr f s = Ret tt (set_bytes m s).
Proof. intros E1. unfold wr. by run (rd_ok _ _ _ E1). Qed.

Lemma on_heap_ok {A} (m : M E A) s a h : m (heap s) = Ret a h -> on_heap m s = Ret a (set_heap h s).
Proof. intros E1. unfold on_heap. by apply zoom_ret. Qed.

(** The strings of [argv], each followed by a space. *)
Definition spaced (ls : list (list Z)) : list Z := concat ((fun l => l ++ [32]) <$> ls).

Definition joined (ls : list (list Z)) : list Z := removelast (spaced ls).

Definition argv_ok (s : smem E) (argv : list Z) (ls : list (list Z)) : Prop :=
  Forall2 (fun p l => cstr (bytes s) p l) argv ls /\ Z.of_nat (length (spaced ls)) < 2 ^ 31.

Lemma spaced_cons l ls : spaced (l :: ls) = l ++ [32] ++ spaced ls.
Proof. unfold spaced. cbn. by rewrite <- app_assoc. Qed.

Lemma join_size_ok s argv ls n :
  argv_ok s argv ls -> 0 <= n -> n + Z.of_nat (length (spaced ls)) < 2 ^ 31 ->
  join_size argv n s = Ret (n + Z.of_nat (length (spaced ls))) s.
Proof.
  intros [Hf Hlen]. revert n Hlen. induction Hf as [|p l argv ls Hp Hf IH]; intros n Hlen H0 Hn; cbn [join_size].
  - cbn. by rewrite Z.add_0_r.
  - rewrite spaced_cons, !length_app in *. cbn [length] in *.
    run (rd_ok (strlen p) s _ (strlen_ok p _ l Hp ltac:(lia))).
    rewrite (s32_small (Z.of_nat (length l) + 1)), s32_small by lia.
    rewrite IH by lia. f_equal. lia.
Qed.

(** No string of [argv] touches the [n] bytes at [d]. *)
Definition apart (d n : Z) (argv : list Z) (ls : list (list Z)) : Prop :=
  Forall2 (fun p l => d + n <= p \/ p + Z.of_nat (length l) < d) argv ls.

Definition holds_at (m : mem) (a : Z) (l : list Z) : Prop :=
  forall i x, l !! i = Some x -> m !! (a + Z.of_nat i) = Some x.

Lemma holds_at_app m a l1 l2 :
  holds_at m a l1 -> holds_at m (a + Z.of_nat (length l1)) l2 -> holds_at m a (l1 ++ l2).
Proof.
  intros H1 H2 i x Hx. apply lookup_app_Some in Hx as [Hx|[Hl Hx]]; [by apply H1|].
  apply H2 in Hx. by replace (a + Z.of_nat (length l1) + Z.of_nat (i - length l1)) with (a + Z.of_nat i) in Hx by lia.
Qed.

Lemma holds_at_frame m m' a l :
  (forall x, a <= x < a + Z.of_nat (length l) -> m' !! x = m !! x) -> holds_at m a l -> holds_at m' a l.
Proof.
  intros He Hh i x Hx. rewrite He; [by apply Hh|]. apply lookup_lt_Some in Hx. lia.
Qed.

Lemma cstr_holds m a l : cstr m a l -> holds_at m a l /\ m !! (a + Z.of_nat (length l)) = Some 0 /\ Forall (fun x => x <> 0) l.
Proof.
  revert a. induction l as [|x l IH]; intros a; cbn [cstr length].
  - intros Hc. rewrite Z.add_0_r. split_and!; [|done|constructor]. intros i x Hx. done.
  - intros (Hx & Hne & Hc). destruct (IH _ Hc) as (H1 & H2 & H3). split_and!.
    + intros [|i] y Hy; [injection Hy as <-; by rewrite Z.add_0_r|].
      apply H1 in Hy. by replace (a + Z.of_nat (S i)) with (a + 1 + Z.of_nat i) by lia.
    + by replace (a + Z.of_nat (S (length l))) with (a + 1 + Z.of_nat (length l)) by lia.
    + by constructor.
Qed.

Lemma holds_cstr m a l :
  holds_at m a l -> m !! (a + Z.of_nat (length l)) = Some 0 -> Forall (fun x => x <> 0) l -> cstr m a l.
Proof.
  revert a. induction l as [|x l IH]; intros a Hh Hz Hn; cbn [cstr length] in *.
  - by rewrite Z.add_0_r in Hz.
  - inversion Hn; subst. split_and!; [|done|].
    + pose proof (Hh O x eq_refl) as Hx. by rewrite Z.add_0_r in Hx.
    + apply IH; [|by replace (a + 1 + Z.of_nat (length l)) with (a + Z.of_nat (S (length l))) by lia|done].
      intros i y Hy. replace (a + 1 + Z.of_nat i) with (a + Z.of_nat (S i)) by lia. by apply Hh.
Qed.

(** One string and its space: the bytes it leaves, and that no other byte
    changes. *)
Lemma join_one d p l m :
  cstr m p l -> mapped m d (Z.of_nat (length l) + 1) ->
  (d + (Z.of_nat (length l) + 1) <= p \/ p + Z.of_nat (length l) < d) ->
  exists m1, safestrcpy d p (Z.of_nat (length l) + 1) m = Some m1 /\
    st m1 (d + Z.of_nat (length l)) 32 = Some (<[d + Z.of_nat (length l) := 32]> m1) /\
    holds_at (<[d + Z.of_nat (length l) := 32]> m1) d (l ++ [32]) /\
    forall a, ~ (d <= a <= d + Z.of_nat (length l)) -> <[d + Z.of_nat (length l) := 32]> m1 !! a = m !! a.
Proof.
  intros Hc Hm Hd. destruct (safestrcpy_ok d p (Z.of_nat (length l) + 1) m l) as (m1 & E1 & Hc1 & Hfr); [lia|done|done|lia|].
  replace (Z.to_nat (Z.of_nat (length l) + 1 - 1)) with (length l) in Hc1 by lia. rewrite firstn_all in Hc1.
  destruct (cstr_holds _ _ _ Hc1) as (Hh & Hz & _). exists m1. split_and!; [done| | |].
  - apply st_ok. by rewrite Hz.
  - apply holds_at_app.
    + revert Hh. apply holds_at_frame. intros x Hx. apply lookup_insert_ne. lia.
    + intros [|i] x Hx; [|done]. injection Hx as <-. rewrite Z.add_0_r. apply lookup_insert_eq.
  - intros a Ha. rewrite lookup_insert_ne by lia. apply Hfr. lia.
Qed.

Lemma argv_frame m m' lo hi argv ls :
  Forall2 (fun p l => cstr m p l) argv ls ->
  Forall2 (fun p l => hi < p \/ p + Z.of_nat (length l) < lo) argv ls ->
  (forall a, ~ (lo <= a <= hi) -> m' !! a = m !! a) ->
  Forall2 (fun p l => cstr m' p l) argv ls.
Proof.
  intros Hf Ha Hfr. induction Hf as [|p l argv ls Hp Hf IH]; [constructor|].
  inversion Ha; subst. constructor; [|by apply IH]. revert Hp. apply cstr_frame.
  intros x Hx. apply Hfr. lia.
Qed.

Lemma join_copy_ok argv ls d s :
  Forall2 (fun p l => cstr (bytes s) p l) argv ls -> mapped (bytes s) d (Z.of_nat (length (spaced ls))) ->
  Z.of_nat (length (spaced ls)) < 2 ^ 31 -> apart d (Z.of_nat (length (spaced ls))) argv ls ->
  exists m, join_copy argv d s = Ret (d + Z.of_nat (length (spaced ls))) (set_bytes m s) /\
    holds_at m d (spaced ls) /\
    forall a, ~ (d <= a < d + Z.of_nat (length (spaced ls))) -> m !! a = bytes s !! a.
Proof.
  intros Hf. revert d s Hf. revert ls. induction argv as [|p argv IH]; intros ls d s Hf Hm Hlen Hap.
  - inversion Hf; subst. exists (bytes s). cbn. rewrite Z.add_0_r. split_and!; [by destruct s|done|done].
  - inversion Hf as [|? l ? ls' Hp Hf']; subst. inversion Hap as [|? ? ? ? Hd Hap']; subst. cbn [join_copy].
    rewrite spaced_cons in *. rewrite !length_app in *. cbn [length] in *.
    destruct (join_one d p l (bytes s)) as (m1 & E1 & E2 & Hh1 & Hfr1);
      [done|intros i Hi; apply Hm; lia|lia|].
    run (rd_ok (strlen p) s _ (strlen_ok p _ l Hp ltac:(lia))). rewrite s32_small by lia.
    run (wr_ok _ s _ E1). run (wr_ok (fun m => st m (d + Z.of_nat (length l)) 32) (set_bytes m1 s) _ E2).
    set (m2 := <[d + Z.of_nat (length l) := 32]> m1) in *.
    destruct (IH ls' (d + Z.of_nat (length l) + 1) (set_bytes m2 s)) as (m & E3 & Hh & Hfr); cbn [bytes set_bytes].
    + apply (argv_frame (bytes s) m2 d (d + Z.of_nat (length l))); [done| |done].
      eapply Forall2_impl; [|exact Hap']. cbn. intros; lia.
    + intros i Hi. destruct (decide (d <= d + Z.of_nat (length l) + 1 + i <= d + Z.of_nat (length l))); [lia|].
      rewrite Hfr1 by done. replace (d + Z.of_nat (length l) + 1 + i) with (d + (Z.of_nat (length l) + 1 + i)) by lia.
      apply Hm. lia.
    + lia.
    + eapply Forall2_impl; [|exact Hap']. cbn. intros; lia.
    + exists m. split_and!.
      * change (set_bytes m2 (set_bytes m1 s)) with (set_bytes m2 s). rewrite E3. f_equal. lia.
      * rewrite app_assoc. apply holds_at_app.
        -- revert Hh1. apply holds_at_frame. rewrite length_app. cbn [length]. intros x Hx. apply Hfr. lia.
        -- rewrite length_app. cbn [length]. by replace (d + Z.of_nat (length l + 1)) with (d + Z.of_nat (length l) + 1) by lia.
      * intros a Ha. rewrite Hfr by lia. apply Hfr1. lia.
Qed.
End Strings.

Lemma spaced_nonempty ls : ls <> [] -> exists l, spaced ls = l ++ [32].
Proof.
  intros Hne. destruct (exists_last Hne) as (ls' & l & ->). exists (spaced ls' ++ l).
  unfold spaced. rewrite fmap_app, concat_app. cbn. by rewrite app_nil_r, app_assoc.
Qed.

Lemma spaced_nonzero {E} `{HasCtx E} (s : smem E) argv ls :
  Forall2 (fun p l => cstr (bytes s) p l) argv ls -> Forall (fun x => x <> 0) (spaced ls).
Proof.
  intros Hf. induction Hf as [|p l argv ls Hp Hf IH]; [constructor|]. rewrite spaced_cons.
  apply Forall_app. split; [by destruct (cstr_holds _ _ _ Hp) as (_ & _ & ?)|]. by constructor.
Qed.

(** [strjoin] of a nonempty vector of strings returns, when memory is
    available, a fresh block with the strings separated by single spaces, and
    writes nothing outside the bytes it asked for. *)
Theorem strjoin_spec {E : Type} `{HasCtx E} `{!Alloc E} (s : smem E) (argv : list Z) (ls : list (list Z))
    (p : Z) (h : E) :
  ls <> [] -> argv_ok s argv ls ->
  malloc (Z.of_nat (length (spaced ls))) (heap s) = Ret p h ->
  mapped (bytes s) p (Z.of_nat (length (spaced ls))) ->
  apart p (Z.of_nat (length (spaced ls))) argv ls ->
  exists m, strjoin argv s = Ret p {| bytes := m; heap := h |} /\ cstr m p (joined ls) /\
    forall a, ~ (p <= a < p + Z.of_nat (length (spaced ls))) -> m !! a = bytes s !! a.
Proof.
  intros Hne Hok Hmal Hmap Hap. pose proof Hok as [Hf Hlen]. unfold strjoin.
  run (join_size_ok s argv ls 0 Hok ltac:(lia) ltac:(lia)). rewrite Z.add_0_l, u64_small by lia.
  run (on_heap_ok _ s _ _ Hmal).
  destruct (join_copy_ok argv ls p (set_heap h s) Hf Hmap Hlen Hap) as (m & E1 & Hh & Hfr). run E1.
  pose proof (spaced_nonzero s argv ls Hf) as Hnz. unfold joined.
  destruct (spaced_nonempty ls Hne) as [l El]. rewrite El, length_app in *. cbn [length] in *.
  assert (Hst : st m (p + Z.of_nat (length l + 1) - 1) 0 = Some (<[p + Z.of_nat (length l) := 0]> m)).
  { replace (p + Z.of_nat (length l + 1) - 1) with (p + Z.of_nat (length l)) by lia. apply st_ok.
    rewrite (Hh (length l) 32); [done|]. by rewrite lookup_app_r, Nat.sub_diag by lia. }
  run (wr_ok (fun m => st m (p + Z.of_nat (length l + 1) - 1) 0) (set_bytes m (set_heap h s)) _ Hst).
  eexists. split; [done|]. split.
  - rewrite removelast_last. apply holds_cstr.
    + intros i x Hx. pose proof (lookup_lt_Some _ _ _ Hx). rewrite lookup_insert_ne by lia.
      apply Hh. by apply lookup_app_l_Some.
    + apply lookup_insert_eq.
    + by apply Forall_app in Hnz as [? _].
  - intros a Ha. rewrite lookup_insert_ne by lia. by apply Hfr.
Qed.

(** The strings "a" and "b", and a small heap. *)
Definition sm0 : smem buddy :=
  {| bytes := bytes_at 100 [97; 0; 98; 0] ∪ bytes_at 66063 (replicate 17 7); heap := heap0 |}.

Lemma heap0_malloc4 n : n = 0 \/ n = 4 -> exists h, malloc n (heap sm0) = Ret 66064 h.
Proof.
  intros Hn. change (malloc n (heap sm0)) with (bd_malloc n heap0).
  assert (Hv : match bd_malloc n heap0 with Ret p _ => p =? 66064 | _ => false end = true)
    by (destruct Hn as [-> | ->]; vm_compute; reflexivity).
  destruct (bd_malloc n heap0) as [p h| | | |]; try discriminate Hv.
  apply Z.eqb_eq in Hv as ->. by exists h.
Qed.

Lemma sm0_mapped : mapped (bytes sm0) 66063 17.
Proof.
  intros i Hi. cbn [bytes sm0]. apply lookup_union_is_Some. right. by apply (mapped_bytes_at 66063 (replicate 17 7) 17).
Qed.

Lemma strjoin_spec_witness :
  exists m h, strjoin [100; 102] sm0 = Ret 66064 {| bytes := m; heap := h |} /\ cstr m 66064 [97; 32; 98].
Proof.
  destruct (heap0_malloc4 4 ltac:(by right)) as [h Hh].
  destruct (strjoin_spec sm0 [100; 102] [[97]; [98]] 66064 h) as (m & E & Hc & _).
  - discriminate.
  - split; [|done]. repeat constructor; vm_compute; repeat split; discriminate.
  - exact Hh.
  - intros i Hi. replace (66064 + i) with (66063 + (i + 1)) by lia. apply sm0_mapped. cbn in Hi. lia.
  - repeat constructor; right; cbn; lia.
  - exists m, h. split; [exact E|exact Hc].
Defined.

(** [strjoin] of an empty vector writes a zero to the byte before the
    block it allocates: memory that belongs to somebody else. *)
Theorem strjoin_empty_underflow {E : Type} `{HasCtx E} `{!Alloc E} (s : smem E) (p : Z) (h : E) :
  malloc 0 (heap s) = Ret p h -> is_Some (bytes s !! (p - 1)) ->
  strjoin [] s = Ret p {| bytes := <[p - 1 := 0]> (bytes s); heap := h |}.
Proof.
  intros Hmal Hm. unfold strjoin. cbn [join_size]. mstep. change (u64 0) with 0.
  run (on_heap_ok _ s _ _ Hmal). cbn [join_copy]. mstep.
  run (wr_ok (fun m => st m (p - 1) 0) (set_heap h s) _ (st_ok _ _ _ Hm)). done.
Qed.

Lemma strjoin_empty_underflow_witness :
  exists h, strjoin [] sm0 = Ret 66064 {| bytes := <[66063 := 0]> (bytes sm0); heap := h |}.
Proof.
  destruct (heap0_malloc4 0 ltac:(by left)) as [h Hh]. exists h.
  apply (strjoin_empty_underflow sm0 66064 h); [exact Hh|]. apply (sm0_mapped 0). lia.
Defined.
