(* ===== verification/Proc.v ===== *)
(** * kernel/proc.c: processes and the scheduler

    The state is the process table, the priority queues (linked lists of
    [list_proc] nodes in memory, one per priority), [nextpid], [initproc], the
    process this CPU runs, and the rest of the kernel [E], of which only the
    operations of the interface [ProcEnv] are used: memory, page tables, files.

    A pointer to [proc[i]] is the number [pptr i], negative so that it differs
    from every other address; the null pointer is 0.  [swtch] leaves the
    current thread: it is the outcome [Sleep], whose continuation runs when the
    thread is switched to again. *)

From S2P Require Import Prelude Riscv AllocI.

Definition NPROC : Z := 64.
Definition NOFILE : Z := 16.
Definition NPRIO : Z := 10.
Definition DEF_PRIO : Z := 5.
Definition ROOTDEV : Z := 0.

(** Words of [struct trapframe], by index. *)
Definition TF_epc : Z := 3.
Definition TF_sp : Z := 6.
Definition TF_a0 : Z := 14.
Definition TF_WORDS : nat := 36.

Inductive procstate := UNUSED | SLEEPING | RUNNABLE | RUNNING | ZOMBIE.

#[export] Instance procstate_eq_dec : EqDecision procstate.
Proof. solve_decision. Defined.

Record proc := mkproc {
  state : procstate;
  parent : Z;
  chan : Z;
  killed : Z;
  xstate : Z;
  pid : Z;
  priority : Z;
  kstack : Z;
  sz : Z;
  pagetable : Z;
  tf : Z;
  context : list Z;      (** ra, sp, s0, ... s11 *)
  ofile : list Z;
  cwd : Z;
  name : list Z;         (** the characters before the terminating zero *)
  cmd : Z
}.

Definition set_state v p := mkproc v (parent p) (chan p) (killed p) (xstate p) (pid p) (priority p) (kstack p) (sz p) (pagetable p) (tf p) (context p) (ofile p) (cwd p) (name p) (cmd p).
Definition set_parent v p := mkproc (state p) v (chan p) (killed p) (xstate p) (pid p) (priority p) (kstack p) (sz p) (pagetable p) (tf p) (context p) (ofile p) (cwd p) (name p) (cmd p).
Definition set_chan v p := mkproc (state p) (parent p) v (killed p) (xstate p) (pid p) (priority p) (kstack p) (sz p) (pagetable p) (tf p) (context p) (ofile p) (cwd p) (name p) (cmd p).
Definition set_killed v p := mkproc (state p) (parent p) (chan p) v (xstate p) (pid p) (priority p) (kstack p) (sz p) (pagetable p) (tf p) (context p) (ofile p) (cwd p) (name p) (cmd p).
Definition set_xstate v p := mkproc (state p) (parent p) (chan p) (killed p) v (pid p) (priority p) (kstack p) (sz p) (pagetable p) (tf p) (context p) (ofile p) (cwd p) (name p) (cmd p).
Definition set_pid v p := mkproc (state p) (parent p) (chan p) (killed p) (xstate p) v (priority p) (kstack p) (sz p) (pagetable p) (tf p) (context p) (ofile p) (cwd p) (name p) (cmd p).
Definition set_priority v p := mkproc (state p) (parent p) (chan p) (killed p) (xstate p) (pid p) v (kstack p) (sz p) (pagetable p) (tf p) (context p) (ofile p) (cwd p) (name p) (cmd p).
Definition set_kstack v p := mkproc (state p) (parent p) (chan p) (killed p) (xstate p) (pid p) (priority p) v (sz p) (pagetable p) (tf p) (context p) (ofile p) (cwd p) (name p) (cmd p).
Definition set_sz v p := mkproc (state p) (parent p) (chan p) (killed p) (xstate p) (pid p) (priority p) (kstack p) v (pagetable p) (tf p) (context p) (ofile p) (cwd p) (name p) (cmd p).
Definition set_pagetable v p := mkproc (state p) (parent p) (chan p) (killed p) (xstate p) (pid p) (priority p) (kstack p) (sz p) v (tf p) (context p) (ofile p) (cwd p) (name p) (cmd p).
Definition set_tf v p := mkproc (state p) (parent p) (chan p) (killed p) (xstate p) (pid p) (priority p) (kstack p) (sz p) (pagetable p) v (context p) (ofile p) (cwd p) (name p) (cmd p).
Definition set_context v p := mkproc (state p) (parent p) (chan p) (killed p) (xstate p) (pid p) (priority p) (kstack p) (sz p) (pagetable p) (tf p) v (ofile p) (cwd p) (name p) (cmd p).
Definition set_ofile v p := mkproc (state p) (parent p) (chan p) (killed p) (xstate p) (pid p) (priority p) (kstack p) (sz p) (pagetable p) (tf p) (context p) v (cwd p) (name p) (cmd p).
Definition set_cwd v p := mkproc (state p) (parent p) (chan p) (killed p) (xstate p) (pid p) (priority p) (kstack p) (sz p) (pagetable p) (tf p) (context p) (ofile p) v (name p) (cmd p).
Definition set_name v p := mkproc (state p) (parent p) (chan p) (killed p) (xstate p) (pid p) (priority p) (kstack p) (sz p) (pagetable p) (tf p) (context p) (ofile p) (cwd p) v (cmd p).
Definition set_cmd v p := mkproc (state p) (parent p) (chan p) (killed p) (xstate p) (pid p) (priority p) (kstack p) (sz p) (pagetable p) (tf p) (context p) (ofile p) (cwd p) (name p) v.

(** struct list_proc: [lp_p] is the index of the process. *)
Record list_proc := { lp_p : Z; lp_next : Z }.

(** &proc[i], and the index of a pointer into the table. *)
Definition pptr (i : Z) : Z := - (i + 1).
Definition slot (p : Z) : Z := - p - 1.

Definition prio_lock : lock := ("prio"%string, 0).
Definition pid_lock : lock := ("pid"%string, 0).
Definition tickslock : lock := ("ticks"%string, 0).
Definition plock (i : Z) : lock := ("proc"%string, i).

(** What proc.c uses of the rest of the kernel. *)
Class ProcEnv (E : Type) `{HasCtx E} := {
  pe_alloc :: Alloc E;
  (** The allocator's lock is none of those of proc.c and trap.c. *)
  pe_lock : fst alloc_lock ∉ ["proc"; "prio"; "pid"; "ticks"; "watchdog"]%string;
  trampoline : Z;
  forkret_addr : Z;
  kvmmap : Z -> Z -> Z -> Z -> M E unit;
  kvminithart : M E unit;
  uvmcreate : M E Z;
  mappages : Z -> Z -> Z -> Z -> Z -> M E Z;
  uvmunmap : Z -> Z -> Z -> Z -> M E unit;
  uvmfree : Z -> Z -> M E unit;
  uvmcopy : Z -> Z -> Z -> M E Z;
  uvmalloc : Z -> Z -> Z -> M E Z;
  uvmdealloc : Z -> Z -> Z -> M E Z;
  uvminit : Z -> list Z -> M E unit;
  copyout : Z -> Z -> list Z -> M E Z;
  filedup : Z -> M E Z;
  fileclose : Z -> M E unit;
  idup : Z -> M E Z;
  iput : Z -> M E unit;
  begin_op : Z -> M E unit;
  end_op : Z -> M E unit;
  namei : string -> M E Z;
  strdup_lit : string -> M E Z;
  strdup_cmd : Z -> M E Z;
  fsinit : Z -> M E unit;
  usertrapret : M E unit
}.

Record pstate (E : Type) := mkps {
  procs : list proc;
  prio : list Z;
  lps : gmap Z list_proc;
  initproc : Z;
  nextpid : Z;
  cur : Z;                 (** mycpu()->proc *)
  first : bool;            (** the static variable of forkret *)
  ticks : Z;
  tfmem : Z -> Z;          (** the words of the trapframe pages *)
  watchdog_value : Z;
  watchdog_time : Z;
  env : E
}.
Arguments mkps {E} _ _ _ _ _ _ _ _ _ _ _ _.
Arguments procs {E} _.
Arguments prio {E} _.
Arguments lps {E} _.
Arguments initproc {E} _.
Arguments nextpid {E} _.
Arguments cur {E} _.
Arguments first {E} _.
Arguments ticks {E} _.
Arguments tfmem {E} _ _.
Arguments watchdog_value {E} _.
Arguments watchdog_time {E} _.
Arguments env {E} _.

Definition set_procs {E} v (s : pstate E) : pstate E := mkps v (prio s) (lps s) (initproc s) (nextpid s) (cur s) (first s) (ticks s) (tfmem s) (watchdog_value s) (watchdog_time s) (env s).
Definition set_prio {E} v (s : pstate E) : pstate E := mkps (procs s) v (lps s) (initproc s) (nextpid s) (cur s) (first s) (ticks s) (tfmem s) (watchdog_value s) (watchdog_time s) (env s).
Definition set_lps {E} v (s : pstate E) : pstate E := mkps (procs s) (prio s) v (initproc s) (nextpid s) (cur s) (first s) (ticks s) (tfmem s) (watchdog_value s) (watchdog_time s) (env s).
Definition set_initproc {E} v (s : pstate E) : pstate E := mkps (procs s) (prio s) (lps s) v (nextpid s) (cur s) (first s) (ticks s) (tfmem s) (watchdog_value s) (watchdog_time s) (env s).
Definition set_nextpid {E} v (s : pstate E) : pstate E := mkps (procs s) (prio s) (lps s) (initproc s) v (cur s) (first s) (ticks s) (tfmem s) (watchdog_value s) (watchdog_time s) (env s).
Definition set_cur {E} v (s : pstate E) : pstate E := mkps (procs s) (prio s) (lps s) (initproc s) (nextpid s) v (first s) (ticks s) (tfmem s) (watchdog_value s) (watchdog_time s) (env s).
Definition set_first {E} v (s : pstate E) : pstate E := mkps (procs s) (prio s) (lps s) (initproc s) (nextpid s) (cur s) v (ticks s) (tfmem s) (watchdog_value s) (watchdog_time s) (env s).
Definition set_ticks {E} v (s : pstate E) : pstate E := mkps (procs s) (prio s) (lps s) (initproc s) (nextpid s) (cur s) (first s) v (tfmem s) (watchdog_value s) (watchdog_time s) (env s).
Definition set_tfmem {E} v (s : pstate E) : pstate E := mkps (procs s) (prio s) (lps s) (initproc s) (nextpid s) (cur s) (first s) (ticks s) v (watchdog_value s) (watchdog_time s) (env s).
Definition set_watchdog_value {E} v (s : pstate E) : pstate E := mkps (procs s) (prio s) (lps s) (initproc s) (nextpid s) (cur s) (first s) (ticks s) (tfmem s) v (watchdog_time s) (env s).
Definition set_watchdog_time {E} v (s : pstate E) : pstate E := mkps (procs s) (prio s) (lps s) (initproc s) (nextpid s) (cur s) (first s) (ticks s) (tfmem s) (watchdog_value s) v (env s).
Definition set_env {E} (v : E) (s : pstate E) : pstate E := mkps (procs s) (prio s) (lps s) (initproc s) (nextpid s) (cur s) (first s) (ticks s) (tfmem s) (watchdog_value s) (watchdog_time s) v.

#[export] Program Instance pstate_ctx {E} `{HasCtx E} : HasCtx (pstate E) :=
  {| cx s := cx (env s); set_cx c s := set_env (set_cx c (env s)) s |}.
Next Obligation. intros. cbn. apply cx_set. Qed.
Next Obligation. intros. cbn. rewrite set_cx_cx. by destruct s. Qed.
Next Obligation. intros. unfold set_env. cbn. by rewrite set_cx_twice. Qed.

Section Proc.
Context {E : Type} `{HasCtx E} `{!ProcEnv E}.
Abbreviation P := (M (pstate E)).

(** The rest of the kernel, and the process table. *)
Definition sys {A} (m : M E A) : P A := zoom env set_env m.

Definition getp (i : Z) : P proc := fun s => unwrap (aget (procs s) i) s.

Definition setp (i : Z) (f : proc -> proc) : P unit :=
  p <- getp i ;;
  l <- (fun s => unwrap (aset (procs s) i (f p)) s) ;;
  modify (set_procs l).

(** ** Priority queues *)

Definition ld_lp (a : Z) : P list_proc := fun s => unwrap (lps s !! a) s.

(** A store to a field of the node at [a]; the null page is not mapped. *)
Definition st_lp_next (a v : Z) : P unit :=
  if a =? 0 then fault else
  modify (fun s => set_lps (<[a := {| lp_p := default 0 (lp_p <$> lps s !! a); lp_next := v |}]> (lps s)) s).
Definition st_lp_p (a v : Z) : P unit :=
  if a =? 0 then fault else
  modify (fun s => set_lps (<[a := {| lp_p := v; lp_next := default 0 (lp_next <$> lps s !! a) |}]> (lps s)) s).

Definition ld_prio (i : Z) : P Z := fun s => unwrap (aget (prio s) i) s.
Definition st_prio (i v : Z) : P unit :=
  l <- (fun s => unwrap (aset (prio s) i v) s) ;; modify (set_prio l).

(** bd_free(old) of a node: its bytes belong to the allocator again. *)
Definition free_lp (a : Z) : P unit :=
  sys (mfree a) ;;; modify (fun s => set_lps (base.delete a (lps s)) s).

(** A queue holds distinct nodes, so a walk ends after at most all of them. *)
Definition lp_fuel (s : pstate E) : nat := S (base.size (lps s)).

(** [while(last && last->next) last = last->next;] *)
Fixpoint find_last (fuel : nat) (last : Z) : P Z :=
  match fuel with
  | O => nofuel
  | S fuel =>
      if last =? 0 then ret last else
      n <- ld_lp last ;;
      if lp_next n =? 0 then ret last else find_last fuel (lp_next n)
  end.

Definition insert_into_prio_queue (p : Z) : P unit :=
  new <- sys (malloc 16) ;;
  st_lp_next new 0 ;;;
  st_lp_p new p ;;;
  pr <- getp p ;;
  head <- ld_prio (priority pr) ;;
  if head =? 0 then st_prio (priority pr) new else
  fuel <- gets lp_fuel ;;
  last <- find_last fuel head ;;
  st_lp_next last new.

(** The loop of [remove_from_prio_queue]; it returns the new head. *)
Fixpoint remove_loop (fuel : nat) (p old prev head : Z) : P Z :=
  match fuel with
  | O => nofuel
  | S fuel =>
      if old =? 0 then ret head else
      n <- ld_lp old ;;
      if lp_p n =? p then
        (if old =? head then free_lp old ;;; ret (lp_next n)
         else st_lp_next prev (lp_next n) ;;; (free_lp old ;;; ret head))
      else remove_loop fuel p (lp_next n) old head
  end.

Definition remove_from_prio_queue (p : Z) : P unit :=
  pr <- getp p ;;
  old <- ld_prio (priority pr) ;;
  fuel <- gets lp_fuel ;;
  head <- remove_loop fuel p old 0 old ;;
  st_prio (priority pr) head.

(** ** Process creation *)

Fixpoint procinit_prio (n : nat) (i : Z) : P unit :=
  match n with
  | O => ret tt
  | S n => st_prio i 0 ;;; procinit_prio n (i + 1)
  end.

Fixpoint procinit_procs (n : nat) (i : Z) : P unit :=
  match n with
  | O => ret tt
  | S n =>
      pa <- sys (malloc PGSIZE) ;;
      if pa =? 0 then panic "kalloc" else
      let va := KSTACK i in
      sys (kvmmap va pa PGSIZE (Z.lor PTE_R PTE_W)) ;;;
      setp i (set_kstack va) ;;;
      procinit_procs n (i + 1)
  end.

Definition procinit : P unit :=
  procinit_prio (Z.to_nat NPRIO) 0 ;;;
  procinit_procs (Z.to_nat NPROC) 0 ;;;
  sys kvminithart.

Definition myproc : P Z :=
  push_off ;;; (p <- gets cur ;; (pop_off ;;; ret p)).

Definition allocpid : P Z :=
  acquire pid_lock ;;;
  pid <- gets nextpid ;;
  modify (fun s => set_nextpid (s32 (nextpid s + 1)) s) ;;;
  release pid_lock ;;;
  ret pid.

Definition proc_pagetable (p : Z) : P Z :=
  pagetable <- sys uvmcreate ;;
  sys (mappages pagetable TRAMPOLINE PGSIZE trampoline (Z.lor PTE_R PTE_X)) ;;;
  pr <- getp p ;;
  sys (mappages pagetable TRAPFRAME PGSIZE (tf pr) (Z.lor PTE_R PTE_W)) ;;;
  ret pagetable.

Definition proc_freepagetable (pagetable sz : Z) : P unit :=
  sys (uvmunmap pagetable TRAMPOLINE PGSIZE 0) ;;;
  sys (uvmunmap pagetable TRAPFRAME PGSIZE 0) ;;;
  when (0 <? sz) (sys (uvmfree pagetable sz)).

(** The search of [allocproc] from index [i], with [n] entries left: the index
    found, its lock held, or -1. *)
Fixpoint alloc_scan (n : nat) (i : Z) : P Z :=
  match n with
  | O => ret (-1)
  | S n =>
      acquire (plock i) ;;;
      p <- getp i ;;
      if decide (state p = UNUSED) then ret i
      else release (plock i) ;;; alloc_scan n (i + 1)
  end.

(** The index of the new process, or -1 for the null pointer. *)
Definition allocproc : P Z :=
  i <- alloc_scan (Z.to_nat NPROC) 0 ;;
  if i <? 0 then ret (-1) else
  pid <- allocpid ;;
  setp i (set_pid pid) ;;;
  tf <- sys (malloc PGSIZE) ;;
  setp i (set_tf tf) ;;;
  if tf =? 0 then release (plock i) ;;; ret (-1) else
  pt <- proc_pagetable i ;;
  setp i (set_pagetable pt) ;;;
  setp i (set_priority DEF_PRIO) ;;;
  p <- getp i ;;
  setp i (set_context (forkret_addr :: (kstack p + PGSIZE) :: replicate 12 0)) ;;;
  ret i.

Definition freeproc (i : Z) : P unit :=
  p <- getp i ;;
  when (negb (tf p =? 0)) (sys (mfree (tf p))) ;;;
  setp i (set_tf 0) ;;;
  when (negb (pagetable p =? 0)) (proc_freepagetable (pagetable p) (sz p)) ;;;
  when (negb (cmd p =? 0)) (sys (mfree (cmd p))) ;;;
  setp i (fun p => set_state UNUSED (set_xstate 0 (set_killed 0 (set_chan 0 (set_name [] (set_parent 0
    (set_pid 0 (set_sz 0 (set_pagetable 0 (set_priority 0 (set_cmd 0 p))))))))))).

(** Words of the trapframe of a process. *)
Definition tf_set (a k v : Z) : P unit :=
  modify (fun s => set_tfmem (fun x => if x =? a + 8 * k then v else tfmem s x) s).

(** [*(np->tf) = *(p->tf);] *)
Fixpoint tf_copy (n : nat) (dst src : Z) : P unit :=
  match n with
  | O => ret tt
  | S n =>
      v <- gets (fun s => tfmem s (src + 8 * Z.of_nat n)) ;;
      tf_copy n dst src ;;;
      tf_set dst (Z.of_nat n) v
  end.

(** The bytes of the array [initcode]. *)
Definition initcode : list Z :=
  [0x17; 0x05; 0x00; 0x00; 0x13; 0x05; 0x05; 0x02; 0x97; 0x05; 0x00; 0x00; 0x93; 0x85; 0x05; 0x02;
   0x9d; 0x48; 0x73; 0x00; 0x00; 0x00; 0x89; 0x48; 0x73; 0x00; 0x00; 0x00; 0xef; 0xf0; 0xbf; 0xff;
   0x2f; 0x69; 0x6e; 0x69; 0x74; 0x00; 0x00; 0x01; 0x20; 0x00; 0x00; 0x00; 0x00; 0x00; 0x00; 0x00;
   0x00; 0x00; 0x00].

(** The characters of "initcode". *)
Definition initcode_name : list Z := [105; 110; 105; 116; 99; 111; 100; 101].

Definition userinit : P unit :=
  i <- allocproc ;;
  modify (set_initproc (if i <? 0 then 0 else pptr i)) ;;;
  p <- getp i ;;
  sys (uvminit (pagetable p) initcode) ;;;
  setp i (set_sz PGSIZE) ;;;
  tf_set (tf p) TF_epc 0 ;;;
  tf_set (tf p) TF_sp PGSIZE ;;;
  setp i (set_name initcode_name) ;;;
  c <- sys (strdup_lit "init") ;;
  setp i (set_cmd c) ;;;
  d <- sys (namei "/") ;;
  setp i (set_cwd d) ;;;
  setp i (set_state RUNNABLE) ;;;
  acquire prio_lock ;;;
  insert_into_prio_queue i ;;;
  release (plock i) ;;;
  release prio_lock.

Definition growproc (n : Z) : P Z :=
  me <- myproc ;;
  p <- getp (slot me) ;;
  let sz0 := u32 (sz p) in
  if 0 <? n then
    sz1 <- sys (uvmalloc (pagetable p) sz0 (u32 (sz0 + n))) ;;
    (if u32 sz1 =? 0 then ret (-1) else setp (slot me) (set_sz (u32 sz1)) ;;; ret 0)
  else if n <? 0 then
    sz1 <- sys (uvmdealloc (pagetable p) sz0 (u32 (sz0 + n))) ;;
    setp (slot me) (set_sz (u32 sz1)) ;;; ret 0
  else
    setp (slot me) (set_sz sz0) ;;; ret 0.

(** The loop of [fork] over the open files of the parent [i]. *)
Fixpoint fork_files (n : nat) (fd i np : Z) : P unit :=
  match n with
  | O => ret tt
  | S n =>
      p <- getp i ;;
      f <- unwrap (aget (ofile p) fd) ;;
      (if f =? 0 then ret tt else
       g <- sys (filedup f) ;;
       c <- getp np ;;
       l <- unwrap (aset (ofile c) fd g) ;;
       setp np (set_ofile l)) ;;;
      fork_files n (fd + 1) i np
  end.

Definition fork : P Z :=
  me <- myproc ;;
  np <- allocproc ;;
  if np <? 0 then ret (-1) else
  p <- getp (slot me) ;;
  n <- getp np ;;
  r <- sys (uvmcopy (pagetable p) (pagetable n) (sz p)) ;;
  if r <? 0 then freeproc np ;;; (release (plock np) ;;; ret (-1)) else
  setp np (set_sz (sz p)) ;;;
  setp np (set_parent me) ;;;
  tf_copy TF_WORDS (tf n) (tf p) ;;;
  tf_set (tf n) TF_a0 0 ;;;
  fork_files (Z.to_nat NOFILE) 0 (slot me) np ;;;
  d <- sys (idup (cwd p)) ;;
  setp np (set_cwd d) ;;;
  setp np (set_name (take 15 (name p))) ;;;
  c <- sys (strdup_cmd (cmd p)) ;;
  setp np (set_cmd c) ;;;
  n <- getp np ;;
  let pid := pid n in
  setp np (set_state RUNNABLE) ;;;
  acquire prio_lock ;;;
  insert_into_prio_queue np ;;;
  release prio_lock ;;;
  release (plock np) ;;;
  ret pid.

(** ** Giving up the CPU *)

(** [swtch]: leave the CPU in the current state; what follows runs when this
    context is switched to again. *)
Definition swtch (chan : Z) : P unit := fun s => Sleep chan s (fun s' => Ret tt s').

Definition set_intena (b : bool) : P unit :=
  modify (fun s => set_cx {| noff := noff (cx s); intena := b; intr := intr (cx s); held := held (cx s);
    mypid := mypid (cx s); mykilled := mykilled (cx s) |} s).
Definition intr_set (b : bool) : P unit :=
  modify (fun s => set_cx {| noff := noff (cx s); intena := intena (cx s); intr := b; held := held (cx s);
    mypid := mypid (cx s); mykilled := mykilled (cx s) |} s).

Definition sched : P unit :=
  me <- myproc ;;
  h <- gets (holds (plock (slot me))) ;;
  if negb h then panic "sched p->lock" else
  c <- gets cx ;;
  if negb (noff c =? 1) then panic "sched locks" else
  p <- getp (slot me) ;;
  if decide (state p = RUNNING) then panic "sched running" else
  if intr c then panic "sched interruptible" else
  let intena := intena c in
  swtch (chan p) ;;;
  set_intena intena.

Definition yield : P unit :=
  me <- myproc ;;
  acquire (plock (slot me)) ;;;
  setp (slot me) (set_state RUNNABLE) ;;;
  sched ;;;
  release (plock (slot me)).

Definition forkret : P unit :=
  me <- myproc ;;
  release (plock (slot me)) ;;;
  f <- gets first ;;
  (if f : bool then modify (set_first false) ;;; sys (fsinit ROOTDEV) else ret tt) ;;;
  sys usertrapret.

Definition sleep (chan : Z) (lk : lock) : P unit :=
  me <- myproc ;;
  let i := slot me in
  (if decide (lk = plock i) then ret tt else acquire (plock i) ;;; release lk) ;;;
  setp i (set_chan chan) ;;;
  setp i (set_state SLEEPING) ;;;
  sched ;;;
  setp i (set_chan 0) ;;;
  (if decide (lk = plock i) then ret tt else release (plock i) ;;; acquire lk).

(** The loop of [wakeup] from index [i], with [n] entries left. *)
Fixpoint wakeup_loop (n : nat) (i c : Z) : P unit :=
  match n with
  | O => ret tt
  | S n =>
      acquire (plock i) ;;;
      p <- getp i ;;
      (if decide (state p = SLEEPING /\ chan p = c) then setp i (set_state RUNNABLE) else ret tt) ;;;
      release (plock i) ;;;
      wakeup_loop n (i + 1) c
  end.

Definition wakeup (chan : Z) : P unit := wakeup_loop (Z.to_nat NPROC) 0 chan.

Definition wakeup1 (i : Z) : P unit :=
  h <- gets (holds (plock i)) ;;
  if negb h then panic "wakeup1" else
  p <- getp i ;;
  if decide (chan p = pptr i /\ state p = SLEEPING) then setp i (set_state RUNNABLE) else ret tt.

Fixpoint kill_loop (n : nat) (i pd : Z) : P Z :=
  match n with
  | O => ret (-1)
  | S n =>
      acquire (plock i) ;;;
      p <- getp i ;;
      if pid p =? pd then
        setp i (set_killed 1) ;;;
        (if decide (state p = SLEEPING) then setp i (set_state RUNNABLE) else ret tt) ;;;
        release (plock i) ;;;
        ret 0
      else
        release (plock i) ;;;
        kill_loop n (i + 1) pd
  end.

Definition kill (pid : Z) : P Z := kill_loop (Z.to_nat NPROC) 0 pid.

Fixpoint nice_loop (n : nat) (i pd prio : Z) : P Z :=
  match n with
  | O => ret 0
  | S n =>
      p <- getp i ;;
      if pid p =? pd then
        remove_from_prio_queue i ;;;
        setp i (set_priority prio) ;;;
        insert_into_prio_queue i ;;;
        ret 1
      else nice_loop n (i + 1) pd prio
  end.

Definition nice (pid priority : Z) : P Z := nice_loop (Z.to_nat NPROC) 0 pid priority.

(** ** Exit and wait *)

Fixpoint reparent_loop (n : nat) (i p : Z) : P unit :=
  match n with
  | O => ret tt
  | S n =>
      pp <- getp i ;;
      (if parent pp =? p then
         acquire (plock i) ;;;
         ip <- gets initproc ;;
         setp i (set_parent ip) ;;;
         release (plock i)
       else ret tt) ;;;
      reparent_loop n (i + 1) p
  end.

Definition reparent (p : Z) : P unit := reparent_loop (Z.to_nat NPROC) 0 p.

Fixpoint close_files (n : nat) (fd i : Z) : P unit :=
  match n with
  | O => ret tt
  | S n =>
      p <- getp i ;;
      f <- unwrap (aget (ofile p) fd) ;;
      (if f =? 0 then ret tt else
       sys (fileclose f) ;;;
       p <- getp i ;;
       l <- unwrap (aset (ofile p) fd 0) ;;
       setp i (set_ofile l)) ;;;
      close_files n (fd + 1) i
  end.

(** The part of [exit] that removes the process from its queue, and the part
    that makes it a zombie. *)
Definition exit_dequeue (i : Z) : P unit :=
  acquire prio_lock ;;;
  acquire (plock i) ;;;
  remove_from_prio_queue i ;;;
  release (plock i) ;;;
  release prio_lock.

Definition exit_zombie (i status : Z) : P unit :=
  acquire (plock i) ;;;
  p <- getp i ;;
  let original_parent := parent p in
  release (plock i) ;;;
  acquire (plock (slot original_parent)) ;;;
  acquire (plock i) ;;;
  reparent (pptr i) ;;;
  wakeup1 (slot original_parent) ;;;
  setp i (set_xstate status) ;;;
  setp i (set_state ZOMBIE) ;;;
  release (plock (slot original_parent)).

Definition exit (status : Z) : P unit :=
  me <- myproc ;;
  let i := slot me in
  ip <- gets initproc ;;
  if me =? ip then panic "init exiting" else
  close_files (Z.to_nat NOFILE) 0 i ;;;
  sys (begin_op ROOTDEV) ;;;
  p <- getp i ;;
  sys (iput (cwd p)) ;;;
  sys (end_op ROOTDEV) ;;;
  setp i (set_cwd 0) ;;;
  ip <- gets initproc ;;
  acquire (plock (slot ip)) ;;;
  wakeup1 (slot ip) ;;;
  release (plock (slot ip)) ;;;
  exit_dequeue i ;;;
  exit_zombie i status ;;;
  sched ;;;
  panic "zombie exit".

(** The bytes of a 32-bit integer, as copyout sends them. *)
Definition int_bytes (z : Z) : list Z :=
  (fun k => Z.shiftr (u32 z) (8 * k) mod 256) <$> [0; 1; 2; 3].

(** One scan of the table in [wait] for the process [i]: the value to return,
    or whether there are children.  The locks taken are released, p->lock too
    when there is a value to return. *)
Inductive scan := Done (r : Z) | Kids (b : bool).

Fixpoint wait_scan (n : nat) (j i addr : Z) (havekids : bool) : P scan :=
  match n with
  | O => ret (Kids havekids)
  | S n =>
      np <- getp j ;;
      if parent np =? pptr i then
        acquire (plock j) ;;;
        np <- getp j ;;
        if decide (state np = ZOMBIE) then
          p <- getp i ;;
          r <- (if addr =? 0 then ret 0 else sys (copyout (pagetable p) addr (int_bytes (xstate np)))) ;;
          if r <? 0 then
            release (plock j) ;;; (release (plock i) ;;; ret (Done (-1)))
          else
            freeproc j ;;; (release (plock j) ;;; (release (plock i) ;;; ret (Done (pid np))))
        else
          release (plock j) ;;;
          wait_scan n (j + 1) i addr true
      else wait_scan n (j + 1) i addr havekids
  end.

(** The endless loop of [wait], at most [fuel] times. *)
Fixpoint wait_loop (fuel : nat) (i addr : Z) : P Z :=
  match fuel with
  | O => nofuel
  | S fuel =>
      r <- wait_scan (Z.to_nat NPROC) 0 i addr false ;;
      match r with
      | Done v => ret v
      | Kids havekids =>
          p <- getp i ;;
          if negb havekids || negb (killed p =? 0) then
            release (plock i) ;;; ret (-1)
          else
            sleep (pptr i) (plock i) ;;;
            wait_loop fuel i addr
      end
  end.

Definition wait (fuel : nat) (addr : Z) : P Z :=
  me <- myproc ;;
  acquire (plock (slot me)) ;;;
  wait_loop fuel (slot me) addr.

(** ** The scheduler *)

(** The walk along one queue: the first runnable process, its lock held. *)
Fixpoint pick_queue (fuel : nat) (l : Z) : P (option Z) :=
  match fuel with
  | O => nofuel
  | S fuel =>
      if l =? 0 then ret None else
      n <- ld_lp l ;;
      p <- getp (lp_p n) ;;
      if decide (state p = RUNNABLE) then
        acquire (plock (lp_p n)) ;;; ret (Some (lp_p n))
      else pick_queue fuel (lp_next n)
  end.

Fixpoint pick_prio (n : nat) (i : Z) : P (option Z) :=
  match n with
  | O => ret None
  | S n =>
      l <- ld_prio i ;;
      fuel <- gets lp_fuel ;;
      r <- pick_queue fuel l ;;
      match r with
      | Some p => ret (Some p)
      | None => pick_prio n (i + 1)
      end
  end.

Definition pick_highest_priority_runnable_proc : P (option Z) :=
  acquire prio_lock ;;;
  r <- pick_prio (Z.to_nat NPRIO) 0 ;;
  match r with
  | Some p => ret (Some p)
  | None => release prio_lock ;;; ret None
  end.

(** The body of the endless loop of [scheduler], up to the switch to the
    process it picked, and after that process has switched back. *)
Definition scheduler_pick : P (option Z) :=
  intr_set true ;;;
  intr_set false ;;;
  r <- pick_highest_priority_runnable_proc ;;
  match r with
  | None => ret None
  | Some p =>
      setp p (set_state RUNNING) ;;;
      modify (set_cur (pptr p)) ;;;
      remove_from_prio_queue p ;;;
      insert_into_prio_queue p ;;;
      release prio_lock ;;;
      ret (Some p)
  end.

Definition scheduler_done (p : Z) : P unit :=
  modify (set_cur 0) ;;;
  set_intena false ;;;
  release (plock p).

Definition scheduler_body : P unit :=
  r <- scheduler_pick ;;
  match r with
  | None => ret tt
  | Some p => swtch 0 ;;; scheduler_done p
  end.

(** The process ids along one queue, as [priodump] prints them. *)
Fixpoint dump_queue (fuel : nat) (l : Z) : P (list Z) :=
  match fuel with
  | O => nofuel
  | S fuel =>
      if l =? 0 then ret [] else
      n <- ld_lp l ;;
      p <- getp (lp_p n) ;;
      r <- dump_queue fuel (lp_next n) ;;
      ret (pid p :: r)
  end.

Fixpoint priodump_loop (n : nat) (i : Z) : P (list (list Z)) :=
  match n with
  | O => ret []
  | S n =>
      l <- ld_prio i ;;
      fuel <- gets lp_fuel ;;
      q <- dump_queue fuel l ;;
      r <- priodump_loop n (i + 1) ;;
      ret (q :: r)
  end.

Definition priodump : P (list (list Z)) := priodump_loop (Z.to_nat NPRIO) 0.

(** ** kernel/sysproc.c

    The arguments of a system call are the registers a0, a1, ... of the
    trapframe (argraw in syscall.c). *)

Definition argraw (n : Z) : P Z :=
  me <- myproc ;;
  p <- getp (slot me) ;;
  if (0 <=? n) && (n <? 6) then gets (fun s => tfmem s (tf p + 8 * (TF_a0 + n)))
  else panic "argraw".

Definition argint (n : Z) : P Z := v <- argraw n ;; ret (s32 v).
Definition argaddr (n : Z) : P Z := v <- argraw n ;; ret (u64 v).

Definition sys_exit : P Z := n <- argint 0 ;; exit n ;;; ret 0.

Definition sys_getpid : P Z := me <- myproc ;; p <- getp (slot me) ;; ret (pid p).

Definition sys_fork : P Z := r <- fork ;; ret (u64 r).

Definition sys_wait (fuel : nat) : P Z := a <- argaddr 0 ;; r <- wait fuel a ;; ret (u64 r).

Definition sys_sbrk : P Z :=
  n <- argint 0 ;;
  me <- myproc ;;
  p <- getp (slot me) ;;
  let addr := s32 (sz p) in
  r <- growproc n ;;
  if r <? 0 then ret (u64 (-1)) else ret (u64 addr).

(** The address of the variable [ticks], as a channel. *)
Definition ticks_chan : Z := 1.

Fixpoint sys_sleep_loop (fuel : nat) (ticks0 n : Z) : P Z :=
  match fuel with
  | O => nofuel
  | S fuel =>
      t <- gets ticks ;;
      if u32 (t - ticks0) <? u32 n then
        me <- myproc ;;
        p <- getp (slot me) ;;
        if negb (killed p =? 0) then release tickslock ;;; ret (u64 (-1))
        else sleep ticks_chan tickslock ;;; sys_sleep_loop fuel ticks0 n
      else release tickslock ;;; ret 0
  end.

Definition sys_sleep (fuel : nat) : P Z :=
  n <- argint 0 ;;
  acquire tickslock ;;;
  t <- gets ticks ;;
  sys_sleep_loop fuel t n.

Definition sys_nice : P Z :=
  pid <- argint 0 ;;
  priority <- argint 1 ;;
  if (priority <? 0) || (NPRIO <=? priority) then ret (u64 (-1))
  else r <- nice pid priority ;; ret (u64 r).

Definition sys_kill : P Z := pid <- argint 0 ;; r <- kill pid ;; ret (u64 r).

Definition sys_uptime : P Z :=
  acquire tickslock ;;;
  t <- gets ticks ;;
  release tickslock ;;;
  ret t.

(** ** The clock and the watchdog: clockintr of kernel/trap.c and
    kernel/watchdog.c *)

Definition watchdog_lock : lock := ("watchdog"%string, 0).

Definition clockintr : P unit :=
  acquire watchdog_lock ;;;
  acquire tickslock ;;;
  t <- gets ticks ;;
  wv <- gets watchdog_value ;;
  wt <- gets watchdog_time ;;
  if negb (wt =? 0) && (u32 wt <? u32 (t - wv)) then panic "watchdog !!!" else
  modify (fun s => set_ticks (u32 (ticks s + 1)) s) ;;;
  wakeup ticks_chan ;;;
  release tickslock ;;;
  release watchdog_lock.

(** The copy loop of [watchdogwrite]; [copyin1] is [either_copyin] of one byte:
    the byte, or [None] for -1. *)
Fixpoint watchdog_copy (copyin1 : Z -> M E (option Z)) (n : nat) (src i time : Z) : P Z :=
  match n with
  | O => ret time
  | S n =>
      c <- sys (copyin1 (u64 (src + i))) ;;
      match c with
      | None => ret time
      | Some c => watchdog_copy copyin1 n src (i + 1) c
      end
  end.

Definition watchdogwrite (copyin1 : Z -> M E (option Z)) (src n : Z) : P Z :=
  acquire watchdog_lock ;;;
  time <- watchdog_copy copyin1 (Z.to_nat n) src 0 0 ;;
  acquire tickslock ;;;
  t <- gets ticks ;;
  wv <- gets watchdog_value ;;
  modify (set_watchdog_value (s32 t)) ;;;
  modify (set_watchdog_time time) ;;;
  release tickslock ;;;
  release watchdog_lock ;;;
  ret (s32 (t - wv)).

Definition watchdoginit : P unit := modify (set_watchdog_time 0).
End Proc.
