(* ===== verification/ProcQueue.v ===== *)
(** * The priority queues of kernel/proc.c

    The linked list of each priority represents a list of processes: inserting
    appends to it, removing deletes the first occurrence, and the scheduler
    takes the first runnable process of the first queue that has one. *)

From S2P Require Import Prelude Riscv AllocI Proc.

(** The nodes from address [a] on: their addresses and processes. *)
Fixpoint qseg (m : gmap Z list_proc) (a : Z) (l : list (Z * Z)) : Prop :=
  match l with
  | [] => a = 0
  | (x, p) :: l => a = x /\ x <> 0 /\ exists n, m !! x = Some {| lp_p := p; lp_next := n |} /\ qseg m n l
  end.

Lemma qseg_frame m m' a l :
  (forall x, x ∈ l.*1 -> m' !! x = m !! x) -> qseg m a l -> qseg m' a l.
Proof.
  revert a. induction l as [|[x p] l IH]; intros a He; cbn [qseg]; [done|].
  intros (-> & Hx & n & Hm & Hs). split_and!; [done|done|]. exists n. split; [rewrite He by set_solver; done|].
  apply IH; [|done]. intros y Hy. apply He. set_solver.
Qed.

Lemma qseg_app m a l1 l2 :
  qseg m a (l1 ++ l2) -> exists b, qseg m b l2 /\
    (l1 = [] /\ a = b \/ exists l0 x p, l1 = l0 ++ [(x, p)] /\ x <> 0 /\ m !! x = Some {| lp_p := p; lp_next := b |}).
Proof.
  revert a. induction l1 as [|[x p] l1 IH]; intros a Hs; cbn [app qseg] in *.
  - exists a. split; [done|]. by left.
  - destruct Hs as (-> & Hx & n & Hm & Hs). destruct (IH n Hs) as (b & Hb & Hcase).
    exists b. split; [done|]. right. destruct Hcase as [[-> ->]|(l0 & y & q & -> & Hy & Hmy)].
    + by exists [], x, p.
    + exists ((x, p) :: l0), y, q. done.
Qed.

(** Replacing what follows the last node of a list. *)
Lemma qseg_relink m m' a l x p l2 l2' b :
  qseg m a (l ++ (x, p) :: l2) -> NoDup (l ++ (x, p) :: l2).*1 ->
  m' !! x = Some {| lp_p := p; lp_next := b |} -> qseg m' b l2' ->
  (forall y, y ∈ l.*1 -> m' !! y = m !! y) ->
  qseg m' a (l ++ (x, p) :: l2').
Proof.
  revert a. induction l as [|[y q] l IH]; intros a Hs Hd Hx Hb He; cbn [app qseg] in *.
  - destruct Hs as (-> & Hne & n & Hm & Hs). split_and!; [done|done|]. by exists b.
  - destruct Hs as (-> & Hne & n & Hm & Hs). split_and!; [done|done|]. exists n.
    split; [rewrite He by set_solver; done|]. cbn [fmap list_fmap] in Hd. apply list.NoDup_cons in Hd as [_ Hd].
    apply IH; try done. intros z Hz. apply He. set_solver.
Qed.

Lemma qseg_length m a l : qseg m a l -> NoDup l.*1 -> (length l <= base.size m)%nat.
Proof.
  intros Hs Hd. rewrite <- (length_fmap fst), <- size_dom.
  assert (Hsub : list_to_set (C := gset Z) l.*1 ⊆ dom m).
  { intros x Hx. apply elem_of_list_to_set in Hx. clear Hd. revert a Hs.
    induction l as [|[y q] l IH]; intros a Hs; [set_solver|]. cbn [qseg] in Hs.
    destruct Hs as (-> & _ & n & Hm & Hs). apply elem_of_cons in Hx as [->|Hx]; [|by eapply IH].
    apply elem_of_dom. by eexists. }
  apply subseteq_size in Hsub. by rewrite size_list_to_set in Hsub.
Qed.

Lemma qseg_head m a l : qseg m a l -> a = match l with [] => 0 | (x, _) :: _ => x end.
Proof. destruct l as [|[x p] l]; cbn; [done|]. naive_solver. Qed.

Lemma qseg_nonzero m a l : qseg m a l -> a = 0 <-> l = [].
Proof. destruct l as [|[x p] l]; cbn; [done|]. intros (-> & ? & _). done. Qed.

Section Queues.
Context {E : Type} `{HasCtx E} `{!ProcEnv E}.

(** An allocated area large enough for a node. *)
Definition live16 (e : E) (x : Z) : Prop := exists z, 16 <= z /\ live e x z.

(** [Q i] is the queue of priority [i]. *)
Record qinv (s : pstate E) (Q : Z -> list (Z * Z)) : Prop := {
  q_len : Z.of_nat (length (prio s)) = NPRIO;
  q_seg : forall i, 0 <= i < NPRIO -> exists h, aget (prio s) i = Some h /\ qseg (lps s) h (Q i);
  q_dup : forall i, 0 <= i < NPRIO -> NoDup (Q i).*1;
  q_sep : forall i j x, 0 <= i < NPRIO -> 0 <= j < NPRIO -> x ∈ (Q i).*1 -> x ∈ (Q j).*1 -> i = j;
  q_live : forall i x, 0 <= i < NPRIO -> x ∈ (Q i).*1 -> live16 (env s) x
}.

(** Everything but the queues and the rest of the kernel. *)
Definition same_procs (s s' : pstate E) : Prop :=
  procs s' = procs s /\ initproc s' = initproc s /\ nextpid s' = nextpid s /\ cur s' = cur s /\
  first s' = first s /\ ticks s' = ticks s /\ tfmem s' = tfmem s /\
  watchdog_value s' = watchdog_value s /\ watchdog_time s' = watchdog_time s.

Lemma same_procs_trans s s1 s2 : same_procs s s1 -> same_procs s1 s2 -> same_procs s s2.
Proof. unfold same_procs. intuition congruence. Qed.

Definition upd (Q : Z -> list (Z * Z)) (i : Z) (l : list (Z * Z)) : Z -> list (Z * Z) :=
  fun j => if decide (j = i) then l else Q j.

Lemma upd_eq Q i l : upd Q i l i = l.
Proof. unfold upd. by rewrite decide_True. Qed.

Lemma upd_ne Q i l j : j <> i -> upd Q i l j = Q j.
Proof. intros. unfold upd. by rewrite decide_False. Qed.

Lemma getp_ok i p (s : pstate E) : aget (procs s) i = Some p -> getp i s = Ret p s.
Proof. intros Hp. unfold getp. by rewrite Hp. Qed.

Lemma ld_prio_ok i h (s : pstate E) : aget (prio s) i = Some h -> ld_prio i s = Ret h s.
Proof. intros Hh. unfold ld_prio. by rewrite Hh. Qed.

Lemma st_prio_ok i v (s : pstate E) :
  0 <= i < Z.of_nat (length (prio s)) -> st_prio i v s = Ret tt (set_prio (<[Z.to_nat i := v]> (prio s)) s).
Proof.
  intros Hi. unfold st_prio. unfold bind at 1. rewrite aset_is_Some by done. done.
Qed.

Lemma ld_lp_ok a n (s : pstate E) : lps s !! a = Some n -> ld_lp a s = Ret n s.
Proof. intros Hn. unfold ld_lp. by rewrite Hn. Qed.

Lemma sys_ok {A} (m : M E A) (s : pstate E) a e : m (env s) = Ret a e -> sys m s = Ret a (set_env e s).
Proof. intros Hm. unfold sys. by apply zoom_ret. Qed.

(** Replacing one queue by another. *)
Lemma qinv_upd s s' Q i l h :
  qinv s Q -> 0 <= i < NPRIO ->
  prio s' = <[Z.to_nat i := h]> (prio s) -> qseg (lps s') h l -> NoDup l.*1 ->
  (forall j x, j <> i -> 0 <= j < NPRIO -> x ∈ (Q j).*1 ->
    x ∉ l.*1 /\ lps s' !! x = lps s !! x /\ (live16 (env s) x -> live16 (env s') x)) ->
  (forall x, x ∈ l.*1 -> live16 (env s') x) ->
  qinv s' (upd Q i l).
Proof.
  intros [H1 H2 H3 H4 H5] Hi Hp Hs Hd Hoth Hl.
  assert (Hset : aset (prio s) i h = Some (prio s')) by (rewrite Hp; apply aset_is_Some; lia).
  split.
  - rewrite Hp, length_insert. done.
  - intros j Hj. destruct (decide (j = i)) as [->|Hne].
    + exists h. rewrite upd_eq. split; [|done]. by apply (aget_aset_eq _ _ _ _ Hset).
    + rewrite upd_ne by done. destruct (H2 j Hj) as (hj & Hg & Hsj). exists hj. split.
      * by rewrite (aget_aset_ne _ _ _ _ _ Hset) by done.
      * revert Hsj. apply qseg_frame. intros x Hx. by destruct (Hoth j x Hne Hj Hx) as (_ & ? & _).
  - intros j Hj. destruct (decide (j = i)) as [->|Hne]; [by rewrite upd_eq|]. rewrite upd_ne by done. by apply H3.
  - intros j k x Hj Hk Hx Hy. destruct (decide (j = i)) as [->|Hji], (decide (k = i)) as [->|Hki]; try done;
      rewrite ?upd_eq in *; rewrite ?upd_ne in * by done.
    + by destruct (Hoth k x Hki Hk Hy).
    + by destruct (Hoth j x Hji Hj Hx).
    + by apply (H4 j k x).
  - intros j x Hj Hx. destruct (decide (j = i)) as [->|Hne]; [rewrite upd_eq in Hx; by apply Hl|].
    rewrite upd_ne in Hx by done. destruct (Hoth j x Hne Hj Hx) as (_ & _ & Hlv). by apply Hlv, (H5 j x Hj).
Qed.

(** ** Insertion *)

Lemma find_last_ok fuel a l x p (s : pstate E) :
  qseg (lps s) a (l ++ [(x, p)]) -> (length l < fuel)%nat -> find_last fuel a s = Ret x s.
Proof.
  revert a l. induction fuel as [|fuel IH]; intros a l Hs Hf; [lia|]. cbn [find_last].
  destruct l as [|[y q] l]; cbn [app qseg] in Hs.
  - destruct Hs as (-> & Hne & n & Hm & ->). rewrite (proj2 (Z.eqb_neq x 0)) by done.
    by run (ld_lp_ok _ _ _ Hm).
  - destruct Hs as (-> & Hne & n & Hm & Hs). rewrite (proj2 (Z.eqb_neq y 0)) by done.
    run (ld_lp_ok _ _ _ Hm). cbn [lp_next].
    assert (n <> 0) by (rewrite (qseg_nonzero _ _ _ Hs); by destruct l).
    rewrite (proj2 (Z.eqb_neq n 0)) by done. apply (IH n l); [done|cbn in Hf; lia].
Qed.

Lemma st_lp_next_ok a v p n (s : pstate E) :
  a <> 0 -> lps s !! a = Some {| lp_p := p; lp_next := n |} ->
  st_lp_next a v s = Ret tt (set_lps (<[a := {| lp_p := p; lp_next := v |}]> (lps s)) s).
Proof.
  intros Ha Hm. unfold st_lp_next. rewrite (proj2 (Z.eqb_neq a 0)) by done. unfold modify. by rewrite Hm.
Qed.

(** The two stores that fill a new node. *)
Lemma new_node_ok a p (s : pstate E) :
  a <> 0 ->
  (st_lp_next a 0 ;;; st_lp_p a p) s = Ret tt (set_lps (<[a := {| lp_p := p; lp_next := 0 |}]> (lps s)) s).
Proof.
  intros Ha. unfold st_lp_next, st_lp_p. rewrite (proj2 (Z.eqb_neq a 0)) by done. mstep.
  unfold modify. f_equal. unfold set_lps. cbn [procs prio lps initproc nextpid cur first ticks tfmem
    watchdog_value watchdog_time env]. f_equal. rewrite lookup_insert_eq. cbn. by rewrite insert_insert_eq.
Qed.

Lemma qinv_frame s s' Q :
  qinv s Q -> prio s' = prio s ->
  (forall i x, 0 <= i < NPRIO -> x ∈ (Q i).*1 -> lps s' !! x = lps s !! x) ->
  (forall x, live16 (env s) x -> live16 (env s') x) ->
  qinv s' Q.
Proof.
  intros [H1 H2 H3 H4 H5] Hp Hl Hlv. split; [by rewrite Hp| |done|done|].
  - intros i Hi. destruct (H2 i Hi) as (h & Hh & Hs). exists h. rewrite Hp. split; [done|].
    revert Hs. apply qseg_frame. intros x Hx. by apply (Hl i).
  - intros i x Hi Hx. by apply Hlv, (H5 i).
Qed.

(** What [bd_malloc] guarantees when it succeeds. *)
Record got (e e' : E) (p n : Z) : Prop := {
  got_nonzero : p <> 0;
  got_fresh : forall y, ~ live e p y;
  got_live : exists z, n <= z /\ forall q y, live e' q y <-> live e q y \/ (q, y) = (p, z)
}.

Lemma got_new e e' p n : got e e' p n -> 16 <= n -> live16 e' p.
Proof. intros [_ _ (z & Hz & Hl)] Hn. exists z. split; [lia|]. apply Hl. by right. Qed.

Lemma got_old e e' p n x : got e e' p n -> live16 e x -> live16 e' x.
Proof. intros [_ _ (z & _ & Hl)] (y & Hy1 & Hy). exists y. split; [done|]. apply Hl. by left. Qed.

(** Linking the filled node [new] at the end of queue [i]. *)
Lemma link_ok s Q i p new h :
  qinv s Q -> 0 <= i < NPRIO -> aget (prio s) i = Some h ->
  new <> 0 -> lps s !! new = Some {| lp_p := p; lp_next := 0 |} ->
  (forall j, 0 <= j < NPRIO -> new ∉ (Q j).*1) -> live16 (env s) new ->
  exists s', (if h =? 0 then st_prio i new else
      (fuel <- gets lp_fuel ;; last <- find_last fuel h ;; st_lp_next last new)) s = Ret tt s' /\
    same_procs s s' /\ env s' = env s /\ qinv s' (upd Q i (Q i ++ [(new, p)])).
Proof.
  intros Hq Hi Hh Hnz Hnew Hfr Hlv. destruct (q_seg _ _ Hq i Hi) as (h' & Hh' & Hs).
  assert (h' = h) as -> by congruence. pose proof (q_dup _ _ Hq i Hi) as Hd.
  assert (Hdup : NoDup (Q i ++ [(new, p)]).*1).
  { rewrite fmap_app. apply list.NoDup_app. split_and!; [done| |apply NoDup_singleton].
    intros x Hx Hx'. cbn in Hx'. apply list_elem_of_singleton in Hx' as ->. by apply (Hfr i Hi). }
  assert (Hlive : forall x, x ∈ (Q i ++ [(new, p)]).*1 -> live16 (env s) x).
  { intros x. rewrite fmap_app, elem_of_app. cbn. rewrite list_elem_of_singleton. intros [Hx| ->]; [|done].
    by apply (q_live _ _ Hq i). }
  assert (Hoth : forall j x, j <> i -> 0 <= j < NPRIO -> x ∈ (Q j).*1 -> x ∉ (Q i ++ [(new, p)]).*1).
  { intros j x Hj Hj' Hx. rewrite fmap_app, not_elem_of_app. split.
    - intros Hx'. by apply Hj, (q_sep _ _ Hq j i x).
    - cbn. rewrite list_elem_of_singleton. intros ->. by apply (Hfr j Hj'). }
  pose proof (qseg_nonzero _ _ _ Hs) as Hz. destruct (Z.eqb_spec h 0) as [->|Hne].
  - rewrite (proj1 Hz eq_refl) in *. rewrite st_prio_ok by (rewrite (q_len _ _ Hq); lia).
    eexists. split_and!; [done|done|done|]. apply (qinv_upd s _ Q i _ new); try done.
    + cbn. split_and!; [done|done|]. by exists 0.
    + intros j x Hj Hj' Hx. split_and!; [by apply (Hoth j x)|done|done].
  - destruct (exists_last (l := Q i)) as (l & [x q] & El); [naive_solver|]. rewrite El in *. mstep.
    pose proof (qseg_length _ _ _ Hs Hd) as Hlen. rewrite length_app in Hlen. cbn in Hlen.
    run (find_last_ok (lp_fuel s) h l x q s Hs ltac:(unfold lp_fuel; lia)).
    destruct (qseg_app _ _ _ _ Hs) as (b & (Eb & Hxz & n & Hmx & ->) & _). subst b.
    rewrite (st_lp_next_ok x new q 0) by done. eexists. split_and!; [done|done|done|].
    assert (Hxn : x <> new).
    { intros ->. apply (Hfr i Hi). rewrite El, fmap_app. set_solver. }
    apply (qinv_upd s _ Q i _ h); try done.
    + cbn. symmetry. apply list_insert_id. unfold aget in Hh. by rewrite decide_True in Hh by lia.
    + rewrite <- app_assoc. cbn [app lps set_lps].
      apply (qseg_relink (lps s) _ h l x q [] [(new, p)] new); [done|done|by rewrite lookup_insert_eq| |].
      * cbn. split_and!; [done|done|]. exists 0. by rewrite lookup_insert_ne.
      * intros y Hy. apply lookup_insert_ne. intros <-. rewrite fmap_app in Hd.
        apply list.NoDup_app in Hd as (_ & Hd & _). apply (Hd x Hy). set_solver.
    + intros j y Hj Hj' Hy. split_and!; [by apply (Hoth j y)| |done]. cbn. apply lookup_insert_ne. intros <-.
      apply (Hoth j x Hj Hj' Hy). rewrite !fmap_app. set_solver.
Qed.

Lemma insert_ok s Q p pr new e :
  qinv s Q -> aget (procs s) p = Some pr -> 0 <= priority pr < NPRIO ->
  malloc 16 (env s) = Ret new e -> got (env s) e new 16 ->
  exists s', insert_into_prio_queue p s = Ret tt s' /\ same_procs s s' /\ env s' = e /\
    qinv s' (upd Q (priority pr) (Q (priority pr) ++ [(new, p)])).
Proof.
  intros Hq Hp Hr Hm Hg. pose proof (got_nonzero _ _ _ _ Hg) as Hnz.
  assert (Hfr : forall i, 0 <= i < NPRIO -> new ∉ (Q i).*1).
  { intros i Hi Hin. destruct (q_live _ _ Hq i new Hi Hin) as (z & _ & Hz). by apply (got_fresh _ _ _ _ Hg z). }
  unfold insert_into_prio_queue. run (sys_ok _ s _ _ Hm).
  rewrite (bind2_ret_l _ _ _ _ _ _ (new_node_ok new p (set_env e s) Hnz)). set (s1 := set_lps _ _).
  assert (Hq1 : qinv s1 Q).
  { apply (qinv_frame s); [done|done| |intros x; by apply (got_old _ _ _ _ _ Hg)].
    intros i x Hi Hx. cbn. apply lookup_insert_ne. intros ->. by apply (Hfr i Hi). }
  run (getp_ok p pr s1 Hp). destruct (q_seg _ _ Hq _ Hr) as (h & Hh & _).
  run (ld_prio_ok _ _ s1 Hh).
  destruct (link_ok s1 Q (priority pr) p new h) as (s' & E1 & Hsm & He & Hq'); try done.
  - apply lookup_insert_eq.
  - by apply (got_new _ _ _ _ Hg).
  - exists s'. by split_and!.
Qed.

(** ** Removal *)

(** What [bd_free] guarantees. *)
Record gave (e e' : E) (p : Z) : Prop := {
  gave_live : forall q y, live e' q y <-> live e q y /\ q <> p
}.

Lemma gave_old e e' p x : gave e e' p -> x <> p -> live16 e x -> live16 e' x.
Proof. intros [Hl] Hx (z & Hz1 & Hz). exists z. split; [done|]. by apply Hl. Qed.

Lemma free_lp_ok a (s : pstate E) e :
  mfree a (env s) = Ret tt e -> free_lp a s = Ret tt (set_lps (base.delete a (lps s)) (set_env e s)).
Proof. intros Hm. unfold free_lp. by run (sys_ok _ s _ _ Hm). Qed.

(** The walk of the loop over nodes that are not the one sought. *)
Lemma remove_loop_skip fuel p done rest prev head a (s : pstate E) :
  qseg (lps s) a (done ++ rest) -> p ∉ done.*2 ->
  exists a' prev', qseg (lps s) a' rest /\
    remove_loop (length done + fuel) p a prev head s = remove_loop fuel p a' prev' head s /\
    (done = [] /\ prev' = prev /\ a' = a \/
     exists l x q, done = l ++ [(x, q)] /\ prev' = x /\ x <> 0 /\ lps s !! x = Some {| lp_p := q; lp_next := a' |}).
Proof.
  revert a prev. induction done as [|[x q] done IH]; intros a prev Hs Hp.
  - exists a, prev. split_and!; [done|done|by left].
  - cbn [app qseg] in Hs. destruct Hs as (-> & Hne & n & Hm & Hs).
    destruct (IH n x Hs ltac:(set_solver)) as (a' & prev' & Hr & E1 & Hcase).
    exists a', prev'. split; [done|]. split.
    + cbn [length Nat.add remove_loop]. rewrite (proj2 (Z.eqb_neq x 0)) by done. run (ld_lp_ok _ _ _ Hm).
      cbn [lp_p lp_next]. rewrite (proj2 (Z.eqb_neq q p)) by set_solver. done.
    + right. destruct Hcase as [(-> & -> & ->)|(l & y & r & -> & -> & Hy & Hmy)].
      * by exists [], x, q.
      * by exists ((x, q) :: l), y, r.
Qed.

Lemma remove_absent fuel p a l (s : pstate E) :
  qseg (lps s) a l -> p ∉ l.*2 -> (length l < fuel)%nat -> remove_loop fuel p a 0 a s = Ret a s.
Proof.
  intros Hs Hp Hf. destruct (remove_loop_skip (fuel - length l) p l [] 0 a a s) as (a' & prev' & Ha' & E1 & _);
    [by rewrite app_nil_r|done|]. cbn in Ha'. subst a'.
  replace (length l + (fuel - length l))%nat with fuel in E1 by lia. rewrite E1.
  destruct (fuel - length l)%nat eqn:Ef; [lia|]. done.
Qed.

(** The first node of [p] is unlinked and freed. *)
Lemma remove_present fuel p a l1 x l2 (s : pstate E) e :
  qseg (lps s) a (l1 ++ (x, p) :: l2) -> NoDup (l1 ++ (x, p) :: l2).*1 -> p ∉ l1.*2 ->
  (length l1 < fuel)%nat -> mfree x (env s) = Ret tt e ->
  exists h m, remove_loop fuel p a 0 a s = Ret h (set_lps m (set_env e s)) /\ qseg m h (l1 ++ l2) /\
    forall y, y ∉ (l1 ++ [(x, p)]).*1 -> m !! y = lps s !! y.
Proof.
  intros Hs Hd Hp Hf Hm.
  destruct (remove_loop_skip (fuel - length l1) p l1 ((x, p) :: l2) 0 a a s Hs Hp) as (a' & prev' & Hr & E1 & Hcase).
  replace (length l1 + (fuel - length l1))%nat with fuel in E1 by lia. rewrite E1. clear E1.
  destruct (fuel - length l1)%nat as [|f] eqn:Ef; [lia|]. cbn [remove_loop].
  destruct Hr as (-> & Hx & n & Hmx & Hr). rewrite (proj2 (Z.eqb_neq x 0)) by done.
  run (ld_lp_ok _ _ _ Hmx). cbn [lp_p lp_next]. rewrite Z.eqb_refl.
  pose proof Hd as Hd0. rewrite fmap_app in Hd. cbn [fmap list_fmap] in Hd.
  apply list.NoDup_app in Hd as (Hd1 & Hd12 & Hd2). apply list.NoDup_cons in Hd2 as [Hx2 Hd2].
  destruct Hcase as [(-> & -> & ->)|(l & y & q & -> & -> & Hy & Hmy)].
  - rewrite Z.eqb_refl. run (free_lp_ok _ s e Hm). mstep. eexists _, _. split; [done|]. split.
    + cbn [app]. revert Hr. apply qseg_frame. intros z Hz. apply lookup_delete_ne. set_solver.
    + intros z Hz. apply lookup_delete_ne. set_solver.
  - assert (Hax : x <> a).
    { intros ->. apply qseg_head in Hs. apply (Hd12 a); [|set_solver]. destruct l as [|[z r] l]; cbn in Hs; set_solver. }
    rewrite (proj2 (Z.eqb_neq x a)) by done.
    run (st_lp_next_ok y n q x s Hy Hmy).
    run (free_lp_ok x (set_lps (<[y := {| lp_p := q; lp_next := n |}]> (lps s)) s) e Hm). mstep.
    assert (Hyx : y <> x) by (intros ->; apply (Hd12 x); [rewrite fmap_app; set_solver|set_solver]).
    exists a, (base.delete x (<[y := {| lp_p := q; lp_next := n |}]> (lps s))). split; [done|]. split.
    + rewrite <- app_assoc. cbn [app]. rewrite <- app_assoc in Hs. cbn [app] in Hs.
      apply (qseg_relink (lps s) _ a l y q ((x, p) :: l2) l2 n); [done| | | |].
      * by rewrite <- app_assoc in Hd0.
      * rewrite lookup_delete_ne by done. apply lookup_insert_eq.
      * revert Hr. apply qseg_frame. intros z Hz. rewrite lookup_delete_ne, lookup_insert_ne; [done| |set_solver].
        intros ->. apply (Hd12 z); [rewrite fmap_app; set_solver|set_solver].
      * intros z Hz. rewrite lookup_delete_ne, lookup_insert_ne; [done| |].
        -- intros ->. rewrite fmap_app in Hd1. apply list.NoDup_app in Hd1 as (_ & Hd1 & _). apply (Hd1 z Hz). set_solver.
        -- intros ->. apply (Hd12 z); [rewrite fmap_app; set_solver|set_solver].
    + intros z Hz. rewrite !fmap_app in Hz. rewrite lookup_delete_ne, lookup_insert_ne by set_solver. done.
Qed.

Lemma remove_ok s Q p pr l1 x l2 e :
  qinv s Q -> aget (procs s) p = Some pr -> 0 <= priority pr < NPRIO ->
  Q (priority pr) = l1 ++ (x, p) :: l2 -> p ∉ l1.*2 ->
  mfree x (env s) = Ret tt e -> gave (env s) e x ->
  exists s', remove_from_prio_queue p s = Ret tt s' /\ same_procs s s' /\ env s' = e /\
    qinv s' (upd Q (priority pr) (l1 ++ l2)).
Proof.
  intros Hq Hp Hr HQ Hl1 Hm Hg. set (i := priority pr) in *.
  destruct (q_seg _ _ Hq i Hr) as (h & Hh & Hs). pose proof (q_dup _ _ Hq i Hr) as Hd. rewrite HQ in Hs, Hd.
  pose proof (qseg_length _ _ _ Hs Hd) as Hlen. rewrite length_app in Hlen. cbn in Hlen.
  destruct (remove_present (lp_fuel s) p h l1 x l2 s e Hs Hd Hl1 ltac:(unfold lp_fuel; lia) Hm) as (h' & m & E1 & Hs' & Hfr).
  unfold remove_from_prio_queue. run (getp_ok _ _ _ Hp). fold i. run (ld_prio_ok _ _ _ Hh). mstep. run E1.
  rewrite st_prio_ok by (cbn; rewrite (q_len _ _ Hq); lia). eexists. split_and!; [done|done|done|].
  assert (Hd' : NoDup (l1 ++ l2).*1).
  { rewrite fmap_app in *. cbn in Hd. apply list.NoDup_app in Hd as (Ha & Hb & Hc). apply list.NoDup_cons in Hc as [_ Hc].
    apply list.NoDup_app. split_and!; [done|set_solver|done]. }
  assert (Hx : x ∉ (l1 ++ l2).*1).
  { rewrite fmap_app in *. cbn in Hd. apply list.NoDup_app in Hd as (_ & Hb & Hc). apply list.NoDup_cons in Hc as [Hc _]. set_solver. }
  assert (Hsub : forall y, y ∈ (l1 ++ l2).*1 \/ y = x -> y ∈ (Q i).*1) by (rewrite HQ, !fmap_app; set_solver).
  apply (qinv_upd s _ Q i _ h'); try done.
  - intros j y Hj Hj' Hy. assert (Hyi : y ∉ (Q i).*1) by (intros Hy'; by apply Hj, (q_sep _ _ Hq j i y)).
    split_and!; [intros ?; apply Hyi, Hsub; by left| |].
    + cbn. apply Hfr. rewrite HQ, !fmap_app in *. set_solver.
    + apply (gave_old _ _ _ _ Hg). intros ->. apply Hyi, Hsub. by right.
  - intros y Hy. apply (gave_old _ _ _ _ Hg); [intros ->; done|].
    apply (q_live _ _ Hq i); [done|]. apply Hsub. by left.
Qed.

Lemma set_prio_id s Q i h : qinv s Q -> 0 <= i < NPRIO -> aget (prio s) i = Some h -> st_prio i h s = Ret tt s.
Proof.
  intros Hq Hi Hh. rewrite st_prio_ok by (rewrite (q_len _ _ Hq); lia). f_equal.
  unfold aget in Hh. rewrite decide_True in Hh by lia. rewrite list_insert_id by done. by destruct s.
Qed.

Lemma remove_none s Q p pr :
  qinv s Q -> aget (procs s) p = Some pr -> 0 <= priority pr < NPRIO -> p ∉ (Q (priority pr)).*2 ->
  remove_from_prio_queue p s = Ret tt s.
Proof.
  intros Hq Hp Hr HQ. destruct (q_seg _ _ Hq _ Hr) as (h & Hh & Hs). pose proof (q_dup _ _ Hq _ Hr) as Hd.
  pose proof (qseg_length _ _ _ Hs Hd) as Hlen.
  unfold remove_from_prio_queue. run (getp_ok _ _ _ Hp). run (ld_prio_ok _ _ _ Hh). mstep.
  run (remove_absent (lp_fuel s) p h _ s Hs HQ ltac:(unfold lp_fuel; lia)). by eapply set_prio_id.
Qed.

(** ** The choice of the scheduler *)

Definition runnable (ps : list proc) (p : Z) : bool :=
  match aget ps p with Some pr => bool_decide (state pr = RUNNABLE) | None => false end.

(** The first runnable process of a queue, and of all the queues from [i]. *)
Definition first_runnable (ps : list proc) (l : list (Z * Z)) : option Z :=
  snd <$> list_find (fun p => runnable ps p = true) l.*2.

Fixpoint best (n : nat) (ps : list proc) (Q : Z -> list (Z * Z)) (i : Z) : option Z :=
  match n with
  | O => None
  | S n => match first_runnable ps (Q i) with Some p => Some p | None => best n ps Q (i + 1) end
  end.

(** The processes of the queues exist. *)
Definition in_table (s : pstate E) (Q : Z -> list (Z * Z)) : Prop :=
  forall i p, 0 <= i < NPRIO -> p ∈ (Q i).*2 -> is_Some (aget (procs s) p).

Lemma first_runnable_cons ps x p l :
  first_runnable ps ((x, p) :: l) = if runnable ps p then Some p else first_runnable ps l.
Proof.
  unfold first_runnable. cbn [fmap list_fmap snd list_find]. destruct (runnable ps p) eqn:Er.
  - by rewrite decide_True.
  - rewrite decide_False by done. destruct (list_find _ l.*2) as [[? ?]|]; done.
Qed.

Definition take_lock (r : option Z) : M (pstate E) (option Z) :=
  match r with Some p => acquire (plock p) ;;; ret (Some p) | None => ret None end.

Lemma pick_queue_ok fuel a l (s : pstate E) :
  qseg (lps s) a l -> (forall p, p ∈ l.*2 -> is_Some (aget (procs s) p)) -> (length l < fuel)%nat ->
  pick_queue fuel a s = take_lock (first_runnable (procs s) l) s.
Proof.
  revert a l. induction fuel as [|fuel IH]; intros a l Hs Ht Hf; [lia|]. cbn [pick_queue].
  destruct l as [|[x p] l]; cbn [qseg] in Hs; [subst; done|].
  destruct Hs as (-> & Hne & n & Hm & Hs). rewrite (proj2 (Z.eqb_neq x 0)) by done.
  run (ld_lp_ok _ _ _ Hm). cbn [lp_p lp_next]. destruct (Ht p ltac:(set_solver)) as [pr Hp]. run (getp_ok _ _ _ Hp).
  rewrite first_runnable_cons. unfold runnable at 1. rewrite Hp.
  case_bool_decide as Est; [by rewrite decide_True|]. rewrite decide_False by done.
  apply IH; [done| |cbn in Hf; lia]. intros q Hq. apply Ht. set_solver.
Qed.

Lemma pick_prio_ok n i Q (s : pstate E) :
  qinv s Q -> in_table s Q -> 0 <= i -> i + Z.of_nat n = NPRIO ->
  (forall p, best n (procs s) Q i = Some p -> plock p ∉ held (cx s)) ->
  pick_prio n i s = take_lock (best n (procs s) Q i) s.
Proof.
  intros Hq Ht. revert i. induction n as [|n IH]; intros i Hi Hn Hl; cbn [pick_prio best]; [done|].
  destruct (q_seg _ _ Hq i ltac:(lia)) as (h & Hh & Hs). pose proof (q_dup _ _ Hq i ltac:(lia)) as Hd.
  pose proof (qseg_length _ _ _ Hs Hd) as Hlen. run (ld_prio_ok _ _ _ Hh). mstep.
  unfold bind at 1. rewrite (pick_queue_ok _ _ _ _ Hs);
    [|intros p Hp; apply (Ht i); [lia|done]|unfold lp_fuel; lia].
  cbn [best] in Hl. destruct (first_runnable (procs s) (Q i)) as [p|] eqn:Ef; cbn [take_lock].
  - rewrite (bind_ret_l _ _ _ _ _ (acquire_ok (plock p) s (Hl p eq_refl))). done.
  - cbn [ret rbind]. apply IH; [lia|lia|done].
Qed.
End Queues.
