(* ===== verification/ProcSpec.v ===== *)
(** * The scheduler and the life of processes

    The invariant of the process table and the queues, and what the scheduler,
    [allocproc], [wakeup], [kill], [nice], [exit] and [wait] do to them. *)

From S2P Require Import Prelude Riscv AllocI Proc ProcQueue.

Section Spec.
Context {E : Type} `{HasCtx E} `{!ProcEnv E}.

(** [Q i] lists the processes of priority [i]; each process is in the queue of
    its own priority only, at most once. *)
Record pinv (s : pstate E) (Q : Z -> list (Z * Z)) : Prop := {
  pi_q : qinv s Q;
  pi_len : Z.of_nat (length (procs s)) = NPROC;
  pi_prio : forall i p, 0 <= i < NPRIO -> p ∈ (Q i).*2 ->
    exists pr, aget (procs s) p = Some pr /\ priority pr = i;
  pi_once : forall i, 0 <= i < NPRIO -> NoDup (Q i).*2;
  pi_alloc : alloc_inv (env s)
}.

Lemma pinv_table s Q : pinv s Q -> in_table s Q.
Proof. intros Hp i p Hi Hin. destruct (pi_prio _ _ Hp i p Hi Hin) as (pr & Hpr & _). eauto. Qed.

Lemma setp_ok i p f (s : pstate E) :
  aget (procs s) i = Some p -> setp i f s = Ret tt (set_procs (<[Z.to_nat i := f p]> (procs s)) s).
Proof.
  intros Hp. unfold setp. run (getp_ok _ _ _ Hp). unfold bind at 1.
  rewrite aset_is_Some by (by eapply aget_Some_lt). done.
Qed.

Lemma procs_set_eq (s : pstate E) i p q :
  aget (procs s) i = Some p -> aget (<[Z.to_nat i := q]> (procs s)) i = Some q.
Proof. intros Hp. eapply aget_aset_eq, aset_is_Some, aget_Some_lt, Hp. Qed.

Lemma procs_set_ne (s : pstate E) i j p q :
  aget (procs s) i = Some p -> i <> j -> aget (<[Z.to_nat i := q]> (procs s)) j = aget (procs s) j.
Proof. intros Hp Hij. eapply aget_aset_ne; [eapply aset_is_Some, aget_Some_lt, Hp|done]. Qed.

(** The context: this thread holds the locks [ls], starting from [c]. *)
Record holding (s : pstate E) (ls : list lock) (c : ctx) : Prop := {
  h_wf : cx_wf c;
  h_cx : cx s = with_locks ls c;
  h_dup : NoDup (ls ++ held c);
  h_alloc : alloc_lock ∉ ls ++ held c
}.

Lemma holding_wf s ls c : holding s ls c -> cx_wf (cx s) /\ alloc_lock ∉ held (cx s).
Proof. intros [H1 H2 H3 H4]. rewrite H2. split; [by apply with_locks_wf|done]. Qed.

Lemma malloc_held s ls c n :
  holding s ls c -> alloc_inv (env s) -> 0 <= n <= 2 ^ 63 ->
  exists p e, malloc n (env s) = Ret p e /\ alloc_inv e /\ cx e = with_locks ls c /\
    (p = 0 \/ got (env s) e p n).
Proof.
  intros Hh Ha Hn. destruct (holding_wf _ _ _ Hh) as [Hw Hl].
  destruct (malloc_spec (env s) n Ha Hw Hl Hn) as (p & e & E1 & Ha' & Hc & _ & Hcase).
  exists p, e. split_and!; [done|done| |].
  - rewrite Hc. change (cx (env s)) with (cx s). rewrite (h_cx _ _ _ Hh). apply touch_with_locks, Hh.
  - destruct Hcase as [[-> _]|(z & Hz & _ & Hnew & Hu)]; [by left|right]. split; [|done|eauto].
    assert (live e p z) by (apply Hu; by right). pose proof (live_pos e p z Ha'). naive_solver lia.
Qed.

Lemma mfree_held s ls c x :
  holding s ls c -> alloc_inv (env s) -> (exists z, live (env s) x z) ->
  exists e, mfree x (env s) = Ret tt e /\ alloc_inv e /\ cx e = with_locks ls c /\ gave (env s) e x.
Proof.
  intros Hh Ha [z Hz]. destruct (holding_wf _ _ _ Hh) as [Hw Hl].
  destruct (mfree_spec (env s) x z Ha Hw Hl Hz) as (e & E1 & Ha' & Hc & _ & Hu).
  exists e. split_and!; [done|done| |by split].
  rewrite Hc. change (cx (env s)) with (cx s). rewrite (h_cx _ _ _ Hh). apply touch_with_locks, Hh.
Qed.

Lemma holding_env s s' ls c : holding s ls c -> cx (env s') = with_locks ls c -> holding s' ls c.
Proof. intros [H1 H2 H3 H4] Hc. by split. Qed.

Lemma acquire_held l (s : pstate E) ls c :
  holding s ls c -> l ∉ ls ++ held c -> l <> alloc_lock ->
  acquire l s = Ret tt (set_cx (with_locks (l :: ls) c) s) /\
  holding (set_cx (with_locks (l :: ls) c) s) (l :: ls) c.
Proof.
  intros [H1 H2 H3 H4] Hl Hla. split; [apply acquire_with; set_solver|].
  split; [done|apply cx_set|by apply list.NoDup_cons|set_solver].
Qed.

(** The first lock, from any context. *)
Lemma acquire_first l (s : pstate E) :
  cx_wf (cx s) -> l ∉ held (cx s) -> l <> alloc_lock -> alloc_lock ∉ held (cx s) ->
  acquire l s = Ret tt (set_cx (with_locks [l] (cx s)) s) /\
  holding (set_cx (with_locks [l] (cx s)) s) [l] (cx s).
Proof.
  intros Hw Hl Hla Ha. split.
  - rewrite acquire_ok by done. do 2 f_equal.
  - split; [done|apply cx_set| |].
    + apply list.NoDup_cons. split; [done|]. by destruct Hw as (_ & ? & _).
    + rewrite elem_of_app, list_elem_of_singleton. naive_solver.
Qed.

Lemma release_held l (s : pstate E) ls c :
  holding s ls c -> l ∈ ls ->
  release l s = Ret tt (set_cx (with_locks (remove_lock l ls) c) s) /\
  holding (set_cx (with_locks (remove_lock l ls) c) s) (remove_lock l ls) c.
Proof.
  intros [H1 H2 H3 H4] Hl. pose proof H3 as H3'. apply list.NoDup_app in H3' as (Hd & Hs & Hc).
  split; [apply release_with; try done; set_solver|].
  split; [done|apply cx_set| |].
  - apply list.NoDup_app. split_and!; [by apply remove_lock_nodup| |done].
    intros x Hx. apply Hs. by apply (remove_lock_elem l) in Hx as [Hx _].
  - rewrite elem_of_app in *. intros [Hx|Hx]; [|auto]. apply H4. left. by apply (remove_lock_elem l) in Hx as [Hx _].
Qed.

(** Changing only the context, or only fields the queues do not mention. *)
Lemma pinv_cx s Q d : pinv s Q -> pinv (set_cx d s) Q.
Proof.
  intros [H1 H2 H3 H4 H5]. split; [|done|done|done|by apply alloc_inv_cx].
  apply (qinv_frame s); [done|done|done|]. intros x (z & Hz1 & Hz). exists z. split; [done|]. by apply live_cx.
Qed.

Lemma pinv_procs s Q ps :
  pinv s Q -> length ps = length (procs s) ->
  (forall p pr, aget (procs s) p = Some pr -> exists pr', aget ps p = Some pr' /\ priority pr' = priority pr) ->
  pinv (set_procs ps s) Q.
Proof.
  intros [H1 H2 H3 H4 H5] Hl Hp. split; [|cbn; by rewrite Hl| |done|done].
  - by apply (qinv_frame s).
  - intros i p Hi Hin. destruct (H3 i p Hi Hin) as (pr & Hpr & <-). by apply Hp.
Qed.

Lemma pinv_setp s Q i p q :
  pinv s Q -> aget (procs s) i = Some p -> priority q = priority p ->
  pinv (set_procs (<[Z.to_nat i := q]> (procs s)) s) Q.
Proof.
  intros Hp Hi Hq. apply pinv_procs; [done|by rewrite length_insert|]. intros j pr Hj.
  destruct (decide (i = j)) as [<-|Hne].
  - exists q. split; [by eapply procs_set_eq|]. congruence.
  - exists pr. split; [by rewrite (procs_set_ne s i j p)|done].
Qed.

(** ** Moving a process to the tail of its queue *)

Lemma elem_split_first (p : Z) (l : list (Z * Z)) :
  p ∈ l.*2 -> exists l1 x l2, l = l1 ++ (x, p) :: l2 /\ p ∉ l1.*2.
Proof.
  induction l as [|[y q] l IH]; intros Hp; [by apply not_elem_of_nil in Hp|].
  destruct (decide (q = p)) as [->|Hne]; [exists [], y, l; split; [done|apply not_elem_of_nil]|].
  destruct IH as (l1 & x & l2 & -> & Hl1); [set_solver|].
  exists ((y, q) :: l1), x, l2. split; [done|]. set_solver.
Qed.

Lemma nodup_mid (l1 l2 : list (Z * Z)) x p : NoDup (l1 ++ (x, p) :: l2).*2 -> NoDup (l1 ++ l2).*2 /\ p ∉ (l1 ++ l2).*2.
Proof.
  rewrite !fmap_app. cbn. rewrite <- Permutation_middle. intros [H1 H2]%list.NoDup_cons. done.
Qed.

(** A queue operation keeps the process table, so what is left to check is the
    queue that changed. *)
Lemma pinv_upd s s' Q i l :
  pinv s Q -> same_procs s s' -> 0 <= i < NPRIO -> qinv s' (upd Q i l) -> alloc_inv (env s') ->
  (forall p, p ∈ l.*2 -> exists pr, aget (procs s) p = Some pr /\ priority pr = i) -> NoDup l.*2 ->
  pinv s' (upd Q i l).
Proof.
  intros [H1 H2 H3 H4 H5] (Hp & _) Hi Hq Ha Hl Hd. split; [done|by rewrite Hp| | |done].
  - intros j p Hj Hin. rewrite Hp. destruct (decide (j = i)) as [->|Hne].
    + rewrite upd_eq in Hin. by apply Hl.
    + rewrite upd_ne in Hin by done. by apply H3.
  - intros j Hj. destruct (decide (j = i)) as [->|Hne]; [by rewrite upd_eq|]. rewrite upd_ne by done. by apply H4.
Qed.

Lemma pinv_remove s Q ls c p pr :
  pinv s Q -> holding s ls c -> aget (procs s) p = Some pr -> p ∈ (Q (priority pr)).*2 -> 0 <= priority pr < NPRIO ->
  exists s' x l1 l2 e z, remove_from_prio_queue p s = Ret tt s' /\ same_procs s s' /\ holding s' ls c /\
    Q (priority pr) = l1 ++ (x, p) :: l2 /\ p ∉ l1.*2 /\ pinv s' (upd Q (priority pr) (l1 ++ l2)) /\
    env s' = e /\ 16 <= z /\ live (env s) x z /\ mfree x (env s) = Ret tt e.
Proof.
  intros Hp Hh Hpr Hin Hr. destruct (elem_split_first _ _ Hin) as (l1 & x & l2 & EQ & Hl1).
  destruct (q_live _ _ (pi_q _ _ Hp) (priority pr) x Hr) as (z & Hz & Hlv); [rewrite EQ, fmap_app; set_solver|].
  destruct (mfree_held s ls c x Hh (pi_alloc _ _ Hp)) as (e & E1 & Ha & Hc & Hg); [eauto|].
  destruct (remove_ok s Q p pr l1 x l2 e (pi_q _ _ Hp) Hpr Hr EQ Hl1 E1 Hg) as (s' & E2 & Hsm & He & Hq).
  destruct (nodup_mid l1 l2 x p) as [Hd Hnp]; [rewrite <- EQ; by apply (pi_once _ _ Hp)|].
  exists s', x, l1, l2, e, z. split_and!; try done.
  - apply (holding_env s); [done|by rewrite He].
  - apply (pinv_upd s); try done; [by rewrite He|]. intros q Hq'. apply (pi_prio _ _ Hp); [done|].
    rewrite EQ, !fmap_app in *. cbn. set_solver.
Qed.

Lemma pinv_insert s Q ls c p pr new e :
  pinv s Q -> holding s ls c -> aget (procs s) p = Some pr -> 0 <= priority pr < NPRIO ->
  p ∉ (Q (priority pr)).*2 ->
  malloc 16 (env s) = Ret new e -> new <> 0 ->
  exists s', insert_into_prio_queue p s = Ret tt s' /\ same_procs s s' /\ holding s' ls c /\
    pinv s' (upd Q (priority pr) (Q (priority pr) ++ [(new, p)])).
Proof.
  intros Hp Hh Hpr Hr Hnin Hm Hnz.
  destruct (malloc_held s ls c 16 Hh (pi_alloc _ _ Hp) ltac:(lia)) as (new' & e' & E1 & Ha & Hc & Hcase).
  rewrite Hm in E1. injection E1 as <- <-. destruct Hcase as [->|Hg]; [done|].
  destruct (insert_ok s Q p pr new e (pi_q _ _ Hp) Hpr Hr Hm Hg) as (s' & E2 & Hsm & He & Hq).
  exists s'. split_and!; [done|done|apply (holding_env s); [done|by rewrite He]|].
  apply (pinv_upd s); try done; [by rewrite He| |].
  - intros q. rewrite fmap_app. cbn. rewrite elem_of_app, list_elem_of_singleton.
    intros [Hq'| ->]; [by apply (pi_prio _ _ Hp)|eauto].
  - rewrite fmap_app. cbn. rewrite <- Permutation_cons_append. apply list.NoDup_cons. split; [done|].
    by apply (pi_once _ _ Hp).
Qed.

Lemma upd_twice Q i l l' : forall j, upd (upd Q i l) i l' j = upd Q i l' j.
Proof. intros j. unfold upd. by case_decide. Qed.

Lemma pinv_ext s Q Q' : (forall i, Q' i = Q i) -> pinv s Q -> pinv s Q'.
Proof.
  intros He [[H1 H2 H3 H4 H5] H6 H7 H8 H9]. split; [split; [done|..]|done|..|done].
  - intros i Hi. rewrite He. by apply H2.
  - intros i Hi. rewrite He. by apply H3.
  - intros i j x Hi Hj. rewrite !He. by apply H4.
  - intros i x Hi. rewrite He. by apply H5.
  - intros i p Hi. rewrite He. by apply H7.
  - intros i Hi. rewrite He. by apply H8.
Qed.

(** Removing a process and inserting it again moves it to the tail; the node
    just freed makes room for the new one. *)
Lemma requeue_ok s Q ls c p pr :
  pinv s Q -> holding s ls c -> aget (procs s) p = Some pr -> p ∈ (Q (priority pr)).*2 -> 0 <= priority pr < NPRIO ->
  exists s1 s2 x l1 l2 new, remove_from_prio_queue p s = Ret tt s1 /\ insert_into_prio_queue p s1 = Ret tt s2 /\
    same_procs s s2 /\ holding s2 ls c /\ Q (priority pr) = l1 ++ (x, p) :: l2 /\ p ∉ l1.*2 /\
    pinv s2 (upd Q (priority pr) ((l1 ++ l2) ++ [(new, p)])).
Proof.
  intros Hp Hh Hpr Hin Hr.
  destruct (pinv_remove s Q ls c p pr Hp Hh Hpr Hin Hr)
    as (s1 & x & l1 & l2 & e & z & E1 & Hsm & Hh1 & EQ & Hl1 & Hp1 & He & Hz & Hlv & Ef).
  destruct (malloc_held s1 ls c 16 Hh1 (pi_alloc _ _ Hp1) ltac:(lia)) as (new & e2 & Em & _).
  assert (Hnz : new <> 0).
  { destruct (holding_wf _ _ _ Hh) as [Hw Hl]. rewrite He in Em.
    apply (mfree_malloc (env s) x z e 16 new e2 (pi_alloc _ _ Hp) Hw Hl Hlv Ef); [lia|lia|done]. }
  assert (Hpr1 : aget (procs s1) p = Some pr) by (destruct Hsm as [-> _]; done).
  assert (Hnp : p ∉ (upd Q (priority pr) (l1 ++ l2) (priority pr)).*2).
  { rewrite upd_eq. apply (nodup_mid l1 l2 x p). rewrite <- EQ. by apply (pi_once _ _ Hp). }
  destruct (pinv_insert s1 _ ls c p pr new e2 Hp1 Hh1 Hpr1 Hr Hnp Em Hnz) as (s2 & E2 & Hsm2 & Hh2 & Hp2).
  exists s1, s2, x, l1, l2, new. split_and!; try done; [by apply (same_procs_trans s s1)|].
  rewrite upd_eq in Hp2. eapply pinv_ext; [|exact Hp2]. intros i. by rewrite upd_twice.
Qed.

(** ** The scheduler *)

Lemma lock_ne n i : n ∈ ["proc"; "prio"; "pid"; "ticks"; "watchdog"]%string -> (n, i) <> alloc_lock.
Proof. intros Hn Ea. apply pe_lock. by rewrite <- Ea. Qed.

Lemma best_spec n ps Q i p :
  best n ps Q i = Some p ->
  exists j, i <= j < i + Z.of_nat n /\ first_runnable ps (Q j) = Some p /\
    forall k, i <= k < j -> first_runnable ps (Q k) = None.
Proof.
  revert i. induction n as [|n IH]; intros i Hb; cbn [best] in Hb; [done|].
  destruct (first_runnable ps (Q i)) as [q|] eqn:Ef.
  - injection Hb as ->. exists i. split_and!; [lia|lia|done|]. intros; lia.
  - destruct (IH (i + 1) Hb) as (j & Hj & Hf & Hno). exists j. split_and!; [lia|lia|done|].
    intros k Hk. destruct (decide (k = i)) as [->|]; [done|apply Hno; lia].
Qed.

Lemma first_runnable_spec ps l p :
  first_runnable ps l = Some p -> p ∈ l.*2 /\ runnable ps p = true.
Proof.
  unfold first_runnable. destruct (list_find _ l.*2) as [[k q]|] eqn:Ef; [|done]. intros [= ->].
  apply list_find_Some in Ef as (Hl & Hr & _). split; [by eapply list_elem_of_lookup_2|done].
Qed.

Lemma first_runnable_None ps l : first_runnable ps l = None <-> forall p, p ∈ l.*2 -> runnable ps p = false.
Proof.
  unfold first_runnable. destruct (list_find _ l.*2) as [[k q]|] eqn:Ef; cbn.
  - split; [done|]. intros Hn. apply list_find_Some in Ef as (Hl & Hr & _).
    rewrite Hn in Hr; [done|by eapply list_elem_of_lookup_2].
  - split; [|done]. intros _ p Hp. apply list_find_None in Ef. rewrite list.Forall_forall in Ef.
    apply Bool.not_true_iff_false. by apply Ef.
Qed.

(** A thread with no lock, on a CPU with interrupts off. *)
Record idle (c : ctx) : Prop := { idle_held : held c = []; idle_noff : noff c = 0; idle_intr : intr c = false }.

Lemma idle_wf c : idle c -> cx_wf c.
Proof. intros [H1 H2 H3]. split_and!; [by rewrite H1, H2|rewrite H1; constructor|done]. Qed.

(** The context of the scheduler once interrupts are off. *)
Definition off (c : ctx) : ctx :=
  {| noff := noff c; intena := intena c; intr := false; held := held c; mypid := mypid c; mykilled := mykilled c |}.

Lemma intr_toggle s (k : unit -> M (pstate E) (option Z)) :
  (intr_set true ;;; (intr_set false ;;; k tt)) s = k tt (set_cx (off (cx s)) s).
Proof.
  unfold intr_set. mstep. f_equal. rewrite cx_set, set_cx_twice. done.
Qed.

Definition set_running (s : pstate E) (p : Z) (pr : proc) : list proc :=
  <[Z.to_nat p := set_state RUNNING pr]> (procs s).

(** [pick_highest_priority_runnable_proc] from a thread without locks. *)
Lemma pick_ok s Q :
  pinv s Q -> idle (cx s) ->
  match best (Z.to_nat NPRIO) (procs s) Q 0 with
  | Some p => exists s', pick_highest_priority_runnable_proc s = Ret (Some p) s' /\
      s' = set_cx (with_locks [plock p; prio_lock] (cx s)) s /\ holding s' [plock p; prio_lock] (cx s) /\ pinv s' Q
  | None => pick_highest_priority_runnable_proc s = Ret None (set_cx (touch (cx s)) s)
  end.
Proof.
  intros Hp Hi. pose proof (idle_wf _ Hi) as Hw. pose proof (idle_held _ Hi) as Hheld.
  unfold pick_highest_priority_runnable_proc.
  destruct (acquire_first prio_lock s) as [E1 Hh1]; rewrite ?Hheld; try done;
    [apply not_elem_of_nil|apply lock_ne; set_solver|apply not_elem_of_nil|].
  set (s1 := set_cx _ s) in *. assert (Hp1 : pinv s1 Q) by (by apply pinv_cx).
  assert (Hnl : forall p, plock p ∉ [prio_lock] ++ held (cx s)) by (intros p; rewrite Hheld; set_solver).
  pose proof (pick_prio_ok (Z.to_nat NPRIO) 0 Q s1 (pi_q _ _ Hp1) (pinv_table _ _ Hp1) ltac:(lia) eq_refl) as E2.
  change (procs s1) with (procs s) in E2.
  destruct (best (Z.to_nat NPRIO) (procs s) Q 0) as [p|] eqn:Eb; run E1.
  - destruct (acquire_held (plock p) s1 [prio_lock] (cx s) Hh1 (Hnl p) ltac:(apply lock_ne; set_solver)) as [E3 Hh2].
    assert (E4 : pick_prio (Z.to_nat NPRIO) 0 s1 = Ret (Some p) (set_cx (with_locks [plock p; prio_lock] (cx s)) s1)).
    { rewrite E2; [cbn; by run E3|]. intros q [= <-]. rewrite (h_cx _ _ _ Hh1). apply Hnl. }
    run E4. eexists. split; [done|]. unfold s1 in *. rewrite set_cx_twice in *. split_and!; [done|done|].
    by apply pinv_cx.
  - assert (E4 : pick_prio (Z.to_nat NPRIO) 0 s1 = Ret None s1) by (by rewrite E2). run E4.
    destruct (release_held prio_lock s1 [prio_lock] (cx s) Hh1 ltac:(set_solver)) as [E5 _]. run E5. mstep.
    unfold ret. f_equal. unfold s1. rewrite set_cx_twice. cbn. by rewrite with_locks_nil.
Qed.

Lemma scheduler_pick_ok s Q p pr :
  pinv s Q -> idle (off (cx s)) -> best (Z.to_nat NPRIO) (procs s) Q 0 = Some p -> aget (procs s) p = Some pr ->
  exists s' x l1 l2 new, scheduler_pick s = Ret (Some p) s' /\
    Q (priority pr) = l1 ++ (x, p) :: l2 /\ p ∉ l1.*2 /\ 0 <= priority pr < NPRIO /\
    procs s' = set_running s p pr /\ cur s' = pptr p /\ initproc s' = initproc s /\ nextpid s' = nextpid s /\
    holding s' [plock p] (off (cx s)) /\ pinv s' (upd Q (priority pr) ((l1 ++ l2) ++ [(new, p)])).
Proof.
  intros Hp Hi Hb Hpr. destruct (best_spec _ _ _ _ _ Hb) as (j & Hj & Hf & _).
  destruct (first_runnable_spec _ _ _ Hf) as [Hin _].
  destruct (pi_prio _ _ Hp j p ltac:(lia) Hin) as (pr' & Hpr' & Ej). assert (pr' = pr) as -> by congruence.
  unfold scheduler_pick. rewrite (intr_toggle s (fun _ => _)). set (c := off (cx s)) in *. set (s0 := set_cx c s).
  assert (Ec : cx s0 = c) by apply cx_set. assert (Hp0 : pinv s0 Q) by (by apply pinv_cx).
  pose proof (pick_ok s0 Q Hp0 ltac:(by rewrite Ec)) as Hpick. change (procs s0) with (procs s) in Hpick.
  rewrite Hb, Ec in Hpick. destruct Hpick as (s1 & E1 & Es1 & Hh1 & Hp1). run E1.
  assert (Hpr1 : aget (procs s1) p = Some pr) by (by rewrite Es1).
  run (setp_ok p pr (set_state RUNNING) s1 Hpr1). mstep. set (s2 := set_cur _ _).
  assert (Hp2 : pinv s2 Q).
  { assert (Hx : pinv (set_procs (set_running s1 p pr) s1) Q) by (by eapply pinv_setp).
    destruct Hx as [[] ]. split; [by split|done..]. }
  assert (Hh2 : holding s2 [plock p; prio_lock] c) by (apply (holding_env s1); [done|exact (h_cx _ _ _ Hh1)]).
  assert (Hpr2 : aget (procs s2) p = Some (set_state RUNNING pr)) by (by eapply procs_set_eq).
  destruct (requeue_ok s2 Q _ c p _ Hp2 Hh2 Hpr2) as (s3 & s4 & x & l1 & l2 & new & E3 & E4 & Hsm & Hh4 & EQ & Hl1 & Hp4);
    [cbn; by rewrite Ej|cbn; lia|]. run E3. run E4.
  destruct (release_held prio_lock s4 _ c Hh4 ltac:(set_solver)) as [E5 Hh5]. run E5. mstep.
  eexists _, x, l1, l2, new. destruct Hsm as (Q1 & Q2 & Q3 & Q4 & _).
  assert (Erl : remove_lock prio_lock [plock p; prio_lock] = [plock p]) by done. rewrite Erl in *.
  split_and!; [done|done|done|lia|lia| | | | |done|by apply pinv_cx].
  - cbn. rewrite Q1. cbn. unfold set_running. by rewrite Es1.
  - cbn. by rewrite Q4.
  - cbn. rewrite Q2. cbn. by rewrite Es1.
  - cbn. rewrite Q3. cbn. by rewrite Es1.
Qed.
End Spec.
