(* ===== verification/ProcLife.v ===== *)
(** * Rounds of the scheduler

    What a process does between two switches when only the timer stops it, the
    round of the scheduler this makes, and the round-robin order of the
    processes of the best priority. *)

From S2P Require Import Prelude Riscv AllocI Proc ProcQueue ProcSpec.

(** The context with another interrupt flag. *)
Definition irq (b : bool) (c : ctx) : ctx :=
  {| noff := noff c; intena := intena c; intr := b; held := held c; mypid := mypid c; mykilled := mykilled c |}.

Section Life.
Context {E : Type} `{HasCtx E} `{!ProcEnv E}.

Lemma myproc_held s ls c : holding s ls c -> myproc s = Ret (cur s) s.
Proof. intros [Hw Hc _ _]. unfold myproc. by apply (push_pop_ok cur ls c). Qed.

Lemma set_touch_held (s : pstate E) : cx_wf (cx s) -> cx (set_cx (touch (cx s)) s) = with_locks [] (cx s).
Proof. intros Hw. by rewrite cx_set, with_locks_nil. Qed.

(** From any context, [myproc] leaves [intena] written. *)
Lemma myproc_touch (s : pstate E) : cx_wf (cx s) -> myproc s = Ret (cur s) (set_cx (touch (cx s)) s).
Proof.
  intros Hw. set (s1 := set_cx (touch (cx s)) s).
  assert (E1 : myproc s1 = Ret (cur s) s1).
  { change (cur s) with (cur s1). apply (push_pop_ok cur [] (cx s)); [done|by apply set_touch_held|done]. }
  rewrite <- E1. unfold myproc, push_off, s1. mstep. rewrite !cx_set, !set_cx_twice.
  replace (cx_push (touch (cx s))) with (cx_push (cx s)); [done|].
  unfold cx_push, touch. cbn [noff intena intr held mypid mykilled]. by destruct (noff (cx s) =? 0).
Qed.

Lemma sched_ok s i p c :
  holding s [plock i] c -> noff c = 0 -> cur s = pptr i -> aget (procs s) i = Some p -> state p <> RUNNING ->
  sched s = Sleep (Proc.chan p) s (fun s' => set_intena (intr c) s').
Proof.
  intros Hh Hn Hc Hp Hr. unfold sched. run (myproc_held _ _ _ Hh). rewrite Hc.
  replace (slot (pptr i)) with i by (unfold slot, pptr; lia). mstep.
  unfold holds. rewrite (h_cx _ _ _ Hh). rewrite bool_decide_eq_true_2 by (cbn; set_solver). cbn [negb]. mstep.
  rewrite (h_cx _ _ _ Hh). cbn [with_locks noff length intr]. rewrite Hn. change (negb (0 + Z.of_nat 1 =? 1)) with false. cbv iota.
  run (getp_ok _ _ _ Hp). rewrite decide_False by done. unfold swtch, bind. cbn [rbind with_locks intena]. by rewrite Hn.
Qed.

(** A new value of [intena] decides the interrupts after the last release. *)
Lemma set_intena_held s l c b :
  holding s [l] c -> noff c = 0 -> exists s', set_intena b s = Ret tt s' /\ s' = set_cx (with_locks [l] (irq b c)) s /\
    holding s' [l] (irq b c).
Proof.
  intros [Hw Hc Hd Ha] Hn. eexists. split; [done|].
  assert (Ec : with_locks [l] (irq b c) = {| noff := noff (cx s); intena := b; intr := intr (cx s);
    held := held (cx s); mypid := mypid (cx s); mykilled := mykilled (cx s) |}).
  { rewrite Hc. unfold with_locks, irq. cbn. by rewrite Hn. }
  rewrite Ec. split; [done|]. split; [|by rewrite <- Ec; apply cx_set|done|done].
  destruct Hw as (H1 & H2 & H3). split_and!; [done|done|]. cbn. lia.
Qed.

(** The thread that holds nothing but the lock of its process lets it go. *)
Lemma release_last s l c :
  holding s [l] c -> release l s = Ret tt (set_cx (touch c) s).
Proof.
  intros Hh. destruct (release_held l s [l] c Hh ltac:(set_solver)) as [E1 _]. rewrite E1. cbn.
  rewrite decide_True by done. by rewrite with_locks_nil.
Qed.

(** A thread without locks. *)
Record free (c : ctx) : Prop := { free_held : held c = []; free_noff : noff c = 0 }.

Lemma free_wf c : free c -> cx_wf c.
Proof. intros [H1 H2]. split_and!; [by rewrite H1, H2|rewrite H1; constructor|lia]. Qed.

Lemma acquire_free l (s : pstate E) :
  free (cx s) -> l <> alloc_lock ->
  acquire l s = Ret tt (set_cx (with_locks [l] (cx s)) s) /\ holding (set_cx (with_locks [l] (cx s)) s) [l] (cx s).
Proof.
  intros Hf Hl. pose proof (free_held _ Hf) as Hh.
  apply acquire_first; rewrite ?Hh; [by apply free_wf|apply not_elem_of_nil|done|apply not_elem_of_nil].
Qed.

Lemma plock_ne i : plock i <> alloc_lock.
Proof. apply lock_ne. set_solver. Qed.

(** [yield]: the process is runnable when it leaves the CPU, and when it comes
    back it holds nothing. *)
Lemma yield_ok s i p :
  free (cx s) -> cur s = pptr i -> aget (procs s) i = Some p ->
  exists s' k, yield s = Sleep (Proc.chan p) s' k /\
    s' = set_procs (<[Z.to_nat i := set_state RUNNABLE p]> (procs s)) (set_cx (with_locks [plock i] (cx s)) s) /\
    holding s' [plock i] (cx s) /\
    (forall s2 c, holding s2 [plock i] c -> noff c = 0 ->
      k s2 = Ret tt (set_cx (touch (irq (intr (cx s)) c)) s2)).
Proof.
  intros Hf Hc Hp. unfold yield. run (myproc_touch s (free_wf _ Hf)). rewrite Hc.
  replace (slot (pptr i)) with i by (unfold slot, pptr; lia). set (s1 := set_cx _ s).
  assert (Hf1 : free (cx s1)) by (unfold s1; rewrite cx_set; destruct Hf; by split).
  destruct (acquire_free (plock i) s1 Hf1 (plock_ne i)) as [E1 Hh1].
  assert (Ew : with_locks [plock i] (cx s1) = with_locks [plock i] (cx s)).
  { unfold s1. rewrite cx_set. apply with_locks_touch. }
  rewrite Ew in E1, Hh1. run E1. set (s2 := set_cx _ s1) in *.
  assert (Es2 : s2 = set_cx (with_locks [plock i] (cx s)) s) by (apply set_cx_twice).
  assert (Hp2 : aget (procs s2) i = Some p) by done. run (setp_ok i p (set_state RUNNABLE) s2 Hp2).
  set (s3 := set_procs _ s2). assert (Hh3 : holding s3 [plock i] (cx s)).
  { destruct Hh1. split; [by apply free_wf|by unfold s3; cbn -[s2]; rewrite Es2; apply cx_set| |].
    - rewrite (free_held _ Hf). apply NoDup_singleton.
    - rewrite (free_held _ Hf), app_nil_r, list_elem_of_singleton. intros Ea. by apply (plock_ne i). }
  rewrite (bind_sleep _ _ _ _ _ _ (sched_ok s3 i _ (cx s) Hh3 (free_noff _ Hf) Hc (procs_set_eq s2 i p _ Hp2) ltac:(done))).
  eexists _, _. split; [done|]. split; [unfold s3; by rewrite Es2|]. split; [done|].
  intros s4 c Hh4 Hn. destruct (set_intena_held s4 _ c (intr (cx s)) Hh4 Hn) as (s5 & E5 & -> & Hh5).
  cbn beta. rewrite E5. cbn [rbind]. rewrite (release_last _ _ _ Hh5). by rewrite set_cx_twice.
Qed.

(** ** Rounds *)

(** What process [p] executes between two switches when the timer stops it:
    the rest of the [yield] that had left the CPU, then, after the trap has
    disabled interrupts, [yield] again. *)
Definition quantum (b : bool) (p : Z) : M (pstate E) unit :=
  set_intena b ;;;
  release (plock p) ;;;
  intr_set false ;;;
  yield.

(** One iteration of the loop of [scheduler] with such a process: the process
    picked, if any, and the state after it. *)
Definition round (b : bool) (s : pstate E) : option (option Z * pstate E) :=
  match scheduler_pick s with
  | Ret None s' => Some (None, s')
  | Ret (Some p) s1 =>
      match quantum b p s1 with
      | Sleep _ s2 _ =>
          match scheduler_done p s2 with
          | Ret _ s3 => Some (Some p, s3)
          | _ => None
          end
      | _ => None
      end
  | _ => None
  end.

(** [n] iterations: the processes picked, in order. *)
Fixpoint rounds (b : bool) (n : nat) (s : pstate E) : option (list Z * pstate E) :=
  match n with
  | O => Some ([], s)
  | S n =>
      '(r, s1) ← round b s;
      '(l, s2) ← rounds b n s1;
      Some ((if r is Some p then p :: l else l), s2)
  end.

Lemma pinv_same s s' Q :
  pinv s Q -> prio s' = prio s -> lps s' = lps s -> env s' = env s -> procs s' = procs s -> pinv s' Q.
Proof.
  intros [[H1 H2 H3 H4 H5] H6 H7 H8 H9] Ep El Ee Es.
  split; [split|..]; rewrite ?Ep, ?El, ?Ee, ?Es; done.
Qed.

Lemma quantum_ok b s p pr c Q :
  pinv s Q -> holding s [plock p] c -> free c -> cur s = pptr p -> aget (procs s) p = Some pr ->
  exists s' k d, quantum b p s = Sleep (Proc.chan pr) s' k /\ free d /\ holding s' [plock p] d /\ pinv s' Q /\
    procs s' = <[Z.to_nat p := set_state RUNNABLE pr]> (procs s).
Proof.
  intros Hp Hh Hf Hc Hpr. unfold quantum.
  destruct (set_intena_held s _ c b Hh (free_noff _ Hf)) as (s1 & E1 & Es1 & Hh1). run E1.
  run (release_last _ _ _ Hh1). set (s2 := set_cx _ s1). unfold intr_set at 1. mstep. set (s3 := set_cx _ s2).
  assert (Hf3 : free (cx s3)).
  { unfold s3. rewrite cx_set. unfold s2. rewrite cx_set. destruct Hf. by split. }
  destruct (yield_ok s3 p pr Hf3) as (s4 & k & E4 & Es4 & Hh4 & _); [by subst s1|by subst s1|].
  exists s4, k, (cx s3). split_and!; [done|done|done| |by subst s4 s1].
  rewrite Es4. set (s5 := set_cx _ s3). change (procs s3) with (procs s5). apply (pinv_setp s5 Q p pr); [|by subst s1|done].
  apply pinv_cx. unfold s3. apply pinv_cx. unfold s2. apply pinv_cx. subst s1. by apply pinv_cx.
Qed.

Lemma scheduler_done_ok s p d Q :
  pinv s Q -> holding s [plock p] d -> free d ->
  exists s', scheduler_done p s = Ret tt s' /\ pinv s' Q /\ procs s' = procs s /\ free (cx s') /\ intr (cx s') = false.
Proof.
  intros Hp Hh Hf. unfold scheduler_done. mstep. set (s1 := set_cur 0 s).
  assert (Hh1 : holding s1 [plock p] d) by (by destruct Hh; split).
  destruct (set_intena_held s1 _ d false Hh1 (free_noff _ Hf)) as (s2 & E2 & Es2 & Hh2). run E2.
  rewrite (release_last _ _ _ Hh2). eexists. split; [done|]. rewrite cx_set. split_and!; [|by subst s2| |done].
  - apply pinv_cx. subst s2. apply pinv_cx. by apply (pinv_same s).
  - destruct Hf. by split.
Qed.

(** A round with a runnable process: it goes to the tail of its queue, and the
    table is as before. *)
Lemma round_ok b s Q p :
  pinv s Q -> free (cx s) -> best (Z.to_nat NPRIO) (procs s) Q 0 = Some p ->
  exists s' pr x l1 l2 new, round b s = Some (Some p, s') /\ aget (procs s) p = Some pr /\
    Q (priority pr) = l1 ++ (x, p) :: l2 /\ p ∉ l1.*2 /\ procs s' = procs s /\ free (cx s') /\
    pinv s' (upd Q (priority pr) ((l1 ++ l2) ++ [(new, p)])).
Proof.
  intros Hp Hf Hb. destruct (best_spec _ _ _ _ _ Hb) as (j & Hj & Hf' & _).
  destruct (first_runnable_spec _ _ _ Hf') as [Hin Hr].
  destruct (pi_prio _ _ Hp j p ltac:(lia) Hin) as (pr & Hpr & Ej).
  assert (Hi : idle (off (cx s))) by (destruct Hf; by split).
  assert (Hfo : free (off (cx s))) by (destruct Hf; by split).
  destruct (scheduler_pick_ok s Q p pr Hp Hi Hb Hpr)
    as (s1 & x & l1 & l2 & new & E1 & EQ & Hl1 & Hprio & Eps & Ec & _ & _ & Hh1 & Hp1).
  assert (Hpr1 : aget (procs s1) p = Some (set_state RUNNING pr)) by (rewrite Eps; by eapply procs_set_eq).
  destruct (quantum_ok b s1 p _ _ _ Hp1 Hh1 Hfo Ec Hpr1) as (s2 & k & d & E2 & Hd & Hh2 & Hp2 & Eps2).
  destruct (scheduler_done_ok s2 p d _ Hp2 Hh2 Hd) as (s3 & E3 & Hp3 & Eps3 & Hf3 & _).
  exists s3, pr, x, l1, l2, new. unfold round. rewrite E1, E2, E3. split_and!; try done.
  rewrite Eps3, Eps2, Eps. unfold set_running. rewrite list_insert_insert, decide_True by done.
  apply list_insert_id. unfold aget in Hpr. rewrite decide_True in Hpr by (apply aget_Some_lt in Hpr; lia).
  rewrite Hpr. f_equal. unfold runnable in Hr. unfold aget in Hr. case_decide; [|done]. rewrite Hpr in Hr.
  apply bool_decide_eq_true in Hr. destruct pr. cbn in *. by subst.
Qed.

(** ** Round robin *)

Lemma best_intro n ps Q i j p :
  i <= j < i + Z.of_nat n -> (forall k, i <= k < j -> first_runnable ps (Q k) = None) ->
  first_runnable ps (Q j) = Some p -> best n ps Q i = Some p.
Proof.
  revert i. induction n as [|n IH]; intros i Hj Hno Hf; [lia|]. cbn [best].
  destruct (decide (i = j)) as [->|Hne]; [by rewrite Hf|]. rewrite Hno by lia.
  apply IH; [lia| |done]. intros. apply Hno. lia.
Qed.

Lemma best_some n ps Q i j p :
  i <= j < i + Z.of_nat n -> first_runnable ps (Q j) = Some p -> exists q, best n ps Q i = Some q.
Proof.
  revert i. induction n as [|n IH]; intros i Hj Hf; [lia|]. cbn [best].
  destruct (first_runnable ps (Q i)) as [q|] eqn:Ei; [eauto|].
  apply IH; [|done]. destruct (decide (i = j)) as [->|]; [congruence|lia].
Qed.

Abbreviation ready ps := (fun p => runnable ps p = true).

Lemma first_runnable_app ps l p l1 l2 :
  l.*2 = l1 ++ p :: l2 -> Forall (fun q => ~ ready ps q) l1 -> ready ps p -> first_runnable ps l = Some p.
Proof.
  intros El Hl1 Hp. unfold first_runnable. rewrite El.
  rewrite (list_find_app_r _ _ _ (proj2 (list_find_None _ _) Hl1)). cbn [list_find]. by rewrite decide_True.
Qed.

(** The first element that satisfies a predicate. *)
Lemma filter_cons_split ps l p r :
  filter (ready ps) l = p :: r -> exists l1 l2, l = l1 ++ p :: l2 /\ Forall (fun q => ~ ready ps q) l1 /\
    ready ps p /\ filter (ready ps) l2 = r.
Proof.
  induction l as [|q l IH]; [done|]. rewrite filter_cons. case_decide as Hq.
  - intros [= -> <-]. exists [], l. by split_and!.
  - intros Hl. destruct (IH Hl) as (l1 & l2 & -> & H1 & H2 & H3). exists (q :: l1), l2. split_and!; auto.
Qed.

Lemma filter_none ps l : Forall (fun q => ~ ready ps q) l -> filter (ready ps) l = [] /\ filter (fun q => ~ ready ps q) l = l.
Proof.
  induction 1 as [|q l Hq Hl [IH1 IH2]]; [done|]. rewrite !filter_cons.
  rewrite decide_False, decide_True by done. by rewrite IH1, IH2.
Qed.

Lemma split_unique (p : Z) a1 a2 b1 b2 :
  a1 ++ p :: a2 = b1 ++ p :: b2 -> p ∉ a1 -> p ∉ b1 -> a1 = b1 /\ a2 = b2.
Proof.
  revert b1. induction a1 as [|x a1 IH]; intros [|y b1] He Ha Hb; cbn in He; injection He.
  - done.
  - set_solver.
  - set_solver.
  - intros He' <-. destruct (IH b1 He') as [-> ->]; [set_solver|set_solver|done].
Qed.

Lemma rounds_ok b ps : forall s Q i l rest,
  pinv s Q -> free (cx s) -> 0 <= i < NPRIO -> (forall k, 0 <= k < i -> first_runnable (procs s) (Q k) = None) ->
  (Q i).*2 = l ++ rest -> filter (ready (procs s)) l = ps ->
  exists s' Q', rounds b (length ps) s = Some (ps, s') /\ pinv s' Q' /\ free (cx s') /\ procs s' = procs s /\
    (forall k, k <> i -> Q' k = Q k) /\ (Q' i).*2 = filter (fun q => ~ ready (procs s) q) l ++ rest ++ ps.
Proof.
  induction ps as [|p ps IH]; intros s Q i l rest Hp Hf Hi Hno El Efl.
  { exists s, Q. split_and!; try done. rewrite app_nil_r, El. f_equal. symmetry.
    apply filter_none. apply list.Forall_forall. intros q Hq Hr.
    assert (Hx : q ∈ filter (ready (procs s)) l) by (by apply list_elem_of_filter). rewrite Efl in Hx.
    by apply not_elem_of_nil in Hx. }
  destruct (filter_cons_split _ _ _ _ Efl) as (l1 & l2 & -> & Hl1 & Hrp & Efl2). rewrite <- app_assoc in El. cbn in El.
  assert (Hb : best (Z.to_nat NPRIO) (procs s) Q 0 = Some p).
  { apply (best_intro _ _ _ _ i); [lia|done|]. by apply (first_runnable_app _ _ _ l1 (l2 ++ rest)). }
  destruct (round_ok b s Q p Hp Hf Hb) as (s1 & pr & x & a1 & a2 & new & E1 & Hpr & EQ & Ha1 & Eps & Hf1 & Hp1).
  destruct (pi_prio _ _ Hp i p Hi) as (pr' & Hpr' & Ei); [rewrite El; set_solver|].
  assert (pr' = pr) as -> by congruence. rewrite Ei in *. clear Hpr'.
  destruct (split_unique p a1.*2 a2.*2 l1 (l2 ++ rest)) as [Ea1 Ea2]; [|done| |].
  { rewrite <- El, EQ, fmap_app. done. }
  { intros Hx. rewrite list.Forall_forall in Hl1. by apply (Hl1 p). }
  destruct (IH s1 (upd Q i ((a1 ++ a2) ++ [(new, p)])) i (l1 ++ l2) (rest ++ [p]))
    as (s2 & Q2 & E2 & Hp2 & Hf2 & Eps2 & HQ2 & EQ2); [done|done|done| | | |].
  - intros k Hk. rewrite upd_ne, Eps by lia. by apply Hno.
  - rewrite upd_eq, !fmap_app, Ea1, Ea2. cbn. by rewrite <- !app_assoc.
  - rewrite Eps, list.filter_app, Efl2. by rewrite (proj1 (filter_none _ _ Hl1)).
  - exists s2, Q2. split_and!; [|done|done|congruence| |].
    + cbn [rounds length]. rewrite E1. cbn [mbind option_bind]. by rewrite E2.
    + intros k Hk. rewrite HQ2 by done. by apply upd_ne.
    + rewrite EQ2, Eps, !list.filter_app, filter_cons, decide_False by (intros Hx; by apply Hx).
      by rewrite <- !app_assoc.
Qed.

(** A process that is in no queue. *)
Definition queued_nowhere (Q : Z -> list (Z * Z)) (p : Z) : Prop := forall k, 0 <= k < NPRIO -> p ∉ (Q k).*2.

(** The scheduler goes on, and such a process is not picked. *)
Lemma rounds_absent b n : forall s Q p,
  pinv s Q -> free (cx s) -> queued_nowhere Q p ->
  exists l s' Q', rounds b n s = Some (l, s') /\ p ∉ l /\ pinv s' Q' /\ queued_nowhere Q' p /\ procs s' = procs s.
Proof.
  induction n as [|n IH]; intros s Q p Hp Hf Hno; cbn [rounds]; [exists [], s, Q; split_and!; try done; apply not_elem_of_nil|].
  destruct (best (Z.to_nat NPRIO) (procs s) Q 0) as [q|] eqn:Hb.
  - destruct (round_ok b s Q q Hp Hf Hb) as (s1 & pr & x & a1 & a2 & new & E1 & Hpr & EQ & Ha1 & Eps & Hf1 & Hp1).
    destruct (best_spec _ _ _ _ _ Hb) as (j & Hj & Hfr & _). destruct (first_runnable_spec _ _ _ Hfr) as [Hin _].
    assert (Hq : p <> q) by (intros ->; by apply (Hno j ltac:(lia))).
    destruct (IH s1 _ p Hp1 Hf1) as (l & s2 & Q2 & E2 & Hl & Hp2 & Hn2 & Eps2).
    { intros k Hk. destruct (decide (k = priority pr)) as [->|]; [|rewrite upd_ne by done; by apply Hno].
      rewrite upd_eq. specialize (Hno _ Hk). rewrite EQ, fmap_app in Hno. rewrite !fmap_app. cbn in *. set_solver. }
    exists (q :: l), s2, Q2. rewrite E1. cbn [mbind option_bind]. rewrite E2. split_and!; try done; [set_solver|congruence].
  - assert (E1 : exists s1, round b s = Some (None, s1) /\ pinv s1 Q /\ free (cx s1) /\ procs s1 = procs s).
    { unfold round, scheduler_pick. rewrite (intr_toggle s (fun _ => _)). set (s0 := set_cx (off (cx s)) s).
      pose proof (pick_ok s0 Q (pinv_cx _ _ _ Hp)) as Hpk. change (procs s0) with (procs s) in Hpk. rewrite Hb in Hpk.
      assert (Hc0 : cx s0 = off (cx s)) by apply cx_set. rewrite Hc0 in Hpk.
      run (Hpk ltac:(destruct Hf; by split)). mstep. eexists. split; [done|]. split; [by apply pinv_cx, pinv_cx|].
      split; [|done]. rewrite cx_set. destruct Hf. by split. }
    destruct E1 as (s1 & E1 & Hp1 & Hf1 & Eps). destruct (IH s1 Q p Hp1 Hf1 Hno) as (l & s2 & Q2 & E2 & Hl & Hp2 & Hn2 & Eps2).
    exists l, s2, Q2. rewrite E1. cbn [mbind option_bind]. rewrite E2. split_and!; try done. congruence.
Qed.
End Life.
