(* ===== verification/ProcCalls.v ===== *)
(** * wakeup, kill, sleep, nice, exit, and the clock

    What the operations of proc.c other processes or the clock call do to the
    process table, from a thread that holds none of the locks they take. *)

From S2P Require Import Prelude Riscv AllocI Proc ProcQueue ProcSpec ProcLife.

Section Calls.
Context {E : Type} `{HasCtx E} `{!ProcEnv E}.

(** A thread that holds none of the process locks. *)
Definition unlocked (s : pstate E) : Prop := cx_wf (cx s) /\ forall i, plock i ∉ held (cx s).

(** A critical section that ends in [s'] with the context unchanged. *)
Lemma acquire_any l (s : pstate E) : l ∉ held (cx s) -> acquire l s = Ret tt (set_cx (locked_cx l (cx s)) s).
Proof. apply acquire_ok. Qed.

Lemma release_any l (s s' : pstate E) :
  cx_wf (cx s) -> l ∉ held (cx s) -> cx s' = locked_cx l (cx s) -> release l s' = Ret tt (set_cx (touch (cx s)) s').
Proof. intros Hw Hl Hc. apply release_ok; [done|done|]. by rewrite locked_touch. Qed.

Lemma unlocked_touch s ps : unlocked s -> unlocked (set_procs ps (set_cx (touch (cx s)) s)).
Proof. intros [Hw Hl]. split; cbn; rewrite cx_set; [by apply touch_wf|done]. Qed.

(** The table with [f] applied from index [i] on. *)
Definition map_from (i : nat) (f : proc -> proc) (l : list proc) : list proc := take i l ++ (f <$> drop i l).

Lemma map_from_step i f l p :
  l !! i = Some p -> map_from (S i) f (<[i := f p]> l) = map_from i f l.
Proof.
  intros Hp. unfold map_from. rewrite drop_insert_lt by lia.
  rewrite (drop_S l p i Hp), fmap_cons.
  rewrite (take_S_r _ i (f p)) by (apply list_lookup_insert_eq; by eapply lookup_lt_Some).
  rewrite take_insert_ge by lia. by rewrite <- app_assoc.
Qed.

Definition wake (c : Z) (p : proc) : proc :=
  if decide (state p = SLEEPING /\ Proc.chan p = c) then set_state RUNNABLE p else p.

Lemma getp_nat (s : pstate E) (i : nat) p : procs s !! i = Some p -> aget (procs s) (Z.of_nat i) = Some p.
Proof. intros Hp. unfold aget. rewrite decide_True by lia. by rewrite Nat2Z.id. Qed.

Lemma set_procs_id (s : pstate E) : set_procs (procs s) s = s.
Proof. by destruct s. Qed.

Lemma wakeup_loop_ok n c : forall i s,
  unlocked s -> (i + n = length (procs s))%nat ->
  wakeup_loop n (Z.of_nat i) c s =
  Ret tt (set_procs (map_from i (wake c) (procs s)) (if n is O then s else set_cx (touch (cx s)) s)).
Proof.
  induction n as [|n IH]; intros i s [Hw Hl] Hlen; cbn [wakeup_loop].
  { unfold map_from, ret. rewrite take_ge, drop_ge by lia. cbn. by rewrite app_nil_r, set_procs_id. }
  destruct (lookup_lt_is_Some_2 (procs s) i) as [p Hp]; [lia|].
  run (acquire_any _ s (Hl (Z.of_nat i))). set (s1 := set_cx _ s).
  run (getp_ok (Z.of_nat i) p s1 (getp_nat s i p Hp)).
  set (s2 := set_procs (<[i := wake c p]> (procs s)) s1).
  assert (E2 : (if decide (state p = SLEEPING /\ Proc.chan p = c) then setp (Z.of_nat i) (set_state RUNNABLE) else ret tt) s1
    = Ret tt s2).
  { unfold s2, wake. case_decide.
    - rewrite (setp_ok _ p) by (by apply getp_nat). by rewrite Nat2Z.id.
    - rewrite list_insert_id by done. unfold ret. by f_equal. }
  run E2. assert (Ec : cx s2 = locked_cx (plock (Z.of_nat i)) (cx s)) by apply cx_set.
  run (release_any _ s s2 Hw (Hl _) Ec). set (s3 := set_cx _ s2).
  assert (Es3 : s3 = set_procs (<[i := wake c p]> (procs s)) (set_cx (touch (cx s)) s)).
  { unfold s3, s2, s1. cbn. unfold set_procs, set_env. cbn. by rewrite set_cx_twice. }
  replace (Z.of_nat i + 1) with (Z.of_nat (S i)) by lia.
  rewrite IH; [|rewrite Es3; by apply unlocked_touch|rewrite Es3; cbn; rewrite length_insert; lia].
  rewrite Es3. cbn [procs set_procs]. change (procs (set_cx (touch (cx s)) s)) with (procs s).
  rewrite (map_from_step i (wake c) _ p Hp). f_equal. destruct n; [done|].
  unfold set_procs. cbn. unfold set_env. cbn. by rewrite cx_set, touch_idemp, set_cx_twice.
Qed.

(** A thread that holds the lock of some process cannot call [wakeup]. *)
Lemma wakeup_loop_held n c : forall i j s,
  cx_wf (cx s) -> (forall k, (k < j)%nat -> plock (Z.of_nat k) ∉ held (cx s)) -> plock (Z.of_nat j) ∈ held (cx s) ->
  (i <= j < i + n)%nat -> (i + n = length (procs s))%nat -> wakeup_loop n (Z.of_nat i) c s = Panic "acquire".
Proof.
  induction n as [|n IH]; intros i j s Hw Hno Hj Hij Hlen; [lia|]. cbn [wakeup_loop].
  destruct (decide (i = j)) as [->|Hne]; [unfold bind at 1; by rewrite acquire_twice|].
  destruct (lookup_lt_is_Some_2 (procs s) i) as [p Hp]; [lia|].
  assert (Hl : plock (Z.of_nat i) ∉ held (cx s)) by (apply Hno; lia).
  run (acquire_any _ s Hl). set (s1 := set_cx _ s). run (getp_ok (Z.of_nat i) p s1 (getp_nat s i p Hp)).
  assert (E2 : exists ps, (if decide (state p = SLEEPING /\ Proc.chan p = c) then setp (Z.of_nat i) (set_state RUNNABLE)
    else ret tt) s1 = Ret tt (set_procs ps s1) /\ length ps = length (procs s)).
  { case_decide.
    - eexists. split; [apply (setp_ok _ p); by apply getp_nat|by rewrite length_insert].
    - exists (procs s1). split; [unfold ret; by rewrite set_procs_id|done]. }
  destruct E2 as (ps & E2 & Hps). run E2.
  run (release_any (plock (Z.of_nat i)) s (set_procs ps s1) Hw Hl ltac:(apply cx_set)).
  replace (Z.of_nat i + 1) with (Z.of_nat (S i)) by lia. apply (IH (S i) j); try (rewrite cx_set; done); [lia|].
  cbn. rewrite Hps. lia.
Qed.

(** The first process lock among those held. *)
Lemma first_held (s : pstate E) i :
  plock (Z.of_nat i) ∈ held (cx s) ->
  exists j, (j <= i)%nat /\ plock (Z.of_nat j) ∈ held (cx s) /\ forall k, (k < j)%nat -> plock (Z.of_nat k) ∉ held (cx s).
Proof.
  induction i as [i IH] using lt_wf_ind. intros Hi.
  destruct (decide (Exists (fun k => plock (Z.of_nat k) ∈ held (cx s)) (seq 0 i))) as [Hx|Hx].
  - apply list.Exists_exists in Hx as (k & Hk%elem_of_seq & Hin). destruct (IH k ltac:(lia) Hin) as (j & ? & ?).
    exists j. split; [lia|done].
  - exists i. split_and!; [done|done|]. intros k Hk Hin. apply Hx, list.Exists_exists. exists k.
    split; [apply elem_of_seq; lia|done].
Qed.

(** ** kill *)

Definition struck (p : proc) : proc :=
  if decide (state p = SLEEPING) then set_state RUNNABLE (set_killed 1 p) else set_killed 1 p.

Lemma kill_loop_ok n pd : forall i s,
  unlocked s -> (i + n = length (procs s))%nat ->
  kill_loop n (Z.of_nat i) pd s =
  let s1 := if n is O then s else set_cx (touch (cx s)) s in
  match list_find (fun p => pid p = pd) (drop i (procs s)) with
  | Some (k, p) => Ret 0 (set_procs (<[(i + k)%nat := struck p]> (procs s)) s1)
  | None => Ret (-1) s1
  end.
Proof.
  induction n as [|n IH]; intros i s [Hw Hl] Hlen; cbn [kill_loop].
  { rewrite drop_ge by lia. done. }
  destruct (lookup_lt_is_Some_2 (procs s) i) as [p Hp]; [lia|].
  run (acquire_any _ s (Hl (Z.of_nat i))). set (s1 := set_cx _ s).
  run (getp_ok (Z.of_nat i) p s1 (getp_nat s i p Hp)).
  rewrite (drop_S _ _ _ Hp). cbn [list_find]. destruct (Z.eqb_spec (pid p) pd) as [Epd|Epd].
  - destruct (decide (pid p = pd)); [|done]. rewrite Nat.add_0_r.
    set (s2 := set_procs (<[i := struck p]> (procs s)) s1).
    assert (Ps1 : aget (procs s1) (Z.of_nat i) = Some p) by (by apply getp_nat).
    run (setp_ok _ p (set_killed 1) s1 Ps1).
    assert (E2 : (if decide (state p = SLEEPING) then setp (Z.of_nat i) (set_state RUNNABLE) else ret tt)
      (set_procs (<[Z.to_nat (Z.of_nat i) := set_killed 1 p]> (procs s1)) s1) = Ret tt s2).
    { unfold s2, struck. rewrite Nat2Z.id. case_decide; [|done].
      rewrite (setp_ok _ (set_killed 1 p)) by (pose proof (procs_set_eq s1 _ _ (set_killed 1 p) Ps1) as Hx; by rewrite Nat2Z.id in Hx).
      f_equal. unfold set_procs. cbn. f_equal. rewrite Nat2Z.id, list_insert_insert. by rewrite decide_True. }
    run E2. assert (Ec : cx s2 = locked_cx (plock (Z.of_nat i)) (cx s)) by apply cx_set.
    run (release_any _ s s2 Hw (Hl _) Ec). unfold ret. f_equal. unfold s2, s1, set_procs. cbn. unfold set_env. cbn.
    by rewrite set_cx_twice.
  - destruct (decide (pid p = pd)); [done|].
    assert (Ec : cx s1 = locked_cx (plock (Z.of_nat i)) (cx s)) by apply cx_set.
    run (release_any _ s s1 Hw (Hl _) Ec). unfold s1. rewrite set_cx_twice.
    replace (Z.of_nat i + 1) with (Z.of_nat (S i)) by lia. set (s3 := set_cx _ s).
    rewrite IH; [|split; unfold s3; rewrite cx_set; [by apply touch_wf|done]|unfold s3; cbn; lia].
    change (procs s3) with (procs s).
    assert (Es : (if n is O then s3 else set_cx (touch (cx s3)) s3) = s3).
    { destruct n; [done|]. unfold s3. by rewrite cx_set, touch_idemp, set_cx_twice. }
    rewrite Es. cbn zeta. destruct (list_find _ (drop (S i) (procs s))) as [[k q]|]; cbn; [|done].
    do 3 f_equal. lia.
Qed.

(** ** sleep *)

Lemma slot_pptr i : slot (pptr i) = i.
Proof. unfold slot, pptr. lia. Qed.

(** [sleep(chan, lk)] by process [i], which holds [lk] only: the lock is free
    and the process asleep on [chan] when it leaves the CPU; when it comes back
    it takes the lock again. *)
Lemma sleep_ok s i p c chan lk :
  holding s [lk] c -> free c -> lk <> plock i -> cur s = pptr i -> aget (procs s) i = Some p ->
  exists s' k, sleep chan lk s = Sleep chan s' k /\
    s' = set_procs (<[Z.to_nat i := set_state SLEEPING (set_chan chan p)]> (procs s)) (set_cx (with_locks [plock i] c) s) /\
    holding s' [plock i] c /\
    (forall s2 d q, holding s2 [plock i] d -> free d -> aget (procs s2) i = Some q ->
      k s2 = Ret tt (set_procs (<[Z.to_nat i := set_chan 0 q]> (procs s2)) (set_cx (with_locks [lk] (irq (intr c) d)) s2))).
Proof.
  intros Hh Hf Hlk Hc Hp. unfold sleep. run (myproc_held _ _ _ Hh). rewrite Hc, slot_pptr. cbn zeta.
  rewrite !decide_False by done.
  destruct (acquire_held (plock i) s [lk] c Hh) as [E1 Hh1];
    [rewrite (free_held _ Hf); set_solver|apply plock_ne|].
  set (s1 := set_cx _ s) in *.
  destruct (release_held lk s1 _ c Hh1 ltac:(set_solver)) as [E2 Hh2].
  replace (remove_lock lk [plock i; lk]) with [plock i] in E2, Hh2
    by (cbn; rewrite decide_False, decide_True by done; done).
  assert (E12 : (acquire (plock i) ;;; release lk) s = Ret tt (set_cx (with_locks [plock i] c) s)).
  { run E1. rewrite E2. unfold s1. by rewrite set_cx_twice. }
  run E12. replace (set_cx (with_locks [plock i] c) s1) with (set_cx (with_locks [plock i] c) s) in Hh2
    by (unfold s1; by rewrite set_cx_twice). clear s1 E1 Hh1 E2 E12. set (s2 := set_cx _ s) in *.
  assert (Hp2 : aget (procs s2) i = Some p) by done. run (setp_ok i p (set_chan chan) s2 Hp2).
  set (sc := set_procs _ s2). run (setp_ok i _ (set_state SLEEPING) sc (procs_set_eq s2 i p (set_chan chan p) Hp2)).
  set (s3 := set_procs _ _).
  assert (Es3 : s3 = set_procs (<[Z.to_nat i := set_state SLEEPING (set_chan chan p)]> (procs s)) s2).
  { unfold s3, set_procs. cbn. f_equal. rewrite list_insert_insert. by rewrite decide_True. }
  assert (Hh3 : holding s3 [plock i] c) by (by rewrite Es3; destruct Hh2; split).
  assert (Hp3 : aget (procs s3) i = Some (set_state SLEEPING (set_chan chan p))) by (rewrite Es3; by eapply procs_set_eq).
  rewrite (bind_sleep _ _ _ _ _ _ (sched_ok s3 i _ c Hh3 (free_noff _ Hf) ltac:(by rewrite Es3) Hp3 ltac:(done))).
  eexists _, _. split; [done|]. split; [exact Es3|]. split; [done|]. intros s4 d q Hh4 Hd Hq. cbn beta.
  destruct (set_intena_held s4 _ d (intr c) Hh4 (free_noff _ Hd)) as (s5 & E5 & Es5 & Hh5). rewrite E5. cbn [rbind].
  assert (Hq5 : aget (procs s5) i = Some q) by (by subst s5). run (setp_ok i q (set_chan 0) s5 Hq5).
  set (s6 := set_procs _ s5). assert (Hh6 : holding s6 [plock i] (irq (intr c) d)) by (by destruct Hh5; split).
  run (release_last _ _ _ Hh6). destruct Hd as [Hd1 Hd2].
  rewrite acquire_ok by (rewrite cx_set; cbn; rewrite Hd1; apply not_elem_of_nil). f_equal.
  rewrite cx_set, set_cx_twice, locked_touch. unfold s6. subst s5. unfold set_procs. cbn. unfold set_env. cbn.
  rewrite set_cx_twice. do 2 f_equal.
Qed.

(** ** exit: leaving the queue *)

Lemma exit_dequeue_ok s Q i p :
  pinv s Q -> free (cx s) -> aget (procs s) i = Some p -> 0 <= priority p < NPRIO -> i ∈ (Q (priority p)).*2 ->
  exists s' x l1 l2, exit_dequeue i s = Ret tt s' /\ same_procs s s' /\ cx s' = touch (cx s) /\
    Q (priority p) = l1 ++ (x, i) :: l2 /\ pinv s' (upd Q (priority p) (l1 ++ l2)).
Proof.
  intros Hp Hf Hpi Hr Hin. unfold exit_dequeue.
  destruct (acquire_free prio_lock s Hf ltac:(apply lock_ne; set_solver)) as [E1 Hh1]. run E1. set (s1 := set_cx _ s) in *.
  destruct (acquire_held (plock i) s1 _ _ Hh1) as [E2 Hh2]; [rewrite (free_held _ Hf); set_solver|apply plock_ne|].
  run E2. set (s2 := set_cx _ s1) in *.
  assert (Hp2 : pinv s2 Q) by (by apply pinv_cx, pinv_cx).
  destruct (pinv_remove s2 Q _ _ i p Hp2 Hh2 Hpi Hin Hr)
    as (s3 & x & l1 & l2 & e & z & E3 & Hsm & Hh3 & EQ & Hl1 & Hp3 & _). run E3.
  destruct (release_held (plock i) s3 _ _ Hh3 ltac:(set_solver)) as [E4 Hh4].
  replace (remove_lock (plock i) [plock i; prio_lock]) with [prio_lock] in E4, Hh4
    by (cbn; rewrite decide_True by done; done).
  run E4. rewrite (release_last _ _ _ Hh4). eexists _, x, l1, l2. split; [done|].
  split; [exact Hsm|]. split; [apply cx_set|]. split; [done|]. by apply pinv_cx, pinv_cx.
Qed.

(** ** nice *)

Lemma nice_loop_ok n pd prio : forall i (s : pstate E) k p,
  list_find (fun p => pid p = pd) (drop i (procs s)) = Some (k, p) -> (i + n = length (procs s))%nat ->
  nice_loop n (Z.of_nat i) pd prio s =
    (remove_from_prio_queue (Z.of_nat (i + k)) ;;; setp (Z.of_nat (i + k)) (set_priority prio) ;;;
     insert_into_prio_queue (Z.of_nat (i + k)) ;;; ret 1) s.
Proof.
  induction n as [|n IH]; intros i s k p Hk Hlen; cbn [nice_loop]; [by rewrite drop_ge in Hk by lia|].
  destruct (lookup_lt_is_Some_2 (procs s) i) as [q Hq]; [lia|].
  run (getp_ok (Z.of_nat i) q s (getp_nat s i q Hq)). rewrite (drop_S _ _ _ Hq) in Hk. cbn [list_find] in Hk.
  destruct (Z.eqb_spec (pid q) pd); destruct (decide (pid q = pd)); try done.
  - injection Hk as <- <-. by rewrite Nat.add_0_r.
  - destruct (list_find _ (drop (S i) (procs s))) as [[k' p']|] eqn:Ef; [|done]. injection Hk as <- <-.
    replace (Z.of_nat i + 1) with (Z.of_nat (S i)) by lia. rewrite (IH (S i) s k' p' Ef) by lia.
    by replace (S i + k')%nat with (i + S k')%nat by lia.
Qed.

(** A process in no queue may change its priority. *)
Lemma pinv_set_priority s Q i p v :
  pinv s Q -> aget (procs s) i = Some p -> (forall k, 0 <= k < NPRIO -> i ∉ (Q k).*2) ->
  pinv (set_procs (<[Z.to_nat i := set_priority v p]> (procs s)) s) Q.
Proof.
  intros [H1 H2 H3 H4 H5] Hi Hno. split; [by apply (qinv_frame s)|cbn; by rewrite length_insert| |done|done].
  intros j q Hj Hq. destruct (H3 j q Hj Hq) as (pr & Hpr & Ej). exists pr. split; [|done]. cbn.
  rewrite (procs_set_ne s i q p); [done|done|]. intros <-. by apply (Hno j).
Qed.

Lemma only_queue s Q i p : pinv s Q -> aget (procs s) i = Some p -> forall k, 0 <= k < NPRIO -> k <> priority p -> i ∉ (Q k).*2.
Proof. intros Hp Hi k Hk Hne Hin. destruct (pi_prio _ _ Hp k i Hk Hin) as (q & Hq & Eq). congruence. Qed.

(** The process [i], in its queue, goes to the tail of the queue [v]. *)
Lemma requeue_at s Q c i p v :
  pinv s Q -> holding s [] c -> aget (procs s) i = Some p -> 0 <= priority p < NPRIO -> 0 <= v < NPRIO ->
  i ∈ (Q (priority p)).*2 ->
  exists s' x l1 l2 new, (remove_from_prio_queue i ;;; setp i (set_priority v) ;;; insert_into_prio_queue i ;;; ret 1) s = Ret 1 s' /\
    procs s' = <[Z.to_nat i := set_priority v p]> (procs s) /\ holding s' [] c /\
    Q (priority p) = l1 ++ (x, i) :: l2 /\
    pinv s' (upd (upd Q (priority p) (l1 ++ l2)) v (upd Q (priority p) (l1 ++ l2) v ++ [(new, i)])).
Proof.
  intros Hp Hh Hi Hr Hv Hin.
  destruct (pinv_remove s Q [] c i p Hp Hh Hi Hin Hr)
    as (s1 & x & l1 & l2 & e & z & E1 & Hsm & Hh1 & EQ & Hl1 & Hp1 & He & Hz & Hlv & Ef). run E1.
  assert (Eps : procs s1 = procs s) by apply Hsm. assert (Hi1 : aget (procs s1) i = Some p) by (by rewrite Eps).
  run (setp_ok i p (set_priority v) s1 Hi1). set (s2 := set_procs _ s1). set (Q1 := upd Q (priority p) (l1 ++ l2)) in *.
  assert (Hno : forall k, 0 <= k < NPRIO -> i ∉ (Q1 k).*2).
  { intros k Hk. destruct (decide (k = priority p)) as [->|Hne].
    - unfold Q1. rewrite upd_eq. apply (nodup_mid l1 l2 x i). rewrite <- EQ. by apply (pi_once _ _ Hp).
    - by apply (only_queue s1 Q1 i p). }
  assert (Hp2 : pinv s2 Q1) by (by apply pinv_set_priority).
  assert (Hh2 : holding s2 [] c) by (by destruct Hh1; split).
  destruct (malloc_held s2 [] c 16 Hh2 (pi_alloc _ _ Hp2) ltac:(lia)) as (new & e2 & Em & _).
  assert (Hnz : new <> 0).
  { destruct (holding_wf _ _ _ Hh) as [Hw Hl]. change (env s2) with (env s1) in Em. rewrite He in Em.
    apply (mfree_malloc (env s) x z e 16 new e2 (pi_alloc _ _ Hp) Hw Hl Hlv Ef); [lia|lia|done]. }
  destruct (pinv_insert s2 Q1 [] c i (set_priority v p) new e2 Hp2 Hh2) as (s3 & E3 & Hsm3 & Hh3 & Hp3);
    [by eapply procs_set_eq|done|by apply Hno|done|done|].
  run E3. exists s3, x, l1, l2, new. split_and!; try done.
  destruct Hsm3 as [-> _]. cbn. by rewrite Eps.
Qed.

(** ** The clock *)

Lemma clockintr_ok s :
  free (cx s) -> Z.of_nat (length (procs s)) = NPROC ->
  clockintr s =
    if negb (watchdog_time s =? 0) && (u32 (watchdog_time s) <? u32 (ticks s - watchdog_value s)) then Panic "watchdog !!!"
    else Ret tt (set_cx (touch (cx s)) (set_ticks (u32 (ticks s + 1)) (set_procs (wake ticks_chan <$> procs s) s))).
Proof.
  intros Hf Hlen. unfold clockintr. unfold bind at 1.
  destruct (acquire_free watchdog_lock s Hf ltac:(apply lock_ne; set_solver)) as [E1 Hh1]. rewrite E1. cbn [rbind].
  set (s1 := set_cx _ s) in *.
  destruct (acquire_held tickslock s1 _ _ Hh1) as [E2 Hh2];
    [rewrite (free_held _ Hf); set_solver|apply lock_ne; set_solver|]. run E2. set (s2 := set_cx _ s1) in *. mstep.
  change (watchdog_time s2) with (watchdog_time s). change (ticks s2) with (ticks s).
  change (watchdog_value s2) with (watchdog_value s). destruct (negb _ && _); [done|]. mstep. set (s3 := set_ticks _ s2).
  assert (Hc3 : cx s3 = with_locks [tickslock; watchdog_lock] (cx s)) by apply cx_set.
  assert (Hu : unlocked s3).
  { split; rewrite Hc3; [apply with_locks_wf; [by apply free_wf|apply Hh2]|].
    intros i. cbn [held with_locks]. rewrite (free_held _ Hf). set_solver. }
  assert (Hl3 : (0 + Z.to_nat NPROC = length (procs s3))%nat) by (change (procs s3) with (procs s); lia).
  run (wakeup_loop_ok (Z.to_nat NPROC) ticks_chan 0 s3 Hu Hl3 : wakeup ticks_chan s3 = _).
  change (if Z.to_nat NPROC is O then s3 else set_cx (touch (cx s3)) s3) with (set_cx (touch (cx s3)) s3).
  set (s4 := set_procs _ _).
  assert (Hh4 : holding s4 [tickslock; watchdog_lock] (cx s)).
  { destruct Hh2. split; [done| |done|done]. assert (Ec : cx s4 = touch (cx s3)) by apply cx_set.
    rewrite Ec, Hc3. by apply touch_with_locks, free_wf. }
  destruct (release_held tickslock s4 _ _ Hh4 ltac:(set_solver)) as [E5 Hh5].
  change (remove_lock tickslock [tickslock; watchdog_lock]) with [watchdog_lock] in *.
  run E5. rewrite (release_last _ _ _ Hh5). f_equal. rewrite set_cx_twice. unfold s4, s3, s2, s1.
  unfold set_procs, set_ticks. cbn. unfold set_env. cbn. by rewrite !set_cx_twice.
Qed.

(** ** allocproc *)

Lemma alloc_scan_ok n : forall i s,
  unlocked s -> (i + n = length (procs s))%nat ->
  alloc_scan n (Z.of_nat i) s =
  match list_find (fun p => state p = UNUSED) (drop i (procs s)) with
  | Some (k, p) => Ret (Z.of_nat (i + k)) (set_cx (locked_cx (plock (Z.of_nat (i + k))) (cx s)) s)
  | None => Ret (-1) (if n is O then s else set_cx (touch (cx s)) s)
  end.
Proof.
  induction n as [|n IH]; intros i s [Hw Hl] Hlen; cbn [alloc_scan]; [by rewrite drop_ge by lia|].
  destruct (lookup_lt_is_Some_2 (procs s) i) as [p Hp]; [lia|].
  run (acquire_any _ s (Hl (Z.of_nat i))). set (s1 := set_cx _ s).
  run (getp_ok (Z.of_nat i) p s1 (getp_nat s i p Hp)).
  rewrite (drop_S _ _ _ Hp). cbn [list_find]. destruct (decide (state p = UNUSED)) as [Eu|Eu].
  - by rewrite Nat.add_0_r.
  - assert (Ec : cx s1 = locked_cx (plock (Z.of_nat i)) (cx s)) by apply cx_set.
    run (release_any _ s s1 Hw (Hl _) Ec). unfold s1. rewrite set_cx_twice.
    replace (Z.of_nat i + 1) with (Z.of_nat (S i)) by lia. set (s3 := set_cx _ s).
    rewrite IH; [|split; unfold s3; rewrite cx_set; [by apply touch_wf|done]|unfold s3; cbn; lia].
    change (procs s3) with (procs s). unfold s3. rewrite cx_set, set_cx_twice, touch_idemp.
    destruct (list_find _ (drop (S i) (procs s))) as [[k q]|]; cbn [fmap option_fmap option_map prod_map].
    + cbn [fst]. replace (i + S k)%nat with (S i + k)%nat by lia. by rewrite set_cx_twice, locked_touch.
    + by destruct n.
Qed.

(** Changes to one entry of the table and to the rest of the kernel. *)
Definition at_proc (s : pstate E) (i : Z) (q : proc) (e : E) : pstate E :=
  set_env e (set_procs (<[Z.to_nat i := q]> (procs s)) s).

Lemma setp_at s i p q e f : aget (procs s) i = Some p -> setp i f (at_proc s i q e) = Ret tt (at_proc s i (f q) e).
Proof.
  intros Hp. rewrite (setp_ok i q) by (by eapply procs_set_eq). f_equal. unfold at_proc, set_procs, set_env. cbn.
  f_equal. rewrite list_insert_insert. by rewrite decide_True.
Qed.

Lemma getp_at s i p q e : aget (procs s) i = Some p -> getp i (at_proc s i q e) = Ret q (at_proc s i q e).
Proof. intros Hp. apply getp_ok. by eapply procs_set_eq. Qed.

Lemma sys_at {A} (m : M E A) s i q e a e' : m e = Ret a e' -> sys m (at_proc s i q e) = Ret a (at_proc s i q e').
Proof. intros Hm. by rewrite (sys_ok _ _ a e'). Qed.

Lemma allocpid_ok s ls c :
  holding s ls c -> pid_lock ∉ ls ++ held c ->
  allocpid s = Ret (nextpid s) (set_nextpid (s32 (nextpid s + 1)) (set_cx (with_locks ls c) s)).
Proof.
  intros Hh Hl. unfold allocpid.
  destruct (acquire_held pid_lock s ls c Hh Hl ltac:(apply lock_ne; set_solver)) as [E1 Hh1]. run E1. mstep.
  set (s1 := set_nextpid _ _). assert (Hh2 : holding s1 (pid_lock :: ls) c) by (by destruct Hh1; split).
  destruct (release_held pid_lock s1 _ c Hh2 ltac:(set_solver)) as [E2 _]. run E2. unfold ret. f_equal.
  cbn [remove_lock]. rewrite decide_True by done. rewrite remove_lock_notin by set_solver.
  unfold s1, set_nextpid. cbn. unfold set_env. cbn. by rewrite set_cx_twice.
Qed.

(** Taking the first unused entry, and its process id. *)
Lemma alloc_first s k p :
  free (cx s) -> Z.of_nat (length (procs s)) = NPROC ->
  list_find (fun p => state p = UNUSED) (procs s) = Some (k, p) ->
  exists s1, alloc_scan (Z.to_nat NPROC) 0 s = Ret (Z.of_nat k) s1 /\ s1 = set_cx (with_locks [plock (Z.of_nat k)] (cx s)) s /\
    holding s1 [plock (Z.of_nat k)] (cx s) /\
    allocpid s1 = Ret (nextpid s) (set_nextpid (s32 (nextpid s + 1)) s1).
Proof.
  intros Hf Hlen Hk. eexists.
  assert (Hu : unlocked s) by (split; [by apply free_wf|]; intros i; rewrite (free_held _ Hf); apply not_elem_of_nil).
  destruct (acquire_free (plock (Z.of_nat k)) s Hf (plock_ne _)) as [_ Hh].
  split; [|split; [done|split; [done|]]].
  - rewrite (alloc_scan_ok (Z.to_nat NPROC) 0 s Hu ltac:(lia) : alloc_scan (Z.to_nat NPROC) 0 s = _). rewrite drop_0, Hk.
    done.
  - rewrite (allocpid_ok _ _ _ Hh) by (rewrite (free_held _ Hf); set_solver). by rewrite set_cx_twice.
Qed.

(** The entry [allocproc] fills. *)
Definition newproc (pd tf pt : Z) (p : proc) : proc :=
  set_context (forkret_addr :: (kstack p + PGSIZE) :: replicate 12 0)
    (set_priority DEF_PRIO (set_pagetable pt (set_tf tf (set_pid pd p)))).

Lemma allocproc_ok s k p :
  free (cx s) -> Z.of_nat (length (procs s)) = NPROC ->
  list_find (fun p => state p = UNUSED) (procs s) = Some (k, p) ->
  let i := Z.of_nat k in
  let e0 := set_cx (with_locks [plock i] (cx s)) (env s) in
  let s1 := set_nextpid (s32 (nextpid s + 1)) s in
  (forall e1, malloc PGSIZE e0 = Ret 0 e1 -> cx e1 = cx e0 ->
    allocproc s = Ret (-1) (at_proc s1 i (set_tf 0 (set_pid (nextpid s) p)) (set_cx (touch (cx s)) e1))) /\
  (forall t e1 pt e2 r1 e3 r2 e4, malloc PGSIZE e0 = Ret t e1 -> t <> 0 -> uvmcreate e1 = Ret pt e2 ->
    mappages pt TRAMPOLINE PGSIZE trampoline (Z.lor PTE_R PTE_X) e2 = Ret r1 e3 ->
    mappages pt TRAPFRAME PGSIZE t (Z.lor PTE_R PTE_W) e3 = Ret r2 e4 ->
    allocproc s = Ret i (at_proc s1 i (newproc (nextpid s) t pt p) e4)).
Proof.
  intros Hf Hlen Hk i e0 s1. destruct (alloc_first s k p Hf Hlen Hk) as (sa & E1 & Esa & Hh & E2). fold i in E1, Esa, Hh.
  assert (Hpi : aget (procs s1) i = Some p) by (apply list_find_Some in Hk as [Hk _]; by apply getp_nat).
  assert (E3 : setp i (set_pid (nextpid s)) (set_nextpid (s32 (nextpid s + 1)) sa) = Ret tt (at_proc s1 i (set_pid (nextpid s) p) e0)).
  { rewrite (setp_ok i p) by (by rewrite Esa). by rewrite Esa. }
  unfold allocproc. split.
  - intros e1 Em Ec. run E1. rewrite (proj2 (Z.ltb_ge i 0)) by lia. run E2. run E3. run (sys_at _ s1 i (set_pid (nextpid s) p) _ _ _ Em).
    run (setp_at s1 i p (set_pid (nextpid s) p) e1 (set_tf 0) Hpi). cbn [Z.eqb]. set (s2 := at_proc _ _ _ _).
    assert (Hh2 : holding s2 [plock i] (cx s)).
    { destruct Hh. split; [done| |done|done]. etransitivity; [exact Ec|apply cx_set]. }
    run (release_last _ _ _ Hh2). done.
  - intros t e1 pt e2 r1 e3 r2 e4 Em Ht Eu Em1 Em2. run E1. rewrite (proj2 (Z.ltb_ge i 0)) by lia. run E2. run E3.
    run (sys_at _ s1 i (set_pid (nextpid s) p) _ _ _ Em).
    run (setp_at s1 i p (set_pid (nextpid s) p) e1 (set_tf t) Hpi). rewrite (proj2 (Z.eqb_neq t 0)) by done.
    set (p1 := set_tf t (set_pid (nextpid s) p)).
    assert (E4 : proc_pagetable i (at_proc s1 i p1 e1) = Ret pt (at_proc s1 i p1 e4)).
    { unfold proc_pagetable. run (sys_at _ s1 i p1 _ _ _ Eu). run (sys_at _ s1 i p1 _ _ _ Em1).
      run (getp_at s1 i p p1 e3 Hpi). by run (sys_at _ s1 i p1 _ _ _ Em2). }
    run E4. run (setp_at s1 i p p1 e4 (set_pagetable pt) Hpi). run (setp_at s1 i p (set_pagetable pt p1) e4 (set_priority DEF_PRIO) Hpi).
    run (getp_at s1 i p (set_priority DEF_PRIO (set_pagetable pt p1)) e4 Hpi). run (setp_at s1 i p (set_priority DEF_PRIO (set_pagetable pt p1)) e4
      (set_context (forkret_addr :: (kstack p + PGSIZE) :: replicate 12 0)) Hpi). done.
Qed.
End Calls.
