(* ===== verification/ProcWait.v ===== *)
(** * wait and freeproc

    What [wait] does in each of its cases: a zombie child is reported and freed,
    without children or when killed it fails, otherwise it sleeps on its own
    address with its lock. *)

From S2P Require Import Prelude Riscv AllocI Proc ProcQueue ProcSpec ProcLife ProcCalls.

Section Wait.
Context {E : Type} `{HasCtx E} `{!ProcEnv E}.

(** ** freeproc *)

(** The memory a process gives back. *)
Definition free_mem (p : proc) : M E unit :=
  when (negb (tf p =? 0)) (mfree (tf p)) ;;;
  when (negb (pagetable p =? 0))
    (uvmunmap (pagetable p) TRAMPOLINE PGSIZE 0 ;;; uvmunmap (pagetable p) TRAPFRAME PGSIZE 0 ;;;
     when (0 <? sz p) (uvmfree (pagetable p) (sz p))) ;;;
  when (negb (cmd p =? 0)) (mfree (cmd p)).

(** The entry afterwards. *)
Definition freed (p : proc) : proc :=
  mkproc UNUSED 0 0 0 0 0 0 (kstack p) 0 0 0 (context p) (ofile p) (cwd p) [] 0.

Lemma sys_when b (m : M E unit) s i q e e' :
  when b m e = Ret tt e' -> when b (sys m) (at_proc s i q e) = Ret tt (at_proc s i q e').
Proof. destruct b; cbn; [apply sys_at|]. by intros [= ->]. Qed.

Lemma at_proc_id (s : pstate E) i p : aget (procs s) i = Some p -> s = at_proc s i p (env s).
Proof.
  intros Hp. unfold at_proc, set_env, set_procs. cbn. pose proof (aget_Some_lt _ _ _ Hp).
  unfold aget in Hp. rewrite decide_True in Hp by lia. rewrite list_insert_id by done. by destruct s.
Qed.

Lemma freeproc_ok (s : pstate E) i p e :
  aget (procs s) i = Some p -> free_mem p (env s) = Ret tt e -> freeproc i s = Ret tt (at_proc s i (freed p) e).
Proof.
  intros Hp Hm. rewrite (at_proc_id s i p Hp) at 1. unfold freeproc. run (getp_at s i p p (env s) Hp).
  unfold free_mem in Hm. apply bind_inv in Hm as ([] & e1 & E1 & Hm). apply bind_inv in Hm as ([] & e2 & E2 & E3).
  run (sys_when _ _ s i p _ _ E1). run (setp_at s i p p e1 (set_tf 0) Hp).
  assert (E2' : when (negb (pagetable p =? 0)) (proc_freepagetable (pagetable p) (sz p)) (at_proc s i (set_tf 0 p) e1)
    = Ret tt (at_proc s i (set_tf 0 p) e2)).
  { destruct (negb (pagetable p =? 0)); cbn [when] in *; [|by injection E2 as ->].
    apply bind_inv in E2 as ([] & e3 & Ea & E2). apply bind_inv in E2 as ([] & e4 & Eb & Ec).
    unfold proc_freepagetable. run (sys_at _ s i (set_tf 0 p) _ _ _ Ea). run (sys_at _ s i (set_tf 0 p) _ _ _ Eb).
    by apply sys_when. }
  run E2'. run (sys_when _ _ s i (set_tf 0 p) _ _ E3). by rewrite (setp_at s i p).
Qed.

(** ** The scan *)

(** The thread of process [i] while it scans the table. *)
Record scanning (s : pstate E) (i : Z) (c : ctx) : Prop := {
  sc_hold : holding s [plock i] c;
  sc_free : free c;
  sc_parent : forall p, aget (procs s) i = Some p -> parent p <> pptr i
}.

Abbreviation zombie_child i := (fun p => parent p = pptr i /\ state p = ZOMBIE).

Lemma lock_child s i c j q :
  scanning s i c -> aget (procs s) j = Some q -> parent q = pptr i ->
  acquire (plock j) s = Ret tt (set_cx (with_locks [plock j; plock i] c) s) /\
  holding (set_cx (with_locks [plock j; plock i] c) s) [plock j; plock i] c /\ plock j <> plock i.
Proof.
  intros [Hh Hf Hpar] Hq Hc. assert (Hne : plock j <> plock i).
  { intros [= ->]. by apply (Hpar q). }
  destruct (acquire_held (plock j) s _ _ Hh) as [E1 Hh1]; [rewrite (free_held _ Hf); set_solver|apply plock_ne|].
  done.
Qed.

Lemma unlock_child s i c j :
  holding s [plock j; plock i] c -> plock j <> plock i ->
  release (plock j) s = Ret tt (set_cx (with_locks [plock i] c) s) /\ holding (set_cx (with_locks [plock i] c) s) [plock i] c.
Proof.
  intros Hh Hne. destruct (release_held (plock j) s _ _ Hh ltac:(set_solver)) as [E1 Hh1].
  replace (remove_lock (plock j) [plock j; plock i]) with [plock i] in E1, Hh1; [done|].
  cbn. rewrite decide_True, decide_False by done. done.
Qed.

(** What [wait] asks of [copyout] for the zombie [q]: nothing when [addr] is
    null, else the four bytes of its exit status, to [addr]. *)
Definition reports (addr : Z) (p q : proc) (e : E) (r : Z) (e1 : E) : Prop :=
  if addr =? 0 then r = 0 /\ e1 = e
  else copyout (pagetable p) addr (int_bytes (xstate q)) e = Ret r e1 /\ cx e1 = cx e.

Lemma reports_ok addr p q (s : pstate E) r e1 :
  reports addr p q (env s) r e1 ->
  (if addr =? 0 then ret 0 else sys (copyout (pagetable p) addr (int_bytes (xstate q)))) s = Ret r (set_env e1 s) /\
  cx e1 = cx s.
Proof.
  unfold reports. destruct (addr =? 0); [intros [-> ->]; by destruct s|].
  intros [E1 Ec]. split; [|done]. by apply zoom_ret.
Qed.

(** The end of the scan, at the zombie [q] of entry [j]. *)
Definition reaped (n : nat) (j0 i addr : Z) (havekids : bool) (s : pstate E) (c : ctx) (p : proc) (k : nat) (q : proc) : Prop :=
  let c2 := with_locks [plock (Z.of_nat k); plock i] c in
  forall r e1, reports addr p q (set_cx c2 (env s)) r e1 ->
  if r <? 0 then wait_scan n j0 i addr havekids s = Ret (Done (-1)) (set_env (set_cx (touch c) e1) s)
  else forall e, free_mem q e1 = Ret tt e -> cx e = c2 ->
    wait_scan n j0 i addr havekids s = Ret (Done (pid q)) (at_proc s (Z.of_nat k) (freed q) (set_cx (touch c) e)).

Lemma reap_ok n i addr havekids c (j : nat) s pi q :
  scanning s i c -> aget (procs s) i = Some pi -> aget (procs s) (Z.of_nat j) = Some q ->
  parent q = pptr i -> state q = ZOMBIE -> reaped (S n) (Z.of_nat j) i addr havekids s c pi j q.
Proof.
  intros Hs Hi Hq Ep Hz. unfold reaped. intros r e1 Hr. cbn [wait_scan].
  destruct (lock_child s i c (Z.of_nat j) q Hs Hq Ep) as (E1 & Hh1 & Hne). set (s1 := set_cx _ s) in *.
  destruct (reports_ok addr pi q s1 r e1 Hr) as [Er Ec1].
  assert (Hun : forall s', holding s' [plock (Z.of_nat j); plock i] c ->
    forall v, (release (plock (Z.of_nat j)) ;;; (release (plock i) ;;; ret (Done v))) s' = Ret (Done v) (set_cx (touch c) s')).
  { intros s' Hh' v. destruct (unlock_child s' i c (Z.of_nat j) Hh' Hne) as [E3 Hh3]. run E3.
    run (release_last _ _ _ Hh3). by rewrite set_cx_twice. }
  assert (Hhe : holding (set_env e1 s1) [plock (Z.of_nat j); plock i] c).
  { apply (holding_env s1); [done|]. cbn [env set_env]. by rewrite Ec1, (h_cx _ _ _ Hh1). }
  destruct (r <? 0) eqn:Er0.
  - run (getp_ok (Z.of_nat j) q s Hq). rewrite (proj2 (Z.eqb_eq _ _) Ep). run E1. run (getp_ok (Z.of_nat j) q s1 Hq).
    rewrite (decide_True (P := state q = ZOMBIE)) by done. run (getp_ok i pi s1 Hi). run Er. rewrite Er0.
    rewrite (Hun _ Hhe). done.
  - intros e Em Ec. run (getp_ok (Z.of_nat j) q s Hq). rewrite (proj2 (Z.eqb_eq _ _) Ep). run E1.
    run (getp_ok (Z.of_nat j) q s1 Hq).
    rewrite (decide_True (P := state q = ZOMBIE)) by done. run (getp_ok i pi s1 Hi). run Er. rewrite Er0.
    run (freeproc_ok (set_env e1 s1) (Z.of_nat j) q e Hq Em). by rewrite Hun by (by apply (holding_env s1)).
Qed.

Lemma wait_scan_ok n i addr c pi : forall j s havekids,
  scanning s i c -> aget (procs s) i = Some pi -> (j + n = length (procs s))%nat ->
  match list_find (zombie_child i) (drop j (procs s)) with
  | Some (k, q) => reaped n (Z.of_nat j) i addr havekids s c pi (j + k) q
  | None => wait_scan n (Z.of_nat j) i addr havekids s =
      Ret (Kids (havekids || existsb (fun p => parent p =? pptr i) (drop j (procs s)))) s
  end.
Proof.
  induction n as [|n IH]; intros j s hk Hs Hi Hlen.
  { rewrite drop_ge by lia. cbn. by rewrite orb_false_r. }
  destruct (lookup_lt_is_Some_2 (procs s) j) as [p Hp]; [lia|].
  pose proof (getp_nat s j p Hp) as Hpj. rewrite (drop_S _ _ _ Hp). cbn [list_find existsb].
  destruct (decide (parent p = pptr i /\ state p = ZOMBIE)) as [[Ep Hz]|Hd].
  { rewrite Nat.add_0_r. by apply reap_ok. }
  assert (Hgo : exists hk', wait_scan (S n) (Z.of_nat j) i addr hk s = wait_scan n (Z.of_nat (S j)) i addr hk' s /\
    hk' = hk || (parent p =? pptr i)).
  { cbn [wait_scan]. replace (Z.of_nat j + 1) with (Z.of_nat (S j)) by lia. run (getp_ok (Z.of_nat j) p s Hpj).
    destruct (Z.eqb_spec (parent p) (pptr i)) as [Ep|Ep]; [|exists hk; by rewrite orb_false_r].
    exists true. rewrite orb_true_r. split; [|done].
    destruct (lock_child s i c (Z.of_nat j) p Hs Hpj Ep) as (E1 & Hh1 & Hne). run E1. set (s1 := set_cx _ s) in *.
    run (getp_ok (Z.of_nat j) p s1 Hpj). rewrite (decide_False (P := state p = ZOMBIE)) by naive_solver.
    destruct (unlock_child s1 i c (Z.of_nat j) Hh1 Hne) as [E3 Hh3].
    assert (Es : set_cx (with_locks [plock i] c) s1 = s).
    { unfold s1. rewrite set_cx_twice, <- (h_cx _ _ _ (sc_hold _ _ _ Hs)). apply set_cx_cx. }
    rewrite Es in E3. by run E3. }
  destruct Hgo as (hk' & Ego & Ehk). specialize (IH (S j) s hk' Hs Hi ltac:(lia)).
  destruct (list_find _ (drop (S j) (procs s))) as [[k q]|]; cbn [fmap option_fmap option_map prod_map fst snd].
  - cbn. replace (j + S k)%nat with (S j + k)%nat by lia. unfold reaped. rewrite Ego. exact IH.
  - cbn [fmap]. by rewrite Ego, IH, Ehk, orb_assoc.
Qed.

(** [sleep(p, &p->lock)], as [wait] calls it. *)
Lemma sleep_self_ok s i p c chan :
  holding s [plock i] c -> free c -> cur s = pptr i -> aget (procs s) i = Some p ->
  exists s' k, sleep chan (plock i) s = Sleep chan s' k /\
    s' = set_procs (<[Z.to_nat i := set_state SLEEPING (set_chan chan p)]> (procs s)) s /\
    (forall s2 d q, holding s2 [plock i] d -> free d -> aget (procs s2) i = Some q ->
      k s2 = Ret tt (set_procs (<[Z.to_nat i := set_chan 0 q]> (procs s2)) (set_cx (with_locks [plock i] (irq (intr c) d)) s2))).
Proof.
  intros Hh Hf Hc Hp. unfold sleep. run (myproc_held _ _ _ Hh). rewrite Hc, slot_pptr. cbn zeta.
  rewrite !decide_True by done. mstep. run (setp_ok i p (set_chan chan) s Hp). set (sc := set_procs _ s).
  run (setp_ok i _ (set_state SLEEPING) sc (procs_set_eq s i p (set_chan chan p) Hp)).
  set (s3 := set_procs _ _).
  assert (Es3 : s3 = set_procs (<[Z.to_nat i := set_state SLEEPING (set_chan chan p)]> (procs s)) s).
  { unfold s3, set_procs. cbn. f_equal. rewrite list_insert_insert. by rewrite decide_True. }
  assert (Hh3 : holding s3 [plock i] c) by (by rewrite Es3; destruct Hh; split).
  assert (Hp3 : aget (procs s3) i = Some (set_state SLEEPING (set_chan chan p))) by (rewrite Es3; by eapply procs_set_eq).
  rewrite (bind_sleep _ _ _ _ _ _ (sched_ok s3 i _ c Hh3 (free_noff _ Hf) ltac:(by rewrite Es3) Hp3 ltac:(done))).
  eexists _, _. split; [done|]. split; [exact Es3|]. intros s4 d q Hh4 Hd Hq. cbn beta.
  destruct (set_intena_held s4 _ d (intr c) Hh4 (free_noff _ Hd)) as (s5 & E5 & Es5 & Hh5). rewrite E5. cbn [rbind].
  assert (Hq5 : aget (procs s5) i = Some q) by (by subst s5). run (setp_ok i q (set_chan 0) s5 Hq5). by subst s5.
Qed.

Lemma wait_enter s i p :
  free (cx s) -> cur s = pptr i -> aget (procs s) i = Some p -> parent p <> pptr i ->
  exists s1, (forall fuel addr, wait fuel addr s = wait_loop fuel i addr s1) /\
    s1 = set_cx (with_locks [plock i] (cx s)) s /\ scanning s1 i (cx s).
Proof.
  intros Hf Hc Hp Hpar. destruct (acquire_free (plock i) s Hf (plock_ne i)) as [_ Hh]. eexists. split; [|split; [done|]].
  - intros fuel addr. unfold wait. run (myproc_touch s (free_wf _ Hf)). rewrite Hc, slot_pptr.
    assert (Hf1 : free (cx (set_cx (touch (cx s)) s))) by (rewrite cx_set; destruct Hf; by split).
    destruct (acquire_free (plock i) _ Hf1 (plock_ne i)) as [E1 _]. run E1.
    by rewrite cx_set, set_cx_twice, with_locks_touch.
  - split; [done|done|]. cbn. congruence.
Qed.

Lemma no_kids i (l : list proc) : Forall (fun q => parent q <> i) l -> existsb (fun q => parent q =? i) l = false.
Proof. induction 1 as [|q l Hq Hl IH]; [done|]. cbn. by rewrite (proj2 (Z.eqb_neq _ _) Hq). Qed.

Lemma some_kids i (l : list proc) : Exists (fun q => parent q = i) l -> existsb (fun q => parent q =? i) l = true.
Proof.
  induction 1 as [q l Hq|q l Hl IH]; cbn; [|by rewrite IH, orb_true_r]. by rewrite Hq, Z.eqb_refl.
Qed.
End Wait.
