(* ===== verification/ProcProps.v ===== *)
(** * The properties of processes and scheduling

    The theorems about proc.c, for any kernel around it that implements
    [ProcEnv], each with an instance over the buddy allocator. *)

From S2P Require Import Prelude Riscv AllocI Buddy BuddySpec BuddyProps Proc ProcQueue ProcSpec ProcLife ProcCalls ProcWait.

(** ** A concrete table, to evaluate the theorems on

    The rest of the kernel is the buddy allocator; page tables and files are
    not used by the operations below. *)

#[export] Program Instance demo_env : ProcEnv buddy := {|
  pe_alloc := buddy_alloc;
  trampoline := 0;
  forkret_addr := 0;
  kvmmap _ _ _ _ := ret tt;
  kvminithart := ret tt;
  uvmcreate := ret 4096;
  mappages _ _ _ _ _ := ret 0;
  uvmunmap _ _ _ _ := ret tt;
  uvmfree _ _ := ret tt;
  uvmcopy _ _ _ := ret 0;
  uvmalloc _ _ n := ret n;
  uvmdealloc _ _ n := ret n;
  uvminit _ _ := ret tt;
  copyout _ _ _ := ret 0;
  filedup f := ret f;
  fileclose _ := ret tt;
  idup i := ret i;
  iput _ := ret tt;
  begin_op _ := ret tt;
  end_op _ := ret tt;
  namei _ := ret 0;
  strdup_lit _ := ret 0;
  strdup_cmd _ := ret 0;
  fsinit _ := ret tt;
  usertrapret := ret tt
|}.
Next Obligation. cbn. set_solver. Qed.

Definition blank (st : procstate) (par pd : Z) : proc :=
  mkproc st par 0 0 0 pd 5 0 0 0 0 [] (replicate 16 0) 0 [] 0.

(** Two runnable processes, a sleeping one, a zombie child of the first, and
    unused entries. *)
Definition demo_procs : list proc :=
  blank RUNNABLE 0 1 :: blank RUNNABLE (-1) 2 :: set_state SLEEPING (set_chan ticks_chan (blank SLEEPING (-1) 3)) ::
  blank ZOMBIE (-1) 4 :: replicate 60 (blank UNUSED 0 0).

Definition demo_at (h : buddy) : pstate buddy :=
  mkps demo_procs (replicate 10 0) ∅ (-1) 5 0 false 100 (fun _ => 0) 0 0 h.

Definition after {A} (m : M (pstate buddy) A) (s : pstate buddy) : pstate buddy :=
  match m s with Ret _ s' => s' | _ => s end.

(** The first two in their queue. *)
Definition demo_on (h : buddy) : pstate buddy := after (insert_into_prio_queue 1) (after (insert_into_prio_queue 0) (demo_at h)).

Definition demo : pstate buddy := demo_on (set_cx (touch ctx0) heap0).

Lemma demo_at_inv h : bd_inv h -> pinv (demo_at h) (fun _ => []).
Proof.
  intros Hh. split; [split|done|..].
  - done.
  - intros i Hi. exists 0. split; [|done]. unfold aget. cbn [prio demo_at]. rewrite decide_True by lia.
    apply lookup_replicate. unfold NPRIO in Hi. lia.
  - constructor.
  - intros i j x Hi Hj Hx. by apply not_elem_of_nil in Hx.
  - intros i x Hi Hx. by apply not_elem_of_nil in Hx.
  - intros i p Hi Hp. by apply not_elem_of_nil in Hp.
  - constructor.
  - exact Hh.
Qed.

Lemma demo_at_held h : cx h = touch ctx0 -> holding (demo_at h) [] ctx0.
Proof.
  intros Hc. split; [apply ctx0_wf|rewrite with_locks_nil; exact Hc|constructor|apply not_elem_of_nil].
Qed.

Definition demo_queue (a b : Z) : Z -> list (Z * Z) := upd (upd (fun _ => []) 5 [(a, 0)]) 5 [(a, 0); (b, 1)].

Definition nonzero (r : res buddy Z) : bool := match r with Ret p _ => negb (p =? 0) | _ => false end.

Lemma nonzero_inv r : nonzero r = true -> exists p h, r = Ret p h /\ p <> 0.
Proof. destruct r as [p h| | | |]; cbn; try done. intros Hp. exists p, h. split; [done|]. intros ->. done. Qed.

Lemma demo_on_inv h :
  bd_inv h -> cx h = touch ctx0 -> nonzero (malloc 16 h) = true ->
  nonzero (malloc 16 (env (after (insert_into_prio_queue 0) (demo_at h)))) = true ->
  exists a b, pinv (demo_on h) (demo_queue a b) /\ holding (demo_on h) [] ctx0 /\ procs (demo_on h) = demo_procs /\ cur (demo_on h) = 0.
Proof.
  intros Hi Hc N1 N2.
  apply nonzero_inv in N1 as (a & h1 & M1 & Ha). apply nonzero_inv in N2 as (b & h2 & M2 & Hb).
  destruct (pinv_insert (demo_at h) _ [] ctx0 0 (blank RUNNABLE 0 1) a h1 (demo_at_inv h Hi) (demo_at_held h Hc) eq_refl ltac:(done)
    ltac:(apply not_elem_of_nil) M1 Ha) as (s1 & E1 & (Ep1 & _ & _ & Ec1 & _) & Hh1 & Hp1).
  assert (A1 : after (insert_into_prio_queue 0) (demo_at h) = s1) by (unfold after; by rewrite E1). rewrite A1 in M2.
  assert (P1 : aget (procs s1) 1 = Some (blank RUNNABLE (-1) 2)) by (by rewrite Ep1).
  assert (N1 : 1 ∉ (upd (fun _ => []) 5 ([] ++ [(a, 0)]) 5).*2) by (rewrite upd_eq; cbn; set_solver).
  destruct (pinv_insert s1 _ [] ctx0 1 (blank RUNNABLE (-1) 2) b h2 Hp1 Hh1 P1 ltac:(done) N1 M2 Hb)
    as (s2 & E2 & (Ep2 & _ & _ & Ec2 & _) & Hh2 & Hp2).
  assert (A2 : demo_on h = s2) by (unfold demo_on; rewrite A1; unfold after; by rewrite E2).
  exists a, b. rewrite A2. split_and!; [exact Hp2|done|by rewrite Ep2, Ep1|by rewrite Ec2, Ec1].
Qed.

Lemma demo_nonzero :
  nonzero (malloc 16 (set_cx (touch ctx0) heap0)) &&
  nonzero (malloc 16 (env (after (insert_into_prio_queue 0) (demo_at (set_cx (touch ctx0) heap0))))) = true.
Proof. vm_compute. reflexivity. Qed.

Lemma demo_inv : exists a b, pinv demo (demo_queue a b) /\ holding demo [] ctx0 /\ procs demo = demo_procs /\ cur demo = 0.
Proof.
  pose proof demo_nonzero as [N1 N2]%andb_true_iff. apply demo_on_inv; [|exact (cx_set _ _)|exact N1|exact N2].
  exact (alloc_inv_cx _ _ (proj1 heap0_inv)).
Qed.

Lemma demo_free : free (cx demo).
Proof. destruct demo_inv as (a & b & _ & Hh & _ & _). rewrite (h_cx _ _ _ Hh). by split. Qed.

#[global] Opaque demo.

(** ** Scheduling *)

Lemma first_runnable_ahead ps l1 x p l2 :
  first_runnable ps (l1 ++ (x, p) :: l2) = Some p -> p ∉ l1.*2 -> forall q, q ∈ l1.*2 -> runnable ps q = false.
Proof.
  induction l1 as [|[y q] l1 IH]; intros Hf Hp r Hr; [by apply not_elem_of_nil in Hr|].
  cbn [app] in Hf. rewrite first_runnable_cons in Hf. destruct (runnable ps q) eqn:Eq.
  - injection Hf as ->. set_solver.
  - cbn in Hr. apply elem_of_cons in Hr as [->|Hr]; [done|]. apply IH; [done|set_solver|done].
Qed.

(** C28: an iteration of the loop of [scheduler] up to the switch.  If some
    queue has a runnable process, the process chosen is runnable, no queue of
    better (smaller) priority has a runnable process and none is ahead of it in
    its own queue; it becomes RUNNING and the current process, moves to the
    tail of its queue, its lock is the only lock held, and the invariant of
    table and queues is kept.  Otherwise nothing changes and no lock is held. *)
Theorem scheduler_pick_spec {E} `{HasCtx E} `{!ProcEnv E} (s : pstate E) (Q : Z -> list (Z * Z)) :
  pinv s Q -> free (cx s) ->
  (exists p pr s' x l1 l2 new, scheduler_pick s = Ret (Some p) s' /\
    aget (procs s) p = Some pr /\ state pr = RUNNABLE /\ Q (priority pr) = l1 ++ (x, p) :: l2 /\
    (forall q, q ∈ l1.*2 -> runnable (procs s) q = false) /\
    (forall k q, 0 <= k < priority pr -> q ∈ (Q k).*2 -> runnable (procs s) q = false) /\
    procs s' = <[Z.to_nat p := set_state RUNNING pr]> (procs s) /\ cur s' = pptr p /\
    held (cx s') = [plock p] /\ intr (cx s') = false /\
    pinv s' (upd Q (priority pr) ((l1 ++ l2) ++ [(new, p)]))) \/
  ((forall k q, 0 <= k < NPRIO -> q ∈ (Q k).*2 -> runnable (procs s) q = false) /\
    exists s', scheduler_pick s = Ret None s' /\ procs s' = procs s /\ held (cx s') = [] /\ pinv s' Q).
Proof.
  intros Hp Hf. assert (Hi : idle (off (cx s))) by (destruct Hf; by split).
  destruct (best (Z.to_nat NPRIO) (procs s) Q 0) as [p|] eqn:Hb.
  - left. destruct (best_spec _ _ _ _ _ Hb) as (j & Hj & Hfr & Hno).
    destruct (first_runnable_spec _ _ _ Hfr) as [Hin Hr].
    destruct (pi_prio _ _ Hp j p ltac:(lia) Hin) as (pr & Hpr & Ej).
    destruct (scheduler_pick_ok s Q p pr Hp Hi Hb Hpr)
      as (s' & x & l1 & l2 & new & E1 & EQ & Hl1 & Hprio & Eps & Ec & _ & _ & Hh1 & Hp1).
    exists p, pr, s', x, l1, l2, new. rewrite (h_cx _ _ _ Hh1). split_and!; try done.
    + unfold runnable in Hr. rewrite Hpr in Hr. by apply bool_decide_eq_true in Hr.
    + rewrite Ej in EQ. rewrite EQ in Hfr. by apply (first_runnable_ahead _ _ x p l2).
    + intros k q Hk. apply first_runnable_None. apply Hno. lia.
    + cbn [with_locks held off]. by rewrite (free_held _ Hf).
  - right. split.
    + intros k q Hk Hq. apply (proj1 (first_runnable_None (procs s) (Q k))); [|done].
      destruct (first_runnable (procs s) (Q k)) as [r|] eqn:Er; [|done].
      destruct (best_some (Z.to_nat NPRIO) (procs s) Q 0 k r) as [r' Hr']; [lia|done|congruence].
    + unfold scheduler_pick. rewrite (intr_toggle s (fun _ => _)). set (s0 := set_cx (off (cx s)) s).
      pose proof (pick_ok s0 Q (pinv_cx _ _ _ Hp)) as Hpk. change (procs s0) with (procs s) in Hpk. rewrite Hb in Hpk.
      assert (Hc0 : cx s0 = off (cx s)) by apply cx_set. rewrite Hc0 in Hpk. run (Hpk Hi). mstep.
      eexists. split; [done|]. rewrite cx_set. split_and!; [done|exact (free_held _ Hf)|by apply pinv_cx, pinv_cx].
Qed.

Lemma five_prio : 0 <= 5 < NPRIO.
Proof. done. Qed.

Lemma demo_in_queue a b : 0 ∈ (demo_queue a b 5).*2 /\ 1 ∈ (demo_queue a b 5).*2 /\ runnable demo_procs 0 = true.
Proof. unfold demo_queue. rewrite upd_eq. cbn. split_and!; [set_solver|set_solver|done]. Qed.

Lemma scheduler_pick_spec_witness :
  exists p s', scheduler_pick demo = Ret (Some p) s' /\ cur s' = pptr p /\ held (cx s') = [plock p].
Proof.
  destruct demo_inv as (a & b & Hp & _ & Eps & _).
  destruct (scheduler_pick_spec demo _ Hp demo_free)
    as [(p & pr & s' & x & l1 & l2 & new & E1 & _ & _ & _ & _ & _ & _ & Ec & Eh & _)|[Hno _]].
  - exists p, s'. exact (conj E1 (conj Ec Eh)).
  - exfalso. destruct (demo_in_queue a b) as (Hin & _ & Hr). specialize (Hno 5 0 five_prio Hin).
    rewrite Eps, Hr in Hno. discriminate Hno.
Defined.

(** C29: round robin.  Let [i] be a priority such that no queue of better
    priority has a runnable process.  If the processes only leave the CPU when
    the timer stops them, the next rounds of the scheduler, as many as queue
    [i] has runnable processes, run each of these once, in the order of the
    queue, and put them behind the others of the queue. *)
Theorem round_robin {E} `{HasCtx E} `{!ProcEnv E} (b : bool) (s : pstate E) (Q : Z -> list (Z * Z)) (i : Z) :
  pinv s Q -> free (cx s) -> 0 <= i < NPRIO ->
  (forall k q, 0 <= k < i -> q ∈ (Q k).*2 -> runnable (procs s) q = false) ->
  let ps := filter (fun p => runnable (procs s) p = true) (Q i).*2 in
  exists s' Q', rounds b (length ps) s = Some (ps, s') /\ pinv s' Q' /\ procs s' = procs s /\
    (forall k, k <> i -> Q' k = Q k) /\
    (Q' i).*2 = filter (fun p => ~ runnable (procs s) p = true) (Q i).*2 ++ ps.
Proof.
  intros Hp Hf Hi Hno ps.
  destruct (rounds_ok b ps s Q i (Q i).*2 [] Hp Hf Hi) as (s' & Q' & E1 & Hp' & _ & Eps & HQ & EQ);
    [|by rewrite app_nil_r|done|].
  - intros k Hk. apply first_runnable_None. intros q. by apply Hno.
  - exists s', Q'. by split_and!.
Qed.

Lemma demo_empty a b k q : k <> 5 -> q ∉ (demo_queue a b k).*2.
Proof. intros Hk. unfold demo_queue. rewrite !upd_ne by done. apply not_elem_of_nil. Qed.

Lemma demo_ready a b : filter (fun p => runnable demo_procs p = true) (demo_queue a b 5).*2 = [0; 1].
Proof. unfold demo_queue. rewrite upd_eq. done. Qed.

Lemma round_robin_witness : exists s', rounds true 2 demo = Some ([0; 1], s').
Proof.
  destruct demo_inv as (a & b & Hp & _ & Eps & _).
  destruct (round_robin true demo _ 5 Hp demo_free five_prio) as (s' & Q' & E1 & _).
  - intros k q Hk Hq. exfalso. assert (Hne : k <> 5) by lia. exact (demo_empty a b k q Hne Hq).
  - exists s'. rewrite Eps, demo_ready in E1. exact E1.
Defined.

(** C30: the race of [exit].  A process that runs with interrupts enabled leaves
    its queue in [exit] and has interrupts enabled again afterwards.  If the
    timer stops it then, it becomes RUNNABLE while it is in none of the queues.
    The scheduler can make any number of rounds with processes that only
    yield: none of them chooses it, and after them it is RUNNABLE and in no
    queue still. *)
Theorem exit_race_lost {E} `{HasCtx E} `{!ProcEnv E} (s : pstate E) (Q : Z -> list (Z * Z)) (i : Z) (p : proc) :
  pinv s Q -> free (cx s) -> intr (cx s) = true -> cur s = pptr i -> aget (procs s) i = Some p ->
  0 <= priority p < NPRIO -> i ∈ (Q (priority p)).*2 ->
  exists s1 s2 k s3, exit_dequeue i s = Ret tt s1 /\ intr (cx s1) = true /\
    yield s1 = Sleep (Proc.chan p) s2 k /\ scheduler_done i s2 = Ret tt s3 /\
    aget (procs s3) i = Some (set_state RUNNABLE p) /\
    (exists Q3, pinv s3 Q3 /\ queued_nowhere Q3 i) /\
    forall b n, exists l s4 Q4, rounds b n s3 = Some (l, s4) /\ i ∉ l /\
      pinv s4 Q4 /\ queued_nowhere Q4 i /\ aget (procs s4) i = Some (set_state RUNNABLE p).
Proof.
  intros Hp Hf Hin Hc Hpi Hr Hq.
  destruct (exit_dequeue_ok s Q i p Hp Hf Hpi Hr Hq) as (s1 & x & l1 & l2 & E1 & (Ep & _ & _ & Ec & _) & Ecx & EQ & Hp1).
  assert (Hf1 : free (cx s1)) by (rewrite Ecx; destruct Hf; by split).
  assert (Hpi1 : aget (procs s1) i = Some p) by (by rewrite Ep).
  destruct (yield_ok s1 i p Hf1 ltac:(congruence) Hpi1) as (s2 & k & E2 & Es2 & Hh2 & _).
  set (Q1 := upd Q (priority p) (l1 ++ l2)) in *.
  assert (Hp2 : pinv s2 Q1).
  { rewrite Es2. set (s5 := set_cx _ s1). change (procs s1) with (procs s5). apply (pinv_setp s5 Q1 i p); [|done|done].
    by apply pinv_cx. }
  destruct (scheduler_done_ok s2 i _ Q1 Hp2 Hh2 Hf1) as (s3 & E3 & Hp3 & Eps3 & Hf3 & _).
  assert (Hno : queued_nowhere Q1 i).
  { intros j Hj. destruct (decide (j = priority p)) as [->|Hne]; [|by apply (only_queue s1 Q1 i p)].
    unfold Q1. rewrite upd_eq. apply (nodup_mid l1 l2 x i). rewrite <- EQ. by apply (pi_once _ _ Hp). }
  assert (Hp3i : aget (procs s3) i = Some (set_state RUNNABLE p)) by (rewrite Eps3, Es2; by apply (procs_set_eq s1 i p)).
  exists s1, s2, k, s3. split_and!; [done|by rewrite Ecx|done|done|done|by exists Q1|].
  intros b n. destruct (rounds_absent b n s3 Q1 i Hp3 Hf3 Hno) as (l & s4 & Q4 & E4 & Hl & Hp4 & Hn4 & Eps4).
  exists l, s4, Q4. rewrite Eps4. by split_and!.
Qed.

(** The first process of the demo is the one that runs. *)
Definition demo_run : pstate buddy := set_cur (pptr 0) demo.

Record running (s : pstate buddy) (a b : Z) : Prop := {
  r_inv : pinv s (demo_queue a b);
  r_hold : holding s [] ctx0;
  r_procs : procs s = demo_procs;
  r_cur : cur s = pptr 0
}.

Lemma running_free s a b : running s a b -> free (cx s) /\ intr (cx s) = true.
Proof. intros [_ Hh _ _]. rewrite (h_cx _ _ _ Hh). split; [by split|done]. Qed.

Lemma running_set s a b : pinv s (demo_queue a b) -> holding s [] ctx0 -> procs s = demo_procs -> running (set_cur (pptr 0) s) a b.
Proof. intros Hp [H1 H2 H3 H4] Eps. split; [by apply (pinv_same s)|by split|done|done]. Qed.

Lemma demo_run_inv : exists a b, running demo_run a b.
Proof.
  destruct demo_inv as (a & b & Hp & Hh & Eps & _). exists a, b. exact (running_set demo a b Hp Hh Eps).
Qed.

#[global] Opaque demo_run.

Lemma exit_race_lost_witness :
  exists s1 s2 k s3, exit_dequeue 0 demo_run = Ret tt s1 /\ yield s1 = Sleep 0 s2 k /\ scheduler_done 0 s2 = Ret tt s3 /\
    forall b n, exists l s4, rounds b n s3 = Some (l, s4) /\ 0 ∉ l.
Proof.
  destruct demo_run_inv as (a & b & Hr). destruct (running_free _ _ _ Hr) as [Hf Hi].
  destruct Hr as [Hp _ Eps Ecur].
  assert (P0 : aget (procs demo_run) 0 = Some (blank RUNNABLE 0 1)) by (rewrite Eps; reflexivity).
  destruct (exit_race_lost demo_run _ 0 _ Hp Hf Hi Ecur P0 five_prio (proj1 (demo_in_queue a b)))
    as (s1 & s2 & k & s3 & E1 & _ & E2 & E3 & _ & _ & Hl).
  exists s1, s2, k, s3. split_and!; [exact E1|exact E2|exact E3|]. intros b' n.
  destruct (Hl b' n) as (l & s4 & Q4 & E4 & Hn & _). exists l, s4. exact (conj E4 Hn).
Defined.

(** ** Sleeping and waking *)

(** [wakeup(chan)], from a thread that holds no process lock, makes the
    processes asleep on [chan] runnable and changes nothing else; from a thread
    that holds the lock of a process it panics. *)
Theorem wakeup_spec {E} `{HasCtx E} `{!ProcEnv E} (s : pstate E) (chan : Z) :
  cx_wf (cx s) -> Z.of_nat (length (procs s)) = NPROC ->
  ((forall i, plock i ∉ held (cx s)) ->
    wakeup chan s = Ret tt (set_procs
      ((fun p => if decide (state p = SLEEPING /\ Proc.chan p = chan) then set_state RUNNABLE p else p) <$> procs s)
      (set_cx (touch (cx s)) s))) /\
  (forall i, 0 <= i < NPROC -> plock i ∈ held (cx s) -> wakeup chan s = Panic "acquire").
Proof.
  intros Hw Hlen. split.
  - intros Hl. rewrite (wakeup_loop_ok (Z.to_nat NPROC) chan 0 s (conj Hw Hl) ltac:(lia) : wakeup chan s = _).
    unfold map_from. by rewrite take_0, drop_0.
  - intros i Hi Hin. destruct (first_held s (Z.to_nat i)) as (j & Hj & Hjin & Hno); [by rewrite Z2Nat.id by lia|].
    apply (wakeup_loop_held (Z.to_nat NPROC) chan 0 j s Hw Hno Hjin); lia.
Qed.

Lemma wakeup_spec_witness : exists s', wakeup ticks_chan demo = Ret tt s' /\ aget (procs s') 2 = Some (set_chan 1 (blank RUNNABLE (-1) 3)).
Proof.
  pose proof demo_free as Hf. destruct demo_inv as (a & b & Hp & _ & Eps & _).
  destruct (wakeup_spec demo ticks_chan (free_wf _ Hf)) as [E1 _]; [rewrite Eps; reflexivity|].
  eexists. split; [apply E1; intros i; rewrite (free_held _ Hf); apply not_elem_of_nil|].
  cbn [procs set_procs]. rewrite Eps. reflexivity.
Defined.

(** [sleep(chan, lk)] by process [i], which holds [lk] only.  When it leaves
    the CPU it is SLEEPING on [chan], holds the lock of the process and no
    longer [lk], so a [wakeup(chan)] made under [lk] after it finds it; when it
    is switched to again, it clears its channel, holds [lk] and nothing else. *)
Theorem sleep_spec {E} `{HasCtx E} `{!ProcEnv E} (s : pstate E) (i : Z) (p : proc) (c : ctx) (chan : Z) (lk : lock) :
  holding s [lk] c -> free c -> lk <> plock i -> cur s = pptr i -> aget (procs s) i = Some p ->
  exists s' k, sleep chan lk s = Sleep chan s' k /\
    procs s' = <[Z.to_nat i := set_state SLEEPING (set_chan chan p)]> (procs s) /\ held (cx s') = [plock i] /\
    (forall s2 d q, holding s2 [plock i] d -> free d -> aget (procs s2) i = Some q ->
      exists s3, k s2 = Ret tt s3 /\ procs s3 = <[Z.to_nat i := set_chan 0 q]> (procs s2) /\ held (cx s3) = [lk]).
Proof.
  intros Hh Hf Hlk Hc Hp. destruct (sleep_ok s i p c chan lk Hh Hf Hlk Hc Hp) as (s' & k & E1 & Es' & Hh' & Hk).
  exists s', k. split_and!; [done|by subst s'| |].
  - rewrite (h_cx _ _ _ Hh'). cbn. by rewrite (free_held _ Hf).
  - intros s2 d q H2 Hd Hq. eexists. split; [by apply (Hk s2 d q)|]. split; [done|].
    cbn [cx pstate_ctx env set_procs set_cx set_env]. rewrite cx_set. cbn. by rewrite (free_held _ Hd).
Qed.

(** The running process takes [tickslock], as [sys_sleep] does. *)
Lemma running_lock s a b :
  running s a b -> exists s', acquire tickslock s = Ret tt s' /\ holding s' [tickslock] ctx0 /\ cur s' = pptr 0 /\ procs s' = demo_procs.
Proof.
  intros [_ Hh Ep Ec]. destruct (acquire_held tickslock s [] ctx0 Hh) as [E1 Hh1];
    [apply not_elem_of_nil|apply lock_ne; set_solver|]. eexists. split; [exact E1|]. by split_and!.
Qed.

Lemma ctx0_free : free ctx0.
Proof. by split. Qed.

Lemma ticks_plock i : tickslock <> plock i.
Proof. done. Qed.

Lemma sleep_spec_witness :
  exists s1 s' k, acquire tickslock demo_run = Ret tt s1 /\ sleep ticks_chan tickslock s1 = Sleep ticks_chan s' k /\ held (cx s') = [plock 0].
Proof.
  destruct demo_run_inv as (a & b & Hr). destruct (running_lock _ _ _ Hr) as (s1 & E1 & Hh & Ec & Ep).
  assert (P0 : aget (procs s1) 0 = Some (blank RUNNABLE 0 1)) by (rewrite Ep; reflexivity).
  destruct (sleep_spec s1 0 _ ctx0 ticks_chan tickslock Hh ctx0_free (ticks_plock 0) Ec P0) as (s' & k & E2 & _ & Hl & _).
  exists s1, s', k. exact (conj E1 (conj E2 Hl)).
Defined.

(** C31: [wait(addr)] by process [i], which holds no lock.  If a child is a
    zombie, its exit status is copied to [addr] (when [addr] is not null) for
    the first one in the table; if the copy fails the result is -1 and the
    child stays, else the child is freed and its pid returned; all locks are
    released.  If there is no child, or there is no zombie among the children
    and the process has been killed, the result is -1 and nothing changes.
    Otherwise it goes to sleep on its own address, and its lock protects the
    sleep; when it is switched to again, with its lock, it scans the table
    again. *)
Theorem wait_spec {E} `{HasCtx E} `{!ProcEnv E} (s : pstate E) (i addr : Z) (p : proc) (fuel : nat) :
  free (cx s) -> cur s = pptr i -> aget (procs s) i = Some p -> parent p <> pptr i ->
  Z.of_nat (length (procs s)) = NPROC ->
  match list_find (fun q => parent q = pptr i /\ state q = ZOMBIE) (procs s) with
  | Some (k, q) =>
      let c2 := with_locks [plock (Z.of_nat k); plock i] (cx s) in
      forall r e1, reports addr p q (set_cx c2 (env s)) r e1 ->
      if r <? 0 then exists s', wait (S fuel) addr s = Ret (-1) s' /\
        procs s' = procs s /\ env s' = set_cx (touch (cx s)) e1
      else forall e, free_mem q e1 = Ret tt e -> cx e = c2 ->
        exists s', wait (S fuel) addr s = Ret (pid q) s' /\
          procs s' = <[k := freed q]> (procs s) /\ env s' = set_cx (touch (cx s)) e
  | None =>
      (Forall (fun q => parent q <> pptr i) (procs s) \/ killed p <> 0 ->
        wait (S fuel) addr s = Ret (-1) (set_cx (touch (cx s)) s)) /\
      (Exists (fun q => parent q = pptr i) (procs s) -> killed p = 0 -> exists s' k,
        wait (S fuel) addr s = Sleep (pptr i) s' k /\
        procs s' = <[Z.to_nat i := set_state SLEEPING (set_chan (pptr i) p)]> (procs s) /\ held (cx s') = [plock i] /\
        forall s2 d q, holding s2 [plock i] d -> free d -> aget (procs s2) i = Some q ->
          exists s3, k s2 = wait_loop fuel i addr s3 /\ procs s3 = <[Z.to_nat i := set_chan 0 q]> (procs s2) /\
            held (cx s3) = [plock i])
  end.
Proof.
  intros Hf Hc Hp Hpar Hlen.
  destruct (wait_enter s i p Hf Hc Hp Hpar) as (s1 & E1 & Es1 & Hsc).
  assert (Eps : procs s1 = procs s) by (by subst s1). assert (Hp1 : aget (procs s1) i = Some p) by (by rewrite Eps).
  pose proof (wait_scan_ok (Z.to_nat NPROC) i addr (cx s) p 0 s1 false Hsc Hp1 ltac:(subst s1; cbn; lia)) as Hw.
  rewrite drop_0, Eps in Hw. change (Z.of_nat 0) with 0 in Hw. rewrite E1. cbn [wait_loop].
  destruct (list_find _ (procs s)) as [[k q]|].
  - unfold reaped in Hw. cbn [Nat.add] in Hw. assert (Ee : set_cx (with_locks [plock (Z.of_nat k); plock i] (cx s)) (env s1) =
      set_cx (with_locks [plock (Z.of_nat k); plock i] (cx s)) (env s)) by (subst s1; apply set_cx_twice).
    rewrite Ee in Hw. cbv zeta; intros r e1 Hr. specialize (Hw r e1 Hr). destruct (r <? 0).
    + run Hw. eexists. split; [done|]. done.
    + intros e Em Ec. run (Hw e Em Ec). eexists. split; [done|]. split; [cbn; by rewrite Nat2Z.id, Eps|done].
  - cbn [orb] in Hw. run Hw. run (getp_ok i p s1 Hp1). split.
    + intros Hno. assert (Eb : negb (existsb (fun q => parent q =? pptr i) (procs s)) || negb (killed p =? 0) = true).
      { destruct Hno as [Hno|Hk]; [by rewrite no_kids|]. by rewrite (proj2 (Z.eqb_neq _ _) Hk), orb_true_r. }
      rewrite Eb. run (release_last _ _ _ (sc_hold _ _ _ Hsc)). by rewrite Es1, set_cx_twice.
    + intros Hex Hk. rewrite (some_kids _ _ Hex), Hk. cbn [negb orb Z.eqb].
      destruct (sleep_self_ok s1 i p (cx s) (pptr i) (sc_hold _ _ _ Hsc) Hf ltac:(by subst s1) Hp1) as (s2 & k & E2 & Es2 & Hk2).
      rewrite (bind_sleep _ _ _ _ _ _ E2). eexists _, _. split; [done|]. split; [by subst s2 s1|]. split.
      * rewrite Es2. assert (Ecx : cx (set_procs (<[Z.to_nat i:=set_state SLEEPING (set_chan (pptr i) p)]> (procs s1)) s1)
          = with_locks [plock i] (cx s)) by exact (h_cx _ _ _ (sc_hold _ _ _ Hsc)). rewrite Ecx. cbn.
        by rewrite (free_held _ Hf : held (cx (env s)) = []).
      * intros t d q Ht Hd Hq. cbn beta. rewrite (Hk2 t d q Ht Hd Hq). cbn [rbind]. eexists. split; [done|]. split; [done|].
        cbn [cx pstate_ctx env set_procs set_cx set_env]. rewrite cx_set. cbn. by rewrite (free_held _ Hd).
Qed.

Lemma demo_free_mem (h : buddy) : free_mem (blank ZOMBIE (-1) 4) h = Ret tt h.
Proof. done. Qed.

Lemma demo_reports (p q : proc) (h : buddy) : reports 64 p q h 0 h.
Proof. done. Qed.

Lemma wait_spec_witness : exists s', wait 1 64 demo_run = Ret 4 s'.
Proof.
  destruct demo_run_inv as (a & b & Hr). destruct (running_free _ _ _ Hr) as [Hf Hi]. destruct Hr as [Hp _ Eps Ecur].
  assert (P0 : aget (procs demo_run) 0 = Some (blank RUNNABLE 0 1)) by (rewrite Eps; reflexivity).
  assert (L0 : Z.of_nat (length (procs demo_run)) = NPROC) by (rewrite Eps; reflexivity).
  pose proof (wait_spec demo_run 0 64 _ 0 Hf Ecur P0 ltac:(discriminate) L0) as Hw.
  rewrite Eps in Hw. cbv beta iota delta [demo_procs list_find decide blank] in Hw.
  destruct (Hw _ _ (demo_reports _ _ _) _ (demo_free_mem _) (cx_set _ _)) as (s' & E1 & _). exists s'. exact E1.
Defined.

(** ** Identifiers, priorities, the clock *)

(** [allocproc] from a thread without locks.  It takes the first UNUSED
    entry [k], gives it the next pid, a trapframe page, a page table with the
    trampoline and the trapframe mapped, the default priority and a context
    that starts in [forkret] on its kernel stack, and keeps its lock; without
    an UNUSED entry it returns the null pointer (-1) and changes nothing.  When
    there is no page for the trapframe it returns the null pointer too, but the
    UNUSED entry keeps the pid. *)
Theorem allocproc_spec {E} `{HasCtx E} `{!ProcEnv E} (s : pstate E) :
  free (cx s) -> Z.of_nat (length (procs s)) = NPROC ->
  match list_find (fun p => state p = UNUSED) (procs s) with
  | None => allocproc s = Ret (-1) (set_cx (touch (cx s)) s)
  | Some (k, p) =>
      let i := Z.of_nat k in
      let e0 := set_cx (with_locks [plock i] (cx s)) (env s) in
      let s1 := set_nextpid (s32 (nextpid s + 1)) s in
      (forall e1, malloc PGSIZE e0 = Ret 0 e1 -> cx e1 = cx e0 ->
        allocproc s = Ret (-1) (at_proc s1 i (set_tf 0 (set_pid (nextpid s) p)) (set_cx (touch (cx s)) e1))) /\
      (forall t e1 pt e2 r1 e3 r2 e4, malloc PGSIZE e0 = Ret t e1 -> t <> 0 -> uvmcreate e1 = Ret pt e2 ->
        mappages pt TRAMPOLINE PGSIZE trampoline (Z.lor PTE_R PTE_X) e2 = Ret r1 e3 ->
        mappages pt TRAPFRAME PGSIZE t (Z.lor PTE_R PTE_W) e3 = Ret r2 e4 ->
        allocproc s = Ret i (at_proc s1 i
          (set_context (forkret_addr :: (kstack p + PGSIZE) :: replicate 12 0)
            (set_priority DEF_PRIO (set_pagetable pt (set_tf t (set_pid (nextpid s) p))))) e4))
  end.
Proof.
  intros Hf Hlen. destruct (list_find _ (procs s)) as [[k p]|] eqn:Ek; [by apply allocproc_ok|].
  unfold allocproc. assert (Hu : unlocked s).
  { split; [by apply free_wf|]. intros i. rewrite (free_held _ Hf). apply not_elem_of_nil. }
  pose proof (alloc_scan_ok (Z.to_nat NPROC) 0 s Hu ltac:(lia) : alloc_scan (Z.to_nat NPROC) 0 s = _) as Es.
  rewrite drop_0, Ek in Es. by run Es.
Qed.

(** The demo without memory for a page. *)
Definition demo_full : pstate buddy := demo_at heap0.

Lemma demo_full_free : free (cx demo_full) /\ cx demo_full = ctx0.
Proof. assert (Ec : cx demo_full = ctx0) by exact (proj2 heap0_inv). rewrite Ec. split; [exact ctx0_free|reflexivity]. Qed.

Lemma demo_full_procs : procs demo_full = demo_procs.
Proof. reflexivity. Qed.

Lemma demo_page c i : cx heap0 = c -> c = ctx0 ->
  exists h, malloc 4096 (set_cx (with_locks [plock i] c) heap0) = Ret 0 h /\ cx h = with_locks [plock i] c.
Proof.
  intros Hc ->. destruct (heap0_page i) as [h Eh]. exists h. split; [exact Eh|].
  destruct (malloc_spec (set_cx (with_locks [plock i] ctx0) heap0) 4096) as (p & h' & E1 & _ & Hc' & _).
  - exact (alloc_inv_cx _ _ (proj1 heap0_inv)).
  - rewrite cx_set. apply with_locks_wf; [apply ctx0_wf|apply NoDup_singleton].
  - rewrite cx_set. intros Hx. apply list_elem_of_singleton in Hx. discriminate Hx.
  - lia.
  - assert (E2 : Ret (S := buddy) 0 h = Ret p h') by (etransitivity; [symmetry; exact Eh|exact E1]).
    injection E2 as _ <-. rewrite Hc', cx_set. reflexivity.
Qed.

Lemma demo_malloc : @malloc buddy _ (@pe_alloc buddy _ demo_env) = @malloc buddy _ buddy_alloc.
Proof. reflexivity. Qed.

Lemma demo_full_page :
  exists h, @malloc buddy _ (@pe_alloc buddy _ demo_env) PGSIZE (set_cx (with_locks [plock (Z.of_nat 4)] (cx demo_full)) (env demo_full)) = Ret 0 h /\
    cx h = with_locks [plock (Z.of_nat 4)] (cx demo_full).
Proof. rewrite demo_malloc. destruct demo_full_free as [_ Hc]. exact (demo_page (cx demo_full) 4 Hc Hc). Qed.

Lemma demo_full_table :
  Z.of_nat (length (procs demo_full)) = NPROC /\
  list_find (fun p => state p = UNUSED) (procs demo_full) = Some (4%nat, blank UNUSED 0 0).
Proof. split; reflexivity. Qed.

Lemma allocproc_spec_witness :
  exists s', allocproc demo_full = Ret (-1) s' /\ (pid <$> aget (procs s') 4) = Some 5.
Proof.
  destruct demo_full_free as [Hf Hc]. destruct demo_full_page as (h & Eh & Ehc).
  destruct demo_full_table as [HL Hk]. pose proof (allocproc_spec demo_full Hf HL) as Ha.
  rewrite Hk in Ha. destruct Ha as [Ha _]. eexists. split; [exact (Ha h Eh (eq_trans Ehc (eq_sym (cx_set _ _))))|]. reflexivity.
Defined.

(** [kill(pid)] from a thread without process locks strikes the first entry
    with that pid, whatever its state: it is marked killed, and made runnable
    if it sleeps; without such an entry the result is -1 and nothing changes. *)
Theorem kill_spec {E} `{HasCtx E} `{!ProcEnv E} (s : pstate E) (pd : Z) :
  cx_wf (cx s) -> (forall i, plock i ∉ held (cx s)) -> Z.of_nat (length (procs s)) = NPROC ->
  kill pd s =
  match list_find (fun p => pid p = pd) (procs s) with
  | Some (k, p) => Ret 0 (set_procs (<[k :=
      if decide (state p = SLEEPING) then set_state RUNNABLE (set_killed 1 p) else set_killed 1 p]> (procs s))
      (set_cx (touch (cx s)) s))
  | None => Ret (-1) (set_cx (touch (cx s)) s)
  end.
Proof.
  intros Hw Hl Hlen. rewrite (kill_loop_ok (Z.to_nat NPROC) pd 0 s (conj Hw Hl) ltac:(lia) : kill pd s = _).
  rewrite drop_0. by destruct (list_find _ (procs s)) as [[k p]|].
Qed.

Lemma kill_spec_witness : exists s', kill 3 demo = Ret 0 s' /\ (killed <$> aget (procs s') 2) = Some 1.
Proof.
  pose proof demo_free as Hf. destruct demo_inv as (a & b & Hp & _ & Eps & _).
  pose proof (kill_spec demo 3 (free_wf _ Hf)) as Hk. rewrite Eps in Hk. eexists. split.
  - apply Hk; [|reflexivity]. intros i. rewrite (free_held _ Hf). apply not_elem_of_nil.
  - reflexivity.
Defined.

(** A pid outlives a failed [allocproc].  If no entry has the next pid and
    there is no page for the trapframe, then after [allocproc] has failed
    [kill] of that pid succeeds, on an UNUSED entry, and marks it: the next
    process made from that entry starts as a killed process. *)
Theorem allocproc_stale_pid {E} `{HasCtx E} `{!ProcEnv E} (s : pstate E) (k : nat) (p : proc) (e1 : E) :
  free (cx s) -> Z.of_nat (length (procs s)) = NPROC ->
  list_find (fun p => state p = UNUSED) (procs s) = Some (k, p) ->
  Forall (fun q => pid q <> nextpid s) (procs s) ->
  malloc PGSIZE (set_cx (with_locks [plock (Z.of_nat k)] (cx s)) (env s)) = Ret 0 e1 ->
  cx e1 = with_locks [plock (Z.of_nat k)] (cx s) ->
  exists s1 s2 q, allocproc s = Ret (-1) s1 /\ kill (nextpid s) s1 = Ret 0 s2 /\
    aget (procs s2) (Z.of_nat k) = Some q /\ state q = UNUSED /\ killed q = 1 /\
    forall pd t pt, killed (newproc pd t pt q) = 1.
Proof.
  intros Hf Hlen Hk Hpid Em Ec. pose proof (allocproc_ok s k p Hf Hlen Hk) as [Ha _]. cbn zeta in Ha.
  specialize (Ha e1 Em). rewrite cx_set in Ha. specialize (Ha Ec). set (s1 := at_proc _ _ _ _) in Ha.
  pose proof (proj1 (list_find_Some _ _ _ _) Hk) as (Hkp & Hu & _).
  assert (Ep1 : procs s1 = <[k := set_tf 0 (set_pid (nextpid s) p)]> (procs s)) by (cbn; by rewrite Nat2Z.id).
  assert (Hf1 : free (cx s1)) by (unfold s1; cbn; rewrite cx_set; destruct Hf; by split).
  assert (Hu1 : unlocked s1) by (split; [by apply free_wf|]; intros i; rewrite (free_held _ Hf1); apply not_elem_of_nil).
  assert (Ef : list_find (fun q => pid q = nextpid s) (procs s1) = Some (k, set_tf 0 (set_pid (nextpid s) p))).
  { rewrite Ep1. apply list_find_Some. pose proof (lookup_lt_Some _ _ _ Hkp). split_and!; [by apply list_lookup_insert_eq|done|].
    intros j q Hj Hjk. rewrite list_lookup_insert_ne in Hj by lia. rewrite Forall_lookup in Hpid. by apply (Hpid j). }
  assert (Hl1 : (0 + Z.to_nat NPROC = length (procs s1))%nat) by (rewrite Ep1, length_insert; lia).
  pose proof (kill_loop_ok (Z.to_nat NPROC) (nextpid s) 0 s1 Hu1 Hl1 : kill (nextpid s) s1 = _) as Ek.
  rewrite drop_0, Ef in Ek. eexists s1, _, _. split; [exact Ha|]. split; [exact Ek|].
  assert (Est : struck (set_tf 0 (set_pid (nextpid s) p)) = set_killed 1 (set_tf 0 (set_pid (nextpid s) p))).
  { unfold struck. rewrite decide_False; [done|]. cbn. by rewrite Hu. }
  split; [|split; [|split]].
  - apply getp_nat. cbn [procs set_procs]. rewrite Est. apply list_lookup_insert_eq. cbn [Nat.add]. rewrite Ep1, length_insert. by eapply lookup_lt_Some.
  - done.
  - done.
  - done.
Qed.

Lemma demo_pids : Forall (fun q => pid q <> nextpid demo_full) (procs demo_full).
Proof. apply Forall_lookup. intros i q Hq. change (procs demo_full) with demo_procs in Hq.
  change (nextpid demo_full) with 5. apply list_elem_of_lookup_2 in Hq. revert q Hq.
  apply list.Forall_forall. repeat constructor; done.
Qed.

Lemma allocproc_stale_pid_witness :
  exists s1 s2, allocproc demo_full = Ret (-1) s1 /\ kill (nextpid demo_full) s1 = Ret 0 s2.
Proof.
  destruct demo_full_free as [Hf Hc]. destruct demo_full_page as (h & Eh & Ehc).
  destruct demo_full_table as [HL Hk].
  destruct (allocproc_stale_pid demo_full 4 (blank UNUSED 0 0) h Hf HL Hk demo_pids Eh Ehc)
    as (s1 & s2 & q & E1 & E2 & _).
  exists s1, s2. exact (conj E1 E2).
Defined.

(** [nice(pid, prio)] with a valid priority moves the process with that
    pid, which is in its queue, to the tail of queue [prio]: it returns 1, only
    the priority of the process changes, the other processes keep their order,
    and the invariant is kept; the node it frees makes the allocation succeed. *)
Theorem nice_spec {E} `{HasCtx E} `{!ProcEnv E} (s : pstate E) (Q : Z -> list (Z * Z)) (c : ctx) (k : nat) (p : proc) (pd prio : Z) :
  pinv s Q -> holding s [] c -> list_find (fun p => pid p = pd) (procs s) = Some (k, p) ->
  0 <= priority p < NPRIO -> 0 <= prio < NPRIO -> Z.of_nat k ∈ (Q (priority p)).*2 ->
  exists s' x l1 l2 new, nice pd prio s = Ret 1 s' /\
    procs s' = <[k := set_priority prio p]> (procs s) /\ Q (priority p) = l1 ++ (x, Z.of_nat k) :: l2 /\
    let Q1 := upd Q (priority p) (l1 ++ l2) in pinv s' (upd Q1 prio (Q1 prio ++ [(new, Z.of_nat k)])).
Proof.
  intros Hp Hh Hk Hr Hv Hin. pose proof (proj1 (list_find_Some _ _ _ _) Hk) as (Hkp & _).
  destruct (requeue_at s Q c (Z.of_nat k) p prio Hp Hh (getp_nat s k p Hkp) Hr Hv Hin)
    as (s' & x & l1 & l2 & new & E1 & Eps & _ & EQ & Hp').
  exists s', x, l1, l2, new. split_and!; [|by rewrite Nat2Z.id in Eps|done|done].
  pose proof (pi_len _ _ Hp).
  rewrite (nice_loop_ok (Z.to_nat NPROC) pd prio 0 s k p ltac:(by rewrite drop_0) ltac:(lia) : nice pd prio s = _). exact E1.
Qed.

Lemma nice_spec_witness : exists s', nice 1 0 demo = Ret 1 s' /\ procs s' = <[O := set_priority 0 (blank RUNNABLE 0 1)]> demo_procs.
Proof.
  destruct demo_inv as (a & b & Hp & Hh & Eps & _).
  assert (Ek : list_find (fun p => pid p = 1) (procs demo) = Some (O, blank RUNNABLE 0 1)) by (rewrite Eps; reflexivity).
  destruct (nice_spec demo _ ctx0 O _ 1 0 Hp Hh Ek five_prio (conj (Z.le_refl 0) eq_refl) (proj1 (demo_in_queue a b)))
    as (s' & x & l1 & l2 & new & E1 & E2 & _).
  exists s'. rewrite Eps in E2. exact (conj E1 E2).
Defined.

(** A clock tick from a thread without locks panics exactly when a
    watchdog is set and more than its time has passed since it was last
    written; otherwise the tick is counted (modulo 2^32) and exactly the
    processes asleep in [sys_sleep] are made runnable. *)
Theorem clockintr_spec {E} `{HasCtx E} `{!ProcEnv E} (s : pstate E) :
  free (cx s) -> Z.of_nat (length (procs s)) = NPROC ->
  0 <= watchdog_time s < 2 ^ 31 -> 0 <= watchdog_value s <= ticks s -> ticks s < 2 ^ 32 ->
  (watchdog_time s <> 0 /\ watchdog_time s < ticks s - watchdog_value s -> clockintr s = Panic "watchdog !!!") /\
  (watchdog_time s = 0 \/ ticks s - watchdog_value s <= watchdog_time s -> exists s', clockintr s = Ret tt s' /\
    ticks s' = (ticks s + 1) mod 2 ^ 32 /\ cx s' = touch (cx s) /\
    procs s' = (fun p => if decide (state p = SLEEPING /\ Proc.chan p = ticks_chan) then set_state RUNNABLE p else p) <$> procs s).
Proof.
  intros Hf Hlen Ht Hv Hk. rewrite (clockintr_ok s Hf Hlen). rewrite (u32_small (watchdog_time s)) by lia.
  rewrite (u32_small (ticks s - _)) by lia. split.
  - intros [H1 H2]. rewrite (proj2 (Z.eqb_neq _ _) H1), (proj2 (Z.ltb_lt _ _) H2). done.
  - intros Hno. assert (Eb : negb (watchdog_time s =? 0) && (watchdog_time s <? ticks s - watchdog_value s) = false).
    { destruct (Z.eqb_spec (watchdog_time s) 0); [done|]. cbn. apply Z.ltb_ge. lia. }
    rewrite Eb. eexists. split; [done|]. split_and!; [done|apply cx_set|done].
Qed.

Lemma clockintr_spec_witness : exists s', clockintr demo_full = Ret tt s' /\ ticks s' = 101.
Proof.
  destruct demo_full_free as [Hf _].
  destruct (clockintr_spec demo_full Hf eq_refl) as [_ H2];
    [split; [apply Z.le_refl|reflexivity]|split; [apply Z.le_refl|discriminate]|reflexivity|].
  destruct (H2 (or_introl eq_refl)) as (s' & E1 & E2 & _). exists s'. exact (conj E1 E2).
Defined.
