(* ===== verification/Sleeplock.v ===== *)
(** * kernel/sleeplock.c: long-term locks

    A sleep lock is a flag and the pid of its holder, protected by a spin lock.
    The operations are written for a lock that is part of a larger state: [rd]
    and [wr] read and write its fields, [lk] is its spin lock, [chan] its
    address.  [fuel] bounds how often a waiting thread is woken in vain. *)

From S2P Require Import Prelude.

Record sleeplock := { sl_locked : bool; sl_pid : Z }.

Definition sl_free : sleeplock := {| sl_locked := false; sl_pid := 0 |}.

Section Sleeplock.
Context {S : Type} `{HasCtx S}.
Context (rd : M S sleeplock) (wr : sleeplock -> M S unit) (lk : lock) (chan : Z).

Definition initsleeplock : M S unit := wr sl_free.

Fixpoint acquiresleep_loop (fuel : nat) : M S unit :=
  match fuel with
  | O => nofuel
  | Datatypes.S fuel =>
      l <- rd ;;
      if sl_locked l then sleep_on chan lk ;;; acquiresleep_loop fuel else ret tt
  end.

Definition acquiresleep (fuel : nat) : M S unit :=
  acquire lk ;;;
  acquiresleep_loop fuel ;;;
  pid <- gets (fun s => mypid (cx s)) ;;
  wr {| sl_locked := true; sl_pid := pid |} ;;;
  release lk.

Definition releasesleep : M S unit :=
  acquire lk ;;;
  wr sl_free ;;;
  wakeup_on chan ;;;
  release lk.

Definition holdingsleep : M S bool :=
  acquire lk ;;;
  l <- rd ;;
  pid <- gets (fun s => mypid (cx s)) ;;
  release lk ;;;
  ret (sl_locked l && (sl_pid l =? pid)).

(** ** What they do when the lock is free

    The reads and writes are those of a field: they ignore the context. *)

Context (get : S -> option sleeplock) (put : sleeplock -> S -> S).
Context (rd_ok : forall s l, get s = Some l -> rd s = Ret l s)
  (wr_ok : forall s l v, get s = Some l -> wr v s = Ret tt (put v s))
  (get_cx : forall s c, get (set_cx c s) = get s)
  (put_cx : forall s v c, put v (set_cx c s) = set_cx c (put v s))
  (cx_put : forall s v, cx (put v s) = cx s).

Lemma acquiresleep_ok fuel s :
  cx_wf (cx s) -> lk ∉ held (cx s) -> get s = Some sl_free -> (0 < fuel)%nat ->
  acquiresleep fuel s = Ret tt (set_cx (touch (cx s)) (put {| sl_locked := true; sl_pid := mypid (cx s) |} s)).
Proof.
  intros Hw Hl Hg Hf. unfold acquiresleep. run (acquire_ok lk s Hl). set (s1 := set_cx _ s).
  assert (Hg1 : get s1 = Some sl_free) by (unfold s1; by rewrite get_cx).
  destruct fuel as [|fuel]; [lia|]. cbn [acquiresleep_loop].
  assert (E1 : (l <- rd ;; if sl_locked l then sleep_on chan lk ;;; acquiresleep_loop fuel else ret tt) s1 = Ret tt s1)
    by (by run (rd_ok s1 _ Hg1)).
  run E1. mstep. unfold s1. rewrite cx_set. cbn [mypid locked_cx cx_held cx_push].
  set (v := {| sl_locked := true; sl_pid := _ |}). run (wr_ok s1 _ v Hg1).
  rewrite (release_ok lk (cx s)) by (done || (unfold s1; rewrite cx_put, cx_set; by rewrite locked_touch)).
  unfold s1. by rewrite put_cx, set_cx_twice.
Qed.

Lemma releasesleep_ok s l :
  cx_wf (cx s) -> lk ∉ held (cx s) -> get s = Some l ->
  releasesleep s = Ret tt (set_cx (touch (cx s)) (put sl_free s)).
Proof.
  intros Hw Hl Hg. unfold releasesleep. run (acquire_ok lk s Hl). set (s1 := set_cx _ s).
  assert (Hg1 : get s1 = Some l) by (unfold s1; by rewrite get_cx).
  run (wr_ok s1 _ sl_free Hg1). unfold wakeup_on. mstep.
  rewrite (release_ok lk (cx s)) by (done || (unfold s1; rewrite cx_put, cx_set; by rewrite locked_touch)).
  unfold s1. by rewrite put_cx, set_cx_twice.
Qed.

Lemma holdingsleep_ok s l :
  cx_wf (cx s) -> lk ∉ held (cx s) -> get s = Some l ->
  holdingsleep s = Ret (sl_locked l && (sl_pid l =? mypid (cx s))) (set_cx (touch (cx s)) s).
Proof.
  intros Hw Hl Hg. unfold holdingsleep. run (acquire_ok lk s Hl). set (s1 := set_cx _ s).
  assert (Hg1 : get s1 = Some l) by (unfold s1; by rewrite get_cx).
  run (rd_ok s1 _ Hg1). mstep.
  assert (E : release lk s1 = Ret tt (set_cx (touch (cx s)) s1))
    by (apply (release_ok lk (cx s)); try done; unfold s1; by rewrite cx_set, locked_touch).
  run E. unfold s1. by rewrite cx_set, set_cx_twice.
Qed.

(** A held lock: the thread goes to sleep on it, without its spin lock. *)
Lemma acquiresleep_waits fuel s l :
  cx_wf (cx s) -> lk ∉ held (cx s) -> get s = Some l -> sl_locked l = true -> (0 < fuel)%nat ->
  exists k, acquiresleep fuel s = Sleep chan (set_cx (touch (cx s)) s) k.
Proof.
  intros Hw Hl Hg Hk Hf. unfold acquiresleep. run (acquire_ok lk s Hl). set (s1 := set_cx _ s).
  assert (Hg1 : get s1 = Some l) by (unfold s1; by rewrite get_cx).
  destruct fuel as [|fuel]; [lia|]. cbn [acquiresleep_loop].
  assert (E : release lk s1 = Ret tt (set_cx (touch (cx s)) s1))
    by (apply (release_ok lk (cx s)); try done; unfold s1; by rewrite cx_set, locked_touch).
  unfold bind. rewrite (rd_ok s1 _ Hg1). cbn [rbind]. rewrite Hk. unfold sleep_on, bind. rewrite E. cbn [rbind].
  unfold s1. rewrite set_cx_twice. eauto.
Qed.
End Sleeplock.
