(* ===== verification/Bytes.v ===== *)
(** * Structures in arrays of bytes

    The log header, the inodes and the directory entries are C structures in
    disk blocks; their fields are little-endian integers at byte offsets. *)

From S2P Require Import Prelude.

Fixpoint le_bytes (n : nat) (z : Z) : list Z :=
  match n with
  | O => []
  | S n => z mod 256 :: le_bytes n (z / 256)
  end.

Fixpoint of_bytes (l : list Z) : Z :=
  match l with
  | [] => 0
  | b :: l => b + 256 * of_bytes l
  end.

(** Bytes [off, off + n) of an array, and an array with them replaced. *)
Definition slice (off n : nat) (d : list Z) : list Z := take n (drop off d).
Definition splice (off : nat) (v d : list Z) : list Z := take off d ++ v ++ drop (off + length v) d.

(** 32-bit, 16-bit and 64-bit fields. *)
Definition get32 (off : nat) (d : list Z) : Z := of_bytes (slice off 4 d).
Definition put32 (off : nat) (v : Z) (d : list Z) : list Z := splice off (le_bytes 4 (u32 v)) d.
Definition get16 (off : nat) (d : list Z) : Z := of_bytes (slice off 2 d).
Definition get64 (off : nat) (d : list Z) : Z := of_bytes (slice off 8 d).
Definition put64 (off : nat) (v : Z) (d : list Z) : list Z := splice off (le_bytes 8 (u64 v)) d.
Definition put16 (off : nat) (v : Z) (d : list Z) : list Z := splice off (le_bytes 2 (u16 v)) d.

Lemma le_bytes_length n z : length (le_bytes n z) = n.
Proof. revert z. induction n as [|n IH]; intros z; cbn; [done|]. by rewrite IH. Qed.

Lemma of_le_bytes n z : 0 <= z < 256 ^ Z.of_nat n -> of_bytes (le_bytes n z) = z.
Proof.
  revert z. induction n as [|n IH]; intros z Hz; cbn [le_bytes of_bytes]; [cbn in Hz; lia|].
  rewrite IH; [pose proof (Z.div_mod z 256); lia|].
  rewrite Nat2Z.inj_succ, Z.pow_succ_r in Hz by lia. split; [apply Z.div_pos; lia|].
  apply Z.div_lt_upper_bound; lia.
Qed.

Lemma splice_length off v d : (off + length v <= length d)%nat -> length (splice off v d) = length d.
Proof. intros Hl. unfold splice. rewrite !length_app, length_take, length_drop. lia. Qed.

Lemma splice_lookup off v (d : list Z) i :
  (off + length v <= length d)%nat ->
  splice off v d !! i = if decide (off <= i < off + length v)%nat then v !! (i - off)%nat else d !! i.
Proof.
  intros Hd. unfold splice. assert (Ht : length (take off d) = off) by (rewrite length_take; lia).
  destruct (decide (i < off)%nat) as [Hi|Hi]; [rewrite decide_False by lia; rewrite lookup_app_l by lia; by apply lookup_take_lt|].
  rewrite lookup_app_r by lia. rewrite Ht. destruct (decide (off <= i < off + length v)%nat).
  - by rewrite lookup_app_l by lia.
  - rewrite lookup_app_r, lookup_drop by lia. f_equal. lia.
Qed.

Lemma slice_splice_eq off v d : (off + length v <= length d)%nat -> slice off (length v) (splice off v d) = v.
Proof.
  intros Hl. unfold slice, splice.
  assert (Ho : length (take off d) = off) by (rewrite length_take; lia).
  rewrite drop_app_length' by done. by rewrite take_app_length.
Qed.

(** A field that ends before the bytes written, or starts after them. *)
Lemma slice_splice_before off v d o n :
  (o + n <= off)%nat -> (off + length v <= length d)%nat -> slice o n (splice off v d) = slice o n d.
Proof.
  intros Ho Hl. unfold slice, splice. rewrite drop_app_le by (rewrite length_take; lia).
  rewrite take_app_le by (rewrite length_drop, length_take; lia).
  rewrite <- (take_drop off d) at 2. rewrite drop_app_le by (rewrite length_take; lia).
  rewrite take_app_le by (rewrite length_drop, length_take; lia). done.
Qed.

Lemma slice_splice_after off v d o n :
  (off + length v <= o)%nat -> (off + length v <= length d)%nat -> slice o n (splice off v d) = slice o n d.
Proof.
  intros Ho Hl. unfold slice, splice. f_equal. rewrite app_assoc.
  rewrite drop_app_ge by (rewrite length_app, length_take; lia).
  rewrite length_app, length_take, drop_drop. f_equal. lia.
Qed.

Lemma put32_length off v d : (off + 4 <= length d)%nat -> length (put32 off v d) = length d.
Proof. intros Hl. unfold put32. apply splice_length. by rewrite le_bytes_length. Qed.

Lemma get32_put32 off v d : (off + 4 <= length d)%nat -> get32 off (put32 off v d) = u32 v.
Proof.
  intros Hl. unfold get32, put32. rewrite <- (le_bytes_length 4 (u32 v)) at 1.
  rewrite slice_splice_eq by (by rewrite le_bytes_length). apply of_le_bytes. pose proof (u32_range v). lia.
Qed.

Lemma get32_put32_ne off v d o :
  (o + 4 <= off \/ off + 4 <= o)%nat -> (off + 4 <= length d)%nat -> get32 o (put32 off v d) = get32 o d.
Proof.
  intros [Ho|Ho] Hl; unfold get32, put32; f_equal.
  - apply slice_splice_before; [done|by rewrite le_bytes_length].
  - apply slice_splice_after; by rewrite le_bytes_length.
Qed.

Lemma put16_length off v d : (off + 2 <= length d)%nat -> length (put16 off v d) = length d.
Proof. intros Hl. unfold put16. apply splice_length. by rewrite le_bytes_length. Qed.

Lemma get16_put16 off v d : (off + 2 <= length d)%nat -> get16 off (put16 off v d) = u16 v.
Proof.
  intros Hl. unfold get16, put16. rewrite <- (le_bytes_length 2 (u16 v)) at 1.
  rewrite slice_splice_eq by (by rewrite le_bytes_length). apply of_le_bytes.
  unfold u16. pose proof (Z.mod_pos_bound v (2 ^ 16)). lia.
Qed.

Lemma get16_put16_ne off v d o :
  (o + 2 <= off \/ off + 2 <= o)%nat -> (off + 2 <= length d)%nat -> get16 o (put16 off v d) = get16 o d.
Proof.
  intros [Ho|Ho] Hl; unfold get16, put16; f_equal.
  - apply slice_splice_before; [done|by rewrite le_bytes_length].
  - apply slice_splice_after; by rewrite le_bytes_length.
Qed.

Lemma put64_length off v d : (off + 8 <= length d)%nat -> length (put64 off v d) = length d.
Proof. intros Hl. unfold put64. apply splice_length. by rewrite le_bytes_length. Qed.

Lemma get64_put64 off v d : (off + 8 <= length d)%nat -> get64 off (put64 off v d) = u64 v.
Proof.
  intros Hl. unfold get64, put64. rewrite <- (le_bytes_length 8 (u64 v)) at 1.
  rewrite slice_splice_eq by (by rewrite le_bytes_length). apply of_le_bytes. pose proof (u64_range v). lia.
Qed.

Lemma get64_put64_ne off v d o :
  (o + 8 <= off \/ off + 8 <= o)%nat -> (off + 8 <= length d)%nat -> get64 o (put64 off v d) = get64 o d.
Proof.
  intros [Ho|Ho] Hl; unfold get64, put64; f_equal.
  - apply slice_splice_before; [done|by rewrite le_bytes_length].
  - apply slice_splice_after; by rewrite le_bytes_length.
Qed.

(** A 32-bit read of an array of bytes is a 32-bit number. *)
Lemma of_bytes_range l : Forall (fun b => 0 <= b < 256) l -> 0 <= of_bytes l < 256 ^ Z.of_nat (length l).
Proof.
  induction 1 as [|b l Hb Hl IH]; cbn [of_bytes length]; [cbn; lia|].
  rewrite Nat2Z.inj_succ, Z.pow_succ_r by lia. lia.
Qed.
