(* ===== verification/Bio.v ===== *)
(** * kernel/bio.c: the buffer cache

    The cache is an array of buffers and a circular list through all of them,
    most recently used first; [&bcache.buf[i]] is the number [i] and
    [&bcache.head] is [HEAD].  The disk maps a device and a block number to the
    bytes of the block.  A request to the disk driver is complete when the
    driver returns, and a block is written entirely or not at all; [past]
    records, for the theorems about crashes, what the disk held before each
    write, the latest first. *)

From S2P Require Import Prelude ListC Sleeplock.

Definition NBUF : Z := 30.
Definition BSIZE : Z := 1024.

Abbreviation block := (list Z).
Abbreviation disk_t := (gmap (Z * Z) block).

Record buf := mkbuf {
  valid : bool;
  dev : Z;
  blockno : Z;
  b_lock : sleeplock;
  refcnt : Z;
  data : block
}.

Definition set_valid v b := mkbuf v (dev b) (blockno b) (b_lock b) (refcnt b) (data b).
Definition set_lock v b := mkbuf (valid b) (dev b) (blockno b) v (refcnt b) (data b).
Definition set_refcnt v b := mkbuf (valid b) (dev b) (blockno b) (b_lock b) v (data b).
Definition set_data v b := mkbuf (valid b) (dev b) (blockno b) (b_lock b) (refcnt b) v.

Record bcache := mkbc {
  k_cx : ctx;
  bufs : list buf;
  ring : lmem;
  disk : disk_t;
  past : list disk_t
}.

Definition set_k_cx c s := mkbc c (bufs s) (ring s) (disk s) (past s).
Definition set_bufs v s := mkbc (k_cx s) v (ring s) (disk s) (past s).
Definition set_ring v s := mkbc (k_cx s) (bufs s) v (disk s) (past s).

#[export] Program Instance bcache_ctx : HasCtx bcache := {| cx := k_cx; set_cx := set_k_cx |}.
Next Obligation. done. Qed.
Next Obligation. by destruct s. Qed.
Next Obligation. done. Qed.

Definition HEAD : Z := -1.
Definition bcache_lock : lock := ("bcache"%string, 0).
Definition buf_lock (i : Z) : lock := ("buffer"%string, i).

Abbreviation B := (M bcache).

Definition getb (i : Z) : B buf := fun s => unwrap (aget (bufs s) i) s.
Definition setb (i : Z) (f : buf -> buf) : B unit :=
  b <- getb i ;;
  l <- (fun s => unwrap (aset (bufs s) i (f b)) s) ;;
  modify (set_bufs l).

Definition on_ring {A} (m : M lmem A) : B A := zoom ring set_ring m.

(** [virtio_disk_rw(dev, b, write)]. *)
Definition disk_read (i : Z) : B unit :=
  b <- getb i ;;
  d <- (fun s => unwrap (disk s !! (dev b, blockno b)) s) ;;
  setb i (set_data d).

Definition disk_write (i : Z) : B unit :=
  b <- getb i ;;
  modify (fun s => mkbc (k_cx s) (bufs s) (ring s) (<[(dev b, blockno b) := data b]> (disk s)) (disk s :: past s)).

(** ** The operations *)

(** The loop of [binit] over the buffers from [i]. *)
Fixpoint binit_loop (n : nat) (i : Z) : B unit :=
  match n with
  | O => ret tt
  | S n =>
      hn <- on_ring (ld_next HEAD) ;;
      on_ring (st_next i hn) ;;;
      on_ring (st_prev i HEAD) ;;;
      setb i (set_lock sl_free) ;;;
      hn <- on_ring (ld_next HEAD) ;;
      on_ring (st_prev hn i) ;;;
      on_ring (st_next HEAD i) ;;;
      binit_loop n (i + 1)
  end.

Definition binit : B unit :=
  on_ring (st_prev HEAD HEAD) ;;;
  on_ring (st_next HEAD HEAD) ;;;
  binit_loop (Z.to_nat NBUF) 0.

(** The relinking in [brelse]: the buffer moves to the front of the ring. *)
Definition to_front (b : Z) : B unit :=
  nx <- on_ring (ld_next b) ;;
  pv <- on_ring (ld_prev b) ;;
  on_ring (st_prev nx pv) ;;;
  pv <- on_ring (ld_prev b) ;;
  nx <- on_ring (ld_next b) ;;
  on_ring (st_next pv nx) ;;;
  hn <- on_ring (ld_next HEAD) ;;
  on_ring (st_next b hn) ;;;
  on_ring (st_prev b HEAD) ;;;
  hn <- on_ring (ld_next HEAD) ;;
  on_ring (st_prev hn b) ;;;
  on_ring (st_next HEAD b).

Section Bio.
(** How often a thread that waits for a buffer is woken in vain. *)
Context (fuel : nat).

Definition b_rd (i : Z) : B sleeplock := b <- getb i ;; ret (b_lock b).
Definition b_wr (i : Z) (l : sleeplock) : B unit := setb i (set_lock l).

Definition b_acquiresleep (i : Z) : B unit := acquiresleep (b_rd i) (b_wr i) (buf_lock i) i fuel.
Definition b_releasesleep (i : Z) : B unit := releasesleep (b_wr i) (buf_lock i) i.
Definition b_holdingsleep (i : Z) : B bool := holdingsleep (b_rd i) (buf_lock i).

(** A walk of the ring visits each buffer once. *)
Definition ring_fuel (s : bcache) : nat := S (length (bufs s)).

Fixpoint find_cached (n : nat) (b dv bno : Z) : B (option Z) :=
  match n with
  | O => nofuel
  | S n =>
      if b =? HEAD then ret None else
      x <- getb b ;;
      if (dev x =? dv) && (blockno x =? bno) then ret (Some b)
      else nx <- on_ring (ld_next b) ;; find_cached n nx dv bno
  end.

Fixpoint find_unused (n : nat) (b : Z) : B (option Z) :=
  match n with
  | O => nofuel
  | S n =>
      if b =? HEAD then ret None else
      x <- getb b ;;
      if refcnt x =? 0 then ret (Some b)
      else pv <- on_ring (ld_prev b) ;; find_unused n pv
  end.

Definition bget (dv bno : Z) : B Z :=
  acquire bcache_lock ;;;
  n <- gets ring_fuel ;;
  h <- on_ring (ld_next HEAD) ;;
  r <- find_cached n h dv bno ;;
  match r with
  | Some b =>
      setb b (fun x => set_refcnt (u32 (refcnt x + 1)) x) ;;;
      release bcache_lock ;;;
      b_acquiresleep b ;;;
      ret b
  | None =>
      t <- on_ring (ld_prev HEAD) ;;
      r <- find_unused n t ;;
      match r with
      | Some b =>
          setb b (fun x => mkbuf false dv bno (b_lock x) 1 (data x)) ;;;
          release bcache_lock ;;;
          b_acquiresleep b ;;;
          ret b
      | None => panic "bget: no buffers"
      end
  end.

Definition bread (dv bno : Z) : B Z :=
  b <- bget dv bno ;;
  x <- getb b ;;
  (if valid x then ret tt else disk_read b ;;; setb b (set_valid true)) ;;;
  ret b.

Definition bwrite (b : Z) : B unit :=
  h <- b_holdingsleep b ;;
  if negb h then panic "bwrite" else disk_write b.

Definition brelse (b : Z) : B unit :=
  h <- b_holdingsleep b ;;
  if negb h then panic "brelse" else
  b_releasesleep b ;;;
  acquire bcache_lock ;;;
  setb b (fun x => set_refcnt (u32 (refcnt x - 1)) x) ;;;
  x <- getb b ;;
  (if refcnt x =? 0 then to_front b else ret tt) ;;;
  release bcache_lock.

Definition bpin (b : Z) : B unit :=
  acquire bcache_lock ;;;
  setb b (fun x => set_refcnt (u32 (refcnt x + 1)) x) ;;;
  release bcache_lock.

Definition bunpin (b : Z) : B unit :=
  acquire bcache_lock ;;;
  setb b (fun x => set_refcnt (u32 (refcnt x - 1)) x) ;;;
  release bcache_lock.
End Bio.
