(* ===== verification/BioSpec.v ===== *)
(** * The buffer cache: invariant and behaviour

    A block is cached in at most one buffer; a buffer whose block is not in the
    set [D] of blocks to be logged holds what the disk holds, and the blocks of
    [D] stay in the cache. *)

From S2P Require Import Prelude ListC Sleeplock Bio.

(** ** Neighbours in a circular list *)

Lemma dll_next m lst pre x l : dll m lst (pre ++ x :: l) -> nextof m x = Some (default lst (head l)).
Proof.
  intros [_ Hc]. rewrite <- app_assoc in Hc. cbn [app] in Hc.
  rewrite app_comm_cons in Hc. apply chain_split in Hc as [_ Hc]. destruct l; apply Hc.
Qed.

Lemma dll_prev m lst pre x l : dll m lst (pre ++ x :: l) -> prevof m x = Some (default lst (list.last pre)).
Proof.
  intros [_ Hc]. rewrite <- app_assoc in Hc. cbn [app] in Hc. destruct (exists_last (l := lst :: pre)) as (A & p & HA); [done|].
  rewrite app_comm_cons, HA, <- app_assoc in Hc. cbn [app] in Hc. apply chain_split in Hc as [_ Hc]. cbn in Hc.
  destruct Hc as [[_ Hp] _]. rewrite Hp. f_equal. assert (Hl : list.last (lst :: pre) = Some p) by (by rewrite HA, last_snoc).
  rewrite last_cons in Hl. destruct (list.last pre); cbn; congruence.
Qed.

Lemma dll_last m lst l : dll m lst l -> prevof m lst = Some (default lst (list.last l)).
Proof.
  intros [_ Hc]. destruct (exists_last (l := lst :: l)) as (A & p & HA); [done|].
  rewrite app_comm_cons, HA, <- app_assoc in Hc. cbn [app] in Hc. apply chain_split in Hc as [_ Hc]. cbn in Hc.
  destruct Hc as [[_ Hp] _]. rewrite Hp. f_equal. assert (Hl : list.last (lst :: l) = Some p) by (by rewrite HA, last_snoc).
  rewrite last_cons in Hl. destruct (list.last l); cbn; congruence.
Qed.

Lemma set_next_prev m a v b w : set_next (set_prev m b w) a v = set_prev (set_next m a v) b w.
Proof.
  unfold set_next, set_prev. destruct (decide (a = b)) as [->|Hne].
  - rewrite !insert_insert_eq. unfold nextof, prevof. by rewrite !lookup_insert_eq.
  - rewrite insert_insert_ne by done. unfold nextof, prevof. by rewrite !lookup_insert_ne by done.
Qed.

Lemma on_ring_ok {A} (m : M lmem A) s a r : m (ring s) = Ret a r -> on_ring m s = Ret a (set_ring r s).
Proof. intros Hm. unfold on_ring. by apply zoom_ret. Qed.

Lemma set_ring_id s : set_ring (ring s) s = s.
Proof. by destruct s. Qed.

Lemma ring_next s a v : nextof (ring s) a = Some v -> on_ring (ld_next a) s = Ret v s.
Proof. intros Hv. rewrite (on_ring_ok _ _ _ _ (ld_next_ok _ _ _ Hv)). by rewrite set_ring_id. Qed.

Lemma ring_prev s a v : prevof (ring s) a = Some v -> on_ring (ld_prev a) s = Ret v s.
Proof. intros Hv. rewrite (on_ring_ok _ _ _ _ (ld_prev_ok _ _ _ Hv)). by rewrite set_ring_id. Qed.

(** ** Single buffers *)

Lemma getb_ok i b s : aget (bufs s) i = Some b -> getb i s = Ret b s.
Proof. intros Hb. unfold getb. by rewrite Hb. Qed.

Definition upb (i : Z) (b : buf) (s : bcache) : bcache := set_bufs (<[Z.to_nat i := b]> (bufs s)) s.

Lemma setb_ok i b f s : aget (bufs s) i = Some b -> setb i f s = Ret tt (upb i (f b) s).
Proof.
  intros Hb. unfold setb. run (getb_ok _ _ _ Hb). unfold bind at 1.
  rewrite aset_is_Some by (by eapply aget_Some_lt). done.
Qed.

Lemma upb_eq i b b' s : aget (bufs s) i = Some b -> aget (bufs (upb i b' s)) i = Some b'.
Proof. intros Hb. eapply aget_aset_eq, aset_is_Some, aget_Some_lt, Hb. Qed.

Lemma upb_ne i j b b' s : aget (bufs s) i = Some b -> i <> j -> aget (bufs (upb i b' s)) j = aget (bufs s) j.
Proof. intros Hb Hij. eapply aget_aset_ne; [eapply aset_is_Some, aget_Some_lt, Hb|done]. Qed.

Lemma upb_twice i b b' s : upb i b' (upb i b s) = upb i b' s.
Proof. unfold upb, set_bufs. cbn. f_equal. rewrite list_insert_insert. by rewrite decide_True. Qed.

Lemma upb_cx i b c s : upb i b (set_cx c s) = set_cx c (upb i b s).
Proof. done. Qed.

Definition key (b : buf) : Z * Z := (dev b, blockno b).

(** ** The invariant *)

Record binv (s : bcache) (D : gset (Z * Z)) : Prop := {
  bi_len : Z.of_nat (length (bufs s)) = NBUF;
  bi_ring : exists l, dll (ring s) HEAD l /\ forall i, i ∈ l <-> 0 <= i < NBUF;
  bi_uniq : forall i j b c, aget (bufs s) i = Some b -> aget (bufs s) j = Some c -> key b = key c ->
    key b <> (0, 0) -> i = j;
  bi_clean : forall i b, aget (bufs s) i = Some b -> valid b = true -> key b ∉ D -> disk s !! key b = Some (data b);
  bi_dirty : forall k, k ∈ D -> k <> (0, 0) /\ exists i b, aget (bufs s) i = Some b /\ key b = k /\ valid b = true
}.

Arguments bi_len {s D} _.
Arguments bi_ring {s D} _.
Arguments bi_uniq {s D} _.
Arguments bi_clean {s D} _.
Arguments bi_dirty {s D} _.

(** Reference counts in range, and nobody holds an unused buffer. *)
Record counted (s : bcache) : Prop := {
  ct_ref : forall i b, aget (bufs s) i = Some b -> 0 <= refcnt b < 2 ^ 32;
  ct_free : forall i b, aget (bufs s) i = Some b -> refcnt b = 0 -> b_lock b = sl_free
}.

(** A thread that may call the cache. *)
Record bready (c : ctx) : Prop := {
  br_wf : cx_wf c;
  br_cache : bcache_lock ∉ held c;
  br_buf : forall i, buf_lock i ∉ held c
}.

Lemma bready_touch c : bready c -> bready (touch c).
Proof. intros [H1 H2 H3]. by split. Qed.

(** ** The two searches of [bget] *)

Definition is_block (s : bcache) (k : Z * Z) (i : Z) : bool :=
  match aget (bufs s) i with Some b => bool_decide (key b = k) | None => false end.

Definition is_unused (s : bcache) (i : Z) : bool :=
  match aget (bufs s) i with Some b => refcnt b =? 0 | None => false end.

Lemma find_cached_ok n dv bno s : forall pre l,
  dll (ring s) HEAD (pre ++ l) -> (forall i, i ∈ l -> is_Some (aget (bufs s) i)) -> (length l < n)%nat ->
  find_cached n (default HEAD (head l)) dv bno s = Ret (find (is_block s (dv, bno)) l) s.
Proof.
  induction n as [|n IH]; intros pre l Hd Hin Hn; [lia|]. cbn [find_cached].
  destruct l as [|i l]; [done|]. cbn [head default find].
  assert (Hi : i <> HEAD) by (destruct Hd as [Hnd _]; apply list.NoDup_cons in Hnd as [Hnd _]; set_solver).
  cbn [from_option id]. rewrite (proj2 (Z.eqb_neq i HEAD) Hi). destruct (Hin i ltac:(set_solver)) as [b Hb].
  run (getb_ok _ _ _ Hb). unfold is_block. rewrite Hb.
  assert (Ek : (dev b =? dv) && (blockno b =? bno) = bool_decide (key b = (dv, bno))).
  { unfold key. destruct (Z.eqb_spec (dev b) dv), (Z.eqb_spec (blockno b) bno); cbn; symmetry;
      first [apply bool_decide_eq_true_2; congruence|apply bool_decide_eq_false_2; congruence]. }
  rewrite Ek. case_bool_decide; [done|]. run (ring_next s i _ (dll_next _ _ _ _ _ Hd)).
  rewrite (IH (pre ++ [i]) l); [done|by rewrite <- app_assoc|set_solver|cbn in Hn; lia].
Qed.

Lemma find_unused_ok n s : forall l post,
  dll (ring s) HEAD (l ++ post) -> (forall i, i ∈ l -> is_Some (aget (bufs s) i)) -> (length l < n)%nat ->
  find_unused n (default HEAD (list.last l)) s = Ret (find (is_unused s) (reverse l)) s.
Proof.
  induction n as [|n IH]; intros l post Hd Hin Hn; [lia|]. cbn [find_unused].
  destruct (decide (l = [])) as [->|Hne]; [done|]. destruct (exists_last Hne) as (l' & i & ->).
  rewrite last_snoc, reverse_snoc. cbn [default find].
  assert (Hi : i <> HEAD) by (destruct Hd as [Hnd _]; apply list.NoDup_cons in Hnd as [Hnd _]; set_solver).
  cbn [from_option id]. rewrite (proj2 (Z.eqb_neq i HEAD) Hi). destruct (Hin i ltac:(set_solver)) as [b Hb].
  run (getb_ok _ _ _ Hb). unfold is_unused at 1. rewrite Hb. destruct (refcnt b =? 0); [done|].
  rewrite <- app_assoc in Hd. run (ring_prev s i _ (dll_prev _ _ _ _ _ Hd)).
  rewrite (IH l' ([i] ++ post)); [done|done|set_solver|rewrite length_app in Hn; cbn in Hn; lia].
Qed.

(** ** Locking a buffer *)

Definition mine (s : bcache) : sleeplock := {| sl_locked := true; sl_pid := mypid (cx s) |}.

Section Sleep.
Context (i : Z).

Definition b_get (s : bcache) : option sleeplock := b_lock <$> aget (bufs s) i.
Definition b_put (v : sleeplock) (s : bcache) : bcache :=
  match aget (bufs s) i with Some b => upb i (set_lock v b) s | None => s end.

Lemma b_rd_ok s l : b_get s = Some l -> b_rd i s = Ret l s.
Proof.
  unfold b_get, b_rd. destruct (aget (bufs s) i) as [b|] eqn:Hb; [|done]. intros [= <-].
  by run (getb_ok _ _ _ Hb).
Qed.

Lemma b_wr_ok s l v : b_get s = Some l -> b_wr i v s = Ret tt (b_put v s).
Proof.
  unfold b_get, b_wr, b_put. destruct (aget (bufs s) i) as [b|] eqn:Hb; [|done]. intros _.
  by rewrite (setb_ok _ _ _ _ Hb).
Qed.

Lemma b_get_cx s c : b_get (set_cx c s) = b_get s.
Proof. done. Qed.

Lemma b_put_cx s v c : b_put v (set_cx c s) = set_cx c (b_put v s).
Proof. unfold b_put. cbn. by destruct (aget (bufs s) i). Qed.

Lemma cx_b_put s v : cx (b_put v s) = cx s.
Proof. unfold b_put. by destruct (aget (bufs s) i). Qed.
End Sleep.

Lemma b_acquiresleep_ok fuel i b s :
  bready (cx s) -> aget (bufs s) i = Some b -> b_lock b = sl_free -> (0 < fuel)%nat ->
  b_acquiresleep fuel i s = Ret tt (set_cx (touch (cx s)) (upb i (set_lock (mine s) b) s)).
Proof.
  intros [Hw _ Hl] Hb Hf Hn. unfold b_acquiresleep.
  rewrite (acquiresleep_ok _ _ _ _ (b_get i) (b_put i) (b_rd_ok i) (b_wr_ok i) (b_get_cx i) (b_put_cx i) (cx_b_put i));
    [|done|done|unfold b_get; rewrite Hb; cbn; by rewrite Hf|done]. unfold b_put. by rewrite Hb.
Qed.

Lemma b_releasesleep_ok i b s :
  bready (cx s) -> aget (bufs s) i = Some b ->
  b_releasesleep i s = Ret tt (set_cx (touch (cx s)) (upb i (set_lock sl_free b) s)).
Proof.
  intros [Hw _ Hl] Hb. unfold b_releasesleep.
  rewrite (releasesleep_ok _ _ _ (b_get i) (b_put i) (b_wr_ok i) (b_get_cx i) (b_put_cx i) (cx_b_put i) s (b_lock b));
    [|done|done|unfold b_get; by rewrite Hb]. unfold b_put. by rewrite Hb.
Qed.

Lemma b_holdingsleep_ok i b s :
  bready (cx s) -> aget (bufs s) i = Some b -> b_lock b = mine s ->
  b_holdingsleep i s = Ret true (set_cx (touch (cx s)) s).
Proof.
  intros [Hw _ Hl] Hb Hm. unfold b_holdingsleep.
  rewrite (holdingsleep_ok _ _ (b_get i) (b_rd_ok i) (b_get_cx i) s (b_lock b));
    [|done|done|unfold b_get; by rewrite Hb]. rewrite Hm. cbn [mine sl_locked sl_pid andb]. by rewrite Z.eqb_refl.
Qed.

(** ** bget and bread *)

(** The buffer [bget] returns for block [k]: the one that caches it, or an
    unused one. *)
Record pick (s : bcache) (k : Z * Z) (i : Z) (b : buf) : Prop := {
  pk_buf : aget (bufs s) i = Some b;
  pk_lock : b_lock b = sl_free;
  pk_ref : refcnt b + 1 < 2 ^ 32;
  pk_key : key b = k \/ (forall j c, aget (bufs s) j = Some c -> key c <> k) /\ refcnt b = 0
}.

Definition hit (k : Z * Z) (b : buf) : bool := valid b && bool_decide (key b = k).

Lemma ring_all s D : binv s D -> exists l, dll (ring s) HEAD l /\ (forall i, i ∈ l <-> 0 <= i < NBUF) /\
  (forall i, i ∈ l -> is_Some (aget (bufs s) i)) /\ (length l < ring_fuel s)%nat.
Proof.
  intros Hb. destruct (bi_ring Hb) as (l & Hd & Hl). exists l. pose proof (bi_len Hb) as Hlen. split_and!; [done|done| |].
  - intros i Hi. apply aget_is_Some. rewrite Hlen. by apply Hl.
  - unfold ring_fuel. apply Nat.lt_succ_r. destruct Hd as [Hnd _]. apply list.NoDup_cons in Hnd as [_ Hnd].
    assert (Hincl : l ⊆ seqZ 0 NBUF) by (intros i Hi; apply elem_of_seqZ; apply Hl in Hi; lia).
    pose proof (submseteq_length _ _ (NoDup_submseteq _ _ Hnd Hincl)) as Hx. rewrite length_seqZ in Hx. lia.
Qed.

Lemma bget_found s D k l :
  binv s D -> (forall i, i ∈ l <-> 0 <= i < NBUF) -> k <> (0, 0) ->
  match find (is_block s k) l with
  | Some i => exists b, aget (bufs s) i = Some b /\ key b = k /\ forall j c, aget (bufs s) j = Some c -> key c = k -> j = i /\ c = b
  | None => forall j c, aget (bufs s) j = Some c -> key c <> k
  end.
Proof.
  intros Hb Hl Hk. destruct (find (is_block s k) l) as [i|] eqn:Ef.
  - apply find_some in Ef as [_ Ef]. unfold is_block in Ef. destruct (aget (bufs s) i) as [b|] eqn:Hi; [|done].
    apply bool_decide_eq_true in Ef. exists b. split_and!; [done|done|]. intros j c Hj Hc.
    assert (j = i) as -> by (apply (bi_uniq Hb j i c b Hj Hi); congruence). split; congruence.
  - intros j c Hj Hc. assert (Hin : j ∈ l) by (apply Hl; rewrite <- (bi_len Hb); by eapply aget_Some_lt).
    pose proof (find_none _ _ Ef j (proj1 (list_elem_of_In _ _) Hin)) as Hx. unfold is_block in Hx. rewrite Hj in Hx.
    by rewrite bool_decide_eq_true_2 in Hx.
Qed.

(** What a caller of [bget] must ensure: the block's buffer is unlocked, or
    some buffer is unused. *)
Definition available (s : bcache) (k : Z * Z) : Prop :=
  (exists i b, aget (bufs s) i = Some b /\ key b = k /\ b_lock b = sl_free /\ refcnt b + 1 < 2 ^ 32) \/
  (forall j c, aget (bufs s) j = Some c -> key c <> k) /\ exists i b, aget (bufs s) i = Some b /\ refcnt b = 0.

Lemma bget_ok fuel s D dv bno :
  binv s D -> counted s -> bready (cx s) -> (dv, bno) <> (0, 0) -> available s (dv, bno) -> (0 < fuel)%nat ->
  exists i b, pick s (dv, bno) i b /\
    bget fuel dv bno s = Ret i (set_cx (touch (cx s))
      (upb i (mkbuf (hit (dv, bno) b) dv bno (mine s) (refcnt b + 1) (data b)) s)).
Proof.
  intros Hb [Href0 Hfree0] Hr Hk Hav Hf. destruct (ring_all s D Hb) as (l & Hd & Hl & Hin & Hn).
  unfold bget. pose proof Hr as [Hw Hc Hbl]. run (acquire_ok bcache_lock s Hc). set (s1 := set_cx _ s). mstep.
  change (ring_fuel s1) with (ring_fuel s). run (ring_next s1 HEAD _ (dll_first _ _ _ Hd)).
  run (find_cached_ok (ring_fuel s) dv bno s1 [] l Hd Hin Hn).
  assert (Hrel : forall i b, release bcache_lock (upb i b s1) = Ret tt (set_cx (touch (cx s)) (upb i b s))).
  { intros i b. rewrite (release_ok bcache_lock (cx s)); [done|done|done|]. by rewrite locked_touch. }
  assert (Hfin : forall i b b', aget (bufs s) i = Some b -> b_lock b' = sl_free ->
    (release bcache_lock ;;; b_acquiresleep fuel i ;;; ret i) (upb i b' s1) =
    Ret i (set_cx (touch (cx s)) (upb i (set_lock (mine s) b') s))).
  { intros i b b' Hi Hfr. run (Hrel i b'). set (s2 := set_cx _ _).
    assert (Hr2 : bready (cx s2)) by (by apply bready_touch).
    run (b_acquiresleep_ok fuel i b' s2 Hr2 (upb_eq i b b' s Hi) Hfr Hf). unfold s2, ret. f_equal.
    rewrite cx_set, touch_idemp, upb_cx, set_cx_twice, upb_twice. done. }
  pose proof (bget_found s D (dv, bno) l Hb Hl Hk) as Hfd. change (is_block s1) with (is_block s).
  destruct (find (is_block s (dv, bno)) l) as [i|].
  - destruct Hfd as (b & Hi & Hkb & Hun).
    destruct Hav as [(j & c & Hj & Hkc & Hlc & Href)|[Hno _]]; [|by destruct (Hno i b Hi)].
    destruct (Hun j c Hj Hkc) as [-> ->]. exists i, b. split; [by split; [..|left]|].
    run (setb_ok i b (fun x => set_refcnt (u32 (refcnt x + 1)) x) s1 Hi).
    rewrite (Hfin i b (set_refcnt (u32 (refcnt b + 1)) b) Hi Hlc). do 3 f_equal. unfold set_lock, set_refcnt. cbn.
    pose proof (Href0 i b Hi). rewrite u32_small by lia. unfold hit, key in *. rewrite bool_decide_eq_true_2 by done.
    injection Hkb as -> ->. by rewrite andb_true_r.
  - destruct Hav as [(j & c & Hj & Hkc & _)|[_ (j & c & Hj & Hz)]]; [by destruct (Hfd j c Hj)|].
    run (ring_prev s1 HEAD _ (dll_last _ _ _ Hd)).
    assert (Hd' : dll (ring s1) HEAD (l ++ [])) by (by rewrite app_nil_r).
    run (find_unused_ok (ring_fuel s) s1 l [] Hd' Hin Hn). change (is_unused s1) with (is_unused s).
    destruct (find (is_unused s) (reverse l)) as [i|] eqn:Ef.
    + apply find_some in Ef as [_ Ef]. unfold is_unused in Ef. destruct (aget (bufs s) i) as [b|] eqn:Hi; [|done].
      apply Z.eqb_eq in Ef. exists i, b. split; [split; [done|by apply (Hfree0 i b)|lia|by right]|].
      run (setb_ok i b (fun x => mkbuf false dv bno (b_lock x) 1 (data x)) s1 Hi).
      rewrite (Hfin i b (mkbuf false dv bno (b_lock b) 1 (data b)) Hi (Hfree0 i b Hi Ef)). do 3 f_equal. unfold set_lock. cbn. rewrite Ef.
      unfold hit. rewrite bool_decide_eq_false_2 by (by apply (Hfd i b)). by rewrite andb_false_r.
    + assert (Hjin : j ∈ reverse l) by (apply elem_of_reverse, Hl; rewrite <- (bi_len Hb); by eapply aget_Some_lt).
      pose proof (find_none _ _ Ef j (proj1 (list_elem_of_In _ _) Hjin)) as Hx. unfold is_unused in Hx. rewrite Hj, Hz in Hx. done.
Qed.

(** ** What a block holds

    The data of a valid buffer of the block, or else what is on the disk. *)
Definition blk (s : bcache) (k : Z * Z) (d : block) : Prop :=
  (exists i b, aget (bufs s) i = Some b /\ key b = k /\ valid b = true /\ data b = d) \/
  (forall i b, aget (bufs s) i = Some b -> key b = k -> valid b = false) /\ disk s !! k = Some d.

Lemma buf_index s D i b : binv s D -> aget (bufs s) i = Some b -> i ∈ seqZ 0 NBUF.
Proof. intros Hb Hi. apply elem_of_seqZ. pose proof (aget_Some_lt _ _ _ Hi). rewrite (bi_len Hb) in *. lia. Qed.

Lemma blk_clean s D k d : binv s D -> k ∉ D -> disk s !! k = Some d -> blk s k d.
Proof.
  intros Hb Hk Hd.
  destruct (find (fun i => match aget (bufs s) i with Some b => bool_decide (key b = k) && valid b | None => false end)
    (seqZ 0 NBUF)) as [i|] eqn:Ef.
  - apply find_some in Ef as [_ Ef]. destruct (aget (bufs s) i) as [b|] eqn:Hi; [|done].
    apply andb_true_iff in Ef as [Hkb%bool_decide_eq_true Hv]. left. exists i, b. split_and!; try done.
    pose proof (bi_clean Hb i b Hi Hv ltac:(congruence)). congruence.
  - right. split; [|done]. intros i b Hi Hkb. destruct (valid b) eqn:Hv; [|done].
    pose proof (buf_index _ _ _ _ Hb Hi) as Hin.
    pose proof (find_none _ _ Ef i (proj1 (list_elem_of_In _ _) Hin)) as Hx. cbn beta in Hx.
    rewrite Hi, Hv, bool_decide_eq_true_2 in Hx by done. done.
Qed.

Lemma blk_disk s D k d : binv s D -> k ∉ D -> blk s k d -> disk s !! k = Some d.
Proof.
  intros Hb Hk [(i & b & Hi & Hkb & Hv & <-)|[_ Hd]]; [|done]. rewrite <- Hkb. apply (bi_clean Hb i b Hi Hv). congruence.
Qed.

(** The data [bread] delivers. *)
Lemma blk_pick s D k d i b :
  binv s D -> k <> (0, 0) -> pick s k i b -> blk s k d ->
  (hit k b = true /\ data b = d) \/ (hit k b = false /\ disk s !! k = Some d).
Proof.
  intros Hb Hk [Hi _ _ Hkey] Hd. unfold hit. destruct Hd as [(j & c & Hj & Hkc & Hv & Hdc)|[Hno Hd]].
  - destruct Hkey as [Hkb|[Hno _]]; [|by destruct (Hno j c Hj)].
    assert (j = i) as -> by (apply (bi_uniq Hb j i c b Hj Hi); congruence).
    assert (c = b) as -> by congruence. left. rewrite Hv, bool_decide_eq_true_2 by done. done.
  - right. split; [|done]. destruct (valid b) eqn:Hv; [|done]. case_bool_decide as Hkb; [|done].
    rewrite (Hno i b Hi Hkb) in Hv. done.
Qed.

Lemma bread_ok fuel s D k d :
  binv s D -> counted s -> bready (cx s) -> k <> (0, 0) -> available s k -> (0 < fuel)%nat -> blk s k d ->
  exists i b, pick s k i b /\
    bread fuel k.1 k.2 s = Ret i (set_cx (touch (cx s)) (upb i (mkbuf true k.1 k.2 (mine s) (refcnt b + 1) d) s)).
Proof.
  intros Hb Hct Hr Hk Hav Hf Hd. destruct k as [dv bno].
  destruct (bget_ok fuel s D dv bno Hb Hct Hr Hk Hav Hf) as (i & b & Hp & E1). exists i, b. split; [done|].
  pose proof (pk_buf _ _ _ _ Hp) as Hi. unfold bread. run E1. set (b1 := mkbuf (hit _ _) _ _ _ _ _). set (s1 := set_cx _ _).
  assert (Hi1 : aget (bufs s1) i = Some b1) by (by apply (upb_eq i b b1 s)). run (getb_ok i b1 s1 Hi1). cbn [valid b1].
  destruct (blk_pick s D _ d i b Hb Hk Hp Hd) as [[Hh Hdat]|[Hh Hdisk]].
  - assert (Eb : b1 = mkbuf true dv bno (mine s) (refcnt b + 1) d) by (unfold b1; by rewrite Hh, Hdat).
    rewrite Hh. mstep. unfold ret, s1. by rewrite Eb.
  - rewrite Hh. assert (E2 : (disk_read i ;;; setb i (set_valid true)) s1 =
      Ret tt (set_cx (touch (cx s)) (upb i (mkbuf true dv bno (mine s) (refcnt b + 1) d) s))).
    { assert (E3 : disk_read i s1 = Ret tt (upb i (set_data d b1) s1)).
      { unfold disk_read. run (getb_ok i b1 s1 Hi1). unfold bind at 1. cbn [dev blockno b1].
        change (disk s1) with (disk s). rewrite Hdisk. cbn [unwrap ret rbind]. by rewrite (setb_ok i b1). }
      run E3. rewrite (setb_ok i (set_data d b1)) by (by apply (upb_eq i b1)). unfold s1. rewrite !upb_cx, !upb_twice. done. }
    run E2. done.
Qed.
