(* ===== verification/BioUse.v ===== *)
(** * Using the buffer cache

    The state of the cache as its clients see it: the blocks [D] to be logged,
    how often each block is pinned ([P]), and the buffers [H] this thread holds;
    no other thread holds a buffer.  A count of -1 stands for a reference count
    that went below zero. *)

From S2P Require Import Prelude ListC Sleeplock Bio BioSpec.

Definition pins (P : gmap (Z * Z) Z) (k : Z * Z) : Z := default 0 (P !! k).
Definition one (H : gset Z) (i : Z) : Z := if decide (i ∈ H) then 1 else 0.

Record bst (s : bcache) (D : gset (Z * Z)) (P : gmap (Z * Z) Z) (H : gset Z) : Prop := {
  bs_inv : binv s D;
  bs_ref : forall i b, aget (bufs s) i = Some b -> refcnt b = u32 (pins P (key b) + one H i);
  bs_lock : forall i b, aget (bufs s) i = Some b -> b_lock b = if decide (i ∈ H) then mine s else sl_free;
  bs_valid : forall i b, aget (bufs s) i = Some b -> i ∈ H -> valid b = true;
  bs_pin : forall k, pins P k <> 0 -> k <> (0, 0) /\ exists i b, aget (bufs s) i = Some b /\ key b = k;
  bs_range : forall k, -1 <= pins P k < 2 ^ 31;
  bs_dirty : forall k, k ∈ D -> 0 < pins P k
}.

Arguments bs_inv {s D P H} _.
Arguments bs_ref {s D P H} _.
Arguments bs_lock {s D P H} _.
Arguments bs_valid {s D P H} _.
Arguments bs_pin {s D P H} _.
Arguments bs_range {s D P H} _.
Arguments bs_dirty {s D P H} _.

(** What reading and releasing buffers keeps. *)
Record kept (s s' : bcache) : Prop := {
  kp_disk : disk s' = disk s;
  kp_past : past s' = past s;
  kp_cx : cx s' = touch (cx s);
  kp_blk : forall k d, k <> (0, 0) -> blk s k d -> blk s' k d
}.

Arguments kp_disk {s s'} _.
Arguments kp_past {s s'} _.
Arguments kp_cx {s s'} _.
Arguments kp_blk {s s'} _.

Lemma kept_trans s s1 s2 : kept s s1 -> kept s1 s2 -> kept s s2.
Proof.
  intros [A1 A2 A3 A4] [B1 B2 B3 B4]. split; [congruence|congruence|rewrite B3, A3; apply touch_idemp|auto].
Qed.

(** Block [k] is not held, and neither it nor a held block is over-released. *)
Definition sound (s : bcache) (P : gmap (Z * Z) Z) (H : gset Z) (k : Z * Z) : Prop :=
  0 <= pins P k /\ forall i b, i ∈ H -> aget (bufs s) i = Some b -> key b <> k /\ 0 <= pins P (key b).

Lemma u32_zero a : -1 <= a < 2 ^ 32 - 1 -> u32 a = 0 -> a = 0.
Proof. intros Ha. unfold u32. dlia. Qed.

Lemma bst_counted s D P H k : bst s D P H -> sound s P H k -> counted s.
Proof.
  intros Hb Hs. split; intros i b Hi; rewrite (bs_ref Hb i b Hi).
  - apply u32_range.
  - intros Hz. rewrite (bs_lock Hb i b Hi). case_decide as Hin; [|done]. exfalso.
    pose proof (bs_range Hb (key b)). destruct (proj2 Hs i b Hin Hi) as [_ Hp].
    unfold one in Hz. rewrite decide_True in Hz by done. apply u32_zero in Hz; lia.
Qed.

(** Fewer pinned blocks and held buffers than buffers: one is unused. *)
Lemma bst_unused s D P H :
  bst s D P H -> (size P + size H < Z.to_nat NBUF)%nat -> exists i b, aget (bufs s) i = Some b /\ i ∉ H /\ refcnt b = 0.
Proof.
  intros Hb Hsz. pose proof (bi_len (bs_inv Hb)) as Hlen.
  destruct (find (fun i => bool_decide (i ∉ H) && is_unused s i) (seqZ 0 NBUF)) as [i|] eqn:Ef.
  { apply find_some in Ef as [_ [Hh%bool_decide_eq_true Hu]%andb_true_iff]. unfold is_unused in Hu.
    destruct (aget (bufs s) i) as [b|] eqn:Hi; [|done]. exists i, b. split_and!; [done|done|lia]. }
  exfalso. pose proof (find_none _ _ Ef) as Hall.
  set (l := filter (fun i => i ∉ H) (seqZ 0 NBUF)).
  set (f := fun i => match aget (bufs s) i with Some b => key b | None => (0, 0) end).
  assert (Hk : forall i, i ∈ l -> exists b, aget (bufs s) i = Some b /\ pins P (key b) <> 0).
  { intros i [Hih Hir]%list_elem_of_filter. pose proof (Hall i (proj1 (list_elem_of_In _ _) Hir)) as Hx. cbn beta in Hx.
    rewrite bool_decide_eq_true_2 in Hx by done. cbn [andb] in Hx. unfold is_unused in Hx.
    destruct (aget_is_Some (bufs s) i) as [b Hi]; [apply elem_of_seqZ in Hir; lia|]. exists b. split; [done|]. rewrite Hi in Hx.
    intros Hz. rewrite (bs_ref Hb i b Hi), Hz in Hx. unfold one in Hx. by rewrite decide_False in Hx. }
  assert (Hnd : NoDup (f <$> l)).
  { apply NoDup_fmap_2_strong; [|apply list.NoDup_filter, NoDup_seqZ]. intros i j Hi Hj Hf.
    destruct (Hk i Hi) as (b & Hbi & Hpi), (Hk j Hj) as (c & Hcj & _). unfold f in Hf. rewrite Hbi, Hcj in Hf.
    apply (bi_uniq (bs_inv Hb) i j b c Hbi Hcj Hf). by apply (bs_pin Hb). }
  assert (Hsub : (f <$> l) ⊆ elements (dom P)).
  { intros k Hx. apply list_elem_of_fmap in Hx as (i & -> & Hi). destruct (Hk i Hi) as (b & Hbi & Hpi). unfold f. rewrite Hbi.
    apply elem_of_elements, elem_of_dom. unfold pins in Hpi. destruct (P !! key b); [eauto|done]. }
  pose proof (submseteq_length _ _ (NoDup_submseteq _ _ Hnd Hsub)) as H1. rewrite length_fmap in H1.
  change (length (elements (dom P))) with (size (dom P)) in H1. rewrite size_dom in H1.
  assert (H2 : (Z.to_nat NBUF <= length l + size H)%nat); [|lia].
  assert (Hnd2 : NoDup (seqZ 0 NBUF)) by apply NoDup_seqZ.
  assert (Hsub2 : seqZ 0 NBUF ⊆ l ++ elements H).
  { intros i Hi. apply elem_of_app. destruct (decide (i ∈ H)); [right; by apply elem_of_elements|left; by apply list_elem_of_filter]. }
  pose proof (submseteq_length _ _ (NoDup_submseteq _ _ Hnd2 Hsub2)) as H3. rewrite length_app, length_seqZ in H3.
  change (length (elements H)) with (size H) in H3. lia.
Qed.

Lemma bst_available s D P H k :
  bst s D P H -> sound s P H k -> (pins P k <> 0 \/ (size P + size H < Z.to_nat NBUF)%nat) -> available s k.
Proof.
  intros Hb [Hpk Hs] Hsz. unfold available. pose proof (bs_range Hb k).
  destruct (find (is_block s k) (seqZ 0 NBUF)) as [i|] eqn:Ef.
  - left. apply find_some in Ef as [_ Ef]. unfold is_block in Ef. destruct (aget (bufs s) i) as [b|] eqn:Hi; [|done].
    apply bool_decide_eq_true in Ef. exists i, b. assert (Hn : i ∉ H) by (intros Hx; by destruct (Hs i b Hx Hi)).
    split_and!; [done|done| |].
    + rewrite (bs_lock Hb i b Hi). by rewrite decide_False.
    + rewrite (bs_ref Hb i b Hi). unfold one. rewrite decide_False, Ef by done. rewrite u32_small; lia.
  - right. split.
    + intros j c Hj Hc. pose proof (buf_index _ _ _ _ (bs_inv Hb) Hj) as Hin.
      pose proof (find_none _ _ Ef j (proj1 (list_elem_of_In _ _) Hin)) as Hx.
      unfold is_block in Hx. rewrite Hj, bool_decide_eq_true_2 in Hx by done. done.
    + destruct Hsz as [Hp|Hsz].
      * exfalso. destruct (bs_pin Hb k Hp) as [_ (i & b & Hi & Hkb)]. pose proof (buf_index _ _ _ _ (bs_inv Hb) Hi) as Hin.
        pose proof (find_none _ _ Ef i (proj1 (list_elem_of_In _ _) Hin)) as Hx.
        unfold is_block in Hx. rewrite Hi, bool_decide_eq_true_2 in Hx by done. done.
      * destruct (bst_unused _ _ _ _ Hb Hsz) as (i & b & Hi & _ & Hz). eauto.
Qed.

(** A buffer changes: its new block is new to the cache, or the one it had. *)
Lemma binv_upb s D i b b' :
  binv s D -> aget (bufs s) i = Some b -> key b' <> (0, 0) ->
  (key b' = key b \/ forall j c, aget (bufs s) j = Some c -> key c <> key b') ->
  (valid b' = true -> key b' ∉ D -> disk s !! key b' = Some (data b')) ->
  (forall k, k ∈ D -> k = key b -> key b' = k /\ valid b' = true) ->
  binv (upb i b' s) D.
Proof.
  intros [H1 H2 H3 H4 H5] Hi Hk0 Hnew Hcl Hdi. split.
  - cbn. by rewrite length_insert.
  - done.
  - intros j j' c c' Hj Hj' Hcc Hc0.
    destruct (decide (i = j)) as [<-|Hj1], (decide (i = j')) as [<-|Hj2].
    + done.
    + rewrite (upb_eq i b) in Hj by done. rewrite (upb_ne i j' b) in Hj' by done. injection Hj as <-.
      destruct Hnew as [Hk|Hno]; [apply (H3 i j' b c'); congruence|]. by destruct (Hno j' c' Hj').
    + rewrite (upb_eq i b) in Hj' by done. rewrite (upb_ne i j b) in Hj by done. injection Hj' as <-.
      destruct Hnew as [Hk|Hno]; [apply (H3 j i c b); congruence|]. by destruct (Hno j c Hj).
    + rewrite (upb_ne i j b) in Hj by done. rewrite (upb_ne i j' b) in Hj' by done. by apply (H3 j j' c c').
  - intros j c Hj Hv Hd. destruct (decide (i = j)) as [<-|Hne].
    + rewrite (upb_eq i b) in Hj by done. injection Hj as <-. by apply Hcl.
    + rewrite (upb_ne i j b) in Hj by done. by apply (H4 j c).
  - intros k Hk. destruct (H5 k Hk) as [Hkz (j & c & Hj & Hkc & Hv)]. split; [done|].
    destruct (decide (i = j)) as [<-|Hne].
    + assert (c = b) as -> by congruence. destruct (Hdi k Hk ltac:(done)) as [Hkb Hvb].
      exists i, b'. split_and!; [by apply (upb_eq i b)|done|done].
    + exists j, c. split_and!; [by rewrite (upb_ne i j b)|done|done].
Qed.

Lemma binv_cx s D c : binv s D -> binv (set_cx c s) D.
Proof. intros [H1 H2 H3 H4 H5]. by split. Qed.

Lemma blk_fun s D k d1 d2 : binv s D -> k <> (0, 0) -> blk s k d1 -> blk s k d2 -> d1 = d2.
Proof.
  intros Hb Hk [(i & b & Hi & Hkb & Hv & <-)|[Hno H1]] [(j & c & Hj & Hkc & Hv' & <-)|[Hno' H2]].
  - assert (i = j) as <- by (apply (bi_uniq Hb i j b c Hi Hj); congruence). congruence.
  - by rewrite (Hno' i b Hi Hkb) in Hv.
  - by rewrite (Hno j c Hj Hkc) in Hv'.
  - congruence.
Qed.

(** Another buffer's block, when buffer [i] takes block [k]. *)
Lemma blk_recycle s D i b b' k k' d :
  binv s D -> aget (bufs s) i = Some b -> key b' = k -> k' <> k -> k' <> (0, 0) ->
  (key b = k' -> k' ∉ D) -> blk s k' d -> blk (upb i b' s) k' d.
Proof.
  intros Hb Hi Hk' Hne Hz Hcl [(j & c & Hj & Hkc & Hv & Hd)|[Hno Hd]].
  - destruct (decide (i = j)) as [<-|Hij].
    + assert (c = b) as -> by congruence. right. split.
      * intros j e Hj' Hke. destruct (decide (i = j)) as [<-|Hij].
        -- rewrite (upb_eq i b) in Hj' by done. congruence.
        -- rewrite (upb_ne i j b) in Hj' by done. exfalso. apply Hij. apply (bi_uniq Hb i j b e); congruence.
      * cbn. rewrite <- Hd, <- Hkc. apply (bi_clean Hb i b Hi Hv). rewrite Hkc. by apply Hcl.
    + left. exists j, c. split_and!; try done. by rewrite (upb_ne i j b).
  - right. split; [|done]. intros j e Hj' Hke. destruct (decide (i = j)) as [<-|Hij].
    + rewrite (upb_eq i b) in Hj' by done. congruence.
    + rewrite (upb_ne i j b) in Hj' by done. by apply (Hno j e).
Qed.

(** The buffer [bread] found takes block [k], is locked and counted. *)
Lemma bst_take s D P H k d i b :
  bst s D P H -> sound s P H k -> k <> (0, 0) -> blk s k d -> pick s k i b ->
  i ∉ H /\ bst (upb i (mkbuf true k.1 k.2 (mine s) (refcnt b + 1) d) s) D P ({[i]} ∪ H).
Proof.
  intros Hb Hs Hk Hd [Hi Hl Hr Hkey]. set (b' := mkbuf _ _ _ _ _ _). assert (Ekb' : key b' = k) by (by destruct k).
  pose proof (bs_inv Hb) as Hinv. pose proof (bs_ref Hb i b Hi) as Href.
  assert (Hih : i ∉ H).
  { intros Hx. destruct (proj2 Hs i b Hx Hi) as [Hne Hp]. destruct Hkey as [|[_ Hz]]; [done|].
    pose proof (bs_range Hb (key b)). rewrite Hz in Href. symmetry in Href. unfold one in Href.
    rewrite decide_True in Href by done. apply u32_zero in Href; lia. }
  assert (Epin : pins P (key b) = pins P k).
  { destruct Hkey as [->|[Hno Hz]]; [done|]. rewrite Hz in Href. unfold one in Href. rewrite decide_False in Href by done.
    pose proof (bs_range Hb (key b)). symmetry in Href. apply u32_zero in Href; [|lia]. rewrite Z.add_0_r in Href.
    rewrite Href. destruct (decide (pins P k = 0)) as [->|Hnz]; [done|].
    destruct (bs_pin Hb k Hnz) as [_ (j & c & Hj & Hc)]. by destruct (Hno j c Hj). }
  split; [done|]. split.
  - apply (binv_upb s D i b b' Hinv Hi); rewrite Ekb'; [done| | |].
    + destruct Hkey as [->|[Hno _]]; [by left|by right].
    + intros _ Hnd. by apply (blk_disk s D).
    + intros k' Hk' ->. destruct Hkey as [->|[Hno Hz]]; [done|]. exfalso.
      pose proof (bs_dirty Hb _ Hk') as Hx. rewrite Hz in Href. unfold one in Href. rewrite decide_False in Href by done.
      pose proof (bs_range Hb (key b)). symmetry in Href. apply u32_zero in Href; lia.
  - intros j c Hj. unfold one. destruct (decide (i = j)) as [<-|Hne].
    + rewrite (upb_eq i b) in Hj by done. injection Hj as <-. rewrite decide_True by set_solver.
      rewrite Ekb', <- Epin. cbn [refcnt b']. rewrite Href in Hr |- *. unfold one in *. rewrite decide_False in Hr |- * by done.
      rewrite Z.add_0_r in *. pose proof (bs_range Hb (key b)). unfold u32 in *. dlia.
    + rewrite (upb_ne i j b) in Hj by done. rewrite (bs_ref Hb j c Hj). unfold one.
      destruct (decide (j ∈ H)); [rewrite decide_True by set_solver|rewrite decide_False by set_solver]; done.
  - intros j c Hj. destruct (decide (i = j)) as [<-|Hne].
    + rewrite (upb_eq i b) in Hj by done. injection Hj as <-. by rewrite decide_True by set_solver.
    + rewrite (upb_ne i j b) in Hj by done. rewrite (bs_lock Hb j c Hj).
      destruct (decide (j ∈ H)); [rewrite decide_True by set_solver|rewrite decide_False by set_solver]; done.
  - intros j c Hj Hin. destruct (decide (i = j)) as [<-|Hne].
    + rewrite (upb_eq i b) in Hj by done. by injection Hj as <-.
    + rewrite (upb_ne i j b) in Hj by done. apply (bs_valid Hb j c Hj). set_solver.
  - intros k' Hk'. destruct (bs_pin Hb k' Hk') as [Hz (j & c & Hj & Hc)]. split; [done|].
    destruct (decide (i = j)) as [<-|Hne]; [|exists j, c; by rewrite (upb_ne i j b)].
    exists i, b'. rewrite (upb_eq i b) by done. split; [done|]. assert (c = b) as -> by congruence.
    destruct Hkey as [Hkb|[Hno Hz']]; [congruence|]. exfalso. rewrite Hc in Epin. apply Hk'.
    rewrite Hz', Hc in Href. unfold one in Href. rewrite decide_False in Href by done.
    pose proof (bs_range Hb k'). symmetry in Href. apply u32_zero in Href; lia.
  - apply (bs_range Hb).
  - apply (bs_dirty Hb).
Qed.

Lemma bst_cx s D P H c : bst s D P H -> mypid c = mypid (cx s) -> bst (set_cx c s) D P H.
Proof.
  intros [H1 H2 H3 H4 H5 H6 H7] Hc. split; try done; [by apply binv_cx|].
  intros i b Hi. rewrite (H3 i b Hi). unfold mine. rewrite cx_set. by rewrite Hc.
Qed.

Lemma blk_cx s c k d : blk (set_cx c s) k d <-> blk s k d.
Proof. done. Qed.

Lemma bread_st fuel s D P H k d :
  bst s D P H -> sound s P H k -> k <> (0, 0) -> blk s k d ->
  (pins P k <> 0 \/ (size P + size H < Z.to_nat NBUF)%nat) -> bready (cx s) -> (0 < fuel)%nat ->
  exists i b s', bread fuel k.1 k.2 s = Ret i s' /\ i ∉ H /\ aget (bufs s') i = Some b /\ key b = k /\ data b = d /\
    bst s' D P ({[i]} ∪ H) /\ kept s s' /\ forall j, j <> i -> aget (bufs s') j = aget (bufs s) j.
Proof.
  intros Hb Hs Hk Hd Hsz Hr Hf. pose proof (bs_inv Hb) as Hinv.
  destruct (bread_ok fuel s D k d Hinv (bst_counted _ _ _ _ _ Hb Hs) Hr Hk (bst_available _ _ _ _ _ Hb Hs Hsz) Hf Hd)
    as (i & b & Hp & E1).
  destruct (bst_take s D P H k d i b Hb Hs Hk Hd Hp) as [Hih Hb']. set (b' := mkbuf _ _ _ _ _ _) in *.
  pose proof (pk_buf _ _ _ _ Hp) as Hi. exists i, b', (set_cx (touch (cx s)) (upb i b' s)).
  split_and!; [done|done|by apply (upb_eq i b)|by destruct k|done|by apply bst_cx| |].
  - split; [done|done|done|]. intros k' d' Hk' Hd'. apply blk_cx. destruct (decide (k' = k)) as [->|Hne].
    + left. exists i, b'. split_and!; [by apply (upb_eq i b)|by destruct k|done|]. by apply (blk_fun s D k).
    + apply (blk_recycle s D i b b' k); try done; [by destruct k|]. intros Hkb Hin.
      destruct (pk_key _ _ _ _ Hp) as [|[_ Hz]]; [congruence|]. pose proof (bs_dirty Hb _ Hin) as Hx.
      rewrite (bs_ref Hb i b Hi), Hkb in Hz. unfold one in Hz. rewrite decide_False in Hz by done.
      pose proof (bs_range Hb k'). apply u32_zero in Hz; lia.
  - intros j Hj. by apply (upb_ne i j b).
Qed.

(** One buffer changes, but not the block it caches; the ring may be reordered
    and the disk change at that block. *)
Record changed (s s' : bcache) (D D' : gset (Z * Z)) (P P' : gmap (Z * Z) Z) (H H' : gset Z) (i : Z) (b b' : buf) : Prop := {
  ch_old : aget (bufs s) i = Some b;
  ch_key : key b' = key b;
  ch_zero : key b <> (0, 0);
  ch_bufs : bufs s' = <[Z.to_nat i := b']> (bufs s);
  ch_ring : exists l, dll (ring s') HEAD l /\ forall j, j ∈ l <-> 0 <= j < NBUF;
  ch_pid : mypid (cx s') = mypid (cx s);
  ch_H : forall j, j <> i -> (j ∈ H' <-> j ∈ H);
  ch_P : forall k, k <> key b -> pins P' k = pins P k;
  ch_D : forall k, k <> key b -> (k ∈ D' <-> k ∈ D);
  ch_disk : forall k, k <> key b -> disk s' !! k = disk s !! k;
  ch_clean : valid b' = true -> key b ∉ D' -> disk s' !! key b = Some (data b');
  ch_valid : key b ∈ D' \/ i ∈ H' -> valid b' = true;
  ch_ref : refcnt b' = u32 (pins P' (key b) + one H' i);
  ch_lock : b_lock b' = if decide (i ∈ H') then mine s else sl_free;
  ch_range : -1 <= pins P' (key b) < 2 ^ 31;
  ch_dirty : key b ∈ D' -> 0 < pins P' (key b)
}.

Arguments ch_old {s s' D D' P P' H H' i b b'} _.
Arguments ch_key {s s' D D' P P' H H' i b b'} _.
Arguments ch_zero {s s' D D' P P' H H' i b b'} _.
Arguments ch_bufs {s s' D D' P P' H H' i b b'} _.
Arguments ch_ring {s s' D D' P P' H H' i b b'} _.
Arguments ch_pid {s s' D D' P P' H H' i b b'} _.
Arguments ch_H {s s' D D' P P' H H' i b b'} _.
Arguments ch_P {s s' D D' P P' H H' i b b'} _.
Arguments ch_D {s s' D D' P P' H H' i b b'} _.
Arguments ch_disk {s s' D D' P P' H H' i b b'} _.
Arguments ch_clean {s s' D D' P P' H H' i b b'} _.
Arguments ch_valid {s s' D D' P P' H H' i b b'} _.
Arguments ch_ref {s s' D D' P P' H H' i b b'} _.
Arguments ch_lock {s s' D D' P P' H H' i b b'} _.
Arguments ch_range {s s' D D' P P' H H' i b b'} _.
Arguments ch_dirty {s s' D D' P P' H H' i b b'} _.

Lemma changed_at {s s' D D' P P' H H' i b b'} :
  changed s s' D D' P P' H H' i b b' ->
  aget (bufs s') i = Some b' /\ forall j, j <> i -> aget (bufs s') j = aget (bufs s) j.
Proof.
  intros Hc. rewrite (ch_bufs Hc). pose proof (ch_old Hc) as Hi.
  split; [by apply (upb_eq i b b' s)|]. intros j Hj. by apply (upb_ne i j b b' s).
Qed.

Lemma binv_changed s s' D D' P P' H H' i b b' :
  binv s D -> changed s s' D D' P P' H H' i b b' -> binv s' D'.
Proof.
  intros [H1 H2 H3 H4 H5] Hc. destruct (changed_at Hc) as [Hi Ho].
  pose proof (ch_old Hc) as Hb. pose proof (ch_key Hc) as Hk.
  assert (Hjo : forall x y, aget (bufs s') x = Some y -> exists z, aget (bufs s) x = Some z /\ key z = key y).
  { intros x y Hx. destruct (decide (x = i)) as [->|Hne]; [exists b; split; [done|]; congruence|].
    exists y. by rewrite Ho in Hx. }
  split.
  - rewrite (ch_bufs Hc), length_insert. done.
  - apply (ch_ring Hc).
  - intros j j' c c' Hj Hj' Hcc Hc0. destruct (Hjo j c Hj) as (z & Hz & Ez), (Hjo j' c' Hj') as (z' & Hz' & Ez').
    apply (H3 j j' z z'); congruence.
  - intros j c Hj Hv Hd. destruct (decide (j = i)) as [->|Hne].
    + assert (c = b') as -> by congruence. rewrite Hk in *. by apply (ch_clean Hc).
    + rewrite Ho in Hj by done.
      assert (Hkc : key c <> key b) by (intros Hx; apply Hne; apply (H3 j i c b Hj Hb); [done|]; rewrite Hx; apply (ch_zero Hc)).
      rewrite (ch_disk Hc) by done. apply (H4 j c Hj Hv). by rewrite <- (ch_D Hc).
  - intros k Hkd. destruct (decide (k = key b)) as [->|Hne].
    + split; [apply (ch_zero Hc)|]. exists i, b'. split_and!; [done|done|].
      apply (ch_valid Hc). by left.
    + apply (ch_D Hc) in Hkd; [|done]. destruct (H5 k Hkd) as [Hz (j & c & Hj & Hkc & Hv)].
      split; [done|]. exists j, c. rewrite Ho; [done|]. intros ->. congruence.
Qed.

Lemma bst_changed s s' D D' P P' H H' i b b' :
  bst s D P H -> changed s s' D D' P P' H H' i b b' -> bst s' D' P' H'.
Proof.
  intros Hb Hc. destruct (changed_at Hc) as [Hi Ho]. pose proof (bs_inv Hb) as Hinv.
  pose proof (ch_old Hc) as Hb0. pose proof (ch_key Hc) as Hk.
  assert (Hother : forall j c, j <> i -> aget (bufs s') j = Some c -> aget (bufs s) j = Some c /\ key c <> key b).
  { intros j c Hj Hx. rewrite Ho in Hx by done. split; [done|]. intros Hkc. apply Hj.
    apply (bi_uniq Hinv j i c b Hx Hb0 Hkc). rewrite Hkc. apply (ch_zero Hc). }
  split.
  - by eapply binv_changed.
  - intros j c Hj. destruct (decide (j = i)) as [->|Hne].
    + assert (c = b') as -> by congruence. rewrite Hk. apply (ch_ref Hc).
    + destruct (Hother j c Hne Hj) as [Hj' Hkc]. rewrite (bs_ref Hb j c Hj').
      rewrite (ch_P Hc) by done. unfold one. pose proof (ch_H Hc j Hne).
      destruct (decide (j ∈ H)), (decide (j ∈ H')); naive_solver.
  - intros j c Hj. assert (Em : mine s' = mine s) by (unfold mine; by rewrite (ch_pid Hc)). rewrite Em.
    destruct (decide (j = i)) as [->|Hne].
    + assert (c = b') as -> by congruence. apply (ch_lock Hc).
    + destruct (Hother j c Hne Hj) as [Hj' _]. rewrite (bs_lock Hb j c Hj').
      pose proof (ch_H Hc j Hne). destruct (decide (j ∈ H)), (decide (j ∈ H')); naive_solver.
  - intros j c Hj Hin. destruct (decide (j = i)) as [->|Hne].
    + assert (c = b') as -> by congruence. apply (ch_valid Hc). by right.
    + destruct (Hother j c Hne Hj) as [Hj' _]. apply (bs_valid Hb j c Hj').
      by apply (ch_H Hc j Hne).
  - intros k Hpk. destruct (decide (k = key b)) as [->|Hne].
    + split; [apply (ch_zero Hc)|]. by exists i, b'.
    + rewrite (ch_P Hc) in Hpk by done. destruct (bs_pin Hb k Hpk) as [Hz (j & c & Hj & Hkc)].
      split; [done|]. exists j, c. rewrite Ho; [done|]. intros ->. congruence.
  - intros k. destruct (decide (k = key b)) as [->|Hne]; [apply (ch_range Hc)|].
    rewrite (ch_P Hc) by done. apply (bs_range Hb).
  - intros k Hkd. destruct (decide (k = key b)) as [->|Hne]; [by apply (ch_dirty Hc)|].
    rewrite (ch_P Hc) by done. apply (bs_dirty Hb).
    by apply (ch_D Hc).
Qed.

(** The other blocks still hold what they held. *)
Lemma blk_changed s s' D D' P P' H H' i b b' k d :
  changed s s' D D' P P' H H' i b b' -> k <> key b -> blk s k d -> blk s' k d.
Proof.
  intros Hc Hk Hd. destruct (changed_at Hc) as [Hi Ho].
  pose proof (ch_old Hc) as Hb0. pose proof (ch_key Hc) as Hkb.
  destruct Hd as [(j & c & Hj & Hkc & Hv & Hd)|[Hno Hd]].
  - left. exists j, c. rewrite Ho; [done|]. intros ->. congruence.
  - right. rewrite (ch_disk Hc) by done. split; [|done]. intros j c Hj Hkc.
    destruct (decide (j = i)) as [->|Hne]; [congruence|]. rewrite Ho in Hj by done. by apply (Hno j c).
Qed.

(** Replacing the data of a held buffer and writing it to the disk. *)
Lemma bwrite_st s D P H i b v :
  bst s D P H -> bready (cx s) -> i ∈ H -> aget (bufs s) i = Some b -> key b <> (0, 0) ->
  exists s', (setb i (set_data v) ;;; bwrite i) s = Ret tt s' /\
    changed s s' D (D ∖ {[key b]}) P P H H i b (set_data v b) /\
    disk s' = <[key b := v]> (disk s) /\ past s' = disk s :: past s /\ cx s' = touch (cx s).
Proof.
  intros Hb Hr Hi Hbi Hk. pose proof (bs_inv Hb) as Hinv. run (setb_ok i b (set_data v) s Hbi).
  set (b' := set_data v b). set (s1 := upb i b' s). assert (Hi1 : aget (bufs s1) i = Some b') by (by apply (upb_eq i b)).
  assert (Hl : b_lock b' = mine s1).
  { cbn. rewrite (bs_lock Hb i b Hbi). by rewrite decide_True. }
  unfold bwrite. run (b_holdingsleep_ok i b' s1 Hr Hi1 Hl). cbn [negb]. unfold disk_write.
  run (getb_ok i b' (set_cx (touch (cx s)) s1) Hi1). unfold modify. eexists. split; [done|].
  split; [|done]. split; try done; cbn.
  - apply (bi_ring Hinv).
  - set_solver.
  - intros k Hne. by apply lookup_insert_ne.
  - intros _ _. apply lookup_insert_eq.
  - intros _. by apply (bs_valid Hb i b).
  - apply (bs_ref Hb i b Hbi).
  - apply (bs_lock Hb i b Hbi).
  - apply (bs_range Hb).
  - set_solver.
Qed.

Lemma lst_remove_eq m e p n :
  prevof m e = Some p -> nextof m e = Some n -> p <> e -> n <> e ->
  lst_remove e m = Ret tt (set_prev (set_next m p n) n p).
Proof.
  intros Hp Hn Hpe Hne. unfold lst_remove. run (ld_prev_ok _ _ _ Hp). run (ld_next_ok _ _ _ Hn). unfold st_next, st_prev. mstep.
  erewrite bind_ret_l; [|apply ld_next_ok; rewrite nextof_set_next, decide_False; done].
  cbv beta. erewrite bind_ret_l; [|apply ld_prev_ok, prevof_set_next; done]. done.
Qed.

Lemma to_front_ok s b l :
  dll (ring s) HEAD l -> b ∈ l ->
  exists m l', to_front b s = Ret tt (set_ring m s) /\ dll m HEAD l' /\ forall j, j ∈ l' <-> j ∈ l.
Proof.
  intros Hd Hin. apply list_elem_of_split in Hin as (l1 & l2 & ->).
  pose proof (dll_prev _ _ _ _ _ Hd) as Hp. pose proof (dll_next _ _ _ _ _ Hd) as Hn.
  assert (Hnd : NoDup (HEAD :: l1 ++ b :: l2)) by apply Hd. set (p := default HEAD (list.last l1)) in *. set (n := default HEAD (head l2)) in *.
  assert (Hpb : p <> b).
  { unfold p. rewrite <- Permutation_middle in Hnd. destruct (list.last l1) as [x|] eqn:El; cbn.
    - apply last_Some in El as [l' ->]. intros ->. apply list.NoDup_cons in Hnd as [_ Hnd].
      apply list.NoDup_cons in Hnd as [Hx _]. set_solver.
    - apply list.NoDup_cons in Hnd as [Hx _]. set_solver. }
  assert (Hnb : n <> b).
  { unfold n. rewrite <- Permutation_middle in Hnd. destruct l2 as [|x l2]; cbn.
    - apply list.NoDup_cons in Hnd as [Hx _]. set_solver.
    - intros ->. apply list.NoDup_cons in Hnd as [_ Hnd]. apply list.NoDup_cons in Hnd as [Hx _]. set_solver. }
  destruct (lst_remove_dll (ring s) HEAD l1 b l2 Hd) as (m1 & E1 & Hd1 & _).
  rewrite (lst_remove_eq _ _ p n Hp Hn Hpb Hnb) in E1. injection E1 as E1.
  assert (Hb1 : b ∉ HEAD :: l1 ++ l2).
  { rewrite <- Permutation_middle in Hnd. apply list.NoDup_cons in Hnd as [Hx Hnd]. apply list.NoDup_cons in Hnd. set_solver. }
  destruct (lst_push_dll m1 HEAD b _ Hd1 Hb1) as (m2 & E2 & Hd2 & _).
  exists m2, (b :: l1 ++ l2). split_and!; [|done|set_solver].
  unfold to_front. run (ring_next s b n Hn). run (ring_prev s b p Hp).
  run (on_ring_ok (st_prev n p) s tt (set_prev (ring s) n p) eq_refl). set (s1 := set_ring _ s).
  assert (Hp1 : prevof (ring s1) b = Some p) by (cbn; rewrite prevof_set_prev, decide_False; done).
  assert (Hn1 : nextof (ring s1) b = Some n) by (by apply nextof_set_prev).
  run (ring_prev s1 b p Hp1). run (ring_next s1 b n Hn1).
  assert (E3 : set_next (ring s1) p n = m1) by (cbn; by rewrite set_next_prev).
  run (on_ring_ok (st_next p n) s1 tt _ eq_refl). cbn [set_ring] in E3. rewrite E3. set (s2 := set_ring m1 s1).
  unfold lst_push in E2. pose proof (dll_first _ _ _ Hd1) as Hf. rewrite (bind_ret_l _ _ _ _ _ (ld_next_ok _ _ _ Hf)) in E2. cbv beta in E2.
  run (ring_next s2 HEAD _ Hf). set (f := default HEAD (head (l1 ++ l2))) in *.
  run (on_ring_ok (st_next b f) s2 tt (set_next m1 b f) eq_refl).
  run (on_ring_ok (st_prev b HEAD) (set_ring (set_next m1 b f) s2) tt (set_prev (set_next m1 b f) b HEAD) eq_refl).
  set (m3 := set_prev (set_next m1 b f) b HEAD) in *.
  assert (Hf3 : nextof m3 HEAD = Some f).
  { apply nextof_set_prev. rewrite nextof_set_next, decide_False; [done|set_solver]. }
  run (ring_next (set_ring m3 s2) HEAD f Hf3). run (on_ring_ok (st_prev f b) (set_ring m3 s2) tt (set_prev m3 f b) eq_refl).
  rewrite (on_ring_ok (st_next HEAD b) _ tt _ eq_refl).
  unfold st_next, st_prev in E2. cbn [bind rbind modify] in E2.
  rewrite (bind_ret_l _ _ m3 f m3 (ld_next_ok m3 HEAD f Hf3)) in E2. cbn in E2. injection E2 as <-. done.
Qed.

Lemma brelse_st s D P H i b :
  bst s D P H -> bready (cx s) -> i ∈ H -> aget (bufs s) i = Some b -> key b <> (0, 0) ->
  exists s', brelse i s = Ret tt s' /\ kept s s' /\ bst s' D P (H ∖ {[i]}) /\
    forall j, j <> i -> aget (bufs s') j = aget (bufs s) j.
Proof.
  intros Hb Hr Hi Hbi Hk. pose proof (bs_inv Hb) as Hinv. unfold brelse.
  assert (Hl : b_lock b = mine s) by (rewrite (bs_lock Hb i b Hbi); by rewrite decide_True).
  run (b_holdingsleep_ok i b s Hr Hbi Hl). cbn [negb]. set (s1 := set_cx _ s).
  run (b_releasesleep_ok i b s1 (bready_touch _ Hr) Hbi). set (b1 := set_lock sl_free b). set (s2 := set_cx _ _).
  assert (Hc2 : cx s2 = touch (cx s)) by (unfold s2; rewrite cx_set; apply touch_idemp).
  assert (Hcl : bcache_lock ∉ held (cx s2)) by (rewrite Hc2; apply Hr).
  run (acquire_ok bcache_lock s2 Hcl). set (s3 := set_cx _ s2).
  assert (Hi3 : aget (bufs s3) i = Some b1) by (by apply (upb_eq i b b1 s)).
  run (setb_ok i b1 (fun x => set_refcnt (u32 (refcnt x - 1)) x) s3 Hi3). set (b2 := set_refcnt _ b1). set (s4 := upb i b2 s3).
  assert (Hi4 : aget (bufs s4) i = Some b2) by (by apply (upb_eq i b1 b2 s3)). run (getb_ok i b2 s4 Hi4).
  destruct (bi_ring Hinv) as (l & Hd & Hll). pose proof (aget_Some_lt _ _ _ Hbi) as Hlt. rewrite (bi_len Hinv) in Hlt.
  assert (E5 : exists m l', (if refcnt b2 =? 0 then to_front i else ret tt) s4 = Ret tt (set_ring m s4) /\
    dll m HEAD l' /\ forall j, j ∈ l' <-> 0 <= j < NBUF).
  { destruct (refcnt b2 =? 0).
    - destruct (to_front_ok s4 i l Hd) as (m & l' & E & Hd' & Hl'); [by apply Hll|]. exists m, l'. split_and!; try done.
      intros j. by rewrite Hl'.
    - exists (ring s4), l. rewrite set_ring_id. by split_and!. }
  destruct E5 as (m & l' & E5 & Hd' & Hl'). run E5. set (s5 := set_ring m s4).
  rewrite (release_ok bcache_lock (touch (cx s))); [|apply touch_wf, Hr|apply Hr|by unfold s5; cbn; rewrite !locked_touch].
  rewrite touch_idemp. set (s6 := set_cx _ s5). exists s6. split; [done|].
  assert (Hbufs : bufs s6 = <[Z.to_nat i := b2]> (bufs s)).
  { cbn. rewrite list_insert_insert. by rewrite decide_True. }
  assert (Hch : changed s s6 D D P P H (H ∖ {[i]}) i b b2).
  { split; try done.
    - by exists l'.
    - set_solver.
    - intros Hv Hnd. apply (bi_clean Hinv i b Hbi Hv Hnd).
    - intros _. by apply (bs_valid Hb i b).
    - cbn. rewrite (bs_ref Hb i b Hbi). unfold one. rewrite decide_True, decide_False by set_solver.
      unfold u32. rewrite Zminus_mod_idemp_l. f_equal. lia.
    - by rewrite decide_False by set_solver.
    - apply (bs_range Hb).
    - apply (bs_dirty Hb). }
  split_and!; [|by eapply bst_changed|intros j Hj; by apply (changed_at Hch)].
  split; try done. intros k d Hk0 Hkd. destruct (decide (k = key b)) as [->|Hne]; [|by eapply blk_changed].
  left. exists i, b2. destruct (changed_at Hch) as [Hi6 _]. split_and!; [done|done|by apply (bs_valid Hb i b)|].
  apply (blk_fun s D (key b)); [done|done| |done]. left. exists i, b. split_and!; try done. by apply (bs_valid Hb i b).
Qed.

(** Counting a pin, up or down. *)
Lemma pin_st (f : Z -> Z) s D P H i b :
  bst s D P H -> bready (cx s) -> aget (bufs s) i = Some b -> key b <> (0, 0) ->
  (forall x, u32 (f (u32 x)) = u32 (f x)) -> (forall x y, f (x + y) = f x + y) ->
  -1 <= f (pins P (key b)) < 2 ^ 31 -> (key b ∈ D -> 0 < f (pins P (key b))) ->
  exists s', (acquire bcache_lock ;;; setb i (fun x => set_refcnt (u32 (f (refcnt x))) x) ;;; release bcache_lock) s = Ret tt s' /\
    kept s s' /\ bst s' D (<[key b := f (pins P (key b))]> P) H /\
    aget (bufs s') i = Some (set_refcnt (u32 (f (refcnt b))) b) /\ forall j, j <> i -> aget (bufs s') j = aget (bufs s) j.
Proof.
  intros Hb Hr Hbi Hk Hf Hadd Hrg Hdi. pose proof (bs_inv Hb) as Hinv.
  run (acquire_ok bcache_lock s (br_cache _ Hr)). set (s1 := set_cx _ s). set (b' := set_refcnt (u32 (f (refcnt b))) b).
  run (setb_ok i b (fun x => set_refcnt (u32 (f (refcnt x))) x) s1 Hbi). fold b'. set (s2 := upb i b' s1).
  rewrite (release_ok bcache_lock (cx s)); [|apply Hr|apply Hr|by unfold s2; cbn; rewrite locked_touch].
  set (s3 := set_cx _ s2). exists s3. split; [done|].
  assert (Ep : pins (<[key b := f (pins P (key b))]> P) (key b) = f (pins P (key b))).
  { unfold pins at 1. by rewrite lookup_insert_eq. }
  assert (Hch : changed s s3 D D P (<[key b := f (pins P (key b))]> P) H H i b b').
  { split; try done.
    - apply (bi_ring Hinv).
    - intros k Hne. unfold pins. by rewrite lookup_insert_ne by done.
    - apply (bi_clean Hinv i b Hbi).
    - intros [Hx|Hx]; [|by apply (bs_valid Hb i b)]. destruct (bi_dirty Hinv _ Hx) as [_ (j & c & Hj & Hkc & Hv)].
      assert (j = i) as -> by (apply (bi_uniq Hinv j i c b Hj Hbi Hkc); congruence). cbn. congruence.
    - rewrite Ep. cbn. rewrite (bs_ref Hb i b Hbi). by rewrite Hf, Hadd.
    - apply (bs_lock Hb i b Hbi).
    - by rewrite Ep.
    - by rewrite Ep. }
  destruct (changed_at Hch) as [Hi3 Ho]. split_and!; [|by eapply bst_changed|done|done].
  split; try done. intros k d Hk0 Hd. destruct (decide (k = key b)) as [->|Hne]; [|by eapply blk_changed].
  destruct Hd as [(j & c & Hj & Hkc & Hv & Hd)|[Hno Hd]].
  - assert (j = i) as -> by (apply (bi_uniq Hinv j i c b Hj Hbi Hkc); congruence). left. exists i, b'.
    assert (c = b) as -> by congruence. done.
  - right. split; [|done]. intros j c Hj Hkc. destruct (decide (j = i)) as [->|Hne].
    + assert (c = b') as -> by congruence. by apply (Hno i b).
    + rewrite Ho in Hj by done. by apply (Hno j c).
Qed.

Lemma bpin_st s D P H i b :
  bst s D P H -> bready (cx s) -> aget (bufs s) i = Some b -> key b <> (0, 0) -> -2 <= pins P (key b) < 2 ^ 31 - 1 ->
  exists s', bpin i s = Ret tt s' /\ kept s s' /\ bst s' D (<[key b := pins P (key b) + 1]> P) H /\
    aget (bufs s') i = Some (set_refcnt (u32 (refcnt b + 1)) b) /\ forall j, j <> i -> aget (bufs s') j = aget (bufs s) j.
Proof.
  intros Hb Hr Hi Hk Hp. apply (pin_st (fun x => x + 1) s D P H i b Hb Hr Hi Hk).
  - intros x. unfold u32. by rewrite Zplus_mod_idemp_l.
  - intros; lia.
  - lia.
  - intros Hd. pose proof (bs_dirty Hb _ Hd). lia.
Qed.

Lemma bunpin_st s D P H i b :
  bst s D P H -> bready (cx s) -> aget (bufs s) i = Some b -> key b <> (0, 0) -> 0 <= pins P (key b) -> key b ∉ D ->
  exists s', bunpin i s = Ret tt s' /\ kept s s' /\ bst s' D (<[key b := pins P (key b) - 1]> P) H /\
    aget (bufs s') i = Some (set_refcnt (u32 (refcnt b - 1)) b) /\ forall j, j <> i -> aget (bufs s') j = aget (bufs s) j.
Proof.
  intros Hb Hr Hi Hk Hp Hd. pose proof (bs_range Hb (key b)). apply (pin_st (fun x => x - 1) s D P H i b Hb Hr Hi Hk).
  - intros x. unfold u32. by rewrite Zminus_mod_idemp_l.
  - intros; lia.
  - lia.
  - done.
Qed.
