(* ===== verification/BioProps.v ===== *)
(** * The buffer cache: start and properties

    [binit] turns zeroed memory into a cache whose ring holds every buffer.
    Reading a block through the cache gives its current contents, whatever the
    cache evicts for it, and a buffer that was released can be found again. *)

From S2P Require Import Prelude ListC Sleeplock Bio BioSpec BioUse.

Definition zero_buf : buf := mkbuf false 0 0 sl_free 0 [].

(** One round of the loop is a push onto the ring. *)
Lemma binit_step n i s l b :
  dll (ring s) HEAD l -> i ∉ HEAD :: l -> aget (bufs s) i = Some b ->
  exists m, binit_loop (S n) i s = binit_loop n (i + 1) (set_ring m (upb i (set_lock sl_free b) s)) /\ dll m HEAD (i :: l).
Proof.
  intros Hd Hi Hb. destruct (lst_push_dll (ring s) HEAD i l Hd Hi) as (m & E & Hm & _). exists m. split; [|done].
  unfold lst_push in E. pose proof (dll_first _ _ _ Hd) as Hf. rewrite (bind_ret_l _ _ _ _ _ (ld_next_ok _ _ _ Hf)) in E. cbv beta in E.
  cbn [binit_loop]. run (ring_next s HEAD _ Hf). set (f := default HEAD (head l)) in *.
  run (on_ring_ok (st_next i f) s tt (set_next (ring s) i f) eq_refl).
  run (on_ring_ok (st_prev i HEAD) (set_ring (set_next (ring s) i f) s) tt (set_prev (set_next (ring s) i f) i HEAD) eq_refl).
  set (m3 := set_prev (set_next (ring s) i f) i HEAD) in *.
  change (set_ring m3 (set_ring _ s)) with (set_ring m3 s).
  run (setb_ok i b (set_lock sl_free) (set_ring m3 s) Hb). set (s1 := upb i _ (set_ring m3 s)).
  assert (Hf3 : nextof m3 HEAD = Some f) by (apply nextof_set_prev; rewrite nextof_set_next, decide_False; [done|set_solver]).
  run (ring_next s1 HEAD f Hf3). run (on_ring_ok (st_prev f i) s1 tt (set_prev m3 f i) eq_refl).
  run (on_ring_ok (st_next HEAD i) (set_ring (set_prev m3 f i) s1) tt (set_next (set_prev m3 f i) HEAD i) eq_refl).
  unfold st_next, st_prev in E. cbn [bind rbind modify] in E.
  rewrite (bind_ret_l _ _ m3 f m3 (ld_next_ok m3 HEAD f Hf3)) in E. cbn in E. injection E as <-. done.
Qed.

Lemma binit_loop_ok n : forall i s l,
  dll (ring s) HEAD l -> (forall j, j ∈ l <-> 0 <= j < i) -> 0 <= i -> i + Z.of_nat n = Z.of_nat (length (bufs s)) ->
  exists m l', binit_loop n i s = Ret tt (set_ring m (set_bufs (take (Z.to_nat i) (bufs s) ++ (set_lock sl_free <$> drop (Z.to_nat i) (bufs s))) s)) /\
    dll m HEAD l' /\ forall j, j ∈ l' <-> 0 <= j < i + Z.of_nat n.
Proof.
  induction n as [|n IH]; intros i s l Hd Hl Hi Hn.
  { exists (ring s), l. split_and!; [|done|intros j; rewrite Hl; lia]. cbn. rewrite drop_ge, take_ge by lia. cbn. rewrite app_nil_r.
    by destruct s. }
  destruct (aget_is_Some (bufs s) i) as [b Hb]; [lia|].
  destruct (binit_step n i s l b Hd) as (m & E & Hm); [|done|]; [rewrite elem_of_cons, Hl; unfold HEAD; lia|].
  set (s1 := set_ring m (upb i (set_lock sl_free b) s)) in *.
  destruct (IH (i + 1) s1 (i :: l)) as (m' & l' & E' & Hd' & Hl'); [done| |lia|cbn; rewrite length_insert; lia|].
  { intros j. rewrite elem_of_cons, Hl. lia. }
  exists m', l'. split_and!; [|done|intros j; rewrite Hl'; lia]. rewrite E, E'. f_equal. unfold s1. cbn.
  unfold set_ring, set_bufs. cbn. f_equal. pose proof (aget_lookup _ _ _ Hb) as Hb'.
  replace (Z.to_nat (i + 1)) with (S (Z.to_nat i)) by lia.
  rewrite drop_insert_lt by lia. rewrite (drop_S _ _ _ Hb'). cbn.
  rewrite (take_S_r _ _ (set_lock sl_free b)) by (apply list_lookup_insert_eq; by eapply lookup_lt_Some).
  rewrite take_insert_ge by lia. by rewrite <- app_assoc.
Qed.

(** From zeroed buffers, [binit] makes the cache that holds no block. *)
Lemma binit_ok s :
  Z.of_nat (length (bufs s)) = NBUF -> (forall i b, aget (bufs s) i = Some b -> valid b = false /\ key b = (0, 0) /\ refcnt b = 0) ->
  exists s', binit s = Ret tt s' /\ bst s' ∅ ∅ ∅ /\ disk s' = disk s /\ past s' = past s /\ cx s' = cx s.
Proof.
  intros Hlen Hz. unfold binit.
  run (on_ring_ok (st_prev HEAD HEAD) s tt (set_prev (ring s) HEAD HEAD) eq_refl).
  run (on_ring_ok (st_next HEAD HEAD) (set_ring (set_prev (ring s) HEAD HEAD) s) tt (set_next (set_prev (ring s) HEAD HEAD) HEAD HEAD) eq_refl).
  set (s1 := set_ring _ _). assert (Hd : dll (ring s1) HEAD []).
  { split; [apply NoDup_singleton|]. change (links (ring s1) HEAD HEAD /\ True). split; [|done].
    change (ring s1) with (set_next (set_prev (ring s) HEAD HEAD) HEAD HEAD). split; [by rewrite nextof_set_next, decide_True|].
    apply prevof_set_next. by rewrite prevof_set_prev, decide_True. }
  destruct (binit_loop_ok (Z.to_nat NBUF) 0 s1 [] Hd) as (m & l & E & Hm & Hl); [|done|cbn; lia|].
  { intros j. split; [intros Hj; by apply not_elem_of_nil in Hj|lia]. }
  eexists. split; [exact E|]. cbn [take drop app Z.to_nat]. set (s2 := set_ring m _).
  assert (Hb : forall i b, aget (bufs s2) i = Some b -> valid b = false /\ key b = (0, 0) /\ refcnt b = 0 /\ b_lock b = sl_free).
  { intros i b. unfold aget. case_decide; [|done]. change (bufs s2) with (set_lock sl_free <$> bufs s). rewrite list_lookup_fmap. intros (c & Hc & ->)%fmap_Some.
    destruct (Hz i c) as (H1 & H2 & H3); [unfold aget; by rewrite decide_True|]. done. }
  split; [|done]. assert (Hpe : forall k, pins ∅ k = 0) by (intros k; unfold pins; by rewrite lookup_empty). split.
  - split.
    + change (bufs s2) with (set_lock sl_free <$> bufs s). by rewrite length_fmap.
    + exists l. split; [done|]. intros j. rewrite Hl. unfold NBUF. lia.
    + intros i j b c Hi Hj Hk Hne. by destruct (Hb i b Hi) as (_ & H2 & _).
    + intros i b Hi Hv. destruct (Hb i b Hi) as (H1 & _). congruence.
    + set_solver.
  - intros i b Hi. destruct (Hb i b Hi) as (_ & _ & H3 & _). rewrite H3, Hpe. unfold one. by rewrite decide_False by set_solver.
  - intros i b Hi. rewrite decide_False by set_solver. apply (Hb i b Hi).
  - set_solver.
  - intros k. by rewrite Hpe.
  - intros k. rewrite Hpe. lia.
  - set_solver.
Qed.

(** ** Reading a block *)

(** C7: While not every buffer is pinned or held, [bread] returns a buffer
    this thread now holds, with the current contents of the block: the cached
    ones if the block waits to be logged, those of the disk otherwise.  What any
    other block holds, and the disk, stay as they are. *)
Theorem bread_spec fuel s D P H k d :
  bst s D P H -> sound s P H k -> k <> (0, 0) -> blk s k d ->
  (pins P k <> 0 \/ (size P + size H < Z.to_nat NBUF)%nat) -> bready (cx s) -> (0 < fuel)%nat ->
  exists i b s', bread fuel k.1 k.2 s = Ret i s' /\ i ∉ H /\ aget (bufs s') i = Some b /\ key b = k /\ data b = d /\
    b_lock b = mine s /\ bst s' D P ({[i]} ∪ H) /\ disk s' = disk s /\ past s' = past s /\
    (forall k' d', k' <> (0, 0) -> blk s k' d' -> blk s' k' d').
Proof.
  intros Hb Hs Hk Hd Hsp Hr Hf. destruct (bread_st fuel s D P H k d Hb Hs Hk Hd Hsp Hr Hf) as (i & b & s' & E & Hi & Hbi & Hkb & Hdb & Hb' & Hkp & _).
  exists i, b, s'. split_and!; try done; [|apply Hkp|apply Hkp|apply Hkp].
  rewrite (bs_lock Hb' i b Hbi), decide_True by set_solver. unfold mine. by rewrite (kp_cx Hkp).
Qed.

(** A cache fresh from [binit]. *)
Definition fresh_disk : disk_t := {[ (0, 5) := [1; 2; 3] ]}.
Definition fresh_cx : ctx :=
  {| noff := 0; intena := false; intr := true; held := []; mypid := 7; mykilled := false |}.
Definition fresh_cache : bcache := mkbc fresh_cx (replicate 30 zero_buf) ∅ fresh_disk [].

Lemma fresh_ok : exists s, binit fresh_cache = Ret tt s /\ bst s ∅ ∅ ∅ /\ disk s = fresh_disk /\ bready (cx s).
Proof.
  destruct (binit_ok fresh_cache) as (s & E & Hb & Hd & _ & Hc); [done| |].
  { intros i b Hi. apply aget_lookup, lookup_replicate in Hi as [-> _]. done. }
  exists s. split; [exact E|split; [exact Hb|split; [exact Hd|]]]. rewrite Hc.
  split; [split_and!; [done|apply NoDup_nil_2|cbn; lia]|cbn; apply not_elem_of_nil|intros i; cbn; apply not_elem_of_nil].
Qed.

(** Witness: block 5 of disk 0 on a machine that just started. *)
Lemma bread_spec_witness : exists s i b s', binit fresh_cache = Ret tt s /\
  bread 1 0 5 s = Ret i s' /\ aget (bufs s') i = Some b /\ key b = (0, 5) /\ data b = [1; 2; 3].
Proof.
  destruct fresh_ok as (s & E & Hb & Hd & Hr). exists s.
  destruct (bread_spec 1 s ∅ ∅ ∅ (0, 5) [1; 2; 3] Hb) as (i & b & s' & E' & _ & H1 & H2 & H3 & _).
  - clear E. split; [unfold pins; by rewrite lookup_empty|]. intros i b Hi. by apply not_elem_of_empty in Hi.
  - clear E. congruence.
  - apply (blk_clean _ ∅); [apply (bs_inv Hb)|apply not_elem_of_empty|rewrite Hd; apply lookup_singleton_eq].
  - right. rewrite map_size_empty, size_empty. unfold NBUF. lia.
  - exact Hr.
  - lia.
  - exists i, b, s'. exact (conj E (conj E' (conj H1 (conj H2 H3)))).
Defined.
