(* ===== verification/Log.v ===== *)
(** * kernel/log.c: the write-ahead log

    One log per disk: the header in memory (the number of logged blocks and
    their block numbers), how many file system calls are outstanding, and
    whether a commit is in progress.  On disk the log is a header block at
    [start], followed by copies of the logged blocks. *)

From S2P Require Import Prelude ListC Sleeplock Bytes Bio.

Definition MAXOPBLOCKS : Z := 10.
Definition LOGSIZE : Z := MAXOPBLOCKS * 3.
Definition NDISK : Z := 2.

Record log := mklog {
  start : Z;
  lsize : Z;
  outstanding : Z;
  committing : bool;
  ldev : Z;
  lh_n : Z;
  lh_block : list Z
}.

Definition set_outstanding v l := mklog (start l) (lsize l) v (committing l) (ldev l) (lh_n l) (lh_block l).
Definition set_committing v l := mklog (start l) (lsize l) (outstanding l) v (ldev l) (lh_n l) (lh_block l).
Definition set_lh_n v l := mklog (start l) (lsize l) (outstanding l) (committing l) (ldev l) v (lh_block l).
Definition set_lh_block v l := mklog (start l) (lsize l) (outstanding l) (committing l) (ldev l) (lh_n l) v.

(** [struct superblock], as far as the log uses it. *)
Record log_area := { logstart : Z; nlog : Z }.

Record logst := mkls { bc : bcache; logs : list log }.

Definition set_bc v s := mkls v (logs s).
Definition set_logs v s := mkls (bc s) v.

#[export] Program Instance logst_ctx : HasCtx logst :=
  {| cx s := cx (bc s); set_cx c s := set_bc (set_cx c (bc s)) s |}.
Next Obligation. intros. by destruct s. Qed.
Next Obligation. intros. unfold set_bc. cbn. by destruct s as [[] ?]. Qed.
Next Obligation. intros. by destruct s. Qed.

Definition log_lock (dv : Z) : lock := ("log"%string, dv).

(** The address of the array [log], as a channel. *)
Definition log_chan : Z := -2.

Abbreviation L := (M logst).

Definition on_bc {A} (m : M bcache A) : L A := zoom bc set_bc m.

Definition getl (dv : Z) : L log := fun s => unwrap (aget (logs s) dv) s.
Definition setl (dv : Z) (f : log -> log) : L unit :=
  l <- getl dv ;;
  r <- (fun s => unwrap (aset (logs s) dv (f l)) s) ;;
  modify (set_logs r).

Definition lh_get (l : log) (i : Z) : L Z := fun s => unwrap (aget (lh_block l) i) s.

(** [log[dev].lh.block[i] = v] *)
Definition lh_set (dv i v : Z) : L unit :=
  l <- getl dv ;;
  r <- unwrap (aset (lh_block l) i v) ;;
  setl dv (set_lh_block r).

(** Byte offset of [block[i]] in a header block, and its two fields. *)
Definition hoff (i : Z) : nat := Z.to_nat (4 + 4 * i).
Definition hdr_n (d : block) : Z := s32 (get32 0 d).
Definition hdr_block (d : block) (i : Z) : Z := s32 (get32 (hoff i) d).

Section Log.
(** How often a waiting thread is woken in vain. *)
Context (fuel : nat).

Definition lbread (dv bno : Z) : L Z := on_bc (bread fuel dv (u32 bno)).

(** [memmove(to->data, from->data, BSIZE)] *)
Definition copy_data (to from : Z) : L unit :=
  on_bc (b <- getb from ;; setb to (set_data (data b))).

Fixpoint install_loop (n : nat) (dv tail : Z) : L unit :=
  match n with
  | O => ret tt
  | S n =>
      l <- getl dv ;;
      lbuf <- lbread dv (start l + tail + 1) ;;
      l <- getl dv ;;
      bno <- lh_get l tail ;;
      dbuf <- lbread dv bno ;;
      copy_data dbuf lbuf ;;;
      on_bc (bwrite dbuf) ;;;
      on_bc (bunpin dbuf) ;;;
      on_bc (brelse lbuf) ;;;
      on_bc (brelse dbuf) ;;;
      install_loop n dv (tail + 1)
  end.

Definition install_trans (dv : Z) : L unit :=
  l <- getl dv ;;
  install_loop (Z.to_nat (lh_n l)) dv 0.

Fixpoint read_head_loop (n : nat) (dv i : Z) (d : block) : L unit :=
  match n with
  | O => ret tt
  | S n => lh_set dv i (hdr_block d i) ;;; read_head_loop n dv (i + 1) d
  end.

Definition read_head (dv : Z) : L unit :=
  l <- getl dv ;;
  i <- lbread dv (start l) ;;
  b <- on_bc (getb i) ;;
  let lh := data b in
  setl dv (set_lh_n (hdr_n lh)) ;;;
  read_head_loop (Z.to_nat (hdr_n lh)) dv 0 lh ;;;
  on_bc (brelse i).

(** [hb->block[i] = log[dev].lh.block[i]] for [i] from [i] on. *)
Fixpoint write_head_loop (n : nat) (dv hb i : Z) : L unit :=
  match n with
  | O => ret tt
  | S n =>
      l <- getl dv ;;
      v <- lh_get l i ;;
      on_bc (setb hb (fun b => set_data (put32 (hoff i) v (data b)) b)) ;;;
      write_head_loop n dv hb (i + 1)
  end.

Definition write_head (dv : Z) : L unit :=
  l <- getl dv ;;
  hb <- lbread dv (start l) ;;
  l <- getl dv ;;
  on_bc (setb hb (fun b => set_data (put32 0 (lh_n l) (data b)) b)) ;;;
  write_head_loop (Z.to_nat (lh_n l)) dv hb 0 ;;;
  on_bc (bwrite hb) ;;;
  on_bc (brelse hb).

Definition recover_from_log (dv : Z) : L unit :=
  read_head dv ;;;
  install_trans dv ;;;
  setl dv (set_lh_n 0) ;;;
  write_head dv.

(** sizeof(struct logheader) is 4 + 4 * LOGSIZE. *)
Definition initlog (dv : Z) (sb : log_area) : L unit :=
  if BSIZE <=? 4 + 4 * LOGSIZE then panic "initlog: too big logheader" else
  setl dv (fun l => mklog (logstart sb) (nlog sb) (outstanding l) (committing l) dv (lh_n l) (lh_block l)) ;;;
  recover_from_log dv.

Fixpoint begin_op_loop (n : nat) (dv : Z) : L unit :=
  match n with
  | O => nofuel
  | S n =>
      l <- getl dv ;;
      if committing l then sleep_on log_chan (log_lock dv) ;;; begin_op_loop n dv
      else if LOGSIZE <? lh_n l + (outstanding l + 1) * MAXOPBLOCKS then
        sleep_on log_chan (log_lock dv) ;;; begin_op_loop n dv
      else
        setl dv (fun l => set_outstanding (outstanding l + 1) l) ;;;
        release (log_lock dv)
  end.

Definition begin_op (dv : Z) : L unit :=
  acquire (log_lock dv) ;;;
  begin_op_loop fuel dv.

Fixpoint write_log_loop (n : nat) (dv tail : Z) : L unit :=
  match n with
  | O => ret tt
  | S n =>
      l <- getl dv ;;
      to <- lbread dv (start l + tail + 1) ;;
      l <- getl dv ;;
      bno <- lh_get l tail ;;
      from <- lbread dv bno ;;
      copy_data to from ;;;
      on_bc (bwrite to) ;;;
      on_bc (brelse from) ;;;
      on_bc (brelse to) ;;;
      write_log_loop n dv (tail + 1)
  end.

Definition write_log (dv : Z) : L unit :=
  l <- getl dv ;;
  write_log_loop (Z.to_nat (lh_n l)) dv 0.

Definition commit (dv : Z) : L unit :=
  l <- getl dv ;;
  if 0 <? lh_n l then
    write_log dv ;;;
    write_head dv ;;;
    install_trans dv ;;;
    setl dv (set_lh_n 0) ;;;
    write_head dv
  else ret tt.

Definition end_op (dv : Z) : L unit :=
  acquire (log_lock dv) ;;;
  setl dv (fun l => set_outstanding (outstanding l - 1) l) ;;;
  l <- getl dv ;;
  if committing l then panic "log[dev].committing" else
  if outstanding l =? 0 then
    setl dv (set_committing true) ;;;
    release (log_lock dv) ;;;
    commit dv ;;;
    acquire (log_lock dv) ;;;
    setl dv (set_committing false) ;;;
    wakeup_on log_chan ;;;
    release (log_lock dv)
  else
    wakeup_on log_chan ;;;
    release (log_lock dv).

(** The search for [bno] among the [n] entries from [i]: the index where the
    loop stops. *)
Fixpoint absorb (n : nat) (l : log) (i bno : Z) : L Z :=
  match n with
  | O => ret i
  | S n =>
      v <- lh_get l i ;;
      if u32 v =? bno then ret i else absorb n l (i + 1) bno
  end.

Definition log_write (b : Z) : L unit :=
  x <- on_bc (getb b) ;;
  let dv := dev x in
  l <- getl dv ;;
  if (LOGSIZE <=? lh_n l) || (lsize l - 1 <=? lh_n l) then panic "too big a transaction" else
  if outstanding l <? 1 then panic "log_write outside of trans" else
  acquire (log_lock dv) ;;;
  i <- absorb (Z.to_nat (lh_n l)) l 0 (blockno x) ;;
  lh_set dv i (s32 (blockno x)) ;;;
  (if i =? lh_n l then
     on_bc (bpin b) ;;;
     setl dv (fun l => set_lh_n (lh_n l + 1) l)
   else ret tt) ;;;
  release (log_lock dv).
End Log.
