(* ===== verification/LogSpec.v ===== *)
(** * The write-ahead log: commit, crashes and recovery

    [replay] is what recovery makes of a disk.  Every disk that exists while
    [commit] runs replays to the old or to the new contents, and every disk that
    exists while recovery runs replays to what recovery ends with. *)

From S2P Require Import Prelude ListC Sleeplock Bytes Bio BioSpec BioUse Log.

Lemma on_bc_ok {A} (m : M bcache A) s a b : m (bc s) = Ret a b -> on_bc m s = Ret a (set_bc b s).
Proof. intros Hm. unfold on_bc. by apply zoom_ret. Qed.

Lemma getl_ok dv l s : aget (logs s) dv = Some l -> getl dv s = Ret l s.
Proof. intros Hl. unfold getl. by rewrite Hl. Qed.

Definition upl (dv : Z) (l : log) (s : logst) : logst := set_logs (<[Z.to_nat dv := l]> (logs s)) s.

Lemma setl_ok dv l f s : aget (logs s) dv = Some l -> setl dv f s = Ret tt (upl dv (f l) s).
Proof.
  intros Hl. unfold setl. run (getl_ok _ _ _ Hl). unfold bind at 1.
  rewrite aset_is_Some by (by eapply aget_Some_lt). done.
Qed.

Lemma upl_eq dv l l' s : aget (logs s) dv = Some l -> aget (logs (upl dv l' s)) dv = Some l'.
Proof. intros Hl. eapply aget_aset_eq, aset_is_Some, aget_Some_lt, Hl. Qed.

Lemma lh_get_ok l i v s : aget (lh_block l) i = Some v -> lh_get l i s = Ret v s.
Proof. intros Hv. unfold lh_get. by rewrite Hv. Qed.

(** ** What recovery makes of a disk *)

Section Disk.
Context (dv st : Z).

Definition hkey : Z * Z := (dv, st).
Definition lkey (t : Z) : Z * Z := (dv, st + t + 1).

(** The log of a disk, as [replay] sees it, is the header and the
    [LOGSIZE - 1] blocks after it: mkfs makes the log of [LOGSIZE] blocks, and the
    inodes come right after them. *)
Definition in_log (k : Z * Z) : Prop := exists t, 0 <= t < LOGSIZE /\ k = (dv, st + t).

(** The blocks from [t] on are copied home. *)
Fixpoint replay_from (n : nat) (t : Z) (h : block) (d : disk_t) (acc : disk_t) : disk_t :=
  match n with
  | O => acc
  | S n => replay_from n (t + 1) h d (<[(dv, hdr_block h t) := default [] (d !! lkey t)]> acc)
  end.

Definition replay (d : disk_t) : disk_t :=
  match d !! hkey with
  | Some h => replay_from (Z.to_nat (hdr_n h)) 0 h d d
  | None => d
  end.

(** Equal outside the log. *)
Definition same_home (d d' : disk_t) : Prop := forall k, ~ in_log k -> d !! k = d' !! k.

#[export] Instance same_home_equiv : Equivalence same_home.
Proof.
  split; [done|by intros d d' H k Hk; rewrite H|]. intros d1 d2 d3 H1 H2 k Hk. by rewrite H1, H2.
Qed.

(** A header block that names blocks outside the log. *)
Record good_header (h : block) (n : Z) (bl : list Z) : Prop := {
  gh_n : hdr_n h = n;
  gh_len : Z.of_nat (length bl) = n;
  gh_max : n < LOGSIZE;
  gh_block : forall t b, aget bl t = Some b -> hdr_block h t = b;
  gh_home : forall b, b ∈ bl -> 0 < b < 2 ^ 31 /\ ~ in_log (dv, b);
  gh_dup : NoDup bl
}.

Arguments gh_n {h n bl} _.
Arguments gh_len {h n bl} _.
Arguments gh_max {h n bl} _.
Arguments gh_block {h n bl} _.
Arguments gh_home {h n bl} _.
Arguments gh_dup {h n bl} _.

Lemma replay_from_home n t h d acc k :
  (forall u, t <= u < t + Z.of_nat n -> (dv, hdr_block h u) <> k) -> replay_from n t h d acc !! k = acc !! k.
Proof.
  revert t acc. induction n as [|n IH]; intros t acc Hk; [done|]. cbn [replay_from].
  rewrite IH by (intros; apply Hk; lia). apply lookup_insert_ne. apply Hk. lia.
Qed.

(** Replay reads only the log, and gives each logged block its copy. *)
Lemma replay_lookup d h n bl t b :
  d !! hkey = Some h -> good_header h n bl -> aget bl t = Some b ->
  replay d !! (dv, b) = Some (default [] (d !! lkey t)).
Proof.
  intros Hh Hg Hb. unfold replay. rewrite Hh, (gh_n Hg). pose proof (gh_len Hg) as Hlen.
  pose proof (aget_Some_lt _ _ _ Hb) as Ht.
  assert (Hgen : forall m u acc, u <= t < u + Z.of_nat m -> u + Z.of_nat m = n ->
    replay_from m u h d acc !! (dv, b) = Some (default [] (d !! lkey t))).
  { induction m as [|m IH]; intros u acc Hu Hm; [lia|]. cbn [replay_from]. destruct (decide (u = t)) as [->|Hne].
    - rewrite replay_from_home.
      + rewrite (gh_block Hg t b Hb). apply lookup_insert_eq.
      + intros u Hu' [= He]. destruct (aget_is_Some bl u) as [c Hc]; [lia|]. rewrite (gh_block Hg u c Hc) in He. subst c.
        pose proof (NoDup_lookup _ _ _ _ (gh_dup Hg) (aget_lookup _ _ _ Hb) (aget_lookup _ _ _ Hc)). lia.
    - apply IH; lia. }
  apply Hgen; lia.
Qed.

Lemma replay_other d h n bl k :
  d !! hkey = Some h -> good_header h n bl -> (forall b, b ∈ bl -> k <> (dv, b)) -> replay d !! k = d !! k.
Proof.
  intros Hh Hg Hk. unfold replay. rewrite Hh, (gh_n Hg). pose proof (gh_len Hg) as Hlen.
  apply replay_from_home. intros u Hu He. destruct (aget_is_Some bl u) as [c Hc]; [lia|].
  rewrite (gh_block Hg u c Hc) in He. apply (Hk c); [|done].
  by eapply list_elem_of_lookup_2, aget_lookup.
Qed.

Lemma replay_empty d h : d !! hkey = Some h -> hdr_n h <= 0 -> replay d = d.
Proof. intros Hh Hn. unfold replay. rewrite Hh. by replace (Z.to_nat (hdr_n h)) with O by lia. Qed.
End Disk.

(** ** Reading two blocks *)

Section Run.
Context (fuel : nat) (Hfuel : (0 < fuel)%nat) (dv st : Z).
Context (Hdv : 0 <= dv) (Hst : 0 < st) (Hend : st + LOGSIZE < 2 ^ 31).

(** A thread at work on log [dv] that holds no buffer. *)
Record at_log (s : logst) (l : log) (D : gset (Z * Z)) (P : gmap (Z * Z) Z) (H : gset Z) : Prop := {
  al_log : aget (logs s) dv = Some l;
  al_start : start l = st;
  al_bst : bst (bc s) D P H;
  al_ready : bready (cx s);
  al_unlocked : log_lock dv ∉ held (cx s)
}.

Arguments al_log {s l D P H} _.
Arguments al_start {s l D P H} _.
Arguments al_bst {s l D P H} _.
Arguments al_ready {s l D P H} _.
Arguments al_unlocked {s l D P H} _.

(** The rest of the state a step keeps. *)
Record stays (s s' : logst) : Prop := {
  sy_logs : logs s' = logs s;
  sy_kept : kept (bc s) (bc s')
}.

Arguments sy_logs {s s'} _.
Arguments sy_kept {s s'} _.

Lemma stays_trans s s1 s2 : stays s s1 -> stays s1 s2 -> stays s s2.
Proof. intros [A1 A2] [B1 B2]. split; [congruence|by eapply kept_trans]. Qed.

Lemma at_log_set s l D P H b D' P' H' :
  at_log s l D P H -> bst b D' P' H' -> cx b = touch (cx s) -> at_log (set_bc b s) l D' P' H'.
Proof.
  intros [H1 H2 H3 H4 H5] Hb Hc. split; [done|done|done| |].
  - change (bready (cx b)). rewrite Hc. by apply bready_touch.
  - change (log_lock dv ∉ held (cx b)). by rewrite Hc.
Qed.

(** A block of this disk that can be read: not held, not over-released. *)
Record readable (s : logst) (P : gmap (Z * Z) Z) (H : gset Z) (x : Z) (d : block) : Prop := {
  rd_range : 0 < x < 2 ^ 31;
  rd_sound : sound (bc s) P H (dv, x);
  rd_blk : blk (bc s) (dv, x) d;
  rd_space : pins P (dv, x) <> 0 \/ (size P + size H < Z.to_nat NBUF)%nat
}.

Definition holds_buf (s : logst) (i x : Z) (d : block) : Prop :=
  exists b, aget (bufs (bc s)) i = Some b /\ key b = (dv, x) /\ data b = d.

Lemma lbread_ok s l D P H x d :
  at_log s l D P H -> readable s P H x d ->
  exists i s', lbread fuel dv x s = Ret i s' /\ i ∉ H /\ holds_buf s' i x d /\ at_log s' l D P ({[i]} ∪ H) /\ stays s s' /\
    forall j y e, j ∈ H -> holds_buf s j y e -> holds_buf s' j y e.
Proof.
  intros Ha [Hx Hs Hb Hsp].
  destruct (bread_st fuel (bc s) D P H (dv, x) d (al_bst Ha) Hs ltac:(intros [= _ ->]; lia) Hb Hsp (al_ready Ha) Hfuel)
    as (i & b & s1 & E1 & Hi & Hbi & Hk & Hd & Hb' & Hkp & Ho).
  exists i, (set_bc s1 s). split; [|split_and!].
  - unfold lbread. rewrite u32_small by lia. by apply on_bc_ok.
  - done.
  - by exists b.
  - eapply at_log_set; [done|done|apply Hkp].
  - by split.
  - intros j y e Hj (c & Hc & Hrest). exists c. split; [|done]. cbn. rewrite Ho; [done|]. intros ->. done.
Qed.

(** Copying data into a held buffer and writing it. *)
Lemma write_ok s l D P H i j x y d e :
  at_log s l D P H -> i ∈ H -> holds_buf s i x d -> holds_buf s j y e -> i <> j -> 0 < x ->
  exists s1 s', copy_data i j s = Ret tt s1 /\ on_bc (bwrite i) s1 = Ret tt s' /\
    at_log s' l (D ∖ {[(dv, x)]}) P H /\ logs s' = logs s /\ touch (cx s') = touch (cx s) /\
    disk (bc s') = <[(dv, x) := e]> (disk (bc s)) /\ past (bc s') = disk (bc s) :: past (bc s) /\
    holds_buf s' i x e /\ (forall k y' e', k <> i -> holds_buf s k y' e' -> holds_buf s' k y' e') /\
    (forall k f, k <> (dv, x) -> blk (bc s) k f -> blk (bc s') k f).
Proof.
  intros Ha Hi (b & Hb & Hkb & Hdb) (c & Hc & Hkc & Hdc) Hij Hx.
  destruct (bwrite_st (bc s) D P H i b (data c) (al_bst Ha) (al_ready Ha) Hi Hb) as (b' & E & Hch & Ed & Ep & Ecx).
  { rewrite Hkb. intros [= _ ->]. lia. }
  apply bind_inv in E as ([] & b1 & E1 & E2). destruct (changed_at Hch) as [Hi' Ho].
  exists (set_bc b1 s), (set_bc b' s). rewrite Hkb, Hdc in *. split_and!.
  - unfold copy_data. apply on_bc_ok. run (getb_ok _ _ _ Hc). by rewrite Hdc.
  - by rewrite (on_bc_ok _ (set_bc b1 s) tt b').
  - eapply at_log_set; [done|by eapply bst_changed; [apply Ha|]|done].
  - done.
  - change (touch (cx b') = touch (cx s)). rewrite Ecx. apply touch_idemp.
  - done.
  - done.
  - exists (set_data e b). by split_and!.
  - intros k y' e' Hk (z & Hz & Hrest). exists z. cbn. by rewrite Ho.
  - intros k f Hk. eapply blk_changed; [done|]. by rewrite Hkb.
Qed.

Lemma brelse_ok s l D P H i x d :
  at_log s l D P H -> i ∈ H -> holds_buf s i x d -> 0 < x ->
  exists s', on_bc (brelse i) s = Ret tt s' /\ at_log s' l D P (H ∖ {[i]}) /\ stays s s' /\
    forall j y e, j <> i -> holds_buf s j y e -> holds_buf s' j y e.
Proof.
  intros Ha Hi (b & Hb & Hkb & Hdb) Hx.
  destruct (brelse_st (bc s) D P H i b (al_bst Ha) (al_ready Ha) Hi Hb) as (b' & E & Hkp & Hb' & Ho).
  { rewrite Hkb. intros [= _ ->]. lia. }
  exists (set_bc b' s). split_and!; [by apply on_bc_ok|eapply at_log_set; [done|done|apply Hkp]|by split|].
  intros j y e Hj (c & Hc & Hrest). exists c. cbn. by rewrite Ho.
Qed.

Lemma stays_cx s s' : stays s s' -> touch (cx s') = touch (cx s).
Proof. intros [_ Hk]. change (touch (cx (bc s')) = touch (cx (bc s))). rewrite (kp_cx Hk). apply touch_idemp. Qed.

Lemma stays_disk s s' : stays s s' -> disk (bc s') = disk (bc s) /\ past (bc s') = past (bc s).
Proof. intros [_ [H1 H2 _ _]]. done. Qed.

(** ** Writing the log *)

(** The block at index [t] of the log can be used. *)
Record slot_ok (s : logst) (D : gset (Z * Z)) (P : gmap (Z * Z) Z) (t : Z) : Prop := {
  so_range : 0 <= t < LOGSIZE - 1;
  so_clean : lkey dv st t ∉ D;
  so_pins : pins P (lkey dv st t) = 0;
  so_disk : is_Some (disk (bc s) !! lkey dv st t)
}.

Arguments so_range {s D P t} _.
Arguments so_clean {s D P t} _.
Arguments so_pins {s D P t} _.
Arguments so_disk {s D P t} _.

Lemma slot_blk s l D P H t : at_log s l D P H -> slot_ok s D P t -> exists d, blk (bc s) (lkey dv st t) d.
Proof.
  intros Ha [_ Hc _ [d Hd]]. exists d. apply (blk_clean _ D); [apply (bs_inv (al_bst Ha))|done|done].
Qed.

Lemma sound_empty s P k : 0 <= pins P k -> sound s P ∅ k.
Proof. intros Hp. split; [done|]. intros i b Hi. set_solver. Qed.

Lemma sound_one s P i x d k :
  holds_buf s i x d -> 0 <= pins P k -> 0 <= pins P (dv, x) -> (dv, x) <> k -> sound (bc s) P ({[i]} ∪ ∅) k.
Proof.
  intros (b & Hb & Hkb & _) Hk Hx Hne. split; [done|]. intros j c Hj Hc. assert (j = i) as -> by set_solver.
  assert (c = b) as -> by congruence. by rewrite Hkb.
Qed.

Lemma write_log_step s l D P n t b v :
  at_log s l D P ∅ -> slot_ok s D P t -> aget (lh_block l) t = Some b -> 0 < b < 2 ^ 31 -> ~ in_log dv st (dv, b) ->
  blk (bc s) (dv, b) v -> 0 < pins P (dv, b) -> (size P < Z.to_nat NBUF)%nat ->
  exists s', write_log_loop fuel (S n) dv t s = write_log_loop fuel n dv (t + 1) s' /\
    at_log s' l D P ∅ /\ logs s' = logs s /\ touch (cx s') = touch (cx s) /\ disk (bc s') = <[lkey dv st t := v]> (disk (bc s)) /\
    past (bc s') = disk (bc s) :: past (bc s) /\
    (forall k e, k <> (0, 0) -> k <> lkey dv st t -> blk (bc s) k e -> blk (bc s') k e).
Proof.
  intros Ha Hso Hlb Hb Hnl Hv Hp Hsz. destruct (slot_blk _ _ _ _ _ _ Ha Hso) as [d0 Hd0].
  pose proof (so_range Hso) as Ht. pose proof (so_pins Hso) as Hp0.
  assert (Hne : lkey dv st t <> (dv, b)).
  { intros He. apply Hnl. exists (t + 1). split; [unfold LOGSIZE in *; lia|]. rewrite <- He. unfold lkey. f_equal. lia. }
  destruct (lbread_ok s l D P ∅ (st + t + 1) d0 Ha) as (i & s1 & E1 & _ & Hi1 & Ha1 & Hs1 & _).
  { split; [unfold LOGSIZE in *; lia|apply sound_empty; change (dv, st + t + 1) with (lkey dv st t); lia|done|right; rewrite size_empty; lia]. }
  destruct (lbread_ok s1 l D P ({[i]} ∪ ∅) b v Ha1) as (j & s2 & E2 & Hj & Hj2 & Ha2 & Hs2 & Ho2).
  { split; [done|by apply (sound_one s1 P i (st + t + 1) d0); [|lia|change (dv, st + t + 1) with (lkey dv st t); lia|]| |left; lia].
    apply (kp_blk (sy_kept Hs1)); [intros [= _ ->]; lia|done]. }
  assert (Hij : i <> j) by set_solver. pose proof (Ho2 i _ _ ltac:(set_solver) Hi1) as Hi2.
  destruct (write_ok s2 l D P _ i j _ _ _ _ Ha2 ltac:(set_solver) Hi2 Hj2 Hij ltac:(lia))
    as (s3 & s4 & E3 & E4 & Ha4 & Hl4 & Hc4 & Hd4 & Hp4 & Hi4 & Ho4 & Hb4).
  destruct (brelse_ok s4 l _ P _ j b v Ha4 ltac:(set_solver) (Ho4 j _ _ ltac:(done) Hj2) ltac:(lia)) as (s5 & E5 & Ha5 & Hs5 & Ho5).
  destruct (brelse_ok s5 l _ P _ i _ v Ha5 ltac:(set_solver) (Ho5 i _ _ ltac:(done) Hi4) ltac:(lia)) as (s6 & E6 & Ha6 & Hs6 & _).
  exists s6. split.
  - cbn [write_log_loop]. run (getl_ok _ _ _ (al_log Ha)). rewrite (al_start Ha). run E1.
    run (getl_ok _ _ _ (al_log Ha1)). run (lh_get_ok _ _ _ s1 Hlb). run E2. run E3. run E4. run E5. by run E6.
  - destruct (stays_disk _ _ (stays_trans _ _ _ Hs5 Hs6)) as [Q1 Q2]. destruct (stays_disk _ _ (stays_trans _ _ _ Hs1 Hs2)) as [R1 R2].
    split_and!.
    + replace D with (D ∖ {[(dv, st + t + 1)]}) by (pose proof (so_clean Hso); unfold lkey in *; set_solver).
      by replace ∅ with ((({[j]} ∪ ({[i]} ∪ ∅)) ∖ {[j]}) ∖ {[i]} : gset Z) by set_solver.
    + rewrite (sy_logs Hs6), (sy_logs Hs5), Hl4, (sy_logs Hs2). apply Hs1.
    + by rewrite (stays_cx _ _ Hs6), (stays_cx _ _ Hs5), Hc4, (stays_cx _ _ Hs2), (stays_cx _ _ Hs1).
    + by rewrite Q1, Hd4, R1.
    + by rewrite Q2, Hp4, R1, R2.
    + intros k e Hk0 Hk Hke. apply (kp_blk (sy_kept (stays_trans _ _ _ Hs5 Hs6))); [done|].
      apply Hb4; [done|]. by apply (kp_blk (sy_kept (stays_trans _ _ _ Hs1 Hs2))).
Qed.

(** A transaction: the blocks [bl], whose new contents are [val], while the
    thread holds the buffers [H]; it is loaded when the thread holds none. *)
Record tx (s : logst) (l : log) (D : gset (Z * Z)) (P : gmap (Z * Z) Z) (H : gset Z) (bl : list Z) (val : Z -> block) : Prop := {
  ld_at : at_log s l D P H;
  ld_n : lh_n l = Z.of_nat (length bl);
  ld_len : Z.of_nat (length (lh_block l)) = LOGSIZE;
  ld_max : Z.of_nat (length bl) < LOGSIZE;
  ld_block : forall t b, aget bl t = Some b -> aget (lh_block l) t = Some b;
  ld_home : forall b, b ∈ bl -> 0 < b < 2 ^ 31 /\ ~ in_log dv st (dv, b);
  ld_dup : NoDup bl;
  ld_val : forall b, b ∈ bl -> blk (bc s) (dv, b) (val b);
  ld_pins : forall x, pins P (dv, x) = if decide (x ∈ bl) then 1 else 0;
  ld_dirty : forall x, (dv, x) ∈ D <-> x ∈ bl;
  ld_space : (size P < Z.to_nat NBUF)%nat;
  ld_disk : forall t, 0 <= t < LOGSIZE -> is_Some (disk (bc s) !! (dv, st + t));
  ld_size : forall h, disk (bc s) !! hkey dv st = Some h -> length h = Z.to_nat BSIZE
}.
Arguments ld_at {s l D P H bl val} _.
Arguments ld_n {s l D P H bl val} _.
Arguments ld_len {s l D P H bl val} _.
Arguments ld_max {s l D P H bl val} _.
Arguments ld_block {s l D P H bl val} _.
Arguments ld_home {s l D P H bl val} _.
Arguments ld_dup {s l D P H bl val} _.
Arguments ld_val {s l D P H bl val} _.
Arguments ld_pins {s l D P H bl val} _.
Arguments ld_dirty {s l D P H bl val} _.
Arguments ld_space {s l D P H bl val} _.
Arguments ld_disk {s l D P H bl val} _.
Arguments ld_size {s l D P H bl val} _.

Abbreviation loaded s l D P bl val := (tx s l D P ∅ bl val).

Lemma in_log_not_logged s l D P H bl val t :
  tx s l D P H bl val -> 0 <= t < LOGSIZE -> st + t ∉ bl /\ (dv, st + t) ∉ D /\ pins P (dv, st + t) = 0.
Proof.
  intros Hl Ht. assert (Hn : st + t ∉ bl) by (intros Hx; apply (ld_home Hl _ Hx); by exists t).
  split_and!; [done|by rewrite (ld_dirty Hl)|]. rewrite (ld_pins Hl). by rewrite decide_False.
Qed.

Lemma loaded_slot s l D P bl val t : loaded s l D P bl val -> 0 <= t < LOGSIZE - 1 -> slot_ok s D P t.
Proof.
  intros Hl Ht. destruct (in_log_not_logged _ _ _ _ _ _ _ (t + 1) Hl ltac:(lia)) as (_ & H2 & H3).
  unfold lkey in *. split; [done|..]; unfold lkey; rewrite <- ?Z.add_assoc; [done|done|].
  apply (ld_disk Hl). lia.
Qed.

Definition is_lkey (bl : list Z) (k : Z * Z) : Prop := exists t, 0 <= t < Z.of_nat (length bl) /\ k = lkey dv st t.

Lemma write_log_ok l D P bl val n : forall s t,
  loaded s l D P bl val -> 0 <= t -> t + Z.of_nat n = Z.of_nat (length bl) ->
  (forall u b, 0 <= u < t -> aget bl u = Some b -> disk (bc s) !! lkey dv st u = Some (val b)) ->
  exists s' news, write_log_loop fuel n dv t s = Ret tt s' /\ loaded s' l D P bl val /\ logs s' = logs s /\ touch (cx s') = touch (cx s) /\
    past (bc s') = news ++ past (bc s) /\
    (forall x, x ∈ disk (bc s') :: news -> forall k, ~ is_lkey bl k -> x !! k = disk (bc s) !! k) /\
    (forall u b, aget bl u = Some b -> disk (bc s') !! lkey dv st u = Some (val b)).
Proof.
  induction n as [|n IH]; intros s t Hl Ht Hn Hdone.
  { exists s, []. split_and!; try done.
    - intros x Hx k _. apply list_elem_of_singleton in Hx as ->. done.
    - intros u b Hu. apply Hdone; [|done]. pose proof (aget_Some_lt _ _ _ Hu). lia. }
  destruct (aget_is_Some bl t) as [b Hb]; [lia|]. pose proof (list_elem_of_lookup_2 _ _ _ (aget_lookup _ _ _ Hb)) as Hin.
  destruct (ld_home Hl b Hin) as [Hbr Hnl]. pose proof (ld_max Hl) as Hmax.
  destruct (write_log_step s l D P n t b (val b) (ld_at Hl)) as (s1 & E1 & Ha1 & Hl1 & Hc1 & Hd1 & Hp1 & Hb1);
    [apply (loaded_slot s l D P bl val t Hl); lia|by apply (ld_block Hl)|done|done|by apply (ld_val Hl)| |apply (ld_space Hl)|].
  { rewrite (ld_pins Hl), decide_True by done. lia. }
  assert (Hload : loaded s1 l D P bl val).
  { destruct Hl. split; try done.
    - intros c Hc. apply Hb1; [intros [= _ ->]; destruct (ld_home0 _ Hc); lia| |by auto]. intros He.
      destruct (ld_home0 c Hc) as [_ Hx]. apply Hx. exists (t + 1). split; [lia|]. rewrite He. unfold lkey. f_equal. lia.
    - intros u Hu. rewrite Hd1. destruct (decide (lkey dv st t = (dv, st + u))) as [->|Hne]; [rewrite lookup_insert_eq; eauto|].
      rewrite lookup_insert_ne by done. by apply ld_disk0.
    - intros h. rewrite Hd1, lookup_insert_ne; [apply ld_size0|]. unfold lkey, hkey. intros [= He]. lia. }
  destruct (IH s1 (t + 1) Hload) as (s' & news & E2 & Hl2 & Hlg2 & Hc2 & Hp2 & Hx2 & Hd2); [lia|lia| |].
  { intros u c Hu Hc. rewrite Hd1. destruct (decide (u = t)) as [->|Hne].
    - assert (c = b) as -> by congruence. apply lookup_insert_eq.
    - rewrite lookup_insert_ne; [apply Hdone; [lia|done]|]. unfold lkey. intros [= He]. lia. }
  exists s', (news ++ [disk (bc s)]). rewrite E1. split_and!; [done|done|by rewrite Hlg2|congruence|by rewrite Hp2, Hp1, <- app_assoc| |done].
  intros x Hx k Hk. rewrite app_comm_cons in Hx. apply elem_of_app in Hx as [Hx|Hx].
  - rewrite (Hx2 x Hx k Hk), Hd1. apply lookup_insert_ne. intros <-. apply Hk. exists t. split; [lia|done].
  - apply list_elem_of_singleton in Hx as ->. done.
Qed.

(** ** Writing the header *)

(** The block numbers [v] from index [i] on, in a header block. *)
Fixpoint put_blocks (v : list Z) (i : Z) (d : block) : block :=
  match v with
  | [] => d
  | x :: v => put_blocks v (i + 1) (put32 (hoff i) x d)
  end.

Lemma put_blocks_length v i d :
  0 <= i -> i + Z.of_nat (length v) <= LOGSIZE -> (Z.to_nat (4 + 4 * LOGSIZE) <= length d)%nat ->
  length (put_blocks v i d) = length d.
Proof.
  revert i d. induction v as [|x v IH]; intros i d Hi Hv Hd; [done|]. cbn [put_blocks length] in *.
  assert (Hp : length (put32 (hoff i) x d) = length d) by (apply put32_length; unfold hoff, LOGSIZE, MAXOPBLOCKS in *; lia).
  rewrite IH by lia. done.
Qed.

Lemma put_blocks_other v i d o :
  0 <= i -> i + Z.of_nat (length v) <= LOGSIZE -> (Z.to_nat (4 + 4 * LOGSIZE) <= length d)%nat ->
  (o + 4 <= hoff i)%nat -> get32 o (put_blocks v i d) = get32 o d.
Proof.
  revert i d. induction v as [|x v IH]; intros i d Hi Hv Hd Ho; [done|]. cbn [put_blocks length] in *.
  assert (Hp : (hoff i + 4 <= length d)%nat) by (unfold hoff, LOGSIZE, MAXOPBLOCKS in *; lia).
  rewrite IH; [|lia|lia|rewrite put32_length by done; lia|unfold hoff in *; lia].
  apply get32_put32_ne; [lia|done].
Qed.

Lemma put_blocks_get v i d t x :
  0 <= i -> i + Z.of_nat (length v) <= LOGSIZE -> (Z.to_nat (4 + 4 * LOGSIZE) <= length d)%nat ->
  v !! t = Some x -> get32 (hoff (i + Z.of_nat t)) (put_blocks v i d) = u32 x.
Proof.
  revert i d t. induction v as [|y v IH]; intros i d t Hi Hv Hd Ht; [done|]. cbn [put_blocks length] in *.
  assert (Hp : (hoff i + 4 <= length d)%nat) by (unfold hoff, LOGSIZE, MAXOPBLOCKS in *; lia).
  assert (Hl : length (put32 (hoff i) y d) = length d) by (by apply put32_length).
  destruct t as [|t]; cbn in Ht.
  - injection Ht as ->. rewrite Z.add_0_r, put_blocks_other by (rewrite ?Hl; unfold hoff; lia). by apply get32_put32.
  - replace (i + Z.of_nat (S t)) with ((i + 1) + Z.of_nat t) by lia. apply IH; [lia|lia|lia|done].
Qed.

Lemma write_head_loop_ok n : forall s l hb b i,
  aget (logs s) dv = Some l -> aget (bufs (bc s)) hb = Some b -> 0 <= i -> i + Z.of_nat n <= Z.of_nat (length (lh_block l)) ->
  write_head_loop n dv hb i s =
    Ret tt (set_bc (upb hb (set_data (put_blocks (take n (drop (Z.to_nat i) (lh_block l))) i (data b)) b) (bc s)) s).
Proof.
  induction n as [|n IH]; intros s l hb b i Hl Hb Hi Hn; cbn [write_head_loop].
  { unfold ret. f_equal. cbn. unfold upb, set_bc. destruct s as [[] ?]. cbn in *. unfold set_bufs. cbn. f_equal. f_equal.
    rewrite list_insert_id; [done|]. apply aget_lookup in Hb. rewrite Hb. f_equal. by destruct b. }
  destruct (aget_is_Some (lh_block l) i) as [v Hv]; [lia|].
  run (getl_ok _ _ _ Hl). run (lh_get_ok _ _ _ s Hv).
  run (on_bc_ok _ s tt _ (setb_ok hb b (fun b => set_data (put32 (hoff i) v (data b)) b) (bc s) Hb)). set (s1 := set_bc _ s).
  set (b1 := set_data (put32 (hoff i) v (data b)) b).
  rewrite (IH s1 l hb b1 (i + 1)); [|done|by apply (upb_eq hb b)|lia|lia]. f_equal. unfold s1, set_bc. cbn. f_equal.
  rewrite upb_twice. f_equal. unfold b1, set_data. cbn. f_equal.
  rewrite (drop_S (lh_block l) v (Z.to_nat i)) by (by apply aget_lookup). cbn.
  by replace (Z.to_nat (i + 1)) with (S (Z.to_nat i)) by lia.
Qed.

(** The header block [h] becomes one that lists the blocks of the log. *)
Lemma write_head_ok s l D P h :
  at_log s l D P ∅ -> hkey dv st ∉ D -> pins P (hkey dv st) = 0 -> (size P < Z.to_nat NBUF)%nat ->
  disk (bc s) !! hkey dv st = Some h -> length h = Z.to_nat BSIZE ->
  Z.of_nat (length (lh_block l)) = LOGSIZE -> 0 <= lh_n l <= LOGSIZE ->
  exists s' h', write_head fuel dv s = Ret tt s' /\ at_log s' l D P ∅ /\ logs s' = logs s /\ touch (cx s') = touch (cx s) /\
    disk (bc s') = <[hkey dv st := h']> (disk (bc s)) /\ past (bc s') = disk (bc s) :: past (bc s) /\
    length h' = Z.to_nat BSIZE /\ hdr_n h' = lh_n l /\
    (forall t b, 0 <= t < lh_n l -> aget (lh_block l) t = Some b -> 0 <= b < 2 ^ 31 -> hdr_block h' t = b) /\
    (forall k e, k <> (0, 0) -> k <> hkey dv st -> blk (bc s) k e -> blk (bc s') k e).
Proof.
  intros Ha HD HP Hsz Hh Hhl Hlen Hn. unfold hkey in *.
  destruct (lbread_ok s l D P ∅ st h Ha) as (i & s1 & E1 & _ & (b & Hb & Hkb & Hdb) & Ha1 & Hs1 & _).
  { split; [unfold LOGSIZE in *; lia|apply sound_empty; lia| |right; rewrite size_empty; lia].
    apply (blk_clean _ D); [apply (bs_inv (al_bst Ha))|done|done]. }
  set (h' := put_blocks (take (Z.to_nat (lh_n l)) (lh_block l)) 0 (put32 0 (lh_n l) h)).
  destruct (bwrite_st (bc s1) D P ({[i]} ∪ ∅) i b h' (al_bst Ha1) (al_ready Ha1) ltac:(set_solver) Hb) as (b' & E & Hch & Ed & Ep & Ecx).
  { rewrite Hkb. intros [= _ ->]. lia. }
  apply bind_inv in E as ([] & b1 & E2 & E3). rewrite (setb_ok i b _ (bc s1) Hb) in E2. injection E2 as <-.
  assert (Ha2 : at_log (set_bc b' s1) l (D ∖ {[key b]}) P ({[i]} ∪ ∅)).
  { eapply at_log_set; [done|by eapply bst_changed; [apply Ha1|]|done]. }
  destruct (changed_at Hch) as [Hi2 _]. rewrite Hkb in *.
  destruct (brelse_ok (set_bc b' s1) l _ P _ i st h' Ha2 ltac:(set_solver)) as (s3 & E4 & Ha3 & Hs3 & _);
    [by exists (set_data h' b)|lia|].
  exists s3, h'.
  assert (Hput : length (put32 0 (lh_n l) h) = length h) by (apply put32_length; rewrite Hhl; unfold BSIZE; lia).
  assert (Htl : Z.of_nat (length (take (Z.to_nat (lh_n l)) (lh_block l))) = lh_n l) by (rewrite length_take; lia).
  assert (Hbig : (Z.to_nat (4 + 4 * LOGSIZE) <= length (put32 0 (lh_n l) h))%nat)
    by (rewrite Hput, Hhl; unfold BSIZE, LOGSIZE, MAXOPBLOCKS; lia).
  destruct (stays_disk _ _ Hs3) as [Q1 Q2]. destruct (stays_disk _ _ Hs1) as [R1 R2]. cbn [bc set_bc] in Q1, Q2.
  split; [|split_and!].
  - unfold write_head. run (getl_ok _ _ _ (al_log Ha)). rewrite (al_start Ha). run E1. run (getl_ok _ _ _ (al_log Ha1)).
    run (on_bc_ok _ s1 tt _ (setb_ok i b (fun b => set_data (put32 0 (lh_n l) (data b)) b) (bc s1) Hb)).
    set (b2 := set_data (put32 0 (lh_n l) (data b)) b). set (s2 := set_bc (upb i b2 (bc s1)) s1).
    run (write_head_loop_ok (Z.to_nat (lh_n l)) s2 l i b2 0 (al_log Ha1) (upb_eq i b b2 (bc s1) Hb) ltac:(lia) ltac:(lia)).
    cbn [bc set_bc s2]. rewrite upb_twice.
    assert (Eb : set_data (put_blocks (take (Z.to_nat (lh_n l)) (drop (Z.to_nat 0) (lh_block l))) 0 (data b2)) b2 = set_data h' b).
    { unfold h', b2, set_data. cbn. by rewrite Hdb. }
    rewrite Eb. run (on_bc_ok _ (set_bc (upb i (set_data h' b) (bc s1)) s2) tt b' E3). exact E4.
  - replace D with (D ∖ {[(dv, st)]}) by set_solver. by replace ∅ with (({[i]} ∪ ∅) ∖ {[i]} : gset Z) by set_solver.
  - rewrite (sy_logs Hs3). cbn. apply Hs1.
  - rewrite (stays_cx _ _ Hs3), <- (stays_cx _ _ Hs1). change (touch (cx b') = touch (cx (bc s1))). rewrite Ecx. apply touch_idemp.
  - by rewrite Q1, Ed, R1.
  - by rewrite Q2, Ep, R1, R2.
  - unfold h'. rewrite put_blocks_length by lia. by rewrite Hput.
  - unfold hdr_n, h'. rewrite put_blocks_other by (lia || (unfold hoff; lia)). rewrite get32_put32 by (rewrite Hhl; unfold BSIZE; lia).
    unfold LOGSIZE, MAXOPBLOCKS in *. rewrite u32_small, s32_small; lia.
  - intros t x Ht Hx Hr. unfold hdr_block, h'. replace t with (0 + Z.of_nat (Z.to_nat t)) by lia.
    rewrite (put_blocks_get _ _ _ _ x) by (lia || (rewrite lookup_take_lt by lia; by apply aget_lookup)).
    rewrite u32_small, s32_small; lia.
  - intros k e Hk0 Hk Hke. apply (kp_blk (sy_kept Hs3)); [done|]. eapply blk_changed; [done|by rewrite Hkb|].
    by apply (kp_blk (sy_kept Hs1)).
Qed.

(** ** Installing blocks *)

Lemma bunpin_ok s l D P H i x d :
  at_log s l D P H -> holds_buf s i x d -> 0 < x -> 0 <= pins P (dv, x) -> (dv, x) ∉ D ->
  exists s', on_bc (bunpin i) s = Ret tt s' /\ at_log s' l D (<[(dv, x) := pins P (dv, x) - 1]> P) H /\ stays s s' /\
    forall j y e, holds_buf s j y e -> holds_buf s' j y e.
Proof.
  intros Ha (b & Hb & Hkb & Hdb) Hx Hp Hd.
  destruct (bunpin_st (bc s) D P H i b (al_bst Ha) (al_ready Ha) Hb) as (b' & E & Hkp & Hb' & Hi & Ho);
    [rewrite Hkb; intros [= _ ->]; lia|by rewrite Hkb|by rewrite Hkb|]. rewrite Hkb in Hb'.
  exists (set_bc b' s). split_and!; [by apply on_bc_ok|eapply at_log_set; [done|done|apply Hkp]|by split|].
  intros j y e (c & Hc & Hrest). destruct (decide (j = i)) as [->|Hne].
  - assert (c = b) as -> by congruence. by exists (set_refcnt (u32 (refcnt b - 1)) b).
  - exists c. cbn. by rewrite Ho.
Qed.

(** One block is copied from the log to its home; its pin count drops. *)
Lemma install_step s l D P n t b v w :
  at_log s l D P ∅ -> slot_ok s D P t -> aget (lh_block l) t = Some b -> 0 < b < 2 ^ 31 -> ~ in_log dv st (dv, b) ->
  blk (bc s) (dv, b) v -> disk (bc s) !! lkey dv st t = Some w -> 0 <= pins P (dv, b) ->
  (pins P (dv, b) <> 0 \/ (size P + 1 < Z.to_nat NBUF)%nat) -> (size P < Z.to_nat NBUF)%nat ->
  exists s', install_loop fuel (S n) dv t s = install_loop fuel n dv (t + 1) s' /\
    at_log s' l (D ∖ {[(dv, b)]}) (<[(dv, b) := pins P (dv, b) - 1]> P) ∅ /\ logs s' = logs s /\ touch (cx s') = touch (cx s) /\
    disk (bc s') = <[(dv, b) := w]> (disk (bc s)) /\ past (bc s') = disk (bc s) :: past (bc s) /\
    (forall k e, k <> (0, 0) -> k <> (dv, b) -> blk (bc s) k e -> blk (bc s') k e).
Proof.
  intros Ha Hso Hlb Hb Hnl Hv Hw Hp Hsp Hsz. pose proof (so_range Hso) as Ht. pose proof (so_pins Hso) as Hp0.
  assert (Hne : lkey dv st t <> (dv, b)).
  { intros He. apply Hnl. exists (t + 1). split; [unfold LOGSIZE in *; lia|]. rewrite <- He. unfold lkey. f_equal. lia. }
  destruct (lbread_ok s l D P ∅ (st + t + 1) w Ha) as (i & s1 & E1 & _ & Hi1 & Ha1 & Hs1 & _).
  { split; [unfold LOGSIZE in *; lia|apply sound_empty; change (dv, st + t + 1) with (lkey dv st t); lia| |right; rewrite size_empty; lia].
    apply (blk_clean _ D); [apply (bs_inv (al_bst Ha))|apply (so_clean Hso)|done]. }
  destruct (lbread_ok s1 l D P ({[i]} ∪ ∅) b v Ha1) as (j & s2 & E2 & Hj & Hj2 & Ha2 & Hs2 & Ho2).
  { split; [done|by apply (sound_one s1 P i (st + t + 1) w); [|lia|change (dv, st + t + 1) with (lkey dv st t); lia|]| |].
    - apply (kp_blk (sy_kept Hs1)); [intros [= _ ->]; lia|done].
    - rewrite union_empty_r_L, size_singleton. done. }
  assert (Hij : j <> i) by set_solver. pose proof (Ho2 i _ _ ltac:(set_solver) Hi1) as Hi2.
  destruct (write_ok s2 l D P _ j i _ _ _ _ Ha2 ltac:(set_solver) Hj2 Hi2 Hij ltac:(lia))
    as (s3 & s4 & E3 & E4 & Ha4 & Hl4 & Hc4 & Hd4 & Hp4 & Hj4 & Ho4 & Hb4).
  destruct (bunpin_ok s4 l _ P _ j b w Ha4 Hj4 ltac:(lia) Hp ltac:(set_solver)) as (s5 & E5 & Ha5 & Hs5 & Ho5).
  destruct (brelse_ok s5 l _ _ _ i _ w Ha5 ltac:(set_solver) (Ho5 i _ _ (Ho4 i _ _ ltac:(done) Hi2)) ltac:(lia)) as (s6 & E6 & Ha6 & Hs6 & Ho6).
  destruct (brelse_ok s6 l _ _ _ j b w Ha6 ltac:(set_solver) (Ho6 j _ _ Hij (Ho5 j _ _ Hj4)) ltac:(lia)) as (s7 & E7 & Ha7 & Hs7 & _).
  pose proof (stays_trans _ _ _ Hs5 (stays_trans _ _ _ Hs6 Hs7)) as Hs57. pose proof (stays_trans _ _ _ Hs1 Hs2) as Hs12.
  exists s7. split.
  - cbn [install_loop]. run (getl_ok _ _ _ (al_log Ha)). rewrite (al_start Ha). run E1.
    run (getl_ok _ _ _ (al_log Ha1)). run (lh_get_ok _ _ _ s1 Hlb). run E2. run E3. run E4. run E5. run E6. by run E7.
  - destruct (stays_disk _ _ Hs57) as [Q1 Q2]. destruct (stays_disk _ _ Hs12) as [R1 R2]. split_and!.
    + by replace ∅ with ((({[j]} ∪ ({[i]} ∪ ∅)) ∖ {[i]}) ∖ {[j]} : gset Z) by set_solver.
    + rewrite (sy_logs Hs57), Hl4. apply Hs12.
    + by rewrite (stays_cx _ _ Hs57), Hc4, (stays_cx _ _ Hs12).
    + by rewrite Q1, Hd4, R1.
    + by rewrite Q2, Hp4, R1, R2.
    + intros k e Hk0 Hk Hke. apply (kp_blk (sy_kept Hs57)); [done|].
      apply Hb4; [done|]. by apply (kp_blk (sy_kept Hs12)).
Qed.

(** The home locations of the blocks [bl]. *)
Definition homes (bl : list Z) : gset (Z * Z) := list_to_set (pair dv <$> bl).

Lemma elem_homes bl k : k ∈ homes bl <-> exists b, b ∈ bl /\ k = (dv, b).
Proof. unfold homes. rewrite elem_of_list_to_set, list_elem_of_fmap. naive_solver. Qed.

Lemma homes_cons b bl : homes (b :: bl) = {[(dv, b)]} ∪ homes bl.
Proof. done. Qed.

(** The blocks [todo] are to be installed; [t] are done. *)
Record installable (s : logst) (l : log) (D : gset (Z * Z)) (P : gmap (Z * Z) Z) (t : Z) (todo : list Z) : Prop := {
  in_at : at_log s l D P ∅;
  in_block : forall u b, aget todo u = Some b -> aget (lh_block l) (t + u) = Some b;
  in_home : forall b, b ∈ todo -> 0 < b < 2 ^ 31 /\ ~ in_log dv st (dv, b);
  in_dup : NoDup todo;
  in_slot : forall u, 0 <= u < LOGSIZE - 1 -> slot_ok s D P u;
  in_max : 0 <= t /\ t + Z.of_nat (length todo) < LOGSIZE;
  in_pins : forall b, b ∈ todo -> 0 <= pins P (dv, b) /\ exists v, blk (bc s) (dv, b) v;
  in_space : (size P < Z.to_nat NBUF)%nat /\
    ((forall b, b ∈ todo -> pins P (dv, b) <> 0) \/ (size P + length todo < Z.to_nat NBUF)%nat)
}.

(** One pin of block [k] was given back. *)
Definition unpinned (P : gmap (Z * Z) Z) (k : Z * Z) : gmap (Z * Z) Z := <[k := pins P k - 1]> P.

Lemma pins_unpinned P k k' : pins (unpinned P k) k' = pins P k' - if decide (k' = k) then 1 else 0.
Proof.
  unfold unpinned, pins. destruct (decide (k' = k)) as [->|Hne]; [by rewrite lookup_insert_eq|].
  rewrite lookup_insert_ne by done. lia.
Qed.

Lemma size_unpinned P k : (size (unpinned P k) <= S (size P))%nat /\ (pins P k <> 0 -> size (unpinned P k) = size P).
Proof.
  unfold unpinned, pins. destruct (P !! k) eqn:Hk.
  - rewrite map_size_insert_Some by eauto. split; [lia|done].
  - rewrite map_size_insert_None by done. split; [done|]. cbn. lia.
Qed.

Lemma installable_step s l D P t b todo s' w :
  installable s l D P t (b :: todo) ->
  at_log s' l (D ∖ {[(dv, b)]}) (unpinned P (dv, b)) ∅ -> disk (bc s') = <[(dv, b) := w]> (disk (bc s)) ->
  (forall k e, k <> (0, 0) -> k <> (dv, b) -> blk (bc s) k e -> blk (bc s') k e) ->
  installable s' l (D ∖ {[(dv, b)]}) (unpinned P (dv, b)) (t + 1) todo.
Proof.
  intros Hin Ha' Hd' Hb'. destruct (in_home _ _ _ _ _ _ Hin b (list_elem_of_here _ _)) as [Hr Hnl].
  pose proof (in_dup _ _ _ _ _ _ Hin) as Hnd. apply list.NoDup_cons in Hnd as [Hnb Hnd].
  destruct (in_max _ _ _ _ _ _ Hin) as [Ht Hm]. cbn [length] in Hm. split; [done| | |done| |lia| |].
  - intros u c Hc. pose proof (aget_Some_lt _ _ _ Hc). replace (t + 1 + u) with (t + (u + 1)) by lia.
    apply (in_block _ _ _ _ _ _ Hin). rewrite aget_cons. destruct (Z.eqb_spec (u + 1) 0); [lia|]. by replace (u + 1 - 1) with u by lia.
  - intros c Hc. apply (in_home _ _ _ _ _ _ Hin). by right.
  - intros u Hu. destruct (in_slot _ _ _ _ _ _ Hin u Hu) as [_ H1 H2 H3].
    assert (Hne : lkey dv st u <> (dv, b)) by (intros He; apply Hnl; exists (u + 1); unfold lkey in He; split; [lia|rewrite <- He; f_equal; lia]).
    split; [done|set_solver| |by rewrite Hd', lookup_insert_ne]. rewrite pins_unpinned, decide_False by done. lia.
  - intros c Hc. destruct (in_pins _ _ _ _ _ _ Hin c ltac:(by right)) as [H1 [v H2]].
    assert ((dv, c) <> (dv, b)) by (intros [= ->]; done). split; [rewrite pins_unpinned, decide_False by done; lia|].
    exists v. apply Hb'; [|done|done]. destruct (in_home _ _ _ _ _ _ Hin c ltac:(by right)) as [Hx _]. intros [= _ ->]. lia.
  - destruct (in_space _ _ _ _ _ _ Hin) as [H1 H2]. destruct (size_unpinned P (dv, b)) as [S1 S2].
    destruct H2 as [H2|H2]; cbn [length] in H2.
    + rewrite S2 by (apply H2; by left). split; [done|]. left. intros c Hc.
      rewrite pins_unpinned, decide_False by (intros [= ->]; done). rewrite Z.sub_0_r. apply H2. by right.
    + split; [lia|right; lia].
Qed.

Lemma install_ok l todo : forall s D P t,
  installable s l D P t todo ->
  exists s' P' news, install_loop fuel (length todo) dv t s = Ret tt s' /\ at_log s' l (D ∖ homes todo) P' ∅ /\
    logs s' = logs s /\ touch (cx s') = touch (cx s) /\ (size P' < Z.to_nat NBUF)%nat /\
    (forall k, pins P' k = pins P k - if decide (k ∈ homes todo) then 1 else 0) /\
    past (bc s') = news ++ past (bc s) /\
    (forall x, x ∈ disk (bc s') :: news -> forall k, k ∉ homes todo -> x !! k = disk (bc s) !! k) /\
    (forall u b, aget todo u = Some b -> disk (bc s') !! (dv, b) = disk (bc s) !! lkey dv st (t + u)) /\
    (forall k e, k <> (0, 0) -> k ∉ homes todo -> blk (bc s) k e -> blk (bc s') k e).
Proof.
  induction todo as [|b todo IH]; intros s D P t Hin.
  { exists s, P, []. destruct (in_space _ _ _ _ _ _ Hin) as [Hsz _]. split_and!; try done.
    - replace (D ∖ homes []) with D by (unfold homes; set_solver). apply Hin.
    - intros k. rewrite decide_False by (unfold homes; set_solver). lia.
    - intros x Hx k _. apply list_elem_of_singleton in Hx as ->. done.
    - intros u b Hb. apply aget_Some_lt in Hb. cbn in Hb. lia. }
  destruct (in_max _ _ _ _ _ _ Hin) as [Ht Hm]. cbn [length] in Hm.
  destruct (in_home _ _ _ _ _ _ Hin b (list_elem_of_here _ _)) as [Hr Hnl].
  destruct (in_pins _ _ _ _ _ _ Hin b (list_elem_of_here _ _)) as [Hp [v Hv]].
  pose proof (in_slot _ _ _ _ _ _ Hin t ltac:(lia)) as Hso. destruct (so_disk Hso) as [w Hw].
  destruct (in_space _ _ _ _ _ _ Hin) as [Hsz Hsp].
  destruct (install_step s l D P (length todo) t b v w (in_at _ _ _ _ _ _ Hin) Hso) as (s1 & E1 & Ha1 & Hl1 & Hc1 & Hd1 & Hp1 & Hb1); try done.
  { replace t with (t + 0) by lia. by apply (in_block _ _ _ _ _ _ Hin). }
  { destruct Hsp as [Hsp|Hsp]; [left; apply Hsp; by left|right; cbn [length] in Hsp; lia]. }
  destruct (IH s1 _ _ (t + 1) (installable_step _ _ _ _ _ _ _ _ _ Hin Ha1 Hd1 Hb1))
    as (s' & P' & news & E2 & Ha2 & Hl2 & Hc2 & Hz2 & Hpn & Hp2 & Hx2 & Hd2 & Hb2).
  pose proof (in_dup _ _ _ _ _ _ Hin) as Hnd. apply list.NoDup_cons in Hnd as [Hnb Hnd].
  assert (Hbh : (dv, b) ∉ homes todo) by (rewrite elem_homes; intros (c & Hc & [= <-]); done).
  exists s', P', (news ++ [disk (bc s)]). cbn [length]. rewrite E1, homes_cons. split_and!; [done| |by rewrite Hl2|congruence|done| |by rewrite Hp2, Hp1, <- app_assoc|..].
  - by replace (D ∖ ({[(dv, b)]} ∪ homes todo)) with (D ∖ {[(dv, b)]} ∖ homes todo) by set_solver.
  - intros k. change (<[(dv, b) := pins P (dv, b) - 1]> P) with (unpinned P (dv, b)) in Hpn. rewrite Hpn, pins_unpinned.
    repeat case_decide; subst; try lia; set_solver.
  - intros x Hx k Hk. rewrite app_comm_cons in Hx. apply elem_of_app in Hx as [Hx|Hx].
    + rewrite (Hx2 x Hx k) by set_solver. rewrite Hd1. apply lookup_insert_ne. set_solver.
    + apply list_elem_of_singleton in Hx as ->. done.
  - intros u c Hc. rewrite aget_cons in Hc. destruct (Z.eqb_spec u 0) as [->|Hu].
    + injection Hc as <-. rewrite (Hx2 _ (list_elem_of_here _ _) _ Hbh), Hd1, lookup_insert_eq. by rewrite Z.add_0_r, Hw.
    + rewrite (Hd2 _ _ Hc), Hd1. rewrite lookup_insert_ne; [do 2 f_equal; lia|].
      pose proof (aget_Some_lt _ _ _ Hc). intros He. apply Hnl. exists (t + u + 1). unfold lkey in He. split; [lia|]. rewrite He. f_equal. lia.
  - intros k e Hk0 Hk Hke. apply Hb2; [done|set_solver|]. apply Hb1; [done|set_solver|done].
Qed.

(** ** Commit *)

Lemma replay_agree d d' h n bl :
  d !! hkey dv st = Some h -> good_header dv st h n bl -> (forall k, k ∉ homes bl -> d' !! k = d !! k) ->
  replay dv st d' = replay dv st d.
Proof.
  intros Hh Hg Hk.
  assert (Hlog : forall t, 0 <= t < LOGSIZE -> d' !! (dv, st + t) = d !! (dv, st + t)).
  { intros t Ht. apply Hk. rewrite elem_homes. intros (b & Hb & [= <-]). destruct (gh_home _ _ _ _ _ Hg _ Hb) as [_ Hx]. apply Hx. by exists t. }
  assert (Hh' : d' !! hkey dv st = Some h).
  { rewrite <- Hh. unfold hkey. replace st with (st + 0) by lia. apply Hlog. unfold LOGSIZE, MAXOPBLOCKS. lia. }
  apply map_eq. intros k. destruct (decide (k ∈ homes bl)) as [Hin|Hnin].
  - apply elem_homes in Hin as (b & Hb & ->). apply list_elem_of_lookup in Hb as [t Ht].
    assert (Hb : aget bl (Z.of_nat t) = Some b) by (by rewrite aget_of_nat).
    rewrite (replay_lookup _ _ _ _ _ _ _ _ Hh' Hg Hb), (replay_lookup _ _ _ _ _ _ _ _ Hh Hg Hb). unfold lkey.
    rewrite <- Z.add_assoc, Hlog; [done|]. pose proof (aget_Some_lt _ _ _ Hb). pose proof (gh_len _ _ _ _ _ Hg).
    pose proof (gh_max _ _ _ _ _ Hg). lia.
  - assert (Hne : forall b, b ∈ bl -> k <> (dv, b)) by (intros b Hb ->; apply Hnin, elem_homes; eauto).
    rewrite (replay_other _ _ _ _ _ _ _ Hh' Hg Hne), (replay_other _ _ _ _ _ _ _ Hh Hg Hne). by apply Hk.
Qed.

(** The disk after the transaction, if nothing goes wrong. *)
Definition committed (bl : list Z) (val : Z -> block) (d : disk_t) : disk_t :=
  foldr (fun b d => <[(dv, b) := val b]> d) d bl.

Lemma committed_eq bl val d b : b ∈ bl -> committed bl val d !! (dv, b) = Some (val b).
Proof.
  induction bl as [|c bl IH]; [intros Hb; by apply not_elem_of_nil in Hb|]. intros Hb. cbn.
  destruct (decide (b = c)) as [->|Hne]; [apply lookup_insert_eq|].
  rewrite lookup_insert_ne by congruence. apply IH. by apply elem_of_cons in Hb as [->|Hb].
Qed.

Lemma committed_ne bl val d k : k ∉ homes bl -> committed bl val d !! k = d !! k.
Proof using Type.
  clear Hfuel Hdv Hst Hend.
  induction bl as [|c bl IH]; [done|]. rewrite homes_cons. intros Hk. cbn.
  rewrite lookup_insert_ne by set_solver. apply IH. set_solver.
Qed.

Lemma at_log_upl s l D P H l' : at_log s l D P H -> start l' = start l -> at_log (upl dv l' s) l' D P H.
Proof. intros [H1 H2 H3 H4 H5] He. split; [by eapply upl_eq|congruence|done|done|done]. Qed.

Lemma loaded_installable s l D P bl val : loaded s l D P bl val -> installable s l D P 0 bl.
Proof.
  intros Hl. pose proof (loaded_slot s l D P bl val) as Hslot. destruct Hl. split; [done|done|done|done| |lia| |].
  - intros u Hu. by apply Hslot.
  - intros b Hb. rewrite ld_pins0, decide_True by done. split; [lia|]. exists (val b). by apply ld_val0.
  - split; [done|]. left. intros b Hb. rewrite ld_pins0, decide_True by done. lia.
Qed.

(** The log as it is between transactions. *)
Lemma loaded_done s s' l l' D P P' bl val :
  loaded s l D P bl val -> at_log s' l' (D ∖ homes bl) P' ∅ -> lh_n l' = 0 -> lh_block l' = lh_block l ->
  (forall k, pins P' k = pins P k - if decide (k ∈ homes bl) then 1 else 0) -> (size P' < Z.to_nat NBUF)%nat ->
  (forall t, 0 <= t < LOGSIZE -> is_Some (disk (bc s') !! (dv, st + t))) ->
  (forall h, disk (bc s') !! hkey dv st = Some h -> length h = Z.to_nat BSIZE) ->
  loaded s' l' (D ∖ homes bl) P' [] val.
Proof.
  intros Hl Ha Hn Hb HP Hsz Hd Hh. destruct Hl. split; try done.
  - by rewrite Hb.
  - intros t b Ht. apply aget_Some_lt in Ht. cbn in Ht. lia.
  - intros b Hx. by apply not_elem_of_nil in Hx.
  - apply list.NoDup_nil. done.
  - intros b Hx. by apply not_elem_of_nil in Hx.
  - intros x. rewrite HP, ld_pins0. rewrite (decide_False (P := x ∈ [])) by apply not_elem_of_nil.
    repeat case_decide; try lia.
    + exfalso. apply H0, elem_homes. eauto.
    + apply elem_homes in H0 as (b & Hx & [= <-]). done.
  - intros x. split; [|intros Hx; by apply not_elem_of_nil in Hx]. rewrite elem_of_difference, ld_dirty0, elem_homes.
    intros [Hx Hno]. exfalso. eauto.
Qed.

(** The header write of a transaction: the disk now replays to the new contents. *)
Lemma write_head_loaded s l D P bl val d0 :
  loaded s l D P bl val ->
  (forall k, ~ is_lkey bl k -> disk (bc s) !! k = d0 !! k) ->
  (forall u b, aget bl u = Some b -> disk (bc s) !! lkey dv st u = Some (val b)) ->
  exists s' h', write_head fuel dv s = Ret tt s' /\ loaded s' l D P bl val /\ logs s' = logs s /\ touch (cx s') = touch (cx s) /\
    past (bc s') = disk (bc s) :: past (bc s) /\
    disk (bc s') !! hkey dv st = Some h' /\ good_header dv st h' (Z.of_nat (length bl)) bl /\
    (forall k, k <> hkey dv st -> disk (bc s') !! k = disk (bc s) !! k) /\
    same_home dv st (replay dv st (disk (bc s'))) (committed bl val d0).
Proof.
  intros Hl Hd0 Hslots. destruct (in_log_not_logged _ _ _ _ _ _ _ 0 Hl) as (_ & HD & HP); [unfold LOGSIZE, MAXOPBLOCKS; lia|].
  rewrite Z.add_0_r in HD, HP. destruct (ld_disk Hl 0) as [h Hh]; [unfold LOGSIZE, MAXOPBLOCKS; lia|]. rewrite Z.add_0_r in Hh.
  pose proof (ld_n Hl) as Hn. pose proof (ld_max Hl) as Hmax.
  destruct (write_head_ok s l D P h (ld_at Hl) HD HP (ld_space Hl) Hh (ld_size Hl h Hh) (ld_len Hl) ltac:(lia))
    as (s' & h' & E & Ha & Hlg & Hc & Hd & Hp & Hlen & Hhn & Hhb & Hb).
  assert (Hh' : disk (bc s') !! hkey dv st = Some h') by (rewrite Hd; apply lookup_insert_eq).
  assert (Hne : forall k, k <> hkey dv st -> disk (bc s') !! k = disk (bc s) !! k) by (intros k Hk; rewrite Hd; by apply lookup_insert_ne).
  assert (Hhome : forall b, b ∈ bl -> (dv, b) <> hkey dv st).
  { intros b Hx He. apply (ld_home Hl b Hx). exists 0. unfold hkey in He. rewrite He, Z.add_0_r. split; [unfold LOGSIZE, MAXOPBLOCKS; lia|done]. }
  assert (Hg : good_header dv st h' (Z.of_nat (length bl)) bl).
  { split; [by rewrite Hhn|done|done| |apply (ld_home Hl)|apply (ld_dup Hl)]. intros t b Hb'.
    pose proof (aget_Some_lt _ _ _ Hb'). apply Hhb; [lia|by apply (ld_block Hl)|].
    destruct (ld_home Hl b) as [Hr _]; [|lia]. by eapply list_elem_of_lookup_2, aget_lookup. }
  exists s', h'. split_and!; try done.
  - destruct Hl. split; try done.
    + intros b Hx. apply Hb; [|by apply Hhome|by apply ld_val0]. destruct (ld_home0 b Hx). intros [= _ ->]. lia.
    + intros t Ht. destruct (decide ((dv, st + t) = hkey dv st)) as [->|Hk]; [by rewrite Hh'|]. rewrite Hne by done. by apply ld_disk0.
    + intros x. rewrite Hh'. congruence.
  - intros k Hk. destruct (decide (k ∈ homes bl)) as [Hin|Hnin].
    + apply elem_homes in Hin as (b & Hx & ->). rewrite committed_eq by done. apply list_elem_of_lookup in Hx as [t Ht].
      assert (Hb' : aget bl (Z.of_nat t) = Some b) by (by rewrite aget_of_nat).
      rewrite (replay_lookup _ _ _ _ _ _ _ _ Hh' Hg Hb'), Hne, (Hslots _ _ Hb'); [done|]. unfold lkey, hkey. intros [= He]. lia.
    + rewrite committed_ne by done.
      rewrite (replay_other _ _ _ _ _ _ _ Hh' Hg) by (intros b Hx ->; apply Hnin, elem_homes; eauto).
      rewrite Hne by (intros ->; apply Hk; exists 0; unfold hkey; rewrite Z.add_0_r; split; [unfold LOGSIZE, MAXOPBLOCKS; lia|done]).
      apply Hd0. intros (t & Ht & ->). apply Hk. exists (t + 1). unfold lkey. split; [lia|f_equal; lia].
Qed.

(** The header is cleared. *)
Lemma clear_head_ok s l D P h :
  at_log s l D P ∅ -> hkey dv st ∉ D -> pins P (hkey dv st) = 0 -> (size P < Z.to_nat NBUF)%nat ->
  disk (bc s) !! hkey dv st = Some h -> length h = Z.to_nat BSIZE -> Z.of_nat (length (lh_block l)) = LOGSIZE ->
  exists s' h', (setl dv (set_lh_n 0) ;;; write_head fuel dv) s = Ret tt s' /\ at_log s' (set_lh_n 0 l) D P ∅ /\
    logs s' = logs (upl dv (set_lh_n 0 l) s) /\ touch (cx s') = touch (cx s) /\
    past (bc s') = disk (bc s) :: past (bc s) /\ disk (bc s') = <[hkey dv st := h']> (disk (bc s)) /\
    hdr_n h' = 0 /\ length h' = Z.to_nat BSIZE.
Proof.
  intros Ha HD HP Hsz Hh Hhl Hlen. run (setl_ok dv l (set_lh_n 0) s (al_log Ha)).
  destruct (write_head_ok (upl dv (set_lh_n 0 l) s) (set_lh_n 0 l) D P h) as (s' & h' & E & Ha' & Hlg & Hc & Hd & Hp & Hl' & Hhn & _);
    try done; [by apply (at_log_upl s l)|].
  exists s', h'. by split_and!.
Qed.

Lemma same_home_header d h : same_home dv st (<[hkey dv st := h]> d) d.
Proof.
  intros k Hk. apply lookup_insert_ne. intros <-. apply Hk. exists 0. unfold hkey. rewrite Z.add_0_r.
  split; [unfold LOGSIZE, MAXOPBLOCKS; lia|done].
Qed.

(** What a run of the log may leave on the disk: whatever disk a crash leaves,
    recovery makes it [old] or [new], and never [old] again once it is [new]. *)
Definition all_or_nothing (old new : disk_t) (news : list disk_t) : Prop :=
  exists post pre, news = post ++ pre /\
    (forall x, x ∈ pre -> same_home dv st (replay dv st x) old) /\
    (forall x, x ∈ post -> same_home dv st (replay dv st x) new).

Lemma replay_cleared d h : hdr_n h = 0 -> replay dv st (<[hkey dv st := h]> d) = <[hkey dv st := h]> d.
Proof. intros Hh. eapply replay_empty; [apply lookup_insert_eq|lia]. Qed.

(** Before the header is written the log blocks do not matter. *)
Lemma replay_before d x h bl :
  d !! hkey dv st = Some h -> hdr_n h = 0 -> Z.of_nat (length bl) < LOGSIZE ->
  (forall k, ~ is_lkey bl k -> x !! k = d !! k) -> same_home dv st (replay dv st x) d.
Proof.
  intros Hh Hn Hm Hx. rewrite (replay_empty dv st x h); [| |lia].
  - intros k Hk. apply Hx. intros (t & Ht & ->). apply Hk. exists (t + 1). unfold lkey. split; [lia|f_equal; lia].
  - rewrite Hx; [done|]. intros (t & Ht & [= He]). lia.
Qed.

(** When every block of the log is at home, replay changes nothing. *)
Lemma installed_replay d d' h n bl :
  d !! hkey dv st = Some h -> good_header dv st h n bl ->
  (forall t, 0 <= t < LOGSIZE -> is_Some (d !! (dv, st + t))) ->
  (forall k, k ∉ homes bl -> d' !! k = d !! k) ->
  (forall u b, aget bl u = Some b -> d' !! (dv, b) = d !! lkey dv st (0 + u)) -> d' = replay dv st d.
Proof.
  intros Hh Hg Hd Hk Hb. pose proof (gh_len _ _ _ _ _ Hg) as Hlen. pose proof (gh_max _ _ _ _ _ Hg) as Hmax.
  apply map_eq. intros k. destruct (decide (k ∈ homes bl)) as [Hin|Hnin].
  - apply elem_homes in Hin as (b & Hx & ->). apply list_elem_of_lookup in Hx as [t Ht].
    assert (Hb' : aget bl (Z.of_nat t) = Some b) by (by rewrite aget_of_nat).
    pose proof (aget_Some_lt _ _ _ Hb'). rewrite (replay_lookup _ _ _ _ _ _ _ _ Hh Hg Hb'), (Hb _ _ Hb'). unfold lkey.
    destruct (Hd (Z.of_nat t + 1)) as [w Hw]; [lia|]. rewrite <- !Z.add_assoc, Z.add_0_l, Hw. done.
  - rewrite (replay_other _ _ _ _ _ _ _ Hh Hg); [by apply Hk|]. intros b Hx ->. apply Hnin, elem_homes. eauto.
Qed.

Lemma commit_ok s l D P bl val h :
  loaded s l D P bl val -> bl <> [] -> disk (bc s) !! hkey dv st = Some h -> hdr_n h = 0 ->
  exists s' P' news, commit fuel dv s = Ret tt s' /\
    loaded s' (set_lh_n 0 l) (D ∖ homes bl) P' [] val /\
    past (bc s') = news ++ past (bc s) /\
    all_or_nothing (disk (bc s)) (committed bl val (disk (bc s))) news /\
    same_home dv st (disk (bc s')) (committed bl val (disk (bc s))) /\
    (exists h', disk (bc s') !! hkey dv st = Some h' /\ hdr_n h' = 0) /\
    (forall k, k.1 <> dv -> pins P' k = pins P k) /\ touch (cx s') = touch (cx s).
Proof.
  intros Hl Hbl Hh Hhn. pose proof (ld_n Hl) as Hn. pose proof (ld_max Hl) as Hm.
  assert (Hpos : 0 < lh_n l) by (destruct bl; [done|]; cbn [length] in *; lia).
  destruct (write_log_ok l D P bl val (length bl) s 0 Hl) as (s1 & n1 & E1 & Hl1 & Hg1 & Hc1 & Hp1 & Hx1 & Hd1); [lia|lia|intros; lia|].
  destruct (write_head_loaded s1 l D P bl val (disk (bc s)) Hl1 (Hx1 _ (list_elem_of_here _ _)) Hd1)
    as (s2 & h2 & E2 & Hl2 & Hg2 & Hc2 & Hp2 & Hh2 & Hgh2 & Hk2 & Hr2).
  destruct (install_ok l bl s2 D P 0 (loaded_installable _ _ _ _ _ _ Hl2)) as (s3 & P' & n3 & E3 & Ha3 & Hg3 & Hc3 & Hz3 & Hpn3 & Hp3 & Hx3 & Hd3 & _).
  pose proof (fun x Hx => replay_agree _ x _ _ _ Hh2 Hgh2 (Hx3 x Hx)) as Hr3.
  assert (Hlog : forall t, 0 <= t < LOGSIZE -> (dv, st + t) ∉ homes bl).
  { intros t Ht. rewrite elem_homes. intros (b & Hb & [= <-]). destruct (in_log_not_logged _ _ _ _ _ _ _ t Hl Ht) as [Hx _]. done. }
  assert (Hk0 : hkey dv st ∉ homes bl) by (unfold hkey; rewrite <- (Z.add_0_r st) at 1; apply Hlog; unfold LOGSIZE, MAXOPBLOCKS; lia).
  assert (Hh3 : disk (bc s3) !! hkey dv st = Some h2) by (rewrite (Hx3 _ (list_elem_of_here _ _)) by done; done).
  destruct (in_log_not_logged _ _ _ _ _ _ _ 0 Hl) as (_ & HD & HP); [unfold LOGSIZE, MAXOPBLOCKS; lia|]. rewrite Z.add_0_r in HD, HP.
  destruct (clear_head_ok s3 l _ P' h2 Ha3) as (s4 & h4 & E4 & Ha4 & Hg4 & Hc4 & Hp4 & Hd4 & Hn4 & Hsz4); try done;
    [unfold hkey; set_solver|rewrite Hpn3, decide_False by done; unfold hkey; lia|by apply (ld_size Hl2)|apply (ld_len Hl)|].
  pose proof (installed_replay _ _ _ _ _ Hh2 Hgh2 (ld_disk Hl2) (Hx3 _ (list_elem_of_here _ _)) Hd3) as Hfin.
  exists s4, P', (disk (bc s3) :: n3 ++ disk (bc s1) :: n1). split_and!.
  - unfold commit. run (getl_ok _ _ _ (al_log (ld_at Hl))). rewrite (proj2 (Z.ltb_lt _ _) Hpos). unfold write_log.
    rewrite (bind_ret_l _ _ s tt s1); [|run (getl_ok _ _ _ (al_log (ld_at Hl))); by rewrite Hn, Nat2Z.id].
    run E2. unfold install_trans. rewrite (bind_ret_l _ _ s2 tt s3); [exact E4|].
    run (getl_ok _ _ _ (al_log (ld_at Hl2))). by rewrite Hn, Nat2Z.id.
  - apply (loaded_done s s4 l _ D P P' bl val); try done.
    + intros t Ht. rewrite Hd4. destruct (decide (hkey dv st = (dv, st + t))) as [->|Hne]; [by rewrite lookup_insert_eq|].
      rewrite lookup_insert_ne by done. rewrite (Hx3 _ (list_elem_of_here _ _)) by by apply Hlog. by apply (ld_disk Hl2).
    + intros x. rewrite Hd4, lookup_insert_eq. congruence.
  - rewrite Hp4, Hp3, Hp2, Hp1. cbn. by rewrite <- app_assoc.
  - exists (disk (bc s3) :: n3), (disk (bc s1) :: n1). split_and!; [done| |].
    + intros x Hx. eapply replay_before; [done|done|done|by apply Hx1].
    + intros x Hx. by rewrite (Hr3 x Hx).
  - rewrite Hd4. rewrite same_home_header, Hfin. done.
  - exists h4. by rewrite Hd4, lookup_insert_eq.
  - intros k Hk. rewrite Hpn3, decide_False; [lia|]. rewrite elem_homes. intros (b & _ & ->). done.
  - congruence.
Qed.

(** ** Recovery *)

Lemma lh_set_ok s l i v :
  aget (logs s) dv = Some l -> 0 <= i < Z.of_nat (length (lh_block l)) ->
  lh_set dv i v s = Ret tt (upl dv (set_lh_block (<[Z.to_nat i := v]> (lh_block l)) l) s).
Proof.
  intros Hl Hi. unfold lh_set. run (getl_ok _ _ _ Hl). rewrite aset_is_Some by done. mstep. by rewrite (setl_ok _ l).
Qed.

Lemma read_head_loop_ok n : forall s l i d,
  aget (logs s) dv = Some l -> 0 <= i -> i + Z.of_nat n <= Z.of_nat (length (lh_block l)) ->
  exists v, read_head_loop n dv i d s = Ret tt (upl dv (set_lh_block v l) s) /\ length v = length (lh_block l) /\
    forall t, aget v t = if decide (i <= t < i + Z.of_nat n) then Some (hdr_block d t) else aget (lh_block l) t.
Proof.
  induction n as [|n IH]; intros s l i d Hl Hi Hn.
  { exists (lh_block l). split_and!; [|done|intros t; case_decide; [lia|done]]. cbn. unfold ret. f_equal.
    unfold upl, set_logs. destruct s as [b ls]. cbn in *. f_equal. symmetry. apply list_insert_id.
    rewrite (aget_lookup _ _ _ Hl). by destruct l. }
  cbn [read_head_loop]. run (lh_set_ok s l i (hdr_block d i) Hl ltac:(lia)). set (v1 := <[_ := _]> _). set (l1 := set_lh_block v1 l).
  destruct (IH (upl dv l1 s) l1 (i + 1) d) as (v & E & Hlen & Hv); [by eapply upl_eq|lia|cbn; unfold v1; rewrite length_insert; lia|].
  exists v. split_and!.
  - rewrite E. f_equal. unfold upl, set_logs. cbn. f_equal. apply list_insert_insert_eq.
  - rewrite Hlen. cbn. unfold v1. by rewrite length_insert.
  - intros t. rewrite Hv. cbn. unfold v1. rewrite aget_insert by lia. repeat case_decide; try lia; try done. by subst.
Qed.

(** A cache after boot, in front of a disk whose log holds the blocks [bl]. *)
Record booted (s : logst) (l : log) (h : block) (bl : list Z) : Prop := {
  bt_at : at_log s l ∅ ∅ ∅;
  bt_len : Z.of_nat (length (lh_block l)) = LOGSIZE;
  bt_head : disk (bc s) !! hkey dv st = Some h;
  bt_size : length h = Z.to_nat BSIZE;
  bt_good : good_header dv st h (Z.of_nat (length bl)) bl;
  bt_log : forall t, 0 <= t < LOGSIZE -> is_Some (disk (bc s) !! (dv, st + t));
  bt_home : forall b, b ∈ bl -> is_Some (disk (bc s) !! (dv, b));
  bt_space : Z.of_nat (length bl) < NBUF
}.

Lemma read_head_ok s l h bl :
  booted s l h bl ->
  exists s' l', read_head fuel dv s = Ret tt s' /\ at_log s' l' ∅ ∅ ∅ /\
    disk (bc s') = disk (bc s) /\ past (bc s') = past (bc s) /\
    lh_n l' = Z.of_nat (length bl) /\ Z.of_nat (length (lh_block l')) = LOGSIZE /\
    (forall t b, aget bl t = Some b -> aget (lh_block l') t = Some b) /\
    (forall k e, k <> (0, 0) -> blk (bc s) k e -> blk (bc s') k e).
Proof.
  intros Hb. pose proof (bt_at _ _ _ _ Hb) as Ha. pose proof (bt_good _ _ _ _ Hb) as Hg. pose proof (bt_len _ _ _ _ Hb) as Hlen.
  destruct (lbread_ok s l ∅ ∅ ∅ st h Ha) as (i & s1 & E1 & _ & Hi1 & Ha1 & Hs1 & _).
  { split; [unfold LOGSIZE in *; lia|by apply sound_empty| |right; rewrite map_size_empty, size_empty; unfold NBUF; lia].
    apply (blk_clean _ ∅); [apply (bs_inv (al_bst Ha))|set_solver|apply Hb]. }
  pose proof Hi1 as (b & Hbi & Hkb & Hdb). set (l1 := set_lh_n (hdr_n h) l).
  destruct (read_head_loop_ok (Z.to_nat (hdr_n h)) (upl dv l1 s1) l1 0 h) as (v & E2 & Hvl & Hv).
  { eapply upl_eq, (al_log Ha1). } { lia. }
  { rewrite (gh_n _ _ _ _ _ Hg). pose proof (gh_max _ _ _ _ _ Hg). cbn. lia. }
  set (l2 := set_lh_block v l1) in *.
  assert (Ha2 : at_log (upl dv l2 (upl dv l1 s1)) l2 ∅ ∅ ({[i]} ∪ ∅)) by (eapply at_log_upl; [eapply at_log_upl; [exact Ha1|done]|done]).
  destruct (brelse_ok _ l2 ∅ ∅ _ i st h Ha2 ltac:(set_solver)) as (s3 & E3 & Ha3 & Hs3 & _); [by exists b|lia|].
  exists s3, l2. destruct (stays_disk _ _ Hs3) as [Q1 Q2]. destruct (stays_disk _ _ Hs1) as [R1 R2]. split_and!.
  - unfold read_head. run (getl_ok _ _ _ (al_log Ha)). rewrite (al_start Ha). run E1.
    run (on_bc_ok _ s1 b (bc s1) (getb_ok i b (bc s1) Hbi)).
    replace (set_bc (bc s1) s1) with s1 by (by destruct s1). rewrite Hdb.
    run (setl_ok dv l (set_lh_n (hdr_n h)) s1 (al_log Ha1)). run E2. exact E3.
  - by replace ∅ with (({[i]} ∪ ∅) ∖ {[i]} : gset Z) by set_solver.
  - by rewrite Q1, <- R1.
  - by rewrite Q2, <- R2.
  - apply (gh_n _ _ _ _ _ Hg).
  - cbn. rewrite Hvl. done.
  - intros t c Hc. cbn. rewrite Hv. pose proof (aget_Some_lt _ _ _ Hc). rewrite decide_True by (rewrite (gh_n _ _ _ _ _ Hg); lia).
    f_equal. by apply (gh_block _ _ _ _ _ Hg).
  - intros k e Hk Hke. apply (kp_blk (sy_kept Hs3)); [done|]. by apply (kp_blk (sy_kept Hs1)).
Qed.

Lemma pins_empty k : pins ∅ k = 0.
Proof. unfold pins. by rewrite lookup_empty. Qed.

Lemma booted_installable s l h bl s' l' :
  booted s l h bl -> at_log s' l' ∅ ∅ ∅ -> disk (bc s') = disk (bc s) ->
  (forall t b, aget bl t = Some b -> aget (lh_block l') t = Some b) -> installable s' l' ∅ ∅ 0 bl.
Proof.
  intros Hb Ha Hd Hbl. destruct Hb as [_ _ _ _ Hg Hlog Hhome Hsp]. pose proof (gh_max _ _ _ _ _ Hg). split.
  - done.
  - intros u b Hu. rewrite Z.add_0_l. by apply Hbl.
  - apply (gh_home _ _ _ _ _ Hg).
  - apply (gh_dup _ _ _ _ _ Hg).
  - intros u Hu. split; [done|unfold lkey; set_solver|apply pins_empty|]. rewrite Hd. unfold lkey. rewrite <- Z.add_assoc. apply Hlog. lia.
  - lia.
  - intros b Hx. rewrite pins_empty. split; [done|]. destruct (Hhome b Hx) as [v Hv]. exists v.
    apply (blk_clean _ ∅); [apply (bs_inv (al_bst Ha))|set_solver|by rewrite Hd].
  - rewrite map_size_empty. unfold NBUF in *. split; [lia|right; lia].
Qed.

Lemma recover_ok s l h bl :
  booted s l h bl ->
  exists s' l' P' news, recover_from_log fuel dv s = Ret tt s' /\ at_log s' l' ∅ P' ∅ /\ lh_n l' = 0 /\
    (forall k, pins P' k = if decide (k ∈ homes bl) then -1 else 0) /\
    past (bc s') = news ++ past (bc s) /\
    (forall x, x ∈ news -> same_home dv st (replay dv st x) (replay dv st (disk (bc s)))) /\
    same_home dv st (disk (bc s')) (replay dv st (disk (bc s))) /\
    (exists h', disk (bc s') !! hkey dv st = Some h' /\ hdr_n h' = 0).
Proof.
  intros Hb. pose proof (bt_head _ _ _ _ Hb) as Hh. pose proof (bt_good _ _ _ _ Hb) as Hg.
  destruct (read_head_ok s l h bl Hb) as (s1 & l1 & E1 & Ha1 & Hd1 & Hp1 & Hn1 & Hlen1 & Hbl1 & _).
  destruct (install_ok l1 bl s1 ∅ ∅ 0 (booted_installable _ _ _ _ _ _ Hb Ha1 Hd1 Hbl1))
    as (s2 & P' & news & E2 & Ha2 & _ & _ & Hz2 & Hpn2 & Hp2 & Hx2 & Hd2 & _).
  rewrite <- Hd1 in Hh. pose proof (fun x Hx => replay_agree _ x _ _ _ Hh Hg (Hx2 x Hx)) as Hr2.
  assert (Hk0 : hkey dv st ∉ homes bl).
  { rewrite elem_homes. intros (b & Hx & [= <-]). destruct (gh_home _ _ _ _ _ Hg _ Hx) as [_ Hy]. apply Hy. exists 0.
    rewrite Z.add_0_r. split; [unfold LOGSIZE, MAXOPBLOCKS; lia|done]. }
  assert (Hh2 : disk (bc s2) !! hkey dv st = Some h) by (rewrite (Hx2 _ (list_elem_of_here _ _)) by done; done).
  replace (∅ ∖ homes bl) with (∅ : gset (Z * Z)) in Ha2 by set_solver.
  destruct (clear_head_ok s2 l1 ∅ P' h Ha2) as (s3 & h3 & E3 & Ha3 & _ & _ & Hp3 & Hd3 & Hn3 & _); try done;
    [rewrite Hpn2, decide_False by done; by rewrite pins_empty|apply Hb|].
  pose proof (bt_log _ _ _ _ Hb) as Hlog. rewrite <- Hd1 in Hlog.
  pose proof (installed_replay _ _ _ _ _ Hh Hg Hlog (Hx2 _ (list_elem_of_here _ _)) Hd2) as Hfin.
  exists s3, (set_lh_n 0 l1), P', (disk (bc s2) :: news). rewrite <- Hd1. split_and!; try done.
  - unfold recover_from_log. run E1. unfold install_trans. rewrite (bind_ret_l _ _ s1 tt s2); [exact E3|].
    run (getl_ok _ _ _ (al_log Ha1)). by rewrite Hn1, Nat2Z.id.
  - intros k. rewrite Hpn2, pins_empty. by case_decide.
  - by rewrite Hp3, Hp2, Hp1.
  - intros x Hx. by rewrite (Hr2 x Hx).
  - rewrite Hd3, same_home_header, Hfin. done.
  - exists h3. by rewrite Hd3, lookup_insert_eq.
Qed.

(** ** The last operation of a transaction *)

Lemma at_log_cx s l D P H c : at_log s l D P H -> cx_wf c -> held c = held (cx s) -> mypid c = mypid (cx s) -> at_log (set_cx c s) l D P H.
Proof.
  intros [H1 H2 H3 H4 H5] Hc Hh Hpid. split; [done|done|by apply bst_cx| |].
  - rewrite cx_set. destruct H4 as [B1 B2 B3]. split; [done|by rewrite Hh|intros i; by rewrite Hh].
  - by rewrite cx_set, Hh.
Qed.

Lemma tx_cx s l D P H bl val c :
  tx s l D P H bl val -> cx_wf c -> held c = held (cx s) -> mypid c = mypid (cx s) -> tx (set_cx c s) l D P H bl val.
Proof.
  intros Hl Hc Hh Hp. pose proof (at_log_cx _ _ _ _ _ c (ld_at Hl) Hc Hh Hp). destruct Hl. split; try done.
Qed.

Lemma tx_upl s l D P H bl val l' :
  tx s l D P H bl val -> start l' = start l -> lh_n l' = lh_n l -> lh_block l' = lh_block l -> tx (upl dv l' s) l' D P H bl val.
Proof.
  intros Hl H1 H2 H3. pose proof (at_log_upl _ _ _ _ _ l' (ld_at Hl) H1). destruct Hl. split; try done; [congruence| |];
    rewrite H3; done.
Qed.

(** A short critical section of the log: the lock is taken, the log changed
    and the lock released. *)
Lemma critical_ok s l l' D P H bl val :
  tx s l D P H bl val -> start l' = start l -> lh_n l' = lh_n l -> lh_block l' = lh_block l ->
  exists s1, acquire (log_lock dv) s = Ret tt s1 /\ aget (logs s1) dv = Some l /\
    release (log_lock dv) (upl dv l' s1) = Ret tt (set_cx (touch (cx s)) (upl dv l' s)) /\
    tx (set_cx (touch (cx s)) (upl dv l' s)) l' D P H bl val.
Proof.
  intros Hl H1 H2 H3. pose proof (ld_at Hl) as Ha. pose proof (br_wf _ (al_ready Ha)) as Hw.
  exists (set_cx (locked_cx (log_lock dv) (cx s)) s). split_and!.
  - apply acquire_ok, (al_unlocked Ha).
  - apply (al_log Ha).
  - rewrite (release_ok _ (cx s)); [|done|apply (al_unlocked Ha)|rewrite locked_touch; reflexivity]. done.
  - apply tx_cx; [by apply (tx_upl s l)|by apply touch_wf|done|done].
Qed.
End Run.
