(* ===== verification/LogTx.v ===== *)
(** * Building a transaction

    [begin_op] reserves room in the log, and [log_write] records a changed block
    once, however often it is written. *)

From S2P Require Import Prelude ListC Sleeplock Bytes Bio BioSpec BioUse Log LogSpec.

Lemma bpin_eq i b s :
  cx_wf (cx s) -> bcache_lock ∉ held (cx s) -> aget (bufs s) i = Some b ->
  bpin i s = Ret tt (set_cx (touch (cx s)) (upb i (set_refcnt (u32 (refcnt b + 1)) b) s)).
Proof.
  intros Hw Hl Hb. unfold bpin. run (acquire_ok bcache_lock s Hl). set (s1 := set_cx _ s).
  run (setb_ok i b (fun x => set_refcnt (u32 (refcnt x + 1)) x) s1 Hb).
  by rewrite (release_ok bcache_lock (cx s)); [|done|done|unfold s1; cbn; rewrite locked_touch].
Qed.

(** The search stops at the entry for the block, or behind the last one. *)
Lemma absorb_ok l bl x s :
  (forall t b, aget bl t = Some b -> aget (lh_block l) t = Some b) -> (forall b, b ∈ bl -> 0 < b < 2 ^ 31) ->
  exists t, absorb (length bl) l 0 x s = Ret t s /\ (aget bl t = Some x \/ t = Z.of_nat (length bl) /\ x ∉ bl).
Proof.
  intros Hbl Hr.
  assert (Hgen : forall rest pre, bl = pre ++ rest -> x ∉ pre ->
    exists t, absorb (length rest) l (Z.of_nat (length pre)) x s = Ret t s /\ (aget bl t = Some x \/ t = Z.of_nat (length bl) /\ x ∉ bl)).
  { induction rest as [|b rest IH]; intros pre E Hx.
    - exists (Z.of_nat (length pre)). split; [done|right]. subst bl. by rewrite app_nil_r.
    - assert (Hb : aget bl (Z.of_nat (length pre)) = Some b) by (by rewrite aget_of_nat, E, list_lookup_middle).
      cbn [absorb length]. run (lh_get_ok l _ _ s (Hbl _ _ Hb)). specialize (Hr b). rewrite u32_small by (destruct Hr; [subst bl; set_solver|lia]).
      destruct (Z.eqb_spec b x) as [->|Hne]; [eauto|].
      destruct (IH (pre ++ [b])) as (t & E1 & Ht); [by rewrite <- app_assoc|set_solver|].
      exists t. split; [|done]. rewrite <- E1, length_app. cbn. f_equal. lia. }
  apply (Hgen bl []); [done|apply not_elem_of_nil].
Qed.

(** A buffer changed by this thread is recorded in the log: its block is now to
    be written, and pinned. *)
Lemma logged_changed s D P P' H i b c rc v :
  bst s D P H -> i ∈ H -> aget (bufs s) i = Some b -> key b <> (0, 0) -> mypid c = mypid (cx s) ->
  rc = u32 (pins P' (key b) + one H i) -> (forall k, k <> key b -> pins P' k = pins P k) -> 0 < pins P' (key b) < 2 ^ 31 ->
  changed s (set_cx c (upb i (set_refcnt rc (set_data v b)) s)) D ({[key b]} ∪ D) P P' H H i b (set_refcnt rc (set_data v b)).
Proof.
  intros Hb Hi Hbi Hk Hc Hrc HP Hp. split; try done.
  - apply (bi_ring (bs_inv Hb)).
  - set_solver.
  - intros _ Hx. set_solver.
  - intros _. by apply (bs_valid Hb i b).
  - apply (bs_lock Hb i b Hbi).
  - lia.
  - lia.
Qed.

Section Tx.
Context (dv st : Z).

(** The blocks of the transaction after block [x] was written, and their contents. *)
Definition add_block (x : Z) (bl : list Z) : list Z := if decide (x ∈ bl) then bl else bl ++ [x].
Definition add_val (x : Z) (v : block) (val : Z -> block) (y : Z) : block := if decide (y = x) then v else val y.

Lemma elem_add_block x bl y : y ∈ add_block x bl <-> y = x \/ y ∈ bl.
Proof. unfold add_block. case_decide; set_solver. Qed.

Lemma tx_log s l D P H bl val s' l' P' i b b' x v :
  tx dv st s l D P H bl val -> changed (bc s) (bc s') D ({[(dv, x)]} ∪ D) P P' H H i b b' ->
  key b = (dv, x) -> data b' = v -> valid b' = true ->
  aget (logs s') dv = Some l' -> start l' = start l -> lh_n l' = Z.of_nat (length (add_block x bl)) ->
  length (lh_block l') = length (lh_block l) ->
  (forall t c, aget (add_block x bl) t = Some c -> aget (lh_block l') t = Some c) ->
  lh_n l' < LOGSIZE -> pins P' (dv, x) = 1 -> (size P' < Z.to_nat NBUF)%nat ->
  disk (bc s') = disk (bc s) -> cx s' = touch (cx s) -> 0 < x < 2 ^ 31 -> ~ in_log dv st (dv, x) ->
  tx dv st s' l' ({[(dv, x)]} ∪ D) P' H (add_block x bl) (add_val x v val).
Proof.
  intros Hl Hch Hkb Hdb Hv Hlg Hst Hn Hlen Hbl Hmax Hp1 Hsz Hd Hcx Hx Hnl. destruct (changed_at Hch) as [Hi Ho].
  pose proof (ch_key Hch) as Hkb'. destruct Hl as [[A1 A2 A3 A4 A5] B1 B2 B3 B4 B5 B6 B7 B8 B9 B10 B11 B12]. split.
  - split; [done|congruence|by eapply bst_changed|rewrite Hcx; by apply bready_touch|by rewrite Hcx].
  - done.
  - by rewrite Hlen.
  - by rewrite <- Hn.
  - done.
  - intros c Hc. apply elem_add_block in Hc as [->|Hc]; [done|]. by apply B5.
  - unfold add_block. case_decide; [done|]. apply list.NoDup_app. split_and!; [done|set_solver|apply NoDup_singleton].
  - intros c Hc. unfold add_val. case_decide as E.
    + left. exists i, b'. subst c. by rewrite Hkb', Hkb.
    + apply elem_add_block in Hc as [->|Hc]; [done|]. eapply blk_changed; [done|rewrite Hkb; congruence|by apply B7].
  - intros y. destruct (decide (y = x)) as [->|Hne].
    + rewrite Hp1, decide_True; [done|]. apply elem_add_block. by left.
    + rewrite (ch_P Hch) by (rewrite Hkb; congruence). rewrite B8. pose proof (elem_add_block x bl y).
      destruct (decide (y ∈ bl)), (decide (y ∈ add_block x bl)); tauto.
  - intros y. rewrite elem_of_union, elem_of_singleton, B9, elem_add_block. naive_solver.
  - done.
  - intros t Ht. rewrite Hd. by apply B11.
  - intros h. rewrite Hd. apply B12.
Qed.

(** The state in which [log_write] has taken the lock and written entry [t]. *)
Definition logging (s : logst) (l : log) (i t x : Z) (b : buf) : logst :=
  upl dv (set_lh_block (<[Z.to_nat t := x]> (lh_block l)) l)
    (set_cx (locked_cx (log_lock dv) (cx s)) (set_bc (upb i b (bc s)) s)).

(** What a writer of a block may rely on: the block is not of the log, and the
    log has room. *)
Record writable (s : logst) (l : log) (D : gset (Z * Z)) (P : gmap (Z * Z) Z) (H : gset Z) (bl : list Z) (val : Z -> block)
    (i x : Z) (b : buf) : Prop := {
  wt_tx : tx dv st s l D P H bl val;
  wt_held : i ∈ H;
  wt_buf : aget (bufs (bc s)) i = Some b;
  wt_key : key b = (dv, x);
  wt_range : 0 < x < 2 ^ 31;
  wt_home : ~ in_log dv st (dv, x);
  wt_op : 1 <= outstanding l;
  wt_max : lh_n l < LOGSIZE - 1;
  wt_size : lh_n l < lsize l - 1;
  wt_space : (size P + 1 < Z.to_nat NBUF)%nat
}.

Lemma log_write_run s l D P H bl val i x b v :
  writable s l D P H bl val i x b ->
  exists t, (aget bl t = Some x \/ t = Z.of_nat (length bl) /\ x ∉ bl) /\ 0 <= t < Z.of_nat (length (lh_block l)) /\
    (on_bc (setb i (set_data v)) ;;; log_write i) s =
    ((if t =? lh_n l then on_bc (bpin i) ;;; setl dv (fun l => set_lh_n (lh_n l + 1) l) else ret tt) ;;; release (log_lock dv))
      (logging s l i t x (set_data v b)).
Proof.
  intros [Hl Hi Hb Hkb Hx Hnl Ho Hn1 Hn2 Hsz]. pose proof (ld_at _ _ _ _ _ _ _ _ _ Hl) as Ha.
  pose proof (al_log _ _ _ _ _ _ _ Ha) as Hg. pose proof (ld_n _ _ _ _ _ _ _ _ _ Hl) as Hn. pose proof (ld_len _ _ _ _ _ _ _ _ _ Hl) as Hlen.
  set (b1 := set_data v b). set (s1 := set_bc (upb i b1 (bc s)) s). set (s2 := set_cx (locked_cx (log_lock dv) (cx s)) s1).
  destruct (absorb_ok l bl x s2 (ld_block _ _ _ _ _ _ _ _ _ Hl)) as (t & Et & Ht); [intros c Hc; by apply (ld_home _ _ _ _ _ _ _ _ _ Hl c)|].
  assert (Htr : 0 <= t < Z.of_nat (length (lh_block l))) by (destruct Ht as [Ht%aget_Some_lt|[-> _]]; lia).
  exists t. split; [done|]. split; [done|]. run (on_bc_ok _ s tt _ (setb_ok i b (set_data v) (bc s) Hb)). fold b1 s1. unfold log_write.
  assert (Hb1 : aget (bufs (bc s1)) i = Some b1) by (by apply (upb_eq i b)).
  run (on_bc_ok _ s1 b1 (bc s1) (getb_ok i b1 (bc s1) Hb1)). replace (set_bc (bc s1) s1) with s1 by done.
  injection Hkb as Hdev Hbno. cbn [b1 set_data dev blockno]. rewrite Hdev, Hbno. run (getl_ok dv l s1 Hg).
  rewrite (proj2 (Z.leb_gt LOGSIZE _)) by lia. rewrite (proj2 (Z.leb_gt (lsize l - 1) _) Hn2), (proj2 (Z.ltb_ge _ _) Ho). cbn [orb].
  run (acquire_ok (log_lock dv) s1 (al_unlocked _ _ _ _ _ _ _ Ha)). change (set_cx _ s1) with s2. rewrite Hn, Nat2Z.id. run Et.
  rewrite s32_small by lia. by run (lh_set_ok dv s2 l t x Hg Htr).
Qed.

(** The block is in the log already: its entry stays as it is. *)
Lemma log_write_old s l D P H bl val i x b v t :
  writable s l D P H bl val i x b -> aget bl t = Some x ->
  let s' := set_cx (touch (cx s)) (logging s l i t x (set_data v b)) in
  release (log_lock dv) (logging s l i t x (set_data v b)) = Ret tt s' /\
  tx dv st s' (set_lh_block (<[Z.to_nat t := x]> (lh_block l)) l) ({[(dv, x)]} ∪ D) P H (add_block x bl) (add_val x v val) /\
  changed (bc s) (bc s') D ({[(dv, x)]} ∪ D) P P H H i b (set_data v b).
Proof.
  intros [Hl Hi Hb Hkb Hx Hnl _ _ _ Hsz] Ht s'. pose proof (ld_at _ _ _ _ _ _ _ _ _ Hl) as Ha. set (l1 := set_lh_block _ l).
  pose proof (al_bst _ _ _ _ _ _ _ Ha) as Hbs. pose proof (br_wf _ (al_ready _ _ _ _ _ _ _ Ha)) as Hw.
  pose proof (ld_block _ _ _ _ _ _ _ _ _ Hl) as Hbl. pose proof (ld_n _ _ _ _ _ _ _ _ _ Hl) as Hn. pose proof (ld_max _ _ _ _ _ _ _ _ _ Hl).
  assert (Hin : x ∈ bl) by (by eapply list_elem_of_lookup_2, aget_lookup).
  pose proof (ld_pins _ _ _ _ _ _ _ _ _ Hl x) as Hpx. rewrite decide_True in Hpx by done.
  split; [by rewrite (release_ok (log_lock dv) (cx s)); [|done|apply (al_unlocked _ _ _ _ _ _ _ Ha)|rewrite locked_touch]|].
  pose proof (logged_changed (bc s) D P P H i b (touch (cx s)) (refcnt b) v Hbs Hi Hb) as Hch. rewrite Hkb in Hch.
  specialize (Hch ltac:(intros [= _ ->]; lia) eq_refl ltac:(rewrite <- Hkb; by apply (bs_ref Hbs)) ltac:(done) ltac:(lia)).
  replace (set_refcnt (refcnt b) (set_data v b)) with (set_data v b) in Hch by (by destruct b).
  assert (Hadd : add_block x bl = bl) by (unfold add_block; by rewrite decide_True).
  pose proof (aget_Some_lt _ _ _ Ht). pose proof (ld_len _ _ _ _ _ _ _ _ _ Hl).
  split; [|done]. eapply (tx_log s l D P H bl val _ l1 P i b _ x v Hl); try done; rewrite ?Hadd; try done.
  - by apply (bs_valid Hbs i b).
  - apply (upl_eq dv l), (al_log _ _ _ _ _ _ _ Ha).
  - cbn. apply length_insert.
  - intros u c Hu. cbn. rewrite aget_insert by lia. case_decide; [congruence|by apply Hbl].
  - cbn. lia.
  - lia.
Qed.

(** The block is new to the log: it is pinned and counted. *)
Lemma log_write_new s l D P H bl val i x b v :
  writable s l D P H bl val i x b -> x ∉ bl ->
  exists s', (((on_bc (bpin i) ;;; setl dv (fun l => set_lh_n (lh_n l + 1) l)) ;;; release (log_lock dv))
      (logging s l i (lh_n l) x (set_data v b)) = Ret tt s') /\
    disk (bc s') = disk (bc s) /\ past (bc s') = past (bc s) /\ holds_buf dv s' i x v /\ cx s' = touch (cx s) /\
    (exists b', changed (bc s) (bc s') D ({[(dv, x)]} ∪ D) P (<[(dv, x) := 1]> P) H H i b b') /\
  tx dv st s' (set_lh_n (lh_n l + 1) (set_lh_block (<[Z.to_nat (lh_n l) := x]> (lh_block l)) l)) ({[(dv, x)]} ∪ D)
    (<[(dv, x) := 1]> P) H (add_block x bl) (add_val x v val).
Proof.
  intros [Hl Hi Hb Hkb Hx Hnl _ Hn1 _ Hsz] Hnin. pose proof (ld_at _ _ _ _ _ _ _ _ _ Hl) as Ha. set (l1 := set_lh_block _ l).
  pose proof (al_bst _ _ _ _ _ _ _ Ha) as Hbs. pose proof (al_ready _ _ _ _ _ _ _ Ha) as Hr. pose proof (br_wf _ Hr) as Hw.
  pose proof (al_unlocked _ _ _ _ _ _ _ Ha) as Hu. pose proof (ld_n _ _ _ _ _ _ _ _ _ Hl) as Hn. pose proof (ld_len _ _ _ _ _ _ _ _ _ Hl) as Hlen.
  pose proof (ld_pins _ _ _ _ _ _ _ _ _ Hl x) as Hpx. rewrite decide_False in Hpx by done.
  set (b1 := set_data v b). set (b2 := set_refcnt (u32 (refcnt b1 + 1)) b1). set (s3 := logging s l i (lh_n l) x b1).
  assert (Hg3 : aget (logs s3) dv = Some l1) by (apply (upl_eq dv l), (al_log _ _ _ _ _ _ _ Ha)).
  pose proof (bpin_eq i b1 (bc s3) (locked_cx_wf _ _ Hw Hu) ltac:(cbn; pose proof (br_cache _ Hr); set_solver) (upb_eq i b b1 (bc s) Hb)) as E1.
  fold b2 in E1. change (touch (cx (bc s3))) with (touch (locked_cx (log_lock dv) (cx s))) in E1. rewrite touch_locked in E1 by done.
  set (c1 := set_cx _ _) in E1. set (l2 := set_lh_n (lh_n l + 1) l1).
  exists (set_cx (touch (cx s)) (upl dv l2 (set_bc c1 s3))). split.
  { rewrite (bind_ret_l _ _ s3 tt (upl dv l2 (set_bc c1 s3))); [|run (on_bc_ok _ s3 tt c1 E1); by rewrite (setl_ok dv l1)].
    by rewrite (release_ok (log_lock dv) (cx s)); [|done|done|rewrite locked_touch]. }
  pose proof (logged_changed (bc s) D P (<[(dv, x) := 1]> P) H i b (touch (cx s)) (u32 (refcnt b + 1)) v Hbs Hi Hb) as Hch. rewrite Hkb in Hch.
  assert (Hp1 : pins (<[(dv, x) := 1]> P) (dv, x) = 1) by (unfold pins; by rewrite lookup_insert_eq).
  assert (Hrc : u32 (refcnt b + 1) = u32 (1 + one H i)).
  { rewrite (bs_ref Hbs i b Hb), Hkb, Hpx. unfold u32. rewrite Zplus_mod_idemp_l. f_equal. lia. }
  specialize (Hch ltac:(intros [= _ ->]; lia) eq_refl ltac:(by rewrite Hp1)).
  specialize (Hch ltac:(intros k Hk; unfold pins; by rewrite lookup_insert_ne) ltac:(lia)). change (set_refcnt _ (set_data v b)) with b2 in Hch.
  assert (Ebc : set_cx (touch (cx s)) c1 = set_cx (touch (cx s)) (upb i b2 (bc s))).
  { unfold c1. rewrite set_cx_twice. change (bc s3) with (set_cx (locked_cx (log_lock dv) (cx s)) (upb i b1 (bc s))).
    by rewrite upb_cx, set_cx_twice, upb_twice. }
  split_and!; [done|done|exists b2; split; [|done]; cbn [bc set_cx]; change (aget (bufs (set_cx (touch (cx s)) c1)) i = Some b2); rewrite Ebc; by apply (upb_eq i b)|done| |].
  { exists b2. change (changed (bc s) (set_cx (touch (cx s)) c1) D ({[(dv, x)]} ∪ D) P (<[(dv, x) := 1]> P) H H i b b2). by rewrite Ebc. }
  assert (Hadd : add_block x bl = bl ++ [x]) by (unfold add_block; by rewrite decide_False).
  eapply (tx_log s l D P H bl val _ l2 _ i b b2 x v Hl); try done; rewrite ?Hadd.
  - change (changed (bc s) (set_cx (touch (cx s)) c1) D ({[(dv, x)]} ∪ D) P (<[(dv, x) := 1]> P) H H i b b2). by rewrite Ebc.
  - by apply (bs_valid Hbs i b).
  - by apply (upl_eq dv l1).
  - cbn. rewrite length_app. cbn. lia.
  - cbn. apply length_insert.
  - intros u c Hc. cbn. rewrite aget_insert by lia. case_decide as E.
    + subst u. rewrite Hn, aget_of_nat, list_lookup_middle in Hc by done. congruence.
    + apply (ld_block _ _ _ _ _ _ _ _ _ Hl). pose proof (aget_Some_lt _ _ _ Hc) as Hlt. rewrite length_app in Hlt. cbn in Hlt.
      unfold aget in *. case_decide; [|done]. by rewrite lookup_app_l in Hc by lia.
  - cbn. lia.
  - destruct (P !! (dv, x)) eqn:E; [rewrite map_size_insert_Some by eauto|rewrite map_size_insert_None by done]; lia.
Qed.

(** What the writer of a block keeps: the other buffers and blocks. *)
Record keeps_others (s s' : logst) (P P' : gmap (Z * Z) Z) (i x : Z) : Prop := {
  ko_cx : cx s' = touch (cx s);
  ko_pins : (size P' <= S (size P))%nat;
  ko_else : forall k, k.1 <> dv -> pins P' k = pins P k;
  ko_held : forall j y e, j <> i -> holds_buf dv s j y e -> holds_buf dv s' j y e;
  ko_blk : forall y e, y <> x -> blk (bc s) (dv, y) e -> blk (bc s') (dv, y) e
}.

Lemma changed_others s s' D D' P P' H H' i x b b' :
  changed (bc s) (bc s') D D' P P' H H' i b b' -> key b = (dv, x) -> cx s' = touch (cx s) -> (size P' <= S (size P))%nat -> (forall k, k.1 <> dv -> pins P' k = pins P k) -> keeps_others s s' P P' i x.
Proof.
  intros Hch Hk Hc Hs He. destruct (changed_at Hch) as [_ Ho]. split; [done|done|done| |].
  - intros j y e Hj (z & Hz & Hrest). exists z. by rewrite Ho.
  - intros y e Hy. eapply blk_changed; [done|]. rewrite Hk. congruence.
Qed.

(** Both cases. *)
Lemma log_write_ok s l D P H bl val i x b v :
  writable s l D P H bl val i x b ->
  exists s' l' P', (on_bc (setb i (set_data v)) ;;; log_write i) s = Ret tt s' /\
    tx dv st s' l' ({[(dv, x)]} ∪ D) P' H (add_block x bl) (add_val x v val) /\
    outstanding l' = outstanding l /\ committing l' = committing l /\ holds_buf dv s' i x v /\
    disk (bc s') = disk (bc s) /\ past (bc s') = past (bc s) /\ lsize l' = lsize l /\ keeps_others s s' P P' i x /\ (x ∈ bl -> P' = P).
Proof.
  intros Hw. destruct (log_write_run s l D P H bl val i x b v Hw) as (t & Ht & Htr & E). rewrite E. pose proof (wt_key _ _ _ _ _ _ _ _ _ _ Hw) as Hkb.
  pose proof (ld_n _ _ _ _ _ _ _ _ _ (wt_tx _ _ _ _ _ _ _ _ _ _ Hw)) as Hn. destruct Ht as [Ht|[Ht Hnin]].
  - destruct (log_write_old s l D P H bl val i x b v t Hw Ht) as (E1 & Htx & Hch). pose proof (aget_Some_lt _ _ _ Ht).
    rewrite (proj2 (Z.eqb_neq t (lh_n l))) by lia. mstep. eexists _, _, P. rewrite E1. split_and!; try done.
    + exists (set_data v b). split; [by apply (upb_eq i b), Hw|]. split; [apply Hw|done].
    + by eapply changed_others; [..|lia|].
  - subst t. rewrite <- Hn, Z.eqb_refl. destruct (log_write_new s l D P H bl val i x b v Hw Hnin) as (s' & E1 & H1 & H2 & H3 & H4 & [b' H5] & H6).
    eexists s', _, _. rewrite E1. split_and!; try done. eapply changed_others; [done|done|done| |].
    + destruct (P !! (dv, x)) eqn:E0; [rewrite map_size_insert_Some by eauto|rewrite map_size_insert_None by done]; lia.
    + intros k Hk. unfold pins. by rewrite lookup_insert_ne by (intros <-; done).
Qed.

(** Reading and releasing buffers keeps the transaction. *)
Lemma tx_stays s s' l D P H H' bl val :
  tx dv st s l D P H bl val -> at_log dv st s' l D P H' -> stays s s' -> tx dv st s' l D P H' bl val.
Proof.
  intros [_ B1 B2 B3 B4 B5 B6 B7 B8 B9 B10 B11 B12] Ha [_ Hk]. split; try done.
  - intros b Hb. apply (kp_blk Hk); [|by apply B7]. destruct (B5 b Hb). intros [= _ ->]. lia.
  - intros t Ht. rewrite (kp_disk Hk). by apply B11.
  - intros h. rewrite (kp_disk Hk). apply B12.
Qed.

(** ** Starting an operation *)

(** May another operation start now? *)
Definition admits (l : log) : bool :=
  negb (committing l) && (lh_n l + (outstanding l + 1) * MAXOPBLOCKS <=? LOGSIZE).

Lemma begin_op_ok fuel s l D P H bl val :
  (0 < fuel)%nat -> tx dv st s l D P H bl val -> admits l = true ->
  let l' := set_outstanding (outstanding l + 1) l in
  begin_op fuel dv s = Ret tt (set_cx (touch (cx s)) (upl dv l' s)) /\
  tx dv st (set_cx (touch (cx s)) (upl dv l' s)) l' D P H bl val.
Proof.
  intros Hf Hl Had l'. destruct fuel as [|n]; [lia|]. apply andb_true_iff in Had as [Hc Hn]. apply negb_true_iff in Hc.
  destruct (critical_ok dv st s l l' D P H bl val Hl) as (s1 & E1 & Hg & E2 & Htx); try done. split; [|done].
  unfold begin_op. run E1. cbn [begin_op_loop]. run (getl_ok dv l s1 Hg). rewrite Hc.
  rewrite (proj2 (Z.ltb_ge _ _)) by (apply Z.leb_le in Hn; lia).
  by run (setl_ok dv l (fun l => set_outstanding (outstanding l + 1) l) s1 Hg).
Qed.

Lemma begin_op_waits fuel s l :
  (0 < fuel)%nat -> aget (logs s) dv = Some l -> cx_wf (cx s) -> log_lock dv ∉ held (cx s) -> admits l = false ->
  exists k, begin_op fuel dv s = Sleep log_chan (set_cx (touch (cx s)) s) k.
Proof.
  intros Hf Hg Hw Hl Had. destruct fuel as [|n]; [lia|]. unfold begin_op. run (acquire_ok (log_lock dv) s Hl).
  set (s1 := set_cx _ s). cbn [begin_op_loop]. run (getl_ok dv l s1 Hg).
  assert (Hs : release (log_lock dv) s1 = Ret tt (set_cx (touch (cx s)) s)).
  { rewrite (release_ok (log_lock dv) (cx s)); [unfold s1; by rewrite set_cx_twice|done|done|unfold s1; rewrite locked_touch; apply cx_set]. }
  assert (Hz : forall m : L unit, exists k, (sleep_on log_chan (log_lock dv) ;;; m) s1 = Sleep log_chan (set_cx (touch (cx s)) s) k).
  { intros m. unfold sleep_on, bind at 1 2. rewrite Hs. cbn. eauto. }
  unfold admits in Had. destruct (committing l); [apply Hz|]. cbn [negb andb] in Had. apply Z.leb_gt in Had.
  rewrite (proj2 (Z.ltb_lt _ _)) by lia. apply Hz.
Qed.
End Tx.

(** ** Ending an operation *)

(** An empty transaction is committed by doing nothing. *)
Lemma commit_any fuel dv st s l D P bl val h :
  (0 < fuel)%nat -> 0 <= dv -> 0 < st -> st + LOGSIZE < 2 ^ 31 ->
  tx dv st s l D P ∅ bl val -> disk (bc s) !! hkey dv st = Some h -> hdr_n h = 0 ->
  exists s' P' news, commit fuel dv s = Ret tt s' /\
    tx dv st s' (set_lh_n 0 l) (D ∖ homes dv bl) P' ∅ [] val /\
    past (bc s') = news ++ past (bc s) /\
    all_or_nothing dv st (disk (bc s)) (committed dv bl val (disk (bc s))) news /\
    same_home dv st (disk (bc s')) (committed dv bl val (disk (bc s))) /\
    (exists h', disk (bc s') !! hkey dv st = Some h' /\ hdr_n h' = 0) /\
    (forall k, k.1 <> dv -> pins P' k = pins P k) /\ touch (cx s') = touch (cx s).
Proof.
  intros Hf Hdv Hst Hend Hl Hh Hn. destruct bl as [|b bl]; [|by apply (commit_ok fuel Hf dv st Hdv Hst Hend s l D P (b :: bl) val h)].
  pose proof (ld_n _ _ _ _ _ _ _ _ _ Hl) as Hz. cbn in Hz. assert (El : set_lh_n 0 l = l) by (destruct l; cbn in *; by subst).
  exists s, P, []. split_and!; [| |done|by exists [], []; split_and!; [done|set_solver..]|done|by exists h|done|done].
  - unfold commit. run (getl_ok _ _ _ (al_log _ _ _ _ _ _ _ (ld_at _ _ _ _ _ _ _ _ _ Hl))). by rewrite Hz.
  - rewrite El. by replace (D ∖ homes dv []) with D by set_solver.
Qed.

Lemma end_op_ok fuel dv st s l D P bl val h :
  (0 < fuel)%nat -> 0 < st -> st + LOGSIZE < 2 ^ 31 ->
  tx dv st s l D P ∅ bl val -> outstanding l = 1 -> committing l = false ->
  disk (bc s) !! hkey dv st = Some h -> hdr_n h = 0 ->
  exists s' l' P' news, end_op fuel dv s = Ret tt s' /\
    tx dv st s' l' (D ∖ homes dv bl) P' ∅ [] val /\ outstanding l' = 0 /\ committing l' = false /\
    past (bc s') = news ++ past (bc s) /\
    all_or_nothing dv st (disk (bc s)) (committed dv bl val (disk (bc s))) news /\
    same_home dv st (disk (bc s')) (committed dv bl val (disk (bc s))) /\
    (exists h', disk (bc s') !! hkey dv st = Some h' /\ hdr_n h' = 0) /\
    lsize l' = lsize l /\ (forall k, k.1 <> dv -> pins P' k = pins P k) /\ touch (cx s') = touch (cx s).
Proof.
  intros Hf Hst Hend Hl Ho Hc Hh Hn. pose proof (proj1 (aget_Some_lt _ _ _ (al_log _ _ _ _ _ _ _ (ld_at _ _ _ _ _ _ _ _ _ Hl)))) as Hdv. set (l0 := set_outstanding (outstanding l - 1) l). set (l1 := set_committing true l0).
  destruct (critical_ok dv st s l l1 D P ∅ bl val Hl) as (s1 & E1 & Hs1 & E2 & Hl2); try done.
  set (s2 := set_cx _ (upl dv l1 s)) in *.
  destruct (commit_any fuel dv st s2 l1 D P bl val h Hf Hdv Hst Hend Hl2 Hh Hn) as (s3 & P' & news & E3 & Hl3 & Hp3 & Hat & Hsh & Hh3 & Hpo & Hcx).
  set (l3 := set_lh_n 0 l1) in *. set (l4 := set_committing false l3).
  destruct (critical_ok dv st s3 l3 l4 _ P' ∅ [] val Hl3) as (s4 & E4 & Hs4 & E5 & Hl5); try done.
  exists (set_cx (touch (cx s3)) (upl dv l4 s3)), l4, P', news. split_and!; try done; [|cbn; lia|rewrite cx_set, touch_idemp, Hcx; unfold s2; by rewrite cx_set, touch_idemp].
  unfold end_op. run E1. run (setl_ok dv l (fun l => set_outstanding (outstanding l - 1) l) s1 Hs1). fold l0.
  run (getl_ok dv l0 (upl dv l0 s1) (upl_eq _ _ _ _ Hs1)). cbn [committing l0 set_outstanding]. rewrite Hc.
  assert (Ho0 : (outstanding l0 =? 0) = true) by (cbn; by rewrite Ho). rewrite Ho0.
  run (setl_ok dv l0 (set_committing true) (upl dv l0 s1) (upl_eq _ _ _ _ Hs1)). fold l1.
  replace (upl dv l1 (upl dv l0 s1)) with (upl dv l1 s1) by (unfold upl, set_logs; cbn; by rewrite list_insert_insert_eq).
  run E2. run E3. run E4. run (setl_ok dv l3 (set_committing false) s4 Hs4). unfold wakeup_on. mstep. exact E5.
Qed.

(** Not the last operation: nothing is written. *)
Lemma end_op_more fuel dv st s l D P H bl val : tx dv st s l D P H bl val -> 1 < outstanding l -> committing l = false ->
  let l' := set_outstanding (outstanding l - 1) l in
  end_op fuel dv s = Ret tt (set_cx (touch (cx s)) (upl dv l' s)) /\ tx dv st (set_cx (touch (cx s)) (upl dv l' s)) l' D P H bl val.
Proof.
  intros Hl Ho Hc l'. destruct (critical_ok dv st s l l' D P H bl val Hl) as (s1 & E1 & Hs1 & E2 & Htx); try done. split; [|done].
  unfold end_op. run E1. run (setl_ok dv l (fun l => set_outstanding (outstanding l - 1) l) s1 Hs1). fold l'. run (getl_ok dv l' (upl dv l' s1) (upl_eq _ _ _ _ Hs1)).
  cbn [committing l' set_outstanding outstanding]. rewrite Hc, (proj2 (Z.eqb_neq _ 0)) by lia. unfold wakeup_on. mstep. exact E2.
Qed.
