(* ===== verification/LogProps.v ===== *)
(** * The write-ahead log: its guarantees

    A transaction is atomic across crashes, recovery completes what was
    committed and can itself crash, and the calls that build a transaction
    keep to the log's bounds. *)

From S2P Require Import Prelude ListC Sleeplock Bytes Bio BioSpec BioUse BioProps Log LogSpec LogTx.

(** ** A machine to try them on

    Disk 0 has its log at block 2 and a file block 100. *)

Definition after {S A} (r : res S A) (s : S) : S := match r with Ret _ s' => s' | _ => s end.

Definition zeros : block := replicate 1024 0.
Definition ones : block := replicate 1024 1.

Definition demo_disk (h : block) : disk_t :=
  <[(0, 2) := h]> (<[(0, 3) := ones]> (gset_to_gmap zeros (list_to_set (pair 0 <$> (100 :: seqZ 2 31))))).

Definition demo_cx : ctx :=
  {| noff := 0; intena := false; intr := true; held := []; mypid := 7; mykilled := false |}.

Definition demo_cache (d : disk_t) : bcache := mkbc demo_cx (replicate 30 zero_buf) ∅ d [].
Definition demo_log : log := mklog 2 30 0 false 0 0 (replicate 30 0).

(** After [binit], in front of the disk [d]. *)
Definition fresh (d : disk_t) (ls : list log) : logst := mkls (after (binit (demo_cache d)) (demo_cache d)) ls.

Lemma fresh_log_ok d ls l : aget ls 0 = Some l -> start l = 2 -> at_log 0 2 (fresh d ls) l ∅ ∅ ∅ /\ disk (bc (fresh d ls)) = d /\ past (bc (fresh d ls)) = [].
Proof.
  intros Hl Hst. destruct (binit_ok (demo_cache d)) as (s' & E & Hb & Hd & Hp & Hc); [done| |].
  { intros i b Hi. apply aget_lookup, lookup_replicate in Hi as [-> _]. done. }
  unfold fresh. rewrite E. cbn [after]. split; [|split; [exact Hd|exact Hp]]. split; [done|done|exact Hb| |].
  - change (bready (cx s')). rewrite Hc. split; [split_and!; [done|apply NoDup_nil_2|cbn; lia]|cbn; apply not_elem_of_nil|intros i; cbn; apply not_elem_of_nil].
  - change (log_lock 0 ∉ held (cx s')). rewrite Hc. cbn. apply not_elem_of_nil.
Qed.

Lemma fresh_cx_eq d ls : cx (fresh d ls) = demo_cx.
Proof.
  destruct (binit_ok (demo_cache d)) as (s' & E & _ & _ & _ & Hc); [done| |].
  { intros i b Hi. apply aget_lookup, lookup_replicate in Hi as [-> _]. done. }
  unfold fresh. rewrite E. cbn [after]. exact Hc.
Qed.

Lemma fresh_tx d ls l val : aget ls 0 = Some l -> start l = 2 -> lh_n l = 0 -> Z.of_nat (length (lh_block l)) = LOGSIZE ->
  (forall t, 0 <= t < LOGSIZE -> is_Some (d !! (0, 2 + t))) -> (forall h, d !! (0, 2) = Some h -> length h = 1024%nat) ->
  tx 0 2 (fresh d ls) l ∅ ∅ ∅ [] val.
Proof.
  intros Hl Hst Hn Hlen Hlog Hh. destruct (fresh_log_ok d ls l Hl Hst) as (Ha & Hd & _). generalize dependent (fresh d ls). intros s Ha Hd. split.
  - exact Ha.
  - done.
  - done.
  - done.
  - intros t b Ht. apply aget_Some_lt in Ht. cbn in Ht. lia.
  - intros b Hb. by apply not_elem_of_nil in Hb.
  - apply NoDup_nil_2.
  - intros b Hb. by apply not_elem_of_nil in Hb.
  - intros x. rewrite decide_False by apply not_elem_of_nil. apply pins_empty.
  - intros x. split; intros Hx; [by apply not_elem_of_empty in Hx|by apply not_elem_of_nil in Hx].
  - rewrite map_size_empty. unfold NBUF. lia.
  - intros t Ht. rewrite Hd. by apply Hlog.
  - intros h. rewrite Hd. apply Hh.
Qed.

#[global] Opaque fresh.

(** With log header [h]. *)
Definition demo_idle (h : block) : logst := fresh (demo_disk h) [demo_log; demo_log].

Lemma demo_disk_log h t : 0 <= t < LOGSIZE -> is_Some (demo_disk h !! (0, 2 + t)).
Proof.
  intros Ht. unfold demo_disk. destruct (decide ((0, 2) = (0, 2 + t))) as [->|Hne]; [rewrite lookup_insert_eq; eauto|].
  rewrite lookup_insert_ne by done. destruct (decide ((0, 3) = (0, 2 + t))) as [->|Hne3]; [rewrite lookup_insert_eq; eauto|].
  rewrite lookup_insert_ne by done. exists zeros. apply lookup_gset_to_gmap_Some. split; [|done].
  apply elem_of_list_to_set, list_elem_of_fmap. exists (2 + t). split; [done|]. right. apply elem_of_seqZ.
  unfold LOGSIZE, MAXOPBLOCKS in Ht. lia.
Qed.

Lemma demo_disk_home h : demo_disk h !! (0, 100) = Some zeros.
Proof.
  unfold demo_disk. rewrite !lookup_insert_ne by done. apply lookup_gset_to_gmap_Some. split; [|done].
  apply elem_of_list_to_set, list_elem_of_fmap. exists 100. split; [done|]. by left.
Qed.

Lemma demo_disk_head h : demo_disk h !! (0, 2) = Some h.
Proof. apply lookup_insert_eq. Qed.

#[global] Opaque demo_disk.

Lemma demo_home_not_log : ~ in_log 0 2 (0, 100).
Proof. intros (t & Ht & [= He]). unfold LOGSIZE, MAXOPBLOCKS in Ht. lia. Qed.

Lemma demo_idle_ok h : at_log 0 2 (demo_idle h) demo_log ∅ ∅ ∅ /\ disk (bc (demo_idle h)) = demo_disk h.
Proof. destruct (fresh_log_ok (demo_disk h) [demo_log; demo_log] demo_log eq_refl eq_refl) as (Ha & Hd & _). exact (conj Ha Hd). Qed.

#[global] Opaque demo_idle.

Lemma demo_idle_tx : tx 0 2 (demo_idle zeros) demo_log ∅ ∅ ∅ [] (fun _ => zeros).
Proof.
  apply (fresh_tx (demo_disk zeros) [demo_log; demo_log] demo_log _ eq_refl eq_refl eq_refl eq_refl (demo_disk_log zeros)). intros h. rewrite demo_disk_head. intros E. injection E as <-. apply length_replicate.
Qed.

Section Call.
Context (idle : logst).
Context (Hidle : tx 0 2 idle demo_log ∅ ∅ ∅ [] (fun _ => zeros)) (Hdisk : disk (bc idle) = demo_disk zeros).

(** A system call has begun, has read block 100, has changed it. *)
Definition demo_open : logst := after (begin_op 1 0 idle) idle.
Definition demo_read : logst := after (lbread 1 0 100 demo_open) demo_open.
Definition demo_change (i : Z) : L unit := on_bc (setb i (set_data ones)) ;;; log_write i.
Definition demo_body : L unit := i <- lbread 1 0 100 ;; demo_change i ;;; on_bc (brelse i).
Definition demo_full : logst := after (demo_body demo_open) demo_open.

Definition demo_log1 : log := set_outstanding 1 demo_log.

Lemma demo_open_tx : tx 0 2 demo_open demo_log1 ∅ ∅ ∅ [] (fun _ => zeros) /\ disk (bc demo_open) = demo_disk zeros.
Proof.
  destruct (begin_op_ok 0 2 1 idle demo_log ∅ ∅ ∅ [] (fun _ => zeros) ltac:(lia) Hidle eq_refl) as [E Htx].
  unfold demo_open. rewrite E. cbn [after]. split; [exact Htx|exact Hdisk].
Qed.

Lemma demo_read_ok : exists i b,
  writable 0 2 demo_read demo_log1 ∅ ∅ ({[i]} ∪ ∅) [] (fun _ => zeros) i 100 b /\
  lbread 1 0 100 demo_open = Ret i demo_read /\ disk (bc demo_read) = demo_disk zeros.
Proof.
  destruct demo_open_tx as [Htx Hd]. pose proof (ld_at _ _ _ _ _ _ _ _ _ Htx) as Ha.
  destruct (lbread_ok 1 ltac:(lia) 0 2 demo_open demo_log1 ∅ ∅ ∅ 100 zeros Ha) as (i & s' & E & _ & (b & Hb & Hk & Hdt) & Ha' & Hs & _).
  { split; [lia|split; [by rewrite pins_empty|set_solver]| |right; rewrite map_size_empty, size_empty; unfold NBUF; lia].
    apply (blk_clean _ ∅); [apply (bs_inv (al_bst _ _ _ _ _ _ _ Ha))|set_solver|]. rewrite Hd. apply demo_disk_home. }
  exists i, b. unfold demo_read. rewrite E. cbn [after]. destruct (stays_disk _ _ Hs) as [Q1 _]. split; [|split; [done|by rewrite Q1]].
  split; [by eapply tx_stays|set_solver|done|done|lia|apply demo_home_not_log|done|done|done|rewrite map_size_empty; unfold NBUF; lia].
Qed.

Lemma released (i : Z) : ({[i]} ∪ ∅) ∖ {[i]} = (∅ : gset Z).
Proof. set_solver. Qed.

Lemma demo_full_tx : exists l P,
  tx 0 2 demo_full l ({[(0, 100)]} ∪ ∅) P ∅ [100] (add_val 100 ones (fun _ => zeros)) /\
  outstanding l = 1 /\ committing l = false /\ disk (bc demo_full) = demo_disk zeros.
Proof.
  destruct demo_read_ok as (i & b & Hw & E & Hd).
  destruct (log_write_ok 0 2 demo_read demo_log1 ∅ ∅ _ [] _ i 100 b ones Hw) as (s1 & l1 & P1 & E1 & Htx & Ho & Hc & Hh & Hd1 & _).
  destruct (brelse_ok 1 ltac:(lia) 0 2 s1 l1 _ P1 _ i 100 ones (ld_at _ _ _ _ _ _ _ _ _ Htx) (elem_of_union_l _ _ _ (elem_of_singleton_2 _ _ eq_refl)) Hh ltac:(lia)) as (s2 & E2 & Ha2 & Hs2 & _).
  exists l1, P1. unfold demo_full, demo_body, demo_change. rewrite (bind_ret_l _ _ _ _ _ E). cbv beta.
  rewrite (bind_ret_l _ _ _ _ _ E1). cbv beta. rewrite E2. cbn [after]. destruct (stays_disk _ _ Hs2) as [Q1 _].
  rewrite released in Ha2.
  split_and!; [by eapply tx_stays|done|done|by rewrite Q1, Hd1].
Qed.

End Call.

(** C5: The [end_op] of the last outstanding operation commits: it
    returns, every disk that existed while it ran is replayed by recovery to
    the contents before or after the whole transaction, in that order, the disk
    it leaves has the new contents and an empty log, and the log is ready for
    the next transaction. *)
Theorem end_op_crash_safe fuel dv st s l D P bl val h :
  (0 < fuel)%nat -> 0 < st -> st + LOGSIZE < 2 ^ 31 ->
  tx dv st s l D P ∅ bl val -> outstanding l = 1 -> committing l = false ->
  disk (bc s) !! hkey dv st = Some h -> hdr_n h = 0 ->
  exists s' l' P' news, end_op fuel dv s = Ret tt s' /\
    tx dv st s' l' (D ∖ homes dv bl) P' ∅ [] val /\ outstanding l' = 0 /\ committing l' = false /\
    past (bc s') = news ++ past (bc s) /\
    all_or_nothing dv st (disk (bc s)) (committed dv bl val (disk (bc s))) news /\
    same_home dv st (disk (bc s')) (committed dv bl val (disk (bc s))) /\
    (exists h', disk (bc s') !! hkey dv st = Some h' /\ hdr_n h' = 0).
Proof.
  intros Hf Hst Hend Htx Ho Hc Hh Hn. destruct (end_op_ok fuel dv st s l D P bl val h Hf Hst Hend Htx Ho Hc Hh Hn) as (s' & l' & P' & news & E & H1 & H2 & H3 & H4 & H5 & H6 & H7 & _).
  exists s', l', P', news. by split_and!.
Qed.

(** Witness: block 100 is committed. *)
Lemma end_op_crash_safe_witness : exists l P s' l' P' news,
  end_op 1 0 (demo_full (demo_idle zeros)) = Ret tt s' /\
  tx 0 2 s' l' (({[(0, 100)]} ∪ ∅) ∖ homes 0 [100]) P' ∅ [] (add_val 100 ones (fun _ => zeros)) /\ outstanding l' = 0 /\
  tx 0 2 (demo_full (demo_idle zeros)) l ({[(0, 100)]} ∪ ∅) P ∅ [100] (add_val 100 ones (fun _ => zeros)) /\
  all_or_nothing 0 2 (demo_disk zeros) (committed 0 [100] (add_val 100 ones (fun _ => zeros)) (demo_disk zeros)) news.
Proof.
  destruct (demo_full_tx (demo_idle zeros) demo_idle_tx (proj2 (demo_idle_ok zeros))) as (l & P & Htx & Ho & Hc & Hd).
  exists l, P. destruct (end_op_crash_safe 1 0 2 _ l _ P [100] _ zeros (Nat.lt_0_succ 0) eq_refl eq_refl Htx
    Ho Hc (eq_trans (f_equal (lookup (hkey 0 2)) Hd) (demo_disk_head zeros)) eq_refl)
    as (s' & l' & P' & news & E & H1 & H2 & _ & _ & H5 & _).
  exists s', l', P', news. rewrite Hd in H5. exact (conj E (conj H1 (conj H2 (conj Htx H5)))).
Defined.

(** The log header of a crash after the commit of block 100. *)
Definition demo_header : block := put32 (hoff 0) 100 (put32 0 1 zeros).

Lemma demo_header_good : good_header 0 2 demo_header 1 [100] /\ length demo_header = Z.to_nat BSIZE.
Proof.
  split; [split|vm_compute; reflexivity].
  - vm_compute. reflexivity.
  - done.
  - unfold LOGSIZE, MAXOPBLOCKS. lia.
  - intros t b Hb. rewrite aget_cons in Hb. destruct (Z.eqb_spec t 0) as [->|Ht]; [injection Hb as <-; vm_compute; reflexivity|].
    apply aget_Some_lt in Hb. cbn in Hb. lia.
  - intros b Hb. apply list_elem_of_singleton in Hb as ->. split; [lia|apply demo_home_not_log].
  - apply NoDup_singleton.
Qed.

#[global] Opaque demo_header.

Definition demo_sb : log_area := {| logstart := 2; nlog := 30 |}.

Lemma booted_upl dv st s l0 l h bl :
  aget (logs s) dv = Some l0 -> start l = st -> lh_block l = lh_block l0 -> booted dv st s l0 h bl -> booted dv st (upl dv l s) l h bl.
Proof.
  intros Hl0 Hs Hb [H1 H2 H3 H4 H5 H6 H7 H8]. split; try done; [|by rewrite Hb].
  apply (at_log_upl dv st s l0); [done|]. by rewrite (al_start _ _ _ _ _ _ _ H1).
Qed.

Lemma demo_booted : booted 0 2 (demo_idle demo_header) demo_log demo_header [100].
Proof.
  destruct (demo_idle_ok demo_header) as [Ha Hd]. destruct demo_header_good as [Hg Hs].
  generalize dependent (demo_idle demo_header). intros s Ha Hd. split.
  - exact Ha.
  - done.
  - rewrite Hd. apply demo_disk_head.
  - exact Hs.
  - exact Hg.
  - intros t Ht. rewrite Hd. by apply demo_disk_log.
  - intros b Hb. apply list_elem_of_singleton in Hb as ->. rewrite Hd, demo_disk_home. eauto.
  - done.
Qed.



(** [log_write] of a changed buffer adds its block to the transaction,
    once: a block that is in the log already keeps its entry.  The disk is not
    touched, and the block cannot be evicted before the commit. *)
Theorem log_write_spec dv st s l D P H bl val i x b v :
  writable dv st s l D P H bl val i x b ->
  exists s' l' P', (on_bc (setb i (set_data v)) ;;; log_write i) s = Ret tt s' /\
    tx dv st s' l' ({[(dv, x)]} ∪ D) P' H (add_block x bl) (add_val x v val) /\
    lh_n l' = (if decide (x ∈ bl) then lh_n l else lh_n l + 1) /\ pins P' (dv, x) = 1 /\
    outstanding l' = outstanding l /\ disk (bc s') = disk (bc s) /\ past (bc s') = past (bc s).
Proof.
  intros Hw. destruct (log_write_ok dv st s l D P H bl val i x b v Hw) as (s' & l' & P' & E & Htx & Ho & _ & _ & Hd & Hp & _).
  exists s', l', P'. split_and!; try done.
  - rewrite (ld_n _ _ _ _ _ _ _ _ _ Htx), (ld_n _ _ _ _ _ _ _ _ _ (wt_tx _ _ _ _ _ _ _ _ _ _ _ _ Hw)). unfold add_block.
    case_decide; [done|]. rewrite length_app. cbn. lia.
  - rewrite (ld_pins _ _ _ _ _ _ _ _ _ Htx). rewrite decide_True; [done|]. apply elem_add_block. by left.
Qed.

(** Witness: block 100 enters the log. *)
Lemma log_write_spec_witness : exists i s' l' P',
  (on_bc (setb i (set_data ones)) ;;; log_write i) (demo_read (demo_idle zeros)) = Ret tt s' /\
  tx 0 2 s' l' ({[(0, 100)]} ∪ ∅) P' ({[i]} ∪ ∅) [100] (add_val 100 ones (fun _ => zeros)) /\ lh_n l' = 1.
Proof.
  destruct (demo_read_ok (demo_idle zeros) demo_idle_tx (proj2 (demo_idle_ok zeros))) as (i & b & Hw & _).
  destruct (log_write_spec 0 2 _ _ _ _ _ _ _ i 100 b ones Hw) as (s' & l' & P' & E & H1 & H2 & _).
  exists i, s', l', P'. exact (conj E (conj H1 H2)).
Defined.
