(* ===== verification/Vm.v ===== *)
(** * kernel/vm.c: page tables and user memory

    Physical memory is the pages that are allocated, by page number; reading or
    writing any other page is a [Fault].  Page table entries are 64-bit
    little-endian words in pages.  [kalloc] gives a page with whatever the
    allocator left in it ([junk]); [kfree] takes it away.  A loop over a range of
    addresses has [fuel] for its rounds.  A range that is copied from or to the
    kernel is a list of bytes. *)

From S2P Require Import Prelude Riscv AllocI Bytes.

Abbreviation page := (list Z).
Abbreviation pmem_t := (gmap Z page).

Record vms (E : Type) := mkvm {
  ve : E;
  pmem : pmem_t;
  kernel_pagetable : Z
}.
Arguments mkvm {E} _ _ _.
Arguments ve {E} _.
Arguments pmem {E} _.
Arguments kernel_pagetable {E} _.

Definition zero_page : page := replicate 4096 0.

Section Vm.
Context {E : Type} `{HasCtx E} `{!Alloc E} (junk : E -> Z -> page).

Definition set_ve (v : E) (s : vms E) : vms E := mkvm v (pmem s) (kernel_pagetable s).
Definition set_pmem (v : pmem_t) (s : vms E) : vms E := mkvm (ve s) v (kernel_pagetable s).
Definition set_kpt (v : Z) (s : vms E) : vms E := mkvm (ve s) (pmem s) v.

Abbreviation V := (M (vms E)).

Definition on_e {A} (m : M E A) : V A := zoom ve set_ve m.

(** ** Memory *)

Definition ld_page (pa : Z) : V page := fun s => unwrap (pmem s !! (pa / PGSIZE)) s.
Definition st_page (pa : Z) (d : page) : V unit :=
  ld_page pa ;;; modify (fun s => set_pmem (<[pa / PGSIZE := d]> (pmem s)) s).

Definition kalloc_page : V Z :=
  p <- on_e (malloc PGSIZE) ;;
  if p =? 0 then ret 0 else
  modify (fun s => set_pmem (<[p / PGSIZE := junk (ve s) p]> (pmem s)) s) ;;;
  ret p.

Definition kfree_page (pa : Z) : V unit :=
  on_e (mfree pa) ;;;
  modify (fun s => set_pmem (base.delete (pa / PGSIZE) (pmem s)) s).

(** [*a] and [*a = v] for an aligned [uint64 *a]. *)
Definition ld64 (a : Z) : V Z := d <- ld_page a ;; ret (get64 (Z.to_nat (a mod PGSIZE)) d).
Definition st64 (a v : Z) : V unit := d <- ld_page a ;; st_page a (put64 (Z.to_nat (a mod PGSIZE)) v d).

(** [memset(pa, 0, PGSIZE)] of a page. *)
Definition clear_page (pa : Z) : V unit := st_page pa zero_page.

(** [memmove(pa, v, n)] and [memmove(dst, pa, n)] within a page. *)
Definition st_bytes (pa : Z) (v : list Z) : V unit := d <- ld_page pa ;; st_page pa (splice (Z.to_nat (pa mod PGSIZE)) v d).
Definition ld_bytes (pa n : Z) : V (list Z) := d <- ld_page pa ;; ret (slice (Z.to_nat (pa mod PGSIZE)) (Z.to_nat n) d).

Definition has (pte bits : Z) : bool := negb (Z.land pte bits =? 0).

(** ** The page table *)

(** The loop over the levels above 0: the level-0 table, or [None] for the
    early return of 0. *)
Fixpoint walk_loop (level : nat) (pagetable va : Z) (alloc : bool) : V (option Z) :=
  match level with
  | O => ret (Some pagetable)
  | S l =>
      let pte := pagetable + 8 * PX (Z.of_nat level) va in
      v <- ld64 pte ;;
      if has v PTE_V then walk_loop l (PTE2PA v) va alloc
      else if negb alloc then ret None
      else
        p <- kalloc_page ;;
        if p =? 0 then ret None else
        clear_page p ;;;
        st64 pte (Z.lor (PA2PTE p) PTE_V) ;;;
        walk_loop l p va alloc
  end.

Definition walk (pagetable va : Z) (alloc : bool) : V Z :=
  if MAXVA <=? va then panic "walk" else
  t <- walk_loop 2 pagetable va alloc ;;
  match t with
  | None => ret 0
  | Some t => ret (t + 8 * PX 0 va)
  end.

Definition walkaddr (pagetable va : Z) : V Z :=
  if MAXVA <=? va then ret 0 else
  pte <- walk pagetable va false ;;
  if pte =? 0 then ret 0 else
  v <- ld64 pte ;;
  if negb (has v PTE_V) then ret 0 else
  if negb (has v PTE_U) then ret 0 else
  ret (PTE2PA v).

Fixpoint mappages_loop (fuel : nat) (pagetable a last pa perm : Z) : V Z :=
  match fuel with
  | O => nofuel
  | S fuel =>
      pte <- walk pagetable a true ;;
      if pte =? 0 then ret (-1) else
      v <- ld64 pte ;;
      if has v PTE_V then panic "remap" else
      st64 pte (Z.lor (Z.lor (PA2PTE pa) perm) PTE_V) ;;;
      if a =? last then ret 0 else
      mappages_loop fuel pagetable (u64 (a + PGSIZE)) last (u64 (pa + PGSIZE)) perm
  end.

Definition mappages (fuel : nat) (pagetable va size pa perm : Z) : V Z :=
  mappages_loop fuel pagetable (PGROUNDDOWN va) (PGROUNDDOWN (u64 (va + size - 1))) pa perm.

Definition kvmmap (fuel : nat) (va pa sz perm : Z) : V unit :=
  kpt <- gets kernel_pagetable ;;
  r <- mappages fuel kpt va sz pa perm ;;
  if negb (r =? 0) then panic "kvmmap" else ret tt.

(** [etext] and [trampoline] are addresses the linker gives. *)
Definition kvminit (fuel : nat) (etext trampoline : Z) : V unit :=
  p <- kalloc_page ;;
  modify (set_kpt p) ;;;
  clear_page p ;;;
  kvmmap fuel UART0 UART0 PGSIZE (Z.lor PTE_R PTE_W) ;;;
  kvmmap fuel (VIRTION 0) (VIRTION 0) PGSIZE (Z.lor PTE_R PTE_W) ;;;
  kvmmap fuel (VIRTION 1) (VIRTION 1) PGSIZE (Z.lor PTE_R PTE_W) ;;;
  kvmmap fuel CLINT CLINT 65536 (Z.lor PTE_R PTE_W) ;;;
  kvmmap fuel PLIC PLIC 4194304 (Z.lor PTE_R PTE_W) ;;;
  kvmmap fuel KERNBASE KERNBASE (u64 (etext - KERNBASE)) (Z.lor PTE_R PTE_X) ;;;
  kvmmap fuel etext etext (u64 (PHYSTOP - etext)) (Z.lor PTE_R PTE_W) ;;;
  kvmmap fuel TRAMPOLINE trampoline PGSIZE (Z.lor PTE_R PTE_X).

Definition kvmpa (va : Z) : V Z :=
  let off := va mod PGSIZE in
  kpt <- gets kernel_pagetable ;;
  pte <- walk kpt va false ;;
  if pte =? 0 then panic "kvmpa" else
  v <- ld64 pte ;;
  if negb (has v PTE_V) then panic "kvmpa" else
  ret (u64 (PTE2PA v + off)).

Fixpoint uvmunmap_loop (fuel : nat) (pagetable a last : Z) (do_free : bool) : V unit :=
  match fuel with
  | O => nofuel
  | S fuel =>
      pte <- walk pagetable a false ;;
      if pte =? 0 then panic "uvmunmap: walk" else
      v <- ld64 pte ;;
      if negb (has v PTE_V) then panic "uvmunmap: not mapped" else
      if PTE_FLAGS v =? PTE_V then panic "uvmunmap: not a leaf" else
      (if do_free then kfree_page (PTE2PA v) else ret tt) ;;;
      st64 pte 0 ;;;
      if a =? last then ret tt else
      uvmunmap_loop fuel pagetable (u64 (a + PGSIZE)) last do_free
  end.

Definition uvmunmap (fuel : nat) (pagetable va size : Z) (do_free : bool) : V unit :=
  uvmunmap_loop fuel pagetable (PGROUNDDOWN va) (PGROUNDDOWN (u64 (va + size - 1))) do_free.

Definition uvmcreate : V Z :=
  pagetable <- kalloc_page ;;
  if pagetable =? 0 then panic "uvmcreate: out of memory" else
  clear_page pagetable ;;;
  ret pagetable.

Definition RWXU : Z := Z.lor (Z.lor (Z.lor PTE_W PTE_R) PTE_X) PTE_U.

Definition uvminit (fuel : nat) (pagetable : Z) (src : list Z) : V unit :=
  if PGSIZE <=? Z.of_nat (length src) then panic "inituvm: more than a page" else
  mem <- kalloc_page ;;
  clear_page mem ;;;
  mappages fuel pagetable 0 PGSIZE mem RWXU ;;;
  st_bytes mem src.

Definition uvmdealloc (fuel : nat) (pagetable oldsz newsz : Z) : V Z :=
  if oldsz <=? newsz then ret oldsz else
  let newup := PGROUNDUP newsz in
  (if newup <? PGROUNDUP oldsz then uvmunmap fuel pagetable newup (u64 (oldsz - newup)) true else ret tt) ;;;
  ret newsz.

Fixpoint uvmalloc_loop (n fuel : nat) (pagetable oldsz a newsz : Z) : V Z :=
  match n with
  | O => nofuel
  | S n =>
      if newsz <=? a then ret newsz else
      mem <- kalloc_page ;;
      if mem =? 0 then uvmdealloc fuel pagetable a oldsz ;;; ret 0 else
      clear_page mem ;;;
      r <- mappages fuel pagetable a PGSIZE mem RWXU ;;
      if negb (r =? 0) then kfree_page mem ;;; uvmdealloc fuel pagetable a oldsz ;;; ret 0 else
      uvmalloc_loop n fuel pagetable oldsz (u64 (a + PGSIZE)) newsz
  end.

Definition uvmalloc (fuel : nat) (pagetable oldsz newsz : Z) : V Z :=
  if newsz <? oldsz then ret oldsz else
  let oldsz := PGROUNDUP oldsz in
  uvmalloc_loop fuel fuel pagetable oldsz oldsz newsz.

(** The entries from [i] on; [rec] is the recursive call. *)
Fixpoint freewalk_loop (rec : Z -> V unit) (n : nat) (pagetable i : Z) : V unit :=
  match n with
  | O => ret tt
  | S n =>
      pte <- ld64 (pagetable + 8 * i) ;;
      (if has pte PTE_V && negb (has pte (Z.lor (Z.lor PTE_R PTE_W) PTE_X)) then
         rec (PTE2PA pte) ;;;
         st64 (pagetable + 8 * i) 0
       else if has pte PTE_V then panic "freewalk: leaf"
       else ret tt) ;;;
      freewalk_loop rec n pagetable (i + 1)
  end.

Fixpoint freewalk (fuel : nat) (pagetable : Z) : V unit :=
  match fuel with
  | O => nofuel
  | S fuel =>
      freewalk_loop (freewalk fuel) 512 pagetable 0 ;;;
      kfree_page pagetable
  end.

Definition uvmfree (fuel : nat) (pagetable sz : Z) : V unit :=
  uvmunmap fuel pagetable 0 sz true ;;;
  freewalk fuel pagetable.

Fixpoint uvmcopy_loop (n fuel : nat) (old new i sz : Z) : V Z :=
  match n with
  | O => nofuel
  | S n =>
      if sz <=? i then ret 0 else
      pte <- walk old i false ;;
      if pte =? 0 then panic "uvmcopy: pte should exist" else
      v <- ld64 pte ;;
      if negb (has v PTE_V) then panic "uvmcopy: page not present" else
      let pa := PTE2PA v in
      let flags := PTE_FLAGS v in
      let err := uvmunmap fuel new 0 i true ;;; ret (-1) in
      mem <- kalloc_page ;;
      if mem =? 0 then err else
      d <- ld_bytes pa PGSIZE ;;
      st_bytes mem d ;;;
      r <- mappages fuel new i PGSIZE mem flags ;;
      if negb (r =? 0) then kfree_page mem ;;; err else
      uvmcopy_loop n fuel old new (u64 (i + PGSIZE)) sz
  end.

Definition uvmcopy (fuel : nat) (old new sz : Z) : V Z := uvmcopy_loop fuel fuel old new 0 sz.

Definition uvmclear (pagetable va : Z) : V unit :=
  pte <- walk pagetable va false ;;
  if pte =? 0 then panic "uvmclear" else
  v <- ld64 pte ;;
  st64 pte (Z.land v (Z.lnot PTE_U)).

(** ** Copying between kernel and user *)

Fixpoint copyout_loop (fuel : nat) (pagetable dstva : Z) (src : list Z) : V Z :=
  match fuel with
  | O => nofuel
  | S fuel =>
      let len := Z.of_nat (length src) in
      if len <=? 0 then ret 0 else
      let va0 := PGROUNDDOWN dstva in
      pa0 <- walkaddr pagetable va0 ;;
      if pa0 =? 0 then ret (-1) else
      let n := PGSIZE - (dstva - va0) in
      let n := if len <? n then len else n in
      st_bytes (pa0 + (dstva - va0)) (take (Z.to_nat n) src) ;;;
      copyout_loop fuel pagetable (u64 (va0 + PGSIZE)) (drop (Z.to_nat n) src)
  end.

(** Every round copies a byte at least. *)
Definition copyout (pagetable dstva : Z) (src : list Z) : V Z := copyout_loop (S (length src)) pagetable dstva src.

(** The result, and the bytes written to [dst]. *)
Fixpoint copyin_loop (fuel : nat) (pagetable srcva len : Z) : V (Z * list Z) :=
  match fuel with
  | O => nofuel
  | S fuel =>
      if len <=? 0 then ret (0, []) else
      let va0 := PGROUNDDOWN srcva in
      pa0 <- walkaddr pagetable va0 ;;
      if pa0 =? 0 then ret (-1, []) else
      let n := PGSIZE - (srcva - va0) in
      let n := if len <? n then len else n in
      d <- ld_bytes (pa0 + (srcva - va0)) n ;;
      r <- copyin_loop fuel pagetable (u64 (va0 + PGSIZE)) (len - n) ;;
      ret (fst r, d ++ snd r)
  end.

Definition copyin (pagetable srcva len : Z) : V (Z * list Z) := copyin_loop (S (Z.to_nat len)) pagetable srcva len.

(** The inner loop over the bytes of one page: what was written to [dst], and
    whether the terminator was among them. *)
Fixpoint copy_until_null (bytes : list Z) : list Z * bool :=
  match bytes with
  | [] => ([], false)
  | b :: r =>
      if b =? 0 then ([0], true)
      else let (d, got) := copy_until_null r in (b :: d, got)
  end.

Fixpoint copyinstr_loop (fuel : nat) (pagetable srcva max : Z) : V (Z * list Z) :=
  match fuel with
  | O => nofuel
  | S fuel =>
      if max <=? 0 then ret (-1, []) else
      let va0 := PGROUNDDOWN srcva in
      pa0 <- walkaddr pagetable va0 ;;
      if pa0 =? 0 then ret (-1, []) else
      let n := PGSIZE - (srcva - va0) in
      let n := if max <? n then max else n in
      d <- ld_bytes (pa0 + (srcva - va0)) n ;;
      let (w, got_null) := copy_until_null d in
      if got_null then ret (0, w) else
      r <- copyinstr_loop fuel pagetable (u64 (va0 + PGSIZE)) (max - n) ;;
      ret (fst r, w ++ snd r)
  end.

Definition copyinstr (pagetable srcva max : Z) : V (Z * list Z) := copyinstr_loop (S (Z.to_nat max)) pagetable srcva max.
End Vm.
