(* ===== verification/VmSpec.v ===== *)
(** * Page tables as maps

    [ptrep m r L1 L0 AS] says that the memory [m] holds at page [r] the three-level
    page table whose level-1 and level-0 tables are the pages of [L1] and [L0] (by
    the index bits above them) and whose entries are [AS], a map from virtual page
    numbers to entries.  The operations of kernel/vm.c are proved against [AS]. *)

From S2P Require Import Prelude Riscv AllocI Bytes Vm.

(** ** Words of a page *)

Definition word (m : pmem_t) (t i : Z) : Z := get64 (Z.to_nat (8 * i)) (default [] (m !! t)).

(** Memory after the word [i] of page [t] was set. *)
Definition wset (m : pmem_t) (t i v : Z) : pmem_t :=
  <[t := put64 (Z.to_nat (8 * i)) v (default [] (m !! t))]> m.

Definition sized (m : pmem_t) : Prop := forall t d, m !! t = Some d -> length d = 4096%nat.

Lemma wset_sized m t i v : sized m -> is_Some (m !! t) -> 0 <= i < 512 -> sized (wset m t i v).
Proof.
  intros Hm [d Hd] Hi t' d'. unfold wset. rewrite lookup_insert. case_decide as E; [|apply Hm]. intros [= <-].
  rewrite Hd. cbn. pose proof (Hm t d Hd). rewrite put64_length; lia.
Qed.

Lemma word_wset_eq m t i v :
  sized m -> is_Some (m !! t) -> 0 <= i < 512 -> 0 <= v < 2 ^ 64 -> word (wset m t i v) t i = v.
Proof.
  intros Hm [d Hd] Hi Hv. unfold word, wset. rewrite lookup_insert_eq, Hd. cbn. pose proof (Hm t d Hd).
  rewrite get64_put64 by lia. by apply u64_small.
Qed.

Lemma word_wset_ne m t i v t' i' :
  sized m -> is_Some (m !! t) -> 0 <= i < 512 -> 0 <= i' < 512 -> (t', i') <> (t, i) -> word (wset m t i v) t' i' = word m t' i'.
Proof.
  intros Hm [d Hd] Hi Hi' Hne. unfold word, wset. rewrite lookup_insert. case_decide as E; [subst t'|done].
  rewrite Hd. cbn. pose proof (Hm t d Hd). apply get64_put64_ne; [|lia].
  assert (i <> i') by congruence. lia.
Qed.

Lemma of_bytes_zeros n : of_bytes (replicate n 0) = 0.
Proof. induction n as [|n IH]; [done|]. cbn [replicate of_bytes]. rewrite IH. done. Qed.

Lemma word_zero m t i : 0 <= i < 512 -> word (<[t := zero_page]> m) t i = 0.
Proof.
  intros Hi. unfold word. rewrite lookup_insert_eq. change (default [] (Some zero_page)) with zero_page. unfold get64, slice, zero_page.
  rewrite drop_replicate, take_replicate. apply of_bytes_zeros.
Qed.

Lemma word_insert_ne m t d t' i : t' <> t -> word (<[t := d]> m) t' i = word m t' i.
Proof. intros Hne. unfold word. by rewrite lookup_insert_ne. Qed.

(** ** The representation *)

Definition is_table (r : Z) (L1 L0 : gmap Z Z) (t : Z) : Prop :=
  t = r \/ (exists i, L1 !! i = Some t) \/ (exists k, L0 !! k = Some t).

(** A table entry that points to table [t], and one that is not valid. *)
Definition points (w : Z) (o : option Z) : Prop :=
  match o with Some t => w = t * 1024 + 1 | None => Z.land w 1 = 0 end.

(** A leaf entry: a page number and flags with the valid bit. *)
Definition pte_ok (pte : Z) : Prop :=
  exists pn f, 0 <= pn < 2 ^ 44 /\ 0 <= f < 1024 /\ Z.odd f = true /\ pte = pn * 1024 + f.

Definition leaf (w : Z) (o : option Z) : Prop :=
  match o with Some pte => w = pte | None => Z.land w 1 = 0 end.

Record ptrep (m : pmem_t) (r : Z) (L1 L0 AS : gmap Z Z) : Prop := {
  pr_page : forall t, is_table r L1 L0 t -> is_Some (m !! t) /\ 0 < t < 2 ^ 44;
  pr_sized : sized m;
  pr_root : forall i, 0 <= i < 512 -> points (word m r i) (L1 !! i);
  pr_mid : forall i t j, L1 !! i = Some t -> 0 <= j < 512 -> points (word m t j) (L0 !! (i * 512 + j));
  pr_leaf : forall k t x, L0 !! k = Some t -> 0 <= x < 512 -> leaf (word m t x) (AS !! (k * 512 + x));
  pr_dom1 : forall i t, L1 !! i = Some t -> 0 <= i < 512;
  pr_dom0 : forall k t, L0 !! k = Some t -> is_Some (L1 !! (k / 512));
  pr_dom : forall v pte, AS !! v = Some pte -> is_Some (L0 !! (v / 512)) /\ pte_ok pte;
  pr_inj1 : forall i j t, L1 !! i = Some t -> L1 !! j = Some t -> i = j;
  pr_inj0 : forall i j t, L0 !! i = Some t -> L0 !! j = Some t -> i = j;
  pr_ne1 : forall i t, L1 !! i = Some t -> t <> r;
  pr_ne0 : forall k t, L0 !! k = Some t -> t <> r /\ forall i, L1 !! i <> Some t
}.

Arguments pr_page {m r L1 L0 AS} _.
Arguments pr_sized {m r L1 L0 AS} _.
Arguments pr_root {m r L1 L0 AS} _.
Arguments pr_mid {m r L1 L0 AS} _.
Arguments pr_leaf {m r L1 L0 AS} _.
Arguments pr_dom1 {m r L1 L0 AS} _.
Arguments pr_dom0 {m r L1 L0 AS} _.
Arguments pr_dom {m r L1 L0 AS} _.
Arguments pr_inj1 {m r L1 L0 AS} _.
Arguments pr_inj0 {m r L1 L0 AS} _.
Arguments pr_ne1 {m r L1 L0 AS} _.
Arguments pr_ne0 {m r L1 L0 AS} _.

Lemma table_root r L1 L0 : is_table r L1 L0 r.
Proof. by left. Qed.

Lemma table_mid r L1 L0 i t : L1 !! i = Some t -> is_table r L1 L0 t.
Proof. right; left; eauto. Qed.

Lemma table_leaf r L1 L0 k t : L0 !! k = Some t -> is_table r L1 L0 t.
Proof. right; right; eauto. Qed.

Create HintDb vm.
#[export] Hint Resolve table_root table_mid table_leaf : vm.

(** Memory that agrees on the tables holds the same page table. *)
Lemma ptrep_frame m m' r L1 L0 AS :
  ptrep m r L1 L0 AS -> sized m' -> (forall t, is_table r L1 L0 t -> m' !! t = m !! t) -> ptrep m' r L1 L0 AS.
Proof.
  intros Hp Hs Hm. assert (Hw : forall t i, is_table r L1 L0 t -> word m' t i = word m t i).
  { intros t i Ht. unfold word. by rewrite Hm. }
  split; try apply Hp; [intros t Ht; rewrite Hm by done; by apply (pr_page Hp)|done|..].
  - intros i Hi. rewrite Hw by auto with vm. by apply (pr_root Hp).
  - intros i t j Ht Hj. rewrite Hw by eauto with vm. by apply (pr_mid Hp).
  - intros k t x Ht Hx. rewrite Hw by eauto with vm. by apply (pr_leaf Hp).
Qed.

(** ** Changing the page table *)

Lemma fresh_not_table m r L1 L0 AS t : ptrep m r L1 L0 AS -> m !! t = None -> ~ is_table r L1 L0 t.
Proof. intros Hp Hm Ht. destruct (pr_page Hp t Ht) as [[d Hd] _]. congruence. Qed.

Lemma zero_sized m t : sized m -> sized (<[t := zero_page]> m).
Proof.
  intros Hm t' d'. rewrite lookup_insert. case_decide; [intros [= <-]; apply length_replicate|apply Hm].
Qed.

(** The words after a fresh table [t] was linked at word [i] of table [q]. *)
Lemma word_grow m q i t u j :
  sized m -> is_Some (m !! q) -> t <> q -> 0 <= i < 512 -> 0 <= j < 512 -> 0 < t < 2 ^ 44 ->
  word (wset (<[t := zero_page]> m) q i (t * 1024 + 1)) u j =
    if decide (u = q /\ j = i) then t * 1024 + 1 else if decide (u = t) then 0 else word m u j.
Proof.
  intros Hm Hq Htq Hi Hj Ht. pose proof (zero_sized m t Hm) as Hz.
  assert (Hq' : is_Some (<[t := zero_page]> m !! q)) by (rewrite lookup_insert_ne by done; done).
  destruct (decide (u = q /\ j = i)) as [[-> ->]|Hne]; [apply word_wset_eq; [done|done|done|lia]|].
  rewrite word_wset_ne; [|done|done|done|done|intros [= -> ->]; tauto].
  destruct (decide (u = t)) as [->|Hut]; [by apply word_zero|by apply word_insert_ne].
Qed.

(** Tables of the grown page table are in memory. *)
Lemma page_grow m q i t v u :
  is_Some (m !! u) \/ u = t -> is_Some (wset (<[t := zero_page]> m) q i v !! u).
Proof.
  intros Hu. unfold wset. rewrite lookup_insert. case_decide; [eauto|]. rewrite lookup_insert. case_decide; [eauto|].
  destruct Hu as [Hu| ->]; [done|congruence].
Qed.

Lemma grow1 m r L1 L0 AS i t :
  ptrep m r L1 L0 AS -> L1 !! i = None -> 0 <= i < 512 -> m !! t = None -> 0 < t < 2 ^ 44 ->
  ptrep (wset (<[t := zero_page]> m) r i (t * 1024 + 1)) r (<[i := t]> L1) L0 AS.
Proof.
  intros Hp Hi Hir Hmt Ht. pose proof (fresh_not_table _ _ _ _ _ _ Hp Hmt) as Hnt. pose proof (pr_sized Hp) as Hs.
  destruct (pr_page Hp r (table_root _ _ _)) as [Hr _]. assert (Htr : t <> r) by (intros ->; apply Hnt; auto with vm).
  pose proof (fun u j Hj => word_grow m r i t u j Hs Hr Htr Hir Hj Ht) as Hw.
  assert (Ht1 : forall j, L1 !! j <> Some t) by (intros j Hj; apply Hnt; eauto with vm).
  assert (Ht0 : forall k, L0 !! k <> Some t) by (intros k Hk; apply Hnt; eauto with vm). split.
  - intros u Hu. assert (Hold : is_table r L1 L0 u \/ u = t).
    { destruct Hu as [->|[[j Hj]|[k Hk]]]; [left; auto with vm| |left; eauto with vm].
      rewrite lookup_insert in Hj. case_decide; [right; congruence|left; eauto with vm]. }
    destruct Hold as [Hold|Hold]; [|split; [apply page_grow; by right|by subst u]].
    destruct (pr_page Hp u Hold) as [H1 H2]. split; [apply page_grow; by left|done].
  - apply wset_sized; [by apply zero_sized|by rewrite lookup_insert_ne|done].
  - intros j Hj. rewrite Hw by done. rewrite lookup_insert. destruct (decide (r = r /\ j = i)) as [[_ ->]|Hne].
    + by rewrite decide_True.
    + rewrite (decide_False (P := r = t)) by done. rewrite decide_False by naive_solver. by apply (pr_root Hp).
  - intros j q x Hq Hx. rewrite Hw by done. rewrite lookup_insert in Hq. case_decide as E.
    + injection Hq as <-. subst j. rewrite decide_False by naive_solver. rewrite decide_True by done.
      destruct (L0 !! (i * 512 + x)) eqn:E0; [|done]. destruct (pr_dom0 Hp _ _ E0) as [q Hq].
      replace ((i * 512 + x) / 512) with i in Hq by (apply Z.div_unique with x; lia). congruence.
    + rewrite decide_False by (intros [-> _]; by apply (pr_ne1 Hp j r)). rewrite decide_False by (intros ->; by apply (Ht1 j)).
      by apply (pr_mid Hp).
  - intros k q x Hq Hx. rewrite Hw by done. destruct (pr_ne0 Hp k q Hq) as [Hqr _].
    rewrite decide_False by naive_solver. rewrite decide_False by (intros ->; by apply (Ht0 k)). by apply (pr_leaf Hp).
  - intros j q. rewrite lookup_insert. case_decide; [intros _; by subst j|apply (pr_dom1 Hp)].
  - intros k q Hq. rewrite lookup_insert. case_decide; [eauto|by apply (pr_dom0 Hp k q)].
  - apply (pr_dom Hp).
  - intros j j' q. rewrite !lookup_insert. repeat case_decide; [congruence|intros [= <-] Hj; by apply Ht1 in Hj| |apply (pr_inj1 Hp)].
    intros Hj [= <-]. by apply Ht1 in Hj.
  - apply (pr_inj0 Hp).
  - intros j q. rewrite lookup_insert. case_decide; [intros [= <-]; done|apply (pr_ne1 Hp)].
  - intros k q Hq. split; [apply (pr_ne0 Hp k q Hq)|]. intros j. rewrite lookup_insert. case_decide; [|apply (pr_ne0 Hp k q Hq)].
    intros [= <-]. by apply (Ht0 k).
Qed.

Lemma grow0 m r L1 L0 AS i j q t :
  ptrep m r L1 L0 AS -> L1 !! i = Some q -> 0 <= j < 512 -> L0 !! (i * 512 + j) = None -> m !! t = None -> 0 < t < 2 ^ 44 ->
  ptrep (wset (<[t := zero_page]> m) q j (t * 1024 + 1)) r L1 (<[i * 512 + j := t]> L0) AS.
Proof.
  intros Hp Hi Hjr Hk Hmt Ht. pose proof (fresh_not_table _ _ _ _ _ _ Hp Hmt) as Hnt. pose proof (pr_sized Hp) as Hs.
  destruct (pr_page Hp q ltac:(eauto with vm)) as [Hq _]. assert (Htq : t <> q) by (intros ->; apply Hnt; eauto with vm).
  assert (Htr : t <> r) by (intros ->; apply Hnt; auto with vm).
  pose proof (fun u x Hx => word_grow m q j t u x Hs Hq Htq Hjr Hx Ht) as Hw. set (k := i * 512 + j) in *.
  assert (Ht1 : forall x, L1 !! x <> Some t) by (intros x Hx; apply Hnt; eauto with vm).
  assert (Ht0 : forall x, L0 !! x <> Some t) by (intros x Hx; apply Hnt; eauto with vm). split.
  - intros u Hu. assert (Hold : is_table r L1 L0 u \/ u = t).
    { destruct Hu as [->|[[x Hx]|[x Hx]]]; [left; auto with vm|left; eauto with vm|].
      rewrite lookup_insert in Hx. case_decide; [right; congruence|left; eauto with vm]. }
    destruct Hold as [Hold|Hold]; [|split; [apply page_grow; by right|by subst u]].
    destruct (pr_page Hp u Hold) as [H1 H2]. split; [apply page_grow; by left|done].
  - apply wset_sized; [by apply zero_sized|by rewrite lookup_insert_ne|done].
  - intros x Hx. rewrite Hw by done. rewrite decide_False by (intros [-> _]; by apply (pr_ne1 Hp i q)).
    rewrite decide_False by done. by apply (pr_root Hp).
  - intros x u y Hu Hy. rewrite Hw by done. rewrite lookup_insert. destruct (decide (u = q /\ y = j)) as [[-> ->]|Hne].
    + rewrite (pr_inj1 Hp x i q Hu Hi). by rewrite decide_True.
    + rewrite decide_False by (intros ->; by apply (Ht1 x)). rewrite decide_False; [by apply (pr_mid Hp)|].
      intros He. apply Hne. assert (x = i /\ y = j) as [-> ->] by (pose proof (pr_dom1 Hp _ _ Hu); pose proof (pr_dom1 Hp _ _ Hi); unfold k in He; lia).
      split; congruence.
  - intros x u y Hu Hy. rewrite Hw by done. rewrite lookup_insert in Hu. case_decide as E.
    + injection Hu as <-. subst x. rewrite decide_False by naive_solver. rewrite decide_True by done.
      destruct (AS !! (k * 512 + y)) eqn:E0; [|done]. destruct (pr_dom Hp _ _ E0) as [[z0 Hz] _].
      replace ((k * 512 + y) / 512) with k in Hz by (apply Z.div_unique with y; lia). congruence.
    + destruct (pr_ne0 Hp x u Hu) as [_ Hu1]. rewrite decide_False by (intros [-> _]; by apply (Hu1 i)).
      rewrite decide_False by (intros ->; by apply (Ht0 x)). by apply (pr_leaf Hp).
  - apply (pr_dom1 Hp).
  - intros x u. rewrite lookup_insert. case_decide as E; [|apply (pr_dom0 Hp)]. intros _. subst x. unfold k.
    replace ((i * 512 + j) / 512) with i by (apply Z.div_unique with j; lia). eauto.
  - intros v pte Hv. destruct (pr_dom Hp v pte Hv) as [H1 H2]. split; [|done]. rewrite lookup_insert. case_decide; eauto.
  - apply (pr_inj1 Hp).
  - intros x y u. rewrite !lookup_insert. repeat case_decide; [congruence|intros [= <-] Hx; by apply Ht0 in Hx| |apply (pr_inj0 Hp)].
    intros Hx [= <-]. by apply Ht0 in Hx.
  - apply (pr_ne1 Hp).
  - intros x u. rewrite lookup_insert. case_decide; [intros [= <-]; done|apply (pr_ne0 Hp)].
Qed.

(** Setting the entry of virtual page [k * 512 + x], in its table [t]. *)
Lemma set_leaf m r L1 L0 AS k t x w o :
  ptrep m r L1 L0 AS -> L0 !! k = Some t -> 0 <= x < 512 -> 0 <= w < 2 ^ 64 -> leaf w o -> (forall pte, o = Some pte -> pte_ok pte) ->
  ptrep (wset m t x w) r L1 L0 (partial_alter (fun _ => o) (k * 512 + x) AS).
Proof.
  intros Hp Hk Hx Hw Hl Ho. pose proof (pr_sized Hp) as Hs. destruct (pr_page Hp t ltac:(eauto with vm)) as [Ht _].
  destruct (pr_ne0 Hp k t Hk) as [Htr Ht1]. split; try apply Hp.
  - intros u Hu. destruct (pr_page Hp u Hu) as [H1 H2]. split; [|done]. unfold wset. rewrite lookup_insert. case_decide; eauto.
  - by apply wset_sized.
  - intros i Hi. rewrite word_wset_ne; try done; [by apply (pr_root Hp)|congruence].
  - intros i u j Hu Hj. rewrite word_wset_ne; try done; [by apply (pr_mid Hp)|]. intros [= -> _]. by apply (Ht1 i).
  - intros k' u y Hu Hy. destruct (decide (k' * 512 + y = k * 512 + x)) as [E|E].
    + assert (k' = k /\ y = x) as [-> ->] by lia. assert (u = t) as -> by congruence.
      rewrite lookup_partial_alter_eq. by rewrite word_wset_eq.
    + rewrite lookup_partial_alter_ne by done. rewrite word_wset_ne; try done; [by apply (pr_leaf Hp)|].
      intros [= -> ->]. apply E. by rewrite (pr_inj0 Hp k' k t Hu Hk).
  - intros v pte Hv. destruct (decide (v = k * 512 + x)) as [->|E].
    + rewrite lookup_partial_alter_eq in Hv. split; [|by apply Ho]. replace ((k * 512 + x) / 512) with k by (apply Z.div_unique with x; lia). eauto.
    + rewrite lookup_partial_alter_ne in Hv by done. by apply (pr_dom Hp).
Qed.

(** ** The allocator as vm.c uses it: whole pages *)

Class PageAlloc (E : Type) `{Alloc E} := {
  pa_inv : E -> Prop;
  pa_alloc e : pa_inv e -> alloc_inv e /\ cx_wf (cx e) /\ alloc_lock ∉ held (cx e);
  (** A page is aligned, and its number fits in a page table entry. *)
  pa_malloc e p e' : pa_inv e -> malloc PGSIZE e = Ret p e' ->
    pa_inv e' /\ (p <> 0 -> exists t, p = t * PGSIZE /\ 0 < t < 2 ^ 44);
  pa_mfree e p z e' : pa_inv e -> live e p z -> mfree p e = Ret tt e' -> pa_inv e'
}.

Section Run.
Context {E : Type} {Ecx : HasCtx E} {Eal : Alloc E} {Epa : PageAlloc E} (junk : E -> Z -> page).
Context (junk_length : forall e p, length (junk e p) = 4096%nat).

(** Every page of memory is allocated. *)
Record vinv (s : vms E) : Prop := {
  vi_env : pa_inv (ve s);
  vi_sized : sized (pmem s);
  vi_live : forall t d, pmem s !! t = Some d -> 0 < t < 2 ^ 44 /\ exists z, live (ve s) (t * PGSIZE) z
}.

Lemma on_e_ok {A} (m : M E A) (s : vms E) a e : m (ve s) = Ret a e -> on_e m s = Ret a (set_ve e s).
Proof. intros Hm. unfold on_e. by apply zoom_ret. Qed.

Lemma kalloc_ok s :
  vinv s -> exists p s', kalloc_page junk s = Ret p s' /\ vinv s' /\ kernel_pagetable s' = kernel_pagetable s /\
    (p = 0 /\ pmem s' = pmem s \/
     exists t d, p = t * PGSIZE /\ 0 < t < 2 ^ 44 /\ pmem s !! t = None /\ pmem s' = <[t := d]> (pmem s) /\ length d = 4096%nat).
Proof.
  intros [Hi Hs Hl]. destruct (pa_alloc _ Hi) as (Ha & Hw & Hu).
  destruct (malloc_spec (ve s) PGSIZE Ha Hw Hu) as (p & e & E1 & Ha' & _ & _ & Hp); [unfold PGSIZE; lia|].
  destruct (pa_malloc _ _ _ Hi E1) as [Hi' Hal]. unfold kalloc_page. run (on_e_ok _ _ _ _ E1).
  destruct (Z.eqb_spec p 0) as [->|Hne].
  - exists 0, (set_ve e s). split_and!; [done| |done|by left]. destruct Hp as [[_ Hlv]|(z & Hz & _ & _ & Hlv)].
    + split; [done|done|]. intros t d Ht. destruct (Hl t d Ht) as [H1 [z Hz]]. split; [done|]. exists z. by apply Hlv.
    + exfalso. destruct (live_pos e 0 z Ha'); [apply Hlv; by right|lia].
  - destruct (Hal Hne) as (t & -> & Ht). destruct Hp as [[Hp0 _]|(z & Hz & _ & Hfr & Hlv)]; [done|]. mstep.
    assert (Et : t * PGSIZE / PGSIZE = t) by (apply Z.div_mul; unfold PGSIZE; lia).
    eexists _, _. split; [done|]. cbn. rewrite Et. split_and!; [|done|right; eexists t, _; split_and!; [done|lia|lia| |done|apply junk_length]].
    + split; [done| |].
      * intros t' d'. cbn. rewrite lookup_insert. case_decide; [intros [= <-]; apply junk_length|apply Hs].
      * intros t' d'. cbn. rewrite lookup_insert. case_decide as E2.
        -- intros _. subst t'. split; [done|]. exists z. apply Hlv. by right.
        -- intros Ht'. destruct (Hl t' d' Ht') as [H1 [z' Hz']]. split; [done|]. exists z'. apply Hlv. by left.
    + destruct (pmem s !! t) as [d|] eqn:Ed; [|done]. destruct (Hl t d Ed) as [_ [y Hy]]. by apply Hfr in Hy.
Qed.

Lemma kfree_ok s t d :
  vinv s -> pmem s !! t = Some d ->
  exists s', kfree_page (t * PGSIZE) s = Ret tt s' /\ vinv s' /\ kernel_pagetable s' = kernel_pagetable s /\
    pmem s' = base.delete t (pmem s).
Proof.
  intros [Hi Hs Hl] Ht. destruct (Hl t d Ht) as [Htr [z Hz]]. destruct (pa_alloc _ Hi) as (Ha & Hw & Hu).
  destruct (mfree_spec (ve s) _ z Ha Hw Hu Hz) as (e & E1 & Ha' & _ & _ & Hlv).
  unfold kfree_page. run (on_e_ok _ _ _ _ E1). unfold modify. cbn.
  assert (Et : t * PGSIZE / PGSIZE = t) by (apply Z.div_mul; unfold PGSIZE; lia). rewrite Et.
  eexists. split; [done|]. split_and!; [|done|done]. split; cbn.
  - by eapply pa_mfree.
  - intros t' d' Ht'. apply lookup_delete_Some in Ht' as [_ Ht']. by apply (Hs t').
  - intros t' d' Ht'. apply lookup_delete_Some in Ht' as [Hne Ht']. destruct (Hl t' d' Ht') as [H1 [z' Hz']].
    split; [done|]. exists z'. apply Hlv. split; [done|]. unfold PGSIZE. lia.
Qed.

(** [n] more pages can be allocated. *)
Fixpoint rich (n : nat) (e : E) : Prop :=
  match n with
  | O => True
  | S n => exists p e', malloc PGSIZE e = Ret p e' /\ p <> 0 /\ rich n e'
  end.

(** A step takes at most [k] pages. *)
Definition spends (k : nat) (s s' : vms E) : Prop := forall n, rich (k + n) (ve s) -> rich n (ve s').

Lemma rich_less k n e : rich (k + n) e -> rich n e.
Proof.
  revert k e. induction n as [|n IH]; intros k e; [done|]. rewrite Nat.add_succ_r. intros (p & e' & E1 & Hp & Hr). exists p, e'. eauto.
Qed.

Lemma spends_keep k s s' : ve s' = ve s -> spends k s s'.
Proof. intros Es n Hr. rewrite Es. by eapply rich_less. Qed.

Lemma spends_more k k' s s' : spends k s s' -> spends (k + k') s s'.
Proof. intros Hs n Hr. apply (rich_less k'), Hs. by rewrite Nat.add_assoc. Qed.

Lemma spends_trans k k' s s1 s' : spends k s s1 -> spends k' s1 s' -> spends (k + k') s s'.
Proof. intros H1 H2 n Hr. apply H2, H1. by rewrite Nat.add_assoc. Qed.

Lemma spends_short k k' s s' : spends k s s' -> ~ rich k' (ve s') -> ~ rich (k + k') (ve s).
Proof. intros Hs Hn Hr. by apply Hn, Hs. Qed.

Lemma kalloc_rich s p s' : kalloc_page junk s = Ret p s' -> spends 1 s s' /\ (p = 0 -> ~ rich 1 (ve s)).
Proof.
  unfold kalloc_page. intros (q & s1 & E1 & Hk)%bind_inv. unfold on_e, zoom in E1.
  destruct (malloc PGSIZE (ve s)) as [q' e'| | | |] eqn:E2; try done. cbn in E1. injection E1 as -> <-.
  assert (Hs : p = q /\ ve s' = e').
  { destruct (Z.eqb_spec q 0) as [->|_]; [by injection Hk as <- <-|]. apply bind_inv in Hk as (? & s2 & E3 & E4). injection E3 as <- <-. by injection E4 as <- <-. }
  destruct Hs as [-> Hv]. split.
  - intros n (p' & e & E3 & _ & Hr). rewrite Hv. rewrite E2 in E3. by injection E3 as _ ->.
  - intros -> (p' & e & E3 & Hne & _). rewrite E2 in E3. by injection E3 as <- _.
Qed.

Lemma ld_page_ve (s : vms E) pa d s' : ld_page pa s = Ret d s' -> s' = s.
Proof. unfold ld_page. destruct (pmem s !! (pa / PGSIZE)); intros Hr; [by injection Hr|done]. Qed.

Lemma st_page_ve (s : vms E) pa d u s' : st_page pa d s = Ret u s' -> ve s' = ve s.
Proof. unfold st_page. intros (? & s1 & E1%ld_page_ve & E2)%bind_inv. subst s1. by injection E2 as _ <-. Qed.

Lemma ld64_ve (s : vms E) a v s' : ld64 a s = Ret v s' -> s' = s.
Proof. unfold ld64. intros (? & s1 & E1%ld_page_ve & E2)%bind_inv. subst s1. by injection E2. Qed.

Lemma st64_ve (s : vms E) a v u s' : st64 a v s = Ret u s' -> ve s' = ve s.
Proof. unfold st64. intros (? & s1 & E1%ld_page_ve & E2)%bind_inv. subst s1. by apply st_page_ve in E2. Qed.

Lemma walk_rich l : forall pagetable va s o s',
  walk_loop junk l pagetable va true s = Ret o s' -> spends l s s' /\ (o = None -> ~ rich l (ve s)).
Proof.
  induction l as [|l IH]; intros pagetable va s o s'; cbn [walk_loop negb].
  { intros Hr. injection Hr as <- <-. split; [by intros n|done]. }
  intros (v & s1 & E1%ld64_ve & E2)%bind_inv. subst s1. destruct (has v PTE_V).
  { destruct (IH _ _ _ _ _ E2) as [Hs Ho]. split.
    - intros n Hr. apply Hs. by apply (rich_less 1).
    - intros Hn Hr. by apply (Ho Hn), (rich_less 1). }
  apply bind_inv in E2 as (p & s1 & E1 & E2). destruct (kalloc_rich s p s1 E1) as [Hs1 Hp].
  destruct (Z.eqb_spec p 0) as [Hp0|Hp0].
  { injection E2 as <- <-. split; [|intros _ Hr; apply (Hp Hp0); apply (rich_less l); by rewrite Nat.add_1_r].
    intros n Hr. apply (rich_less l). by apply Hs1. }
  apply bind_inv in E2 as (u & s2 & E2%st_page_ve & E3). apply bind_inv in E3 as (u' & s3 & E3%st64_ve & E4).
  destruct (IH _ _ _ _ _ E4) as [Hs Ho]. unfold spends in Hs. rewrite E3, E2 in Hs, Ho.
  split; [by apply (spends_trans 1 l s s1)|]. intros Hn. apply (spends_short 1 l s s1); auto.
Qed.

(** Words of a page, by their address. *)
Lemma word_addr t i : 0 <= i < 512 -> (t * PGSIZE + 8 * i) / PGSIZE = t /\ (t * PGSIZE + 8 * i) mod PGSIZE = 8 * i.
Proof.
  intros Hi. unfold PGSIZE. split; [symmetry; apply Z.div_unique with (8 * i); lia|symmetry; apply Z.mod_unique with t; lia].
Qed.

Lemma ld_page_ok (s : vms E) pa d : pmem s !! (pa / PGSIZE) = Some d -> ld_page pa s = Ret d s.
Proof. intros Hd. unfold ld_page. by rewrite Hd. Qed.

Lemma st_page_ok (s : vms E) pa v :
  is_Some (pmem s !! (pa / PGSIZE)) -> st_page pa v s = Ret tt (set_pmem (<[pa / PGSIZE := v]> (pmem s)) s).
Proof. intros [d Hd]. unfold st_page. by run (ld_page_ok s pa d Hd). Qed.

Lemma ld64_ok (s : vms E) t i :
  is_Some (pmem s !! t) -> 0 <= i < 512 -> ld64 (t * PGSIZE + 8 * i) s = Ret (word (pmem s) t i) s.
Proof.
  intros [d Hd] Hi. destruct (word_addr t i Hi) as [E1 E2]. unfold ld64. rewrite <- E1 in Hd.
  run (ld_page_ok s _ d Hd). rewrite E2. unfold word. rewrite E1 in Hd. by rewrite Hd.
Qed.

Lemma st64_ok (s : vms E) t i v :
  is_Some (pmem s !! t) -> 0 <= i < 512 -> st64 (t * PGSIZE + 8 * i) v s = Ret tt (set_pmem (wset (pmem s) t i v) s).
Proof.
  intros [d Hd] Hi. destruct (word_addr t i Hi) as [E1 E2]. unfold st64. rewrite <- E1 in Hd.
  run (ld_page_ok s _ d Hd). rewrite st_page_ok by eauto. rewrite E2, E1. unfold wset. rewrite E1 in Hd. by rewrite Hd.
Qed.

Lemma vinv_pmem s m : vinv s -> sized m -> (forall t, is_Some (m !! t) -> is_Some (pmem s !! t)) -> vinv (set_pmem m s).
Proof.
  intros [Hi Hs Hl] Hm Hd. split; [done|done|]. cbn. intros t d Ht. destruct (Hd t ltac:(eauto)) as [d' Hd']. by apply (Hl t d').
Qed.

(** ** walk *)

Lemma has_points w o : points w o -> has w PTE_V = match o with Some _ => true | None => false end.
Proof.
  unfold points, has, PTE_V. destruct o as [t|]; [intros ->|by intros ->].
  replace (t * 1024 + 1) with ((t * 512) * 2 + 1) by lia. change 1 with (Z.ones 1) at 2. rewrite Z.land_ones by lia.
  change (2 ^ 1) with 2. rewrite Z.add_comm, Z.mod_add by lia. done.
Qed.

Lemma points_pa w t : points w (Some t) -> 0 < t < 2 ^ 44 -> PTE2PA w = t * PGSIZE.
Proof. cbn. intros -> Ht. apply PTE2PA_eq; lia. Qed.

(** The indices of an address. *)
Record indexed (va i j x : Z) : Prop := {
  ix_2 : PX 2 va = i;
  ix_1 : PX 1 va = j;
  ix_0 : PX 0 va = x;
  ix_i : 0 <= i < 512;
  ix_j : 0 <= j < 512;
  ix_x : 0 <= x < 512;
  ix_v : va / PGSIZE = (i * 512 + j) * 512 + x
}.

Lemma index_va va : 0 <= va < MAXVA -> exists i j x, indexed va i j x.
Proof.
  intros Hva. change MAXVA with (2 ^ 38) in Hva. exists (PX 2 va), (PX 1 va), (PX 0 va).
  split; try done; try (by apply PX_range). rewrite !PX_eq by lia. unfold PGSIZE. cbn [Z.mul Z.add Pos.mul Pos.add].
  change (2 ^ (12 + 9 * 2)) with 1073741824. change (2 ^ (12 + 9 * 1)) with 2097152. change (2 ^ (12 + 9 * 0)) with 4096. dlia.
Qed.

(** Looking up. *)
Lemma walk_look s r L1 L0 AS va i j x b :
  ptrep (pmem s) r L1 L0 AS -> 0 <= va < MAXVA -> indexed va i j x -> (b = true -> is_Some (L0 !! (i * 512 + j))) ->
  walk junk (r * PGSIZE) va b s =
    Ret (match L0 !! (i * 512 + j) with Some t => t * PGSIZE + 8 * x | None => 0 end) s.
Proof.
  intros Hp Hva [H2 H1 H0 Hi Hj Hx _] Hb. unfold walk. rewrite (proj2 (Z.leb_gt _ _)) by lia.
  cbn [walk_loop]. change (Z.of_nat 2) with 2. change (Z.of_nat 1) with 1. rewrite H2, H1, H0.
  destruct (pr_page Hp r (table_root _ _ _)) as [Hr _]. pose proof (pr_root Hp i Hi) as Hw.
  rewrite (bind_ret_l _ _ s (match L0 !! (i * 512 + j) with Some t => Some (t * PGSIZE) | None => None end) s).
  { by destruct (L0 !! (i * 512 + j)). }
  run (ld64_ok s r i Hr Hi). rewrite (has_points _ _ Hw). destruct (L1 !! i) as [q|] eqn:E1.
  - destruct (pr_page Hp q ltac:(eauto with vm)) as [Hq Hqr]. rewrite (points_pa _ _ Hw Hqr). run (ld64_ok s q j Hq Hj).
    pose proof (pr_mid Hp i q j E1 Hj) as Hw1. rewrite (has_points _ _ Hw1). destruct (L0 !! (i * 512 + j)) as [t|] eqn:E0; [|destruct b; [by destruct (Hb eq_refl)|done]].
    destruct (pr_page Hp t ltac:(eauto with vm)) as [_ Htr]. by rewrite (points_pa _ _ Hw1 Htr).
  - destruct (L0 !! (i * 512 + j)) as [t|] eqn:E0; [|destruct b; [by destruct (Hb eq_refl)|done]]. destruct (pr_dom0 Hp _ _ E0) as [q Hq].
    replace ((i * 512 + j) / 512) with i in Hq by (apply Z.div_unique with j; lia). congruence.
Qed.

Lemma walk_ok s r L1 L0 AS va i j x :
  ptrep (pmem s) r L1 L0 AS -> 0 <= va < MAXVA -> indexed va i j x ->
  walk junk (r * PGSIZE) va false s =
    Ret (match L0 !! (i * 512 + j) with Some t => t * PGSIZE + 8 * x | None => 0 end) s.
Proof. intros Hp Hva Hix. by apply (walk_look s r L1 L0 AS va i j x). Qed.

(** What growing a page table keeps. *)
Record grown (s s' : vms E) (r : Z) (L1 L0 L1' L0' : gmap Z Z) : Prop := {
  gr_kpt : kernel_pagetable s' = kernel_pagetable s;
  gr_keep : forall t d, pmem s !! t = Some d -> ~ is_table r L1 L0 t -> pmem s' !! t = Some d;
  gr_dom : forall t, is_Some (pmem s !! t) -> is_Some (pmem s' !! t);
  gr_new : forall t, is_table r L1' L0' t -> is_table r L1 L0 t \/ pmem s !! t = None;
  gr_old : forall t, is_table r L1 L0 t -> is_table r L1' L0' t;
  gr_only : forall t, is_Some (pmem s' !! t) -> is_Some (pmem s !! t) \/ is_table r L1' L0' t
}.

Arguments gr_kpt {s s' r L1 L0 L1' L0'} _.
Arguments gr_keep {s s' r L1 L0 L1' L0'} _.
Arguments gr_dom {s s' r L1 L0 L1' L0'} _.
Arguments gr_new {s s' r L1 L0 L1' L0'} _.
Arguments gr_old {s s' r L1 L0 L1' L0'} _.
Arguments gr_only {s s' r L1 L0 L1' L0'} _.

Lemma grown_refl s r L1 L0 : grown s s r L1 L0 L1 L0.
Proof. split; auto. Qed.

Lemma grown_trans s s1 s2 r L1 L0 M1 M0 N1 N0 :
  grown s s1 r L1 L0 M1 M0 -> grown s1 s2 r M1 M0 N1 N0 -> grown s s2 r L1 L0 N1 N0.
Proof.
  intros [A1 A2 A3 A4 A5 A6] [B1 B2 B3 B4 B5 B6]. split; [congruence| |auto| |auto|].
  - intros t d Ht Hn. apply B2; [by apply A2|]. intros Hm. destruct (A4 t Hm) as [Ho|Ho]; [done|congruence].
  - intros t Ht. destruct (B4 t Ht) as [Hm|Hm]; [by apply A4|]. right. destruct (pmem s !! t) as [d|] eqn:Et; [|done].
    destruct (A3 t ltac:(eauto)) as [d' Hd']. congruence.
  - intros t Ht. destruct (B6 t Ht) as [Hm|Hm]; [|auto]. destruct (A6 t Hm); auto.
Qed.

(** A fresh table is linked at word [j] of table [q], or memory is out. *)
Lemma link_table_ok {B} s q j (K : Z -> M (vms E) (option B)) :
  vinv s -> is_Some (pmem s !! q) -> 0 <= j < 512 ->
  let run := (p <- kalloc_page junk ;; (if p =? 0 then ret None else
    clear_page p ;;; st64 (q * PGSIZE + 8 * j) (Z.lor (PA2PTE p) PTE_V) ;;; K p)) in
  (exists s', run s = Ret None s' /\ vinv s' /\ pmem s' = pmem s /\ kernel_pagetable s' = kernel_pagetable s) \/
  (exists s' t, run s = K (t * PGSIZE) s' /\ vinv s' /\ 0 < t < 2 ^ 44 /\ pmem s !! t = None /\
    pmem s' = wset (<[t := zero_page]> (pmem s)) q j (t * 1024 + 1) /\ kernel_pagetable s' = kernel_pagetable s).
Proof.
  intros Hv Hq Hj run. unfold run. destruct (kalloc_ok s Hv) as (p & s1 & E1 & Hv1 & Hk & [[-> Hm]|(t & d & -> & Ht & Hn & Hm & Hd)]).
  - left. exists s1. run E1. by split_and!.
  - right. assert (Et : t * PGSIZE / PGSIZE = t) by (apply Z.div_mul; unfold PGSIZE; lia).
    run E1. rewrite (proj2 (Z.eqb_neq (t * PGSIZE) 0)) by (unfold PGSIZE; lia).
    assert (Hc : clear_page (t * PGSIZE) s1 = Ret tt (set_pmem (<[t := zero_page]> (pmem s)) s1)).
    { unfold clear_page. rewrite st_page_ok by (rewrite Et, Hm, lookup_insert_eq; eauto). rewrite Et, Hm. by rewrite insert_insert_eq. }
    run Hc. set (s2 := set_pmem _ s1). assert (Hq2 : is_Some (pmem s2 !! q)) by (cbn; rewrite lookup_insert; case_decide; eauto).
    run (st64_ok s2 q j (Z.lor (PA2PTE (t * PGSIZE)) PTE_V) Hq2 Hj). rewrite PA2PTE_lor by (unfold PTE_V; lia).
    eexists _, t. split; [done|]. split_and!; try done; try lia.
    change (vinv (set_pmem (wset (pmem s2) q j (t * 1024 + PTE_V)) s1)). apply vinv_pmem; [done| |].
    + apply wset_sized; [apply zero_sized, Hv|done|done].
    + intros u. rewrite Hm. unfold wset. cbn [pmem s2 set_pmem]. rewrite !lookup_insert. repeat case_decide; subst; eauto.
Qed.

Lemma grown_link s s' r L1 L0 L1' L0' q j t w :
  is_table r L1 L0 q -> pmem s !! t = None -> pmem s' = wset (<[t := zero_page]> (pmem s)) q j w ->
  kernel_pagetable s' = kernel_pagetable s -> (forall u, is_table r L1' L0' u <-> is_table r L1 L0 u \/ u = t) ->
  grown s s' r L1 L0 L1' L0'.
Proof.
  intros Hq Ht Hm Hk Htab. split; [done|..].
  - intros u d Hu Hn. rewrite Hm. unfold wset. rewrite !lookup_insert_ne; [done|congruence|]. intros ->. done.
  - intros u Hu. rewrite Hm. apply page_grow. by left.
  - intros u Hu. apply Htab in Hu as [Hu| ->]; [by left|by right].
  - intros u Hu. apply Htab. by left.
  - intros u. rewrite Hm. destruct (decide (u = q)) as [->|Hq']; [intros _; right; apply Htab; by left|].
    unfold wset. rewrite lookup_insert_ne by done. destruct (decide (u = t)) as [->|Ht']; [intros _; right; apply Htab; by right|].
    rewrite lookup_insert_ne by done. by left.
Qed.

Lemma tables_grow0 r L1 L0 k t u :
  L0 !! k = None -> is_table r L1 (<[k := t]> L0) u <-> is_table r L1 L0 u \/ u = t.
Proof.
  intros Hk. unfold is_table. split.
  - intros [->|[Hu|[x Hx]]]; [tauto|tauto|]. rewrite lookup_insert in Hx. case_decide; [right; congruence|eauto].
  - intros [[->|[Hu|[x Hx]]]| ->]; [tauto|tauto| |].
    + right; right. exists x. rewrite lookup_insert_ne; [done|congruence].
    + right; right. exists k. apply lookup_insert_eq.
Qed.

Lemma tables_grow1 r L1 L0 i t u :
  L1 !! i = None -> is_table r (<[i := t]> L1) L0 u <-> is_table r L1 L0 u \/ u = t.
Proof.
  intros Hk. unfold is_table. split.
  - intros [->|[[x Hx]|Hu]]; [tauto| |tauto]. rewrite lookup_insert in Hx. case_decide; [right; congruence|eauto].
  - intros [[->|[[x Hx]|Hu]]| ->]; [tauto| |tauto|].
    + right; left. exists x. rewrite lookup_insert_ne; [done|congruence].
    + right; left. exists i. apply lookup_insert_eq.
Qed.

(** The loop of [walk] from the level-1 table [q] on. *)
Lemma walk_mid s r L1 L0 AS va i j x q :
  vinv s -> ptrep (pmem s) r L1 L0 AS -> indexed va i j x -> L1 !! i = Some q ->
  exists o s' L0', walk_loop junk 1 (q * PGSIZE) va true s = Ret o s' /\ vinv s' /\ ptrep (pmem s') r L1 L0' AS /\
    grown s s' r L1 L0 L1 L0' /\ (o = None \/ exists t, o = Some (t * PGSIZE) /\ L0' !! (i * 512 + j) = Some t).
Proof.
  intros Hv Hp [_ H1 _ Hi Hj _ _] Hq. cbn [walk_loop]. change (Z.of_nat 1) with 1. rewrite H1.
  destruct (pr_page Hp q ltac:(eauto with vm)) as [Hqp _]. pose proof (pr_mid Hp i q j Hq Hj) as Hw.
  run (ld64_ok s q j Hqp Hj). rewrite (has_points _ _ Hw). destruct (L0 !! (i * 512 + j)) as [t|] eqn:E0.
  - destruct (pr_page Hp t ltac:(eauto with vm)) as [_ Htr]. rewrite (points_pa _ _ Hw Htr).
    exists (Some (t * PGSIZE)), s, L0. split_and!; [done|done|done|apply grown_refl|right; eauto].
  - cbn [negb]. destruct (link_table_ok s q j (fun p => ret (Some p)) Hv Hqp Hj) as
      [(s' & E1 & Hv' & Hm & Hk)|(s' & t & E1 & Hv' & Ht & Hn & Hm & Hk)]; cbv zeta in E1; rewrite E1.
    + exists None, s', L0. split_and!; [done|done|by rewrite Hm| |by left].
      split; [done|by rewrite Hm|by rewrite Hm|by left|done|rewrite Hm; by left].
    + exists (Some (t * PGSIZE)), s', (<[i * 512 + j := t]> L0). split_and!; [done|done|rewrite Hm; by eapply grow0| |].
      * eapply (grown_link s s' r L1 L0 _ _ q); [eauto with vm|done|exact Hm|done|]. intros u. by apply tables_grow0.
      * right. exists t. split; [done|apply lookup_insert_eq].
Qed.

Lemma walk_alloc s r L1 L0 AS va i j x :
  vinv s -> ptrep (pmem s) r L1 L0 AS -> 0 <= va < MAXVA -> indexed va i j x ->
  exists a s' L1' L0', walk junk (r * PGSIZE) va true s = Ret a s' /\ vinv s' /\ ptrep (pmem s') r L1' L0' AS /\
    grown s s' r L1 L0 L1' L0' /\
    spends 2 s s' /\ (a = 0 /\ ~ rich 2 (ve s) \/ exists t, L0' !! (i * 512 + j) = Some t /\ a = t * PGSIZE + 8 * x /\ a <> 0).
Proof.
  intros Hv Hp Hva Hix. pose proof Hix as [H2 _ H0 Hi Hj Hx _]. unfold walk. rewrite (proj2 (Z.leb_gt _ _)) by lia. rewrite H0.
  assert (Hloop : exists o s' L1' L0', walk_loop junk 2 (r * PGSIZE) va true s = Ret o s' /\ vinv s' /\ ptrep (pmem s') r L1' L0' AS /\
    grown s s' r L1 L0 L1' L0' /\ (o = None \/ exists t, o = Some (t * PGSIZE) /\ L0' !! (i * 512 + j) = Some t)).
  { change (walk_loop junk 2 (r * PGSIZE) va true) with (v <- ld64 (r * PGSIZE + 8 * PX 2 va) ;;
      (if has v PTE_V then walk_loop junk 1 (PTE2PA v) va true else if negb true then ret None else
        p <- kalloc_page junk ;; (if p =? 0 then ret None else
        clear_page p ;;; st64 (r * PGSIZE + 8 * PX 2 va) (Z.lor (PA2PTE p) PTE_V) ;;; walk_loop junk 1 p va true))).
    rewrite H2. destruct (pr_page Hp r (table_root _ _ _)) as [Hr _]. pose proof (pr_root Hp i Hi) as Hw.
    run (ld64_ok s r i Hr Hi). rewrite (has_points _ _ Hw). destruct (L1 !! i) as [q|] eqn:Eq.
    - destruct (pr_page Hp q ltac:(eauto with vm)) as [_ Hqr]. rewrite (points_pa _ _ Hw Hqr).
      destruct (walk_mid s r L1 L0 AS va i j x q Hv Hp Hix Eq) as (o & s' & L0' & E2 & Hrest). by exists o, s', L1, L0'.
    - cbn [negb]. destruct (link_table_ok s r i (fun p => walk_loop junk 1 p va true) Hv Hr Hi) as
        [(s' & E1 & Hv' & Hm & Hk)|(s' & t & E1 & Hv' & Ht & Hn & Hm & Hk)]; cbv zeta in E1; rewrite E1.
      + exists None, s', L1, L0. split_and!; [done|done|by rewrite Hm| |by left]. split; [done|by rewrite Hm|by rewrite Hm|by left|done|rewrite Hm; by left].
      + assert (Hp' : ptrep (pmem s') r (<[i := t]> L1) L0 AS) by (rewrite Hm; by apply grow1).
        destruct (walk_mid s' r _ L0 AS va i j x t Hv' Hp' Hix (lookup_insert_eq _ _ _)) as (o & s'' & L0' & E2 & Hv'' & Hp'' & Hg & Ho).
        exists o, s'', (<[i := t]> L1), L0'. split_and!; try done. eapply grown_trans; [|done].
        eapply (grown_link s s' r L1 L0 _ _ r); [auto with vm|done|exact Hm|done|]. intros u. by apply tables_grow1. }
  destruct Hloop as (o & s' & L1' & L0' & E2 & Hv' & Hp' & Hg & Ho). destruct (walk_rich _ _ _ _ _ _ E2) as [Hsp Hno]. run E2. destruct Ho as [->|(t & -> & Ht)].
  - exists 0, s', L1', L0'. split_and!; try done. left. auto.
  - exists (t * PGSIZE + 8 * x), s', L1', L0'. split_and!; try done. right. exists t. split_and!; try done.
    destruct (pr_page Hp' t ltac:(eauto with vm)) as [_ Htr]. unfold PGSIZE. lia.
Qed.
End Run.

Arguments gr_kpt {E s s' r L1 L0 L1' L0'} _.
Arguments gr_keep {E s s' r L1 L0 L1' L0'} _.
Arguments gr_dom {E s s' r L1 L0 L1' L0'} _.
Arguments gr_new {E s s' r L1 L0 L1' L0'} _.
Arguments gr_old {E s s' r L1 L0 L1' L0'} _.
Arguments gr_only {E s s' r L1 L0 L1' L0'} _.
