(* ===== verification/VmMap.v ===== *)
(** * Mapping and unmapping pages

    What [mappages], [uvmunmap], [walkaddr] and [kvmpa] do to the map of virtual
    pages, on every branch. *)

From S2P Require Import Prelude Riscv AllocI Bytes Vm VmSpec.

(** The entry [mappages] makes for page [pn]. *)
Definition leaf_pte (pn perm : Z) : Z := pn * 1024 + Z.lor perm 1.

Lemma lor_bound perm : 0 <= perm < 1024 -> 0 <= Z.lor perm 1 < 1024.
Proof.
  intros Hp. split; [apply Z.lor_nonneg; lia|]. destruct (decide (Z.lor perm 1 = 0)); [lia|].
  apply Z.log2_lt_cancel. rewrite Z.log2_lor by lia. change (Z.log2 1024) with 10. change (Z.log2 1) with 0.
  destruct (decide (perm = 0)) as [->|]; [cbn; lia|]. apply Z.max_lub_lt; [apply Z.log2_lt_pow2; lia|lia].
Qed.

Lemma lor_odd perm : Z.odd (Z.lor perm 1) = true.
Proof. rewrite <- Z.bit0_odd, Z.lor_spec. apply orb_true_r. Qed.

Lemma leaf_pte_eq pn perm :
  0 <= pn < 2 ^ 44 -> 0 <= perm < 1024 -> Z.lor (Z.lor (PA2PTE (pn * PGSIZE)) perm) PTE_V = leaf_pte pn perm.
Proof. intros Hp Hf. rewrite <- Z.lor_assoc. apply PA2PTE_lor; [done|by apply lor_bound]. Qed.

Lemma leaf_pte_ok pn perm : 0 <= pn < 2 ^ 44 -> 0 <= perm < 1024 -> pte_ok (leaf_pte pn perm).
Proof. intros Hp Hf. exists pn, (Z.lor perm 1). split_and!; try lia; [by apply lor_bound|by apply lor_bound|apply lor_odd|done]. Qed.

Lemma pte_ok_range pte : pte_ok pte -> 0 <= pte < 2 ^ 54.
Proof. intros (pn & f & Hp & Hf & _ & ->). lia. Qed.

Lemma has_leaf w o : leaf w o -> (forall pte, o = Some pte -> pte_ok pte) -> has w PTE_V = match o with Some _ => true | None => false end.
Proof.
  unfold leaf, has, PTE_V. destruct o as [pte|]; [|by intros ->]. intros -> Hok. destruct (Hok pte eq_refl) as (pn & f & Hp & Hf & Ho & ->).
  change 1 with (Z.ones 1). rewrite Z.land_ones by lia. change (2 ^ 1) with 2. rewrite Zmod_odd, Z.odd_add, Z.odd_mul.
  change (Z.odd 1024) with false. rewrite andb_false_r, Ho. done.
Qed.

Fixpoint map_pages (n : nat) (v pn perm : Z) (AS : gmap Z Z) : gmap Z Z :=
  match n with
  | O => AS
  | S n => map_pages n (v + 1) (pn + 1) perm (<[v := leaf_pte pn perm]> AS)
  end.

Lemma map_pages_lookup n v pn perm AS u :
  map_pages n v pn perm AS !! u = if decide (v <= u < v + Z.of_nat n) then Some (leaf_pte (pn + (u - v)) perm) else AS !! u.
Proof.
  revert v pn AS. induction n as [|n IH]; intros v pn AS; cbn [map_pages]; [by rewrite decide_False by lia|].
  rewrite IH, lookup_insert. repeat case_decide; try lia; try done; do 2 f_equal; lia.
Qed.

Lemma page_number v : v * PGSIZE / PGSIZE = v.
Proof. apply Z.div_mul. unfold PGSIZE. lia. Qed.

Section Map.
Context {E : Type} {Ecx : HasCtx E} {Eal : Alloc E} {Epa : PageAlloc E} (junk : E -> Z -> page).
Context (junk_length : forall e p, length (junk e p) = 4096%nat).

(** Where the entry of virtual page [v] is, if its table exists. *)
Lemma entry_at (s : vms E) r L1 L0 AS i j x v t :
  ptrep (pmem s) r L1 L0 AS -> 0 <= x < 512 -> v = (i * 512 + j) * 512 + x -> L0 !! (i * 512 + j) = Some t ->
  is_Some (pmem s !! t) /\ leaf (word (pmem s) t x) (AS !! v) /\ (forall pte, AS !! v = Some pte -> pte_ok pte).
Proof.
  intros Hp Hx -> Ht. split_and!; [apply (pr_page Hp t); eauto with vm|by apply (pr_leaf Hp)|].
  intros pte Hpte. by apply (pr_dom Hp) in Hpte as [_ Hok].
Qed.

Lemma no_table s r L1 L0 AS i j x v :
  ptrep (pmem (E := E) s) r L1 L0 AS -> 0 <= x < 512 -> v = (i * 512 + j) * 512 + x -> L0 !! (i * 512 + j) = None -> AS !! v = None.
Proof.
  intros Hp Hx -> Ht. destruct (AS !! _) eqn:Ea; [|done]. apply (pr_dom Hp) in Ea as [[t Ht'] _].
  replace (((i * 512 + j) * 512 + x) / 512) with (i * 512 + j) in Ht' by (apply Z.div_unique with x; lia). congruence.
Qed.

(** An entry is written in place. *)
Lemma write_entry s r L1 L0 AS i j x v t w o :
  vinv s -> ptrep (pmem s) r L1 L0 AS -> 0 <= x < 512 -> v = (i * 512 + j) * 512 + x -> L0 !! (i * 512 + j) = Some t ->
  0 <= w < 2 ^ 64 -> leaf w o -> (forall pte, o = Some pte -> pte_ok pte) ->
  exists s', st64 (t * PGSIZE + 8 * x) w s = Ret tt s' /\ vinv s' /\ ve s' = ve s /\
    ptrep (pmem s') r L1 L0 (partial_alter (fun _ => o) v AS) /\ grown s s' r L1 L0 L1 L0 /\
    (forall u, ~ is_table r L1 L0 u -> pmem s' !! u = pmem s !! u).
Proof.
  intros Hv Hp Hx -> Ht Hw Hl Ho. destruct (pr_page Hp t ltac:(eauto with vm)) as [Htp _].
  exists (set_pmem (wset (pmem s) t x w) s). split_and!; [by apply st64_ok| |done|by apply set_leaf| |intros u Hu; apply lookup_insert_ne; intros ->; apply Hu; eauto with vm].
  - apply vinv_pmem; [done|apply wset_sized; [apply Hv|done|done]|]. intros u. unfold wset. rewrite lookup_insert. case_decide; [by subst|done].
  - split; [done|..]; cbn.
    + intros u d Hu Hn. unfold wset. rewrite lookup_insert_ne; [done|]. intros ->. apply Hn. eauto with vm.
    + intros u Hu. unfold wset. rewrite lookup_insert. case_decide; eauto.
    + by left.
    + done.
    + intros u. unfold wset. rewrite lookup_insert. case_decide; intros Hs; [subst; by left|by left].
Qed.

Lemma map1_ok s r L1 L0 AS n v last pn perm :
  vinv s -> ptrep (pmem s) r L1 L0 AS -> 0 <= v < 2 ^ 26 -> AS !! v = None -> 0 <= pn < 2 ^ 44 -> 0 <= perm < 1024 ->
  exists s' L1' L0', vinv s' /\ grown s s' r L1 L0 L1' L0' /\ spends 2 s s' /\
    (mappages_loop junk (S n) (r * PGSIZE) (v * PGSIZE) last (pn * PGSIZE) perm s = Ret (-1) s' /\ ptrep (pmem s') r L1' L0' AS /\
       ~ rich 2 (ve s) \/
     mappages_loop junk (S n) (r * PGSIZE) (v * PGSIZE) last (pn * PGSIZE) perm s =
       (if v * PGSIZE =? last then ret 0 else mappages_loop junk n (r * PGSIZE) ((v + 1) * PGSIZE) last ((pn + 1) * PGSIZE) perm) s' /\
     ptrep (pmem s') r L1' L0' (<[v := leaf_pte pn perm]> AS)).
Proof.
  intros Hv Hp Hvr HAS Hpn Hperm. assert (Hva : 0 <= v * PGSIZE < MAXVA) by (change MAXVA with (2 ^ 38); unfold PGSIZE; lia).
  destruct (index_va _ Hva) as (i & j & x & Hix). pose proof (ix_v _ _ _ _ Hix) as Hvx. rewrite page_number in Hvx. pose proof (ix_x _ _ _ _ Hix) as Hx.
  destruct (walk_alloc junk junk_length s r L1 L0 AS (v * PGSIZE) i j x Hv Hp Hva Hix) as (a & s1 & L1' & L0' & E1 & Hv1 & Hp1 & Hg1 & Hsp & Ha).
  cbn [mappages_loop]. destruct Ha as [[-> Hnr]|(t & Ht & -> & Hne)].
  { exists s1, L1', L0'. split_and!; [done|done|done|]. left. by run E1. }
  destruct (entry_at s1 r L1' L0' AS i j x v t Hp1 Hx Hvx Ht) as (Htp & Hlf & _). rewrite HAS in Hlf.
  destruct (write_entry s1 r L1' L0' AS i j x v t (leaf_pte pn perm) (Some (leaf_pte pn perm)) Hv1 Hp1 Hx Hvx Ht) as (s2 & E2 & Hv2 & _ & Hp2 & Hg2 & _); try done.
  { pose proof (pte_ok_range _ (leaf_pte_ok pn perm Hpn Hperm)). lia. } { intros pte [= <-]. by apply leaf_pte_ok. }
  exists s2, L1', L0'. split_and!; [done|by eapply grown_trans| |].
  { intros n' Hr. rewrite (st64_ve _ _ _ _ _ E2). by apply Hsp. } right. split; [|done].
  run E1. rewrite (proj2 (Z.eqb_neq _ 0) Hne). run (ld64_ok s1 t x Htp Hx). rewrite (has_leaf _ None) by done.
  rewrite leaf_pte_eq by done. run E2. destruct (v * PGSIZE =? last); [done|].
  f_equal; rewrite u64_small by (unfold PGSIZE; lia); unfold PGSIZE; lia.
Qed.

Lemma map_remap s r L1 L0 AS n v last pn perm pte :
  vinv s -> ptrep (pmem s) r L1 L0 AS -> 0 <= v < 2 ^ 26 -> AS !! v = Some pte ->
  mappages_loop junk (S n) (r * PGSIZE) (v * PGSIZE) last pn perm s = Panic "remap".
Proof.
  intros Hv Hp Hvr HAS. assert (Hva : 0 <= v * PGSIZE < MAXVA) by (change MAXVA with (2 ^ 38); unfold PGSIZE; lia).
  destruct (index_va _ Hva) as (i & j & x & Hix). pose proof (ix_v _ _ _ _ Hix) as Hvx. rewrite page_number in Hvx. pose proof (ix_x _ _ _ _ Hix) as Hx.
  destruct (L0 !! (i * 512 + j)) as [t|] eqn:Et; [|by rewrite (no_table s r L1 L0 AS i j x v Hp Hx Hvx Et) in HAS].
  pose proof (walk_look junk s r L1 L0 AS _ i j x true Hp Hva Hix ltac:(rewrite Et; eauto)) as E1. rewrite Et in E1.
  destruct (entry_at s r L1 L0 AS i j x v t Hp Hx Hvx Et) as (Htp & Hlf & Hok). destruct (pr_page Hp t ltac:(eauto with vm)) as [_ Htr].
  cbn [mappages_loop]. run E1. rewrite (proj2 (Z.eqb_neq _ 0)) by (unfold PGSIZE; lia). run (ld64_ok s t x Htp Hx).
  rewrite (has_leaf _ _ Hlf Hok), HAS. done.
Qed.

(** [k] pages from [v] on are mapped to those from [pn] on, or memory ran out
    after [n] of them. *)
Lemma mappages_ok r perm k : forall s L1 L0 AS fuel v pn,
  vinv s -> ptrep (pmem s) r L1 L0 AS -> 0 <= v -> v + Z.of_nat k <= 2 ^ 26 -> 0 <= pn -> pn + Z.of_nat k <= 2 ^ 44 -> 0 <= perm < 1024 ->
  (forall u, v <= u < v + Z.of_nat k -> AS !! u = None) -> (0 < k)%nat -> (k <= fuel)%nat ->
  exists res s' L1' L0' n, mappages_loop junk fuel (r * PGSIZE) (v * PGSIZE) ((v + Z.of_nat k - 1) * PGSIZE) (pn * PGSIZE) perm s = Ret res s' /\
    vinv s' /\ ptrep (pmem s') r L1' L0' (map_pages n v pn perm AS) /\ grown s s' r L1 L0 L1' L0' /\
    spends (2 * k) s s' /\ (res = 0 /\ n = k \/ res = -1 /\ (n < k)%nat /\ ~ rich (2 * k) (ve s)).
Proof.
  induction k as [|k IH]; intros s L1 L0 AS fuel v pn Hv Hp Hv0 Hvk Hp0 Hpk Hperm HAS Hk Hf; [lia|]. destruct fuel as [|fuel]; [lia|].
  destruct (map1_ok s r L1 L0 AS fuel v ((v + Z.of_nat (S k) - 1) * PGSIZE) pn perm Hv Hp) as (s1 & L1' & L0' & Hv1 & Hg1 & Hsp & Hres);
    [lia|apply HAS; lia|lia|done|]. replace (2 * S k)%nat with (2 + 2 * k)%nat by lia.
  destruct Hres as [(E1 & Hp1 & Hnr)|[E1 Hp1]].
  { exists (-1), s1, L1', L0', O. split_and!; try done; [by apply spends_more|]. right. split_and!; [done|lia|]. intros Hr. apply Hnr, (rich_less (2 * k)). by rewrite Nat.add_comm. }
  destruct (decide (k = O)) as [->|Hk0].
  { exists 0, s1, L1', L0', 1%nat. rewrite E1. rewrite (proj2 (Z.eqb_eq _ _)) by (f_equal; lia). split_and!; [done..|by apply spends_more|by left]. }
  rewrite (proj2 (Z.eqb_neq _ _)) in E1 by (unfold PGSIZE; lia).
  destruct (IH s1 L1' L0' (<[v := leaf_pte pn perm]> AS) fuel (v + 1) (pn + 1) Hv1 Hp1) as (res & s2 & M1 & M0 & n & E2 & Hv2 & Hp2 & Hg2 & Hsp2 & Hr); try lia.
  { intros u Hu. rewrite lookup_insert_ne by lia. apply HAS. lia. }
  exists res, s2, M1, M0, (S n). replace (v + 1 + Z.of_nat k - 1) with (v + Z.of_nat (S k) - 1) in E2 by lia.
  split_and!; [by rewrite E1|done|done|by eapply grown_trans|by eapply spends_trans|].
  destruct Hr as [[-> ->]|(-> & Hn & Hnr)]; [by left|right; split_and!; [done|lia|by eapply spends_short]].
Qed.

(** [mappages] of a single page. *)
Lemma mappages_one r' s N1 N0 CS fuel v q perm :
  vinv s -> ptrep (pmem s) r' N1 N0 CS -> 0 <= v < 2 ^ 26 -> 0 <= q < 2 ^ 44 -> 0 <= perm < 1024 -> CS !! v = None -> (0 < fuel)%nat ->
  exists res s' P1 P0, mappages junk fuel (r' * PGSIZE) (v * PGSIZE) PGSIZE (q * PGSIZE) perm s = Ret res s' /\
    vinv s' /\ grown s s' r' N1 N0 P1 P0 /\ spends 2 s s' /\
    (res = 0 /\ ptrep (pmem s') r' P1 P0 (<[v := leaf_pte q perm]> CS) \/
     res = -1 /\ ptrep (pmem s') r' P1 P0 CS /\ ~ rich 2 (ve s)).
Proof.
  intros Hv Hp Hvr Hq Hperm Hno Hf.
  destruct (mappages_ok r' perm 1 s N1 N0 CS fuel v q Hv Hp) as (res & s' & P1 & P0 & n & E1 & Hv' & Hp' & Hg & Hsp & Hres); try lia.
  { intros u Hu. by replace u with v by lia. }
  exists res, s', P1, P0. split_and!; [|done|done|done|].
  - unfold mappages. rewrite <- E1. f_equal.
    + rewrite PGROUNDDOWN_eq, Z.mod_mul by (unfold PGSIZE; lia). lia.
    + rewrite u64_small by (unfold PGSIZE; lia). rewrite PGROUNDDOWN_eq.
      replace (v * PGSIZE + PGSIZE - 1) with (PGSIZE - 1 + v * PGSIZE) by lia. rewrite Z.mod_add by (unfold PGSIZE; lia).
      rewrite Z.mod_small by (unfold PGSIZE; lia). lia.
  - destruct Hres as [[-> ->]|(-> & Hn & Hnr)]; [by left|]. right. destruct n; [done|lia].
Qed.

(** ** Unmapping *)

Definition pte_page (pte : Z) : Z := pte / 1024.

Lemma pte_page_eq pte : pte_ok pte -> PTE2PA pte = pte_page pte * PGSIZE /\ 0 <= pte_page pte < 2 ^ 44.
Proof.
  intros (pn & f & Hp & Hf & _ & ->). unfold pte_page. replace ((pn * 1024 + f) / 1024) with pn by (apply Z.div_unique with f; lia).
  split; [by apply PTE2PA_eq|done].
Qed.

(** Page [v] can be unmapped: it is mapped by a leaf entry and, if its page is
    to be freed, that page is memory and no table. *)
Record unmappable (s : vms E) (r : Z) (L1 L0 AS : gmap Z Z) (free : bool) (v pte : Z) : Prop := {
  um_entry : AS !! v = Some pte;
  um_leaf : PTE_FLAGS pte <> PTE_V;
  um_page : free = true -> is_Some (pmem s !! pte_page pte) /\ ~ is_table r L1 L0 (pte_page pte)
}.

Lemma unmap1_ok s r L1 L0 AS n v last free pte :
  vinv s -> ptrep (pmem s) r L1 L0 AS -> 0 <= v < 2 ^ 26 -> unmappable s r L1 L0 AS free v pte ->
  exists s', uvmunmap_loop junk (S n) (r * PGSIZE) (v * PGSIZE) last free s =
      (if v * PGSIZE =? last then ret tt else uvmunmap_loop junk n (r * PGSIZE) ((v + 1) * PGSIZE) last free) s' /\
    vinv s' /\ ptrep (pmem s') r L1 L0 (base.delete v AS) /\ kernel_pagetable s' = kernel_pagetable s /\
    (forall t, ~ is_table r L1 L0 t -> pmem s' !! t = if decide (free = true /\ t = pte_page pte) then None else pmem s !! t).
Proof.
  intros Hv Hp Hvr [HAS Hfl Hpg]. assert (Hva : 0 <= v * PGSIZE < MAXVA) by (change MAXVA with (2 ^ 38); unfold PGSIZE; lia).
  destruct (index_va _ Hva) as (i & j & x & Hix). pose proof (ix_v _ _ _ _ Hix) as Hvx. rewrite page_number in Hvx. pose proof (ix_x _ _ _ _ Hix) as Hx.
  pose proof (walk_ok junk s r L1 L0 AS _ i j x Hp Hva Hix) as E1.
  destruct (L0 !! (i * 512 + j)) as [t|] eqn:Et; [|by rewrite (no_table s r L1 L0 AS i j x v Hp Hx Hvx Et) in HAS].
  destruct (entry_at s r L1 L0 AS i j x v t Hp Hx Hvx Et) as (Htp & Hlf & Hok). rewrite HAS in Hlf.
  destruct (pr_page Hp t ltac:(eauto with vm)) as [_ Htr]. destruct (pte_page_eq pte (Hok pte HAS)) as [Ept _].
  assert (Hfree : exists s1, (if free then kfree_page (PTE2PA pte) else ret tt) s = Ret tt s1 /\ vinv s1 /\ ptrep (pmem s1) r L1 L0 AS /\
    kernel_pagetable s1 = kernel_pagetable s /\
    forall u, pmem s1 !! u = if decide (free = true /\ u = pte_page pte) then None else pmem s !! u).
  { destruct free.
    - destruct (Hpg eq_refl) as [[d Hd] Hnt]. destruct (kfree_ok s (pte_page pte) d Hv Hd) as (s1 & E2 & Hv1 & Hk1 & Hm1).
      exists s1. rewrite Ept. split_and!; try done.
      + eapply ptrep_frame; [done|apply Hv1|]. intros u Hu. rewrite Hm1. apply lookup_delete_ne. by intros <-.
      + intros u. rewrite Hm1. rewrite lookup_delete. repeat case_decide; naive_solver.
    - by exists s. }
  destruct Hfree as (s1 & E2 & Hv1 & Hp1 & Hk1 & Hm1).
  destruct (write_entry s1 r L1 L0 AS i j x v t 0 None Hv1 Hp1 Hx Hvx Et) as (s2 & E3 & Hv2 & _ & Hp2 & Hg2 & Ho2); try done.
  exists s2. split_and!; [|done|exact Hp2|rewrite (gr_kpt Hg2); done|].
  - cbn [uvmunmap_loop]. run E1. rewrite (proj2 (Z.eqb_neq _ 0)) by (unfold PGSIZE; lia). run (ld64_ok s t x Htp Hx).
    rewrite (has_leaf _ (Some pte) Hlf) by (intros ? [= <-]; by apply Hok). cbn [negb]. cbn in Hlf. rewrite Hlf.
    rewrite (proj2 (Z.eqb_neq _ _) Hfl). run E2. run E3. destruct (v * PGSIZE =? last); [done|].
    f_equal. rewrite u64_small by (unfold PGSIZE; lia). unfold PGSIZE. lia.
  - intros u Hu. rewrite Ho2 by done. apply Hm1.
Qed.

(** The pages [v], ..., [v + k - 1], whose entries are [ptes], are unmapped. *)
Lemma unmap_ok r L1 L0 free : forall ptes s AS fuel v,
  vinv s -> ptrep (pmem s) r L1 L0 AS -> 0 <= v -> v + Z.of_nat (length ptes) <= 2 ^ 26 -> ptes <> [] -> (length ptes <= fuel)%nat ->
  (forall i pte, ptes !! i = Some pte -> unmappable s r L1 L0 AS free (v + Z.of_nat i) pte) ->
  (free = true -> NoDup (pte_page <$> ptes)) ->
  exists s', uvmunmap_loop junk fuel (r * PGSIZE) (v * PGSIZE) ((v + Z.of_nat (length ptes) - 1) * PGSIZE) free s = Ret tt s' /\
    vinv s' /\ kernel_pagetable s' = kernel_pagetable s /\
    (exists AS', ptrep (pmem s') r L1 L0 AS' /\
      forall u, AS' !! u = if decide (v <= u < v + Z.of_nat (length ptes)) then None else AS !! u) /\
    (forall t, ~ is_table r L1 L0 t -> pmem s' !! t = if decide (free = true /\ t ∈ pte_page <$> ptes) then None else pmem s !! t).
Proof.
  induction ptes as [|pte ptes IH]; intros s AS fuel v Hv Hp Hv0 Hvk Hne Hf Hum Hnd; [done|]. cbn [length] in *.
  destruct fuel as [|fuel]; [lia|]. pose proof (Hum O pte eq_refl) as Hu0. rewrite Z.add_0_r in Hu0.
  destruct (unmap1_ok s r L1 L0 AS fuel v ((v + Z.of_nat (S (length ptes)) - 1) * PGSIZE) free pte Hv Hp ltac:(lia) Hu0)
    as (s1 & E1 & Hv1 & Hp1 & Hk1 & Hm1). rewrite E1. destruct ptes as [|pte' ptes].
  { rewrite (proj2 (Z.eqb_eq _ _)) by (cbn [length]; f_equal; lia). exists s1. split_and!; try done.
    - exists (base.delete v AS). split; [done|]. intros u. cbn [length]. rewrite lookup_delete. repeat case_decide; try lia; done.
    - intros t Ht. rewrite Hm1 by done. apply decide_ext. rewrite list_elem_of_fmap. split.
      + intros [Hfr ->]. split; [done|]. exists pte. split; [done|by left].
      + intros [Hfr (q & -> & Hq)]. split; [done|]. by apply list_elem_of_singleton in Hq as ->. }
  set (rest := pte' :: ptes) in *. assert (Hlen : (0 < length rest)%nat) by (cbn; lia).
  rewrite (proj2 (Z.eqb_neq _ _)) by (unfold PGSIZE; lia).
  assert (Hum1 : forall i q, rest !! i = Some q -> unmappable s1 r L1 L0 (base.delete v AS) free (v + 1 + Z.of_nat i) q).
  { intros i q Hq. destruct (Hum (S i) q Hq) as [U1 U2 U3]. split; [|done|].
    - rewrite lookup_delete_ne by lia. rewrite <- U1. f_equal. lia.
    - intros Hfr. destruct (U3 Hfr) as [W1 W2]. split; [|done]. rewrite Hm1 by done. rewrite decide_False; [done|].
      intros [_ He]. specialize (Hnd Hfr). cbn [fmap list_fmap] in Hnd. apply list.NoDup_cons in Hnd as [Hx _]. apply Hx. rewrite <- He.
      by apply list_elem_of_fmap_2, list_elem_of_lookup_2 with i. }
  destruct (IH s1 (base.delete v AS) fuel (v + 1) Hv1 Hp1) as (s2 & E2 & Hv2 & Hk2 & (AS' & Hp2 & HA2) & Hm2);
    [lia|lia|done|lia|exact Hum1|intros Hfr; specialize (Hnd Hfr); by apply list.NoDup_cons in Hnd as [_ Hnd]|].
  exists s2. replace (v + 1 + Z.of_nat (length rest) - 1) with (v + Z.of_nat (S (length rest)) - 1) in E2 by lia.
  split_and!; [done|done|congruence| |].
  - exists AS'. split; [done|]. intros u. rewrite HA2, lookup_delete. repeat case_decide; try lia; done.
  - intros t Ht. rewrite Hm2, Hm1 by done. change (pte_page <$> pte :: rest) with (pte_page pte :: (pte_page <$> rest)).
    destruct (decide (free = true /\ t ∈ pte_page <$> rest)) as [[H1 H2]|H1]; [by rewrite decide_True by (split; [done|by right])|].
    apply decide_ext. rewrite elem_of_cons. tauto.
Qed.

(** ** An empty page table *)

Lemma clear_page_ok (s : vms E) t : is_Some (pmem s !! t) -> clear_page (t * PGSIZE) s = Ret tt (set_pmem (<[t := zero_page]> (pmem s)) s).
Proof. intros Ht. unfold clear_page. rewrite st_page_ok by (by rewrite page_number). by rewrite page_number. Qed.

Lemma uvmcreate_ok s :
  vinv s -> uvmcreate junk s = Panic "uvmcreate: out of memory" \/
  exists t s', uvmcreate junk s = Ret (t * PGSIZE) s' /\ vinv s' /\ ptrep (pmem s') t ∅ ∅ ∅ /\ 0 < t < 2 ^ 44 /\
    pmem s !! t = None /\ (forall u, u <> t -> pmem s' !! u = pmem s !! u).
Proof.
  intros Hv. unfold uvmcreate. destruct (kalloc_ok junk junk_length s Hv) as (p & s1 & E1 & Hv1 & Hk & Hm). run E1.
  destruct Hm as [[-> Hm]|(t & d & -> & Ht & Hn & Hm & Hd)]; [by left|right].
  rewrite (proj2 (Z.eqb_neq (t * PGSIZE) 0)) by (unfold PGSIZE; lia).
  run (clear_page_ok s1 t ltac:(rewrite Hm, lookup_insert_eq; eauto)). set (m := <[t := zero_page]> (pmem s1)).
  assert (Hs : sized m) by (apply zero_sized, Hv1). exists t, (set_pmem m s1). split_and!; try done; try lia.
  - apply vinv_pmem; [done|done|]. intros u. unfold m. rewrite lookup_insert. case_decide; [|done].
    intros _. subst u. rewrite Hm, lookup_insert_eq. eauto.
  - assert (Htab : forall u, is_table t ∅ ∅ u -> u = t) by (intros u [->|[[i Hi]|[k Hi]]]; [done|..]; by rewrite lookup_empty in Hi).
    split; try (by intros; rewrite ?lookup_empty in *); try done.
    + intros u Hu. rewrite (Htab u Hu). cbn. unfold m. rewrite lookup_insert_eq. split; [eauto|done].
    + intros i Hi. rewrite lookup_empty. cbn. unfold m. by rewrite word_zero.
  - intros u Hu. cbn. unfold m. rewrite lookup_insert_ne by done. rewrite Hm. by apply lookup_insert_ne.
Qed.
End Map.
