(* ===== verification/VmCopy.v ===== *)
(** * Copying between kernel and user memory

    The memory of a process is the bytes its page table maps for user access.
    [copyin], [copyinstr] and [copyout] read and write exactly those bytes, up to
    the first address that is not mapped. *)

From S2P Require Import Prelude Riscv AllocI Bytes Vm VmSpec VmMap.

(** The page that user mode sees at virtual page [v]. *)
Definition upage (AS : gmap Z Z) (v : Z) : option Z :=
  match AS !! v with
  | Some pte => if has pte PTE_U then Some (pte_page pte) else None
  | None => None
  end.

(** The byte that user mode sees at [va]. *)
Definition uread (m : pmem_t) (AS : gmap Z Z) (va : Z) : option Z :=
  if decide (0 <= va < MAXVA) then
    pn ← upage AS (va / PGSIZE);
    d ← m !! pn;
    (d : list Z) !! Z.to_nat (va mod PGSIZE)
  else None.

(** User pages are memory, no tables, and each is mapped once. *)
Record uspace (m : pmem_t) (r : Z) (L1 L0 AS : gmap Z Z) : Prop := {
  us_page : forall v pn, upage AS v = Some pn -> is_Some (m !! pn) /\ ~ is_table r L1 L0 pn;
  us_inj : forall v v' pn, upage AS v = Some pn -> upage AS v' = Some pn -> v = v'
}.

Lemma slice_lookup off n (d : list Z) i : (i < n)%nat -> slice off n d !! i = d !! (off + i)%nat.
Proof. intros Hi. unfold slice. by rewrite lookup_take_lt, lookup_drop. Qed.

Lemma slice_length off n (d : list Z) : (off + n <= length d)%nat -> length (slice off n d) = n.
Proof. intros Hd. unfold slice. rewrite length_take, length_drop. lia. Qed.

Section Copy.
Context {E : Type} {Ecx : HasCtx E} {Eal : Alloc E} {Epa : PageAlloc E} (junk : E -> Z -> page).

(** One page of a copy: its start, how many bytes are left in it. *)
Lemma page_split va : 0 <= va ->
  PGROUNDDOWN va = va / PGSIZE * PGSIZE /\ va - PGROUNDDOWN va = va mod PGSIZE /\ 0 <= va mod PGSIZE < PGSIZE.
Proof. intros Hva. rewrite PGROUNDDOWN_eq. pose proof (Z.div_mod va PGSIZE). pose proof (Z.mod_pos_bound va PGSIZE). unfold PGSIZE in *. lia. Qed.

Lemma walkaddr_ok s r L1 L0 AS v :
  vinv s -> ptrep (pmem s) r L1 L0 AS -> uspace (pmem s) r L1 L0 AS -> 0 <= v ->
  walkaddr junk (r * PGSIZE) (v * PGSIZE) s = Ret (if decide (v * PGSIZE < MAXVA) then default 0 (upage AS v) * PGSIZE else 0) s.
Proof.
  intros Hv Hp Hu Hv0. unfold walkaddr. destruct (decide (v * PGSIZE < MAXVA)) as [Hlt|Hge]; [|by rewrite (proj2 (Z.leb_le _ _)) by lia].
  rewrite (proj2 (Z.leb_gt _ _)) by lia. assert (Hva : 0 <= v * PGSIZE < MAXVA) by (unfold PGSIZE in *; lia).
  destruct (index_va _ Hva) as (i & j & x & Hix). pose proof (ix_v _ _ _ _ Hix) as Hvx. rewrite page_number in Hvx. pose proof (ix_x _ _ _ _ Hix) as Hx.
  run (walk_ok junk s r L1 L0 AS _ i j x Hp Hva Hix). unfold upage. destruct (L0 !! (i * 512 + j)) as [t|] eqn:Et.
  - destruct (entry_at s r L1 L0 AS i j x v t Hp Hx Hvx Et) as (Htp & Hlf & Hok). destruct (pr_page Hp t ltac:(eauto with vm)) as [_ Htr].
    rewrite (proj2 (Z.eqb_neq _ 0)) by (unfold PGSIZE; lia). run (ld64_ok s t x Htp Hx). rewrite (has_leaf _ _ Hlf Hok).
    destruct (AS !! v) as [pte|] eqn:Ea; [|done]. cbn in Hlf. rewrite Hlf. cbn [negb].
    destruct (has pte PTE_U); [|done]. cbn. by rewrite (proj1 (pte_page_eq pte (Hok pte eq_refl))).
  - by rewrite (no_table s r L1 L0 AS i j x v Hp Hx Hvx Et).
Qed.

(** The user page of an address: nothing there, or a page of memory. *)
Lemma page_case s r L1 L0 AS va :
  vinv s -> ptrep (pmem s) r L1 L0 AS -> uspace (pmem s) r L1 L0 AS -> 0 <= va ->
  (walkaddr junk (r * PGSIZE) (PGROUNDDOWN va) s = Ret 0 s /\ uread (pmem s) AS va = None) \/
  (exists pn d, walkaddr junk (r * PGSIZE) (PGROUNDDOWN va) s = Ret (pn * PGSIZE) s /\ pn * PGSIZE <> 0 /\ 0 < pn < 2 ^ 44 /\
    va < MAXVA /\ upage AS (va / PGSIZE) = Some pn /\ pmem s !! pn = Some d /\ length d = 4096%nat).
Proof.
  intros Hv Hp Hu Hva. destruct (page_split va Hva) as (Er & _ & Hm). rewrite Er.
  rewrite (walkaddr_ok s r L1 L0 AS (va / PGSIZE) Hv Hp Hu) by (apply Z.div_pos; unfold PGSIZE; lia).
  assert (Hlt : va / PGSIZE * PGSIZE < MAXVA <-> va < MAXVA).
  { change MAXVA with (67108864 * PGSIZE). pose proof (Z.div_mod va PGSIZE). unfold PGSIZE in *. lia. }
  unfold uread. destruct (decide (va / PGSIZE * PGSIZE < MAXVA)) as [H1|H1]; [|left; by rewrite decide_False by lia].
  rewrite decide_True by lia. destruct (upage AS (va / PGSIZE)) as [pn|] eqn:Ep; [|by left]. right.
  destruct (us_page _ _ _ _ _ Hu _ _ Ep) as [[d Hd] _]. destruct (vi_live _ Hv pn d Hd) as [Hpn _]. exists pn, d.
  split_and!; try done; [unfold PGSIZE; lia|lia|lia|tauto|by apply (vi_sized _ Hv pn)].
Qed.

(** The bytes of the page from [va] on, as the user sees them. *)
Lemma uread_page (m : pmem_t) AS va pn (d : list Z) i :
  0 <= va < MAXVA -> upage AS (va / PGSIZE) = Some pn -> m !! pn = Some d -> 0 <= i < PGSIZE - va mod PGSIZE ->
  uread m AS (va + i) = d !! Z.to_nat (va mod PGSIZE + i).
Proof.
  intros Hva Hp Hd Hi. unfold uread. pose proof (Z.div_mod va PGSIZE). pose proof (Z.mod_pos_bound va PGSIZE).
  assert (Eq : (va + i) / PGSIZE = va / PGSIZE /\ (va + i) mod PGSIZE = va mod PGSIZE + i).
  { unfold PGSIZE in *. split; [symmetry; apply Z.div_unique with (va mod 4096 + i); lia|symmetry; apply Z.mod_unique with (va / 4096); lia]. }
  destruct Eq as [E1 E2]. rewrite E1, E2, Hp. cbn. rewrite Hd. cbn. rewrite decide_True; [done|].
  change MAXVA with (67108864 * PGSIZE) in *. unfold PGSIZE in *. lia.
Qed.

(** Reading [n] bytes of the page. *)
Lemma ld_bytes_ok (s : vms E) AS va pn d n :
  0 <= va < MAXVA -> upage AS (va / PGSIZE) = Some pn -> pmem s !! pn = Some d -> length d = 4096%nat -> 0 <= n <= PGSIZE - va mod PGSIZE ->
  exists b, ld_bytes (pn * PGSIZE + va mod PGSIZE) n s = Ret b s /\ Z.of_nat (length b) = n /\
    forall i x, b !! i = Some x -> uread (pmem s) AS (va + Z.of_nat i) = Some x.
Proof.
  intros Hva Hp Hd Hlen Hn. pose proof (Z.mod_pos_bound va PGSIZE ltac:(unfold PGSIZE; lia)) as Hm.
  assert (Ea : (pn * PGSIZE + va mod PGSIZE) / PGSIZE = pn /\ (pn * PGSIZE + va mod PGSIZE) mod PGSIZE = va mod PGSIZE).
  { split; [symmetry; apply Z.div_unique with (va mod PGSIZE); lia|symmetry; apply Z.mod_unique with pn; lia]. }
  destruct Ea as [E1 E2]. unfold ld_bytes. rewrite <- E1 in Hd. run (ld_page_ok s _ d Hd). rewrite E1 in Hd. rewrite E2.
  assert (Hl : length (slice (Z.to_nat (va mod PGSIZE)) (Z.to_nat n) d) = Z.to_nat n) by (apply slice_length; unfold PGSIZE in *; lia).
  eexists. split_and!; [done|lia|]. intros i x Hx. pose proof (lookup_lt_Some _ _ _ Hx) as Hi. rewrite slice_lookup in Hx by lia.
  rewrite (uread_page _ AS va pn d) by (done || lia). rewrite <- Hx. f_equal. lia.
Qed.

(** ** copyin *)

(** Where the next page starts. *)
Lemma next_page va : 0 <= va < MAXVA -> u64 (PGROUNDDOWN va + PGSIZE) = va + (PGSIZE - va mod PGSIZE).
Proof.
  intros Hva. destruct (page_split va ltac:(lia)) as (_ & H2 & H3). rewrite u64_small.
  - lia.
  - change MAXVA with (2 ^ 38) in Hva. unfold PGSIZE in *. lia.
Qed.

(** Reading a byte list in two parts. *)
Lemma bytes_app (f : Z -> option Z) va (b1 b2 : list Z) :
  (forall i x, b1 !! i = Some x -> f (va + Z.of_nat i) = Some x) ->
  (forall i x, b2 !! i = Some x -> f (va + Z.of_nat (length b1) + Z.of_nat i) = Some x) ->
  forall i x, (b1 ++ b2) !! i = Some x -> f (va + Z.of_nat i) = Some x.
Proof.
  intros H1 H2 i x Hx. apply lookup_app_Some in Hx as [Hx|[Hi Hx]]; [by apply H1|].
  apply H2 in Hx. rewrite <- Hx. f_equal. lia.
Qed.

Lemma copyin_ok s r L1 L0 AS fuel : forall va len,
  vinv s -> ptrep (pmem s) r L1 L0 AS -> uspace (pmem s) r L1 L0 AS -> 0 <= va -> 0 <= len < Z.of_nat fuel ->
  exists res b, copyin_loop junk fuel (r * PGSIZE) va len s = Ret (res, b) s /\
    (forall i x, b !! i = Some x -> uread (pmem s) AS (va + Z.of_nat i) = Some x) /\
    (res = 0 /\ Z.of_nat (length b) = len \/
     res = -1 /\ Z.of_nat (length b) < len /\ uread (pmem s) AS (va + Z.of_nat (length b)) = None).
Proof.
  induction fuel as [|fuel IH]; intros va len Hv Hp Hu Hva Hlen; [lia|]. cbn [copyin_loop].
  destruct (Z.leb_spec len 0); [exists 0, []; split_and!; [done|done|left; cbn; lia]|].
  destruct (page_split va Hva) as (_ & Eo & Hm).
  destruct (page_case s r L1 L0 AS va Hv Hp Hu Hva) as [[E1 Hn]|(pn & d & E1 & Hne & Hpn & Hlt & Hup & Hd & Hdl)]; run E1.
  { exists (-1), []. split_and!; [done|done|right]. cbn. rewrite Z.add_0_r. split_and!; [done|lia|done]. }
  rewrite (proj2 (Z.eqb_neq _ 0) Hne), !Eo. set (n := if len <? PGSIZE - va mod PGSIZE then len else PGSIZE - va mod PGSIZE).
  assert (Hnr : 0 < n <= PGSIZE - va mod PGSIZE /\ n <= len) by (unfold n; destruct (Z.ltb_spec len (PGSIZE - va mod PGSIZE)); lia).
  destruct (ld_bytes_ok s AS va pn d n) as (b1 & E2 & Hb1 & Hr1); try done; try lia. run E2. rewrite (next_page va) by lia.
  destruct (decide (n = len)) as [Hnl|Hnl].
  { rewrite Hnl, Z.sub_diag. destruct fuel as [|fuel']; [lia|]. cbn [copyin_loop]. change (0 <=? 0) with true. cbv iota. mstep. cbn [fst snd].
    exists 0, (b1 ++ []). rewrite app_nil_r. split_and!; [done|done|left; lia]. }
  assert (Hn : n = PGSIZE - va mod PGSIZE) by (unfold n in *; destruct (Z.ltb_spec len (PGSIZE - va mod PGSIZE)); lia).
  destruct (IH (va + (PGSIZE - va mod PGSIZE)) (len - n) Hv Hp Hu) as (res & b2 & E3 & Hr2 & Hres); [lia|lia|].
  run E3. cbn [fst snd]. exists res, (b1 ++ b2). split_and!; [done| |].
  - apply bytes_app; [done|]. intros i x Hx. apply Hr2 in Hx. rewrite <- Hx. f_equal. lia.
  - rewrite length_app. destruct Hres as [[-> Hl]|(-> & Hl & Hnone)]; [left; lia|right].
    split_and!; [done|lia|]. rewrite <- Hnone. f_equal. lia.
Qed.

(** ** copyinstr *)

Lemma copy_until_null_ok b :
  (exists w, copy_until_null b = (w, false) /\ w = b /\ 0 ∉ b) \/
  (exists w, copy_until_null b = (w ++ [0], true) /\ 0 ∉ w /\ (w ++ [0]) `prefix_of` b).
Proof.
  induction b as [|x b IH]; cbn [copy_until_null]; [left; exists []; split_and!; [done|done|apply not_elem_of_nil]|].
  destruct (Z.eqb_spec x 0) as [->|Hx]; [right; exists []; split_and!; [done|apply not_elem_of_nil|by exists b]|].
  destruct IH as [(w & -> & -> & Hn)|(w & -> & Hn & [c ->])]; [left|right].
  - exists (x :: b). split_and!; [done|done|]. rewrite not_elem_of_cons. done.
  - exists (x :: w). split_and!; [done| |]; [rewrite not_elem_of_cons; done|]. exists c. done.
Qed.

Lemma copyinstr_ok s r L1 L0 AS fuel : forall va max,
  vinv s -> ptrep (pmem s) r L1 L0 AS -> uspace (pmem s) r L1 L0 AS -> 0 <= va -> 0 <= max < Z.of_nat fuel ->
  exists res b, copyinstr_loop junk fuel (r * PGSIZE) va max s = Ret (res, b) s /\
    (forall i x, b !! i = Some x -> uread (pmem s) AS (va + Z.of_nat i) = Some x) /\
    (res = 0 /\ Z.of_nat (length b) <= max /\ (exists w, b = w ++ [0] /\ 0 ∉ w) \/
     res = -1 /\ 0 ∉ b /\ (Z.of_nat (length b) = max \/ Z.of_nat (length b) < max /\ uread (pmem s) AS (va + Z.of_nat (length b)) = None)).
Proof.
  induction fuel as [|fuel IH]; intros va max Hv Hp Hu Hva Hmax; [lia|]. cbn [copyinstr_loop].
  destruct (Z.leb_spec max 0); [exists (-1), []; split_and!; [done|done|right; split_and!; [done|apply not_elem_of_nil|left; cbn; lia]]|].
  destruct (page_split va Hva) as (_ & Eo & Hm).
  destruct (page_case s r L1 L0 AS va Hv Hp Hu Hva) as [[E1 Hn]|(pn & d & E1 & Hne & Hpn & Hlt & Hup & Hd & Hdl)]; run E1.
  { exists (-1), []. split_and!; [done|done|right]. split_and!; [done|apply not_elem_of_nil|]. right. cbn. rewrite Z.add_0_r. done. }
  rewrite (proj2 (Z.eqb_neq _ 0) Hne), !Eo. set (n := if max <? PGSIZE - va mod PGSIZE then max else PGSIZE - va mod PGSIZE).
  assert (Hnr : 0 < n <= PGSIZE - va mod PGSIZE /\ n <= max) by (unfold n; destruct (Z.ltb_spec max (PGSIZE - va mod PGSIZE)); lia).
  destruct (ld_bytes_ok s AS va pn d n) as (b1 & E2 & Hb1 & Hr1); try done; try lia. run E2. rewrite (next_page va) by lia.
  destruct (copy_until_null_ok b1) as [(w & -> & -> & Hno)|(w & -> & Hno & Hpre)].
  2: { exists 0, (w ++ [0]). split_and!; [done| |].
       - intros i x Hx. apply Hr1. by eapply prefix_lookup_Some.
       - left. split_and!; [done| |by exists w]. apply prefix_length in Hpre. lia. }
  destruct (decide (n = max)) as [Hnl|Hnl].
  { rewrite Hnl, Z.sub_diag. destruct fuel as [|fuel']; [lia|]. cbn [copyinstr_loop]. change (0 <=? 0) with true. cbv iota. mstep. cbn [fst snd].
    exists (-1), (b1 ++ []). rewrite app_nil_r. split_and!; [done|done|right]. split_and!; [done|done|left; lia]. }
  assert (Hn : n = PGSIZE - va mod PGSIZE) by (unfold n in *; destruct (Z.ltb_spec max (PGSIZE - va mod PGSIZE)); lia).
  destruct (IH (va + (PGSIZE - va mod PGSIZE)) (max - n) Hv Hp Hu) as (res & b2 & E3 & Hr2 & Hres); [lia|lia|].
  run E3. cbn [fst snd]. exists res, (b1 ++ b2). split_and!; [done| |].
  - apply bytes_app; [done|]. intros i x Hx. apply Hr2 in Hx. rewrite <- Hx. f_equal. lia.
  - rewrite length_app. destruct Hres as [(-> & Hl & w & -> & Hw)|(-> & Hw & Hl)]; [left|right].
    + split_and!; [done|lia|]. exists (b1 ++ w). rewrite app_assoc. split; [done|]. rewrite elem_of_app. tauto.
    + split_and!; [done|rewrite elem_of_app; tauto|]. destruct Hl as [Hl|[Hl Hnone]]; [left; lia|right]. split; [lia|].
      rewrite <- Hnone. f_equal. lia.
Qed.

(** ** copyout *)

(** Storing [v] into the page of [va] is seen at those addresses only. *)
Lemma uread_store m r L1 L0 AS va pn (d v : list Z) va' :
  uspace m r L1 L0 AS -> 0 <= va < MAXVA -> upage AS (va / PGSIZE) = Some pn -> m !! pn = Some d -> length d = 4096%nat ->
  Z.of_nat (length v) <= PGSIZE - va mod PGSIZE ->
  uread (<[pn := splice (Z.to_nat (va mod PGSIZE)) v d]> m) AS va' =
    if decide (va <= va' < va + Z.of_nat (length v)) then v !! Z.to_nat (va' - va) else uread m AS va'.
Proof.
  intros Hu Hva Hup Hd Hdl Hv. pose proof (Z.mod_pos_bound va PGSIZE ltac:(unfold PGSIZE; lia)) as Hm.
  pose proof (Z.div_mod va PGSIZE ltac:(unfold PGSIZE; lia)) as Hdm. set (o := va mod PGSIZE) in *.
  assert (Hso : (Z.to_nat o + length v <= length d)%nat) by (unfold PGSIZE in *; lia).
  set (d' := splice (Z.to_nat o) v d). destruct (decide (va <= va' < va + Z.of_nat (length v))) as [Hin|Hout].
  - replace va' with (va + (va' - va)) at 1 by lia. rewrite (uread_page _ AS va pn d' (va' - va)); [|done|done|apply lookup_insert_eq|fold o; lia].
    fold o. unfold d'. rewrite splice_lookup by done. rewrite decide_True by lia. f_equal. lia.
  - unfold uread. case_decide as Hr; [|done]. destruct (upage AS (va' / PGSIZE)) as [pn'|] eqn:Hup'; [|done]. cbn.
    destruct (decide (pn' = pn)) as [->|Hne]; [|by rewrite lookup_insert_ne]. rewrite lookup_insert_eq, Hd. cbn.
    pose proof (us_inj _ _ _ _ _ Hu _ _ _ Hup Hup') as Hpg. unfold d'. rewrite splice_lookup by done. rewrite decide_False; [done|].
    pose proof (Z.div_mod va' PGSIZE ltac:(unfold PGSIZE; lia)). pose proof (Z.mod_pos_bound va' PGSIZE ltac:(unfold PGSIZE; lia)). lia.
Qed.

Lemma uspace_store m r L1 L0 AS pn d : is_Some (m !! pn) -> uspace m r L1 L0 AS -> uspace (<[pn := d]> m) r L1 L0 AS.
Proof.
  intros Hpn [H1 H2]. split; [|done]. intros v p Hv. destruct (H1 v p Hv) as [Hs Ht]. split; [|done].
  rewrite lookup_insert. case_decide; eauto.
Qed.

Lemma st_bytes_ok s r L1 L0 AS va pn d v :
  vinv s -> ptrep (pmem s) r L1 L0 AS -> uspace (pmem s) r L1 L0 AS -> 0 <= va < MAXVA ->
  upage AS (va / PGSIZE) = Some pn -> pmem s !! pn = Some d -> length d = 4096%nat -> Z.of_nat (length v) <= PGSIZE - va mod PGSIZE ->
  exists s', st_bytes (pn * PGSIZE + va mod PGSIZE) v s = Ret tt s' /\ vinv s' /\ ptrep (pmem s') r L1 L0 AS /\ uspace (pmem s') r L1 L0 AS /\
    ve s' = ve s /\ kernel_pagetable s' = kernel_pagetable s /\
    (forall va', uread (pmem s') AS va' = if decide (va <= va' < va + Z.of_nat (length v)) then v !! Z.to_nat (va' - va) else uread (pmem s) AS va') /\
    (forall t, t <> pn -> pmem s' !! t = pmem s !! t).
Proof.
  intros Hv Hp Hu Hva Hup Hd Hdl Hvl. pose proof (Z.mod_pos_bound va PGSIZE ltac:(unfold PGSIZE; lia)) as Hm.
  assert (Ea : (pn * PGSIZE + va mod PGSIZE) / PGSIZE = pn /\ (pn * PGSIZE + va mod PGSIZE) mod PGSIZE = va mod PGSIZE).
  { split; [symmetry; apply Z.div_unique with (va mod PGSIZE); lia|symmetry; apply Z.mod_unique with pn; lia]. }
  destruct Ea as [E1 E2]. destruct (us_page _ _ _ _ _ Hu _ _ Hup) as [_ Hnt].
  assert (Hs : sized (<[pn := splice (Z.to_nat (va mod PGSIZE)) v d]> (pmem s))).
  { intros t e. rewrite lookup_insert. case_decide; [|apply (vi_sized _ Hv)]. intros [= <-]. rewrite splice_length; [done|unfold PGSIZE in *; lia]. }
  exists (set_pmem (<[pn := splice (Z.to_nat (va mod PGSIZE)) v d]> (pmem s)) s). split_and!; try done.
  - unfold st_bytes. rewrite <- E1 in Hd. run (ld_page_ok s _ d Hd). rewrite st_page_ok by eauto. by rewrite E1, E2.
  - apply vinv_pmem; [done|done|]. intros t. rewrite lookup_insert. case_decide; [subst; eauto|done].
  - eapply ptrep_frame; [done|done|]. intros t Ht. cbn. apply lookup_insert_ne. by intros <-.
  - apply uspace_store; eauto.
  - intros va'. cbn. by apply (uread_store _ r L1 L0).
  - intros t Ht. cbn. by apply lookup_insert_ne.
Qed.

(** The pages of the user. *)
Definition is_user (AS : gmap Z Z) (t : Z) : Prop := exists v, upage AS v = Some t.

Lemma copyout_ok r L1 L0 AS fuel : forall s va src,
  vinv s -> ptrep (pmem s) r L1 L0 AS -> uspace (pmem s) r L1 L0 AS -> 0 <= va -> (length src < fuel)%nat ->
  exists res s' n, copyout_loop junk fuel (r * PGSIZE) va src s = Ret res s' /\ vinv s' /\ ptrep (pmem s') r L1 L0 AS /\ uspace (pmem s') r L1 L0 AS /\
    ve s' = ve s /\ kernel_pagetable s' = kernel_pagetable s /\
    (forall va', uread (pmem s') AS va' = if decide (va <= va' < va + Z.of_nat n) then src !! Z.to_nat (va' - va) else uread (pmem s) AS va') /\
    (forall t, ~ is_user AS t -> pmem s' !! t = pmem s !! t) /\
    (res = 0 /\ n = length src \/ res = -1 /\ (n < length src)%nat /\ uread (pmem s) AS (va + Z.of_nat n) = None).
Proof.
  induction fuel as [|fuel IH]; intros s va src Hv Hp Hu Hva Hlen; [lia|]. cbn [copyout_loop].
  destruct (Z.leb_spec (Z.of_nat (length src)) 0).
  { exists 0, s, O. split_and!; try done; [intros va'; by rewrite decide_False by lia|left; split; [done|lia]]. }
  destruct (page_split va Hva) as (_ & Eo & Hm).
  destruct (page_case s r L1 L0 AS va Hv Hp Hu Hva) as [[E1 Hn]|(pn & d & E1 & Hne & Hpn & Hlt & Hup & Hd & Hdl)]; run E1.
  { exists (-1), s, O. split_and!; try done; [intros va'; by rewrite decide_False by lia|right]. rewrite Z.add_0_r. split_and!; [done|lia|done]. }
  rewrite (proj2 (Z.eqb_neq _ 0) Hne), !Eo. set (len := Z.of_nat (length src)) in *.
  set (n := if len <? PGSIZE - va mod PGSIZE then len else PGSIZE - va mod PGSIZE).
  assert (Hnr : 0 < n <= PGSIZE - va mod PGSIZE /\ n <= len) by (unfold n; destruct (Z.ltb_spec len (PGSIZE - va mod PGSIZE)); lia).
  assert (Htk : Z.of_nat (length (take (Z.to_nat n) src)) = n) by (rewrite length_take; lia).
  destruct (st_bytes_ok s r L1 L0 AS va pn d (take (Z.to_nat n) src)) as (s1 & E2 & Hv1 & Hp1 & Hu1 & Hve1 & Hk1 & Hr1 & Ho1); try done; try lia.
  run E2. rewrite (next_page va) by lia. rewrite Htk in Hr1.
  set (va2 := va + (PGSIZE - va mod PGSIZE)).
  destruct (IH s1 va2 (drop (Z.to_nat n) src) Hv1 Hp1 Hu1) as (res & s2 & k & E3 & Hv2 & Hp2 & Hu2 & Hve2 & Hk2 & Hr2 & Ho2 & Hres);
    [unfold va2; lia|rewrite length_drop; lia|].
  rewrite length_drop in Hres. exists res, s2, (Z.to_nat n + k)%nat.
  assert (Hk0 : n = len \/ va2 = va + n) by (unfold va2, n in *; destruct (Z.ltb_spec len (PGSIZE - va mod PGSIZE)); lia).
  assert (Hkn : n = len -> k = O) by (intros Hnl; destruct Hres as [[_ ->]|(_ & Hk & _)]; lia).
  split_and!; try done; [congruence|congruence| |..].
  - intros va'. rewrite Hr2, Hr1. destruct (decide (va <= va' < va + n)) as [H1|H1].
    + rewrite decide_False by (destruct Hk0 as [Hk0|Hk0]; [specialize (Hkn Hk0)|]; lia). rewrite decide_True by lia. by apply lookup_take_lt; lia.
    + destruct (decide (va2 <= va' < va2 + Z.of_nat k)) as [H2|H2].
      * destruct Hk0 as [Hk0|Hk0]; [specialize (Hkn Hk0); lia|]. rewrite decide_True by lia. rewrite lookup_drop. f_equal. lia.
      * rewrite decide_False; [done|]. destruct Hk0 as [Hk0|Hk0]; [specialize (Hkn Hk0)|]; lia.
  - intros t Ht. rewrite Ho2 by done. apply Ho1. intros ->. apply Ht. by exists (va / PGSIZE).
  - destruct Hres as [[-> ->]|(-> & Hk & Hnone)]; [left; split; [done|lia]|right]. split_and!; [done|lia|].
    destruct Hk0 as [Hk0|Hk0]; [lia|]. rewrite Hr1 in Hnone. rewrite decide_False in Hnone by lia. rewrite <- Hnone. f_equal. lia.
Qed.

(** ** The first process *)

Lemma RWXU_range : 0 <= RWXU < 1024.
Proof. unfold RWXU. done. Qed.

Lemma leaf_RWXU q : 0 <= q < 2 ^ 44 -> has (leaf_pte q RWXU) PTE_U = true /\ pte_page (leaf_pte q RWXU) = q.
Proof.
  intros Hq. unfold leaf_pte. change (Z.lor RWXU 1) with 31. split; [|unfold pte_page; symmetry; apply Z.div_unique with 31; lia].
  unfold has, PTE_U. apply negb_true_iff, Z.eqb_neq. intros Hb. assert (Ht : Z.testbit (Z.land (q * 1024 + 31) 16) 4 = true).
  { rewrite Z.land_spec. change (Z.testbit 16 4) with true. rewrite andb_true_r. rewrite Z.testbit_true by lia.
    change (2 ^ 4) with 16. replace (q * 1024 + 31) with (15 + (q * 64 + 1) * 16) by lia. rewrite Z.div_add by lia.
    change (15 / 16) with 0. replace (0 + (q * 64 + 1)) with (1 + q * 32 * 2) by lia. by rewrite Z.mod_add by lia. }
  rewrite Hb in Ht. by rewrite Z.bits_0 in Ht.
Qed.

(** [uvminit] puts the program into page 0 when there is memory for it; it does
    not notice when there is not. *)
Lemma uvminit_ok (junk_length : forall e p, length (junk e p) = 4096%nat) fuel r s L1 L0 AS src :
  vinv s -> ptrep (pmem s) r L1 L0 AS -> AS !! 0 = None -> (length src < 4096)%nat -> (0 < fuel)%nat ->
  uvminit junk fuel (r * PGSIZE) src s = Fault \/
  exists (mapped : bool) s' L1' L0' q, uvminit junk fuel (r * PGSIZE) src s = Ret tt s' /\ vinv s' /\
    ptrep (pmem s') r L1' L0' (if mapped then <[0 := leaf_pte q RWXU]> AS else AS) /\
    pmem s' !! q = Some (splice 0 src zero_page) /\ ~ is_table r L1' L0' q /\ 0 < q < 2 ^ 44 /\
    (forall u d, pmem s !! u = Some d -> ~ is_table r L1 L0 u -> pmem s' !! u = Some d).
Proof.
  intros Hv Hp H0 Hlen Hf. unfold uvminit. rewrite (proj2 (Z.leb_gt _ _)) by (unfold PGSIZE; lia).
  destruct (kalloc_ok junk junk_length s Hv) as (p & s1 & E1 & Hv1 & _ & Hm). run E1.
  destruct Hm as [[-> Hm]|(q & d & -> & Hq & Hqn & Hm & Hd)].
  { left. unfold clear_page, st_page, ld_page, bind. change (0 / PGSIZE) with 0.
    destruct (pmem s1 !! 0) as [d|] eqn:Ed; [|done]. destruct (vi_live _ Hv1 0 d Ed). lia. }
  right. assert (Hqp : is_Some (pmem s1 !! q)) by (rewrite Hm, lookup_insert_eq; eauto). run (clear_page_ok s1 q Hqp).
  set (s2 := set_pmem _ s1). assert (Hm2 : pmem s2 = <[q := zero_page]> (pmem s)) by (cbn; rewrite Hm; apply insert_insert_eq).
  assert (Hqt : ~ is_table r L1 L0 q) by (by apply (fresh_not_table (pmem s) r L1 L0 AS)).
  assert (Hv2 : vinv s2).
  { apply vinv_pmem; [done|apply zero_sized, Hv1|]. intros u. rewrite lookup_insert. case_decide; [by subst|done]. }
  assert (Hp2 : ptrep (pmem s2) r L1 L0 AS).
  { eapply ptrep_frame; [exact Hp|apply Hv2|]. intros u Hu. rewrite Hm2. apply lookup_insert_ne. by intros <-. }
  destruct (mappages_one junk junk_length r s2 L1 L0 AS fuel 0 q RWXU Hv2 Hp2 ltac:(lia) ltac:(lia) RWXU_range H0 Hf)
    as (res & s3 & P1 & P0 & E3 & Hv3 & Hg3 & _ & Hres). change (0 * PGSIZE) with 0 in E3. run E3.
  assert (Hq3 : pmem s3 !! q = Some zero_page) by (apply (gr_keep Hg3); [rewrite Hm2; apply lookup_insert_eq|done]).
  assert (Hqt3 : ~ is_table r P1 P0 q).
  { intros Ht. destruct (gr_new Hg3 q Ht) as [?|Hn]; [done|]. rewrite Hm2, lookup_insert_eq in Hn. done. }
  assert (E4 : st_bytes (q * PGSIZE) src s3 = Ret tt (set_pmem (<[q := splice 0 src zero_page]> (pmem s3)) s3)).
  { unfold st_bytes. rewrite <- (page_number q) in Hq3. run (ld_page_ok s3 _ zero_page Hq3). rewrite st_page_ok by eauto. rewrite page_number.
    by rewrite Z.mod_mul by (unfold PGSIZE; lia). }
  set (s4 := set_pmem _ s3) in E4. assert (Hs4 : sized (pmem s4)).
  { intros u b. cbn [s4 set_pmem pmem]. rewrite lookup_insert. case_decide; [|apply (vi_sized _ Hv3)]. intros E5. injection E5 as <-.
    assert (Hz : length zero_page = 4096%nat) by apply length_replicate. rewrite splice_length by lia. done. }
  assert (Hf4 : forall AS', ptrep (pmem s3) r P1 P0 AS' -> ptrep (pmem s4) r P1 P0 AS').
  { intros AS' Hp'. eapply ptrep_frame; [exact Hp'|done|]. intros u Hu. cbn [s4 set_pmem pmem]. apply lookup_insert_ne. by intros <-. }
  exists (res =? 0), s4, P1, P0, q. split; [exact E4|]. split_and!; [..|lia|lia|].
  - apply vinv_pmem; [done|exact Hs4|]. intros u. rewrite lookup_insert. case_decide; [subst; rewrite Hq3; eauto|done].
  - destruct Hres as [[-> Hp3]|(-> & Hp3 & _)]; by apply Hf4.
  - apply lookup_insert_eq.
  - done.
  - intros u b Hu Ht. cbn [s4 set_pmem pmem]. rewrite lookup_insert_ne by congruence. apply (gr_keep Hg3); [|done]. rewrite Hm2, lookup_insert_ne; congruence.
Qed.
End Copy.
