(* ===== verification/VmFork.v ===== *)
(** * Copying an address space

    [uvmcopy] gives the child its own copy of every page of the parent, or takes
    everything back; when memory runs out at the very first page it panics. *)

From S2P Require Import Prelude Riscv AllocI Bytes Vm VmSpec VmMap VmCopy.

Section Fork.
Context {E : Type} {Ecx : HasCtx E} {Eal : Alloc E} {Epa : PageAlloc E} (junk : E -> Z -> page).
Context (junk_length : forall e p, length (junk e p) = 4096%nat).

(** The parent's page table and its first pages [ptes]. *)
Context (r : Z) (L1 L0 AS : gmap Z Z) (ptes : list Z).
(** The child's page table, at the start. *)
Context (r' : Z) (M1 M0 BS : gmap Z Z) (s0 : vms E).

Record forkable : Prop := {
  fk_inv : vinv s0;
  fk_old : ptrep (pmem s0) r L1 L0 AS;
  fk_new : ptrep (pmem s0) r' M1 M0 BS;
  fk_apart : forall t, is_table r L1 L0 t -> ~ is_table r' M1 M0 t;
  fk_size : Z.of_nat (length ptes) <= 2 ^ 26;
  fk_pte : forall v pte, ptes !! v = Some pte -> AS !! Z.of_nat v = Some pte /\ PTE_FLAGS pte <> PTE_V /\
    is_Some (pmem s0 !! pte_page pte) /\ ~ is_table r' M1 M0 (pte_page pte);
  fk_empty : forall v, 0 <= v < Z.of_nat (length ptes) -> BS !! v = None
}.

Hypothesis Hfk : forkable.

(** The child's entry for its copy [q] of the page of [pte]. *)
Definition copy_pte (q pte : Z) : Z := leaf_pte q (PTE_FLAGS pte).

(** The first pages are copied, to the pages [qs]. *)
Record halfway (s : vms E) (N1 N0 : gmap Z Z) (qs : list Z) : Prop := {
  hw_inv : vinv s;
  hw_old : ptrep (pmem s) r L1 L0 AS;
  hw_fresh : forall q, q ∈ qs -> pmem s0 !! q = None /\ ~ is_table r' N1 N0 q /\ 0 < q < 2 ^ 44;
  hw_nodup : NoDup qs;
  hw_data : forall i q pte, qs !! i = Some q -> ptes !! i = Some pte -> pmem s !! q = pmem s0 !! pte_page pte;
  hw_keep : forall t d, pmem s0 !! t = Some d -> ~ is_table r' M1 M0 t -> pmem s !! t = Some d;
  hw_table : forall t, is_table r' N1 N0 t -> is_table r' M1 M0 t \/ pmem s0 !! t = None;
  hw_dom : forall t, is_Some (pmem s0 !! t) -> is_Some (pmem s !! t);
  hw_kpt : kernel_pagetable s = kernel_pagetable s0;
  hw_other : forall t, ~ is_table r' N1 N0 t -> t ∉ qs -> pmem s !! t = pmem s0 !! t
}.

(** The child's map: copies of the first pages. *)
Definition child (qs : list Z) (CS : gmap Z Z) : Prop := forall v, CS !! v =
  if decide (0 <= v < Z.of_nat (length qs)) then q ← qs !! Z.to_nat v; pte ← ptes !! Z.to_nat v; Some (copy_pte q pte) else BS !! v.

Lemma halfway_start : halfway s0 M1 M0 [].
Proof.
  destruct Hfk. split; try done.
  - intros q Hq. by apply not_elem_of_nil in Hq.
  - apply NoDup_nil_2.
  - by left.
Qed.

Lemma pte_flags_range pte : 0 <= PTE_FLAGS pte < 1024.
Proof. unfold PTE_FLAGS. change 1023 with (Z.ones 10). rewrite Z.land_ones by lia. apply Z.mod_pos_bound. lia. Qed.

(** An entry of the copy has the flags of the original. *)
Lemma copy_pte_ok q pte : 0 < q < 2 ^ 44 -> pte_ok pte -> pte_page (copy_pte q pte) = q /\ PTE_FLAGS (copy_pte q pte) = PTE_FLAGS pte.
Proof.
  intros Hq (pn & f & Hp & Hf & Ho & ->). unfold copy_pte, leaf_pte. assert (Ef : PTE_FLAGS (pn * 1024 + f) = f) by (by apply pte_flags_eq).
  rewrite Ef. assert (El : Z.lor f 1 = f).
  { apply Z.bits_inj'. intros n Hn. rewrite Z.lor_spec. destruct (decide (n = 0)) as [->|Hn0]; [rewrite Z.bit0_odd, Ho; done|].
    change 1 with (2 ^ 0). rewrite Z.pow2_bits_false by lia. apply orb_false_r. }
  rewrite El. split; [|by apply pte_flags_eq]. unfold pte_page. symmetry. apply Z.div_unique with f; lia.
Qed.

(** The page of the parent is where it was. *)
Lemma halfway_page s N1 N0 qs i pte :
  halfway s N1 N0 qs -> ptes !! i = Some pte ->
  exists d, pmem s !! pte_page pte = Some d /\ pmem s0 !! pte_page pte = Some d /\ length d = 4096%nat /\ pte_ok pte.
Proof.
  intros Hh Hi. destruct (fk_pte Hfk i pte Hi) as (Ha & _ & [d Hd] & Hnt). exists d.
  split_and!; [by apply (hw_keep _ _ _ _ Hh)|done|by apply (vi_sized _ (fk_inv Hfk) (pte_page pte))|by apply (pr_dom (fk_old Hfk)) in Ha as [_ Ha]].
Qed.

(** Parent tables and old pages are none of the child's tables. *)
Lemma old_not_table s N1 N0 qs t :
  halfway s N1 N0 qs -> is_Some (pmem s0 !! t) -> ~ is_table r' M1 M0 t -> ~ is_table r' N1 N0 t.
Proof. intros Hh [d Hd] Hm Hn. destruct (hw_table _ _ _ _ Hh t Hn) as [Ho|Ho]; [done|congruence]. Qed.

Lemma copied_page s N1 N0 qs q : halfway s N1 N0 qs -> (length qs <= length ptes)%nat -> q ∈ qs -> is_Some (pmem s !! q).
Proof.
  intros Hh Hl Hq. apply list_elem_of_lookup in Hq as [i Hi]. pose proof (lookup_lt_Some _ _ _ Hi).
  destruct (lookup_lt_is_Some_2 ptes i ltac:(lia)) as [pte Hp]. rewrite (hw_data _ _ _ _ Hh i q pte Hi Hp). apply (fk_pte Hfk i pte Hp).
Qed.

(** The child's tables grow, nothing else happens. *)
Lemma halfway_tables s s' N1 N0 P1 P0 qs :
  halfway s N1 N0 qs -> (length qs <= length ptes)%nat -> vinv s' -> grown s s' r' N1 N0 P1 P0 ->
  halfway s' P1 P0 qs.
Proof.
  intros Hh Hl Hv Hg. assert (Hnt : forall t, is_Some (pmem s0 !! t) -> ~ is_table r' M1 M0 t -> ~ is_table r' N1 N0 t) by (intros t; by apply (old_not_table s N1 N0 qs)).
  split; try done.
  - eapply ptrep_frame; [apply (hw_old _ _ _ _ Hh)|apply Hv|]. intros t Ht. destruct (pr_page (hw_old _ _ _ _ Hh) t Ht) as [[d Hd] _].
    rewrite Hd. apply (gr_keep Hg); [done|]. apply Hnt; [apply (pr_page (fk_old Hfk) t Ht)|by apply (fk_apart Hfk)].
  - intros q Hq. destruct (hw_fresh _ _ _ _ Hh q Hq) as (H1 & H2 & H3). split_and!; [done| |lia|lia].
    intros Ht. destruct (gr_new Hg q Ht) as [Hn|Hn]; [done|]. destruct (copied_page s N1 N0 qs q Hh Hl Hq). congruence.
  - apply (hw_nodup _ _ _ _ Hh).
  - intros i q pte Hi Hpt. rewrite <- (hw_data _ _ _ _ Hh i q pte Hi Hpt).
    pose proof (list_elem_of_lookup_2 _ _ _ Hi) as Hq. destruct (copied_page s N1 N0 qs q Hh Hl Hq) as [d Hd]. rewrite Hd.
    apply (gr_keep Hg); [done|]. apply (hw_fresh _ _ _ _ Hh q Hq).
  - intros t d Ht Hm. apply (gr_keep Hg); [by apply (hw_keep _ _ _ _ Hh)|]. apply Hnt; eauto.
  - intros t Ht. destruct (gr_new Hg t Ht) as [Hn|Hn]; [by apply (hw_table _ _ _ _ Hh)|]. right.
    destruct (pmem s0 !! t) as [d|] eqn:Ed; [|done]. destruct (hw_dom _ _ _ _ Hh t ltac:(eauto)). congruence.
  - intros t Ht. by apply (gr_dom Hg), (hw_dom _ _ _ _ Hh).
  - rewrite (gr_kpt Hg). apply (hw_kpt _ _ _ _ Hh).
  - intros t Ht Hq. assert (Hn : ~ is_table r' N1 N0 t) by (intros Hn; apply Ht, (gr_old Hg), Hn).
    rewrite <- (hw_other _ _ _ _ Hh t Hn Hq). destruct (pmem s !! t) as [d|] eqn:Ed; [by apply (gr_keep Hg)|].
    destruct (pmem s' !! t) as [d|] eqn:Ed'; [|done]. destruct (gr_only Hg t ltac:(eauto)) as [[d' Hd']|Hx]; [congruence|done].
Qed.

(** One more page is copied, to the fresh page [q]. *)
Lemma halfway_push s s' N1 N0 qs q pte d :
  halfway s N1 N0 qs -> vinv s' -> pmem s !! q = None -> 0 < q < 2 ^ 44 -> ~ is_table r' N1 N0 q ->
  pmem s' = <[q := d]> (pmem s) -> kernel_pagetable s' = kernel_pagetable s ->
  ptes !! length qs = Some pte -> pmem s0 !! pte_page pte = Some d -> halfway s' N1 N0 (qs ++ [q]).
Proof.
  intros Hh Hv Hq Hqr Hnt Hm Hk Hpte Hd. pose proof (lookup_lt_Some _ _ _ Hpte) as Hl.
  assert (Hq0 : pmem s0 !! q = None).
  { destruct (pmem s0 !! q) as [e|] eqn:Ee; [|done]. destruct (hw_dom _ _ _ _ Hh q ltac:(eauto)). congruence. }
  assert (Hqs : q ∉ qs) by (intros Hin; destruct (copied_page s N1 N0 qs q Hh ltac:(lia) Hin); congruence).
  assert (Hne : forall t, is_Some (pmem s0 !! t) -> t <> q) by (intros t [e He] ->; congruence).
  split; try done.
  - eapply ptrep_frame; [apply (hw_old _ _ _ _ Hh)|apply Hv|]. intros t Ht. rewrite Hm. apply lookup_insert_ne.
    intros <-. destruct (pr_page (hw_old _ _ _ _ Hh) q Ht) as [[e He] _]. congruence.
  - intros x Hx. apply elem_of_app in Hx as [Hx|Hx]; [by apply (hw_fresh _ _ _ _ Hh)|]. by apply list_elem_of_singleton in Hx as ->.
  - apply list.NoDup_app. split_and!; [apply (hw_nodup _ _ _ _ Hh)| |apply NoDup_singleton].
    intros x Hx Hx'. apply list_elem_of_singleton in Hx' as ->. done.
  - intros i x pt Hi Hpt. rewrite Hm. apply lookup_app_Some in Hi as [Hi|[Hge Hi]].
    + rewrite lookup_insert_ne; [by apply (hw_data _ _ _ _ Hh i)|]. intros <-. apply Hqs. by eapply list_elem_of_lookup_2.
    + apply list_lookup_singleton_Some in Hi as [Hi ->]. assert (i = length qs) as -> by lia. rewrite lookup_insert_eq. congruence.
  - intros t e Ht Hm'. rewrite Hm, lookup_insert_ne by (intros <-; congruence). by apply (hw_keep _ _ _ _ Hh).
  - apply (hw_table _ _ _ _ Hh).
  - intros t Ht. rewrite Hm, lookup_insert. case_decide; [eauto|by apply (hw_dom _ _ _ _ Hh)].
  - rewrite Hk. apply (hw_kpt _ _ _ _ Hh).
  - intros t Ht Hn. rewrite not_elem_of_app in Hn. destruct Hn as [Hn Hn'].
    rewrite Hm, lookup_insert_ne; [by apply (hw_other _ _ _ _ Hh)|]. intros ->. apply Hn'. by left.
Qed.

(** ... and taken back, when its entry could not be made. *)
Lemma halfway_drop s N1 N0 qs q s' :
  halfway s N1 N0 (qs ++ [q]) -> vinv s' -> pmem s' = base.delete q (pmem s) -> kernel_pagetable s' = kernel_pagetable s ->
  halfway s' N1 N0 qs.
Proof.
  intros Hh Hv Hm Hk. pose proof (hw_nodup _ _ _ _ Hh) as Hnd. apply list.NoDup_app in Hnd as (Hnd & Hx & _).
  assert (Hq : q ∉ qs) by (intros Hq; apply (Hx q Hq); by left).
  destruct (hw_fresh _ _ _ _ Hh q ltac:(apply elem_of_app; right; by left)) as (Hq0 & Hqt & _).
  split; try done.
  - eapply ptrep_frame; [apply (hw_old _ _ _ _ Hh)|apply Hv|]. intros t Ht. rewrite Hm. apply lookup_delete_ne.
    intros <-. destruct (pr_page (fk_old Hfk) q Ht) as [[e He] _]. congruence.
  - intros x Hx'. apply (hw_fresh _ _ _ _ Hh). apply elem_of_app. by left.
  - intros i x pt Hi Hpt. rewrite Hm. rewrite lookup_delete_ne; [apply (hw_data _ _ _ _ Hh i); [by apply lookup_app_l_Some|done]|].
    intros <-. apply Hq. by eapply list_elem_of_lookup_2.
  - intros t e Ht Hm'. rewrite Hm, lookup_delete_ne by (intros <-; congruence). by apply (hw_keep _ _ _ _ Hh).
  - apply (hw_table _ _ _ _ Hh).
  - intros t Ht. rewrite Hm, lookup_delete_ne by (intros <-; destruct Ht; congruence). by apply (hw_dom _ _ _ _ Hh).
  - rewrite Hk. apply (hw_kpt _ _ _ _ Hh).
  - intros t Ht Hn. rewrite Hm, lookup_delete. case_decide as E1; [by subst t|]. apply (hw_other _ _ _ _ Hh); [done|].
    apply not_elem_of_app. split; [done|]. intros Hin. apply list_elem_of_singleton in Hin. congruence.
Qed.

(** Copying a whole page. *)
Lemma copy_page_ok (s : vms E) pn q d e :
  pmem s !! pn = Some d -> pmem s !! q = Some e -> length d = 4096%nat -> length e = 4096%nat ->
  ld_bytes (pn * PGSIZE) PGSIZE s = Ret d s /\ st_bytes (q * PGSIZE) d s = Ret tt (set_pmem (<[q := d]> (pmem s)) s).
Proof.
  intros Hd He Hdl Hel. assert (Ea : forall t, t * PGSIZE / PGSIZE = t /\ t * PGSIZE mod PGSIZE = 0).
  { intros t. split; [apply page_number|apply Z.mod_mul; unfold PGSIZE; lia]. }
  destruct (Ea pn) as [E1 E2]. destruct (Ea q) as [E3 E4]. split.
  - unfold ld_bytes. rewrite <- E1 in Hd. run (ld_page_ok s _ d Hd). rewrite E2. unfold slice. change (Z.to_nat 0) with O. rewrite drop_0.
    rewrite take_ge; [done|]. unfold PGSIZE. lia.
  - unfold st_bytes. rewrite <- E3 in He. run (ld_page_ok s _ e He). rewrite st_page_ok by eauto. rewrite E3, E4.
    unfold splice. change (Z.to_nat 0) with O. rewrite take_0. cbn [app]. rewrite drop_ge by lia. by rewrite app_nil_r.
Qed.

(** The parent's entry of page [i]. *)
Lemma old_entry s N1 N0 qs i pte :
  halfway s N1 N0 qs -> ptes !! i = Some pte -> exists a t x,
    walk junk (r * PGSIZE) (Z.of_nat i * PGSIZE) false s = Ret a s /\ a <> 0 /\ a = t * PGSIZE + 8 * x /\
    ld64 a s = Ret pte s /\ has pte PTE_V = true.
Proof.
  intros Hh Hi. destruct (fk_pte Hfk i pte Hi) as (Ha & _). pose proof (lookup_lt_Some _ _ _ Hi). pose proof (fk_size Hfk).
  pose proof (hw_old _ _ _ _ Hh) as Hp. set (v := Z.of_nat i) in *.
  assert (Hva : 0 <= v * PGSIZE < MAXVA) by (change MAXVA with (2 ^ 38); unfold PGSIZE; lia).
  destruct (index_va _ Hva) as (i2 & j & x & Hix). pose proof (ix_v _ _ _ _ Hix) as Hvx. rewrite page_number in Hvx. pose proof (ix_x _ _ _ _ Hix) as Hx.
  pose proof (walk_ok junk s r L1 L0 AS _ i2 j x Hp Hva Hix) as E1.
  destruct (L0 !! (i2 * 512 + j)) as [t|] eqn:Et; [|by rewrite (no_table s r L1 L0 AS i2 j x v Hp Hx Hvx Et) in Ha].
  destruct (entry_at s r L1 L0 AS i2 j x v t Hp Hx Hvx Et) as (Htp & Hlf & Hok). rewrite Ha in Hlf.
  destruct (pr_page Hp t ltac:(eauto with vm)) as [_ Htr]. exists (t * PGSIZE + 8 * x), t, x. cbn in Hlf.
  split_and!; [done|unfold PGSIZE; lia|done|rewrite (ld64_ok s t x Htp Hx); by rewrite Hlf|].
  by apply (has_leaf pte (Some pte)); [|intros ? [= <-]; apply Hok].
Qed.

(** The error exit of [uvmcopy]. *)
Definition give_back (fuel : nat) (i : Z) : M (vms E) Z := uvmunmap junk fuel (r' * PGSIZE) 0 i true ;;; ret (-1).

Lemma child_push qs CS q pte :
  child qs CS -> ptes !! length qs = Some pte -> child (qs ++ [q]) (<[Z.of_nat (length qs) := copy_pte q pte]> CS).
Proof.
  intros Hc Hp v. rewrite lookup_insert, length_app. cbn [length]. case_decide as E1.
  - subst v. rewrite decide_True by lia. rewrite Nat2Z.id, list_lookup_middle by done. cbn. by rewrite Hp.
  - rewrite Hc. destruct (decide (0 <= v < Z.of_nat (length qs))).
    + rewrite decide_True by lia. by rewrite lookup_app_l by lia.
    + by rewrite decide_False by lia.
Qed.

(** A round of the loop of [uvmcopy], up to the allocation. *)
Lemma copy_run s N1 N0 qs n fuel sz pte :
  halfway s N1 N0 qs -> ptes !! length qs = Some pte -> Z.of_nat (length qs) * PGSIZE < sz ->
  let i := Z.of_nat (length qs) in
  uvmcopy_loop junk (S n) fuel (r * PGSIZE) (r' * PGSIZE) (i * PGSIZE) sz s =
    (mem <- kalloc_page junk ;; (if mem =? 0 then give_back fuel (i * PGSIZE) else
      d <- ld_bytes (pte_page pte * PGSIZE) PGSIZE ;; st_bytes mem d ;;;
      r0 <- mappages junk fuel (r' * PGSIZE) (i * PGSIZE) PGSIZE mem (PTE_FLAGS pte) ;;
      (if negb (r0 =? 0) then kfree_page mem ;;; give_back fuel (i * PGSIZE) else
       uvmcopy_loop junk n fuel (r * PGSIZE) (r' * PGSIZE) ((i + 1) * PGSIZE) sz))) s.
Proof.
  intros Hh Hi Hsz i. pose proof (lookup_lt_Some _ _ _ Hi) as Hl. pose proof (fk_size Hfk) as Hsize.
  destruct (old_entry s N1 N0 qs _ pte Hh Hi) as (a & t & x & E1 & Ha & -> & E2 & HV). fold i in E1.
  destruct (halfway_page s N1 N0 qs _ pte Hh Hi) as (d & _ & _ & _ & Hok). destruct (pte_page_eq pte Hok) as [Ept _].
  cbn [uvmcopy_loop]. rewrite (proj2 (Z.leb_gt _ _)) by done. run E1. rewrite (proj2 (Z.eqb_neq _ 0) Ha). run E2. rewrite HV. cbn [negb].
  rewrite Ept. replace (u64 (i * PGSIZE + PGSIZE)) with ((i + 1) * PGSIZE); [done|]. rewrite u64_small by (unfold PGSIZE; lia). lia.
Qed.

Lemma copy_step s N1 N0 CS qs n fuel sz pte :
  halfway s N1 N0 qs -> ptrep (pmem s) r' N1 N0 CS -> child qs CS -> ptes !! length qs = Some pte -> (0 < fuel)%nat ->
  Z.of_nat (length qs) * PGSIZE < sz ->
  let i := Z.of_nat (length qs) in
  exists s' P1 P0,
    (uvmcopy_loop junk (S n) fuel (r * PGSIZE) (r' * PGSIZE) (i * PGSIZE) sz s = give_back fuel (i * PGSIZE) s' /\
     halfway s' P1 P0 qs /\ ptrep (pmem s') r' P1 P0 CS /\ ~ rich 3 (ve s)) \/
    (exists q, uvmcopy_loop junk (S n) fuel (r * PGSIZE) (r' * PGSIZE) (i * PGSIZE) sz s =
        uvmcopy_loop junk n fuel (r * PGSIZE) (r' * PGSIZE) ((i + 1) * PGSIZE) sz s' /\
     halfway s' P1 P0 (qs ++ [q]) /\ ptrep (pmem s') r' P1 P0 (<[i := copy_pte q pte]> CS) /\ spends 3 s s').
Proof.
  intros Hh Hp Hc Hi Hf Hsz i. pose proof (lookup_lt_Some _ _ _ Hi) as Hl. pose proof (fk_size Hfk) as Hsize.
  destruct (halfway_page s N1 N0 qs _ pte Hh Hi) as (d & Hd & Hd0 & Hdl & Hok).
  unfold i. rewrite (copy_run s N1 N0 qs n fuel sz pte Hh Hi Hsz). fold i.
  destruct (kalloc_ok junk junk_length s (hw_inv _ _ _ _ Hh)) as (m & s1 & E3 & Hv1 & Hk1 & Hm). destruct (kalloc_rich junk s m s1 E3) as [Hsp1 Hnr1]. run E3.
  destruct Hm as [[-> Hm]|(q & e & -> & Hq & Hqn & Hm & Hel)].
  { exists s1, N1, N0. left. split_and!; [done| |by rewrite Hm|intros Hr; by apply (Hnr1 eq_refl), (rich_less 2)].
    apply (halfway_tables s s1 N1 N0); [done|lia|done|]. split; [done|by rewrite Hm|by rewrite Hm|by left|done|rewrite Hm; by left]. }
  rewrite (proj2 (Z.eqb_neq (q * PGSIZE) 0)) by (unfold PGSIZE; lia).
  assert (Hpq : pte_page pte <> q) by (intros Heq; rewrite Heq in Hd; congruence).
  destruct (copy_page_ok s1 (pte_page pte) q d e) as [E4 E5]; [by rewrite Hm, lookup_insert_ne|by rewrite Hm, lookup_insert_eq|done|done|].
  run E4. run E5. set (s2 := set_pmem _ s1). assert (Hm2 : pmem s2 = <[q := d]> (pmem s)) by (cbn; rewrite Hm; apply insert_insert_eq).
  assert (Hqt : ~ is_table r' N1 N0 q) by (by apply (fresh_not_table (pmem s) r' N1 N0 CS)).
  assert (Hv2 : vinv s2).
  { apply vinv_pmem; [done| |].
    - intros u b. rewrite lookup_insert. case_decide; [intros [= <-]; done|apply (vi_sized _ Hv1)].
    - intros u. rewrite lookup_insert. case_decide; [subst; rewrite Hm, lookup_insert_eq; eauto|done]. }
  pose proof (halfway_push s s2 N1 N0 qs q pte d Hh Hv2 Hqn Hq Hqt Hm2 Hk1 Hi Hd0) as Hh2.
  assert (Hp2 : ptrep (pmem s2) r' N1 N0 CS).
  { eapply ptrep_frame; [exact Hp|apply Hv2|]. intros u Hu. rewrite Hm2. apply lookup_insert_ne. by intros <-. }
  destruct (mappages_one junk junk_length r' s2 N1 N0 CS fuel i q (PTE_FLAGS pte) Hv2 Hp2) as (res & s3 & P1 & P0 & E6 & Hv3 & Hg3 & Hsp3 & Hres); [lia|lia|apply pte_flags_range| |done|].
  { rewrite Hc, decide_False by lia. apply (fk_empty Hfk). lia. }
  pose proof (halfway_tables s2 s3 N1 N0 P1 P0 (qs ++ [q]) Hh2 ltac:(rewrite length_app; cbn; lia) Hv3 Hg3) as Hh3. run E6.
  destruct Hres as [[-> Hp3]|(-> & Hp3 & Hnr3)].
  - exists s3, P1, P0. right. exists q. split_and!; try done. exact (spends_trans 1 2 s s1 s3 Hsp1 Hsp3).
  - destruct (hw_fresh _ _ _ _ Hh3 q ltac:(apply elem_of_app; right; by left)) as (_ & Hqt3 & _).
    assert (Hq3 : pmem s3 !! q = Some d) by (rewrite (hw_data _ _ _ _ Hh3 (length qs) q pte); [done|by apply list_lookup_middle|done]).
    destruct (kfree_ok s3 q d Hv3 Hq3) as (s4 & E7 & Hv4 & Hk4 & Hm4). exists s4, P1, P0. left. split_and!.
    + change (negb (-1 =? 0)) with true. cbv iota. by run E7.
    + by apply (halfway_drop s3 P1 P0 qs q).
    + eapply ptrep_frame; [exact Hp3|apply Hv4|]. intros u Hu. rewrite Hm4. apply lookup_delete_ne. by intros <-.
    + exact (spends_short 1 2 s s1 Hsp1 Hnr3).
Qed.

(** Everything is as before, except for tables of the child. *)
Record undone (s : vms E) : Prop := {
  ud_inv : vinv s;
  ud_old : ptrep (pmem s) r L1 L0 AS;
  ud_new : exists P1 P0 CS, ptrep (pmem s) r' P1 P0 CS /\ (forall v, CS !! v = BS !! v) /\
    (forall t, is_table r' P1 P0 t -> is_table r' M1 M0 t \/ pmem s0 !! t = None) /\
    (forall t, ~ is_table r' P1 P0 t -> pmem s !! t = pmem s0 !! t)
}.

Lemma give_back_ok s P1 P0 CS qs fuel :
  halfway s P1 P0 qs -> ptrep (pmem s) r' P1 P0 CS -> child qs CS -> qs <> [] -> (length qs <= length ptes)%nat -> (length ptes <= fuel)%nat ->
  exists s', give_back fuel (Z.of_nat (length qs) * PGSIZE) s = Ret (-1) s' /\ undone s'.
Proof.
  intros Hh Hp Hc Hne Hl Hf. pose proof (fk_size Hfk) as Hsize. set (cs := zip_with copy_pte qs ptes).
  assert (Hcl : length cs = length qs) by (unfold cs; rewrite length_zip_with; lia).
  assert (Hcs : forall i c, cs !! i = Some c -> exists q pte, qs !! i = Some q /\ ptes !! i = Some pte /\ c = copy_pte q pte /\ pte_ok pte /\ 0 < q < 2 ^ 44).
  { intros i c Hi. apply lookup_zip_with_Some in Hi as (q & pte & -> & Hq & Hpt). exists q, pte. split_and!; try done.
    - by destruct (halfway_page s P1 P0 qs i pte Hh Hpt) as (_ & _ & _ & _ & Hok).
    - apply (hw_fresh _ _ _ _ Hh q). by eapply list_elem_of_lookup_2.
    - apply (hw_fresh _ _ _ _ Hh q). by eapply list_elem_of_lookup_2. }
  assert (Hpages : pte_page <$> cs = qs).
  { apply list_eq. intros i. rewrite list_lookup_fmap. destruct (cs !! i) as [c|] eqn:Ei.
    - destruct (Hcs i c Ei) as (q & pte & Hq & Hpt & -> & Hok & Hqr). cbn. rewrite Hq. f_equal. by apply copy_pte_ok.
    - cbn. symmetry. apply lookup_ge_None in Ei. apply lookup_ge_None. lia. }
  destruct (unmap_ok junk r' P1 P0 true cs s CS fuel 0 (hw_inv _ _ _ _ Hh) Hp) as (s' & E1 & Hv' & _ & (AS' & Hp' & HAS') & Hm'); [lia|lia| |lia| | |].
  { intros E1. apply Hne. apply nil_length_inv. rewrite <- Hcl, E1. done. }
  { intros i c Hi. destruct (Hcs i c Hi) as (q & pte & Hq & Hpt & -> & Hok & Hqr). destruct (copy_pte_ok q pte Hqr Hok) as [Epg Efl]. split.
    - pose proof (lookup_lt_Some _ _ _ Hq). rewrite Hc, decide_True by lia. rewrite Z.add_0_l, Nat2Z.id, Hq. cbn. by rewrite Hpt.
    - rewrite Efl. apply (fk_pte Hfk i pte Hpt).
    - intros _. rewrite Epg. pose proof (list_elem_of_lookup_2 _ _ _ Hq) as Hin. split; [by apply (copied_page s P1 P0 qs)|apply (hw_fresh _ _ _ _ Hh q Hin)]. }
  { intros _. rewrite Hpages. apply (hw_nodup _ _ _ _ Hh). }
  exists s'. rewrite Hcl, Hpages in *. split.
  - unfold give_back, uvmunmap. rewrite (bind_ret_l _ _ s tt s'); [done|]. rewrite <- E1. f_equal.
    rewrite Z.add_0_l. assert (0 < Z.of_nat (length qs)) by (destruct qs; [done|cbn; lia]).
    rewrite u64_small by (unfold PGSIZE; lia). rewrite PGROUNDDOWN_eq.
    replace (Z.of_nat (length qs) * PGSIZE - 1) with (PGSIZE - 1 + (Z.of_nat (length qs) - 1) * PGSIZE) by lia.
    rewrite Z.mod_add by (unfold PGSIZE; lia). rewrite Z.mod_small by (unfold PGSIZE; lia). lia.
  - assert (Hother : forall t, ~ is_table r' P1 P0 t -> pmem s' !! t = pmem s0 !! t).
    { intros t Ht. rewrite Hm' by done. destruct (decide (true = true /\ t ∈ qs)) as [[_ Hq]|Hq];
        [symmetry; by apply (hw_fresh _ _ _ _ Hh t)|]. apply (hw_other _ _ _ _ Hh); [done|]. intros Hx. by apply Hq. }
    split; [done| |exists P1, P0, AS'; split_and!; [done| |apply (hw_table _ _ _ _ Hh)|done]].
    + eapply ptrep_frame; [apply (fk_old Hfk)|apply Hv'|]. intros t Ht. apply Hother.
      eapply old_not_table; [exact Hh|apply (pr_page (fk_old Hfk) t Ht)|by apply (fk_apart Hfk)].
    + intros v. rewrite HAS', Hc. rewrite Z.add_0_l.
      destruct (decide (0 <= v < Z.of_nat (length qs))); [|done]. symmetry. apply (fk_empty Hfk). lia.
Qed.

(** Nothing was mapped yet: unmapping an empty range panics. *)
Lemma give_back_panics s P1 P0 CS fuel :
  ptrep (pmem s) r' P1 P0 CS -> CS !! 0 = None -> (0 < fuel)%nat -> exists m, give_back fuel 0 s = Panic m.
Proof.
  intros Hp H0 Hf. destruct fuel as [|fuel]; [lia|]. unfold give_back, uvmunmap. change (PGROUNDDOWN 0) with (0 * PGSIZE).
  assert (Hva : 0 <= 0 * PGSIZE < MAXVA) by (change MAXVA with (2 ^ 38); unfold PGSIZE; lia).
  destruct (index_va _ Hva) as (i & j & x & Hix). pose proof (ix_v _ _ _ _ Hix) as Hvx. rewrite page_number in Hvx. pose proof (ix_x _ _ _ _ Hix) as Hx.
  pose proof (walk_ok junk s r' P1 P0 CS _ i j x Hp Hva Hix) as E1. cbn [uvmunmap_loop]. unfold bind at 1. rewrite (bind_ret_l _ _ _ _ _ E1).
  destruct (P0 !! (i * 512 + j)) as [t|] eqn:Et; [|cbn; eauto].
  destruct (entry_at s r' P1 P0 CS i j x 0 t Hp Hx Hvx Et) as (Htp & Hlf & _). rewrite H0 in Hlf.
  destruct (pr_page Hp t ltac:(eauto with vm)) as [_ Htr]. rewrite (proj2 (Z.eqb_neq _ 0)) by (unfold PGSIZE; lia).
  rewrite (bind_ret_l _ _ _ _ _ (ld64_ok s t x Htp Hx)). rewrite (has_leaf _ None Hlf) by done. cbn. eauto.
Qed.

(** The child has its own copy of every page. *)
Record copied (s : vms E) : Prop := {
  cp_inv : vinv s;
  cp_old : ptrep (pmem s) r L1 L0 AS;
  cp_new : exists P1 P0 CS qs, ptrep (pmem s) r' P1 P0 CS /\ child qs CS /\ length qs = length ptes /\ NoDup qs /\
    (forall i q pte, qs !! i = Some q -> ptes !! i = Some pte -> pmem s !! q = pmem s0 !! pte_page pte) /\
    (forall q, q ∈ qs -> pmem s0 !! q = None /\ ~ is_table r' P1 P0 q);
  cp_keep : forall t d, pmem s0 !! t = Some d -> ~ is_table r' M1 M0 t -> pmem s !! t = Some d
}.

Lemma copy_loop_ok fuel sz k : forall s N1 N0 CS qs n,
  halfway s N1 N0 qs -> ptrep (pmem s) r' N1 N0 CS -> child qs CS -> (length qs + k = length ptes)%nat -> (k < n)%nat ->
  (length ptes <= fuel)%nat -> (0 < fuel)%nat -> (Z.of_nat (length ptes) - 1) * PGSIZE < sz <= Z.of_nat (length ptes) * PGSIZE ->
  (exists s', uvmcopy_loop junk n fuel (r * PGSIZE) (r' * PGSIZE) (Z.of_nat (length qs) * PGSIZE) sz s = Ret 0 s' /\ copied s') \/
  (exists s', uvmcopy_loop junk n fuel (r * PGSIZE) (r' * PGSIZE) (Z.of_nat (length qs) * PGSIZE) sz s = Ret (-1) s' /\ undone s' /\
     ~ rich (3 * k) (ve s)) \/
  (exists m, uvmcopy_loop junk n fuel (r * PGSIZE) (r' * PGSIZE) (Z.of_nat (length qs) * PGSIZE) sz s = Panic m /\ qs = [] /\ ~ rich 3 (ve s)).
Proof.
  induction k as [|k IH]; intros s N1 N0 CS qs n Hh Hp Hc Hlen Hn Hf Hf0 Hsz; (destruct n as [|n]; [lia|]).
  - left. exists s. cbn [uvmcopy_loop]. rewrite (proj2 (Z.leb_le _ _)) by (replace (length qs) with (length ptes) by lia; lia).
    split; [done|]. split; [apply Hh|apply Hh| |apply (hw_keep _ _ _ _ Hh)]. exists N1, N0, CS, qs. split_and!; try done; [lia|apply Hh|apply Hh|].
    intros q Hq. by destruct (hw_fresh _ _ _ _ Hh q Hq) as (H1 & H2 & _).
  - destruct (lookup_lt_is_Some_2 ptes (length qs) ltac:(lia)) as [pte Hi].
    destruct (copy_step s N1 N0 CS qs n fuel sz pte Hh Hp Hc Hi Hf0) as (s' & P1 & P0 & [(E1 & Hh' & Hp' & Hnr)|(q & E1 & Hh' & Hp' & Hsp)]); [unfold PGSIZE in *; lia| |].
    + right. destruct (decide (qs = [])) as [->|Hne].
      * right. destruct (give_back_panics s' P1 P0 CS fuel Hp') as [m E2]; [|done|exists m; split_and!; [rewrite E1; exact E2|done|done]].
        rewrite Hc, decide_False by (cbn; lia). apply (fk_empty Hfk). lia.
      * left. destruct (give_back_ok s' P1 P0 CS qs fuel Hh' Hp' Hc Hne) as (s2 & E2 & Hud); [lia|lia|]. exists s2. rewrite E1, E2.
        split_and!; [done|done|]. intros Hr. apply Hnr, (rich_less (3 * k)). by replace (3 * k + 3)%nat with (3 * S k)%nat by lia.
    + rewrite E1. destruct (IH s' P1 P0 _ (qs ++ [q]) n Hh' Hp' (child_push qs CS q pte Hc Hi)) as [Hx|[(s2 & Hx & Hu & Hk)|(m & Hx & Hnil & _)]];
        rewrite ?length_app in *; cbn [length] in *; try lia; replace (Z.of_nat (length qs) + 1) with (Z.of_nat (length qs + 1)) by lia;
        [by left|right; left; exists s2; split_and!; [done|done|]|by destruct qs].
      replace (3 * S k)%nat with (3 + 3 * k)%nat by lia. by apply (spends_short 3 _ s s').
Qed.

(** No memory for the first page. *)
Lemma copy_oom fuel n sz e :
  malloc PGSIZE (ve s0) = Ret 0 e -> ptes <> [] -> 0 < sz -> (0 < fuel)%nat ->
  exists m, uvmcopy_loop junk (S n) fuel (r * PGSIZE) (r' * PGSIZE) 0 sz s0 = Panic m.
Proof.
  intros E1 Hne Hsz Hf. destruct (lookup_lt_is_Some_2 ptes O) as [pte Hi]; [destruct ptes; [done|cbn; lia]|].
  pose proof (copy_run s0 M1 M0 [] n fuel sz pte halfway_start Hi ltac:(cbn; lia)) as E2. cbn [length] in E2.
  change (Z.of_nat 0 * PGSIZE) with 0 in E2. rewrite E2. unfold kalloc_page.
  destruct (give_back_panics (set_ve e s0) M1 M0 BS fuel (fk_new Hfk)) as [m E3]; [|done|].
  - apply (fk_empty Hfk). split; [lia|]. apply lookup_lt_Some in Hi. lia.
  - exists m. rewrite (bind_ret_l _ _ s0 0 (set_ve e s0)); [exact E3|]. by run (on_e_ok (malloc PGSIZE) s0 0 e E1).
Qed.
End Fork.
