(* ===== verification/VmProps.v ===== *)
(** * Virtual memory: its guarantees

    The page allocator of the kernel discharges what vm.c needs, and the theorems
    about [mappages], [copyout], [copyin], [copyinstr] and [uvmcopy], each on a
    machine with a small heap. *)

From S2P Require Import Prelude Riscv ListC Buddy BuddyTree AllocI BuddySpec BuddyInit BuddyProps Bytes Vm VmSpec VmMap VmCopy VmFork.

(** ** Pages from the buddy allocator *)

Definition paged (s : buddy) : Prop :=
  bd_inv s /\ cx_wf (cx s) /\ buddy_lock ∉ held (cx s) /\ (PGSIZE | bd_base s) /\
  bd_base s + BLK_SIZE (nsizes s - 1) <= 2 ^ 56.

Lemma page_block k : 0 <= k -> PGSIZE <= BLK_SIZE k -> (PGSIZE | BLK_SIZE k).
Proof.
  unfold PGSIZE, BLK_SIZE, LEAF_SIZE. intros Hk Hs. assert (8 <= k).
  { destruct (decide (8 <= k)); [done|]. assert (2 ^ k <= 2 ^ 7) by (apply Z.pow_le_mono_r; lia). lia. }
  replace k with (k - 8 + 8) by lia. rewrite Z.pow_add_r by lia. exists (2 ^ (k - 8)). lia.
Qed.

Lemma paged_malloc e p e' :
  paged e -> bd_malloc PGSIZE e = Ret p e' -> paged e' /\ (p <> 0 -> exists t, p = t * PGSIZE /\ 0 < t < 2 ^ 44).
Proof.
  intros (Hi & Hw & Hu & [b Hb] & Hend) E. destruct (bd_malloc_ok e PGSIZE Hi Hw Hu ltac:(unfold PGSIZE; lia))
    as (p' & e1 & fk & E1 & Hi' & Hc & Hns & Hbase & Hfk & Hcase).
  rewrite E1 in E. injection E as <- <-.
  assert (Hp1 : paged e1).
  { split_and!; [done|rewrite Hc; by apply touch_wf|by rewrite Hc|rewrite Hbase; by exists b|by rewrite Hns, Hbase]. }
  split; [done|]. intros Hne. destruct Hcase as [[-> _]|(i & -> & Hnh & _ & Hused)]; [done|].
  destruct (firstk_ok PGSIZE ltac:(unfold PGSIZE; lia)) as (fk' & Hfk' & Hk & Hsz & _). assert (fk' = fk) as -> by congruence.
  destruct (page_block fk ltac:(lia) Hsz) as [c Hc'].
  assert (Hval : valid (nsizes e - 1) fk i) by (destruct (proj2 (Hused fk i) (or_intror eq_refl)) as [[Hv _] _]; done).
  assert (Hlive : bd_live e1 (bd_base e + i * BLK_SIZE fk) (BLK_SIZE fk)).
  { exists fk, i. rewrite Hns, Hbase. split_and!; try done. apply Hused. by right. }
  destruct (bd_live_pos e1 _ _ Hi' Hlive) as [Hpos _]. destruct Hval as [Hkr Hir].
  assert (Htop : (i + 1) * BLK_SIZE fk <= BLK_SIZE (nsizes e - 1)).
  { unfold BLK_SIZE, LEAF_SIZE. replace (nsizes e - 1) with ((nsizes e - 1 - fk) + fk) at 1 by lia. rewrite Z.pow_add_r by lia. nia. }
  exists (b + i * c). rewrite Hb, Hc' in *. unfold PGSIZE in *. split; [lia|]. split; nia.
Qed.

Lemma paged_mfree e p z e' : paged e -> bd_live e p z -> bd_free p e = Ret tt e' -> paged e'.
Proof.
  intros (Hi & Hw & Hu & Hb & Hend) Hl E. destruct (bd_free_live e p z Hi Hw Hu Hl) as (e1 & E1 & Hi' & Hc & Hbase & _).
  destruct Hl as (k & i & Hused & Hnh & -> & ->). destruct (bd_free_ok e k i Hi Hw Hu Hused Hnh) as (e2 & E2 & _ & _ & Hns & _).
  assert (e2 = e1) as -> by congruence. assert (e' = e1) as -> by congruence.
  split_and!; [done|rewrite Hc; by apply touch_wf|by rewrite Hc|by rewrite Hbase|by rewrite Hns, Hbase].
Qed.

#[export] Instance buddy_pages : PageAlloc buddy := {|
  pa_inv := paged;
  pa_alloc := fun e H => conj (proj1 H) (conj (proj1 (proj2 H)) (proj1 (proj2 (proj2 H))));
  pa_malloc := paged_malloc;
  pa_mfree := paged_mfree
|}.

(** ** A machine to try them on

    The parent has one page, which starts with [hello]; the child has none. *)

Definition old_bytes (_ : buddy) (_ : Z) : page := replicate 4096 5.

Lemma old_bytes_length e p : length (old_bytes e p) = 4096%nat.
Proof. apply length_replicate. Qed.

Definition hello : list Z := [104; 105; 0].

Definition demo_prog : M (vms buddy) (Z * Z) :=
  pt <- uvmcreate old_bytes ;;
  uvminit old_bytes 1 pt hello ;;;
  pt2 <- uvmcreate old_bytes ;;
  ret (pt, pt2).

Record demo_state (s : vms buddy) (t t2 q : Z) (L1 L0 : gmap Z Z) : Prop := {
  ds_inv : vinv s;
  ds_parent : ptrep (pmem s) t L1 L0 {[0 := leaf_pte q RWXU]};
  ds_child : ptrep (pmem s) t2 ∅ ∅ ∅;
  ds_page : pmem s !! q = Some (splice 0 hello zero_page);
  ds_range : 0 < q < 2 ^ 44;
  ds_parent_q : ~ is_table t L1 L0 q;
  ds_child_q : q <> t2;
  ds_apart : ~ is_table t L1 L0 t2
}.

Lemma table_alone t u : is_table t ∅ ∅ u <-> u = t.
Proof. split; [intros [->|[[i Hi]|[k Hi]]]; [done|..]; by rewrite lookup_empty in Hi|by left]. Qed.

Lemma demo_prog_ok s0 pt pt2 s :
  vinv s0 -> demo_prog s0 = Ret (pt, pt2) s -> walkaddr old_bytes pt 0 s <> Ret 0 s ->
  exists t t2 q L1 L0, pt = t * PGSIZE /\ pt2 = t2 * PGSIZE /\ demo_state s t t2 q L1 L0.
Proof.
  intros Hv E Hw. unfold demo_prog in E. destruct (uvmcreate_ok old_bytes old_bytes_length s0 Hv) as [Ep|(t & s1 & E1 & Hv1 & Hp1 & Ht & Hn1 & Ho1)].
  { unfold bind in E. by rewrite Ep in E. }
  rewrite (bind_ret_l _ _ _ _ _ E1) in E. cbv beta in E.
  destruct (uvminit_ok old_bytes old_bytes_length 1 t s1 ∅ ∅ ∅ hello Hv1 Hp1 (lookup_empty _) ltac:(cbn; lia) ltac:(lia))
    as [Ef|(mapped & s2 & L1 & L0 & q & E2 & Hv2 & Hp2 & Hq & Hqt & Hqr & Ho2)]; [unfold bind in E; by rewrite Ef in E|].
  rewrite (bind_ret_l _ _ _ _ _ E2) in E. cbv beta in E.
  destruct (uvmcreate_ok old_bytes old_bytes_length s2 Hv2) as [Ep|(t2 & s3 & E3 & Hv3 & Hp3 & Ht2 & Hn3 & Ho3)].
  { unfold bind in E. by rewrite Ep in E. }
  rewrite (bind_ret_l _ _ _ _ _ E3) in E. injection E as <- <- <-. exists t, t2, q, L1, L0. split_and!; [done|done|].
  assert (Htab : ~ is_table t L1 L0 t2) by (intros Hx; destruct (pr_page Hp2 t2 Hx) as [[d Hd] _]; congruence).
  assert (Hp3' : ptrep (pmem s3) t L1 L0 (if mapped then <[0 := leaf_pte q RWXU]> ∅ else ∅)).
  { eapply ptrep_frame; [exact Hp2|apply Hv3|]. intros u Hu. apply Ho3. by intros ->. }
  destruct mapped.
  - split; try done; [by rewrite Ho3 by congruence|congruence].
  - exfalso. apply Hw. assert (Hu : uspace (pmem s3) t L1 L0 ∅) by (split; [intros v pn|intros v v' pn]; unfold upage; by rewrite lookup_empty).
    pose proof (walkaddr_ok old_bytes s3 t L1 L0 ∅ 0 Hv3 Hp3' Hu ltac:(lia)) as E4. change (0 * PGSIZE) with 0 in E4. rewrite E4.
    rewrite decide_True by done. unfold upage. by rewrite lookup_empty.
Qed.

Definition heap1 : buddy := match bd_init 65536 122880 nomem with Ret _ s => s | _ => nomem end.
Definition demo0 : vms buddy := mkvm heap1 ∅ 0.

Lemma heap1_base : bd_base heap1 = 65536 /\ nsizes heap1 = 13.
Proof. vm_compute. split; reflexivity. Qed.

Lemma not_blk_57344 k : 0 <= k -> 122880 - ROUNDUP 65536 LEAF_SIZE <> BLK_SIZE k.
Proof.
  intros Hk He. change (122880 - ROUNDUP 65536 LEAF_SIZE) with 57344 in He. unfold BLK_SIZE, LEAF_SIZE in He. destruct (decide (k <= 11)).
  - assert (2 ^ k <= 2 ^ 11) by (apply Z.pow_le_mono_r; lia). lia.
  - assert (2 ^ 12 <= 2 ^ k) by (apply Z.pow_le_mono_r; lia). lia.
Qed.

Lemma heap1_inv : bd_inv heap1 /\ cx heap1 = ctx0.
Proof.
  destruct (bd_init_ok nomem 65536 122880 ltac:(lia) ltac:(done) not_blk_57344)
    as (mt & s' & _ & _ & E & Hr & _ & _ & Hc & _).
  assert (heap1 = s') as -> by (unfold heap1; by rewrite E). split; [by eapply rep_inv|done].
Qed.

#[global] Opaque heap1.

Lemma heap1_paged : paged heap1.
Proof.
  destruct heap1_inv as [Hi Hc]. destruct heap1_base as [Hb Hns]. split; [exact Hi|]. rewrite Hc, Hb, Hns.
  split_and!; [apply ctx0_wf|apply not_elem_of_nil|by exists 16|unfold BLK_SIZE, LEAF_SIZE; lia].
Qed.

Lemma demo0_inv : vinv demo0.
Proof. split; [apply heap1_paged|intros t d; cbn; by rewrite lookup_empty|intros t d; cbn; by rewrite lookup_empty]. Qed.

Lemma demo_runs : match demo_prog demo0 with
  | Ret (pt, _) s => match walkaddr old_bytes pt 0 s with Ret p _ => negb (p =? 0) | _ => false end | _ => false end = true.
Proof. vm_compute. reflexivity. Qed.

#[global] Opaque heap1.

Definition demo1 : vms buddy := match demo_prog demo0 with Ret _ s => s | _ => demo0 end.
Definition demo_pt : Z := match demo_prog demo0 with Ret (pt, _) _ => pt | _ => 0 end.
Definition demo_pt2 : Z := match demo_prog demo0 with Ret (_, pt) _ => pt | _ => 0 end.

Lemma demo1_ok : exists t t2 q L1 L0, demo_pt = t * PGSIZE /\ demo_pt2 = t2 * PGSIZE /\ demo_state demo1 t t2 q L1 L0.
Proof.
  unfold demo1, demo_pt, demo_pt2. pose proof demo_runs as Hr. pose proof demo0_inv as Hi. revert Hi Hr. generalize demo0. intros s0 Hi Hr.
  destruct (demo_prog s0) as [[pt pt2] s| | | |] eqn:E; try done. apply (demo_prog_ok s0 pt pt2 s Hi E).
  intros Hw. by rewrite Hw in Hr.
Qed.

#[global] Opaque demo1 demo_pt demo_pt2.

(** ** The claims *)

(** C26: [mappages] of [k] whole pages on a well-formed page table, none of
    them mapped yet, maps exactly those pages to consecutive physical pages with
    the given permissions and returns 0, or runs out of memory after mapping the
    first [n] of them and returns -1, which does not happen when two pages of
    memory for every page to map can be allocated.  No other virtual page changes, and no page
    of memory that is not a table of this page table. *)
Theorem mappages_spec (s : vms buddy) junk r L1 L0 AS k fuel v pn perm :
  (forall e p, length (junk e p) = 4096%nat) -> vinv s -> ptrep (pmem s) r L1 L0 AS ->
  0 <= v -> v + Z.of_nat k <= 2 ^ 26 -> 0 <= pn -> pn + Z.of_nat k <= 2 ^ 44 -> 0 <= perm < 1024 -> (0 < k <= fuel)%nat ->
  (forall u, v <= u < v + Z.of_nat k -> AS !! u = None) ->
  exists res s' L1' L0' AS' n, mappages junk fuel (r * PGSIZE) (v * PGSIZE) (Z.of_nat k * PGSIZE) (pn * PGSIZE) perm s = Ret res s' /\
    vinv s' /\ ptrep (pmem s') r L1' L0' AS' /\ (res = 0 /\ n = k \/ res = -1 /\ (n < k)%nat /\ ~ rich (2 * k) (ve s)) /\
    (forall u, AS' !! u = if decide (v <= u < v + Z.of_nat n) then Some (leaf_pte (pn + (u - v)) perm) else AS !! u) /\
    (forall t d, pmem s !! t = Some d -> ~ is_table r L1 L0 t -> pmem s' !! t = Some d).
Proof.
  intros Hj Hv Hp Hv0 Hvk Hp0 Hpk Hperm [Hk Hf] HAS.
  destruct (mappages_ok junk Hj r perm k s L1 L0 AS fuel v pn Hv Hp Hv0 Hvk Hp0 Hpk Hperm HAS Hk Hf)
    as (res & s' & L1' & L0' & n & E & Hv' & Hp' & Hg & _ & Hres).
  exists res, s', L1', L0', (map_pages n v pn perm AS), n. split_and!; [|done|done|done|intros u; apply map_pages_lookup|apply (gr_keep Hg)].
  rewrite <- E. unfold mappages. f_equal.
  - rewrite PGROUNDDOWN_eq, Z.mod_mul by (unfold PGSIZE; lia). lia.
  - rewrite u64_small by (unfold PGSIZE; lia). rewrite PGROUNDDOWN_eq.
    replace (v * PGSIZE + Z.of_nat k * PGSIZE - 1) with (PGSIZE - 1 + (v + Z.of_nat k - 1) * PGSIZE) by lia.
    rewrite Z.mod_add by (unfold PGSIZE; lia). rewrite Z.mod_small by (unfold PGSIZE; lia). lia.
Qed.

(** Witness: two device pages in the child's page table. *)
Lemma mappages_spec_witness : exists res s' t2 L1' L0' AS' n,
  demo_pt2 = t2 * PGSIZE /\ mappages old_bytes 2 demo_pt2 (7 * PGSIZE) (2 * PGSIZE) (1000 * PGSIZE) PTE_R demo1 = Ret res s' /\
  ptrep (pmem s') t2 L1' L0' AS' /\ (res = 0 /\ n = 2%nat \/ res = -1 /\ (n < 2)%nat /\ ~ rich (2 * 2) (ve demo1)).
Proof.
  destruct demo1_ok as (t & t2 & q & L1 & L0 & _ & E2 & [Hv _ Hc _ _ _ _ _]). rewrite E2.
  destruct (mappages_spec demo1 old_bytes t2 ∅ ∅ ∅ 2 2 7 1000 PTE_R old_bytes_length Hv Hc) as (res & s' & L1' & L0' & AS' & n & E & _ & H2 & H3 & _).
  - lia.
  - lia.
  - lia.
  - lia.
  - unfold PTE_R. lia.
  - lia.
  - intros u _. apply lookup_empty.
  - exists res, s', t2, L1', L0', AS', n. exact (conj eq_refl (conj E (conj H2 H3))).
Defined.

(** C27: [copyout] writes the bytes it is given to consecutive user addresses
    and returns 0, or stops at the first address that user mode cannot access
    and returns -1; no other user byte changes, nor does memory outside the
    user's pages.  A [copyin] of what was written gives it back. *)
Theorem copyout_copyin (s : vms buddy) junk r L1 L0 AS va src :
  vinv s -> ptrep (pmem s) r L1 L0 AS -> uspace (pmem s) r L1 L0 AS -> 0 <= va ->
  exists res s' n, copyout junk (r * PGSIZE) va src s = Ret res s' /\ vinv s' /\ ptrep (pmem s') r L1 L0 AS /\
    (res = 0 /\ n = length src \/ res = -1 /\ (n < length src)%nat /\ uread (pmem s) AS (va + Z.of_nat n) = None) /\
    (forall va', uread (pmem s') AS va' =
      if decide (va <= va' < va + Z.of_nat n) then src !! Z.to_nat (va' - va) else uread (pmem s) AS va') /\
    (forall t, ~ is_user AS t -> pmem s' !! t = pmem s !! t) /\
    copyin junk (r * PGSIZE) va (Z.of_nat n) s' = Ret (0, firstn n src) s'.
Proof.
  intros Hv Hp Hu Hva. destruct (copyout_ok junk r L1 L0 AS (S (length src)) s va src Hv Hp Hu Hva ltac:(lia))
    as (res & s' & n & E & Hv' & Hp' & Hu' & _ & _ & Hr & Ho & Hres).
  exists res, s', n. split_and!; try done. unfold copyin.
  assert (Hn : (n <= length src)%nat) by (destruct Hres as [[_ ->]|(_ & Hn & _)]; lia).
  destruct (copyin_ok junk s' r L1 L0 AS (S (Z.to_nat (Z.of_nat n))) va (Z.of_nat n) Hv' Hp' Hu' Hva ltac:(lia)) as (res' & b & E' & Hb & Hres').
  rewrite E'. assert (Hall : forall i, (i < n)%nat -> uread (pmem s') AS (va + Z.of_nat i) = src !! i).
  { intros i Hi. rewrite Hr, decide_True by lia. f_equal. lia. }
  destruct Hres' as [[-> Hl]|(-> & Hl & Hnone)].
  - do 2 f_equal. apply list_eq. intros i. destruct (decide (i < n)%nat) as [Hi|Hi].
    + rewrite lookup_take_lt by done. destruct (lookup_lt_is_Some_2 b i ltac:(lia)) as [x Hx]. rewrite Hx. rewrite <- (Hall i Hi). symmetry. by apply Hb.
    + rewrite lookup_take_ge by lia. apply lookup_ge_None. lia.
  - exfalso. rewrite Hall in Hnone by lia. apply lookup_ge_None in Hnone. lia.
Qed.

Lemma demo_uspace s t t2 q L1 L0 : demo_state s t t2 q L1 L0 -> uspace (pmem s) t L1 L0 {[0 := leaf_pte q RWXU]}.
Proof.
  intros [Hv Hp Hc Hq Hqr Hqt Hq2 Ha]. destruct (leaf_RWXU q ltac:(lia)) as [E1 E2].
  assert (Hup : forall v pn, upage {[0 := leaf_pte q RWXU]} v = Some pn -> v = 0 /\ pn = q).
  { intros v pn. unfold upage. destruct (decide (v = 0)) as [->|Hne]; [|by rewrite lookup_singleton_ne].
    rewrite lookup_singleton_eq, E1, E2. intros [= <-]. done. }
  split.
  - intros v pn Hv'. apply Hup in Hv' as [-> ->]. split; [rewrite Hq; eauto|done].
  - intros v v' pn H1 H2. apply Hup in H1 as [-> _]. apply Hup in H2 as [-> _]. done.
Qed.

(** Witness: three bytes that do not fit in the parent's page any more. *)
Lemma copyout_copyin_witness : exists res s' n,
  copyout old_bytes demo_pt 4094 [7; 8; 9] demo1 = Ret res s' /\
  copyin old_bytes demo_pt 4094 (Z.of_nat n) s' = Ret (0, firstn n [7; 8; 9]) s'.
Proof.
  destruct demo1_ok as (t & t2 & q & L1 & L0 & E1 & _ & Hd). rewrite E1.
  destruct (copyout_copyin demo1 old_bytes t L1 L0 {[0 := leaf_pte q RWXU]} 4094 [7; 8; 9] (ds_inv _ _ _ _ _ _ Hd)
    (ds_parent _ _ _ _ _ _ Hd) (demo_uspace _ _ _ _ _ _ Hd) ltac:(lia)) as (res & s' & n & E & _ & _ & _ & _ & _ & H).
  exists res, s', n. exact (conj E H).
Defined.

(** [copyinstr] copies a user string of at most [max] bytes with its
    terminator and returns 0; otherwise it returns -1, and what it wrote holds no
    terminator and ends at byte [max] or before the first address that user mode
    cannot access.  It never writes more than [max] bytes. *)
Theorem copyinstr_spec (s : vms buddy) junk r L1 L0 AS va max :
  vinv s -> ptrep (pmem s) r L1 L0 AS -> uspace (pmem s) r L1 L0 AS -> 0 <= va -> 0 <= max ->
  exists res b, copyinstr junk (r * PGSIZE) va max s = Ret (res, b) s /\ Z.of_nat (length b) <= max /\
    (forall i x, b !! i = Some x -> uread (pmem s) AS (va + Z.of_nat i) = Some x) /\
    (res = 0 /\ (exists w, b = w ++ [0] /\ 0 ∉ w) \/
     res = -1 /\ 0 ∉ b /\ (Z.of_nat (length b) = max \/ uread (pmem s) AS (va + Z.of_nat (length b)) = None)).
Proof.
  intros Hv Hp Hu Hva Hm. destruct (copyinstr_ok junk s r L1 L0 AS (S (Z.to_nat max)) va max Hv Hp Hu Hva ltac:(lia)) as (res & b & E & Hb & Hres).
  exists res, b. split_and!; [done| |done|].
  - destruct Hres as [(_ & Hl & _)|(_ & _ & [Hl|[Hl _]])]; lia.
  - destruct Hres as [(-> & Hl & Hw)|(-> & Hn & Hl)]; [by left|right]. split_and!; [done|done|]. destruct Hl as [Hl|[_ Hl]]; auto.
Qed.

(** Witness: the parent's [hello]. *)
Lemma copyinstr_spec_witness : exists res b, copyinstr old_bytes demo_pt 0 10 demo1 = Ret (res, b) demo1 /\ Z.of_nat (length b) <= 10.
Proof.
  destruct demo1_ok as (t & t2 & q & L1 & L0 & E1 & _ & Hd). rewrite E1.
  destruct (copyinstr_spec demo1 old_bytes t L1 L0 {[0 := leaf_pte q RWXU]} 0 10 (ds_inv _ _ _ _ _ _ Hd)
    (ds_parent _ _ _ _ _ _ Hd) (demo_uspace _ _ _ _ _ _ Hd) ltac:(lia) ltac:(lia)) as (res & b & E & H & _).
  exists res, b. exact (conj E H).
Defined.

(** C25: [uvmcopy] of a well-formed parent gives the child, for every page of
    the parent, its own fresh page with the same bytes and the same permissions,
    and returns 0.  When memory runs out, it takes back what it did and returns -1;
    but when there is none left for the first page and its tables, it panics.  The
    parent's page table and pages stay the same. *)
Theorem uvmcopy_spec (s : vms buddy) junk r L1 L0 AS ptes r' M1 M0 BS fuel sz :
  (forall e p, length (junk e p) = 4096%nat) -> forkable r L1 L0 AS ptes r' M1 M0 BS s -> (length ptes < fuel)%nat ->
  (Z.of_nat (length ptes) - 1) * PGSIZE < sz <= Z.of_nat (length ptes) * PGSIZE ->
  (exists s', uvmcopy junk fuel (r * PGSIZE) (r' * PGSIZE) sz s = Ret 0 s' /\ copied r L1 L0 AS ptes r' M1 M0 BS s s') \/
  (exists s', uvmcopy junk fuel (r * PGSIZE) (r' * PGSIZE) sz s = Ret (-1) s' /\ undone r L1 L0 AS r' M1 M0 BS s s' /\
     ~ rich (3 * length ptes) (ve s)) \/
  (exists m, uvmcopy junk fuel (r * PGSIZE) (r' * PGSIZE) sz s = Panic m /\ ~ rich 3 (ve s)).
Proof.
  intros Hj Hfk Hf Hsz. unfold uvmcopy.
  pose proof (copy_loop_ok junk Hj r L1 L0 AS ptes r' M1 M0 BS s Hfk fuel sz (length ptes) s M1 M0 BS [] fuel) as Hl.
  cbn [length] in Hl. change (Z.of_nat 0 * PGSIZE) with 0 in Hl.
  destruct Hl as [Hx|[Hx|(m & Hx & _ & Hn)]]; try lia; [eapply halfway_start; exact Hfk|apply Hfk|intros v; by rewrite decide_False by (cbn; lia)|by left|by right; left|right; right; eauto].
Qed.

Lemma RWXU_leaf q : 0 <= q < 2 ^ 44 -> PTE_FLAGS (leaf_pte q RWXU) <> PTE_V.
Proof. intros Hq. unfold leaf_pte. change (Z.lor RWXU 1) with 31. unfold PTE_FLAGS. rewrite pte_flags_eq by lia. done. Qed.

Lemma demo_forkable s t t2 q L1 L0 :
  demo_state s t t2 q L1 L0 -> forkable t L1 L0 {[0 := leaf_pte q RWXU]} [leaf_pte q RWXU] t2 ∅ ∅ ∅ s.
Proof.
  intros [Hv Hp Hc Hq Hqr Hqt Hq2 Ha]. destruct (leaf_RWXU q ltac:(lia)) as [_ E2]. split; try done.
  - intros u Hu Hx. apply table_alone in Hx as ->. done.
  - intros v pte Hi. apply list_lookup_singleton_Some in Hi as [-> <-]. rewrite E2, table_alone. change (Z.of_nat 0) with 0.
    split_and!; [apply lookup_singleton_eq|apply RWXU_leaf; lia|rewrite Hq; eauto|done].
Qed.

(** Witness: fork of the demo parent, with two more pages of memory to come. *)
Lemma uvmcopy_spec_witness : exists t L1 L0 AS ptes t2, demo_pt = t * PGSIZE /\ demo_pt2 = t2 * PGSIZE /\
  ((exists s', uvmcopy old_bytes 2 demo_pt demo_pt2 4096 demo1 = Ret 0 s' /\ copied t L1 L0 AS ptes t2 ∅ ∅ ∅ demo1 s') \/
   (exists s', uvmcopy old_bytes 2 demo_pt demo_pt2 4096 demo1 = Ret (-1) s' /\ undone t L1 L0 AS t2 ∅ ∅ ∅ demo1 s' /\
      ~ rich (3 * length ptes) (ve demo1)) \/
   (exists m, uvmcopy old_bytes 2 demo_pt demo_pt2 4096 demo1 = Panic m /\ ~ rich 3 (ve demo1))).
Proof.
  destruct demo1_ok as (t & t2 & q & L1 & L0 & E1 & E2 & Hd). exists t, L1, L0, {[0 := leaf_pte q RWXU]}, [leaf_pte q RWXU], t2.
  rewrite E1, E2. split; [reflexivity|split; [reflexivity|]].
  refine (uvmcopy_spec demo1 old_bytes t L1 L0 _ [leaf_pte q RWXU] t2 ∅ ∅ ∅ 2 4096 old_bytes_length (demo_forkable _ _ _ _ _ _ Hd) _ _).
  - cbn. lia.
  - cbn [length]. unfold PGSIZE. lia.
Defined.

(** When there is no memory for the first page, [uvmcopy], and with it
    fork, panics instead of returning -1: the error exit unmaps an empty range. *)
Theorem uvmcopy_oom_panics (s : vms buddy) junk r L1 L0 AS ptes r' M1 M0 BS fuel sz e :
  (forall e p, length (junk e p) = 4096%nat) -> forkable r L1 L0 AS ptes r' M1 M0 BS s -> ptes <> [] -> 0 < sz -> (0 < fuel)%nat ->
  bd_malloc PGSIZE (ve s) = Ret 0 e ->
  exists m, uvmcopy junk fuel (r * PGSIZE) (r' * PGSIZE) sz s = Panic m.
Proof.
  intros Hj Hfk Hne Hsz Hf E. destruct fuel as [|fuel]; [lia|].
  exact (copy_oom junk r L1 L0 AS ptes r' M1 M0 BS s Hfk (S fuel) fuel sz e E Hne Hsz Hf).
Qed.

(** All memory that is left is allocated. *)
Fixpoint drain (n : nat) : M (vms buddy) unit :=
  match n with
  | O => ret tt
  | S n => kalloc_page old_bytes ;;; drain n
  end.

Lemma demo_state_keep s s' t t2 q L1 L0 :
  demo_state s t t2 q L1 L0 -> vinv s' -> (forall u d, pmem s !! u = Some d -> pmem s' !! u = Some d) -> demo_state s' t t2 q L1 L0.
Proof.
  intros [Hv Hp Hc Hq Hqr Hqt Hq2 Ha] Hv' Hk. split; try done; [| |by apply Hk].
  - eapply ptrep_frame; [exact Hp|apply Hv'|]. intros u Hu. destruct (pr_page Hp u Hu) as [[d Hd] _]. rewrite Hd. by apply Hk.
  - eapply ptrep_frame; [exact Hc|apply Hv'|]. intros u Hu. destruct (pr_page Hc u Hu) as [[d Hd] _]. rewrite Hd. by apply Hk.
Qed.

Lemma drain_ok n t t2 q L1 L0 : forall s, demo_state s t t2 q L1 L0 -> exists s', drain n s = Ret tt s' /\ demo_state s' t t2 q L1 L0.
Proof.
  induction n as [|n IH]; intros s Hd; [by exists s|]. cbn [drain].
  destruct (kalloc_ok old_bytes old_bytes_length s (ds_inv _ _ _ _ _ _ Hd)) as (p & s1 & E1 & Hv1 & _ & Hm). run E1. apply IH.
  apply (demo_state_keep s); [done|done|]. destruct Hm as [[_ ->]|(u & e & _ & _ & Hn & -> & _)]; [done|].
  intros x d Hx. rewrite lookup_insert_ne; [done|congruence].
Qed.

Definition drained (s : vms buddy) : vms buddy := match drain 14 s with Ret _ s' => s' | _ => s end.

Lemma drained_ok s t t2 q L1 L0 : demo_state s t t2 q L1 L0 -> demo_state (drained s) t t2 q L1 L0.
Proof. intros Hd. unfold drained. by destruct (drain_ok 14 t t2 q L1 L0 s Hd) as (s' & -> & Hd'). Qed.

Definition no_page (e : buddy) : bool := match bd_malloc PGSIZE e with Ret p _ => p =? 0 | _ => false end.

Lemma no_page_ok e : no_page e = true -> exists e', bd_malloc PGSIZE e = Ret 0 e'.
Proof. unfold no_page. destruct (bd_malloc PGSIZE e) as [p e'| | | |]; try done. intros ->%Z.eqb_eq. eauto. Qed.

Definition demo_oom : vms buddy := drained demo1.

Lemma demo_oom_malloc : no_page (ve demo_oom) = true.
Proof. vm_compute. reflexivity. Qed.

Lemma demo_oom_ok : exists t t2 q L1 L0 e, demo_pt = t * PGSIZE /\ demo_pt2 = t2 * PGSIZE /\
  demo_state demo_oom t t2 q L1 L0 /\ bd_malloc PGSIZE (ve demo_oom) = Ret 0 e.
Proof.
  destruct demo1_ok as (t & t2 & q & L1 & L0 & E1 & E2 & Hd). destruct (no_page_ok _ demo_oom_malloc) as [e E3].
  exists t, t2, q, L1, L0, e. exact (conj E1 (conj E2 (conj (drained_ok demo1 _ _ _ _ _ Hd) E3))).
Qed.

#[global] Opaque demo_oom.

(** Witness: the machine after all memory was given away. *)
Lemma uvmcopy_oom_panics_witness : exists m, uvmcopy old_bytes 2 demo_pt demo_pt2 4096 demo_oom = Panic m.
Proof.
  destruct demo_oom_ok as (t & t2 & q & L1 & L0 & e & E1 & E2 & Hd & E). rewrite E1, E2.
  refine (uvmcopy_oom_panics demo_oom old_bytes t L1 L0 _ [leaf_pte q RWXU] t2 ∅ ∅ ∅ 2 4096 e old_bytes_length (demo_forkable _ _ _ _ _ _ Hd) _ _ _ E).
  - congruence.
  - lia.
  - lia.
Defined.
