(* ===== verification/Spinlock.v ===== *)
(** * kernel/spinlock.c: spin locks on several processors

    The machine has lock words in shared memory and processors that run the
    code of [acquire] and [release], one memory access at a time and in any
    interleaving.  A processor's context is the one of the prelude; the locks it
    holds and the context at the time of a call are ghost state.  The machine
    refines one in which [acquire] and [release] are the atomic operations of the
    prelude, and in that one a lock is never held twice. *)

From S2P Require Import Prelude StringC.

Definition MAXTRIES : Z := 100000.

Record spinlock := {
  locked : Z;
  lname : list Z;        (** the bytes of the name *)
  lcpu : option nat;     (** the cpu holding the lock *)
  lpc : Z;
  lpid : Z;
  ln : Z;                (** calls of acquire() *)
  nts : Z                (** failed test-and-sets *)
}.

(** A lock as [initlock] leaves it; [pc] and [pid] keep what was there. *)
Definition init_words (name : list Z) (pc pid : Z) : spinlock :=
  {| locked := 0; lname := name; lcpu := None; lpc := pc; lpid := pid; ln := 0; nts := 0 |}.

Definition set_locked v k := {| locked := v; lname := lname k; lcpu := lcpu k; lpc := lpc k; lpid := lpid k; ln := ln k; nts := nts k |}.
Definition set_owner o k := {| locked := locked k; lname := lname k; lcpu := o; lpc := lpc k; lpid := lpid k; ln := ln k; nts := nts k |}.
Definition set_info p q k := {| locked := locked k; lname := lname k; lcpu := lcpu k; lpc := p; lpid := q; ln := ln k; nts := nts k |}.
Definition set_n v k := {| locked := locked k; lname := lname k; lcpu := lcpu k; lpc := lpc k; lpid := lpid k; ln := v; nts := nts k |}.
Definition set_nts v k := {| locked := locked k; lname := lname k; lcpu := lcpu k; lpc := lpc k; lpid := lpid k; ln := ln k; nts := v |}.

(** ** The table of all locks

    [words] is the memory of the locks, [locks] and [nlock] are the variables of
    the code; what [print_lock] prints is kept in [printed]. *)
Record lockst := { words : gmap lock spinlock; locks : list (option lock); nlock : Z; printed : list (list Z * Z * Z) }.

Definition NLOCK : Z := 1000.

Definition set_words w s := {| words := w; locks := locks s; nlock := nlock s; printed := printed s |}.
Definition set_locks v n s := {| words := words s; locks := v; nlock := n; printed := printed s |}.
Definition add_printed x s := {| words := words s; locks := locks s; nlock := nlock s; printed := printed s ++ [x] |}.

Definition ld_lock (lk : lock) : M lockst spinlock := s <- gets (fun s => words s !! lk) ;; unwrap s.
Definition st_lock (lk : lock) (k : spinlock) : M lockst unit := ld_lock lk ;;; modify (fun s => set_words (<[lk := k]> (words s)) s).
Definition ld_locks (i : Z) : M lockst (option lock) := o <- gets (fun s => aget (locks s) i) ;; unwrap o.

Definition initlock (lk : lock) (name : list Z) : M lockst unit :=
  k <- ld_lock lk ;;
  st_lock lk (init_words name (lpc k) (lpid k)) ;;;
  n <- gets nlock ;;
  if NLOCK <=? n then panic "initlock" else
  v <- gets (fun s => aset (locks s) n (Some lk)) ;;
  v <- unwrap v ;;
  modify (set_locks v (s32 (n + 1))).

Definition print_lock (k : spinlock) : M lockst unit := when (0 <? ln k) (modify (add_printed (lname k, nts k, ln k))).

(** [for(int i = 0; i < NLOCK; i++)] with the break at a null pointer; [n]
    is the number of rounds left. *)
Fixpoint each_lock {A} (n : nat) (i : Z) (f : Z -> lock -> A -> M lockst A) (a : A) : M lockst A :=
  match n with
  | O => ret a
  | S n =>
      o <- ld_locks i ;;
      match o with
      | None => ret a
      | Some lk => a <- f i lk a ;; each_lock n (i + 1) f a
      end
  end.

Definition bcache_name : list Z := [98; 99; 97; 99; 104; 101].
Definition kmem_name : list Z := [107; 109; 101; 109].

(** [strncmp] with the length of the second string. *)
Definition starts_with (name pre : list Z) : bool := diff (take (length pre) name) pre =? 0.

Definition reset_lock (_ : Z) (lk : lock) (_ : unit) : M lockst unit := k <- ld_lock lk ;; st_lock lk (set_n 0 (set_nts 0 k)).

Definition count_lock (_ : Z) (lk : lock) (tot : Z) : M lockst Z :=
  k <- ld_lock lk ;;
  if starts_with (lname k) bcache_name || starts_with (lname k) kmem_name
  then print_lock k ;;; ret (s32 (tot + nts k))
  else ret tot.

(** The most contended lock below [last]; [last] is compared as unsigned. *)
Definition top_lock (last : Z) (i : Z) (lk : lock) (top : Z) : M lockst Z :=
  k <- ld_lock lk ;;
  o <- ld_locks top ;; lt <- unwrap o ;; kt <- ld_lock lt ;;
  if (nts kt <? nts k) && (nts k <? u32 last) then ret i else ret top.

Fixpoint top_loop (t : nat) (last : Z) : M lockst unit :=
  match t with
  | O => ret tt
  | S t =>
      top <- each_lock (Z.to_nat NLOCK) 0 (top_lock last) 0 ;;
      o <- ld_locks top ;; lt <- unwrap o ;; k <- ld_lock lt ;;
      print_lock k ;;;
      top_loop t (s32 (nts k))
  end.

(** [sys_ntas], with its argument. *)
Definition sys_ntas (zero : Z) : M lockst Z :=
  if zero =? 0 then each_lock (Z.to_nat NLOCK) 0 reset_lock tt ;;; ret 0 else
  tot <- each_lock (Z.to_nat NLOCK) 0 count_lock 0 ;;
  top_loop 5 100000000 ;;;
  ret tot.

(** The table holds the locks [ls], in the order of their initialization. *)
Record registered (s : lockst) (ls : list lock) : Prop := {
  rg_locks : locks s = (Some <$> ls) ++ replicate (1000 - length ls) None;
  rg_nlock : nlock s = Z.of_nat (length ls);
  rg_room : (length ls <= 1000)%nat;
  rg_words : forall l, l ∈ ls -> is_Some (words s !! l)
}.

Lemma ld_lock_ok s l k : words s !! l = Some k -> ld_lock l s = Ret k s.
Proof. intros Hk. unfold ld_lock. mstep. by rewrite Hk. Qed.

Lemma st_lock_ok s l k k' : words s !! l = Some k -> st_lock l k' s = Ret tt (set_words (<[l := k']> (words s)) s).
Proof. intros Hk. unfold st_lock. by run (ld_lock_ok s l k Hk). Qed.

Lemma registered_words s ls w : registered s ls -> (forall l, is_Some (words s !! l) -> is_Some (w !! l)) -> registered (set_words w s) ls.
Proof. intros [H1 H2 H3 H4] Hw. split; try done. intros l Hl. by apply Hw, H4. Qed.

(** A new lock goes to the end of the table, which holds 1000. *)
Lemma initlock_ok s ls lk name :
  registered s ls -> is_Some (words s !! lk) ->
  (exists s' k, initlock lk name s = Ret tt s' /\ registered s' (ls ++ [lk]) /\ words s' !! lk = Some k /\
     locked k = 0 /\ lcpu k = None /\ ln k = 0 /\ nts k = 0 /\ forall l, l <> lk -> words s' !! l = words s !! l) \/
  (length ls = 1000%nat /\ initlock lk name s = Panic "initlock").
Proof.
  intros Hr [k Hk]. unfold initlock. run (ld_lock_ok s lk k Hk). run (st_lock_ok s lk k (init_words name (lpc k) (lpid k)) Hk). set (w := <[lk := _]> (words s)). mstep.
  destruct Hr as [H1 H2 H3 H4]. cbn [nlock set_words locks]. rewrite H2. unfold NLOCK. destruct (Z.leb_spec 1000 (Z.of_nat (length ls))) as [Hn|Hn].
  { right. split; [lia|done]. }
  left. mstep. cbn [set_words locks]. rewrite H1. unfold aset.
  rewrite decide_True by (rewrite length_app, length_fmap, length_replicate; lia). rewrite Nat2Z.id. mstep.
  eexists _, _. split; [done|]. split_and!; [|apply lookup_insert_eq|done..|intros l Hl; by apply lookup_insert_ne]. split; cbn [set_locks set_words locks nlock words].
  - rewrite fmap_app, <- app_assoc, length_app. cbn [fmap list_fmap length app]. replace (1000 - length ls)%nat with (S (1000 - (length ls + 1))) by lia.
    cbn [replicate]. rewrite insert_app_r_alt by (rewrite length_fmap; lia). by rewrite length_fmap, Nat.sub_diag.
  - rewrite length_app. cbn. rewrite s32_small by lia. lia.
  - rewrite length_app. cbn. lia.
  - intros l Hl. unfold w. rewrite lookup_insert. case_decide; [eauto|]. apply elem_of_app in Hl as [Hl| ->%list_elem_of_singleton]; [by apply H4|done].
Qed.

Lemma ld_locks_ok s ls i : registered s ls -> (i < 1000)%nat -> ld_locks (Z.of_nat i) s = Ret (ls !! i) s.
Proof.
  intros [H1 _ H3 _] Hi. unfold ld_locks. mstep. rewrite aget_of_nat, H1. destruct (decide (i < length ls)%nat) as [Hl|Hl].
  - rewrite lookup_app_l by (rewrite length_fmap; lia). rewrite list_lookup_fmap. destruct (lookup_lt_is_Some_2 ls i Hl) as [x ->]. done.
  - rewrite lookup_app_r by (rewrite length_fmap; lia). rewrite length_fmap. rewrite (lookup_replicate_2 (1000 - length ls)) by lia.
    by rewrite (lookup_ge_None_2 ls i) by lia.
Qed.

(** [sys_ntas] with argument 0 clears the counters of the locks of the table
    and changes nothing else. *)
Lemma reset_locks_ok ls n : forall i s, registered s ls -> (i + n = 1000)%nat ->
  exists s', each_lock n (Z.of_nat i) reset_lock tt s = Ret tt s' /\ registered s' ls /\
    forall l, words s' !! l = if decide (l ∈ drop i ls) then (fun k => set_n 0 (set_nts 0 k)) <$> words s !! l else words s !! l.
Proof.
  induction n as [|n IH]; intros i s Hr Hi; cbn [each_lock].
  - exists s. split_and!; [done|done|]. intros l. rewrite decide_False; [done|]. rewrite drop_ge by (pose proof (rg_room _ _ Hr); lia). by apply not_elem_of_nil.
  - run (ld_locks_ok s ls i Hr ltac:(lia)). destruct (ls !! i) as [lk|] eqn:Hl.
    + destruct (rg_words _ _ Hr lk ltac:(by eapply list_elem_of_lookup_2)) as [k Hk].
      set (k' := set_n 0 (set_nts 0 k)). rewrite (bind_ret_l _ _ s tt (set_words (<[lk := k']> (words s)) s)); [|unfold reset_lock; run (ld_lock_ok s lk k Hk); by apply (st_lock_ok s lk k)].
      set (s1 := set_words _ s). destruct (IH (S i) s1) as (s' & E & Hr' & Hw); [|lia|].
      { apply registered_words; [done|]. intros l Hx. rewrite lookup_insert. case_decide; eauto. }
      exists s'. replace (Z.of_nat i + 1) with (Z.of_nat (S i)) by lia. split_and!; [done|done|]. intros l. rewrite Hw, (drop_S ls lk i Hl).
      cbn [s1 set_words words]. rewrite lookup_insert. destruct (decide (lk = l)) as [<-|Hne].
      * rewrite (decide_True (P := lk ∈ lk :: _)) by (by left). rewrite Hk. by case_decide.
      * apply decide_ext. rewrite elem_of_cons. intuition congruence.
    + exists s. split_and!; [done|done|]. intros l. rewrite decide_False; [done|]. apply lookup_ge_None in Hl. rewrite drop_ge by done. by apply not_elem_of_nil.
Qed.

Lemma sys_ntas_reset s ls : registered s ls ->
  exists s', sys_ntas 0 s = Ret 0 s' /\ registered s' ls /\
    forall l, words s' !! l = if decide (l ∈ ls) then (fun k => set_n 0 (set_nts 0 k)) <$> words s !! l else words s !! l.
Proof.
  intros Hr. destruct (reset_locks_ok ls 1000 0 s Hr ltac:(done)) as (s' & E & Hr' & Hw). exists s'. split_and!; [|done|done].
  unfold sys_ntas. cbn [Z.eqb]. change (Z.to_nat NLOCK) with 1000%nat. by run E.
Qed.

(** ** Where a processor is

    In [acquire]: the two reads of [holding], the count, the test-and-set with
    the local variables [nbtries] and [warned], the count of a failure, the record
    of the owner.  In [release]: the two reads of [holding], the store of [cpu],
    the store of [locked], [pop_off]. *)
Inductive apoint := AHold | AHoldCpu | ACount | ASwap (nbtries : Z) (warned : bool) | ANts (nbtries : Z) (warned : bool) | ARecord.
Inductive rpoint := RHold | RHoldCpu | RCpu | RStore | RPop.

Inductive point :=
| Run                                              (** outside of this file *)
| Acq (l : lock) (ra : Z) (c0 : ctx) (p : apoint)
| Rel (l : lock) (c0 : ctx) (p : rpoint)
| Stuck (c0 : ctx) (msg : string).                 (** after a panic *)

(** [acquire], after [push_off], on processor [i]. *)
Definition acquire_step (i : nat) (l : lock) (ra : Z) (c0 : ctx) (p : apoint) (k : spinlock) (c : ctx) : spinlock * ctx * point :=
  match p with
  | AHold => (k, c, Acq l ra c0 (if locked k =? 0 then ACount else AHoldCpu))
  | AHoldCpu => (k, c, if decide (lcpu k = Some i) then Stuck c0 "acquire" else Acq l ra c0 ACount)
  | ACount => (set_n (u32 (ln k + 1)) k, c, Acq l ra c0 (ASwap 0 false))
  | ASwap nbtries warned =>
      if locked k =? 0 then (set_locked 1 k, cx_held (cons l) c, Acq l ra c0 ARecord)
      else
        let nbtries := s32 (nbtries + 1) in
        (set_locked 1 k, c, Acq l ra c0 (ANts nbtries ((MAXTRIES <? nbtries) || warned)))
  | ANts nbtries warned => (set_nts (u32 (nts k + 1)) k, c, Acq l ra c0 (ASwap nbtries warned))
  | ARecord => (set_info (u64 (ra - 4)) (mypid c) (set_owner (Some i) k), c, Run)
  end.

Definition release_step (i : nat) (l : lock) (c0 : ctx) (p : rpoint) (k : spinlock) (c : ctx) : spinlock * ctx * point :=
  match p with
  | RHold => (k, c, if locked k =? 0 then Stuck c0 "release" else Rel l c0 RHoldCpu)
  | RHoldCpu => (k, c, if decide (lcpu k = Some i) then Rel l c0 RCpu else Stuck c0 "release")
  | RCpu => (set_owner None k, c, Rel l c0 RStore)
  | RStore => (set_locked 0 k, cx_held (remove_lock l) c, Rel l c0 RPop)
  | RPop =>
      if intr c then (k, c, Stuck c0 "pop_off - interruptible")
      else if noff c <? 1 then (k, c, Stuck c0 "pop_off")
      else (k, cx_pop c, Run)
  end.

(** ** The machine *)

Record machine := { mlocks : gmap lock spinlock; mcpus : list (ctx * point) }.

(** What the code outside of this file does next: it calls a function of this
    file, or turns interrupts on while no [push_off] is in force. *)
Inductive call := CAcquire (l : lock) (ra : Z) | CRelease (l : lock) | CPushOff | CPopOff | CIntrOn | CStep.

Definition put_cpu (i : nat) (c : ctx) (p : point) (m : machine) : machine := {| mlocks := mlocks m; mcpus := <[i := (c, p)]> (mcpus m) |}.
Definition put_lock (l : lock) (k : spinlock) (m : machine) : machine := {| mlocks := <[l := k]> (mlocks m); mcpus := mcpus m |}.

Definition cx_sti (c : ctx) : ctx :=
  {| noff := noff c; intena := intena c; intr := true; held := held c; mypid := mypid c; mykilled := mykilled c |}.

(** One step of processor [i]. *)
Definition cpu_step (i : nat) (a : call) (m : machine) : option machine :=
  '(c, p) ← mcpus m !! i;
  match p, a with
  | Run, CAcquire l ra => _ ← mlocks m !! l; Some (put_cpu i (cx_push c) (Acq l ra c AHold) m)
  | Run, CRelease l => _ ← mlocks m !! l; Some (put_cpu i c (Rel l c RHold) m)
  | Run, CPushOff => Some (put_cpu i (cx_push c) Run m)
  | Run, CPopOff => if Z.of_nat (length (held c)) <? noff c then Some (put_cpu i (cx_pop c) Run m) else None
  | Run, CIntrOn => if noff c =? 0 then Some (put_cpu i (cx_sti c) Run m) else None
  | Acq l ra c0 p, CStep =>
      k ← mlocks m !! l;
      let '(k, c, p) := acquire_step i l ra c0 p k c in Some (put_cpu i c p (put_lock l k m))
  | Rel l c0 p, CStep =>
      k ← mlocks m !! l;
      let '(k, c, p) := release_step i l c0 p k c in Some (put_cpu i c p (put_lock l k m))
  | _, _ => None
  end.

Inductive steps : machine -> machine -> Prop :=
| steps_refl m : steps m m
| steps_more m i a m1 m' : cpu_step i a m = Some m1 -> steps m1 m' -> steps m m'.

(** At the start every lock is as [initlock] leaves it and no processor holds
    one. *)
Definition boots (m : machine) : Prop :=
  (forall l k, mlocks m !! l = Some k -> exists name pc pid, k = init_words name pc pid) /\
  (forall i c p, mcpus m !! i = Some (c, p) -> p = Run /\ held c = [] /\ noff c = 0).

Definition reachable (m : machine) : Prop := exists m0, boots m0 /\ steps m0 m.

(** ** The atomic machine

    [acquire] and [release] of the prelude, on the contexts; a lock is taken only
    when no processor holds it. *)
#[global] Instance ctx_has_ctx : HasCtx ctx.
Proof. by refine {| cx := fun c => c; set_cx := fun c _ => c |}. Defined.

Definition free (l : lock) (cs : list (ctx * option string)) : Prop := forall j c o, cs !! j = Some (c, o) -> l ∉ held c.

Inductive atomic_step : list (ctx * option string) -> list (ctx * option string) -> Prop :=
| at_acquire cs i l c c' : cs !! i = Some (c, None) -> free l cs -> acquire l c = Ret tt c' -> atomic_step cs (<[i := (c', None)]> cs)
| at_acquire_panic cs i l c msg : cs !! i = Some (c, None) -> acquire l c = Panic msg -> atomic_step cs (<[i := (c, Some msg)]> cs)
| at_release cs i l c c' : cs !! i = Some (c, None) -> release l c = Ret tt c' -> atomic_step cs (<[i := (c', None)]> cs)
| at_release_panic cs i l c msg : cs !! i = Some (c, None) -> release l c = Panic msg -> atomic_step cs (<[i := (c, Some msg)]> cs)
| at_push cs i c : cs !! i = Some (c, None) -> atomic_step cs (<[i := (cx_push c, None)]> cs)
| at_pop cs i c c' : cs !! i = Some (c, None) -> pop_off c = Ret tt c' -> atomic_step cs (<[i := (c', None)]> cs)
| at_sti cs i c : cs !! i = Some (c, None) -> noff c = 0 -> atomic_step cs (<[i := (cx_sti c, None)]> cs).

(** What a processor has done, as the atomic machine sees it: [acquire] takes
    effect at the test-and-set, [release] at the store of [locked]. *)
Definition abs_cpu (x : ctx * point) : ctx * option string :=
  match x.2 with
  | Run => (x.1, None)
  | Acq l _ c0 ARecord => (x.1, None)
  | Acq l _ c0 _ => (c0, None)
  | Rel l c0 RPop => (cx_pop x.1, None)
  | Rel l c0 _ => (c0, None)
  | Stuck c0 msg => (c0, Some msg)
  end.

Definition abs (m : machine) : list (ctx * option string) := abs_cpu <$> mcpus m.

(** ** The invariant *)

(** A context between two calls. *)
Record good (c : ctx) : Prop := {
  gd_nodup : NoDup (held c);
  gd_noff : Z.of_nat (length (held c)) <= noff c;
  gd_intr : 0 < noff c -> intr c = false
}.

(** What a processor knows at each point. *)
Definition local (x : ctx * point) : Prop :=
  match x.2 with
  | Run => good x.1
  | Acq l _ c0 ARecord => good c0 /\ x.1 = cx_held (cons l) (cx_push c0) /\ l ∉ held c0
  | Acq l _ c0 (AHold | AHoldCpu) => good c0 /\ x.1 = cx_push c0
  | Acq l _ c0 _ => good c0 /\ x.1 = cx_push c0 /\ l ∉ held c0
  | Rel l c0 (RHold | RHoldCpu) => good c0 /\ x.1 = c0
  | Rel l c0 RPop => good c0 /\ x.1 = cx_held (remove_lock l) c0 /\ l ∈ held c0
  | Rel l c0 _ => good c0 /\ x.1 = c0 /\ l ∈ held c0
  | Stuck c0 _ => held x.1 = held c0 /\ (held x.1 <> [] -> intr x.1 = false)
  end.

(** Between the test-and-set and the record of the owner, and between its
    deletion and the store of [locked], a lock is held and has no owner. *)
Definition between (l : lock) (p : point) : Prop :=
  match p with
  | Acq l' _ _ ARecord => l' = l
  | Rel l' _ RStore => l' = l
  | _ => False
  end.

Record inv (m : machine) : Prop := {
  in_local : forall i x, mcpus m !! i = Some x -> local x;
  in_unique : forall i j x y l, mcpus m !! i = Some x -> mcpus m !! j = Some y -> l ∈ held x.1 -> l ∈ held y.1 -> i = j;
  in_held : forall i x l k, mcpus m !! i = Some x -> l ∈ held x.1 -> mlocks m !! l = Some k ->
    locked k = 1 /\ (between l x.2 /\ lcpu k = None \/ ~ between l x.2 /\ lcpu k = Some i);
  in_lock : forall l k, mlocks m !! l = Some k -> locked k <> 0 -> exists i x, mcpus m !! i = Some x /\ l ∈ held x.1;
  in_owner : forall l k i, mlocks m !! l = Some k -> lcpu k = Some i -> exists x, mcpus m !! i = Some x /\ l ∈ held x.1
}.

Lemma boots_inv m : boots m -> inv m.
Proof.
  intros [Hl Hc]. split.
  - intros i [c p] Hi. destruct (Hc _ _ _ Hi) as (-> & Hh & Hn). split; cbn [fst]; rewrite ?Hh; [apply NoDup_nil_2|cbn; lia|lia].
  - intros i j [c p] [d q] l Hi _ Hx. destruct (Hc _ _ _ Hi) as (_ & Hh & _). cbn in Hx. rewrite Hh in Hx. by apply elem_of_nil in Hx.
  - intros i [c p] l k Hi Hx. destruct (Hc _ _ _ Hi) as (_ & Hh & _). cbn in Hx. rewrite Hh in Hx. by apply elem_of_nil in Hx.
  - intros l k Hk Hn. by destruct (Hl _ _ Hk) as (? & ? & ? & ->).
  - intros l k i Hk Ho. by destruct (Hl _ _ Hk) as (? & ? & ? & ->).
Qed.

(** A processor's new state, with a lock's. *)
Lemma cpu_after i y m j x : mcpus m !! i <> None -> <[i := y]> (mcpus m) !! j = Some x -> i = j /\ x = y \/ i <> j /\ mcpus m !! j = Some x.
Proof.
  intros Hi. destruct (decide (i = j)) as [->|Hne].
  - rewrite list_lookup_insert_eq; [intros [= <-]; by left|]. apply lookup_lt_is_Some. by destruct (mcpus m !! j); [eauto|].
  - rewrite list_lookup_insert_ne by done. by right.
Qed.

(** The lock words are the same, whatever the counters. *)
Definition same_words (m m' : machine) : Prop :=
  forall l k', mlocks m' !! l = Some k' -> exists k, mlocks m !! l = Some k /\ locked k' = locked k /\ lcpu k' = lcpu k.

Lemma same_words_put l k k' m : mlocks m !! l = Some k -> locked k' = locked k -> lcpu k' = lcpu k -> same_words m (put_lock l k' m).
Proof. intros Hk H1 H2 l' k2. cbn. rewrite lookup_insert. case_decide; [intros [= <-]; subst; eauto|eauto]. Qed.

(** A step that changes neither what the processor holds nor the lock words. *)
Lemma inv_move m m1 i x c' p' :
  inv m -> mcpus m !! i = Some x -> mcpus m1 = mcpus m -> same_words m m1 ->
  held c' = held x.1 -> (forall l, ~ between l x.2) -> (forall l, ~ between l p') -> local (c', p') -> inv (put_cpu i c' p' m1).
Proof.
  intros [I1 I2 I3 I4 I5] Hi Hm1 Hlock Hh Hb Hb' Hloc.
  assert (Hlen : (i < length (mcpus m))%nat) by (by eapply lookup_lt_Some). assert (Hsome : mcpus m !! i <> None) by congruence.
  assert (Hex : forall j y, mcpus m !! j = Some y -> exists y', <[i := (c', p')]> (mcpus m) !! j = Some y' /\ held y'.1 = held y.1).
  { intros j y Hy. destruct (decide (i = j)) as [<-|Hne]; [rewrite list_lookup_insert_eq by done; eexists; split; [done|]; cbn; congruence|].
    rewrite list_lookup_insert_ne by done. eauto. }
  assert (Hback : forall j y, <[i := (c', p')]> (mcpus m) !! j = Some y ->
    exists x', mcpus m !! j = Some x' /\ held y.1 = held x'.1 /\ (forall l, between l y.2 <-> between l x'.2)).
  { intros j y Hy. apply cpu_after in Hy as [[<- ->]|[Hne Hy]]; [|eexists; split; [done|]; done|done].
    exists x. split_and!; [done|done|]. intros l'. cbn. specialize (Hb l'). specialize (Hb' l'). tauto. }
  split; cbn [put_cpu mcpus mlocks]; rewrite ?Hm1.
  - intros j y Hy. apply cpu_after in Hy as [[<- ->]|[Hne Hy]]; [done|by eapply I1|done].
  - intros j1 j2 y1 y2 l' H1 H2 Hl1 Hl2. destruct (Hback _ _ H1) as (x1 & A1 & A2 & _), (Hback _ _ H2) as (x2 & B1 & B2 & _).
    eapply (I2 j1 j2 x1 x2 l'); [done|done|by rewrite <- A2|by rewrite <- B2].
  - intros j y l' k2 Hy Hl' Hk2. destruct (Hback _ _ Hy) as (x1 & A1 & A2 & A3). destruct (Hlock _ _ Hk2) as (k1 & B1 & -> & ->). rewrite A3.
    eapply I3; [done|by rewrite <- A2|done].
  - intros l' k2 Hk2 Hn. destruct (Hlock _ _ Hk2) as (k1 & B1 & B2 & _). rewrite B2 in Hn. destruct (I4 l' k1 B1 Hn) as (j & y & Hy & Hl').
    destruct (Hex _ _ Hy) as (y' & Hy' & E). exists j, y'. by rewrite E.
  - intros l' k2 j Hk2 Ho. destruct (Hlock _ _ Hk2) as (k1 & B1 & _ & B2). rewrite B2 in Ho. destruct (I5 l' k1 j B1 Ho) as (y & Hy & Hl').
    destruct (Hex _ _ Hy) as (y' & Hy' & E). exists y'. by rewrite E.
Qed.

(** A step of the only processor that may hold the lock. *)
Lemma inv_owner m i x c' p' l k k' :
  inv m -> mcpus m !! i = Some x -> mlocks m !! l = Some k -> local (c', p') ->
  (forall j y, mcpus m !! j = Some y -> l ∈ held y.1 -> i = j) ->
  (forall l', l' <> l -> (l' ∈ held c' <-> l' ∈ held x.1) /\ (between l' p' <-> between l' x.2)) ->
  (l ∈ held c' /\ locked k' = 1 /\ (between l p' /\ lcpu k' = None \/ ~ between l p' /\ lcpu k' = Some i) \/
   l ∉ held c' /\ locked k' = 0 /\ lcpu k' = None) ->
  inv (put_cpu i c' p' (put_lock l k' m)).
Proof.
  intros [I1 I2 I3 I4 I5] Hi Hk Hloc Hno Hsame Hl. assert (Hlen : (i < length (mcpus m))%nat) by (by eapply lookup_lt_Some).
  assert (Hsome : mcpus m !! i <> None) by congruence.
  assert (Hex : forall j y l', l' <> l -> mcpus m !! j = Some y -> l' ∈ held y.1 -> exists y', <[i := (c', p')]> (mcpus m) !! j = Some y' /\ l' ∈ held y'.1).
  { intros j y l' Hne Hy Hl'. destruct (decide (i = j)) as [<-|Hij].
    - rewrite list_lookup_insert_eq by done. eexists. split; [done|]. apply Hsame; [done|]. congruence.
    - rewrite list_lookup_insert_ne by done. eauto. }
  split; cbn [put_cpu put_lock mcpus mlocks].
  - intros j y Hy. apply cpu_after in Hy as [[<- ->]|[Hne Hy]]; [done|by eapply I1|done].
  - intros j1 j2 y1 y2 l' H1 H2 Hl1 Hl2. apply cpu_after in H1 as [[<- ->]|[H1 H1']]; [| |done]; (apply cpu_after in H2 as [[<- ->]|[H2 H2']]; [| |done]);
      cbn [fst] in *; try done; destruct (decide (l' = l)) as [->|Hne].
    + by apply Hno with y2.
    + by eapply (I2 i j2 x y2 l'); [| |apply Hsame|].
    + symmetry. by apply Hno with y1.
    + by eapply (I2 j1 i y1 x l'); [| | |apply Hsame].
    + transitivity i; [symmetry; by apply Hno with y1|by apply Hno with y2].
    + by eapply (I2 j1 j2 y1 y2 l').
  - intros j y l' k2 Hy Hl' Hk2. rewrite lookup_insert in Hk2. apply cpu_after in Hy as [[<- ->]|[Hne Hy]]; [| |done]; cbn [fst snd] in *; case_decide as El.
    + injection Hk2 as <-. subst l'. destruct Hl as [(_ & H1 & H2)|[? _]]; [by split|done].
    + destruct (Hsame l' ltac:(done)) as [S1 S2]. rewrite S2. eapply I3; [done|by apply S1|done].
    + subst l'. destruct Hne. by apply Hno with y.
    + by eapply I3.
  - intros l' k2 Hk2 Hn. rewrite lookup_insert in Hk2. case_decide as El.
    + injection Hk2 as <-. subst l'. destruct Hl as [(Hin & _)|(_ & H0 & _)]; [|done]. exists i, (c', p'). by rewrite list_lookup_insert_eq.
    + destruct (I4 l' k2 Hk2 Hn) as (j & y & Hy & Hl'). destruct (Hex j y l' ltac:(done) Hy Hl') as (y' & ? & ?). eauto.
  - intros l' k2 j Hk2 Ho. rewrite lookup_insert in Hk2. case_decide as El.
    + injection Hk2 as <-. subst l'. destruct Hl as [(Hin & _ & [[_ ?]|[_ Hc]])|(_ & _ & ?)]; [congruence| |congruence].
      assert (j = i) as -> by congruence. exists (c', p'). by rewrite list_lookup_insert_eq.
    + destruct (I5 l' k2 j Hk2 Ho) as (y & Hy & Hl'). by apply (Hex j y l').
Qed.

(** ** The simulation *)

Lemma abs_put m m1 i c p : mcpus m1 = mcpus m -> abs (put_cpu i c p m1) = <[i := abs_cpu (c, p)]> (abs m).
Proof. intros Hm. unfold abs, put_cpu. cbn. rewrite Hm. apply list_fmap_insert. Qed.

Lemma abs_at i x m : mcpus m !! i = Some x -> abs m !! i = Some (abs_cpu x).
Proof. intros Hi. unfold abs. by rewrite list_lookup_fmap, Hi. Qed.

Lemma abs_same m m1 i x c p : mcpus m !! i = Some x -> mcpus m1 = mcpus m -> abs_cpu (c, p) = abs_cpu x -> abs (put_cpu i c p m1) = abs m.
Proof. intros Hi Hm Hx. rewrite (abs_put m m1), Hx by done. apply list_insert_id. by apply abs_at. Qed.

Lemma abs_held x : local x -> held (abs_cpu x).1 = held x.1.
Proof.
  destruct x as [c p]. unfold local, abs_cpu. cbn [fst snd]. destruct p as [|l ra c0 p|l c0 p|c0 msg]; [done| | |by intros [-> _]].
  - destruct p; cbn [fst]; intuition (subst; done).
  - destruct p; cbn [fst]; intuition (subst; done).
Qed.

(** Interrupts are off where a lock is held. *)
Lemma good_intr c : good c -> held c <> [] -> intr c = false.
Proof. intros [_ H2 H3] Hh. apply H3. destruct (held c); [done|]. cbn in H2. lia. Qed.

Lemma local_intr x : local x -> held x.1 <> [] -> intr x.1 = false.
Proof.
  destruct x as [c p]. unfold local. cbn [fst snd]. destruct p as [|l ra c0 p|l c0 p|c0 msg]; [apply good_intr| | |by intros [_ H]].
  - destruct p; intuition (subst; done).
  - destruct p; try (intros (Hg & -> & _) || intros (Hg & ->)); try (by apply good_intr). intros Hh. cbn in *. apply good_intr; [done|]. intros E. by rewrite E in Hh.
Qed.

(** The steps of one processor refine those of the atomic machine. *)
Definition refines (m m' : machine) : Prop := inv m' /\ (abs m' = abs m \/ atomic_step (abs m) (abs m')).

Lemma good_push c : good c -> good (cx_push c).
Proof. intros [H1 H2 H3]. split; cbn; [done|lia|done]. Qed.

Lemma good_locked l c : good c -> l ∉ held c -> good (cx_held (cons l) (cx_push c)).
Proof. intros [H1 H2 H3] Hl. split; cbn; [by apply list.NoDup_cons|lia|done]. Qed.

Lemma good_released l c : good c -> l ∈ held c -> good (cx_pop (cx_held (remove_lock l) c)).
Proof.
  intros [H1 H2 H3] Hl. pose proof (remove_lock_length l (held c) H1 Hl) as Hlen. split; cbn.
  - by apply remove_lock_nodup.
  - lia.
  - intros Hn. rewrite (proj2 (Z.eqb_neq (noff c - 1) 0)) by lia. apply H3. lia.
Qed.

Lemma free_abs m l k : inv m -> mlocks m !! l = Some k -> locked k = 0 -> free l (abs m).
Proof.
  intros Hinv Hk H0 j c o Hj Hl. unfold abs in Hj. rewrite list_lookup_fmap in Hj. destruct (mcpus m !! j) as [x|] eqn:Ex; [|done].
  cbn in Hj. injection Hj as Hx. assert (Hh : held c = held x.1).
  { rewrite <- (abs_held x (in_local _ Hinv _ _ Ex)). by rewrite Hx. }
  rewrite Hh in Hl. destruct (in_held _ Hinv _ _ _ _ Ex Hl Hk) as [H1 _]. congruence.
Qed.

(** Goals that a point is not [between]. *)
Ltac away := let Hb := fresh in intros ? Hb; cbn in Hb; repeat case_match; done.

Section Step.
Context (m : machine) (i : nat) (Hinv : inv m).

(** The processor is not at a point where its lock has no owner. *)
Lemma not_held c l k p : mcpus m !! i = Some (c, p) -> ~ between l p -> mlocks m !! l = Some k -> locked k = 0 \/ lcpu k <> Some i -> l ∉ held c.
Proof. intros Hi Hb Hk Hn Hl. destruct (in_held _ Hinv i _ l k Hi Hl Hk) as [H1 [[H2 _]|[_ H2]]]; [done|]. destruct Hn; congruence. Qed.

Lemma is_held c l k p : mcpus m !! i = Some (c, p) -> mlocks m !! l = Some k -> lcpu k = Some i -> l ∈ held c.
Proof. intros Hi Hk Ho. destruct (in_owner _ Hinv l k i Hk Ho) as (x & Hx & Hl). rewrite Hi in Hx. by injection Hx as <-. Qed.

Lemma acquire_refines c l ra c0 p k : mcpus m !! i = Some (c, Acq l ra c0 p) -> mlocks m !! l = Some k ->
  let '(k', c', p') := acquire_step i l ra c0 p k c in refines m (put_cpu i c' p' (put_lock l k' m)).
Proof.
  intros Hi Hk. pose proof (in_local _ Hinv i _ Hi) as Hloc. unfold refines. destruct p as [| | |t w|t w|]; cbn [acquire_step].
  - destruct Hloc as [Hg Hc]. split; [|left; by apply (abs_same m _ i (c, Acq l ra c0 AHold)); [| |destruct (locked k =? 0)]].
    apply (inv_move m _ i (c, Acq l ra c0 AHold)); try done; try away; [by eapply same_words_put|].
    destruct (Z.eqb_spec (locked k) 0) as [H0|H0]; [|done]. split_and!; [done|done|]. cbn in Hc. subst c.
    apply (not_held _ l k _ Hi); [intros []|done|by left].
  - destruct Hloc as [Hg Hc]. cbn in Hc. destruct (decide (lcpu k = Some i)) as [Ho|Ho].
    + pose proof (is_held _ l k _ Hi Hk Ho) as Hl. subst c. split.
      * apply (inv_move m _ i (cx_push c0, Acq l ra c0 AHoldCpu)); try done; try away. by eapply same_words_put.
      * right. rewrite (abs_put m) by done. apply (at_acquire_panic _ i l c0); [by apply abs_at in Hi|]. by apply acquire_twice.
    + split; [|left; by apply (abs_same m _ i (c, Acq l ra c0 AHoldCpu))].
      apply (inv_move m _ i (c, Acq l ra c0 AHoldCpu)); try done; try away; [by eapply same_words_put|]. split_and!; [done|done|].
      subst c. apply (not_held _ l k _ Hi); [intros []|done|by right].
  - split; [|left; by apply (abs_same m _ i (c, Acq l ra c0 ACount))].
    apply (inv_move m _ i (c, Acq l ra c0 ACount)); try done; try away. by eapply same_words_put.
  - destruct (Z.eqb_spec (locked k) 0) as [H0|H0].
    + destruct Hloc as (Hg & Hc & Hl). cbn in Hc. subst c. split.
      * apply (inv_owner m i (cx_push c0, Acq l ra c0 (ASwap t w)) _ _ l k); try done.
        -- intros j y Hj Hly. destruct (in_held _ Hinv j y l k Hj Hly Hk). congruence.
        -- intros l' Hne. cbn. rewrite elem_of_cons. split; [|naive_solver]. intuition congruence.
        -- left. split_and!; [by left|done|]. left. split; [done|]. cbn. destruct (lcpu k) as [j|] eqn:Eo; [|done].
           destruct (in_owner _ Hinv l k j Hk Eo) as (y & Hy & Hly). destruct (in_held _ Hinv j y l k Hy Hly Hk). congruence.
      * right. rewrite (abs_put m) by done. apply (at_acquire _ i l c0); [by apply abs_at in Hi|by eapply free_abs|]. exact (acquire_ok l c0 Hl).
    + split; [|left; by apply (abs_same m _ i (c, Acq l ra c0 (ASwap t w)))].
      apply (inv_move m _ i (c, Acq l ra c0 (ASwap t w))); try done; try away. apply (same_words_put l k); [done| |done]. cbn. symmetry.
      destruct (in_lock _ Hinv l k Hk H0) as (j & y & Hy & Hly). by destruct (in_held _ Hinv j y l k Hy Hly Hk).
  - split; [|left; by apply (abs_same m _ i (c, Acq l ra c0 (ANts t w)))].
    apply (inv_move m _ i (c, Acq l ra c0 (ANts t w))); try done; try away. by eapply same_words_put.
  - destruct Hloc as (Hg & Hc & Hl). cbn in Hc. subst c. set (c := cx_held _ _) in *. assert (Hlc : l ∈ held c) by (by left).
    split; [|left; by apply (abs_same m _ i (c, Acq l ra c0 ARecord))].
    destruct (in_held _ Hinv i _ l k Hi Hlc Hk) as [H1 _]. apply (inv_owner m i (c, Acq l ra c0 ARecord) _ _ l k); try done.
    + by apply good_locked.
    + intros j y Hj Hly. by apply (in_unique _ Hinv i j _ _ l Hi Hj).
    + left. split_and!; [done|done|]. right. split; [intros []|done].
Qed.

Lemma release_refines c l c0 p k : mcpus m !! i = Some (c, Rel l c0 p) -> mlocks m !! l = Some k ->
  let '(k', c', p') := release_step i l c0 p k c in refines m (put_cpu i c' p' (put_lock l k' m)).
Proof.
  intros Hi Hk. pose proof (in_local _ Hinv i _ Hi) as Hloc. unfold refines.
  assert (Hpanic : forall p, mcpus m !! i = Some (c, Rel l c0 p) -> p = RHold \/ p = RHoldCpu -> good c0 -> c = c0 -> l ∉ held c ->
    inv (put_cpu i c (Stuck c0 "release") (put_lock l k m)) /\ atomic_step (abs m) (abs (put_cpu i c (Stuck c0 "release") (put_lock l k m)))).
  { intros p' Hi' Hp Hg -> Hl. split.
    - apply (inv_move m _ i (c0, Rel l c0 p')); try done; try away; [by eapply same_words_put|by destruct Hp as [-> | ->]; away|]. split; [done|by apply good_intr].
    - rewrite (abs_put m) by done. apply (at_release_panic _ i l c0); [apply abs_at in Hi'; by destruct Hp as [-> | ->]|].
      unfold release, holds. by rewrite bool_decide_eq_false_2. }
  destruct p; cbn [release_step].
  - destruct Hloc as [Hg Hc]. cbn in Hc. destruct (Z.eqb_spec (locked k) 0) as [H0|H0].
    + destruct (Hpanic RHold Hi) as [H1 H2]; [by left|done|done| |by split; [|right]]. apply (not_held _ l k _ Hi); [intros []|done|by left].
    + split; [|left; by apply (abs_same m _ i (c, Rel l c0 RHold))].
      apply (inv_move m _ i (c, Rel l c0 RHold)); try done; try away. by eapply same_words_put.
  - destruct Hloc as [Hg Hc]. cbn in Hc. destruct (decide (lcpu k = Some i)) as [Ho|Ho].
    + pose proof (is_held _ l k _ Hi Hk Ho) as Hl. split; [|left; by apply (abs_same m _ i (c, Rel l c0 RHoldCpu))].
      apply (inv_move m _ i (c, Rel l c0 RHoldCpu)); try done; try away; [by eapply same_words_put|]. split_and!; [done|done|]. by subst c.
    + destruct (Hpanic RHoldCpu Hi) as [H1 H2]; [by right|done|done| |by split; [|right]]. apply (not_held _ l k _ Hi); [intros []|done|by right].
  - destruct Hloc as (Hg & Hc & Hl). cbn in Hc. subst c. split; [|left; by apply (abs_same m _ i (c0, Rel l c0 RCpu))].
    destruct (in_held _ Hinv i _ l k Hi Hl Hk) as [H1 _]. apply (inv_owner m i (c0, Rel l c0 RCpu) _ _ l k); try done.
    + intros j y Hj Hly. by apply (in_unique _ Hinv i j _ _ l Hi Hj).
    + left. split_and!; [done|done|]. left. by split.
  - destruct Hloc as (Hg & Hc & Hl). cbn in Hc. subst c. destruct (in_held _ Hinv i _ l k Hi Hl Hk) as [H1 [[_ H2]|[H2 _]]]; [|by destruct H2].
    assert (Hnl : l ∉ remove_lock l (held c0)) by (rewrite remove_lock_elem; tauto). split.
    + apply (inv_owner m i (c0, Rel l c0 RStore) _ _ l k); try done.
      * intros j y Hj Hly. by apply (in_unique _ Hinv i j _ _ l Hi Hj).
      * intros l' Hne. cbn. rewrite remove_lock_elem. split; [tauto|]. split; [done|congruence].
      * right. by split_and!.
    + right. rewrite (abs_put m) by done. apply (at_release _ i l c0); [by apply abs_at in Hi|]. unfold release, holds. cbn. rewrite bool_decide_eq_true_2 by done. cbn [negb].
      destruct Hg as [G1 G2 G3]. pose proof (remove_lock_length l (held c0) G1 Hl). rewrite G3 by lia. by rewrite (proj2 (Z.ltb_ge _ _)) by lia.
  - destruct Hloc as (Hg & Hc & Hl). cbn in Hc. pose proof (good_released l c0 Hg Hl) as Hg'. destruct Hg as [G1 G2 G3].
    pose proof (remove_lock_length l (held c0) G1 Hl). subst c. cbn [intr noff cx_held]. rewrite G3 by lia. rewrite (proj2 (Z.ltb_ge _ _)) by lia.
    split; [|left; by apply (abs_same m _ i (cx_held (remove_lock l) c0, Rel l c0 RPop))].
    apply (inv_move m _ i (cx_held (remove_lock l) c0, Rel l c0 RPop)); try done; try away. by eapply same_words_put.
Qed.
End Step.

Lemma step_refines m i a m' : inv m -> cpu_step i a m = Some m' -> refines m m'.
Proof.
  intros Hinv. unfold cpu_step. destruct (mcpus m !! i) as [[c p]|] eqn:Hi; [|done]. cbn [mbind option_bind].
  pose proof (in_local _ Hinv i _ Hi) as Hloc. assert (Hsame : same_words m m) by (intros l k Hk; eauto).
  destruct p as [|l ra c0 p|l c0 p|c0 msg]; destruct a as [l' ra'|l'| | | |]; try done.
  - destruct (mlocks m !! l') as [k|] eqn:Hk; [|done]. intros [= <-]. split; [|left; by apply (abs_same m _ i (c, Run))].
    by apply (inv_move m _ i (c, Run)); try done; try away.
  - destruct (mlocks m !! l') as [k|] eqn:Hk; [|done]. intros [= <-]. split; [|left; by apply (abs_same m _ i (c, Run))].
    by apply (inv_move m _ i (c, Run)); try done; try away.
  - intros [= <-]. split; [apply (inv_move m _ i (c, Run)); try done; try away; by apply good_push|]. right. rewrite (abs_put m) by done.
    apply (at_push _ i c). by apply abs_at in Hi.
  - destruct (Z.ltb_spec (Z.of_nat (length (held c))) (noff c)) as [Hn|]; [|done]. intros [= <-]. destruct Hloc as [G1 G2 G3]. cbn [fst] in *. split.
    + apply (inv_move m _ i (c, Run)); try done; try away. split; cbn; [done|lia|]. intros Hp. rewrite (proj2 (Z.eqb_neq _ 0)) by lia. apply G3. lia.
    + right. rewrite (abs_put m) by done. apply (at_pop _ i c); [by apply abs_at in Hi|]. unfold pop_off. cbn. rewrite G3 by lia.
      by rewrite (proj2 (Z.ltb_ge _ _)) by lia.
  - destruct (Z.eqb_spec (noff c) 0) as [Hn|]; [|done]. intros [= <-]. destruct Hloc as [G1 G2 G3]. cbn [fst] in *. split.
    + apply (inv_move m _ i (c, Run)); try done; try away. split; cbn; [done|done|lia].
    + right. rewrite (abs_put m) by done. apply (at_sti _ i c); [by apply abs_at in Hi|done].
  - destruct (mlocks m !! l) as [k|] eqn:Hk; [|done]. cbn [mbind option_bind]. pose proof (acquire_refines m i Hinv c l ra c0 p k Hi Hk) as Hr.
    destruct (acquire_step i l ra c0 p k c) as [[k' c'] p']. by intros [= <-].
  - destruct (mlocks m !! l) as [k|] eqn:Hk; [|done]. cbn [mbind option_bind]. pose proof (release_refines m i Hinv c l c0 p k Hi Hk) as Hr.
    destruct (release_step i l c0 p k c) as [[k' c'] p']. by intros [= <-].
Qed.

Lemma steps_refine m m' : inv m -> steps m m' -> inv m' /\ rtc atomic_step (abs m) (abs m').
Proof.
  intros Hinv Hs. induction Hs as [m|m i a m1 m' E _ IH]; [by split|]. destruct (step_refines m i a m1 Hinv E) as [H1 H2].
  destruct (IH H1) as [H3 H4]. split; [done|]. destruct H2 as [<-|H2]; [done|]. by eapply rtc_l.
Qed.

Lemma reachable_inv m : reachable m -> inv m.
Proof. intros (m0 & Hb & Hs). apply (steps_refine m0 m); [by apply boots_inv|done]. Qed.

(** ** Progress

    An execution is an infinite sequence of states; at every moment one processor
    steps, or none. *)
Section Progress.
Context (sch : nat -> option (nat * call)) (run : nat -> machine) (l : lock).

Record execution : Prop := {
  ex_start : reachable (run 0);
  ex_step : forall n, match sch n with Some (i, a) => cpu_step i a (run n) = Some (run (S n)) | None => run (S n) = run n end
}.

Definition inside (p : point) : Prop := match p with Acq _ _ _ _ | Rel _ _ _ => True | _ => False end.

(** A processor inside [acquire] or [release] is not stopped for ever. *)
Definition fair : Prop := forall n i c p, mcpus (run n) !! i = Some (c, p) -> inside p -> exists n', (n <= n')%nat /\ sch n' = Some (i, CStep).

(** A processor that holds the lock releases it some time. *)
Definition gives_back : Prop := forall n j c p, mcpus (run n) !! j = Some (c, p) -> l ∈ held c ->
  (exists c0 q, p = Rel l c0 q) \/ exists n', (n <= n')%nat /\ sch n' = Some (j, CRelease l).

(** At the moment [n] the processor [j] gets the lock by its test-and-set. *)
Definition gets_lock (n j : nat) : Prop := exists c ra c0 t w c' p', mcpus (run n) !! j = Some (c, Acq l ra c0 (ASwap t w)) /\ l ∉ held c /\
  mcpus (run (S n)) !! j = Some (c', p') /\ l ∈ held c'.

Definition is_free (n : nat) : Prop := exists k, mlocks (run n) !! l = Some k /\ locked k = 0.

Context (Hex : execution).

Lemma run_inv n : inv (run n).
Proof.
  induction n as [|n IH]; [apply reachable_inv, ex_start, Hex|]. pose proof (ex_step Hex n) as Hs. destruct (sch n) as [[i a]|]; [|by rewrite Hs]. by destruct (step_refines _ _ _ _ IH Hs).
Qed.

Lemma put_cpu_at m i c p k x : mcpus m !! i = Some x -> mcpus (put_cpu i c p (put_lock l k m)) !! i = Some (c, p).
Proof using Type. intros Hi. apply list_lookup_insert_eq. by eapply lookup_lt_Some. Qed.

Lemma put_lock_at m i c p k : mlocks (put_cpu i c p (put_lock l k m)) !! l = Some k.
Proof using Type. apply lookup_insert_eq. Qed.

(** What a step leaves alone. *)
Lemma step_keeps i a m m' : cpu_step i a m = Some m' -> (forall l, is_Some (mlocks m !! l) -> is_Some (mlocks m' !! l)) /\ (forall j, j <> i -> mcpus m' !! j = mcpus m !! j) /\
  (is_Some (mcpus m' !! i)) /\ forall c p, mcpus m !! i = Some (c, p) -> inside p -> a = CStep.
Proof using Type.
  unfold cpu_step. destruct (mcpus m !! i) as [[c p]|] eqn:Hi; [|done]. cbn [mbind option_bind].
  assert (Hput : forall c' p' m1, mcpus m1 = mcpus m -> (forall j, j <> i -> mcpus (put_cpu i c' p' m1) !! j = mcpus m !! j) /\ is_Some (mcpus (put_cpu i c' p' m1) !! i)).
  { intros c' p' m1 E. cbn [put_cpu mcpus]. rewrite E. split; [intros j Hj; by apply list_lookup_insert_ne|]. rewrite list_lookup_insert_eq by (by eapply lookup_lt_Some). by eexists. }
  assert (Hlk : forall l0 k0 l1, is_Some (mlocks m !! l1) -> is_Some (mlocks (put_lock l0 k0 m) !! l1)) by (intros l0 k0 l1 [x Hx]; cbn; rewrite lookup_insert; case_decide; by eexists).
  destruct p as [|l0 ra c0 p|l0 c0 p|c0 msg]; destruct a as [l' ra'|l'| | | |]; try done.
  - destruct (mlocks m !! l'); [|done]. intros [= <-]. destruct (Hput (cx_push c) (Acq l' ra' c AHold) m eq_refl). split_and!; try done. by intros ? ? [= <- <-].
  - destruct (mlocks m !! l'); [|done]. intros [= <-]. destruct (Hput c (Rel l' c RHold) m eq_refl). split_and!; try done. by intros ? ? [= <- <-].
  - intros [= <-]. destruct (Hput (cx_push c) Run m eq_refl). split_and!; try done. by intros ? ? [= <- <-].
  - case_match; [|done]. intros [= <-]. destruct (Hput (cx_pop c) Run m eq_refl). split_and!; try done. by intros ? ? [= <- <-].
  - case_match; [|done]. intros [= <-]. destruct (Hput (cx_sti c) Run m eq_refl). split_and!; try done. by intros ? ? [= <- <-].
  - destruct (mlocks m !! l0) as [k|]; [|done]. cbn [mbind option_bind]. destruct (acquire_step i l0 ra c0 p k c) as [[k' c'] p']. intros [= <-]. destruct (Hput c' p' (put_lock l0 k' m) eq_refl). split_and!; try done. intros l1. apply Hlk.
  - destruct (mlocks m !! l0) as [k|]; [|done]. cbn [mbind option_bind]. destruct (release_step i l0 c0 p k c) as [[k' c'] p']. intros [= <-]. destruct (Hput c' p' (put_lock l0 k' m) eq_refl). split_and!; try done. intros l1. apply Hlk.
Qed.

Lemma lock_stays n m : (n <= m)%nat -> is_Some (mlocks (run n) !! l) -> is_Some (mlocks (run m) !! l).
Proof.
  induction 1 as [|m Hm IH]; [done|]. intros Hl. specialize (IH Hl). pose proof (ex_step Hex m) as Hs. destruct (sch m) as [[i a]|]; [|by rewrite Hs]. by apply (step_keeps _ _ _ _ Hs).
Qed.

(** The next step of a processor inside [acquire] or [release]. *)
Lemma next_step n i c p : fair -> mcpus (run n) !! i = Some (c, p) -> inside p -> exists n', (n <= n')%nat /\ sch n' = Some (i, CStep) /\ mcpus (run n') !! i = Some (c, p).
Proof.
  intros Hf Hi Hp. destruct (Hf n i c p Hi Hp) as (n' & Hn & Hs). remember (n' - n)%nat as d eqn:Ed. revert n Hi Hn Ed. induction d as [|d IH]; intros n Hi Hn Ed; [assert (n' = n) as -> by lia; eauto|].
  pose proof (ex_step Hex n) as Hst. destruct (sch n) as [[j a]|] eqn:Esch.
  - destruct (step_keeps _ _ _ _ Hst) as (_ & Hoth & _ & Hin). destruct (decide (i = j)) as [<-|Hne].
    + rewrite (Hin c p Hi Hp) in Esch. eauto.
    + destruct (IH (S n)) as (m & ? & ? & ?); [by rewrite Hoth|lia|lia|]. exists m. split; [lia|done].
  - destruct (IH (S n)) as (m & ? & ? & ?); [by rewrite Hst|lia|lia|]. exists m. split; [lia|done].
Qed.

Lemma free_not_held n j x : is_free n -> mcpus (run n) !! j = Some x -> l ∉ held x.1.
Proof. intros (k & Hk & H0) Hj Hl. destruct (in_held _ (run_inv n) j x l k Hj Hl Hk) as [H1 _]. lia. Qed.

Lemma not_free_held n : is_Some (mlocks (run n) !! l) -> ~ is_free n -> exists j x, mcpus (run n) !! j = Some x /\ l ∈ held x.1.
Proof. intros [k Hk] Hn. apply (in_lock _ (run_inv n) l k Hk). intros H0. apply Hn. by exists k. Qed.

Lemma free_dec n : is_free n \/ ~ is_free n.
Proof.
  destruct (mlocks (run n) !! l) as [k|] eqn:Hk; [|right; intros (k & Hk' & _); congruence]. destruct (decide (locked k = 0)) as [H|H]; [left; by exists k|right]. intros (k' & Hk' & H'). congruence.
Qed.

(** A processor that starts to hold the lock has made its test-and-set. *)
Lemma starts_holding n j x x' : mcpus (run n) !! j = Some x -> l ∉ held x.1 -> mcpus (run (S n)) !! j = Some x' -> l ∈ held x'.1 -> gets_lock n j.
Proof.
  destruct x as [c p], x' as [c' p']. cbn [fst]. intros Hj Hl Hj' Hl'. pose proof (ex_step Hex n) as Hs. destruct (sch n) as [[i a]|]; [|rewrite Hs in Hj'; congruence].
  destruct (decide (j = i)) as [->|Hne]; [|rewrite (proj1 (proj2 (step_keeps _ _ _ _ Hs)) j Hne) in Hj'; congruence].
  pose proof (lookup_lt_Some _ _ _ Hj) as Hlt. pose proof Hs as Hs0. unfold cpu_step in Hs. rewrite Hj in Hs. cbn [mbind option_bind] in Hs.
  assert (Hput : forall c1 p1 m1, mcpus m1 = mcpus (run n) -> run (S n) = put_cpu i c1 p1 m1 -> c' = c1 /\ p' = p1) by (intros c1 p1 m1 E1 E2; rewrite E2 in Hj'; cbn in Hj'; rewrite E1, list_lookup_insert_eq in Hj' by done; by injection Hj' as -> ->).
  assert (Hno : forall c1 p1 m1, mcpus m1 = mcpus (run n) -> Some (put_cpu i c1 p1 m1) = Some (run (S n)) -> (l ∈ held c1 -> l ∈ held c) -> False).
  { intros c1 p1 m1 E1 E2 Hh. injection E2 as E2. symmetry in E2. destruct (Hput c1 p1 m1 E1 E2) as [-> _]. by auto. }
  destruct p as [|l0 ra c0 p|l0 c0 p|c0 msg]; destruct a as [l' ra'|l'| | | |]; try done.
  - destruct (mlocks (run n) !! l'); [|done]. by destruct (Hno _ _ (run n) eq_refl Hs).
  - destruct (mlocks (run n) !! l'); [|done]. by destruct (Hno _ _ (run n) eq_refl Hs).
  - by destruct (Hno _ _ (run n) eq_refl Hs).
  - destruct (_ <? _); [|done]. by destruct (Hno _ _ (run n) eq_refl Hs).
  - destruct (_ =? _); [|done]. by destruct (Hno _ _ (run n) eq_refl Hs).
  - destruct (mlocks (run n) !! l0) as [k|]; [|done]. cbn [mbind option_bind] in Hs. destruct p as [| | |t w|t w|]; cbn [acquire_step] in Hs; try (by destruct (Hno _ _ (put_lock l0 _ (run n)) eq_refl Hs)).
    destruct (locked k =? 0); [|by destruct (Hno _ _ (put_lock l0 _ (run n)) eq_refl Hs)]. destruct (decide (l0 = l)) as [->|Hne]; [by eexists c, ra, c0, t, w, c', p'|].
    destruct (Hno _ _ (put_lock l0 _ (run n)) eq_refl Hs). cbn. rewrite elem_of_cons. intuition congruence.
  - destruct (mlocks (run n) !! l0) as [k|]; [|done]. cbn [mbind option_bind] in Hs. destruct p; cbn [release_step] in Hs; try (by destruct (Hno _ _ (put_lock l0 _ (run n)) eq_refl Hs)).
    + destruct (Hno _ _ (put_lock l0 _ (run n)) eq_refl Hs). cbn. rewrite remove_lock_elem. tauto.
    + destruct (intr c); [|destruct (noff c <? 1)]; by destruct (Hno _ _ (put_lock l0 _ (run n)) eq_refl Hs).
Qed.

(** Between a moment when the lock is free and one when it is not, some
    processor has got it. *)
Lemma free_then_busy n m : (n <= m)%nat -> is_free n -> ~ is_free m -> exists n' j, (n <= n' < m)%nat /\ gets_lock n' j.
Proof.
  induction 1 as [|m Hm IH]; [done|]. intros Hn Hb. destruct (free_dec m) as [Hf|Hf]; [|destruct (IH Hn Hf) as (n' & j & ? & ?); exists n', j; split; [lia|done]].
  destruct (not_free_held (S m)) as (j & x' & Hj & Hl); [apply (lock_stays n); [lia|]; destruct Hn as (k & Hk & _); by eexists|done|]. exists m, j. split; [lia|].
  assert (Hx : exists x, mcpus (run m) !! j = Some x).
  { pose proof (ex_step Hex m) as Hs. destruct (sch m) as [[i a]|]; [|rewrite <- Hs; eauto]. destruct (decide (j = i)) as [->|Hne]; [|rewrite (proj1 (proj2 (step_keeps _ _ _ _ Hs)) j Hne) in Hj; eauto].
    unfold cpu_step in Hs. destruct (mcpus (run m) !! i); [eauto|done]. }
  destruct Hx as [x Hx]. eapply starts_holding; [done|by apply (free_not_held m j)|done|done].
Qed.

(** How far a processor in [acquire] is from its test-and-set. *)
Definition to_swap (p : apoint) : nat := match p with AHold => 3 | AHoldCpu => 2 | ACount | ANts _ _ => 1 | _ => 0 end.

Lemma wait_step i ra c0 p c k m : inv m -> mcpus m !! i = Some (c, Acq l ra c0 p) -> mlocks m !! l = Some k -> locked k = 0 -> l ∉ held c ->
  exists k', mlocks (put_cpu i c Run (put_lock l k' m)) !! l = Some k' /\ locked k' = 0 /\
    ((exists t w, p = ASwap t w) \/ exists p', (to_swap p' < to_swap p)%nat /\ cpu_step i CStep m = Some (put_cpu i c (Acq l ra c0 p') (put_lock l k' m))).
Proof using Type.
  intros Hinv Hi Hk H0 Hl. unfold cpu_step. rewrite Hi. cbn [mbind option_bind]. rewrite Hk. cbn [mbind option_bind].
  destruct p as [| | |t w|t w|]; cbn [acquire_step].
  - exists k. split_and!; [apply lookup_insert_eq|done|right]. rewrite H0. exists ACount. split; [cbn; lia|done].
  - exists k. split_and!; [apply lookup_insert_eq|done|right]. exists ACount. split; [cbn; lia|]. rewrite decide_False; [done|]. intros Ho. apply Hl. by apply (is_held m i Hinv c l k _ Hi).
  - exists (set_n (u32 (ln k + 1)) k). split_and!; [apply lookup_insert_eq|done|right]. exists (ASwap 0 false). split; [cbn; lia|done].
  - exists k. split_and!; [apply lookup_insert_eq|done|left; eauto].
  - exists (set_nts (u32 (nts k + 1)) k). split_and!; [apply lookup_insert_eq|done|right]. exists (ASwap t w). split; [cbn; lia|done].
  - destruct (in_local _ Hinv i _ Hi) as (_ & Hc & _). cbn in Hc. subst c. destruct Hl. by left.
Qed.

Lemma waiting_gets i ra c0 c : fair -> forall d p n, (to_swap p <= d)%nat -> mcpus (run n) !! i = Some (c, Acq l ra c0 p) -> l ∉ held c -> is_free n -> exists n' j, (n <= n')%nat /\ gets_lock n' j.
Proof.
  intros Hf. induction d as [|d IH]; intros p n Hd Hi Hl Hn; destruct (next_step n i c _ Hf Hi I) as (n1 & Hn1 & Hs1 & Hi1);
    (destruct (free_dec n1) as [Hfree|Hb]; [|destruct (free_then_busy n n1 Hn1 Hn Hb) as (n' & j & ? & ?); exists n', j; split; [lia|done]]);
    destruct Hfree as (k & Hk & H0); pose proof (ex_step Hex n1) as Hst; rewrite Hs1 in Hst; destruct (wait_step i ra c0 p c k (run n1) (run_inv n1) Hi1 Hk H0 Hl) as (k' & _ & H0' & [(t & w & ->)|(p' & Hp' & Hst')]); try lia.
  1, 2: exists n1, i; split; [lia|]; unfold cpu_step in Hst; rewrite Hi1 in Hst; cbn [mbind option_bind] in Hst; rewrite Hk in Hst; cbn [mbind option_bind acquire_step] in Hst; rewrite H0 in Hst; injection Hst as Hst;
    eexists c, ra, c0, t, w, _, _; split_and!; [done|done|rewrite <- Hst; by eapply put_cpu_at|by left].
  rewrite Hst' in Hst. injection Hst as Hst. destruct (IH p' (S n1)) as (n' & j & ? & ?); [lia|rewrite <- Hst; by eapply put_cpu_at|done|exists k'; rewrite <- Hst; split; [apply put_lock_at|done]|]. exists n', j. split; [lia|done].
Qed.

(** A processor that holds the lock holds it until it is free. *)
Lemma hold_or_free n m j x : (n <= m)%nat -> mcpus (run n) !! j = Some x -> l ∈ held x.1 -> is_Some (mlocks (run n) !! l) ->
  (exists n', (n <= n' <= m)%nat /\ is_free n') \/ exists y, mcpus (run m) !! j = Some y /\ l ∈ held y.1.
Proof.
  induction 1 as [|m Hm IH]; intros Hj Hl Hk; [right; eauto|]. destruct (IH Hj Hl Hk) as [(n' & ? & ?)|(y & Hy & Hly)]; [left; exists n'; split; [lia|done]|].
  destruct (free_dec (S m)) as [Hf|Hb]; [left; exists (S m); split; [lia|done]|right]. destruct (not_free_held (S m)) as (j' & y' & Hj' & Hl'); [apply (lock_stays n); [lia|done]|done|].
  destruct (decide (j' = j)) as [->|Hne]; [eauto|exfalso]. pose proof (ex_step Hex m) as Hs. destruct (sch m) as [[i a]|]; [|rewrite Hs in Hj'; by apply Hne, (in_unique _ (run_inv m) j' j _ _ l Hj' Hy)].
  destruct (step_keeps _ _ _ _ Hs) as (_ & Hoth & _). destruct (decide (j' = i)) as [->|Hi']; [|rewrite (Hoth j' Hi') in Hj'; by apply Hne, (in_unique _ (run_inv m) j' j _ _ l Hj' Hy)].
  pose proof Hy as Hy'. rewrite <- (Hoth j) in Hy' by congruence. by apply Hne, (in_unique _ (run_inv (S m)) i j _ _ l Hj' Hy').
Qed.

(** How far a processor in [release] is from its store. *)
Definition to_store (p : rpoint) : nat := match p with RHold => 3 | RHoldCpu => 2 | RCpu => 1 | _ => 0 end.

Lemma release_steps m j c c0 p k : inv m -> mcpus m !! j = Some (c, Rel l c0 p) -> l ∈ held c -> mlocks m !! l = Some k ->
  exists k' c' p', cpu_step j CStep m = Some (put_cpu j c' p' (put_lock l k' m)) /\
    (locked k' = 0 \/ exists q, p' = Rel l c0 q /\ (to_store q < to_store p)%nat /\ l ∈ held c').
Proof using Type.
  intros Hinv Hj Hl Hk. destruct (in_held _ Hinv j _ l k Hj Hl Hk) as [H1 Ho]. unfold cpu_step. rewrite Hj. cbn [mbind option_bind]. rewrite Hk. cbn [mbind option_bind].
  destruct p; cbn [release_step between snd] in *.
  - rewrite H1. eexists _, _, _. split; [done|right]. exists RHoldCpu. split_and!; [done|cbn; lia|done].
  - destruct Ho as [[[] _]|[_ Ho]]. rewrite decide_True by done. eexists _, _, _. split; [done|right]. exists RCpu. split_and!; [done|cbn; lia|done].
  - eexists _, _, _. split; [done|right]. exists RStore. split_and!; [done|cbn; lia|done].
  - eexists _, _, _. split; [done|by left].
  - destruct (in_local _ Hinv j _ Hj) as (_ & Hc & _). cbn in Hc. subst c. cbn in Hl. apply remove_lock_elem in Hl as [_ Hl]. done.
Qed.

Lemma releasing_frees j : fair -> forall d c0 p c n, (to_store p <= d)%nat -> mcpus (run n) !! j = Some (c, Rel l c0 p) -> l ∈ held c -> is_Some (mlocks (run n) !! l) -> exists n', (n <= n')%nat /\ is_free n'.
Proof.
  intros Hf. induction d as [|d IH]; intros c0 p c n Hd Hj Hl Hk; destruct (next_step n j c _ Hf Hj I) as (n1 & Hn1 & Hs1 & Hj1); destruct (lock_stays n n1 Hn1 Hk) as [k Hk1];
    destruct (release_steps (run n1) j c c0 p k (run_inv n1) Hj1 Hl Hk1) as (k' & c' & p' & Hst' & Hcase); pose proof (ex_step Hex n1) as Hst; rewrite Hs1, Hst' in Hst; injection Hst as Hst;
    destruct Hcase as [H0|(q & -> & Hq & Hl')]; try lia.
  1, 2: exists (S n1); split; [lia|]; exists k'; rewrite <- Hst; split; [apply put_lock_at|done].
  destruct (IH c0 q c' (S n1)) as (n' & ? & ?); [lia|rewrite <- Hst; by eapply put_cpu_at|done|rewrite <- Hst, put_lock_at; by eexists|]. exists n'. split; [lia|done].
Qed.

Lemma held_gets_free n j x : fair -> gives_back -> mcpus (run n) !! j = Some x -> l ∈ held x.1 -> is_Some (mlocks (run n) !! l) -> exists n', (n <= n')%nat /\ is_free n'.
Proof.
  destruct x as [c p]. intros Hf Hg Hj Hl Hk. destruct (Hg n j c p Hj Hl) as [(c0 & q & ->)|(n1 & Hn1 & Hs1)]; [by apply (releasing_frees j Hf _ c0 q c n (le_n _))|].
  destruct (hold_or_free n n1 j _ Hn1 Hj Hl Hk) as [(n' & ? & ?)|([c1 p1] & Hj1 & Hl1)]; [exists n'; split; [lia|done]|]. pose proof (ex_step Hex n1) as Hst. rewrite Hs1 in Hst.
  destruct (lock_stays n n1 Hn1 Hk) as [k Hk1]. unfold cpu_step in Hst. rewrite Hj1 in Hst. cbn [mbind option_bind] in Hst. destruct p1; try done. rewrite Hk1 in Hst. injection Hst as Hst.
  destruct (releasing_frees j Hf 3 c1 RHold c1 (S n1)) as (n' & ? & ?); [done|rewrite <- Hst; apply list_lookup_insert_eq; by eapply lookup_lt_Some|done|apply (lock_stays n); [lia|done]|]. exists n'. split; [lia|done].
Qed.

Lemma waiter_stays n m i c ra c0 p : fair -> (n <= m)%nat -> mcpus (run n) !! i = Some (c, Acq l ra c0 p) -> l ∉ held c -> is_Some (mlocks (run n) !! l) ->
  (exists n' j, (n <= n')%nat /\ gets_lock n' j) \/ exists p', mcpus (run m) !! i = Some (c, Acq l ra c0 p').
Proof.
  intros Hf. induction 1 as [|m Hm IH]; intros Hi Hl Hk; [right; eauto|]. destruct (IH Hi Hl Hk) as [?|(p' & Hi')]; [by left|].
  pose proof (ex_step Hex m) as Hs. destruct (sch m) as [[j a]|] eqn:Esch; [|right; rewrite Hs; eauto]. destruct (step_keeps _ _ _ _ Hs) as (_ & Hoth & [[c' q] Hi2] & Hin).
  destruct (decide (i = j)) as [<-|Hne]; [|right; rewrite Hoth by done; eauto]. rewrite (Hin _ _ Hi' I) in Hs.
  destruct (decide (l ∈ held c')) as [Hl'|Hl']; [left; exists m, i; split; [lia|]; by apply (starts_holding m i _ _ Hi' Hl Hi2)|right]. destruct (lock_stays n m Hm Hk) as [k Hk'].
  unfold cpu_step in Hs. rewrite Hi' in Hs. cbn [mbind option_bind] in Hs. rewrite Hk' in Hs. cbn [mbind option_bind] in Hs.
  assert (Hput : forall k1 c1 p1, Some (put_cpu i c1 p1 (put_lock l k1 (run m))) = Some (run (S m)) -> mcpus (run (S m)) !! i = Some (c1, p1)) by (intros k1 c1 p1 [= <-]; by eapply put_cpu_at).
  destruct p' as [| | |t w|t w|]; cbn [acquire_step] in Hs.
  - apply Hput in Hs. eauto.
  - destruct (decide (lcpu k = Some i)) as [Ho|Ho]; [destruct Hl; by apply (is_held _ i (run_inv m) c l k _ Hi')|]. apply Hput in Hs. eauto.
  - apply Hput in Hs. eauto.
  - destruct (locked k =? 0); apply Hput in Hs; [|eauto]. rewrite Hs in Hi2. injection Hi2 as <- _. destruct Hl'. by left.
  - apply Hput in Hs. eauto.
  - destruct (in_local _ (run_inv m) i _ Hi') as (_ & Hc & _). cbn in Hc. subst c. destruct Hl. by left.
Qed.
End Progress.

(** ** The claims *)

Fixpoint runs (l : list (nat * call)) (m : machine) : option machine :=
  match l with
  | [] => Some m
  | (i, a) :: l => m ← cpu_step i a m; runs l m
  end.

Lemma runs_steps l : forall m m', runs l m = Some m' -> steps m m'.
Proof.
  induction l as [|[i a] l IH]; intros m m'; cbn [runs]; [intros [= <-]; constructor|].
  destruct (cpu_step i a m) as [m1|] eqn:E; [|done]. intros Hr. eapply steps_more; [exact E|by apply IH].
Qed.

(** Two processors and a lock. *)
Definition demo_lock : lock := ("bcache"%string, 0).
Definition demo_ctx : ctx := {| noff := 0; intena := false; intr := true; held := []; mypid := 1; mykilled := false |}.
Definition demo_machine : machine := {| mlocks := {[demo_lock := init_words [98; 99; 97; 99; 104; 101] 0 0]}; mcpus := [(demo_ctx, Run); (demo_ctx, Run)] |}.

Lemma demo_boots : boots demo_machine.
Proof.
  split; cbn [demo_machine mlocks mcpus].
  - intros l k Hk. apply lookup_singleton_Some in Hk as [_ <-]. by eexists _, _, _.
  - intros i c p Hi. destruct i as [|[|i]]; [| |done]; injection Hi as <- <-; done.
Qed.

(** Processor 0 takes the lock, and processor 1 spins. *)
Definition demo_run : list (nat * call) :=
  [(0%nat, CAcquire demo_lock 1000); (0%nat, CStep); (1%nat, CAcquire demo_lock 2000); (0%nat, CStep); (0%nat, CStep); (1%nat, CStep);
   (0%nat, CStep); (1%nat, CStep); (1%nat, CStep); (1%nat, CStep); (1%nat, CStep)].
Definition demo_spin : machine := match runs demo_run demo_machine with Some m => m | None => demo_machine end.

Lemma demo_spins : steps demo_machine demo_spin.
Proof. apply (runs_steps demo_run). vm_compute. reflexivity. Qed.

(** An execution in which both take and release it, and then nothing happens. *)
Definition demo_all : list (nat * call) :=
  demo_run ++ (0%nat, CRelease demo_lock) :: replicate 5 (0%nat, CStep) ++ replicate 2 (1%nat, CStep) ++ (1%nat, CRelease demo_lock) :: replicate 5 (1%nat, CStep).
Definition demo_sch (n : nat) : option (nat * call) := demo_all !! n.
Definition demo_at (n : nat) : machine := default demo_machine (runs (take n demo_all) demo_machine).

Lemma demo_late n : demo_at n = demo_at (n `min` length demo_all).
Proof. unfold demo_at. destruct (Nat.le_gt_cases (length demo_all) n); [by rewrite (take_ge _ n), take_ge by lia|by replace (n `min` length demo_all)%nat with n by lia]. Qed.

(** A property of the machine at all moments, checked at the moments of the list. *)
Lemma demo_always (P : nat -> nat -> (ctx * point) -> bool) :
  forallb (fun n => forallb (fun i => match mcpus (demo_at n) !! i with Some x => P n i x | None => true end) [0%nat; 1%nat]) (seq 0 (S (length demo_all))) = true ->
  forall n i x, mcpus (demo_at n) !! i = Some x -> P (n `min` length demo_all)%nat i x = true.
Proof.
  intros Hall n i x Hi. rewrite forallb_forall in Hall. rewrite demo_late in Hi. specialize (Hall (n `min` length demo_all)%nat ltac:(apply in_seq; lia)). rewrite forallb_forall in Hall.
  assert (Hlt : (i < 2)%nat).
  { assert (Hl : forall k, length (mcpus (demo_at k)) = 2%nat) by (intros k; rewrite demo_late; do 30 (destruct k as [|k]; [reflexivity|]); reflexivity). rewrite <- (Hl (n `min` length demo_all)%nat). by eapply lookup_lt_Some. }
  specialize (Hall i). rewrite Hi in Hall. apply Hall. destruct i as [|[|i]]; [by left|by right; left|lia].
Qed.

(** Processor [i] has a step, or a call of [release], left at moment [n]. *)
Definition left_step (rel : bool) (n i : nat) : bool :=
  existsb (fun n' => match demo_sch n' with Some (j, CStep) => negb rel && (j =? i)%nat | Some (j, CRelease _) => rel && (j =? i)%nat | _ => false end) (seq n (length demo_all - n)).

Lemma left_step_ok rel n i : left_step rel (n `min` length demo_all) i = true -> exists n', (n <= n')%nat /\ demo_sch n' = Some (i, if rel then CRelease demo_lock else CStep).
Proof.
  intros H. apply existsb_exists in H as (n' & Hn & H). apply in_seq in Hn. exists n'. split; [lia|].
  assert (Hrel : forall j l, demo_sch n' = Some (j, CRelease l) -> l = demo_lock) by (intros j l; clear; do 25 (destruct n' as [|n']; [vm_compute; congruence|]); done).
  destruct (demo_sch n') as [[j [| | | | |]]|]; try done; apply andb_true_iff in H as [Hr Hj]; apply Nat.eqb_eq in Hj as ->; destruct rel; try done. by rewrite (Hrel _ _ eq_refl).
Qed.

Lemma demo_execution : execution demo_sch demo_at.
Proof.
  split; [exists demo_machine; split; [apply demo_boots|constructor]|]. intros n. do 25 (destruct n as [|n]; [vm_compute; reflexivity|]). change (demo_sch _) with (@None (nat * call)). unfold demo_at. by rewrite !take_ge by (cbn; lia).
Qed.

Lemma demo_fair : fair demo_sch demo_at.
Proof.
  intros n i c p Hi Hp. apply (left_step_ok false).
  pose proof (demo_always (fun n i x => match x.2 with Acq _ _ _ _ | Rel _ _ _ => left_step false n i | _ => true end) ltac:(vm_compute; reflexivity) n i _ Hi) as H. by destruct p.
Qed.

Definition keeps_promise (n i : nat) (x : ctx * point) : bool :=
  match x.2 with Rel l _ _ => bool_decide (l = demo_lock) | _ => match held x.1 with [] => true | _ => left_step true n i end end.

Lemma demo_gives_back : gives_back demo_sch demo_at demo_lock.
Proof.
  intros n j c p Hj Hl. pose proof (demo_always keeps_promise ltac:(vm_compute; reflexivity) n j _ Hj) as H. unfold keeps_promise in H. cbn [fst snd] in H.
  destruct p; try (right; apply (left_step_ok true); by destruct (held c); [apply elem_of_nil in Hl|]). left. apply bool_decide_eq_true in H as ->. by eexists _, _.
Qed.

(** C22: The lock words refine atomic locks: whatever the interleaving of the
    memory accesses of [acquire] and [release] on all processors, their contexts
    evolve by the atomic [acquire] and [release] that the other components are
    verified with, where a lock is only taken when no processor holds it, and a
    panic occurs exactly where the atomic operation panics. *)
Theorem spinlock_refines (m0 m : machine) :
  boots m0 -> steps m0 m -> rtc atomic_step (abs m0) (abs m).
Proof. intros Hb Hs. apply (steps_refine m0 m); [by apply boots_inv|done]. Qed.

Lemma spinlock_refines_witness : rtc atomic_step (abs demo_machine) (abs demo_spin).
Proof. exact (spinlock_refines demo_machine demo_spin demo_boots demo_spins). Defined.

(** C23: Mutual exclusion: no two processors are between the test-and-set that
    took a lock and the store that frees it.  At every point in between, also
    inside [acquire] and [release], the lock word is 1 and interrupts are off on
    that processor, and the owner recorded is that processor, but for the two
    moments next to the test-and-set and the store, when there is none. *)
Theorem spinlock_exclusion (m0 m : machine) (l : lock) (k : spinlock) (i : nat) (c : ctx) (p : point) :
  boots m0 -> steps m0 m -> mlocks m !! l = Some k -> mcpus m !! i = Some (c, p) -> l ∈ held c ->
  locked k = 1 /\ (forall j c' p', mcpus m !! j = Some (c', p') -> l ∈ held c' -> j = i) /\ intr c = false /\
  (between l p /\ lcpu k = None \/ ~ between l p /\ lcpu k = Some i).
Proof.
  intros Hb Hs Hk Hi Hl. assert (Hinv : inv m) by (apply reachable_inv; by exists m0).
  destruct (in_held _ Hinv i _ l k Hi Hl Hk) as [H1 Ho]. split_and!; [done| | |done].
  - intros j c' p' Hj Hlj. by apply (in_unique _ Hinv j i _ _ l Hj Hi).
  - apply (local_intr _ (in_local _ Hinv i _ Hi)). cbn. intros E. rewrite E in Hl. by apply elem_of_nil in Hl.
Qed.

Lemma spinlock_exclusion_witness : exists k c, mlocks demo_spin !! demo_lock = Some k /\ mcpus demo_spin !! 0%nat = Some (c, Run) /\
  locked k = 1 /\ intr c = false.
Proof.
  destruct (mlocks demo_spin !! demo_lock) as [k|] eqn:Ek; [|vm_compute in Ek; discriminate Ek].
  destruct (mcpus demo_spin !! 0%nat) as [[c p]|] eqn:Ec; [|vm_compute in Ec; discriminate Ec].
  assert (Hp : p = Run /\ held c = [demo_lock]) by (vm_compute in Ec; injection Ec as <- <-; split; reflexivity). destruct Hp as [-> Hh].
  destruct (spinlock_exclusion demo_machine demo_spin demo_lock k 0 c Run demo_boots demo_spins Ek Ec) as (H1 & _ & H2 & _).
  - rewrite Hh. left.
  - exists k, c. split_and!; try reflexivity; assumption.
Defined.

(** C24: No deadlock.  In every execution in which a processor inside [acquire] or
    [release] is not stopped for ever and a processor that holds the lock releases
    it some time, whenever a processor waits in [acquire] for the lock, some
    processor gets it later by its test-and-set. *)
Theorem spinlock_progress sch run l n i c ra c0 p :
  execution sch run -> fair sch run -> gives_back sch run l -> mcpus (run n) !! i = Some (c, Acq l ra c0 p) -> l ∉ held c -> is_Some (mlocks (run n) !! l) ->
  exists n' j, (n <= n')%nat /\ gets_lock run l n' j.
Proof.
  intros Hex Hf Hg Hi Hl Hk. assert (Hfree : exists n1, (n <= n1)%nat /\ is_free run l n1).
  { destruct (free_dec run l n) as [H|H]; [by exists n|]. destruct (not_free_held sch run l Hex n Hk H) as (j & x & Hj & Hlx). by apply (held_gets_free sch run l Hex n j x). }
  destruct Hfree as (n1 & Hn1 & Hfree). destruct (waiter_stays sch run l Hex n n1 i c ra c0 p Hf Hn1 Hi Hl Hk) as [?|(p' & Hi1)]; [done|].
  destruct (waiting_gets sch run l Hex i ra c0 c Hf _ p' n1 (le_n _) Hi1 Hl Hfree) as (n' & j & ? & ?). exists n', j. split; [lia|done].
Qed.

Lemma spinlock_progress_witness : exists n' j, (11 <= n')%nat /\ gets_lock demo_at demo_lock n' j.
Proof.
  refine (spinlock_progress demo_sch demo_at demo_lock 11 1 (cx_push demo_ctx) 2000 demo_ctx _ demo_execution demo_fair demo_gives_back _ _ _).
  - vm_compute. reflexivity.
  - vm_compute. intros H. inversion H.
  - vm_compute. by eexists.
Defined.
