(* ===== verification/Ring.v ===== *)
(** * Ring buffers

    The pipe and the console keep a queue of bytes in an array: the indices are
    32-bit counters that only grow, and wrap around, and a byte is at its
    counter modulo the size of the array.  The size divides 2^32, so that the
    wrap-around of a counter is harmless. *)

From S2P Require Import Prelude.

Section Ring.
Context (sz : Z) (Hsz : 0 < sz) (Hdiv : (sz | 2 ^ 32)).

(** The queue [q] is in the array from counter [start] on. *)
Record ring (data : list Z) (start : Z) (q : list Z) : Prop := {
  rg_len : Z.of_nat (length data) = sz;
  rg_fit : Z.of_nat (length q) <= sz;
  rg_at : forall i x, q !! i = Some x -> aget data ((start + Z.of_nat i) mod sz) = Some x
}.

Lemma u32_mod z : u32 z mod sz = z mod sz.
Proof.
  unfold u32. destruct Hdiv as [k Hk]. rewrite Hk. rewrite Z.mul_comm. rewrite Z.rem_mul_r by nia.
  rewrite Z.mul_comm, Z.mod_add by lia. apply Z.mod_mod. lia.
Qed.

Lemma ring_u32 data start q : ring data (u32 start) q <-> ring data start q.
Proof.
  assert (He : forall i, (u32 start + i) mod sz = (start + i) mod sz).
  { intros i. rewrite <- Z.add_mod_idemp_l, u32_mod, Z.add_mod_idemp_l by lia. done. }
  split; intros [H1 H2 H3]; (split; [done|done|]); intros i x Hi; [rewrite <- He|rewrite He]; by apply H3.
Qed.

Lemma ring_push data start q c :
  ring data start q -> Z.of_nat (length q) < sz ->
  exists data', aset data (u32 (start + Z.of_nat (length q)) mod sz) c = Some data' /\ ring data' start (q ++ [c]).
Proof.
  intros [H1 H2 H3] Hq. rewrite u32_mod. set (k := (start + Z.of_nat (length q)) mod sz).
  assert (Hk : 0 <= k < sz) by (apply Z.mod_pos_bound; lia).
  assert (Hd := aset_is_Some data k c ltac:(lia)). eexists. split; [exact Hd|]. split.
  - by rewrite (aset_length _ _ _ _ Hd).
  - rewrite length_app. cbn. lia.
  - intros i x Hi. apply lookup_app_Some in Hi as [Hi|[Hl Hi]].
    + pose proof (lookup_lt_Some _ _ _ Hi). rewrite (aget_aset_ne _ _ _ _ _ Hd); [by apply H3|]. unfold k. intros He.
      assert (Hd' : (sz | Z.of_nat (length q) - Z.of_nat i)).
      { apply Z.mod_divide; [lia|]. replace (Z.of_nat (length q) - Z.of_nat i) with ((start + Z.of_nat (length q)) - (start + Z.of_nat i)) by lia.
        rewrite Zminus_mod, He, Z.sub_diag. apply Z.mod_0_l. lia. }
      apply Z.divide_pos_le in Hd'; lia.
    + apply list_lookup_singleton_Some in Hi as [Hi <-]. replace i with (length q) by lia. fold k. by rewrite (aget_aset_eq _ _ _ _ Hd).
Qed.

Lemma ring_pop data start x q :
  ring data start (x :: q) -> aget data (u32 start mod sz) = Some x /\ ring data (start + 1) q.
Proof.
  intros [H1 H2 H3]. split; [rewrite u32_mod; by rewrite <- (H3 O x eq_refl), Z.add_0_r|]. cbn in H2. split; [done|lia|].
  intros i y Hi. rewrite <- (H3 (S i) y Hi). do 2 f_equal. lia.
Qed.

(** The newest byte is taken back. *)
Lemma ring_unpush data start q x : ring data start (q ++ [x]) -> ring data start q.
Proof.
  intros [H1 H2 H3]. rewrite length_app in H2. cbn in H2. split; [done|lia|]. intros i y Hi. apply H3. by apply lookup_app_l_Some.
Qed.

(** The newest byte. *)
Lemma ring_last data start q x : ring data start (q ++ [x]) -> aget data (u32 (start + Z.of_nat (length q)) mod sz) = Some x.
Proof. intros [_ _ H3]. rewrite u32_mod. apply H3. by apply list_lookup_middle. Qed.

Lemma ring_nil data start : Z.of_nat (length data) = sz -> ring data start [].
Proof. intros Hl. split; [done|cbn; lia|done]. Qed.
End Ring.

Arguments rg_len {sz data start q} _.
Arguments rg_fit {sz data start q} _.

(** The number of bytes between two counters. *)
Lemma counters_eq r n : 0 <= n < 2 ^ 32 -> 0 <= r < 2 ^ 32 -> (u32 (r + n) = r <-> n = 0).
Proof.
  intros Hn Hr. unfold u32. split; [|intros ->; rewrite Z.add_0_r, Z.mod_small; lia]. intros He.
  destruct (Z.lt_ge_cases (r + n) (2 ^ 32)); [rewrite Z.mod_small in He; lia|].
  replace (r + n) with (r + n - 2 ^ 32 + 1 * 2 ^ 32) in He by lia. rewrite Z.mod_add, Z.mod_small in He; lia.
Qed.

Lemma counters_diff r n : 0 <= n < 2 ^ 32 -> u32 (u32 (r + n) - r) = n.
Proof. intros Hn. unfold u32. rewrite Zminus_mod_idemp_l. replace (r + n - r) with n by lia. by apply Z.mod_small. Qed.
