(* ===== verification/UserMem.v ===== *)
(** * The memory a system call copies from and to

    What [copyin] and [copyout] of kernel/vm.c promise to the code that moves
    bytes for a process, as an interface: the pipe, the console and the files
    are proved against it, and VmUser.v discharges it with the page tables.
    [either_copyin] and [either_copyout] of kernel/proc.c choose between the
    memory of the process and that of the kernel. *)

From S2P Require Import Prelude StringC.

(** The bytes [src] were copied to [a], up to the first [n] of them. *)
Definition copied (rd rd' : Z -> option Z) (a : Z) (src : list Z) (n : nat) : Prop :=
  forall a', rd' a' = if decide (a <= a' < a + Z.of_nat n) then src !! Z.to_nat (a' - a) else rd a'.

(** All [len] bytes, or those before the first address that cannot be accessed. *)
Definition complete (rd : Z -> option Z) (a res : Z) (n len : nat) : Prop :=
  res = 0 /\ n = len \/ res = -1 /\ (n < len)%nat /\ rd (a + Z.of_nat n) = None.

(** The memory holds [bytes] at [a]. *)
Definition holds (rd : Z -> option Z) (a : Z) (bytes : list Z) : Prop := forall k x, bytes !! k = Some x -> rd (a + Z.of_nat k) = Some x.

Lemma holds_app rd a b1 b2 : holds rd a (b1 ++ b2) -> holds rd a b1 /\ holds rd (a + Z.of_nat (length b1)) b2.
Proof.
  intros H. split; intros k x Hk; [apply H; by apply lookup_app_l_Some|]. rewrite <- Z.add_assoc, <- Nat2Z.inj_add. apply H. rewrite lookup_app_r by lia. rewrite <- Hk. f_equal. lia.
Qed.

Lemma copied_holds rd rd' a src : copied rd rd' a src (length src) -> holds rd' a src.
Proof. intros H k x Hk. pose proof (lookup_lt_Some _ _ _ Hk). rewrite H, decide_True by lia. rewrite <- Hk. f_equal. lia. Qed.

(** Bytes elsewhere stay. *)
Lemma copied_elsewhere rd rd' a src n b bytes : copied rd rd' a src n -> a + Z.of_nat n <= b \/ b + Z.of_nat (length bytes) <= a -> holds rd b bytes -> holds rd' b bytes.
Proof. intros H Hd Hh k x Hk. pose proof (lookup_lt_Some _ _ _ Hk). rewrite H, decide_False by lia. by apply Hh. Qed.

Class UserMem (U : Type) := {
  um_copyin : Z -> Z -> M U (Z * list Z);
  um_copyout : Z -> list Z -> M U Z;
  um_inv : U -> Prop;
  um_read : U -> Z -> option Z;
  um_copyin_ok : forall u va len, um_inv u -> 0 <= va -> 0 <= len ->
    exists res bs, um_copyin va len u = Ret (res, bs) u /\ (forall i x, bs !! i = Some x -> um_read u (va + Z.of_nat i) = Some x) /\
      complete (um_read u) va res (length bs) (Z.to_nat len);
  um_copyout_ok : forall u va src, um_inv u -> 0 <= va ->
    exists res u' n, um_copyout va src u = Ret res u' /\ um_inv u' /\ copied (um_read u) (um_read u') va src n /\
      complete (um_read u) va res n (length src)
}.

(** The bytes that can be read from [a] on, [m] at most. *)
Fixpoint fetch (rd : Z -> option Z) (a : Z) (m : nat) : list Z :=
  match m with
  | O => []
  | S m => match rd a with Some x => x :: fetch rd (a + 1) m | None => [] end
  end.

Lemma fetch_len rd m : forall a, (length (fetch rd a m) <= m)%nat.
Proof. induction m as [|m IH]; intros a; cbn [fetch]; [done|]. destruct (rd a); cbn [length]; [|lia]. specialize (IH (a + 1)). lia. Qed.

Lemma fetch_holds rd a bytes : holds rd a bytes -> fetch rd a (length bytes) = bytes.
Proof.
  revert a. induction bytes as [|x l IH]; intros a H; [done|]. cbn [length fetch]. pose proof (H O x eq_refl) as H0. rewrite Z.add_0_r in H0. rewrite H0. f_equal. apply IH.
  intros k y Hk. rewrite <- (H (S k) y Hk). f_equal. lia.
Qed.

(** A flat memory, without pages, is one. *)
Fixpoint flat_store (a : Z) (src : list Z) (m : mem) : Z * mem :=
  match src with
  | [] => (0, m)
  | x :: src => match m !! a with Some _ => flat_store (a + 1) src (<[a := x]> m) | None => (-1, m) end
  end.

Lemma fetch_ok rd n : forall a, (forall i x, fetch rd a n !! i = Some x -> rd (a + Z.of_nat i) = Some x) /\
  (length (fetch rd a n) = n \/ (length (fetch rd a n) < n)%nat /\ rd (a + Z.of_nat (length (fetch rd a n))) = None).
Proof.
  induction n as [|n IH]; intros a; cbn [fetch]; [by split; [|left]|]. destruct (rd a) as [x|] eqn:Ea.
  - destruct (IH (a + 1)) as [H1 H2]. split.
    + intros [|i] y Hi; cbn in Hi; [by simplify_eq; rewrite Z.add_0_r|]. rewrite <- (H1 i y Hi). f_equal. lia.
    + cbn [length]. destruct H2 as [->|[H2 H3]]; [by left|right]. split; [lia|]. rewrite <- H3. f_equal. lia.
  - split; [done|right]. split; [cbn; lia|]. by rewrite Z.add_0_r.
Qed.

Lemma flat_store_ok src : forall a (m : mem), exists res m' n, flat_store a src m = (res, m') /\
  copied (fun x => m !! x) (fun x => m' !! x) a src n /\ complete (fun x => m !! x) a res n (length src).
Proof.
  induction src as [|x src IH]; intros a m; cbn [flat_store].
  { exists 0, m, O. split_and!; [done| |by left]. intros a'. by rewrite decide_False by lia. }
  destruct (m !! a) eqn:Ea.
  - destruct (IH (a + 1) (<[a := x]> m)) as (res & m' & n & -> & Hc & Hr). exists res, m', (S n). split_and!; [done| |].
    + intros a'. rewrite (Hc a'). destruct (decide (a' = a)) as [->|Hne]; [rewrite decide_False, decide_True by lia; by rewrite lookup_insert_eq, Z.sub_diag|].
      destruct (decide (a + 1 <= a' < _)) as [Hin|Hout]; [rewrite decide_True by lia|by rewrite decide_False, lookup_insert_ne by lia].
      by replace (Z.to_nat (a' - a)) with (S (Z.to_nat (a' - (a + 1)))) by lia.
    + destruct Hr as [[-> ->]|(-> & Hl & Hn)]; [by left|right]. split_and!; [done|cbn; lia|]. rewrite lookup_insert_ne in Hn by lia. rewrite <- Hn. f_equal. lia.
  - exists (-1), m, O. split_and!; [done| |right; split_and!; [done|cbn; lia|by rewrite Z.add_0_r]]. intros a'. by rewrite decide_False by lia.
Qed.

#[export] Instance flat_user : UserMem mem.
Proof.
  refine {| um_copyin := fun a len m => let bs := fetch (fun x => m !! x) a (Z.to_nat len) in Ret (if decide (length bs = Z.to_nat len) then 0 else -1, bs) m;
    um_copyout := fun a src m => let r := flat_store a src m in Ret (fst r) (snd r); um_inv := fun _ => True; um_read := fun m a => m !! a |}.
  - intros m a len _ _ _. eexists _, _. split; [done|]. destruct (fetch_ok (fun x => m !! x) (Z.to_nat len) a) as [H1 H2]. split; [exact H1|].
    case_decide as Hd; [by left|right]. destruct H2 as [H2|[H2 H3]]; [done|]. by split_and!.
  - intros m a src _ _. destruct (flat_store_ok src a m) as (res & m' & n & E & Hc & Hr). exists res, m', n. by rewrite E.
Defined.

(** The process's memory and the kernel's. *)
Record umem (U : Type) := mkumem { um_user : U; um_kern : mem }.
Arguments mkumem {U} _ _.
Arguments um_user {U} _.
Arguments um_kern {U} _.

Definition set_um_user {U} (v : U) (s : umem U) : umem U := mkumem v (um_kern s).
Definition set_um_kern {U} (v : mem) (s : umem U) : umem U := mkumem (um_user s) v.

(** [memmove] from a kernel variable that holds the bytes [src], and into one. *)
Fixpoint kstore (a : Z) (src : list Z) (m : mem) : option mem :=
  match src with
  | [] => Some m
  | x :: src => m ← st m a x; kstore (a + 1) src m
  end.

Fixpoint kload (a : Z) (n : nat) (m : mem) : option (list Z) :=
  match n with
  | O => Some []
  | S n => x ← ld m a; l ← kload (a + 1) n m; Some (x :: l)
  end.

Section UserMem.
Context {U : Type} `{UserMem U}.

Definition either_copyout (user_dst : bool) (dst : Z) (src : list Z) : M (umem U) Z :=
  if user_dst then zoom um_user set_um_user (um_copyout dst src)
  else m <- gets um_kern ;; m <- unwrap (kstore dst src m) ;; modify (set_um_kern m) ;;; ret 0.

Definition either_copyin (user_src : bool) (src len : Z) : M (umem U) (Z * list Z) :=
  if user_src then zoom um_user set_um_user (um_copyin src len)
  else m <- gets um_kern ;; l <- unwrap (kload src (Z.to_nat len) m) ;; ret (0, l).

Definition view (user : bool) (s : umem U) (a : Z) : option Z := if user then um_read (um_user s) a else um_kern s !! a.

Lemma kstore_ok src : forall a m, mapped m a (Z.of_nat (length src)) ->
  exists m', kstore a src m = Some m' /\ copied (fun x => m !! x) (fun x => m' !! x) a src (length src).
Proof.
  induction src as [|x src IH]; intros a m Hm; cbn [kstore length].
  - exists m. split; [done|]. intros a'. by rewrite decide_False by lia.
  - rewrite st_ok by (apply (mapped_at _ _ _ _ Hm); cbn; lia). cbn [mbind option_bind]. cbn [length] in Hm.
    destruct (IH (a + 1) (<[a := x]> m)) as (m' & E & Hc).
    { apply mapped_insert, mapped_tail. by replace (Z.of_nat (length src) + 1) with (Z.of_nat (S (length src))) by lia. }
    exists m'. split; [done|]. intros a'. rewrite (Hc a'). rewrite lookup_insert. repeat case_decide; subst; try lia; [|by rewrite Z.sub_diag|done].
    by replace (Z.to_nat (a' - a)) with (S (Z.to_nat (a' - (a + 1)))) by lia.
Qed.

Lemma kload_ok n : forall a m, mapped m a (Z.of_nat n) -> exists l, kload a n m = Some l /\ length l = n /\ forall i x, l !! i = Some x -> m !! (a + Z.of_nat i) = Some x.
Proof.
  induction n as [|n IH]; intros a m Hm; cbn [kload]; [by exists []|].
  destruct (mapped_at _ _ _ a Hm ltac:(lia)) as [x Hx]. unfold ld at 1. rewrite Hx. cbn [mbind option_bind].
  destruct (IH (a + 1) m) as (l & -> & Hl & Hi); [apply mapped_tail; by replace (Z.of_nat n + 1) with (Z.of_nat (S n)) by lia|].
  exists (x :: l). split_and!; [done|cbn; lia|]. intros [|i] y Hy; cbn in Hy; [by simplify_eq; rewrite Z.add_0_r|].
  rewrite <- (Hi i y Hy). f_equal. lia.
Qed.

Lemma either_copyout_ok user s a src :
  um_inv (um_user s) -> 0 <= a -> (user = false -> mapped (um_kern s) a (Z.of_nat (length src))) ->
  exists res s' n, either_copyout user a src s = Ret res s' /\ um_inv (um_user s') /\ copied (view user s) (view user s') a src n /\
    (forall x, view (negb user) s' x = view (negb user) s x) /\ complete (view user s) a res n (length src).
Proof.
  intros Hi Ha Hk. destruct user; cbn [view negb either_copyout].
  - destruct (um_copyout_ok (um_user s) a src Hi Ha) as (res & u' & n & E & Hi' & Hc & Hr). exists res, (set_um_user u' s), n.
    split_and!; try done. by apply zoom_ret.
  - destruct (kstore_ok src a (um_kern s) (Hk eq_refl)) as (m' & E & Hc). exists 0, (set_um_kern m' s), (length src).
    split_and!; try done; [unfold bind, gets; cbn; by rewrite E|by left].
Qed.

Lemma either_copyin_ok user s a len :
  um_inv (um_user s) -> 0 <= a -> 0 <= len -> (user = false -> mapped (um_kern s) a len) ->
  exists res bs, either_copyin user a len s = Ret (res, bs) s /\ (forall i x, bs !! i = Some x -> view user s (a + Z.of_nat i) = Some x) /\
    complete (view user s) a res (length bs) (Z.to_nat len).
Proof.
  intros Hi Ha Hl Hk. destruct user; cbn [view either_copyin].
  - destruct (um_copyin_ok (um_user s) a len Hi Ha Hl) as (res & bs & E & Hb & Hr). exists res, bs. split_and!; try done.
    rewrite (zoom_ret _ _ _ _ _ _ E). by destruct s.
  - destruct (kload_ok (Z.to_nat len) a (um_kern s)) as (l & E & Hl' & Hb); [rewrite Z2Nat.id by lia; by apply Hk|]. exists 0, l.
    split_and!; try done; [unfold bind, gets; cbn; by rewrite E|by left].
Qed.

(** One byte. *)
Lemma um_copyin1 u a : um_inv u -> 0 <= a ->
  match um_read u a with Some x => um_copyin a 1 u = Ret (0, [x]) u | None => um_copyin a 1 u = Ret (-1, []) u end.
Proof.
  intros Hi Ha. destruct (um_copyin_ok u a 1 Hi Ha ltac:(lia)) as (res & bs & E & Hb & [[-> Hl]|(-> & Hl & Hn)]).
  - destruct bs as [|x [|y bs]]; [done| |done]. specialize (Hb O x eq_refl). rewrite Z.add_0_r in Hb. by rewrite Hb.
  - destruct bs; [|cbn in Hl; lia]. rewrite Z.add_0_r in Hn. by rewrite Hn.
Qed.

Lemma um_copyout1 u a x : um_inv u -> 0 <= a ->
  exists res u', um_copyout a [x] u = Ret res u' /\ um_inv u' /\
    (res = 0 /\ (forall b, um_read u' b = if decide (b = a) then Some x else um_read u b) \/
     res = -1 /\ um_read u a = None /\ forall b, um_read u' b = um_read u b).
Proof.
  intros Hi Ha. destruct (um_copyout_ok u a [x] Hi Ha) as (res & u' & n & E & Hi' & Hc & [[-> ->]|(-> & Hl & Hn)]); eexists _, u'; (split_and!; [done..|]).
  - left. split; [done|]. intros b. rewrite (Hc b). cbn [length]. repeat case_decide; try lia; [subst; by rewrite Z.sub_diag|done].
  - right. destruct n; [|cbn in Hl; lia]. rewrite Z.add_0_r in Hn. split_and!; [done..|]. intros b. by rewrite (Hc b), decide_False by lia.
Qed.
End UserMem.
