(* ===== verification/VmUser.v ===== *)
(** * The page tables provide the memory of a process

    [copyin] and [copyout] of a well-formed page table whose user pages are not
    shared discharge the interface of UserMem.v. *)

From S2P Require Import Prelude Riscv ListC Buddy BuddyTree AllocI BuddySpec BuddyInit BuddyProps Bytes Vm VmSpec VmMap VmCopy VmFork VmProps UserMem.

Section VmUser.
Context (junk : buddy -> Z -> page) (r : Z) (L1 L0 AS : gmap Z Z).

Definition vm_inv (s : vms buddy) : Prop := vinv s /\ ptrep (pmem s) r L1 L0 AS /\ uspace (pmem s) r L1 L0 AS.

Lemma vm_copyin_ok s va len : vm_inv s -> 0 <= va -> 0 <= len ->
  exists res bs, copyin junk (r * PGSIZE) va len s = Ret (res, bs) s /\ (forall i x, bs !! i = Some x -> uread (pmem s) AS (va + Z.of_nat i) = Some x) /\
    complete (uread (pmem s) AS) va res (length bs) (Z.to_nat len).
Proof.
  intros (Hv & Hp & Hu) Hva Hl. unfold copyin. destruct (copyin_ok junk s r L1 L0 AS (S (Z.to_nat len)) va len Hv Hp Hu Hva ltac:(lia)) as (res & bs & E & Hb & Hr).
  exists res, bs. split_and!; [exact E|exact Hb|]. destruct Hr as [[-> Hr]|(-> & Hr & Hn)]; [left|right]; split_and!; (done || lia).
Qed.

Lemma vm_copyout_ok s va src : vm_inv s -> 0 <= va ->
  exists res s' n, copyout junk (r * PGSIZE) va src s = Ret res s' /\ vm_inv s' /\ copied (uread (pmem s) AS) (uread (pmem s') AS) va src n /\
    complete (uread (pmem s) AS) va res n (length src).
Proof.
  intros (Hv & Hp & Hu) Hva. destruct (copyout_ok junk r L1 L0 AS (S (length src)) s va src Hv Hp Hu Hva ltac:(lia)) as (res & s' & n & E & Hv' & Hp' & Hu' & _ & _ & Hr & _ & Hres).
  exists res, s', n. split_and!; [exact E|done|exact Hr|exact Hres].
Qed.

#[export] Instance vm_user : UserMem (vms buddy) := {|
  um_copyin := copyin junk (r * PGSIZE);
  um_copyout := copyout junk (r * PGSIZE);
  um_inv := vm_inv;
  um_read := fun s => uread (pmem s) AS;
  um_copyin_ok := vm_copyin_ok;
  um_copyout_ok := vm_copyout_ok
|}.
End VmUser.
