(* ===== verification/Pipe.v ===== *)
(** * kernel/pipe.c: pipes

    One pipe [pi], with its lock [lk] and the addresses of its two counters,
    the channels the readers and the writers sleep on.  [fuel] bounds how often
    a call is woken up.  After [kfree] the pipe is gone. *)

From S2P Require Import Prelude StringC Ring UserMem.

Definition PIPESIZE : Z := 512.

Record pipe := mkpipe {
  pdata : list Z;
  nread : Z;
  nwrite : Z;
  readopen : bool;
  writeopen : bool
}.

Definition set_pdata (v : list Z) (p : pipe) : pipe := mkpipe v (nread p) (nwrite p) (readopen p) (writeopen p).
Definition set_nread (v : Z) (p : pipe) : pipe := mkpipe (pdata p) v (nwrite p) (readopen p) (writeopen p).
Definition set_nwrite (v : Z) (p : pipe) : pipe := mkpipe (pdata p) (nread p) v (readopen p) (writeopen p).
Definition set_readopen (v : bool) (p : pipe) : pipe := mkpipe (pdata p) (nread p) (nwrite p) v (writeopen p).
Definition set_writeopen (v : bool) (p : pipe) : pipe := mkpipe (pdata p) (nread p) (nwrite p) (readopen p) v.

(** The thread, the pipe and the memory of the process. *)
Record pst (U : Type) := mkpst { pcx : ctx; ppipe : option pipe; pmemu : U }.
Arguments mkpst {U} _ _ _.
Arguments pcx {U} _.
Arguments ppipe {U} _.
Arguments pmemu {U} _.

Definition set_pcx {U} (v : ctx) (s : pst U) : pst U := mkpst v (ppipe s) (pmemu s).
Definition set_ppipe {U} (v : option pipe) (s : pst U) : pst U := mkpst (pcx s) v (pmemu s).
Definition set_pmemu {U} (v : U) (s : pst U) : pst U := mkpst (pcx s) (ppipe s) v.

#[export] Instance pst_ctx {U} : HasCtx (pst U).
Proof. refine {| cx := pcx; set_cx := set_pcx |}; [done|by intros []|done]. Defined.

Section Pipe.
Context {U : Type} `{UserMem U} (lk : lock) (nread_chan nwrite_chan : Z).

Abbreviation P := (M (pst U)).

(** [pi->...]: a freed pipe has no fields. *)
Definition pi : P pipe := fun s => unwrap (ppipe s) s.
Definition upi (f : pipe -> pipe) : P unit := p <- pi ;; modify (set_ppipe (Some (f p))).
Definition user {A} (m : M U A) : P A := zoom pmemu set_pmemu m.
Definition killed : P bool := gets (fun s => mykilled (pcx s)).

(** The pipe of [pipealloc], from the uninitialised page [junk]. *)
Definition pipeinit (junk : list Z) : P unit := modify (set_ppipe (Some (mkpipe junk 0 0 true true))).

Definition pipeclose (writable : bool) : P unit :=
  acquire lk ;;;
  (if writable then upi (set_writeopen false) ;;; wakeup_on nread_chan
   else upi (set_readopen false) ;;; wakeup_on nwrite_chan) ;;;
  p <- pi ;;
  if negb (readopen p) && negb (writeopen p) then
    release lk ;;;
    modify (set_ppipe None)
  else release lk.

Definition pipewrite_end (n : Z) : P Z :=
  wakeup_on nread_chan ;;;
  release lk ;;;
  ret n.

(** The loop from [i] on, with [m] rounds to go. *)
Fixpoint pipewrite_loop (fuel : nat) : nat -> Z -> Z -> Z -> P Z :=
  fix rounds m addr n i :=
    match m with
    | O => pipewrite_end n
    | S m' =>
        p <- pi ;;
        if nwrite p =? u32 (nread p + PIPESIZE) then
          k <- killed ;;
          if negb (readopen p) || k then release lk ;;; ret (-1) else
          wakeup_on nread_chan ;;;
          sleep_on nwrite_chan lk ;;;
          match fuel with
          | O => nofuel
          | S fuel => pipewrite_loop fuel m addr n i
          end
        else
          r <- user (um_copyin (u64 (addr + i)) 1) ;;
          if fst r =? -1 then pipewrite_end n else
          ch <- unwrap (aget (snd r) 0) ;;
          d <- unwrap (aset (pdata p) (nwrite p mod PIPESIZE) ch) ;;
          upi (fun p => set_nwrite (u32 (nwrite p + 1)) (set_pdata d p)) ;;;
          rounds m' addr n (i + 1)
    end.

Definition pipewrite (fuel : nat) (addr n : Z) : P Z :=
  acquire lk ;;;
  pipewrite_loop fuel (Z.to_nat n) addr n 0.

Fixpoint piperead_loop (m : nat) (addr i : Z) : P Z :=
  match m with
  | O => ret i
  | S m =>
      p <- pi ;;
      if nread p =? nwrite p then ret i else
      ch <- unwrap (aget (pdata p) (nread p mod PIPESIZE)) ;;
      upi (set_nread (u32 (nread p + 1))) ;;;
      r <- user (um_copyout (u64 (addr + i)) [ch]) ;;
      if r =? -1 then ret i else
      piperead_loop m addr (i + 1)
  end.

Definition piperead_copy (addr n : Z) : P Z :=
  i <- piperead_loop (Z.to_nat n) addr 0 ;;
  wakeup_on nwrite_chan ;;;
  release lk ;;;
  ret i.

(** While the pipe is empty and a writer may still come. *)
Fixpoint piperead_wait (fuel : nat) (addr n : Z) : P Z :=
  p <- pi ;;
  if (nread p =? nwrite p) && writeopen p then
    k <- killed ;;
    if (k : bool) then release lk ;;; ret (-1) else
    sleep_on nread_chan lk ;;;
    match fuel with
    | O => nofuel
    | S fuel => piperead_wait fuel addr n
    end
  else piperead_copy addr n.

Definition piperead (fuel : nat) (addr n : Z) : P Z :=
  acquire lk ;;;
  piperead_wait fuel addr n.
End Pipe.
