(* ===== verification/PipeSpec.v ===== *)
(** * The pipe is a queue of bytes

    The bytes between the two counters are a queue of at most [PIPESIZE] bytes:
    a write appends to it, a read takes from its front. *)

From S2P Require Import Prelude StringC Ring UserMem Pipe.

(** The pipe holds the bytes [q]. *)
Record pinv (p : pipe) (q : list Z) : Prop := {
  pv_ring : ring PIPESIZE (pdata p) (nread p) q;
  pv_nwrite : nwrite p = u32 (nread p + Z.of_nat (length q));
  pv_nread : 0 <= nread p < 2 ^ 32
}.

Lemma PIPESIZE_pos : 0 < PIPESIZE.
Proof. done. Qed.

Lemma PIPESIZE_div : (PIPESIZE | 2 ^ 32).
Proof. by exists (2 ^ 23). Qed.

Lemma pinv_len p q : pinv p q -> Z.of_nat (length q) <= PIPESIZE.
Proof. intros [Hr _ _]. apply Hr. Qed.

Lemma pinv_full p q : pinv p q -> (nwrite p =? u32 (nread p + PIPESIZE)) = bool_decide (Z.of_nat (length q) = PIPESIZE).
Proof.
  intros Hp. pose proof (pinv_len p q Hp) as Hl. destruct Hp as [_ Hw Hr]. rewrite Hw. case_bool_decide as Hq; [rewrite Hq; apply Z.eqb_refl|].
  apply Z.eqb_neq. unfold u32, PIPESIZE in *. intros He. dlia.
Qed.

Lemma pinv_empty p q : pinv p q -> (nread p =? nwrite p) = bool_decide (q = []).
Proof.
  intros Hp. pose proof (pinv_len p q Hp) as Hl. destruct Hp as [_ Hw Hr]. rewrite Hw, Z.eqb_sym. unfold PIPESIZE in Hl.
  pose proof (counters_eq (nread p) (Z.of_nat (length q)) ltac:(lia) Hr) as Hc. case_bool_decide as Hq.
  - subst q. apply Z.eqb_eq. by apply Hc.
  - apply Z.eqb_neq. intros He. apply Hc in He. destruct q; [done|]. cbn in He. lia.
Qed.

Lemma pinv_push p q ch : pinv p q -> Z.of_nat (length q) < PIPESIZE ->
  exists d, aset (pdata p) (nwrite p mod PIPESIZE) ch = Some d /\ pinv (set_nwrite (u32 (nwrite p + 1)) (set_pdata d p)) (q ++ [ch]).
Proof.
  intros [Hr Hw Hn] Hq. rewrite Hw. destruct (ring_push PIPESIZE PIPESIZE_pos PIPESIZE_div _ _ _ ch Hr Hq) as (d & E & Hd). exists d. split; [done|].
  split; [done| |done]. cbn. rewrite length_app. cbn. unfold u32. rewrite Zplus_mod_idemp_l. f_equal. lia.
Qed.

Lemma pinv_pop p x q : pinv p (x :: q) -> aget (pdata p) (nread p mod PIPESIZE) = Some x /\ pinv (set_nread (u32 (nread p + 1)) p) q.
Proof.
  intros [Hr Hw Hn]. destruct (ring_pop PIPESIZE PIPESIZE_pos PIPESIZE_div _ _ _ _ Hr) as [Ha Hr']. rewrite u32_small in Ha by done.
  split; [done|]. split; cbn; [by apply ring_u32; [done|apply PIPESIZE_div|]| |apply u32_range].
  rewrite Hw. cbn [length]. unfold u32. rewrite Zplus_mod_idemp_l. f_equal. lia.
Qed.

Lemma pinv_flags p p' q : pdata p' = pdata p -> nread p' = nread p -> nwrite p' = nwrite p -> pinv p q -> pinv p' q.
Proof. intros H1 H2 H3 [? ? ?]. split; by rewrite ?H1, ?H2, ?H3. Qed.

Section PipeSpec.
Context {U : Type} {HU : UserMem U} (lk : lock) (nread_chan nwrite_chan : Z).

Abbreviation pipewrite_loop := (pipewrite_loop lk nread_chan nwrite_chan).
Abbreviation pipewrite := (pipewrite lk nread_chan nwrite_chan).
Abbreviation piperead := (piperead lk nread_chan nwrite_chan).

(** [pipewrite] from its [i]-th byte on. *)
Definition pipewrite_from (fuel : nat) (addr n i : Z) : M (pst U) Z := acquire lk ;;; pipewrite_loop fuel (Z.to_nat (n - i)) addr n i.

Definition same_ends (p p' : pipe) : Prop := readopen p' = readopen p /\ writeopen p' = writeopen p.

(** What a write does while it has the lock: with [m] bytes to go, [bs] of them
    readable, and room for [room] in the pipe. *)
Definition did_write (fuel : nat) (addr n i : Z) (c : ctx) (u : U) (p : pipe) (q bs : list Z) (r : res (pst U) Z) : Prop :=
  let m := Z.to_nat (n - i) in
  let room := Z.to_nat (PIPESIZE - Z.of_nat (length q)) in
  exists p', same_ends p p' /\ pinv p' (q ++ take room bs) /\
    let s' := mkpst (touch c) (Some p') u in
    if decide (m <= room \/ length bs < room)%nat then r = Ret n s'
    else if negb (readopen p) || mykilled c then r = Ret (-1) s'
    else exists k, r = Sleep nwrite_chan s' k /\
      forall t, k t = match fuel with O => (acquire lk ;;; nofuel) t | S fuel => pipewrite_from fuel addr n (i + Z.of_nat room) t end.

Lemma release_pipe c p (u : U) : cx_wf c -> lk ∉ held c ->
  release lk (mkpst (locked_cx lk c) p u) = Ret tt (mkpst (touch c) p u).
Proof. intros Hw Hl. rewrite (release_ok lk c); [done|done|done|]. cbn. by rewrite locked_touch. Qed.

Lemma pi_ok c p (u : U) : pi (mkpst c (Some p) u) = Ret p (mkpst c (Some p) u).
Proof. done. Qed.

Lemma upi_ok f c p (u : U) : upi f (mkpst c (Some p) u) = Ret tt (mkpst c (Some (f p)) u).
Proof. done. Qed.

Lemma pipewrite_loop_S fuel m addr n i : pipewrite_loop fuel (S m) addr n i =
  (p <- pi ;;
   if nwrite p =? u32 (nread p + PIPESIZE) then
     k <- killed ;;
     if negb (readopen p) || k then release lk ;;; ret (-1) else
     wakeup_on nread_chan ;;;
     sleep_on nwrite_chan lk ;;;
     match fuel with O => nofuel | S fuel => pipewrite_loop fuel (S m) addr n i end
   else
     r <- user (um_copyin (u64 (addr + i)) 1) ;;
     if fst r =? -1 then pipewrite_end lk nread_chan n else
     ch <- unwrap (aget (snd r) 0) ;;
     d <- unwrap (aset (pdata p) (nwrite p mod PIPESIZE) ch) ;;
     upi (fun p => set_nwrite (u32 (nwrite p + 1)) (set_pdata d p)) ;;;
     pipewrite_loop fuel m addr n (i + 1)).
Proof. by destruct fuel. Qed.

Lemma pipewrite_end_ok n c p (u : U) : cx_wf c -> lk ∉ held c ->
  pipewrite_end lk nread_chan n (mkpst (locked_cx lk c) p u) = Ret n (mkpst (touch c) p u).
Proof. intros Hw Hl. unfold pipewrite_end, wakeup_on. mstep. by run (release_pipe c p u Hw Hl). Qed.

(** The pipe is full: the end of the call, or sleep. *)
Lemma wrote_full fuel addr n i c u p q bs m : cx_wf c -> lk ∉ held c -> pinv p q -> Z.of_nat (length q) = PIPESIZE -> S m = Z.to_nat (n - i) ->
  did_write fuel addr n i c u p q bs (pipewrite_loop fuel (S m) addr n i (mkpst (locked_cx lk c) (Some p) u)).
Proof.
  intros Hw Hl Hp Hq Hm. rewrite pipewrite_loop_S. run (pi_ok (locked_cx lk c) p u). rewrite (pinv_full p q Hp), bool_decide_eq_true_2 by done.
  unfold did_write. rewrite Hq, Z.sub_diag. change (Z.to_nat 0) with O. rewrite take_0, app_nil_r, <- Hm. exists p. split_and!; [done|done|].
  rewrite decide_False by lia. unfold killed. mstep. cbn [pcx locked_cx cx_held cx_push mykilled]. destruct (negb (readopen p) || mykilled c).
  - by run (release_pipe c (Some p) u Hw Hl).
  - unfold wakeup_on. mstep. unfold sleep_on, bind at 1 2. rewrite (release_pipe c (Some p) u Hw Hl). cbn [rbind]. eexists. split; [done|].
    intros t. cbn [rbind]. unfold pipewrite_from. rewrite Z.add_0_r, <- Hm. by destruct fuel.
Qed.

Lemma pipewrite_loop_ok fuel addr n c u : cx_wf c -> lk ∉ held c -> um_inv u -> 0 <= addr ->
  forall m i p q, pinv p q -> m = Z.to_nat (n - i) -> 0 <= i -> addr + n <= 2 ^ 64 ->
  did_write fuel addr n i c u p q (fetch (um_read u) (addr + i) m) (pipewrite_loop fuel m addr n i (mkpst (locked_cx lk c) (Some p) u)).
Proof.
  intros Hw Hl Hu Ha. induction m as [|m IH]; intros i p q Hp Hm Hi Hn; pose proof (pinv_len p q Hp) as Hq.
  - unfold did_write. rewrite <- Hm. exists p. cbn [fetch]. rewrite take_nil, app_nil_r. split_and!; [done|done|]. rewrite decide_True by lia.
    destruct fuel; by apply pipewrite_end_ok.
  - destruct (decide (Z.of_nat (length q) = PIPESIZE)) as [Hfull|Hroom]; [by apply wrote_full|].
    rewrite pipewrite_loop_S. run (pi_ok (locked_cx lk c) p u). rewrite (pinv_full p q Hp), bool_decide_eq_false_2, u64_small by (done || lia).
    pose proof (um_copyin1 u (addr + i) Hu ltac:(lia)) as Hc. cbn [fetch]. destruct (um_read u (addr + i)) as [ch|].
    + run (zoom_ret pmemu set_pmemu _ (mkpst (locked_cx lk c) (Some p) u) _ _ Hc). cbn [fst snd Z.eqb].
      change (aget [ch] 0) with (Some ch). mstep. destruct (pinv_push p q ch Hp ltac:(lia)) as (d & E & Hp'). rewrite E. mstep.
      run (upi_ok (fun p => set_nwrite (u32 (nwrite p + 1)) (set_pdata d p)) (locked_cx lk c) p u).
      specialize (IH (i + 1) _ _ Hp' ltac:(lia) ltac:(lia) Hn). unfold did_write in *. rewrite length_app in IH. cbn [length] in IH.
      replace (addr + i + 1) with (addr + (i + 1)) by lia.
      replace (Z.to_nat (PIPESIZE - Z.of_nat (length q))) with (S (Z.to_nat (PIPESIZE - Z.of_nat (length q + 1)))) by lia.
      replace (Z.to_nat (n - i)) with (S (Z.to_nat (n - (i + 1)))) by lia. set (room := Z.to_nat (PIPESIZE - _)) in *.
      destruct IH as (p' & Hs & Hp2 & Hr). exists p'. rewrite <- app_assoc in Hp2. split_and!; [done|exact Hp2|]. cbn [take length].
      destruct (decide (_ \/ _)) as [Hd|Hd]; [rewrite decide_True by lia|rewrite decide_False by lia]; [done|].
      cbn [readopen set_nwrite set_pdata] in Hr. destruct (negb (readopen p) || mykilled c); [done|]. destruct Hr as (k & Hk & Hc2). exists k. split; [done|].
      intros t. rewrite Hc2. destruct fuel; [done|]. by replace (i + 1 + Z.of_nat room) with (i + Z.of_nat (S room)) by lia.
    + run (zoom_ret pmemu set_pmemu _ (mkpst (locked_cx lk c) (Some p) u) _ _ Hc). cbn [fst Z.eqb Pos.eqb]. unfold did_write. exists p.
      rewrite take_nil, app_nil_r. split_and!; [done|done|]. rewrite decide_True by (cbn; lia). by apply pipewrite_end_ok.
Qed.

(** What a read did to the pipe and to the buffer: [j] bytes were delivered.  A
    byte that cannot be stored is lost. *)
Definition took (addr n : Z) (u u' : U) (p' : pipe) (q : list Z) (j : Z) : Prop :=
  let all := Z.min (Z.max 0 n) (Z.of_nat (length q)) in
  0 <= j <= all /\ copied (um_read u) (um_read u') addr q (Z.to_nat j) /\ um_inv u' /\
  if decide (j = all) then pinv p' (drop (Z.to_nat j) q) else um_read u (addr + j) = None /\ pinv p' (drop (S (Z.to_nat j)) q).

Lemma piperead_loop_ok addr c : 0 <= addr -> forall m i u p q, um_inv u -> pinv p q -> 0 <= i -> addr + i + Z.of_nat m <= 2 ^ 64 ->
  exists j u' p', piperead_loop m addr i (mkpst c (Some p) u) = Ret (i + j) (mkpst c (Some p') u') /\ same_ends p p' /\
    took (addr + i) (Z.of_nat m) u u' p' q j.
Proof.
  intros Ha. induction m as [|m IH]; intros i u p q Hu Hp Hi Hb; cbn [piperead_loop].
  { exists 0, u, p. split_and!; [unfold ret; by rewrite Z.add_0_r|done|]. unfold took. split_and!; [lia|lia| |done|].
    - intros a'. by rewrite decide_False by lia.
    - by rewrite decide_True by lia. }
  run (pi_ok c p u). rewrite (pinv_empty p q Hp). destruct q as [|x q].
  { exists 0, u, p. split_and!; [unfold ret; by rewrite Z.add_0_r|done|]. unfold took. cbn [length]. split_and!; [lia|lia| |done|].
    - intros a'. by rewrite decide_False by lia.
    - by rewrite decide_True by lia. }
  rewrite bool_decide_eq_false_2 by done. destruct (pinv_pop p x q Hp) as [E Hp']. rewrite E. mstep. run (upi_ok (set_nread (u32 (nread p + 1))) c p u).
  rewrite u64_small by lia. destruct (um_copyout1 u (addr + i) x Hu ltac:(lia)) as (res & u1 & E1 & Hu1 & Hres).
  run (zoom_ret pmemu set_pmemu _ (mkpst c (Some (set_nread (u32 (nread p + 1)) p)) u) _ _ E1). unfold set_pmemu. cbn [pcx ppipe]. destruct Hres as [[-> Hr]|(-> & Hn & Hr)].
  - cbn [Z.eqb]. destruct (IH (i + 1) u1 _ q Hu1 Hp' ltac:(lia) ltac:(lia)) as (j & u' & p' & E2 & Hs & Hj & Hc & Hu' & Hend).
    exists (j + 1), u', p'. split_and!; [rewrite E2; f_equal; lia|done|]. unfold took. cbn [length]. split_and!; [lia|lia| |done|].
    + intros a'. rewrite (Hc a'), Hr. replace (Z.to_nat (j + 1)) with (S (Z.to_nat j)) by lia.
      destruct (decide (a' = addr + i)) as [->|Hne]; [rewrite decide_False, decide_True by lia; by rewrite Z.sub_diag|].
      destruct (decide (addr + (i + 1) <= a' < _)) as [Hin|Hout]; [rewrite decide_True by lia|by rewrite decide_False by lia].
      by replace (Z.to_nat (a' - (addr + i))) with (S (Z.to_nat (a' - (addr + (i + 1))))) by lia.
    + replace (Z.to_nat (j + 1)) with (S (Z.to_nat j)) by lia. cbn [drop]. destruct (decide (j = _)) as [Hd|Hd]; [rewrite decide_True by lia; done|rewrite decide_False by lia].
      destruct Hend as [He1 He2]. rewrite Hr, decide_False in He1 by lia. split; [|done]. rewrite <- He1. f_equal. lia.
  - cbn [Z.eqb Pos.eqb]. exists 0, u1, (set_nread (u32 (nread p + 1)) p). split_and!; [unfold ret; by rewrite Z.add_0_r|done|]. unfold took. cbn [length]. split_and!; [lia|lia| |done|].
    + intros a'. rewrite decide_False by lia. apply Hr.
    + rewrite decide_False by lia. rewrite Z.add_0_r. done.
Qed.

(** What a read does while it has the lock. *)
Definition did_read (fuel : nat) (addr n : Z) (c : ctx) (u : U) (p : pipe) (q : list Z) (r : res (pst U) Z) : Prop :=
  if decide (q = [] /\ writeopen p = true) then
    if mykilled c then r = Ret (-1) (mkpst (touch c) (Some p) u)
    else exists k, r = Sleep nread_chan (mkpst (touch c) (Some p) u) k /\
      forall t, k t = match fuel with O => (acquire lk ;;; nofuel) t | S fuel => piperead fuel addr n t end
  else exists j u' p', r = Ret j (mkpst (touch c) (Some p') u') /\ same_ends p p' /\ took addr n u u' p' q j.

Lemma piperead_ok fuel addr n c u p q : cx_wf c -> lk ∉ held c -> um_inv u -> 0 <= addr -> addr + Z.max 0 n <= 2 ^ 64 -> pinv p q ->
  did_read fuel addr n c u p q (piperead fuel addr n (mkpst c (Some p) u)).
Proof.
  intros Hw Hl Hu Ha Hb Hp. unfold did_read, Pipe.piperead. run (acquire_ok lk (mkpst c (Some p) u) Hl). cbn [set_cx pst_ctx cx pcx set_pcx ppipe pmemu].
  assert (Ew : forall f, piperead_wait lk nread_chan nwrite_chan f addr n =
    (p <- pi ;; if (nread p =? nwrite p) && writeopen p then k <- killed ;; if (k : bool) then release lk ;;; ret (-1) else
       sleep_on nread_chan lk ;;; match f with O => nofuel | S f => piperead_wait lk nread_chan nwrite_chan f addr n end
     else piperead_copy lk nwrite_chan addr n)) by (by intros []).
  unfold set_pcx. cbn [ppipe pmemu]. rewrite Ew. run (pi_ok (locked_cx lk c) p u). rewrite (pinv_empty p q Hp).
  destruct (decide (q = [] /\ writeopen p = true)) as [[-> Hwo]|Hgo].
  - rewrite Hwo. unfold killed. rewrite bool_decide_eq_true_2 by done. cbn [andb]. mstep. cbn [pcx locked_cx cx_held cx_push mykilled].
    destruct (mykilled c); [by run (release_pipe c (Some p) u Hw Hl)|]. unfold sleep_on, bind at 1 2. rewrite (release_pipe c (Some p) u Hw Hl). cbn [rbind].
    eexists. split; [done|]. intros t. by destruct fuel.
  - replace (bool_decide (q = []) && writeopen p) with false.
    + unfold piperead_copy. destruct (piperead_loop_ok addr (locked_cx lk c) Ha (Z.to_nat n) 0 u p q Hu Hp ltac:(lia) ltac:(lia)) as (j & u' & p' & E & Hs & Ht).
      run E. unfold wakeup_on. mstep. run (release_pipe c (Some p') u' Hw Hl). exists j, u', p'. split_and!; [done|done|].
      rewrite Z.add_0_r in Ht. unfold took in *. by replace (Z.max 0 (Z.of_nat (Z.to_nat n))) with (Z.max 0 n) in Ht by lia.
    + case_bool_decide; [|done]. destruct (writeopen p); [by destruct Hgo|done].
Qed.

(** [piperead] of an empty pipe that has a writer sleeps, without the lock,
    and starts again when woken up, or returns -1 if the process was killed.
    Otherwise it takes bytes off the front of the queue and stores them in the
    caller's buffer in their order: as many as were asked for and are there, or
    fewer if the buffer ends, in which case one more byte is gone from the pipe.
    It returns the number of bytes stored. *)
Theorem piperead_spec fuel addr n c u p q : cx_wf c -> lk ∉ held c -> um_inv u -> 0 <= addr -> addr + Z.max 0 n <= 2 ^ 64 -> pinv p q ->
  did_read fuel addr n c u p q (piperead fuel addr n (mkpst c (Some p) u)).
Proof. apply piperead_ok. Qed.

Lemma pipeclose_ok w c (u : U) p : cx_wf c -> lk ∉ held c ->
  pipeclose lk nread_chan nwrite_chan w (mkpst c (Some p) u) =
    Ret tt (mkpst (touch c) (if (negb w || negb (readopen p)) && (w || negb (writeopen p)) then None
                             else Some (if w then set_writeopen false p else set_readopen false p)) u).
Proof.
  intros Hw Hl. unfold pipeclose. run (acquire_ok lk (mkpst c (Some p) u) Hl). cbn [set_cx pst_ctx cx pcx]. unfold set_pcx. cbn [ppipe pmemu].
  destruct w; cbn [negb orb andb].
  - unfold wakeup_on. rewrite (bind_ret_l _ _ _ tt (mkpst (locked_cx lk c) (Some (set_writeopen false p)) u)) by done. run (pi_ok (locked_cx lk c) (set_writeopen false p) u).
    cbn [readopen writeopen set_writeopen]. destruct (readopen p); cbn [negb andb]; [by apply release_pipe|]. by run (release_pipe c (Some (set_writeopen false p)) u Hw Hl).
  - unfold wakeup_on. rewrite (bind_ret_l _ _ _ tt (mkpst (locked_cx lk c) (Some (set_readopen false p)) u)) by done. run (pi_ok (locked_cx lk c) (set_readopen false p) u).
    cbn [readopen writeopen set_readopen negb]. destruct (writeopen p); cbn [negb andb]; [by apply release_pipe|]. by run (release_pipe c (Some (set_readopen false p)) u Hw Hl).
Qed.

(** C39: [pipewrite] appends bytes of the caller's buffer to the queue, in their
    order.  It appends all that are readable if the pipe has room for them, and
    returns the length it was asked for.  Otherwise it fills the pipe, and
    returns -1 when no reader is left or the process was killed, or else sleeps,
    without the lock.  Woken up, it goes on with the first byte not yet written,
    whatever state the other threads left.  The ends of the pipe stay as they
    are, and the thread returns with the locks and the interrupt state it came
    with. *)
Theorem pipewrite_spec fuel addr n i c u p q : cx_wf c -> lk ∉ held c -> um_inv u -> 0 <= addr -> 0 <= i -> addr + n <= 2 ^ 64 -> pinv p q ->
  did_write fuel addr n i c u p q (fetch (um_read u) (addr + i) (Z.to_nat (n - i))) (pipewrite_from fuel addr n i (mkpst c (Some p) u)).
Proof.
  intros Hw Hl Hu Ha Hi Hb Hp. unfold pipewrite_from. run (acquire_ok lk (mkpst c (Some p) u) Hl). by apply pipewrite_loop_ok.
Qed.
End PipeSpec.

Definition plk : lock := ("pipe"%string, 0).
Definition demo_pipe : pipe := mkpipe (replicate 512 0) (2 ^ 32 - 1) 1 true true.
Definition demo_cx : ctx := {| noff := 0; intena := false; intr := true; held := []; mypid := 3; mykilled := false |}.

Lemma demo_cx_wf : cx_wf demo_cx.
Proof. split_and!; [done|constructor|done]. Qed.

(** Two zero bytes, across the wrap-around of the counters. *)
Lemma demo_pipe_inv : pinv demo_pipe [0; 0].
Proof.
  split; [|done|cbn; lia]. split; [done|cbn; unfold PIPESIZE; lia|]. intros [|[|i]] x Hi; cbn in Hi; simplify_eq; by vm_compute.
Qed.

Definition hi_mem : mem := bytes_at 100 [104; 105; 10].

Lemma hi_inv : um_inv hi_mem.
Proof. exact I. Qed.

Lemma hi_fetch : fetch (um_read hi_mem) 100 3 = [104; 105; 10].
Proof. by vm_compute. Qed.

Lemma pipewrite_spec_witness : exists p', pipewrite_from plk 1 2 1 100 3 0 (mkpst demo_cx (Some demo_pipe) hi_mem) = Ret 3 (mkpst (touch demo_cx) (Some p') hi_mem) /\
  pinv p' [0; 0; 104; 105; 10].
Proof.
  destruct (pipewrite_spec plk 1 2 1 100 3 0 demo_cx hi_mem demo_pipe [0; 0] demo_cx_wf (not_elem_of_nil _) hi_inv) as (p' & _ & Hp & E); [lia|lia|lia|exact demo_pipe_inv|].
  change (fetch (um_read hi_mem) (100 + 0) (Z.to_nat (3 - 0))) with (fetch (um_read hi_mem) 100 3) in *. rewrite hi_fetch in *.
  exists p'. split; [exact E|exact Hp].
Defined.

Lemma piperead_spec_witness : exists j u' p', piperead plk 1 2 1 100 2 (mkpst demo_cx (Some demo_pipe) hi_mem) = Ret j (mkpst (touch demo_cx) (Some p') u') /\
  took 100 2 hi_mem u' p' [0; 0] j.
Proof.
  destruct (piperead_spec plk 1 2 1 100 2 demo_cx hi_mem demo_pipe [0; 0] demo_cx_wf (not_elem_of_nil _) hi_inv) as (j & u' & p' & E & _ & Ht); [lia|lia|exact demo_pipe_inv|].
  exists j, u', p'. split; [exact E|exact Ht].
Defined.
