(* ===== verification/Blocks.v ===== *)
(** * The blocks of a disk, as the file system uses them

    What the buffer cache and the log promise to kernel/fs.c: a block that is
    read is held until it is released, and changes together with its record in
    the log.  Inside a transaction the contents of the disk are a map from block
    numbers to bytes.  A block that is in the log already takes no more room.
    FsDisk.v discharges the interface with bio.c and log.c. *)

From S2P Require Import Prelude.

(** The contents of the blocks, the buffers held with their blocks, and how many
    more buffers can be taken and blocks logged. *)
Record gblocks := mkg {
  g_view : gmap Z (list Z);
  g_held : gmap Z Z;
  g_bufs : nat;
  g_logs : nat
}.

(** A thread that holds none of the locks [own]. *)
Definition ready (own : lock -> Prop) (c : ctx) : Prop := cx_wf c /\ forall l, own l -> l ∉ held c.

(** The operations, with those that open and close a transaction of a device. *)
Class BlockOps (S : Type) := {
  bk_bread : Z -> Z -> M S Z;
  bk_data : Z -> M S (list Z);
  bk_set : Z -> list Z -> M S unit;
  bk_log_write : Z -> M S unit;
  bk_brelse : Z -> M S unit;
  bk_begin_op : Z -> M S unit;
  bk_end_op : Z -> M S unit
}.

(** What they promise inside a transaction. *)
Class Blocks (S : Type) {HS : HasCtx S} {HO : BlockOps S} := {
  bk_dev : Z;
  bk_own : lock -> Prop;
  bk_logged : S -> gset Z;
  bk_rep : S -> gblocks -> Prop;
  bk_own_not : forall l, bk_own l -> l.1 <> "icache"%string /\ l.1 <> "inode"%string;
  bk_ready : forall s g, bk_rep s g -> ready bk_own (cx s);
  bk_cx : forall s g c, bk_rep s g -> ready bk_own c -> mypid c = mypid (cx s) -> bk_rep (set_cx c s) g;
  bk_logged_cx : forall c s, bk_logged (set_cx c s) = bk_logged s;
  bk_len : forall s g b d, bk_rep s g -> g_view g !! b = Some d -> length d = 1024%nat;
  bk_number : forall s g b d, bk_rep s g -> g_view g !! b = Some d -> 0 < b < 2 ^ 31;
  bk_bread_ok : forall s g b n, bk_rep s g -> is_Some (g_view g !! b) -> (forall i, g_held g !! i <> Some b) -> g_bufs g = Datatypes.S n ->
    exists i s', bk_bread bk_dev b s = Ret i s' /\ g_held g !! i = None /\
      bk_rep s' (mkg (g_view g) (<[i := b]> (g_held g)) n (g_logs g)) /\ cx s' = touch (cx s) /\ bk_logged s ⊆ bk_logged s';
  bk_data_ok : forall s g i b d, bk_rep s g -> g_held g !! i = Some b -> g_view g !! b = Some d -> bk_data i s = Ret d s;
  bk_write_ok : forall s g i b d' n m, bk_rep s g -> g_held g !! i = Some b -> length d' = 1024%nat -> g_bufs g = Datatypes.S n -> g_logs g = Datatypes.S m ->
    exists s', (bk_set i d' ;;; bk_log_write i) s = Ret tt s' /\
      bk_rep s' (mkg (<[b := d']> (g_view g)) (g_held g) n m) /\ cx s' = touch (cx s) /\ {[b]} ∪ bk_logged s ⊆ bk_logged s';
  bk_rewrite_ok : forall s g i b d', bk_rep s g -> g_held g !! i = Some b -> length d' = 1024%nat -> b ∈ bk_logged s -> (0 < g_bufs g)%nat -> (0 < g_logs g)%nat ->
    exists s', (bk_set i d' ;;; bk_log_write i) s = Ret tt s' /\
      bk_rep s' (mkg (<[b := d']> (g_view g)) (g_held g) (g_bufs g) (g_logs g)) /\ cx s' = touch (cx s) /\ bk_logged s ⊆ bk_logged s';
  bk_brelse_ok : forall s g i b, bk_rep s g -> g_held g !! i = Some b ->
    exists s', bk_brelse i s = Ret tt s' /\
      bk_rep s' (mkg (g_view g) (delete i (g_held g)) (Datatypes.S (g_bufs g)) (g_logs g)) /\ cx s' = touch (cx s) /\ bk_logged s ⊆ bk_logged s'
}.
