(* ===== verification/Fs.v ===== *)
(** * kernel/fs.c: blocks, inodes, directories and paths

    The state is the disk with its cache and log ([BlockOps]), the superblock, the
    inode cache, and the memory of the process and of the kernel.  A pointer to
    [icache.inode[i]] is the number [i + 1]; the null pointer is 0.  [fuel]
    bounds how often a thread waiting for an inode is woken in vain; the loops
    over the disk have the fuel their bounds give them. *)

From S2P Require Import Prelude StringC Bytes Sleeplock UserMem Blocks.

Definition BPB : Z := 1024 * 8.
Definition IPB : Z := 1024 / 64.
Definition NDIRECT : Z := 12.
Definition NINDIRECT : Z := 1024 / 4.
Definition MAXFILE : Z := NDIRECT + NINDIRECT.
Definition FSMAGIC : Z := 270544960.
Definition ROOTINO : Z := 1.
Definition DIRSIZ : Z := 14.
Definition NINODE : Z := 50.
Definition T_DIR : Z := 1.
Definition ROOT_DEV : Z := 0.

Record superblock := mksb {
  sb_magic : Z; sb_size : Z; sb_nblocks : Z; sb_ninodes : Z; sb_nlog : Z; sb_logstart : Z; sb_inodestart : Z; sb_bmapstart : Z
}.

(** The fields an inode has on the disk and in memory. *)
Record dinode := mkdi { di_type : Z; di_major : Z; di_minor : Z; di_nlink : Z; di_size : Z; di_addrs : list Z }.

Record inode := mkin { i_dev : Z; i_inum : Z; i_ref : Z; i_lock : sleeplock; i_valid : bool; i_d : dinode }.

Definition set_di_type (v : Z) (d : dinode) : dinode := mkdi v (di_major d) (di_minor d) (di_nlink d) (di_size d) (di_addrs d).
Definition set_di_size (v : Z) (d : dinode) : dinode := mkdi (di_type d) (di_major d) (di_minor d) (di_nlink d) v (di_addrs d).
Definition set_di_addrs (v : list Z) (d : dinode) : dinode := mkdi (di_type d) (di_major d) (di_minor d) (di_nlink d) (di_size d) v.
Definition set_i_ref (v : Z) (i : inode) : inode := mkin (i_dev i) (i_inum i) v (i_lock i) (i_valid i) (i_d i).
Definition set_i_lock (v : sleeplock) (i : inode) : inode := mkin (i_dev i) (i_inum i) (i_ref i) v (i_valid i) (i_d i).
Definition set_i_valid (v : bool) (i : inode) : inode := mkin (i_dev i) (i_inum i) (i_ref i) (i_lock i) v (i_d i).
Definition set_i_d (v : dinode) (i : inode) : inode := mkin (i_dev i) (i_inum i) (i_ref i) (i_lock i) (i_valid i) v.

Record stat := { st_dev : Z; st_ino : Z; st_type : Z; st_nlink : Z; st_size : Z }.

Record fss (S U : Type) := mkfs { fblk : S; fsb : superblock; icache : list inode; fum : umem U; cwd : Z }.
Arguments mkfs {S U} _ _ _ _ _.
Arguments fblk {S U} _.
Arguments fsb {S U} _.
Arguments icache {S U} _.
Arguments fum {S U} _.
Arguments cwd {S U} _.

Definition set_fblk {S U} (v : S) (s : fss S U) : fss S U := mkfs v (fsb s) (icache s) (fum s) (cwd s).
Definition set_fsb {S U} (v : superblock) (s : fss S U) : fss S U := mkfs (fblk s) v (icache s) (fum s) (cwd s).
Definition set_icache {S U} (v : list inode) (s : fss S U) : fss S U := mkfs (fblk s) (fsb s) v (fum s) (cwd s).
Definition set_fum {S U} (v : umem U) (s : fss S U) : fss S U := mkfs (fblk s) (fsb s) (icache s) v (cwd s).

#[export] Instance fss_ctx {S U} {HS : HasCtx S} : HasCtx (fss S U).
Proof.
  refine {| cx := fun s => cx (fblk s); set_cx := fun c s => set_fblk (set_cx c (fblk s)) s |};
    [intros; apply cx_set|intros []; unfold set_fblk; cbn; by rewrite set_cx_cx|intros; unfold set_fblk; cbn; by rewrite set_cx_twice].
Defined.

(** The structures in a block. *)
Definition get_super (d : list Z) : superblock :=
  mksb (get32 0 d) (get32 4 d) (get32 8 d) (get32 12 d) (get32 16 d) (get32 20 d) (get32 24 d) (get32 28 d).

Definition doff (inum : Z) : nat := Z.to_nat (inum mod IPB * 64).

Definition get_dinode (o : nat) (d : list Z) : dinode :=
  mkdi (s16 (get16 o d)) (s16 (get16 (o + 2) d)) (s16 (get16 (o + 4) d)) (s16 (get16 (o + 6) d)) (get32 (o + 8) d)
    ((fun k => get32 (o + 12 + 4 * k) d) <$> seq 0 13).

Fixpoint put_addrs (o : nat) (l : list Z) (d : list Z) : list Z :=
  match l with
  | [] => d
  | a :: l => put_addrs (o + 4) l (put32 o a d)
  end.

Definition put_dinode (o : nat) (i : dinode) (d : list Z) : list Z :=
  put_addrs (o + 12) (di_addrs i)
    (put32 (o + 8) (di_size i) (put16 (o + 6) (di_nlink i) (put16 (o + 4) (di_minor i) (put16 (o + 2) (di_major i) (put16 o (di_type i) d))))).

Definition icache_lock : lock := ("icache"%string, 0).
Definition inode_lock (ip : Z) : lock := ("inode"%string, ip).

Section Fs.
Context {S U : Type} {HS : HasCtx S} {HO : BlockOps S} {HU : UserMem U}.

Abbreviation F := (M (fss S U)).

Definition onb {A} (m : M S A) : F A := zoom fblk set_fblk m.
Definition onu {A} (m : M (umem U) A) : F A := zoom fum set_fum m.

Definition bread (dev b : Z) : F Z := onb (bk_bread dev b).
Definition bdata (bp : Z) : F (list Z) := onb (bk_data bp).
Definition brelse (bp : Z) : F unit := onb (bk_brelse bp).

(** [bp->data = ...; log_write(bp);] *)
Definition bwrite_logged (bp : Z) (d : list Z) : F unit := onb (bk_set bp d ;;; bk_log_write bp).

Definition readsb (dev : Z) : F unit :=
  bp <- bread dev 1 ;;
  d <- bdata bp ;;
  modify (set_fsb (get_super d)) ;;;
  brelse bp.

Definition bzero (dev bno : Z) : F unit :=
  bp <- bread dev bno ;;
  bwrite_logged bp (replicate 1024 0) ;;;
  brelse bp.

(** ** Blocks *)

Definition BBLOCK (b : Z) (sb : superblock) : Z := u32 (b / BPB + sb_bmapstart sb).

(** [m = 1 << (bi % 8)] *)
Definition bmask (bi : Z) : Z := Z.shiftl 1 (bi mod 8).

(** The first free bit of the block, of those that stand for blocks of the disk. *)
Fixpoint free_bit (n : nat) (d : list Z) (b bi size : Z) : F (option Z) :=
  match n with
  | O => ret None
  | Datatypes.S n =>
      if negb (b + bi <? size) then ret None else
      x <- unwrap (aget d (bi / 8)) ;;
      if Z.land x (bmask bi) =? 0 then ret (Some bi) else free_bit n d b (bi + 1) size
  end.

Fixpoint balloc_loop (n : nat) (dev b : Z) : F Z :=
  match n with
  | O => nofuel
  | Datatypes.S n =>
      sb <- gets fsb ;;
      if negb (b <? sb_size sb) then panic "balloc: out of blocks" else
      bp <- bread dev (BBLOCK b sb) ;;
      d <- bdata bp ;;
      r <- free_bit (Z.to_nat BPB) d b 0 (sb_size sb) ;;
      match r with
      | Some bi =>
          x <- unwrap (aget d (bi / 8)) ;;
          d <- unwrap (aset d (bi / 8) (Z.lor x (bmask bi))) ;;
          bwrite_logged bp d ;;;
          brelse bp ;;;
          bzero dev (b + bi) ;;;
          ret (b + bi)
      | None => brelse bp ;;; balloc_loop n dev (b + BPB)
      end
  end.

Definition balloc (dev : Z) : F Z :=
  sb <- gets fsb ;;
  balloc_loop (Z.to_nat (sb_size sb / BPB) + 2) dev 0.

Definition bfree (dev b : Z) : F unit :=
  sb <- gets fsb ;;
  bp <- bread dev (BBLOCK b sb) ;;
  d <- bdata bp ;;
  let bi := b mod BPB in
  x <- unwrap (aget d (bi / 8)) ;;
  if Z.land x (bmask bi) =? 0 then panic "freeing free block" else
  d <- unwrap (aset d (bi / 8) (Z.land x (Z.lnot (bmask bi)))) ;;
  bwrite_logged bp d ;;;
  brelse bp.

(** ** Inodes *)

Definition IBLOCK (inum : Z) (sb : superblock) : Z := u32 (inum / IPB + sb_inodestart sb).

Definition geti (ip : Z) : F inode := fun s => unwrap (aget (icache s) (ip - 1)) s.
Definition seti (ip : Z) (f : inode -> inode) : F unit :=
  i <- geti ip ;; c <- gets icache ;; c <- unwrap (aset c (ip - 1) (f i)) ;; modify (set_icache c).
Definition setd (ip : Z) (f : dinode -> dinode) : F unit := seti ip (fun i => set_i_d (f (i_d i)) i).

Definition rd_lock (ip : Z) : F sleeplock := i <- geti ip ;; ret (i_lock i).
Definition wr_lock (ip : Z) (v : sleeplock) : F unit := seti ip (set_i_lock v).
Definition i_acquiresleep (fuel : nat) (ip : Z) : F unit := acquiresleep (rd_lock ip) (wr_lock ip) (inode_lock ip) ip fuel.
Definition i_releasesleep (ip : Z) : F unit := releasesleep (wr_lock ip) (inode_lock ip) ip.
Definition i_holdingsleep (ip : Z) : F bool := holdingsleep (rd_lock ip) (inode_lock ip).

(** [initsleeplock] on every inode. *)
Definition iinit : F unit := modify (fun s => set_icache (set_i_lock sl_free <$> icache s) s).

(** The searches of [iget]: the entry of the inode and the first empty one. *)
Fixpoint iget_scan (l : list inode) (ip empty dev inum : Z) : Z * Z :=
  match l with
  | [] => (0, empty)
  | i :: l =>
      if (0 <? i_ref i) && (i_dev i =? dev) && (i_inum i =? inum) then (ip, empty)
      else iget_scan l (ip + 1) (if (empty =? 0) && (i_ref i =? 0) then ip else empty) dev inum
  end.

Definition iget (dev inum : Z) : F Z :=
  acquire icache_lock ;;;
  c <- gets icache ;;
  let '(ip, empty) := iget_scan c 1 0 dev inum in
  if negb (ip =? 0) then
    seti ip (fun i => set_i_ref (s32 (i_ref i + 1)) i) ;;;
    release icache_lock ;;;
    ret ip
  else if empty =? 0 then panic "iget: no inodes"
  else
    seti empty (fun i => mkin dev inum 1 (i_lock i) false (i_d i)) ;;;
    release icache_lock ;;;
    ret empty.

Definition idup (ip : Z) : F Z :=
  acquire icache_lock ;;;
  seti ip (fun i => set_i_ref (s32 (i_ref i + 1)) i) ;;;
  release icache_lock ;;;
  ret ip.

Fixpoint ialloc_loop (n : nat) (dev type inum : Z) : F Z :=
  match n with
  | O => nofuel
  | Datatypes.S n =>
      sb <- gets fsb ;;
      if negb (inum <? sb_ninodes sb) then panic "ialloc: no inodes" else
      bp <- bread dev (IBLOCK inum sb) ;;
      d <- bdata bp ;;
      if di_type (get_dinode (doff inum) d) =? 0 then
        bwrite_logged bp (put_dinode (doff inum) (mkdi type 0 0 0 0 (replicate 13 0)) d) ;;;
        brelse bp ;;;
        iget dev inum
      else
        brelse bp ;;;
        ialloc_loop n dev type (inum + 1)
  end.

Definition ialloc (dev type : Z) : F Z :=
  sb <- gets fsb ;;
  ialloc_loop (Z.to_nat (sb_ninodes sb) + 1) dev type 1.

Definition iupdate (ip : Z) : F unit :=
  sb <- gets fsb ;;
  i <- geti ip ;;
  bp <- bread (i_dev i) (IBLOCK (i_inum i) sb) ;;
  d <- bdata bp ;;
  bwrite_logged bp (put_dinode (doff (i_inum i)) (i_d i) d) ;;;
  brelse bp.

Definition ilock (fuel : nat) (ip : Z) : F unit :=
  if ip =? 0 then panic "ilock" else
  i <- geti ip ;;
  if i_ref i <? 1 then panic "ilock" else
  i_acquiresleep fuel ip ;;;
  i <- geti ip ;;
  if i_valid i then ret tt else
  sb <- gets fsb ;;
  bp <- bread (i_dev i) (IBLOCK (i_inum i) sb) ;;
  d <- bdata bp ;;
  setd ip (fun _ => get_dinode (doff (i_inum i)) d) ;;;
  brelse bp ;;;
  seti ip (set_i_valid true) ;;;
  i <- geti ip ;;
  if di_type (i_d i) =? 0 then panic "ilock: no type" else ret tt.

Definition iunlock (ip : Z) : F unit :=
  if ip =? 0 then panic "iunlock" else
  h <- i_holdingsleep ip ;;
  i <- geti ip ;;
  if negb h || (i_ref i <? 1) then panic "iunlock" else
  i_releasesleep ip.

(** ** Contents of inodes *)

Definition set_addr (ip k v : Z) : F unit :=
  i <- geti ip ;;
  l <- unwrap (aset (di_addrs (i_d i)) k v) ;;
  setd ip (set_di_addrs l).

Definition aoff (bn : Z) : nat := Z.to_nat (bn * 4).

Definition bmap (ip bn : Z) : F Z :=
  i <- geti ip ;;
  if bn <? NDIRECT then
    addr <- unwrap (aget (di_addrs (i_d i)) bn) ;;
    if addr =? 0 then
      addr <- balloc (i_dev i) ;;
      set_addr ip bn addr ;;;
      ret addr
    else ret addr
  else
  let bn := bn - NDIRECT in
  if bn <? NINDIRECT then
    addr <- unwrap (aget (di_addrs (i_d i)) NDIRECT) ;;
    addr <- (if addr =? 0 then
               addr <- balloc (i_dev i) ;;
               set_addr ip NDIRECT addr ;;;
               ret addr
             else ret addr) ;;
    bp <- bread (i_dev i) addr ;;
    d <- bdata bp ;;
    let addr := get32 (aoff bn) d in
    addr <- (if addr =? 0 then
               addr <- balloc (i_dev i) ;;
               d <- bdata bp ;;
               bwrite_logged bp (put32 (aoff bn) addr d) ;;;
               ret addr
             else ret addr) ;;
    brelse bp ;;;
    ret addr
  else panic "bmap: out of range".

Fixpoint itrunc_direct (n : nat) (ip k : Z) : F unit :=
  match n with
  | O => ret tt
  | Datatypes.S n =>
      i <- geti ip ;;
      a <- unwrap (aget (di_addrs (i_d i)) k) ;;
      (if a =? 0 then ret tt else bfree (i_dev i) a ;;; set_addr ip k 0) ;;;
      itrunc_direct n ip (k + 1)
  end.

Fixpoint itrunc_indirect (n : nat) (dev bp j : Z) : F unit :=
  match n with
  | O => ret tt
  | Datatypes.S n =>
      d <- bdata bp ;;
      let a := get32 (aoff j) d in
      (if a =? 0 then ret tt else bfree dev a) ;;;
      itrunc_indirect n dev bp (j + 1)
  end.

Definition itrunc (ip : Z) : F unit :=
  itrunc_direct (Z.to_nat NDIRECT) ip 0 ;;;
  i <- geti ip ;;
  a <- unwrap (aget (di_addrs (i_d i)) NDIRECT) ;;
  (if a =? 0 then ret tt
   else
     bp <- bread (i_dev i) a ;;
     itrunc_indirect (Z.to_nat NINDIRECT) (i_dev i) bp 0 ;;;
     brelse bp ;;;
     bfree (i_dev i) a ;;;
     set_addr ip NDIRECT 0) ;;;
  setd ip (set_di_size 0) ;;;
  iupdate ip.

Definition iput (fuel : nat) (ip : Z) : F unit :=
  acquire icache_lock ;;;
  i <- geti ip ;;
  (if (i_ref i =? 1) && i_valid i && (di_nlink (i_d i) =? 0) then
     i_acquiresleep fuel ip ;;;
     release icache_lock ;;;
     itrunc ip ;;;
     setd ip (set_di_type 0) ;;;
     iupdate ip ;;;
     seti ip (set_i_valid false) ;;;
     i_releasesleep ip ;;;
     acquire icache_lock
   else ret tt) ;;;
  seti ip (fun i => set_i_ref (s32 (i_ref i - 1)) i) ;;;
  release icache_lock.

Definition iunlockput (fuel : nat) (ip : Z) : F unit :=
  iunlock ip ;;;
  iput fuel ip.

Definition stati (ip : Z) : F stat :=
  i <- geti ip ;;
  ret {| st_dev := s32 (i_dev i); st_ino := i_inum i; st_type := di_type (i_d i); st_nlink := di_nlink (i_d i); st_size := di_size (i_d i) |}.

(** A round moves at least one byte, and all but the first and the last a block. *)
Definition io_fuel (n : Z) : nat := Z.to_nat (n / 1024) + 3.

Fixpoint readi_loop (rounds : nat) (ip : Z) (user_dst : bool) (dst off tot n : Z) : F unit :=
  match rounds with
  | O => nofuel
  | Datatypes.S rounds =>
      if negb (tot <? n) then ret tt else
      i <- geti ip ;;
      b <- bmap ip (off / 1024) ;;
      bp <- bread (i_dev i) b ;;
      d <- bdata bp ;;
      let m := Z.min (n - tot) (1024 - off mod 1024) in
      r <- onu (either_copyout user_dst dst (slice (Z.to_nat (off mod 1024)) (Z.to_nat m) d)) ;;
      brelse bp ;;;
      if r =? -1 then ret tt else
      readi_loop rounds ip user_dst (u64 (dst + m)) (u32 (off + m)) (tot + m) n
  end.

Definition readi (ip : Z) (user_dst : bool) (dst off n : Z) : F Z :=
  i <- geti ip ;;
  let size := di_size (i_d i) in
  if (size <? off) || (u32 (off + n) <? off) then ret (-1) else
  let n := if size <? u32 (off + n) then u32 (size - off) else n in
  readi_loop (io_fuel n) ip user_dst dst off 0 n ;;;
  ret (s32 n).

(** The offset after the last byte written. *)
Fixpoint writei_loop (rounds : nat) (ip : Z) (user_src : bool) (src off tot n : Z) : F Z :=
  match rounds with
  | O => nofuel
  | Datatypes.S rounds =>
      if negb (tot <? n) then ret off else
      i <- geti ip ;;
      b <- bmap ip (off / 1024) ;;
      bp <- bread (i_dev i) b ;;
      let m := Z.min (n - tot) (1024 - off mod 1024) in
      r <- onu (either_copyin user_src src m) ;;
      d <- bdata bp ;;
      let d := splice (Z.to_nat (off mod 1024)) (snd r) d in
      if fst r =? -1 then
        onb (bk_set bp d) ;;;
        brelse bp ;;;
        ret off
      else
      bwrite_logged bp d ;;;
      brelse bp ;;;
      writei_loop rounds ip user_src (u64 (src + m)) (u32 (off + m)) (tot + m) n
  end.

Definition writei (ip : Z) (user_src : bool) (src off n : Z) : F Z :=
  i <- geti ip ;;
  if (di_size (i_d i) <? off) || (u32 (off + n) <? off) then ret (-1) else
  if MAXFILE * 1024 <? u32 (off + n) then ret (-1) else
  off <- writei_loop (io_fuel n) ip user_src src off 0 n ;;
  (if 0 <? n then
     i <- geti ip ;;
     (if di_size (i_d i) <? off then setd ip (set_di_size off) else ret tt) ;;;
     iupdate ip
   else ret tt) ;;;
  ret (s32 n).

(** ** Directories

    [de] is the address of the local variable that holds an entry: the inode
    number, and the name after it. *)

Definition kern {A} (f : mem -> option A) : F A := m <- gets (fun s => um_kern (fum s)) ;; unwrap (f m).
Definition kern_set (f : mem -> option mem) : F unit :=
  m <- kern f ;; s <- gets (fun s => fum s) ;; modify (set_fum (set_um_kern m s)).

Definition namecmp (s t : Z) : F Z := kern (strncmp s t DIRSIZ).

Definition de_inum (de : Z) (m : mem) : option Z := l ← kload de 2 m; Some (of_bytes l).

Fixpoint dirlookup_loop (n : nat) (de dp name off : Z) : F (Z * Z) :=
  match n with
  | O => nofuel
  | Datatypes.S n =>
      i <- geti dp ;;
      if negb (off <? di_size (i_d i)) then ret (0, 0) else
      r <- readi dp false de off 16 ;;
      if negb (r =? 16) then panic "dirlookup read" else
      inum <- kern (de_inum de) ;;
      if inum =? 0 then dirlookup_loop n de dp name (u32 (off + 16)) else
      c <- namecmp name (de + 2) ;;
      if c =? 0 then
        ip <- iget (i_dev i) inum ;;
        ret (ip, off)
      else dirlookup_loop n de dp name (u32 (off + 16))
  end.

(** The inode, or 0, and the offset stored through [poff]. *)
Definition dirlookup (de dp name : Z) : F (Z * Z) :=
  i <- geti dp ;;
  if negb (di_type (i_d i) =? T_DIR) then panic "dirlookup not DIR" else
  dirlookup_loop (Z.to_nat (di_size (i_d i) / 16) + 2) de dp name 0.

(** The offset of the first empty entry, or of the end. *)
Fixpoint dirlink_slot (n : nat) (de dp off : Z) : F Z :=
  match n with
  | O => nofuel
  | Datatypes.S n =>
      i <- geti dp ;;
      if negb (off <? di_size (i_d i)) then ret off else
      r <- readi dp false de off 16 ;;
      if negb (r =? 16) then panic "dirlink read" else
      inum <- kern (de_inum de) ;;
      if inum =? 0 then ret off else dirlink_slot n de dp (off + 16)
  end.

Definition dirlink (fuel : nat) (de de' dp name inum : Z) : F Z :=
  r <- dirlookup de' dp name ;;
  if negb (fst r =? 0) then
    iput fuel (fst r) ;;;
    ret (-1)
  else
  i <- geti dp ;;
  off <- dirlink_slot (Z.to_nat (di_size (i_d i) / 16) + 2) de dp 0 ;;
  kern_set (strncpy (de + 2) name DIRSIZ) ;;;
  kern_set (kstore de (le_bytes 2 (u16 inum))) ;;;
  r <- writei dp false de off 16 ;;
  if negb (r =? 16) then panic "dirlink" else ret 0.

(** ** Paths *)

(** [while( *path == '/') path++;] and [while( *path != '/' && *path != 0) path++;] *)
Fixpoint skip_slashes (n : nat) (path : Z) (m : mem) : option Z :=
  match n with
  | O => None
  | Datatypes.S n => c ← ld m path; if c =? 47 then skip_slashes n (path + 1) m else Some path
  end.

Fixpoint skip_name (n : nat) (path : Z) (m : mem) : option Z :=
  match n with
  | O => None
  | Datatypes.S n => c ← ld m path; if negb (c =? 47) && negb (c =? 0) then skip_name n (path + 1) m else Some path
  end.

(** The rest of the path, or 0, and the memory with the element in [name]. *)
Definition skipelem (path name : Z) (m : mem) : option (Z * mem) :=
  path ← skip_slashes (str_fuel m) path m;
  c ← ld m path;
  if c =? 0 then Some (0, m) else
  let s := path in
  path ← skip_name (str_fuel m) path m;
  let len := s32 (path - s) in
  m ← (if DIRSIZ <=? len then memmove name s DIRSIZ m
       else m ← memmove name s len m; st m (name + len) 0);
  path ← skip_slashes (str_fuel m) path m;
  Some (path, m).

Fixpoint namex_loop (n fuel : nat) (de : Z) (ip path : Z) (nameiparent : bool) (name : Z) : F Z :=
  match n with
  | O => nofuel
  | Datatypes.S n =>
      r <- kern (skipelem path name) ;;
      s <- gets (fun s => fum s) ;;
      modify (set_fum (set_um_kern (snd r) s)) ;;;
      let path := fst r in
      if path =? 0 then
        if nameiparent then iput fuel ip ;;; ret 0 else ret ip
      else
      ilock fuel ip ;;;
      i <- geti ip ;;
      if negb (di_type (i_d i) =? T_DIR) then iunlockput fuel ip ;;; ret 0 else
      c <- kern (fun m => ld m path) ;;
      if nameiparent && (c =? 0) then iunlock ip ;;; ret ip else
      r <- dirlookup de ip name ;;
      let next := fst r in
      if next =? 0 then iunlockput fuel ip ;;; ret 0 else
      iunlockput fuel ip ;;;
      namex_loop n fuel de next path nameiparent name
  end.

Definition namex (fuel : nat) (de path : Z) (nameiparent : bool) (name : Z) : F Z :=
  c <- kern (fun m => ld m path) ;;
  ip <- (if c =? 47 then iget ROOT_DEV ROOTINO else w <- gets cwd ;; idup w) ;;
  m <- gets (fun s => um_kern (fum s)) ;;
  namex_loop (str_fuel m) fuel de ip path nameiparent name.

(** [name] is the address of the local array of [namei]. *)
Definition namei (fuel : nat) (de name path : Z) : F Z := namex fuel de path false name.

Definition nameiparent (fuel : nat) (de path name : Z) : F Z := namex fuel de path true name.
End Fs.
