(* ===== verification/FsSpec.v ===== *)
(** * The file system on the blocks of a disk: allocation and inodes

    The bitmap says which blocks are in use, the inode blocks hold the inodes;
    here are the operations on both, in terms of the contents of the disk.  What
    is written to an inode is read back, and the other inodes of its block stay
    as they are. *)

From S2P Require Import Prelude StringC Bytes Sleeplock UserMem Blocks Fs.

Definition bsize : nat := 1024.

(** The bit of block [b] in the bitmap. *)
Definition bit_in (d : list Z) (bi : Z) : option bool := x ← aget d (bi / 8); Some (negb (Z.land x (bmask bi) =? 0)).

Definition bit (v : gmap Z (list Z)) (sb : superblock) (b : Z) : option bool := d ← v !! BBLOCK b sb; bit_in d (b mod BPB).

Lemma bmask_bit bi : 0 <= bi -> bmask bi = 2 ^ (bi mod 8).
Proof. intros Hb. unfold bmask. rewrite Z.shiftl_1_l. done. Qed.

Lemma land_mask x bi : 0 <= bi -> negb (Z.land x (bmask bi) =? 0) = Z.testbit x (bi mod 8).
Proof.
  intros Hb. rewrite bmask_bit by done. pose proof (Z.mod_pos_bound bi 8 ltac:(lia)) as Hm. destruct (Z.testbit x (bi mod 8)) eqn:E.
  - apply negb_true_iff, Z.eqb_neq. intros H0. assert (Ht : Z.testbit (Z.land x (2 ^ (bi mod 8))) (bi mod 8) = true) by (rewrite Z.land_spec, E, Z.pow2_bits_true by lia; done).
    rewrite H0, Z.bits_0 in Ht. done.
  - apply negb_false_iff, Z.eqb_eq, Z.bits_inj_0. intros k. rewrite Z.land_spec. destruct (Z.eq_dec k (bi mod 8)) as [->|Hk]; [by rewrite E|].
    rewrite Z.pow2_bits_false by lia. apply andb_false_r.
Qed.

Lemma bit_in_some d bi : length d = bsize -> 0 <= bi < BPB -> exists x, bit_in d bi = Some x.
Proof.
  intros Hl Hb. unfold bit_in. destruct (aget_is_Some d (bi / 8)) as [x ->]; [rewrite Hl; unfold bsize, BPB in *; dlia|]. cbn. eauto.
Qed.

(** A bit set or cleared: the other bits stay. *)
Lemma bit_in_update d bi bj x y d' (v : bool) : 0 <= bi -> 0 <= bj -> aget d (bi / 8) = Some x -> aset d (bi / 8) y = Some d' ->
  (forall k, 0 <= k < 8 -> Z.testbit y k = if k =? bi mod 8 then v else Z.testbit x k) ->
  bit_in d' bj = if decide (bj = bi) then Some v else bit_in d bj.
Proof.
  intros Hbi Hbj Hx Hd Hy. unfold bit_in. destruct (decide (bj / 8 = bi / 8)) as [E|E].
  - rewrite E, (aget_aset_eq _ _ _ _ Hd), Hx. cbn. rewrite !land_mask by done. rewrite Hy by (apply Z.mod_pos_bound; lia).
    destruct (decide (bj = bi)) as [->|Hne]; [by rewrite Z.eqb_refl|]. rewrite (proj2 (Z.eqb_neq _ _)); [done|]. dlia.
  - rewrite (aget_aset_ne _ _ _ _ _ Hd) by done. rewrite decide_False; [done|]. congruence.
Qed.

Lemma set_bit_spec x bi k : 0 <= bi -> 0 <= k < 8 -> Z.testbit (Z.lor x (bmask bi)) k = if k =? bi mod 8 then true else Z.testbit x k.
Proof.
  intros Hb Hk. pose proof (Z.mod_pos_bound bi 8 ltac:(lia)). rewrite bmask_bit, Z.lor_spec by done. destruct (Z.eqb_spec k (bi mod 8)) as [->|Hne].
  - rewrite Z.pow2_bits_true by lia. apply orb_true_r.
  - rewrite Z.pow2_bits_false by lia. apply orb_false_r.
Qed.

Lemma clear_bit_spec x bi k : 0 <= bi -> 0 <= k < 8 -> Z.testbit (Z.land x (Z.lnot (bmask bi))) k = if k =? bi mod 8 then false else Z.testbit x k.
Proof.
  intros Hb Hk. pose proof (Z.mod_pos_bound bi 8 ltac:(lia)). rewrite bmask_bit, Z.land_spec, Z.lnot_spec by (done || lia). destruct (Z.eqb_spec k (bi mod 8)) as [->|Hne].
  - rewrite Z.pow2_bits_true by lia. apply andb_false_r.
  - rewrite Z.pow2_bits_false by lia. apply andb_true_r.
Qed.

(** The layout of the disk: the bitmap covers it, and what the bitmap has as free
    is neither bitmap nor inodes. *)
Record disk_ok (v : gmap Z (list Z)) (sb : superblock) : Prop := {
  dk_size : 0 < sb_size sb < 2 ^ 31;
  dk_bmap : 0 <= sb_bmapstart sb < 2 ^ 31;
  dk_zero : v !! 0 = None;
  dk_len : forall b d, v !! b = Some d -> length d = bsize;
  dk_map : forall b, 0 <= b < sb_size sb -> is_Some (v !! BBLOCK b sb);
  dk_free : forall b, 0 <= b < sb_size sb -> bit v sb b = Some false -> is_Some (v !! b);
  dk_meta : forall b b', 0 <= b < sb_size sb -> 0 <= b' < sb_size sb -> bit v sb b = Some false -> BBLOCK b' sb <> b
}.

Lemma BBLOCK_eq sb b b' : 0 <= sb_bmapstart sb < 2 ^ 31 -> 0 <= b < 2 ^ 31 -> 0 <= b' < 2 ^ 31 -> BBLOCK b sb = BBLOCK b' sb <-> b / BPB = b' / BPB.
Proof. intros Hs Hb Hb'. unfold BBLOCK, BPB. rewrite !u32_small by dlia. lia. Qed.

Lemma bit_insert v sb b d d' (x : bool) b' : 0 <= sb_bmapstart sb < 2 ^ 31 -> 0 <= b < 2 ^ 31 -> 0 <= b' < 2 ^ 31 -> v !! BBLOCK b sb = Some d ->
  (forall bj, 0 <= bj -> bit_in d' bj = if decide (bj = b mod BPB) then Some x else bit_in d bj) ->
  bit (<[BBLOCK b sb := d']> v) sb b' = if decide (b' = b) then Some x else bit v sb b'.
Proof.
  intros Hs Hb Hb' Hd Hx. unfold bit. pose proof (Z.mod_pos_bound b' BPB ltac:(done)). destruct (decide (BBLOCK b sb = BBLOCK b' sb)) as [E|E].
  - rewrite <- E, lookup_insert_eq, Hd. cbn. rewrite Hx by lia. apply BBLOCK_eq in E; [|done..].
    destruct (decide (b' = b)) as [->|Hne]; [by rewrite decide_True|]. rewrite decide_False; [done|]. intros Em. apply Hne.
    rewrite (Z.div_mod b' BPB), (Z.div_mod b BPB) by done. congruence.
  - rewrite lookup_insert_ne by done. rewrite decide_False; [done|]. congruence.
Qed.

(** A block that is not of the bitmap does not matter to it. *)
Lemma bit_other v sb c d b' : BBLOCK b' sb <> c -> bit (<[c := d]> v) sb b' = bit v sb b'.
Proof. intros Hc. unfold bit. by rewrite lookup_insert_ne. Qed.

Lemma bit_some v sb b : disk_ok v sb -> 0 <= b < sb_size sb -> exists x, bit v sb b = Some x.
Proof.
  intros Hk Hb. destruct (dk_map _ _ Hk b Hb) as [d Hd]. unfold bit. rewrite Hd. cbn. apply bit_in_some; [by apply (dk_len _ _ Hk _ _ Hd)|].
  apply Z.mod_pos_bound. done.
Qed.

Definition meta (sb : superblock) (c : Z) : Prop := exists b, 0 <= b < sb_size sb /\ BBLOCK b sb = c.

Definition zeros : list Z := replicate bsize 0.

(** Block [b] was allocated. *)
Record allocd (v : gmap Z (list Z)) (sb : superblock) (v' : gmap Z (list Z)) (b : Z) : Prop := {
  ac_range : 0 <= b < sb_size sb;
  ac_free : bit v sb b = Some false;
  ac_zero : v' !! b = Some zeros;
  ac_bit : forall c, 0 <= c < sb_size sb -> bit v' sb c = if decide (c = b) then Some true else bit v sb c;
  ac_other : forall c, c <> b -> ~ meta sb c -> v' !! c = v !! c;
  ac_ok : disk_ok v' sb
}.

Lemma filter_ext_in {A} (P Q : A -> Prop) `{!forall x, Decision (P x), !forall x, Decision (Q x)} (l : list A) : (forall x, x ∈ l -> P x <-> Q x) -> filter P l = filter Q l.
Proof.
  induction l as [|x l IH]; intros Hpq; [done|]. rewrite !filter_cons, IH by (intros y Hy; apply Hpq; by right). pose proof (Hpq x (list_elem_of_here _ _)).
  destruct (decide (P x)), (decide (Q x)); naive_solver.
Qed.

(** The number of free blocks. *)
Definition frees (v : gmap Z (list Z)) (sb : superblock) : nat := length (filter (fun b => bit v sb b = Some false) (seqZ 0 (sb_size sb))).

Lemma frees_ext v v' sb : (forall c, 0 <= c < sb_size sb -> bit v' sb c = bit v sb c) -> frees v' sb = frees v sb.
Proof. intros H. unfold frees. f_equal. apply filter_ext_in. intros c Hc%elem_of_seqZ. by rewrite H by lia. Qed.

Lemma frees_other v sb c d : ~ meta sb c -> frees (<[c := d]> v) sb = frees v sb.
Proof. intros Hc. apply frees_ext. intros b Hb. apply bit_other. intros E. apply Hc. by exists b. Qed.

Lemma frees_alloc v sb v' b : allocd v sb v' b -> frees v sb = S (frees v' sb).
Proof.
  intros [Hr Hf _ Hb _ _]. unfold frees. assert (Hperm : seqZ 0 (sb_size sb) ≡ₚ b :: filter (fun c => c <> b) (seqZ 0 (sb_size sb))).
  { apply NoDup_Permutation; [apply NoDup_seqZ|constructor; [rewrite list_elem_of_filter; naive_solver|apply list.NoDup_filter, NoDup_seqZ]|].
    intros c. rewrite elem_of_cons, list_elem_of_filter, !elem_of_seqZ. destruct (decide (c = b)) as [->|]; [split; [by left|lia]|naive_solver]. }
  rewrite Hperm, !filter_cons_True by done. rewrite (filter_cons_False _ b) by (rewrite Hb by done; by rewrite decide_True). cbn [length]. do 2 f_equal.
  apply filter_ext_in. intros c (Hne & Hc%elem_of_seqZ)%list_elem_of_filter. rewrite Hb by lia. by rewrite decide_False.
Qed.

(** The bitmap has changed, to the same or fewer free blocks, and no other block. *)
Lemma disk_ok_update v sb b d d' (x : bool) : disk_ok v sb -> 0 <= b < sb_size sb -> v !! BBLOCK b sb = Some d -> length d' = bsize ->
  (forall bj, 0 <= bj -> bit_in d' bj = if decide (bj = b mod BPB) then Some x else bit_in d bj) ->
  (x = false -> is_Some (v !! b) /\ ~ meta sb b) -> disk_ok (<[BBLOCK b sb := d']> v) sb.
Proof.
  intros Hk Hb Hd Hl Hx Hf. pose proof Hk as [H1 H2 H0 H3 H4 H5 H6].
  assert (Hbit : forall c, 0 <= c < sb_size sb -> bit (<[BBLOCK b sb := d']> v) sb c = if decide (c = b) then Some x else bit v sb c).
  { intros c Hc. apply bit_insert with d; (done || lia). }
  assert (Hin : forall c, is_Some (v !! c) -> is_Some (<[BBLOCK b sb := d']> v !! c)) by (intros c Hc; rewrite lookup_insert; case_decide; eauto).
  split; [done|done| | | | |].
  - rewrite lookup_insert_ne; [done|]. congruence.
  - intros c e. rewrite lookup_insert. case_decide; [|apply H3]. by intros [= <-].
  - intros c Hc. by apply Hin, H4.
  - intros c Hc. rewrite Hbit by done. case_decide as E; [|intros Hc0; by apply Hin, H5]. subst c. intros [= ->]. by apply Hin, Hf.
  - intros c c' Hc Hc'. rewrite Hbit by done. case_decide as E; [|intros Hc0; by apply H6]. subst c. intros [= ->] E. apply (Hf eq_refl). by exists c'.
Qed.

(** A block outside of the bitmap has changed. *)
Lemma disk_ok_other v sb c d : disk_ok v sb -> c <> 0 -> ~ meta sb c -> length d = bsize -> disk_ok (<[c := d]> v) sb.
Proof.
  intros [H1 H2 H0 H3 H4 H5 H6] Hc0 Hc Hl. assert (Hin : forall e, is_Some (v !! e) -> is_Some (<[c := d]> v !! e)) by (intros e He; rewrite lookup_insert; case_decide; eauto).
  assert (Hb : forall b, 0 <= b < sb_size sb -> bit (<[c := d]> v) sb b = bit v sb b) by (intros b Hb; apply bit_other; intros E; apply Hc; by exists b).
  split; [done|done|by rewrite lookup_insert_ne| | | |].
  - intros e x. rewrite lookup_insert. case_decide; [|apply H3]. by intros [= <-].
  - intros b Hb'. by apply Hin, H4.
  - intros b Hb'. rewrite Hb by done. intros Hf. by apply Hin, H5.
  - intros b b' H7 H8. rewrite Hb by done. by apply H6.
Qed.

Section FsSpec.
Context {S U : Type} {HS : HasCtx S} {HO : BlockOps S} {HB : Blocks S} {HU : UserMem U}.

Abbreviation fss := (fss S U).

Definition frep (s : fss) (g : gblocks) : Prop := bk_rep (fblk s) g.

(** A step that only uses the disk; the thread has the same locks and interrupt
    state. *)
Record fstay (s s' : fss) : Prop := {
  fy_sb : fsb s' = fsb s;
  fy_icache : icache s' = icache s;
  fy_um : fum s' = fum s;
  fy_cwd : cwd s' = cwd s;
  fy_cx : touch (cx s') = touch (cx s);
  fy_logged : bk_logged (fblk s) ⊆ bk_logged (fblk s')
}.

Lemma fstay_trans s1 s2 s3 : fstay s1 s2 -> fstay s2 s3 -> fstay s1 s3.
Proof. intros [A1 A2 A3 A4 A5 A6] [B1 B2 B3 B4 B5 B6]. split; [congruence..|]. by etransitivity. Qed.

Lemma fstay_refl s : fstay s s.
Proof. by split. Qed.

Lemma fstay_set s b : cx b = touch (cx s) -> bk_logged (fblk s) ⊆ bk_logged b -> fstay s (set_fblk b s).
Proof. intros Hb Hl. split; try done. change (cx (set_fblk b s)) with (cx b). by rewrite Hb, touch_idemp. Qed.

Lemma bread_f s g b n : frep s g -> is_Some (g_view g !! b) -> (forall i, g_held g !! i <> Some b) -> g_bufs g = Datatypes.S n ->
  exists i s', bread bk_dev b s = Ret i s' /\ g_held g !! i = None /\ frep s' (mkg (g_view g) (<[i := b]> (g_held g)) n (g_logs g)) /\ fstay s s'.
Proof.
  intros Hr Hv Hh Hn. destruct (bk_bread_ok _ _ _ _ Hr Hv Hh Hn) as (i & b' & E & Hi & Hr' & Hc & Hl). exists i, (set_fblk b' s).
  split_and!; [by apply zoom_ret|done|done|by apply fstay_set].
Qed.

Lemma bdata_f s g i b d : frep s g -> g_held g !! i = Some b -> g_view g !! b = Some d -> bdata i s = Ret d s.
Proof.
  intros Hr Hh Hv. unfold bdata, onb. rewrite (zoom_ret _ _ _ _ _ _ (bk_data_ok _ _ _ _ _ Hr Hh Hv)). by destruct s.
Qed.

Lemma brelse_f s g i b : frep s g -> g_held g !! i = Some b ->
  exists s', brelse i s = Ret tt s' /\ frep s' (mkg (g_view g) (delete i (g_held g)) (Datatypes.S (g_bufs g)) (g_logs g)) /\ fstay s s'.
Proof.
  intros Hr Hh. destruct (bk_brelse_ok _ _ _ _ Hr Hh) as (b' & E & Hr' & Hc & Hl). exists (set_fblk b' s). split_and!; [by apply zoom_ret|done|by apply fstay_set].
Qed.

Lemma bwrite_f s g i b d n m : frep s g -> g_held g !! i = Some b -> length d = 1024%nat -> g_bufs g = Datatypes.S n -> g_logs g = Datatypes.S m ->
  exists s', bwrite_logged i d s = Ret tt s' /\ frep s' (mkg (<[b := d]> (g_view g)) (g_held g) n m) /\ fstay s s' /\ b ∈ bk_logged (fblk s').
Proof.
  intros Hr Hh Hd Hn Hm. destruct (bk_write_ok _ _ _ _ _ _ _ Hr Hh Hd Hn Hm) as (b' & E & Hr' & Hc & Hl). exists (set_fblk b' s).
  split_and!; [by apply zoom_ret|done|apply fstay_set; [done|set_solver]|cbn; set_solver].
Qed.

(** Reading a block, changing it under the log and releasing it. *)
Lemma change_f s g b d d' n m : frep s g -> g_view g !! b = Some d -> (forall i, g_held g !! i <> Some b) -> g_bufs g = Datatypes.S (Datatypes.S n) -> g_logs g = Datatypes.S m ->
  length d' = 1024%nat ->
  exists i s1 s2 s3, bread bk_dev b s = Ret i s1 /\ bdata i s1 = Ret d s1 /\ bwrite_logged i d' s1 = Ret tt s2 /\ brelse i s2 = Ret tt s3 /\
    frep s3 (mkg (<[b := d']> (g_view g)) (g_held g) (Datatypes.S n) m) /\ fstay s s1 /\ fstay s s3.
Proof.
  intros Hr Hv Hh Hn Hm Hd. destruct (bread_f s g b _ Hr (ex_intro _ d Hv) Hh Hn) as (i & s1 & E1 & Hi & Hr1 & Hy1).
  set (g1 := mkg _ _ _ _) in Hr1. assert (Hi1 : g_held g1 !! i = Some b) by apply lookup_insert_eq.
  destruct (bwrite_f s1 g1 i b d' n m Hr1 Hi1 Hd eq_refl Hm) as (s2 & E2 & Hr2 & Hy2 & _). set (g2 := mkg _ _ _ _) in Hr2.
  destruct (brelse_f s2 g2 i b Hr2 Hi1) as (s3 & E3 & Hr3 & Hy3). exists i, s1, s2, s3. split_and!; [done|by apply (bdata_f s1 g1 i b)|done|done| |done|].
  - cbn in Hr3. by rewrite delete_insert_id in Hr3.
  - eapply fstay_trans; [done|]. by eapply fstay_trans.
Qed.

(** The entry of the log that a write of block [b] takes. *)
Definition cost (s : fss) (b : Z) : nat := if decide (b ∈ bk_logged (fblk s)) then 0 else 1.

(** The same for a block that may be in the log already. *)
Lemma change_any s g b d d' : frep s g -> g_view g !! b = Some d -> (forall i, g_held g !! i <> Some b) -> (2 <= g_bufs g)%nat -> (1 <= g_logs g)%nat -> length d' = 1024%nat ->
  exists i s1 s2 s3, bread bk_dev b s = Ret i s1 /\ bdata i s1 = Ret d s1 /\ bwrite_logged i d' s1 = Ret tt s2 /\ brelse i s2 = Ret tt s3 /\
    frep s3 (mkg (<[b := d']> (g_view g)) (g_held g) (g_bufs g - cost s b) (g_logs g - cost s b)) /\ fstay s s3 /\ b ∈ bk_logged (fblk s3).
Proof.
  intros Hr Hv Hh Hn Hm Hd. destruct (bread_f s g b (g_bufs g - 1) Hr (ex_intro _ d Hv) Hh ltac:(lia)) as (i & s1 & E1 & Hi & Hr1 & Hy1).
  set (g1 := mkg _ _ _ _) in Hr1. assert (Hi1 : g_held g1 !! i = Some b) by apply lookup_insert_eq.
  assert (H2 : exists s2, bwrite_logged i d' s1 = Ret tt s2 /\ frep s2 (mkg (<[b := d']> (g_view g)) (g_held g1) (g_bufs g - 1 - cost s b) (g_logs g - cost s b)) /\ fstay s1 s2 /\ b ∈ bk_logged (fblk s2)).
  { unfold cost. destruct (decide (b ∈ bk_logged (fblk s))) as [Hb|_]; [|by apply (bwrite_f s1 g1 i b d'); cbn; try lia].
    pose proof (fy_logged _ _ Hy1 b Hb) as Hb1. destruct (bk_rewrite_ok _ _ _ _ _ Hr1 Hi1 Hd Hb1 ltac:(cbn; lia) ltac:(cbn; lia)) as (b' & E & Hr' & Hc & Hl). exists (set_fblk b' s1).
    split_and!; [by apply zoom_ret|by rewrite !Nat.sub_0_r|by apply fstay_set|by apply Hl]. }
  destruct H2 as (s2 & E2 & Hr2 & Hy2 & Hb2). destruct (brelse_f s2 _ i b Hr2 Hi1) as (s3 & E3 & Hr3 & Hy3). exists i, s1, s2, s3. split_and!; [done|by apply (bdata_f s1 g1 i b)|done|done| | |by apply (fy_logged _ _ Hy3)].
  - cbn in Hr3. rewrite delete_insert_id in Hr3 by done. replace (g_bufs g - cost s b)%nat with (Datatypes.S (g_bufs g - 1 - cost s b)) by (unfold cost; case_decide; lia). done.
  - eapply fstay_trans; [done|]. by eapply fstay_trans.
Qed.

(** Looking at a block. *)
Lemma look_f s g b d n : frep s g -> g_view g !! b = Some d -> (forall i, g_held g !! i <> Some b) -> g_bufs g = Datatypes.S n ->
  exists i s1 s2, bread bk_dev b s = Ret i s1 /\ bdata i s1 = Ret d s1 /\ brelse i s1 = Ret tt s2 /\ frep s2 g /\ fstay s s1 /\ fstay s s2.
Proof.
  intros Hr Hv Hh Hn. destruct (bread_f s g b _ Hr (ex_intro _ d Hv) Hh Hn) as (i & s1 & E1 & Hi & Hr1 & Hy1).
  set (g1 := mkg _ _ _ _) in Hr1. assert (Hi1 : g_held g1 !! i = Some b) by apply lookup_insert_eq.
  destruct (brelse_f s1 g1 i b Hr1 Hi1) as (s2 & E2 & Hr2 & Hy2). exists i, s1, s2. split_and!; [done|by apply (bdata_f s1 g1 i b)|done| |done|by eapply fstay_trans].
  cbn in Hr2. rewrite delete_insert_id in Hr2 by done. rewrite <- Hn in Hr2. by destruct g.
Qed.

Lemma free_bit_ok d b size (s : fss) : length d = bsize -> forall n bi, 0 <= bi -> bi + Z.of_nat n <= BPB ->
  exists r, free_bit n d b bi size s = Ret r s /\
    match r with
    | Some k => bi <= k < bi + Z.of_nat n /\ b + k < size /\ bit_in d k = Some false /\ forall j, bi <= j < k -> bit_in d j = Some true
    | None => forall j, bi <= j < bi + Z.of_nat n -> b + j < size -> bit_in d j = Some true
    end.
Proof.
  intros Hd. induction n as [|n IH]; intros bi Hbi Hn; cbn [free_bit]; [exists None; split; [done|lia]|].
  destruct (Z.ltb_spec (b + bi) size) as [Hlt|Hge]; cbn [negb]; [|exists None; split; [done|lia]].
  destruct (bit_in_some d bi Hd ltac:(lia)) as [x Hx]. pose proof Hx as Hx'. unfold bit_in in Hx'. destruct (aget d (bi / 8)) as [y|] eqn:Hy; [|done]. cbn in Hx'.
  mstep. destruct (Z.land y (bmask bi) =? 0); cbn [negb] in Hx'; injection Hx' as <-; [exists (Some bi); split_and!; [done|lia|lia|done|done|lia]|].
  destruct (IH (bi + 1) ltac:(lia) ltac:(lia)) as (r & E & Hr). exists r. split; [done|]. destruct r as [k|].
  - destruct Hr as (H1 & H2 & H3 & H4). split_and!; [lia|lia|done|done|]. intros j Hj. destruct (decide (j = bi)) as [->|]; [done|]. apply H4. lia.
  - intros j Hj1 Hj2. destruct (decide (j = bi)) as [->|]; [done|]. apply Hr; lia.
Qed.

(** The buffers held are neither of the bitmap nor free. *)
Definition held_ok (g : gblocks) (sb : superblock) : Prop := forall i c, g_held g !! i = Some c -> ~ meta sb c /\ bit (g_view g) sb c <> Some false.

Lemma bzero_f s g b n m : frep s g -> is_Some (g_view g !! b) -> (forall i, g_held g !! i <> Some b) -> g_bufs g = Datatypes.S (Datatypes.S n) -> g_logs g = Datatypes.S m ->
  exists s', bzero bk_dev b s = Ret tt s' /\ frep s' (mkg (<[b := zeros]> (g_view g)) (g_held g) (Datatypes.S n) m) /\ fstay s s'.
Proof.
  intros Hr [d Hd] Hh Hn Hm. destruct (change_f s g b d zeros n m Hr Hd Hh Hn Hm eq_refl) as (i & s1 & s2 & s3 & E1 & E2 & E3 & E4 & Hr' & Hy1 & Hy).
  exists s3. split_and!; [|done|done]. unfold bzero. run E1. run E3. exact E4.
Qed.

(** The end of [balloc]: the bit is set and the block zeroed. *)
Lemma take_bit s g sb b k d n m i s1 : frep s g -> fsb s = sb -> disk_ok (g_view g) sb -> held_ok g sb -> 0 <= b -> (BPB | b) -> 0 <= k < BPB -> b + k < sb_size sb ->
  g_view g !! BBLOCK b sb = Some d -> bit_in d k = Some false -> g_bufs g = Datatypes.S (Datatypes.S (Datatypes.S n)) -> g_logs g = Datatypes.S (Datatypes.S m) ->
  bread bk_dev (BBLOCK b sb) s = Ret i s1 ->
  exists s' v', (x <- unwrap (aget d (k / 8)) ;; d <- unwrap (aset d (k / 8) (Z.lor x (bmask k))) ;;
      bwrite_logged i d ;;; brelse i ;;; bzero bk_dev (b + k) ;;; ret (b + k)) s1 = Ret (b + k) s' /\
    frep s' (mkg v' (g_held g) (Datatypes.S n) m) /\ fstay s s' /\ allocd (g_view g) sb v' (b + k).
Proof.
  intros Hr Hsb Hk Hh Hb0 Hdv Hkr Hsz Hd Hf Hn Hm Ei.
  assert (Hdiv : (b + k) / BPB = b / BPB /\ (b + k) mod BPB = k) by (destruct Hdv as [q ->]; unfold BPB in *; dlia). destruct Hdiv as [Hdiv Hmod].
  assert (Eb : BBLOCK (b + k) sb = BBLOCK b sb) by (unfold BBLOCK; by rewrite Hdiv).
  assert (Hbit : bit (g_view g) sb (b + k) = Some false) by (unfold bit; rewrite Eb, Hd; cbn; by rewrite Hmod).
  pose proof (dk_len _ _ Hk _ _ Hd) as Hl. unfold bit_in in Hf. destruct (aget d (k / 8)) as [x|] eqn:Ex; [|done].
  assert (Hkb : 0 <= k / 8 < Z.of_nat (length d)) by (rewrite Hl; unfold bsize, BPB in *; dlia).
  pose proof (aset_is_Some d (k / 8) (Z.lor x (bmask k)) Hkb) as Es. set (d' := <[_ := _]> d) in Es. mstep. rewrite Es. mstep.
  assert (Hl' : length d' = bsize) by (by rewrite (aset_length _ _ _ _ Es)).
  assert (Hupd : forall bj, 0 <= bj -> bit_in d' bj = if decide (bj = (b + k) mod BPB) then Some true else bit_in d bj).
  { intros bj Hbj. rewrite Hmod. apply (bit_in_update d k bj x (Z.lor x (bmask k)) d' true); [lia|done|done|done|]. intros j Hj. apply set_bit_spec; lia. }
  assert (Hnm : ~ meta sb (b + k)) by (intros (b' & Hb' & E); by apply (dk_meta _ _ Hk (b + k) b'); [lia| | |]).
  assert (Hnh : forall j, g_held g !! j <> Some (BBLOCK b sb)) by (intros j Hj; apply (proj1 (Hh _ _ Hj)); exists (b + k); split; [lia|done]).
  destruct (change_f s g (BBLOCK b sb) d d' _ _ Hr Hd Hnh Hn Hm Hl') as (i' & s1' & s2 & s3 & E1 & E2 & E3 & E4 & Hr3 & _ & Hy3).
  rewrite Ei in E1. injection E1 as <- <-. run E3. run E4. set (g3 := mkg _ _ _ _) in Hr3.
  assert (Hk3 : disk_ok (g_view g3) sb) by (cbn; rewrite <- Eb; apply disk_ok_update with d true; (done || lia || by rewrite Eb)).
  destruct (dk_free _ _ Hk (b + k) ltac:(lia) Hbit) as [z Hz].
  destruct (bzero_f s3 g3 (b + k) n m Hr3) as (s4 & E5 & Hr4 & Hy4); [|intros j Hj; by apply (proj2 (Hh _ _ Hj))|done|done|].
  { cbn. rewrite lookup_insert_ne; [eauto|]. intros E. apply Hnm. exists b. split; [lia|done]. }
  run E5. exists s4, (<[b + k := zeros]> (g_view g3)). split_and!; [done|done|by eapply fstay_trans|].
  split; [lia|done|apply lookup_insert_eq| | |apply disk_ok_other; [done| |done|done]; intros E0; rewrite E0 in Hz; by rewrite (dk_zero _ _ Hk) in Hz].
  - intros c Hc. rewrite bit_other by (intros E; apply Hnm; by exists c). cbn. rewrite <- Eb. apply bit_insert with d; try done; [apply Hk| | |by rewrite Eb]; pose proof (dk_size _ _ Hk); lia.
  - intros c Hc Hmc. rewrite lookup_insert_ne by done. cbn. apply lookup_insert_ne. intros <-. apply Hmc. exists (b + k). split; [lia|done].
Qed.

Definition first_free (v : gmap Z (list Z)) (sb : superblock) (b : Z) : Prop := forall c, 0 <= c < b -> c < sb_size sb -> bit v sb c = Some true.

Lemma frees_none v sb : first_free v sb (sb_size sb) -> frees v sb = 0%nat.
Proof using Type.
  intros H. unfold frees. rewrite (filter_ext_in _ (fun _ => False)) by (intros c Hc%elem_of_seqZ; by rewrite H by lia). by induction (seqZ 0 (sb_size sb)).
Qed.

Lemma balloc_loop_ok s g sb n m : fsb s = sb -> disk_ok (g_view g) sb -> held_ok g sb ->
  g_bufs g = Datatypes.S (Datatypes.S (Datatypes.S n)) -> g_logs g = Datatypes.S (Datatypes.S m) ->
  forall fuel s0 b, frep s0 g -> fstay s s0 -> 0 <= b -> (BPB | b) -> first_free (g_view g) sb b -> sb_size sb <= b + BPB * Z.of_nat fuel ->
  first_free (g_view g) sb (sb_size sb) /\ balloc_loop (Datatypes.S fuel) bk_dev b s0 = Panic "balloc: out of blocks" \/
  exists c s' v', balloc_loop (Datatypes.S fuel) bk_dev b s0 = Ret c s' /\ frep s' (mkg v' (g_held g) (Datatypes.S n) m) /\ fstay s s' /\
    allocd (g_view g) sb v' c /\ first_free (g_view g) sb c.
Proof.
  intros Hsb Hk Hh Hn Hm. induction fuel as [|fuel IH]; intros s0 b Hr Hy Hb Hdv Hff Hfu; cbn [balloc_loop]; mstep;
    (assert (Hsb0 : fsb s0 = sb) by (by rewrite (fy_sb _ _ Hy))); rewrite Hsb0;
    (destruct (Z.ltb_spec b (sb_size sb)) as [Hlt|Hge]; cbn [negb]; [|left; split; [intros c Hc _; apply Hff; lia|done]]); [lia|].
  destruct (dk_map _ _ Hk b ltac:(lia)) as [d Hd]. pose proof (dk_len _ _ Hk _ _ Hd) as Hl.
  assert (Hnh : forall j, g_held g !! j <> Some (BBLOCK b sb)) by (intros j Hj; apply (proj1 (Hh _ _ Hj)); exists b; split; [lia|done]).
  destruct (look_f s0 g (BBLOCK b sb) d _ Hr Hd Hnh Hn) as (i & s1 & s2 & E1 & E2 & E3 & Hr2 & Hy1 & Hy2). run E1. run E2.
  destruct (free_bit_ok d b (sb_size sb) s1 Hl (Z.to_nat BPB) 0 ltac:(lia) ltac:(unfold BPB; lia)) as (r & Ef & Hf). run Ef.
  assert (Hbits : forall j, 0 <= j < BPB -> BBLOCK (b + j) sb = BBLOCK b sb /\ bit (g_view g) sb (b + j) = bit_in d j).
  { intros j Hj. assert (Hdm : (b + j) / BPB = b / BPB /\ (b + j) mod BPB = j) by (destruct Hdv as [q ->]; unfold BPB in *; dlia). destruct Hdm as [Hq Hmod].
    assert (Eb : BBLOCK (b + j) sb = BBLOCK b sb) by (unfold BBLOCK; by rewrite Hq). split; [done|]. unfold bit. rewrite Eb, Hd. cbn. by rewrite Hmod. }
  assert (Hffk : forall k, k <= BPB -> (forall j, 0 <= j < k -> b + j < sb_size sb -> bit_in d j = Some true) -> first_free (g_view g) sb (b + k)).
  { intros k Hk' Hj c Hc Hcs. destruct (Z.lt_ge_cases c b) as [Hcb|Hcb]; [by apply Hff; lia|]. replace c with (b + (c - b)) by lia.
    rewrite (proj2 (Hbits (c - b) ltac:(lia))). apply Hj; lia. }
  destruct r as [k|].
  - right. destruct Hf as (H1 & H2 & H3 & H4). assert (Hkr : 0 <= k < BPB) by (unfold BPB in *; lia).
    destruct (take_bit s0 g sb b k d n m i s1 Hr Hsb0 Hk Hh Hb Hdv Hkr H2 Hd H3 Hn Hm E1) as (s' & v' & E & Hr' & Hy' & Ha).
    exists (b + k), s', v'. split_and!; [exact E|done|by eapply fstay_trans|done|].
    apply Hffk; [lia|]. intros j Hj _. apply H4. lia.
  - run E3. destruct (IH s2 (b + BPB)) as [?|?]; [done| |unfold BPB; lia| | |unfold BPB in *; lia|by left|by right].
    + by eapply fstay_trans.
    + by apply Z.divide_add_r.
    + apply Hffk; [lia|]. intros j Hj Hjs. apply Hf; [unfold BPB in *; lia|done].
Qed.

(** [balloc] finds the first free block, marks it and fills it with zeros; it
    panics when there is none. *)
Lemma balloc_ok s g n m : frep s g -> disk_ok (g_view g) (fsb s) -> held_ok g (fsb s) ->
  g_bufs g = Datatypes.S (Datatypes.S (Datatypes.S n)) -> g_logs g = Datatypes.S (Datatypes.S m) ->
  first_free (g_view g) (fsb s) (sb_size (fsb s)) /\ balloc bk_dev s = Panic "balloc: out of blocks" \/
  exists c s' v', balloc bk_dev s = Ret c s' /\ frep s' (mkg v' (g_held g) (Datatypes.S n) m) /\ fstay s s' /\
    allocd (g_view g) (fsb s) v' c /\ first_free (g_view g) (fsb s) c.
Proof.
  intros Hr Hk Hh Hn Hm. unfold balloc. mstep. pose proof (dk_size _ _ Hk) as Hs.
  replace (Z.to_nat (sb_size (fsb s) / BPB) + 2)%nat with (Datatypes.S (Z.to_nat (sb_size (fsb s) / BPB) + 1)) by lia.
  apply (balloc_loop_ok s g (fsb s) n m eq_refl Hk Hh Hn Hm); [done|apply fstay_refl|lia|apply Z.divide_0_r|intros c Hc; lia|]. unfold BPB. dlia.
Qed.

Lemma balloc_f s g : frep s g -> disk_ok (g_view g) (fsb s) -> held_ok g (fsb s) -> (3 <= g_bufs g)%nat -> (2 <= g_logs g)%nat ->
  frees (g_view g) (fsb s) = 0%nat /\ balloc bk_dev s = Panic "balloc: out of blocks" \/
  exists c s' v', balloc bk_dev s = Ret c s' /\ frep s' (mkg v' (g_held g) (g_bufs g - 2) (g_logs g - 2)) /\ fstay s s' /\ allocd (g_view g) (fsb s) v' c.
Proof.
  intros Hr Hk Hh Hn Hm. destruct (g_bufs g) as [|[|[|n]]] eqn:En; [lia|lia|lia|]. destruct (g_logs g) as [|[|m]] eqn:Em; [lia|lia|].
  destruct (balloc_ok s g n m Hr Hk Hh En Em) as [[Hff E]|(c & s' & v' & E & Hr' & Hy & Ha & _)]; [left; split; [by apply frees_none|done]|right]. exists c, s', v'. split_and!; try done.
  by replace (Datatypes.S (Datatypes.S (Datatypes.S n)) - 2)%nat with (Datatypes.S n) by lia; replace (Datatypes.S (Datatypes.S m) - 2)%nat with m by lia.
Qed.

(** Block [b] was freed. *)
Record freed (v : gmap Z (list Z)) (sb : superblock) (v' : gmap Z (list Z)) (b : Z) : Prop := {
  fd_bit : forall c, 0 <= c < sb_size sb -> bit v' sb c = if decide (c = b) then Some false else bit v sb c;
  fd_other : forall c, ~ meta sb c -> v' !! c = v !! c;
  fd_ok : disk_ok v' sb
}.

(** [bfree] clears the bit of a block in use, and panics on one that is free. *)
Lemma bfree_ok s g b : frep s g -> disk_ok (g_view g) (fsb s) -> (forall i c, g_held g !! i = Some c -> ~ meta (fsb s) c) -> 0 <= b < sb_size (fsb s) ->
  is_Some (g_view g !! b) -> ~ meta (fsb s) b -> (2 <= g_bufs g)%nat -> (1 <= g_logs g)%nat ->
  bit (g_view g) (fsb s) b = Some false /\ bfree bk_dev b s = Panic "freeing free block" \/
  bit (g_view g) (fsb s) b = Some true /\ exists s' v', bfree bk_dev b s = Ret tt s' /\ frep s' (mkg v' (g_held g) (g_bufs g - cost s (BBLOCK b (fsb s))) (g_logs g - cost s (BBLOCK b (fsb s)))) /\ fstay s s' /\
    freed (g_view g) (fsb s) v' b /\ BBLOCK b (fsb s) ∈ bk_logged (fblk s').
Proof.
  intros Hr Hk Hh Hb Hbv Hbm Hn Hm. destruct (dk_map _ _ Hk b Hb) as [d Hd]. pose proof (dk_len _ _ Hk _ _ Hd) as Hl.
  assert (Hnh : forall j, g_held g !! j <> Some (BBLOCK b (fsb s))) by (intros j Hj; apply (Hh _ _ Hj); by exists b).
  set (k := b mod BPB). assert (Hkr : 0 <= k < BPB) by (by apply Z.mod_pos_bound). destruct (bit_in_some d k Hl Hkr) as [x Hx].
  assert (Hbit : bit (g_view g) (fsb s) b = Some x) by (unfold bit; by rewrite Hd). rewrite Hbit.
  pose proof Hx as Hx'. unfold bit_in in Hx'. destruct (aget d (k / 8)) as [y|] eqn:Ey; [|done]. cbn in Hx'. injection Hx' as Hx'.
  assert (Hkb : 0 <= k / 8 < Z.of_nat (length d)) by (rewrite Hl; unfold bsize, BPB in *; dlia).
  pose proof (aset_is_Some d (k / 8) (Z.land y (Z.lnot (bmask k))) Hkb) as Es. set (d' := <[_ := _]> d) in Es.
  assert (Hl' : length d' = bsize) by (by rewrite (aset_length _ _ _ _ Es)).
  destruct (change_any s g _ d d' Hr Hd Hnh Hn Hm Hl') as (i & s1 & s2 & s3 & E1 & E2 & E3 & E4 & Hr3 & Hy3 & Hlog).
  unfold bfree. mstep. run E1. run E2. fold k. rewrite Ey. mstep. destruct (Z.land y (bmask k) =? 0); cbn [negb] in Hx'; subst x; [by left|right].
  split; [done|]. rewrite Es. mstep. run E3.
  assert (Hupd : forall bj, 0 <= bj -> bit_in d' bj = if decide (bj = b mod BPB) then Some false else bit_in d bj).
  { intros bj Hbj. fold k. apply (bit_in_update d k bj y (Z.land y (Z.lnot (bmask k))) d' false); [lia|done|done|done|]. intros j Hj. apply clear_bit_spec; lia. }
  eexists s3, _. split_and!; [exact E4|exact Hr3|done| |done]. cbn. split.
  - intros c Hc. apply bit_insert with d; try done; [apply Hk| |]; pose proof (dk_size _ _ Hk); lia.
  - intros c Hc. apply lookup_insert_ne. intros <-. apply Hc. by exists b.
  - by apply disk_ok_update with d false.
Qed.
End FsSpec.

(** ** Inodes in their blocks *)

Definition short (z : Z) : Prop := - 2 ^ 15 <= z < 2 ^ 15.
Definition uint (z : Z) : Prop := 0 <= z < 2 ^ 32.

Record dinode_ok (d : dinode) : Prop := {
  do_type : short (di_type d);
  do_major : short (di_major d);
  do_minor : short (di_minor d);
  do_nlink : short (di_nlink d);
  do_size : uint (di_size d);
  do_len : length (di_addrs d) = 13%nat;
  do_addrs : Forall uint (di_addrs d)
}.

Lemma s16_u16 z : short z -> s16 (u16 z) = z.
Proof. unfold short, s16, u16. intros Hz. rewrite Zplus_mod_idemp_l. rewrite Z.mod_small; lia. Qed.

(** Fields of different widths that do not overlap. *)
Lemma get16_splice o v off d : (o + 2 <= off \/ off + length v <= o)%nat -> (off + length v <= length d)%nat -> get16 o (splice off v d) = get16 o d.
Proof. intros [H|H] Hl; unfold get16; f_equal; [by apply slice_splice_before|by apply slice_splice_after]. Qed.

Lemma get32_splice o v off d : (o + 4 <= off \/ off + length v <= o)%nat -> (off + length v <= length d)%nat -> get32 o (splice off v d) = get32 o d.
Proof. intros [H|H] Hl; unfold get32; f_equal; [by apply slice_splice_before|by apply slice_splice_after]. Qed.

Lemma get16_put32 o v off d : (o + 2 <= off \/ off + 4 <= o)%nat -> (off + 4 <= length d)%nat -> get16 o (put32 off v d) = get16 o d.
Proof. intros H Hl. apply get16_splice; rewrite le_bytes_length; lia. Qed.

Lemma get32_put16 o v off d : (o + 4 <= off \/ off + 2 <= o)%nat -> (off + 2 <= length d)%nat -> get32 o (put16 off v d) = get32 o d.
Proof. intros H Hl. apply get32_splice; rewrite le_bytes_length; lia. Qed.

Lemma put_addrs_length l : forall o d, (o + 4 * length l <= length d)%nat -> length (put_addrs o l d) = length d.
Proof.
  induction l as [|a l IH]; intros o d Hl; cbn [put_addrs length] in *; [done|]. rewrite IH by (rewrite put32_length; lia). apply put32_length. lia.
Qed.

Lemma get16_put_addrs l o' : forall o d, (o + 4 * length l <= length d)%nat -> (o' + 2 <= o \/ o + 4 * length l <= o')%nat -> get16 o' (put_addrs o l d) = get16 o' d.
Proof.
  induction l as [|a l IH]; intros o d Hl Ho; cbn [put_addrs length] in *; [done|]. rewrite IH by (rewrite ?put32_length; lia). apply get16_put32; lia.
Qed.

Lemma get32_put_addrs_ne l o' : forall o d, (o + 4 * length l <= length d)%nat -> (o' + 4 <= o \/ o + 4 * length l <= o')%nat -> get32 o' (put_addrs o l d) = get32 o' d.
Proof.
  induction l as [|a l IH]; intros o d Hl Ho; cbn [put_addrs length] in *; [done|]. rewrite IH by (rewrite ?put32_length; lia). apply get32_put32_ne; lia.
Qed.

Lemma get32_put_addrs l : forall o d k a, (o + 4 * length l <= length d)%nat -> l !! k = Some a -> get32 (o + 4 * k) (put_addrs o l d) = u32 a.
Proof.
  induction l as [|b l IH]; intros o d k a Hl Hk; cbn [put_addrs length] in *; [done|]. destruct k as [|k]; cbn in Hk.
  - injection Hk as ->. replace (o + 4 * 0)%nat with o by lia. rewrite get32_put_addrs_ne by (rewrite ?put32_length; lia). apply get32_put32. lia.
  - replace (o + 4 * Datatypes.S k)%nat with (o + 4 + 4 * k)%nat by lia. apply IH; [rewrite put32_length; lia|done].
Qed.

(** The side conditions: lengths do not change, and offsets are linear. *)
Ltac lens := repeat first [rewrite put_addrs_length by lens | rewrite put32_length by lens | rewrite put16_length by lens]; lia.
Ltac fields := repeat first [rewrite get16_put_addrs by lens | rewrite get16_put32 by lens | rewrite get16_put16 by lens | rewrite get16_put16_ne by lens
  | rewrite get32_put_addrs_ne by lens | rewrite get32_put32 by lens | rewrite get32_put32_ne by lens | rewrite get32_put16 by lens].

Lemma put_dinode_length o i d : length (di_addrs i) = 13%nat -> (o + 64 <= length d)%nat -> length (put_dinode o i d) = length d.
Proof. intros Ha Hl. unfold put_dinode. repeat first [rewrite put_addrs_length by lens | rewrite put32_length by lens | rewrite put16_length by lens]. done. Qed.

Lemma get_put_dinode o i d : dinode_ok i -> (o + 64 <= length d)%nat -> get_dinode o (put_dinode o i d) = i.
Proof.
  intros [H1 H2 H3 H4 H5 H6 H7] Hl. destruct i as [t ma mi nl sz ad]. cbn in *. unfold get_dinode, put_dinode. cbn [di_type di_major di_minor di_nlink di_size di_addrs].
  f_equal; [fields; by apply s16_u16..|fields; by apply u32_small|]. apply list_eq. intros k. rewrite list_lookup_fmap. destruct (decide (k < 13)%nat) as [Hk|Hk].
  - rewrite lookup_seq_lt by done. cbn [fmap option_fmap option_map Nat.add]. destruct (lookup_lt_is_Some_2 ad k ltac:(lia)) as [a Ha].
    rewrite (get32_put_addrs ad (o + 12) _ k a) by (done || lens). rewrite Ha. f_equal. apply u32_small. by apply (Forall_lookup_1 _ _ _ _ H7 Ha).
  - rewrite lookup_seq_ge by lia. cbn. symmetry. apply lookup_ge_None. lia.
Qed.

Lemma get_put_dinode_ne o o' i d : length (di_addrs i) = 13%nat -> (o + 64 <= length d)%nat -> (o' + 64 <= o \/ o + 64 <= o')%nat ->
  get_dinode o' (put_dinode o i d) = get_dinode o' d.
Proof.
  intros H6 Hl Ho. unfold get_dinode, put_dinode. f_equal; [fields; done..|]. apply list_fmap_ext. intros k j Hj. apply lookup_seq in Hj as [-> Hj]. by fields.
Qed.
