(* ===== verification/FsFile.v ===== *)
(** * The contents of a file

    The blocks of an inode: which block holds which part of the file, what
    [bmap] allocates, and what [readi] and [writei] do to the bytes. *)

From S2P Require Import Prelude StringC Bytes Sleeplock UserMem Blocks Fs FsSpec.

Definition ind (a : list Z) : Z := default 0 (aget a NDIRECT).

(** The block of the file's block [bn], or 0. *)
Definition blockof (v : gmap Z (list Z)) (a : list Z) (bn : Z) : Z :=
  if bn <? NDIRECT then default 0 (aget a bn)
  else match v !! ind a with Some d => get32 (aoff (bn - NDIRECT)) d | None => 0 end.

(** A block of the disk in use, not of the bitmap. *)
Record good (v : gmap Z (list Z)) (sb : superblock) (x : Z) : Prop := {
  gd_range : 0 <= x < sb_size sb;
  gd_bit : bit v sb x = Some true;
  gd_view : is_Some (v !! x);
  gd_meta : ~ meta sb x
}.

(** No block is used twice. *)
Record file_ok (v : gmap Z (list Z)) (sb : superblock) (a : list Z) : Prop := {
  fo_len : length a = 13%nat;
  fo_ind : ind a <> 0 -> good v sb (ind a);
  fo_blk : forall bn, 0 <= bn < MAXFILE -> blockof v a bn <> 0 -> good v sb (blockof v a bn) /\ blockof v a bn <> ind a;
  fo_inj : forall bn bn', 0 <= bn < MAXFILE -> 0 <= bn' < MAXFILE -> blockof v a bn <> 0 -> blockof v a bn = blockof v a bn' -> bn = bn'
}.

Lemma good_alloc v sb v' b x : allocd v sb v' b -> good v sb x -> good v' sb x /\ x <> b /\ v' !! x = v !! x.
Proof.
  intros Ha [H1 H2 H3 H4]. assert (Hne : x <> b) by (intros ->; pose proof (ac_free _ _ _ _ Ha); congruence).
  assert (Hv : v' !! x = v !! x) by (by apply (ac_other _ _ _ _ Ha)). split_and!; [|done|done].
  split; [done| |by rewrite Hv|done]. rewrite (ac_bit _ _ _ _ Ha) by done. by rewrite decide_False.
Qed.

Lemma new_good v sb v' b : disk_ok v sb -> allocd v sb v' b -> good v' sb b /\ b <> 0.
Proof.
  intros Hk Ha. pose proof (ac_range _ _ _ _ Ha) as Hb. pose proof (ac_free _ _ _ _ Ha) as Hf. split.
  - split; [done| |rewrite (ac_zero _ _ _ _ Ha); eauto|].
    + rewrite (ac_bit _ _ _ _ Ha) by done. by rewrite decide_True.
    + intros (b' & Hb' & E). by apply (dk_meta _ _ Hk b b').
  - intros ->. destruct (dk_free _ _ Hk 0 Hb Hf) as [d Hd]. by rewrite (dk_zero _ _ Hk) in Hd.
Qed.

Lemma new_not_good v sb v' b : allocd v sb v' b -> ~ good v sb b.
Proof. intros Ha Hg. by destruct (good_alloc _ _ _ _ _ Ha Hg) as (_ & ? & _). Qed.

(** The same file on another disk, with one more block. *)
Lemma file_ok_more v sb a v' a' (new : option Z) b :
  file_ok v sb a -> length a' = 13%nat ->
  (forall bn', 0 <= bn' < MAXFILE -> blockof v' a' bn' = if decide (new = Some bn') then b else blockof v a bn') ->
  (forall x, good v sb x -> good v' sb x /\ x <> b) -> good v' sb b ->
  (ind a' = ind a /\ (ind a <> 0 -> ind a <> b) /\ b <> ind a' \/ ind a' = b /\ new = None) -> file_ok v' sb a'.
Proof.
  intros Hf Hl Hb Hg Hnew Hi. split; [done| | |].
  - intros Hz. destruct Hi as [(E & _ & _)|[-> _]]; [|done]. rewrite E in *. by apply Hg, (fo_ind _ _ _ Hf).
  - intros bn Hbn. rewrite Hb by done. case_decide as E.
    + intros _. split; [done|]. destruct Hi as [(_ & _ & H)|[_ ->]]; [done|]. by rewrite E in *.
    + intros Hz. destruct (fo_blk _ _ _ Hf bn Hbn Hz) as [H1 H2]. split; [by apply Hg|]. destruct Hi as [(-> & _ & _)|[-> _]]; [done|by apply Hg].
  - intros bn bn' Hbn Hbn'. rewrite !Hb by done. assert (Hne : forall c, 0 <= c < MAXFILE -> blockof v a c <> 0 -> blockof v a c <> b) by (intros c Hc Hz; apply Hg; by apply (fo_blk _ _ _ Hf)).
    repeat case_decide; [congruence| | |by apply (fo_inj _ _ _ Hf)].
    + intros Hz E. exfalso. apply (Hne bn' Hbn'); congruence.
    + intros Hz E. by apply Hne in Hz.
Qed.

(** A changed block that is not of the bitmap. *)
Lemma good_insert v sb c d x : ~ meta sb c -> good v sb x -> good (<[c := d]> v) sb x.
Proof.
  intros Hc [H1 H2 H3 H4]. split; [done| |rewrite lookup_insert; case_decide; eauto|done]. rewrite bit_other; [done|]. intros E. apply Hc. by exists x.
Qed.

Lemma ind_insert_direct a bn b : 0 <= bn < NDIRECT -> length a = 13%nat -> ind (<[Z.to_nat bn := b]> a) = ind a.
Proof. intros Hb Hl. unfold ind. rewrite aget_insert by (unfold NDIRECT in *; lia). by rewrite decide_False by lia. Qed.

(** The indirect block is as it was. *)
Lemma ind_same v sb a v' b : file_ok v sb a -> disk_ok v sb -> allocd v sb v' b -> v' !! ind a = v !! ind a.
Proof.
  intros Hf Hk Ha. destruct (decide (ind a = 0)) as [->|Hz]; [by rewrite (dk_zero _ _ Hk), (dk_zero _ _ (ac_ok _ _ _ _ Ha))|].
  by apply (good_alloc _ _ _ _ _ Ha), (fo_ind _ _ _ Hf).
Qed.

Lemma alloc_direct v sb a v' b bn : file_ok v sb a -> disk_ok v sb -> allocd v sb v' b -> 0 <= bn < NDIRECT ->
  (forall bn', 0 <= bn' < MAXFILE -> blockof v' (<[Z.to_nat bn := b]> a) bn' = if decide (Some bn = Some bn') then b else blockof v a bn') /\
  file_ok v' sb (<[Z.to_nat bn := b]> a).
Proof.
  intros Hf Hk Ha Hbn. pose proof (fo_len _ _ _ Hf) as Hl.
  assert (Hb : forall bn', 0 <= bn' < MAXFILE -> blockof v' (<[Z.to_nat bn := b]> a) bn' = if decide (Some bn = Some bn') then b else blockof v a bn').
  { intros bn' Hbn'. unfold blockof. rewrite ind_insert_direct by done. destruct (Z.ltb_spec bn' NDIRECT) as [Hlt|Hge].
    - rewrite aget_insert by (rewrite Hl; unfold NDIRECT in *; lia). repeat case_decide; try done; congruence.
    - rewrite (ind_same v sb a v' b Hf Hk Ha). rewrite decide_False; [done|]. intros [= ->]. lia. }
  split; [done|]. apply (file_ok_more v sb a v' _ (Some bn) b Hf); [by rewrite length_insert|done| |by apply (new_good v)|left].
  - intros x Hx. by destruct (good_alloc _ _ _ _ _ Ha Hx) as (? & ? & _).
  - rewrite ind_insert_direct by done. assert (H : ind a <> 0 -> ind a <> b) by (intros Hz; by apply (good_alloc _ _ _ _ _ Ha), (fo_ind _ _ _ Hf)).
    split_and!; [done|done|]. intros ->. apply H; [apply (new_good v sb v' _ Hk Ha)|done].
Qed.

Lemma get32_zeros o : get32 o zeros = 0.
Proof.
  unfold get32, slice, zeros. rewrite drop_replicate, take_replicate. generalize (4 `min` (bsize - o))%nat. intros n. induction n as [|n IH]; [done|]. cbn [replicate of_bytes]. rewrite IH. done.
Qed.

Lemma alloc_ind v sb a v' b : file_ok v sb a -> disk_ok v sb -> allocd v sb v' b -> ind a = 0 ->
  (forall bn', 0 <= bn' < MAXFILE -> blockof v' (<[Z.to_nat NDIRECT := b]> a) bn' = blockof v a bn') /\ ind (<[Z.to_nat NDIRECT := b]> a) = b /\
  file_ok v' sb (<[Z.to_nat NDIRECT := b]> a).
Proof.
  intros Hf Hk Ha Hz. pose proof (fo_len _ _ _ Hf) as Hl.
  assert (Hi : ind (<[Z.to_nat NDIRECT := b]> a) = b) by (unfold ind; rewrite aget_insert by (rewrite Hl; done); by rewrite decide_True).
  assert (Hb : forall bn', 0 <= bn' < MAXFILE -> blockof v' (<[Z.to_nat NDIRECT := b]> a) bn' = blockof v a bn').
  { intros bn' Hbn'. unfold blockof. rewrite Hi, (ac_zero _ _ _ _ Ha), Hz, (dk_zero _ _ Hk). destruct (Z.ltb_spec bn' NDIRECT); [|apply get32_zeros].
    rewrite aget_insert by (by rewrite Hl). by rewrite decide_False by lia. }
  split_and!; [done|done|]. apply (file_ok_more v sb a v' _ None b Hf); [by rewrite length_insert|intros; rewrite decide_False by done; by apply Hb| |by apply (new_good v)|by right].
  intros x Hx. by destruct (good_alloc _ _ _ _ _ Ha Hx) as (? & ? & _).
Qed.

(** An entry of the indirect block is written. *)
Lemma alloc_entry v sb a v' b d k : file_ok v sb a -> disk_ok v sb -> allocd v sb v' b -> ind a <> 0 -> v !! ind a = Some d -> 0 <= k < NINDIRECT ->
  let w := <[ind a := put32 (aoff k) b d]> v' in
  (forall bn', 0 <= bn' < MAXFILE -> blockof w a bn' = if decide (Some (NDIRECT + k) = Some bn') then b else blockof v a bn') /\ file_ok w sb a /\ disk_ok w sb.
Proof.
  intros Hf Hk Ha Hz Hd Hkr w. pose proof (dk_len _ _ Hk _ _ Hd) as Hl. pose proof (fo_ind _ _ _ Hf Hz) as Hgi.
  destruct (good_alloc _ _ _ _ _ Ha Hgi) as (Hgi' & Hib & Hvi). destruct (new_good v sb v' b Hk Ha) as [Hgb Hb0]. pose proof (gd_range _ _ _ Hgb) as Hbr. pose proof (dk_size _ _ Hk) as Hsz.
  assert (Hao : forall j, 0 <= j < NINDIRECT -> (aoff j + 4 <= length d)%nat) by (intros j Hj; rewrite Hl; unfold aoff, bsize, NINDIRECT in *; dlia).
  assert (Hw : forall x, good v' sb x -> good w sb x) by (intros x Hx; apply good_insert; [apply Hgi|done]).
  assert (Hb : forall bn', 0 <= bn' < MAXFILE -> blockof w a bn' = if decide (Some (NDIRECT + k) = Some bn') then b else blockof v a bn').
  { intros bn' Hbn'. unfold blockof. destruct (Z.ltb_spec bn' NDIRECT) as [Hlt|Hge]; [rewrite decide_False; [done|intros [= <-]; lia]|].
    unfold w. rewrite lookup_insert_eq, Hd. destruct (decide (Some (NDIRECT + k) = Some bn')) as [[= <-]|Hne].
    - replace (NDIRECT + k - NDIRECT) with k by lia. rewrite get32_put32 by (by apply Hao). apply u32_small. lia.
    - assert (bn' - NDIRECT <> k) by (intros E; apply Hne; f_equal; lia). rewrite get32_put32_ne; [done| |by apply Hao]. unfold aoff. lia. }
  split_and!; [done| |].
  - apply (file_ok_more v sb a w a (Some (NDIRECT + k)) b Hf); [apply Hf|done| |by apply Hw|left; by split_and!].
    intros x Hx. destruct (good_alloc _ _ _ _ _ Ha Hx) as (H1 & H2 & _). split; [by apply Hw|done].
  - apply disk_ok_other; [by apply (ac_ok _ _ _ _ Ha)|done|apply Hgi|]. rewrite put32_length; [done|by apply Hao].
Qed.

(** What [bmap] does to the disk and to the addresses of the inode. *)
Record bmapped (v : gmap Z (list Z)) (a : list Z) (v' : gmap Z (list Z)) (a' : list Z) (sb : superblock) (bn b : Z) : Prop := {
  bm_nz : b <> 0;
  bm_at : forall bn', 0 <= bn' < MAXFILE -> blockof v' a' bn' = if decide (bn' = bn) then b else blockof v a bn';
  bm_old : blockof v a bn <> 0 -> b = blockof v a bn /\ v' = v /\ a' = a;
  bm_new : blockof v a bn = 0 -> v' !! b = Some zeros /\ ~ good v sb b;
  bm_ind : ind a' = ind a \/ ~ good v sb (ind a');
  bm_keep : forall x, good v sb x -> x <> ind a -> v' !! x = v !! x;
  bm_good : forall x, good v sb x -> good v' sb x;
  bm_frees : (frees v sb <= frees v' sb + 2)%nat;
  bm_file : file_ok v' sb a';
  bm_disk : disk_ok v' sb
}.

Lemma bmapped_same v a sb bn b : blockof v a bn = b -> b <> 0 -> file_ok v sb a -> disk_ok v sb -> bmapped v a v a sb bn b.
Proof. intros Hb Hz Hf Hk. split; try done; [intros bn' _; case_decide; congruence|congruence|by left|lia]. Qed.

Definition set_addrs (a : list Z) (i : inode) : inode := set_i_d (set_di_addrs a (i_d i)) i.

Lemma bind2_panic {S A B C} (m1 : M S A) (m2 : A -> M S B) (k : B -> M S C) s e :
  bind m1 m2 s = Panic e -> bind m1 (fun x => bind (m2 x) k) s = Panic e.
Proof. unfold bind. destruct (m1 s) as [a s1| | | |]; cbn; [by intros ->|by intros [= ->]|done|done|done]. Qed.

Section FsFile.
Context {S U : Type} {HS : HasCtx S} {HO : BlockOps S} {HB : Blocks S} {HU : UserMem U}.

Abbreviation fss := (fss S U).

(** A step that also changes the inode [ip]. *)
Record fmod (ip : Z) (i' : inode) (s s' : fss) : Prop := {
  fm_sb : fsb s' = fsb s;
  fm_icache : icache s' = <[Z.to_nat (ip - 1) := i']> (icache s);
  fm_um : fum s' = fum s;
  fm_cwd : cwd s' = cwd s;
  fm_cx : touch (cx s') = touch (cx s);
  fm_logged : bk_logged (fblk s) ⊆ bk_logged (fblk s')
}.

Lemma fstay_fmod ip i s s' : aget (icache s) (ip - 1) = Some i -> fstay s s' -> fmod ip i s s'.
Proof. intros Hi [H1 H2 H3 H4 H5 H6]. split; try done. rewrite H2, list_insert_id; [done|by apply aget_lookup]. Qed.

Lemma fmod_trans ip i1 i2 s1 s2 s3 : fmod ip i1 s1 s2 -> fmod ip i2 s2 s3 -> fmod ip i2 s1 s3.
Proof. intros [A1 A2 A3 A4 A5 A6] [B1 B2 B3 B4 B5 B6]. split; try congruence; [rewrite B2, A2; apply list_insert_insert_eq|by etransitivity]. Qed.

Lemma fmod_get ip i i' s s' : aget (icache s) (ip - 1) = Some i -> fmod ip i' s s' -> aget (icache s') (ip - 1) = Some i'.
Proof. intros Hi%aget_Some_lt Hm. rewrite (fm_icache _ _ _ _ Hm), aget_insert by done. by rewrite decide_True. Qed.

Lemma geti_ok ip i (s : fss) : aget (icache s) (ip - 1) = Some i -> geti ip s = Ret i s.
Proof. intros Hi. unfold geti. by rewrite Hi. Qed.

Lemma seti_ok ip i f (s : fss) : aget (icache s) (ip - 1) = Some i -> exists s', seti ip f s = Ret tt s' /\ fmod ip (f i) s s' /\ fblk s' = fblk s.
Proof.
  intros Hi. unfold seti. run (geti_ok ip i s Hi). mstep. pose proof (aget_Some_lt _ _ _ Hi) as Hlt. rewrite aset_is_Some by done. mstep. unfold modify.
  eexists. split; [done|]. by split.
Qed.

Lemma set_addr_ok ip i k x (s : fss) g : aget (icache s) (ip - 1) = Some i -> length (di_addrs (i_d i)) = 13%nat -> 0 <= k < 13 -> frep s g ->
  exists s', set_addr ip k x s = Ret tt s' /\ fmod ip (set_addrs (<[Z.to_nat k := x]> (di_addrs (i_d i))) i) s s' /\ frep s' g.
Proof.
  intros Hi Hl Hk Hr. unfold set_addr. run (geti_ok ip i s Hi). rewrite aset_is_Some by (rewrite Hl; lia). mstep. unfold setd.
  destruct (seti_ok ip i (fun i0 => set_i_d (set_di_addrs (<[Z.to_nat k := x]> (di_addrs (i_d i))) (i_d i0)) i0) s Hi) as (s' & E & Hm & Hb).
  exists s'. split_and!; [done|done|]. unfold frep. by rewrite Hb.
Qed.

Lemma no_held_ok g sb : g_held g = ∅ -> held_ok g sb.
Proof. intros Hh i c. by rewrite Hh, lookup_empty. Qed.

Definition spent (k : nat) (g g' : gblocks) : Prop := (g_bufs g <= g_bufs g' + k /\ g_logs g <= g_logs g' + k)%nat.

(** The outcome of [bmap], [k] buffers and log entries and two blocks spent at
    most; it panics only when there are fewer. *)
Definition bmap_outcome (k : nat) (s : fss) (g : gblocks) (ip : Z) (i : inode) (bn : Z) (r : res fss Z) : Prop :=
  (frees (g_view g) (fsb s) < 2)%nat /\ r = Panic "balloc: out of blocks" \/
  exists b s' g' a', r = Ret b s' /\ frep s' g' /\ g_held g' = ∅ /\ fmod ip (set_addrs a' i) s s' /\
    bmapped (g_view g) (di_addrs (i_d i)) (g_view g') a' (fsb s) bn b /\ spent k g g'.

Lemma set_addrs_id i : set_addrs (di_addrs (i_d i)) i = i.
Proof. by destruct i as [? ? ? ? ? []]. Qed.

Lemma bmap_direct s g ip i bn : frep s g -> g_held g = ∅ -> aget (icache s) (ip - 1) = Some i -> i_dev i = bk_dev ->
  disk_ok (g_view g) (fsb s) -> file_ok (g_view g) (fsb s) (di_addrs (i_d i)) -> 0 <= bn < NDIRECT -> (3 <= g_bufs g)%nat -> (2 <= g_logs g)%nat ->
  bmap_outcome 2 s g ip i bn (bmap ip bn s).
Proof.
  intros Hr Hh Hi Hdev Hk Hf Hbn Hn Hm. pose proof (fo_len _ _ _ Hf) as Hl. unfold bmap. run (geti_ok ip i s Hi). rewrite (proj2 (Z.ltb_lt _ _)) by lia.
  destruct (aget_is_Some (di_addrs (i_d i)) bn) as [x Hx]; [rewrite Hl; unfold NDIRECT in *; lia|]. rewrite Hx. mstep.
  assert (Hbx : blockof (g_view g) (di_addrs (i_d i)) bn = x) by (unfold blockof; rewrite (proj2 (Z.ltb_lt _ _)), Hx by lia; done).
  destruct (Z.eqb_spec x 0) as [->|Hz].
  - rewrite Hdev. destruct (balloc_f s g Hr Hk (no_held_ok _ _ Hh) Hn Hm) as [[E0 E]|(b & s1 & v' & E & Hr1 & Hy & Ha)]; [left; split; [lia|unfold bind; by rewrite E]|right].
    run E. assert (Hi1 : aget (icache s1) (ip - 1) = Some i) by (by rewrite (fy_icache _ _ Hy)).
    destruct (set_addr_ok ip i bn b s1 _ Hi1 Hl ltac:(unfold NDIRECT in *; lia) Hr1) as (s2 & E2 & Hm2 & Hr2). run E2.
    destruct (alloc_direct _ _ _ _ _ bn Hf Hk Ha Hbn) as [Hat Hfo]. destruct (new_good _ _ _ _ Hk Ha) as [Hgb Hb0].
    eexists b, s2, _, _. split_and!; [done|exact Hr2|exact Hh|eapply fmod_trans; [by apply fstay_fmod|exact Hm2]| |split; cbn; lia]. cbn.
    split; [done| |by rewrite Hbx|intros _; split; [apply Ha|by apply (new_not_good _ _ _ _ Ha)]|left; by apply ind_insert_direct|intros y Hy' _; by apply (good_alloc _ _ _ _ _ Ha)|intros y Hy'; by apply (good_alloc _ _ _ _ _ Ha)|rewrite (frees_alloc _ _ _ _ Ha); lia|done|apply Ha].
    intros bn' Hbn'. rewrite Hat by done. repeat case_decide; congruence.
  - right. exists x, s, g, (di_addrs (i_d i)). split_and!; [done|done|done|rewrite set_addrs_id; apply fstay_fmod; [done|apply fstay_refl]| |split; lia].
    by apply bmapped_same.
Qed.

(** The indirect block, allocated if there is none. *)
Lemma get_ind s g ip i : frep s g -> g_held g = ∅ -> aget (icache s) (ip - 1) = Some i -> i_dev i = bk_dev ->
  disk_ok (g_view g) (fsb s) -> file_ok (g_view g) (fsb s) (di_addrs (i_d i)) -> (3 <= g_bufs g)%nat -> (2 <= g_logs g)%nat ->
  let m := addr <- unwrap (aget (di_addrs (i_d i)) NDIRECT) ;;
    (if addr =? 0 then addr <- balloc (i_dev i) ;; set_addr ip NDIRECT addr ;;; ret addr else ret addr) in
  (frees (g_view g) (fsb s) < 1)%nat /\ m s = Panic "balloc: out of blocks" \/
  exists b s' g' a', m s = Ret b s' /\ frep s' g' /\ g_held g' = ∅ /\ fmod ip (set_addrs a' i) s s' /\ (spent 2 g g' /\ (frees (g_view g) (fsb s) <= frees (g_view g') (fsb s) + 1)%nat) /\ b = ind a' /\ b <> 0 /\
    file_ok (g_view g') (fsb s) a' /\ disk_ok (g_view g') (fsb s) /\ (ind (di_addrs (i_d i)) <> 0 -> g' = g /\ a' = di_addrs (i_d i)) /\
    (forall bn', 0 <= bn' < MAXFILE -> blockof (g_view g') a' bn' = blockof (g_view g) (di_addrs (i_d i)) bn') /\
    (forall x, good (g_view g) (fsb s) x -> good (g_view g') (fsb s) x /\ g_view g' !! x = g_view g !! x /\ (ind (di_addrs (i_d i)) = 0 -> x <> b)).
Proof.
  intros Hr Hh Hi Hdev Hk Hf Hn Hm m. pose proof (fo_len _ _ _ Hf) as Hl. unfold m.
  destruct (aget_is_Some (di_addrs (i_d i)) NDIRECT) as [x Hx]; [rewrite Hl; done|]. rewrite Hx. mstep.
  assert (Hix : ind (di_addrs (i_d i)) = x) by (unfold ind; by rewrite Hx). destruct (Z.eqb_spec x 0) as [->|Hz].
  - rewrite Hdev. destruct (balloc_f s g Hr Hk (no_held_ok _ _ Hh) Hn Hm) as [[E0 E]|(b & s1 & v' & E & Hr1 & Hy & Ha)]; [left; split; [lia|unfold bind; by rewrite E]|right].
    run E. assert (Hi1 : aget (icache s1) (ip - 1) = Some i) by (by rewrite (fy_icache _ _ Hy)).
    destruct (set_addr_ok ip i NDIRECT b s1 _ Hi1 Hl ltac:(done) Hr1) as (s2 & E2 & Hm2 & Hr2). run E2.
    destruct (alloc_ind _ _ _ _ _ Hf Hk Ha Hix) as (Hat & Hind & Hfo). destruct (new_good _ _ _ _ Hk Ha) as [Hgb Hb0].
    eexists b, s2, _, _. split_and!; [done|exact Hr2|exact Hh|eapply fmod_trans; [by apply fstay_fmod|exact Hm2]|split; cbn; lia|cbn; rewrite (frees_alloc _ _ _ _ Ha); lia|done|done|exact Hfo|apply Ha|by rewrite Hix|exact Hat|].
    intros y Hy'. cbn. destruct (good_alloc _ _ _ _ _ Ha Hy') as (H1 & H2 & H3). by split_and!.
  - right. exists x, s, g, (di_addrs (i_d i)). split_and!; [done|done|done|rewrite set_addrs_id; apply fstay_fmod; [done|apply fstay_refl]|split; lia|lia|done|done|done|done|done|done|].
    intros y Hy'. split_and!; [done|done|]. by rewrite Hix.
Qed.

(** The block of an entry of the indirect block, which is held as [bp]. *)
Lemma bmap_entry s g i a k x d bp : frep s g -> g_held g = {[bp := x]} -> i_dev i = bk_dev -> x = ind a -> x <> 0 -> g_view g !! x = Some d ->
  disk_ok (g_view g) (fsb s) -> file_ok (g_view g) (fsb s) a -> 0 <= k < NINDIRECT -> (3 <= g_bufs g)%nat -> (3 <= g_logs g)%nat ->
  let m : M fss Z := addr <- (if get32 (aoff k) d =? 0 then
               addr <- balloc (i_dev i) ;; d <- bdata bp ;; bwrite_logged bp (put32 (aoff k) addr d) ;;; ret addr
             else ret (get32 (aoff k) d)) ;; brelse bp ;;; ret addr in
  (frees (g_view g) (fsb s) < 1)%nat /\ m s = Panic "balloc: out of blocks" \/
  exists b s' g', m s = Ret b s' /\ frep s' g' /\ g_held g' = ∅ /\ fstay s s' /\ bmapped (g_view g) a (g_view g') a (fsb s) (NDIRECT + k) b /\ (spent 3 g g' /\ (frees (g_view g) (fsb s) <= frees (g_view g') (fsb s) + 1)%nat).
Proof.
  intros Hr Hh Hdev Hx Hz Hd Hk Hf Hkr Hn Hm m. unfold m. pose proof (fo_ind _ _ _ Hf ltac:(congruence)) as Hgx. rewrite <- Hx in Hgx.
  assert (Hb : blockof (g_view g) a (NDIRECT + k) = get32 (aoff k) d).
  { unfold blockof. rewrite (proj2 (Z.ltb_ge _ _)), <- Hx, Hd by lia. by replace (NDIRECT + k - NDIRECT) with k by lia. }
  assert (Hi : g_held g !! bp = Some x) by (rewrite Hh; apply lookup_singleton_eq).
  destruct (Z.eqb_spec (get32 (aoff k) d) 0) as [E0|E0].
  - rewrite Hdev. destruct (balloc_f s g Hr Hk) as [[Ef E]|(b & s1 & v' & E & Hr1 & Hy1 & Ha)].
    + intros j c. rewrite Hh, lookup_singleton_Some. intros [_ <-]. split; [apply Hgx|]. by rewrite (gd_bit _ _ _ Hgx).
    + lia.
    + lia.
    + left. split; [lia|]. by apply bind_panic, bind_panic.
    + right. set (g1 := mkg _ _ _ _) in Hr1. destruct (good_alloc _ _ _ _ _ Ha Hgx) as (Hgx1 & Hxb & Hvx). destruct (new_good _ _ _ _ Hk Ha) as [Hgb Hb0].
      assert (E2 : bdata bp s1 = Ret d s1) by (apply (bdata_f s1 g1 bp x d Hr1); [exact Hi|cbn; by rewrite Hvx]).
      assert (Hl : length (put32 (aoff k) b d) = 1024%nat) by (rewrite put32_length; [by apply (dk_len _ _ Hk x)|rewrite (dk_len _ _ Hk x d Hd); unfold aoff, bsize, NINDIRECT in *; dlia]).
      destruct (bwrite_f s1 g1 bp x _ (g_bufs g - 3) (g_logs g - 3) Hr1 Hi Hl ltac:(cbn; lia) ltac:(cbn; lia)) as (s2 & E3 & Hr2 & Hy2 & _). set (g2 := mkg _ _ _ _) in Hr2.
      destruct (brelse_f s2 g2 bp x Hr2 Hi) as (s3 & E4 & Hr3 & Hy3). set (g3 := mkg _ _ _ _) in Hr3.
      exists b, s3, g3. split_and!.
      * rewrite (bind_ret_l _ _ s b s2); [by run E4|]. run E. run E2. by run E3.
      * done.
      * cbn. by rewrite Hh, delete_singleton_eq.
      * eapply fstay_trans; [done|]. by eapply fstay_trans.
      * destruct (alloc_entry _ _ _ _ _ _ _ Hf Hk Ha ltac:(congruence) ltac:(by rewrite <- Hx) Hkr) as (Hat & Hfo & Hdo). rewrite <- Hx in *.
        change (g_view g3) with (<[x := put32 (aoff k) b d]> v').
        assert (Hfr : (frees (g_view g) (fsb s) <= frees (<[x := put32 (aoff k) b d]> v') (fsb s) + 1)%nat) by (rewrite frees_other by apply Hgx; rewrite (frees_alloc _ _ _ _ Ha); lia).
        split; try done; [intros bn' Hbn'; rewrite (Hat bn' Hbn'); repeat case_decide; congruence|by rewrite Hb|intros _; cbn; rewrite lookup_insert_ne by done; split; [apply Ha|by apply (new_not_good _ _ _ _ Ha)]|by left| | |lia].
        -- intros y Hy Hyx. cbn. rewrite lookup_insert_ne by congruence. by apply (good_alloc _ _ _ _ _ Ha).
        -- intros y Hy. apply good_insert; [apply Hgx|]. by apply (good_alloc _ _ _ _ _ Ha).
      * split; cbn; lia.
      * change (g_view g3) with (<[x := put32 (aoff k) b d]> v'). rewrite frees_other by apply Hgx. rewrite (frees_alloc _ _ _ _ Ha). lia.
  - right. destruct (brelse_f s g bp x Hr Hi) as (s1 & E & Hr1 & Hy1). eexists (get32 (aoff k) d), s1, _. split_and!; [mstep; by run E|exact Hr1|cbn; by rewrite Hh, delete_singleton_eq|done| |split; cbn; lia|cbn; lia].
    cbn. by apply bmapped_same.
Qed.

Lemma bmap_ok s g ip i bn : frep s g -> g_held g = ∅ -> aget (icache s) (ip - 1) = Some i -> i_dev i = bk_dev ->
  disk_ok (g_view g) (fsb s) -> file_ok (g_view g) (fsb s) (di_addrs (i_d i)) -> 0 <= bn < MAXFILE -> (6 <= g_bufs g)%nat -> (5 <= g_logs g)%nat ->
  bmap_outcome 6 s g ip i bn (bmap ip bn s).
Proof.
  intros Hr Hh Hi Hdev Hk Hf Hbn Hn Hm. destruct (Z.lt_ge_cases bn NDIRECT) as [Hlt|Hge].
  { destruct (bmap_direct s g ip i bn Hr Hh Hi Hdev Hk Hf) as [E|(b & s' & g' & a' & H1 & H2 & H3 & H4 & H5 & [H6 H7])]; [lia|lia|lia|by left|right]. exists b, s', g', a'. split_and!; try done. split; lia. }
  unfold bmap. run (geti_ok ip i s Hi). rewrite (proj2 (Z.ltb_ge _ _) Hge). cbv zeta. set (k := bn - NDIRECT). assert (Hkr : 0 <= k < NINDIRECT) by (unfold MAXFILE in *; lia).
  rewrite (proj2 (Z.ltb_lt k NINDIRECT)) by lia.
  destruct (get_ind s g ip i Hr Hh Hi Hdev Hk Hf ltac:(lia) ltac:(lia)) as [[Ef E]|(x & s1 & g1 & a1 & E & Hr1 & Hh1 & Hm1 & [[Hs1 Hs1'] Hfr1] & Hx & Hz & Hf1 & Hk1 & Hold & Hat1 & Hkeep)]; [left; split; [lia|by apply bind2_panic]|].
  rewrite (bind2_ret_l _ _ _ _ _ _ E). rewrite Hdev. pose proof (fo_ind _ _ _ Hf1 ltac:(congruence)) as Hgx. rewrite <- Hx in Hgx. destruct (gd_view _ _ _ Hgx) as [d Hd].
  destruct (bread_f s1 g1 x (g_bufs g1 - 1) Hr1 (ex_intro _ d Hd) ltac:(intros j; by rewrite Hh1, lookup_empty) ltac:(lia)) as (bp & s2 & E2 & _ & Hr2 & Hy2). set (g2 := mkg _ _ _ _) in Hr2.
  assert (Hh2 : g_held g2 = {[bp := x]}) by (cbn; by rewrite Hh1). run E2.
  assert (E3 : bdata bp s2 = Ret d s2) by (apply (bdata_f s2 g2 bp x d Hr2); [rewrite Hh2; apply lookup_singleton_eq|done]). run E3. cbv zeta.
  assert (Hsb2 : fsb s2 = fsb s) by (rewrite (fy_sb _ _ Hy2); apply Hm1).
  destruct (bmap_entry s2 g2 i a1 k x d bp Hr2 Hh2 Hdev Hx Hz Hd) as [[Ef E4]|(b & s3 & g3 & E4 & Hr3 & Hh3 & Hy3 & Hb3 & [[Hs3 Hs3'] Hfr3])]; rewrite ?Hsb2; try done; [cbn; lia|cbn; lia|left|right].
  { rewrite Hsb2 in Ef. cbn in Ef. split; [lia|]. rewrite <- E4, Hdev. done. }
  exists b, s3, g3, a1. replace (NDIRECT + k) with bn in Hb3 by (unfold k; lia). rewrite Hsb2 in Hb3, Hfr3. cbn in Hs3, Hs3', Hb3, Hfr3. split_and!; [rewrite <- E4, Hdev; done|done|done| | |split; lia].
  - assert (Hi1 : aget (icache s1) (ip - 1) = Some (set_addrs a1 i)) by (by eapply fmod_get). eapply fmod_trans; [exact Hm1|]. apply fstay_fmod; [done|by eapply fstay_trans].
  - destruct Hb3 as [B1 B2 B3 B4 B4' B5 B6 _ B7 B8]. rewrite Hat1 in * by done. split; try done.
    + intros bn' Hbn'. rewrite B2 by done. case_decide; [done|by apply Hat1].
    + intros Hnz. destruct (B3 Hnz) as (-> & -> & _). assert (Hi0 : ind (di_addrs (i_d i)) <> 0).
      { intros Hi0. apply Hnz. unfold blockof. rewrite (proj2 (Z.ltb_ge _ _) Hge), Hi0, (dk_zero _ _ Hk). done. }
      destruct (Hold Hi0) as [-> ->]. done.
    + intros Hz0. destruct (B4 Hz0) as [B41 B42]. split; [done|]. intros Hg. by apply B42, Hkeep.
    + destruct (decide (ind (di_addrs (i_d i)) = 0)) as [Hi0|Hi0]; [right|left; by destruct (Hold Hi0) as [_ ->]].
      intros Hg. by destruct (Hkeep _ Hg) as (_ & _ & H); apply (H Hi0).
    + intros y Hy Hyi. destruct (Hkeep y Hy) as (G1 & G2 & G3). rewrite B5; [done|done|]. rewrite <- Hx. destruct (decide (ind (di_addrs (i_d i)) = 0)) as [Hi0|Hi0]; [by apply G3|].
      destruct (Hold Hi0) as [_ ->]. congruence.
    + intros y Hy. apply B6. by apply Hkeep.
    + lia.
Qed.
End FsFile.
