(* ===== verification/FsCache.v ===== *)
(** * The inode cache

    References to inodes are counted, an inode has at most one entry in use, and
    [ilock] reads it from the disk once. *)

From S2P Require Import Prelude StringC Bytes Sleeplock UserMem Blocks Fs FsSpec FsFile.

Definition ikey (i : inode) : Z * Z := (i_dev i, i_inum i).

(** The references to an inode. *)
Fixpoint refs (c : list inode) (k : Z * Z) : Z :=
  match c with
  | [] => 0
  | i :: c => (if decide (ikey i = k) then i_ref i else 0) + refs c k
  end.

Record icache_ok (c : list inode) : Prop := {
  ic_ref : forall j i, aget c j = Some i -> 0 <= i_ref i;
  ic_uniq : forall j k a b, aget c j = Some a -> aget c k = Some b -> 0 < i_ref a -> 0 < i_ref b -> ikey a = ikey b -> j = k
}.

Lemma refs_insert c n i i' k : c !! n = Some i -> refs (<[n := i']> c) k = refs c k - (if decide (ikey i = k) then i_ref i else 0) + (if decide (ikey i' = k) then i_ref i' else 0).
Proof.
  revert n. induction c as [|x c IH]; intros [|n] Hn; [done|done| |].
  - injection Hn as ->. cbn [refs]. change (<[0%nat := i']> (i :: c)) with (i' :: c). cbn [refs]. lia.
  - change (<[Datatypes.S n := i']> (x :: c)) with (x :: <[n := i']> c). cbn [refs]. rewrite (IH n Hn). lia.
Qed.

(** Another count of an entry, or a new use of one that has none. *)
Lemma icache_ok_insert c j i i' : icache_ok c -> aget c j = Some i -> 0 <= i_ref i' ->
  (0 < i_ref i' -> ikey i' = ikey i /\ 0 < i_ref i \/ forall k b, aget c k = Some b -> 0 < i_ref b -> ikey b <> ikey i') -> icache_ok (<[Z.to_nat j := i']> c).
Proof.
  intros [H1 H2] Hj Hr Hk. pose proof (aget_Some_lt _ _ _ Hj) as Hlt. split.
  - intros x a. rewrite aget_insert by done. case_decide; [intros [= <-]; done|apply H1].
  - intros x y a b. rewrite !aget_insert by done. destruct (decide (x = j)) as [->|Hx], (decide (y = j)) as [->|Hy]; try done.
    + intros [= <-] Hb Ha' Hb' E. destruct (Hk Ha') as [[E' Hi]|Hno]; [symmetry; apply (H2 y j b i); [done|done|done|done|congruence]|]. by destruct (Hno y b Hb Hb').
    + intros Ha [= <-] Ha' Hb' E. destruct (Hk Hb') as [[E' Hi]|Hno]; [apply (H2 x j a i); [done|done|done|done|congruence]|]. by destruct (Hno x a Ha Ha').
    + apply H2.
Qed.

Definition matches (dev inum : Z) (i : inode) : bool := (0 <? i_ref i) && (i_dev i =? dev) && (i_inum i =? inum).

Lemma matches_spec dev inum i : matches dev inum i = true <-> 0 < i_ref i /\ ikey i = (dev, inum).
Proof. unfold matches, ikey. rewrite !andb_true_iff, Z.ltb_lt, !Z.eqb_eq. split; [intros [[? ->] ->]; done|intros [? [= -> ->]]; done]. Qed.

(** The entry of the inode, or none has it, and the first unused entry. *)
Lemma iget_scan_ok dev inum c : forall ip e, 0 < ip ->
  let '(r, e') := iget_scan c ip e dev inum in
  (ip <= r /\ exists i, aget c (r - ip) = Some i /\ matches dev inum i = true) \/
  r = 0 /\ (forall j i, aget c j = Some i -> matches dev inum i = false) /\
    (e <> 0 /\ e' = e \/ e = 0 /\ (e' = 0 /\ (forall j i, aget c j = Some i -> i_ref i <> 0) \/ ip <= e' /\ exists i, aget c (e' - ip) = Some i /\ i_ref i = 0)).
Proof.
  induction c as [|x c IH]; intros ip e Hip; cbn [iget_scan].
  { right. split_and!; [done|intros j i H; by apply aget_Some_lt in H; cbn in H; lia|]. destruct (decide (e = 0)) as [->|]; [right|by left].
    split; [done|left]. split; [done|]. intros j i H. apply aget_Some_lt in H. cbn in H. lia. }
  fold (matches dev inum x). destruct (matches dev inum x) eqn:Ex; [left; split; [lia|]; exists x; by rewrite Z.sub_diag|].
  assert (Hshift : forall r (P : inode -> Prop), ip + 1 <= r -> (exists i, aget c (r - (ip + 1)) = Some i /\ P i) -> exists i, aget (x :: c) (r - ip) = Some i /\ P i).
  { intros r P Hr (i & Hi & HP). exists i. rewrite aget_cons, (proj2 (Z.eqb_neq _ _)) by lia. by replace (r - ip - 1) with (r - (ip + 1)) by lia. }
  assert (Hcons : forall (P : inode -> Prop), P x -> (forall j i, aget c j = Some i -> P i) -> forall j i, aget (x :: c) j = Some i -> P i).
  { intros P Hx Hc j i. rewrite aget_cons. destruct (j =? 0); [by intros [= <-]|apply Hc]. }
  specialize (IH (ip + 1) (if (e =? 0) && (i_ref x =? 0) then ip else e) ltac:(lia)). destruct (iget_scan c _ _ dev inum) as [r e'].
  destruct IH as [[Hr Hi]|(-> & Hno & He)]; [left; split; [lia|by apply (Hshift r (fun i => matches dev inum i = true))]|right].
  split_and!; [done|by apply (Hcons (fun i => matches dev inum i = false))|]. destruct (Z.eqb_spec e 0) as [->|Hne]; cbn [andb] in He.
  - right. split; [done|]. destruct (Z.eqb_spec (i_ref x) 0) as [Hx0|Hx0].
    + right. destruct He as [[_ ->]|[? _]]; [|lia]. split; [lia|]. exists x. by rewrite Z.sub_diag.
    + destruct He as [[? _]|(_ & [(-> & Hall)|(Hr & Hi)])]; [done| |]; [left|right].
      * split; [done|]. by apply (Hcons (fun i => i_ref i <> 0)).
      * split; [lia|]. by apply (Hshift e' (fun i => i_ref i = 0)).
  - left. destruct He as [[_ ->]|[? _]]; done.
Qed.

Section FsCache.
Context {S U : Type} {HS : HasCtx S} {HO : BlockOps S} {HB : Blocks S} {HU : UserMem U}.

Abbreviation fss := (fss S U).

(** A thread that may call the inode cache. *)
Record iready (s : fss) : Prop := {
  ir_wf : cx_wf (cx s);
  ir_cache : icache_lock ∉ held (cx s);
  ir_lock : forall ip, inode_lock ip ∉ held (cx s)
}.

Lemma iready_touch s s' : touch (cx s') = touch (cx s) -> iready s -> iready s'.
Proof.
  intros E [H1 H2 H3]. assert (Eh : held (cx s') = held (cx s)) by exact (f_equal held E). assert (En : noff (cx s') = noff (cx s)) by exact (f_equal noff E).
  assert (Ei : intr (cx s') = intr (cx s)) by exact (f_equal intr E). split; [|by rewrite Eh|intros ip; by rewrite Eh]. destruct H1 as (A1 & A2 & A3). split_and!; [by rewrite En, Eh|by rewrite Eh|by rewrite En, Ei].
Qed.

Lemma frep_touch (s : fss) g : frep s g -> frep (set_cx (touch (cx s)) s) g.
Proof. intros Hr. apply bk_cx; [done| |done]. destruct (bk_ready _ _ Hr) as [H1 H2]. by split. Qed.

Lemma frep_icache (s : fss) g c : frep (set_icache c s) g <-> frep s g.
Proof. done. Qed.

(** The update of an entry under the lock of the cache. *)
Definition upd_i (ip : Z) (i' : inode) (s : fss) : fss := set_cx (touch (cx s)) (set_icache (<[Z.to_nat (ip - 1) := i']> (icache s)) s).

Lemma upd_i_ok ip i' (s : fss) g : frep s g -> frep (upd_i ip i' s) g /\ fmod ip i' s (upd_i ip i' s).
Proof.
  intros Hr. split; [exact (frep_touch s g Hr)|]. split; try done; [unfold upd_i; rewrite cx_set; apply touch_idemp|].
  change (fblk (upd_i ip i' s)) with (set_cx (touch (cx s)) (fblk s)). by rewrite bk_logged_cx.
Qed.

Lemma critical_i ip i (f : inode -> inode) (s : fss) : iready s -> aget (icache s) (ip - 1) = Some i ->
  exists s1, acquire icache_lock s = Ret tt s1 /\ icache s1 = icache s /\ (seti ip f ;;; release icache_lock) s1 = Ret tt (upd_i ip (f i) s).
Proof.
  intros [Hw Hl _] Hi. exists (set_cx (locked_cx icache_lock (cx s)) s). split_and!; [by apply acquire_ok|done|]. set (s1 := set_cx _ s). unfold seti.
  assert (Hi1 : aget (icache s1) (ip - 1) = Some i) by done.
  assert (E : (i <- geti ip ;; c <- gets icache ;; c <- unwrap (aset c (ip - 1) (f i)) ;; modify (set_icache c)) s1 = Ret tt (set_icache (<[Z.to_nat (ip - 1) := f i]> (icache s1)) s1)).
  { run (geti_ok ip i s1 Hi1). mstep. rewrite aset_is_Some by (by apply (aget_Some_lt _ _ _ Hi)). done. }
  run E. rewrite (release_ok icache_lock (cx s)); [|done|done|unfold s1; change (cx (set_icache ?c ?x)) with (cx x); by rewrite cx_set, locked_touch].
  unfold upd_i, s1. change (set_icache ?c (set_cx ?x s)) with (set_cx x (set_icache c s)). by rewrite set_cx_twice.
Qed.

Lemma idup_ok (s : fss) ip i : iready s -> aget (icache s) (ip - 1) = Some i -> idup ip s = Ret ip (upd_i ip (set_i_ref (s32 (i_ref i + 1)) i) s).
Proof.
  intros Hr Hi. destruct (critical_i ip i (fun i => set_i_ref (s32 (i_ref i + 1)) i) s Hr Hi) as (s1 & E1 & _ & E2). unfold idup. run E1. by rewrite (bind2_ret_l _ _ _ _ _ _ E2).
Qed.

(** [iget] on every branch. *)
Lemma iget_ok (s : fss) dev inum : iready s ->
  (exists ip i, aget (icache s) (ip - 1) = Some i /\ 0 < ip /\ 0 < i_ref i /\ ikey i = (dev, inum) /\ iget dev inum s = Ret ip (upd_i ip (set_i_ref (s32 (i_ref i + 1)) i) s)) \/
  (forall j i, aget (icache s) j = Some i -> 0 < i_ref i -> ikey i <> (dev, inum)) /\
  ((exists ip i, aget (icache s) (ip - 1) = Some i /\ 0 < ip /\ i_ref i = 0 /\ iget dev inum s = Ret ip (upd_i ip (mkin dev inum 1 (i_lock i) false (i_d i)) s)) \/
   (forall j i, aget (icache s) j = Some i -> i_ref i <> 0) /\ iget dev inum s = Panic "iget: no inodes").
Proof.
  intros Hr. pose proof (iget_scan_ok dev inum (icache s) 1 0 ltac:(lia)) as H. unfold iget. destruct Hr as [Hw Hl Hir] eqn:Er.
  rewrite (bind_ret_l _ _ _ _ _ (acquire_ok icache_lock s Hl)). set (s1 := set_cx _ s). rewrite (bind_ret_l (gets icache) _ s1 (icache s) s1) by done.
  destruct (iget_scan (icache s) 1 0 dev inum) as [r e]. destruct H as [(Hr1 & i & Hi & Hm)|(-> & Hno & He)].
  - left. exists r, i. apply matches_spec in Hm as [Hm1 Hm2]. rewrite (proj2 (Z.eqb_neq r 0)) by lia. cbn [negb]. split_and!; [done|lia|done|done|].
    destruct (critical_i r i (fun i => set_i_ref (s32 (i_ref i + 1)) i) s Hr Hi) as (s1' & E1 & _ & E2). rewrite (acquire_ok icache_lock s Hl) in E1. injection E1 as <-. by rewrite (bind2_ret_l _ _ _ _ _ _ E2).
  - right. split; [intros j i Hi Hp Hk; specialize (Hno j i Hi); by rewrite (proj2 (matches_spec dev inum i)) in Hno|].
    destruct He as [[? _]|(_ & [(-> & Hall)|(He1 & i & Hi & H0)])]; [done|by right|left]. exists e, i. rewrite (proj2 (Z.eqb_neq e 0)) by lia. cbn [negb Z.eqb]. split_and!; [done|lia|done|].
    destruct (critical_i e i (fun i => mkin dev inum 1 (i_lock i) false (i_d i)) s Hr Hi) as (s1' & E1 & _ & E2). rewrite (acquire_ok icache_lock s Hl) in E1. injection E1 as <-. by rewrite (bind2_ret_l _ _ _ _ _ _ E2).
Qed.
(** ** The lock of an inode *)

Definition mine (s : fss) : sleeplock := {| sl_locked := true; sl_pid := mypid (cx s) |}.

Section lock.
Context (ip : Z) (i : inode).

Definition get_l (s : fss) : option sleeplock := i_lock <$> aget (icache s) (ip - 1).
Definition put_l (v : sleeplock) (s : fss) : fss :=
  match aget (icache s) (ip - 1) with Some i => set_icache (<[Z.to_nat (ip - 1) := set_i_lock v i]> (icache s)) s | None => s end.

Lemma rd_lock_ok s l : get_l s = Some l -> rd_lock ip s = Ret l s.
Proof. unfold get_l, rd_lock. destruct (aget (icache s) (ip - 1)) as [j|] eqn:E; [|done]. intros [= <-]. by run (geti_ok ip j s E). Qed.

Lemma wr_lock_ok s l v : get_l s = Some l -> wr_lock ip v s = Ret tt (put_l v s).
Proof.
  unfold get_l, wr_lock, seti, put_l. destruct (aget (icache s) (ip - 1)) as [j|] eqn:E; [|done]. intros _. run (geti_ok ip j s E). mstep.
  rewrite aset_is_Some by (by apply (aget_Some_lt _ _ _ E)). done.
Qed.

Lemma put_l_cx s v c : put_l v (set_cx c s) = set_cx c (put_l v s).
Proof. unfold put_l. change (icache (set_cx c s)) with (icache s). by destruct (aget (icache s) (ip - 1)). Qed.

Lemma cx_put_l s v : cx (put_l v s) = cx s.
Proof. unfold put_l. by destruct (aget (icache s) (ip - 1)). Qed.

Lemma put_l_upd s v : aget (icache s) (ip - 1) = Some i -> set_cx (touch (cx s)) (put_l v s) = upd_i ip (set_i_lock v i) s.
Proof. intros E. unfold put_l. by rewrite E. Qed.

Lemma i_acquire_ok fuel (s : fss) : cx_wf (cx s) -> inode_lock ip ∉ held (cx s) -> aget (icache s) (ip - 1) = Some i -> i_lock i = sl_free -> (0 < fuel)%nat ->
  i_acquiresleep fuel ip s = Ret tt (upd_i ip (set_i_lock (mine s) i) s).
Proof.
  intros Hw Hl Hi Hf Hn. unfold i_acquiresleep. rewrite (acquiresleep_ok _ _ _ _ get_l put_l rd_lock_ok wr_lock_ok ltac:(done) put_l_cx cx_put_l); try done.
  - f_equal. by apply put_l_upd.
  - unfold get_l. by rewrite Hi, <- Hf.
Qed.

Lemma i_release_ok (s : fss) : cx_wf (cx s) -> inode_lock ip ∉ held (cx s) -> aget (icache s) (ip - 1) = Some i ->
  i_releasesleep ip s = Ret tt (upd_i ip (set_i_lock sl_free i) s).
Proof.
  intros Hw Hl Hi. unfold i_releasesleep. rewrite (releasesleep_ok _ _ _ get_l put_l wr_lock_ok ltac:(done) put_l_cx cx_put_l s (i_lock i)); try done.
  - f_equal. by apply put_l_upd.
  - unfold get_l. by rewrite Hi.
Qed.

Lemma i_holding_ok (s : fss) : cx_wf (cx s) -> inode_lock ip ∉ held (cx s) -> aget (icache s) (ip - 1) = Some i ->
  i_holdingsleep ip s = Ret (sl_locked (i_lock i) && (sl_pid (i_lock i) =? mypid (cx s))) (set_cx (touch (cx s)) s).
Proof.
  intros Hw Hl Hi. unfold i_holdingsleep. apply (holdingsleep_ok _ _ get_l rd_lock_ok ltac:(done)); try done.
  unfold get_l. by rewrite Hi.
Qed.
End lock.
Lemma upd_i_get ip i i' s : aget (icache s) (ip - 1) = Some i -> aget (icache (upd_i ip i' s)) (ip - 1) = Some i'.
Proof. intros Hi%aget_Some_lt. unfold upd_i. change (icache (set_cx ?c ?x)) with (icache x). cbn [icache set_icache]. rewrite aget_insert by done. by rewrite decide_True. Qed.

Lemma upd_i_iready ip i' s : iready s -> iready (upd_i ip i' s).
Proof. apply iready_touch. unfold upd_i. rewrite cx_set. apply touch_idemp. Qed.

(** The inode once it is locked: as it was, or read from its block [d]. *)
Definition locked_inode (s : fss) (i : inode) (d : list Z) : inode :=
  set_i_lock (mine s) (if i_valid i then i else set_i_valid true (set_i_d (get_dinode (doff (i_inum i)) d) i)).

Lemma ilock_ok fuel (s : fss) g ip i d : iready s -> frep s g -> g_held g = ∅ -> (0 < g_bufs g)%nat -> (0 < fuel)%nat -> ip <> 0 -> aget (icache s) (ip - 1) = Some i ->
  0 < i_ref i -> i_lock i = sl_free -> i_dev i = bk_dev -> g_view g !! IBLOCK (i_inum i) (fsb s) = Some d ->
  if i_valid i || negb (di_type (get_dinode (doff (i_inum i)) d) =? 0) then exists s', ilock fuel ip s = Ret tt s' /\ frep s' g /\ fmod ip (locked_inode s i d) s s'
  else ilock fuel ip s = Panic "ilock: no type".
Proof.
  intros Hr Hg Hh Hb Hf Hip Hi Href Hlk Hdev Hd. unfold ilock. rewrite (proj2 (Z.eqb_neq ip 0)) by done. rewrite (bind_ret_l _ _ _ _ _ (geti_ok ip i s Hi)).
  rewrite (proj2 (Z.ltb_ge _ _)) by lia. pose proof (i_acquire_ok ip i fuel s (ir_wf _ Hr) (ir_lock _ Hr ip) Hi Hlk Hf) as E1. set (i1 := set_i_lock (mine s) i) in E1. set (s1 := upd_i ip i1 s) in E1.
  destruct (upd_i_ok ip i1 s g Hg) as [Hg1 Hm1]. fold s1 in Hg1, Hm1. pose proof (upd_i_get ip i i1 s Hi) as Hi1. fold s1 in Hi1. rewrite (bind_ret_l _ _ _ _ _ E1), (bind_ret_l _ _ _ _ _ (geti_ok ip i1 s1 Hi1)).
  unfold locked_inode. change (i_valid i1) with (i_valid i). destruct (i_valid i); cbn [orb]; [by exists s1|].
  assert (Hd1 : g_view g !! IBLOCK (i_inum i1) (fsb s1) = Some d) by exact Hd.
  destruct (bread_f s1 g _ (g_bufs g - 1) Hg1 (ex_intro _ d Hd1) ltac:(intros j; by rewrite Hh, lookup_empty) ltac:(lia)) as (bp & s2 & E2 & _ & Hg2 & Hy2).
  set (g2 := mkg _ _ _ _) in Hg2. assert (Hb2 : g_held g2 !! bp = Some (IBLOCK (i_inum i1) (fsb s1))) by (cbn; by rewrite lookup_insert_eq).
  rewrite (bind_ret_l (gets fsb) _ s1 (fsb s1) s1) by done. rewrite <- Hdev in E2. rewrite (bind_ret_l _ _ _ _ _ E2), (bind_ret_l _ _ _ _ _ (bdata_f s2 g2 bp _ d Hg2 Hb2 Hd1)).
  change (i_inum i1) with (i_inum i). set (di := get_dinode _ d). assert (Hi2 : aget (icache s2) (ip - 1) = Some i1) by (by rewrite (fy_icache _ _ Hy2)). unfold setd.
  destruct (seti_ok ip i1 (fun i => set_i_d di i) s2 Hi2) as (s3 & E3 & Hm3 & Hb3). rewrite (bind_ret_l _ _ _ _ _ E3). assert (Hg3 : frep s3 g2) by (unfold frep; by rewrite Hb3).
  destruct (brelse_f s3 g2 bp _ Hg3 Hb2) as (s4 & E4 & Hg4 & Hy4). rewrite (bind_ret_l _ _ _ _ _ E4). assert (Hi4 : aget (icache s4) (ip - 1) = Some (set_i_d di i1)) by (rewrite (fy_icache _ _ Hy4); by eapply fmod_get).
  destruct (seti_ok ip _ (set_i_valid true) s4 Hi4) as (s5 & E5 & Hm5 & Hb5). rewrite (bind_ret_l _ _ _ _ _ E5). assert (Hi5 : aget (icache s5) (ip - 1) = Some (set_i_valid true (set_i_d di i1))) by (by eapply fmod_get).
  rewrite (bind_ret_l _ _ _ _ _ (geti_ok ip _ s5 Hi5)). change (di_type (i_d (set_i_valid true (set_i_d di i1)))) with (di_type di). destruct (di_type di =? 0); [done|]. cbn [negb].
  exists s5. split_and!; [done| |].
  - unfold frep. rewrite Hb5. cbn in Hg4. rewrite Hh, insert_empty, delete_singleton_eq, <- Hh in Hg4. replace (Datatypes.S (g_bufs g - 1)) with (g_bufs g) in Hg4 by lia. by destruct g.
  - eapply fmod_trans; [exact Hm1|]. eapply fmod_trans; [exact (fstay_fmod _ _ _ _ Hi1 Hy2)|]. eapply fmod_trans; [exact Hm3|]. eapply fmod_trans; [exact (fstay_fmod _ _ _ _ (fmod_get _ _ _ _ _ Hi2 Hm3) Hy4)|exact Hm5].
Qed.

Lemma iunlock_ok (s : fss) g ip i : iready s -> frep s g -> ip <> 0 -> aget (icache s) (ip - 1) = Some i -> 0 < i_ref i -> i_lock i = mine s ->
  exists s', iunlock ip s = Ret tt s' /\ frep s' g /\ fmod ip (set_i_lock sl_free i) s s'.
Proof.
  intros Hr Hg Hip Hi Href Hl. unfold iunlock. rewrite (proj2 (Z.eqb_neq ip 0)) by done.
  pose proof (i_holding_ok ip i s (ir_wf _ Hr) (ir_lock _ Hr ip) Hi) as E1. rewrite Hl in E1. cbn [sl_locked sl_pid mine andb] in E1. rewrite Z.eqb_refl in E1. run E1. set (s1 := set_cx _ s).
  assert (Hr1 : iready s1) by (apply (iready_touch s); [unfold s1; rewrite cx_set; apply touch_idemp|done]). assert (Hi1 : aget (icache s1) (ip - 1) = Some i) by done.
  run (geti_ok ip i s1 Hi1). cbn [negb orb]. rewrite (proj2 (Z.ltb_ge _ _)) by lia.
  destruct (upd_i_ok ip (set_i_lock sl_free i) s1 g (frep_touch s g Hg)) as [Hg2 Hm2].
  exists (upd_i ip (set_i_lock sl_free i) s1). split_and!; [by apply i_release_ok; [apply Hr1|apply Hr1|]|done|].
  eapply fmod_trans; [|exact Hm2]. apply fstay_fmod; [done|]. split; try done; [unfold s1; rewrite cx_set; apply touch_idemp|]. change (fblk s1) with (set_cx (touch (cx s)) (fblk s)). by rewrite bk_logged_cx.
Qed.

(** [iput] of an inode that keeps other references or links. *)
Lemma iput_keep fuel (s : fss) ip i : iready s -> aget (icache s) (ip - 1) = Some i -> (i_ref i =? 1) && i_valid i && (di_nlink (i_d i) =? 0) = false ->
  iput fuel ip s = Ret tt (upd_i ip (set_i_ref (s32 (i_ref i - 1)) i) s).
Proof.
  intros Hr Hi Hc. destruct (critical_i ip i (fun i => set_i_ref (s32 (i_ref i - 1)) i) s Hr Hi) as (s1 & E1 & Hic & E2). unfold iput. run E1.
  assert (Hi1 : aget (icache s1) (ip - 1) = Some i) by (by rewrite Hic). run (geti_ok ip i s1 Hi1). rewrite Hc. mstep. exact E2.
Qed.

(** ** Counting references *)

(** The cache stays in order, and the inode [k] has [n] more references. *)
Record counted (k : Z * Z) (n : Z) (s s' : fss) : Prop := {
  ct_ok : icache_ok (icache s');
  ct_ready : iready s';
  ct_refs : forall k', refs (icache s') k' = refs (icache s) k' + (if decide (k = k') then n else 0);
  ct_sb : fsb s' = fsb s;
  ct_cwd : cwd s' = cwd s
}.

Lemma upd_i_counted (s : fss) ip i i' n : iready s -> icache_ok (icache s) -> aget (icache s) (ip - 1) = Some i -> i_ref i' = i_ref i + n -> 0 <= i_ref i' ->
  ikey i' = ikey i /\ 0 < i_ref i \/ i_ref i = 0 /\ (forall k b, aget (icache s) k = Some b -> 0 < i_ref b -> ikey b <> ikey i') -> counted (ikey i') n s (upd_i ip i' s).
Proof.
  intros Hr Hc Hi Hn H0 Hk. split; [| |intros k|done|done].
  - apply (icache_ok_insert _ _ i); [done|done|done|]. intros _. destruct Hk as [[? ?]|[? ?]]; [left; done|by right].
  - by apply upd_i_iready.
  - unfold upd_i. change (icache (set_cx ?c ?x)) with (icache x). cbn [icache set_icache]. rewrite (refs_insert _ _ i) by (by apply aget_lookup). rewrite Hn.
    destruct Hk as [[-> ?]|[-> _]]; repeat case_decide; lia.
Qed.

(** The same for an entry that other steps have changed, too. *)
Lemma fmod_counted (s s' : fss) ip i i' n : iready s -> icache_ok (icache s) -> aget (icache s) (ip - 1) = Some i -> fmod ip i' s s' -> ikey i' = ikey i -> 0 < i_ref i -> i_ref i' = i_ref i + n -> 0 <= i_ref i' ->
  counted (ikey i) n s s'.
Proof.
  intros Hr Hc Hi Hm Hk H0 Hn H0'. split; rewrite ?(fm_icache _ _ _ _ Hm).
  - apply (icache_ok_insert _ _ i); try done. intros _. by left.
  - apply (iready_touch s); [apply Hm|done].
  - intros k. rewrite (refs_insert _ _ i) by (by apply aget_lookup). rewrite Hn, Hk. case_decide; lia.
  - apply Hm.
  - apply Hm.
Qed.

(** An inode that is in use gets [n] more references. *)
Lemma ref_counted (s : fss) ip i n : iready s -> icache_ok (icache s) -> aget (icache s) (ip - 1) = Some i -> 0 < i_ref i -> 0 <= i_ref i + n < 2 ^ 31 ->
  counted (ikey i) n s (upd_i ip (set_i_ref (s32 (i_ref i + n)) i) s).
Proof. intros Hr Hc Hi H0 Hn. apply (upd_i_counted s ip i (set_i_ref _ i)); cbn; rewrite ?s32_small by lia; try done; [lia|by left]. Qed.
End FsCache.
