(* ===== verification/FsRead.v ===== *)
(** * Reading and writing files

    [readi] copies bytes of the file, [writei] replaces and adds bytes. *)

From S2P Require Import Prelude StringC Bytes Sleeplock UserMem Blocks Fs FsSpec FsFile.

(** The byte at offset [off] of the file. *)
Definition fbyte (v : gmap Z (list Z)) (a : list Z) (off : Z) : Z :=
  match v !! blockof v a (off / 1024) with Some d => default 0 (d !! Z.to_nat (off mod 1024)) | None => 0 end.

Definition fdata (v : gmap Z (list Z)) (a : list Z) (off : Z) (n : nat) : list Z := (fun k => fbyte v a (off + Z.of_nat k)) <$> seq 0 n.

(** Every block of a file of this size is there. *)
Definition no_holes (v : gmap Z (list Z)) (a : list Z) (size : Z) : Prop := forall bn, 0 <= bn -> bn * 1024 < size -> blockof v a bn <> 0.

Lemma fdata_length v a off n : length (fdata v a off n) = n.
Proof. unfold fdata. by rewrite length_fmap, length_seq. Qed.

Lemma fdata_lookup v a off n k : (k < n)%nat -> fdata v a off n !! k = Some (fbyte v a (off + Z.of_nat k)).
Proof. intros Hk. unfold fdata. rewrite list_lookup_fmap, lookup_seq_lt by done. done. Qed.

Lemma fdata_app v a off n m : fdata v a off (n + m) = fdata v a off n ++ fdata v a (off + Z.of_nat n) m.
Proof.
  apply list_eq. intros k. destruct (decide (k < n + m)%nat) as [Hk|Hk].
  - rewrite fdata_lookup by done. destruct (decide (k < n)%nat) as [Hn|Hn].
    + by rewrite lookup_app_l, fdata_lookup by (rewrite ?fdata_length; done).
    + rewrite lookup_app_r by (rewrite fdata_length; lia). rewrite fdata_length, fdata_lookup by lia. do 2 f_equal. lia.
  - by rewrite !lookup_ge_None_2 by (rewrite ?length_app, !fdata_length; lia).
Qed.

(** The part of one block. *)
Lemma fdata_block v a off m d : 0 <= off -> (Z.to_nat (off mod 1024) + m <= 1024)%nat -> v !! blockof v a (off / 1024) = Some d -> length d = bsize ->
  fdata v a off m = slice (Z.to_nat (off mod 1024)) m d.
Proof.
  intros Ho Hm Hd Hl. pose proof (Z.mod_pos_bound off 1024 ltac:(lia)) as Hr. apply list_eq. intros k. destruct (decide (k < m)%nat) as [Hk|Hk].
  - rewrite fdata_lookup by done. unfold slice. rewrite lookup_take_lt, lookup_drop by done. unfold fbyte.
    assert (E : (off + Z.of_nat k) / 1024 = off / 1024 /\ (off + Z.of_nat k) mod 1024 = off mod 1024 + Z.of_nat k) by dlia. destruct E as [-> ->].
    rewrite Hd. replace (Z.to_nat (off mod 1024 + Z.of_nat k)) with (Z.to_nat (off mod 1024) + k)%nat by lia.
    destruct (lookup_lt_is_Some_2 d (Z.to_nat (off mod 1024) + k)) as [x ->]; [rewrite Hl; unfold bsize; lia|done].
  - rewrite !lookup_ge_None_2; [done| |rewrite fdata_length; lia]. unfold slice. rewrite length_take. lia.
Qed.

Lemma copied_app rd rd1 rd2 a src1 src2 j : copied rd rd1 a src1 (length src1) -> copied rd1 rd2 (a + Z.of_nat (length src1)) src2 j -> (j <= length src2)%nat ->
  copied rd rd2 a (src1 ++ src2) (length src1 + j).
Proof.
  intros H1 H2 Hj x. rewrite (H2 x), (H1 x). destruct (decide (a + Z.of_nat (length src1) <= x < _)) as [Hx|Hx].
  - rewrite decide_True by lia. rewrite lookup_app_r by lia. f_equal. lia.
  - destruct (decide (a <= x < a + Z.of_nat (length src1))) as [Hy|Hy]; [rewrite decide_True by lia; by rewrite lookup_app_l by lia|by rewrite decide_False by lia].
Qed.

Lemma copied_less rd rd' a src src' j : copied rd rd' a src j -> (j <= length src)%nat -> copied rd rd' a (src ++ src') j.
Proof. intros H Hj x. rewrite (H x). case_decide; [|done]. by rewrite lookup_app_l by lia. Qed.

Lemma MAXFILE_eq : MAXFILE = 268.
Proof. done. Qed.

(** A block boundary is not crossed in a round. *)
Definition chunk (off left : Z) : Z := Z.min left (1024 - off mod 1024).

Lemma chunk_ok off left : 0 < left -> 0 < chunk off left <= 1024 /\ chunk off left <= left /\ off mod 1024 + chunk off left <= 1024.
Proof. intros Hl. unfold chunk. pose proof (Z.mod_pos_bound off 1024 ltac:(lia)). lia. Qed.

(** The rounds left are enough. *)
Definition enough (rounds : nat) (off left : Z) : Prop := left = 0 \/ off mod 1024 + left <= 1024 * Z.of_nat rounds.

Lemma enough_next rounds off left : 0 <= off -> 0 < left -> enough (Datatypes.S rounds) off left -> enough rounds (off + chunk off left) (left - chunk off left).
Proof. intros Ho Hl [H|H]; [lia|]. unfold enough, chunk. destruct (Z.min_spec left (1024 - off mod 1024)) as [[H1 ->]|[H1 ->]]; [left; lia|right; dlia]. Qed.

Lemma enough_start off n : 0 <= n -> enough (Z.to_nat (n / 1024) + 2) off n.
Proof. intros Hn. right. dlia. Qed.

Section FsRead.
Context {S U : Type} {HS : HasCtx S} {HO : BlockOps S} {HB : Blocks S} {HU : UserMem U}.

Abbreviation fss := (fss S U).

Lemma onu_ok {A} (m : M (umem U) A) (s : fss) r um : m (fum s) = Ret r um -> onu m s = Ret r (set_fum um s).
Proof. apply zoom_ret. Qed.

(** A step that uses the disk and the memory. *)
Record fcopy (um : umem U) (s s' : fss) : Prop := {
  fc_sb : fsb s' = fsb s;
  fc_icache : icache s' = icache s;
  fc_um : fum s' = um;
  fc_cwd : cwd s' = cwd s;
  fc_cx : touch (cx s') = touch (cx s);
  fc_logged : bk_logged (fblk s) ⊆ bk_logged (fblk s')
}.

Lemma fcopy_trans um um' s s1 s2 : fcopy um s s1 -> fcopy um' s1 s2 -> fcopy um' s s2.
Proof. intros [A1 A2 A3 A4 A5 A6] [B1 B2 B3 B4 B5 B6]. split; [congruence..|]. by etransitivity. Qed.

Lemma fstay_copy (s s' : fss) : fstay s s' -> fcopy (fum s) s s'.
Proof. by intros [A1 A2 A3 A4 A5 A6]. Qed.

Lemma fcopy_set um s : fcopy um s (set_fum um s).
Proof. by split. Qed.

(** A block of the file that is there. *)
Lemma bmap_there (s : fss) g ip i bn : frep s g -> g_held g = ∅ -> aget (icache s) (ip - 1) = Some i ->
  disk_ok (g_view g) (fsb s) -> file_ok (g_view g) (fsb s) (di_addrs (i_d i)) -> i_dev i = bk_dev -> 0 <= bn < MAXFILE -> (6 <= g_bufs g)%nat ->
  blockof (g_view g) (di_addrs (i_d i)) bn <> 0 ->
  exists s', bmap ip bn s = Ret (blockof (g_view g) (di_addrs (i_d i)) bn) s' /\ frep s' g /\ fstay s s'.
Proof.
  intros Hr Hh Hi Hk Hf Hdev Hbn Hn Hnz. pose proof (fo_len _ _ _ Hf) as Hl. unfold bmap. run (geti_ok ip i s Hi). destruct (Z.ltb_spec bn NDIRECT) as [Hlt|Hge].
  - destruct (aget_is_Some (di_addrs (i_d i)) bn) as [x Hx]; [rewrite Hl; unfold NDIRECT in *; lia|]. rewrite Hx. mstep.
    unfold blockof in *. rewrite (proj2 (Z.ltb_lt _ _) Hlt), Hx in *. cbn in *. rewrite (proj2 (Z.eqb_neq x 0)) by done. exists s. split_and!; [done|done|apply fstay_refl].
  - cbv zeta. rewrite (proj2 (Z.ltb_lt (bn - NDIRECT) NINDIRECT)) by (unfold MAXFILE in *; lia).
    assert (Hi0 : ind (di_addrs (i_d i)) <> 0).
    { intros Hi0. apply Hnz. unfold blockof. rewrite (proj2 (Z.ltb_ge _ _) Hge), Hi0, (dk_zero _ _ Hk). done. }
    destruct (aget_is_Some (di_addrs (i_d i)) NDIRECT) as [x Hx]; [rewrite Hl; done|]. assert (Hix : ind (di_addrs (i_d i)) = x) by (unfold ind; by rewrite Hx).
    rewrite Hx. mstep. rewrite (proj2 (Z.eqb_neq x 0)) by congruence. mstep. rewrite Hdev, <- Hix. destruct (gd_view _ _ _ (fo_ind _ _ _ Hf Hi0)) as [d Hd].
    destruct (look_f s g (ind (di_addrs (i_d i))) d (g_bufs g - 1) Hr Hd ltac:(intros j; by rewrite Hh, lookup_empty) ltac:(lia)) as (bp & s1 & s2 & E1 & E2 & E3 & Hr2 & _ & Hy2).
    run E1. run E2. cbv zeta. unfold blockof in *. rewrite (proj2 (Z.ltb_ge _ _) Hge), Hd in *. rewrite (proj2 (Z.eqb_neq _ 0) Hnz). mstep. run E3. by exists s2.
Qed.

(** One round: the bytes of one block, or those before the first address that
    cannot be accessed. *)
Definition read_outcome (user : bool) (s : fss) (g : gblocks) (dst : Z) (src : list Z) (j : nat) (um : umem U) (s' : fss) : Prop :=
  frep s' g /\ fcopy um s s' /\ um_inv (um_user um) /\ copied (view user (fum s)) (view user um) dst src j /\
  (forall x, view (negb user) um x = view (negb user) (fum s) x).

Lemma readi_round {A} ip i user g s dst off m (k : Z -> M fss A) : i_dev i = bk_dev -> g_held g = ∅ -> (6 <= g_bufs g)%nat -> no_holes (g_view g) (di_addrs (i_d i)) (di_size (i_d i)) ->
  di_size (i_d i) <= MAXFILE * 1024 -> frep s g -> aget (icache s) (ip - 1) = Some i -> disk_ok (g_view g) (fsb s) -> file_ok (g_view g) (fsb s) (di_addrs (i_d i)) ->
  0 <= off -> 0 < m -> off mod 1024 + m <= 1024 -> off + m <= di_size (i_d i) -> 0 <= dst -> um_inv (um_user (fum s)) -> (user = false -> mapped (um_kern (fum s)) dst m) ->
  exists um s' j r, (b <- bmap ip (off / 1024) ;; bp <- bread (i_dev i) b ;; d <- bdata bp ;;
      r <- onu (either_copyout user dst (slice (Z.to_nat (off mod 1024)) (Z.to_nat m) d)) ;; brelse bp ;;; k r) s = k r s' /\
    read_outcome user s g dst (fdata (g_view g) (di_addrs (i_d i)) off (Z.to_nat m)) j um s' /\ complete (view user (fum s)) dst r j (Z.to_nat m).
Proof.
  intros Hdev Hh Hn Hnh Hmax Hr Hi Hk Hf Ho Hm Hm2 Hoff Hd Hu Hmap. set (bn := off / 1024). assert (Hbn : 0 <= bn < MAXFILE /\ bn * 1024 < di_size (i_d i)) by (unfold bn; dlia).
  destruct (bmap_there s g ip i bn Hr Hh Hi Hk Hf Hdev (proj1 Hbn) Hn (Hnh bn ltac:(lia) ltac:(lia))) as (s1 & E1 & Hr1 & Hy1). set (b := blockof _ _ _) in *.
  destruct (gd_view _ _ _ (proj1 (fo_blk _ _ _ Hf bn (proj1 Hbn) (Hnh bn ltac:(lia) ltac:(lia))))) as [d Hdb]. fold b in Hdb. pose proof (dk_len _ _ Hk _ _ Hdb) as Hl.
  run E1. rewrite Hdev. destruct (bread_f s1 g b (g_bufs g - 1) Hr1 (ex_intro _ d Hdb) ltac:(intros x; by rewrite Hh, lookup_empty) ltac:(lia)) as (bp & s2 & E2 & _ & Hr2 & Hy2).
  run E2. set (g2 := mkg _ _ _ _) in Hr2. assert (Hb2 : g_held g2 !! bp = Some b) by (cbn; by rewrite lookup_insert_eq). run (bdata_f s2 g2 bp b d Hr2 Hb2 Hdb).
  rewrite <- (fdata_block _ (di_addrs (i_d i)) off (Z.to_nat m) d) by (done || dlia). set (src := fdata _ _ _ _). assert (Hls : length src = Z.to_nat m) by apply fdata_length.
  assert (Hum : fum s2 = fum s) by (rewrite (fy_um _ _ Hy2); apply Hy1).
  destruct (either_copyout_ok user (fum s2) dst src) as (r & um & j & E3 & Hi3 & Hc3 & Hv3 & Hj3); rewrite ?Hum; [done|done|rewrite Hls, Z2Nat.id by lia; done|]. rewrite Hum in *.
  run (onu_ok (either_copyout user dst src) s2 r um ltac:(rewrite Hum; exact E3)).
  destruct (brelse_f (set_fum um s2) g2 bp b Hr2 Hb2) as (s4 & E4 & Hr4 & Hy4). run E4. exists um, s4, j, r. split; [done|]. split; [|by rewrite <- Hls]. split_and!; try done.
  - cbn in Hr4. rewrite Hh, insert_empty, delete_singleton_eq, <- Hh in Hr4. replace (Datatypes.S (g_bufs g - 1)) with (g_bufs g) in Hr4 by lia. by destruct g.
  - eapply fcopy_trans; [apply fstay_copy; by eapply fstay_trans|]. eapply fcopy_trans; [apply (fcopy_set um)|]. exact (fstay_copy _ _ Hy4).
Qed.

Lemma view_mapped user um um' dst src j len : copied (view user um) (view user um') dst src j -> (j <= length src)%nat -> (user = false -> mapped (um_kern um) dst len) ->
  forall m, 0 <= m <= len -> user = false -> mapped (um_kern um') (dst + m) (len - m).
Proof.
  intros Hc Hj Hmap m Hm ->. intros k Hk. specialize (Hmap eq_refl (m + k) ltac:(lia)). specialize (Hc (dst + m + k)). cbn [view] in Hc. replace (dst + (m + k)) with (dst + m + k) in Hmap by lia.
  rewrite Hc. case_decide; [|done]. apply lookup_lt_is_Some_2. lia.
Qed.

Lemma readi_loop_ok ip i user g n : i_dev i = bk_dev -> g_held g = ∅ -> (6 <= g_bufs g)%nat -> no_holes (g_view g) (di_addrs (i_d i)) (di_size (i_d i)) ->
  di_size (i_d i) <= MAXFILE * 1024 ->
  forall rounds s dst off tot, frep s g -> aget (icache s) (ip - 1) = Some i -> disk_ok (g_view g) (fsb s) -> file_ok (g_view g) (fsb s) (di_addrs (i_d i)) ->
  0 <= off -> 0 <= tot <= n -> off + (n - tot) <= di_size (i_d i) -> 0 <= dst -> dst + (n - tot) < 2 ^ 64 -> um_inv (um_user (fum s)) ->
  (user = false -> mapped (um_kern (fum s)) dst (n - tot)) -> enough rounds off (n - tot) ->
  exists um' s' j, readi_loop (Datatypes.S rounds) ip user dst off tot n s = Ret tt s' /\
    read_outcome user s g dst (fdata (g_view g) (di_addrs (i_d i)) off (Z.to_nat (n - tot))) j um' s' /\
    exists r, complete (view user (fum s)) dst r j (Z.to_nat (n - tot)).
Proof.
  intros Hdev Hh Hn Hnh Hmax. induction rounds as [|rounds IH]; intros s dst off tot Hr Hi Hk Hf Ho Ht Hoff Hd Hd2 Hu Hmap He;
    (destruct (decide (n <= tot)) as [Hge|Hlt]; [cbn [readi_loop]; rewrite (proj2 (Z.ltb_ge _ _) Hge); exists (fum s), s, O; replace (Z.to_nat (n - tot)) with O by lia;
      split; [done|]; split; [split_and!; [done|by split|done|intros x; by rewrite decide_False by lia|done]|exists 0; by left]|]);
    [exfalso; destruct He; [lia|pose proof (Z.mod_pos_bound off 1024); lia]|].
  set (lf := n - tot) in *. destruct (chunk_ok off lf ltac:(lia)) as (Hm1 & Hm2 & Hm3). pose proof (enough_next rounds off lf Ho ltac:(lia) He) as He'.
  remember (Datatypes.S rounds) as r1 eqn:Er1. cbn [readi_loop]. rewrite (proj2 (Z.ltb_lt tot n)) by lia. cbn [negb]. run (geti_ok ip i s Hi). fold lf. fold (chunk off lf). set (m := chunk off lf) in *.
  destruct (readi_round ip i user g s dst off m (fun r => if r =? -1 then ret tt else readi_loop r1 ip user (u64 (dst + m)) (u32 (off + m)) (tot + m) n)
    Hdev Hh Hn Hnh Hmax Hr Hi Hk Hf Ho ltac:(lia) Hm3 ltac:(lia) Hd Hu) as (um & s1 & j & r & E & (Hr1 & Hc1 & Hi1 & Hcp & Hv1) & Hj).
  { intros Hf' k Hk'. apply Hmap; [done|lia]. }
  cbv zeta. rewrite E. replace (Z.to_nat lf) with (Z.to_nat m + Z.to_nat (lf - m))%nat by lia. rewrite fdata_app, Z2Nat.id by lia.
  destruct Hj as [[-> ->]|(-> & Hj & Hnone)]; cbn [Z.eqb].
  - change (0 =? -1) with false. cbv iota. rewrite (u64_small (dst + m)), (u32_small (off + m)) by (rewrite MAXFILE_eq in *; lia).
    replace (n - (tot + m)) with (lf - m) in * by (unfold lf; lia). subst r1.
    destruct (IH s1 (dst + m) (off + m) (tot + m)) as (um' & s2 & j & E' & (Hr2 & Hc2 & Hi2 & Hcp2 & Hv2) & r & Hj2);
      rewrite ?(fc_um _ _ _ Hc1), ?(fc_sb _ _ _ Hc1), ?(fc_icache _ _ _ Hc1) in *; replace (n - (tot + m)) with (lf - m) in * by (unfold lf; lia); try done; try lia.
    { eapply view_mapped; [exact Hcp|rewrite fdata_length; lia|done|lia]. }
    exists um', s2, (Z.to_nat m + j)%nat. split; [done|]. split; [split_and!; [done|by eapply fcopy_trans|done| |intros x; by rewrite Hv2]|].
    + pose proof (copied_app (view user (fum s)) (view user um) (view user um') dst (fdata (g_view g) (di_addrs (i_d i)) off (Z.to_nat m)) (fdata (g_view g) (di_addrs (i_d i)) (off + m) (Z.to_nat (lf - m))) j) as Happ.
      rewrite !fdata_length, Z2Nat.id in Happ by lia. apply Happ; [done|done|]. destruct Hj2 as [[_ ->]|(_ & Hj2 & _)]; lia.
    + exists r. destruct Hj2 as [[-> ->]|(-> & Hj2 & Hnone)]; [left; split; lia|right]. split_and!; [done|lia|]. rewrite Hcp, decide_False in Hnone by lia. rewrite <- Hnone. f_equal. lia.
  - change (-1 =? -1) with true. cbv iota. exists um, s1, j. split; [done|]. split; [split_and!; try done; apply copied_less; [done|rewrite fdata_length; lia]|].
    exists (-1). right. split_and!; [done|lia|done].
Qed.

(** [readi] clips the count to the size of the file, copies these bytes, and
    returns the clipped count, also when the copy stopped at an address that
    cannot be accessed. *)
Lemma readi_ok ip i user g s dst off n : i_dev i = bk_dev -> g_held g = ∅ -> (6 <= g_bufs g)%nat -> no_holes (g_view g) (di_addrs (i_d i)) (di_size (i_d i)) ->
  0 <= di_size (i_d i) <= MAXFILE * 1024 -> frep s g -> aget (icache s) (ip - 1) = Some i -> disk_ok (g_view g) (fsb s) -> file_ok (g_view g) (fsb s) (di_addrs (i_d i)) ->
  0 <= off < 2 ^ 32 -> 0 <= n < 2 ^ 32 -> 0 <= dst -> dst + n < 2 ^ 64 -> um_inv (um_user (fum s)) ->
  let cnt := Z.min n (di_size (i_d i) - off) in
  (user = false -> mapped (um_kern (fum s)) dst cnt) ->
  if (di_size (i_d i) <? off) || (2 ^ 32 <=? off + n) then readi ip user dst off n s = Ret (-1) s
  else exists um s' j r, readi ip user dst off n s = Ret cnt s' /\
    read_outcome user s g dst (fdata (g_view g) (di_addrs (i_d i)) off (Z.to_nat cnt)) j um s' /\ complete (view user (fum s)) dst r j (Z.to_nat cnt).
Proof.
  intros Hdev Hh Hn Hnh Hmax Hr Hi Hk Hf Ho Hn0 Hd Hd2 Hu cnt Hmap. unfold readi. rewrite (bind_ret_l _ _ _ _ _ (geti_ok ip i s Hi)).
  assert (Hov : (u32 (off + n) <? off) = (2 ^ 32 <=? off + n)).
  { destruct (Z.leb_spec (2 ^ 32) (off + n)); [apply Z.ltb_lt|apply Z.ltb_ge]; unfold u32; dlia. }
  cbv zeta. rewrite Hov. destruct (Z.ltb_spec (di_size (i_d i)) off) as [|Hs]; [done|]. destruct (Z.leb_spec (2 ^ 32) (off + n)) as [|Hov2]; [done|]. cbn [orb].
  rewrite (u32_small (off + n)) by lia. rewrite MAXFILE_eq in Hmax.
  assert (Ec : (if di_size (i_d i) <? off + n then u32 (di_size (i_d i) - off) else n) = cnt).
  { unfold cnt. destruct (Z.ltb_spec (di_size (i_d i)) (off + n)); [rewrite u32_small by lia|]; lia. }
  rewrite Ec. assert (Hc0 : 0 <= cnt) by (unfold cnt; lia).
  destruct (readi_loop_ok ip i user g cnt Hdev Hh Hn Hnh ltac:(rewrite MAXFILE_eq; lia) (Z.to_nat (cnt / 1024) + 2) s dst off 0) as (um & s' & j & E & Ho' & r & Hj);
    rewrite ?Z.sub_0_r; try done; try (unfold cnt; lia); [by apply enough_start|].
  rewrite !Z.sub_0_r in *. exists um, s', j, r. split; [|done].
  replace (io_fuel cnt) with (Datatypes.S (Z.to_nat (cnt / 1024) + 2)) by (unfold io_fuel; lia). run E. rewrite s32_small by (unfold cnt; lia). done.
Qed.
End FsRead.
