(* ===== verification/FsWrite.v ===== *)
(** * Writing files

    [writei] allocates the blocks that are missing, replaces the bytes, and
    writes the inode back. *)

From S2P Require Import Prelude StringC Bytes Sleeplock UserMem Blocks Fs FsSpec FsFile FsRead.

(** The blocks of a file, its indirect block among them. *)
Definition owned (v : gmap Z (list Z)) (a : list Z) (y : Z) : Prop := y <> 0 /\ (ind a = y \/ exists bn, 0 <= bn < MAXFILE /\ blockof v a bn = y).

(** The bytes [src] were written at [off]; blocks in use that are not the file's
    are as they were, and not the file's. *)
Record written (v : gmap Z (list Z)) (a : list Z) (v' : gmap Z (list Z)) (a' : list Z) (sb : superblock) (off : Z) (src : list Z) : Prop := {
  wr_byte : forall x, 0 <= x < MAXFILE * 1024 -> fbyte v' a' x = if decide (off <= x < off + Z.of_nat (length src)) then default 0 (src !! Z.to_nat (x - off)) else fbyte v a x;
  wr_blocks : forall bn, 0 <= bn < MAXFILE -> blockof v a bn <> 0 -> blockof v' a' bn <> 0;
  wr_there : forall x, off <= x < off + Z.of_nat (length src) -> blockof v' a' (x / 1024) <> 0;
  wr_other : forall y, good v sb y -> ~ owned v a y -> v' !! y = v !! y /\ ~ owned v' a' y;
  wr_good : forall y, good v sb y -> good v' sb y;
  wr_file : file_ok v' sb a';
  wr_disk : disk_ok v' sb
}.

Lemma written_nil v a sb off : file_ok v sb a -> disk_ok v sb -> written v a v a sb off [].
Proof. intros Hf Hk. split; try done; cbn; intros x; [intros _; by rewrite decide_False by lia|lia]. Qed.

Lemma written_app v a v1 a1 v2 a2 sb off src1 src2 : 0 <= off -> off + Z.of_nat (length src1 + length src2) <= MAXFILE * 1024 ->
  written v a v1 a1 sb off src1 -> written v1 a1 v2 a2 sb (off + Z.of_nat (length src1)) src2 -> written v a v2 a2 sb off (src1 ++ src2).
Proof.
  intros Ho Hle [A1 A2 A3 A4 A5 A6 A7] [B1 B2 B3 B4 B5 B6 B7]. rewrite MAXFILE_eq in *. split; try done; rewrite ?length_app.
  - intros x Hx. rewrite B1, A1 by done. destruct (decide (off + Z.of_nat (length src1) <= x < _)) as [H|H].
    + rewrite decide_True, lookup_app_r by lia. do 2 f_equal. lia.
    + case_decide; [rewrite decide_True, lookup_app_l by lia; done|by rewrite decide_False by lia].
  - intros bn Hbn Hz. by apply B2, A2.
  - intros x Hx. destruct (decide (x < off + Z.of_nat (length src1))); [|apply B3; lia]. apply B2; [dlia|apply A3; lia].
  - intros y Hg Hy. destruct (A4 y Hg Hy) as [E H]. rewrite <- E. by apply B4; [apply A5|].
  - intros y Hg. by apply B5, A5.
Qed.

(** A block of the file changes. *)
Section block.
Context (v : gmap Z (list Z)) (sb : superblock) (a : list Z) (c : Z) (d : list Z).
Context (Hf : file_ok v sb a) (Hk : disk_ok v sb) (Hd : length d = bsize) (Hc : c <> 0) (Hi : c <> ind a) (Hg : good v sb c).

Lemma blockof_write bn : blockof (<[c := d]> v) a bn = blockof v a bn.
Proof. unfold blockof. by rewrite lookup_insert_ne. Qed.

Lemma file_ok_write : file_ok (<[c := d]> v) sb a.
Proof.
  destruct Hf as [H1 H2 H3 H4]. split; [done| | |intros bn bn'; rewrite !blockof_write; apply H4].
  - intros Hz. apply good_insert; [apply Hg|by apply H2].
  - intros bn Hbn. rewrite blockof_write. intros Hz. destruct (H3 bn Hbn Hz). split; [apply good_insert; [apply Hg|done]|done].
Qed.

Lemma disk_ok_write : disk_ok (<[c := d]> v) sb.
Proof. apply disk_ok_other; [done|done|apply Hg|done]. Qed.
End block.

Lemma written_round v a v1 a1 sb off bs b d : file_ok v sb a -> disk_ok v sb -> bmapped v a v1 a1 sb (off / 1024) b -> v1 !! b = Some d -> 0 <= off ->
  off + Z.of_nat (length bs) <= MAXFILE * 1024 -> (0 < length bs)%nat -> off mod 1024 + Z.of_nat (length bs) <= 1024 ->
  written v a (<[b := splice (Z.to_nat (off mod 1024)) bs d]> v1) a1 sb off bs.
Proof.
  intros Hf Hk [B1 B2 B3 B4 B4' B5 B6 _ B7 B8] Hd Ho Hmax Hpos Hm. set (bn := off / 1024) in *. rewrite MAXFILE_eq in Hmax. assert (Hbn : 0 <= bn < MAXFILE) by (rewrite MAXFILE_eq; unfold bn; dlia).
  assert (Hl : length d = bsize) by (by apply (dk_len _ _ B8 b)). set (o := Z.to_nat (off mod 1024)) in *. assert (Hol : (o + length bs <= length d)%nat) by (rewrite Hl; unfold o, bsize; dlia).
  assert (Eb : blockof v1 a1 bn = b) by (rewrite B2 by done; by rewrite decide_True). destruct (fo_blk _ _ _ B7 bn Hbn ltac:(by rewrite Eb)) as [Hgb Hbi]. rewrite Eb in *.
  assert (Hl' : length (splice o bs d) = bsize) by (by rewrite splice_length). set (d' := splice o bs d) in *.
  split.
  - intros x Hx. rewrite MAXFILE_eq in Hx. assert (Hxb : 0 <= x / 1024 < MAXFILE) by (rewrite MAXFILE_eq; dlia). unfold fbyte at 1. rewrite blockof_write by done. rewrite B2 by done.
    destruct (decide (x / 1024 = bn)) as [Exb|Nxb].
    + rewrite lookup_insert_eq. unfold d'. rewrite splice_lookup by done.
      assert (Hiff : (o <= Z.to_nat (x mod 1024) < o + length bs)%nat <-> off <= x < off + Z.of_nat (length bs)) by (unfold o, bn in *; dlia).
      destruct (decide (off <= x < _)) as [Hin|Hout].
      * rewrite decide_True by (by apply Hiff). do 2 f_equal. unfold o, bn in *. dlia.
      * rewrite decide_False by (by rewrite Hiff). unfold fbyte. rewrite Exb. destruct (decide (blockof v a bn = 0)) as [Ez|Nz].
        -- rewrite Ez, (dk_zero _ _ Hk). destruct (B4 Ez) as [Hz _]. rewrite Hz in Hd. injection Hd as <-. unfold zeros.
           destruct (replicate bsize 0 !! Z.to_nat (x mod 1024)) as [z|] eqn:Ey; [|done]. by apply lookup_replicate in Ey as [-> _].
        -- destruct (B3 Nz) as (<- & <- & _). by rewrite Hd.
    + rewrite decide_False by (intros Hin; apply Nxb; unfold bn; dlia). unfold fbyte. set (c := blockof v a (x / 1024)). destruct (decide (c = 0)) as [->|Hc0].
      * rewrite lookup_insert_ne by done. by rewrite (dk_zero _ _ B8), (dk_zero _ _ Hk).
      * assert (Hcb : b <> c). { intros E. apply Nxb. apply (fo_inj _ _ _ B7); [done|done| |]; rewrite ?Eb, B2, decide_False by done; done. }
        rewrite lookup_insert_ne by done. destruct (fo_blk _ _ _ Hf _ Hxb Hc0) as [Hgc Hci]. by rewrite (B5 c Hgc Hci).
  - intros bn' Hbn' Hz. rewrite blockof_write by done. rewrite B2 by done. by case_decide.
  - intros x Hx. rewrite blockof_write by done. assert (x / 1024 = bn) as -> by (unfold bn; dlia). by rewrite Eb.
  - intros y Hg Hy. assert (Hby : b <> y).
    { intros <-. destruct (decide (blockof v a bn = 0)) as [Ez|Nz]; [by apply (B4 Ez)|]. apply Hy. split; [done|]. right. exists bn. split; [done|]. by destruct (B3 Nz). }
    split; [|intros [Hy0 [Ei|(bn' & Hbn' & E)]]; apply Hy; split; try done].
    + rewrite lookup_insert_ne by done. destruct (decide (y = 0)) as [->|Hy0]; [by rewrite (dk_zero _ _ B8), (dk_zero _ _ Hk)|]. apply B5; [done|]. intros ->. apply Hy. split; [done|by left].
    + destruct B4' as [E|N]; [left; congruence|]. by rewrite Ei in N.
    + rewrite blockof_write in E by done. rewrite B2 in E by done. case_decide; [done|]. right. by exists bn'.
  - intros y Hg. apply good_insert; [apply Hgb|by apply B6].
  - by apply file_ok_write.
  - by apply disk_ok_write.
Qed.

Section FsWrite.
Context {S U : Type} {HS : HasCtx S} {HO : BlockOps S} {HB : Blocks S} {HU : UserMem U}.

Abbreviation fss := (fss S U).

Lemma copyin_all user um a bytes : um_inv (um_user um) -> 0 <= a -> holds (view user um) a bytes -> either_copyin user a (Z.of_nat (length bytes)) um = Ret (0, bytes) um.
Proof.
  intros Hu Ha Hb. assert (Hs : forall k, (k < length bytes)%nat -> is_Some (view user um (a + Z.of_nat k))).
  { intros k Hk. destruct (lookup_lt_is_Some_2 bytes k Hk) as [x Hx]. eauto. }
  destruct (either_copyin_ok user um a (Z.of_nat (length bytes)) Hu Ha ltac:(lia)) as (r & bs & E & Hbs & Hc).
  { intros -> k Hk. specialize (Hs (Z.to_nat k) ltac:(lia)). by rewrite Z2Nat.id in Hs by lia. }
  rewrite Nat2Z.id in Hc. destruct Hc as [[-> Hl]|(_ & Hl & Hn)]; [|destruct (Hs _ Hl); congruence]. rewrite E. do 2 f_equal. apply list_eq. intros k. destruct (bs !! k) as [x|] eqn:Ex.
  - pose proof (lookup_lt_Some _ _ _ Ex). destruct (lookup_lt_is_Some_2 bytes k ltac:(lia)) as [y Hy]. apply Hbs in Ex. rewrite (Hb _ _ Hy) in Ex. congruence.
  - symmetry. apply lookup_ge_None_2. apply lookup_ge_None_1 in Ex. lia.
Qed.

(** The outcome of [k] rounds, each of which takes two blocks at most. *)
Definition write_outcome (k : nat) (s : fss) (g : gblocks) (ip : Z) (i : inode) (off : Z) (bytes : list Z) (s' : fss) (g' : gblocks) (a' : list Z) : Prop :=
  frep s' g' /\ g_held g' = ∅ /\ fmod ip (set_addrs a' i) s s' /\ written (g_view g) (di_addrs (i_d i)) (g_view g') a' (fsb s) off bytes /\ spent (7 * k) g g' /\
  (frees (g_view g) (fsb s) <= frees (g_view g') (fsb s) + 2 * k)%nat.

(** One round. *)
Lemma writei_round ip i user g s src off bs (k : M fss Z) : i_dev i = bk_dev -> g_held g = ∅ -> (8 <= g_bufs g)%nat -> (7 <= g_logs g)%nat ->
  frep s g -> aget (icache s) (ip - 1) = Some i -> disk_ok (g_view g) (fsb s) -> file_ok (g_view g) (fsb s) (di_addrs (i_d i)) ->
  0 <= off -> (0 < length bs)%nat -> off mod 1024 + Z.of_nat (length bs) <= 1024 -> off + Z.of_nat (length bs) <= MAXFILE * 1024 -> 0 <= src ->
  um_inv (um_user (fum s)) -> holds (view user (fum s)) src bs ->
  let m := (b <- bmap ip (off / 1024) ;; bp <- bread (i_dev i) b ;; r <- onu (either_copyin user src (Z.of_nat (length bs))) ;; d <- bdata bp ;;
      let d := splice (Z.to_nat (off mod 1024)) (snd r) d in
      if fst r =? -1 then onb (bk_set bp d) ;;; brelse bp ;;; ret off else bwrite_logged bp d ;;; brelse bp ;;; k) in
  (frees (g_view g) (fsb s) < 2)%nat /\ m s = Panic "balloc: out of blocks" \/ exists s' g' a', m s = k s' /\ write_outcome 1 s g ip i off bs s' g' a'.
Proof.
  intros Hdev Hh Hn Hl Hr Hi Hk Hf Ho Hpos Hm Hmax Hs Hu Hb m. unfold m. set (bn := off / 1024). assert (Hbn : 0 <= bn < MAXFILE) by (rewrite MAXFILE_eq in *; unfold bn; dlia).
  destruct (bmap_ok s g ip i bn Hr Hh Hi Hdev Hk Hf Hbn ltac:(lia) ltac:(lia)) as [[Ef E]|(b & s1 & g1 & a1 & E1 & Hr1 & Hh1 & Hm1 & Hb1 & Hs1 & Hs1')]; [left; split; [done|by apply bind_panic]|right].
  run E1. rewrite Hdev. assert (Eb : blockof (g_view g1) a1 bn = b) by (rewrite (bm_at _ _ _ _ _ _ _ Hb1) by done; by rewrite decide_True).
  destruct (fo_blk _ _ _ (bm_file _ _ _ _ _ _ _ Hb1) bn Hbn) as [Hgb _]; [rewrite Eb; apply Hb1|]. rewrite Eb in Hgb. destruct (gd_view _ _ _ Hgb) as [d Hd].
  destruct (bread_f s1 g1 b (g_bufs g1 - 1) Hr1 (ex_intro _ d Hd) ltac:(intros x; by rewrite Hh1, lookup_empty) ltac:(lia)) as (bp & s2 & E2 & _ & Hr2 & Hy2).
  run E2. set (g2 := mkg _ _ _ _) in Hr2. assert (Hb2 : g_held g2 !! bp = Some b) by (cbn; by rewrite lookup_insert_eq).
  assert (Hum : fum s2 = fum s) by (rewrite (fy_um _ _ Hy2); apply Hm1). assert (Hset : set_fum (fum s) s2 = s2) by (rewrite <- Hum; by destruct s2).
  run (onu_ok (either_copyin user src (Z.of_nat (length bs))) s2 (0, bs) (fum s) ltac:(rewrite Hum; by apply copyin_all)). rewrite Hset.
  run (bdata_f s2 g2 bp b d Hr2 Hb2 Hd). cbn [fst snd]. change (0 =? -1) with false. cbv iota zeta.
  assert (Hld : length d = bsize) by (by apply (dk_len _ _ (bm_disk _ _ _ _ _ _ _ Hb1) b)). set (d' := splice _ _ _). assert (Hd' : length d' = 1024%nat) by (unfold d'; rewrite splice_length; [done|rewrite Hld; unfold bsize; dlia]).
  destruct (bwrite_f s2 g2 bp b d' (g_bufs g1 - 2) (g_logs g1 - 1) Hr2 Hb2 Hd' ltac:(cbn; lia) ltac:(cbn; lia)) as (s3 & E3 & Hr3 & Hy3 & _). set (g3 := mkg _ _ _ _) in Hr3. run E3.
  destruct (brelse_f s3 g3 bp b Hr3 Hb2) as (s4 & E4 & Hr4 & Hy4). run E4. set (g4 := mkg _ _ _ _) in Hr4. exists s4, g4, a1. split; [done|]. split_and!; [done| | | |split; cbn; lia|cbn; rewrite frees_other by apply Hgb; apply Hb1].
  - cbn. by rewrite Hh1, insert_empty, delete_singleton_eq.
  - eapply fmod_trans; [exact Hm1|]. apply fstay_fmod; [by eapply fmod_get|]. eapply fstay_trans; [done|]. by eapply fstay_trans.
  - by apply (written_round _ _ (g_view g1)).
Qed.

Lemma writei_loop_ok ip user n : forall k rounds s g i src off tot bytes, (k <= rounds)%nat -> i_dev i = bk_dev -> g_held g = ∅ -> (7 * k + 1 <= g_bufs g)%nat -> (7 * k <= g_logs g)%nat ->
  frep s g -> aget (icache s) (ip - 1) = Some i -> disk_ok (g_view g) (fsb s) -> file_ok (g_view g) (fsb s) (di_addrs (i_d i)) ->
  0 <= off -> 0 <= tot -> n - tot = Z.of_nat (length bytes) -> off + (n - tot) <= MAXFILE * 1024 -> 0 <= src -> src + (n - tot) < 2 ^ 64 ->
  um_inv (um_user (fum s)) -> holds (view user (fum s)) src bytes -> enough k off (n - tot) ->
  let m := writei_loop (Datatypes.S rounds) ip user src off tot n in
  (frees (g_view g) (fsb s) < 2 * k)%nat /\ m s = Panic "balloc: out of blocks" \/ exists s' g' a', m s = Ret (off + (n - tot)) s' /\ write_outcome k s g ip i off bytes s' g' a'.
Proof.
  induction k as [|k IH]; intros rounds s g i src off tot bytes Hkr Hdev Hh Hn Hl Hr Hi Hk Hf Ho Ht Hb Hmax Hs Hs2 Hu Hhold He m;
    (destruct (decide (n <= tot)) as [Hge|Hlt]; [right; exists s, g, (di_addrs (i_d i)); unfold m; cbn [writei_loop]; rewrite (proj2 (Z.ltb_ge _ _) Hge); cbn [negb];
      split; [unfold ret; f_equal; lia|]; destruct bytes; [|cbn in Hb; lia]; split_and!; [done|done|rewrite set_addrs_id; apply fstay_fmod; [done|apply fstay_refl]|by apply written_nil|split; lia|lia]|]);
    [exfalso; destruct He; [lia|pose proof (Z.mod_pos_bound off 1024); lia]|].
  set (lf := n - tot) in *. destruct (chunk_ok off lf ltac:(lia)) as (Hm1 & Hm2 & Hm3). pose proof (enough_next k off lf Ho ltac:(lia) He) as He'.
  destruct rounds as [|rounds]; [lia|]. remember (Datatypes.S rounds) as r1 eqn:Er1. unfold m. cbn [writei_loop]. rewrite (proj2 (Z.ltb_lt tot n)) by lia. cbn [negb]. run (geti_ok ip i s Hi).
  fold lf. fold (chunk off lf). set (c := chunk off lf) in *. cbv zeta.
  rewrite <- (take_drop (Z.to_nat c) bytes) in Hhold. apply holds_app in Hhold as [Hh1 Hh2]. assert (Hlt1 : length (take (Z.to_nat c) bytes) = Z.to_nat c) by (rewrite length_take; lia).
  rewrite Hlt1, Z2Nat.id in Hh2 by lia.
  destruct (writei_round ip i user g s src off (take (Z.to_nat c) bytes) (writei_loop r1 ip user (u64 (src + c)) (u32 (off + c)) (tot + c) n)
    Hdev Hh ltac:(lia) ltac:(lia) Hr Hi Hk Hf Ho ltac:(lia) ltac:(lia) ltac:(lia) Hs Hu Hh1) as [[Ef E]|(s1 & g1 & a1 & E & Hr1 & Hg1 & Hf1 & Hw1 & [Hs1 Hs1'] & Hfr1)];
    rewrite Hlt1, Z2Nat.id in E by lia; cbv zeta in E; [left; split; [lia|exact E]|].
  rewrite E, (u64_small (src + c)), (u32_small (off + c)) by (rewrite MAXFILE_eq in *; lia). assert (Htc : n - (tot + c) = lf - c) by (unfold lf; lia).
  assert (Hi1 : aget (icache s1) (ip - 1) = Some (set_addrs a1 i)) by (by eapply fmod_get).
  destruct (IH rounds s1 g1 (set_addrs a1 i) (src + c) (off + c) (tot + c) (drop (Z.to_nat c) bytes)) as [[Ef E']|(s2 & g2 & a2 & E' & Hr2 & Hg2 & Hf2 & Hw2 & [Hs2' Hs2''] & Hfr2)];
    rewrite ?Htc, ?(fm_um _ _ _ _ Hf1), ?(fm_sb _ _ _ _ Hf1), ?length_drop; try done; try lia; [apply Hw1|apply Hw1|rewrite (fm_sb _ _ _ _ Hf1) in Ef; left; split; [lia|by rewrite Er1]|right].
  exists s2, g2, a2. rewrite Er1, E', Htc. split; [f_equal; lia|]. rewrite (fm_sb _ _ _ _ Hf1) in Hw2, Hfr2. split_and!; [done|done|by eapply fmod_trans| |split; lia|lia].
  rewrite <- (take_drop (Z.to_nat c) bytes). eapply written_app; [done| |exact Hw1|]; rewrite Hlt1, ?length_drop; [lia|]. by rewrite Z2Nat.id by lia.
Qed.
End FsWrite.
