(* ===== verification/FsWritei.v ===== *)
(** * Whole writes

    The state of an open file, which [writei] keeps, and the round trip of a
    write and a read. *)

From S2P Require Import Prelude StringC Bytes Sleeplock UserMem Blocks Fs FsSpec FsFile FsRead FsWrite.

(** The inode on disk. *)
Definition on_disk (v : gmap Z (list Z)) (sb : superblock) (inum : Z) (di : dinode) : Prop := exists d, v !! IBLOCK inum sb = Some d /\ get_dinode (doff inum) d = di.

(** An open file: its blocks, its size, and the block of the inode, which is in
    use and not one of the file's. *)
Record file_state (v : gmap Z (list Z)) (sb : superblock) (i : inode) : Prop := {
  fs_disk : disk_ok v sb;
  fs_file : file_ok v sb (di_addrs (i_d i));
  fs_size : 0 <= di_size (i_d i) <= MAXFILE * 1024;
  fs_holes : no_holes v (di_addrs (i_d i)) (di_size (i_d i));
  fs_inum : 0 <= i_inum i;
  fs_iblock : good v sb (IBLOCK (i_inum i) sb) /\ IBLOCK (i_inum i) sb <> 0 /\ ~ owned v (di_addrs (i_d i)) (IBLOCK (i_inum i) sb);
  fs_shorts : short (di_type (i_d i)) /\ short (di_major (i_d i)) /\ short (di_minor (i_d i)) /\ short (di_nlink (i_d i))
}.

Lemma file_addrs v sb a : file_ok v sb a -> disk_ok v sb -> Forall uint a.
Proof.
  intros Hf Hk. pose proof (dk_size _ _ Hk) as Hs. pose proof (fo_len _ _ _ Hf) as Hl. apply Forall_lookup_2. intros k x Hx.
  destruct (decide (x = 0)) as [->|Hz]; [done|]. assert (Hg : good v sb x); [|apply gd_range in Hg; unfold uint; lia].
  pose proof (lookup_lt_Some _ _ _ Hx) as Hlt. assert (Ha : aget a (Z.of_nat k) = Some x) by (by rewrite aget_of_nat). destruct (decide (k = 12)%nat) as [->|Hk'].
  - assert (Ei : ind a = x) by (unfold ind; change NDIRECT with (Z.of_nat 12); by rewrite Ha). rewrite <- Ei. apply (fo_ind _ _ _ Hf). congruence.
  - assert (Eb : blockof v a (Z.of_nat k) = x) by (unfold blockof; rewrite (proj2 (Z.ltb_lt _ _)), Ha by (unfold NDIRECT; lia); done).
    rewrite <- Eb. apply (fo_blk _ _ _ Hf); [rewrite MAXFILE_eq; lia|congruence].
Qed.

Lemma doff_range inum (d : list Z) : length d = bsize -> (doff inum + 64 <= length d)%nat.
Proof. intros ->. unfold doff, bsize, IPB. dlia. Qed.

(** The block of the inode changes. *)
Section iblock.
Context (v : gmap Z (list Z)) (sb : superblock) (a : list Z) (c : Z) (d : list Z).
Context (Hk : disk_ok v sb) (Hc : c <> 0) (Ho : ~ owned v a c).

Lemma not_ind : c <> ind a.
Proof. intros ->. apply Ho. split; [done|by left]. Qed.

Lemma fbyte_iblock x : 0 <= x < MAXFILE * 1024 -> fbyte (<[c := d]> v) a x = fbyte v a x.
Proof.
  intros Hx. rewrite MAXFILE_eq in Hx. unfold fbyte. rewrite blockof_write by apply not_ind. destruct (decide (blockof v a (x / 1024) = c)) as [E|N]; [|by rewrite lookup_insert_ne].
  exfalso. apply Ho. split; [done|]. right. exists (x / 1024). split; [rewrite MAXFILE_eq; dlia|done].
Qed.

Lemma owned_iblock y : owned (<[c := d]> v) a y <-> owned v a y.
Proof. unfold owned. setoid_rewrite blockof_write; [done|apply not_ind]. Qed.
End iblock.

(** The file after a write of [bytes] at [off]. *)
Record wrote (v : gmap Z (list Z)) (i : inode) (v' : gmap Z (list Z)) (i' : inode) (sb : superblock) (off : Z) (bytes : list Z) : Prop := {
  wo_state : file_state v' sb i';
  wo_inode : i' = set_i_d (set_di_size (Z.max (di_size (i_d i)) (off + Z.of_nat (length bytes))) (set_di_addrs (di_addrs (i_d i')) (i_d i))) i;
  wo_byte : forall x, 0 <= x < MAXFILE * 1024 -> fbyte v' (di_addrs (i_d i')) x =
    if decide (off <= x < off + Z.of_nat (length bytes)) then default 0 (bytes !! Z.to_nat (x - off)) else fbyte v (di_addrs (i_d i)) x;
  wo_disk : on_disk v' sb (i_inum i) (i_d i');
  wo_inodes : forall inum di, 0 <= inum -> doff inum <> doff (i_inum i) \/ IBLOCK inum sb <> IBLOCK (i_inum i) sb -> good v sb (IBLOCK inum sb) -> ~ owned v (di_addrs (i_d i)) (IBLOCK inum sb) ->
    on_disk v sb inum di -> on_disk v' sb inum di;
  wo_other : forall y, good v sb y -> ~ owned v (di_addrs (i_d i)) y -> y <> IBLOCK (i_inum i) sb -> v' !! y = v !! y;
  wo_keep : forall y, good v sb y -> good v' sb y /\ (~ owned v (di_addrs (i_d i)) y -> ~ owned v' (di_addrs (i_d i')) y)
}.

(** The inode is written back after the bytes. *)
Lemma wrote_update v sb i v1 a1 off bytes d i' : file_state v sb i -> written v (di_addrs (i_d i)) v1 a1 sb off bytes -> 0 <= off <= di_size (i_d i) ->
  off + Z.of_nat (length bytes) <= MAXFILE * 1024 -> v1 !! IBLOCK (i_inum i) sb = Some d ->
  i' = set_i_d (set_di_size (Z.max (di_size (i_d i)) (off + Z.of_nat (length bytes))) (set_di_addrs a1 (i_d i))) i ->
  wrote v i (<[IBLOCK (i_inum i) sb := put_dinode (doff (i_inum i)) (i_d i') d]> v1) i' sb off bytes.
Proof.
  intros [F1 F2 F3 F4 F5 (F6 & F6' & F6'') F7] [W1 W2 W3 W4 W5 W6 W7] Ho Hmax Hd Hi'. set (ib := IBLOCK (i_inum i) sb) in *. destruct (W4 ib F6 F6'') as [Hib Hno].
  pose proof (dk_len _ _ W7 _ _ Hd) as Hl. pose proof (doff_range (i_inum i) d Hl) as Hdo. pose proof (fo_len _ _ _ W6) as Hla. pose proof (W5 _ F6) as Hg.
  assert (Ha : di_addrs (i_d i') = a1) by (by rewrite Hi'). assert (Hli : length (di_addrs (i_d i')) = 13%nat) by (by rewrite Ha). set (d' := put_dinode _ _ _).
  assert (Hl' : length d' = bsize) by (unfold d'; by rewrite put_dinode_length). assert (Hni : ib <> ind a1) by (by apply (not_ind v1)).
  assert (Hin : i_inum i' = i_inum i) by (by rewrite Hi'). rewrite MAXFILE_eq in *.
  split; rewrite ?Ha.
  - split; rewrite ?Ha, ?Hin; fold ib; [by apply disk_ok_write|by apply file_ok_write|rewrite Hi', MAXFILE_eq; cbn; lia| |done| |by rewrite Hi'].
    + intros bn Hbn Hsz. rewrite blockof_write by done. rewrite Hi' in Hsz. cbn in Hsz. destruct (decide (bn * 1024 < di_size (i_d i))) as [H|H]; [apply W2; [lia|by apply F4]|].
      replace bn with (bn * 1024 / 1024) by (by rewrite Z.div_mul). apply W3. lia.
    + split_and!; [apply good_insert; [apply F6|done]|done|by rewrite owned_iblock].
  - done.
  - intros x Hx. rewrite (fbyte_iblock v1 a1 ib d') by done. by apply W1.
  - exists d'. split; [apply lookup_insert_eq|]. apply get_put_dinode; [|done]. pose proof (file_addrs _ _ _ W6 W7) as Hu. destruct F7 as (? & ? & ? & ?).
    rewrite Hi' in *. split; cbn; try done. unfold uint. lia.
  - intros inum di Hinum Hne Hgi Hoi (e & He & Hge). destruct (W4 _ Hgi Hoi) as [Hei _]. rewrite He in Hei. destruct (decide (IBLOCK inum sb = ib)) as [E|N].
    + exists d'. rewrite E in *. split; [apply lookup_insert_eq|]. assert (e = d) as -> by congruence. rewrite <- Hge. unfold d'. apply get_put_dinode_ne; [done|done|].
      destruct Hne as [Hne|Hne]; [|done]. unfold doff, IPB in *. dlia.
    + exists e. by rewrite lookup_insert_ne.
  - intros y Hy Hoy Hyi. rewrite lookup_insert_ne by done. by apply W4.
  - intros y Hy. split; [apply good_insert; [apply F6|by apply W5]|]. intros Hoy. rewrite owned_iblock by done. by apply W4.
Qed.

Lemma wrote_fdata v i v' i' sb off bytes : wrote v i v' i' sb off bytes -> 0 <= off -> off + Z.of_nat (length bytes) <= MAXFILE * 1024 ->
  fdata v' (di_addrs (i_d i')) off (length bytes) = bytes.
Proof.
  intros Hw Ho Hm. apply list_eq. intros x. destruct (lookup_lt_is_Some bytes x) as [_ H]. destruct (decide (x < length bytes)%nat) as [Hx|Hx].
  - rewrite fdata_lookup by done. destruct (H Hx) as [y Hy]. rewrite (wo_byte _ _ _ _ _ _ _ Hw) by lia. rewrite decide_True by lia. replace (Z.to_nat (off + Z.of_nat x - off)) with x by lia. by rewrite Hy.
  - by rewrite !lookup_ge_None_2 by (rewrite ?fdata_length; lia).
Qed.

Lemma wrote_nil v sb i off : file_state v sb i -> on_disk v sb (i_inum i) (i_d i) -> off <= di_size (i_d i) -> wrote v i v i sb off [].
Proof.
  intros Hf Hd Ho. split; try done; cbn [length]; [|intros x _; by rewrite decide_False by lia]. rewrite Z.max_l by lia. by destruct i as [? ? ? ? ? []].
Qed.

(** One write after the other. *)
Lemma wrote_app v i v1 i1 v2 i2 sb off b1 b2 : 0 <= off -> wrote v i v1 i1 sb off b1 -> wrote v1 i1 v2 i2 sb (off + Z.of_nat (length b1)) b2 -> wrote v i v2 i2 sb off (b1 ++ b2).
Proof.
  intros Ho [A1 A2 A3 A4 A5 A6 A7] [B1 B2 B3 B4 B5 B6 B7]. assert (E : i_inum i1 = i_inum i) by (by rewrite A2). assert (Es : di_size (i_d i1) = Z.max (di_size (i_d i)) (off + Z.of_nat (length b1))) by (by rewrite A2).
  split; rewrite ?length_app; [done| | |by rewrite <- E| | |].
  - etransitivity; [exact B2|]. rewrite Es. replace (Z.max (Z.max _ _) _) with (Z.max (di_size (i_d i)) (off + Z.of_nat (length b1 + length b2))) by lia. by rewrite A2.
  - intros x Hx. rewrite B3, A3 by done. destruct (decide (off + Z.of_nat (length b1) <= x < _)) as [H|H].
    + rewrite decide_True, lookup_app_r by lia. do 2 f_equal. lia.
    + case_decide; [rewrite decide_True, lookup_app_l by lia; done|by rewrite decide_False by lia].
  - intros inum di Hi Hne Hg Hno Hd. destruct (A7 _ Hg) as [G1 G2]. apply B5; [done|by rewrite E|done|by apply G2|by apply A5].
  - intros y Hg Hno Hy. destruct (A7 y Hg) as [G1 G2]. rewrite B6 by (rewrite ?E; auto). by apply A6.
  - intros y Hg. destruct (A7 y Hg) as [G1 G2], (B7 y G1) as [G3 G4]. auto.
Qed.

(** The lock of the inode does not matter. *)
Lemma wrote_lock v i v' i' sb off bytes l : wrote v i v' i' sb off bytes -> wrote v (set_i_lock l i) v' (set_i_lock l i') sb off bytes.
Proof. intros [A1 A2 A3 A4 A5 A6 A7]. split; try done; [destruct A1; by split|exact (f_equal (set_i_lock l) A2)]. Qed.

Section FsWritei.
Context {S U : Type} {HS : HasCtx S} {HO : BlockOps S} {HB : Blocks S} {HU : UserMem U}.

Abbreviation fss := (fss S U).

Lemma iupdate_ok (s : fss) g ip i d n m : frep s g -> g_held g = ∅ -> aget (icache s) (ip - 1) = Some i -> i_dev i = bk_dev -> length (di_addrs (i_d i)) = 13%nat ->
  g_view g !! IBLOCK (i_inum i) (fsb s) = Some d -> g_bufs g = Datatypes.S (Datatypes.S n) -> g_logs g = Datatypes.S m ->
  exists s', iupdate ip s = Ret tt s' /\ fstay s s' /\
    frep s' (mkg (<[IBLOCK (i_inum i) (fsb s) := put_dinode (doff (i_inum i)) (i_d i) d]> (g_view g)) ∅ (Datatypes.S n) m).
Proof.
  intros Hr Hh Hi Hdev Hl Hd Hn Hm. pose proof (bk_len _ _ _ _ Hr Hd) as Hld. unfold iupdate. mstep. run (geti_ok ip i s Hi). rewrite Hdev.
  destruct (change_f s g _ d (put_dinode (doff (i_inum i)) (i_d i) d) n m Hr Hd ltac:(intros j; by rewrite Hh, lookup_empty) Hn Hm) as (bp & s1 & s2 & s3 & E1 & E2 & E3 & E4 & Hr3 & _ & Hy3).
  { rewrite put_dinode_length; [done|done|by apply doff_range]. }
  run E1. run E2. run E3. exists s3. rewrite Hh in Hr3. by split_and!.
Qed.
(** What a write of [bytes] needs: the buffers and log entries of [k] blocks and
    the inode, and the bytes in memory. *)
Record write_pre (s : fss) (g : gblocks) (ip : Z) (i : inode) (user : bool) (src off : Z) (bytes : list Z) (k : nat) : Prop := {
  wp_rep : frep s g;
  wp_held : g_held g = ∅;
  wp_get : aget (icache s) (ip - 1) = Some i;
  wp_dev : i_dev i = bk_dev;
  wp_file : file_state (g_view g) (fsb s) i;
  wp_enough : enough k off (Z.of_nat (length bytes));
  wp_bufs : (7 * k + 2 <= g_bufs g)%nat;
  wp_logs : (7 * k + 1 <= g_logs g)%nat;
  wp_off : 0 <= off < 2 ^ 32;
  wp_src : 0 <= src /\ src + Z.of_nat (length bytes) < 2 ^ 64;
  wp_inv : um_inv (um_user (fum s));
  wp_holds : holds (view user (fum s)) src bytes
}.

(** The outcome of [writei] of bytes that lie in [k] blocks, each of which may
    take a new one and a new indirect block: it panics only when there are fewer. *)
Definition writei_outcome (s : fss) (g : gblocks) (ip : Z) (i : inode) (off : Z) (bytes : list Z) (k : nat) (r : res fss Z) : Prop :=
  (frees (g_view g) (fsb s) < 2 * k)%nat /\ r = Panic "balloc: out of blocks" \/
  exists s' g' i', r = Ret (Z.of_nat (length bytes)) s' /\ frep s' g' /\ g_held g' = ∅ /\ fmod ip i' s s' /\
    wrote (g_view g) i (g_view g') i' (fsb s) off bytes /\ spent (7 * k + 1) g g'.

Lemma set_size_ok (s : fss) g ip i off : frep s g -> aget (icache s) (ip - 1) = Some i ->
  exists s', (if di_size (i_d i) <? off then setd ip (set_di_size off) else ret tt) s = Ret tt s' /\
    fmod ip (set_i_d (set_di_size (Z.max (di_size (i_d i)) off) (i_d i)) i) s s' /\ frep s' g.
Proof.
  intros Hr Hi. destruct (Z.ltb_spec (di_size (i_d i)) off) as [Hlt|Hge].
  - destruct (seti_ok ip i (fun j => set_i_d (set_di_size off (i_d j)) j) s Hi) as (s' & E & Hm & Hb). exists s'. rewrite Z.max_r by lia. split_and!; [done|done|]. unfold frep. by rewrite Hb.
  - exists s. rewrite Z.max_l by lia. split_and!; [done| |done]. apply fstay_fmod; [|apply fstay_refl]. rewrite Hi. by destruct i as [? ? ? ? ? []].
Qed.

Lemma writei_ok s g ip i user src off bytes k : write_pre s g ip i user src off bytes k -> bytes <> [] -> off <= di_size (i_d i) -> off + Z.of_nat (length bytes) <= MAXFILE * 1024 ->
  writei_outcome s g ip i off bytes k (writei ip user src off (Z.of_nat (length bytes)) s).
Proof.
  intros [P1 P2 P3 P4 P5 P6 P7 P8 P9 P10 P11 P12] Hne Hoff Hmax. set (n := Z.of_nat (length bytes)) in *. assert (Hn : 0 < n) by (unfold n; destruct bytes; cbn; [done|lia]).
  pose proof MAXFILE_eq as HM. unfold writei. run (geti_ok ip i s P3). rewrite (proj2 (Z.ltb_ge _ _)) by lia. rewrite (u32_small (off + n)) by lia.
  rewrite (proj2 (Z.ltb_ge (off + n) off)), (proj2 (Z.ltb_ge (MAXFILE * 1024) _)) by lia. cbn [orb].
  replace (io_fuel n) with (Datatypes.S (Z.to_nat (n / 1024) + 2)) by (unfold io_fuel; lia).
  destruct (Nat.le_exists_sub 0 (Nat.min k (Z.to_nat (n / 1024) + 2)) ltac:(lia)) as (k' & Ek & _).
  assert (Hk' : (k' <= k)%nat /\ (k' <= Z.to_nat (n / 1024) + 2)%nat /\ enough k' off n).
  { split_and!; [lia|lia|]. destruct P6 as [|P6]; [lia|]. right. destruct (Nat.min_spec k (Z.to_nat (n / 1024) + 2)) as [[? E]|[? E]]; rewrite E in Ek; [lia|dlia]. }
  destruct Hk' as (Hk1 & Hk2 & He).
  destruct (writei_loop_ok ip user n k' (Z.to_nat (n / 1024) + 2) s g i src off 0 bytes) as [[Ef E]|(s1 & g1 & a1 & E & Hr1 & Hg1 & Hm1 & Hw1 & [Hs1 Hs1'] & _)]; rewrite ?Z.sub_0_r; try done; try lia; [apply P5|apply P5|left|right].
  { split; [lia|by apply bind_panic]. }
  rewrite Z.sub_0_r in E. run E. rewrite (proj2 (Z.ltb_lt 0 n)) by lia. set (i1 := set_addrs a1 i) in *. assert (Hi1 : aget (icache s1) (ip - 1) = Some i1) by (by eapply fmod_get).
  destruct (set_size_ok s1 g1 ip i1 (off + n) Hr1 Hi1) as (s2 & E2 & Hm2 & Hr2). set (i2 := set_i_d _ _) in Hm2. assert (Hi2 : aget (icache s2) (ip - 1) = Some i2) by (by eapply fmod_get).
  assert (Hsb : fsb s2 = fsb s) by (rewrite (fm_sb _ _ _ _ Hm2); apply Hm1). destruct (gd_view _ _ _ (wr_good _ _ _ _ _ _ _ Hw1 _ (proj1 (fs_iblock _ _ _ P5)))) as [d Hd].
  destruct (iupdate_ok s2 g1 ip i2 d (g_bufs g1 - 2) (g_logs g1 - 1) Hr2 Hg1 Hi2 P4 (fo_len _ _ _ (wr_file _ _ _ _ _ _ _ Hw1))) as (s3 & E3 & Hy3 & Hr3); [by rewrite Hsb|lia|lia|].
  eexists s3, _, i2. split_and!; [|exact Hr3|done| | |split; cbn; lia].
  - rewrite (bind_ret_l _ _ s1 tt s3); [rewrite s32_small by lia; done|]. run (geti_ok ip i1 s1 Hi1). run E2. exact E3.
  - eapply fmod_trans; [exact Hm1|]. eapply fmod_trans; [exact Hm2|]. by apply fstay_fmod.
  - cbn [g_view]. rewrite Hsb. change (i_inum i2) with (i_inum i). apply (wrote_update _ _ _ _ a1); try done. lia.
Qed.
Lemma writei_refuses (s : fss) ip i user src off n : aget (icache s) (ip - 1) = Some i -> 0 <= off < 2 ^ 32 -> 0 <= n < 2 ^ 32 ->
  ((di_size (i_d i) <? off) || (2 ^ 32 <=? off + n) || (MAXFILE * 1024 <? off + n) = true -> writei ip user src off n s = Ret (-1) s) /\
  (off <= di_size (i_d i) -> off <= MAXFILE * 1024 -> writei ip user src off 0 s = Ret 0 s).
Proof.
  intros Hi Ho Hn. pose proof MAXFILE_eq as HM. split.
  - intros Hc. unfold writei. run (geti_ok ip i s Hi). destruct (Z.ltb_spec (di_size (i_d i)) off) as [|H1]; [done|]. cbn [orb] in *. destruct (Z.leb_spec (2 ^ 32) (off + n)) as [H2|H2].
    + rewrite (proj2 (Z.ltb_lt _ _)); [done|]. unfold u32. dlia.
    + cbn [orb] in Hc. rewrite u32_small by lia. rewrite (proj2 (Z.ltb_ge (off + n) off)), Hc by lia. done.
  - intros H1 H2. unfold writei. run (geti_ok ip i s Hi). rewrite Z.add_0_r, u32_small by lia. rewrite !(proj2 (Z.ltb_ge _ _)) by lia. done.
Qed.

(** A read of bytes that are all in the file, to memory that can be accessed. *)
Lemma readi_all (s : fss) g ip i user dst off n :
  file_state (g_view g) (fsb s) i -> frep s g -> g_held g = ∅ -> (6 <= g_bufs g)%nat -> aget (icache s) (ip - 1) = Some i -> i_dev i = bk_dev ->
  0 <= off < 2 ^ 32 -> off + Z.of_nat n <= di_size (i_d i) -> 0 <= dst -> dst + Z.of_nat n < 2 ^ 64 -> um_inv (um_user (fum s)) ->
  (forall j, 0 <= j < Z.of_nat n -> is_Some (view user (fum s) (dst + j))) ->
  exists s', readi ip user dst off (Z.of_nat n) s = Ret (Z.of_nat n) s' /\ holds (view user (fum s')) dst (fdata (g_view g) (di_addrs (i_d i)) off n).
Proof.
  intros Hf Hr Hh Hb Hi Hdev Ho Hn Hd Hd2 Hu Hacc. pose proof (fs_size _ _ _ Hf) as Hsz. pose proof MAXFILE_eq as HM.
  assert (Ec : Z.min (Z.of_nat n) (di_size (i_d i) - off) = Z.of_nat n) by lia.
  pose proof (readi_ok ip i user g s dst off (Z.of_nat n) Hdev Hh Hb (fs_holes _ _ _ Hf) Hsz Hr Hi (fs_disk _ _ _ Hf) (fs_file _ _ _ Hf) Ho ltac:(lia) Hd Hd2 Hu) as H. cbv zeta in H. rewrite Ec in H.
  rewrite (proj2 (Z.ltb_ge _ _)), (proj2 (Z.leb_gt _ _)), Nat2Z.id in H by lia. destruct H as (um & s' & j & r & E & (_ & Hc & _ & Hcp & _) & Hj).
  { intros -> x Hx. by apply (Hacc x). }
  exists s'. split; [done|]. rewrite (fc_um _ _ _ Hc). destruct Hj as [[_ ->]|(_ & Hj & Hnone)]; [|destruct (Hacc (Z.of_nat j) ltac:(lia)); congruence].
  intros x y Hxy. rewrite Hcp. pose proof (lookup_lt_Some _ _ _ Hxy) as Hlt. rewrite fdata_length in Hlt. rewrite decide_True by lia. rewrite <- Hxy. f_equal. lia.
Qed.
End FsWritei.
