(* ===== verification/FsTrunc.v ===== *)
(** * The end of a file

    [itrunc] frees the blocks of a file, all in the entry of the log that the
    bitmap takes, and [iput] of the last reference to an inode without links
    gives the inode back. *)

From S2P Require Import Prelude StringC Bytes Sleeplock UserMem Blocks Fs FsSpec FsFile FsCache FsRead FsWrite FsWritei.

(** The blocks [F] were freed, and nothing else has changed. *)
Record freed_all (v : gmap Z (list Z)) (sb : superblock) (v' : gmap Z (list Z)) (F : gset Z) : Prop := {
  fa_bit : forall c, 0 <= c < sb_size sb -> bit v' sb c = if decide (c ∈ F) then Some false else bit v sb c;
  fa_other : forall c, ~ meta sb c -> v' !! c = v !! c;
  fa_ok : disk_ok v' sb
}.

Lemma freed_none v sb : disk_ok v sb -> freed_all v sb v ∅.
Proof. intros Hk. split; [|done|done]. intros c _. by rewrite decide_False by set_solver. Qed.

Lemma freed_more v sb v1 v2 F b : freed_all v sb v1 F -> freed v1 sb v2 b -> freed_all v sb v2 ({[b]} ∪ F).
Proof.
  intros [A1 A2 A3] [B1 B2 B3]. split; [|intros c Hc; by rewrite B2, A2|done]. intros c Hc. rewrite B1 by done. destruct (decide (c = b)) as [->|Hne]; [by rewrite decide_True by set_solver|].
  rewrite A1 by done. destruct (decide (c ∈ F)); [by rewrite decide_True by set_solver|by rewrite decide_False by set_solver].
Qed.

(** The first [n] blocks of a file. *)
Definition blocks (v : gmap Z (list Z)) (a : list Z) (n : nat) : gset Z := list_to_set (filter (fun b => b <> 0) ((fun k => blockof v a (Z.of_nat k)) <$> seq 0 n)).

Lemma elem_blocks v a n b : b ∈ blocks v a n <-> b <> 0 /\ exists k, (k < n)%nat /\ blockof v a (Z.of_nat k) = b.
Proof.
  unfold blocks. rewrite elem_of_list_to_set, list_elem_of_filter, list_elem_of_fmap. setoid_rewrite elem_of_seq. split.
  - intros (H0 & k & -> & Hk). split; [done|]. exists k. split; [lia|done].
  - intros (H0 & k & Hk & <-). split; [done|]. exists k. split; [done|lia].
Qed.

Lemma blocks_0 v a : blocks v a 0 = ∅.
Proof. done. Qed.

Lemma blocks_S v a n : blocks v a (S n) = if decide (blockof v a (Z.of_nat n) = 0) then blocks v a n else {[blockof v a (Z.of_nat n)]} ∪ blocks v a n.
Proof.
  apply set_eq. intros b. destruct (decide (blockof v a (Z.of_nat n) = 0)) as [E|E]; rewrite ?elem_of_union, ?elem_of_singleton, !elem_blocks; split.
  - intros (H0 & k & Hk & Hb). split; [done|]. exists k. split; [|done]. destruct (decide (k = n)) as [->|]; [congruence|lia].
  - intros (H0 & k & Hk & Hb). split; [done|]. exists k. split; [lia|done].
  - intros (H0 & k & Hk & Hb). destruct (decide (k = n)) as [->|]; [by left|right]. split; [done|]. exists k. split; [lia|done].
  - intros [->|(H0 & k & Hk & Hb)]; (split; [done|]); [exists n; split; [lia|done]|]. exists k. split; [lia|done].
Qed.

Section FsTrunc.
Context {S U : Type} {HS : HasCtx S} {HO : BlockOps S} {HB : Blocks S} {HU : UserMem U}.

Abbreviation fss := (fss S U).

(** The bitmap is the block [B]; the log has room for [m] blocks with it. *)
Definition paid (s : fss) (B : Z) (g : gblocks) (n m : nat) : Prop :=
  (n <= g_bufs g /\ m <= g_logs g)%nat \/ B ∈ bk_logged (fblk s) /\ (n <= g_bufs g + 1 /\ m <= g_logs g + 1)%nat.

Lemma paid_log (s s' : fss) B g n m : paid s B g n m -> bk_logged (fblk s) ⊆ bk_logged (fblk s') -> paid s' B g n m.
Proof. intros [?|[H ?]] Hl; [by left|right]. split; [by apply Hl|done]. Qed.

Context (sb : superblock) (v0 : gmap Z (list Z)) (a0 : list Z) (B : Z).
Context (Hk0 : disk_ok v0 sb) (Hf0 : file_ok v0 sb a0) (HB1 : forall b, 0 <= b < sb_size sb -> BBLOCK b sb = B).

(** [bfree] of a block that is not freed yet. *)
Lemma bfree_step (s : fss) g F b n m : frep s g -> fsb s = sb -> freed_all v0 sb (g_view g) F -> good v0 sb b -> b ∉ F -> (forall i c, g_held g !! i = Some c -> ~ meta sb c) ->
  (3 <= n)%nat -> (2 <= m)%nat -> paid s B g n m ->
  exists s' g', bfree bk_dev b s = Ret tt s' /\ frep s' g' /\ g_held g' = g_held g /\ fstay s s' /\ freed_all v0 sb (g_view g') ({[b]} ∪ F) /\ paid s' B g' n m.
Proof using HB1.
  clear Hk0 Hf0. intros Hr Hsb HF [G1 G2 G3 G4] Hb Hh Hn Hm Hp. assert (Hroom : (2 <= g_bufs g /\ 1 <= g_logs g)%nat) by (destruct Hp as [?|[_ ?]]; lia). destruct Hroom as [Hr1 Hr2]. assert (Hbv : is_Some (g_view g !! b)) by (by rewrite (fa_other _ _ _ _ HF)).
  destruct (bfree_ok s g b Hr) as [[Hbit _]|(_ & s' & v' & E & Hr' & Hy & Hfr & Hlog)]; rewrite ?Hsb; try done; [apply HF| |].
  { rewrite Hsb in Hbit. rewrite (fa_bit _ _ _ _ HF), decide_False, G2 in Hbit by done. done. }
  rewrite Hsb, HB1 in * by done. eexists s', _. split_and!; [exact E|exact Hr'|done|done|cbn; by apply (freed_more v0 sb (g_view g))|]. right. split; [done|]. cbn. unfold cost. destruct Hp as [Hp|[Hp1 Hp2]]; [case_decide; lia|]. rewrite decide_True by done. lia.
Qed.

(** The blocks of the file are in use, and no two of them the same. *)
Lemma block_good k : (k < Z.to_nat MAXFILE)%nat -> blockof v0 a0 (Z.of_nat k) <> 0 -> good v0 sb (blockof v0 a0 (Z.of_nat k)) /\ blockof v0 a0 (Z.of_nat k) ∉ blocks v0 a0 k /\ blockof v0 a0 (Z.of_nat k) <> ind a0.
Proof using Hf0.
  clear HB1. intros Hk Hz. destruct (fo_blk _ _ _ Hf0 (Z.of_nat k) ltac:(lia) Hz) as [Hg Hi]. split_and!; [done| |done]. rewrite elem_blocks. intros (_ & j & Hj & E).
  apply (fo_inj _ _ _ Hf0 (Z.of_nat k) (Z.of_nat j)) in Hz; [lia|lia|lia|done].
Qed.

Lemma direct_at k : (k < 12)%nat -> a0 !! k = Some (blockof v0 a0 (Z.of_nat k)).
Proof using Hf0.
  clear HB1. intros Hk. pose proof (fo_len _ _ _ Hf0) as Hl. destruct (lookup_lt_is_Some_2 a0 k ltac:(lia)) as [x Hx]. unfold blockof. rewrite (proj2 (Z.ltb_lt _ _)) by (unfold NDIRECT; lia). by rewrite aget_of_nat, Hx.
Qed.

Lemma clear_next k : (k < 13)%nat -> <[k := 0]> (replicate k 0 ++ drop k a0) = replicate (Datatypes.S k) 0 ++ drop (Datatypes.S k) a0.
Proof using Hf0.
  clear HB1. intros Hk. pose proof (fo_len _ _ _ Hf0) as Hl. destruct (lookup_lt_is_Some_2 a0 k ltac:(lia)) as [x Hx]. rewrite (drop_S a0 x k Hx).
  rewrite insert_app_r_alt by (rewrite length_replicate; lia). rewrite length_replicate, Nat.sub_diag. change (replicate (Datatypes.S k) 0) with (0 :: replicate k 0). by rewrite replicate_cons_app, <- app_assoc.
Qed.

Lemma itrunc_direct_ok ip n m : (3 <= n)%nat -> (2 <= m)%nat -> forall j k (s : fss) g i, (k + j = 12)%nat -> frep s g -> fsb s = sb -> g_held g = ∅ -> aget (icache s) (ip - 1) = Some i -> i_dev i = bk_dev ->
  di_addrs (i_d i) = replicate k 0 ++ drop k a0 -> freed_all v0 sb (g_view g) (blocks v0 a0 k) -> paid s B g n m ->
  exists s' g', itrunc_direct j ip (Z.of_nat k) s = Ret tt s' /\ frep s' g' /\ g_held g' = ∅ /\ fmod ip (set_addrs (replicate 12 0 ++ drop 12 a0) i) s s' /\
    freed_all v0 sb (g_view g') (blocks v0 a0 12) /\ paid s' B g' n m.
Proof using Hf0 HB1.
  intros Hn Hm. pose proof (fo_len _ _ _ Hf0) as Hl. induction j as [|j IH]; intros k s g i Hkj Hr Hsb Hh Hi Hdev Ha HF Hp; cbn [itrunc_direct].
  { assert (k = 12%nat) as -> by lia. exists s, g. split_and!; try done. rewrite <- Ha, set_addrs_id. apply fstay_fmod; [done|apply fstay_refl]. }
  rewrite (bind_ret_l _ _ _ _ _ (geti_ok ip i s Hi)). pose proof (direct_at k ltac:(lia)) as Hx. set (x := blockof v0 a0 (Z.of_nat k)) in Hx.
  assert (Hx' : aget (di_addrs (i_d i)) (Z.of_nat k) = Some x) by (rewrite aget_of_nat, Ha, lookup_app_r, length_replicate, Nat.sub_diag, lookup_drop, Nat.add_0_r by (rewrite length_replicate; lia); done).
  rewrite Hx'. mstep. pose proof (clear_next k ltac:(lia)) as Hc. pose proof (blocks_S v0 a0 k) as HS'. fold x in HS'.
  assert (Hstep : exists s1 g1, (if x =? 0 then ret tt else bfree (i_dev i) x ;;; set_addr ip (Z.of_nat k) 0) s = Ret tt s1 /\ frep s1 g1 /\ g_held g1 = ∅ /\
    fmod ip (set_addrs (replicate (Datatypes.S k) 0 ++ drop (Datatypes.S k) a0) i) s s1 /\ freed_all v0 sb (g_view g1) (blocks v0 a0 (Datatypes.S k)) /\ paid s1 B g1 n m).
  { destruct (Z.eqb_spec x 0) as [E|E].
    - exists s, g. rewrite HS', decide_True by done. split_and!; try done. rewrite <- Hc, list_insert_id, <- Ha, set_addrs_id by (rewrite <- Ha, <- aget_of_nat, Hx', E; done). apply fstay_fmod; [done|apply fstay_refl].
    - destruct (block_good k ltac:(rewrite MAXFILE_eq; lia) E) as (Hg & Hnf & _). destruct (bfree_step s g _ x n m Hr Hsb HF Hg Hnf) as (s1 & g1 & E1 & Hr1 & Hh1 & Hy1 & HF1 & Hp1); [intros c d; by rewrite Hh, lookup_empty|done|done|done|].
      rewrite Hdev, (bind_ret_l _ _ _ _ _ E1). assert (Hi1 : aget (icache s1) (ip - 1) = Some i) by (by rewrite (fy_icache _ _ Hy1)).
      destruct (set_addr_ok ip i (Z.of_nat k) 0 s1 g1 Hi1) as (s2 & E2 & Hm2 & Hr2); [rewrite Ha, length_app, length_replicate, length_drop; lia|lia|done|].
      rewrite Nat2Z.id, Ha, Hc in Hm2. exists s2, g1. split_and!; [done|done|by rewrite Hh1|eapply fmod_trans; [by apply fstay_fmod|exact Hm2]|by rewrite HS', decide_False|by apply (paid_log s1); [|apply Hm2]]. }
  destruct Hstep as (s1 & g1 & E1 & Hr1 & Hh1 & Hm1 & HF1 & Hp1). rewrite (bind_ret_l _ _ _ _ _ E1).
  destruct (IH (Datatypes.S k) s1 g1 _ ltac:(lia) Hr1 ltac:(by rewrite (fm_sb _ _ _ _ Hm1)) Hh1 (fmod_get _ _ _ _ _ Hi Hm1) Hdev eq_refl HF1 Hp1) as (s2 & g2 & E2 & Hr2 & Hh2 & Hm2 & HF2 & Hp2).
  exists s2, g2. rewrite <- E2. split_and!; try done; [f_equal; lia|]. by eapply fmod_trans; [exact Hm1|exact Hm2].
Qed.

(** The entries of the indirect block [d], which is held as [bp]. *)
Lemma itrunc_indirect_ok bp d n m : (3 <= n)%nat -> (2 <= m)%nat -> ind a0 <> 0 -> v0 !! ind a0 = Some d -> forall j k (s : fss) g, (k + j = 256)%nat -> frep s g -> fsb s = sb -> g_held g = {[bp := ind a0]} ->
  freed_all v0 sb (g_view g) (blocks v0 a0 (12 + k)) -> paid s B g n m ->
  exists s' g', itrunc_indirect j bk_dev bp (Z.of_nat k) s = Ret tt s' /\ frep s' g' /\ g_held g' = g_held g /\ fstay s s' /\ freed_all v0 sb (g_view g') (blocks v0 a0 268) /\ paid s' B g' n m.
Proof using Hf0 HB1.
  intros Hn Hm Hz Hd. pose proof (fo_ind _ _ _ Hf0 Hz) as Hgi. induction j as [|j IH]; intros k s g Hkj Hr Hsb Hh HF Hp; cbn [itrunc_indirect].
  { assert (k = 256%nat) as -> by lia. exists s, g. split_and!; (done || apply fstay_refl). }
  assert (Hdv : g_view g !! ind a0 = Some d) by (rewrite (fa_other _ _ _ _ HF) by apply Hgi; done).
  rewrite (bind_ret_l _ _ _ _ _ (bdata_f s g bp (ind a0) d Hr ltac:(rewrite Hh; apply lookup_singleton_eq) Hdv)). cbv zeta.
  assert (Hx : blockof v0 a0 (Z.of_nat (12 + k)) = get32 (aoff (Z.of_nat k)) d).
  { unfold blockof. rewrite (proj2 (Z.ltb_ge _ _)), Hd by (unfold NDIRECT; lia). do 2 f_equal. unfold NDIRECT. lia. }
  pose proof (blocks_S v0 a0 (12 + k)) as HS'. rewrite Hx in HS'. set (x := get32 (aoff (Z.of_nat k)) d) in *.
  assert (Hstep : exists s1 g1, (if x =? 0 then ret tt else bfree bk_dev x) s = Ret tt s1 /\ frep s1 g1 /\ g_held g1 = g_held g /\ fstay s s1 /\ freed_all v0 sb (g_view g1) (blocks v0 a0 (Datatypes.S (12 + k))) /\ paid s1 B g1 n m).
  { rewrite HS'. destruct (Z.eqb_spec x 0) as [E|E]; [rewrite decide_True by done; exists s, g; split_and!; (done || apply fstay_refl)|]. rewrite decide_False by done.
    destruct (block_good (12 + k) ltac:(rewrite MAXFILE_eq; lia) ltac:(by rewrite Hx)) as (Hg & Hnf & _). rewrite Hx in Hg, Hnf. apply (bfree_step s g _ x n m); try done.
    intros c y. rewrite Hh, lookup_singleton_Some. intros [_ <-]. apply Hgi. }
  destruct Hstep as (s1 & g1 & E1 & Hr1 & Hh1 & Hy1 & HF1 & Hp1). rewrite (bind_ret_l _ _ _ _ _ E1).
  destruct (IH (Datatypes.S k) s1 g1 ltac:(lia) Hr1 ltac:(by rewrite (fy_sb _ _ Hy1)) ltac:(by rewrite Hh1)) as (s2 & g2 & E2 & Hr2 & Hh2 & Hy2 & HF2 & Hp2); [by replace (12 + Datatypes.S k)%nat with (Datatypes.S (12 + k)) by lia|done|].
  exists s2, g2. rewrite <- E2. split_and!; try done; [f_equal; lia|by rewrite Hh2|by eapply fstay_trans].
Qed.

(** The blocks of the file, with the indirect block. *)
Definition all_blocks : gset Z := if decide (ind a0 = 0) then blocks v0 a0 268 else {[ind a0]} ∪ blocks v0 a0 268.

Lemma elem_all b : b ∈ all_blocks <-> owned v0 a0 b.
Proof using Type.
  clear Hk0 Hf0 HB1. unfold all_blocks, owned. assert (Hb : b ∈ blocks v0 a0 268 <-> b <> 0 /\ exists bn, 0 <= bn < MAXFILE /\ blockof v0 a0 bn = b).
  { rewrite elem_blocks. split; intros (H0 & k & Hk & E); (split; [done|]); [exists (Z.of_nat k); rewrite MAXFILE_eq; split; [lia|done]|exists (Z.to_nat k); rewrite MAXFILE_eq in Hk; split; [lia|by rewrite Z2Nat.id by lia]]. }
  case_decide as E; rewrite ?elem_of_union, ?elem_of_singleton, Hb; [naive_solver|]. split; [intros [->|[? ?]]; [split; [done|by left]|naive_solver]|intros [H0 [<-|?]]; [by left|by right]].
Qed.

(** The part of [itrunc] for the indirect block. *)
Lemma free_ind (s : fss) g ip i n m : (4 <= n)%nat -> (2 <= m)%nat -> frep s g -> fsb s = sb -> g_held g = ∅ -> aget (icache s) (ip - 1) = Some i -> i_dev i = bk_dev ->
  di_addrs (i_d i) = replicate 12 0 ++ drop 12 a0 -> freed_all v0 sb (g_view g) (blocks v0 a0 12) -> paid s B g n m ->
  exists s' g', (a <- unwrap (aget (di_addrs (i_d i)) NDIRECT) ;;
    (if a =? 0 then ret tt else bp <- bread (i_dev i) a ;; itrunc_indirect (Z.to_nat NINDIRECT) (i_dev i) bp 0 ;;; brelse bp ;;; bfree (i_dev i) a ;;; set_addr ip NDIRECT 0)) s = Ret tt s' /\
    frep s' g' /\ g_held g' = ∅ /\ fmod ip (set_addrs (replicate 13 0) i) s s' /\ freed_all v0 sb (g_view g') all_blocks /\ paid s' B g' n m.
Proof using Hk0 Hf0 HB1.
  intros Hn Hm Hr Hsb Hh Hi Hdev Ha HF Hp. pose proof (fo_len _ _ _ Hf0) as Hl. unfold all_blocks. destruct (lookup_lt_is_Some_2 a0 12 ltac:(lia)) as [x Hx].
  assert (Hix : ind a0 = x) by (unfold ind, NDIRECT; change 12 with (Z.of_nat 12); by rewrite aget_of_nat, Hx).
  assert (Hx' : aget (di_addrs (i_d i)) NDIRECT = Some x) by (unfold NDIRECT; change 12 with (Z.of_nat 12); rewrite aget_of_nat, Ha, lookup_app_r, lookup_drop by done; exact Hx).
  assert (Hc : <[12%nat := 0]> (replicate 12 0 ++ drop 12 a0) = replicate 13 0) by (rewrite clear_next, drop_ge, app_nil_r by lia; done).
  rewrite Hx'. mstep. rewrite Hix. destruct (Z.eqb_spec x 0) as [E|E].
  { exists s, g. rewrite decide_True by done. split_and!; try done.
    - rewrite <- Hc, list_insert_id, <- Ha, set_addrs_id by (rewrite <- Ha; change 12%nat with (Z.to_nat 12); apply aget_lookup; by rewrite <- E). apply fstay_fmod; [done|apply fstay_refl].
    - replace (blocks v0 a0 268) with (blocks v0 a0 12); [done|]. apply set_eq. intros b. rewrite !elem_blocks. split; intros (H0 & k & Hk & Eb); (split; [done|]); exists k; (split; [|done]); [lia|].
      destruct (decide (k < 12)%nat); [done|]. exfalso. apply H0. rewrite <- Eb. unfold blockof. rewrite (proj2 (Z.ltb_ge _ _)), Hix, E, (dk_zero _ _ Hk0) by (unfold NDIRECT; lia). done. }
  rewrite decide_False, Hdev by done. pose proof (fo_ind _ _ _ Hf0 ltac:(by rewrite Hix)) as Hgi. rewrite Hix in Hgi. destruct (gd_view _ _ _ Hgi) as [d Hd].
  assert (Hroom : (3 <= g_bufs g)%nat) by (destruct Hp as [?|[_ ?]]; lia).
  destruct (bread_f s g x (g_bufs g - 1) Hr) as (bp & s1 & E1 & _ & Hr1 & Hy1); [rewrite (fa_other _ _ _ _ HF) by apply Hgi; eauto|intros j; by rewrite Hh, lookup_empty|lia|]. rewrite (bind_ret_l _ _ _ _ _ E1).
  rewrite Hh, insert_empty in Hr1. set (g1 := mkg _ _ _ _) in Hr1.
  destruct (itrunc_indirect_ok bp d (n - 1) m ltac:(lia) Hm ltac:(by rewrite Hix) ltac:(by rewrite Hix) 256 0 s1 g1 eq_refl Hr1) as (s2 & g2 & E2 & Hr2 & Hh2 & Hy2 & HF2 & Hp2); [by rewrite (fy_sb _ _ Hy1)|by rewrite Hix|done| |].
  { apply (paid_log s); [|apply Hy1]. destruct Hp as [?|[? ?]]; [left|right; split; [done|]]; cbn; lia. }
  change (Z.to_nat NINDIRECT) with 256%nat. rewrite (bind_ret_l _ _ _ _ _ E2). destruct (brelse_f s2 g2 bp x Hr2) as (s3 & E3 & Hr3 & Hy3); [rewrite Hh2; apply lookup_singleton_eq|]. rewrite (bind_ret_l _ _ _ _ _ E3).
  rewrite Hh2 in Hr3. cbn [g_held g1] in Hr3. rewrite delete_singleton_eq in Hr3. set (g3 := mkg _ _ _ _) in Hr3.
  assert (Hy : fstay s s3) by (eapply fstay_trans; [exact Hy1|]; by eapply fstay_trans).
  assert (Hp3 : paid s3 B g3 n m) by (apply (paid_log s2); [destruct Hp2 as [?|[? ?]]; [left|right; split; [done|]]; cbn; lia|apply Hy3]).
  destruct (bfree_step s3 g3 _ x n m Hr3 ltac:(by rewrite (fy_sb _ _ Hy)) HF2 Hgi) as (s4 & g4 & E4 & Hr4 & Hh4 & Hy4 & HF4 & Hp4); [|intros c y; cbn; by rewrite lookup_empty|lia|done|done|].
  { rewrite elem_blocks. intros (_ & k & Hk & Eb). destruct (block_good k ltac:(rewrite MAXFILE_eq; lia) ltac:(by rewrite Eb)) as (_ & _ & Hne). congruence. }
  rewrite (bind_ret_l _ _ _ _ _ E4). assert (Hy' : fstay s s4) by (by eapply fstay_trans). assert (Hi4 : aget (icache s4) (ip - 1) = Some i) by (by rewrite (fy_icache _ _ Hy')).
  destruct (set_addr_ok ip i NDIRECT 0 s4 g4 Hi4) as (s5 & E5 & Hm5 & Hr5); [rewrite Ha, length_app, length_replicate, length_drop; lia|done|done|]. change (Z.to_nat NDIRECT) with 12%nat in Hm5. rewrite Ha, Hc in Hm5.
  exists s5, g4. split_and!; [done|done|by rewrite Hh4|eapply fmod_trans; [by apply fstay_fmod|exact Hm5]|done|by apply (paid_log s4); [|apply Hm5]].
Qed.

Lemma iupdate_any (s : fss) g ip i d : frep s g -> g_held g = ∅ -> aget (icache s) (ip - 1) = Some i -> i_dev i = bk_dev -> length (di_addrs (i_d i)) = 13%nat ->
  let ib := IBLOCK (i_inum i) (fsb s) in g_view g !! ib = Some d -> (2 <= g_bufs g)%nat -> (1 <= g_logs g)%nat ->
  exists s', iupdate ip s = Ret tt s' /\ fstay s s' /\ frep s' (mkg (<[ib := put_dinode (doff (i_inum i)) (i_d i) d]> (g_view g)) ∅ (g_bufs g - cost s ib) (g_logs g - cost s ib)) /\ ib ∈ bk_logged (fblk s').
Proof using Type.
  clear Hk0 Hf0 HB1. intros Hr Hh Hi Hdev Hl ib Hd Hn Hm. pose proof (bk_len _ _ _ _ Hr Hd) as Hld. unfold iupdate. mstep. rewrite (bind_ret_l _ _ _ _ _ (geti_ok ip i s Hi)), Hdev.
  destruct (change_any s g ib d (put_dinode (doff (i_inum i)) (i_d i) d) Hr Hd ltac:(intros j; by rewrite Hh, lookup_empty) Hn Hm) as (bp & s1 & s2 & s3 & E1 & E2 & E3 & E4 & Hr3 & Hy3 & Hlog).
  { rewrite put_dinode_length; [done|done|by apply doff_range]. }
  run E1. run E2. run E3. exists s3. rewrite Hh in Hr3. by split_and!.
Qed.

(** The inode without its blocks. *)
Definition emptied (i : inode) : inode := set_i_d (set_di_size 0 (set_di_addrs (replicate 13 0) (i_d i))) i.

Lemma itrunc_ok (s : fss) g ip i d : frep s g -> fsb s = sb -> g_view g = v0 -> g_held g = ∅ -> aget (icache s) (ip - 1) = Some i -> i_dev i = bk_dev -> di_addrs (i_d i) = a0 ->
  let ib := IBLOCK (i_inum i) sb in ~ meta sb ib -> v0 !! ib = Some d -> (4 <= g_bufs g)%nat -> (3 <= g_logs g)%nat ->
  exists s' v' n m, itrunc ip s = Ret tt s' /\ fmod ip (emptied i) s s' /\ freed_all v0 sb v' all_blocks /\
    frep s' (mkg (<[ib := put_dinode (doff (i_inum i)) (i_d (emptied i)) d]> v') ∅ n m) /\ ib ∈ bk_logged (fblk s') /\ (g_bufs g <= n + 2 /\ g_logs g <= m + 2)%nat.
Proof using Hk0 Hf0 HB1.
  intros Hr Hsb Hv Hh Hi Hdev Ha ib Hib Hd Hn Hm. unfold itrunc. assert (Hp : paid s B g (g_bufs g) (g_logs g)) by (by left).
  destruct (itrunc_direct_ok ip (g_bufs g) (g_logs g) ltac:(lia) ltac:(lia) 12 0 s g i eq_refl Hr Hsb Hh Hi Hdev Ha) as (s1 & g1 & E1 & Hr1 & Hh1 & Hm1 & HF1 & Hp1); [rewrite Hv, blocks_0; by apply freed_none|done|].
  change (Z.to_nat NDIRECT) with 12%nat. rewrite (bind_ret_l _ _ _ _ _ E1). pose proof (fmod_get _ _ _ _ _ Hi Hm1) as Hi1. set (i1 := set_addrs _ i) in Hm1, Hi1. rewrite (bind_ret_l _ _ _ _ _ (geti_ok ip i1 s1 Hi1)).
  destruct (free_ind s1 g1 ip i1 (g_bufs g) (g_logs g) ltac:(lia) ltac:(lia) Hr1) as (s2 & g2 & E2 & Hr2 & Hh2 & Hm2 & HF2 & Hp2); [by rewrite (fm_sb _ _ _ _ Hm1)|done|done|done|done|done|done|].
  rewrite (bind2_ret_l _ _ _ _ _ _ E2). set (i2 := set_addrs _ i1) in Hm2. pose proof (fmod_trans _ _ _ _ _ _ Hm1 Hm2) as Hm12. pose proof (fmod_get _ _ _ _ _ Hi Hm12) as Hi2. unfold setd.
  destruct (seti_ok ip i2 (fun j => set_i_d (set_di_size 0 (i_d j)) j) s2 Hi2) as (s3 & E3 & Hm3 & Hb3). rewrite (bind_ret_l _ _ _ _ _ E3). pose proof (fmod_trans _ _ _ _ _ _ Hm12 Hm3) as Hm13.
  assert (Hi3 : aget (icache s3) (ip - 1) = Some (emptied i)) by exact (fmod_get _ _ _ _ _ Hi Hm13). assert (Hr3 : frep s3 g2) by (unfold frep; by rewrite Hb3). assert (Hsb3 : fsb s3 = sb) by (by rewrite (fm_sb _ _ _ _ Hm13)).
  assert (Hroom : (g_bufs g <= g_bufs g2 + 1 /\ g_logs g <= g_logs g2 + 1)%nat) by (destruct Hp2 as [?|[_ ?]]; lia).
  destruct (iupdate_any s3 g2 ip (emptied i) d Hr3 Hh2 Hi3 Hdev eq_refl) as (s4 & E4 & Hy4 & Hr4 & Hlog); rewrite ?Hsb3; [rewrite (fa_other _ _ _ _ HF2) by done; done|lia|lia|]. rewrite Hsb3 in Hr4, Hlog.
  eexists s4, (g_view g2), _, _. split_and!; [exact E4|eapply fmod_trans; [exact Hm13|by apply fstay_fmod]|done|exact Hr4|done|unfold cost; case_decide; lia|unfold cost; case_decide; lia].
Qed.
End FsTrunc.

(** ** The last reference *)

(** The inode on the disk once it is given back. *)
Definition dead (di : dinode) : dinode := set_di_type 0 (set_di_size 0 (set_di_addrs (replicate 13 0) di)).

(** The disk after the file of [i] was given back: its blocks are free, its inode
    has no type, and the rest is as it was. *)
Record given_back (v : gmap Z (list Z)) (sb : superblock) (i : inode) (v' : gmap Z (list Z)) : Prop := {
  gb_freed : forall c, 0 <= c < sb_size sb -> owned v (di_addrs (i_d i)) c -> bit v' sb c = Some false;
  gb_kept : forall c, 0 <= c < sb_size sb -> ~ owned v (di_addrs (i_d i)) c -> bit v' sb c = bit v sb c;
  gb_other : forall y, ~ meta sb y -> y <> IBLOCK (i_inum i) sb -> v' !! y = v !! y;
  gb_disk : on_disk v' sb (i_inum i) (dead (i_d i));
  gb_inodes : forall inum di, 0 <= inum -> doff inum <> doff (i_inum i) \/ IBLOCK inum sb <> IBLOCK (i_inum i) sb -> ~ meta sb (IBLOCK inum sb) -> on_disk v sb inum di -> on_disk v' sb inum di;
  gb_ok : disk_ok v' sb
}.

Lemma given_back_ok v sb i v1 F d d1 : file_state v sb i -> freed_all v sb v1 F -> (forall b, b ∈ F <-> owned v (di_addrs (i_d i)) b) -> v !! IBLOCK (i_inum i) sb = Some d ->
  length (di_addrs d1) = 13%nat -> let o := doff (i_inum i) in given_back v sb i (<[IBLOCK (i_inum i) sb := put_dinode o (dead (i_d i)) (put_dinode o d1 d)]> v1).
Proof.
  intros [F1 F2 F3 F4 F5 (F6 & F6' & _) (S1 & S2 & S3 & S4)] [A1 A2 A3] HF Hd Hl1 o. set (ib := IBLOCK (i_inum i) sb) in *. pose proof (dk_len _ _ F1 _ _ Hd) as Hl. pose proof (doff_range (i_inum i) d Hl) as Ho.
  assert (Hlp : length (put_dinode o d1 d) = bsize) by (by rewrite put_dinode_length). pose proof (doff_range (i_inum i) _ Hlp) as Ho1.
  assert (Hlp2 : length (put_dinode o (dead (i_d i)) (put_dinode o d1 d)) = bsize) by (by rewrite put_dinode_length). pose proof (gd_meta _ _ _ F6) as Hnm.
  assert (Hbit : forall c d', 0 <= c < sb_size sb -> bit (<[ib := d']> v1) sb c = bit v1 sb c) by (intros c d' Hc; apply bit_other; intros E; apply Hnm; by exists c).
  split.
  - intros c Hc Ho'. rewrite Hbit, A1, decide_True by (done || by apply HF). done.
  - intros c Hc Ho'. rewrite Hbit, A1, decide_False by (done || by rewrite HF). done.
  - intros y Hy Hne. rewrite lookup_insert_ne by done. by apply A2.
  - eexists. split; [apply lookup_insert_eq|]. apply get_put_dinode; [|done]. split; cbn; try done. by repeat constructor.
  - intros inum di Hi Hne Hm (e & He & Hge). destruct (decide (IBLOCK inum sb = ib)) as [E|N]; [|exists e; by rewrite lookup_insert_ne, A2].
    eexists. rewrite E. split; [apply lookup_insert_eq|]. assert (e = d) as -> by (rewrite E in He; congruence). destruct Hne as [Hne|Hne]; [|done].
    rewrite <- Hge. assert (Hfar : (doff inum + 64 <= o \/ o + 64 <= doff inum)%nat) by (unfold o, doff, IPB in *; dlia). by rewrite !get_put_dinode_ne.
  - by apply disk_ok_other.
Qed.

Section Last.
Context {S U : Type} {HS : HasCtx S} {HO : BlockOps S} {HB : Blocks S} {HU : UserMem U}.

Abbreviation fss := (fss S U).

(** The entry of the cache is locked by its sleep lock under the cache's lock. *)
Lemma iput_lock fuel (s : fss) ip i : iready s -> aget (icache s) (ip - 1) = Some i -> i_lock i = sl_free -> (0 < fuel)%nat ->
  exists s1, acquire icache_lock s = Ret tt s1 /\ aget (icache s1) (ip - 1) = Some i /\ (i_acquiresleep fuel ip ;;; release icache_lock) s1 = Ret tt (upd_i ip (set_i_lock (mine s) i) s).
Proof.
  intros [Hw Hc Hl] Hi Hlk Hf. exists (set_cx (locked_cx icache_lock (cx s)) s). split_and!; [by apply acquire_ok|done|]. set (s1 := set_cx _ s). assert (E : cx s1 = locked_cx icache_lock (cx s)) by apply cx_set.
  assert (E1 : i_acquiresleep fuel ip s1 = Ret tt (upd_i ip (set_i_lock (mine s1) i) s1)).
  { apply i_acquire_ok; try done; rewrite E; [by apply locked_cx_wf|]. cbn. rewrite not_elem_of_cons. split; [done|apply Hl]. }
  rewrite (bind_ret_l _ _ _ _ _ E1). assert (Em : mine s1 = mine s) by (unfold mine; by rewrite E). rewrite Em. rewrite (release_ok icache_lock (cx s)); [|done|done|].
  - unfold upd_i. rewrite set_cx_twice. unfold s1. change (set_icache ?c (set_cx ?x s)) with (set_cx x (set_icache c s)). by rewrite set_cx_twice.
  - unfold upd_i. rewrite cx_set, E, locked_touch. by apply touch_locked.
Qed.

(** [iput] of the last reference to an inode without links. *)
Lemma iput_last fuel (s : fss) g ip i : iready s -> frep s g -> g_held g = ∅ -> aget (icache s) (ip - 1) = Some i -> i_dev i = bk_dev -> file_state (g_view g) (fsb s) i -> sb_size (fsb s) <= BPB ->
  i_ref i = 1 -> i_valid i = true -> di_nlink (i_d i) = 0 -> i_lock i = sl_free -> (0 < fuel)%nat -> (4 <= g_bufs g)%nat -> (3 <= g_logs g)%nat ->
  exists s' g', iput fuel ip s = Ret tt s' /\ frep s' g' /\ g_held g' = ∅ /\ fmod ip (mkin (i_dev i) (i_inum i) 0 sl_free false (dead (i_d i))) s s' /\ given_back (g_view g) (fsb s) i (g_view g').
Proof.
  intros Hr Hg Hh Hi Hdev Hfs Hbpb Href Hval Hnl Hlk Hf Hn Hm. set (sb := fsb s) in *. set (ib := IBLOCK (i_inum i) sb). pose proof (proj1 (fs_iblock _ _ _ Hfs)) as Hgib. fold ib in Hgib. destruct (gd_view _ _ _ Hgib) as [d Hd].
  unfold iput. destruct (iput_lock fuel s ip i Hr Hi Hlk Hf) as (s0 & E0 & Hi0 & E1). rewrite (bind_ret_l _ _ _ _ _ E0), (bind_ret_l _ _ _ _ _ (geti_ok ip i s0 Hi0)), Href, Hval, Hnl. change ((1 =? 1) && true && (0 =? 0)) with true. cbv iota.
  set (i1 := set_i_lock (mine s) i) in E1. set (s1 := upd_i ip i1 s) in E1. destruct (upd_i_ok ip i1 s g Hg) as [Hg1 Hm1]. fold s1 in Hg1, Hm1. pose proof (upd_i_get ip i i1 s Hi) as Hi1. fold s1 in Hi1.
  assert (HB1 : forall b, 0 <= b < sb_size sb -> BBLOCK b sb = BBLOCK 0 sb) by (intros b Hb; unfold BBLOCK; by rewrite (Z.div_small b), Z.div_0_l by (unfold BPB in *; lia)).
  destruct (itrunc_ok sb (g_view g) (di_addrs (i_d i)) (BBLOCK 0 sb) (fs_disk _ _ _ Hfs) (fs_file _ _ _ Hfs) HB1 s1 g ip i1 d Hg1 eq_refl eq_refl Hh Hi1 Hdev eq_refl (gd_meta _ _ _ Hgib) Hd Hn Hm) as (s2 & v2 & n2 & m2 & E2 & Hm2 & HF2 & Hr2 & Hlog2 & Hroom).
  set (d1 := put_dinode _ _ d) in Hr2. pose proof (fmod_trans _ _ _ _ _ _ Hm1 Hm2) as Hm12. pose proof (fmod_get _ _ _ _ _ Hi Hm12) as Hi2.
  destruct (seti_ok ip (emptied i1) (fun j => set_i_d (set_di_type 0 (i_d j)) j) s2 Hi2) as (s3 & E3 & Hm3 & Hb3). set (i3 := set_i_d _ (emptied i1)) in Hm3. pose proof (fmod_trans _ _ _ _ _ _ Hm12 Hm3) as Hm13. pose proof (fmod_get _ _ _ _ _ Hi Hm13) as Hi3.
  assert (Hsb3 : fsb s3 = sb) by (by rewrite (fm_sb _ _ _ _ Hm13)). set (g2 := mkg _ _ _ _) in Hr2. assert (Hr3 : frep s3 g2) by (unfold frep; by rewrite Hb3).
  destruct (iupdate_any s3 g2 ip i3 d1 Hr3 eq_refl Hi3 Hdev eq_refl) as (s4 & E4 & Hy4 & Hr4 & _); rewrite ?Hsb3; [apply lookup_insert_eq|cbn; lia|cbn; lia|]. rewrite Hsb3 in Hr4. set (g4 := mkg _ _ _ _) in Hr4.
  pose proof (fmod_trans _ _ _ _ _ _ Hm13 (fstay_fmod _ _ _ _ Hi3 Hy4)) as Hm14. pose proof (fmod_get _ _ _ _ _ Hi Hm14) as Hi4.
  destruct (seti_ok ip i3 (set_i_valid false) s4 Hi4) as (s5 & E5 & Hm5 & Hb5). pose proof (fmod_trans _ _ _ _ _ _ Hm14 Hm5) as Hm15. pose proof (fmod_get _ _ _ _ _ Hi Hm15) as Hi5.
  assert (Hir : forall s', touch (cx s') = touch (cx s) -> iready s') by (intros s' E; by apply (iready_touch s)). pose proof (Hir _ (fm_cx _ _ _ _ Hm15)) as Hr5. assert (Hg5 : frep s5 g4) by (unfold frep; by rewrite Hb5).
  pose proof (i_release_ok ip (set_i_valid false i3) s5 (ir_wf _ Hr5) (ir_lock _ Hr5 ip) Hi5) as E6. set (i6 := set_i_lock sl_free (set_i_valid false i3)) in E6. set (s6 := upd_i ip i6 s5) in E6.
  destruct (upd_i_ok ip i6 s5 g4 Hg5) as [Hg6 Hm6]. fold s6 in Hg6, Hm6. pose proof (fmod_trans _ _ _ _ _ _ Hm15 Hm6) as Hm16. pose proof (fmod_get _ _ _ _ _ Hi Hm16) as Hi6.
  destruct (critical_i ip i6 (fun i => set_i_ref (s32 (i_ref i - 1)) i) s6 (Hir _ (fm_cx _ _ _ _ Hm16)) Hi6) as (s7 & E7 & _ & E8). set (i8 := set_i_ref _ i6) in E8. set (s8 := upd_i ip i8 s6) in E8.
  destruct (upd_i_ok ip i8 s6 g4 Hg6) as [Hg8 Hm8]. fold s8 in Hg8, Hm8. exists s8, g4. split_and!; [|done|done| |].
  - rewrite (bind_ret_l _ _ s0 tt s7); [exact E8|]. rewrite (bind2_ret_l _ _ _ _ _ _ E1), (bind_ret_l _ _ _ _ _ E2). unfold setd. rewrite (bind_ret_l _ _ _ _ _ E3), (bind_ret_l _ _ _ _ _ E4), (bind_ret_l _ _ _ _ _ E5), (bind_ret_l _ _ _ _ _ E6). exact E7.
  - replace (mkin _ _ _ _ _ _) with i8; [by eapply fmod_trans|]. unfold i8, i6, i3. destruct i. cbn in *. by subst.
  - cbn [g_view g4 g2]. rewrite insert_insert_eq. apply (given_back_ok _ _ _ v2 _ d _ Hfs HF2); [intros b; by rewrite elem_all|done|done].
Qed.
End Last.
