(* ===== verification/FsDisk.v ===== *)
(** * The blocks of the file system on the buffer cache and the log

    Inside a transaction of the log, [bread], [log_write] and [brelse] give the
    file system the blocks it is proved against. *)

From S2P Require Import Prelude ListC Sleeplock Bytes Bio BioSpec BioUse Log LogSpec LogTx Blocks.

Definition ld_data (i : Z) : L (list Z) := on_bc (b <- getb i ;; ret (data b)).
Definition ld_set (i : Z) (d : list Z) : L unit := on_bc (setb i (set_data d)).
Definition ld_brelse (i : Z) : L unit := on_bc (brelse i).

Definition log_ops (fuel : nat) : BlockOps logst := {|
  bk_bread := lbread fuel; bk_data := ld_data; bk_set := ld_set; bk_log_write := log_write; bk_brelse := ld_brelse;
  bk_begin_op := begin_op fuel; bk_end_op := end_op fuel
|}.

Section FsDisk.
Context (fuel : nat) (Hfuel : (0 < fuel)%nat) (dv st : Z).

(** The disk itself and the disks before it, which only [end_op] changes, and the
    operations of the transaction, in a log of [sz] blocks. *)
Context (d0 : disk_t) (p0 : list disk_t) (ops : Z) (Hops : 1 <= ops) (sz : Z) (Hsz : LOGSIZE <= sz).

Definition disk_own (l : lock) : Prop := l = bcache_lock \/ (exists i, l = buf_lock i) \/ l = log_lock dv.

(** A transaction with room for [g_logs] more blocks, in front of a cache with
    [g_bufs] more buffers. *)
Record disk_rep (s : logst) (g : gblocks) (l : log) (D : gset (Z * Z)) (P : gmap (Z * Z) Z) (bl : list Z) (val : Z -> block) : Prop := {
  dr_tx : tx dv st s l D P (dom (g_held g)) bl val;
  dr_view : forall x d, g_view g !! x = Some d -> (0 < x < 2 ^ 31 /\ ~ in_log dv st (dv, x) /\ length d = 1024%nat) /\ blk (bc s) (dv, x) d;
  dr_held : forall i x, g_held g !! i = Some x -> exists d, g_view g !! x = Some d /\ holds_buf dv s i x d;
  dr_op : outstanding l = ops /\ committing l = false /\ lsize l = sz;
  dr_only : forall k, k.1 <> dv -> pins P k = 0;
  dr_disk : disk (bc s) = d0 /\ past (bc s) = p0;
  dr_logs : lh_n l + Z.of_nat (g_logs g) < LOGSIZE;
  dr_bufs : (size P + size (dom (g_held g)) + g_bufs g <= Z.to_nat NBUF)%nat
}.

(** The blocks in the log. *)
Definition ld_logged (s : logst) : gset Z :=
  match aget (logs s) dv with Some l => list_to_set (take (Z.to_nat (lh_n l)) (lh_block l)) | None => ∅ end.

Lemma tx_logged s l D P H bl val : tx dv st s l D P H bl val -> ld_logged s = list_to_set bl.
Proof.
  intros Hl. unfold ld_logged. rewrite (al_log _ _ _ _ _ _ _ (ld_at _ _ _ _ _ _ _ _ _ Hl)), (ld_n _ _ _ _ _ _ _ _ _ Hl), Nat2Z.id. f_equal. apply list_eq. intros t.
  pose proof (ld_len _ _ _ _ _ _ _ _ _ Hl). pose proof (ld_max _ _ _ _ _ _ _ _ _ Hl). destruct (bl !! t) as [b|] eqn:Hb.
  - pose proof (lookup_lt_Some _ _ _ Hb). rewrite lookup_take_lt by done. rewrite <- aget_of_nat. apply (ld_block _ _ _ _ _ _ _ _ _ Hl). by rewrite aget_of_nat.
  - apply lookup_ge_None in Hb. apply lookup_ge_None_2. rewrite length_take. lia.
Qed.

Lemma stays_logged s s' : stays s s' -> ld_logged s' = ld_logged s.
Proof. intros Hs. unfold ld_logged. by rewrite (sy_logs _ _ Hs). Qed.

Definition ld_rep (s : logst) (g : gblocks) : Prop := exists l D P bl val, disk_rep s g l D P bl val.

Lemma held_buf_cx s c i x d : holds_buf dv (set_cx c s) i x d <-> holds_buf dv s i x d.
Proof. done. Qed.

Lemma ld_ready s g : ld_rep s g -> ready disk_own (cx s).
Proof.
  intros (l & D & P & bl & val & H). pose proof (ld_at _ _ _ _ _ _ _ _ _ (dr_tx _ _ _ _ _ _ _ H)) as [_ _ _ [B1 B2 B3] B4]. split; [done|].
  intros k [->|[[i ->]| ->]]; [done|apply B3|done].
Qed.

Lemma tx_ready s l D P H bl val c : tx dv st s l D P H bl val -> ready disk_own c -> mypid c = mypid (cx s) -> tx dv st (set_cx c s) l D P H bl val.
Proof.
  intros Hl [Hw Ho] Hp. pose proof (ld_at _ _ _ _ _ _ _ _ _ Hl) as [A1 A2 A3 A4 A5].
  assert (Ha : at_log dv st (set_cx c s) l D P H).
  { split; [done|done|by apply bst_cx| |rewrite cx_set; apply Ho; by right; right]. rewrite cx_set. split; [done|apply Ho; by left|intros i; apply Ho; right; left; eauto]. }
  destruct Hl. by split.
Qed.

Lemma ld_cx_ok s g c : ld_rep s g -> ready disk_own c -> mypid c = mypid (cx s) -> ld_rep (set_cx c s) g.
Proof. intros (l & D & P & bl & val & [H1 H2 H3 H4 Honly H4' H5 H6]) Hc Hp. exists l, D, P, bl, val. split; try done. by apply tx_ready. Qed.
Lemma held_key s g l D P bl val i x b : disk_rep s g l D P bl val -> g_held g !! i = Some x -> aget (bufs (bc s)) i = Some b -> key b = (dv, x) /\ g_view g !! x = Some (data b).
Proof. intros H Hi Hb. destruct (dr_held _ _ _ _ _ _ _ H i x Hi) as (d & Hd & c & Hc & Hk & <-). assert (c = b) as -> by congruence. done. Qed.

(** The state after buffers were read or released. *)
Lemma rep_stays s g l D P bl val s' held n : disk_rep s g l D P bl val -> at_log dv st s' l D P (dom held) -> stays s s' ->
  (forall i x, held !! i = Some x -> exists d, g_view g !! x = Some d /\ holds_buf dv s' i x d) -> (size P + size (dom held) + n <= Z.to_nat NBUF)%nat ->
  disk_rep s' (mkg (g_view g) held n (g_logs g)) l D P bl val.
Proof.
  intros [H1 H2 H3 H4 Honly H4' H5 H6] Ha Hs Hh Hn. destruct (stays_disk _ _ Hs) as [Q1 Q2]. split; [by eapply tx_stays| |done|done|done|by rewrite Q1, Q2|done|done].
  intros x d Hx. destruct (H2 x d Hx) as [H Hb]. split; [done|]. apply (kp_blk (sy_kept _ _ Hs)); [|done]. intros [= _ ->]. lia.
Qed.

Lemma ld_bread_ok s g x n : ld_rep s g -> is_Some (g_view g !! x) -> (forall i, g_held g !! i <> Some x) -> g_bufs g = S n ->
  exists i s', lbread fuel dv x s = Ret i s' /\ g_held g !! i = None /\ ld_rep s' (mkg (g_view g) (<[i := x]> (g_held g)) n (g_logs g)) /\ cx s' = touch (cx s) /\ ld_logged s ⊆ ld_logged s'.
Proof.
  intros (l & D & P & bl & val & H) [d Hd] Hnh Hn. pose proof H as [H1 H2 H3 H4 Honly H4' H5 H6]. pose proof (ld_at _ _ _ _ _ _ _ _ _ H1) as Ha. destruct (H2 x d Hd) as ((Hx & _ & _) & Hb).
  assert (Hpin : forall y, 0 <= pins P (dv, y)) by (intros y; rewrite (ld_pins _ _ _ _ _ _ _ _ _ H1); case_decide; lia).
  destruct (lbread_ok fuel Hfuel dv st s l D P _ x d Ha) as (i & s' & E & Hi & Hhb & Ha' & Hs & Ho).
  { split; [done| |done|right; lia]. split; [done|]. intros i b Hi Hbi. apply elem_of_dom in Hi as [y Hy]. destruct (held_key _ _ _ _ _ _ _ _ _ _ H Hy Hbi) as [-> _].
    split; [|done]. intros [= ->]. by apply (Hnh i). }
  apply not_elem_of_dom in Hi. exists i, s'. split_and!; [done|done| |apply (kp_cx (sy_kept _ _ Hs))|by rewrite (stays_logged _ _ Hs)]. exists l, D, P, bl, val.
  apply (rep_stays s); [done|by rewrite dom_insert_L|done| |rewrite dom_insert_L, size_union, size_singleton by (apply not_elem_of_dom in Hi; set_solver); lia].
  intros j y. rewrite lookup_insert_Some. intros [[<- <-]|[Hij Hj]]; [by exists d|]. destruct (H3 j y Hj) as (e & He & Hhe). exists e. split; [done|].
  apply Ho; [by apply elem_of_dom_2 in Hj|done].
Qed.

Lemma ld_data_ok s g i x d : ld_rep s g -> g_held g !! i = Some x -> g_view g !! x = Some d -> ld_data i s = Ret d s.
Proof.
  intros (l & D & P & bl & val & H) Hi Hd. destruct (dr_held _ _ _ _ _ _ _ H i x Hi) as (e & He & b & Hb & Hk & Hbd). unfold ld_data.
  rewrite (on_bc_ok _ s d (bc s)); [by destruct s|]. run (getb_ok i b (bc s) Hb). unfold ret. f_equal. congruence.
Qed.

Lemma add_block_length x bl : (length (add_block x bl) <= S (length bl))%nat.
Proof. unfold add_block. case_decide; rewrite ?length_app; cbn; lia. Qed.

(** A write to a held buffer, of a block that is in the log already or not. *)
Lemma ld_write_any s g l D P bl val i x d n m : disk_rep s g l D P bl val -> g_held g !! i = Some x -> length d = 1024%nat -> (0 < g_bufs g)%nat -> (0 < g_logs g)%nat ->
  (x ∈ bl /\ n = g_bufs g /\ m = g_logs g \/ g_bufs g = S n /\ g_logs g = S m) ->
  exists s', (ld_set i d ;;; log_write i) s = Ret tt s' /\ ld_rep s' (mkg (<[x := d]> (g_view g)) (g_held g) n m) /\ cx s' = touch (cx s) /\ {[x]} ∪ ld_logged s ⊆ ld_logged s'.
Proof.
  intros H Hi Hl Hn0 Hm0 Hnm. pose proof H as [H1 H2 H3 H4 Honly H4' H5 H6]. destruct (H3 i x Hi) as (e & He & b & Hb & Hk & Hbd).
  destruct (H2 x e He) as ((Hx & Hnl & _) & _). assert (Hin : i ∈ dom (g_held g)) by (by apply elem_of_dom_2 in Hi).
  assert (Hs1 : (1 <= size (dom (g_held g)))%nat) by (rewrite <- (size_singleton i (C := gset Z)); apply subseteq_size; set_solver).
  destruct (log_write_ok dv st s l D P (dom (g_held g)) bl val i x b d) as (s' & l' & P' & E & Htx & Ho & Hcm & Hhb & Hd & Hp & Hls & [K1 K2 K2' K3 K4] & Hsame).
  { split; try done; lia. }
  pose proof (ld_n _ _ _ _ _ _ _ _ _ Htx) as Hn'. pose proof (ld_n _ _ _ _ _ _ _ _ _ H1) as Hn''. pose proof (add_block_length x bl) as Hal.
  assert (Hcost : (size P' + n <= size P + g_bufs g)%nat /\ lh_n l' + Z.of_nat m <= lh_n l + Z.of_nat (g_logs g)).
  { destruct Hnm as [(Hxb & -> & ->)|[Hn Hm]]; [|lia]. rewrite (Hsame Hxb). assert (Ea : add_block x bl = bl) by (unfold add_block; by rewrite decide_True). rewrite Ea in Hn'. lia. }
  exists s'. split_and!; [done| |done|].
  - eexists l', _, P', _, _. split; cbn [g_view g_held g_bufs g_logs]; [exact Htx| | |by rewrite Ho, Hcm, Hls|intros k Hk0; rewrite K2' by done; by apply Honly|by rewrite Hd, Hp|lia|lia].
    + intros y e'. rewrite lookup_insert_Some. intros [[<- <-]|[Hne Hy]].
      * split; [done|]. pose proof (ld_val _ _ _ _ _ _ _ _ _ Htx x) as Hv. unfold add_val in Hv. rewrite decide_True in Hv by done. apply Hv, elem_add_block. by left.
      * destruct (H2 y e' Hy) as [Hy' Hb']. split; [done|]. by apply K4.
    + intros j y Hj. destruct (decide (j = i)) as [->|Hne]; [assert (y = x) as -> by congruence; exists d; by rewrite lookup_insert_eq|].
      destruct (H3 j y Hj) as (e' & He' & Hb'). exists e'. split; [|by apply K3]. rewrite lookup_insert_ne; [done|]. intros <-.
      destruct Hb' as (c & Hc & Hkc & _). apply Hne. apply (bi_uniq (bs_inv (al_bst _ _ _ _ _ _ _ (ld_at _ _ _ _ _ _ _ _ _ H1))) j i c b Hc Hb); [congruence|]. rewrite Hkc. intros [= _ ->]. lia.
  - rewrite (tx_logged _ _ _ _ _ _ _ H1), (tx_logged _ _ _ _ _ _ _ Htx). intros y. rewrite elem_of_union, elem_of_singleton, !elem_of_list_to_set, elem_add_block. tauto.
Qed.

Lemma ld_write_ok s g i x d n m : ld_rep s g -> g_held g !! i = Some x -> length d = 1024%nat -> g_bufs g = S n -> g_logs g = S m ->
  exists s', (ld_set i d ;;; log_write i) s = Ret tt s' /\ ld_rep s' (mkg (<[x := d]> (g_view g)) (g_held g) n m) /\ cx s' = touch (cx s) /\ {[x]} ∪ ld_logged s ⊆ ld_logged s'.
Proof. intros (l & D & P & bl & val & H) Hi Hl Hn Hm. apply (ld_write_any s g l D P bl val); try done; [lia|lia|by right]. Qed.

Lemma ld_rewrite_ok s g i x d : ld_rep s g -> g_held g !! i = Some x -> length d = 1024%nat -> x ∈ ld_logged s -> (0 < g_bufs g)%nat -> (0 < g_logs g)%nat ->
  exists s', (ld_set i d ;;; log_write i) s = Ret tt s' /\ ld_rep s' (mkg (<[x := d]> (g_view g)) (g_held g) (g_bufs g) (g_logs g)) /\ cx s' = touch (cx s) /\ ld_logged s ⊆ ld_logged s'.
Proof.
  intros (l & D & P & bl & val & H) Hi Hl Hx Hn Hm. rewrite (tx_logged _ _ _ _ _ _ _ (dr_tx _ _ _ _ _ _ _ H)), elem_of_list_to_set in Hx.
  destruct (ld_write_any s g l D P bl val i x d (g_bufs g) (g_logs g) H Hi Hl Hn Hm) as (s' & E & Hr & Hc & Hs); [by left|]. exists s'. split_and!; try done. set_solver.
Qed.

Lemma ld_brelse_ok s g i x : ld_rep s g -> g_held g !! i = Some x ->
  exists s', ld_brelse i s = Ret tt s' /\ ld_rep s' (mkg (g_view g) (delete i (g_held g)) (S (g_bufs g)) (g_logs g)) /\ cx s' = touch (cx s) /\ ld_logged s ⊆ ld_logged s'.
Proof.
  intros (l & D & P & bl & val & H) Hi. pose proof H as [H1 H2 H3 H4 Honly H4' H5 H6]. destruct (H3 i x Hi) as (d & Hd & Hb). destruct (H2 x d Hd) as ((Hx & _) & _).
  assert (Hin : i ∈ dom (g_held g)) by (by apply elem_of_dom_2 in Hi).
  destruct (brelse_ok fuel Hfuel dv st s l D P _ i x d (ld_at _ _ _ _ _ _ _ _ _ H1) Hin Hb ltac:(lia)) as (s' & E & Ha' & Hs & Ho).
  exists s'. split_and!; [done| |apply (kp_cx (sy_kept _ _ Hs))|by rewrite (stays_logged _ _ Hs)]. exists l, D, P, bl, val. apply (rep_stays s); [done|by rewrite dom_delete_L|done| |].
  - intros j y. rewrite lookup_delete_Some. intros [Hne Hj]. destruct (H3 j y Hj) as (e & He & Hbe). exists e. split; [done|]. by apply Ho.
  - rewrite dom_delete_L, size_difference, size_singleton by set_solver. assert ((1 <= size (dom (g_held g)))%nat); [|lia].
    rewrite <- (size_singleton i (C := gset Z)). apply subseteq_size. set_solver.
Qed.

Lemma disk_own_not l : disk_own l -> l.1 <> "icache"%string /\ l.1 <> "inode"%string.
Proof. by intros [->|[[i ->]| ->]]. Qed.

#[local] Existing Instance log_ops.

Program Definition log_blocks : Blocks logst (HO := log_ops fuel) := {|
  bk_dev := dv; bk_own := disk_own; bk_logged := ld_logged; bk_rep := ld_rep; bk_own_not := disk_own_not; bk_ready := ld_ready; bk_cx := ld_cx_ok;
  bk_bread_ok := ld_bread_ok; bk_data_ok := ld_data_ok; bk_write_ok := ld_write_ok; bk_rewrite_ok := ld_rewrite_ok; bk_brelse_ok := ld_brelse_ok
|}.
Next Obligation. done. Qed.
Next Obligation. intros s g x d (l & D & P & bl & val & H) Hd. by destruct (dr_view _ _ _ _ _ _ _ H x d Hd) as ((_ & _ & ?) & _). Qed.
Next Obligation. intros s g x d (l & D & P & bl & val & H) Hd. by destruct (dr_view _ _ _ _ _ _ _ H x d Hd) as ((? & _) & _). Qed.
(** A transaction that starts: the blocks are those of the disk. *)
Lemma ld_begin s l D val (v : gmap Z (list Z)) : tx dv st s l D ∅ ∅ [] val -> outstanding l = ops -> committing l = false -> lsize l = sz -> disk (bc s) = d0 -> past (bc s) = p0 ->
  (forall x d, v !! x = Some d -> d0 !! (dv, x) = Some d /\ (0 < x < 2 ^ 31 /\ ~ in_log dv st (dv, x) /\ length d = 1024%nat)) -> ld_rep s (mkg v ∅ 30 29).
Proof using Type.
  clear Hfuel Hops Hsz.
  intros H1 Ho Hc Hls Hd Hp Hv. pose proof (ld_n _ _ _ _ _ _ _ _ _ H1) as Hn. cbn in Hn. unfold LOGSIZE, MAXOPBLOCKS in *. exists l, D, ∅, [], val.
  split; cbn [g_view g_held g_bufs g_logs]; rewrite ?dom_empty_L; try done.
  - intros x d Hx. destruct (Hv x d Hx) as [Hd0 Hr]. split; [done|]. apply (blk_clean _ D); [apply (bs_inv (al_bst _ _ _ _ _ _ _ (ld_at _ _ _ _ _ _ _ _ _ H1)))| |by rewrite Hd].
    rewrite (ld_dirty _ _ _ _ _ _ _ _ _ H1). apply not_elem_of_nil.
  - unfold LOGSIZE, MAXOPBLOCKS. lia.
Qed.
End FsDisk.

(** ** Between transactions *)

Section Quiet.
Context (fuel : nat) (Hfuel : (0 < fuel)%nat) (dv st : Z) (Hst : 0 < st) (Hend : st + LOGSIZE < 2 ^ 31).

(** No operation is under way, the log is empty, and the disk has the blocks [v]. *)
Record quiet (s : logst) (l : log) (v : gmap Z (list Z)) : Prop := {
  qt_tx : exists D val, tx dv st s l D ∅ ∅ [] val;
  qt_op : outstanding l = 0 /\ committing l = false /\ LOGSIZE <= lsize l;
  qt_head : exists h, disk (bc s) !! hkey dv st = Some h /\ hdr_n h = 0;
  qt_view : forall x d, v !! x = Some d -> disk (bc s) !! (dv, x) = Some d /\ (0 < x < 2 ^ 31 /\ ~ in_log dv st (dv, x) /\ length d = 1024%nat)
}.

Lemma tx_no_pins s l D P bl val : tx dv st s l D P ∅ bl val -> (forall k, pins P k = 0) -> tx dv st s l D ∅ ∅ bl val.
Proof using Type.
  clear Hfuel Hst Hend fuel. intros [A B1 B2 B3 B4 B5 B6 B7 B8 B9 B10 B11 B12] HP. assert (E : forall k, pins ∅ k = pins P k) by (intros k; by rewrite pins_empty, HP). split; try done.
  - destruct A as [A1 A2 [C1 C2 C3 C4 C5 C6 C7] A4 A5]. split; try done. split; try done.
    + intros i b Hb. rewrite E. by apply C2.
    + intros k Hk. rewrite E. by apply C7.
  - intros x. rewrite E. apply B8.
  - rewrite map_size_empty. unfold NBUF. lia.
Qed.

Lemma quiet_begin s l v : quiet s l v ->
  exists s', begin_op fuel dv s = Ret tt s' /\ ld_rep dv st (disk (bc s)) (past (bc s)) 1 (lsize l) s' (mkg v ∅ 30 29) /\ touch (cx s') = touch (cx s).
Proof using Hfuel.
  intros [(D & val & Htx) (Ho & Hc & Hls) _ Hv]. pose proof (ld_n _ _ _ _ _ _ _ _ _ Htx) as Hn. cbn in Hn.
  destruct (begin_op_ok dv st fuel s l D ∅ ∅ [] val Hfuel Htx) as [E Htx']; [unfold admits; by rewrite Hc, Ho, Hn|].
  eexists. split_and!; [exact E| |rewrite cx_set; apply touch_idemp]. apply (ld_begin dv st _ _ 1 (lsize l) _ (set_outstanding (outstanding l + 1) l) D val); try done. cbn. lia.
Qed.

Lemma quiet_end d0 p0 sz s g : LOGSIZE <= sz -> ld_rep dv st d0 p0 1 sz s g -> g_held g = ∅ -> (exists h, d0 !! hkey dv st = Some h /\ hdr_n h = 0) ->
  exists s' l' news new, end_op fuel dv s = Ret tt s' /\ quiet s' l' (g_view g) /\ lsize l' = sz /\ past (bc s') = news ++ p0 /\ all_or_nothing dv st d0 new news /\ same_home dv st (disk (bc s')) new /\
    (forall x d, g_view g !! x = Some d -> new !! (dv, x) = Some d) /\ touch (cx s') = touch (cx s).
Proof using Hfuel Hst Hend.
  intros Hsz (l & D & P & bl & val & [H1 H2 H3 (H4 & H4c & H4s) Honly [H4d H4p] H5 H6]) Hh (h & Hhd & Hn). rewrite Hh, dom_empty_L in H1. rewrite <- H4d in Hhd.
  destruct (end_op_ok fuel dv st s l D P bl val h Hfuel Hst Hend H1 H4 H4c Hhd Hn) as (s' & l' & P' & news & E & Htx & Ho & Hc & Hp & Ha & Hs & Hh' & Hls & Hpo & Hcx).
  rewrite H4d, H4p in *. set (new := committed dv bl val d0) in *.
  assert (Hnew : forall x d, g_view g !! x = Some d -> new !! (dv, x) = Some d).
  { intros x d Hx. destruct (H2 x d Hx) as ((Hr & _) & Hb). pose proof (bs_inv (al_bst _ _ _ _ _ _ _ (ld_at _ _ _ _ _ _ _ _ _ H1))) as Hbi. unfold new. destruct (decide (x ∈ bl)) as [Hin|Hnin].
    - rewrite committed_eq by done. f_equal. apply (blk_fun (bc s) D (dv, x) _ _ Hbi); [intros [= _ ->]; lia|by apply (ld_val _ _ _ _ _ _ _ _ _ H1)|done].
    - rewrite committed_ne by (rewrite elem_homes; intros (b & Hb' & [= ->]); done). rewrite <- H4d. apply (blk_disk _ _ _ _ Hbi); [|done]. by rewrite (ld_dirty _ _ _ _ _ _ _ _ _ H1). }
  exists s', l', news, new. split_and!; try done; [|by rewrite Hls]. split; [|by rewrite Hls, H4s|done|].
  - exists (D ∖ homes dv bl), val. apply (tx_no_pins _ _ _ P'); [done|]. intros [d x]. destruct (decide (d = dv)) as [->|Hd].
    + rewrite (ld_pins _ _ _ _ _ _ _ _ _ Htx). by rewrite decide_False by apply not_elem_of_nil.
    + rewrite Hpo by done. by apply Honly.
  - intros x d Hx. destruct (H2 x d Hx) as (Hr & _). split; [|done]. rewrite (Hs (dv, x)) by apply Hr. by apply Hnew.
Qed.
End Quiet.

(** ** How much the log takes *)

Section Capacity.
Context (fuel : nat) (Hfuel : (0 < fuel)%nat) (dv st : Z) (Hst : 0 < st) (Hend : st + LOGSIZE < 2 ^ 31).

(** The typical use of [log_write], for a list of blocks and their new bytes. *)
Fixpoint put_all (ws : list (Z * list Z)) : L unit :=
  match ws with
  | [] => ret tt
  | (x, d) :: ws => i <- lbread fuel dv x ;; (ld_set i d ;;; log_write i) ;;; ld_brelse i ;;; put_all ws
  end.

(** Blocks of the disk, with as many bytes as a block has. *)
Definition blocks_of (v : gmap Z (list Z)) (ws : list (Z * list Z)) : Prop := forall x d, (x, d) ∈ ws -> is_Some (v !! x) /\ length d = 1024%nat.

Section Ops.
Context (d0 : disk_t) (p0 : list disk_t) (ops : Z) (Hops : 1 <= ops) (sz : Z) (Hsz : LOGSIZE <= sz).

Lemma put_all_ok : forall ws s v n m, ld_rep dv st d0 p0 ops sz s (mkg v ∅ n m) -> (length ws <= m)%nat -> (length ws < n)%nat -> NoDup ws.*1 -> blocks_of v ws ->
  exists s', (forall ws', put_all (ws ++ ws') s = put_all ws' s') /\ ld_rep dv st d0 p0 ops sz s' (mkg (list_to_map ws ∪ v) ∅ (n - length ws) (m - length ws)) /\
    list_to_set ws.*1 ∪ ld_logged dv s ⊆ ld_logged dv s'.
Proof using Hfuel Hops Hsz.
  clear Hst Hend. induction ws as [|[x d] ws IH]; intros s v n m Hr Hm Hn Hnd Hws; cbn [length] in *.
  { exists s. split_and!; [done| |set_solver]. cbn. by rewrite !Nat.sub_0_r, (left_id_L ∅ (∪)). }
  destruct (Hws x d (list_elem_of_here _ _)) as [Hx Hd]. cbn in Hnd. apply list.NoDup_cons in Hnd as [Hxn Hnd].
  destruct (ld_bread_ok fuel Hfuel dv st d0 p0 ops Hops sz Hsz s _ x (n - 1) Hr Hx) as (i & s1 & E1 & _ & Hr1 & _ & Hl1); [intros i; cbn; by rewrite lookup_empty|cbn; lia|]. cbn in Hr1.
  destruct (ld_write_ok fuel Hfuel dv st d0 p0 ops Hops sz Hsz s1 _ i x d (n - 2) (m - 1) Hr1) as (s2 & E2 & Hr2 & _ & Hl2); [cbn; by rewrite lookup_insert_eq|done|cbn; lia|cbn; lia|]. cbn in Hr2.
  destruct (ld_brelse_ok fuel Hfuel dv st d0 p0 ops Hops sz Hsz s2 _ i x Hr2) as (s3 & E3 & Hr3 & _ & Hl3); [cbn; by rewrite lookup_insert_eq|]. cbn in Hr3.
  rewrite delete_insert_id in Hr3 by apply lookup_empty.
  destruct (IH s3 _ _ _ Hr3) as (s4 & E4 & Hr4 & Hl4); [lia|lia|done|intros y e He; destruct (Hws y e) as [Hy He']; [by right|]; split; [rewrite lookup_insert; case_decide; eauto|done]|].
  exists s4. split_and!.
  - intros ws'. cbn [app put_all]. run E1. run E2. run E3. apply E4.
  - replace (n - S (length ws))%nat with (S (n - 2) - length ws)%nat by lia. replace (m - S (length ws))%nat with (m - 1 - length ws)%nat by lia.
    replace (list_to_map ((x, d) :: ws) ∪ v) with (list_to_map ws ∪ <[x := d]> v); [exact Hr4|]. cbn. rewrite <- insert_union_l. symmetry. apply insert_union_r. by apply not_elem_of_list_to_map_1.
  - cbn. set_solver.
Qed.
End Ops.

Lemma log_full s l : aget (logs s) dv = Some l -> lsize l = LOGSIZE -> LOGSIZE - 1 <= lh_n l -> forall i b d, aget (bufs (bc s)) i = Some b -> dev b = dv ->
  (ld_set i d ;;; log_write i) s = Panic "too big a transaction".
Proof using Type.
  clear Hfuel Hst Hend. intros Hl Hs Hn i b d Hb Hdev. unfold ld_set. run (on_bc_ok _ s tt _ (setb_ok i b (set_data d) (bc s) Hb)). set (s1 := set_bc _ s). unfold log_write.
  assert (Hb1 : aget (bufs (bc s1)) i = Some (set_data d b)) by (by apply (upb_eq i b)). run (on_bc_ok _ s1 _ (bc s1) (getb_ok i _ (bc s1) Hb1)). cbn [set_data dev]. rewrite Hdev.
  run (getl_ok dv l (set_bc (bc s1) s1) Hl). rewrite (proj2 (Z.leb_le (lsize l - 1) _)) by lia. by rewrite orb_true_r.
Qed.

Lemma begins s l v : quiet dv st s l v -> lsize l = LOGSIZE ->
  exists s3 k, (begin_op fuel dv ;;; begin_op fuel dv ;;; begin_op fuel dv) s = Ret tt s3 /\ ld_rep dv st (disk (bc s)) (past (bc s)) 3 LOGSIZE s3 (mkg v ∅ 30 29) /\
    begin_op fuel dv s3 = Sleep log_chan (set_cx (touch (cx s3)) s3) k.
Proof using Hfuel.
  clear Hst Hend. intros [(D & val & Htx) (Ho & Hc & Hls) _ Hv] Hsz. pose proof (ld_n _ _ _ _ _ _ _ _ _ Htx) as Hn. cbn in Hn.
  destruct (begin_op_ok dv st fuel s l D ∅ ∅ [] val Hfuel Htx) as [E1 H1]; [unfold admits; by rewrite Hc, Ho, Hn|]. set (s1 := set_cx _ _) in E1, H1. set (l1 := set_outstanding _ l) in *.
  destruct (begin_op_ok dv st fuel s1 l1 D ∅ ∅ [] val Hfuel H1) as [E2 H2]; [unfold admits; cbn; by rewrite Hc, Ho, Hn|]. set (s2 := set_cx _ (upl _ _ s1)) in E2, H2. set (l2 := set_outstanding _ l1) in *.
  destruct (begin_op_ok dv st fuel s2 l2 D ∅ ∅ [] val Hfuel H2) as [E3 H3]; [unfold admits; cbn; by rewrite Hc, Ho, Hn|]. set (s3 := set_cx _ (upl _ _ s2)) in E3, H3. set (l3 := set_outstanding _ l2) in *.
  pose proof (ld_at _ _ _ _ _ _ _ _ _ H3) as Ha.
  destruct (begin_op_waits dv fuel s3 l3 Hfuel (al_log _ _ _ _ _ _ _ Ha) (br_wf _ (al_ready _ _ _ _ _ _ _ Ha)) (al_unlocked _ _ _ _ _ _ _ Ha)) as [k E4]; [unfold admits; cbn; by rewrite Hc, Ho, Hn|].
  exists s3, k. split_and!; [by run E1; run E2| |done]. apply (ld_begin dv st _ _ 3 LOGSIZE s3 l3 D val); try done. cbn. lia.
Qed.

Lemma ends d0 p0 ops sz s g : 1 < ops -> ld_rep dv st d0 p0 ops sz s g -> exists s', end_op fuel dv s = Ret tt s' /\ ld_rep dv st d0 p0 (ops - 1) sz s' g.
Proof using Type.
  clear Hfuel Hst Hend. intros Ho (l & D & P & bl & val & [H1 H2 H3 (H4 & H4c & H4s) Honly H4d H5 H6]).
  destruct (end_op_more fuel dv st s l D P _ bl val H1) as [E Htx]; [lia|done|]. eexists. split; [exact E|]. exists (set_outstanding (outstanding l - 1) l), D, P, bl, val.
  split; try done. cbn. split_and!; [lia|done|done].
Qed.

(** The log of a transaction with as many blocks as it has room for. *)
Lemma put_panics d0 p0 ops s v n m x d ws : 1 <= ops -> ld_rep dv st d0 p0 ops LOGSIZE s (mkg v ∅ (S n) m) -> (Z.to_nat LOGSIZE - 1 <= size (ld_logged dv s))%nat -> is_Some (v !! x) ->
  put_all ((x, d) :: ws) s = Panic "too big a transaction".
Proof using Hfuel.
  clear Hst Hend. intros Hops Hr Hfull Hx. assert (Hsz : LOGSIZE <= LOGSIZE) by lia.
  destruct (ld_bread_ok fuel Hfuel dv st d0 p0 ops Hops LOGSIZE Hsz s _ x n Hr Hx) as (i & s1 & E1 & _ & (l & D & P & bl & val & H) & _ & Hl1); [intros i; cbn; by rewrite lookup_empty|done|].
  cbn [put_all]. run E1. apply bind_panic. destruct (dr_held _ _ _ _ _ _ _ _ _ _ _ _ _ H i x) as (e & _ & b & Hb & Hk & _); [cbn; by rewrite lookup_insert_eq|].
  pose proof (dr_tx _ _ _ _ _ _ _ _ _ _ _ _ _ H) as Htx. apply (log_full s1 l (al_log _ _ _ _ _ _ _ (ld_at _ _ _ _ _ _ _ _ _ Htx))) with b; [apply H| |done|by injection Hk].
  rewrite (ld_n _ _ _ _ _ _ _ _ _ Htx). rewrite (tx_logged fuel Hfuel dv st s1 l D P _ bl val Htx) in Hl1. apply subseteq_size in Hl1.
  rewrite (size_list_to_set bl) in Hl1 by apply (ld_dup _ _ _ _ _ _ _ _ _ Htx). unfold LOGSIZE, MAXOPBLOCKS in *. lia.
Qed.

(** C8: The log takes one block less than the three operations it admits may write.
    From an idle log as mkfs makes it, three operations start, and a fourth waits.
    Any 29 different blocks they write with [log_write] go into the log, and the
    [end_op] of the last of them commits them all: every disk that existed while
    it ran is replayed by recovery to the old or the new contents, and the disk
    is the new one.  The 30th block panics, although each operation stays within
    [MAXOPBLOCKS]. *)
Theorem log_capacity s l v ws : quiet dv st s l v -> lsize l = LOGSIZE -> NoDup ws.*1 -> blocks_of v ws ->
  exists s3 s4 k, (begin_op fuel dv ;;; begin_op fuel dv ;;; begin_op fuel dv) s = Ret tt s3 /\ begin_op fuel dv s3 = Sleep log_chan s4 k /\
    if (length ws <=? 29)%nat then
      exists s5 s6 l' news new, put_all ws s3 = Ret tt s5 /\ (end_op fuel dv ;;; end_op fuel dv ;;; end_op fuel dv) s5 = Ret tt s6 /\ quiet dv st s6 l' (list_to_map ws ∪ v) /\
        past (bc s6) = news ++ past (bc s) /\ all_or_nothing dv st (disk (bc s)) new news /\ same_home dv st (disk (bc s6)) new
    else put_all ws s3 = Panic "too big a transaction".
Proof using Hfuel Hst Hend.
  intros Hq Hsz Hnd Hws. destruct (begins s l v Hq Hsz) as (s3 & k & E3 & Hr3 & E4). exists s3, (set_cx (touch (cx s3)) s3), k. split; [done|]. split; [exact E4|]. assert (H3 : 1 <= 3) by lia. assert (Hls : LOGSIZE <= LOGSIZE) by lia.
  destruct (Nat.leb_spec (length ws) 29) as [Hle|Hgt].
  - destruct (put_all_ok _ _ 3 H3 LOGSIZE Hls ws s3 v 30 29 Hr3 Hle ltac:(lia) Hnd Hws) as (s5 & E5 & Hr5 & _). specialize (E5 []). rewrite app_nil_r in E5.
    destruct (ends _ _ 3 _ _ _ ltac:(lia) Hr5) as (s7 & E7 & Hr7). destruct (ends _ _ 2 _ _ _ ltac:(lia) Hr7) as (s8 & E8 & Hr8).
    destruct (quiet_end fuel Hfuel dv st Hst Hend _ _ LOGSIZE s8 _ Hls Hr8 eq_refl (qt_head _ _ _ _ _ Hq)) as (s6 & l' & news & new & E6 & Hq6 & _ & Hp & Ha & Hsh & _).
    exists s5, s6, l', news, new. split_and!; try done. by run E7; run E8.
  - assert (Hlen : length (take 29 ws) = 29%nat) by (rewrite length_take; lia). rewrite <- (take_drop 29 ws) in Hnd. rewrite fmap_app in Hnd. apply list.NoDup_app in Hnd as (Hnd & _ & _).
    destruct (put_all_ok _ _ 3 H3 LOGSIZE Hls (take 29 ws) s3 v 30 29 Hr3 ltac:(lia) ltac:(lia) Hnd) as (s5 & E5 & Hr5 & Hl5); [intros x d Hx; apply Hws; apply elem_of_take in Hx as (t & Ht & _); by eapply list_elem_of_lookup_2|].
    destruct (drop 29 ws) as [|[x d] rest] eqn:Ed; [apply (f_equal length) in Ed; rewrite length_drop in Ed; cbn in Ed; lia|].
    rewrite <- (take_drop 29 ws), Ed, E5. rewrite Hlen in Hr5. apply (put_panics _ _ 3 _ _ _ _ x d rest H3 Hr5).
    + etransitivity; [|apply subseteq_size; etransitivity; [apply union_subseteq_l|exact Hl5]]. rewrite size_list_to_set by done. rewrite length_fmap, Hlen. done.
    + destruct (Hws x d) as [[e He] _]; [rewrite <- (take_drop 29 ws), Ed; apply elem_of_app; right; by left|]. apply lookup_union_is_Some. right. by exists e.
Qed.
End Capacity.
