(* ===== verification/FsBoot.v ===== *)
(** * Start-up of the file system

    [fsinit] reads the superblock and recovers the log. *)

From S2P Require Import Prelude ListC Sleeplock Bytes UserMem Blocks Bio BioSpec BioUse Log LogSpec LogTx FsDisk Fs.

Definition fsinit {U} {HU : UserMem U} {HO : BlockOps logst} (fuel : nat) (dev : Z) : M (fss logst U) unit :=
  readsb dev ;;;
  sb <- gets fsb ;;
  if negb (sb_magic sb =? FSMAGIC) then panic "invalid file system" else
  onb (initlog fuel dev {| logstart := sb_logstart sb; nlog := sb_nlog sb |}).

Section FsBoot.
Context {U : Type} {HU : UserMem U}.
Context (fuel : nat) (Hfuel : (0 < fuel)%nat) (dv : Z).

#[local] Instance boot_ops : BlockOps logst := log_ops fuel.

Lemma readsb_ok (s : fss logst U) l0 d : at_log dv (start l0) (fblk s) l0 ∅ ∅ ∅ -> disk (bc (fblk s)) !! (dv, 1) = Some d ->
  exists b, readsb dv s = Ret tt (set_fsb (get_super d) (set_fblk b s)) /\ at_log dv (start l0) b l0 ∅ ∅ ∅ /\ stays (fblk s) b.
Proof.
  intros Ha Hd. destruct (lbread_ok fuel Hfuel dv (start l0) (fblk s) l0 ∅ ∅ ∅ 1 d Ha) as (i & b1 & E1 & _ & Hi & Ha1 & Hs1 & _).
  { split; [lia|split; [by rewrite pins_empty|set_solver]| |right; rewrite map_size_empty, size_empty; unfold NBUF; lia].
    apply (blk_clean _ ∅); [apply (bs_inv (al_bst _ _ _ _ _ _ _ Ha))|set_solver|done]. }
  destruct (brelse_ok fuel Hfuel dv (start l0) b1 l0 ∅ ∅ _ i 1 d Ha1 ltac:(set_solver) Hi ltac:(lia)) as (b2 & E2 & Ha2 & Hs2 & _). exists b2. split_and!.
  - unfold readsb. rewrite (bind_ret_l (Fs.bread dv 1) _ s i (set_fblk b1 s)) by (by apply zoom_ret). destruct Hi as (b & Hb & _ & Hbd).
    rewrite (bind_ret_l (bdata i) _ (set_fblk b1 s) d (set_fblk b1 s)).
    + mstep. unfold Fs.brelse, onb. rewrite (zoom_ret fblk set_fblk (bk_brelse (BlockOps := boot_ops) i) (set_fsb (get_super d) (set_fblk b1 s)) tt b2 E2). done.
    + unfold bdata, onb. rewrite (zoom_ret fblk set_fblk (bk_data (BlockOps := boot_ops) i) (set_fblk b1 s) d b1); [done|]. change (ld_data i b1 = Ret d b1). unfold ld_data. rewrite (on_bc_ok _ b1 d (bc b1)); [by destruct b1|]. run (getb_ok i b (bc b1) Hb). by rewrite Hbd.
  - by replace ∅ with (({[i]} ∪ ∅) ∖ {[i]} : gset Z) by set_solver.
  - by eapply stays_trans.
Qed.

(** C14: [fsinit] on a disk with a superblock in block 1 and a log with committed
    blocks returns with the superblock in memory and every logged block in its
    home location; every disk that existed while it ran replays to the same
    contents.  On a disk with another magic number, whatever else is on it, it
    panics. *)
Theorem fsinit_recovers (s : fss logst U) l0 d :
  at_log dv (start l0) (fblk s) l0 ∅ ∅ ∅ -> disk (bc (fblk s)) !! (dv, 1) = Some d ->
  let sb := get_super d in
  let l := mklog (sb_logstart sb) (sb_nlog sb) (outstanding l0) (committing l0) dv (lh_n l0) (lh_block l0) in
  if sb_magic sb =? FSMAGIC then
    forall h bl, 0 < sb_logstart sb -> sb_logstart sb + LOGSIZE < 2 ^ 31 -> booted dv (sb_logstart sb) (upl dv l (fblk s)) l h bl ->
    exists s' news, fsinit fuel dv s = Ret tt s' /\ fsb s' = sb /\ past (bc (fblk s')) = news ++ past (bc (fblk s)) /\
      (forall x, x ∈ news -> same_home dv (sb_logstart sb) (replay dv (sb_logstart sb) x) (replay dv (sb_logstart sb) (disk (bc (fblk s))))) /\
      same_home dv (sb_logstart sb) (disk (bc (fblk s'))) (replay dv (sb_logstart sb) (disk (bc (fblk s)))) /\
      (exists h', disk (bc (fblk s')) !! hkey dv (sb_logstart sb) = Some h' /\ hdr_n h' = 0)
  else fsinit fuel dv s = Panic "invalid file system".
Proof.
  intros Ha Hd sb l. destruct (readsb_ok s l0 d Ha Hd) as (b & E & Ha' & Hs). unfold fsinit. run E. fold sb. mstep. change (fsb (set_fsb sb (set_fblk b s))) with sb.
  destruct (Z.eqb_spec (sb_magic sb) FSMAGIC) as [_|_]; [cbn [negb]; intros h bl Hst Hend Hb|done].
  pose proof (proj1 (aget_Some_lt _ _ _ (al_log _ _ _ _ _ _ _ Ha))) as Hdv. destruct (stays_disk _ _ Hs) as [Q1 Q2].
  assert (Hb' : booted dv (sb_logstart sb) (upl dv l b) l h bl).
  { destruct Hb as [B1 B2 B3 B4 B5 B6 B7 B8]. split; cbn [bc upl set_logs] in *; rewrite ?Q1; try done. destruct Ha' as [C1 C2 C3 C4 C5]. split; try done. by apply (upl_eq dv l0). }
  destruct (recover_ok fuel Hfuel dv (sb_logstart sb) Hdv Hst Hend _ _ _ _ Hb') as (b' & l' & P' & news & E' & _ & _ & _ & H1 & H2 & H3 & H4).
  cbn [bc upl set_logs] in *. rewrite Q1, Q2 in *. exists (set_fblk b' (set_fsb sb (set_fblk b s))), news. split_and!; try done.
  unfold onb. rewrite (zoom_ret _ _ _ _ tt b'); [done|]. unfold initlog. change (BSIZE <=? 4 + 4 * LOGSIZE) with false. cbv iota.
  by run (setl_ok dv l0 (fun l => mklog (sb_logstart sb) (sb_nlog sb) (outstanding l) (committing l) dv (lh_n l) (lh_block l)) b (al_log _ _ _ _ _ _ _ Ha')).
Qed.
End FsBoot.
