(* ===== verification/FsDemo.v ===== *)
(** * A small file system

    Disk 0 with sixty-four blocks, laid out as mkfs does it: the log from block 2,
    inodes in block 32, the bitmap in block 33, and a file of three bytes in
    block 34; 29 blocks are free. *)

From S2P Require Import Prelude StringC Bytes Sleeplock UserMem Bio BioSpec Log LogSpec LogTx LogProps Blocks Fs FsSpec FsFile FsRead FsWrite FsWritei FsDisk.

Abbreviation zblock := FsSpec.zeros.

Definition fs_super : superblock := mksb FSMAGIC 64 29 8 30 2 32 33.
Definition demo_bitmap : list Z := [255; 255; 255; 255; 7] ++ replicate 1019 0.
Definition demo_abc : list Z := [97; 98; 99] ++ replicate 1021 0.

(** Block 1 holds the superblock. *)
Definition demo_super : list Z := concat (le_bytes 4 <$> [FSMAGIC; 64; 29; 8; 30; 2; 32; 33]) ++ replicate 992 0.

(** Block 32 holds the inodes, of which number 1 is the file. *)
Definition demo_addrs : list Z := 34 :: replicate 12 0.
Definition demo_dinode : dinode := mkdi 2 0 0 1 3 demo_addrs.
Definition demo_inodes : list Z := put_dinode (doff 1) demo_dinode (replicate 1024 0).

Definition demo_block (x : Z) : list Z := if decide (x = 1) then demo_super else if decide (x = 32) then demo_inodes else if decide (x = 33) then demo_bitmap else if decide (x = 34) then demo_abc else zblock.
Definition demo_view : gmap Z (list Z) := list_to_map ((fun x => (x, demo_block x)) <$> seqZ 32 32).
Definition fs_disk0 : disk_t := list_to_map ((fun x => ((0, x), demo_block x)) <$> seqZ 1 63).

Lemma demo_table {K} `{Countable K} (f : Z -> K) (a n x : Z) : Inj (=) (=) f ->
  (list_to_map ((fun x => (f x, demo_block x)) <$> seqZ a n) : gmap K (list Z)) !! f x = if decide (a <= x < a + n) then Some (demo_block x) else None.
Proof.
  intros Hf. assert (Hkeys : ((fun x => (f x, demo_block x)) <$> seqZ a n).*1 = f <$> seqZ a n) by (rewrite <- list_fmap_compose; by apply list_fmap_ext).
  case_decide as Hx.
  - apply elem_of_list_to_map_1; [rewrite Hkeys; apply NoDup_fmap_2; [done|apply NoDup_seqZ]|]. apply list_elem_of_fmap. exists x. split; [done|]. by apply elem_of_seqZ.
  - apply not_elem_of_list_to_map_1. rewrite Hkeys. intros (y & E & Hy%elem_of_seqZ)%list_elem_of_fmap. apply Hf in E. by subst.
Qed.

Lemma demo_view_at x : demo_view !! x = if decide (32 <= x < 64) then Some (demo_block x) else None.
Proof. apply (demo_table id 32 32 x). apply _. Qed.

Lemma fs_disk0_at x : 1 <= x < 64 -> fs_disk0 !! (0, x) = Some (demo_block x).
Proof. intros Hx. unfold fs_disk0. rewrite (demo_table (pair 0) 1 63 x) by apply _. by rewrite decide_True by lia. Qed.

Lemma demo_super_ok : get_super demo_super = fs_super.
Proof. vm_compute. reflexivity. Qed.

Lemma demo_inodes_ok : get_dinode (doff 1) demo_inodes = demo_dinode.
Proof. vm_compute. reflexivity. Qed.

Lemma demo_block_length x : length (demo_block x) = bsize.
Proof. unfold demo_block. repeat case_decide; vm_compute; reflexivity. Qed.

#[global] Opaque demo_view fs_disk0.

Lemma demo_bits b : 0 <= b < 64 -> bit_in demo_bitmap b = Some (b <? 35).
Proof.
  intros Hb. assert (H : forallb (fun b => bool_decide (bit_in demo_bitmap b = Some (b <? 35))) (seqZ 0 64) = true) by (vm_compute; reflexivity).
  rewrite forallb_forall in H. specialize (H b). rewrite bool_decide_eq_true in H. apply H, list_elem_of_In, elem_of_seqZ. lia.
Qed.

Lemma demo_BBLOCK b : 0 <= b < 64 -> BBLOCK b fs_super = 33.
Proof. intros Hb. unfold BBLOCK, BPB. cbn [sb_bmapstart fs_super]. rewrite Z.div_small by lia. done. Qed.

Lemma demo_bit b : 0 <= b < 64 -> bit demo_view fs_super b = Some (b <? 35).
Proof.
  intros Hb. unfold bit. rewrite demo_BBLOCK by done. rewrite demo_view_at. rewrite decide_True by lia. cbn [mbind option_bind]. change (demo_block 33) with demo_bitmap.
  rewrite Z.mod_small by (unfold BPB; lia). by apply demo_bits.
Qed.

Lemma demo_frees : frees demo_view fs_super = 29%nat.
Proof.
  unfold frees. rewrite (filter_ext_in _ (fun b => (b <? 35) = false)); [vm_compute; reflexivity|]. intros b Hb%elem_of_seqZ. rewrite demo_bit by (cbn in Hb; lia). split; congruence.
Qed.

#[global] Opaque demo_bitmap demo_abc demo_super demo_inodes.

Lemma demo_disk_ok : disk_ok demo_view fs_super.
Proof.
  split; cbn [sb_size sb_bmapstart fs_super].
  - lia.
  - lia.
  - rewrite demo_view_at. by rewrite decide_False by lia.
  - intros b d. rewrite demo_view_at. case_decide; [intros [= <-]; apply demo_block_length|done].
  - intros b Hb. rewrite demo_BBLOCK, demo_view_at by done. rewrite decide_True by lia. eauto.
  - intros b Hb. rewrite demo_bit by done. intros [= E]. rewrite demo_view_at. rewrite decide_True by lia. eauto.
  - intros b b' Hb Hb'. rewrite demo_bit by done. intros [= E]. rewrite demo_BBLOCK by done. lia.
Qed.

(** The file has one block. *)
Lemma demo_blockof bn : 0 <= bn -> blockof demo_view demo_addrs bn = if decide (bn = 0) then 34 else 0.
Proof.
  intros Hb. unfold blockof. change (ind demo_addrs) with 0. rewrite (dk_zero _ _ demo_disk_ok). destruct (Z.ltb_spec bn NDIRECT); [|by rewrite decide_False by (unfold NDIRECT in *; lia)].
  unfold demo_addrs. rewrite aget_cons. destruct (Z.eqb_spec bn 0) as [->|Hne]; [done|]. rewrite decide_False by done.
  destruct (aget (replicate 12 0) (bn - 1)) as [x|] eqn:E; [|done]. by apply aget_lookup, lookup_replicate in E as [-> _].
Qed.

Lemma demo_good x : 32 <= x < 35 -> x <> 33 -> good demo_view fs_super x.
Proof.
  intros Hx Hne. split; [cbn; lia|rewrite demo_bit by lia; f_equal; lia|rewrite demo_view_at, decide_True by lia; eauto|]. intros (b & Hb & E). rewrite demo_BBLOCK in E; [lia|exact Hb].
Qed.

Lemma demo_file_ok : file_ok demo_view fs_super demo_addrs.
Proof.
  split; [done|done| |]; intros bn; [|intros bn']; intros Hbn; [|intros Hbn']; rewrite !demo_blockof by lia; repeat case_decide; try done; [|lia].
  intros _. split; [|done]. by apply demo_good.
Qed.

Definition demo_inode : inode := mkin 0 1 1 sl_free true demo_dinode.

Lemma demo_file : file_state demo_view fs_super demo_inode.
Proof.
  pose proof demo_disk_ok as Hk. assert (HI : IBLOCK 1 fs_super = 32) by done.
  split; cbn [i_d i_inum di_addrs di_size demo_inode demo_dinode di_type di_major di_minor di_nlink]; [done|apply demo_file_ok|by rewrite MAXFILE_eq| |lia| |done].
  - intros bn H1 H2. rewrite demo_blockof by done. by rewrite decide_True by lia.
  - rewrite HI. split_and!; [by apply demo_good|done|]. intros [_ [E|(bn & Hbn & E)]]; [done|]. rewrite demo_blockof in E by lia. by case_decide.
Qed.

(** The file once it has lost its last link. *)
Definition unlinked_inode : inode := set_i_d (mkdi 2 0 0 0 3 demo_addrs) demo_inode.

Lemma unlinked_file : file_state demo_view fs_super unlinked_inode.
Proof. destruct demo_file as [F1 F2 F3 F4 F5 F6 (S1 & S2 & S3 & S4)]. split; try done. Qed.

Definition fs_log1 : log := mklog 2 30 1 false 0 0 (replicate 30 0).
Definition demo_start : logst := fresh fs_disk0 [fs_log1].
Definition demo_mem : umem mem := mkumem (<[0 := 104]> (<[1 := 105]> (<[2 := 0]> (<[3 := 0]> ∅)))) ∅.
Definition fs_demo : fss logst mem := mkfs demo_start fs_super [demo_inode] demo_mem 0.
Definition demo_g : gblocks := mkg demo_view ∅ 30 29.
Definition demo_hi : list Z := [104; 105].

Lemma fs_header : fs_disk0 !! hkey 0 2 = Some zblock /\ hdr_n zblock = 0.
Proof. split; [|vm_compute; reflexivity]. unfold hkey. by rewrite fs_disk0_at by lia. Qed.

Lemma one_pos : (0 < 1)%nat.
Proof. lia. Qed.

Lemma one_op : 1 <= 1.
Proof. lia. Qed.

Lemma demo_logsize : LOGSIZE <= 30.
Proof. done. Qed.

(** The blocks of disk 0. *)
Definition demo_ops : BlockOps logst := log_ops 1.
Definition demo_blocks : Blocks logst (HO := demo_ops) := log_blocks 1 one_pos 0 2 fs_disk0 [] 1 one_op 30 demo_logsize.

Lemma demo_rep : ld_rep 0 2 fs_disk0 [] 1 30 demo_start demo_g.
Proof.
  destruct (fresh_log_ok fs_disk0 [fs_log1] fs_log1 eq_refl eq_refl) as (_ & Hd & Hp).
  apply (ld_begin 0 2 fs_disk0 [] 1 30 demo_start fs_log1 ∅ (fun _ => zblock)); [|done|done|done|exact Hd|exact Hp|].
  - apply fresh_tx; [done|done|done|done| |].
    + intros t Ht. unfold LOGSIZE, MAXOPBLOCKS in Ht. rewrite fs_disk0_at by lia. eauto.
    + intros h. rewrite fs_disk0_at by lia. intros E. injection E as <-. apply demo_block_length.
  - intros x d. rewrite demo_view_at. case_decide as Hx; [|done]. intros E. rewrite fs_disk0_at by lia. split; [done|]. split_and!; [lia|lia| |].
    + intros (t & Ht & [= E']). unfold LOGSIZE, MAXOPBLOCKS in Ht. lia.
    + injection E as <-. apply demo_block_length.
Qed.

Lemma demo_cx_eq : cx demo_start = demo_cx.
Proof. apply fresh_cx_eq. Qed.

#[global] Opaque demo_start.

Lemma demo_pre : write_pre (HB := demo_blocks) fs_demo demo_g 1 demo_inode true 0 3 demo_hi 1.
Proof.
  split; try done.
  - exact demo_rep.
  - exact demo_file.
  - right. done.
  - cbn. lia.
  - cbn. lia.
  - intros [|[|k]] x [= <-]; [done|done].
Qed.

Lemma demo_bufs : (6 <= g_bufs demo_g)%nat.
Proof. cbn. lia. Qed.

Lemma demo_room : (7 * 1 + 7 <= g_bufs demo_g)%nat.
Proof. cbn. lia. Qed.

Lemma demo_accessible j : 0 <= j < Z.of_nat (length demo_hi) -> is_Some (view true (fum fs_demo) (2 + j)).
Proof. intros Hj. cbn in Hj. assert (j = 0 \/ j = 1) as [->| ->] by lia; eauto. Qed.

Lemma fs_demo_inv : um_inv (um_user (fum fs_demo)).
Proof. exact I. Qed.

Lemma demo_frep : frep (HB := demo_blocks) fs_demo demo_g.
Proof. exact demo_rep. Qed.

Lemma demo_dev : i_dev demo_inode = bk_dev (HO := demo_ops) (Blocks := demo_blocks).
Proof. reflexivity. Qed.

(** ** A disk after a crash: block 100 is in the log *)

Definition crash_disk : disk_t := <[(0, 2) := demo_header]> (<[(0, 100) := zblock]> fs_disk0).
Definition crash_log : logst := fresh crash_disk [demo_log].
Definition crash_demo : fss logst mem := mkfs crash_log (mksb 0 0 0 0 0 0 0 0) [] demo_mem 0.

Lemma crash_disk_at x : 1 <= x < 64 -> x <> 2 -> crash_disk !! (0, x) = Some (demo_block x).
Proof. intros Hx Hne. unfold crash_disk. rewrite !lookup_insert_ne by (intros [=]; lia). by apply fs_disk0_at. Qed.

Lemma crash_booted : at_log 0 2 crash_log demo_log ∅ ∅ ∅ /\ disk (bc crash_log) = crash_disk /\ booted 0 2 (upl 0 demo_log crash_log) demo_log demo_header [100].
Proof.
  destruct (fresh_log_ok crash_disk [demo_log] demo_log eq_refl eq_refl) as (Ha & Hd & _). destruct demo_header_good as [Hg Hs]. unfold crash_log.
  generalize dependent (fresh crash_disk [demo_log]). intros s Ha Hd. split_and!; [done|done|]. apply (booted_upl 0 2 s demo_log); [apply Ha|done|done|]. split; try done.
  - rewrite Hd. apply lookup_insert_eq.
  - intros t Ht. rewrite Hd. unfold LOGSIZE, MAXOPBLOCKS in Ht. destruct (decide (t = 0)) as [->|Hne]; [unfold crash_disk; rewrite lookup_insert_eq; eauto|].
    rewrite crash_disk_at by lia. eauto.
  - intros b Hb. apply list_elem_of_singleton in Hb as ->. rewrite Hd. unfold crash_disk. rewrite lookup_insert_ne, lookup_insert_eq by done. eauto.
Qed.

#[global] Opaque crash_log.

Lemma crash_super : disk (bc (fblk crash_demo)) !! (0, 1) = Some demo_super.
Proof. change (fblk crash_demo) with crash_log. rewrite (proj1 (proj2 crash_booted)). by apply crash_disk_at. Qed.
