(* ===== verification/FsProps.v ===== *)
(** * The file system: its guarantees

    Files are read and written as bytes, on the blocks that any implementation of
    the interface offers; on the log, a write is atomic across crashes. *)

From S2P Require Import Prelude StringC Bytes Sleeplock UserMem Bio BioSpec Log LogSpec LogTx Blocks Fs FsSpec FsFile FsCache FsRead FsWrite FsWritei FsTrunc FsDisk FsBoot LogProps FsDemo.

(** A write inside a transaction of the log is atomic across crashes.
    [writei] runs out of blocks, or it returns the number of bytes and the file has
    them; then the [end_op] of the operation returns, and every disk that
    existed while it ran is replayed by recovery to the disk before the write, or to
    one with every block of the file system as the write left it. *)
Theorem writei_atomic {U} {HU : UserMem U} fuel (Hfuel : (0 < fuel)%nat) dv st d0 p0 (Hops : 1 <= 1) sz (Hsz : LOGSIZE <= sz) h (s : fss logst U) g ip i user src off bytes k :
  0 < st -> st + LOGSIZE < 2 ^ 31 -> d0 !! hkey dv st = Some h -> hdr_n h = 0 ->
  write_pre (HB := log_blocks fuel Hfuel dv st d0 p0 1 Hops sz Hsz) s g ip i user src off bytes k -> bytes <> [] -> off <= di_size (i_d i) -> off + Z.of_nat (length bytes) <= MAXFILE * 1024 ->
  let r := writei (HO := log_ops fuel) ip user src off (Z.of_nat (length bytes)) s in
  (frees (g_view g) (fsb s) < 2 * k)%nat /\ r = Panic "balloc: out of blocks" \/
  exists s' g' i' b' news new, r = Ret (Z.of_nat (length bytes)) s' /\ wrote (g_view g) i (g_view g') i' (fsb s) off bytes /\
    end_op fuel dv (fblk s') = Ret tt b' /\ past (bc b') = news ++ p0 /\ all_or_nothing dv st d0 new news /\ same_home dv st (disk (bc b')) new /\
    forall x d, g_view g' !! x = Some d -> new !! (dv, x) = Some d.
Proof.
  intros Hst Hend Hh Hn Hp Hne Hoff Hmax r. destruct (writei_ok (HB := log_blocks fuel Hfuel dv st d0 p0 1 Hops sz Hsz) _ _ _ _ _ _ _ _ _ Hp Hne Hoff Hmax) as [E|(s' & g' & i' & E & Hr & Hg & _ & Hw & _)]; [by left|right].
  destruct (quiet_end fuel Hfuel dv st Hst Hend d0 p0 sz (fblk s') g' Hsz Hr Hg (ex_intro _ h (conj Hh Hn))) as (b' & l' & news & new & E' & _ & _ & H1 & H2 & H3 & H4 & _).
  by exists s', g', i', b', news, new.
Qed.

(** Witness: two bytes are added to a file of three. *)
Lemma writei_atomic_witness :
  let r := writei (HO := demo_ops) 1 true 0 3 (Z.of_nat (length demo_hi)) fs_demo in
  (frees demo_view fs_super < 2 * 1)%nat /\ r = Panic "balloc: out of blocks" \/
  exists s' g' i' b' news new, r = Ret (Z.of_nat (length demo_hi)) s' /\ wrote demo_view demo_inode (g_view g') i' fs_super 3 demo_hi /\
    end_op 1 0 (fblk s') = Ret tt b' /\ past (bc b') = news ++ [] /\ all_or_nothing 0 2 fs_disk0 new news /\ same_home 0 2 (disk (bc b')) new /\
    forall x d, g_view g' !! x = Some d -> new !! (0, x) = Some d.
Proof.
  exact (writei_atomic 1 one_pos 0 2 fs_disk0 [] one_op 30 demo_logsize zblock fs_demo demo_g 1 demo_inode true 0 3 demo_hi 1 eq_refl eq_refl (proj1 fs_header) (proj2 fs_header) demo_pre
    ltac:(discriminate) ltac:(discriminate) ltac:(discriminate)).
Defined.

Section FsProps.
Context {S U : Type} {HS : HasCtx S} {HO : BlockOps S} {HB : Blocks S} {HU : UserMem U}.

Abbreviation fss := (fss S U).

(** C10: [writei] of bytes that can be read from memory.  An offset behind the end of
    the file, a sum that wraps around and an end beyond the largest file give -1 and
    change nothing, and so does a count of 0, which gives 0.  Otherwise it panics,
    which it does only on a disk with fewer free blocks than two for each block the
    bytes lie in, or it returns the count: the bytes of the file are those written
    and, elsewhere, those before; the size grows to the end of the write if that is
    larger; the inode on the disk is the one in memory; other inodes and the blocks
    of other files are as they were; and the state of the file is well formed again.
    The copy from an address that cannot be read, which leaves a buffer changed
    behind the log's back, is not covered. *)
Theorem writei_spec (s : fss) g ip i user src off bytes k :
  write_pre s g ip i user src off bytes k -> Z.of_nat (length bytes) < 2 ^ 32 ->
  let n := Z.of_nat (length bytes) in
  let r := writei ip user src off n s in
  if (di_size (i_d i) <? off) || (2 ^ 32 <=? off + n) || (MAXFILE * 1024 <? off + n) then r = Ret (-1) s
  else if n =? 0 then r = Ret 0 s
  else writei_outcome s g ip i off bytes k r.
Proof.
  intros Hp Hn n r. pose proof MAXFILE_eq as HM. pose proof (wp_off _ _ _ _ _ _ _ _ _ Hp) as Ho.
  destruct (writei_refuses s ip i user src off n (wp_get _ _ _ _ _ _ _ _ _ Hp) Ho ltac:(lia)) as [H1 H2].
  destruct ((di_size (i_d i) <? off) || (2 ^ 32 <=? off + n) || (MAXFILE * 1024 <? off + n)) eqn:E; [by apply H1|].
  apply orb_false_iff in E as [[E1%Z.ltb_ge E2%Z.leb_gt]%orb_false_iff E3%Z.ltb_ge]. destruct (Z.eqb_spec n 0) as [En|En].
  - unfold r. rewrite En. apply H2; lia.
  - apply (writei_ok s g ip i user src off bytes k Hp); [by intros ->|lia|lia].
Qed.

(** C11: [readi] clips the count to the end of the file and copies these bytes to
    memory; the disk does not change.  It returns the clipped count, also when the copy stopped at an address that cannot be accessed. *)
Theorem readi_spec (s : fss) g ip i user dst off n :
  file_state (g_view g) (fsb s) i -> frep s g -> g_held g = ∅ -> (6 <= g_bufs g)%nat -> aget (icache s) (ip - 1) = Some i -> i_dev i = bk_dev ->
  0 <= off < 2 ^ 32 -> 0 <= n < 2 ^ 32 -> 0 <= dst -> dst + n < 2 ^ 64 -> um_inv (um_user (fum s)) ->
  let cnt := Z.min n (di_size (i_d i) - off) in
  (user = false -> mapped (um_kern (fum s)) dst cnt) ->
  if (di_size (i_d i) <? off) || (2 ^ 32 <=? off + n) then readi ip user dst off n s = Ret (-1) s
  else exists um s' j r, readi ip user dst off n s = Ret cnt s' /\
    read_outcome user s g dst (fdata (g_view g) (di_addrs (i_d i)) off (Z.to_nat cnt)) j um s' /\ complete (view user (fum s)) dst r j (Z.to_nat cnt).
Proof.
  intros Hf Hr Hh Hb Hi Hd Ho Hn Hdst Hdst2 Hu cnt Hm.
  exact (readi_ok ip i user g s dst off n Hd Hh Hb (fs_holes _ _ _ Hf) (fs_size _ _ _ Hf) Hr Hi (fs_disk _ _ _ Hf) (fs_file _ _ _ Hf) Ho Hn Hdst Hdst2 Hu Hm).
Qed.

(** C12: What is written is read back: after a [writei] of bytes that can be read,
    on a disk with two free blocks for each block they lie in, a [readi] of the same
    range returns the count, and the buffer holds the bytes. *)
Theorem writei_readi_roundtrip (s : fss) g ip i user src off bytes k user' dst :
  write_pre s g ip i user src off bytes k -> bytes <> [] -> off <= di_size (i_d i) -> off + Z.of_nat (length bytes) <= MAXFILE * 1024 -> (7 * k + 7 <= g_bufs g)%nat ->
  0 <= dst -> dst + Z.of_nat (length bytes) < 2 ^ 64 -> (forall j, 0 <= j < Z.of_nat (length bytes) -> is_Some (view user' (fum s) (dst + j))) ->
  (frees (g_view g) (fsb s) < 2 * k)%nat /\ writei ip user src off (Z.of_nat (length bytes)) s = Panic "balloc: out of blocks" \/
  exists s' s'', writei ip user src off (Z.of_nat (length bytes)) s = Ret (Z.of_nat (length bytes)) s' /\
    readi ip user' dst off (Z.of_nat (length bytes)) s' = Ret (Z.of_nat (length bytes)) s'' /\ holds (view user' (fum s'')) dst bytes.
Proof.
  intros Hp Hne Hoff Hmax Hb Hd Hd2 Hacc. pose proof MAXFILE_eq as HM. destruct (writei_ok _ _ _ _ _ _ _ _ _ Hp Hne Hoff Hmax) as [E|(s' & g' & i' & E & Hr & Hg & Hm & Hw & [Hs _])]; [by left|right].
  pose proof (wp_off _ _ _ _ _ _ _ _ _ Hp) as Ho. assert (Hsz : di_size (i_d i') = Z.max (di_size (i_d i)) (off + Z.of_nat (length bytes))) by (by rewrite (wo_inode _ _ _ _ _ _ _ Hw)).
  destruct (readi_all s' g' ip i' user' dst off (length bytes)) as (s'' & E' & Hh); rewrite ?(fm_sb _ _ _ _ Hm), ?(fm_um _ _ _ _ Hm); try done; try lia.
  - apply Hw.
  - by eapply fmod_get; [apply Hp|].
  - rewrite (wo_inode _ _ _ _ _ _ _ Hw). apply Hp.
  - apply Hp.
  - exists s', s''. rewrite (wrote_fdata _ _ _ _ _ _ _ Hw) in Hh by lia. done.
Qed.

(** C13: References to inodes are counted.  From a cache whose entries in use have different
    inodes, [iget] gives an entry of the inode it is asked for and adds one to the
    references of that inode alone, and panics only when every entry is in use, by
    other inodes; [idup] adds one and [iput] takes one away from the entry it is given;
    and the entries in use still have different inodes.  When it takes the last
    reference to an inode without links, in a transaction with room for three
    blocks, on a disk with one block of bitmap, [iput] gives the file back: every
    block of the file, and no other, becomes free, the inode on the disk has no type,
    no size and no blocks, and other inodes and blocks are as they were. *)
Theorem icache_refs (s : fss) : iready s -> icache_ok (icache s) -> (forall j i, aget (icache s) j = Some i -> i_ref i < 2 ^ 31 - 1) ->
  (forall dev inum, match iget dev inum s with
   | Ret ip s' => counted (dev, inum) 1 s s' /\ exists i, aget (icache s') (ip - 1) = Some i /\ ikey i = (dev, inum) /\ 0 < i_ref i
   | Panic _ => forall j i, aget (icache s) j = Some i -> 0 < i_ref i /\ ikey i <> (dev, inum)
   | _ => False
   end) /\
  (forall ip i, aget (icache s) (ip - 1) = Some i -> 0 < i_ref i ->
     (exists s', idup ip s = Ret ip s' /\ counted (ikey i) 1 s s') /\
     (forall fuel, (0 < fuel)%nat ->
        if (i_ref i =? 1) && i_valid i && (di_nlink (i_d i) =? 0) then
          forall g, frep s g -> g_held g = ∅ -> i_dev i = bk_dev -> file_state (g_view g) (fsb s) i -> sb_size (fsb s) <= BPB -> i_lock i = sl_free -> (4 <= g_bufs g)%nat -> (3 <= g_logs g)%nat ->
          exists s' g', iput fuel ip s = Ret tt s' /\ counted (ikey i) (-1) s s' /\ frep s' g' /\ g_held g' = ∅ /\ given_back (g_view g) (fsb s) i (g_view g') /\
            aget (icache s') (ip - 1) = Some (mkin (i_dev i) (i_inum i) 0 sl_free false (dead (i_d i)))
        else exists s', iput fuel ip s = Ret tt s' /\ counted (ikey i) (-1) s s')).
Proof.
  intros Hr Hc Hb. split.
  - intros dev inum. destruct (iget_ok s dev inum Hr) as [(ip & i & Hi & Hip & H0 & Hk & ->)|(Hno & [(ip & i & Hi & Hip & H0 & ->)|(Hall & ->)])].
    + pose proof (Hb _ _ Hi). split; [rewrite <- Hk; apply ref_counted; try done; lia|]. exists (set_i_ref (s32 (i_ref i + 1)) i). split_and!; [by eapply upd_i_get|done|]. cbn. rewrite s32_small; lia.
    + split; [|exists (mkin dev inum 1 (i_lock i) false (i_d i)); by split_and!; [eapply upd_i_get|..]].
      apply (upd_i_counted s ip i (mkin dev inum 1 (i_lock i) false (i_d i))); try done; [cbn; lia|]. right. by split.
    + intros j i Hi. pose proof (ic_ref _ Hc _ _ Hi). pose proof (Hall _ _ Hi). assert (0 < i_ref i) by lia. split; [done|by apply (Hno j)].
  - intros ip i Hi H0. pose proof (Hb _ _ Hi). split.
    + exists (upd_i ip (set_i_ref (s32 (i_ref i + 1)) i) s). split; [by apply idup_ok|apply ref_counted; try done; lia].
    + intros fuel Hf. destruct ((i_ref i =? 1) && i_valid i && (di_nlink (i_d i) =? 0)) eqn:E.
      * apply andb_true_iff in E as [[E1%Z.eqb_eq E2]%andb_true_iff E3%Z.eqb_eq]. intros g Hg Hh Hd Hfs Hsz Hl Hn Hm.
        destruct (iput_last fuel s g ip i Hr Hg Hh Hi Hd Hfs Hsz E1 E2 E3 Hl Hf Hn Hm) as (s' & g' & E & Hg' & Hh' & Hm' & Hgb). exists s', g'.
        split_and!; [done| |done|done|done|by eapply fmod_get]. apply (fmod_counted s s' ip i _ (-1) Hr Hc Hi Hm'); try done; cbn; lia.
      * exists (upd_i ip (set_i_ref (s32 (i_ref i - 1)) i) s). split; [by apply iput_keep|]. apply (ref_counted s ip i (-1)); try done; lia.
Qed.
End FsProps.

(** The branch that a condition on numbers takes. *)
Ltac demo_branch H := match type of H with (if ?c then _ else _) => change c with false in H; cbv iota in H end.

(** Witness: two bytes are added to a file of three. *)
Lemma writei_spec_witness : exists s' v' i', writei (HO := demo_ops) 1 true 0 3 (Z.of_nat (length demo_hi)) fs_demo = Ret (Z.of_nat (length demo_hi)) s' /\ wrote demo_view demo_inode v' i' fs_super 3 demo_hi.
Proof.
  pose proof (writei_spec (HB := demo_blocks) fs_demo demo_g 1 demo_inode true 0 3 demo_hi 1 demo_pre eq_refl) as H. cbv zeta in H. demo_branch H. demo_branch H.
  destruct H as [[H _]|(s' & g' & i' & E & _ & _ & _ & Hw & _)]; [change (frees demo_view fs_super < 2)%nat in H; rewrite demo_frees in H; lia|]. exists s', (g_view g'), i'. exact (conj E Hw).
Defined.

(** Witness: of four bytes at offset 1, two are in the file. *)
Lemma readi_spec_witness : exists um s' j r, readi (HO := demo_ops) 1 true 2 1 4 fs_demo = Ret 2 s' /\
  read_outcome (HB := demo_blocks) true fs_demo demo_g 2 (fdata demo_view demo_addrs 1 2) j um s' /\ complete (view true demo_mem) 2 r j 2.
Proof.
  assert (N1 : 0 <= 1 < 2 ^ 32) by lia. assert (N2 : 0 <= 4 < 2 ^ 32) by lia. assert (N3 : 0 <= 2) by lia.
  pose proof (readi_spec (HB := demo_blocks) fs_demo demo_g 1 demo_inode true 2 1 4 demo_file demo_frep eq_refl demo_bufs eq_refl demo_dev N1 N2 N3 eq_refl fs_demo_inv) as H.
  cbv zeta in H. change (Z.min 4 (di_size (i_d demo_inode) - 1)) with 2 in H. specialize (H ltac:(discriminate)). demo_branch H. exact H.
Defined.

(** Witness: the two bytes are read back to address 2. *)
Lemma writei_readi_roundtrip_witness :
  exists s' s'', writei (HO := demo_ops) 1 true 0 3 (Z.of_nat (length demo_hi)) fs_demo = Ret (Z.of_nat (length demo_hi)) s' /\ readi (HO := demo_ops) 1 true 2 3 (Z.of_nat (length demo_hi)) s' = Ret (Z.of_nat (length demo_hi)) s'' /\ holds (view true (fum s'')) 2 demo_hi.
Proof.
  destruct (writei_readi_roundtrip (HB := demo_blocks) fs_demo demo_g 1 demo_inode true 0 3 demo_hi 1 true 2 demo_pre ltac:(discriminate) ltac:(discriminate) ltac:(discriminate)
    demo_room ltac:(discriminate) eq_refl demo_accessible) as [[H _]|H]; [change (frees demo_view fs_super < 2)%nat in H; rewrite demo_frees in H; lia|exact H].
Defined.

(** Witness: the crash left block 100 in the log. *)
Lemma fsinit_recovers_witness : exists s' news, fsinit (HO := demo_ops) 1 0 crash_demo = Ret tt s' /\ fsb s' = fs_super /\ past (bc (fblk s')) = news ++ past (bc crash_log) /\
  same_home 0 2 (disk (bc (fblk s'))) (replay 0 2 (disk (bc crash_log))).
Proof.
  destruct crash_booted as (Ha & _ & Hb).
  pose proof (fsinit_recovers 1 one_pos 0 crash_demo demo_log demo_super Ha crash_super) as H.
  rewrite demo_super_ok in H. destruct (H demo_header [100] eq_refl eq_refl Hb) as (s' & news & E & H1 & H2 & _ & H4 & _). exists s', news. exact (conj E (conj H1 (conj H2 H4))).
Defined.

(** The small file system, with a file that has lost its last link. *)
Definition unlinked_demo : Fs.fss logst mem := set_icache [unlinked_inode] fs_demo.

(** Witness: the cache has one entry, with one reference, of a file of one block. *)
Lemma icache_refs_witness : (exists s', idup 1 unlinked_demo = Ret 1 s' /\ counted (0, 1) 1 unlinked_demo s') /\
  (exists s' g', iput (HO := demo_ops) 1 1 unlinked_demo = Ret tt s' /\ counted (0, 1) (-1) unlinked_demo s' /\ frep (HB := demo_blocks) s' g' /\ given_back demo_view fs_super unlinked_inode (g_view g')).
Proof.
  assert (N : forall j i, aget (icache unlinked_demo) j = Some i -> j = 0 /\ i = unlinked_inode).
  { intros j i H. pose proof (aget_Some_lt _ _ _ H) as Hj. change (Z.of_nat (length (icache unlinked_demo))) with 1 in Hj. assert (j = 0) by lia. subst j. by injection H as <-. }
  destruct (icache_refs (HO := demo_ops) (HB := demo_blocks) unlinked_demo) as [_ H].
  - assert (E : cx unlinked_demo = demo_cx) by exact demo_cx_eq. split; rewrite E; [split_and!; [done|apply NoDup_nil_2|done]|apply not_elem_of_nil|intros ip; apply not_elem_of_nil].
  - split; [intros j i [-> ->]%N; done|intros j k a b [-> ->]%N [-> ->]%N; done].
  - intros j i [-> ->]%N. done.
  - destruct (H 1 unlinked_inode eq_refl eq_refl) as [H1 H2]. split; [exact H1|]. assert (H12 : (0 < 1)%nat) by lia.
    destruct (H2 1%nat H12 demo_g demo_frep eq_refl eq_refl unlinked_file ltac:(discriminate) eq_refl ltac:(cbn; lia) ltac:(cbn; lia)) as (s' & g' & E & Hc & Hg & _ & Hgb & _).
    exists s', g'. exact (conj E (conj Hc (conj Hg Hgb))).
Defined.
