(* ===== verification/File.v ===== *)
(** * kernel/file.c: open files

    The state adds to that of the file system the table of open files, the
    pipes by their address, and of the running process its descriptors, its size
    and the registers of its trapframe.  A pointer to [ftable.file[i]] is the
    number [i + 1]; the null pointer is 0.  The device switch is a table of
    functions, as in the code.  [fuel] bounds how often a waiting thread is woken
    in vain. *)

From S2P Require Import Prelude StringC Bytes Sleeplock UserMem Blocks Fs Pipe.

Definition NFILE : Z := 100.
Definition NOFILE : Z := 16.
Definition NDEV : Z := 10.

Inductive fdtype := FD_NONE | FD_PIPE | FD_INODE | FD_DEVICE | FD_MUTEX.

#[export] Instance fdtype_eq : EqDecision fdtype.
Proof. solve_decision. Defined.

Record file := mkfile {
  f_type : fdtype;
  f_ref : Z;
  f_readable : bool;
  f_writable : bool;
  f_pipe : Z;
  f_ip : Z;
  f_off : Z;
  f_major : Z;
  f_minor : Z;
  f_mutex : sleeplock
}.

Definition set_f_type v f := mkfile v (f_ref f) (f_readable f) (f_writable f) (f_pipe f) (f_ip f) (f_off f) (f_major f) (f_minor f) (f_mutex f).
Definition set_f_ref v f := mkfile (f_type f) v (f_readable f) (f_writable f) (f_pipe f) (f_ip f) (f_off f) (f_major f) (f_minor f) (f_mutex f).
Definition set_f_readable v f := mkfile (f_type f) (f_ref f) v (f_writable f) (f_pipe f) (f_ip f) (f_off f) (f_major f) (f_minor f) (f_mutex f).
Definition set_f_writable v f := mkfile (f_type f) (f_ref f) (f_readable f) v (f_pipe f) (f_ip f) (f_off f) (f_major f) (f_minor f) (f_mutex f).
Definition set_f_pipe v f := mkfile (f_type f) (f_ref f) (f_readable f) (f_writable f) v (f_ip f) (f_off f) (f_major f) (f_minor f) (f_mutex f).
Definition set_f_ip v f := mkfile (f_type f) (f_ref f) (f_readable f) (f_writable f) (f_pipe f) v (f_off f) (f_major f) (f_minor f) (f_mutex f).
Definition set_f_off v f := mkfile (f_type f) (f_ref f) (f_readable f) (f_writable f) (f_pipe f) (f_ip f) v (f_major f) (f_minor f) (f_mutex f).
Definition set_f_major v f := mkfile (f_type f) (f_ref f) (f_readable f) (f_writable f) (f_pipe f) (f_ip f) (f_off f) v (f_minor f) (f_mutex f).
Definition set_f_minor v f := mkfile (f_type f) (f_ref f) (f_readable f) (f_writable f) (f_pipe f) (f_ip f) (f_off f) (f_major f) v (f_mutex f).
Definition set_f_mutex v f := mkfile (f_type f) (f_ref f) (f_readable f) (f_writable f) (f_pipe f) (f_ip f) (f_off f) (f_major f) (f_minor f) v.

Record ks (S U : Type) := mkks {
  kfs : fss S U;
  ftable : list file;
  pipes : gmap Z pipe;
  kofile : list Z;
  ksz : Z;
  kargs : list Z
}.
Arguments mkks {S U} _ _ _ _ _ _.
Arguments kfs {S U} _.
Arguments ftable {S U} _.
Arguments pipes {S U} _.
Arguments kofile {S U} _.
Arguments ksz {S U} _.
Arguments kargs {S U} _.

Definition set_kfs {S U} (v : fss S U) (s : ks S U) : ks S U := mkks v (ftable s) (pipes s) (kofile s) (ksz s) (kargs s).
Definition set_ftable {S U} (v : list file) (s : ks S U) : ks S U := mkks (kfs s) v (pipes s) (kofile s) (ksz s) (kargs s).
Definition set_pipes {S U} (v : gmap Z pipe) (s : ks S U) : ks S U := mkks (kfs s) (ftable s) v (kofile s) (ksz s) (kargs s).
Definition set_kofile {S U} (v : list Z) (s : ks S U) : ks S U := mkks (kfs s) (ftable s) (pipes s) v (ksz s) (kargs s).

#[export] Instance ks_ctx {S U} {HS : HasCtx S} : HasCtx (ks S U).
Proof.
  refine {| cx := fun s => cx (kfs s); set_cx := fun c s => set_kfs (set_cx c (kfs s)) s |};
    [intros; apply cx_set|intros []; unfold set_kfs; cbn -[set_cx cx]; by rewrite set_cx_cx|intros; unfold set_kfs; cbn -[set_cx cx]; by rewrite set_cx_twice].
Defined.

(** What the kernel asks of its allocator and of the page tables besides
    [copyin] and [copyout]. *)
Class KernelMem (U : Type) := {
  km_kalloc : M U Z;
  km_kfree : Z -> M U unit;
  km_copyinstr : Z -> Z -> M U (Z * list Z)
}.

Definition ftable_lock : lock := ("ftable"%string, 0).
Definition pipe_lock (pi : Z) : lock := ("pipe"%string, pi).

(** [&pi->nread] and [&pi->nwrite], behind the lock and the data. *)
Definition nread_chan (pi : Z) : Z := pi + 48 + PIPESIZE.
Definition nwrite_chan (pi : Z) : Z := pi + 52 + PIPESIZE.

(** The functions of a device. *)
Record devops (K : Type) := { dev_read : option (Z -> bool -> Z -> Z -> M K Z); dev_write : option (Z -> bool -> Z -> Z -> M K Z) }.
Arguments dev_read {K} _.
Arguments dev_write {K} _.

(** The bytes of a [struct stat]; [pad] is what the stack holds in its gap. *)
Definition stat_bytes (pad : list Z) (st : stat) : list Z :=
  le_bytes 4 (u32 (st_dev st)) ++ le_bytes 4 (st_ino st) ++ le_bytes 2 (u16 (st_type st)) ++ le_bytes 2 (u16 (st_nlink st)) ++ pad ++ le_bytes 8 (st_size st).

Section File.
Context {S U : Type} {HS : HasCtx S} {HO : BlockOps S} {HU : UserMem U} {HK : KernelMem U}.
Context (fuel : nat) (devsw : list (devops (ks S U))).

Abbreviation K := (M (ks S U)).

Definition onfs {A} (m : M (fss S U) A) : K A := zoom kfs set_kfs m.
Definition onuser {A} (m : M U A) : K A := onfs (onu (zoom um_user set_um_user m)).

(** The state of the code of one pipe. *)
Definition pipe_of (pi : Z) (s : ks S U) : pst U := mkpst (cx s) (pipes s !! pi) (um_user (fum (kfs s))).
Definition put_pipe (pi : Z) (p : pst U) (s : ks S U) : ks S U :=
  let s := set_cx (pcx p) (set_pipes (partial_alter (fun _ => ppipe p) pi (pipes s)) s) in
  set_kfs (set_fum (set_um_user (pmemu p) (fum (kfs s))) (kfs s)) s.
Definition onpipe {A} (pi : Z) (m : M (pst U) A) : K A := zoom (pipe_of pi) (put_pipe pi) m.

Definition getf (f : Z) : K file := fun s => unwrap (aget (ftable s) (f - 1)) s.
Definition setf (f : Z) (g : file -> file) : K unit :=
  x <- getf f ;; l <- gets ftable ;; l <- unwrap (aset l (f - 1) (g x)) ;; modify (set_ftable l).

Definition begin_op (dev : Z) : K unit := onfs (onb (bk_begin_op dev)).
Definition end_op (dev : Z) : K unit := onfs (onb (bk_end_op dev)).

(** The device of the inode of a file. *)
Definition ip_dev (ip : Z) : K Z := onfs (i <- geti ip ;; ret (i_dev i)).

(** The first entry without references. *)
Fixpoint free_file (l : list file) (f : Z) : option Z :=
  match l with
  | [] => None
  | x :: l => if f_ref x =? 0 then Some f else free_file l (f + 1)
  end.

Definition filealloc : K Z :=
  acquire ftable_lock ;;;
  l <- gets ftable ;;
  match free_file l 1 with
  | Some f =>
      setf f (set_f_ref 1) ;;;
      release ftable_lock ;;;
      ret f
  | None =>
      release ftable_lock ;;;
      ret 0
  end.

Definition filedup (f : Z) : K Z :=
  acquire ftable_lock ;;;
  x <- getf f ;;
  if f_ref x <? 1 then panic "filedup" else
  setf f (set_f_ref (s32 (f_ref x + 1))) ;;;
  release ftable_lock ;;;
  ret f.

(** [pipeclose] of pipe.c gives the page back when both ends are closed. *)
Definition pipe_close (pi : Z) (writable : bool) : K unit :=
  onpipe pi (pipeclose (pipe_lock pi) (nread_chan pi) (nwrite_chan pi) writable) ;;;
  p <- gets (fun s => pipes s !! pi) ;;
  match p with
  | Some _ => ret tt
  | None => onuser (km_kfree pi)
  end.

Definition fileclose (f : Z) : K unit :=
  acquire ftable_lock ;;;
  x <- getf f ;;
  if f_ref x <? 1 then panic "fileclose" else
  let ref := s32 (f_ref x - 1) in
  setf f (set_f_ref ref) ;;;
  if 0 <? ref then release ftable_lock else
  ff <- getf f ;;
  setf f (fun x => set_f_type FD_NONE (set_f_ref 0 x)) ;;;
  release ftable_lock ;;;
  match f_type ff with
  | FD_PIPE => pipe_close (f_pipe ff) (f_writable ff)
  | FD_INODE | FD_DEVICE =>
      d <- ip_dev (f_ip ff) ;;
      begin_op d ;;;
      onfs (iput fuel (f_ip ff)) ;;;
      d <- ip_dev (f_ip ff) ;;
      end_op d
  | _ => ret tt
  end.

Definition filestat (pad : list Z) (f addr : Z) : K Z :=
  x <- getf f ;;
  match f_type x with
  | FD_INODE | FD_DEVICE =>
      onfs (ilock fuel (f_ip x)) ;;;
      st <- onfs (stati (f_ip x)) ;;
      onfs (iunlock (f_ip x)) ;;;
      r <- onuser (um_copyout addr (stat_bytes pad st)) ;;
      if r <? 0 then ret (-1) else ret 0
  | _ => ret (-1)
  end.

(** [devsw[f->major].read] or [.write], where there is one. *)
Definition dev_fn (sel : devops (ks S U) -> option (Z -> bool -> Z -> Z -> K Z)) (major : Z) : K (option (Z -> bool -> Z -> Z -> K Z)) :=
  if (major <? 0) || (NDEV <=? major) then ret None else
  d <- unwrap (aget devsw major) ;;
  ret (sel d).

Definition fileread (f addr n : Z) : K Z :=
  x <- getf f ;;
  if negb (f_readable x) then ret (-1) else
  match f_type x with
  | FD_PIPE => onpipe (f_pipe x) (piperead (pipe_lock (f_pipe x)) (nread_chan (f_pipe x)) (nwrite_chan (f_pipe x)) fuel addr n)
  | FD_DEVICE =>
      d <- dev_fn dev_read (f_major x) ;;
      match d with
      | None => ret (-1)
      | Some read => read f true addr n
      end
  | FD_INODE =>
      onfs (ilock fuel (f_ip x)) ;;;
      x <- getf f ;;
      r <- onfs (readi (f_ip x) true addr (f_off x) (u32 n)) ;;
      (if 0 <? r then setf f (fun x => set_f_off (u32 (f_off x + r)) x) else ret tt) ;;;
      onfs (iunlock (f_ip x)) ;;;
      ret r
  | _ => panic "fileread"
  end.

(** The most bytes of one transaction: the blocks of the file and for each a
    block of the bitmap, besides the inode, the indirect block and two more. *)
Definition max_write : Z := ((10 - 1 - 1 - 2) / 2) * 1024.

(** One round of the loop of [filewrite]: the result of [writei]. *)
Definition write_chunk (f addr i n1 : Z) : K Z :=
  x <- getf f ;;
  d <- ip_dev (f_ip x) ;;
  begin_op d ;;;
  x <- getf f ;;
  onfs (ilock fuel (f_ip x)) ;;;
  x <- getf f ;;
  r <- onfs (writei (f_ip x) true (u64 (addr + i)) (f_off x) (u32 n1)) ;;
  (if 0 <? r then setf f (fun x => set_f_off (u32 (f_off x + r)) x) else ret tt) ;;;
  onfs (iunlock (f_ip x)) ;;;
  d <- ip_dev (f_ip x) ;;
  end_op d ;;;
  ret r.

(** The number of bytes written when the loop ends. *)
Fixpoint filewrite_loop (rounds : nat) (f addr n i : Z) : K Z :=
  match rounds with
  | O => nofuel
  | Datatypes.S rounds =>
      if negb (i <? n) then ret i else
      let n1 := if max_write <? n - i then max_write else n - i in
      r <- write_chunk f addr i n1 ;;
      if r <? 0 then ret i else
      if negb (r =? n1) then panic "short filewrite" else
      filewrite_loop rounds f addr n (i + r)
  end.

(** Every round but the last writes [max_write] bytes. *)
Definition write_rounds (n : Z) : nat := Z.to_nat (n / max_write) + 2.

Definition filewrite (f addr n : Z) : K Z :=
  x <- getf f ;;
  if negb (f_writable x) then ret (-1) else
  match f_type x with
  | FD_PIPE => onpipe (f_pipe x) (pipewrite (pipe_lock (f_pipe x)) (nread_chan (f_pipe x)) (nwrite_chan (f_pipe x)) fuel addr n)
  | FD_DEVICE =>
      d <- dev_fn dev_write (f_major x) ;;
      match d with
      | None => ret (-1)
      | Some write => write f true addr n
      end
  | FD_INODE =>
      i <- filewrite_loop (write_rounds n) f addr n 0 ;;
      ret (if i =? n then n else -1)
  | _ => panic "filewrite"
  end.

(** [pipealloc] of pipe.c; [junk] is what the page of the pipe holds.  The
    pointers it stores through [f0] and [f1], when it does not fail. *)
Definition pipealloc (junk : list Z) : K (option (Z * Z)) :=
  f0 <- filealloc ;;
  f1 <- (if f0 =? 0 then ret 0 else filealloc) ;;
  pi <- (if (f0 =? 0) || (f1 =? 0) then ret 0 else onuser km_kalloc) ;;
  if pi =? 0 then
    (if f0 =? 0 then ret tt else fileclose f0) ;;;
    (if f1 =? 0 then ret tt else fileclose f1) ;;;
    ret None
  else
  onpipe pi (pipeinit junk) ;;;
  setf f0 (fun x => set_f_pipe pi (set_f_writable false (set_f_readable true (set_f_type FD_PIPE x)))) ;;;
  setf f1 (fun x => set_f_pipe pi (set_f_writable true (set_f_readable false (set_f_type FD_PIPE x)))) ;;;
  ret (Some (f0, f1)).
End File.
