(* ===== verification/Sysfile.v ===== *)
(** * kernel/sysfile.c: system calls on files

    The local arrays of the calls and of the functions they call have addresses
    in the memory of the kernel ([frame]); the strings of the code are there
    too.  Arguments come from the registers of the trapframe (kernel/syscall.c).
    A system call returns a 64-bit register: an error is [u64 (-1)]. *)

From S2P Require Import Prelude StringC Bytes Sleeplock UserMem Blocks Fs Pipe File.

Definition MAXPATH : Z := 128.
Definition T_FILE : Z := 2.
Definition T_DEVICE : Z := 3.
Definition O_RDONLY : Z := 0.
Definition O_WRONLY : Z := 1.
Definition O_RDWR : Z := 2.
Definition O_CREATE : Z := 512.

Definition set_di_nlink (v : Z) (d : dinode) : dinode := mkdi (di_type d) (di_major d) (di_minor d) v (di_size d) (di_addrs d).

(** Where the local variables are: [path] (or [old]), [new] and [name] of the
    call, [name] of [namei], [de] of [dirlookup], of [dirlink], of [isdirempty]
    and of [sys_unlink], and the two strings. *)
Record frame := {
  fr_path : Z; fr_new : Z; fr_name : Z; fr_namei : Z;
  fr_de : Z; fr_link_de : Z; fr_empty_de : Z; fr_unlink_de : Z;
  fr_dot : Z; fr_dotdot : Z
}.

Section Sysfile.
Context {S U : Type} {HS : HasCtx S} {HO : BlockOps S} {HU : UserMem U} {HK : KernelMem U}.
Context (fuel : nat) (devsw : list (devops (ks S U))) (fr : frame).

Abbreviation K := (M (ks S U)).

Definition err : K Z := ret (u64 (-1)).

(** ** Arguments (kernel/syscall.c) *)

Definition argraw (n : Z) : K Z :=
  if (0 <=? n) && (n <? 6) then l <- gets kargs ;; unwrap (aget l n) else panic "argraw".

Definition argint (n : Z) : K Z := v <- argraw n ;; ret (s32 v).
Definition argaddr (n : Z) : K Z := v <- argraw n ;; ret (u64 v).

Definition fetchstr (addr buf max : Z) : K Z :=
  r <- onuser (km_copyinstr addr max) ;;
  onfs (kern_set (kstore buf (snd r))) ;;;
  if fst r <? 0 then ret (fst r) else onfs (kern (strlen buf)).

Definition argstr (n buf max : Z) : K Z := addr <- argaddr n ;; fetchstr addr buf max.

(** The descriptor and the file, unless there is none. *)
Definition argfd (n : Z) : K (option (Z * Z)) :=
  fd <- argint n ;;
  if (fd <? 0) || (NOFILE <=? fd) then ret None else
  o <- gets kofile ;;
  f <- unwrap (aget o fd) ;;
  if f =? 0 then ret None else ret (Some (fd, f)).

(** [myproc()->ofile[fd] = f] *)
Definition set_fd (fd f : Z) : K unit :=
  o <- gets kofile ;; o <- unwrap (aset o fd f) ;; modify (set_kofile o).

(** The first descriptor that is not used, from [fd] on. *)
Fixpoint free_fd (o : list Z) (fd : Z) : option Z :=
  match o with
  | [] => None
  | f :: o => if f =? 0 then Some fd else free_fd o (fd + 1)
  end.

Definition fdalloc (f : Z) : K Z :=
  o <- gets kofile ;;
  match free_fd (take (Z.to_nat NOFILE) o) 0 with
  | Some fd => set_fd fd f ;;; ret fd
  | None => ret (-1)
  end.

(** ** Descriptors *)

Definition sys_dup : K Z :=
  a <- argfd 0 ;;
  match a with
  | None => err
  | Some (_, f) =>
      fd <- fdalloc f ;;
      if fd <? 0 then err else
      filedup f ;;;
      ret fd
  end.

Definition sys_read : K Z :=
  a <- argfd 0 ;;
  match a with
  | None => err
  | Some (_, f) => n <- argint 2 ;; p <- argaddr 1 ;; r <- fileread fuel devsw f p n ;; ret (u64 r)
  end.

Definition sys_write : K Z :=
  a <- argfd 0 ;;
  match a with
  | None => err
  | Some (_, f) => n <- argint 2 ;; p <- argaddr 1 ;; r <- filewrite fuel devsw f p n ;; ret (u64 r)
  end.

Definition sys_close : K Z :=
  a <- argfd 0 ;;
  match a with
  | None => err
  | Some (fd, f) =>
      set_fd fd 0 ;;;
      fileclose fuel f ;;;
      ret 0
  end.

Definition sys_fstat (pad : list Z) : K Z :=
  a <- argfd 0 ;;
  match a with
  | None => err
  | Some (_, f) => st <- argaddr 1 ;; r <- filestat fuel pad f st ;; ret (u64 r)
  end.

(** [(f = filealloc()) == 0 || (fd = fdalloc(f)) < 0] and the clean-up of the file. *)
Definition file_fd : K (option (Z * Z)) :=
  f <- filealloc ;;
  fd <- (if f =? 0 then ret (-1) else fdalloc f) ;;
  if (f =? 0) || (fd <? 0) then
    (if f =? 0 then ret tt else fileclose fuel f) ;;;
    ret None
  else ret (Some (f, fd)).

(** [pid] is what the stack holds in the field that the code does not set. *)
Definition sys_create_mutex (pid : Z) : K Z :=
  r <- file_fd ;;
  match r with
  | None => err
  | Some (f, fd) =>
      setf f (set_f_type FD_MUTEX) ;;;
      setf f (set_f_mutex {| sl_locked := false; sl_pid := pid |}) ;;;
      ret fd
  end.

Definition sys_acquire_mutex : K Z := ret 0.
Definition sys_release_mutex : K Z := ret 0.

(** The two pointers of [sys_pipe] are stored one after the other: the failure
    of the second leaves the first. *)
Definition sys_pipe (junk : list Z) : K Z :=
  fdarray <- argaddr 0 ;;
  a <- pipealloc fuel junk ;;
  match a with
  | None => err
  | Some (rf, wf) =>
      fd0 <- fdalloc rf ;;
      fd1 <- (if fd0 <? 0 then ret (-1) else fdalloc wf) ;;
      if (fd0 <? 0) || (fd1 <? 0) then
        (if 0 <=? fd0 then set_fd fd0 0 else ret tt) ;;;
        fileclose fuel rf ;;;
        fileclose fuel wf ;;;
        err
      else
      r <- onuser (um_copyout fdarray (le_bytes 4 (u32 fd0))) ;;
      r <- (if r <? 0 then ret r else onuser (um_copyout (u64 (fdarray + 4)) (le_bytes 4 (u32 fd1)))) ;;
      if r <? 0 then
        set_fd fd0 0 ;;;
        set_fd fd1 0 ;;;
        fileclose fuel rf ;;;
        fileclose fuel wf ;;;
        err
      else ret 0
  end.

(** ** Paths *)

Definition knamei (path : Z) : K Z := onfs (namei fuel (fr_de fr) (fr_namei fr) path).
Definition knameiparent (path : Z) : K Z := onfs (nameiparent fuel (fr_de fr) path (fr_name fr)).
Definition kdirlink (dp name inum : Z) : K Z := onfs (dirlink fuel (fr_link_de fr) (fr_de fr) dp name inum).
Definition kdirlookup (dp name : Z) : K (Z * Z) := onfs (dirlookup (fr_de fr) dp name).
Definition kilock (ip : Z) : K unit := onfs (ilock fuel ip).
Definition kiunlock (ip : Z) : K unit := onfs (iunlock ip).
Definition kiput (ip : Z) : K unit := onfs (iput fuel ip).
Definition kiunlockput (ip : Z) : K unit := onfs (iunlockput fuel ip).
Definition kiupdate (ip : Z) : K unit := onfs (iupdate ip).
Definition kgeti (ip : Z) : K inode := onfs (geti ip).

(** [ip->nlink += k] *)
Definition add_nlink (ip k : Z) : K unit := onfs (setd ip (fun d => set_di_nlink (s16 (di_nlink d + k)) d)).

(** [end_op(ROOTDEV); return -1;] *)
Definition fail_op : K Z := end_op ROOT_DEV ;;; err.

Definition sys_link : K Z :=
  r <- argstr 0 (fr_path fr) MAXPATH ;;
  if r <? 0 then err else
  r <- argstr 1 (fr_new fr) MAXPATH ;;
  if r <? 0 then err else
  begin_op ROOT_DEV ;;;
  ip <- knamei (fr_path fr) ;;
  if ip =? 0 then fail_op else
  kilock ip ;;;
  i <- kgeti ip ;;
  if di_type (i_d i) =? T_DIR then kiunlockput ip ;;; fail_op else
  add_nlink ip 1 ;;;
  kiupdate ip ;;;
  kiunlock ip ;;;
  let bad := kilock ip ;;; add_nlink ip (-1) ;;; kiupdate ip ;;; kiunlockput ip ;;; fail_op in
  dp <- knameiparent (fr_new fr) ;;
  if dp =? 0 then bad else
  kilock dp ;;;
  d <- kgeti dp ;;
  i <- kgeti ip ;;
  r <- (if negb (i_dev d =? i_dev i) then ret (-1) else kdirlink dp (fr_name fr) (i_inum i)) ;;
  if r <? 0 then kiunlockput dp ;;; bad else
  kiunlockput dp ;;;
  kiput ip ;;;
  end_op ROOT_DEV ;;;
  ret 0.

(** The entries from [off] on are unused. *)
Fixpoint isdirempty_loop (n : nat) (dp off : Z) : K bool :=
  match n with
  | O => nofuel
  | Datatypes.S n =>
      i <- kgeti dp ;;
      if negb (off <? di_size (i_d i)) then ret true else
      r <- onfs (readi dp false (fr_empty_de fr) off 16) ;;
      if negb (r =? 16) then panic "isdirempty: readi" else
      inum <- onfs (kern (de_inum (fr_empty_de fr))) ;;
      if negb (inum =? 0) then ret false else isdirempty_loop n dp (off + 16)
  end.

Definition isdirempty (dp : Z) : K bool :=
  i <- kgeti dp ;;
  isdirempty_loop (Z.to_nat (di_size (i_d i) / 16) + 2) dp 32.

Definition sys_unlink : K Z :=
  r <- argstr 0 (fr_path fr) MAXPATH ;;
  if r <? 0 then err else
  begin_op ROOT_DEV ;;;
  dp <- knameiparent (fr_path fr) ;;
  if dp =? 0 then fail_op else
  kilock dp ;;;
  let bad := kiunlockput dp ;;; fail_op in
  c1 <- onfs (namecmp (fr_name fr) (fr_dot fr)) ;;
  if c1 =? 0 then bad else
  c2 <- onfs (namecmp (fr_name fr) (fr_dotdot fr)) ;;
  if c2 =? 0 then bad else
  r <- kdirlookup dp (fr_name fr) ;;
  let '(ip, off) := r in
  if ip =? 0 then bad else
  kilock ip ;;;
  i <- kgeti ip ;;
  if di_nlink (i_d i) <? 1 then panic "unlink: nlink < 1" else
  e <- (if di_type (i_d i) =? T_DIR then isdirempty ip else ret true) ;;
  if negb e then kiunlockput ip ;;; bad else
  onfs (kern_set (kstore (fr_unlink_de fr) (replicate 16 0))) ;;;
  r <- onfs (writei dp false (fr_unlink_de fr) off 16) ;;
  if negb (r =? 16) then panic "unlink: writei" else
  i <- kgeti ip ;;
  (if di_type (i_d i) =? T_DIR then add_nlink dp (-1) ;;; kiupdate dp else ret tt) ;;;
  kiunlockput dp ;;;
  add_nlink ip (-1) ;;;
  kiupdate ip ;;;
  kiunlockput ip ;;;
  end_op ROOT_DEV ;;;
  ret 0.

Definition create (path type major minor : Z) : K Z :=
  dp <- knameiparent path ;;
  if dp =? 0 then ret 0 else
  kilock dp ;;;
  r <- kdirlookup dp (fr_name fr) ;;
  let ip := fst r in
  if negb (ip =? 0) then
    kiunlockput dp ;;;
    kilock ip ;;;
    i <- kgeti ip ;;
    if (type =? T_FILE) && ((di_type (i_d i) =? T_FILE) || (di_type (i_d i) =? T_DEVICE)) then ret ip else
    kiunlockput ip ;;;
    ret 0
  else
  d <- kgeti dp ;;
  ip <- onfs (ialloc (i_dev d) type) ;;
  if ip =? 0 then panic "create: ialloc" else
  kilock ip ;;;
  onfs (setd ip (fun d => mkdi (di_type d) major minor 1 (di_size d) (di_addrs d))) ;;;
  kiupdate ip ;;;
  i <- kgeti ip ;;
  (if type =? T_DIR then
     add_nlink dp 1 ;;;
     kiupdate dp ;;;
     r <- kdirlink ip (fr_dot fr) (i_inum i) ;;
     if r <? 0 then panic "create dots" else
     d <- kgeti dp ;;
     r <- kdirlink ip (fr_dotdot fr) (i_inum d) ;;
     if r <? 0 then panic "create dots" else ret tt
   else ret tt) ;;;
  i <- kgeti ip ;;
  r <- kdirlink dp (fr_name fr) (i_inum i) ;;
  if r <? 0 then panic "create: dirlink" else
  kiunlockput dp ;;;
  ret ip.

(** The locked inode that [sys_open] opens, or 0 after the end of the operation. *)
Definition open_inode (omode : Z) : K Z :=
  if negb (Z.land omode O_CREATE =? 0) then
    ip <- create (fr_path fr) T_FILE 0 0 ;;
    if ip =? 0 then end_op ROOT_DEV ;;; ret 0 else ret ip
  else
    ip <- knamei (fr_path fr) ;;
    if ip =? 0 then end_op ROOT_DEV ;;; ret 0 else
    kilock ip ;;;
    i <- kgeti ip ;;
    if (di_type (i_d i) =? T_DIR) && negb (omode =? O_RDONLY) then
      kiunlockput ip ;;;
      end_op ROOT_DEV ;;;
      ret 0
    else ret ip.

Definition sys_open : K Z :=
  n <- argstr 0 (fr_path fr) MAXPATH ;;
  if n <? 0 then err else
  omode <- argint 1 ;;
  begin_op ROOT_DEV ;;;
  ip <- open_inode omode ;;
  if ip =? 0 then err else
  i <- kgeti ip ;;
  if (di_type (i_d i) =? T_DEVICE) && ((di_major (i_d i) <? 0) || (NDEV <=? di_major (i_d i))) then
    kiunlockput ip ;;;
    fail_op
  else
  r <- file_fd ;;
  match r with
  | None => kiunlockput ip ;;; fail_op
  | Some (f, fd) =>
      i <- kgeti ip ;;
      (if di_type (i_d i) =? T_DEVICE
       then setf f (fun x => set_f_minor (di_minor (i_d i)) (set_f_major (di_major (i_d i)) (set_f_type FD_DEVICE x)))
       else setf f (set_f_type FD_INODE)) ;;;
      setf f (fun x => set_f_off 0 (set_f_ip ip x)) ;;;
      setf f (set_f_readable (Z.land omode O_WRONLY =? 0)) ;;;
      setf f (set_f_writable (negb (Z.land omode O_WRONLY =? 0) || negb (Z.land omode O_RDWR =? 0))) ;;;
      kiunlock ip ;;;
      end_op ROOT_DEV ;;;
      ret fd
  end.

Definition sys_mkdir : K Z :=
  begin_op ROOT_DEV ;;;
  r <- argstr 0 (fr_path fr) MAXPATH ;;
  if r <? 0 then fail_op else
  ip <- create (fr_path fr) T_DIR 0 0 ;;
  if ip =? 0 then fail_op else
  kiunlockput ip ;;;
  end_op ROOT_DEV ;;;
  ret 0.

Definition sys_mknod : K Z :=
  begin_op ROOT_DEV ;;;
  r <- argstr 0 (fr_path fr) MAXPATH ;;
  if r <? 0 then fail_op else
  major <- argint 1 ;;
  minor <- argint 2 ;;
  ip <- create (fr_path fr) T_DEVICE (s16 major) (s16 minor) ;;
  if ip =? 0 then fail_op else
  kiunlockput ip ;;;
  end_op ROOT_DEV ;;;
  ret 0.

Definition sys_chdir : K Z :=
  begin_op ROOT_DEV ;;;
  r <- argstr 0 (fr_path fr) MAXPATH ;;
  if r <? 0 then fail_op else
  ip <- knamei (fr_path fr) ;;
  if ip =? 0 then fail_op else
  kilock ip ;;;
  i <- kgeti ip ;;
  if negb (di_type (i_d i) =? T_DIR) then kiunlockput ip ;;; fail_op else
  kiunlock ip ;;;
  w <- onfs (gets cwd) ;;
  kiput w ;;;
  end_op ROOT_DEV ;;;
  onfs (modify (fun s => mkfs (fblk s) (fsb s) (icache s) (fum s) ip)) ;;;
  ret 0.
End Sysfile.
