(* ===== verification/FileSpec.v ===== *)
(** * Open files: counts of references and ends of pipes

    The state of the code as the parts that calls on descriptors change, and what
    each function of file.c does to them. *)

From S2P Require Import Prelude StringC Bytes Sleeplock UserMem Blocks Fs Pipe PipeSpec File Sysfile.

(** ** Counting descriptors *)

(** The descriptors of the process that stand for the file [f]. *)
Fixpoint nfd (f : Z) (o : list Z) : Z :=
  match o with
  | [] => 0
  | g :: o => (if decide (g = f) then 1 else 0) + nfd f o
  end.

Lemma nfd_bounds f o : 0 <= nfd f o <= Z.of_nat (length o).
Proof. induction o as [|g o IH]; cbn [nfd length]; [done|]. case_decide; lia. Qed.

Lemma nfd_insert f o k g h : o !! k = Some g -> nfd f (<[k := h]> o) = nfd f o - (if decide (g = f) then 1 else 0) + (if decide (h = f) then 1 else 0).
Proof.
  revert k. induction o as [|x o IH]; intros [|k] Hk; [done|done| |].
  - injection Hk as ->. change (<[0%nat := h]> (g :: o)) with (h :: o). cbn [nfd]. lia.
  - change (<[Datatypes.S k := h]> (x :: o)) with (x :: <[k := h]> o). cbn [nfd]. rewrite (IH k Hk). lia.
Qed.

Lemma nfd_pos f o k : o !! k = Some f -> 0 < nfd f o.
Proof.
  revert k. induction o as [|x o IH]; intros [|k] Hk; [done|done| |]; cbn [nfd]; pose proof (nfd_bounds f o).
  - injection Hk as ->. rewrite decide_True by done. lia.
  - pose proof (IH k Hk). case_decide; lia.
Qed.

(** The first unused entry, or none. *)
Lemma free_file_ok l : forall f, match free_file l f with
  | Some g => f <= g /\ exists x, aget l (g - f) = Some x /\ f_ref x = 0
  | None => forall j x, aget l j = Some x -> f_ref x <> 0
  end.
Proof.
  induction l as [|y l IH]; intros f; cbn [free_file]; [intros j x H; apply aget_Some_lt in H; cbn in H; lia|].
  destruct (Z.eqb_spec (f_ref y) 0) as [Hy|Hy]; [split; [lia|]; exists y; by rewrite Z.sub_diag|]. specialize (IH (f + 1)). destruct (free_file l (f + 1)) as [g|].
  - destruct IH as (Hg & x & Hx & H0). split; [lia|]. exists x. rewrite aget_cons, (proj2 (Z.eqb_neq _ _)) by lia. by replace (g - f - 1) with (g - (f + 1)) by lia.
  - intros j x. rewrite aget_cons. destruct (j =? 0); [by intros [= <-]|apply IH].
Qed.

Lemma free_fd_ok o : forall fd, match free_fd o fd with
  | Some d => fd <= d /\ aget o (d - fd) = Some 0 /\ (forall j g, fd <= j < d -> aget o (j - fd) = Some g -> g <> 0)
  | None => forall j g, aget o j = Some g -> g <> 0
  end.
Proof.
  induction o as [|y o IH]; intros fd; cbn [free_fd]; [intros j x H; apply aget_Some_lt in H; cbn in H; lia|].
  destruct (Z.eqb_spec y 0) as [->|Hy]; [rewrite Z.sub_diag; split_and!; [lia|done|lia]|]. specialize (IH (fd + 1)). destruct (free_fd o (fd + 1)) as [d|].
  - destruct IH as (Hd & Ha & Hlt). rewrite aget_cons, (proj2 (Z.eqb_neq _ _)) by lia. replace (d - fd - 1) with (d - (fd + 1)) by lia. split_and!; [lia|done|].
    intros j g Hj. rewrite aget_cons. destruct (Z.eqb_spec (j - fd) 0); [by intros [= <-]|]. replace (j - fd - 1) with (j - (fd + 1)) by lia. apply Hlt. lia.
  - intros j g. rewrite aget_cons. destruct (j =? 0); [by intros [= <-]|apply IH].
Qed.

(** ** What the allocator promises about the pages of pipes *)

Class KernelMemOk (U : Type) {HU : UserMem U} {HK : KernelMem U} := {
  km_owned : U -> gset Z;
  km_kalloc_ok : forall u, um_inv u -> exists a u', km_kalloc u = Ret a u' /\ um_inv u' /\ (forall x, um_read u' x = um_read u x) /\
    (a = 0 /\ km_owned u' = km_owned u \/ a <> 0 /\ a ∉ km_owned u /\ km_owned u' = {[a]} ∪ km_owned u);
  km_kfree_ok : forall u a, um_inv u -> a ∈ km_owned u -> exists u', km_kfree a u = Ret tt u' /\ um_inv u' /\ (forall x, um_read u' x = um_read u x) /\
    km_owned u' = km_owned u ∖ {[a]};
  km_copyout_owned : forall u va src r u', um_inv u -> um_copyout va src u = Ret r u' -> km_owned u' = km_owned u
}.

(** ** The parts of the state *)

Section FileSpec.
Context {S U : Type} {HS : HasCtx S} {HO : BlockOps S} {HU : UserMem U} {HK : KernelMem U}.
Context (fuel : nat) (s0 : ks S U).

(** The state [s0] with arguments [a], thread [c], open files [ft], pipes [pp],
    descriptors [o] and memory [u]. *)
Definition at_ (a : list Z) (c : ctx) (ft : list file) (pp : gmap Z pipe) (o : list Z) (u : U) : ks S U :=
  let f := kfs s0 in mkks (mkfs (set_cx c (fblk f)) (fsb f) (icache f) (mkumem u (um_kern (fum f))) (cwd f)) ft pp o (ksz s0) a.

Lemma cx_at a c ft pp o u : cx (at_ a c ft pp o u) = c.
Proof. apply cx_set. Qed.

Lemma set_cx_at a c c' ft pp o u : set_cx c' (at_ a c ft pp o u) = at_ a c' ft pp o u.
Proof.
  change (let f := kfs s0 in mkks (mkfs (set_cx c' (set_cx c (fblk f))) (fsb f) (icache f) (mkumem u (um_kern (fum f))) (cwd f)) ft pp o (ksz s0) a = at_ a c' ft pp o u).
  cbv zeta. by rewrite set_cx_twice.
Qed.

Lemma acquire_at l a c ft pp o u : l ∉ held c -> acquire l (at_ a c ft pp o u) = Ret tt (at_ a (locked_cx l c) ft pp o u).
Proof. intros H. rewrite acquire_ok by (by rewrite cx_at). by rewrite cx_at, set_cx_at. Qed.

Lemma release_at l a c ft pp o u : cx_wf c -> l ∉ held c -> release l (at_ a (locked_cx l c) ft pp o u) = Ret tt (at_ a (touch c) ft pp o u).
Proof. intros Hw H. rewrite (release_ok l c); [by rewrite set_cx_at|done|done|]. by rewrite cx_at, locked_touch. Qed.

Lemma getf_at f x a c ft pp o u : aget ft (f - 1) = Some x -> getf f (at_ a c ft pp o u) = Ret x (at_ a c ft pp o u).
Proof. intros H. unfold getf. change (ftable (at_ a c ft pp o u)) with ft. by rewrite H. Qed.

Lemma setf_at f g x a c ft pp o u : aget ft (f - 1) = Some x -> setf f g (at_ a c ft pp o u) = Ret tt (at_ a c (<[Z.to_nat (f - 1) := g x]> ft) pp o u).
Proof.
  intros H. unfold setf. run (getf_at f x a c ft pp o u H). mstep. change (ftable (at_ a c ft pp o u)) with ft. rewrite aset_is_Some by (by apply (aget_Some_lt _ _ _ H)). done.
Qed.

Lemma onuser_at {A} (m : M U A) a c ft pp o u r u' : m u = Ret r u' -> onuser m (at_ a c ft pp o u) = Ret r (at_ a c ft pp o u').
Proof.
  intros H. unfold onuser, onfs, onu. rewrite (zoom_ret kfs set_kfs _ _ r (set_fum (mkumem u' (um_kern (fum (kfs s0)))) (kfs (at_ a c ft pp o u)))); [done|].
  rewrite (zoom_ret fum set_fum _ _ r (mkumem u' (um_kern (fum (kfs s0))))); [done|]. by rewrite (zoom_ret um_user set_um_user m _ r u').
Qed.

Lemma onpipe_at {A} pi (m : M (pst U) A) a c ft pp o u r c' p' u' : m (mkpst c (pp !! pi) u) = Ret r (mkpst c' p' u') ->
  onpipe pi m (at_ a c ft pp o u) = Ret r (at_ a c' ft (partial_alter (fun _ => p') pi pp) o u').
Proof.
  intros H. unfold onpipe. rewrite (zoom_ret (pipe_of pi) (put_pipe pi) m _ r (mkpst c' p' u')); [|unfold pipe_of; by rewrite cx_at].
  unfold put_pipe. cbn [pcx ppipe pmemu]. change (set_pipes ?q (at_ a c ft pp o u)) with (at_ a c ft q o u). by rewrite set_cx_at.
Qed.

(** ** file.c *)

Lemma filealloc_at a c ft pp o u : cx_wf c -> ftable_lock ∉ held c ->
  filealloc (at_ a c ft pp o u) =
    match free_file ft 1 with
    | Some f => match aget ft (f - 1) with Some x => Ret f (at_ a (touch c) (<[Z.to_nat (f - 1) := set_f_ref 1 x]> ft) pp o u) | None => Fault end
    | None => Ret 0 (at_ a (touch c) ft pp o u)
    end.
Proof.
  intros Hw Hl. unfold filealloc. rewrite (bind_ret_l _ _ _ _ _ (acquire_at _ a c ft pp o u Hl)). mstep. change (ftable (at_ a (locked_cx ftable_lock c) ft pp o u)) with ft.
  pose proof (free_file_ok ft 1) as H. destruct (free_file ft 1) as [f|].
  - destruct H as (_ & x & Hx & _). rewrite Hx, (bind_ret_l _ _ _ _ _ (setf_at f _ x a _ ft pp o u Hx)). by rewrite (bind_ret_l _ _ _ _ _ (release_at _ a c _ pp o u Hw Hl)).
  - by rewrite (bind_ret_l _ _ _ _ _ (release_at _ a c _ pp o u Hw Hl)).
Qed.

Lemma filedup_at a c ft pp o u f x : cx_wf c -> ftable_lock ∉ held c -> aget ft (f - 1) = Some x -> 1 <= f_ref x ->
  filedup f (at_ a c ft pp o u) = Ret f (at_ a (touch c) (<[Z.to_nat (f - 1) := set_f_ref (s32 (f_ref x + 1)) x]> ft) pp o u).
Proof.
  intros Hw Hl Hx Hr. unfold filedup. rewrite (bind_ret_l _ _ _ _ _ (acquire_at _ a c ft pp o u Hl)), (bind_ret_l _ _ _ _ _ (getf_at f x a _ ft pp o u Hx)), (proj2 (Z.ltb_ge _ _)) by lia.
  rewrite (bind_ret_l _ _ _ _ _ (setf_at f _ x a _ ft pp o u Hx)). by rewrite (bind_ret_l _ _ _ _ _ (release_at _ a c _ pp o u Hw Hl)).
Qed.

(** What is left of a file whose last reference goes. *)
Definition closed (x : file) : file := set_f_type FD_NONE (set_f_ref 0 x).

(** The first part of [fileclose]: one reference less, or the end of the file. *)
Lemma fileclose_at a c ft pp o u f x : cx_wf c -> ftable_lock ∉ held c -> aget ft (f - 1) = Some x -> 1 <= f_ref x < 2 ^ 31 ->
  let put y := at_ a (touch c) (<[Z.to_nat (f - 1) := y]> ft) pp o u in
  if decide (f_ref x = 1) then
    fileclose fuel f (at_ a c ft pp o u) =
      match f_type x with
      | FD_PIPE => pipe_close (f_pipe x) (f_writable x)
      | FD_INODE | FD_DEVICE =>
          d <- ip_dev (f_ip x) ;; begin_op d ;;; onfs (iput fuel (f_ip x)) ;;; d <- ip_dev (f_ip x) ;; end_op d
      | _ => ret tt
      end (put (closed x))
  else fileclose fuel f (at_ a c ft pp o u) = Ret tt (put (set_f_ref (f_ref x - 1) x)).
Proof.
  intros Hw Hl Hx Hr put. pose proof (aget_Some_lt _ _ _ Hx) as Hlt. unfold fileclose.
  rewrite (bind_ret_l _ _ _ _ _ (acquire_at _ a c ft pp o u Hl)), (bind_ret_l _ _ _ _ _ (getf_at f x a _ ft pp o u Hx)), (proj2 (Z.ltb_ge _ _)) by lia.
  rewrite s32_small by lia. rewrite (bind_ret_l _ _ _ _ _ (setf_at f _ x a _ ft pp o u Hx)). case_decide as H1.
  - rewrite (proj2 (Z.ltb_ge _ _)) by lia. set (y := set_f_ref (f_ref x - 1) x).
    assert (Hy : aget (<[Z.to_nat (f - 1) := y]> ft) (f - 1) = Some y) by (rewrite aget_insert by done; by rewrite decide_True).
    rewrite (bind_ret_l _ _ _ _ _ (getf_at f y a _ _ pp o u Hy)), (bind_ret_l _ _ _ _ _ (setf_at f _ y a _ _ pp o u Hy)), list_insert_insert_eq.
    rewrite (bind_ret_l _ _ _ _ _ (release_at _ a c _ pp o u Hw Hl)). by destruct x as [[] ? ? ? ? ? ? ? ? ?].
  - rewrite (proj2 (Z.ltb_lt _ _)) by lia. by apply release_at.
Qed.

(** A new file that is closed at once leaves no trace. *)
Lemma closed_free x : f_ref x = 0 -> f_type x = FD_NONE -> closed (set_f_ref 1 x) = x.
Proof. destruct x; cbn. by intros -> ->. Qed.

Lemma set_fd_at fd f g a c ft pp o u : aget o fd = Some g -> set_fd fd f (at_ a c ft pp o u) = Ret tt (at_ a c ft pp (<[Z.to_nat fd := f]> o) u).
Proof. intros H. unfold set_fd. mstep. change (kofile (at_ a c ft pp o u)) with o. rewrite aset_is_Some by (by apply (aget_Some_lt _ _ _ H)). done. Qed.

Lemma fdalloc_at f a c ft pp o u : length o = 16%nat -> f <> 0 ->
  fdalloc f (at_ a c ft pp o u) = match free_fd o 0 with Some fd => Ret fd (at_ a c ft pp (<[Z.to_nat fd := f]> o) u) | None => Ret (-1) (at_ a c ft pp o u) end.
Proof.
  intros Hlen Hf. unfold fdalloc. mstep. change (kofile (at_ a c ft pp o u)) with o. rewrite take_ge by (rewrite Hlen; done). pose proof (free_fd_ok o 0) as H.
  destruct (free_fd o 0) as [fd|]; [|done]. destruct H as (_ & H & _). rewrite Z.sub_0_r in H. by rewrite (bind_ret_l _ _ _ _ _ (set_fd_at fd f 0 a c ft pp o u H)).
Qed.
End FileSpec.

Lemma at_whole {S U} {HS : HasCtx S} (s : ks S U) : at_ s (kargs s) (cx s) (ftable s) (pipes s) (kofile s) (um_user (fum (kfs s))) = s.
Proof. destruct s as [[b sb ic [u m] w] ft pp o sz a]. unfold at_. cbn -[set_cx cx]. change (cx (mkks _ _ _ _ _ _)) with (cx b). by rewrite set_cx_cx. Qed.
