(* ===== verification/FileInv.v ===== *)
(** * Open files: the invariant

    A file has as many references as descriptors stand for it, here and in
    [others]; a pipe exists as long as a file is one of its ends, and an end is
    open as long as there is such a file. *)

From S2P Require Import Prelude StringC Bytes Sleeplock UserMem Blocks Fs Pipe PipeSpec File Sysfile FileSpec.

Definition is_end (x : file) (pi : Z) (w : bool) : Prop := 0 < f_ref x /\ f_type x = FD_PIPE /\ f_pipe x = pi /\ f_writable x = w.
Definition end_open (p : pipe) (w : bool) : bool := if w then writeopen p else readopen p.

(** [n] more references to the file [f]. *)
Definition bump (others : Z -> Z) (f n : Z) : Z -> Z := fun g => others g + (if decide (g = f) then n else 0).

Section Counts.
(** Files on the disk that another process has open. *)
Context (shared : Z -> Prop).

(** Besides the descriptors, [others] has references: other processes, or the
    code that has not stored them yet. *)
Record counts (others : Z -> Z) (ft : list file) (o : list Z) : Prop := {
  co_len : length o = 16%nat;
  co_fd : forall k f, o !! k = Some f -> f <> 0 -> is_Some (aget ft (f - 1));
  co_ref : forall f x, aget ft (f - 1) = Some x -> f_ref x = others f + nfd f o;
  co_free : forall f x, aget ft (f - 1) = Some x -> f_ref x = 0 -> f_type x = FD_NONE;
  co_disk : forall f x, aget ft (f - 1) = Some x -> f_type x = FD_INODE \/ f_type x = FD_DEVICE -> shared f
}.

(** A file changes together with its references. *)
Lemma counts_file others others' ft o f x y : counts others ft o -> aget ft (f - 1) = Some x -> (forall g, g <> f -> others' g = others g) ->
  f_ref y = others' f + nfd f o -> (f_ref y = 0 -> f_type y = FD_NONE) -> (f_type y = FD_INODE \/ f_type y = FD_DEVICE -> shared f) ->
  counts others' (<[Z.to_nat (f - 1) := y]> ft) o.
Proof.
  intros [H1 H2 H3 H4 H5] Hx Hn Hr Hf Hd. pose proof (aget_Some_lt _ _ _ Hx) as Hlt.
  assert (Hat : forall g z, aget (<[Z.to_nat (f - 1) := y]> ft) (g - 1) = Some z -> g = f /\ z = y \/ g <> f /\ aget ft (g - 1) = Some z).
  { intros g z. rewrite aget_insert by done. case_decide as Hg; [intros [= <-]; left; split; [lia|done]|]. intros Hz. right. split; [congruence|done]. }
  split; [done| |intros g z [[-> ->]|(? & Hz)]%Hat|intros g z [[-> ->]|(? & Hz)]%Hat|intros g z [[-> ->]|(? & Hz)]%Hat]; try done; [|rewrite Hn by done; by apply H3|by apply (H4 g)|by apply (H5 g z)].
  intros k g Hg H0. rewrite aget_insert by done. case_decide; [done|by apply (H2 k)].
Qed.

(** A descriptor takes over a reference from the code, or gives it back. *)
Lemma counts_fd others others' ft o fd f : counts others ft o -> aget o fd = Some 0 -> is_Some (aget ft (f - 1)) -> (forall g, others g = bump others' f 1 g) ->
  counts others' ft (<[Z.to_nat fd := f]> o).
Proof.
  intros [H1 H2 H3 H4 H5] Hfd [x Hx] Hb. apply aget_lookup in Hfd. split; [by rewrite length_insert| | |done|done].
  - intros k g [(_ & <- & _)|(_ & Hg)]%list_lookup_insert_Some Hg0; [eauto|by apply (H2 k)].
  - intros g z Hz. rewrite (H3 g z Hz), Hb, (nfd_insert _ _ _ 0) by done. pose proof (aget_Some_lt _ _ _ Hz). unfold bump. repeat case_decide; lia.
Qed.

Lemma counts_unfd others ft o fd f : counts others ft o -> aget o fd = Some f -> counts (bump others f 1) ft (<[Z.to_nat fd := 0]> o).
Proof.
  intros [H1 H2 H3 H4 H5] Hfd. apply aget_lookup in Hfd. split; [by rewrite length_insert| | |done|done].
  - intros k g [(_ & <- & _)|(_ & Hg)]%list_lookup_insert_Some Hg0; [done|by apply (H2 k)].
  - intros g z Hz. rewrite (H3 g z Hz), (nfd_insert _ _ _ f) by done. pose proof (aget_Some_lt _ _ _ Hz). unfold bump. repeat case_decide; lia.
Qed.
End Counts.

(** [ft] has an end of a pipe exactly where the pipe is open. *)
Record ends (ft : list file) (pp : gmap Z pipe) : Prop := {
  en_iff : forall pi w, (exists p, pp !! pi = Some p /\ end_open p w = true) <-> exists f x, aget ft (f - 1) = Some x /\ is_end x pi w;
  en_one : forall f f' x x' pi w, aget ft (f - 1) = Some x -> aget ft (f' - 1) = Some x' -> is_end x pi w -> is_end x' pi w -> f = f';
  en_live : forall pi p, pp !! pi = Some p -> (exists w, end_open p w = true) /\ exists q, pinv p q
}.

Lemma is_end_fun x pi w pi' w' : is_end x pi w -> is_end x pi' w' -> pi' = pi /\ w' = w.
Proof. intros (_ & _ & <- & <-) (_ & _ & <- & <-). done. Qed.

(** The ends, after one file has changed. *)
Lemma end_insert ft f x y pi w : aget ft (f - 1) = Some x ->
  (exists g z, aget (<[Z.to_nat (f - 1) := y]> ft) (g - 1) = Some z /\ is_end z pi w) <-> is_end y pi w \/ exists g z, g <> f /\ aget ft (g - 1) = Some z /\ is_end z pi w.
Proof.
  intros Hx%aget_Some_lt. split.
  - intros (g & z & Hz & He). rewrite aget_insert in Hz by done. case_decide as Hg; [injection Hz as <-; by left|right]. exists g, z. split_and!; [congruence|done|done].
  - intros [He|(g & z & Hg & Hz & He)]; [exists f, y|exists g, z]; rewrite aget_insert by done; [by rewrite decide_True|]. rewrite decide_False by lia. done.
Qed.

Lemma ends_same ft pp f x y : ends ft pp -> aget ft (f - 1) = Some x -> (forall pi w, is_end y pi w <-> is_end x pi w) -> ends (<[Z.to_nat (f - 1) := y]> ft) pp.
Proof.
  intros [H1 H2 H3] Hx Hy. split; [|intros g g' z z' pi w Hz Hz' Hez Hez'|done].
  - intros pi w. rewrite (end_insert ft f x) by done. rewrite H1, Hy. split.
    + intros (g & z & Hz & He). destruct (decide (g = f)) as [->|]; [left; congruence|right; eauto 6].
    + intros [He|(g & z & _ & Hz & He)]; eauto.
  - assert (Hat : forall g z, aget (<[Z.to_nat (f - 1) := y]> ft) (g - 1) = Some z -> is_end z pi w -> exists z', aget ft (g - 1) = Some z' /\ is_end z' pi w).
    { intros k v. rewrite aget_insert by (by apply (aget_Some_lt _ _ _ Hx)). case_decide as Hk; [|by eauto]. intros [= <-] Hv%Hy. exists x. by replace k with f by lia. }
    destruct (Hat g z Hz Hez) as (v & Hv & Hev), (Hat g' z' Hz' Hez') as (v' & Hv' & Hev'). by eapply H2.
Qed.

(** One end goes, and with the last one the pipe. *)
Definition close_end (w : bool) (p : pipe) : pipe := if w then set_writeopen false p else set_readopen false p.

Lemma ends_close ft pp f x y pi w p : ends ft pp -> aget ft (f - 1) = Some x -> is_end x pi w -> (forall pi' w', ~ is_end y pi' w') -> pp !! pi = Some p ->
  ends (<[Z.to_nat (f - 1) := y]> ft) (partial_alter (fun _ => if end_open p (negb w) then Some (close_end w p) else None) pi pp).
Proof.
  intros [H1 H2 H3] Hx Hex Hy Hp. set (r := if end_open p (negb w) then _ else _). pose proof (aget_Some_lt _ _ _ Hx) as Hlt. split.
  - intros pi' w'. rewrite (end_insert ft f x) by done. destruct (decide (pi' = pi)) as [->|Hne].
    + rewrite lookup_partial_alter_eq. destruct (decide (w' = w)) as [->|Hw].
      * split; [|intros [He|(g & z & Hg & Hz & He)]; [by destruct (Hy pi w)|destruct Hg; by eapply H2]].
        intros (p' & Hp' & Ho). unfold r in Hp'. destruct (end_open p (negb w)); [|done]. injection Hp' as <-. by destruct w.
      * assert (w' = negb w) as -> by (by destruct w, w'). transitivity (end_open p (negb w) = true); [unfold r; destruct (end_open p (negb w)) eqn:E|].
        -- split; [done|]. intros _. eexists. split; [done|]. by destruct w.
        -- split; [by intros (? & ? & ?)|done].
        -- split.
           ++ intros Ho. destruct (proj1 (H1 pi (negb w)) ltac:(eauto)) as (g & z & Hz & He). right. exists g, z. split_and!; [|done|done].
              intros ->. assert (z = x) as -> by congruence. by destruct (is_end_fun _ _ _ _ _ Hex He) as [_ ?].
           ++ intros [He|(g & z & _ & Hz & He)]; [by destruct (Hy pi (negb w))|]. destruct (proj2 (H1 pi (negb w)) ltac:(eauto)) as (p' & Hp' & Ho). congruence.
    + rewrite lookup_partial_alter_ne by done. rewrite H1. split; [|intros [He|(g & z & _ & Hz & He)]; [by destruct (Hy pi' w')|eauto]].
      intros (g & z & Hz & He). right. exists g, z. split_and!; [|done|done]. intros ->. assert (z = x) as -> by congruence. by destruct (is_end_fun _ _ _ _ _ Hex He).
  - intros g g' z z' pi' w' Hz Hz' Hez Hez'. rewrite !aget_insert in * by done. repeat case_decide; try lia; simplify_eq; try (by destruct (Hy pi' w')); eauto.
  - intros pi' p'. destruct (decide (pi' = pi)) as [->|Hne]; [|rewrite lookup_partial_alter_ne by done; apply H3]. rewrite lookup_partial_alter_eq. unfold r.
    destruct (end_open p (negb w)) eqn:Ho; [|done]. intros [= <-]. split; [exists (negb w); by destruct w|]. destruct (H3 pi p Hp) as (_ & q & Hq). exists q. by apply (pinv_flags p); [destruct w..|].
Qed.

(** A new pipe and its two files. *)
Lemma ends_new ft pp f0 f1 x0 x1 y0 y1 pi p q : ends ft pp -> aget ft (f0 - 1) = Some x0 -> aget ft (f1 - 1) = Some x1 -> f0 <> f1 -> f_ref x0 = 0 -> f_ref x1 = 0 ->
  is_end y0 pi false -> is_end y1 pi true -> pp !! pi = None -> pinv p q -> readopen p = true -> writeopen p = true ->
  ends (<[Z.to_nat (f1 - 1) := y1]> (<[Z.to_nat (f0 - 1) := y0]> ft)) (<[pi := p]> pp).
Proof.
  intros [H1 H2 H3] Hx0 Hx1 Hne Hr0 Hr1 Hy0 Hy1 Hpi Hq Ho Ho'. pose proof (aget_Some_lt _ _ _ Hx0) as L0. pose proof (aget_Some_lt _ _ _ Hx1) as L1.
  assert (Hno : forall g z w, aget ft (g - 1) = Some z -> ~ is_end z pi w).
  { intros g z w Hz He. destruct (proj2 (H1 pi w) ltac:(eauto)) as (p' & Hp' & _). congruence. }
  assert (Hat : forall g, aget (<[Z.to_nat (f1 - 1) := y1]> (<[Z.to_nat (f0 - 1) := y0]> ft)) (g - 1) = if decide (g = f1) then Some y1 else if decide (g = f0) then Some y0 else aget ft (g - 1)).
  { intros g. rewrite aget_insert by (rewrite length_insert; lia). rewrite aget_insert by lia. by repeat (case_decide; try lia). }
  split.
  - intros pi' w. destruct (decide (pi' = pi)) as [->|Hp].
    + rewrite lookup_insert_eq. split; [intros _|intros _; exists p; by destruct w]. destruct w; [exists f1, y1|exists f0, y0]; rewrite Hat; [by rewrite decide_True|by rewrite decide_False, decide_True].
    + rewrite lookup_insert_ne by done. rewrite H1. split.
      * intros (g & z & Hz & He). exists g, z. split; [|done]. rewrite Hat. destruct He as (Hr & _). rewrite !decide_False; [done|intros ->..]; simplify_eq; lia.
      * intros (g & z & Hz & He). rewrite Hat in Hz. repeat case_decide; simplify_eq; [by destruct (is_end_fun _ _ _ _ _ Hy1 He)|by destruct (is_end_fun _ _ _ _ _ Hy0 He)|eauto].
  - assert (Hw : forall g z pi' w, (if decide (g = f1) then Some y1 else if decide (g = f0) then Some y0 else aget ft (g - 1)) = Some z -> is_end z pi' w ->
      pi' = pi /\ g = (if w then f1 else f0) \/ pi' <> pi /\ aget ft (g - 1) = Some z).
    { intros g z pi' w Hz He. destruct (decide (g = f1)) as [->|]; [injection Hz as <-; destruct (is_end_fun _ _ _ _ _ Hy1 He) as [-> ->]; by left|].
      destruct (decide (g = f0)) as [->|]; [injection Hz as <-; destruct (is_end_fun _ _ _ _ _ Hy0 He) as [-> ->]; by left|]. right. split; [intros ->; by eapply Hno|done]. }
    intros g g' z z' pi' w Hz Hz' He He'. rewrite Hat in Hz, Hz'. destruct (Hw g z pi' w Hz He) as [[Hp ->]|[Hp ?]], (Hw g' z' pi' w Hz' He') as [[Hp' ->]|[Hp' ?]]; try done. by eapply H2.
  - intros pi' p'. destruct (decide (pi' = pi)) as [->|Hp]; [rewrite lookup_insert_eq; intros [= <-]; split; [by exists true|eauto]|rewrite lookup_insert_ne by done; apply H3].
Qed.
