(* ===== verification/SysfileSpec.v ===== *)
(** * System calls on descriptors keep the invariant of open files *)

From S2P Require Import Prelude StringC Bytes Sleeplock UserMem Blocks Fs Pipe PipeSpec File Sysfile FileSpec FileInv.

(** A thread that holds no lock of a file. *)
Record kready (c : ctx) : Prop := {
  kr_wf : cx_wf c;
  kr_ft : ftable_lock ∉ held c;
  kr_pipe : forall pi, pipe_lock pi ∉ held c
}.

Lemma kready_touch c : kready (touch c) <-> kready c.
Proof. split; intros [H1 H2 H3]; by split. Qed.

(** The descriptor and the file that an argument stands for. *)
Definition fd_arg (o : list Z) (fd : Z) : option (Z * Z) :=
  if (fd <? 0) || (NOFILE <=? fd) then None else
  match aget o fd with
  | Some f => if f =? 0 then None else Some (fd, f)
  | None => None
  end.

Lemma fd_arg_Some o v fd f : fd_arg o v = Some (fd, f) -> fd = v /\ aget o fd = Some f /\ f <> 0.
Proof.
  unfold fd_arg. destruct ((v <? 0) || (NOFILE <=? v)); [done|]. destruct (aget o v) as [g|] eqn:E; [|done]. destruct (Z.eqb_spec g 0); [done|]. by intros [= <- <-].
Qed.

Section SysfileSpec.
Context {S U : Type} {HS : HasCtx S} {HO : BlockOps S} {HU : UserMem U} {HK : KernelMem U} {HL : KernelMemOk U}.
Context (fuel : nat) (shared : Z -> Prop).

Record fd_inv (others : Z -> Z) (ft : list file) (pp : gmap Z pipe) (o : list Z) (u : U) : Prop := {
  fi_counts : counts shared others ft o;
  fi_ends : ends ft pp;
  fi_own : dom pp ⊆ km_owned u;
  fi_mem : um_inv u
}.

(** References are few, and a shared file has one elsewhere. *)
Definition modest (others : Z -> Z) : Prop := forall f, 0 <= others f < 2 ^ 31 - 32 /\ (shared f -> 0 < others f).

Lemma ref_bounds others ft pp o u f x : modest others -> fd_inv others ft pp o u -> aget ft (f - 1) = Some x -> 0 <= f_ref x < 2 ^ 31 - 8.
Proof.
  intros Hm Hi Hx. rewrite (co_ref _ _ _ _ (fi_counts _ _ _ _ _ Hi) f x Hx). pose proof (nfd_bounds f o) as Hn. rewrite (co_len _ _ _ _ (fi_counts _ _ _ _ _ Hi)) in Hn. specialize (Hm f). lia.
Qed.

Lemma fd_file others ft pp o u fd f : modest others -> fd_inv others ft pp o u -> aget o fd = Some f -> f <> 0 -> exists x, aget ft (f - 1) = Some x /\ 1 <= f_ref x < 2 ^ 31 - 8.
Proof.
  intros Hm Hi Hfd Hf. apply aget_lookup in Hfd. destruct (co_fd _ _ _ _ (fi_counts _ _ _ _ _ Hi) _ _ Hfd Hf) as [x Hx]. exists x. split; [done|].
  pose proof (ref_bounds _ _ _ _ _ _ _ Hm Hi Hx). rewrite (co_ref _ _ _ _ (fi_counts _ _ _ _ _ Hi) f x Hx) in *. pose proof (nfd_pos f o _ Hfd). specialize (Hm f). lia.
Qed.

Section calls.
Context (s0 : ks S U).

Abbreviation at_ := (at_ s0).

Lemma argraw_at n v a c ft pp o u : 0 <= n < 6 -> aget a n = Some v -> argraw n (at_ a c ft pp o u) = Ret v (at_ a c ft pp o u).
Proof.
  intros Hn Hv. unfold argraw. rewrite (proj2 (Z.leb_le _ _)), (proj2 (Z.ltb_lt _ _)) by lia. cbn [andb]. mstep. change (kargs (at_ a c ft pp o u)) with a. by rewrite Hv.
Qed.

Lemma argint_at n v a c ft pp o u : 0 <= n < 6 -> aget a n = Some v -> argint n (at_ a c ft pp o u) = Ret (s32 v) (at_ a c ft pp o u).
Proof. intros Hn Hv. unfold argint. by run (argraw_at n v a c ft pp o u Hn Hv). Qed.

Lemma argaddr_at n v a c ft pp o u : 0 <= n < 6 -> aget a n = Some v -> argaddr n (at_ a c ft pp o u) = Ret (u64 v) (at_ a c ft pp o u).
Proof. intros Hn Hv. unfold argaddr. by run (argraw_at n v a c ft pp o u Hn Hv). Qed.

Lemma argfd_at v a c ft pp o u : aget a 0 = Some v -> length o = 16%nat -> argfd 0 (at_ a c ft pp o u) = Ret (fd_arg o (s32 v)) (at_ a c ft pp o u).
Proof.
  intros Hv Hl. unfold argfd, fd_arg. rewrite (bind_ret_l _ _ _ _ _ (argint_at 0 v a c ft pp o u ltac:(lia) Hv)). destruct ((s32 v <? 0) || (NOFILE <=? s32 v)) eqn:E; [done|]. mstep.
  change (kofile (at_ a c ft pp o u)) with o. apply orb_false_iff in E as [E1%Z.ltb_ge E2%Z.leb_gt]. unfold NOFILE in E2.
  destruct (aget_is_Some o (s32 v)) as [f Hf]; [lia|]. rewrite Hf. mstep. by destruct (f =? 0).
Qed.

Lemma pipe_close_at pi w p a c ft pp o u : kready c -> pp !! pi = Some p -> um_inv u -> pi ∈ km_owned u ->
  exists u', pipe_close pi w (at_ a c ft pp o u) =
    Ret tt (at_ a (touch c) ft (partial_alter (fun _ => if end_open p (negb w) then Some (close_end w p) else None) pi pp) o u') /\
    um_inv u' /\ (forall x, um_read u' x = um_read u x) /\ km_owned u' = if end_open p (negb w) then km_owned u else km_owned u ∖ {[pi]}.
Proof.
  intros [Hw _ Hl] Hp Hu Ho. unfold pipe_close. pose proof (pipeclose_ok (pipe_lock pi) (nread_chan pi) (nwrite_chan pi) w c u p Hw (Hl pi)) as E. rewrite <- Hp in E.
  rewrite (bind_ret_l _ _ _ _ _ (onpipe_at s0 pi _ a c ft pp o u _ _ _ _ E)).
  assert (Er : (if (negb w || negb (readopen p)) && (w || negb (writeopen p)) then None else Some (if w then set_writeopen false p else set_readopen false p)) =
    (if end_open p (negb w) then Some (close_end w p) else None)) by (destruct w; cbn [negb orb andb end_open close_end]; [destruct (readopen p)|destruct (writeopen p)]; done).
  rewrite Er. mstep. set (pp' := partial_alter _ pi pp). change (pipes (at_ a (touch c) ft pp' o u)) with pp'. unfold pp'. rewrite lookup_partial_alter_eq. destruct (end_open p (negb w)).
  - by exists u.
  - destruct (km_kfree_ok u pi Hu Ho) as (u' & E' & Hu' & Hr & Hk). exists u'. split; [by apply onuser_at|done].
Qed.

(** A reference of the code goes. *)
Lemma fileclose_ref others f a c ft pp o u : modest others -> kready c -> fd_inv (bump others f 1) ft pp o u -> is_Some (aget ft (f - 1)) ->
  exists c' ft' pp' u', fileclose fuel f (at_ a c ft pp o u) = Ret tt (at_ a c' ft' pp' o u') /\ touch c' = touch c /\ fd_inv others ft' pp' o u' /\ length ft' = length ft.
Proof.
  intros Hm Hc Hi [x Hx]. pose proof Hi as [Hn He Ho Hu]. pose proof (co_ref _ _ _ _ Hn f x Hx) as Hr. pose proof (nfd_bounds f o) as Hb. rewrite (co_len _ _ _ _ Hn) in Hb. destruct (Hm f) as [Hm1 Hm2].
  assert (Ef : bump others f 1 f = others f + 1) by (unfold bump; by rewrite decide_True). assert (Eo : forall g, g <> f -> others g = bump others f 1 g) by (intros g Hg; unfold bump; rewrite decide_False by done; lia).
  pose proof (fileclose_at fuel s0 a c ft pp o u f x (kr_wf _ Hc) (kr_ft _ Hc) Hx ltac:(lia)) as E. cbv zeta in E. case_decide as H1.
  - assert (Hdrop : counts shared others (<[Z.to_nat (f - 1) := closed x]> ft) o) by (apply (counts_file shared (bump others f 1) others ft o f x); try done; [cbn; lia|cbn; naive_solver]).
    assert (Hno : forall pi w, ~ is_end (closed x) pi w) by (intros pi w (? & _); done).
    assert (Hnone : f_type x <> FD_PIPE -> ends (<[Z.to_nat (f - 1) := closed x]> ft) pp).
    { intros Ht. apply (ends_same ft pp f x); [done|done|]. intros pi w. split; [by intros ?%Hno|]. by intros (_ & ? & _). }
    assert (Hdisk : f_type x <> FD_INODE /\ f_type x <> FD_DEVICE).
    { pose proof (co_disk _ _ _ _ Hn f x Hx) as Hd. split; intros Ht; [assert (0 < others f) by (apply Hm2, Hd; by left)|assert (0 < others f) by (apply Hm2, Hd; by right)]; lia. }
    rewrite E. destruct (f_type x) eqn:Ht; try (by destruct Hdisk); try (exists (touch c), (<[Z.to_nat (f - 1) := closed x]> ft), pp, u; split_and!; [done|apply touch_idemp|split; [done|by apply Hnone|done|done]|apply length_insert]).
    assert (Hex : is_end x (f_pipe x) (f_writable x)) by (split; [lia|done]). destruct (proj2 (en_iff _ _ He _ _) (ex_intro _ f (ex_intro _ x (conj Hx Hex)))) as (p & Hp & _).
    assert (Hin : f_pipe x ∈ km_owned u) by (apply Ho, elem_of_dom; by exists p).
    destruct (pipe_close_at (f_pipe x) (f_writable x) p a (touch c) (<[Z.to_nat (f - 1) := closed x]> ft) pp o u) as (u' & Ec & Hu' & _ & Hk); [by apply kready_touch|done|done|done|].
    rewrite touch_idemp in Ec. rewrite Ec. eexists _, _, _, u'. split_and!; [done|apply touch_idemp| |apply length_insert]. split; [done|by apply (ends_close _ _ _ x)| |done].
    rewrite Hk. intros k (p' & Hp')%elem_of_dom. destruct (decide (k = f_pipe x)) as [->|Hne].
    + rewrite lookup_partial_alter_eq in Hp'. by destruct (end_open p _).
    + rewrite lookup_partial_alter_ne in Hp' by done. assert (k ∈ km_owned u) by (apply Ho, elem_of_dom; eauto). destruct (end_open p _); set_solver.
  - rewrite E. eexists _, _, pp, u. split_and!; [done|apply touch_idemp| |apply length_insert]. split; [|apply (ends_same ft pp f x); [done|done|]|done|done].
    + apply (counts_file shared (bump others f 1) others ft o f x); try done; [cbn; lia|cbn; lia|apply (co_disk _ _ _ _ Hn f x Hx)].
    + intros pi w. unfold is_end. cbn. split; intros (? & ?); (split; [lia|done]).
Qed.

(** A reference to a new file. *)
Lemma filealloc_ref others a c ft pp o u : modest others -> kready c -> fd_inv others ft pp o u ->
  (exists f x, filealloc (at_ a c ft pp o u) = Ret f (at_ a (touch c) (<[Z.to_nat (f - 1) := set_f_ref 1 x]> ft) pp o u) /\ free_file ft 1 = Some f /\ f <> 0 /\ aget ft (f - 1) = Some x /\ f_ref x = 0 /\
     f_type x = FD_NONE /\ fd_inv (bump others f 1) (<[Z.to_nat (f - 1) := set_f_ref 1 x]> ft) pp o u) \/
  filealloc (at_ a c ft pp o u) = Ret 0 (at_ a (touch c) ft pp o u) /\ free_file ft 1 = None.
Proof.
  intros Hm Hc Hi. pose proof (filealloc_at s0 a c ft pp o u (kr_wf _ Hc) (kr_ft _ Hc)) as E. pose proof (free_file_ok ft 1) as Hf. destruct (free_file ft 1) as [f|]; [left|by right].
  destruct Hf as (Hf1 & x & Hx & H0). rewrite Hx in E. pose proof Hi as [Hn He Ho Hu]. pose proof (co_free _ _ _ _ Hn f x Hx H0) as Ht. exists f, x. split_and!; [done|done|lia|done|done|done|].
  pose proof (co_ref _ _ _ _ Hn f x Hx) as Hr. split; [|apply (ends_same ft pp f x); [done|done|]|done|done].
  - apply (counts_file shared others _ ft o f x); try done; [intros g Hg; unfold bump; rewrite decide_False by done; lia|cbn; unfold bump; rewrite decide_True by done; lia|cbn; rewrite Ht; naive_solver].
  - intros pi w. unfold is_end. cbn. rewrite Ht. naive_solver.
Qed.

(** A reference of the code becomes a descriptor. *)
Lemma fdalloc_ref others f a c ft pp o u : fd_inv (bump others f 1) ft pp o u -> is_Some (aget ft (f - 1)) ->
  (exists fd, fdalloc f (at_ a c ft pp o u) = Ret fd (at_ a c ft pp (<[Z.to_nat fd := f]> o) u) /\ 0 <= fd < 16 /\ free_fd o 0 = Some fd /\ aget o fd = Some 0 /\ fd_inv others ft pp (<[Z.to_nat fd := f]> o) u) \/
  fdalloc f (at_ a c ft pp o u) = Ret (-1) (at_ a c ft pp o u) /\ free_fd o 0 = None.
Proof.
  intros [Hn He Ho Hu] Hx. pose proof (co_len _ _ _ _ Hn) as Hl. assert (Hf : f <> 0) by (destruct Hx as [x Hx]; apply aget_Some_lt in Hx; lia). rewrite (fdalloc_at s0 f a c ft pp o u Hl Hf).
  pose proof (free_fd_ok o 0) as H. destruct (free_fd o 0) as [fd|]; [left|by right]. destruct H as (_ & H & _). rewrite Z.sub_0_r in H. pose proof (aget_Some_lt _ _ _ H) as Hlt. rewrite Hl in Hlt.
  exists fd. split_and!; try done; try lia. split; [by apply (counts_fd shared (bump others f 1))|done|done|done].
Qed.

(** ** The calls *)

Context (others : Z -> Z) (Hfew : forall f, 0 <= others f < 2 ^ 30 /\ (shared f -> 0 < others f)).

Lemma few_modest : modest others.
Proof using Hfew. intros f. specialize (Hfew f). split; [lia|apply Hfew]. Qed.

Lemma bump_modest f : modest (bump others f 1).
Proof using Hfew. intros g. destruct (Hfew g) as [H1 H2]. unfold bump. split; [case_decide; lia|]. intros H%H2. case_decide; lia. Qed.

(** The call returns an error or a small number and keeps the invariant. *)
Definition returns (m : M (ks S U) Z) (a : list Z) (c : ctx) (ft : list file) (pp : gmap Z pipe) (o : list Z) (u : U) : Prop :=
  exists r c' ft' pp' o' u', m (at_ a c ft pp o u) = Ret r (at_ a c' ft' pp' o' u') /\ touch c' = touch c /\ fd_inv others ft' pp' o' u' /\ (r = u64 (-1) \/ 0 <= r < 16).

Lemma returns_err m a c ft pp o u c' : m (at_ a c ft pp o u) = Ret (u64 (-1)) (at_ a c' ft pp o u) -> touch c' = touch c -> fd_inv others ft pp o u -> returns m a c ft pp o u.
Proof. intros E Hc Hi. exists (u64 (-1)), c', ft, pp, o, u. split_and!; [done|done|done|by left]. Qed.

Lemma sys_close_ok v a c ft pp o u : kready c -> fd_inv others ft pp o u -> aget a 0 = Some v -> returns (sys_close fuel) a c ft pp o u.
Proof using All.
  intros Hc Hi Hv. pose proof (argfd_at v a c ft pp o u Hv (co_len _ _ _ _ (fi_counts _ _ _ _ _ Hi))) as E. destruct (fd_arg o (s32 v)) as [[fd f]|] eqn:Ea.
  2:{ apply (returns_err _ _ _ _ _ _ _ c); [|done|done]. unfold sys_close. by rewrite (bind_ret_l _ _ _ _ _ E). }
  apply fd_arg_Some in Ea as (_ & Hfd & Hf). destruct (fd_file _ _ _ _ _ _ _ few_modest Hi Hfd Hf) as (x & Hx & _). pose proof Hi as [Hn He Ho Hu].
  destruct (fileclose_ref others f a c ft pp (<[Z.to_nat fd := 0]> o) u few_modest Hc) as (c' & ft' & pp' & u' & E' & Hc' & Hi' & _); [split; [by apply counts_unfd|done|done|done]|by exists x|].
  exists 0, c', ft', pp', (<[Z.to_nat fd := 0]> o), u'. split_and!; [|done|done|right; lia]. unfold sys_close. rewrite (bind_ret_l _ _ _ _ _ E).
  rewrite (bind_ret_l _ _ _ _ _ (set_fd_at s0 fd 0 f a c ft pp o u Hfd)). by rewrite (bind_ret_l _ _ _ _ _ E').
Qed.

Lemma sys_dup_ok v a c ft pp o u : kready c -> fd_inv others ft pp o u -> aget a 0 = Some v -> returns sys_dup a c ft pp o u.
Proof using Hfew.
  intros Hc Hi Hv. pose proof Hi as [Hn He Ho Hu]. pose proof (co_len _ _ _ _ Hn) as Hl. pose proof (argfd_at v a c ft pp o u Hv Hl) as E. destruct (fd_arg o (s32 v)) as [[k f]|] eqn:Ea.
  2:{ apply (returns_err _ _ _ _ _ _ _ c); [|done|done]. unfold sys_dup. by rewrite (bind_ret_l _ _ _ _ _ E). }
  apply fd_arg_Some in Ea as (_ & Hfd & Hf). destruct (fd_file _ _ _ _ _ _ _ few_modest Hi Hfd Hf) as (x & Hx & Hr). pose proof (fdalloc_at s0 f a c ft pp o u Hl Hf) as E1.
  pose proof (free_fd_ok o 0) as H. destruct (free_fd o 0) as [fd|].
  2:{ apply (returns_err _ _ _ _ _ _ _ c); [|done|done]. unfold sys_dup. rewrite (bind_ret_l _ _ _ _ _ E). by rewrite (bind_ret_l _ _ _ _ _ E1). }
  destruct H as (_ & H & _). rewrite Z.sub_0_r in H. pose proof (aget_Some_lt _ _ _ H) as Hlt. rewrite Hl in Hlt. set (o' := <[Z.to_nat fd := f]> o) in E1.
  pose proof (filedup_at s0 a c ft pp o' u f x (kr_wf _ Hc) (kr_ft _ Hc) Hx ltac:(lia)) as E2. rewrite s32_small in E2 by lia. set (ft' := <[_ := _]> ft) in E2.
  exists fd, (touch c), ft', pp, o', u. split_and!; [|apply touch_idemp| |right; lia].
  - unfold sys_dup. rewrite (bind_ret_l _ _ _ _ _ E), (bind_ret_l _ _ _ _ _ E1), (proj2 (Z.ltb_ge _ _)) by lia. by rewrite (bind_ret_l _ _ _ _ _ E2).
  - pose proof (co_ref _ _ _ _ Hn f x Hx) as Hrx. split; [|apply (ends_same ft pp f x); [done|done|]|done|done].
    + apply (counts_fd shared (bump others f 1)); [|done|unfold ft'; rewrite aget_insert by (by apply (aget_Some_lt _ _ _ Hx)); by rewrite decide_True|done].
      apply (counts_file shared others _ ft o f x); try done; [intros g Hg; unfold bump; rewrite decide_False by done; lia|cbn; unfold bump; rewrite decide_True by done; lia|cbn; lia|apply (co_disk _ _ _ _ Hn f x Hx)].
    + intros pi w. unfold is_end. cbn. split; intros (? & ?); (split; [lia|done]).
Qed.

(** A new file with its descriptor, or the state as it was. *)
Lemma file_fd_ok a c ft pp o u : kready c -> fd_inv others ft pp o u ->
  (exists f x fd, file_fd fuel (at_ a c ft pp o u) = Ret (Some (f, fd)) (at_ a (touch c) (<[Z.to_nat (f - 1) := set_f_ref 1 x]> ft) pp (<[Z.to_nat fd := f]> o) u) /\
     free_file ft 1 = Some f /\ free_fd o 0 = Some fd /\ 0 <= fd < 16 /\ aget ft (f - 1) = Some x /\ f_type x = FD_NONE /\ fd_inv others (<[Z.to_nat (f - 1) := set_f_ref 1 x]> ft) pp (<[Z.to_nat fd := f]> o) u) \/
  (exists c' ft' pp' u', file_fd fuel (at_ a c ft pp o u) = Ret None (at_ a c' ft' pp' o u') /\ (free_file ft 1 = None \/ free_fd o 0 = None) /\ touch c' = touch c /\ fd_inv others ft' pp' o u').
Proof using All.
  intros Hc Hi. unfold file_fd. destruct (filealloc_ref others a c ft pp o u few_modest Hc Hi) as [(f & x & E & Hfree & Hf & Hx & H0 & Ht & Hi1)|[E Hno]].
  2:{ right. exists (touch c), ft, pp, u. rewrite (bind_ret_l _ _ _ _ _ E). split_and!; [done|by left|apply touch_idemp|done]. }
  set (ft1 := <[_ := _]> ft) in E, Hi1. assert (Hx1 : is_Some (aget ft1 (f - 1))) by (unfold ft1; rewrite aget_insert by (by apply (aget_Some_lt _ _ _ Hx)); by rewrite decide_True).
  rewrite (bind_ret_l _ _ _ _ _ E), (proj2 (Z.eqb_neq f 0)) by done. cbn [orb]. destruct (fdalloc_ref others f a (touch c) ft1 pp o u Hi1 Hx1) as [(fd & E1 & Hfd & Hfree1 & Hz & Hi2)|[E1 Hno]].
  - left. exists f, x, fd. rewrite (bind_ret_l _ _ _ _ _ E1), (proj2 (Z.ltb_ge fd 0)) by lia. split_and!; try done; lia.
  - right. rewrite (bind_ret_l _ _ _ _ _ E1). cbn [Z.ltb Z.compare].
    destruct (fileclose_ref others f a (touch c) ft1 pp o u few_modest) as (c' & ft' & pp' & u' & E2 & Hc' & Hi' & _); [by apply kready_touch|done|done|].
    exists c', ft', pp', u'. rewrite touch_idemp in Hc'. split_and!; [|by right|done|done]. by rewrite (bind_ret_l _ _ _ _ _ E2).
Qed.

(** The file that a mutex takes. *)
Definition mutex_of (pid : Z) (x : file) : file := set_f_mutex {| sl_locked := false; sl_pid := pid |} (set_f_type FD_MUTEX (set_f_ref 1 x)).

Lemma sys_create_mutex_cases pid a c ft pp o u : kready c -> fd_inv others ft pp o u ->
  (exists f x fd, sys_create_mutex fuel pid (at_ a c ft pp o u) = Ret fd (at_ a (touch c) (<[Z.to_nat (f - 1) := mutex_of pid x]> ft) pp (<[Z.to_nat fd := f]> o) u) /\
     free_file ft 1 = Some f /\ free_fd o 0 = Some fd /\ 0 <= fd < 16 /\ aget ft (f - 1) = Some x /\ fd_inv others (<[Z.to_nat (f - 1) := mutex_of pid x]> ft) pp (<[Z.to_nat fd := f]> o) u) \/
  (exists c' ft' pp' u', sys_create_mutex fuel pid (at_ a c ft pp o u) = Ret (u64 (-1)) (at_ a c' ft' pp' o u') /\ (free_file ft 1 = None \/ free_fd o 0 = None) /\ touch c' = touch c /\ fd_inv others ft' pp' o u').
Proof using All.
  intros Hc Hi. unfold sys_create_mutex. destruct (file_fd_ok a c ft pp o u Hc Hi) as [(f & x & fd & E & Hfree & Hfree1 & Hfd & Hx & Ht & Hi1)|(c' & ft' & pp' & u' & E & Hno & Hc' & Hi')].
  2:{ right. exists c', ft', pp', u'. by rewrite (bind_ret_l _ _ _ _ _ E). }
  left. exists f, x, fd. rewrite (bind_ret_l _ _ _ _ _ E). pose proof (aget_Some_lt _ _ _ Hx) as Hlt.
  assert (Hat : forall y, aget (<[Z.to_nat (f - 1) := y]> ft) (f - 1) = Some y) by (intros y; rewrite aget_insert by done; by rewrite decide_True).
  rewrite (bind_ret_l _ _ _ _ _ (setf_at s0 f _ _ a _ _ pp _ u (Hat _))), list_insert_insert_eq, (bind_ret_l _ _ _ _ _ (setf_at s0 f _ _ a _ _ pp _ u (Hat _))), list_insert_insert_eq.
  split_and!; try done; try lia. destruct Hi1 as [Hn He Ho Hu].
  assert (Hy : <[Z.to_nat (f - 1) := mutex_of pid x]> ft = <[Z.to_nat (f - 1) := mutex_of pid x]> (<[Z.to_nat (f - 1) := set_f_ref 1 x]> ft)) by (by rewrite list_insert_insert_eq).
  rewrite Hy. split; [|apply (ends_same _ pp f (set_f_ref 1 x)); [done|done|]|done|done].
  - apply (counts_file shared others others _ _ f (set_f_ref 1 x)); try done; [apply (co_ref _ _ _ _ Hn f _ (Hat _))|cbn; naive_solver].
  - intros pi w. unfold is_end. cbn. rewrite Ht. naive_solver.
Qed.
End calls.
End SysfileSpec.
