(* ===== verification/FileDemo.v ===== *)
(** * A flat memory with an allocator of pages

    A concrete memory for the calls on files: bytes by address, and a list of
    free pages. *)

From S2P Require Import Prelude StringC Bytes Sleeplock UserMem Bio Log LogProps Blocks Fs FsDisk FsDemo Pipe PipeSpec Vm File Sysfile FileSpec FileInv SysfileSpec.

Record flatmem := mkflat { fm_bytes : mem; fm_free : list Z }.

Definition flat_pages : gset Z := {[4096; 8192; 12288]}.
Definition flat_ok (m : flatmem) : Prop := NoDup (fm_free m) /\ forall a, a ∈ fm_free m -> a ∈ flat_pages.

#[export] Instance flat_mem : UserMem flatmem.
Proof.
  refine {| um_copyin := fun a len m => let bs := fetch (fun x => fm_bytes m !! x) a (Z.to_nat len) in Ret (if decide (length bs = Z.to_nat len) then 0 else -1, bs) m;
    um_copyout := fun a src m => let r := flat_store a src (fm_bytes m) in Ret (fst r) (mkflat (snd r) (fm_free m)); um_inv := flat_ok; um_read := fun m a => fm_bytes m !! a |}.
  - intros m a len _ _ _. eexists _, _. split; [done|]. destruct (fetch_ok (fun x => fm_bytes m !! x) (Z.to_nat len) a) as [H1 H2]. split; [exact H1|].
    case_decide as Hd; [by left|right]. destruct H2 as [H2|[H2 H3]]; [done|]. by split_and!.
  - intros m a src Hm _. destruct (flat_store_ok src a (fm_bytes m)) as (res & m' & n & E & Hc & Hr). exists res, (mkflat m' (fm_free m)), n. by rewrite E.
Defined.

#[export] Instance flat_kmem : KernelMem flatmem := {|
  km_kalloc := fun m => match fm_free m with [] => Ret 0 m | a :: l => Ret a (mkflat (fm_bytes m) l) end;
  km_kfree := fun a m => Ret tt (mkflat (fm_bytes m) (a :: fm_free m));
  km_copyinstr := fun a max m =>
    let '(d, got) := copy_until_null (fetch (fun x => fm_bytes m !! x) a (Z.to_nat max)) in Ret (if got then 0 else -1, d) m
|}.

#[export] Instance flat_kmem_ok : KernelMemOk flatmem.
Proof.
  refine {| km_owned := fun m => flat_pages ∖ list_to_set (fm_free m) |}.
  - intros [b [|a l]] [Hn Hf]; cbn in *; [exists 0, (mkflat b []); split_and!; [done|done|done|by left]|]. pose proof (NoDup_cons_1_1 _ _ Hn) as Hal. apply NoDup_cons_1_2 in Hn. exists a, (mkflat b l). split_and!; [done|split; [done|]| |right].
    + intros x Hx. apply Hf. by right.
    + done.
    + assert (Ha : a ∈ flat_pages) by (apply Hf; by left). split_and!; [intros ->; by vm_compute in Ha|set_solver|]. apply set_eq. intros x. destruct (decide (x = a)) as [->|]; set_solver.
  - intros [b l] a [Hn Hf] Ha. cbn in *. exists (mkflat b (a :: l)). apply elem_of_difference in Ha as [Ha Hl]. rewrite elem_of_list_to_set in Hl. split_and!; [done|split; [by constructor|]|done|set_solver].
    intros x [->|Hx]%elem_of_cons; [done|by apply Hf].
  - intros u va src r u' _ [= _ <-]. done.
Defined.

(** Two free entries, of which the first was open for reading, and no descriptors. *)
Definition old_file : file := mkfile FD_NONE 0 true false 0 0 0 0 0 {| sl_locked := false; sl_pid := 0 |}.
Definition file_mem : flatmem := mkflat (<[100 := 0]> (<[101 := 0]> (<[102 := 0]> (<[103 := 0]> (<[104 := 0]> (<[105 := 0]> (<[106 := 0]> (<[107 := 0]> ∅)))))))) [4096; 8192].
Definition file_demo : ks logst flatmem :=
  mkks (mkfs demo_start fs_super [] (mkumem file_mem ∅) 0) [old_file; old_file] ∅ (replicate 16 0) 0 [100; 0; 0; 0; 0; 0].

Lemma file_demo_cx : cx file_demo = LogProps.demo_cx.
Proof. exact demo_cx_eq. Qed.

Lemma file_demo_ready : kready (cx file_demo).
Proof. rewrite file_demo_cx. split; [split_and!; [done|apply NoDup_nil_2|done]|apply not_elem_of_nil|intros pi; apply not_elem_of_nil]. Qed.

Lemma file_demo_at f x : aget (ftable file_demo) (f - 1) = Some x -> x = old_file.
Proof. intros H%aget_lookup. change (ftable file_demo) with (replicate 2 old_file) in H. by apply lookup_replicate in H as [-> _]. Qed.

Lemma file_demo_none f : nfd f (replicate 16 0) = if decide (f = 0) then 16 else 0.
Proof. case_decide as Hf; [by subst|]. cbn [replicate nfd]. rewrite !(decide_False (P := 0 = f)) by congruence. done. Qed.

Lemma file_demo_inv : fd_inv (fun _ => False) (fun _ => 0) (ftable file_demo) (pipes file_demo) (kofile file_demo) file_mem.
Proof.
  split; [split; [done| | | |]|split| |].
  - intros k f Hk%lookup_replicate Hf. by destruct Hk as [-> _].
  - intros f x Hx. rewrite (file_demo_at f x Hx). pose proof (aget_Some_lt _ _ _ Hx). change (kofile file_demo) with (replicate 16 0). rewrite file_demo_none, decide_False by lia. done.
  - intros f x ->%file_demo_at. done.
  - intros f x ->%file_demo_at [?|?]; done.
  - intros pi w. split; [intros (p & Hp & _); change (pipes file_demo) with (∅ : gmap Z pipe) in Hp; by rewrite lookup_empty in Hp|]. intros (f & x & ->%file_demo_at & (? & _)). done.
  - intros f f' x x' pi w ->%file_demo_at _ (? & _). done.
  - intros pi p Hp. change (pipes file_demo) with (∅ : gmap Z pipe) in Hp. by rewrite lookup_empty in Hp.
  - set_solver.
  - split; [repeat constructor; set_solver|]. intros a. unfold flat_pages. set_solver.
Qed.
