(* ===== verification/SysfilePipe.v ===== *)
(** * System calls on pipes

    [sys_pipe] makes two files and two descriptors, or gives back all it took. *)

From S2P Require Import Prelude StringC Bytes Ring Sleeplock UserMem Blocks Fs Pipe PipeSpec File Sysfile FileSpec FileInv SysfileSpec.

Section SysfilePipe.
Context {S U : Type} {HS : HasCtx S} {HO : BlockOps S} {HU : UserMem U} {HK : KernelMem U} {HL : KernelMemOk U}.
Context (fuel : nat) (shared : Z -> Prop) (s0 : ks S U).
Context (others : Z -> Z) (Hfew : forall f, 0 <= others f < 2 ^ 30 /\ (shared f -> 0 < others f)).

Abbreviation at_ := (at_ s0).
Abbreviation fd_inv := (fd_inv shared).

Lemma fd_inv_ext O O' ft pp o (u : U) : (forall g, O g = O' g) -> fd_inv O ft pp o u -> fd_inv O' ft pp o u.
Proof. intros E [[H1 H2 H3 H4 H5] He Ho Hu]. split; [|done|done|done]. split; try done. intros f x Hx. rewrite (H3 f x Hx). by rewrite E. Qed.

Lemma fd_inv_mem O ft pp o (u u' : U) : fd_inv O ft pp o u -> um_inv u' -> km_owned u ⊆ km_owned u' -> fd_inv O ft pp o u'.
Proof. intros [Hn He Ho Hu] Hu' Hk. split; [done|done|by etransitivity|done]. Qed.

(** Two references go. *)
Lemma fileclose_two f0 f1 a c ft pp o u : kready c -> fd_inv (bump (bump others f1 1) f0 1) ft pp o u -> is_Some (aget ft (f0 - 1)) -> is_Some (aget ft (f1 - 1)) ->
  exists c' ft' pp' u', (forall A (k : M (ks S U) A), (fileclose fuel f0 ;;; fileclose fuel f1 ;;; k) (at_ a c ft pp o u) = k (at_ a c' ft' pp' o u')) /\ touch c' = touch c /\ fd_inv others ft' pp' o u'.
Proof using All.
  intros Hc Hi H0 H1. destruct (fileclose_ref fuel shared s0 (bump others f1 1) f0 a c ft pp o u (bump_modest shared others Hfew f1) Hc Hi H0) as (c1 & ft1 & pp1 & u1 & E1 & Hc1 & Hi1 & Hl1).
  assert (H1' : is_Some (aget ft1 (f1 - 1))) by (destruct H1 as [x Hx]; apply aget_is_Some; rewrite Hl1; by apply (aget_Some_lt _ _ _ Hx)).
  assert (Hc1r : kready c1) by (apply kready_touch; rewrite Hc1; by apply kready_touch).
  destruct (fileclose_ref fuel shared s0 others f1 a c1 ft1 pp1 o u1 (few_modest shared others Hfew) Hc1r Hi1 H1') as (c2 & ft2 & pp2 & u2 & E2 & Hc2 & Hi2 & _).
  exists c2, ft2, pp2, u2. split_and!; [|congruence|done]. intros A k. by rewrite (bind_ret_l _ _ _ _ _ E1), (bind_ret_l _ _ _ _ _ E2).
Qed.

(** The two files of a new pipe [pi]. *)
Definition read_end (pi : Z) (x : file) : file := set_f_pipe pi (set_f_writable false (set_f_readable true (set_f_type FD_PIPE x))).
Definition write_end (pi : Z) (x : file) : file := set_f_pipe pi (set_f_writable true (set_f_readable false (set_f_type FD_PIPE x))).
Definition new_pipe (junk : list Z) : pipe := mkpipe junk 0 0 true true.

Lemma new_pipe_inv junk : Z.of_nat (length junk) = PIPESIZE -> pinv (new_pipe junk) [].
Proof. intros Hj. split; [|done|cbn; lia]. split; [done|cbn; unfold PIPESIZE; lia|]. intros i x. by rewrite lookup_nil. Qed.

Lemma two_files (f0 f1 : Z) (ft : list file) z0 z1 y0 y1 : f0 <> f1 -> 0 <= f0 - 1 -> 0 <= f1 - 1 ->
  <[Z.to_nat (f1 - 1) := y1]> (<[Z.to_nat (f0 - 1) := y0]> (<[Z.to_nat (f1 - 1) := z1]> (<[Z.to_nat (f0 - 1) := z0]> ft))) = <[Z.to_nat (f1 - 1) := y1]> (<[Z.to_nat (f0 - 1) := y0]> ft).
Proof using Type.
  clear. intros Hne H0 H1. rewrite (list_insert_insert_ne (<[Z.to_nat (f0 - 1) := z0]> ft) (Z.to_nat (f0 - 1)) (Z.to_nat (f1 - 1))) by lia. rewrite list_insert_insert_eq.
  by rewrite list_insert_insert_eq.
Qed.

Lemma pipealloc_ok junk a c ft pp o u : kready c -> fd_inv others ft pp o u -> Z.of_nat (length junk) = PIPESIZE ->
  (exists f0 f1 x0 x1 pi c' u', let ft' := <[Z.to_nat (f1 - 1) := write_end pi (set_f_ref 1 x1)]> (<[Z.to_nat (f0 - 1) := read_end pi (set_f_ref 1 x0)]> ft) in
     pipealloc fuel junk (at_ a c ft pp o u) = Ret (Some (f0, f1)) (at_ a c' ft' (<[pi := new_pipe junk]> pp) o u') /\ touch c' = touch c /\
     aget ft (f0 - 1) = Some x0 /\ aget ft (f1 - 1) = Some x1 /\ f0 <> f1 /\ (forall x, um_read u' x = um_read u x) /\ fd_inv (bump (bump others f1 1) f0 1) ft' (<[pi := new_pipe junk]> pp) o u') \/
  (exists c' ft' pp' u', pipealloc fuel junk (at_ a c ft pp o u) = Ret None (at_ a c' ft' pp' o u') /\ touch c' = touch c /\ fd_inv others ft' pp' o u').
Proof using All.
  intros Hc Hi Hj. unfold pipealloc. destruct (filealloc_ref shared s0 others a c ft pp o u (few_modest shared others Hfew) Hc Hi) as [(f0 & x0 & E0 & _ & Hf0 & Hx0 & Hr0 & Ht0 & Hi0)|[E0 _]].
  2:{ right. exists (touch c), ft, pp, u. rewrite (bind_ret_l _ _ _ _ _ E0). split_and!; [done|apply touch_idemp|done]. }
  rewrite (bind_ret_l _ _ _ _ _ E0), (proj2 (Z.eqb_neq f0 0)) by done. cbn [orb]. set (ft0 := <[_ := _]> ft) in Hi0 |- *. pose proof (aget_Some_lt _ _ _ Hx0) as Hlt0.
  assert (Hc0 : kready (touch c)) by (by apply kready_touch). assert (Hx00 : aget ft0 (f0 - 1) = Some (set_f_ref 1 x0)) by (unfold ft0; rewrite aget_insert by done; by rewrite decide_True).
  destruct (filealloc_ref shared s0 (bump others f0 1) a (touch c) ft0 pp o u (bump_modest shared others Hfew f0) Hc0 Hi0) as [(f1 & x1 & E1 & _ & Hf1 & Hx1 & Hr1 & Ht1 & Hi1)|[E1 _]].
  2:{ right. rewrite (bind_ret_l _ _ _ _ _ E1), touch_idemp. cbn [Z.eqb].
      destruct (fileclose_ref fuel shared s0 others f0 a (touch c) ft0 pp o u (few_modest shared others Hfew) Hc0 Hi0 ltac:(eauto)) as (c' & ft' & pp' & u' & E2 & Hc' & Hi' & _).
      exists c', ft', pp', u'. split_and!; [|by rewrite Hc', touch_idemp|done]. mstep. change (0 =? 0) with true. cbv iota. by rewrite (bind_ret_l _ _ _ _ _ E2). }
  rewrite touch_idemp in E1. rewrite (bind_ret_l _ _ _ _ _ E1), (proj2 (Z.eqb_neq f1 0)) by done. cbn [orb]. assert (Hne : f0 <> f1) by (intros <-; rewrite Hx00 in Hx1; by injection Hx1 as <-).
  pose proof (aget_Some_lt _ _ _ Hx1) as Hlt1. unfold ft0 in Hlt1. rewrite length_insert in Hlt1. assert (Hx1' : aget ft (f1 - 1) = Some x1) by (unfold ft0 in Hx1; rewrite aget_insert, decide_False in Hx1 by lia; done).
  set (ft1 := <[Z.to_nat (f1 - 1) := _]> ft0) in Hi1 |- *. assert (Hat : forall g, aget ft1 (g - 1) = if decide (g = f1) then Some (set_f_ref 1 x1) else if decide (g = f0) then Some (set_f_ref 1 x0) else aget ft (g - 1)).
  { intros g. unfold ft1, ft0. rewrite aget_insert by (rewrite length_insert; lia). rewrite aget_insert by lia. by repeat (case_decide; try lia). }
  assert (H0 : aget ft1 (f0 - 1) = Some (set_f_ref 1 x0)) by (by rewrite Hat, decide_False, decide_True). assert (H1 : aget ft1 (f1 - 1) = Some (set_f_ref 1 x1)) by (by rewrite Hat, decide_True).
  apply (fd_inv_ext _ (bump (bump others f1 1) f0 1)) in Hi1; [|intros g; unfold bump; repeat case_decide; lia].
  destruct (km_kalloc_ok u (fi_mem _ _ _ _ _ _ Hi)) as (pi & u' & Ek & Hu' & Hrd & Hown). rewrite (bind_ret_l _ _ _ _ _ (onuser_at s0 km_kalloc a (touch c) ft1 pp o u pi u' Ek)).
  assert (Hi2 : fd_inv (bump (bump others f1 1) f0 1) ft1 pp o u') by (apply (fd_inv_mem _ _ _ _ u); [done|done|]; destruct Hown as [[_ ->]|(_ & _ & ->)]; set_solver).
  destruct Hown as [[-> _]|(Hpi & Hfresh & Ho')].
  - right. change (0 =? 0) with true. cbv iota. destruct (fileclose_two f0 f1 a (touch c) ft1 pp o u' Hc0 Hi2 ltac:(eauto) ltac:(eauto)) as (c' & ft' & pp' & u'' & Ec & Hc' & Hi').
    exists c', ft', pp', u''. rewrite Ec. split_and!; [done|by rewrite Hc', touch_idemp|done].
  - left. exists f0, f1, x0, x1, pi, (touch c), u'. cbv zeta. rewrite (proj2 (Z.eqb_neq pi 0)) by done.
    rewrite (bind_ret_l _ _ _ _ _ (onpipe_at s0 pi (pipeinit junk) a (touch c) ft1 pp o u' tt (touch c) (Some (new_pipe junk)) u' eq_refl)).
    rewrite (bind_ret_l _ _ _ _ _ (setf_at s0 f0 _ _ a _ ft1 _ o u' H0)).
    rewrite (bind_ret_l _ _ _ _ _ (setf_at s0 f1 _ (set_f_ref 1 x1) a _ (<[Z.to_nat (f0 - 1) := read_end pi (set_f_ref 1 x0)]> ft1) _ o u' ltac:(rewrite aget_insert by (by apply (aget_Some_lt _ _ _ H0)); by rewrite decide_False by lia))).
    assert (Eft : <[Z.to_nat (f1 - 1) := write_end pi (set_f_ref 1 x1)]> (<[Z.to_nat (f0 - 1) := read_end pi (set_f_ref 1 x0)]> ft1) =
      <[Z.to_nat (f1 - 1) := write_end pi (set_f_ref 1 x1)]> (<[Z.to_nat (f0 - 1) := read_end pi (set_f_ref 1 x0)]> ft)) by (apply two_files; [done|lia|lia]).
    split_and!; [unfold ret; do 2 f_equal; exact Eft|apply touch_idemp|done|done|done|done|]. rewrite <- Eft. destruct Hi2 as [Hn He Hd Hm]. split; [| |rewrite dom_insert, Ho'; pose proof (fi_own _ _ _ _ _ _ Hi); set_solver|done].
    + set (O := bump (bump others f1 1) f0 1) in *.
      apply (counts_file shared O O _ o f1 (set_f_ref 1 x1)); try done; [|rewrite aget_insert by (by apply (aget_Some_lt _ _ _ H0)); by rewrite decide_False by lia|apply (co_ref _ _ _ _ Hn f1 _ H1)|cbn; naive_solver].
      apply (counts_file shared O O _ o f0 (set_f_ref 1 x0)); try done; [apply (co_ref _ _ _ _ Hn f0 _ H0)|cbn; naive_solver].
    + rewrite Eft. apply (ends_new ft pp f0 f1 x0 x1 _ _ pi (new_pipe junk) []); try done; [by apply (fi_ends _ _ _ _ _ _ Hi)|].
      apply not_elem_of_dom. pose proof (fi_own _ _ _ _ _ _ Hi). set_solver.
Qed.

(** The two descriptors go, and with them the two files. *)
Lemma drop_two fd0 fd1 f0 f1 a c ft pp o u : kready c -> fd_inv others ft pp o u -> aget o fd0 = Some f0 -> aget o fd1 = Some f1 -> fd0 <> fd1 -> f0 <> 0 -> f1 <> 0 ->
  exists c' ft' pp' o' u', (set_fd fd0 0 ;;; set_fd fd1 0 ;;; fileclose fuel f0 ;;; fileclose fuel f1 ;;; err) (at_ a c ft pp o u) = Ret (u64 (-1)) (at_ a c' ft' pp' o' u') /\ touch c' = touch c /\ fd_inv others ft' pp' o' u'.
Proof using All.
  intros Hc Hi H0 H1 Hne N0 N1. destruct (fd_file shared others ft pp o u fd0 f0 (few_modest shared others Hfew) Hi H0 N0) as (x0 & Hx0 & _).
  destruct (fd_file shared others ft pp o u fd1 f1 (few_modest shared others Hfew) Hi H1 N1) as (x1 & Hx1 & _). pose proof Hi as [Hn He Ho Hu].
  assert (H1' : aget (<[Z.to_nat fd0 := 0]> o) fd1 = Some f1) by (rewrite aget_insert by (by apply (aget_Some_lt _ _ _ H0)); by rewrite decide_False by congruence).
  set (o' := <[Z.to_nat fd1 := 0]> (<[Z.to_nat fd0 := 0]> o)). assert (Hi' : fd_inv (bump (bump others f1 1) f0 1) ft pp o' u).
  { apply (fd_inv_ext (bump (bump others f0 1) f1 1)); [intros g; unfold bump; repeat case_decide; lia|]. split; [|done|done|done]. apply counts_unfd; [|done]. by apply counts_unfd. }
  destruct (fileclose_two f0 f1 a c ft pp o' u Hc Hi' ltac:(eauto) ltac:(eauto)) as (c' & ft' & pp' & u' & E & Hc' & Hi2). exists c', ft', pp', o', u'. split_and!; [|done|done].
  rewrite (bind_ret_l _ _ _ _ _ (set_fd_at s0 fd0 0 f0 a c ft pp o u H0)), (bind_ret_l _ _ _ _ _ (set_fd_at s0 fd1 0 f1 a c ft pp _ u H1')). by rewrite E.
Qed.

(** The two numbers are stored, or the second or both are not. *)
Lemma store_two b0 b1 addr a c ft pp o u : 0 <= addr -> um_inv u -> fd_inv others ft pp o u ->
  exists r u', (r <- onuser (um_copyout addr b0) ;; (if r <? 0 then ret r else onuser (um_copyout (u64 (addr + Z.of_nat (length b0))) b1))) (at_ a c ft pp o u) = Ret r (at_ a c ft pp o u') /\
    fd_inv others ft pp o u' /\ (r = -1 \/ r = 0 /\ (addr + Z.of_nat (length b0) + Z.of_nat (length b1) <= 2 ^ 64 -> holds (um_read u') addr (b0 ++ b1))).
Proof using Type.
  clear Hfew. intros Ha Hu Hi. destruct (um_copyout_ok u addr b0 Hu Ha) as (r & u1 & n & E & Hu1 & Hcp & Hres). pose proof (km_copyout_owned u addr b0 r u1 Hu E) as Hk.
  assert (Hi1 : fd_inv others ft pp o u1) by (apply (fd_inv_mem _ _ _ _ u); [done|done|by rewrite Hk]). rewrite (bind_ret_l _ _ _ _ _ (onuser_at s0 _ a c ft pp o u r u1 E)).
  destruct Hres as [[-> ->]|(-> & _ & _)]; [|exists (-1), u1; split_and!; [done|done|by left]]. cbn [Z.ltb Z.compare].
  destruct (um_copyout_ok u1 (u64 (addr + Z.of_nat (length b0))) b1 Hu1 (proj1 (u64_range _))) as (r' & u2 & n' & E' & Hu2 & Hcp' & Hres'). pose proof (km_copyout_owned u1 _ b1 r' u2 Hu1 E') as Hk'.
  exists r', u2. split_and!; [by apply onuser_at|apply (fd_inv_mem _ _ _ _ u1); [done|done|by rewrite Hk']|]. destruct Hres' as [[-> ->]|(-> & _ & _)]; [right|by left]. split; [done|]. intros Hb.
  destruct (decide (b1 = [])) as [->|Hne]; [rewrite app_nil_r; apply (copied_elsewhere _ _ _ _ _ _ _ Hcp'); [cbn; pose proof (u64_range (addr + Z.of_nat (length b0))); cbn in *|by eapply copied_holds]|].
  - unfold u64. destruct (decide (addr + Z.of_nat (length b0) = 2 ^ 64)) as [->|]; [rewrite Z.mod_same by done; lia|rewrite Z.mod_small by lia; lia].
  - assert (0 < Z.of_nat (length b1)) by (destruct b1; cbn; [done|lia]). rewrite u64_small in Hcp' by lia. intros k x [Hk0|[Hl Hk0]]%lookup_app_Some.
    + apply (copied_elsewhere _ _ _ _ _ addr b0 Hcp'); [lia|by eapply copied_holds|done].
    + apply copied_holds in Hcp'. rewrite <- (Hcp' (k - length b0)%nat x Hk0). f_equal. lia.
Qed.

(** The state after a [sys_pipe] that succeeds: a new pipe with its files in two
    descriptors that were free, whose numbers are at [addr]. *)
Record piped (addr : Z) (ft : list file) (pp : gmap Z pipe) (o : list Z) (junk : list Z) (fd0 fd1 : Z) (ft' : list file) (pp' : gmap Z pipe) (o' : list Z) (u' : U) : Prop := {
  pd_fd0 : aget o fd0 = Some 0;
  pd_fd1 : aget o fd1 = Some 0;
  pd_ne : fd0 <> fd1;
  pd_files : exists pi f0 f1 x0 x1, aget o' fd0 = Some f0 /\ aget o' fd1 = Some f1 /\ f0 <> 0 /\ f1 <> 0 /\ aget ft' (f0 - 1) = Some (read_end pi x0) /\ aget ft' (f1 - 1) = Some (write_end pi x1) /\ pp' = <[pi := new_pipe junk]> pp;
  pd_mem : addr + 8 <= 2 ^ 64 -> holds (um_read u') addr (le_bytes 4 fd0 ++ le_bytes 4 fd1)
}.

Lemma sys_pipe_cases junk v a c ft pp o u : kready c -> fd_inv others ft pp o u -> Z.of_nat (length junk) = PIPESIZE -> aget a 0 = Some v ->
  (exists fd0 fd1 c' ft' pp' o' u', sys_pipe fuel junk (at_ a c ft pp o u) = Ret 0 (at_ a c' ft' pp' o' u') /\ touch c' = touch c /\ fd_inv others ft' pp' o' u' /\ piped (u64 v) ft pp o junk fd0 fd1 ft' pp' o' u') \/
  (exists c' ft' pp' o' u', sys_pipe fuel junk (at_ a c ft pp o u) = Ret (u64 (-1)) (at_ a c' ft' pp' o' u') /\ touch c' = touch c /\ fd_inv others ft' pp' o' u').
Proof using All.
  intros Hc Hi Hj Hv. unfold sys_pipe. rewrite (bind_ret_l _ _ _ _ _ (argaddr_at s0 0 v a c ft pp o u ltac:(lia) Hv)).
  destruct (pipealloc_ok junk a c ft pp o u Hc Hi Hj) as [(f0 & f1 & x0 & x1 & pi & c1 & u1 & E & Hc1 & Hx0 & Hx1 & Hne & _ & Hi1)|(c' & ft' & pp' & u' & E & Hc' & Hi')].
  2:{ right. exists c', ft', pp', o, u'. by rewrite (bind_ret_l _ _ _ _ _ E). }
  rewrite (bind_ret_l _ _ _ _ _ E). set (ft1 := <[Z.to_nat (f1 - 1) := _]> _) in Hi1 |- *. set (pp1 := <[pi := _]> pp) in Hi1 |- *. pose proof (aget_Some_lt _ _ _ Hx0) as L0. pose proof (aget_Some_lt _ _ _ Hx1) as L1.
  assert (Hr1 : kready c1) by (apply kready_touch; rewrite Hc1; by apply kready_touch).
  assert (H1 : aget ft1 (f1 - 1) = Some (write_end pi (set_f_ref 1 x1))) by (unfold ft1; rewrite aget_insert by (rewrite length_insert; lia); by rewrite decide_True).
  assert (H0 : aget ft1 (f0 - 1) = Some (read_end pi (set_f_ref 1 x0))) by (unfold ft1; rewrite aget_insert by (rewrite length_insert; lia); rewrite decide_False by lia; rewrite aget_insert by lia; by rewrite decide_True).
  destruct (fdalloc_ref shared s0 (bump others f1 1) f0 a c1 ft1 pp1 o u1 Hi1 ltac:(eauto)) as [(fd0 & E0 & Hb0 & _ & Hz0 & Hi2)|[E0 _]]; rewrite (bind_ret_l _ _ _ _ _ E0).
  2:{ right. cbn [Z.ltb Z.compare orb Z.leb]. mstep. destruct (fileclose_two f0 f1 a c1 ft1 pp1 o u1 Hr1 Hi1 ltac:(eauto) ltac:(eauto)) as (c' & ft' & pp' & u' & Ec & Hc' & Hi').
      exists c', ft', pp', o, u'. rewrite Ec. split_and!; [done|congruence|done]. }
  rewrite (proj2 (Z.ltb_ge fd0 0)), (proj2 (Z.leb_le 0 fd0)) by lia. cbn [orb]. set (o1 := <[Z.to_nat fd0 := f0]> o) in Hi2 |- *. assert (Ho1 : aget o1 fd0 = Some f0) by (unfold o1; rewrite aget_insert by (by apply (aget_Some_lt _ _ _ Hz0)); by rewrite decide_True).
  destruct (fdalloc_ref shared s0 others f1 a c1 ft1 pp1 o1 u1 Hi2 ltac:(eauto)) as [(fd1 & E1 & Hb1 & _ & Hz1 & Hi3)|[E1 _]]; rewrite (bind_ret_l _ _ _ _ _ E1).
  2:{ right. cbn [Z.ltb Z.compare]. rewrite (bind_ret_l _ _ _ _ _ (set_fd_at s0 fd0 0 f0 a c1 ft1 pp1 o1 u1 Ho1)).
      destruct (fileclose_two f0 f1 a c1 ft1 pp1 (<[Z.to_nat fd0 := 0]> o1) u1 Hr1) as (c' & ft' & pp' & u' & Ec & Hc' & Hi'); [destruct Hi2 as [Hn2 ? ? ?]; split; [by apply counts_unfd|done|done|done]|eauto|eauto|].
      exists c', ft', pp', (<[Z.to_nat fd0 := 0]> o1), u'. rewrite Ec. split_and!; [done|congruence|done]. }
  rewrite (proj2 (Z.ltb_ge fd1 0)) by lia. set (o2 := <[Z.to_nat fd1 := f1]> o1) in Hi3 |- *.
  assert (Hfd : fd0 <> fd1) by (intros <-; rewrite Ho1 in Hz1; injection Hz1 as ->; lia). rewrite !u32_small by lia.
  assert (Ho2 : aget o2 fd0 = Some f0) by (unfold o2; rewrite aget_insert by (by apply (aget_Some_lt _ _ _ Hz1)); by rewrite decide_False by congruence).
  assert (Ho2' : aget o2 fd1 = Some f1) by (unfold o2; rewrite aget_insert by (by apply (aget_Some_lt _ _ _ Hz1)); by rewrite decide_True).
  destruct (store_two (le_bytes 4 fd0) (le_bytes 4 fd1) (u64 v) a c1 ft1 pp1 o2 u1 (proj1 (u64_range v)) (fi_mem _ _ _ _ _ _ Hi3) Hi3) as (r & u2 & Es & Hi4 & Hr). rewrite (bind2_ret_l _ _ _ _ _ _ Es).
  destruct Hr as [->|[-> Hm]]; cbn [Z.ltb Z.compare].
  - right. destruct (drop_two fd0 fd1 f0 f1 a c1 ft1 pp1 o2 u2 Hr1 Hi4 Ho2 Ho2' Hfd ltac:(lia) ltac:(lia)) as (c' & ft' & pp' & o' & u' & Ed & Hc' & Hi'). exists c', ft', pp', o', u'. rewrite Ed. split_and!; [done|congruence|done].
  - left. exists fd0, fd1, c1, ft1, pp1, o2, u2. split_and!; [done|done|done|]. split; [done| |done| |].
    + unfold o1 in Hz1. rewrite aget_insert, decide_False in Hz1 by first [by apply (aget_Some_lt _ _ _ Hz0)|congruence]. done.
    + exists pi, f0, f1, (set_f_ref 1 x0), (set_f_ref 1 x1). split_and!; try done; lia.
    + intros Hb. apply Hm. change (length (le_bytes 4 fd0)) with 4%nat. change (length (le_bytes 4 fd1)) with 4%nat. lia.
Qed.
End SysfilePipe.
