(* ===== verification/SysfileProps.v ===== *)
(** * System calls on descriptors: their guarantees

    Calls that open, copy and close descriptors never panic and never touch a pipe
    that is gone; a pipe carries bytes from one descriptor to the other; a mutex
    in a used entry of the file table brings the kernel down. *)

From S2P Require Import Prelude StringC Bytes Ring Sleeplock UserMem Bio Log LogProps Blocks Fs FsFile FsDisk FsDemo Pipe PipeSpec File Sysfile FileSpec FileInv SysfileSpec FileDemo SysfilePipe.

(** A call and the registers it is made with; [junk] and [pid] are what memory
    holds where the code does not initialise it. *)
Inductive fdcall := CDup | CClose | CPipe (junk : list Z) | CMutex (pid : Z).

Definition set_kargs {S U} (v : list Z) (s : ks S U) : ks S U := mkks (kfs s) (ftable s) (pipes s) (kofile s) (ksz s) v.

Section SysfileProps.
Context {S U : Type} {HS : HasCtx S} {HO : BlockOps S} {HU : UserMem U} {HK : KernelMem U} {HL : KernelMemOk U}.
Context (fuel : nat) (devsw : list (devops (ks S U))) (shared : Z -> Prop) (others : Z -> Z).

Definition fd_call (k : fdcall) : M (ks S U) Z :=
  match k with
  | CDup => sys_dup
  | CClose => sys_close fuel
  | CPipe junk => sys_pipe fuel junk
  | CMutex pid => sys_create_mutex fuel pid
  end.

(** One call after the other. *)
Fixpoint fd_calls (l : list (list Z * fdcall)) : M (ks S U) (list Z) :=
  match l with
  | [] => ret []
  | (a, k) :: l => modify (set_kargs a) ;;; r <- fd_call k ;; rs <- fd_calls l ;; ret (r :: rs)
  end.

Definition well_called (x : list Z * fdcall) : Prop :=
  length x.1 = 6%nat /\ match x.2 with CPipe junk => Z.of_nat (length junk) = PIPESIZE | _ => True end.

Definition user_mem (s : ks S U) : U := um_user (fum (kfs s)).
Definition fds_ok (s : ks S U) : Prop := fd_inv shared others (ftable s) (pipes s) (kofile s) (user_mem s).

(** References elsewhere: few, and one to every file on the disk that is open. *)
Definition few : Prop := forall f, 0 <= others f < 2 ^ 30 /\ (shared f -> 0 < others f).

Lemma at_self (s : ks S U) : at_ s (kargs s) (cx s) (ftable s) (pipes s) (kofile s) (user_mem s) = s.
Proof. apply at_whole. Qed.

Lemma at_args (s : ks S U) a a' c ft pp o u : set_kargs a' (at_ s a c ft pp o u) = at_ s a' c ft pp o u.
Proof. done. Qed.

(** One call. *)
Lemma fd_call_ok (s0 : ks S U) x a c ft pp o u : few -> well_called x -> kready c -> fd_inv shared others ft pp o u -> x.1 = a -> returns shared s0 others (fd_call x.2) a c ft pp o u.
Proof.
  intros Hfew [Hl Hk] Hc Hi <-. destruct (aget_is_Some x.1 0) as [v Hv]; [rewrite Hl; lia|]. destruct (x.2) as [| |junk|pid]; cbn [fd_call].
  - by apply (sys_dup_ok shared s0 others Hfew v).
  - by apply (sys_close_ok fuel shared s0 others Hfew v).
  - destruct (sys_pipe_cases fuel shared s0 others Hfew junk v x.1 c ft pp o u Hc Hi Hk Hv) as [(fd0 & fd1 & c' & ft' & pp' & o' & u' & E & Hc' & Hi' & _)|(c' & ft' & pp' & o' & u' & E & Hc' & Hi')].
    + exists 0, c', ft', pp', o', u'. split_and!; [done|done|done|right; lia].
    + exists (u64 (-1)), c', ft', pp', o', u'. split_and!; [done|done|done|by left].
  - destruct (sys_create_mutex_cases fuel shared s0 others Hfew pid x.1 c ft pp o u Hc Hi) as [(f & y & fd & E & _ & _ & Hfd & _ & Hi')|(c' & ft' & pp' & u' & E & _ & Hc' & Hi')].
    + eexists fd, (touch c), _, _, _, _. split_and!; [exact E|apply touch_idemp|done|by right].
    + exists (u64 (-1)), c', ft', pp', o, u'. split_and!; [done|done|done|by left].
Qed.

(** C16: A process whose open files are pipes and mutexes, and files on the disk
    that are open elsewhere too, calls [dup], [close], [pipe] and [create_mutex] in
    whatever order and with whatever arguments: no call panics, faults or waits, and
    each returns -1 or a small number.  Afterwards every file has as many references
    as descriptors stand for it, a pipe exists exactly as long as a file is an end of
    it, and each open end has one file.  As the files on the disk have a reference
    elsewhere, no [close] here is the last of one, which would start a transaction;
    that case of [fileclose] has a theorem of its own in [FileWriteProps]. *)
Theorem fd_calls_safe (s : ks S U) l : few -> kready (cx s) -> fds_ok s -> Forall well_called l ->
  exists rs s', fd_calls l s = Ret rs s' /\ length rs = length l /\ Forall (fun r => r = u64 (-1) \/ 0 <= r < 16) rs /\ kready (cx s') /\ fds_ok s'.
Proof.
  intros Hfew Hc Hi Hl. revert s Hc Hi. induction Hl as [|[a k] l Hx _ IH]; intros s Hc Hi; cbn [fd_calls]; [by exists [], s|].
  destruct (fd_call_ok s (a, k) a (cx s) (ftable s) (pipes s) (kofile s) (user_mem s) Hfew Hx Hc Hi eq_refl) as (r & c' & ft' & pp' & o' & u' & E & Hc' & Hi' & Hr). cbn [snd] in E.
  rewrite (bind_ret_l (modify (set_kargs a)) _ s tt (at_ s a (cx s) (ftable s) (pipes s) (kofile s) (user_mem s))) by (rewrite <- at_args with (a := kargs s), at_self; done).
  rewrite (bind_ret_l _ _ _ _ _ E). set (s1 := at_ s a c' ft' pp' o' u'). assert (Hc1 : kready (cx s1)) by (unfold s1; rewrite cx_at; apply kready_touch; rewrite Hc'; by apply kready_touch).
  destruct (IH s1 Hc1 Hi') as (rs & s' & E' & Hlen & Hrs & Hc2 & Hi2). exists (r :: rs), s'. rewrite (bind_ret_l _ _ _ _ _ E'). split_and!; [done|cbn; lia|by constructor|done|done].
Qed.

(** ** Through a pipe *)

(** A descriptor of the call, as an argument. *)
Lemma arg_file a o fd f : aget a 0 = Some fd -> aget o fd = Some f -> f <> 0 -> length o = 16%nat -> exists v, aget a 0 = Some v /\ fd_arg o (s32 v) = Some (fd, f).
Proof.
  intros Ha Ho Hf Hl. exists fd. split; [done|]. pose proof (aget_Some_lt _ _ _ Ho) as Hlt. rewrite Hl in Hlt. rewrite s32_small by lia. unfold fd_arg, NOFILE.
  rewrite (proj2 (Z.ltb_ge fd 0)), (proj2 (Z.leb_gt 16 fd)) by lia. cbn [orb]. by rewrite Ho, (proj2 (Z.eqb_neq f 0)).
Qed.

Lemma write_pipe (s0 : ks S U) a c ft pp o u fd f x pi p q buf bytes : kready c -> um_inv u -> length o = 16%nat -> aget a 0 = Some fd -> aget a 1 = Some buf -> aget a 2 = Some (Z.of_nat (length bytes)) ->
  aget o fd = Some f -> f <> 0 -> aget ft (f - 1) = Some (write_end pi x) -> pp !! pi = Some p -> pinv p q -> Z.of_nat (length q) + Z.of_nat (length bytes) <= PIPESIZE -> 0 <= buf -> buf + Z.of_nat (length bytes) < 2 ^ 64 ->
  holds (um_read u) buf bytes ->
  exists p', sys_write fuel devsw (at_ s0 a c ft pp o u) = Ret (Z.of_nat (length bytes)) (at_ s0 a (touch c) ft (<[pi := p']> pp) o u) /\ same_ends p p' /\ pinv p' (q ++ bytes).
Proof.
  intros Hc Hu Hl A0 A1 A2 Ho Hf Hx Hp Hq Hroom Hb1 Hb2 Hh. destruct (arg_file a o fd f A0 Ho Hf Hl) as (v & Hv & Hfd). unfold sys_write. rewrite (bind_ret_l _ _ _ _ _ (argfd_at s0 v a c ft pp o u Hv Hl)), Hfd.
  unfold PIPESIZE in Hroom. rewrite (bind_ret_l _ _ _ _ _ (argint_at s0 2 _ a c ft pp o u ltac:(lia) A2)), (bind_ret_l _ _ _ _ _ (argaddr_at s0 1 _ a c ft pp o u ltac:(lia) A1)). rewrite s32_small, u64_small by lia.
  pose proof (pipewrite_loop_ok (pipe_lock pi) (nread_chan pi) (nwrite_chan pi) fuel buf (Z.of_nat (length bytes)) c u (kr_wf _ Hc) (kr_pipe _ Hc pi) Hu Hb1 (length bytes) 0 p q Hq ltac:(lia) ltac:(lia) ltac:(lia)) as H.
  rewrite Z.add_0_r, (fetch_holds _ _ _ Hh) in H. destruct H as (p' & Hs & Hi & E). rewrite Z.sub_0_r, !Nat2Z.id in *. unfold PIPESIZE in *. rewrite take_ge in Hi by lia. rewrite decide_True in E by lia.
  exists p'. split_and!; [|exact Hs|done].
  assert (Ew : filewrite fuel devsw f buf (Z.of_nat (length bytes)) (at_ s0 a c ft pp o u) = Ret (Z.of_nat (length bytes)) (at_ s0 a (touch c) ft (<[pi := p']> pp) o u)).
  { unfold filewrite. rewrite (bind_ret_l _ _ _ _ _ (getf_at s0 f _ a c ft pp o u Hx)). cbn [f_writable write_end set_f_pipe set_f_writable negb f_type f_pipe set_f_readable set_f_type].
    apply (onpipe_at s0 pi _ a c ft pp o u _ (touch c) (Some p') u). rewrite Hp. unfold pipewrite.
    assert (Ea : acquire (pipe_lock pi) (mkpst c (Some p) u) = Ret tt (mkpst (locked_cx (pipe_lock pi) c) (Some p) u)) by exact (acquire_ok (pipe_lock pi) (mkpst c (Some p) u : pst U) (kr_pipe _ Hc pi)).
    rewrite (bind_ret_l _ _ _ _ _ Ea), Nat2Z.id. exact E. }
  rewrite (bind_ret_l _ _ _ _ _ Ew). unfold ret. by rewrite u64_small by lia.
Qed.

Lemma read_pipe (s0 : ks S U) a c ft pp o u fd f x pi p bytes dst : kready c -> um_inv u -> length o = 16%nat -> aget a 0 = Some fd -> aget a 1 = Some dst -> aget a 2 = Some (Z.of_nat (length bytes)) ->
  aget o fd = Some f -> f <> 0 -> aget ft (f - 1) = Some (read_end pi x) -> pp !! pi = Some p -> pinv p bytes -> bytes <> [] -> 0 <= dst -> dst + Z.of_nat (length bytes) < 2 ^ 64 ->
  (forall j, 0 <= j < Z.of_nat (length bytes) -> is_Some (um_read u (dst + j))) ->
  exists p' u', sys_read fuel devsw (at_ s0 a c ft pp o u) = Ret (Z.of_nat (length bytes)) (at_ s0 a (touch c) ft (<[pi := p']> pp) o u') /\ same_ends p p' /\ pinv p' [] /\ um_inv u' /\ holds (um_read u') dst bytes.
Proof.
  intros Hc Hu Hl A0 A1 A2 Ho Hf Hx Hp Hq Hne Hd1 Hd2 Hacc. destruct (arg_file a o fd f A0 Ho Hf Hl) as (v & Hv & Hfd). pose proof (pinv_len _ _ Hq) as Hlen. unfold PIPESIZE in Hlen.
  unfold sys_read. rewrite (bind_ret_l _ _ _ _ _ (argfd_at s0 v a c ft pp o u Hv Hl)), Hfd, (bind_ret_l _ _ _ _ _ (argint_at s0 2 _ a c ft pp o u ltac:(lia) A2)), (bind_ret_l _ _ _ _ _ (argaddr_at s0 1 _ a c ft pp o u ltac:(lia) A1)).
  rewrite s32_small, u64_small by lia.
  pose proof (piperead_ok (pipe_lock pi) (nread_chan pi) (nwrite_chan pi) fuel dst (Z.of_nat (length bytes)) c u p bytes (kr_wf _ Hc) (kr_pipe _ Hc pi) Hu Hd1 ltac:(lia) Hq) as H.
  unfold did_read in H. rewrite decide_False in H by naive_solver. destruct H as (j & u' & p' & E & Hs & Hj & Hcp & Hu' & Hrest). replace (Z.min (Z.max 0 (Z.of_nat (length bytes))) (Z.of_nat (length bytes))) with (Z.of_nat (length bytes)) in * by lia.
  destruct (decide (j = Z.of_nat (length bytes))) as [->|Hjne]; [|destruct Hrest as [Hnone _]; destruct (Hacc j ltac:(lia)) as [y Hy]; congruence].
  rewrite Nat2Z.id in *. rewrite drop_all in Hrest. exists p', u'. split_and!; [|exact Hs|done|done|by eapply copied_holds].
  assert (Er : fileread fuel devsw f dst (Z.of_nat (length bytes)) (at_ s0 a c ft pp o u) = Ret (Z.of_nat (length bytes)) (at_ s0 a (touch c) ft (<[pi := p']> pp) o u')).
  { unfold fileread. rewrite (bind_ret_l _ _ _ _ _ (getf_at s0 f _ a c ft pp o u Hx)). cbn [f_readable read_end set_f_pipe set_f_writable negb f_type f_pipe set_f_readable set_f_type].
    apply (onpipe_at s0 pi _ a c ft pp o u _ (touch c) (Some p') u'). rewrite Hp. exact E. }
  rewrite (bind_ret_l _ _ _ _ _ Er). unfold ret. by rewrite u64_small by lia.
Qed.

(** C17: [pipe] fails, or it stores two descriptors at the address it is given, and a
    [write] of up to 512 bytes to the second returns their number, and a [read] of
    as many from the first returns it too and finds the same bytes. *)
Theorem pipe_carries (s : ks S U) junk addr : few -> kready (cx s) -> fds_ok s -> Z.of_nat (length junk) = PIPESIZE -> aget (kargs s) 0 = Some addr -> 0 <= addr -> addr + 8 <= 2 ^ 64 ->
  (exists s1, sys_pipe fuel junk s = Ret (u64 (-1)) s1 /\ fds_ok s1) \/
  exists s1 fd0 fd1, sys_pipe fuel junk s = Ret 0 s1 /\ fds_ok s1 /\ holds (um_read (user_mem s1)) addr (le_bytes 4 fd0 ++ le_bytes 4 fd1) /\
    forall bytes buf dst, bytes <> [] -> Z.of_nat (length bytes) <= PIPESIZE -> 0 <= buf -> buf + Z.of_nat (length bytes) < 2 ^ 64 -> 0 <= dst -> dst + Z.of_nat (length bytes) < 2 ^ 64 ->
      holds (um_read (user_mem s1)) buf bytes -> (forall j, 0 <= j < Z.of_nat (length bytes) -> is_Some (um_read (user_mem s1) (dst + j))) ->
      exists s2 s3, sys_write fuel devsw (set_kargs [fd1; buf; Z.of_nat (length bytes); 0; 0; 0] s1) = Ret (Z.of_nat (length bytes)) s2 /\
        sys_read fuel devsw (set_kargs [fd0; dst; Z.of_nat (length bytes); 0; 0; 0] s2) = Ret (Z.of_nat (length bytes)) s3 /\ holds (um_read (user_mem s3)) dst bytes.
Proof.
  intros Hfew Hc Hi Hj Ha H0 H8. destruct (sys_pipe_cases fuel shared s others Hfew junk addr (kargs s) (cx s) (ftable s) (pipes s) (kofile s) (user_mem s) Hc Hi Hj Ha)
    as [(fd0 & fd1 & c' & ft' & pp' & o' & u' & E & Hc' & Hi' & Hp)|(c' & ft' & pp' & o' & u' & E & _ & Hi')]; rewrite at_self in E; [right|left; eexists; split; [exact E|exact Hi']].
  rewrite u64_small in Hp by lia. destruct Hp as [_ _ _ (pi & f0 & f1 & x0 & x1 & Ho0 & Ho1 & N0 & N1 & Hx0 & Hx1 & ->) Hm]. eexists _, fd0, fd1. split_and!; [exact E|exact Hi'|by apply Hm|].
  intros bytes buf dst Hne Hlen Hb1 Hb2 Hd1 Hd2 Hh Hacc. change (user_mem _) with u' in Hh, Hacc. pose proof (co_len _ _ _ _ (fi_counts _ _ _ _ _ _ Hi')) as Hl. pose proof (fi_mem _ _ _ _ _ _ Hi') as Hu.
  assert (Hr : kready c') by (apply kready_touch; rewrite Hc'; by apply kready_touch). set (n := Z.of_nat (length bytes)) in *.
  destruct (write_pipe s [fd1; buf; n; 0; 0; 0] c' ft' (<[pi := new_pipe junk]> (pipes s)) o' u' fd1 f1 x1 pi (new_pipe junk) [] buf bytes) as (p1 & E1 & _ & Hq); try done; [by rewrite lookup_insert_eq|].
  rewrite insert_insert_eq in E1. rewrite app_nil_l in Hq.
  destruct (read_pipe s [fd0; dst; n; 0; 0; 0] (touch c') ft' (<[pi := p1]> (pipes s)) o' u' fd0 f0 x0 pi p1 bytes dst) as (p2 & u2 & E2 & _ & _ & _ & Hh2); try done; [by apply kready_touch|by rewrite lookup_insert_eq|].
  eexists _, _. rewrite at_args. split_and!; [exact E1|rewrite at_args; exact E2|exact Hh2].
Qed.

(** C18: [create_mutex] takes an entry of the file table without resetting what the last
    file in it allowed.  When that file was open for reading, a [read] of the new
    descriptor panics the kernel, with any other arguments; when it was open for
    writing, a [write] does. *)
Theorem create_mutex_stale (s : ks S U) pid f x fd : few -> kready (cx s) -> fds_ok s -> free_file (ftable s) 1 = Some f -> aget (ftable s) (f - 1) = Some x -> free_fd (kofile s) 0 = Some fd ->
  exists s1, sys_create_mutex fuel pid s = Ret fd s1 /\ fds_ok s1 /\
    forall addr n a, (f_readable x = true -> sys_read fuel devsw (set_kargs (fd :: addr :: n :: a) s1) = Panic "fileread") /\
      (f_writable x = true -> sys_write fuel devsw (set_kargs (fd :: addr :: n :: a) s1) = Panic "filewrite").
Proof.
  intros Hfew Hc Hi Hf Hx Hfd.
  destruct (sys_create_mutex_cases fuel shared s others Hfew pid (kargs s) (cx s) (ftable s) (pipes s) (kofile s) (user_mem s) Hc Hi) as [(f' & x' & fd' & E & Hf' & Hfd' & Hb & Hx' & Hi')|(c' & ft' & pp' & u' & E & [?|?] & _)]; [|congruence|congruence].
  assert (f' = f) as -> by congruence. assert (x' = x) as -> by congruence. assert (fd' = fd) as -> by congruence. rewrite at_self in E. eexists. split_and!; [exact E|exact Hi'|].
  intros addr n a. rewrite at_args. set (ft' := <[_ := _]> (ftable s)) in *. set (o' := <[_ := _]> (kofile s)) in *. pose proof (co_len _ _ _ _ (fi_counts _ _ _ _ _ _ Hi')) as Hl. pose proof (aget_Some_lt _ _ _ Hx) as Hlt.
  assert (Ho : aget o' fd = Some f) by (unfold o' in *; rewrite length_insert in Hl; rewrite aget_insert by lia; by rewrite decide_True).
  assert (Hm : aget ft' (f - 1) = Some (mutex_of pid x)) by (unfold ft'; rewrite aget_insert by done; by rewrite decide_True).
  set (b := fd :: addr :: n :: a). destruct (arg_file b o' fd f eq_refl Ho ltac:(lia) Hl) as (v & Hv & Hfda).
  split; intros Hs; [unfold sys_read|unfold sys_write]; rewrite (bind_ret_l _ _ _ _ _ (argfd_at s v b _ ft' _ o' _ Hv Hl)), Hfda;
    rewrite (bind_ret_l _ _ _ _ _ (argint_at s 2 n b _ ft' _ o' _ ltac:(lia) eq_refl)), (bind_ret_l _ _ _ _ _ (argaddr_at s 1 addr b _ ft' _ o' _ ltac:(lia) eq_refl)); apply bind_panic;
    [unfold fileread|unfold filewrite]; rewrite (bind_ret_l _ _ _ _ _ (getf_at s f _ b _ ft' _ o' _ Hm)); cbn [f_readable f_writable mutex_of set_f_mutex set_f_type set_f_ref f_type]; by rewrite Hs.
Qed.
End SysfileProps.

(** ** On the concrete memory *)

Lemma few_none : few (fun _ => False) (fun _ => 0).
Proof. intros f. split; [lia|done]. Qed.

Lemma file_demo_ok : fds_ok (fun _ => False) (fun _ => 0) file_demo.
Proof. exact file_demo_inv. Qed.

Definition demo_junk : list Z := replicate 512 0.
Definition demo_calls : list (list Z * fdcall) :=
  [([100; 0; 0; 0; 0; 0], CPipe demo_junk); ([0; 0; 0; 0; 0; 0], CDup); ([0; 0; 0; 0; 0; 0], CClose); ([7; 0; 0; 0; 0; 0], CClose); ([0; 0; 0; 0; 0; 0], CMutex 9)].

Lemma demo_calls_ok : Forall well_called demo_calls.
Proof. unfold demo_calls. repeat constructor. Qed.

(** Witness: a pipe, a copy of its first descriptor, two times [close], and a mutex. *)
Lemma fd_calls_safe_witness : exists rs s', fd_calls (HO := demo_ops) 1 demo_calls file_demo = Ret rs s' /\ length rs = 5%nat /\ Forall (fun r => r = u64 (-1) \/ 0 <= r < 16) rs /\ fds_ok (fun _ => False) (fun _ => 0) s'.
Proof.
  destruct (fd_calls_safe (HO := demo_ops) 1 _ _ file_demo demo_calls few_none file_demo_ready file_demo_ok demo_calls_ok) as (rs & s' & E & Hl & Hr & _ & Hi).
  exists rs, s'. exact (conj E (conj Hl (conj Hr Hi))).
Defined.

(** Witness: a pipe whose descriptors are stored at 100. *)
Lemma pipe_carries_witness : (exists s1, sys_pipe (HO := demo_ops) 1 demo_junk file_demo = Ret (u64 (-1)) s1 /\ fds_ok (fun _ => False) (fun _ => 0) s1) \/
  exists s1 fd0 fd1, sys_pipe (HO := demo_ops) 1 demo_junk file_demo = Ret 0 s1 /\ holds (um_read (user_mem s1)) 100 (le_bytes 4 fd0 ++ le_bytes 4 fd1).
Proof.
  assert (N1 : 0 <= 100) by lia. assert (N2 : 100 + 8 <= 2 ^ 64) by lia.
  destruct (pipe_carries (HO := demo_ops) 1 [] _ _ file_demo demo_junk 100 few_none file_demo_ready file_demo_ok eq_refl eq_refl N1 N2) as [H|(s1 & fd0 & fd1 & E & _ & Hh & _)]; [by left|right].
  exists s1, fd0, fd1. exact (conj E Hh).
Defined.

(** Witness: the first entry was open for reading. *)
Lemma create_mutex_stale_witness : exists s1, sys_create_mutex (HO := demo_ops) 1 9 file_demo = Ret 0 s1 /\ sys_read (HO := demo_ops) 1 [] (set_kargs [0; 100; 1; 0; 0; 0] s1) = Panic "fileread".
Proof.
  destruct (create_mutex_stale (HO := demo_ops) 1 [] _ _ file_demo 9 1 old_file 0 few_none file_demo_ready file_demo_ok eq_refl eq_refl eq_refl) as (s1 & E & _ & H).
  exists s1. exact (conj E (proj1 (H 100 1 [0; 0; 0]) eq_refl)).
Defined.

(** A process gets there with calls alone: a pipe, [close] of the end it reads
    from, a mutex, and a [read]. *)
Definition crash_calls : list (list Z * fdcall) := [([100; 0; 0; 0; 0; 0], CPipe demo_junk); ([0; 0; 0; 0; 0; 0], CClose); ([0; 0; 0; 0; 0; 0], CMutex 9)].

Lemma crash_calls_panic : (fd_calls (HO := demo_ops) 1 crash_calls ;;; modify (set_kargs [0; 100; 1; 0; 0; 0]) ;;; sys_read (HO := demo_ops) 1 []) file_demo = Panic "fileread".
Proof. vm_compute. reflexivity. Qed.
