(* ===== verification/FileWriteProps.v ===== *)
(** * What a write leaves, and what a crash can leave

    [filewrite] cuts the bytes into transactions that fit the log.  Whatever moment
    a crash comes, recovery finds the file with a prefix of the bytes.  The
    witness is on a disk of sixty-four blocks. *)

From S2P Require Import Prelude StringC Bytes Sleeplock UserMem Bio BioSpec Log LogSpec LogTx LogProps Blocks Fs FsSpec FsFile FsCache FsRead FsWrite FsWritei FsTrunc FsDisk FsDemo Pipe File FileSpec FileDemo.

Section FileWrite.
Context {U : Type} {HU : UserMem U} {HK : KernelMem U}.
Context (fuel : nat) (Hfuel : (0 < fuel)%nat) (dv st : Z) (Hst : 0 < st) (Hend : st + LOGSIZE < 2 ^ 31).

#[local] Instance fw_ops : BlockOps logst := log_ops fuel.

Abbreviation ks := (ks logst U).

Definition log_of (s : ks) : logst := fblk (kfs s).
Definition mem_of (s : ks) : U := um_user (fum (kfs s)).

(** An open file [f] on the inode [ip], and a quiet file system with the blocks [v]. *)
Record wready (s : ks) (f : Z) (x : file) (i : inode) (v : gmap Z (list Z)) : Prop := {
  wq_quiet : exists l, quiet dv st (log_of s) l v;
  wq_ready : iready (kfs s);
  wq_file : aget (ftable s) (f - 1) = Some x;
  wq_type : f_type x = FD_INODE /\ f_writable x = true /\ f_ip x <> 0 /\ 0 <= f_off x < 2 ^ 32;
  wq_get : aget (icache (kfs s)) (f_ip x - 1) = Some i;
  wq_inode : 0 < i_ref i /\ i_lock i = sl_free /\ i_valid i = true /\ i_dev i = dv;
  wq_state : file_state v (fsb (kfs s)) i;
  wq_disk : on_disk v (fsb (kfs s)) (i_inum i) (i_d i);
  wq_inv : um_inv (mem_of s)
}.

(** Nothing else of the state matters to the writer. *)
Record wsame (s s' : ks) : Prop := {
  ws_sb : fsb (kfs s') = fsb (kfs s);
  ws_um : fum (kfs s') = fum (kfs s)
}.

Lemma onfs_ok {A} (m : M (fss logst U) A) (s : ks) a f' : m (kfs s) = Ret a f' -> onfs m s = Ret a (set_kfs f' s).
Proof. intros E. unfold onfs. by apply zoom_ret. Qed.

Lemma onb_ok {A} (m : M logst A) (f : fss logst U) a b' : m (fblk f) = Ret a b' -> onb m f = Ret a (set_fblk b' f).
Proof. intros E. unfold onb. by apply zoom_ret. Qed.

(** The transaction around a write: locked, written and unlocked. *)
Lemma locked_write (fs : fss logst U) d0 p0 v ip i off src bytes (Hops : 1 <= 1) sz (Hlsz : LOGSIZE <= sz) : ld_rep dv st d0 p0 1 sz (fblk fs) (mkg v ∅ 30 29) -> iready fs -> ip <> 0 -> aget (icache fs) (ip - 1) = Some i ->
  0 < i_ref i -> i_lock i = sl_free -> i_valid i = true -> i_dev i = dv -> file_state v (fsb fs) i -> um_inv (um_user (fum fs)) -> 0 <= off < 2 ^ 32 -> off <= di_size (i_d i) ->
  bytes <> [] -> Z.of_nat (length bytes) <= max_write -> off + Z.of_nat (length bytes) <= MAXFILE * 1024 -> 0 <= src -> src + Z.of_nat (length bytes) < 2 ^ 64 -> holds (um_read (um_user (fum fs))) src bytes ->
  exists fs1, ilock fuel ip fs = Ret tt fs1 /\ disk (bc (fblk fs1)) = d0 /\ past (bc (fblk fs1)) = p0 /\
    ((frees v (fsb fs) < 8)%nat /\ writei ip true src off (Z.of_nat (length bytes)) fs1 = Panic "balloc: out of blocks" \/
     exists fs2 fs3 g i', writei ip true src off (Z.of_nat (length bytes)) fs1 = Ret (Z.of_nat (length bytes)) fs2 /\ iunlock ip fs2 = Ret tt fs3 /\
       ld_rep dv st d0 p0 1 sz (fblk fs3) g /\ g_held g = ∅ /\ fmod (HB := log_blocks fuel Hfuel dv st d0 p0 1 Hops sz Hlsz) ip i' fs fs3 /\ wrote v i (g_view g) i' (fsb fs) off bytes).
Proof using Hfuel.
  intros Hrep Hr Hip Hi Href Hlk Hval Hdev Hf Hu Ho Hsz Hne Hlen Hmax Hs1 Hs2 Hh.
  set (HB := log_blocks fuel Hfuel dv st d0 p0 1 Hops sz Hlsz). set (g := mkg v ∅ 30 29) in *. assert (Hg : frep (HB := HB) fs g) by exact Hrep.
  destruct (gd_view _ _ _ (proj1 (fs_iblock _ _ _ Hf))) as [d Hd].
  pose proof (ilock_ok (HB := HB) fuel fs g ip i d Hr Hg eq_refl ltac:(cbn; lia) Hfuel Hip Hi Href Hlk Hdev Hd) as H. rewrite Hval in H. cbn [orb] in H. destruct H as (fs1 & E1 & Hg1 & Hm1).
  unfold locked_inode in Hm1. rewrite Hval in Hm1. set (i1 := set_i_lock (mine fs) i) in *. exists fs1. split; [done|]. destruct (Hg1 : ld_rep dv st d0 p0 1 sz (fblk fs1) g) as (? & ? & ? & ? & ? & [_ _ _ _ _ [Hd0 Hp0] _ _]). split; [done|]. split; [done|]. pose proof (fmod_get _ _ _ _ _ Hi Hm1) as Hi1.
  assert (Hp : write_pre (HB := HB) fs1 g ip i1 true src off bytes 4).
  { unfold max_write in Hlen. split; try done; cbn [g g_bufs g_logs g_view].
    - rewrite (fm_sb _ _ _ _ Hm1). destruct Hf; by split.
    - right. cbn in Hlen. dlia.
    - by rewrite (fm_um _ _ _ _ Hm1).
    - by rewrite (fm_um _ _ _ _ Hm1). }
  destruct (writei_ok (HB := HB) fs1 g ip i1 true src off bytes 4 Hp Hne Hsz Hmax) as [[Hf8 E]|(fs2 & g2 & i2 & E2 & Hg2 & Hh2 & Hm2 & Hw & _)]; [left; rewrite (fm_sb _ _ _ _ Hm1) in Hf8; done|right].
  pose proof (fmod_trans _ _ _ _ _ _ Hm1 Hm2) as Hm12. assert (Hi2 : aget (icache fs2) (ip - 1) = Some i2) by (by eapply fmod_get).
  assert (Hr2 : iready fs2) by (apply (iready_touch fs); [apply Hm12|done]).
  assert (Hpid : mypid (cx fs2) = mypid (cx fs)) by exact (f_equal mypid (fm_cx _ _ _ _ Hm12)).
  destruct (iunlock_ok (HB := HB) fs2 g2 ip i2 Hr2 Hg2 Hip Hi2) as (fs3 & E3 & Hg3 & Hm3); [by rewrite (wo_inode _ _ _ _ _ _ _ Hw)|rewrite (wo_inode _ _ _ _ _ _ _ Hw); cbn; unfold mine; by rewrite Hpid|].
  exists fs2, fs3, g2, (set_i_lock sl_free i2). split_and!; [done|done|exact Hg3|done|by eapply fmod_trans|].
  rewrite (fm_sb _ _ _ _ Hm1) in Hw. apply (wrote_lock _ _ _ _ _ _ _ sl_free) in Hw. replace (set_i_lock sl_free i1) with i in Hw; [exact Hw|]. unfold i1. destruct i. cbn in *. by subst.
Qed.

(** Recovery of the disk [y] finds the blocks [v]. *)
Definition recovers (v : gmap Z (list Z)) (y : disk_t) : Prop := forall b d, v !! b = Some d -> replay dv st y !! (dv, b) = Some d.

Lemma atomic_recovers (b b' : logst) l l' v v' new news : quiet dv st b l v -> quiet dv st b' l' v' -> all_or_nothing dv st (disk (bc b)) new news -> same_home dv st (disk (bc b')) new ->
  forall y, y ∈ news -> recovers v y \/ recovers v' y.
Proof.
  intros Hq Hq' (post & pre & -> & H1 & H2) Hs y [Hy|Hy]%elem_of_app; [right|left]; intros c d Hd.
  - destruct (qt_view _ _ _ _ _ Hq' c d Hd) as [Hc Hr]. rewrite (H2 y Hy (dv, c)) by apply Hr. rewrite <- (Hs (dv, c)) by apply Hr. done.
  - destruct (qt_view _ _ _ _ _ Hq c d Hd) as [Hc Hr]. by rewrite (H1 y Hy (dv, c)) by apply Hr.
Qed.

(** The chunk of [n] bytes at [k] stops in its transaction, on a disk with few free
    blocks [v]: [begin_op] and [ilock] return, the disk is the one before, and
    [writei] panics. *)
Record stops (s : ks) (f : Z) (x : file) (v : gmap Z (list Z)) (addr k n : Z) : Prop := {
  st_panic : write_chunk fuel f addr k n s = Panic "balloc: out of blocks";
  st_full : (frees v (fsb (kfs s)) < 8)%nat;
  st_inside : exists s1, (begin_op dv ;;; onfs (ilock fuel (f_ip x))) s = Ret tt s1 /\ disk (bc (log_of s1)) = disk (bc (log_of s)) /\ past (bc (log_of s1)) = past (bc (log_of s)) /\
    onfs (writei (f_ip x) true (addr + k) (f_off x) n) s1 = Panic "balloc: out of blocks"
}.

Lemma write_chunk_ok (s : ks) f x i v addr k bytes : wready s f x i v -> bytes <> [] -> Z.of_nat (length bytes) <= max_write -> f_off x <= di_size (i_d i) -> f_off x + Z.of_nat (length bytes) <= MAXFILE * 1024 ->
  0 <= addr + k -> addr + k + Z.of_nat (length bytes) < 2 ^ 64 -> holds (um_read (mem_of s)) (addr + k) bytes ->
  stops s f x v addr k (Z.of_nat (length bytes)) \/
  exists s' i' v' news, write_chunk fuel f addr k (Z.of_nat (length bytes)) s = Ret (Z.of_nat (length bytes)) s' /\ wready s' f (set_f_off (f_off x + Z.of_nat (length bytes)) x) i' v' /\ wsame s s' /\
    wrote v i v' i' (fsb (kfs s)) (f_off x) bytes /\ past (bc (log_of s')) = news ++ past (bc (log_of s)) /\ forall y, y ∈ news -> recovers v y \/ recovers v' y.
Proof using Hfuel Hst Hend.
  intros [(l & Hq) W2 W3 (T1 & T2 & T3 & T4) W5 (I1 & I2 & I3 & I4) W7 W8 W9] Hne Hlen Hoff Hmax Ha1 Ha2 Hh. set (n := Z.of_nat (length bytes)) in *. pose proof MAXFILE_eq as HM. assert (Hn : 0 < n) by (unfold n; destruct bytes; cbn; [done|lia]).
  assert (Hgetf : forall fs, getf f (set_kfs fs s) = Ret x (set_kfs fs s)) by (intros fs; unfold getf; change (ftable (set_kfs fs s)) with (ftable s); by rewrite W3).
  assert (Hdev : forall fs i', aget (icache fs) (f_ip x - 1) = Some i' -> i_dev i' = dv -> ip_dev (f_ip x) (set_kfs fs s) = Ret dv (set_kfs fs s)).
  { intros fs i' Hi' Hd. unfold ip_dev. rewrite (onfs_ok _ (set_kfs fs s) dv fs); [done|]. run (geti_ok (f_ip x) i' fs Hi'). by rewrite <- Hd. }
  assert (Es : s = set_kfs (kfs s) s) by (by destruct s). remember (write_chunk fuel f addr k n s) as r eqn:Er. pose proof (eq_sym Er) as Er0. unfold write_chunk in Er.
  rewrite Es, (bind_ret_l _ _ _ _ _ (Hgetf (kfs s))), (bind_ret_l _ _ _ _ _ (Hdev _ i W5 I4)) in Er.
  destruct (quiet_begin fuel Hfuel dv st (log_of s) l v Hq) as (b1 & E1 & Hrep & Hc1). set (fs1 := set_fblk b1 (kfs s)).
  assert (Eb : begin_op dv (set_kfs (kfs s) s) = Ret tt (set_kfs fs1 s)) by (unfold begin_op; rewrite <- Es at 1; rewrite (onfs_ok _ s tt fs1); [done|by apply onb_ok]).
  rewrite (bind_ret_l _ _ _ _ _ Eb), (bind_ret_l _ _ _ _ _ (Hgetf fs1)) in Er. assert (Hops : 1 <= 1) by lia. pose proof (qt_op _ _ _ _ _ Hq) as (_ & _ & Hlsz).
  destruct (locked_write fs1 (disk (bc (log_of s))) (past (bc (log_of s))) v (f_ip x) i (f_off x) (addr + k) bytes Hops (lsize l) Hlsz) as (fs2 & E2 & Hd2 & Hp2 & Hwr); try done; [by apply (iready_touch (kfs s))|].
  rewrite (bind_ret_l _ _ _ _ _ (onfs_ok _ (set_kfs fs1 s) tt fs2 E2)) in Er. change (set_kfs fs2 (set_kfs fs1 s)) with (set_kfs fs2 s) in Er. rewrite (bind_ret_l _ _ _ _ _ (Hgetf fs2)), u64_small, u32_small in Er by lia.
  destruct Hwr as [[Hf8 E3]|(fs3 & fs4 & g & i' & E3 & E4 & Hrep4 & Hh4 & Hm & Hw)]; [left|right].
  { fold n in E3. assert (Ew : onfs (writei (f_ip x) true (addr + k) (f_off x) n) (set_kfs fs2 s) = Panic "balloc: out of blocks") by (unfold onfs, zoom; change (kfs (set_kfs fs2 s)) with fs2; by rewrite E3).
    split; [rewrite Er0, Er; by apply bind_panic|done|]. exists (set_kfs fs2 s). split_and!; [|exact Hd2|exact Hp2|done]. rewrite Es at 1. run Eb. by rewrite (onfs_ok _ (set_kfs fs1 s) tt fs2 E2). }
  fold n in E3.
  rewrite (bind_ret_l _ _ _ _ _ (onfs_ok _ (set_kfs fs2 s) _ fs3 E3)) in Er. change (set_kfs fs3 (set_kfs fs2 s)) with (set_kfs fs3 s) in Er. rewrite (proj2 (Z.ltb_lt 0 n)) in Er by lia.
  set (x' := set_f_off (f_off x + n) x). set (s3 := set_ftable (<[Z.to_nat (f - 1) := x']> (ftable s)) s). pose proof (aget_Some_lt _ _ _ W3) as Hlt.
  assert (E5 : setf f (fun x => set_f_off (u32 (f_off x + n)) x) (set_kfs fs3 s) = Ret tt (set_kfs fs3 s3)).
  { unfold setf. run (Hgetf fs3). mstep. change (ftable (set_kfs fs3 s)) with (ftable s). rewrite aset_is_Some by done. mstep. unfold modify. by rewrite u32_small by lia. }
  rewrite (bind_ret_l _ _ _ _ _ E5), (bind_ret_l _ _ _ _ _ (onfs_ok _ (set_kfs fs3 s3) tt fs4 E4)) in Er. change (set_kfs fs4 (set_kfs fs3 s3)) with (set_kfs fs4 s3) in Er.
  assert (Hi4 : aget (icache fs4) (f_ip x - 1) = Some i') by (by eapply fmod_get; [|exact Hm]). assert (Hd4 : i_dev i' = dv) by (by rewrite (wo_inode _ _ _ _ _ _ _ Hw)).
  assert (E6 : ip_dev (f_ip x) (set_kfs fs4 s3) = Ret dv (set_kfs fs4 s3)).
  { unfold ip_dev. rewrite (onfs_ok _ (set_kfs fs4 s3) dv fs4); [done|]. run (geti_ok (f_ip x) i' fs4 Hi4). by rewrite <- Hd4. }
  rewrite (bind_ret_l _ _ _ _ _ E6) in Er. destruct (quiet_end fuel Hfuel dv st Hst Hend _ _ (lsize l) (fblk fs4) g Hlsz Hrep4 Hh4 (qt_head _ _ _ _ _ Hq)) as (b5 & l5 & news & new & E7 & Hq5 & _ & Hp & Hat & Hsh & _ & Hc5).
  assert (Ee : end_op dv (set_kfs fs4 s3) = Ret tt (set_kfs (set_fblk b5 fs4) s3)) by (unfold end_op; rewrite (onfs_ok _ (set_kfs fs4 s3) tt (set_fblk b5 fs4)); [done|by apply onb_ok]).
  rewrite (bind_ret_l _ _ _ _ _ Ee) in Er. exists (set_kfs (set_fblk b5 fs4) s3), i', (g_view g), news. split_and!; [done| |split; cbn [kfs fsb fum set_kfs set_fblk]; [apply (fm_sb _ _ _ _ Hm)|apply (fm_um _ _ _ _ Hm)]|done|done|].
  - pose proof (fm_sb _ _ _ _ Hm) as Hsb. pose proof (fm_um _ _ _ _ Hm) as Hum. cbn [fsb fum fs1 set_fblk] in Hsb, Hum.
    assert (Hi' : i_inum i' = i_inum i /\ i_ref i' = i_ref i /\ i_lock i' = i_lock i /\ i_valid i' = i_valid i) by (by rewrite (wo_inode _ _ _ _ _ _ _ Hw)). destruct Hi' as (J1 & J2 & J3 & J4).
    split; unfold log_of, mem_of; cbn [kfs fblk fsb fum icache ftable set_kfs set_fblk s3 set_ftable]; rewrite ?Hsb, ?Hum, ?J1, ?J2, ?J3, ?J4; try done.
    + by exists l5.
    + apply (iready_touch (kfs s)); [|done]. change (touch (cx b5) = touch (cx (log_of s))). rewrite Hc5. change (touch (cx fs4) = touch (cx (log_of s))). rewrite (fm_cx _ _ _ _ Hm). exact Hc1.
    + rewrite aget_insert by done. by rewrite decide_True.
    + cbn. split_and!; try done; lia.
    + apply Hw.
    + apply Hw.
  - intros y Hy. by apply (atomic_recovers (log_of s) b5 l l5 v (g_view g) new news).
Qed.

(** The file with a prefix of [bytes] at [off], on a disk that a crash may leave. *)
Definition prefix_after (v : gmap Z (list Z)) (i : inode) (sb : superblock) (off : Z) (bytes : list Z) (y : disk_t) : Prop :=
  exists j v' i', wrote v i v' i' sb off (take j bytes) /\ recovers v' y.

(** The state after the write of [bytes]. *)
Definition after_write (s : ks) (f : Z) (x : file) (i : inode) (v : gmap Z (list Z)) (bytes : list Z) (s' : ks) (v' : gmap Z (list Z)) : Prop :=
  exists i' news, wready s' f (set_f_off (f_off x + Z.of_nat (length bytes)) x) i' v' /\ wsame s s' /\ wrote v i v' i' (fsb (kfs s)) (f_off x) bytes /\
    past (bc (log_of s')) = news ++ past (bc (log_of s)) /\ forall y, y ∈ news -> prefix_after v i (fsb (kfs s)) (f_off x) bytes y.

(** Chunk [j] of [bytes], with [k] bytes before them. *)
Definition stops_at (s : ks) (f : Z) (x : file) (i : inode) (v : gmap Z (list Z)) (addr k : Z) (bytes : list Z) (j : nat) (s' : ks) : Prop :=
  (3072 * j < length bytes)%nat /\ exists v', after_write s f x i v (take (3072 * j) bytes) s' v' /\
    stops s' f (set_f_off (f_off x + 3072 * Z.of_nat j) x) v' addr (k + 3072 * Z.of_nat j) (Z.of_nat (length (take 3072 (drop (3072 * j) bytes)))).

(** What a write of [bytes] leaves.  When it stops in a chunk, a write of only the
    bytes before the chunk returns in the state in which the chunk starts. *)
Definition filewritten devsw (s : ks) (f : Z) (x : file) (i : inode) (v : gmap Z (list Z)) (addr : Z) (bytes : list Z) (r : res ks Z) : Prop :=
  (r = Panic "balloc: out of blocks" /\ exists j s', filewrite fuel devsw f addr (3072 * Z.of_nat j) s = Ret (3072 * Z.of_nat j) s' /\ stops_at s f x i v addr 0 bytes j s') \/
  exists s' v', r = Ret (Z.of_nat (length bytes)) s' /\ after_write s f x i v bytes s' v'.

Lemma set_off_same x n : f_off x = n -> set_f_off n x = x.
Proof. destruct x. cbn. by intros ->. Qed.

Lemma after_nil s f x i v : wready s f x i v -> f_off x <= di_size (i_d i) -> after_write s f x i v [] s v.
Proof using Type.
  clear Hfuel Hst Hend. intros Hr Ho. exists i, []. cbn [length]. rewrite set_off_same by lia. split_and!; try done; [apply wrote_nil; [apply Hr|apply Hr|done]|intros y Hy; by apply not_elem_of_nil in Hy].
Qed.

(** A chunk, and the bytes after it. *)
Lemma after_app s f x i v c rest s1 i1 v1 news1 s2 v2 : wready s f x i v -> f_off x <= di_size (i_d i) ->
  wready s1 f (set_f_off (f_off x + Z.of_nat (length c)) x) i1 v1 -> wsame s s1 -> wrote v i v1 i1 (fsb (kfs s)) (f_off x) c ->
  past (bc (log_of s1)) = news1 ++ past (bc (log_of s)) -> (forall y, y ∈ news1 -> recovers v y \/ recovers v1 y) ->
  after_write s1 f (set_f_off (f_off x + Z.of_nat (length c)) x) i1 v1 rest s2 v2 -> after_write s f x i v (c ++ rest) s2 v2.
Proof using Type.
  clear Hfuel Hst Hend. intros Hr Hoff Hr1 Hs1 Hw1 Hp1 Hy1 (i2 & news2 & Hr2 & Hs2 & Hw2 & Hp2 & Hy2). pose proof (ws_sb _ _ Hs1) as Hsb. rewrite Hsb in Hw2, Hy2. cbn [f_off set_f_off] in *. pose proof (wq_type _ _ _ _ _ Hr) as (_ & _ & _ & Hox).
  exists i2, (news2 ++ news1). split_and!; [|split; [rewrite (ws_sb _ _ Hs2); apply Hs1|rewrite (ws_um _ _ Hs2); apply Hs1]|by apply (wrote_app _ _ v1 i1); [lia| |]|by rewrite Hp2, Hp1, app_assoc|].
  - rewrite length_app. by replace (f_off x + Z.of_nat (length c + length rest)) with (f_off x + Z.of_nat (length c) + Z.of_nat (length rest)) by lia.
  - intros y [Hy|Hy]%elem_of_app.
    + destruct (Hy2 y Hy) as (j & v' & i' & Hw' & Hrec). exists (length c + j)%nat, v', i'. split; [|done]. rewrite take_app_add. by apply (wrote_app _ _ v1 i1); [lia| |].
    + destruct (Hy1 y Hy) as [Hrec|Hrec]; [exists 0%nat, v, i; split; [rewrite take_0; apply wrote_nil; [apply Hr|apply Hr|done]|done]|exists (length c), v1, i1; split; [|done]]. by rewrite take_app_length.
Qed.

Lemma stops_app s f x i v addr k c rest j s1 i1 v1 news1 s2 : length c = 3072%nat -> wready s f x i v -> f_off x <= di_size (i_d i) ->
  wready s1 f (set_f_off (f_off x + Z.of_nat (length c)) x) i1 v1 -> wsame s s1 -> wrote v i v1 i1 (fsb (kfs s)) (f_off x) c ->
  past (bc (log_of s1)) = news1 ++ past (bc (log_of s)) -> (forall y, y ∈ news1 -> recovers v y \/ recovers v1 y) ->
  stops_at s1 f (set_f_off (f_off x + Z.of_nat (length c)) x) i1 v1 addr (k + Z.of_nat (length c)) rest j s2 -> stops_at s f x i v addr k (c ++ rest) (S j) s2.
Proof using Type.
  clear Hfuel Hst Hend. intros Hc Hr Hoff Hr1 Hs1 Hw1 Hp1 Hy1 (Hj & v2 & Ha & Hst2). split; [rewrite length_app; lia|]. exists v2. replace (3072 * S j)%nat with (length c + 3072 * j)%nat by lia. rewrite take_app_add, drop_app_add. split.
  - by apply (after_app s f x i v c _ s1 i1 v1 news1).
  - replace (k + 3072 * Z.of_nat (S j)) with (k + Z.of_nat (length c) + 3072 * Z.of_nat j) by lia. replace (f_off x + 3072 * Z.of_nat (S j)) with (f_off x + Z.of_nat (length c) + 3072 * Z.of_nat j) by lia. exact Hst2.
Qed.

(** One round of the loop, which writes [c] bytes. *)
Lemma loop_round f addr n k m s c s1 : 0 < c -> k < n -> c = (if max_write <? n - k then max_write else n - k) ->
  write_chunk fuel f addr k c s = Ret c s1 -> filewrite_loop fuel (S m) f addr n k s = filewrite_loop fuel m f addr n (k + c) s1.
Proof using Type.
  clear Hfuel Hst Hend. intros Hpos Hk Hlc E. cbn [filewrite_loop]. rewrite (proj2 (Z.ltb_lt k n)) by lia. cbn [negb]. rewrite <- Hlc, (bind_ret_l _ _ _ _ _ E), (proj2 (Z.ltb_ge _ 0)), Z.eqb_refl by lia. done.
Qed.

Lemma filewrite_loop_ok f addr n rounds : forall (s : ks) x i v k bytes, wready s f x i v -> Z.of_nat (length bytes) + max_write <= max_write * Z.of_nat rounds -> n = k + Z.of_nat (length bytes) ->
  f_off x <= di_size (i_d i) -> f_off x + Z.of_nat (length bytes) <= MAXFILE * 1024 -> 0 <= addr -> 0 <= k -> addr + n < 2 ^ 64 -> holds (um_read (mem_of s)) (addr + k) bytes ->
  let r := filewrite_loop fuel rounds f addr n k s in
  (r = Panic "balloc: out of blocks" /\ exists j s', (forall m, (j < m)%nat -> filewrite_loop fuel m f addr (k + 3072 * Z.of_nat j) k s = Ret (k + 3072 * Z.of_nat j) s') /\
     stops_at s f x i v addr k bytes j s') \/
  exists s' v', r = Ret n s' /\ after_write s f x i v bytes s' v'.
Proof using Hfuel Hst Hend.
  induction rounds as [|rounds IH]; intros s x i v k bytes Hr Hrounds Hn Hoff Hmax Ha Hk Hb Hh r; [change max_write with 3072 in Hrounds; lia|]. unfold r. clear r. pose proof (wq_type _ _ _ _ _ Hr) as (_ & _ & _ & Hox).
  destruct (decide (bytes = [])) as [->|Hne].
  { cbn in Hn. cbn [filewrite_loop]. rewrite (proj2 (Z.ltb_ge k n)) by lia. right. exists s, v. assert (k = n) as -> by lia. split; [done|by apply after_nil]. }
  assert (Hpos : 0 < Z.of_nat (length bytes)) by (destruct bytes; cbn; [done|lia]).
  set (c := take 3072 bytes). set (rest := drop 3072 bytes). assert (Hcr : bytes = c ++ rest) by (symmetry; apply take_drop).
  assert (Hlc : Z.of_nat (length c) = if max_write <? n - k then max_write else n - k).
  { replace (n - k) with (Z.of_nat (length bytes)) by lia. change max_write with 3072. unfold c. rewrite length_take. destruct (Z.ltb_spec 3072 (Z.of_nat (length bytes))); lia. }
  assert (Hlen : Z.of_nat (length bytes) = Z.of_nat (length c) + Z.of_nat (length rest)) by (rewrite Hcr at 1; rewrite length_app; lia).
  assert (Hlr : Z.of_nat (length rest) + max_write <= max_write * Z.of_nat rounds /\ 0 < Z.of_nat (length c) <= max_write /\ (0 < Z.of_nat (length rest) -> length c = 3072%nat))
    by (change max_write with 3072 in *; destruct (Z.ltb_spec 3072 (n - k)); lia).
  rewrite Hcr in Hh. apply holds_app in Hh as [Hh1 Hh2]. destruct Hlr as (Hlr & Hlc' & Hfull).
  destruct (write_chunk_ok s f x i v addr k c Hr) as [E|(s1 & i1 & v1 & news1 & E & Hr1 & Hs1 & Hw1 & Hp1 & Hy1)]; try done; try lia; [intros ->; cbn in Hlc'; lia|left|].
  { split; [cbn [filewrite_loop]; rewrite (proj2 (Z.ltb_lt k n)) by lia; cbn [negb]; rewrite <- Hlc; apply bind_panic, E|]. exists 0%nat, s. split.
    - intros [|m] Hm; [lia|]. cbn [filewrite_loop]. by rewrite Z.add_0_r, Z.ltb_irrefl.
    - split; [lia|]. exists v. rewrite drop_0, take_0. change (3072 * Z.of_nat 0) with 0. rewrite !Z.add_0_r, set_off_same by done. split; [by apply after_nil|exact E]. }
  assert (Hsz : di_size (i_d i1) = Z.max (di_size (i_d i)) (f_off x + Z.of_nat (length c))) by (by rewrite (wo_inode _ _ _ _ _ _ _ Hw1)).
  rewrite (loop_round f addr n k rounds s (Z.of_nat (length c)) s1) by (done || lia).
  destruct (IH s1 _ i1 v1 (k + Z.of_nat (length c)) rest Hr1) as [(E2 & j & s2 & Hj & Hst2)|(s2 & v2 & E2 & Ha2)]; cbn [f_off set_f_off]; try lia; [rewrite Z.add_assoc; unfold mem_of; by rewrite (ws_um _ _ Hs1)|left|right].
  - split; [done|]. exists (S j), s2. assert (Hc : length c = 3072%nat) by (apply Hfull; destruct Hst2; lia). split; [|rewrite Hcr; by apply (stops_app s f x i v addr k c rest j s1 i1 v1 news1)].
    intros [|m] Hm; [lia|]. rewrite (loop_round f addr _ k m s (Z.of_nat (length c)) s1); [|lia|lia| |done]; [|change max_write with 3072; destruct (Z.ltb_spec 3072 (k + 3072 * Z.of_nat (S j) - k)); lia].
    replace (k + 3072 * Z.of_nat (S j)) with (k + Z.of_nat (length c) + 3072 * Z.of_nat j) by lia. apply Hj. lia.
  - exists s2, v2. split; [done|]. rewrite Hcr. by apply (after_app s f x i v c rest s1 i1 v1 news1).
Qed.

(** [filewrite] of the bytes [bytes]. *)
Lemma filewrite_ok devsw (s : ks) f x i v addr bytes : wready s f x i v -> f_off x <= di_size (i_d i) -> f_off x + Z.of_nat (length bytes) <= MAXFILE * 1024 ->
  0 <= addr -> addr + Z.of_nat (length bytes) < 2 ^ 64 -> holds (um_read (mem_of s)) addr bytes ->
  filewritten devsw s f x i v addr bytes (filewrite fuel devsw f addr (Z.of_nat (length bytes)) s).
Proof using Hfuel Hst Hend.
  intros Hr Hoff Hmax Ha Hb Hh. pose proof (wq_type _ _ _ _ _ Hr) as (T1 & T2 & _ & Hox). set (n := Z.of_nat (length bytes)) in *.
  assert (Hw : forall n, filewrite fuel devsw f addr n s = (i <- filewrite_loop fuel (write_rounds n) f addr n 0 ;; ret (if i =? n then n else -1)) s).
  { intros n0. unfold filewrite. rewrite (bind_ret_l (getf f) _ s x s) by (unfold getf; by rewrite (wq_file _ _ _ _ _ Hr)). by rewrite T2, T1. }
  pose proof (filewrite_loop_ok f addr n (write_rounds n) s x i v 0 bytes Hr) as H. rewrite Z.add_0_r in H. specialize (H ltac:(unfold write_rounds; change max_write with 3072; fold n; dlia) ltac:(lia) Hoff Hmax Ha ltac:(lia) Hb Hh).
  rewrite (Hw n). destruct H as [(E & j & s' & Hj & Hst')|(s' & v' & E & H)]; [left|right].
  - split; [by apply bind_panic|]. exists j, s'. split; [|done]. assert (Hjr : (j < write_rounds (3072 * Z.of_nat j))%nat) by (unfold write_rounds; change max_write with 3072; rewrite (Z.mul_comm 3072), Z.div_mul by lia; lia).
    rewrite Hw, (bind_ret_l _ _ _ _ _ (Hj _ Hjr)). by rewrite Z.eqb_refl.
  - exists s', v'. rewrite (bind_ret_l _ _ _ _ _ E), Z.eqb_refl. done.
Qed.

(** ** Closing a file *)

(** The last reference to an inode without links goes. *)
Definition dies (i : inode) : bool := (i_ref i =? 1) && i_valid i && (di_nlink (i_d i) =? 0).

(** An open file on an inode of the disk, and a quiet file system. *)
Record closable (s : ks) (f : Z) (x : file) (i : inode) (v : gmap Z (list Z)) : Prop := {
  cq_quiet : exists l, quiet dv st (log_of s) l v;
  cq_ready : iready (kfs s) /\ ftable_lock ∉ held (cx s) /\ icache_ok (icache (kfs s));
  cq_file : aget (ftable s) (f - 1) = Some x /\ 1 <= f_ref x < 2 ^ 31;
  cq_type : f_type x = FD_INODE \/ f_type x = FD_DEVICE;
  cq_get : aget (icache (kfs s)) (f_ip x - 1) = Some i;
  cq_inode : 0 < i_ref i < 2 ^ 31 /\ i_dev i = dv;
  cq_last : dies i = true -> i_lock i = sl_free /\ file_state v (fsb (kfs s)) i /\ sb_size (fsb (kfs s)) <= BPB
}.

(** [iput] in a transaction that has just begun. *)
Lemma iput_any (fs : fss logst U) d0 p0 sz v ip i (Hops : 1 <= 1) (Hlsz : LOGSIZE <= sz) : ld_rep dv st d0 p0 1 sz (fblk fs) (mkg v ∅ 30 29) -> iready fs -> aget (icache fs) (ip - 1) = Some i ->
  0 < i_ref i < 2 ^ 31 -> i_dev i = dv -> (dies i = true -> i_lock i = sl_free /\ file_state v (fsb fs) i /\ sb_size (fsb fs) <= BPB) ->
  exists fs' g i', iput fuel ip fs = Ret tt fs' /\ ld_rep dv st d0 p0 1 sz (fblk fs') g /\ g_held g = ∅ /\ fmod (HB := log_blocks fuel Hfuel dv st d0 p0 1 Hops sz Hlsz) ip i' fs fs' /\
    ikey i' = ikey i /\ i_ref i' = i_ref i - 1 /\ (if dies i then given_back v (fsb fs) i (g_view g) else g_view g = v).
Proof using Hfuel.
  clear Hst Hend. intros Hrep Hr Hi Href Hdev Hlast. set (HB := log_blocks fuel Hfuel dv st d0 p0 1 Hops sz Hlsz). set (g := mkg v ∅ 30 29) in *. assert (Hg : frep (HB := HB) fs g) by exact Hrep. destruct (dies i) eqn:Ed.
  - pose proof Ed as Ed'. unfold dies in Ed'. apply andb_true_iff in Ed' as [[E1%Z.eqb_eq E2]%andb_true_iff E3%Z.eqb_eq]. destruct (Hlast eq_refl) as (Hl & Hf & Hsz).
    destruct (iput_last (HB := HB) fuel fs g ip i Hr Hg eq_refl Hi Hdev Hf Hsz E1 E2 E3 Hl Hfuel ltac:(cbn; lia) ltac:(cbn; lia)) as (fs' & g' & E & Hg' & Hh' & Hm & Hgb).
    eexists fs', g', _. split_and!; [exact E|exact Hg'|done|exact Hm|done|cbn; lia|done].
  - destruct (upd_i_ok (HB := HB) ip (set_i_ref (s32 (i_ref i - 1)) i) fs g Hg) as [Hg' Hm]. eexists _, g, _. split_and!; [by apply iput_keep|exact Hg'|done|exact Hm|done|cbn; rewrite s32_small; lia|done].
Qed.

(** What [fileclose] leaves. *)
Record file_closed (s : ks) (f : Z) (x : file) (i : inode) (v : gmap Z (list Z)) (s' : ks) : Prop := {
  fc_file : ftable s' = <[Z.to_nat (f - 1) := if f_ref x =? 1 then closed x else set_f_ref (f_ref x - 1) x]> (ftable s);
  fc_refs : forall k, refs (icache (kfs s')) k = refs (icache (kfs s)) k - (if decide (f_ref x = 1 /\ k = ikey i) then 1 else 0);
  fc_cache : icache_ok (icache (kfs s')) /\ iready (kfs s');
  fc_disk : exists l' v' news, quiet dv st (log_of s') l' v' /\ past (bc (log_of s')) = news ++ past (bc (log_of s)) /\ (forall y, y ∈ news -> recovers v y \/ recovers v' y) /\
    (if (f_ref x =? 1) && dies i then given_back v (fsb (kfs s)) i v' else v' = v)
}.

Lemma quiet_touch (b : logst) l v : quiet dv st b l v -> quiet dv st (set_cx (touch (cx b)) b) l v.
Proof using Type.
  clear Hfuel Hst Hend fuel. intros [(D & val & Htx) H2 H3 H4]. split; try done. exists D, val. pose proof (br_wf _ (al_ready _ _ _ _ _ _ _ (ld_at _ _ _ _ _ _ _ _ _ Htx))) as Hw.
  apply tx_cx; [done|by apply touch_wf|done|done].
Qed.

(** The transaction around [iput]. *)
Lemma close_inode (s : ks) ip i v l : quiet dv st (log_of s) l v -> iready (kfs s) -> icache_ok (icache (kfs s)) -> aget (icache (kfs s)) (ip - 1) = Some i -> 0 < i_ref i < 2 ^ 31 -> i_dev i = dv ->
  (dies i = true -> i_lock i = sl_free /\ file_state v (fsb (kfs s)) i /\ sb_size (fsb (kfs s)) <= BPB) ->
  exists s' l' v' news, (d <- ip_dev ip ;; begin_op d ;;; onfs (iput fuel ip) ;;; d <- ip_dev ip ;; end_op d) s = Ret tt s' /\ ftable s' = ftable s /\
    (forall k, refs (icache (kfs s')) k = refs (icache (kfs s)) k - (if decide (k = ikey i) then 1 else 0)) /\ (icache_ok (icache (kfs s')) /\ iready (kfs s')) /\
    quiet dv st (log_of s') l' v' /\ past (bc (log_of s')) = news ++ past (bc (log_of s)) /\ (forall y, y ∈ news -> recovers v y \/ recovers v' y) /\ (if dies i then given_back v (fsb (kfs s)) i v' else v' = v).
Proof using Hfuel Hst Hend.
  intros Hq Hr Hc Hi Href Hdev Hlast. assert (Hip : forall (fs : fss logst U) i', aget (icache fs) (ip - 1) = Some i' -> i_dev i' = dv -> ip_dev ip (set_kfs fs s) = Ret dv (set_kfs fs s)).
  { intros fs i' Hi' Hd. unfold ip_dev. rewrite (onfs_ok _ (set_kfs fs s) dv fs); [done|]. run (geti_ok ip i' fs Hi'). by rewrite <- Hd. }
  assert (Es : s = set_kfs (kfs s) s) by (by destruct s). pose proof (Hip (kfs s) i Hi Hdev) as E0. rewrite <- Es in E0.
  destruct (quiet_begin fuel Hfuel dv st (log_of s) l v Hq) as (b1 & E1 & Hrep & Hc1). set (fs1 := set_fblk b1 (kfs s)). pose proof (qt_op _ _ _ _ _ Hq) as (_ & _ & Hlsz). assert (Hops : 1 <= 1) by lia.
  assert (Eb : begin_op dv s = Ret tt (set_kfs fs1 s)) by (unfold begin_op; rewrite (onfs_ok _ s tt fs1); [done|by apply onb_ok]).
  assert (Hr1 : iready fs1) by (by apply (iready_touch (kfs s))).
  destruct (iput_any fs1 _ _ (lsize l) v ip i Hops Hlsz Hrep Hr1 Hi Href Hdev Hlast) as (fs2 & g & i' & E2 & Hrep2 & Hh2 & Hm & Hk & Hn & Hcase).
  assert (Hi1 : aget (icache fs1) (ip - 1) = Some i) by exact Hi. pose proof (fmod_get (HB := log_blocks fuel Hfuel dv st _ _ 1 Hops (lsize l) Hlsz) _ _ _ _ _ Hi1 Hm) as Hi2. assert (Hd2 : i_dev i' = dv) by (by injection Hk as -> _).
  destruct (fmod_counted (HB := log_blocks fuel Hfuel dv st _ _ 1 Hops (lsize l) Hlsz) fs1 fs2 ip i i' (-1) Hr1 Hc Hi Hm Hk ltac:(lia) ltac:(lia) ltac:(lia)) as [C1 C2 C3 C4 C5].
  destruct (quiet_end fuel Hfuel dv st Hst Hend _ _ (lsize l) (fblk fs2) g Hlsz Hrep2 Hh2 (qt_head _ _ _ _ _ Hq)) as (b3 & l3 & news & new & E3 & Hq3 & _ & Hp & Hat & Hsh & _ & Hc3).
  exists (set_kfs (set_fblk b3 fs2) s), l3, (g_view g), news. split_and!; try done.
  - rewrite (bind_ret_l _ _ _ _ _ E0), (bind_ret_l _ _ _ _ _ Eb), (bind_ret_l _ _ _ _ _ (onfs_ok _ (set_kfs fs1 s) tt fs2 E2)), (bind_ret_l _ _ _ _ _ (Hip fs2 i' Hi2 Hd2)).
    unfold end_op. rewrite (onfs_ok _ (set_kfs fs2 s) tt (set_fblk b3 fs2)); [done|by apply onb_ok].
  - intros k. change (icache (kfs (set_kfs (set_fblk b3 fs2) s))) with (icache fs2). rewrite C3. change (icache fs1) with (icache (kfs s)). repeat case_decide; try lia; congruence.
  - apply (iready_touch fs2); [|done]. exact Hc3.
  - intros y Hy. by apply (atomic_recovers (log_of s) b3 l l3 v (g_view g) new news).
Qed.

Lemma fileclose_ok (s : ks) f x i v : closable s f x i v -> exists s', fileclose fuel f s = Ret tt s' /\ file_closed s f x i v s'.
Proof using Hfuel Hst Hend.
  intros [(l & Hq) (Hr & Hft & Hc) (Hx & Hrx) Ht Hi (Href & Hdev) Hlast]. pose proof (fileclose_at fuel s (kargs s) (cx s) (ftable s) (pipes s) (kofile s) (um_user (fum (kfs s))) f x (ir_wf _ Hr) Hft Hx Hrx) as E.
  cbv zeta in E. rewrite at_whole in E. set (y := if f_ref x =? 1 then closed x else set_f_ref (f_ref x - 1) x). set (s1 := at_ s (kargs s) (touch (cx s)) (<[Z.to_nat (f - 1) := y]> (ftable s)) (pipes s) (kofile s) (um_user (fum (kfs s)))).
  assert (Hq1 : quiet dv st (log_of s1) l v) by exact (quiet_touch _ _ _ Hq). assert (Hr1 : iready (kfs s1)) by (apply (iready_touch (kfs s)); [change (cx (kfs s1)) with (cx s1); unfold s1; rewrite cx_at; apply touch_idemp|done]).
  destruct (decide (f_ref x = 1)) as [H1|H1].
  - destruct (close_inode s1 (f_ip x) i v l Hq1 Hr1 Hc Hi Href Hdev Hlast) as (s' & l' & v' & news & E' & F1 & F2 & F3 & F4 & F5 & F6 & F7). unfold s1, y in E'. rewrite (proj2 (Z.eqb_eq _ 1) H1) in E'. exists s'. split.
    + rewrite E, <- E'. by destruct Ht as [-> | ->].
    + split; [done| |done|exists l', v', news; rewrite (proj2 (Z.eqb_eq _ 1) H1); by split_and!]. intros k. rewrite F2. change (icache (kfs s1)) with (icache (kfs s)). repeat case_decide; try lia; tauto.
  - exists s1. assert (Hy : y = set_f_ref (f_ref x - 1) x) by (unfold y; by rewrite (proj2 (Z.eqb_neq _ 1))). split; [unfold s1; rewrite E, Hy; done|]. split; [done| |done|].
    + intros k. change (icache (kfs s1)) with (icache (kfs s)). rewrite decide_False by tauto. lia.
    + exists l, v, []. rewrite (proj2 (Z.eqb_neq _ 1)) by done. split_and!; [done|done|intros z Hz; by apply not_elem_of_nil in Hz|done].
Qed.
End FileWrite.

(** ** A quiet file system *)


(** C6: [fileclose] of a file on an inode of the disk takes one reference away.  With
    the last one the file is closed and the inode loses a reference in a transaction
    of its own, which commits: the file system is quiet again, and recovery from any
    disk on the way finds the contents before or after.  When the inode has lost its
    links and this was the last reference to it, the disk afterwards has the blocks
    of the file free, its inode without type, and everything else as before;
    otherwise the contents do not change. *)
Theorem fileclose_spec {U} {HU : UserMem U} {HK : KernelMem U} fuel dv st (s : ks logst U) f x i v :
  (0 < fuel)%nat -> 0 < st -> st + LOGSIZE < 2 ^ 31 -> closable dv st s f x i v ->
  exists s', fileclose (HO := log_ops fuel) fuel f s = Ret tt s' /\ file_closed dv st s f x i v s'.
Proof. intros Hf Hst Hend. by apply fileclose_ok. Qed.

(** The three-byte file of the small disk, open at its end. *)
Definition quiet_log : log := mklog 2 30 0 false 0 0 (replicate 30 0).
Definition quiet_start : logst := fresh fs_disk0 [quiet_log].
Definition hi_mem : flatmem := mkflat (<[100 := 104]> (<[101 := 105]> ∅)) [].
Definition open_file : file := mkfile FD_INODE 1 true true 0 1 3 0 0 sl_free.
Definition write_demo : ks logst flatmem := mkks (mkfs quiet_start fs_super [demo_inode] (mkumem hi_mem ∅) 0) [open_file] ∅ (replicate 16 0) 0 [].

Lemma quiet_demo : quiet 0 2 quiet_start quiet_log demo_view.
Proof.
  destruct (fresh_log_ok fs_disk0 [quiet_log] quiet_log eq_refl eq_refl) as (_ & Hd & _). fold quiet_start in Hd. split.
  - exists ∅, (fun _ => zblock). apply fresh_tx; [done|done|done|done| |].
    + intros t Ht. unfold LOGSIZE, MAXOPBLOCKS in Ht. rewrite fs_disk0_at by lia. eauto.
    + intros h. rewrite fs_disk0_at by lia. intros E. injection E as <-. apply demo_block_length.
  - clear Hd. done.
  - exists zblock. rewrite Hd. exact fs_header.
  - intros y d. rewrite demo_view_at. case_decide as Hy; [|done]. intros E. rewrite Hd, fs_disk0_at by lia. clear Hd. split; [done|]. split_and!; [lia|lia| |].
    + intros (t & Ht & [= E']). unfold LOGSIZE, MAXOPBLOCKS in Ht. lia.
    + injection E as <-. apply demo_block_length.
Qed.

Lemma quiet_start_cx : cx quiet_start = LogProps.demo_cx.
Proof. apply fresh_cx_eq. Qed.

Lemma quiet_disk : disk (bc quiet_start) = fs_disk0.
Proof. apply (fresh_log_ok fs_disk0 [quiet_log] quiet_log eq_refl eq_refl). Qed.

#[global] Opaque quiet_start.

Lemma write_demo_cx : cx (kfs write_demo) = LogProps.demo_cx.
Proof. exact quiet_start_cx. Qed.

Lemma write_demo_ready : wready 0 2 write_demo 1 open_file demo_inode demo_view.
Proof.
  split.
  - exists quiet_log. exact quiet_demo.
  - split; rewrite write_demo_cx; [split_and!; [done|apply NoDup_nil_2|done]|apply not_elem_of_nil|intros ip; apply not_elem_of_nil].
  - done.
  - done.
  - done.
  - done.
  - exact demo_file.
  - exists demo_inodes. split; [|exact demo_inodes_ok]. change (IBLOCK (i_inum demo_inode) (fsb (kfs write_demo))) with 32. rewrite demo_view_at. done.
  - split; [constructor|]. intros a. by intros ?%not_elem_of_nil.
Qed.

Lemma hi_holds : holds (um_read (mem_of write_demo)) 100 demo_hi.
Proof. intros [|[|k]] y [= <-]; done. Qed.

(** Zeros for the [n] blocks from block 32. *)
Definition demo_writes (n : Z) : list (Z * list Z) := (fun x => (x, zblock)) <$> seqZ 32 n.

Lemma demo_writes_ok n : 0 <= n <= 30 -> NoDup (demo_writes n).*1 /\ blocks_of demo_view (demo_writes n).
Proof.
  intros Hn. unfold demo_writes. split.
  - rewrite <- list_fmap_compose. apply NoDup_fmap_2; [by intros ? ?|apply NoDup_seqZ].
  - intros x d (y & [= -> ->] & Hy%elem_of_seqZ)%list_elem_of_fmap. rewrite demo_view_at, decide_True by lia. split; [eauto|done].
Qed.

(** 29 blocks are committed, and 30 are too many. *)
Lemma log_capacity_witness :
  (exists s3 s5 s6, (Log.begin_op 1 0 ;;; Log.begin_op 1 0 ;;; Log.begin_op 1 0) quiet_start = Ret tt s3 /\ put_all 1 0 (demo_writes 29) s3 = Ret tt s5 /\
     (Log.end_op 1 0 ;;; Log.end_op 1 0 ;;; Log.end_op 1 0) s5 = Ret tt s6) /\
  (exists s3, (Log.begin_op 1 0 ;;; Log.begin_op 1 0 ;;; Log.begin_op 1 0) quiet_start = Ret tt s3 /\ put_all 1 0 (demo_writes 30) s3 = Panic "too big a transaction").
Proof.
  assert (H1 : (0 < 1)%nat) by lia. assert (H2 : 0 < 2) by lia. assert (H3 : 2 + LOGSIZE < 2 ^ 31) by done. split.
  - destruct (demo_writes_ok 29 ltac:(lia)) as [Hn Hb]. destruct (log_capacity 1 H1 0 2 H2 H3 quiet_start quiet_log demo_view (demo_writes 29) quiet_demo eq_refl Hn Hb) as (s3 & _ & _ & E3 & _ & s5 & s6 & _ & _ & _ & E5 & E6 & _).
    exists s3, s5, s6. exact (conj E3 (conj E5 E6)).
  - destruct (demo_writes_ok 30 ltac:(lia)) as [Hn Hb]. destruct (log_capacity 1 H1 0 2 H2 H3 quiet_start quiet_log demo_view (demo_writes 30) quiet_demo eq_refl Hn Hb) as (s3 & _ & _ & E3 & _ & E5).
    exists s3. exact (conj E3 E5).
Defined.

(** Every view of the disk has its free blocks. *)
Lemma write_demo_frees f x i v : wready 0 2 write_demo f x i v -> frees v fs_super = 29%nat.
Proof.
  intros Hr. rewrite <- demo_frees. pose proof (fs_disk _ _ _ (wq_state _ _ _ _ _ _ _ Hr)) as Hk. destruct (wq_quiet _ _ _ _ _ _ _ Hr) as [l Hq].
  apply frees_ext. intros c Hc. cbn in Hc. unfold bit. rewrite demo_BBLOCK, demo_view_at by done. rewrite decide_True by lia.
  destruct (dk_map _ _ Hk c Hc) as [d Hd]. change (fsb (kfs write_demo)) with fs_super in Hd. rewrite demo_BBLOCK in Hd by done. rewrite Hd.
  destruct (qt_view _ _ _ _ _ Hq 33 d Hd) as [E _]. change (log_of write_demo) with quiet_start in E. rewrite quiet_disk, fs_disk0_at in E by lia. by injection E as <-.
Qed.

(** It has room for a chunk. *)
Lemma write_demo_done r : filewritten 1 0 2 [] write_demo 1 open_file demo_inode demo_view 100 demo_hi r ->
  exists s' v', r = Ret 2 s' /\ after_write 0 2 write_demo 1 open_file demo_inode demo_view demo_hi s' v'.
Proof.
  intros [(_ & j & s' & E & Hj & v' & (i' & news & Hr & _) & Hs)|H]; [|exact H]. exfalso. assert (j = 0%nat) as -> by (cbn in Hj; lia). cbn in E. injection E as <-.
  pose proof (st_full _ _ _ _ _ _ _ _ _ Hs) as H8. change (frees v' fs_super < 8)%nat in H8. rewrite (write_demo_frees _ _ _ _ Hr) in H8. lia.
Qed.


(** The file without links is open, with one reference. *)
Definition close_demo : ks logst flatmem := mkks (mkfs quiet_start fs_super [unlinked_inode] (mkumem hi_mem ∅) 0) [open_file] ∅ (replicate 16 0) 0 [].

Lemma close_demo_cx : cx (kfs close_demo) = LogProps.demo_cx.
Proof. exact quiet_start_cx. Qed.

Lemma close_demo_closable : closable 0 2 close_demo 1 open_file unlinked_inode demo_view.
Proof.
  assert (N : forall j i, aget (icache (kfs close_demo)) j = Some i -> j = 0 /\ i = unlinked_inode).
  { change (icache (kfs close_demo)) with [unlinked_inode]. intros j i. rewrite aget_cons. destruct (Z.eqb_spec j 0) as [->|]; [intros [= ->]; done|]. intros H%aget_Some_lt. cbn [length] in H. lia. }
  split.
  - exists quiet_log. exact quiet_demo.
  - split_and!.
    + split; rewrite close_demo_cx; [split_and!; [done|apply NoDup_nil_2|done]|apply not_elem_of_nil|intros ip; apply not_elem_of_nil].
    + change (cx close_demo) with (cx (kfs close_demo)). rewrite close_demo_cx. apply not_elem_of_nil.
    + split; [intros j i [-> ->]%N; done|intros j k a b [-> ->]%N [-> ->]%N; done].
  - done.
  - by left.
  - done.
  - done.
  - intros _. split; [done|]. split; [exact unlinked_file|done].
Qed.

(** The file [abc] is gone with its last descriptor. *)
Lemma fileclose_spec_witness : exists s' v', fileclose (HO := log_ops 1) 1 1 close_demo = Ret tt s' /\ given_back demo_view fs_super unlinked_inode v'.
Proof.
  assert (H1 : (0 < 1)%nat) by lia. assert (H2 : 0 < 2) by lia. assert (H3 : 2 + LOGSIZE < 2 ^ 31) by done.
  destruct (fileclose_spec 1 0 2 close_demo 1 open_file unlinked_inode demo_view H1 H2 H3 close_demo_closable) as (s' & E & Hc). destruct (fc_disk _ _ _ _ _ _ _ _ Hc) as (l' & v' & news & _ & _ & _ & Hg).
  exists s', v'. exact (conj E Hg).
Defined.
