(* ===== verification/Printf.v ===== *)
(** * kernel/printf.c, consputc of kernel/console.c, and user/printf.c

    The kernel prints to the serial line, whose output is a list of bytes; a user
    program buffers its output per file descriptor.  Both take their arguments
    from a list of 64-bit words, the variadic arguments; to read past its end is
    a fault.  Format strings and string arguments are C strings in memory. *)

From S2P Require Import Prelude StringC.

(** ** Numbers

    [printint] is the same code in the kernel and in the user library, up to the
    case of the hexadecimal digits and the function that prints a character. *)

Definition kdigits : list Z := [48; 49; 50; 51; 52; 53; 54; 55; 56; 57; 97; 98; 99; 100; 101; 102].
Definition udigits : list Z := [48; 49; 50; 51; 52; 53; 54; 55; 56; 57; 65; 66; 67; 68; 69; 70].

(** [do buf[i++] = digits[x % base]; while((x /= base) != 0);] *)
Fixpoint digits_loop (fuel : nat) (digits : list Z) (x base : Z) (buf : list Z) (i : Z) : option (list Z * Z) :=
  match fuel with
  | O => None
  | S fuel =>
      d ← aget digits (x mod base);
      buf ← aset buf i d;
      let x := x / base in
      if x =? 0 then Some (buf, i + 1) else digits_loop fuel digits x base buf (i + 1)
  end.

(** [while(--i >= 0) putc(buf[i]);] as the bytes printed. *)
Fixpoint out_loop (n : nat) (buf : list Z) : option (list Z) :=
  match n with
  | O => Some []
  | S n => c ← buf !! n; l ← out_loop n buf; Some (c :: l)
  end.

(** The local array starts with any contents [buf0]. *)
Definition printint (digits buf0 : list Z) (xx base : Z) (sign : bool) : option (list Z) :=
  let neg := sign && (xx <? 0) in
  let x := if neg then u32 (s32 (- xx)) else u32 xx in
  '(buf, i) ← digits_loop 32 digits x base buf0 0;
  if neg then buf ← aset buf i 45; out_loop (Z.to_nat (i + 1)) buf
  else out_loop (Z.to_nat i) buf.

(** [for(i = 0; i < 16; i++, x <<= 4) putc(digits[x >> 60]);] *)
Fixpoint ptr_loop (n : nat) (digits : list Z) (x : Z) : option (list Z) :=
  match n with
  | O => Some []
  | S n => c ← aget digits (Z.shiftr x 60); l ← ptr_loop n digits (u64 (Z.shiftl x 4)); Some (c :: l)
  end.

Definition printptr (digits : list Z) (x : Z) : option (list Z) := l ← ptr_loop 16 digits x; Some (48 :: 120 :: l).

(** ** The console *)

Record con := {
  uart : list Z;         (** the bytes sent to the serial line *)
  panicked : bool;
  pr_locking : bool;     (** pr.locking *)
  con_cx : ctx
}.

Definition set_uart o s := {| uart := o; panicked := panicked s; pr_locking := pr_locking s; con_cx := con_cx s |}.

#[global] Instance con_has_ctx : HasCtx con.
Proof.
  refine {| cx := con_cx; set_cx := fun c s => {| uart := uart s; panicked := panicked s; pr_locking := pr_locking s; con_cx := c |} |};
    [done|by intros []|done].
Defined.

Definition BACKSPACE : Z := 256.

(** The register takes the low byte. *)
Definition uartputc (c : Z) : M con unit := modify (fun s => set_uart (uart s ++ [u8 c]) s).

(** After a panic every processor that prints stays here. *)
Definition consputc (c : Z) : M con unit :=
  p <- gets panicked ;;
  if (p : bool) then nofuel else
  if c =? BACKSPACE then uartputc 8 ;;; uartputc 32 ;;; uartputc 8
  else uartputc c.

Fixpoint consputs (l : list Z) : M con unit :=
  match l with
  | [] => ret tt
  | c :: l => consputc c ;;; consputs l
  end.

Definition pr_lock : lock := ("pr"%string, 0).

(** [va_arg]: the next argument and the ones after it. *)
Definition va_arg {S A} (ap : list Z) (k : Z -> list Z -> M S A) : M S A :=
  match ap with
  | [] => fault
  | a :: ap => k a ap
  end.

(** [for(; *s; s++) consputc( *s);] *)
Fixpoint puts_loop (fuel : nat) (m : mem) (s : Z) : M con unit :=
  match fuel with
  | O => nofuel
  | S fuel => c <- unwrap (ld m s) ;; if c =? 0 then ret tt else consputc c ;;; puts_loop fuel m (s + 1)
  end.

Definition null_text : list Z := [40; 110; 117; 108; 108; 41].

(** One conversion: the character after the [%], and the arguments left. *)
Definition kconvert (m : mem) (buf0 : list Z) (c : Z) (ap : list Z) : M con (list Z) :=
  if c =? 100 then va_arg ap (fun a ap => l <- unwrap (printint kdigits buf0 (s32 a) 10 true) ;; consputs l ;;; ret ap)
  else if c =? 120 then va_arg ap (fun a ap => l <- unwrap (printint kdigits buf0 (s32 a) 16 true) ;; consputs l ;;; ret ap)
  else if c =? 112 then va_arg ap (fun a ap => l <- unwrap (printptr kdigits a) ;; consputs l ;;; ret ap)
  else if c =? 115 then
    va_arg ap (fun a ap => (if a =? 0 then consputs null_text else puts_loop (str_fuel m) m a) ;;; ret ap)
  else if c =? 37 then consputc 37 ;;; ret ap
  else consputc 37 ;;; consputc c ;;; ret ap.

Fixpoint printf_loop (fuel : nat) (m : mem) (buf0 : list Z) (fmt i : Z) (ap : list Z) : M con unit :=
  match fuel with
  | O => nofuel
  | S fuel =>
      c <- unwrap (ld m (fmt + i)) ;;
      if c =? 0 then ret tt
      else if negb (c =? 37) then consputc c ;;; printf_loop fuel m buf0 fmt (i + 1) ap
      else
        c <- unwrap (ld m (fmt + (i + 1))) ;;
        if c =? 0 then ret tt else
        ap <- kconvert m buf0 c ap ;;
        printf_loop fuel m buf0 fmt (i + 2) ap
  end.

Definition printf_locking (m : mem) (buf0 : list Z) (locking : bool) (fmt : Z) (ap : list Z) : M con unit :=
  when locking (acquire pr_lock) ;;;
  if fmt =? 0 then panic "null fmt" else
  printf_loop (str_fuel m) m buf0 fmt 0 ap ;;;
  when locking (release pr_lock).

Definition printf (m : mem) (buf0 : list Z) (fmt : Z) (ap : list Z) : M con unit :=
  l <- gets pr_locking ;; printf_locking m buf0 l fmt ap.

Definition printf_no_lock (m : mem) (buf0 : list Z) (fmt : Z) (ap : list Z) : M con unit := printf_locking m buf0 false fmt ap.

(** ** The user library

    One buffer per file descriptor, allocated when it is first used; [write] is
    the list of system calls made. *)

Definition PUTC_BUF_LEN : Z := 4096.

Record uio := {
  putc_buf : list (option (list Z));
  putc_index : list Z;
  write : list (Z * list Z)
}.

Definition set_buf fd b s := {| putc_buf := <[Z.to_nat fd := Some b]> (putc_buf s); putc_index := putc_index s; write := write s |}.
Definition set_index fd i s := {| putc_buf := putc_buf s; putc_index := <[Z.to_nat fd := i]> (putc_index s); write := write s |}.
Definition add_write fd l s := {| putc_buf := putc_buf s; putc_index := putc_index s; write := write s ++ [(fd, l)] |}.

(** [printint] and [printptr] of the user library. *)
Definition uprintint (buf0 : list Z) (xx base : Z) (sgn : bool) : option (list Z) := printint udigits buf0 xx base sgn.
Definition uprintptr (x : Z) : option (list Z) := printptr udigits x.

Section User.
(** The contents of a buffer that [malloc] has just returned; [malloc] is taken
    to succeed. *)
Context (fresh : list Z).

Definition get_putc_buf (fd : Z) : M uio (list Z) :=
  o <- gets (fun s => aget (putc_buf s) fd) ;;
  o <- unwrap o ;;
  match o with
  | Some buf => ret buf
  | None => modify (set_buf fd fresh) ;;; modify (set_index fd 0) ;;; ret fresh
  end.

Definition putc (fd c : Z) : M uio unit :=
  buf <- get_putc_buf fd ;;
  i <- gets (fun s => aget (putc_index s) fd) ;; i <- unwrap i ;;
  buf <- unwrap (aset buf i (u8 c)) ;;
  modify (set_buf fd buf) ;;; modify (set_index fd (i + 1)) ;;;
  if (u8 c =? 10) || (i + 1 =? PUTC_BUF_LEN)
  then modify (add_write fd (take (Z.to_nat (i + 1)) buf)) ;;; modify (set_index fd 0)
  else ret tt.

Definition fflush (fd : Z) : M uio unit :=
  buf <- get_putc_buf fd ;;
  i <- gets (fun s => aget (putc_index s) fd) ;; i <- unwrap i ;;
  modify (add_write fd (take (Z.to_nat i) buf)) ;;; modify (set_index fd 0).

Fixpoint uputs (fd : Z) (l : list Z) : M uio unit :=
  match l with
  | [] => ret tt
  | c :: l => putc fd c ;;; uputs fd l
  end.

Fixpoint uputs_loop (fuel : nat) (m : mem) (fd s : Z) : M uio unit :=
  match fuel with
  | O => nofuel
  | S fuel => c <- unwrap (ld m s) ;; if c =? 0 then ret tt else putc fd c ;;; uputs_loop fuel m fd (s + 1)
  end.

Definition uconvert (m : mem) (buf0 : list Z) (fd c : Z) (ap : list Z) : M uio (list Z) :=
  if c =? 100 then va_arg ap (fun a ap => l <- unwrap (uprintint buf0 (s32 a) 10 true) ;; uputs fd l ;;; ret ap)
  else if c =? 108 then va_arg ap (fun a ap => l <- unwrap (uprintint buf0 (s32 a) 10 false) ;; uputs fd l ;;; ret ap)
  else if c =? 120 then va_arg ap (fun a ap => l <- unwrap (uprintint buf0 (s32 a) 16 false) ;; uputs fd l ;;; ret ap)
  else if c =? 112 then va_arg ap (fun a ap => l <- unwrap (uprintptr a) ;; uputs fd l ;;; ret ap)
  else if c =? 115 then
    va_arg ap (fun a ap => (if a =? 0 then uputs fd null_text else uputs_loop (str_fuel m) m fd a) ;;; ret ap)
  else if c =? 99 then va_arg ap (fun a ap => putc fd a ;;; ret ap)
  else if c =? 37 then putc fd c ;;; ret ap
  else putc fd 37 ;;; putc fd c ;;; ret ap.

(** [state] is 0 or the character [%]. *)
Fixpoint vprintf_loop (fuel : nat) (m : mem) (buf0 : list Z) (fd fmt i state : Z) (ap : list Z) : M uio unit :=
  match fuel with
  | O => nofuel
  | S fuel =>
      c <- unwrap (ld m (fmt + i)) ;;
      if c =? 0 then ret tt
      else if state =? 0 then
        if c =? 37 then vprintf_loop fuel m buf0 fd fmt (i + 1) 37 ap
        else putc fd c ;;; vprintf_loop fuel m buf0 fd fmt (i + 1) 0 ap
      else ap <- uconvert m buf0 fd c ap ;; vprintf_loop fuel m buf0 fd fmt (i + 1) 0 ap
  end.

Definition vprintf (m : mem) (buf0 : list Z) (fd fmt : Z) (ap : list Z) : M uio unit := vprintf_loop (str_fuel m) m buf0 fd fmt 0 0 ap.

Definition fprintf (m : mem) (buf0 : list Z) (fd fmt : Z) (ap : list Z) : M uio unit := vprintf m buf0 fd fmt ap.
Definition uprintf (m : mem) (buf0 : list Z) (fmt : Z) (ap : list Z) : M uio unit := vprintf m buf0 1 fmt ap.
End User.
