(* ===== verification/PrintfSpec.v ===== *)
(** * Printed numbers and formatted output

    [printint] prints the numeral of its argument, and stays within its array;
    [printf] and [vprintf] print the rendering of their format, given by recursion
    on the format; the user library's buffers lose, repeat and reorder nothing. *)

From S2P Require Import Prelude StringC Printf.

(** ** Digits

    The digits of a number, least significant first. *)
Fixpoint number (base : Z) (ds : list Z) : Z :=
  match ds with
  | [] => 0
  | d :: ds => d + base * number base ds
  end.

Definition digit_of (base : Z) (d : Z) : Prop := 0 <= d < base.

(** The numeral of [x]: the digits, and no leading zero. *)
Record numeral (base x : Z) (ds : list Z) : Prop := {
  nu_value : number base ds = x;
  nu_digits : Forall (digit_of base) ds;
  nu_some : ds <> [];
  nu_lead : forall r, ds = r ++ [0] -> r = []
}.

Section Digits.
Context (digits : list Z) (base : Z) (Hb : 2 <= base <= 16) (Hd : length digits = 16%nat).

Definition char_of (d : Z) : Z := default 0 (aget digits d).

Lemma digit_at d : digit_of base d -> aget digits d = Some (char_of d).
Proof.
  intros Hr. unfold char_of, digit_of in *. destruct (aget digits d) as [c|] eqn:E; [done|]. exfalso.
  unfold aget in E. rewrite decide_True in E by lia. apply lookup_ge_None in E. lia.
Qed.

Lemma digits_loop_ok n : forall fuel x buf i,
  (n <= fuel)%nat -> (0 < n)%nat -> 0 <= x < base ^ Z.of_nat n -> 0 <= i -> i + Z.of_nat n <= Z.of_nat (length buf) ->
  exists ds, digits_loop fuel digits x base buf i =
      Some (take (Z.to_nat i) buf ++ (char_of <$> ds) ++ drop (Z.to_nat i + length ds) buf, i + Z.of_nat (length ds)) /\
    numeral base x ds /\ (length ds <= n)%nat.
Proof.
  induction n as [|n IH]; intros fuel x buf i Hf Hn Hx Hi Hl; [lia|]. destruct fuel as [|fuel]; [lia|]. cbn [digits_loop].
  assert (Hm : digit_of base (x mod base)) by (apply Z.mod_pos_bound; lia). rewrite (digit_at _ Hm). cbn [mbind option_bind].
  rewrite aset_is_Some by lia. cbn [mbind option_bind]. set (c := char_of (x mod base)).
  assert (Hsplit : <[Z.to_nat i := c]> buf = take (Z.to_nat i) buf ++ c :: drop (S (Z.to_nat i)) buf) by (apply insert_take_drop; lia).
  pose proof (Z.div_mod x base ltac:(lia)) as Hdm. destruct (Z.eqb_spec (x / base) 0) as [E0|E0].
  - exists [x mod base]. split_and!; [|split; cbn [number]|cbn; lia].
    + rewrite Hsplit. cbn [fmap list_fmap length app]. do 3 f_equal. f_equal. f_equal. lia.
    + rewrite E0 in Hdm. lia.
    + by apply list.Forall_singleton.
    + done.
    + intros r Hr. destruct r as [|? [|]]; [done|discriminate Hr|discriminate Hr].
  - assert (Hx' : 0 <= x / base < base ^ Z.of_nat n).
    { split; [apply Z.div_pos; lia|]. apply Z.div_lt_upper_bound; [lia|]. replace (Z.of_nat (S n)) with (Z.succ (Z.of_nat n)) in Hx by lia.
      rewrite Z.pow_succ_r in Hx by lia. lia. }
    assert (Hn0 : (0 < n)%nat) by (destruct n; [cbn in Hx'; lia|lia]).
    destruct (IH fuel (x / base) (<[Z.to_nat i := c]> buf) (i + 1)) as (ds & E & [N1 N2 N3 N4] & Hlen); [lia|done|done|lia|rewrite length_insert; lia|].
    exists ((x mod base) :: ds). rewrite E. split_and!; [|split|cbn; lia].
    + replace (Z.to_nat (i + 1)) with (S (Z.to_nat i)) by lia. rewrite Hsplit. cbn [fmap list_fmap length]. f_equal. f_equal; [|lia].
      assert (Hti : length (take (Z.to_nat i) buf) = Z.to_nat i) by (rewrite length_take; lia).
      rewrite take_app, drop_app, Hti. replace (S (Z.to_nat i) - Z.to_nat i)%nat with 1%nat by lia.
      replace (S (Z.to_nat i) + length ds - Z.to_nat i)%nat with (S (length ds)) by lia. cbn [take drop].
      rewrite (take_ge (take _ _)) by lia. rewrite (drop_ge (take _ _)) by lia. rewrite drop_drop. rewrite <- !app_assoc. cbn [app].
      by replace (Z.to_nat i + S (length ds))%nat with (S (Z.to_nat i) + length ds)%nat by lia.
    + cbn [number]. rewrite N1. lia.
    + by apply list.Forall_cons.
    + done.
    + intros r Hr. destruct r as [|y r]; [done|]. injection Hr as _ Hr. pose proof (N4 r Hr) as ->. subst ds. cbn in N1. lia.
Qed.
End Digits.

Lemma out_loop_ok buf n : (n <= length buf)%nat -> out_loop n buf = Some (reverse (take n buf)).
Proof.
  induction n as [|n IH]; intros Hn; [done|]. cbn [out_loop]. destruct (lookup_lt_is_Some_2 buf n) as [c Hc]; [lia|]. rewrite Hc.
  cbn [mbind option_bind]. rewrite IH by lia. cbn [mbind option_bind]. rewrite (take_S_r _ _ c) by done. by rewrite reverse_app.
Qed.

(** The sign, and the absolute value as the code computes it. *)
Lemma printint_ok digits buf0 xx base sign :
  10 <= base <= 16 -> length digits = 16%nat -> length buf0 = 16%nat -> - 2 ^ 31 <= xx < 2 ^ 31 ->
  let neg := sign && (xx <? 0) in
  exists ds, numeral base (if neg then - xx else u32 xx) ds /\ (length ds <= 10)%nat /\
    printint digits buf0 xx base sign = Some ((if neg then [45] else []) ++ reverse (char_of digits <$> ds)).
Proof.
  intros Hb Hd Hbuf Hx neg. unfold printint. fold neg. set (x := if neg then u32 (s32 (- xx)) else u32 xx).
  assert (Hxe : x = if neg then - xx else u32 xx).
  { unfold x. destruct neg eqn:En; [|done]. apply andb_true_iff in En as [_ En%Z.ltb_lt]. 
    destruct (decide (xx = - 2 ^ 31)) as [->|]; [done|]. rewrite s32_small, u32_small by lia. done. }
  assert (Hxr : 0 <= x < base ^ Z.of_nat 10).
  { assert (0 <= x < 2 ^ 32) by (unfold x; destruct neg; apply u32_range). assert (10 ^ 10 <= base ^ 10) by (apply Z.pow_le_mono_l; lia).
    change (Z.of_nat 10) with 10. lia. }
  destruct (digits_loop_ok digits base ltac:(lia) Hd 10 32 x buf0 0) as (ds & E & Hn & Hlen); [lia|lia|done|lia|lia|].
  exists ds. rewrite <- Hxe. split_and!; [done|done|]. change (Z.to_nat 0) with O in E. rewrite E. cbn [mbind option_bind Nat.add]. rewrite take_0. cbn [app].
  set (cs := char_of digits <$> ds). assert (Hcs : length cs = length ds) by apply length_fmap.
  assert (Htot : length (cs ++ drop (length ds) buf0) = 16%nat) by (rewrite length_app, length_drop; lia).
  rewrite Z.add_0_l. destruct neg.
  - rewrite aset_is_Some by (rewrite Htot; lia). cbn [mbind option_bind]. rewrite Nat2Z.id. replace (Z.to_nat (Z.of_nat (length ds) + 1)) with (S (length ds)) by lia.
    rewrite out_loop_ok by (rewrite length_insert, Htot; lia). f_equal.
    rewrite (take_S_r _ _ 45) by (apply list_lookup_insert_eq; rewrite Htot; lia). rewrite take_insert_ge by lia. rewrite <- Hcs, take_app_length.
    by rewrite reverse_app.
  - rewrite Nat2Z.id, out_loop_ok by (rewrite Htot; lia). by rewrite <- Hcs, take_app_length.
Qed.

(** A number has one numeral. *)
Lemma number_nonneg base ds : 0 < base -> Forall (digit_of base) ds -> 0 <= number base ds.
Proof. intros Hb. induction 1 as [|d ds Hd _ IH]; cbn [number]; [lia|]. unfold digit_of in Hd. nia. Qed.

Lemma number_zero base ds : 0 < base -> Forall (digit_of base) ds -> number base ds = 0 -> ds <> [] -> exists r, ds = r ++ [0].
Proof.
  intros Hb. induction 1 as [|d ds Hd Hds IH]; [done|]. cbn [number]. intros Hn _. pose proof (number_nonneg base ds Hb Hds). unfold digit_of in Hd.
  destruct ds as [|d1 ds]; [exists []; cbn in *; f_equal; lia|]. destruct (IH ltac:(nia) ltac:(done)) as [r ->]. by exists (d :: r).
Qed.

Lemma number_inj base ds1 : forall ds2, 0 < base -> Forall (digit_of base) ds1 -> Forall (digit_of base) ds2 ->
  (forall r, ds1 = r ++ [0] -> r = []) -> (forall r, ds2 = r ++ [0] -> r = []) -> ds1 <> [] -> ds2 <> [] ->
  number base ds1 = number base ds2 -> ds1 = ds2.
Proof.
  assert (Hone : forall d1 ds, 0 < base -> Forall (digit_of base) ds -> (forall r, d1 :: ds = r ++ [0] -> r = []) -> number base ds = 0 -> ds = []).
  { intros d1 ds Hb Hf Hl H0. destruct ds as [|d2 ds]; [done|]. destruct (number_zero base _ Hb Hf H0 ltac:(done)) as [r Hr].
    specialize (Hl (d1 :: r)). rewrite Hr in Hl. by specialize (Hl eq_refl). }
  induction ds1 as [|d1 ds1 IH]; intros ds2 Hb H1 H2 L1 L2 N1 N2 E; [done|]. destruct ds2 as [|d2 ds2]; [done|]. cbn [number] in E.
  apply list.Forall_cons in H1 as [D1 H1], H2 as [D2 H2]. unfold digit_of in D1, D2.
  assert (d1 = d2 /\ number base ds1 = number base ds2) as [-> E'].
  { apply (f_equal (fun z => z mod base)) in E as Em. rewrite !(Z.mul_comm base), !Z.mod_add, !Z.mod_small in Em by lia. split; [done|nia]. }
  f_equal. destruct (decide (ds1 = [])) as [->|Hn1]; [symmetry; by apply (Hone d2)|].
  destruct (decide (ds2 = [])) as [->|Hn2]; [by apply (Hone d2)|]. apply IH; try done.
  - intros r Hr. specialize (L1 (d2 :: r)). rewrite Hr in L1. by specialize (L1 eq_refl).
  - intros r Hr. specialize (L2 (d2 :: r)). rewrite Hr in L2. by specialize (L2 eq_refl).
Qed.

Lemma numeral_unique base x ds1 ds2 : 0 < base -> numeral base x ds1 -> numeral base x ds2 -> ds1 = ds2.
Proof. intros Hb [A1 A2 A3 A4] [B1 B2 B3 B4]. eapply number_inj; eauto. by rewrite A1, B1. Qed.

(** The text of a number. *)
Definition int_text (digits : list Z) (base : Z) (sign : bool) (xx : Z) (t : list Z) : Prop :=
  let neg := sign && (xx <? 0) in
  exists ds, numeral base (if neg then - xx else u32 xx) ds /\ t = (if neg then [45] else []) ++ reverse (char_of digits <$> ds).

Lemma printint_text digits buf0 xx base sign t :
  10 <= base <= 16 -> length digits = 16%nat -> length buf0 = 16%nat -> - 2 ^ 31 <= xx < 2 ^ 31 ->
  int_text digits base sign xx t -> printint digits buf0 xx base sign = Some t.
Proof.
  intros Hb Hd Hbuf Hx (ds & Hn & ->). destruct (printint_ok digits buf0 xx base sign Hb Hd Hbuf Hx) as (ds' & Hn' & _ & ->).
  by rewrite (numeral_unique base _ ds ds' ltac:(lia) Hn Hn').
Qed.

(** The text of a pointer: sixteen hexadecimal digits. *)
Definition ptr_text (digits : list Z) (x : Z) (t : list Z) : Prop :=
  exists ds, length ds = 16%nat /\ Forall (digit_of 16) ds /\ number 16 ds = x /\ t = 48 :: 120 :: reverse (char_of digits <$> ds).

Lemma number_app base ds d : number base (ds ++ [d]) = number base ds + base ^ Z.of_nat (length ds) * d.
Proof.
  induction ds as [|x ds IH]; cbn [number app length]; [lia|]. rewrite IH. replace (Z.of_nat (S (length ds))) with (Z.succ (Z.of_nat (length ds))) by lia.
  rewrite Z.pow_succ_r by lia. lia.
Qed.

Lemma ptr_loop_ok digits n : forall x, length digits = 16%nat -> 0 <= x < 2 ^ 64 -> (n <= 16)%nat ->
  exists ds, ptr_loop n digits x = Some (reverse (char_of digits <$> ds)) /\ length ds = n /\ Forall (digit_of 16) ds /\
    number 16 ds = x / 16 ^ (16 - Z.of_nat n).
Proof.
  induction n as [|n IH]; intros x Hd Hx Hn; cbn [ptr_loop].
  { exists []. split_and!; [done|done|by constructor|]. rewrite Z.div_small; [done|]. change (16 ^ (16 - Z.of_nat 0)) with (2 ^ 64). lia. }
  rewrite Z.shiftr_div_pow2 by lia. set (d := x / 2 ^ 60). assert (Hdr : digit_of 16 d).
  { unfold digit_of, d. split; [apply Z.div_pos; lia|apply Z.div_lt_upper_bound; lia]. }
  rewrite (digit_at digits 16 ltac:(lia) Hd d Hdr). cbn [mbind option_bind]. rewrite Z.shiftl_mul_pow2 by lia. change (2 ^ 4) with 16.
  destruct (IH (u64 (x * 16)) Hd (u64_range _) ltac:(lia)) as (ds & -> & Hl & Hf & Hv). cbn [mbind option_bind].
  exists (ds ++ [d]). rewrite fmap_app, reverse_app. split_and!; [done|rewrite length_app; cbn; lia| |].
  - apply Forall_app. split; [done|by apply list.Forall_singleton].
  - rewrite number_app, Hv, Hl.
    assert (Hu : u64 (x * 16) = x * 16 - d * 16 ^ 16).
    { unfold u64, d. change (2 ^ 64) with (2 ^ 60 * 16). rewrite Z.mul_mod_distr_r by lia. rewrite Z.mod_eq by lia. change (16 ^ 16) with (2 ^ 60 * 16). lia. }
    rewrite Hu. replace (16 ^ 16) with (16 ^ Z.of_nat n * 16 ^ (16 - Z.of_nat n)) by (rewrite <- Z.pow_add_r by lia; f_equal; lia).
    replace (x * 16 - d * (16 ^ Z.of_nat n * 16 ^ (16 - Z.of_nat n))) with (x * 16 + (- (d * 16 ^ Z.of_nat n)) * 16 ^ (16 - Z.of_nat n)) by lia.
    rewrite Z.div_add by (apply Z.pow_nonzero; lia). replace (16 - Z.of_nat n) with (Z.succ (16 - Z.of_nat (S n))) by lia.
    rewrite Z.pow_succ_r by lia. rewrite (Z.mul_comm 16), Z.div_mul_cancel_r by (try apply Z.pow_nonzero; lia). lia.
Qed.

Lemma number_inj_len base ds1 : forall ds2, 0 < base -> length ds1 = length ds2 -> Forall (digit_of base) ds1 -> Forall (digit_of base) ds2 ->
  number base ds1 = number base ds2 -> ds1 = ds2.
Proof.
  induction ds1 as [|d1 ds1 IH]; intros [|d2 ds2] Hb Hl H1 H2 E; try done. cbn [number length] in *. apply list.Forall_cons in H1 as [D1 H1], H2 as [D2 H2].
  unfold digit_of in D1, D2. apply (f_equal (fun z => z mod base)) in E as Em. rewrite !(Z.mul_comm base), !Z.mod_add, !Z.mod_small in Em by lia.
  subst d2. f_equal. apply IH; try done; [lia|nia].
Qed.

Lemma printptr_text digits x t : length digits = 16%nat -> 0 <= x < 2 ^ 64 -> ptr_text digits x t -> printptr digits x = Some t.
Proof.
  intros Hd Hx (ds & Hl & Hf & Hv & ->). unfold printptr. destruct (ptr_loop_ok digits 16 x Hd Hx ltac:(lia)) as (ds' & -> & Hl' & Hf' & Hv').
  cbn [mbind option_bind]. rewrite Z.sub_diag, Z.pow_0_r, Z.div_1_r in Hv'. by rewrite (number_inj_len 16 ds ds') by (try done; lia || congruence).
Qed.

(** ** Rendering a format

    [conv c ap ap' t]: the conversion [%c] takes the arguments [ap], leaves
    [ap'], and its text is [t]. *)
Inductive renders (conv : Z -> list Z -> list Z -> list Z -> Prop) : list Z -> list Z -> list Z -> Prop :=
| rn_nil ap : renders conv [] ap []
| rn_char c l ap o : c <> 37 -> renders conv l ap o -> renders conv (c :: l) ap (c :: o)
| rn_last ap : renders conv [37] ap []
| rn_conv c l ap ap' t o : conv c ap ap' t -> renders conv l ap' o -> renders conv (37 :: c :: l) ap (t ++ o).

(** The conversions of the kernel, and those of the user library. *)
Inductive kconv (m : mem) : Z -> list Z -> list Z -> list Z -> Prop :=
| kc_d a ap t : int_text kdigits 10 true (s32 a) t -> kconv m 100 (a :: ap) ap t
| kc_x a ap t : int_text kdigits 16 true (s32 a) t -> kconv m 120 (a :: ap) ap t
| kc_p a ap t : 0 <= a < 2 ^ 64 -> ptr_text kdigits a t -> kconv m 112 (a :: ap) ap t
| kc_s a ap t : a <> 0 -> cstr m a t -> kconv m 115 (a :: ap) ap t
| kc_null ap : kconv m 115 (0 :: ap) ap null_text
| kc_percent ap : kconv m 37 ap ap [37]
| kc_other c ap : c ∉ [100; 120; 112; 115; 37] -> kconv m c ap ap [37; c].

Inductive uconv (m : mem) : Z -> list Z -> list Z -> list Z -> Prop :=
| uc_d a ap t : int_text udigits 10 true (s32 a) t -> uconv m 100 (a :: ap) ap t
| uc_l a ap t : int_text udigits 10 false (s32 a) t -> uconv m 108 (a :: ap) ap t
| uc_x a ap t : int_text udigits 16 false (s32 a) t -> uconv m 120 (a :: ap) ap t
| uc_p a ap t : 0 <= a < 2 ^ 64 -> ptr_text udigits a t -> uconv m 112 (a :: ap) ap t
| uc_s a ap t : a <> 0 -> cstr m a t -> uconv m 115 (a :: ap) ap t
| uc_null ap : uconv m 115 (0 :: ap) ap null_text
| uc_c a ap : uconv m 99 (a :: ap) ap [a]
| uc_percent ap : uconv m 37 ap ap [37]
| uc_other c ap : c ∉ [100; 108; 120; 112; 115; 99; 37] -> uconv m c ap ap [37; c].

(** ** The kernel's printf *)

Definition bytes (l : list Z) : Prop := Forall (fun c => 0 <= c < 256) l.

Lemma consputc_ok s c : panicked s = false -> 0 <= c < 256 -> consputc c s = Ret tt (set_uart (uart s ++ [c]) s).
Proof.
  intros Hp Hc. unfold consputc. mstep. rewrite Hp. unfold BACKSPACE. rewrite (proj2 (Z.eqb_neq c 256)) by lia. unfold uartputc, modify, u8.
  by rewrite Z.mod_small by lia.
Qed.

Lemma consputs_ok l : forall s, panicked s = false -> bytes l -> consputs l s = Ret tt (set_uart (uart s ++ l) s).
Proof.
  induction l as [|c l IH]; intros s Hp Hl; [rewrite app_nil_r; by destruct s|]. apply list.Forall_cons in Hl as [Hc Hl]. cbn [consputs].
  run (consputc_ok s c Hp Hc). rewrite IH by done. unfold set_uart. cbn. by rewrite <- app_assoc.
Qed.

Lemma puts_loop_ok m fuel : forall a l s, panicked s = false -> bytes l -> cstr m a l -> (length l < fuel)%nat ->
  puts_loop fuel m a s = Ret tt (set_uart (uart s ++ l) s).
Proof.
  induction fuel as [|fuel IH]; intros a l s Hp Hl Hc Hf; [lia|]. cbn [puts_loop]. unfold ld. destruct l as [|c l]; cbn [cstr] in Hc.
  - rewrite Hc. mstep. rewrite app_nil_r. by destruct s.
  - destruct Hc as (-> & Hn & Hc). mstep. rewrite (proj2 (Z.eqb_neq c 0) Hn). apply list.Forall_cons in Hl as [Hb Hl].
    run (consputc_ok s c Hp Hb). cbn [length] in Hf. rewrite (IH _ l) by (done || lia). unfold set_uart. cbn. by rewrite <- app_assoc.
Qed.

Lemma kdigits_len : length kdigits = 16%nat.
Proof. done. Qed.

Lemma kconvert_ok m buf0 c ap ap' t s :
  length buf0 = 16%nat -> panicked s = false -> bytes t -> kconv m c ap ap' t ->
  kconvert m buf0 c ap s = Ret ap' (set_uart (uart s ++ t) s).
Proof.
  intros Hbuf Hp Ht Hc. unfold kconvert. destruct Hc as [a ap t Hi|a ap t Hi|a ap t Ha Hi|a ap t Ha Hi|ap|ap|c ap Hn]; cbn [Z.eqb Pos.eqb va_arg].
  - rewrite (printint_text _ _ _ _ _ t) by (done || lia || apply s32_range). mstep. by run (consputs_ok t s Hp Ht).
  - rewrite (printint_text _ _ _ _ _ t) by (done || lia || apply s32_range). mstep. by run (consputs_ok t s Hp Ht).
  - rewrite (printptr_text _ _ t) by done. mstep. by run (consputs_ok t s Hp Ht).
  - rewrite (proj2 (Z.eqb_neq a 0) Ha). by run (puts_loop_ok m (str_fuel m) a t s Hp Ht Hi (cstr_fuel _ _ _ Hi)).
  - by run (consputs_ok null_text s Hp Ht).
  - by run (consputc_ok s 37 Hp ltac:(lia)).
  - repeat match goal with |- context [c =? ?k] => rewrite (proj2 (Z.eqb_neq c k)) by (intros ->; apply Hn; set_solver) end.
    apply list.Forall_cons in Ht as [_ Ht]. apply list.Forall_cons in Ht as [Hb _]. run (consputc_ok s 37 Hp ltac:(lia)).
    run (consputc_ok (set_uart (uart s ++ [37]) s) c Hp Hb). unfold ret, set_uart. cbn. by rewrite <- app_assoc.
Qed.

Lemma cstr_ld m fmt i l : cstr m (fmt + i) l -> ld m (fmt + i) = Some (match l with [] => 0 | c :: _ => c end).
Proof. unfold ld. destruct l; cbn [cstr]; [done|]. by intros (-> & _). Qed.

Lemma printf_loop_ok m buf0 fmt fuel : forall i l ap o s,
  length buf0 = 16%nat -> panicked s = false -> bytes o -> cstr m (fmt + i) l -> renders (kconv m) l ap o -> (length l < fuel)%nat ->
  printf_loop fuel m buf0 fmt i ap s = Ret tt (set_uart (uart s ++ o) s).
Proof.
  induction fuel as [|fuel IH]; intros i l ap o s Hbuf Hp Ho Hc Hr Hf; [lia|]. cbn [printf_loop]. rewrite (cstr_ld m fmt i l Hc). mstep.
  destruct Hr as [ap|c l ap o Hn Hr|ap|c l ap ap' t o Hv Hr]; cbn [cstr length] in *.
  - rewrite app_nil_r. by destruct s.
  - destruct Hc as (_ & Hz & Hc). rewrite (proj2 (Z.eqb_neq c 0) Hz), (proj2 (Z.eqb_neq c 37) Hn). cbn [negb]. apply list.Forall_cons in Ho as [Hb Ho].
    run (consputc_ok s c Hp Hb). rewrite (IH (i + 1) l ap o); [unfold set_uart; cbn; by rewrite <- app_assoc|done..| |done|lia].
    by replace (fmt + (i + 1)) with (fmt + i + 1) by lia.
  - destruct Hc as (_ & _ & Hc). cbn [Z.eqb Pos.eqb negb]. replace (fmt + i + 1) with (fmt + (i + 1)) in Hc by lia. unfold ld. rewrite Hc.
    rewrite app_nil_r. by destruct s.
  - destruct Hc as (_ & _ & Hc1 & Hz & Hc). cbn [Z.eqb Pos.eqb negb]. replace (fmt + i + 1) with (fmt + (i + 1)) in Hc1 by lia. unfold ld. rewrite Hc1. mstep.
    rewrite (proj2 (Z.eqb_neq c 0) Hz). apply Forall_app in Ho as [Ht Ho]. run (kconvert_ok m buf0 c ap ap' t s Hbuf Hp Ht Hv).
    rewrite (IH (i + 2) l ap' o); [unfold set_uart; cbn; by rewrite <- app_assoc|done..| |done|lia]. by replace (fmt + (i + 2)) with (fmt + i + 1 + 1) by lia.
Qed.

(** ** The user library's buffers *)

(** What has been printed to [fd]: the bytes written and those in the buffer. *)
Definition written (s : uio) (fd : Z) : list Z := concat ((fun w => if w.1 =? fd then w.2 else []) <$> write s).

Definition pending (s : uio) (fd : Z) : list Z :=
  match aget (putc_buf s) fd, aget (putc_index s) fd with
  | Some (Some b), Some i => take (Z.to_nat i) b
  | _, _ => []
  end.

Definition stream (s : uio) (fd : Z) : list Z := written s fd ++ pending s fd.

(** The buffers never fill up, and no complete line stays in one. *)
Record uio_ok (s : uio) : Prop := {
  uk_bufs : length (putc_buf s) = 100%nat;
  uk_idxs : length (putc_index s) = 100%nat;
  uk_buf : forall fd b, aget (putc_buf s) fd = Some (Some b) ->
    length b = 4096%nat /\ exists i, aget (putc_index s) fd = Some i /\ 0 <= i < 4096 /\ 10 ∉ take (Z.to_nat i) b
}.

Lemma aget_upd {A} (l : list A) fd x fd' :
  0 <= fd < Z.of_nat (length l) -> aget (<[Z.to_nat fd := x]> l) fd' = if fd' =? fd then Some x else aget l fd'.
Proof.
  intros Hfd. pose proof (aset_is_Some l fd x Hfd) as E. destruct (Z.eqb_spec fd' fd) as [->|Hne].
  - exact (aget_aset_eq _ _ _ _ E).
  - by apply (aget_aset_ne _ _ _ _ _ E).
Qed.

Lemma written_add fd l s fd' : written (add_write fd l s) fd' = written s fd' ++ (if fd =? fd' then l else []).
Proof. unfold written. cbn [add_write write]. rewrite fmap_app, concat_app. cbn. by rewrite app_nil_r. Qed.

(** The buffer is written and emptied. *)
Lemma written_flush fd l s fd' : written (set_index fd 0 (add_write fd l s)) fd' = written s fd' ++ (if fd =? fd' then l else []).
Proof. exact (written_add fd l s fd'). Qed.

Lemma pending_flush fd l s fd' : 0 <= fd < Z.of_nat (length (putc_index s)) ->
  pending (set_index fd 0 (add_write fd l s)) fd' = if fd' =? fd then [] else pending s fd'.
Proof.
  intros Hfd. unfold pending. cbn [set_index add_write putc_buf putc_index]. rewrite aget_upd by done. destruct (fd' =? fd); [|done].
  by repeat case_match.
Qed.

Section Buffers.
Context (fresh : list Z) (Hfresh : length fresh = 4096%nat).

(** The buffer of [fd], allocated if need be. *)
Lemma get_putc_buf_ok s fd : uio_ok s -> 0 <= fd < 100 ->
  exists b i s', get_putc_buf fresh fd s = Ret b s' /\ uio_ok s' /\ write s' = write s /\ (forall fd', pending s' fd' = pending s fd') /\
    aget (putc_buf s') fd = Some (Some b) /\ aget (putc_index s') fd = Some i /\ length b = 4096%nat /\ 0 <= i < 4096 /\ 10 ∉ take (Z.to_nat i) b.
Proof.
  intros Hok Hfd. pose proof Hok as [H1 H2 H3]. unfold get_putc_buf. mstep. destruct (aget (putc_buf s) fd) as [[b|]|] eqn:Eb.
  - destruct (H3 fd b Eb) as (Hl & i & Hi & Hr & Hn). exists b, i, s. mstep. split_and!; done || lia.
  - mstep. eexists fresh, 0, _. split; [done|]. cbn [set_index set_buf putc_buf putc_index write].
    split_and!; try done; try lia; [|intros fd'|rewrite aget_upd by lia; by rewrite Z.eqb_refl|rewrite aget_upd by lia; by rewrite Z.eqb_refl|by apply not_elem_of_nil].
    + split; cbn [set_index set_buf putc_buf putc_index]; rewrite ?length_insert; [done|done|]. intros fd' b'. rewrite !aget_upd by lia.
      destruct (Z.eqb_spec fd' fd) as [->|Hne]; [|apply H3]. intros [= <-]. split; [done|]. exists 0. split_and!; [done|lia|lia|by apply not_elem_of_nil].
    + unfold pending. cbn [set_index set_buf putc_buf putc_index]. rewrite !aget_upd by lia. destruct (Z.eqb_spec fd' fd) as [->|Hne]; [|done]. by rewrite Eb.
  - exfalso. unfold aget in Eb. rewrite decide_True in Eb by lia. apply lookup_ge_None in Eb. lia.
Qed.

Lemma putc_ok s fd c : uio_ok s -> 0 <= fd < 100 ->
  exists s', putc fresh fd c s = Ret tt s' /\ uio_ok s' /\ stream s' fd = stream s fd ++ [u8 c] /\ (forall fd', fd' <> fd -> stream s' fd' = stream s fd').
Proof.
  intros Hok Hfd. destruct (get_putc_buf_ok s fd Hok Hfd) as (b & i & s1 & E1 & [K1 K2 K3] & Hw & Hpd & Eb & Ei & Hl & Hi & Hn).
  unfold putc. run E1. mstep. rewrite Ei. mstep. rewrite aset_is_Some by lia. mstep. set (b' := <[Z.to_nat i := u8 c]> b). set (s2 := set_index fd (i + 1) (set_buf fd b' s1)).
  assert (Hb' : length b' = 4096%nat) by (unfold b'; by rewrite length_insert).
  assert (Htk : take (Z.to_nat (i + 1)) b' = take (Z.to_nat i) b ++ [u8 c]).
  { replace (Z.to_nat (i + 1)) with (S (Z.to_nat i)) by lia. unfold b'. rewrite (take_S_r _ _ (u8 c)) by (apply list_lookup_insert_eq; lia).
    by rewrite take_insert_ge by lia. }
  assert (Hpf : pending s1 fd = take (Z.to_nat i) b) by (unfold pending; by rewrite Eb, Ei).
  assert (Hst : forall fd', stream s fd' = written s1 fd' ++ pending s1 fd') by (intros fd'; unfold stream, written; by rewrite Hw, Hpd).
  assert (Hoth : forall (x : Z) fd', fd' <> fd -> pending (set_index fd x s2) fd' = pending s1 fd' /\ pending s2 fd' = pending s1 fd').
  { intros x fd' Hne. unfold pending, s2. cbn [set_index set_buf putc_buf putc_index]. rewrite !aget_upd by (rewrite ?length_insert; lia).
    by rewrite (proj2 (Z.eqb_neq fd' fd) Hne). }
  assert (Hok2 : forall j, 0 <= j < 4096 -> 10 ∉ take (Z.to_nat j) b' -> forall s3, putc_buf s3 = putc_buf s2 -> putc_index s3 = <[Z.to_nat fd := j]> (putc_index s1) -> uio_ok s3).
  { intros j Hj Hnj s3 A1 A2. split; rewrite ?A1, ?A2; unfold s2; cbn [set_index set_buf putc_buf putc_index]; rewrite ?length_insert; [done|done|].
    intros fd' b2. rewrite !aget_upd by lia. destruct (Z.eqb_spec fd' fd) as [->|Hne]; [|apply K3]. intros [= <-]. split; [done|]. exists j. split_and!; done || lia. }
  destruct ((u8 c =? 10) || (i + 1 =? PUTC_BUF_LEN)) eqn:Ec; mstep.
  - assert (Hi2 : 0 <= fd < Z.of_nat (length (putc_index s2))) by (unfold s2; cbn; rewrite length_insert; lia).
    eexists. split; [done|]. unfold stream. split_and!.
    + apply (Hok2 0); [lia|by apply not_elem_of_nil|done|]. cbn. by rewrite list_insert_insert_eq.
    + fold (stream s fd). rewrite Hst, Hpf, written_flush, pending_flush, !Z.eqb_refl, Htk, app_nil_r by done. by rewrite app_assoc.
    + intros fd' Hne. fold (stream s fd'). rewrite Hst, written_flush, pending_flush, (proj2 (Z.eqb_neq fd fd')), (proj2 (Z.eqb_neq fd' fd)), app_nil_r by done.
      f_equal. by apply (Hoth 0).
  - apply orb_false_iff in Ec as [Ec1%Z.eqb_neq Ec2%Z.eqb_neq]. unfold PUTC_BUF_LEN in Ec2. exists s2. split; [done|]. split_and!.
    + apply (Hok2 (i + 1)); [lia| |done|done]. rewrite Htk. apply not_elem_of_app. split; [done|]. intros Hx%list_elem_of_singleton. congruence.
    + unfold stream at 1. rewrite Hst, Hpf. replace (pending s2 fd) with (take (Z.to_nat (i + 1)) b').
      * rewrite Htk. by rewrite app_assoc.
      * unfold pending, s2. cbn [set_index set_buf putc_buf putc_index]. rewrite !aget_upd by lia. by rewrite Z.eqb_refl.
    + intros fd' Hne. unfold stream at 1. rewrite Hst. f_equal. by apply (Hoth 0).
Qed.

(** [l] is printed to [fd], and nothing to the others. *)
Record prints (s : uio) (fd : Z) (l : list Z) (s' : uio) : Prop := {
  pn_ok : uio_ok s';
  pn_out : stream s' fd = stream s fd ++ (u8 <$> l);
  pn_rest : forall fd', fd' <> fd -> stream s' fd' = stream s fd'
}.

Lemma prints_nil s fd : uio_ok s -> prints s fd [] s.
Proof. intros Hok. split; [done|by rewrite app_nil_r|done]. Qed.

Lemma prints_app s fd l1 s1 l2 s' : prints s fd l1 s1 -> prints s1 fd l2 s' -> prints s fd (l1 ++ l2) s'.
Proof.
  intros [A1 A2 A3] [B1 B2 B3]. split; [done|rewrite B2, A2, fmap_app; by rewrite app_assoc|]. intros fd' Hne. rewrite B3, A3 by done. done.
Qed.

Lemma putc_prints s fd c : uio_ok s -> 0 <= fd < 100 -> exists s', putc fresh fd c s = Ret tt s' /\ prints s fd [c] s'.
Proof. intros Hok Hfd. destruct (putc_ok s fd c Hok Hfd) as (s' & E & H1 & H2 & H3). exists s'. split; [done|]. by split. Qed.

Lemma uputs_ok fd l : forall s, uio_ok s -> 0 <= fd < 100 -> exists s', uputs fresh fd l s = Ret tt s' /\ prints s fd l s'.
Proof.
  induction l as [|c l IH]; intros s Hok Hfd; [exists s; split; [done|by apply prints_nil]|]. cbn [uputs].
  destruct (putc_prints s fd c Hok Hfd) as (s1 & E & Hp). run E. destruct (IH s1 (pn_ok _ _ _ _ Hp) Hfd) as (s' & -> & Hp').
  exists s'. split; [done|]. by eapply (prints_app _ _ [c]).
Qed.

Lemma uputs_loop_ok m fd fuel : forall a l s, uio_ok s -> 0 <= fd < 100 -> cstr m a l -> (length l < fuel)%nat ->
  exists s', uputs_loop fresh fuel m fd a s = Ret tt s' /\ prints s fd l s'.
Proof.
  induction fuel as [|fuel IH]; intros a l s Hok Hfd Hc Hf; [lia|]. cbn [uputs_loop]. unfold ld. destruct l as [|c l]; cbn [cstr length] in *.
  - rewrite Hc. mstep. exists s. split; [done|by apply prints_nil].
  - destruct Hc as (-> & Hn & Hc). mstep. rewrite (proj2 (Z.eqb_neq c 0) Hn). destruct (putc_prints s fd c Hok Hfd) as (s1 & E & Hp). run E.
    destruct (IH (a + 1) l s1 (pn_ok _ _ _ _ Hp) Hfd Hc ltac:(lia)) as (s' & -> & Hp'). exists s'. split; [done|]. by eapply (prints_app _ _ [c]).
Qed.

Lemma uconvert_ok m buf0 fd c ap ap' t s :
  length buf0 = 16%nat -> uio_ok s -> 0 <= fd < 100 -> uconv m c ap ap' t ->
  exists s', uconvert fresh m buf0 fd c ap s = Ret ap' s' /\ prints s fd t s'.
Proof.
  intros Hbuf Hok Hfd Hc. unfold uconvert, uprintint, uprintptr.
  destruct Hc as [a ap t Hi|a ap t Hi|a ap t Hi|a ap t Ha Hi|a ap t Ha Hi|ap|a ap|ap|c ap Hn]; cbn [Z.eqb Pos.eqb va_arg].
  1-3: rewrite (printint_text _ _ _ _ _ t) by (done || lia || apply s32_range); mstep; destruct (uputs_ok fd t s Hok Hfd) as (s' & E & Hp); run E; by exists s'.
  - rewrite (printptr_text _ _ t) by done. mstep. destruct (uputs_ok fd t s Hok Hfd) as (s' & E & Hp). run E. by exists s'.
  - rewrite (proj2 (Z.eqb_neq a 0) Ha). destruct (uputs_loop_ok m fd (str_fuel m) a t s Hok Hfd Hi (cstr_fuel _ _ _ Hi)) as (s' & E & Hp). run E. by exists s'.
  - destruct (uputs_ok fd null_text s Hok Hfd) as (s' & E & Hp). run E. by exists s'.
  - destruct (putc_prints s fd a Hok Hfd) as (s' & E & Hp). run E. by exists s'.
  - destruct (putc_prints s fd 37 Hok Hfd) as (s' & E & Hp). run E. by exists s'.
  - repeat match goal with |- context [c =? ?k] => rewrite (proj2 (Z.eqb_neq c k)) by (intros ->; apply Hn; set_solver) end.
    destruct (putc_prints s fd 37 Hok Hfd) as (s1 & E & Hp). run E. destruct (putc_prints s1 fd c (pn_ok _ _ _ _ Hp) Hfd) as (s' & E' & Hp'). run E'.
    exists s'. split; [done|]. by apply (prints_app _ _ [37] s1).
Qed.

Lemma vprintf_loop_ok m buf0 fd fmt fuel : forall i l ap o s,
  length buf0 = 16%nat -> uio_ok s -> 0 <= fd < 100 -> cstr m (fmt + i) l -> renders (uconv m) l ap o -> (length l < fuel)%nat ->
  exists s', vprintf_loop fresh fuel m buf0 fd fmt i 0 ap s = Ret tt s' /\ prints s fd o s'.
Proof.
  induction fuel as [fuel IH] using lt_wf_ind. intros i l ap o s Hbuf Hok Hfd Hc Hr Hf. destruct fuel as [|fuel]; [lia|]. cbn [vprintf_loop].
  rewrite (cstr_ld m fmt i l Hc). mstep. destruct Hr as [ap|c l ap o Hn Hr|ap|c l ap ap' t o Hv Hr]; cbn [cstr length] in *.
  - exists s. split; [done|by apply prints_nil].
  - destruct Hc as (_ & Hz & Hc). rewrite (proj2 (Z.eqb_neq c 0) Hz). cbn [Z.eqb]. rewrite (proj2 (Z.eqb_neq c 37) Hn).
    destruct (putc_prints s fd c Hok Hfd) as (s1 & E & Hp). run E. replace (fmt + i + 1) with (fmt + (i + 1)) in Hc by lia.
    destruct (IH fuel ltac:(lia) (i + 1) l ap o s1 Hbuf (pn_ok _ _ _ _ Hp) Hfd Hc Hr ltac:(lia)) as (s' & E' & Hp'). exists s'.
    split; [done|]. by apply (prints_app _ _ [c] s1).
  - destruct Hc as (_ & _ & Hc). cbn [Z.eqb Pos.eqb]. destruct fuel as [|fuel]; [lia|]. cbn [vprintf_loop].
    replace (fmt + i + 1) with (fmt + (i + 1)) in Hc by lia. unfold ld. rewrite Hc. mstep. exists s. split; [done|by apply prints_nil].
  - destruct Hc as (_ & _ & Hc1 & Hz & Hc). cbn [Z.eqb Pos.eqb]. destruct fuel as [|fuel]; [lia|]. cbn [vprintf_loop].
    replace (fmt + i + 1) with (fmt + (i + 1)) in Hc1 by lia. unfold ld at 1. rewrite Hc1. mstep. rewrite (proj2 (Z.eqb_neq c 0) Hz). cbn [Z.eqb].
    destruct (uconvert_ok m buf0 fd c ap ap' t s Hbuf Hok Hfd Hv) as (s1 & E & Hp). run E. replace (fmt + i + 1 + 1) with (fmt + (i + 1 + 1)) in Hc by lia.
    destruct (IH fuel ltac:(lia) (i + 1 + 1) l ap' o s1 Hbuf (pn_ok _ _ _ _ Hp) Hfd Hc Hr ltac:(lia)) as (s' & E' & Hp'). exists s'.
    split; [done|]. by apply (prints_app _ _ t s1).
Qed.

(** After [fflush] everything printed is written. *)
Lemma fflush_ok s fd : uio_ok s -> 0 <= fd < 100 ->
  exists s', fflush fresh fd s = Ret tt s' /\ prints s fd [] s' /\ written s' fd = stream s fd.
Proof.
  intros Hok Hfd. destruct (get_putc_buf_ok s fd Hok Hfd) as (b & i & s1 & E1 & [K1 K2 K3] & Hw & Hpd & Eb & Ei & Hl & Hi & Hn).
  unfold fflush. run E1. mstep. rewrite Ei. mstep. eexists. split; [done|].
  assert (Hpf : pending s1 fd = take (Z.to_nat i) b) by (unfold pending; by rewrite Eb, Ei).
  assert (Hst : forall fd', stream s fd' = written s1 fd' ++ pending s1 fd') by (intros fd'; unfold stream, written; by rewrite Hw, Hpd).
  split; [split|].
  - split; cbn [set_index add_write putc_buf putc_index]; rewrite ?length_insert; [done|done|]. intros fd' b'. rewrite aget_upd by lia.
    destruct (Z.eqb_spec fd' fd) as [->|Hne]; [|apply K3]. rewrite Eb. intros [= <-]. split; [done|]. exists 0. split_and!; [done|lia|lia|by apply not_elem_of_nil].
  - cbn [fmap list_fmap]. rewrite app_nil_r. unfold stream at 1. by rewrite written_flush, pending_flush, !Z.eqb_refl, Hst, Hpf, app_nil_r by lia.
  - intros fd' Hne. unfold stream at 1.
    by rewrite Hst, written_flush, pending_flush, (proj2 (Z.eqb_neq fd fd')), (proj2 (Z.eqb_neq fd' fd)), app_nil_r by (done || lia).
  - by rewrite written_flush, Z.eqb_refl, Hst, Hpf.
Qed.
End Buffers.

(** ** The claims *)

Lemma value_snoc b acc l c : value b acc (l ++ [c]) = value b acc l * b + (c - 48).
Proof. revert acc. induction l as [|x l IH]; intros acc; cbn [value app]; [done|]. apply IH. Qed.

Definition decimal_table (digits : list Z) : Prop := length digits = 16%nat /\ forall d, 0 <= d < 10 -> aget digits d = Some (48 + d).

Lemma decimal_value digits ds : decimal_table digits -> Forall (digit_of 10) ds ->
  value 10 0 (reverse (char_of digits <$> ds)) = number 10 ds /\ Forall (fun c => digit c = true) (reverse (char_of digits <$> ds)).
Proof.
  intros [_ Ht]. induction 1 as [|d ds Hd _ [IH1 IH2]]; [split; [done|constructor]|]. cbn [fmap list_fmap]. rewrite reverse_cons.
  assert (Hc : char_of digits d = 48 + d) by (unfold char_of; by rewrite Ht). unfold digit_of in Hd. split.
  - rewrite value_snoc, IH1, Hc. cbn [number]. lia.
  - apply Forall_app. split; [done|]. apply list.Forall_singleton. rewrite Hc. unfold digit. apply andb_true_iff. split; apply Z.leb_le; lia.
Qed.

Lemma decimal_tables : decimal_table kdigits /\ decimal_table udigits.
Proof.
  split; (split; [done|]); intros d Hd; assert (Hc : d = 0 \/ d = 1 \/ d = 2 \/ d = 3 \/ d = 4 \/ d = 5 \/ d = 6 \/ d = 7 \/ d = 8 \/ d = 9) by lia;
    by repeat (destruct Hc as [->|Hc]; [done|]); subst d.
Qed.

(** The number [printint] prints in base 10, with the digits of the kernel
    or of the user library, is read back by [atoi]; and [printint] never leaves
    its array of 16 characters, in base 10 and 16 and for every [int], the smallest
    included. *)
Theorem printint_atoi (digits buf0 : list Z) (xx base : Z) (sign : bool) :
  decimal_table digits -> length buf0 = 16%nat -> - 2 ^ 31 <= xx < 2 ^ 31 -> base = 10 \/ base = 16 ->
  exists t, printint digits buf0 xx base sign = Some t /\ int_text digits base sign xx t /\
    (base = 10 -> 0 <= xx < 2 ^ 31 - 48 -> forall m s, cstr m s t -> atoi s m = Some xx).
Proof.
  intros Ht Hbuf Hx Hb. destruct (printint_ok digits buf0 xx base sign) as (ds & Hn & Hlen & E); [lia|apply Ht|done|done|].
  eexists. split; [exact E|]. split; [by exists ds|]. intros -> Hp m s Hc. rewrite (proj2 (Z.ltb_ge xx 0)), andb_false_r in * by lia. cbn [app] in Hc.
  rewrite u32_small in Hn by lia. destruct Hn as [N1 N2 _ _]. destruct (decimal_value digits ds Ht N2) as [Hv Hf]. rewrite N1 in Hv. set (t := reverse _) in *.
  unfold atoi. rewrite <- Hv. pose proof (cstr_fuel _ _ _ Hc) as Hfu. assert (Ha : forall i x, t !! i = Some x -> m !! (s + Z.of_nat i) = Some x).
  { clear -Hc. revert s Hc. induction t as [|y t IH]; intros s Hc i x Hi; [done|]. destruct Hc as (Hy & _ & Hc). destruct i as [|i]; cbn in Hi.
    - injection Hi as <-. by rewrite Z.add_0_r.
    - rewrite <- (IH (s + 1) Hc i x Hi). f_equal. lia. }
  apply (atoi_loop_ok _ s 0 m t 0); try done; [|lia]. clear -Hc. revert s Hc. induction t as [|y t IH]; intros s Hc; [by rewrite Z.add_0_r|].
  destruct Hc as (_ & _ & Hc). rewrite <- (IH _ Hc). f_equal. cbn [length]. lia.
Qed.

Lemma printint_atoi_witness : exists t, printint udigits (replicate 16 0) 2024 10 true = Some t /\ atoi 100 (bytes_at 100 (t ++ [0])) = Some 2024.
Proof.
  destruct (printint_atoi udigits (replicate 16 0) 2024 10 true (proj2 decimal_tables) eq_refl ltac:(lia) ltac:(by left)) as (t & E & _ & Ha).
  exists t. split; [exact E|]. apply Ha; [reflexivity|lia|]. vm_compute in E. injection E as <-. vm_compute. intuition congruence.
Defined.

(** C36: The user library's [vprintf] prints to its file descriptor exactly the
    rendering of the format, after what was printed before; what it has not yet
    written with [write] is in the buffer, which holds less than its size and no
    complete line; and the output of the other descriptors stays the same. *)
Theorem vprintf_spec (fresh buf0 : list Z) (m : mem) (fd fmt : Z) (l ap o : list Z) (s : uio) :
  length fresh = 4096%nat -> length buf0 = 16%nat -> uio_ok s -> 0 <= fd < 100 -> cstr m fmt l -> renders (uconv m) l ap o ->
  exists s', vprintf fresh m buf0 fd fmt ap s = Ret tt s' /\ uio_ok s' /\ stream s' fd = stream s fd ++ (u8 <$> o) /\
    (forall fd', fd' <> fd -> stream s' fd' = stream s fd').
Proof.
  intros Hfr Hbuf Hok Hfd Hc Hr. unfold vprintf.
  destruct (vprintf_loop_ok fresh Hfr m buf0 fd fmt (str_fuel m) 0 l ap o s Hbuf Hok Hfd) as (s' & E & [P1 P2 P3]); [by rewrite Z.add_0_r|done|by eapply cstr_fuel|].
  exists s'. by split_and!.
Qed.

Definition uio0 : uio := {| putc_buf := replicate 100 None; putc_index := replicate 100 0; write := [] |}.

Lemma uio0_ok : uio_ok uio0.
Proof.
  split; [apply length_replicate|apply length_replicate|]. intros fd b Hb. exfalso. cbn [uio0 putc_buf] in Hb. apply aget_lookup in Hb.
  by apply lookup_replicate_1 in Hb as [? _].
Qed.

(** The format [x=%d] and the argument 7. *)
Lemma vprintf_spec_witness : exists s', vprintf (replicate 4096 0) (bytes_at 100 [120; 61; 37; 100; 0]) (replicate 16 0) 1 100 [7] uio0 = Ret tt s' /\
  stream s' 1 = [120; 61; 55].
Proof.
  destruct (vprintf_spec (replicate 4096 0) (replicate 16 0) (bytes_at 100 [120; 61; 37; 100; 0]) 1 100 [120; 61; 37; 100] [7] [120; 61; 55] uio0) as (s' & E & _ & Hs & _).
  - apply length_replicate.
  - reflexivity.
  - exact uio0_ok.
  - lia.
  - vm_compute. intuition congruence.
  - apply rn_char; [lia|]. apply rn_char; [lia|]. apply (rn_conv _ 100 [] [7] [] [55] []); [|constructor]. apply uc_d. exists [7].
    split; [|reflexivity]. split; [reflexivity|repeat constructor; lia|congruence|]. intros r Hr. destruct r as [|? [|]]; [reflexivity|discriminate Hr|discriminate Hr].
  - exists s'. split; [exact E|]. rewrite Hs. reflexivity.
Defined.

Lemma printf_ok (buf0 : list Z) (m : mem) (fmt : Z) (l ap o : list Z) (s : con) :
  length buf0 = 16%nat -> panicked s = false -> cx_wf (con_cx s) -> pr_lock ∉ held (con_cx s) -> fmt <> 0 -> bytes o ->
  cstr m fmt l -> renders (kconv m) l ap o ->
  printf m buf0 fmt ap s = Ret tt {| uart := uart s ++ o; panicked := false; pr_locking := pr_locking s;
    con_cx := if pr_locking s then touch (con_cx s) else con_cx s |}.
Proof.
  intros Hbuf Hp Hwf Hl Hf Ho Hc Hr. unfold printf, printf_locking. mstep. rewrite (proj2 (Z.eqb_neq fmt 0) Hf).
  assert (Hc0 : cstr m (fmt + 0) l) by (by rewrite Z.add_0_r).
  assert (Hloop : forall s', panicked s' = false -> printf_loop (str_fuel m) m buf0 fmt 0 ap s' = Ret tt (set_uart (uart s' ++ o) s')).
  { intros s' Hp'. apply (printf_loop_ok m buf0 fmt (str_fuel m) 0 l ap o s'); try done. by eapply cstr_fuel. }
  destruct (pr_locking s) eqn:El; unfold when.
  - run (acquire_ok pr_lock s Hl). set (s1 := set_cx _ s). run (Hloop s1 Hp).
    rewrite (release_ok pr_lock (con_cx s)) by (done || by rewrite locked_touch). unfold set_cx, set_uart. cbn. by rewrite Hp, El.
  - mstep. run (Hloop s Hp). unfold ret, set_uart. by rewrite Hp, El.
Qed.

(** The kernel's [printf] sends exactly the rendering of its format to the
    serial line, with its lock held unless a panic turned locking off, and leaves
    the lock and the interrupt state as they were. *)
Theorem printf_spec (buf0 : list Z) (m : mem) (fmt : Z) (l ap o : list Z) (s : con) :
  length buf0 = 16%nat -> panicked s = false -> cx_wf (con_cx s) -> pr_lock ∉ held (con_cx s) -> fmt <> 0 -> bytes o ->
  cstr m fmt l -> renders (kconv m) l ap o ->
  printf m buf0 fmt ap s = Ret tt {| uart := uart s ++ o; panicked := false; pr_locking := pr_locking s;
    con_cx := if pr_locking s then touch (con_cx s) else con_cx s |}.
Proof. apply printf_ok. Qed.

Lemma printf_spec_witness : exists s', printf (bytes_at 100 [104; 105; 0]) (replicate 16 0) 100 []
  {| uart := []; panicked := false; pr_locking := true; con_cx := {| noff := 0; intena := false; intr := true; held := []; mypid := 1; mykilled := false |} |} = Ret tt s' /\
  uart s' = [104; 105].
Proof.
  eexists. split; [apply (printf_spec (replicate 16 0) (bytes_at 100 [104; 105; 0]) 100 [104; 105] [] [104; 105])|reflexivity].
  - reflexivity.
  - reflexivity.
  - split; [reflexivity|split; [apply NoDup_nil_2|cbn; lia]].
  - cbn. apply not_elem_of_nil.
  - lia.
  - repeat constructor; lia.
  - vm_compute. intuition congruence.
  - apply rn_char; [lia|]. apply rn_char; [lia|]. constructor.
Defined.
