(* ===== verification/Console.v ===== *)
(** * kernel/console.c: the consoles

    Three consoles share the serial line; [cons] is the index of the one that
    gets the input.  Its buffer holds the lines that were completed, from [r] to
    [w], and the one that is being edited, from [w] to [e].  The dumps of the
    process table, the priority queues and the locks ([^P], [^Q], [^L]) print
    and are parameters here.  [fuel] bounds how often a call is woken up. *)

From S2P Require Import Prelude StringC Ring UserMem Printf.

Definition NBCONSOLES : Z := 3.
Definition INPUT_BUF : Z := 128.

(** [C(x)] *)
Definition Ctl (x : Z) : Z := x - 64.

Record cons_t := mkcons { cbuf : list Z; c_r : Z; c_w : Z; c_e : Z }.

Definition set_cbuf (v : list Z) (k : cons_t) : cons_t := mkcons v (c_r k) (c_w k) (c_e k).
Definition set_c_r (v : Z) (k : cons_t) : cons_t := mkcons (cbuf k) v (c_w k) (c_e k).
Definition set_c_w (v : Z) (k : cons_t) : cons_t := mkcons (cbuf k) (c_r k) v (c_e k).
Definition set_c_e (v : Z) (k : cons_t) : cons_t := mkcons (cbuf k) (c_r k) (c_w k) v.

(** The serial line and the thread, the consoles, and the memory of the process. *)
Record cst (U : Type) := mkcst {
  cdev : con;
  consoles : list cons_t;
  console_number : Z;
  cons : Z;
  cum : umem U
}.
Arguments mkcst {U} _ _ _ _ _.
Arguments cdev {U} _.
Arguments consoles {U} _.
Arguments console_number {U} _.
Arguments cons {U} _.
Arguments cum {U} _.

Definition set_cdev {U} (v : con) (s : cst U) : cst U := mkcst v (consoles s) (console_number s) (cons s) (cum s).
Definition set_consoles {U} (v : list cons_t) (s : cst U) : cst U := mkcst (cdev s) v (console_number s) (cons s) (cum s).
Definition set_console_number {U} (v : Z) (s : cst U) : cst U := mkcst (cdev s) (consoles s) v (cons s) (cum s).
Definition set_cons {U} (v : Z) (s : cst U) : cst U := mkcst (cdev s) (consoles s) (console_number s) v (cum s).
Definition set_cum {U} (v : umem U) (s : cst U) : cst U := mkcst (cdev s) (consoles s) (console_number s) (cons s) v.

#[export] Instance cst_ctx {U} : HasCtx (cst U).
Proof.
  refine {| cx := fun s => con_cx (cdev s); set_cx := fun c s => set_cdev (set_cx c (cdev s)) s |}; [done|by intros [[] ? ? ? ?]|done].
Defined.

Definition number_lock : lock := ("console_number_lock"%string, 0).
Definition cons_lock (i : Z) : lock := ("cons"%string, i).

(** The channels: [cons] and [&cons->r] of console [i]. *)
Definition cons_chan (i : Z) : Z := 2 * i.
Definition cons_r_chan (i : Z) : Z := 2 * i + 1.

Section Console.
Context {U : Type} {HU : UserMem U}.
Context (procdump priodump dump_locks : M con unit) (km : mem) (switched : Z) (digits : list Z).

Abbreviation K := (M (cst U)).

Definition dev {A} (m : M con A) : K A := zoom cdev set_cdev m.
Definition umemk {A} (m : M (umem U) A) : K A := zoom cum set_cum m.
Definition getc (i : Z) : K cons_t := fun s => unwrap (aget (consoles s) i) s.
Definition setc (i : Z) (k : cons_t) : K unit := fun s => (l <- unwrap (aset (consoles s) i k) ;; modify (set_consoles l)) s.

(** [while(console_number != f->minor - 1) sleep(cons, &console_number_lock);] *)
Fixpoint wait_turn (fuel : nat) (i : Z) : K unit :=
  n <- gets console_number ;;
  if n =? i then ret tt else
  sleep_on (cons_chan i) number_lock ;;;
  match fuel with
  | O => nofuel
  | S fuel => wait_turn fuel i
  end.

Fixpoint consolewrite_loop (m : nat) (user_src : bool) (src i : Z) : K unit :=
  match m with
  | O => ret tt
  | S m =>
      r <- umemk (either_copyin user_src (u64 (src + i)) 1) ;;
      if fst r =? -1 then ret tt else
      c <- unwrap (aget (snd r) 0) ;;
      dev (consputc c) ;;;
      consolewrite_loop m user_src src (i + 1)
  end.

Definition consolewrite (fuel : nat) (minor : Z) (user_src : bool) (src n : Z) : K Z :=
  let i := minor - 1 in
  acquire number_lock ;;;
  wait_turn fuel i ;;;
  release number_lock ;;;
  acquire (cons_lock i) ;;;
  consolewrite_loop (Z.to_nat n) user_src src 0 ;;;
  release (cons_lock i) ;;;
  ret n.

(** [release(&cons->lock); return target - n;] *)
Definition consoleread_end (i target n : Z) : K Z :=
  release (cons_lock i) ;;;
  ret (s32 (target - n)).

(** The loop with [n] bytes to go; [fuel] bounds the times it waits for input. *)
Fixpoint consoleread_loop (fuel : nat) : nat -> Z -> bool -> Z -> Z -> K Z :=
  fix rounds m i user_dst target dst :=
    match m with
    | O => consoleread_end i target 0
    | S m' =>
        let n := Z.of_nat m in
        k <- getc i ;;
        if c_r k =? c_w k then
          kd <- gets (fun s => mykilled (cx s)) ;;
          if (kd : bool) then release (cons_lock i) ;;; ret (-1) else
          sleep_on (cons_r_chan i) (cons_lock i) ;;;
          match fuel with
          | O => nofuel
          | S fuel => consoleread_loop fuel m i user_dst target dst
          end
        else
        c <- unwrap (aget (cbuf k) (c_r k mod INPUT_BUF)) ;;
        setc i (set_c_r (u32 (c_r k + 1)) k) ;;;
        if c =? Ctl 68 then
          when (u32 n <? target)
            (k <- getc i ;; setc i (set_c_r (u32 (c_r k - 1)) k)) ;;;
          consoleread_end i target n
        else
        r <- umemk (either_copyout user_dst dst [c]) ;;
        if r =? -1 then consoleread_end i target n else
        if c =? 10 then consoleread_end i target (n - 1) else
        rounds m' i user_dst target (u64 (dst + 1))
    end.

Definition consoleread (fuel : nat) (minor : Z) (user_dst : bool) (dst n : Z) : K Z :=
  let target := u32 n in
  let i := minor - 1 in
  acquire number_lock ;;;
  wait_turn fuel i ;;;
  release number_lock ;;;
  acquire (cons_lock i) ;;;
  if n <=? 0 then consoleread_end i target n else
  consoleread_loop fuel (Z.to_nat n) i user_dst target dst.

(** [^U]: at most the whole buffer is erased. *)
Fixpoint kill_line (m : nat) (i : Z) : K unit :=
  match m with
  | O => nofuel
  | S m =>
      k <- getc i ;;
      if c_e k =? c_w k then ret tt else
      c <- unwrap (aget (cbuf k) (u32 (c_e k - 1) mod INPUT_BUF)) ;;
      if c =? 10 then ret tt else
      setc i (set_c_e (u32 (c_e k - 1)) k) ;;;
      dev (consputc BACKSPACE) ;;;
      kill_line m i
  end.

Definition store_char (c i : Z) : K unit :=
  k <- getc i ;;
  if negb (c =? 0) && (u32 (c_e k - c_r k) <? INPUT_BUF) then
    let c := if c =? 13 then 10 else c in
    dev (consputc c) ;;;
    b <- unwrap (aset (cbuf k) (c_e k mod INPUT_BUF) (u8 c)) ;;
    let k := set_c_e (u32 (c_e k + 1)) (set_cbuf b k) in
    setc i k ;;;
    if (c =? 10) || (c =? Ctl 68) || (c_e k =? u32 (c_r k + INPUT_BUF)) then
      setc i (set_c_w (c_e k) k) ;;;
      wakeup_on (cons_r_chan i)
    else ret tt
  else ret tt.

Definition switch_console : K unit :=
  acquire number_lock ;;;
  old <- gets cons ;;
  n <- gets console_number ;;
  let n := (n + 1) mod NBCONSOLES in
  modify (set_console_number n) ;;;
  modify (set_cons n) ;;;
  acquire (cons_lock n) ;;;
  release (cons_lock old) ;;;
  wakeup_on (cons_chan n) ;;;
  dev (printf km digits switched [n]) ;;;
  release number_lock.

Definition consoleintr (c : Z) : K unit :=
  i <- gets cons ;;
  acquire (cons_lock i) ;;;
  (if c =? Ctl 80 then dev procdump
   else if c =? Ctl 81 then dev priodump
   else if c =? Ctl 76 then dev dump_locks
   else if c =? Ctl 85 then kill_line (Z.to_nat (INPUT_BUF + 1)) i
   else if c =? Ctl 83 then switch_console
   else if (c =? Ctl 72) || (c =? 127) then
     k <- getc i ;;
     if c_e k =? c_w k then ret tt else
     setc i (set_c_e (u32 (c_e k - 1)) k) ;;;
     dev (consputc BACKSPACE)
   else store_char c i) ;;;
  i <- gets cons ;;
  release (cons_lock i).
End Console.
