(* ===== verification/ConsoleSpec.v ===== *)
(** * The line discipline of the console

    The input of a console is the text of the completed lines and the line that
    is being edited.  A key changes the one that is being edited, or completes
    it; a read takes from the completed lines, a line at most. *)

From S2P Require Import Prelude StringC Ring UserMem Printf PrintfSpec Console.

(** The buffer holds the completed text [comm] and the line [edit]. *)
Record cinv (k : cons_t) (comm edit : list Z) : Prop := {
  cv_ring : ring INPUT_BUF (cbuf k) (c_r k) (comm ++ edit);
  cv_w : c_w k = u32 (c_r k + Z.of_nat (length comm));
  cv_e : c_e k = u32 (c_r k + Z.of_nat (length (comm ++ edit)));
  cv_r : 0 <= c_r k < 2 ^ 32;
  cv_line : 10 ∉ edit
}.

Lemma INPUT_BUF_pos : 0 < INPUT_BUF.
Proof. done. Qed.

Lemma INPUT_BUF_div : (INPUT_BUF | 2 ^ 32).
Proof. by exists (2 ^ 25). Qed.

Lemma cinv_len k comm edit : cinv k comm edit -> Z.of_nat (length (comm ++ edit)) <= INPUT_BUF.
Proof. intros [Hr _ _ _ _]. apply Hr. Qed.

Lemma u32_cancel r a b : 0 <= a <= INPUT_BUF -> 0 <= b <= INPUT_BUF -> u32 (r + a) = u32 (r + b) <-> a = b.
Proof. unfold u32, INPUT_BUF. intros Ha Hb. split; [intros He; dlia|by intros ->]. Qed.

Lemma cinv_no_edit k comm edit : cinv k comm edit -> (c_e k =? c_w k) = bool_decide (edit = []).
Proof.
  intros Hk. pose proof (cinv_len k comm edit Hk) as Hl. destruct Hk as [_ Hw He _ _]. rewrite Hw, He. rewrite length_app in *.
  apply eq_true_iff_eq. rewrite Z.eqb_eq, bool_decide_eq_true, u32_cancel by lia. destruct edit; cbn [length]; [split; [done|lia]|split; [lia|done]].
Qed.

Lemma cinv_no_comm k comm edit : cinv k comm edit -> (c_r k =? c_w k) = bool_decide (comm = []).
Proof.
  intros Hk. pose proof (cinv_len k comm edit Hk) as Hl. destruct Hk as [_ Hw _ Hr _]. rewrite Hw. rewrite length_app in Hl. unfold INPUT_BUF in Hl.
  apply eq_true_iff_eq. rewrite Z.eqb_eq, bool_decide_eq_true. pose proof (counters_eq (c_r k) (Z.of_nat (length comm)) ltac:(lia) Hr) as Hc.
  split; [intros E; symmetry in E; apply Hc in E; destruct comm; [done|cbn in E; lia]|]. intros ->. symmetry. by apply Hc.
Qed.

Lemma cinv_room k comm edit : cinv k comm edit -> u32 (c_e k - c_r k) = Z.of_nat (length (comm ++ edit)).
Proof. intros Hk. pose proof (cinv_len k comm edit Hk) as Hl. rewrite (cv_e _ _ _ Hk). apply counters_diff. unfold INPUT_BUF in Hl. lia. Qed.

(** The last byte of the line is erased. *)
Lemma cinv_erase k comm edit x : cinv k comm (edit ++ [x]) ->
  aget (cbuf k) (u32 (c_e k - 1) mod INPUT_BUF) = Some x /\ x <> 10 /\ cinv (set_c_e (u32 (c_e k - 1)) k) comm edit.
Proof.
  intros [Hr Hw He Hc Hl]. assert (Ee : u32 (c_e k - 1) = u32 (c_r k + Z.of_nat (length (comm ++ edit)))).
  { rewrite He. unfold u32. rewrite Zminus_mod_idemp_l. f_equal. rewrite !length_app. cbn. lia. }
  rewrite Ee. rewrite app_assoc in Hr. split_and!.
  - by apply (ring_last INPUT_BUF INPUT_BUF_pos INPUT_BUF_div).
  - intros ->. apply Hl, elem_of_app. right. by apply list_elem_of_singleton.
  - split; cbn; [by eapply ring_unpush|done|done|done|]. intros H10. apply Hl, elem_of_app. by left.
Qed.

(** A byte is added to the line. *)
Lemma cinv_add k comm edit c : cinv k comm edit -> Z.of_nat (length (comm ++ edit)) < INPUT_BUF ->
  exists b, aset (cbuf k) (c_e k mod INPUT_BUF) c = Some b /\
    let k' := set_c_e (u32 (c_e k + 1)) (set_cbuf b k) in
    (c_e k' =? u32 (c_r k' + INPUT_BUF)) = bool_decide (Z.of_nat (length (comm ++ edit)) + 1 = INPUT_BUF) /\
    (c <> 10 -> cinv k' comm (edit ++ [c])) /\ cinv (set_c_w (c_e k') k') (comm ++ edit ++ [c]) [].
Proof.
  intros [Hr Hw He Hc Hl] Hlen. rewrite He. destruct (ring_push INPUT_BUF INPUT_BUF_pos INPUT_BUF_div _ _ _ c Hr Hlen) as (b & E & Hb). exists b. split; [done|].
  assert (Ee : u32 (u32 (c_r k + Z.of_nat (length (comm ++ edit))) + 1) = u32 (c_r k + Z.of_nat (length (comm ++ edit ++ [c])))).
  { unfold u32. rewrite Zplus_mod_idemp_l. f_equal. rewrite !length_app. cbn. lia. }
  cbn. rewrite Ee. rewrite <- app_assoc in Hb. split_and!.
  - apply eq_true_iff_eq. rewrite Z.eqb_eq, bool_decide_eq_true, u32_cancel; rewrite !length_app in *; cbn; unfold INPUT_BUF in *; lia.
  - intros H10. split; cbn; try done. rewrite elem_of_app, list_elem_of_singleton. by intros [?|?].
  - split; cbn; rewrite ?app_nil_r; try done. apply not_elem_of_nil.
Qed.

(** The first byte of the completed text is taken. *)
Lemma cinv_take k x comm edit : cinv k (x :: comm) edit ->
  aget (cbuf k) (c_r k mod INPUT_BUF) = Some x /\ cinv (set_c_r (u32 (c_r k + 1)) k) comm edit.
Proof.
  intros [Hr Hw He Hc Hl]. destruct (ring_pop INPUT_BUF INPUT_BUF_pos INPUT_BUF_div _ _ _ _ Hr) as [Ha Hr']. rewrite u32_small in Ha by done.
  split; [done|]. split; cbn; [by apply ring_u32; [done|apply INPUT_BUF_div|]| | |apply u32_range|done].
  - rewrite Hw. cbn [length]. unfold u32. rewrite Zplus_mod_idemp_l. f_equal. lia.
  - rewrite He. cbn [app length]. unfold u32. rewrite Zplus_mod_idemp_l. f_equal. lia.
Qed.

(** ** What a read takes

    The bytes of a read of [m] bytes: a line at most, up to a [^D]. *)

Fixpoint line_of (m : nat) (l : list Z) : list Z :=
  match m, l with
  | S m, c :: l => if c =? Ctl 68 then [] else if c =? 10 then [10] else c :: line_of m l
  | _, _ => []
  end.

(** ** What a key does *)

Definition erased (n : nat) : list Z := concat (replicate n [8; 32; 8]).

Definition eol (c : Z) : bool := (c =? 10) || (c =? Ctl 68).

(** The completed text, the line and the echo. *)
Definition key (c : Z) (comm edit : list Z) : list Z * list Z * list Z :=
  if c =? Ctl 85 then (comm, [], erased (length edit))
  else if (c =? Ctl 72) || (c =? 127) then (comm, removelast edit, if edit is [] then [] else erased 1)
  else if (c =? 0) || (INPUT_BUF <=? Z.of_nat (length (comm ++ edit))) then (comm, edit, [])
  else
    let c := if c =? 13 then 10 else c in
    if eol c || (Z.of_nat (length (comm ++ edit)) + 1 =? INPUT_BUF) then (comm ++ edit ++ [c], [], [c]) else (comm, edit ++ [c], [c]).

Section ConsoleSpec.
Context {U : Type} {HU : UserMem U}.
Context (procdump priodump dump_locks : M con unit) (km : mem) (switched : Z) (digits : list Z).

Abbreviation consoleintr := (consoleintr procdump priodump dump_locks km switched digits).

(** The state with console [i] replaced and [o] printed. *)
Definition upd (i : Z) (k : cons_t) (o : list Z) (s : cst U) : cst U :=
  set_consoles (<[Z.to_nat i := k]> (consoles s)) (set_cdev (set_uart (uart (cdev s) ++ o) (cdev s)) s).

Lemma getc_ok i k (s : cst U) : aget (consoles s) i = Some k -> getc i s = Ret k s.
Proof. intros E. unfold getc. by rewrite E. Qed.

Lemma setc_ok i k k' (s : cst U) : aget (consoles s) i = Some k -> setc i k' s = Ret tt (upd i k' [] s).
Proof.
  intros Hk%aget_Some_lt. unfold setc. rewrite aset_is_Some by done. unfold upd. rewrite app_nil_r. destruct s as [[] ? ? ? ?]. done.
Qed.

Lemma upd_get i k o (s : cst U) k0 : aget (consoles s) i = Some k0 -> aget (consoles (upd i k o s)) i = Some k.
Proof. intros Hk%aget_Some_lt. cbn. rewrite aget_insert by done. by rewrite decide_True. Qed.

Lemma upd_upd i k k' o o' (s : cst U) : upd i k' o' (upd i k o s) = upd i k' (o ++ o') s.
Proof. unfold upd, set_consoles, set_cdev, set_uart. cbn. by rewrite list_insert_insert_eq, app_assoc. Qed.

Lemma upd_same i k (s : cst U) : aget (consoles s) i = Some k -> upd i k [] s = s.
Proof. intros Hk%aget_lookup. unfold upd. rewrite list_insert_id by done. rewrite app_nil_r. by destruct s as [[] ? ? ? ?]. Qed.

Lemma upd_set_cx i k o c (s : cst U) : upd i k o (set_cx c s) = set_cx c (upd i k o s).
Proof. done. Qed.

Definition echo (c : Z) : list Z := if c =? BACKSPACE then [8; 32; 8] else [u8 c].

Lemma dev_putc c i k o (s : cst U) : panicked (cdev s) = false ->
  dev (consputc c) (upd i k o s) = Ret tt (upd i k (o ++ echo c) s).
Proof.
  intros Hp. unfold dev. assert (E : consputc c (cdev (upd i k o s)) = Ret tt (set_uart (uart (cdev s) ++ o ++ echo c) (cdev s))).
  { unfold consputc, echo. mstep. cbn. rewrite Hp. destruct (c =? BACKSPACE); unfold uartputc; mstep; unfold modify, set_uart; cbn; by rewrite <- !app_assoc. }
  rewrite (zoom_ret _ _ _ _ _ _ E). done.
Qed.

Lemma kill_line_ok i comm edit : forall m k o s, panicked (cdev s) = false -> aget (consoles s) i = Some k -> cinv k comm edit -> (length edit < m)%nat ->
  exists k', kill_line m i (upd i k o s) = Ret tt (upd i k' (o ++ erased (length edit)) s) /\ cinv k' comm [].
Proof.
  induction edit as [|x edit IH] using rev_ind; intros m k o s Hp Hk Hc Hm; (destruct m as [|m]; [lia|]); cbn [kill_line]; run (getc_ok i k _ (upd_get i k o s k Hk));
    rewrite (cinv_no_edit k _ _ Hc).
  - exists k. by rewrite app_nil_r.
  - rewrite bool_decide_eq_false_2 by (by destruct edit). destruct (cinv_erase k comm edit x Hc) as (Ha & Hx & Hc'). rewrite Ha. mstep. rewrite (proj2 (Z.eqb_neq x 10) Hx).
    run (setc_ok i k (set_c_e (u32 (c_e k - 1)) k) _ (upd_get i k o s k Hk)). rewrite upd_upd, app_nil_r. set (k1 := set_c_e _ k).
    assert (Hk1 : aget (consoles (upd i k1 [] s)) i = Some k1) by (by eapply upd_get).
    run (dev_putc BACKSPACE i k1 o s Hp). change (echo BACKSPACE) with [8; 32; 8]. rewrite length_app in Hm. cbn [length] in Hm.
    destruct (IH m k1 (o ++ [8; 32; 8]) (upd i k1 [] s)) as (k' & E' & Hk'); [done|done|done|lia|]. rewrite !upd_upd in E'. cbn [app] in E'. exists k'. split; [|done].
    rewrite E'. rewrite length_app, Nat.add_comm, <- app_assoc. done.
Qed.

Lemma store_char_ok c i k comm edit s : panicked (cdev s) = false -> aget (consoles s) i = Some k -> cinv k comm edit -> 0 <= c < 256 ->
  c <> Ctl 85 -> c <> Ctl 72 -> c <> 127 ->
  exists k', store_char c i s = Ret tt (upd i k' (key c comm edit).2 s) /\ cinv k' (key c comm edit).1.1 (key c comm edit).1.2.
Proof.
  intros Hp Hk Hc Hb H1 H2 H3. unfold store_char, key. run (getc_ok i k s Hk). rewrite (cinv_room k _ _ Hc).
  rewrite (proj2 (Z.eqb_neq _ _) H1), (proj2 (Z.eqb_neq _ _) H2), (proj2 (Z.eqb_neq _ _) H3). cbn [orb].
  destruct ((c =? 0) || (INPUT_BUF <=? _)) eqn:E0.
  { replace (negb (c =? 0) && (_ <? INPUT_BUF)) with false by (symmetry; revert E0; destruct (c =? 0); [done|]; cbn; intros ?%Z.leb_le; apply Z.ltb_ge; lia).
    exists k. split; [by rewrite upd_same|done]. }
  apply orb_false_iff in E0 as [E0 Hroom%Z.leb_gt]. rewrite E0, (proj2 (Z.ltb_lt _ _) Hroom). cbn [negb andb]. set (c1 := if c =? 13 then 10 else c).
  assert (Hc1 : 0 <= c1 < 256) by (unfold c1; destruct (c =? 13); lia). assert (Eu : u8 c1 = c1) by (by apply Z.mod_small).
  assert (Ee : echo c1 = [c1]) by (unfold echo; rewrite Eu, (proj2 (Z.eqb_neq c1 BACKSPACE)); [done|unfold BACKSPACE; lia]).
  pose proof (dev_putc c1 i k [] s Hp) as Ed. rewrite (upd_same i k s Hk) in Ed. run Ed. cbn [app]. rewrite Ee, Eu. destruct (cinv_add k comm edit c1 Hc Hroom) as (b & E & Hfull & Hadd & Hcom).
  rewrite E. mstep. cbv zeta in *. set (k1 := set_c_e (u32 (c_e k + 1)) (set_cbuf b k)) in *.
  run (setc_ok i k k1 _ (upd_get i k [c1] s k Hk)). rewrite upd_upd, app_nil_r, Hfull. unfold eol.
  destruct ((c1 =? 10) || (c1 =? Ctl 68)) eqn:Eeol; cbn [orb].
  - run (setc_ok i k1 (set_c_w (c_e k1) k1) _ (upd_get i k1 [c1] s k Hk)). rewrite upd_upd. unfold wakeup_on. by eexists.
  - apply orb_false_iff in Eeol as [H10%Z.eqb_neq _]. destruct (Z.eqb_spec (Z.of_nat (length (comm ++ edit)) + 1) INPUT_BUF) as [Hl|Hl].
    + rewrite bool_decide_eq_true_2 by done. run (setc_ok i k1 (set_c_w (c_e k1) k1) _ (upd_get i k1 [c1] s k Hk)). rewrite upd_upd. unfold wakeup_on. by eexists.
    + rewrite bool_decide_eq_false_2 by done. exists k1. split; [done|by apply Hadd].
Qed.

(** The keys that print a table. *)
Definition dump_key (c : Z) : bool := (c =? Ctl 80) || (c =? Ctl 81) || (c =? Ctl 76).

(** A dump prints, and changes nothing else. *)
Definition prints (m : M con unit) : Prop := forall s, panicked s = false -> exists o, m s = Ret tt (set_uart (uart s ++ o) s).

Lemma dev_prints m i k s : prints m -> panicked (cdev s) = false -> aget (consoles s) i = Some k -> exists o, dev m s = Ret tt (upd i k o s).
Proof.
  intros Hm Hp Hk. destruct (Hm (cdev s) Hp) as [o E]. exists o. unfold dev. rewrite (zoom_ret _ _ _ _ _ _ E). unfold upd.
  rewrite list_insert_id by (by apply aget_lookup). by destruct s as [[] ? ? ? ?].
Qed.

Lemma backspace_ok i k comm edit s : panicked (cdev s) = false -> aget (consoles s) i = Some k -> cinv k comm edit ->
  exists k', (k <- getc i ;; if c_e k =? c_w k then ret tt else setc i (set_c_e (u32 (c_e k - 1)) k) ;;; dev (consputc BACKSPACE)) s =
    Ret tt (upd i k' (if edit is [] then [] else erased 1) s) /\ cinv k' comm (removelast edit).
Proof.
  intros Hp Hk Hc. run (getc_ok i k s Hk). rewrite (cinv_no_edit k _ _ Hc). destruct edit as [|x edit _] using rev_ind.
  - exists k. by rewrite upd_same.
  - rewrite bool_decide_eq_false_2 by (by destruct edit). destruct (cinv_erase k comm edit x Hc) as (_ & _ & Hc'). set (k1 := set_c_e _ k) in *.
    run (setc_ok i k k1 s Hk). rewrite (dev_putc BACKSPACE i k1 [] s Hp). exists k1. rewrite removelast_last. split; [by destruct edit|done].
Qed.

Lemma release_cons c i (s : cst U) : cx_wf c -> cons_lock i ∉ held c -> cx s = locked_cx (cons_lock i) c ->
  release (cons_lock i) s = Ret tt (set_cx (touch c) s).
Proof. intros Hw Hl Hs. apply release_ok; [done|done|]. by rewrite locked_touch. Qed.

(** C40: a key typed at the console changes the line that is being edited as the
    line discipline says: a printable byte is added and echoed, backspace takes
    the last byte back and [^U] the whole line, with an erasing echo for each
    byte, and a newline (a carriage return is one), [^D] or a full buffer
    completes the line.  A key the buffer has no room for is dropped.  The
    completed lines, the other consoles and the locks stay as they are; the keys
    that print a table only print. *)
Theorem consoleintr_spec c (s : cst U) k comm edit :
  prints procdump -> prints priodump -> prints dump_locks ->
  cx_wf (cx s) -> cons_lock (cons s) ∉ held (cx s) -> panicked (cdev s) = false ->
  aget (consoles s) (cons s) = Some k -> cinv k comm edit -> 0 <= c < 256 -> c <> Ctl 83 ->
  exists k' o, consoleintr c s = Ret tt (set_cx (touch (cx s)) (upd (cons s) k' o s)) /\
    if dump_key c then cinv k' comm edit else cinv k' (key c comm edit).1.1 (key c comm edit).1.2 /\ o = (key c comm edit).2.
Proof.
  intros Hd1 Hd2 Hd3 Hw Hl Hp Hk Hc Hb HS. unfold Console.consoleintr. mstep. run (acquire_ok (cons_lock (cons s)) s Hl). set (s1 := set_cx _ s).
  assert (Hk1 : aget (consoles s1) (cons s) = Some k) by done. set (body := if c =? Ctl 80 then _ else _).
  assert (Hbody : exists k' o, body s1 = Ret tt (upd (cons s) k' o s1) /\
    if dump_key c then cinv k' comm edit else cinv k' (key c comm edit).1.1 (key c comm edit).1.2 /\ o = (key c comm edit).2).
  { unfold body, dump_key.
    destruct (Z.eqb_spec c (Ctl 80)) as [->|H80]; [destruct (dev_prints procdump (cons s) k s1 Hd1 Hp Hk1) as [o E]; by exists k, o|].
    destruct (Z.eqb_spec c (Ctl 81)) as [->|H81]; [destruct (dev_prints priodump (cons s) k s1 Hd2 Hp Hk1) as [o E]; by exists k, o|].
    destruct (Z.eqb_spec c (Ctl 76)) as [->|H76]; [destruct (dev_prints dump_locks (cons s) k s1 Hd3 Hp Hk1) as [o E]; by exists k, o|]. cbn [orb].
    destruct (Z.eqb_spec c (Ctl 85)) as [->|H85].
    { pose proof (cinv_len k comm edit Hc) as Hlen. rewrite length_app in Hlen.
      destruct (kill_line_ok (cons s) comm edit (Z.to_nat (INPUT_BUF + 1)) k [] s1 Hp Hk1 Hc) as (k' & E & Hk'); [lia|].
      rewrite upd_same in E by done. by exists k', (erased (length edit)). }
    rewrite (proj2 (Z.eqb_neq c (Ctl 83)) HS). destruct ((c =? Ctl 72) || (c =? 127)) eqn:E72.
    { destruct (backspace_ok (cons s) k comm edit s1 Hp Hk1 Hc) as (k' & E & Hk'). exists k', (if edit is [] then [] else erased 1).
      unfold key. rewrite (proj2 (Z.eqb_neq c (Ctl 85)) H85), E72. by split_and!. }
    apply orb_false_iff in E72 as [H72%Z.eqb_neq H127%Z.eqb_neq].
    destruct (store_char_ok c (cons s) k comm edit s1) as (k' & E & Hk'); try done. exists k', (key c comm edit).2. by split_and!. }
  destruct Hbody as (k' & o & E & Hk'). exists k', o. split; [|done]. run E. mstep. rewrite (release_cons (cx s) (cons s)); done.
Qed.

(** [^S] gives the keyboard to the next console, and says so; the lock of the
    old console is released and that of the new one was taken. *)
Theorem consoleintr_switch (s : cst U) fmt o :
  let c := cx s in let n := console_number s in let n' := (n + 1) mod NBCONSOLES in
  cx_wf c -> (forall i, cons_lock i ∉ held c) -> number_lock ∉ held c -> pr_lock ∉ held c -> cons s = n -> 0 <= n < NBCONSOLES ->
  panicked (cdev s) = false -> length digits = 16%nat -> switched <> 0 -> cstr km switched fmt -> renders (kconv km) fmt [n'] o -> bytes o ->
  consoleintr (Ctl 83) s = Ret tt (set_cx (touch c) (set_cons n' (set_console_number n' (set_cdev (set_uart (uart (cdev s) ++ o) (cdev s)) s)))).
Proof.
  intros c n n' Hw Hc Hnl Hpl Hn Hr Hp Hd Hsw Hstr Hren Ho. assert (Hne : n' <> n) by (unfold n', NBCONSOLES in *; dlia).
  set (ln := cons_lock n). set (ln' := cons_lock n'). assert (Hll : ln' <> ln) by (intros [=]; done).
  assert (E1 : acquire ln s = Ret tt (set_cx (with_locks [ln] c) s)).
  { by rewrite (acquire_ok ln s (Hc n)). }
  unfold Console.consoleintr. mstep. rewrite Hn. fold ln. run E1. change (Ctl 83 =? Ctl 80) with false. change (Ctl 83 =? Ctl 81) with false.
  change (Ctl 83 =? Ctl 76) with false. change (Ctl 83 =? Ctl 85) with false. change (Ctl 83 =? Ctl 83) with true. cbv iota.
  set (s1 := set_cx (with_locks [ln] c) s). set (s2 := set_cx (with_locks [number_lock; ln] c) s).
  assert (E2 : acquire number_lock s1 = Ret tt s2) by (rewrite (acquire_with number_lock [ln] c s1); [by unfold s1; rewrite set_cx_twice|done|done|set_solver|done]).
  set (s3 := set_cons n' (set_console_number n' (set_cx (with_locks [ln'; number_lock; ln] c) s))).
  assert (E3 : acquire ln' (set_cons n' (set_console_number n' s2)) = Ret tt s3) by (rewrite (acquire_with ln' [number_lock; ln] c); [done|done|done|set_solver|apply Hc]).
  set (s4 := set_cons n' (set_console_number n' (set_cx (with_locks [ln'; number_lock] c) s))).
  assert (Hnd2 : NoDup [ln'; number_lock]) by (repeat constructor; set_solver).
  assert (Hnd : NoDup [ln'; number_lock; ln]) by (repeat constructor; set_solver).
  assert (E4 : release ln s3 = Ret tt s4).
  { rewrite (release_with ln [ln'; number_lock; ln] c s3); [|done|done|done|set_solver|apply Hc]. unfold remove_lock. rewrite !decide_False, decide_True by done. done. }
  set (s5 := set_cdev (set_uart (uart (cdev s) ++ o) (cdev s4)) s4).
  assert (E5 : dev (printf km digits switched [n']) s4 = Ret tt s5).
  { assert (Hwf : cx_wf (with_locks [ln'; number_lock] c)).
    { apply with_locks_wf; [done|]. apply list.NoDup_app. split_and!; [done| |apply Hw].
      intros x [->|[->|Hx%elem_of_nil]%elem_of_cons]%elem_of_cons; [apply Hc|done|done]. }
    unfold dev. rewrite (zoom_ret cdev set_cdev _ s4 tt (set_uart (uart (cdev s) ++ o) (cdev s4))); [done|].
    rewrite (printf_ok digits km switched fmt [n'] o (cdev s4)); try done; [|set_solver]. unfold set_uart. cbn. rewrite Hp, touch_with_locks by apply Hw.
    by destruct (pr_locking (cdev s)). }
  assert (E6 : release number_lock s5 = Ret tt (set_cx (with_locks [ln'] c) s5)).
  { rewrite (release_with number_lock [ln'; number_lock] c s5); [|done|done|done|set_solver|done].
    unfold remove_lock. by rewrite decide_False, decide_True by done. }
  assert (E7 : release ln' (set_cx (with_locks [ln'] c) s5) = Ret tt (set_cx (with_locks [] c) s5)).
  { rewrite (release_with ln' [ln'] c); [|done|done|apply NoDup_singleton|set_solver|apply Hc]. unfold remove_lock. by rewrite decide_True. }
  assert (Esw : switch_console km switched digits s1 = Ret tt (set_cx (with_locks [ln'] c) s5)).
  { unfold switch_console. run E2. mstep. change (cons s2) with (cons s). rewrite Hn. change (console_number s2) with n. fold n' ln ln'. run E3. run E4.
    unfold wakeup_on. mstep. run E5. exact E6. }
  run Esw. mstep. change (cons (set_cx (with_locks [ln'] c) s5)) with n'. fold ln'. rewrite E7, with_locks_nil. done.
Qed.

(** The state with console [i] and the memory replaced. *)
Definition ust (i : Z) (k : cons_t) (um : umem U) (s : cst U) : cst U := set_cum um (upd i k [] s).

Lemma ust_ust i k k' um um' s : ust i k' um' (ust i k um s) = ust i k' um' s.
Proof. unfold ust, upd, set_cum, set_consoles, set_cdev, set_uart. cbn. by rewrite !app_nil_r, list_insert_insert_eq. Qed.

Lemma ust_same i k s : aget (consoles s) i = Some k -> ust i k (cum s) s = s.
Proof. intros Hk. unfold ust. rewrite upd_same by done. by destruct s. Qed.

Lemma ust_get i k um s k0 : aget (consoles s) i = Some k0 -> aget (consoles (ust i k um s)) i = Some k.
Proof. apply upd_get. Qed.

(** A byte stored into a buffer that is there. *)
Lemma copyout_byte user um a x : um_inv (um_user um) -> 0 <= a -> is_Some (view user um a) ->
  exists um', either_copyout user a [x] um = Ret 0 um' /\ um_inv (um_user um') /\ copied (view user um) (view user um') a [x] 1 /\
    forall b, view (negb user) um' b = view (negb user) um b.
Proof.
  intros Hi Ha [y Hy]. destruct (either_copyout_ok user um a [x] Hi Ha) as (res & um' & n & E & Hi' & Hc & Ho & Hr).
  - intros -> j Hj. replace (a + j) with a by (cbn in Hj; lia). eauto.
  - destruct Hr as [[-> ->]|(_ & Hl & Hn)]; [by exists um'|]. destruct n; [|cbn in Hl; lia]. rewrite Z.add_0_r in Hn. congruence.
Qed.

(** What a read of [m] more bytes does while it has the lock. *)
Definition did_cread (fuel m : nat) (i : Z) (user : bool) (target dst : Z) (c : ctx) (s : cst U) (comm edit : list Z) (r : res (cst U) Z) : Prop :=
  let d := line_of m comm in
  let left := Z.of_nat m - Z.of_nat (length d) in
  exists um' k', copied (view user (cum s)) (view user um') dst d (length d) /\ um_inv (um_user um') /\
    (forall b, view (negb user) um' b = view (negb user) (cum s) b) /\
    let s' := set_cx (touch c) (ust i k' um' s) in
    if decide (left = 0 \/ 10 ∈ d) then r = Ret (s32 (target - left)) s' /\ cinv k' (drop (length d) comm) edit
    else match drop (length d) comm with
    | [] => cinv k' [] edit /\
        if mykilled c then r = Ret (-1) s'
        else exists g, r = Sleep (cons_r_chan i) s' g /\
          forall t, g t = match fuel with
                          | O => (acquire (cons_lock i) ;;; nofuel) t
                          | S fuel => (acquire (cons_lock i) ;;; consoleread_loop fuel (m - length d) i user target (dst + Z.of_nat (length d))) t
                          end
    | _ :: rest => r = Ret (s32 (target - left)) s' /\ cinv k' (if left <? target then drop (length d) comm else rest) edit
    end.

Lemma consoleread_loop_S fuel m i user target dst : consoleread_loop (U := U) fuel (S m) i user target dst =
  (let n := Z.of_nat (S m) in
   k <- getc i ;;
   if c_r k =? c_w k then
     kd <- gets (fun s => mykilled (cx s)) ;;
     if (kd : bool) then release (cons_lock i) ;;; ret (-1) else
     sleep_on (cons_r_chan i) (cons_lock i) ;;;
     match fuel with O => nofuel | S fuel => consoleread_loop fuel (S m) i user target dst end
   else
   c <- unwrap (aget (cbuf k) (c_r k mod INPUT_BUF)) ;;
   setc i (set_c_r (u32 (c_r k + 1)) k) ;;;
   if c =? Ctl 68 then
     when (u32 n <? target) (k <- getc i ;; setc i (set_c_r (u32 (c_r k - 1)) k)) ;;;
     consoleread_end i target n
   else
   r <- umemk (either_copyout user dst [c]) ;;
   if r =? -1 then consoleread_end i target n else
   if c =? 10 then consoleread_end i target (n - 1) else
   consoleread_loop fuel m i user target (u64 (dst + 1))).
Proof. by destruct fuel. Qed.

Lemma consoleread_end_ok c i target n (s : cst U) : cx_wf c -> cons_lock i ∉ held c -> cx s = locked_cx (cons_lock i) c ->
  consoleread_end i target n s = Ret (s32 (target - n)) (set_cx (touch c) s).
Proof. intros Hw Hl Hs. unfold consoleread_end. by run (release_cons c i s Hw Hl Hs). Qed.

Lemma consoleread_loop_ok fuel i user target c : cx_wf c -> cons_lock i ∉ held c -> forall m dst s k comm edit,
  cx s = locked_cx (cons_lock i) c -> aget (consoles s) i = Some k -> cinv k comm edit -> um_inv (um_user (cum s)) -> 0 <= dst -> dst + Z.of_nat m < 2 ^ 64 ->
  Z.of_nat m < 2 ^ 31 -> (forall x, dst <= x < dst + Z.of_nat m -> is_Some (view user (cum s) x)) ->
  did_cread fuel m i user target dst c s comm edit (consoleread_loop fuel m i user target dst s).
Proof.
  intros Hw Hl. induction m as [|m IH]; intros dst s k comm edit Hs Hk Hc Hu Hd Hb Hm Hv.
  { unfold did_cread. cbn [line_of length drop]. exists (cum s), k. split_and!; [|done|done|].
    - intros a'. by rewrite decide_False by lia.
    - rewrite decide_True by (left; lia). rewrite ust_same by done. split; [|done]. replace (consoleread_loop fuel 0 i user target dst) with (consoleread_end (U := U) i target 0) by (by destruct fuel).
      by rewrite (consoleread_end_ok c). }
  rewrite consoleread_loop_S. cbv zeta. run (getc_ok i k s Hk). rewrite (cinv_no_comm k _ _ Hc). destruct comm as [|x comm].
  { rewrite bool_decide_eq_true_2 by done. unfold did_cread. cbn [line_of length drop]. exists (cum s), k. split_and!; [intros a'; by rewrite decide_False by lia|done|done|].
    rewrite decide_False by (intros [?|[]%elem_of_nil]; lia). split; [done|]. mstep. rewrite Hs. cbn [locked_cx cx_held cx_push mykilled]. rewrite ust_same by done.
    destruct (mykilled c); [by run (release_cons c i s Hw Hl Hs)|]. unfold sleep_on, bind at 1 2. rewrite (release_cons c i s Hw Hl Hs). cbn [rbind].
    eexists. split; [done|]. intros t. rewrite Z.add_0_r, Nat.sub_0_r. by destruct fuel. }
  rewrite bool_decide_eq_false_2 by done. destruct (cinv_take k x comm edit Hc) as [Ex Hc1]. rewrite Ex. mstep. set (k1 := set_c_r (u32 (c_r k + 1)) k) in *.
  run (setc_ok i k k1 s Hk). assert (Hk1 : aget (consoles (upd i k1 [] s)) i = Some k1) by (by eapply upd_get).
  unfold did_cread. cbn [line_of]. destruct (Z.eqb_spec x (Ctl 68)) as [->|Hx].
  { cbn [length drop]. rewrite u32_small by lia. assert (Hback : set_c_r (u32 (c_r k1 - 1)) k1 = k).
    { destruct k as [b r w e]. unfold k1, set_c_r. cbn. f_equal. unfold u32. rewrite Zminus_mod_idemp_l. destruct Hc as [_ _ _ Hr _]. cbn in Hr. rewrite Z.mod_small; lia. }
    exists (cum s), (if Z.of_nat (S m) <? target then k else k1). split_and!; [intros a'; by rewrite decide_False by lia|done|done|].
    rewrite decide_False by (intros [?|[]%elem_of_nil]; lia). change (Z.of_nat 0) with 0. rewrite Z.sub_0_r. destruct (Z.of_nat (S m) <? target); unfold when.
    - rewrite (bind_ret_l _ _ _ tt (upd i k [] s)); [by rewrite (consoleread_end_ok c)|]. run (getc_ok i k1 _ Hk1). rewrite (setc_ok i k1 _ _ Hk1), Hback. by rewrite upd_upd.
    - mstep. by rewrite (consoleread_end_ok c). }
  destruct (copyout_byte user (cum s) dst x Hu Hd (Hv dst ltac:(lia))) as (um1 & E1 & Hu1 & Hcp & Ho1).
  unfold umemk. run (zoom_ret cum set_cum _ (upd i k1 [] s) _ _ E1). change (set_cum um1 (upd i k1 [] s)) with (ust i k1 um1 s). change (0 =? -1) with false. cbv iota.
  destruct (Z.eqb_spec x 10) as [->|H10].
  { exists um1, k1. cbn [length drop]. split_and!; [done|done|done|]. rewrite decide_True by (right; by left).
    rewrite (consoleread_end_ok c) by done. split; [|done]. done. }
  rewrite u64_small by lia. set (s1 := ust i k1 um1 s). assert (Hs1 : aget (consoles s1) i = Some k1) by (by eapply ust_get).
  destruct (IH (dst + 1) s1 k1 comm edit Hs Hs1 Hc1 Hu1) as (um' & k' & Hcp' & Hu' & Ho' & Hres); [lia|lia|lia| |].
  { intros y Hy. change (cum s1) with um1. rewrite (Hcp y), decide_False by (cbn; lia). apply Hv. lia. }
  exists um', k'. set (d := line_of m comm) in *. cbn [length drop]. split_and!; [|done|intros b; rewrite Ho'; apply Ho1|].
  { intros a'. rewrite (Hcp' a'). change (cum s1) with um1. rewrite (Hcp a'). destruct (decide (a' = dst)) as [->|Hne].
    - rewrite decide_False, decide_True, decide_True by (cbn; lia). by rewrite Z.sub_diag.
    - destruct (decide (dst + 1 <= a' < dst + 1 + Z.of_nat (length d))) as [Hin|Hout].
      + rewrite decide_True by lia. by replace (Z.to_nat (a' - dst)) with (S (Z.to_nat (a' - (dst + 1)))) by lia.
      + by rewrite !decide_False by (cbn; lia). }
  unfold s1 in Hres. rewrite ust_ust in Hres. replace (Z.of_nat (S m) - Z.of_nat (S (length d))) with (Z.of_nat m - Z.of_nat (length d)) by lia.
  destruct (decide (Z.of_nat m - _ = 0 \/ 10 ∈ d)) as [Hend|Hend].
  - by rewrite decide_True by (rewrite elem_of_cons; tauto).
  - rewrite decide_False by (rewrite elem_of_cons; intuition congruence). destruct (drop (length d) comm) as [|y rest]; [|done].
    destruct Hres as [Hc' Hres]. split; [done|]. destruct (mykilled c); [done|]. destruct Hres as (g & Hg & Hcont). exists g. split; [done|]. intros t. rewrite (Hcont t).
    destruct fuel; [done|]. replace (dst + 1 + Z.of_nat (length d)) with (dst + Z.of_nat (S (length d))) by lia. done.
Qed.

(** It is this console's turn. *)
Lemma wait_turn_ok fuel i (s : cst U) : console_number s = i -> wait_turn fuel i s = Ret tt s.
Proof. intros Hn. destruct fuel; cbn [wait_turn]; mstep; by rewrite Hn, Z.eqb_refl. Qed.

Lemma wait_turn_waits fuel i c (s : cst U) : console_number s <> i -> cx_wf c -> number_lock ∉ held c -> cx s = locked_cx number_lock c ->
  exists g, wait_turn fuel i s = Sleep (cons_chan i) (set_cx (touch c) s) g.
Proof.
  intros Hn Hw Hl Hs. assert (E : release number_lock s = Ret tt (set_cx (touch c) s)) by (apply release_ok; [done|done|by rewrite locked_touch]).
  destruct fuel; cbn [wait_turn]; mstep; rewrite (proj2 (Z.eqb_neq _ _) Hn); unfold sleep_on, bind; rewrite E; cbn [rbind]; eauto.
Qed.

(** The two locks a read or a write takes at first. *)
Lemma take_turn {A} fuel i (s : cst U) (k : M (cst U) A) : cx_wf (cx s) -> number_lock ∉ held (cx s) -> cons_lock i ∉ held (cx s) -> console_number s = i ->
  (acquire number_lock ;;; wait_turn fuel i ;;; release number_lock ;;; acquire (cons_lock i) ;;; k) s = k (set_cx (locked_cx (cons_lock i) (cx s)) s).
Proof.
  intros Hw Hn Hc Ht. run (acquire_ok number_lock s Hn). set (s1 := set_cx _ s). run (wait_turn_ok fuel i s1 Ht).
  assert (E : release number_lock s1 = Ret tt (set_cx (touch (cx s)) s1)) by (apply release_ok; [done|done|by rewrite locked_touch]). run E.
  run (acquire_ok (cons_lock i) (set_cx (touch (cx s)) s1) Hc). unfold s1. rewrite cx_set, !set_cx_twice, locked_touch. done.
Qed.

(** A read of the console that has the keyboard takes completed text, a line
    at most, and stores it in the caller's buffer.  It ends when the buffer is
    full, at a newline, or at a [^D], which it takes only if it has nothing to
    return yet, so that a call that returns 0 follows.  While there is nothing
    more to take it sleeps, without the lock, and then goes on where it was, or
    returns -1 if the process was killed.  A read of another console sleeps
    until it is its turn.  The line being edited stays as it is. *)
Theorem consoleread_spec fuel (user : bool) (dst n : Z) (s : cst U) i k comm edit :
  cx_wf (cx s) -> number_lock ∉ held (cx s) -> cons_lock i ∉ held (cx s) -> aget (consoles s) i = Some k -> cinv k comm edit ->
  um_inv (um_user (cum s)) -> 0 <= dst -> 0 < n < 2 ^ 31 -> dst + n < 2 ^ 64 -> (forall x, dst <= x < dst + n -> is_Some (view user (cum s) x)) ->
  if decide (console_number s = i) then did_cread fuel (Z.to_nat n) i user n dst (cx s) s comm edit (consoleread fuel (i + 1) user dst n s)
  else exists g, consoleread fuel (i + 1) user dst n s = Sleep (cons_chan i) (set_cx (touch (cx s)) s) g.
Proof.
  intros Hw Hnl Hcl Hk Hc Hu Hd Hn Hb Hv. unfold consoleread. cbv zeta. replace (i + 1 - 1) with i by lia. rewrite u32_small by lia. case_decide as Ht.
  - rewrite take_turn by done. rewrite (proj2 (Z.leb_gt n 0)) by lia. set (s1 := set_cx _ s).
    pose proof (consoleread_loop_ok fuel i user n (cx s) Hw Hcl (Z.to_nat n) dst s1 k comm edit) as H. rewrite Z2Nat.id in H by lia.
    apply H; try done; lia.
  - run (acquire_ok number_lock s Hnl). set (s1 := set_cx _ s). destruct (wait_turn_waits fuel i (cx s) s1) as [g E]; [done|done|done|done|].
    rewrite (bind_sleep _ _ _ _ _ _ E). unfold s1. rewrite set_cx_twice. eauto.
Qed.

Lemma consolewrite_loop_ok user src k j s m : forall i o, um_inv (um_user (cum s)) -> panicked (cdev s) = false -> aget (consoles s) j = Some k ->
  0 <= src + i -> src + i + Z.of_nat m <= 2 ^ 64 -> (user = false -> mapped (um_kern (cum s)) (src + i) (Z.of_nat m)) ->
  Forall (fun x => 0 <= x < 256) (fetch (view user (cum s)) (src + i) m) ->
  consolewrite_loop m user src i (upd j k o s) = Ret tt (upd j k (o ++ fetch (view user (cum s)) (src + i) m) s).
Proof.
  induction m as [|m IH]; intros i o Hu Hp Hk H0 Hb Hm Hf; cbn [consolewrite_loop fetch] in *; [by rewrite app_nil_r|]. rewrite u64_small by lia.
  destruct (either_copyin_ok user (cum s) (src + i) 1 Hu H0 ltac:(lia)) as (res & bs & E & Hbs & Hr).
  { intros Hus x Hx. apply (Hm Hus). lia. }
  unfold umemk. run (zoom_ret cum set_cum _ (upd j k o s) _ _ E). change (set_cum (cum (upd j k o s)) (upd j k o s)) with (upd j k o s). cbn [fst snd].
  destruct Hr as [[-> Hl]|(-> & Hl & Hn)].
  - destruct bs as [|x [|? ?]]; [done| |done]. specialize (Hbs O x eq_refl). rewrite Z.add_0_r in Hbs. rewrite Hbs in *. change (0 =? -1) with false. cbv iota.
    change (aget [x] 0) with (Some x). mstep. apply list.Forall_cons in Hf as [Hx Hf]. run (dev_putc x j k o s Hp).
    assert (Ex : echo x = [x]) by (unfold echo, u8; rewrite (proj2 (Z.eqb_neq x BACKSPACE)), Z.mod_small by (unfold BACKSPACE; lia); done). rewrite Ex.
    replace (src + i + 1) with (src + (i + 1)) in * by lia. rewrite (IH (i + 1)); try done; [by rewrite <- app_assoc|lia|lia|].
    intros Hus y Hy. replace (src + (i + 1) + y) with (src + i + (y + 1)) by lia. apply (Hm Hus). lia.
  - destruct bs; [|cbn in Hl; lia]. rewrite Z.add_0_r in Hn. rewrite Hn. change (-1 =? -1) with true. cbv iota. by rewrite app_nil_r.
Qed.

(** [consolewrite] prints the bytes it can read, in their order, and returns [n]
    even if it could read fewer. *)
Theorem consolewrite_spec fuel (user : bool) (src n : Z) (s : cst U) i k :
  cx_wf (cx s) -> number_lock ∉ held (cx s) -> cons_lock i ∉ held (cx s) -> console_number s = i -> aget (consoles s) i = Some k ->
  um_inv (um_user (cum s)) -> panicked (cdev s) = false -> 0 <= src -> 0 <= n -> src + n <= 2 ^ 64 -> (user = false -> mapped (um_kern (cum s)) src n) ->
  let bs := fetch (view user (cum s)) src (Z.to_nat n) in
  Forall (fun x => 0 <= x < 256) bs ->
  consolewrite fuel (i + 1) user src n s = Ret n (set_cx (touch (cx s)) (upd i k bs s)).
Proof.
  intros Hw Hnl Hcl Ht Hk Hu Hp Hs Hn Hb Hm bs Hbs. unfold consolewrite. cbv zeta. replace (i + 1 - 1) with i by lia. rewrite take_turn by done. set (s1 := set_cx _ s).
  pose proof (consolewrite_loop_ok user src k i s1 (Z.to_nat n) 0 []) as E. rewrite Z.add_0_r, Z2Nat.id in E by lia. specialize (E Hu Hp Hk Hs Hb Hm Hbs).
  rewrite upd_same in E by done. run E. assert (Er : release (cons_lock i) (upd i k bs s1) = Ret tt (set_cx (touch (cx s)) (upd i k bs s1))) by (by apply release_cons).
  by run Er.
Qed.
End ConsoleSpec.

(** ** Witnesses *)

Definition key_cx : ctx := {| noff := 0; intena := false; intr := true; held := []; mypid := 3; mykilled := false |}.

(** The text [ls\n] completed and [x] being typed. *)
Definition demo_cons : cons_t := mkcons ([108; 115; 10; 120] ++ replicate 124 0) 0 3 4.
Definition demo_consoles : cst mem :=
  mkcst {| uart := []; panicked := false; pr_locking := true; con_cx := key_cx |} [demo_cons; mkcons (replicate 128 0) 0 0 0; mkcons (replicate 128 0) 0 0 0] 0 0
    (mkumem (bytes_at 100 [0; 0; 0; 0; 0]) ∅).

Lemma demo_cons_inv : cinv demo_cons [108; 115; 10] [120].
Proof.
  split; [|done|done|cbn; lia|set_solver]. split; [done|cbn; unfold INPUT_BUF; lia|].
  intros i x Hi. do 4 (destruct i as [|i]; [cbn in Hi; simplify_eq; by vm_compute|]). done.
Qed.

Lemma key_cx_wf : cx_wf key_cx.
Proof. split_and!; [done|constructor|done]. Qed.

Lemma prints_nothing : prints (ret tt).
Proof. intros s _. exists []. unfold ret. rewrite app_nil_r. by destruct s. Qed.

(** A backspace. *)
Lemma consoleintr_spec_witness : exists k' o,
  consoleintr (ret tt) (ret tt) (ret tt) ∅ 0 [] 127 demo_consoles = Ret tt (set_cx (touch key_cx) (upd 0 k' o demo_consoles)) /\ cinv k' [108; 115; 10] [] /\ o = [8; 32; 8].
Proof.
  apply (consoleintr_spec (ret tt) (ret tt) (ret tt) ∅ 0 [] 127 demo_consoles demo_cons [108; 115; 10] [120] prints_nothing prints_nothing prints_nothing key_cx_wf);
    [apply not_elem_of_nil|reflexivity|reflexivity|exact demo_cons_inv|lia|discriminate].
Defined.

Lemma demo_user : um_inv (um_user (cum demo_consoles)).
Proof. exact I. Qed.

Lemma demo_buffer x : 100 <= x < 105 -> is_Some (view true (cum demo_consoles) x).
Proof. intros Hx. replace x with (100 + (x - 100)) by lia. apply (mapped_bytes_at 100 [0; 0; 0; 0; 0] 5); [done|lia]. Qed.

Lemma consoleread_spec_witness : exists um' k', consoleread 1 1 true 100 5 demo_consoles = Ret 3 (set_cx (touch key_cx) (ust 0 k' um' demo_consoles)) /\ cinv k' [] [120].
Proof.
  destruct (consoleread_spec 1 true 100 5 demo_consoles 0 demo_cons [108; 115; 10] [120] key_cx_wf (not_elem_of_nil _) (not_elem_of_nil _) eq_refl demo_cons_inv demo_user)
    as (um' & k' & _ & _ & _ & E & Hk); [lia|lia|lia|exact demo_buffer|].
  exists um', k'. split; [exact E|exact Hk].
Defined.
