(* ===== verification/Grep.v ===== *)
(** * user/grep.c: the pattern matcher and the filter

    The matcher works on two C strings in memory; its recursion and its loops
    spend fuel, and the length of the two strings is enough of it.  [grep] reads
    its input in chunks of any size, through the system call [read], into a
    buffer of 1024 bytes, and what it writes is a list of bytes. *)

From S2P Require Import Prelude StringC.

(** ** The matcher *)

Fixpoint matchhere (fuel : nat) (re text : Z) (m : mem) : option bool :=
  match fuel with
  | O => None
  | S fuel =>
      r0 ← ld m re;
      if r0 =? 0 then Some true else
      r1 ← ld m (re + 1);
      if r1 =? 42 then matchstar fuel r0 (re + 2) text m else
      t ← ld m text;
      if (r0 =? 36) && (r1 =? 0) then Some (t =? 0) else
      if negb (t =? 0) && ((r0 =? 46) || (r0 =? t)) then matchhere fuel (re + 1) (text + 1) m
      else Some false
  end
with matchstar (fuel : nat) (c re text : Z) (m : mem) : option bool :=
  match fuel with
  | O => None
  | S fuel =>
      b ← matchhere fuel re text m;
      if (b : bool) then Some true else
      t ← ld m text;
      if negb (t =? 0) && ((t =? c) || (c =? 46)) then matchstar fuel c re (text + 1) m
      else Some false
  end.

(** Enough for two strings in the memory. *)
Definition match_fuel (m : mem) : nat := (2 * str_fuel m)%nat.

Fixpoint match_loop (fuel : nat) (re text : Z) (m : mem) : option bool :=
  match fuel with
  | O => None
  | S fuel =>
      b ← matchhere (match_fuel m) re text m;
      if (b : bool) then Some true else
      t ← ld m text;
      if t =? 0 then Some false else match_loop fuel re (text + 1) m
  end.

Definition match_ (re text : Z) (m : mem) : option bool :=
  r0 ← ld m re;
  if r0 =? 94 then matchhere (match_fuel m) (re + 1) text m
  else match_loop (str_fuel m) re text m.

(** ** The filter

    [read r k] is the system call on the input [r], with room for [k] bytes: the
    bytes it puts into the buffer, or [None] for an error, and the rest of the
    input. *)
Section Grep.
Context {R : Type} (read : R -> Z -> option (list Z) * R).

Fixpoint put (m : mem) (a : Z) (l : list Z) : option mem :=
  match l with
  | [] => Some m
  | x :: l => m ← st m a x; put m (a + 1) l
  end.

Fixpoint get (n : nat) (m : mem) (a : Z) : option (list Z) :=
  match n with
  | O => Some []
  | S n => x ← ld m a; l ← get n m (a + 1); Some (x :: l)
  end.

(** The loop over the lines in the buffer, from [p] on; [out] is what was
    written to file descriptor 1. *)
Fixpoint grep_lines (fuel : nat) (pattern p : Z) (m : mem) (out : list Z) : option (Z * mem * list Z) :=
  match fuel with
  | O => None
  | S fuel =>
      q ← strchr p 10 m;
      if q =? 0 then Some (p, m, out) else
      m ← st m q 0;
      b ← match_ pattern p m;
      if (b : bool) then
        m ← st m q 10;
        w ← get (Z.to_nat (q + 1 - p)) m p;
        grep_lines fuel pattern (q + 1) m (out ++ w)
      else grep_lines fuel pattern (q + 1) m out
  end.

(** The loop over the chunks; [n] is the number of bytes kept in the buffer,
    the variable [m] of the code. *)
Fixpoint grep_loop (fuel : nat) (pattern buf n : Z) (m : mem) (r : R) (out : list Z) : option (list Z) :=
  match fuel with
  | O => None
  | S fuel =>
      let '(o, r) := read r (1024 - n - 1) in
      match o with
      | None | Some [] => Some out
      | Some bs =>
          m ← put m (buf + n) bs;
          let n := n + Z.of_nat (length bs) in
          m ← st m (buf + n) 0;
          '(p, m, out) ← grep_lines (str_fuel m) pattern buf m out;
          if 0 <? n then
            let n := n - (p - buf) in
            m ← umemmove buf p n m;
            grep_loop fuel pattern buf n m r out
          else grep_loop fuel pattern buf n m r out
      end
  end.

Definition grep (fuel : nat) (pattern buf : Z) (m : mem) (r : R) : option (list Z) := grep_loop fuel pattern buf 0 m r [].
End Grep.

(** ** What a pattern means

    [here re l]: a prefix of [l] matches [re].  [c*] is any number of
    characters that match [c], [.] any character, and [$] at the end of the
    pattern the end of the text. *)
Inductive here : list Z -> list Z -> Prop :=
| here_done l : here [] l
| here_star c re u v : Forall (fun x => x = c \/ c = 46) u -> here re v -> here (c :: 42 :: re) (u ++ v)
| here_end : here [36] []
| here_char c re x l : head re <> Some 42 -> ~ (c = 36 /\ re = []) -> c = 46 \/ c = x -> here re l -> here (c :: re) (x :: l).

Definition matches (re l : list Z) : Prop :=
  match re with
  | 94 :: re => here re l
  | _ => exists u v, l = u ++ v /\ here re v
  end.

Lemma here_star_inv c re l :
  here (c :: 42 :: re) l <-> here re l \/ exists x l', l = x :: l' /\ (x = c \/ c = 46) /\ here (c :: 42 :: re) l'.
Proof.
  split.
  - intros Hh. inversion Hh as [|c' re' u v Hu Hv| |c' re' x l' Hn]; subst; [|done].
    destruct u as [|x u]; [by left|]. right. apply list.Forall_cons in Hu as [Hx Hu]. exists x, (u ++ v). split_and!; [done|done|by constructor].
  - intros [Hh|(x & l' & -> & Hx & Hh)]; [by apply (here_star c re [] l)|].
    inversion Hh as [|c' re' u v Hu Hv| |c' re' y l'' Hn]; subst; [|done].
    apply (here_star c re (x :: u) v); [by constructor|done].
Qed.

Lemma here_end_inv l : here [36] l <-> l = [].
Proof.
  split; [|intros ->; constructor]. intros Hh. inversion Hh as [| | |c re x l' _ Hn]; subst; [done|]. by destruct Hn.
Qed.

Lemma here_char_inv c re l :
  head re <> Some 42 -> ~ (c = 36 /\ re = []) ->
  here (c :: re) l <-> exists x l', l = x :: l' /\ (c = 46 \/ c = x) /\ here re l'.
Proof.
  intros H1 H2. split.
  - intros Hh. inversion Hh as [|c' re' u v Hu Hv| |c' re' x l' _ _ Hc Hr]; subst; [done|by destruct H2|by exists x, l'].
  - intros (x & l' & -> & Hc & Hr). by constructor.
Qed.

Definition decides (o : option bool) (P : Prop) : Prop := exists b, o = Some b /\ (b = true <-> P).

Lemma decides_iff o P Q : (P <-> Q) -> decides o P -> decides o Q.
Proof. intros HPQ (b & -> & Hb). exists b. by rewrite <- HPQ. Qed.

Lemma decides_no o P : o = Some false -> ~ P -> decides o P.
Proof. intros -> HP. by exists false. Qed.

Lemma cstr_head m a l : cstr m a l -> ld m a = Some (match l with [] => 0 | x :: _ => x end).
Proof. destruct l; cbn; [done|]. by intros (H & _). Qed.

Lemma cstr_next m a x l : cstr m a (x :: l) -> cstr m (a + 1) l.
Proof. by intros (_ & _ & Hc). Qed.

Lemma cstr_nz m a x l : cstr m a (x :: l) -> (x =? 0) = false.
Proof. intros (_ & Hx & _). by apply Z.eqb_neq. Qed.

Lemma matchhere_ok m : forall fuel re text rl tl, cstr m re rl -> cstr m text tl ->
  ((length rl + length tl < fuel)%nat -> decides (matchhere fuel re text m) (here rl tl)) /\
  (forall c, (S (length rl + length tl) < fuel)%nat -> decides (matchstar fuel c re text m) (here (c :: 42 :: rl) tl)).
Proof.
  induction fuel as [|fuel IH]; intros re text rl tl Hr Ht; [split; lia|]. split.
  - intros Hf. cbn [matchhere]. rewrite (cstr_head _ _ _ Hr). cbn [mbind option_bind].
    destruct rl as [|r0 rl]; [exists true; split; [done|]; split; [constructor|done]|]. rewrite (cstr_nz _ _ _ _ Hr).
    pose proof (cstr_next _ _ _ _ Hr) as Hr1. rewrite (cstr_head _ _ _ Hr1). cbn [mbind option_bind].
    destruct (Z.eqb_spec (match rl with [] => 0 | x :: _ => x end) 42) as [E1|E1].
    { destruct rl as [|? rl]; [done|]. subst. pose proof (cstr_next _ _ _ _ Hr1) as Hr2. replace (re + 1 + 1) with (re + 2) in Hr2 by lia.
      destruct (IH (re + 2) text rl tl Hr2 Ht) as [_ IHs]. apply IHs. cbn [length] in Hf. lia. }
    rewrite (cstr_head _ _ _ Ht). cbn [mbind option_bind]. destruct ((r0 =? 36) && _) eqn:E2.
    { apply andb_true_iff in E2 as [->%Z.eqb_eq E2%Z.eqb_eq]. destruct rl as [|y rl]; [|apply cstr_nz in Hr1; lia].
      eexists. split; [done|]. rewrite here_end_inv. destruct tl as [|t tl]; [done|]. rewrite (cstr_nz _ _ _ _ Ht). done. }
    assert (Hch : here (r0 :: rl) tl <-> exists x l', tl = x :: l' /\ (r0 = 46 \/ r0 = x) /\ here rl l').
    { apply here_char_inv; [destruct rl; cbn; congruence|]. intros [-> ->]. done. }
    apply (decides_iff _ _ _ (iff_sym Hch)). destruct tl as [|t tl]; [apply decides_no; [done|]; by intros (? & ? & ? & _)|].
    rewrite (cstr_nz _ _ _ _ Ht). cbn [negb andb]. destruct ((r0 =? 46) || (r0 =? t)) eqn:E3.
    + destruct (IH (re + 1) (text + 1) rl tl Hr1 (cstr_next _ _ _ _ Ht)) as [IHh _]. eapply decides_iff; [|apply IHh; cbn [length] in Hf; lia].
      split; [intros Hh; exists t, tl; split_and!; [done| |done]|by intros (x & l' & [= <- <-] & _ & Hh)].
      apply orb_true_iff in E3 as [E3%Z.eqb_eq|E3%Z.eqb_eq]; [by left|by right].
    + apply decides_no; [done|]. intros (x & l' & [= <- <-] & Hc & _). apply orb_false_iff in E3 as [E3%Z.eqb_neq E4%Z.eqb_neq]. tauto.
  - intros c Hf. cbn [matchstar]. destruct (IH re text rl tl Hr Ht) as [IHh _].
    destruct (IHh ltac:(lia)) as (b & -> & Hb). cbn [mbind option_bind]. apply (decides_iff _ _ _ (iff_sym (here_star_inv c rl tl))).
    destruct b; [exists true; split; [done|]; split; [intros _; left; by apply Hb|done]|].
    assert (Hn : ~ here rl tl) by (rewrite <- Hb; done). rewrite (cstr_head _ _ _ Ht). cbn [mbind option_bind].
    destruct tl as [|t tl]; [apply decides_no; [done|]; by intros [?|(? & ? & ? & _)]|]. rewrite (cstr_nz _ _ _ _ Ht). cbn [negb andb].
    destruct ((t =? c) || (c =? 46)) eqn:E3.
    + destruct (IH re (text + 1) rl tl Hr (cstr_next _ _ _ _ Ht)) as [_ IHs]. eapply decides_iff; [|apply IHs; cbn [length] in Hf; lia].
      split; [intros Hh; right; exists t, tl; split_and!; [done| |done]|by intros [?|(x & l' & [= <- <-] & _ & Hh)]].
      apply orb_true_iff in E3 as [E3%Z.eqb_eq|E3%Z.eqb_eq]; [by left|by right].
    + apply decides_no; [done|]. intros [?|(x & l' & [= <- <-] & Hc & _)]; [done|]. apply orb_false_iff in E3 as [E3%Z.eqb_neq E4%Z.eqb_neq]. tauto.
Qed.

Lemma match_fuel_ok m re text rl tl : cstr m re rl -> cstr m text tl -> decides (matchhere (match_fuel m) re text m) (here rl tl).
Proof.
  intros Hr Ht. apply matchhere_ok; [done..|]. pose proof (cstr_fuel _ _ _ Hr). pose proof (cstr_fuel _ _ _ Ht). unfold match_fuel. lia.
Qed.

Lemma match_loop_ok m re rl fuel : forall text tl, cstr m re rl -> cstr m text tl -> (length tl < fuel)%nat ->
  decides (match_loop fuel re text m) (exists u v, tl = u ++ v /\ here rl v).
Proof.
  induction fuel as [|fuel IH]; intros text tl Hr Ht Hf; [lia|]. cbn [match_loop].
  destruct (match_fuel_ok m re text rl tl Hr Ht) as (b & -> & Hb). cbn [mbind option_bind].
  destruct b; [exists true; split; [done|]; split; [intros _; exists [], tl; split; [done|by apply Hb]|done]|].
  assert (Hn : ~ here rl tl) by (rewrite <- Hb; done). rewrite (cstr_head _ _ _ Ht). cbn [mbind option_bind].
  destruct tl as [|t tl].
  - apply decides_no; [done|]. intros (u & v & Huv & Hh). symmetry in Huv. apply app_nil in Huv as [-> ->]. done.
  - rewrite (cstr_nz _ _ _ _ Ht). eapply decides_iff; [|apply (IH (text + 1) tl Hr (cstr_next _ _ _ _ Ht)); cbn [length] in Hf; lia]. split.
    + intros (u & v & -> & Hh). by exists (t :: u), v.
    + intros (u & v & Huv & Hh). destruct u as [|y u]; [cbn in Huv; by subst|]. injection Huv as <- ->. eauto.
Qed.

Lemma match_ok m re text rl tl : cstr m re rl -> cstr m text tl -> decides (match_ re text m) (matches rl tl).
Proof.
  intros Hr Ht. unfold match_. rewrite (cstr_head _ _ _ Hr). cbn [mbind option_bind].
  pose proof (match_loop_ok m re rl (str_fuel m) text tl Hr Ht (cstr_fuel _ _ _ Ht)) as Hl.
  destruct rl as [|r0 rl]; [done|]. destruct (Z.eqb_spec r0 94) as [->|Hne].
  - apply match_fuel_ok; [by apply cstr_next in Hr|done].
  - eapply decides_iff; [|exact Hl]. unfold matches. repeat (case_match; try done).
Qed.

(** ** Lines

    The complete lines of a text that continues the line [cur], and what is left
    over. *)
Fixpoint cut (cur l : list Z) : list (list Z) * list Z :=
  match l with
  | [] => ([], cur)
  | c :: l => if c =? 10 then (cur :: (cut [] l).1, (cut [] l).2) else cut (cur ++ [c]) l
  end.

Lemma cut_app l1 : forall cur l2, cut cur (l1 ++ l2) = ((cut cur l1).1 ++ (cut (cut cur l1).2 l2).1, (cut (cut cur l1).2 l2).2).
Proof.
  induction l1 as [|c l1 IH]; intros cur l2; cbn [cut app fst snd]; [by destruct (cut cur l2)|].
  destruct (c =? 10); cbn [fst snd app]; rewrite IH; done.
Qed.

Lemma cut_line u : forall cur, 10 ∉ u -> cut cur u = ([], cur ++ u).
Proof.
  induction u as [|c u IH]; intros cur Hu; cbn [cut]; [by rewrite app_nil_r|]. apply not_elem_of_cons in Hu as [Hc Hu].
  rewrite (proj2 (Z.eqb_neq c 10)) by done. rewrite IH by done. by rewrite <- app_assoc.
Qed.

Lemma cut_first u l cur : 10 ∉ u -> cut cur (u ++ 10 :: l) = ((cur ++ u) :: (cut [] l).1, (cut [] l).2).
Proof. intros Hu. rewrite cut_app, cut_line by done. done. Qed.

(** What is left over has no newline. *)
Lemma cut_rest l : forall cur, 10 ∉ cur -> 10 ∉ (cut cur l).2.
Proof.
  induction l as [|c l IH]; intros cur Hc; cbn [cut]; [done|]. destruct (Z.eqb_spec c 10); [cbn; apply IH; by apply not_elem_of_nil|].
  apply IH. apply not_elem_of_app. split; [done|]. intros ?%list_elem_of_singleton. done.
Qed.

Lemma cut_sub l : forall cur c, c ∈ (cut cur l).2 -> c ∈ cur \/ c ∈ l.
Proof.
  induction l as [|x l IH]; intros cur c; cbn [cut]; [by left|]. destruct (x =? 10).
  - cbn [snd]. intros [H|H]%IH; [by apply elem_of_nil in H|]. right. by right.
  - intros [H|H]%IH; [|right; by right]. apply elem_of_app in H as [H| ->%list_elem_of_singleton]; [by left|right; by left].
Qed.

(** The first line of a text. *)
Lemma first_line l : 10 ∉ l \/ exists u l', l = u ++ 10 :: l' /\ 10 ∉ u.
Proof.
  induction l as [|c l IH]; [left; by apply not_elem_of_nil|]. destruct (decide (c = 10)) as [->|Hc].
  - right. exists [], l. split; [done|by apply not_elem_of_nil].
  - destruct IH as [IH|(u & l' & -> & Hu)]; [left; by apply not_elem_of_cons|]. right. exists (c :: u), l'. split; [done|by apply not_elem_of_cons].
Qed.

(** The lines that match, each with its newline. *)
Inductive selected (re : list Z) : list (list Z) -> list Z -> Prop :=
| sel_nil : selected re [] []
| sel_yes l ls o : matches re l -> selected re ls o -> selected re (l :: ls) (l ++ 10 :: o)
| sel_no l ls o : ~ matches re l -> selected re ls o -> selected re (l :: ls) o.

Lemma selected_app re ls1 ls2 o1 o2 : selected re ls1 o1 -> selected re ls2 o2 -> selected re (ls1 ++ ls2) (o1 ++ o2).
Proof. intros H1 H2. induction H1 as [|l ls o Hl _ IH|l ls o Hl _ IH]; cbn [app]; [done|rewrite <- app_assoc; by constructor|by constructor]. Qed.

(** ** Bytes in memory *)

Definition area (m : mem) (a : Z) (l : list Z) : Prop := forall i x, l !! i = Some x -> m !! (a + Z.of_nat i) = Some x.

Lemma area_cons m a x l : area m a (x :: l) <-> m !! a = Some x /\ area m (a + 1) l.
Proof.
  split.
  - intros Ha. split; [by rewrite <- (Ha O x eq_refl), Z.add_0_r|]. intros i y Hi. rewrite <- (Ha (S i) y Hi). f_equal. lia.
  - intros [Hx Hl] [|i] y Hi; cbn in Hi; [injection Hi as <-; by rewrite Z.add_0_r|]. rewrite <- (Hl i y Hi). f_equal. lia.
Qed.

Lemma area_cstr l : forall m a, area m a (l ++ [0]) -> 0 ∉ l -> cstr m a l.
Proof.
  induction l as [|x l IH]; intros m a; cbn [app cstr]; rewrite area_cons; [by intros [H _]|].
  intros [Hx Hl] [Hn1 Hn2]%not_elem_of_cons. split_and!; [done|congruence|by apply IH].
Qed.

Lemma cstr_area l : forall m a, cstr m a l -> area m a (l ++ [0]) /\ 0 ∉ l.
Proof.
  induction l as [|x l IH]; intros m a; cbn [app cstr]; rewrite area_cons.
  - intros Hx. split_and!; [done| |by apply not_elem_of_nil]. intros i y Hi. done.
  - intros (Hx & Hne & Hl). destruct (IH _ _ Hl) as [H1 H2]. split_and!; [done|done|]. apply not_elem_of_cons. split; congruence.
Qed.

Lemma area_app m a l1 l2 : area m a (l1 ++ l2) <-> area m a l1 /\ area m (a + Z.of_nat (length l1)) l2.
Proof.
  revert a. induction l1 as [|x l1 IH]; intros a; cbn [app length].
  - rewrite Z.add_0_r. split; [intros H; split; [by intros i y|done]|tauto].
  - rewrite !area_cons, IH. replace (a + Z.of_nat (S (length l1))) with (a + 1 + Z.of_nat (length l1)) by lia. tauto.
Qed.

Lemma area_frame m m' a l : area m a l -> (forall x, a <= x < a + Z.of_nat (length l) -> m' !! x = m !! x) -> area m' a l.
Proof. intros Ha Hm i x Hi. pose proof (lookup_lt_Some _ _ _ Hi). rewrite Hm by lia. by apply Ha. Qed.

Lemma put_ok l : forall m a, mapped m a (Z.of_nat (length l)) ->
  exists m', put m a l = Some m' /\ area m' a l /\ (forall x, ~ (a <= x < a + Z.of_nat (length l)) -> m' !! x = m !! x) /\
    (forall b n, mapped m b n -> mapped m' b n).
Proof.
  induction l as [|y l IH]; intros m a Hm; cbn [put length] in *; [exists m; split_and!; [done|by intros i x|done|done]|].
  rewrite st_ok by (apply (mapped_at m a _ a Hm); lia). cbn [mbind option_bind].
  destruct (IH (<[a := y]> m) (a + 1)) as (m' & -> & Ha & Hf & Hk).
  { apply mapped_insert, mapped_tail. by replace (Z.of_nat (length l) + 1) with (Z.of_nat (S (length l))) by lia. }
  exists m'. split_and!; [done| |intros x Hx; rewrite Hf by lia; apply lookup_insert_ne; lia|intros b n Hb; by apply Hk, mapped_insert].
  apply area_cons. split; [|done]. rewrite Hf by lia. apply lookup_insert_eq.
Qed.

Lemma get_ok l : forall m a, area m a l -> get (length l) m a = Some l.
Proof.
  induction l as [|y l IH]; intros m a Ha; [done|]. apply area_cons in Ha as [Hy Ha]. cbn [length get]. unfold ld. rewrite Hy. cbn [mbind option_bind].
  by rewrite IH.
Qed.

(** ** strchr *)

Lemma strchr_loop_ok c fuel : forall u s m l, c ∉ u -> area m s u -> 0 ∉ u -> c <> 0 -> (length u < fuel)%nat ->
  m !! (s + Z.of_nat (length u)) = Some l -> l = 0 \/ l = c ->
  strchr_loop fuel s c m = Some (if l =? 0 then 0 else s + Z.of_nat (length u)).
Proof.
  induction fuel as [|fuel IH]; intros u s m l Hc Ha H0 Hc0 Hf Hl Hlc; [lia|]. cbn [strchr_loop]. unfold ld.
  destruct u as [|x u]; cbn [length] in *.
  - rewrite Z.add_0_r in *. rewrite Hl. cbn [mbind option_bind]. destruct Hlc as [-> | ->]; [done|].
    rewrite (proj2 (Z.eqb_neq c 0)) by done. by rewrite Z.eqb_refl.
  - apply area_cons in Ha as [-> Ha]. cbn [mbind option_bind]. apply not_elem_of_cons in Hc as [Hc1 Hc2], H0 as [H01 H02].
    rewrite (proj2 (Z.eqb_neq x 0)), (proj2 (Z.eqb_neq x c)) by congruence.
    rewrite (IH u (s + 1) m l); try done; [|lia|by replace (s + 1 + Z.of_nat (length u)) with (s + Z.of_nat (S (length u))) by lia].
    destruct (l =? 0); [done|]. f_equal. lia.
Qed.

(** The text in the buffer from [p] on, and its end. *)
Lemma strchr_none p m l : cstr m p l -> 10 ∉ l -> strchr p 10 m = Some 0.
Proof.
  intros Hc Hl. destruct (cstr_area _ _ _ Hc) as [Ha H0]. apply area_app in Ha as [Ha Hz]. apply area_cons in Hz as [Hz _].
  unfold strchr. rewrite (strchr_loop_ok 10 _ l p m 0); try done; [|by left]. by eapply cstr_fuel.
Qed.

Lemma strchr_some p m u l : cstr m p (u ++ 10 :: l) -> 10 ∉ u -> strchr p 10 m = Some (p + Z.of_nat (length u)).
Proof.
  intros Hc Hu. destruct (cstr_area _ _ _ Hc) as [Ha H0]. rewrite <- app_assoc in Ha. apply area_app in Ha as [Ha Hz]. apply area_cons in Hz as [Hz _].
  apply not_elem_of_app in H0 as [H0 _]. unfold strchr. rewrite (strchr_loop_ok 10 _ u p m 10); try done; [|by right].
  apply cstr_fuel in Hc. rewrite length_app in Hc. lia.
Qed.

(** ** The loops *)

(** [m'] differs from [m] only in the bytes from [a] to [b]. *)
Definition only (a b : Z) (m m' : mem) : Prop :=
  (forall x, ~ (a <= x < b) -> m' !! x = m !! x) /\ (forall x, is_Some (m !! x) -> is_Some (m' !! x)).

Lemma only_insert a b m x v : a <= x < b -> only a b m (<[x := v]> m).
Proof. intros Hx. split; [intros y Hy; apply lookup_insert_ne; lia|]. intros y Hy. rewrite lookup_insert. case_decide; eauto. Qed.

Lemma only_trans a b c m m1 m' : a <= b <= c -> only a b m m1 -> only b c m1 m' -> only a c m m'.
Proof. intros Hb [H1 H2] [H3 H4]. split; [|auto]. intros x Hx. rewrite H3, H1 by lia. done. Qed.

Lemma only_mapped a b m m' c n : only a b m m' -> mapped m c n -> mapped m' c n.
Proof. intros [_ H] Hm i Hi. by apply H, Hm. Qed.

Definition apart (a b c d : Z) : Prop := b <= c \/ d <= a.

Lemma only_cstr a b m m' c l : only a b m m' -> apart a b c (c + Z.of_nat (length l) + 1) -> cstr m c l -> cstr m' c l.
Proof. intros [H _] Hap. apply cstr_frame. intros x Hx. apply H. unfold apart in Hap. lia. Qed.

(** The first line of the buffer. *)
Lemma grep_line fuel pattern re p m out u l :
  cstr m p (u ++ 10 :: l) -> 10 ∉ u -> 0 < p -> cstr m pattern re ->
  apart p (p + Z.of_nat (length u) + 1) pattern (pattern + Z.of_nat (length re) + 1) ->
  exists m' o, grep_lines (S fuel) pattern p m out = grep_lines fuel pattern (p + Z.of_nat (length u) + 1) m' (out ++ o) /\
    only p (p + Z.of_nat (length u) + 1) m m' /\ (forall ls o', selected re ls o' -> selected re (u :: ls) (o ++ o')).
Proof.
  intros Hc Hu Hp Hre Hap. cbn [grep_lines]. rewrite (strchr_some _ _ _ _ Hc Hu). cbn [mbind option_bind]. set (q := p + Z.of_nat (length u)) in *.
  rewrite (proj2 (Z.eqb_neq q 0)) by lia. destruct (cstr_area _ _ _ Hc) as [Ha H0]. rewrite <- app_assoc in Ha.
  apply area_app in Ha as [Ha Hz]. apply area_cons in Hz as [Hz _]. apply not_elem_of_app in H0 as [H0 _]. fold q in Hz.
  rewrite st_ok by eauto. cbn [mbind option_bind]. set (m1 := <[q := 0]> m).
  assert (Ho1 : only p (q + 1) m m1) by (apply only_insert; lia).
  assert (Hm1 : cstr m1 p u).
  { apply area_cstr; [|done]. apply area_app. fold q. split; [eapply area_frame; [exact Ha|]; intros x Hx; apply lookup_insert_ne; lia|].
    apply area_cons. split; [apply lookup_insert_eq|by intros i x]. }
  destruct (match_ok m1 pattern p re u (only_cstr _ _ _ _ _ _ Ho1 Hap Hre) Hm1) as (b & -> & Hb). cbn [mbind option_bind]. destruct b.
  - rewrite st_ok by (unfold m1; rewrite lookup_insert_eq; eauto). cbn [mbind option_bind]. unfold m1. rewrite insert_insert_eq. set (m2 := <[q := 10]> m).
    assert (Hg : get (Z.to_nat (q + 1 - p)) m2 p = Some (u ++ [10])).
    { replace (Z.to_nat (q + 1 - p)) with (length (u ++ [10])) by (rewrite length_app; cbn; lia). apply get_ok, area_app. fold q.
      split; [eapply area_frame; [exact Ha|]; intros x Hx; apply lookup_insert_ne; lia|].
      apply area_cons. split; [apply lookup_insert_eq|by intros i x]. }
    rewrite Hg. cbn [mbind option_bind]. exists m2, (u ++ [10]). split_and!; [done|apply only_insert; lia|].
    intros ls o' Hs. rewrite <- app_assoc. constructor; [by apply Hb|done].
  - exists m1, []. rewrite app_nil_r. split_and!; [done|done|]. intros ls o' Hs. constructor; [rewrite <- Hb; done|done].
Qed.

Lemma grep_lines_ok pattern re fuel : forall l p m out,
  cstr m p l -> 0 < p -> cstr m pattern re -> apart p (p + Z.of_nat (length l) + 1) pattern (pattern + Z.of_nat (length re) + 1) ->
  (length l < fuel)%nat ->
  exists m' o, grep_lines fuel pattern p m out = Some (p + Z.of_nat (length l) - Z.of_nat (length (cut [] l).2), m', out ++ o) /\
    (length (cut [] l).2 <= length l)%nat /\ only p (p + Z.of_nat (length l) - Z.of_nat (length (cut [] l).2)) m m' /\
    area m (p + Z.of_nat (length l) - Z.of_nat (length (cut [] l).2)) (cut [] l).2 /\ selected re (cut [] l).1 o.
Proof.
  induction fuel as [|fuel IH]; intros l p m out Hc Hp Hre Hap Hf; [lia|]. destruct (first_line l) as [Hl|(u & l' & -> & Hu)].
  - rewrite cut_line by done. cbn [app fst snd grep_lines]. rewrite (strchr_none _ _ _ Hc Hl). cbn [mbind option_bind].
    replace (p + Z.of_nat (length l) - Z.of_nat (length l)) with p by lia. exists m, []. rewrite app_nil_r.
    destruct (cstr_area _ _ _ Hc) as [Ha _]. apply area_app in Ha as [Ha _]. split_and!; [done|done|by split|done|constructor].
  - rewrite cut_first by done. cbn [app fst snd]. rewrite length_app in *. cbn [length] in *. unfold apart in Hap.
    destruct (grep_line fuel pattern re p m out u l' Hc Hu Hp Hre) as (m1 & o1 & E1 & Ho1 & Hs1); [unfold apart; lia|].
    destruct (cstr_area _ _ _ Hc) as [Ha H0]. rewrite <- app_assoc in Ha. apply area_app in Ha as [_ Ha]. apply area_cons in Ha as [_ Ha].
    apply not_elem_of_app in H0 as [_ [_ H0]%not_elem_of_cons].
    destruct (IH l' (p + Z.of_nat (length u) + 1) m1 (out ++ o1)) as (m2 & o2 & E2 & Hlen & Ho2 & Har & Hs2); [| lia| |unfold apart; lia|lia|].
    { apply (only_cstr _ _ _ _ _ _ Ho1); [unfold apart; lia|]. by apply area_cstr. }
    { apply (only_cstr _ _ _ _ _ _ Ho1); [unfold apart; lia|done]. }
    replace (p + Z.of_nat (length u) + 1 + Z.of_nat (length l')) with (p + Z.of_nat (length u + S (length l'))) in * by lia.
    exists m2, (o1 ++ o2). rewrite E1, E2, app_assoc. split_and!; [done|lia| | |by apply Hs1].
    + eapply only_trans; [|exact Ho1|exact Ho2]. lia.
    + eapply area_frame; [exact Har|]. intros x Hx. symmetry. apply Ho1. lia.
Qed.

(** No line is longer than [k]. *)
Definition short (k : nat) (c : list (list Z) * list Z) : Prop := Forall (fun l => (length l <= k)%nat) c.1 /\ (length c.2 <= k)%nat.

Lemma short_cur k l : forall cur, short k (cut cur l) -> (length cur <= k)%nat.
Proof.
  induction l as [|c l IH]; intros cur; cbn [cut]; [by intros [_ H]|]. destruct (c =? 10).
  - intros [H _]. by apply list.Forall_cons in H as [H _].
  - intros H%IH. rewrite length_app in H. lia.
Qed.

(** What is known of the system call: [rest r] is the input still to come; a
    call gives some of it, and nothing only at its end or without room. *)
Record reader {R} (read : R -> Z -> option (list Z) * R) (rest : R -> list Z) : Prop := {
  rd_ok : forall r k, 0 <= k -> exists bs r', read r k = (Some bs, r') /\ rest r = bs ++ rest r' /\
    Z.of_nat (length bs) <= k /\ (bs = [] -> k = 0 \/ rest r = [])
}.

Section Filter.
Context {R : Type} (read : R -> Z -> option (list Z) * R) (rest : R -> list Z) (Hrd : reader read rest).
Context (pattern buf : Z) (re : list Z) (Hbuf : 0 < buf) (Hap : apart buf (buf + 1024) pattern (pattern + Z.of_nat (length re) + 1)).

Record ready (w : list Z) (m : mem) : Prop := {
  gr_line : 10 ∉ w;
  gr_text : 0 ∉ w;
  gr_buf : area m buf w;
  gr_room : mapped m buf 1024;
  gr_re : cstr m pattern re
}.

Lemma ready_only w w' m m' : ready w m -> only buf (buf + 1024) m m' -> 10 ∉ w' -> 0 ∉ w' -> area m' buf w' -> ready w' m'.
Proof.
  intros [H1 H2 H3 H4 H5] Ho Hn1 Hn2 Ha. split; [done|done|done|by eapply only_mapped|by apply (only_cstr _ _ _ _ _ _ Ho)].
Qed.

(** The bytes of a chunk are put after the kept ones, with a zero. *)
Lemma fill_ok w bs m :
  ready w m -> 0 ∉ bs -> (length w + length bs <= 1023)%nat ->
  exists m1, (m ← put m (buf + Z.of_nat (length w)) bs; st m (buf + (Z.of_nat (length w) + Z.of_nat (length bs))) 0) = Some m1 /\
    cstr m1 buf (w ++ bs) /\ only buf (buf + 1024) m m1.
Proof.
  intros [H1 H2 H3 H4 H5] Hbs Hlen. destruct (put_ok bs m (buf + Z.of_nat (length w))) as (m1 & -> & Ha & Hf & Hk).
  { intros i Hi. replace (buf + Z.of_nat (length w) + i) with (buf + (Z.of_nat (length w) + i)) by lia. apply H4. lia. }
  cbn [mbind option_bind]. rewrite st_ok by (apply (Hk buf 1024 H4); lia). eexists. split; [done|]. split.
  - apply area_cstr; [|by apply not_elem_of_app]. rewrite !area_app, length_app. split_and!.
    + eapply area_frame; [exact H3|]. intros x Hx. rewrite lookup_insert_ne by lia. apply Hf. lia.
    + eapply area_frame; [exact Ha|]. intros x Hx. apply lookup_insert_ne. lia.
    + apply area_cons. split; [|by intros i x]. rewrite Nat2Z.inj_add. apply lookup_insert_eq.
  - split; [intros x Hx; rewrite lookup_insert_ne by lia; apply Hf; lia|]. intros x [v Hx]. rewrite lookup_insert. case_decide; [eauto|].
    destruct (Hk x 1 ltac:(intros i Hi; replace (x + i) with x by lia; eauto) 0 ltac:(lia)) as [y Hy]. rewrite Z.add_0_r in Hy. eauto.
Qed.

(** The kept bytes are moved to the front. *)
Lemma keep_ok p w m m1 m2 :
  cstr m1 pattern re -> mapped m1 buf 1024 -> only buf (buf + 1024) m m1 -> only buf p m1 m2 -> buf <= p -> p + Z.of_nat (length w) <= buf + 1024 ->
  area m2 p w -> exists m3, umemmove buf p (Z.of_nat (length w)) m2 = Some m3 /\ area m3 buf w /\ only buf (buf + 1024) m m3.
Proof.
  intros Hre Hmp Ho1 Ho2 Hp Hlen Ha. assert (Ho : only buf (buf + 1024) m m2).
  { destruct Ho1 as [A1 A2], Ho2 as [B1 B2]. split; [|auto]. intros x Hx. rewrite B1, A1 by lia. done. }
  pose proof (only_mapped _ _ _ _ _ _ Ho2 Hmp) as Hm2.
  destruct (umemmove_ok buf p (Z.of_nat (length w)) m2) as (m3 & E & Hmv); [lia| | |].
  { intros i Hi. apply (mapped_at m2 buf 1024); [done|lia]. } { intros i Hi. apply Hm2. lia. }
  exists m3. split_and!; [done| |].
  - intros i x Hi. pose proof (lookup_lt_Some _ _ _ Hi). rewrite Hmv, decide_True by lia. rewrite <- (Ha i x Hi). f_equal. lia.
  - destruct Ho as [A1 A2]. split; [intros x Hx; rewrite Hmv, decide_False by lia; by apply A1|].
    intros x Hx. rewrite Hmv. case_decide; [|auto]. apply (mapped_at m2 buf 1024); [done|lia].
Qed.

Lemma grep_loop_ok fuel : forall w m r out,
  ready w m -> 0 ∉ rest r -> short 1022 (cut w (rest r)) -> (length (rest r) < fuel)%nat ->
  exists o, grep_loop read fuel pattern buf (Z.of_nat (length w)) m r out = Some (out ++ o) /\ selected re (cut w (rest r)).1 o.
Proof.
  induction fuel as [|fuel IH]; intros w m r out Hg Hz Hs Hf; [lia|]. cbn [grep_loop].
  pose proof (short_cur _ _ _ Hs) as Hw. destruct (rd_ok _ _ Hrd r (1024 - Z.of_nat (length w) - 1) ltac:(lia)) as (bs & r' & -> & Er & Hk & Hend).
  destruct bs as [|b bs'].
  { destruct (Hend eq_refl) as [?|E0]; [cbn in *; lia|]. rewrite E0. exists []. rewrite app_nil_r. split; [done|constructor]. }
  set (bs := b :: bs') in *. rewrite Er in Hz, Hs. apply not_elem_of_app in Hz as [Hz1 Hz2]. rewrite cut_app in Hs.
  destruct (fill_ok w bs m Hg Hz1 ltac:(lia)) as (m1 & E1 & Hc1 & Ho1).
  destruct (put m (buf + Z.of_nat (length w)) bs) as [m0|]; [|done]. cbn [mbind option_bind] in *. rewrite E1. cbn [mbind option_bind].
  assert (Hl : 0 < Z.of_nat (length bs)) by (cbn; lia).
  pose proof (only_cstr _ _ _ _ _ _ Ho1 Hap (gr_re _ _ Hg)) as Hre1. pose proof (only_mapped _ _ _ _ _ _ Ho1 (gr_room _ _ Hg)) as Hmp1.
  assert (Hcut : cut [] (w ++ bs) = cut w bs) by (rewrite cut_app, cut_line by apply Hg; cbn [app fst snd]; by destruct (cut w bs)).
  destruct (grep_lines_ok pattern re (str_fuel m1) (w ++ bs) buf m1 out Hc1 Hbuf Hre1) as (m2 & o1 & E2 & Hlen & Ho2 & Ha2 & Hs2).
  { rewrite length_app. unfold apart in *. lia. } { by eapply cstr_fuel. }
  rewrite Hcut in *. rewrite E2. cbn [mbind option_bind]. rewrite length_app in *. rewrite (proj2 (Z.ltb_lt _ _)) by lia.
  set (w' := (cut w bs).2) in *. set (p := buf + Z.of_nat (length w + length bs) - Z.of_nat (length w')) in *.
  replace (Z.of_nat (length w) + Z.of_nat (length bs) - (p - buf)) with (Z.of_nat (length w')) by lia.
  destruct (keep_ok p w' m m1 m2 Hre1 Hmp1 Ho1 Ho2 ltac:(lia) ltac:(lia)) as (m3 & E3 & Ha3 & Ho3).
  { eapply area_frame; [exact Ha2|]. intros x Hx. apply Ho2. lia. }
  rewrite E3. cbn [mbind option_bind]. destruct (IH w' m3 r' (out ++ o1)) as (o2 & E4 & Hs4).
  - eapply ready_only; [exact Hg|done|apply cut_rest, Hg| |done]. intros [H0|H0]%cut_sub; [by apply (gr_text _ _ Hg)|done].
  - done.
  - destruct Hs as [Hs Ht]. split; [by apply Forall_app in Hs as [_ Hs]|done].
  - rewrite Er, length_app in Hf. lia.
  - exists (o1 ++ o2). rewrite E4, app_assoc. split; [done|]. rewrite Er, cut_app. by apply selected_app.
Qed.
End Filter.

(** [match] terminates on any pattern and any text and returns 1 exactly
    when the text matches: at its start when the pattern starts with [^], and
    otherwise anywhere in the text, with [.], [c*] and a final [$] in the sense
    of [here]. *)
Theorem grep_match_spec (m : mem) (re text : Z) (rl tl : list Z) :
  cstr m re rl -> cstr m text tl -> exists b, match_ re text m = Some b /\ (b = true <-> matches rl tl).
Proof. intros Hr Ht. exact (match_ok m re text rl tl Hr Ht). Qed.

(** The pattern [a.*d$] and the text [xabcd]. *)
Definition demo_text : mem := bytes_at 100 [97; 46; 42; 100; 36; 0; 120; 97; 98; 99; 100; 0].

Lemma grep_match_spec_witness : match_ 100 106 demo_text = Some true /\ matches [97; 46; 42; 100; 36] [120; 97; 98; 99; 100].
Proof.
  destruct (grep_match_spec demo_text 100 106 [97; 46; 42; 100; 36] [120; 97; 98; 99; 100]) as (b & E & Hb).
  - vm_compute. intuition congruence.
  - vm_compute. intuition congruence.
  - assert (Et : match_ 100 106 demo_text = Some true) by (vm_compute; reflexivity). rewrite Et in E. injection E as <-.
    split; [exact Et|]. apply Hb. reflexivity.
Defined.

(** C35: [grep] writes exactly the lines of its input that match, each with its
    newline and in their order, however the input is cut into chunks by [read],
    provided the input has no zero byte and no line is longer than 1022 bytes;
    what follows the last newline is not looked at.  It ends after at most one
    [read] more than the input has bytes. *)
Theorem grep_spec {R} (read : R -> Z -> option (list Z) * R) (rest : R -> list Z) (m : mem) (pattern buf : Z) (re : list Z) (r : R) (fuel : nat) :
  reader read rest -> cstr m pattern re -> mapped m buf 1024 -> 0 < buf ->
  apart buf (buf + 1024) pattern (pattern + Z.of_nat (length re) + 1) ->
  0 ∉ rest r -> short 1022 (cut [] (rest r)) -> (length (rest r) < fuel)%nat ->
  exists out, grep read fuel pattern buf m r = Some out /\ selected re (cut [] (rest r)).1 out.
Proof.
  intros Hrd Hre Hm Hb Hap Hz Hs Hf. unfold grep.
  destruct (grep_loop_ok read rest Hrd pattern buf re Hb Hap fuel [] m r []) as (o & E & Hsel); try done; [|by exists o].
  split; [by apply not_elem_of_nil..| |done|done]. by intros i x.
Qed.

(** Reads of three bytes at a time. *)
Definition read3 (l : list Z) (k : Z) : option (list Z) * list Z :=
  (Some (take (Nat.min 3 (Z.to_nat k)) l), drop (Nat.min 3 (Z.to_nat k)) l).

Lemma read3_reader : reader read3 (fun l => l).
Proof.
  split. intros r k Hk. eexists _, _. split; [done|]. split_and!; [by rewrite take_drop|rewrite length_take; lia|].
  intros H. apply (f_equal length) in H. rewrite length_take in H. destruct r; [by right|]. cbn [length] in H. left. lia.
Qed.

(** The pattern [o$] and the lines [foo], [bar], [to]. *)
Definition demo_buf : mem := bytes_at 10 [111; 36; 0] ∪ bytes_at 100 (replicate 1024 0).
Definition demo_input : list Z := [102; 111; 111; 10; 98; 97; 114; 10; 116; 111; 10].

Lemma grep_spec_witness : exists out, grep read3 12 10 100 demo_buf demo_input = Some out /\
  selected [111; 36] [[102; 111; 111]; [98; 97; 114]; [116; 111]] out.
Proof.
  apply (grep_spec read3 (fun l => l) demo_buf 10 100 [111; 36] demo_input 12 read3_reader).
  - vm_compute. intuition congruence.
  - intros i Hi. unfold demo_buf. apply lookup_union_is_Some. right. apply (mapped_bytes_at 100 _ 1024); [rewrite length_replicate; lia|exact Hi].
  - lia.
  - right. cbn. lia.
  - vm_compute. intros H. repeat (apply elem_of_cons in H as [H|H]; [discriminate H|]). by apply elem_of_nil in H.
  - split; [repeat constructor; cbn; lia|cbn; lia].
  - cbn. lia.
Defined.
