(* ===== verification/Umalloc.v ===== *)
(** * user/umalloc.c: the memory allocator of user programs

    Free blocks are on a circular list in order of their addresses, which starts
    at the static header [base].  Memory is the headers in it: a header may be
    anywhere below the end of the memory of the process, which [sbrk] moves.
    A load of a header that was never stored, or a store outside the memory,
    has no result. *)

From S2P Require Import Prelude.

(** The system call [sbrk], and the end of the memory.  It is asked for more
    memory only; it refuses, or moves the end.  A process has no more memory
    than the machine, 128 MB. *)
Class Sbrk (W : Type) := {
  sbrk : Z -> W -> Z * W;
  brk : W -> Z
}.

Class SbrkOk (W : Type) {HW : Sbrk W} := {
  sbrk_ok n w : 0 < n < 2 ^ 31 ->
    exists w', sbrk n w = (2 ^ 64 - 1, w') /\ brk w' = brk w \/ sbrk n w = (brk w, w') /\ brk w' = brk w + n /\ brk w' <= 2 ^ 27
}.

Record header := mkh { h_ptr : Z; h_size : Z }.

Record uheap (W : Type) := mkuh { hdrs : gmap Z header; freep : Z; world : W }.
Arguments mkuh {W} hdrs freep world.
Arguments hdrs {W} _.
Arguments freep {W} _.
Arguments world {W} _.

Section Umalloc.
Context {W : Type} {HW : Sbrk W} (base : Z).

Abbreviation A := (M (uheap W)).

Definition set_hdrs (m : gmap Z header) (s : uheap W) : uheap W := mkuh m (freep s) (world s).
Definition set_freep (p : Z) (s : uheap W) : uheap W := mkuh (hdrs s) p (world s).

(** [*p], a header. *)
Definition hd (p : Z) : A header := fun s => match hdrs s !! p with Some h => Ret h s | None => Fault end.

Definition put (p : Z) (f : header -> header) : A unit := fun s =>
  if decide (0 <= p /\ p + 16 <= brk (world s)) then Ret tt (set_hdrs (<[p := f (default (mkh 0 0) (hdrs s !! p))]> (hdrs s)) s) else Fault.

Definition set_ptr (p q : Z) : A unit := put p (fun h => mkh q (h_size h)).
Definition set_size (p n : Z) : A unit := put p (fun h => mkh (h_ptr h) n).

(** [p + n] for a pointer to headers. *)
Definition plus (p n : Z) : Z := u64 (p + 16 * n).

(** The loop of [free]: the block after which [bp] belongs. *)
Fixpoint free_loop (fuel : nat) (bp p : Z) : A Z :=
  match fuel with
  | O => nofuel
  | S fuel =>
      h <- hd p ;;
      if (p <? bp) && (bp <? h_ptr h) then ret p
      else if (h_ptr h <=? p) && ((p <? bp) || (bp <? h_ptr h)) then ret p
      else free_loop fuel bp (h_ptr h)
  end.

(** The list is gone round at most twice. *)
Definition ring_fuel (s : uheap W) : nat := 2 * size (hdrs s) + 2.

Definition free (ap : Z) : A unit :=
  let bp := plus ap (-1) in
  fuel <- gets ring_fuel ;;
  fp <- gets freep ;;
  p <- free_loop fuel bp fp ;;
  b <- hd bp ;;
  x <- hd p ;;
  (if plus bp (h_size b) =? h_ptr x then
     n <- hd (h_ptr x) ;;
     set_size bp (u32 (h_size b + h_size n)) ;;;
     x <- hd p ;;
     n <- hd (h_ptr x) ;;
     set_ptr bp (h_ptr n)
   else set_ptr bp (h_ptr x)) ;;;
  x <- hd p ;;
  (if plus p (h_size x) =? bp then
     b <- hd bp ;;
     set_size p (u32 (h_size x + h_size b)) ;;;
     b <- hd bp ;;
     set_ptr p (h_ptr b)
   else set_ptr p bp) ;;;
  modify (set_freep p).

Definition morecore (nu : Z) : A Z :=
  let nu := if nu <? 4096 then 4096 else nu in
  w <- gets world ;;
  let '(p, w) := sbrk (s32 (nu * 16)) w in
  modify (fun s => mkuh (hdrs s) (freep s) w) ;;;
  if p =? 2 ^ 64 - 1 then ret 0 else
  set_size p nu ;;;
  free (plus p 1) ;;;
  gets freep.

(** The block [p] after [prevp] is large enough. *)
Definition take_block (prevp p nunits : Z) : A Z :=
  x <- hd p ;;
  p <- (if h_size x =? nunits then
          set_ptr prevp (h_ptr x) ;;;
          ret p
        else
          set_size p (u32 (h_size x - nunits)) ;;;
          x <- hd p ;;
          set_size (plus p (h_size x)) nunits ;;;
          ret (plus p (h_size x))) ;;
  modify (set_freep prevp) ;;;
  ret (plus p 1).

Fixpoint malloc_loop (fuel : nat) (nunits prevp p : Z) : A Z :=
  match fuel with
  | O => nofuel
  | S fuel =>
      x <- hd p ;;
      if nunits <=? h_size x then take_block prevp p nunits else
      fp <- gets freep ;;
      o <- (if p =? fp then q <- morecore nunits ;; ret (if q =? 0 then None else Some q) else ret (Some p)) ;;
      match o with
      | None => ret 0
      | Some p => x <- hd p ;; malloc_loop fuel nunits p (h_ptr x)
      end
  end.

Definition nunits_of (nbytes : Z) : Z := u32 ((nbytes + 16 - 1) / 16 + 1).

Definition malloc (nbytes : Z) : A Z :=
  let nunits := nunits_of nbytes in
  prevp <- gets freep ;;
  prevp <- (if prevp =? 0 then
              modify (set_freep base) ;;;
              set_ptr base base ;;;
              set_size base 0 ;;;
              ret base
            else ret prevp) ;;
  fuel <- gets ring_fuel ;;
  x <- hd prevp ;;
  malloc_loop (fuel + fuel + 4) nunits prevp (h_ptr x).

End Umalloc.
