(* ===== verification/UmallocSpec.v ===== *)
(** * What the user allocator keeps

    The free blocks as a list in order of addresses, the allocated blocks as a
    map, both as sets of addresses that never meet. *)

From Stdlib Require Import Sorted.
From S2P Require Import Prelude Umalloc.

(** ** Lists of blocks *)

(** A block is its address and its size in units of 16 bytes. *)
Abbreviation blk := (Z * Z)%type.

Definition within (b : blk) (x : Z) : Prop := b.1 <= x < b.1 + 16 * b.2.
Definition covers (l : list blk) (x : Z) : Prop := exists b, b ∈ l /\ within b x.

(** Blocks in order that do not touch. *)
Definition before (b c : blk) : Prop := b.1 + 16 * b.2 < c.1.

Lemma covers_nil x : covers [] x <-> False.
Proof. split; [|done]. by intros (b & ?%not_elem_of_nil & _). Qed.

Lemma covers_cons b l x : covers (b :: l) x <-> within b x \/ covers l x.
Proof.
  split.
  - intros (c & [->|Hc]%elem_of_cons & Hx); [by left|right; by exists c].
  - intros [Hx|(c & Hc & Hx)]; [exists b|exists c]; split; try done; by constructor.
Qed.

Lemma covers_app l1 l2 x : covers (l1 ++ l2) x <-> covers l1 x \/ covers l2 x.
Proof. induction l1 as [|b l1 IH]; cbn [app]; [rewrite covers_nil; tauto|]. rewrite !covers_cons, IH. tauto. Qed.

(** What [free] makes of the blocks after [bp], and of the one before. *)
Definition merge_right (b : blk) (l : list blk) : list blk :=
  match l with
  | n :: r => if b.1 + 16 * b.2 =? n.1 then (b.1, b.2 + n.2) :: r else b :: l
  | [] => [b]
  end.

Definition merge_left (p : blk) (l : list blk) : list blk :=
  match l with
  | b :: r => if p.1 + 16 * p.2 =? b.1 then (p.1, p.2 + b.2) :: r else p :: l
  | [] => [p]
  end.

Definition first (l : list blk) (e : Z) : Z := match l with [] => e | b :: _ => b.1 end.

Lemma sorted_app l1 l2 : StronglySorted before (l1 ++ l2) <-> (forall b c, b ∈ l1 -> c ∈ l2 -> before b c) /\ StronglySorted before l1 /\ StronglySorted before l2.
Proof.
  induction l1 as [|b l1 IH]; cbn [app].
  - split; [intros H; split_and!; [by intros b c ?%not_elem_of_nil|constructor|done]|by intros (_ & _ & H)].
  - split.
    + intros [H1 H2]%StronglySorted_inv. apply IH in H1 as (H3 & H4 & H5). rewrite Forall_app in H2. destruct H2 as [H6 H7]. split_and!; [|by constructor|done].
      intros c d [->|Hc]%elem_of_cons Hd; [rewrite list.Forall_forall in H7; by apply H7|by apply H3].
    + intros (H1 & [H2 H3]%StronglySorted_inv & H4). constructor; [apply IH; split_and!; try done; intros c d Hc Hd; apply H1; [by constructor|done]|].
      rewrite Forall_app. split; [done|]. rewrite list.Forall_forall. intros c Hc. apply H1; [by constructor|done].
Qed.

Lemma sorted_cons b l : StronglySorted before (b :: l) <-> (forall c, c ∈ l -> before b c) /\ StronglySorted before l.
Proof. split; [intros [H1 H2]%StronglySorted_inv; by rewrite list.Forall_forall in H2|intros [H1 H2]; constructor; [done|by rewrite list.Forall_forall]]. Qed.

Definition positive (l : list blk) : Prop := forall b, b ∈ l -> 0 < b.2.

(** Merging keeps the order and covers the same addresses. *)
Lemma merge_right_ok b l : 0 < b.2 -> StronglySorted before l -> positive l -> (forall n, n ∈ l -> b.1 + 16 * b.2 <= n.1) ->
  StronglySorted before (merge_right b l) /\ positive (merge_right b l) /\ (forall x, covers (merge_right b l) x <-> within b x \/ covers l x) /\
  exists z r, merge_right b l = (b.1, z) :: r.
Proof.
  intros Hb Hs Hp Hn. destruct b as [bp w]. unfold merge_right. cbn [fst snd] in *. destruct l as [|[n zn] r].
  - split_and!; [by repeat constructor|by intros c ->%list_elem_of_singleton|intros x; by rewrite covers_cons|by exists w, []].
  - apply sorted_cons in Hs as [Hs1 Hs2]. pose proof (Hp (n, zn) ltac:(constructor)) as Hzn. cbn [fst snd] in *. destruct (Z.eqb_spec (bp + 16 * w) n) as [E|E].
    + split_and!; [|intros c [->|Hc]%elem_of_cons; cbn; [lia|apply Hp; by constructor]| |by eexists _, _].
      * apply sorted_cons. split; [|done]. intros c Hc. specialize (Hs1 c Hc). unfold before in *. cbn in *. lia.
      * intros x. rewrite !covers_cons. unfold within. cbn. split; [intros [H|H]; [|tauto]|intros [H|[H|H]]; [| |tauto]]; lia.
    + split_and!; [|intros c [->|Hc]%elem_of_cons; cbn; [lia|by apply Hp]|intros x; by rewrite covers_cons|by eexists _, _].
      apply sorted_cons. split; [|apply sorted_cons; by split]. intros c [->|Hc]%elem_of_cons; unfold before; cbn; [specialize (Hn (n, zn) ltac:(constructor)); cbn in Hn; lia|].
      specialize (Hs1 c Hc). specialize (Hn (n, zn) ltac:(constructor)). unfold before in Hs1. cbn in *. lia.
Qed.

Lemma merge_left_ok p l : 0 <= p.2 -> StronglySorted before l -> positive l -> (forall n, n ∈ l -> p.1 + 16 * p.2 <= n.1) ->
  StronglySorted before (merge_left p l) /\ (forall x, covers (merge_left p l) x <-> within p x \/ covers l x) /\
  (exists z r, merge_left p l = (p.1, z) :: r /\ positive r /\ (0 < p.2 -> 0 < z)).
Proof.
  intros Hb Hs Hp Hn. destruct p as [q zq]. unfold merge_left. cbn [fst snd] in *. destruct l as [|[n zn] r].
  - split_and!; [by repeat constructor|intros x; by rewrite covers_cons|exists zq, []; split_and!; [done|by intros c ?%not_elem_of_nil|done]].
  - apply sorted_cons in Hs as [Hs1 Hs2]. pose proof (Hp (n, zn) ltac:(constructor)) as Hzn. assert (Hr : positive r) by (intros c Hc; apply Hp; by constructor). cbn [fst snd] in *.
    destruct (Z.eqb_spec (q + 16 * zq) n) as [E|E].
    + split_and!; [| |eexists _, _; split_and!; [done|done|lia]].
      * apply sorted_cons. split; [|done]. intros c Hc. specialize (Hs1 c Hc). unfold before in *. cbn in *. lia.
      * intros x. rewrite !covers_cons. unfold within. cbn. split; [intros [H|H]; [|tauto]|intros [H|[H|H]]; [| |tauto]]; lia.
    + split_and!; [|intros x; by rewrite covers_cons|eexists _, _; split_and!; [done|done|lia]].
      apply sorted_cons. split; [|apply sorted_cons; by split]. intros c [->|Hc]%elem_of_cons; unfold before; cbn; [specialize (Hn (n, zn) ltac:(constructor)); cbn in Hn; lia|].
      specialize (Hs1 c Hc). specialize (Hn (n, zn) ltac:(constructor)). unfold before in Hs1. cbn in *. lia.
Qed.

(** ** The ring of headers *)

(** The headers of [l] are linked, the last to [e]. *)
Fixpoint seg (m : gmap Z header) (l : list blk) (e : Z) : Prop :=
  match l with
  | [] => True
  | b :: l => m !! b.1 = Some (mkh (first l e) b.2) /\ seg m l e
  end.

Lemma first_app l1 l2 e : first (l1 ++ l2) e = first l1 (first l2 e).
Proof. by destruct l1. Qed.

Lemma seg_app m l1 l2 e : seg m (l1 ++ l2) e <-> seg m l1 (first l2 e) /\ seg m l2 e.
Proof. induction l1 as [|b l1 IH]; cbn [seg app]; [tauto|]. rewrite first_app, IH. tauto. Qed.

Lemma seg_insert m l e a h : (forall b, b ∈ l -> b.1 <> a) -> seg m l e -> seg (<[a := h]> m) l e.
Proof.
  induction l as [|b l IH]; intros Ha; [done|]. intros [H1 H2]. split; [|apply IH; [intros c Hc; apply Ha; by constructor|done]].
  rewrite lookup_insert_ne; [done|]. intros ->. apply (Ha b); [by constructor|done].
Qed.

Lemma seg_at m l e b : seg m l e -> b ∈ l -> exists q, m !! b.1 = Some (mkh q b.2).
Proof. induction l as [|c l IH]; intros Hs Hb; [by apply not_elem_of_nil in Hb|]. destruct Hs as [H1 H2]. apply elem_of_cons in Hb as [->|Hb]; [by eexists|by apply IH]. Qed.

Lemma sorted_unique l b c : StronglySorted before l -> (forall d, d ∈ l -> 0 <= d.2) -> b ∈ l -> c ∈ l -> b.1 = c.1 -> b = c.
Proof.
  induction l as [|d l IH]; intros Hs Hp Hb Hc E; [by apply not_elem_of_nil in Hb|]. apply sorted_cons in Hs as [H1 H2]. pose proof (Hp d ltac:(constructor)) as Hd.
  apply elem_of_cons in Hb as [->|Hb], Hc as [->|Hc]; [done|specialize (H1 c Hc)|specialize (H1 b Hb)|apply IH; try done; intros x Hx; apply Hp; by constructor]; unfold before in H1; lia.
Qed.

Section Spec.
Context {W : Type} {HW : Sbrk W} (base : Z).

Implicit Types (s : uheap W) (L : list blk) (A : gmap Z Z).

Abbreviation ring L := ((base, 0) :: L).

(** [L] are the free blocks and [A] the allocated ones.  The heap is the memory
    between [base] and the end. *)
Record uinv s L A : Prop := {
  ui_ring : seg (hdrs s) (ring L) base;
  ui_sorted : StronglySorted before (ring L);
  ui_pos : positive L;
  ui_freep : exists b, b ∈ ring L /\ b.1 = freep s;
  ui_free : forall x, covers L x -> base + 16 <= x < brk (world s);
  ui_alloc : forall a z, A !! a = Some z -> 0 < z /\ base + 16 <= a /\ a + 16 * z <= brk (world s) /\ exists q, hdrs s !! a = Some (mkh q z);
  ui_sep : forall x a z, A !! a = Some z -> covers L x -> within (a, z) x -> False;
  ui_apart : forall x a z a' z', A !! a = Some z -> A !! a' = Some z' -> within (a, z) x -> within (a', z') x -> a = a';
  ui_mem : 0 < base /\ base + 16 <= brk (world s) <= 2 ^ 27
}.

Lemma ui_size s L A b : uinv s L A -> b ∈ ring L -> 0 <= b.2.
Proof. intros Hi [->|Hb]%elem_of_cons; [done|]. pose proof (ui_pos _ _ _ Hi b Hb). lia. Qed.

Lemma ui_block s L A b : uinv s L A -> b ∈ L -> 0 < b.2 /\ base + 16 <= b.1 /\ b.1 + 16 * b.2 <= brk (world s).
Proof.
  intros Hi Hb. pose proof (ui_pos _ _ _ Hi b Hb) as Hp. pose proof (ui_free _ _ _ Hi b.1 ltac:(exists b; split; [done|unfold within; lia])).
  pose proof (ui_free _ _ _ Hi (b.1 + 16 * b.2 - 1) ltac:(exists b; split; [done|unfold within; lia])). lia.
Qed.

Lemma ui_ring_range s L A b : uinv s L A -> b ∈ ring L -> base <= b.1 /\ b.1 + 16 * b.2 <= brk (world s) /\ b.1 + 16 <= brk (world s).
Proof. intros Hi [->|Hb]%elem_of_cons; cbn [fst snd]; [pose proof (ui_mem _ _ _ Hi); lia|]. pose proof (ui_block _ _ _ _ Hi Hb). lia. Qed.

(** The header of an allocated block is not on the ring. *)
Lemma ui_off_ring s L A a z b : uinv s L A -> A !! a = Some z -> b ∈ ring L -> b.1 <> a /\ (b.1 < a -> b.1 + 16 * b.2 <= a) /\ (a < b.1 -> a + 16 * z <= b.1).
Proof.
  intros Hi Ha Hb. destruct (ui_alloc _ _ _ Hi a z Ha) as (Hz & H1 & H2 & _). apply elem_of_cons in Hb as [->|Hb]; [cbn; lia|]. pose proof (ui_block _ _ _ _ Hi Hb) as (H3 & H4 & H5).
  assert (Hx : forall x, within b x -> within (a, z) x -> False) by (intros x Hw Hw'; apply (ui_sep _ _ _ Hi x a z Ha); [by exists b|done]). unfold within in Hx. cbn in Hx.
  split_and!; [intros E; apply (Hx a); lia|intros E; destruct (decide (b.1 + 16 * b.2 <= a)); [done|exfalso; apply (Hx a); lia]|intros E; destruct (decide (a + 16 * z <= b.1)); [done|exfalso; apply (Hx b.1); lia]].
Qed.

Lemma ring_length s L e : seg (hdrs s) L e -> StronglySorted before L -> (forall d, d ∈ L -> 0 <= d.2) -> (length L <= size (hdrs s))%nat.
Proof.
  intros Hs Ho Hp. rewrite <- (length_fmap fst L), <- (size_dom (D := gset Z) (hdrs s)).
  assert (Hn : NoDup L.*1).
  { clear Hs. induction L as [|b L IH]; [constructor|]. apply sorted_cons in Ho as [H1 H2]. cbn [fmap list_fmap]. constructor; [|apply IH; [done|intros d Hd; apply Hp; by constructor]].
    intros (c & E & Hc)%list_elem_of_fmap. specialize (H1 c Hc). unfold before in H1. pose proof (Hp b ltac:(constructor)). lia. }
  rewrite <- (size_list_to_set (C := gset Z) _ Hn). apply subseteq_size. intros a (b & -> & Hb)%elem_of_list_to_set%list_elem_of_fmap.
  destruct (seg_at _ _ _ _ Hs Hb) as [q Hq]. apply elem_of_dom. by eexists.
Qed.

Lemma hd_ok s p h : hdrs s !! p = Some h -> hd p s = Ret h s.
Proof. intros E. unfold hd. by rewrite E. Qed.

Lemma hput_ok s p f : 0 <= p -> p + 16 <= brk (world s) -> put p f s = Ret tt (set_hdrs (<[p := f (default (mkh 0 0) (hdrs s !! p))]> (hdrs s)) s).
Proof. intros H1 H2. unfold put. by rewrite decide_True by lia. Qed.

Lemma set_ptr_ok s p q h : 0 <= p -> p + 16 <= brk (world s) -> hdrs s !! p = Some h -> set_ptr p q s = Ret tt (set_hdrs (<[p := mkh q (h_size h)]> (hdrs s)) s).
Proof. intros H1 H2 E. unfold set_ptr. rewrite hput_ok by done. by rewrite E. Qed.

Lemma hset_size_ok s p n h : 0 <= p -> p + 16 <= brk (world s) -> hdrs s !! p = Some h -> set_size p n s = Ret tt (set_hdrs (<[p := mkh (h_ptr h) n]> (hdrs s)) s).
Proof. intros H1 H2 E. unfold set_size. rewrite hput_ok by done. by rewrite E. Qed.

(** ** [free] *)

(** [q] is the last block of the ring below [bp]. *)
Definition found (ns : list blk) (bp : Z) (t1 : list blk) (q : blk) (t2 : list blk) : Prop :=
  ns = t1 ++ q :: t2 /\ q.1 < bp /\ forall n, n ∈ t2 -> bp < n.1.

Lemma sorted_from l1 b l2 c : StronglySorted before (l1 ++ b :: l2) -> c ∈ l2 -> before b c.
Proof. intros (_ & _ & [H _]%sorted_cons)%sorted_app Hc. by apply H. Qed.

Lemma find_up s bp l2 : forall ns l1 p fuel, seg (hdrs s) ns base -> StronglySorted before ns -> (forall b, b ∈ ns -> 0 <= b.2 /\ base <= b.1 /\ b.1 <> bp) -> base < bp ->
  ns = l1 ++ p :: l2 -> p.1 < bp -> (length l2 < fuel)%nat -> exists t1 q t2, found ns bp t1 q t2 /\ free_loop fuel bp p.1 s = Ret q.1 s.
Proof.
  induction l2 as [|a l2 IH]; intros ns l1 p fuel Hseg Hs Hb Hbase Hns Hp Hf; (destruct fuel as [|fuel]; [cbn in Hf; lia|]); rewrite Hns in Hseg; apply seg_app in Hseg as [Hseg1 [Hh Hseg2]]; cbn [free_loop]; rewrite (bind_ret_l _ _ _ _ _ (hd_ok _ _ _ Hh)); cbn [h_ptr first].
  - exists l1, p, []. split; [split_and!; [done|done|by intros n ?%not_elem_of_nil]|]. destruct (Hb p) as (_ & Hp' & _); [rewrite Hns; apply elem_of_app; right; constructor|].
    rewrite (proj2 (Z.ltb_lt p.1 bp)), (proj2 (Z.ltb_ge bp base)), (proj2 (Z.leb_le base p.1)) by lia. done.
  - assert (Hap : before p a) by (rewrite Hns in Hs; apply (sorted_from _ _ _ _ Hs); constructor). unfold before in Hap. assert (Hin : p ∈ ns /\ a ∈ ns) by (rewrite Hns; set_solver).
    destruct (Hb p) as (Hp0 & _ & _); [apply Hin|]. destruct (Hb a) as (_ & _ & Ha); [apply Hin|]. rewrite (proj2 (Z.ltb_lt p.1 bp)) by lia. cbn [andb]. destruct (Z.ltb_spec bp a.1) as [Hlt|Hge].
    + exists l1, p, (a :: l2). split; [split_and!; try done|done]. intros n [->|Hn]%elem_of_cons; [done|].
      assert (Han : before a n) by (rewrite Hns in Hs; apply (sorted_from (l1 ++ [p]) a l2); [by rewrite <- app_assoc|done]). destruct (Hb a) as (Ha0 & _); [apply Hin|]. unfold before in Han. lia.
    + rewrite (proj2 (Z.leb_gt a.1 p.1)) by lia. cbn [andb]. apply (IH ns (l1 ++ [p]) a fuel); try done; [rewrite Hns; apply seg_app; by split|by rewrite <- app_assoc|lia|cbn in Hf; lia].
Qed.

Lemma find_wrap s bp l2 : forall ns l1 p fuel, seg (hdrs s) ns base -> StronglySorted before ns -> (forall b, b ∈ ns -> 0 <= b.2 /\ base <= b.1 /\ b.1 <> bp) -> base < bp ->
  first ns base = base -> ns <> [] -> ns = l1 ++ p :: l2 -> bp < p.1 -> (length l2 + length ns < fuel)%nat -> exists t1 q t2, found ns bp t1 q t2 /\ free_loop fuel bp p.1 s = Ret q.1 s.
Proof.
  induction l2 as [|a l2 IH]; intros ns l1 p fuel Hseg Hs Hb Hbase Hfirst Hne Hns Hp Hf; (destruct fuel as [|fuel]; [cbn in Hf; lia|]); pose proof Hseg as Hseg0; rewrite Hns in Hseg; apply seg_app in Hseg as [Hseg1 [Hh Hseg2]];
    cbn [free_loop]; rewrite (bind_ret_l _ _ _ _ _ (hd_ok _ _ _ Hh)); cbn [h_ptr first]; rewrite (proj2 (Z.ltb_ge p.1 bp)) by lia; cbn [andb orb].
  - rewrite (proj2 (Z.ltb_ge bp base)) by lia. rewrite andb_false_r. destruct ns as [|c ns']; [done|]. cbn [first] in Hfirst. rewrite <- Hfirst. apply (find_up s bp ns' (c :: ns') []); try done; [lia|cbn in Hf; lia].
  - assert (Hap : before p a) by (rewrite Hns in Hs; apply (sorted_from _ _ _ _ Hs); constructor). unfold before in Hap. destruct (Hb p) as (Hp0 & _ & _); [rewrite Hns; set_solver|].
    rewrite (proj2 (Z.leb_gt a.1 p.1)) by lia. cbn [andb]. apply (IH ns (l1 ++ [p]) a fuel); try done; [by rewrite <- app_assoc|lia|cbn in Hf; lia].
Qed.

(** The loop of [free] finds its place within the fuel. *)
Lemma ufree_loop_ok s L A bp w : uinv s L A -> A !! bp = Some w -> exists t1 q t2, found (ring L) bp t1 q t2 /\ free_loop (ring_fuel s) bp (freep s) s = Ret q.1 s.
Proof.
  intros Hi Hw. destruct (ui_freep _ _ _ Hi) as (b & Hb & <-). pose proof (ui_ring _ _ _ Hi) as Hr. pose proof (ui_sorted _ _ _ Hi) as Hs. destruct (ui_alloc _ _ _ Hi _ _ Hw) as (_ & Hbp & _).
  assert (Hall : forall b, b ∈ ring L -> 0 <= b.2 /\ base <= b.1 /\ b.1 <> bp) by (intros c Hc; split_and!; [by apply (ui_size _ _ _ _ Hi)|by apply (ui_ring_range _ _ _ _ Hi)|by apply (ui_off_ring _ _ _ _ _ _ Hi Hw)]).
  pose proof (ring_length _ _ _ Hr Hs ltac:(intros d Hd; by apply Hall)) as Hlen. destruct (list_elem_of_split _ _ Hb) as (l1 & l2 & El). assert (Hl2 : (length l2 < length (ring L))%nat) by (rewrite El, length_app; cbn; lia).
  destruct (Hall b Hb) as (_ & _ & Hne). destruct (decide (b.1 < bp)).
  - apply (find_up s bp l2 (ring L) l1 b); try done; [lia|unfold ring_fuel; lia].
  - apply (find_wrap s bp l2 (ring L) l1 b); try done; [lia|lia|unfold ring_fuel; lia].
Qed.

(** The sizes of blocks in the heap are far from overflowing. *)
Lemma plus_small p n : 0 <= p + 16 * n < 2 ^ 64 -> plus p n = p + 16 * n.
Proof. intros H. unfold plus. by apply u64_small. Qed.

Lemma free_right s bp q0 w p zp t2 : hdrs s !! bp = Some (mkh q0 w) -> hdrs s !! p = Some (mkh (first t2 base) zp) -> p <> bp -> seg (hdrs s) t2 base -> (forall n, n ∈ t2 -> n.1 <> bp /\ 0 <= w + n.2 < 2 ^ 32) ->
  0 <= bp -> 0 <= w -> bp + 16 <= brk (world s) -> bp + 16 * w < 2 ^ 64 -> base <> bp + 16 * w ->
  (if plus bp w =? first t2 base then
     n <- hd (first t2 base) ;; set_size bp (u32 (w + h_size n)) ;;; x <- hd p ;; n <- hd (h_ptr x) ;; set_ptr bp (h_ptr n)
   else set_ptr bp (first t2 base)) s = Ret tt (set_hdrs (<[bp := mkh (first (tail (merge_right (bp, w) t2)) base) (default 0 (head (merge_right (bp, w) t2).*2))]> (hdrs s)) s).
Proof.
  intros Hb Hp Hpb Hseg Hn H1 H2 H3 H4 H5. rewrite plus_small by lia. unfold merge_right. cbn [fst snd]. destruct t2 as [|[n zn] r]; cbn [first fst snd].
  - rewrite (proj2 (Z.eqb_neq _ _)) by lia. by rewrite (set_ptr_ok _ _ _ _ H1 H3 Hb).
  - destruct Hseg as [Hh Hseg]. cbn [fst snd] in Hh. destruct (Hn (n, zn)) as [Hnb Hz]; [constructor|]. cbn [fst snd] in *. destruct (Z.eqb_spec (bp + 16 * w) n) as [E|E]; [|by rewrite (set_ptr_ok _ _ _ _ H1 H3 Hb)].
    rewrite (bind_ret_l _ _ _ _ _ (hd_ok _ _ _ Hh)). cbn [h_size]. rewrite u32_small by lia. rewrite (bind_ret_l _ _ _ _ _ (hset_size_ok _ _ _ _ H1 H3 Hb)). cbn [h_ptr].
    set (s1 := set_hdrs _ s). assert (G1 : hdrs s1 !! p = Some (mkh n zp)) by (cbn [s1 hdrs set_hdrs]; by rewrite lookup_insert_ne by done).
    assert (G2 : hdrs s1 !! n = Some (mkh (first r base) zn)) by (cbn [s1 hdrs set_hdrs]; by rewrite lookup_insert_ne by done).
    rewrite (bind_ret_l _ _ _ _ _ (hd_ok _ _ _ G1)). cbn [h_ptr]. rewrite (bind_ret_l _ _ _ _ _ (hd_ok _ _ _ G2)). cbn [h_ptr].
    rewrite (set_ptr_ok s1 bp _ (mkh q0 (w + zn))); [|done|done|cbn [s1 hdrs set_hdrs]; by rewrite lookup_insert_eq]. unfold s1, set_hdrs. cbn [hdrs freep world]. by rewrite insert_insert_eq.
Qed.

Lemma free_left s bp z r p zp e : hdrs s !! bp = Some (mkh (first r base) z) -> hdrs s !! p = Some (mkh e zp) -> p <> bp -> 0 <= zp + z < 2 ^ 32 ->
  0 <= p -> 0 <= zp -> p + 16 <= brk (world s) -> p + 16 * zp < 2 ^ 64 ->
  (if plus p zp =? bp then
     b <- hd bp ;; set_size p (u32 (zp + h_size b)) ;;; b <- hd bp ;; set_ptr p (h_ptr b)
   else set_ptr p bp) s = Ret tt (set_hdrs (<[p := mkh (first (tail (merge_left (p, zp) ((bp, z) :: r))) base) (default 0 (head (merge_left (p, zp) ((bp, z) :: r)).*2))]> (hdrs s)) s).
Proof.
  intros Hb Hp Hpb Hz H1 H2 H3 H4. rewrite plus_small by lia. unfold merge_left. cbn [fst snd]. destruct (Z.eqb_spec (p + 16 * zp) bp) as [E|E]; [|by rewrite (set_ptr_ok _ _ _ _ H1 H3 Hp)].
  rewrite (bind_ret_l _ _ _ _ _ (hd_ok _ _ _ Hb)). cbn [h_size]. rewrite u32_small by lia. rewrite (bind_ret_l _ _ _ _ _ (hset_size_ok _ _ _ _ H1 H3 Hp)). cbn [h_ptr].
  set (s1 := set_hdrs _ s). assert (G1 : hdrs s1 !! bp = Some (mkh (first r base) z)) by (cbn [s1 hdrs set_hdrs]; by rewrite lookup_insert_ne by done).
  rewrite (bind_ret_l _ _ _ _ _ (hd_ok _ _ _ G1)). cbn [h_ptr].
  rewrite (set_ptr_ok s1 p _ (mkh e (zp + z))); [|done|done|cbn [s1 hdrs set_hdrs]; by rewrite lookup_insert_eq]. unfold s1, set_hdrs. cbn [hdrs freep world]. by rewrite insert_insert_eq.
Qed.

(** What [free] does to the memory. *)
Lemma free_run s L A bp w : uinv s L A -> A !! bp = Some w ->
  exists t1 q t2 z r z' r', found (ring L) bp t1 q t2 /\ merge_right (bp, w) t2 = (bp, z) :: r /\ merge_left q ((bp, z) :: r) = (q.1, z') :: r' /\
    free (bp + 16) s = Ret tt (mkuh (<[q.1 := mkh (first r' base) z']> (<[bp := mkh (first r base) z]> (hdrs s))) q.1 (world s)).
Proof.
  intros Hi Hw. destruct (ufree_loop_ok _ _ _ _ _ Hi Hw) as (t1 & q & t2 & (Hns & Hq & Ht2) & Efind). destruct (ui_alloc _ _ _ Hi _ _ Hw) as (Hw0 & Hbp & Hbrk & q0 & Hhb). pose proof (ui_mem _ _ _ Hi) as Hm.
  pose proof (ui_ring _ _ _ Hi) as Hr. pose proof (ui_sorted _ _ _ Hi) as Hs. assert (Hin : q ∈ ring L /\ forall n, n ∈ t2 -> n ∈ ring L) by (rewrite Hns; set_solver). destruct Hin as [Hqin Hnin].
  rewrite Hns in Hr. apply seg_app in Hr as [_ [Hhq Hseg]]. pose proof (ui_ring_range _ _ _ _ Hi Hqin) as Hqr. pose proof (ui_size _ _ _ _ Hi Hqin) as Hqz.
  pose proof (ui_off_ring _ _ _ _ _ _ Hi Hw Hqin) as (Hqb & Hqb' & _). specialize (Hqb' Hq). assert (Hn : forall n, n ∈ t2 -> n.1 <> bp /\ 0 < n.2 /\ bp + 16 * w <= n.1 /\ n.1 + 16 * n.2 <= brk (world s)).
  { intros n Hn. specialize (Ht2 n Hn). pose proof (ui_off_ring _ _ _ _ _ _ Hi Hw (Hnin n Hn)) as (? & _ & Hnb). specialize (Hnb Ht2). pose proof (ui_ring_range _ _ _ _ Hi (Hnin n Hn)). pose proof (Hnin n Hn) as [->|Hl]%elem_of_cons; [cbn in Ht2; lia|]. pose proof (ui_pos _ _ _ Hi n Hl). lia. }
  assert (Hs2 : StronglySorted before t2) by (rewrite Hns in Hs; apply sorted_app in Hs as (_ & _ & [_ Hs]%sorted_cons); done).
  destruct (merge_right_ok (bp, w) t2) as (_ & HR2 & HR3 & z & r & HR); [done|done|intros n Hn'; apply (Hn n Hn')|intros n Hn'; apply (Hn n Hn')|]. cbn [fst] in HR.
  assert (Hz : 0 < z /\ bp + 16 * z <= brk (world s)).
  { rewrite HR in HR2, HR3. pose proof (HR2 (bp, z) ltac:(constructor)) as Hz. cbn in Hz. split; [done|]. specialize (proj1 (HR3 (bp + 16 * z - 1)) ltac:(apply covers_cons; left; unfold within; cbn; lia)) as [Hx|(n & Hn' & Hx)]; unfold within in Hx; cbn in Hx; [lia|]. specialize (Hn n Hn'). lia. }
  destruct (merge_left q ((bp, z) :: r)) as [|[q' z'] r'] eqn:EL; [unfold merge_left in EL; by destruct (_ =? _)|].
  assert (q' = q.1) as -> by (unfold merge_left in EL; destruct (_ =? _) in EL; injection EL; intros; subst; done).
  exists t1, q, t2, z, r, z', r'. split_and!; [done|done|done|]. unfold free. replace (plus (bp + 16) (-1)) with bp by (rewrite plus_small; lia). unfold gets at 1 2.
  rewrite (bind_ret_l _ _ s (ring_fuel s) s), (bind_ret_l _ _ s (freep s) s), (bind_ret_l _ _ _ _ _ Efind), (bind_ret_l _ _ _ _ _ (hd_ok _ _ _ Hhb)), (bind_ret_l _ _ _ _ _ (hd_ok _ _ _ Hhq)) by done. cbn [h_ptr h_size].
  pose proof (free_right s bp q0 w q.1 q.2 t2 Hhb Hhq Hqb Hseg) as ER. rewrite HR in ER. cbn [tail head fmap list_fmap default fst snd] in ER. rewrite (bind_ret_l _ _ _ _ _ (ER ltac:(intros n Hn'; specialize (Hn n Hn'); lia) ltac:(lia) ltac:(lia) ltac:(lia) ltac:(lia) ltac:(lia))).
  set (s1 := set_hdrs _ s). assert (H1 : hdrs s1 !! q.1 = Some (mkh (first t2 base) q.2)) by (cbn [s1 hdrs set_hdrs]; by rewrite lookup_insert_ne by done). assert (H2 : hdrs s1 !! bp = Some (mkh (first r base) z)) by (cbn [s1 hdrs set_hdrs]; by rewrite lookup_insert_eq).
  rewrite (bind_ret_l _ _ _ _ _ (hd_ok _ _ _ H1)). cbn [h_ptr h_size]. pose proof (free_left s1 bp z r q.1 q.2 _ H2 H1 Hqb) as EL'. rewrite <- surjective_pairing, EL in EL'. cbn [tail head fmap list_fmap default fst snd] in EL'.
  rewrite (bind_ret_l _ _ _ _ _ (EL' ltac:(lia) ltac:(lia) ltac:(lia) ltac:(cbn; lia) ltac:(lia))). done.
Qed.

Lemma merge_tail b l : tail (merge_right b l) = l \/ exists n, l = n :: tail (merge_right b l).
Proof. destruct l as [|n l]; [by left|]. cbn. destruct (_ =? _); [right; by exists n|by left]. Qed.

Lemma covers_ring L x : covers (ring L) x <-> covers L x.
Proof. rewrite covers_cons. unfold within. cbn. split; [intros [?|?]; [lia|done]|tauto]. Qed.

(** The ring after the block [bp] is put behind [q]. *)
Lemma seg_insert2 m l e a h a' h' : (forall b, b ∈ l -> b.1 <> a /\ b.1 <> a') -> seg m l e -> seg (<[a := h]> (<[a' := h']> m)) l e.
Proof. intros Ha Hs. apply seg_insert; [intros b Hb; by apply Ha|]. apply seg_insert; [intros b Hb; by apply Ha|done]. Qed.

Lemma sorted_below l1 b l2 c : StronglySorted before (l1 ++ b :: l2) -> c ∈ l1 -> before c b.
Proof. intros (H & _)%sorted_app Hc. apply H; [done|constructor]. Qed.

Lemma free_ring m L bp t1 q t2 w z r z' r' : seg m (ring L) base -> StronglySorted before (ring L) -> (forall b, b ∈ ring L -> 0 <= b.2 /\ b.1 <> bp) -> positive L -> 0 < w -> base < bp ->
  found (ring L) bp t1 q t2 -> q.1 + 16 * q.2 <= bp -> (forall n, n ∈ t2 -> bp + 16 * w <= n.1) ->
  merge_right (bp, w) t2 = (bp, z) :: r -> merge_left q ((bp, z) :: r) = (q.1, z') :: r' ->
  exists L', t1 ++ (q.1, z') :: r' = ring L' /\ seg (<[q.1 := mkh (first r' base) z']> (<[bp := mkh (first r base) z]> m)) (ring L') base /\ StronglySorted before (ring L') /\ positive L' /\
    forall x, covers L' x <-> covers L x \/ within (bp, w) x.
Proof.
  intros Hseg Hs Hb Hpos Hw Hbase (Hns & Hq & Ht2) Hqb Hbt HR HL. rewrite Hns in Hseg, Hs, Hb. apply seg_app in Hseg as [Hsg1 [Hsgq Hsg2]]. cbn [first] in Hsg1.
  pose proof Hs as Hs'. apply sorted_app in Hs' as (Hs1 & Hs2 & Hs3). apply sorted_cons in Hs3 as [Hs3 Hs4]. assert (Hq0 : 0 <= q.2) by (apply Hb; set_solver).
  assert (HposT : (t1 = [] /\ q = (base, 0) /\ positive t2) \/ exists t1', t1 = (base, 0) :: t1' /\ positive (t1' ++ q :: t2)).
  { destruct t1 as [|b t1']; injection Hns as E1 E2; [left; split_and!; [done|done|by rewrite <- E2]|right; exists t1'; rewrite <- E1, <- E2; by split]. }
  assert (Hp2 : positive t2) by (destruct HposT as [(_ & _ & H)|(t1' & _ & H)]; [done|intros n Hn; apply H; set_solver]).
  destruct (merge_right_ok (bp, w) t2 Hw Hs4 Hp2 Hbt) as (HR1 & HR2 & HR3 & _). rewrite HR in HR1, HR2, HR3.
  assert (Hqn : forall n, n ∈ (bp, z) :: r -> q.1 + 16 * q.2 <= n.1).
  { intros n [->|Hn]%elem_of_cons; [done|]. apply sorted_cons in HR1 as [HR1 _]. specialize (HR1 n Hn). pose proof (HR2 (bp, z) ltac:(constructor)). unfold before in HR1. cbn in *. lia. }
  destruct (merge_left_ok q ((bp, z) :: r) Hq0 HR1 HR2 Hqn) as (HL1 & HL2 & z1 & r1 & HL3 & HL4 & HL5). rewrite HL in HL1, HL2, HL3. injection HL3 as <- <-.
  assert (Hr : r = t2 \/ exists n, t2 = n :: r) by (pose proof (merge_tail (bp, w) t2) as H; rewrite HR in H; cbn in H; destruct H as [?|?]; [by left|by right]).
  assert (Hrt : forall n, n ∈ r -> n ∈ t2) by (intros n Hn; destruct Hr as [->|[n' ->]]; [done|by constructor]). assert (Hqbp : q.1 <> bp) by lia.
  assert (Hz' : 0 <= z'). { unfold merge_left in HL. pose proof (HR2 (bp, z) ltac:(constructor)) as Hz. cbn in Hz. destruct q as [q0 zq]. cbn in *. destruct (_ =? _); injection HL as <- _; lia. }
  assert (HS : StronglySorted before (t1 ++ (q.1, z') :: r')).
  { apply sorted_app. split_and!; [|done|done]. intros b c Hb1 Hc. specialize (Hs1 b q Hb1 ltac:(constructor)). apply sorted_cons in HL1 as [HL1 _]. apply elem_of_cons in Hc as [->|Hc]; [done|]. specialize (HL1 c Hc). unfold before in *. cbn in *. lia. }
  assert (HG : seg (<[q.1 := mkh (first r' base) z']> (<[bp := mkh (first r base) z]> m)) (t1 ++ (q.1, z') :: r') base).
  { assert (Hsgr : seg (<[q.1 := mkh (first r' base) z']> (<[bp := mkh (first r base) z]> m)) r base).
    { apply seg_insert2; [|destruct Hr as [->|[n ->]]; [done|apply Hsg2]]. intros n Hn%Hrt. split; [specialize (Hs3 n Hn); unfold before in Hs3; lia|apply Hb; set_solver]. }
    apply seg_app. split; [apply seg_insert2; [|done]; intros b Hb1; split; [specialize (Hs1 b q Hb1 ltac:(constructor)); destruct (Hb b ltac:(set_solver)); unfold before in Hs1; lia|apply Hb; set_solver]|].
    split; [cbn [fst snd]; by rewrite lookup_insert_eq|]. unfold merge_left in HL. destruct (_ =? _); [injection HL as _ <-; done|]. destruct q as [q0 zq]. injection HL as _ <-. cbn [seg fst snd] in *. split; [by rewrite lookup_insert_ne, lookup_insert_eq by done|done]. }
  assert (HC : forall x, covers (t1 ++ (q.1, z') :: r') x <-> covers (ring L) x \/ within (bp, w) x).
  { intros x. rewrite covers_app, HL2, HR3, Hns, covers_app, covers_cons. tauto. }
  destruct HposT as [(-> & -> & _)|(t1' & -> & Hpt)]; cbn [app] in *.
  - exists r'. assert (z' = 0) as ->. { unfold merge_left in HL. cbn in HL. rewrite (proj2 (Z.eqb_neq _ _)) in HL by lia. by injection HL as <- _. }
    split_and!; try done. intros x. by rewrite <- (covers_ring r'), <- (covers_ring L).
  - exists (t1' ++ (q.1, z') :: r'). split_and!; try done; [|intros x; by rewrite <- (covers_ring (t1' ++ _)), <- (covers_ring L)].
    intros b [Hb1|[->|Hb1]%elem_of_cons]%elem_of_app; [apply Hpt; set_solver|cbn; apply HL5, Hpt; set_solver|by apply HL4].
Qed.

Lemma free_ok s L A bp w : uinv s L A -> A !! bp = Some w ->
  exists s' L', free (bp + 16) s = Ret tt s' /\ uinv s' L' (delete bp A) /\ world s' = world s /\ size (hdrs s') = size (hdrs s) /\ forall x, covers L' x <-> covers L x \/ within (bp, w) x.
Proof.
  intros Hi Hw. destruct (free_run _ _ _ _ _ Hi Hw) as (t1 & q & t2 & z & r & z' & r' & Hf & HR & HL & E). pose proof Hf as (Hns & Hq & Ht2). destruct (ui_alloc _ _ _ Hi _ _ Hw) as (Hw0 & Hbp & Hbrk & _).
  assert (Hqin : q ∈ ring L) by (rewrite Hns; set_solver).
  destruct (free_ring (hdrs s) L bp t1 q t2 w z r z' r') as (L' & HL' & Hseg & Hs & Hp & Hc); try done; try apply Hi.
  - intros b Hb. split; [by apply (ui_size _ _ _ _ Hi)|by apply (ui_off_ring _ _ _ _ _ _ Hi Hw)].
  - lia.
  - by apply (ui_off_ring _ _ _ _ _ _ Hi Hw Hqin).
  - intros n Hn. apply (ui_off_ring _ _ _ _ _ n Hi Hw); [rewrite Hns; set_solver|by apply Ht2].
  - eexists _, L'. split; [exact E|]. split; [|split_and!; [done| |done]].
    2:{ cbn [hdrs]. destruct (ui_alloc _ _ _ Hi _ _ Hw) as (_ & _ & _ & q0 & Hhb). destruct (seg_at _ _ _ _ (ui_ring _ _ _ Hi) Hqin) as [q1 Hhq].
      rewrite !map_size_insert_Some; [done|by eexists|rewrite lookup_insert_ne; [by eexists|]]. symmetry. apply (ui_off_ring _ _ _ _ _ _ Hi Hw Hqin). }
    split; cbn [hdrs freep world]; try done; try apply Hi.
    + exists (q.1, z'). split; [rewrite <- HL'; set_solver|done].
    + intros x [Hx|Hx]%Hc; [by apply (ui_free _ _ _ Hi)|]. unfold within in Hx. cbn in Hx. lia.
    + intros a z0 [Hne Ha]%lookup_delete_Some. destruct (ui_alloc _ _ _ Hi a z0 Ha) as (H1 & H2 & H3 & q1 & H4). split_and!; try done. exists q1.
      rewrite !lookup_insert_ne; [done|done|]. apply (ui_off_ring _ _ _ _ _ _ Hi Ha Hqin).
    + intros x a z0 [Hne Ha]%lookup_delete_Some [Hx|Hx]%Hc Hx'; [by apply (ui_sep _ _ _ Hi x a z0)|]. apply Hne. by apply (ui_apart _ _ _ Hi x bp w a z0).
    + intros x a z0 a' z0' [_ Ha]%lookup_delete_Some [_ Ha']%lookup_delete_Some. by apply (ui_apart _ _ _ Hi).
Qed.
End Spec.
