(* ===== verification/UmallocProps.v ===== *)
(** * [malloc] and [free] of user programs

    [malloc] takes its block from the first free one that is large enough, going
    round the ring from where it stopped last, or from new memory. *)

From Stdlib Require Import Sorted.
From S2P Require Import Prelude Umalloc UmallocSpec.

Section Malloc.
Context {W : Type} {HW : Sbrk W} (base : Z).

Implicit Types (s : uheap W) (L : list blk) (A : gmap Z Z).

Abbreviation ring L := ((base, 0) :: L).
Abbreviation uinv := (uinv base).

(** ** Taking a block *)

(** A block is carved out of the free ones. *)
Lemma uinv_take s L A bp nu L' m fp : uinv s L A -> 0 < nu -> seg m (ring L') base -> StronglySorted before (ring L') -> positive L' -> (exists b, b ∈ ring L' /\ b.1 = fp) ->
  (forall x, covers L x <-> covers L' x \/ within (bp, nu) x) -> (forall x, covers L' x -> within (bp, nu) x -> False) -> (exists q, m !! bp = Some (mkh q nu)) ->
  (forall a z, A !! a = Some z -> m !! a = hdrs s !! a) -> A !! bp = None /\ uinv (mkuh m fp (world s)) L' (<[bp := nu]> A).
Proof.
  intros Hi Hnu Hseg Hs Hp Hfp Hc Hd Hm Hk. assert (Hbp : covers L bp /\ covers L (bp + 16 * nu - 1)) by (split; apply Hc; right; unfold within; cbn; lia). destruct Hbp as [Hb1 Hb2].
  apply (ui_free _ _ _ _ Hi) in Hb2. pose proof (ui_free _ _ _ _ Hi _ Hb1) as Hb3. assert (HN : A !! bp = None).
  { destruct (A !! bp) as [z|] eqn:Ea; [|done]. destruct (ui_alloc _ _ _ _ Hi _ _ Ea) as (Hz & _). exfalso. apply (ui_sep _ _ _ _ Hi bp bp z Ea Hb1). unfold within. cbn. lia. }
  split; [done|]. split; cbn [hdrs freep world]; try done; try apply Hi.
  - intros x Hx. apply (ui_free _ _ _ _ Hi), Hc. by left.
  - intros a z [[<- <-]|[Hne Ha]]%lookup_insert_Some; [split_and!; try lia; done|]. rewrite (Hk a z Ha). by apply (ui_alloc _ _ _ _ Hi).
  - intros x a z [[<- <-]|[Hne Ha]]%lookup_insert_Some Hx Hw; [by apply (Hd x)|]. apply (ui_sep _ _ _ _ Hi x a z Ha); [apply Hc; by left|done].
  - intros x a z a' z' [[<- <-]|[Hne Ha]]%lookup_insert_Some [[<- <-]|[Hne' Ha']]%lookup_insert_Some Hw Hw'; try done.
    + exfalso. apply (ui_sep _ _ _ _ Hi x a' z' Ha'); [apply Hc; by right|done].
    + exfalso. apply (ui_sep _ _ _ _ Hi x a z Ha); [apply Hc; by right|done].
    + by apply (ui_apart _ _ _ _ Hi x a z a' z').
Qed.

(** The blocks of a sorted list are apart from one another. *)
Lemma sorted_apart k b l x : StronglySorted before (k ++ b :: l) -> (forall c, c ∈ k ++ b :: l -> 0 <= c.2) -> covers (k ++ l) x -> within b x -> False.
Proof.
  intros Hs Hp Hc Hb. rewrite covers_app in Hc. pose proof Hs as Hs'. unfold within in *. destruct Hc as [(c & Hc & Hx)|(c & Hc & Hx)]; unfold within in Hx.
  - pose proof (sorted_below _ _ _ _ Hs Hc) as H. unfold before in H. lia.
  - pose proof (sorted_from _ _ _ _ Hs Hc) as H. unfold before in H. lia.
Qed.

(** The free list without [x], or with less of it. *)
Lemma shrink_ring L k x l l' : L = k ++ x :: l -> StronglySorted before (ring L) -> positive L -> (l' = l \/ exists z, 0 < z <= x.2 /\ l' = (x.1, z) :: l) -> StronglySorted before (ring (k ++ l')) /\ positive (k ++ l').
Proof.
  intros -> Hs Hp Hl. pose proof (Hp x ltac:(set_solver)) as Hx. change (ring (k ++ x :: l)) with (ring k ++ x :: l) in Hs. change (ring (k ++ l')) with (ring k ++ l'). apply sorted_app in Hs as (H1 & H2 & [H3 H4]%sorted_cons).
  destruct Hl as [->|(z & Hz & ->)].
  - split; [apply sorted_app; split_and!; try done; intros b c Hb Hc; apply H1; [done|by constructor]|]. intros b [Hb|Hb]%elem_of_app; apply Hp; set_solver.
  - split.
    + apply sorted_app. split_and!; [|done|apply sorted_cons; split; [|done]].
      * intros b c Hb [->|Hc]%elem_of_cons; [apply (H1 b x Hb); constructor|apply H1; [done|by constructor]].
      * intros c Hc. specialize (H3 c Hc). unfold before in *. cbn in *. lia.
    + intros b [Hb|[->|Hb]%elem_of_cons]%elem_of_app; [apply Hp; set_solver|cbn; lia|apply Hp; set_solver].
Qed.

(** [r] is a block of [nu] units that was free. *)
Definition taken s L A nu (r : res (uheap W) Z) : Prop :=
  exists s' L' bp, r = Ret (bp + 16) s' /\ uinv s' L' (<[bp := nu]> A) /\ A !! bp = None /\ world s' = world s /\ forall x, covers L x <-> covers L' x \/ within (bp, nu) x.

Lemma ring_split L l1 q x l2 : ring L = l1 ++ q :: x :: l2 -> exists k, L = k ++ x :: l2 /\ ring k = l1 ++ [q].
Proof. destruct l1 as [|b l1]; intros [= <- ->]; [by exists []|]. exists (l1 ++ [q]). by rewrite <- app_assoc. Qed.

Lemma take_exact s L A l1 q x l2 nu : uinv s L A -> ring L = l1 ++ q :: x :: l2 -> 0 < nu -> x.2 = nu -> taken s L A nu (take_block q.1 x.1 nu s).
Proof.
  intros Hi Hl Hnu Hx. destruct (ring_split _ _ _ _ _ Hl) as (k & Hk & Hq). pose proof (ui_ring _ _ _ _ Hi) as Hr. pose proof (ui_sorted _ _ _ _ Hi) as Hs. pose proof (ui_mem _ _ _ _ Hi) as Hm.
  assert (Hin : q ∈ ring L /\ x ∈ ring L /\ x ∈ L) by (rewrite Hl, Hk; set_solver). destruct Hin as (Hqin & Hxin & HxL). rewrite Hl in Hr. apply seg_app in Hr as [Hr1 [Hrq [Hrx Hr2]]]. cbn [first] in *.
  pose proof (ui_ring_range _ _ _ _ _ Hi Hqin) as Hqr. pose proof (ui_block _ _ _ _ _ Hi HxL) as Hxr. destruct (shrink_ring L k x l2 l2 Hk Hs (ui_pos _ _ _ _ Hi)) as [Hs' Hp']; [by left|].
  assert (HsL : StronglySorted before (k ++ x :: l2)) by (rewrite <- Hk; by apply sorted_cons in Hs as [_ Hs]).
  unfold take_block. rewrite (bind_ret_l _ _ _ _ _ (hd_ok _ _ _ Hrx)). cbn [h_size h_ptr]. rewrite Hx, Z.eqb_refl.
  assert (E1 : set_ptr q.1 (first l2 base) s = Ret tt (set_hdrs (<[q.1 := mkh (first l2 base) q.2]> (hdrs s)) s)) by (rewrite (set_ptr_ok s q.1 _ (mkh x.1 q.2)); [done|lia|lia|exact Hrq]).
  rewrite (bind_ret_l _ _ s x.1 (set_hdrs (<[q.1 := mkh (first l2 base) q.2]> (hdrs s)) s)) by (by rewrite (bind_ret_l _ _ _ _ _ E1)).
  destruct (uinv_take s L A x.1 nu (k ++ l2) (<[q.1 := mkh (first l2 base) q.2]> (hdrs s)) q.1 Hi Hnu) as [HA Hi']; try done.
  - change (ring (k ++ l2)) with (ring k ++ l2). rewrite Hq. assert (Hne : forall b, b ∈ l1 \/ b ∈ l2 -> b.1 <> q.1).
    { rewrite Hl in Hs. intros b [Hb|Hb]; [pose proof (sorted_below _ _ _ _ Hs Hb) as H|pose proof (sorted_from _ _ _ b Hs ltac:(by constructor)) as H]; unfold before in H;
        [pose proof (ui_size _ _ _ _ b Hi ltac:(rewrite Hl; apply elem_of_app; by left))|pose proof (ui_size _ _ _ _ _ Hi Hqin)]; lia. }
    rewrite <- app_assoc. apply seg_app. split; [apply seg_insert; [intros b Hb; apply Hne; by left|done]|]. split; [by rewrite lookup_insert_eq|]. apply seg_insert; [intros b Hb; apply Hne; by right|done].
  - exists q. split; [|done]. change (ring (k ++ l2)) with (ring k ++ l2). rewrite Hq, <- app_assoc. apply elem_of_app. right. constructor.
  - intros y. rewrite Hk, !covers_app, covers_cons. replace (x.1, nu) with x by (destruct x; cbn in *; by subst). tauto.
  - intros y Hc Hw. apply (sorted_apart k x l2 y HsL); [|done|by destruct x; cbn in *; subst]. intros c Hc'. rewrite <- Hk in Hc'. pose proof (ui_pos _ _ _ _ Hi c Hc'). lia.
  - exists (first l2 base). rewrite lookup_insert_ne; [by rewrite Hrx, Hx|]. rewrite Hl in Hs. pose proof (sorted_from _ _ _ x Hs ltac:(constructor)) as H. pose proof (ui_size _ _ _ _ _ Hi Hqin). unfold before in H. lia.
  - intros a z Ha. apply lookup_insert_ne. apply (ui_off_ring _ _ _ _ _ _ _ Hi Ha Hqin).
  - eexists _, (k ++ l2), x.1. split_and!; [by rewrite plus_small by lia|exact Hi'|done|done|].
    intros y. rewrite Hk, !covers_app, covers_cons. replace (x.1, nu) with x by (destruct x; cbn in *; by subst). tauto.
Qed.

Lemma take_part s L A l1 q x l2 nu : uinv s L A -> ring L = l1 ++ q :: x :: l2 -> 0 < nu < x.2 -> taken s L A nu (take_block q.1 x.1 nu s).
Proof.
  intros Hi Hl Hnu. destruct (ring_split _ _ _ _ _ Hl) as (k & Hk & Hq). pose proof (ui_ring _ _ _ _ Hi) as Hr. pose proof (ui_sorted _ _ _ _ Hi) as Hs. pose proof (ui_mem _ _ _ _ Hi) as Hm.
  assert (Hin : q ∈ ring L /\ x ∈ ring L /\ x ∈ L) by (rewrite Hl, Hk; set_solver). destruct Hin as (Hqin & Hxin & HxL). assert (Hl' : ring L = ring k ++ x :: l2) by (by rewrite Hk). rewrite Hl' in Hr. apply seg_app in Hr as [Hr1 [Hrx Hr2]]. cbn [first] in *.
  pose proof (ui_block _ _ _ _ _ Hi HxL) as Hxr. set (n := x.2 - nu). set (bp := x.1 + 16 * n). destruct (shrink_ring L k x l2 ((x.1, n) :: l2) Hk Hs (ui_pos _ _ _ _ Hi)) as [Hs' Hp']; [right; exists n; split; [lia|done]|].
  assert (HsL : StronglySorted before (k ++ x :: l2)) by (rewrite <- Hk; by apply sorted_cons in Hs as [_ Hs]).
  unfold take_block. rewrite (bind_ret_l _ _ _ _ _ (hd_ok _ _ _ Hrx)). cbn [h_size h_ptr]. rewrite (proj2 (Z.eqb_neq _ _)) by lia. rewrite u32_small by lia. fold n.
  set (s1 := set_hdrs (<[x.1 := mkh (first l2 base) n]> (hdrs s)) s). assert (E1 : set_size x.1 n s = Ret tt s1) by (rewrite (hset_size_ok s x.1 n (mkh (first l2 base) x.2)); [done|lia|lia|exact Hrx]).
  assert (E2 : hd x.1 s1 = Ret (mkh (first l2 base) n) s1) by (apply hd_ok; cbn [s1 hdrs set_hdrs]; by rewrite lookup_insert_eq). set (m := <[bp := mkh (h_ptr (default (mkh 0 0) (hdrs s1 !! bp))) nu]> (hdrs s1)).
  assert (E3 : set_size bp nu s1 = Ret tt (set_hdrs m s1)) by (unfold set_size; rewrite hput_ok; [done|lia|cbn [s1 world set_hdrs]; lia]).
  rewrite (bind_ret_l _ _ s bp (set_hdrs m s1)).
  2:{ rewrite (bind_ret_l _ _ _ _ _ E1), (bind_ret_l _ _ _ _ _ E2). cbn [h_size]. rewrite plus_small by lia. fold bp. by rewrite (bind_ret_l _ _ _ _ _ E3). }
  assert (Hwx : forall y, within x y <-> within (x.1, n) y \/ within (bp, nu) y) by (intros y; unfold within; cbn; lia).
  assert (Hcov : forall y, covers L y <-> covers (k ++ (x.1, n) :: l2) y \/ within (bp, nu) y) by (intros y; rewrite Hk, !covers_app, !covers_cons, Hwx; tauto).
  assert (Hoff : forall b, b ∈ k ++ l2 \/ b = (base, 0) -> b.1 <> x.1 /\ b.1 <> bp).
  { intros b [Hb| ->]; [|cbn; lia]. assert (Hb' : 0 < b.2) by (apply (ui_pos _ _ _ _ Hi); rewrite Hk; apply elem_of_app; apply elem_of_app in Hb as [Hb|Hb]; [by left|right; by constructor]). assert (Hno : forall y, within b y -> within x y -> False).
    { intros y Hb1 Hb2. apply (sorted_apart k x l2 y HsL); [|by exists b|done]. intros c Hc'. rewrite <- Hk in Hc'. pose proof (ui_pos _ _ _ _ Hi c Hc'). lia. }
    unfold within in Hno. split; intros E; [apply (Hno x.1); lia|apply (Hno bp); lia]. }
  destruct (uinv_take s L A bp nu (k ++ (x.1, n) :: l2) m q.1 Hi ltac:(lia)) as [HA Hi']; try done.
  - change (ring (k ++ (x.1, n) :: l2)) with (ring k ++ (x.1, n) :: l2). apply seg_app. split; [|split; [cbn [fst snd]; unfold m, s1; cbn [hdrs set_hdrs]; by rewrite lookup_insert_ne, lookup_insert_eq by lia|]].
    + apply seg_insert2; [|done]. intros b [->|Hb]%elem_of_cons; [split; apply (Hoff (base, 0)); by right|]. split; apply Hoff; left; apply elem_of_app; by left.
    + apply seg_insert2; [|done]. intros b Hb. split; apply Hoff; left; apply elem_of_app; by right.
  - exists q. split; [|done]. change (ring (k ++ (x.1, n) :: l2)) with (ring k ++ (x.1, n) :: l2). rewrite Hq, <- app_assoc. apply elem_of_app. right. constructor.
  - intros y Hc Hw. assert (Hxy : within x y) by (apply Hwx; by right). rewrite covers_app, covers_cons in Hc. destruct Hc as [Hc|[Hc|Hc]]; [|unfold within in *; cbn in *; lia|];
      (apply (sorted_apart k x l2 y HsL); [intros c Hc'; rewrite <- Hk in Hc'; pose proof (ui_pos _ _ _ _ Hi c Hc'); lia|rewrite covers_app; tauto|done]).
  - eexists. apply lookup_insert_eq.
  - intros a z Ha. pose proof (ui_off_ring _ _ _ _ _ _ _ Hi Ha Hxin) as (H1 & _). unfold m, s1. cbn [hdrs set_hdrs]. rewrite !lookup_insert_ne; [done|done|]. intros E. rewrite <- E in Ha. destruct (ui_alloc _ _ _ _ Hi _ _ Ha) as (Hz & _). apply (ui_sep _ _ _ _ Hi bp bp z Ha); [apply Hcov; right|]; unfold within; cbn; lia.
  - eexists _, _, bp. split_and!; [by rewrite plus_small by lia|exact Hi'|done|done|exact Hcov].
Qed.

Lemma take_ok s L A l1 q x l2 nu : uinv s L A -> ring L = l1 ++ q :: x :: l2 -> 0 < nu <= x.2 -> taken s L A nu (take_block q.1 x.1 nu s).
Proof. intros Hi Hl Hnu. destruct (decide (x.2 = nu)); [by apply (take_exact s L A l1 q x l2); try lia|apply (take_part s L A l1 q x l2); try done; lia]. Qed.

(** ** The search *)

(** No block was large enough. *)
Definition more (fuel : nat) (nu : Z) : M (uheap W) Z :=
  o <- (q <- morecore nu ;; ret (if q =? 0 then None else Some q)) ;;
  match o with
  | None => ret 0
  | Some p => x <- hd p ;; malloc_loop fuel nu p (h_ptr x)
  end.

Lemma loop_step s b nu prev e fuel : hdrs s !! b.1 = Some (mkh e b.2) ->
  malloc_loop (S fuel) nu prev b.1 s =
    if nu <=? b.2 then take_block prev b.1 nu s else if b.1 =? freep s then more fuel nu s else malloc_loop fuel nu b.1 e s.
Proof.
  intros Hh. cbn [malloc_loop]. rewrite (bind_ret_l _ _ _ _ _ (hd_ok _ _ _ Hh)). cbn [h_size]. destruct (nu <=? b.2); [done|]. unfold gets. rewrite (bind_ret_l _ _ s (freep s) s) by done.
  destruct (b.1 =? freep s); [done|]. rewrite (bind_ret_l _ _ s (Some b.1) s) by done. by rewrite (bind_ret_l _ _ _ _ _ (hd_ok _ _ _ Hh)).
Qed.

(** The search from [q] to the end of the list: a block, or back at [freep], or
    the end. *)
Lemma scan s nu l2 : forall ns l1 q fuel, seg (hdrs s) ns base -> ns = l1 ++ q :: l2 -> (length l2 < fuel)%nat ->
  (exists k1 p x k2, ns = k1 ++ p :: x :: k2 /\ nu <= x.2 /\ malloc_loop fuel nu q.1 (first l2 base) s = take_block p.1 x.1 nu s) \/
  (exists k1 x k2 fuel', l2 = k1 ++ x :: k2 /\ x.1 = freep s /\ (forall y, y ∈ k1 ++ [x] -> y.2 < nu) /\ (fuel <= fuel' + length l2)%nat /\ malloc_loop fuel nu q.1 (first l2 base) s = more fuel' nu s) \/
  ((forall y, y ∈ l2 -> y.2 < nu /\ y.1 <> freep s) /\ exists p fuel', fuel = (fuel' + length l2)%nat /\ malloc_loop fuel nu q.1 (first l2 base) s = malloc_loop fuel' nu p base s).
Proof.
  induction l2 as [|b l2 IH]; intros ns l1 q fuel Hseg Hns Hf.
  { right; right. split; [by intros y ?%not_elem_of_nil|]. exists q.1, fuel. split; [cbn; lia|done]. }
  destruct fuel as [|fuel]; [cbn in Hf; lia|]. pose proof Hseg as Hseg'. rewrite Hns in Hseg'. apply seg_app in Hseg' as [_ [_ [Hh _]]]. cbn [first]. rewrite (loop_step _ _ _ _ _ _ Hh).
  destruct (Z.leb_spec nu b.2) as [Hb|Hb]; [left; by exists l1, q, b, l2|]. destruct (Z.eqb_spec b.1 (freep s)) as [E|E].
  { right; left. exists [], b, l2, fuel. split_and!; try done; [by intros y ->%list_elem_of_singleton|cbn; lia]. }
  destruct (IH ns (l1 ++ [q]) b fuel Hseg) as [H|[(k1 & x & k2 & fuel' & -> & H1 & H2 & H3 & H4)|(H1 & p & fuel' & H2 & H3)]]; [by rewrite <- app_assoc|cbn in Hf; lia|by left| |].
  - right; left. exists (b :: k1), x, k2, fuel'. split_and!; try done; [|cbn [length app] in *; lia]. intros y [->|Hy]%elem_of_cons; [lia|by apply H2].
  - right; right. split; [intros y [->|Hy]%elem_of_cons; [done|by apply H1]|]. exists p, fuel'. split; [cbn; lia|done].
Qed.

(** The whole search, which starts behind [freep]. *)
Lemma search s L A q l1 l2 nu fuel k : uinv s L A -> ring L = l1 ++ q :: l2 -> q.1 = freep s -> 0 < nu -> (2 * length (ring L) + k < fuel)%nat ->
  (exists k1 p x k2, ring L = k1 ++ p :: x :: k2 /\ nu <= x.2 /\ malloc_loop fuel nu q.1 (first l2 base) s = take_block p.1 x.1 nu s) \/
  ((forall y, y ∈ L -> y.2 < nu) /\ exists fuel', (k <= fuel')%nat /\ malloc_loop fuel nu q.1 (first l2 base) s = more fuel' nu s).
Proof.
  intros Hi Hl Hq Hnu Hf. pose proof (ui_ring _ _ _ _ Hi) as Hr. pose proof (ui_sorted _ _ _ _ Hi) as Hs. assert (Hlen : (length l2 < length (ring L))%nat) by (rewrite Hl, length_app; cbn; lia).
  assert (Hq0 : 0 <= q.2) by (apply (ui_size _ _ _ _ _ Hi); rewrite Hl; apply elem_of_app; right; constructor).
  destruct (scan s nu l2 (ring L) l1 q fuel Hr Hl) as [H|[(k1 & x & k2 & fuel' & Hk & E & _)|(Hsm & p & fuel' & -> & E)]]; [lia|by left|exfalso|].
  { rewrite Hl in Hs. pose proof (sorted_from _ _ _ x Hs ltac:(rewrite Hk; apply elem_of_app; right; constructor)) as H. unfold before in H. lia. }
  destruct fuel' as [|fuel']; [lia|]. rewrite E. pose proof Hr as [Hh _]. pose proof (loop_step s (base, 0) nu p _ fuel' Hh) as Es. cbn [fst snd] in Es. rewrite (proj2 (Z.leb_gt nu 0)) in Es by lia. rewrite Es.
  destruct (Z.eqb_spec base (freep s)) as [Eb|Eb].
  { right. split; [|exists fuel'; split; [lia|done]]. intros y Hy. destruct l1 as [|b l1]; [injection Hl as _ ->; by apply Hsm|]. exfalso. injection Hl as _ Hl'.
    pose proof Hs as Hs'. apply sorted_cons in Hs' as [Hs' _]. pose proof (ui_ring_range _ _ _ _ q Hi). destruct (decide (q ∈ L)) as [HqL|HqL]; [specialize (Hs' q HqL); unfold before in Hs'; cbn in Hs'; lia|].
    apply HqL. rewrite Hl'. apply elem_of_app. right. constructor. }
  destruct (scan s nu L (ring L) [] (base, 0) fuel' Hr eq_refl) as [H|[(k1 & x & k2 & fuel'' & Hk & Ex & Hx & Hfu & E')|(Hno & _)]]; [cbn in Hf; cbn in Hlen; lia|by left| |exfalso].
  - right. split; [|exists fuel''; split; [cbn in Hf, Hlen; lia|exact E']]. intros y Hy. rewrite Hk in Hy. apply elem_of_app in Hy as [Hy|[->|Hy]%elem_of_cons]; [apply Hx; apply elem_of_app; by left|apply Hx; apply elem_of_app; right; constructor|].
    assert (Hxy : before x y) by (apply sorted_cons in Hs as [_ Hs]; rewrite Hk in Hs; apply (sorted_from _ _ _ _ Hs Hy)). assert (HyL : y ∈ ring L) by (rewrite Hk; right; apply elem_of_app; right; by constructor).
    assert (Hx0 : 0 < x.2) by (apply (ui_pos _ _ _ _ Hi); rewrite Hk; apply elem_of_app; right; constructor). rewrite Hl in HyL, Hs. apply elem_of_app in HyL as [Hy'|[->|Hy']%elem_of_cons]; [|unfold before in Hxy; lia|by apply Hsm].
    pose proof (sorted_below _ _ _ _ Hs Hy') as H. assert (0 <= y.2) by (apply (ui_size _ _ _ _ _ Hi); rewrite Hl; apply elem_of_app; by left). unfold before in *. lia.
  - destruct (ui_freep _ _ _ _ Hi) as (b & [->|Hb]%elem_of_cons & Ef); [done|]. by apply (Hno b Hb).
Qed.

(** ** New memory *)

Context {HS : SbrkOk W}.

Lemma uinv_world s L A w : uinv s L A -> brk (world s) <= brk w <= 2 ^ 27 -> uinv (mkuh (hdrs s) (freep s) w) L A.
Proof using Type.
  intros [H1 H2 H3 H4 H5 H6 H7 H8 H9] Hw. split; cbn [hdrs freep world]; try done; [| |lia].
  - intros x Hx. specialize (H5 x Hx). lia.
  - intros a z Ha. destruct (H6 a z Ha) as (? & ? & ? & ?). split_and!; try done. lia.
Qed.

(** The new memory as an allocated block. *)
Lemma uinv_grow s L A n w : uinv s L A -> 0 < n -> brk w = brk (world s) + 16 * n -> brk w <= 2 ^ 27 ->
  A !! brk (world s) = None /\ uinv (mkuh (<[brk (world s) := mkh (h_ptr (default (mkh 0 0) (hdrs s !! brk (world s)))) n]> (hdrs s)) (freep s) w) L (<[brk (world s) := n]> A).
Proof using Type.
  intros Hi Hn Hw Hb. set (p := brk (world s)) in *. pose proof (ui_mem _ _ _ _ Hi) as Hm. fold p in Hm. assert (Hold : forall a z, A !! a = Some z -> 0 < z /\ a + 16 * z <= p) by (intros a z Ha; destruct (ui_alloc _ _ _ _ Hi a z Ha) as (? & _ & ? & _); done).
  assert (HN : A !! p = None) by (destruct (A !! p) as [z|] eqn:E; [specialize (Hold p z E); lia|done]). split; [done|]. split; cbn [hdrs freep world]; try apply Hi; [| | | | |lia].
  - apply seg_insert; [|apply Hi]. intros b Hb'. pose proof (ui_ring_range _ _ _ _ _ Hi Hb'). lia.
  - intros x Hx. pose proof (ui_free _ _ _ _ Hi x Hx). lia.
  - intros a z [[<- <-]|[Hne Ha]]%lookup_insert_Some; [split_and!; try lia; eexists; apply lookup_insert_eq|]. destruct (ui_alloc _ _ _ _ Hi a z Ha) as (? & ? & ? & ?). split_and!; try done; [lia|]. by rewrite lookup_insert_ne.
  - intros x a z [[<- <-]|[Hne Ha]]%lookup_insert_Some Hx; [|by apply (ui_sep _ _ _ _ Hi)]. pose proof (ui_free _ _ _ _ Hi x Hx). unfold within. cbn. lia.
  - intros x a z a' z' [[<- <-]|[Hne Ha]]%lookup_insert_Some [[<- <-]|[Hne' Ha']]%lookup_insert_Some; try done; [specialize (Hold _ _ Ha')|specialize (Hold _ _ Ha)|by apply (ui_apart _ _ _ _ Hi)]; unfold within; cbn; lia.
Qed.

(** [morecore] fails, or puts the new memory on the free list. *)
(** [sbrk] was asked once, for [nu] units or more; it failed, or moved the end. *)
Definition refused nu s s' : Prop := sbrk (16 * Z.max nu 4096) (world s) = (2 ^ 64 - 1, world s') /\ brk (world s') = brk (world s).
Definition granted nu s s' : Prop := sbrk (16 * Z.max nu 4096) (world s) = (brk (world s), world s').

Lemma morecore_ok s L A nu : uinv s L A -> 0 < nu -> nu * 16 < 2 ^ 31 ->
  (exists s', morecore nu s = Ret 0 s' /\ uinv s' L A /\ refused nu s s') \/
  (exists s' L', morecore nu s = Ret (freep s') s' /\ uinv s' L' A /\ granted nu s s' /\ brk (world s') = brk (world s) + 16 * Z.max nu 4096 /\ (size (hdrs s') <= S (size (hdrs s)))%nat /\
     forall x, covers L' x <-> covers L x \/ brk (world s) <= x < brk (world s')).
Proof.
  intros Hi Hnu Hmax. set (n := if nu <? 4096 then 4096 else nu). assert (Hn : n = Z.max nu 4096 /\ 0 < n /\ n * 16 < 2 ^ 31) by (unfold n; destruct (Z.ltb_spec nu 4096); lia). destruct Hn as (En & Hn0 & Hn1).
  pose proof (ui_mem _ _ _ _ Hi) as Hm. destruct (sbrk_ok (n * 16) (world s) ltac:(lia)) as (w & [[E Hw]|(E & Hw & Hb)]); [left|right];
    (unfold morecore; fold n; rewrite s32_small by lia; unfold gets at 1; rewrite (bind_ret_l _ _ s (world s) s) by done; rewrite E; unfold modify; rewrite (bind_ret_l _ _ s tt (mkuh (hdrs s) (freep s) w)) by done).
  - rewrite Z.eqb_refl. eexists. split_and!; [done| |split; [by rewrite <- En, Z.mul_comm|done]]. apply uinv_world; [done|lia].
  - rewrite (proj2 (Z.eqb_neq _ _)) by lia. destruct (uinv_grow s L A n w Hi Hn0 ltac:(lia) ltac:(lia)) as [HN Hi1]. set (p := brk (world s)) in *. set (s1 := mkuh _ _ _) in Hi1.
    assert (E1 : set_size p n (mkuh (hdrs s) (freep s) w) = Ret tt s1) by (unfold set_size; rewrite hput_ok; [done|lia|cbn [world]; lia]). rewrite (bind_ret_l _ _ _ _ _ E1), plus_small by lia.
    destruct (free_ok base s1 L (<[p := n]> A) p n Hi1 ltac:(apply lookup_insert_eq)) as (s2 & L2 & E2 & Hi2 & Hw2 & Hsz & Hc). rewrite (bind_ret_l _ _ _ _ _ E2). rewrite delete_insert_id in Hi2 by done.
    exists s2, L2. split_and!; [done|done|unfold granted; rewrite Hw2, <- En, Z.mul_comm; exact E|rewrite Hw2; cbn [s1 world]; lia|rewrite Hsz; cbn [s1 hdrs]; rewrite map_size_insert; case_match; unfold id; lia|]. intros x. rewrite Hc, Hw2. unfold within. cbn [s1 world fst snd]. split; (intros [?|?]; [by left|right; lia]).
Qed.

(** A covered range lies in one block. *)
Lemma one_block l p n : StronglySorted before l -> positive l -> 0 < n -> (forall x, p <= x < p + 16 * n -> covers l x) -> exists b, b ∈ l /\ n <= b.2.
Proof using Type.
  intros Hs Hp Hn Hc. destruct (Hc p ltac:(lia)) as (b & Hb & Hx). exists b. split; [done|]. unfold within in Hx. destruct (decide (p + 16 * n <= b.1 + 16 * b.2)); [lia|exfalso].
  destruct (Hc (b.1 + 16 * b.2) ltac:(lia)) as (c & Hc' & Hy). unfold within in Hy. pose proof (Hp b Hb). pose proof (Hp c Hc'). destruct (list_elem_of_split _ _ Hb) as (l1 & l2 & El). rewrite El in Hs, Hc'.
  apply elem_of_app in Hc' as [Hc'|[->|Hc']%elem_of_cons]; [pose proof (sorted_below _ _ _ _ Hs Hc') as Hcb|lia|pose proof (sorted_from _ _ _ _ Hs Hc') as Hcb]; unfold before in Hcb; lia.
Qed.

(** ** [malloc] *)

(** The first call sets up the ring. *)
Definition uready s L A : Prop := uinv s L A \/ freep s = 0 /\ L = [] /\ A = ∅ /\ 0 < base /\ base + 16 <= brk (world s) <= 2 ^ 27.

Definition malloced s L A nu (r : res (uheap W) Z) : Prop :=
  (exists s', r = Ret 0 s' /\ uinv s' L A /\ refused nu s s' /\ forall b, b ∈ L -> b.2 < nu) \/
  (exists s' L' bp, r = Ret (bp + 16) s' /\ uinv s' L' (<[bp := nu]> A) /\ A !! bp = None /\
     (forall x, covers L' x \/ within (bp, nu) x <-> covers L x \/ brk (world s) <= x < brk (world s')) /\
     ((exists b, b ∈ L /\ nu <= b.2) -> world s' = world s) /\ ((forall b, b ∈ L -> b.2 < nu) -> granted nu s s')).

Lemma freep_split s L A : uinv s L A -> exists l1 q l2, ring L = l1 ++ q :: l2 /\ q.1 = freep s /\ hd (freep s) s = Ret (mkh (first l2 base) q.2) s /\ freep s <> 0.
Proof using Type.
  intros Hi. destruct (ui_freep _ _ _ _ Hi) as (q & Hq & E). destruct (list_elem_of_split _ _ Hq) as (l1 & l2 & El). exists l1, q, l2. pose proof (ui_ring_range _ _ _ _ _ Hi Hq) as Hr. pose proof (ui_mem _ _ _ _ Hi) as Hm.
  split_and!; [done|done| |lia]. rewrite <- E. apply hd_ok. pose proof (ui_ring _ _ _ _ Hi) as Hs. rewrite El in Hs. by apply seg_app in Hs as [_ [Hs _]].
Qed.

Lemma taken_malloced s L A nu r b : b ∈ L -> nu <= b.2 -> taken s L A nu r -> malloced s L A nu r.
Proof using Type.
  intros Hb1 Hb2 (s' & L' & bp & -> & Hi & HA & Hw & Hc). right. exists s', L', bp. split_and!; try done; [|intros Hno; specialize (Hno b Hb1); lia]. intros x. rewrite <- Hc, Hw. split; [tauto|]. intros [?|?]; [done|lia].
Qed.

(** After a failed search, new memory gives a block, or there is none. *)
Lemma more_ok s L A nu fuel : uinv s L A -> 0 < nu -> nu * 16 < 2 ^ 31 -> (forall b, b ∈ L -> b.2 < nu) -> (2 * (size (hdrs s) + 1) < fuel)%nat -> malloced s L A nu (more fuel nu s).
Proof.
  intros Hi Hnu Hmax Hsm Hf. unfold more. destruct (morecore_ok s L A nu Hi Hnu Hmax) as [(s' & E & Hi' & Hb)|(s' & L' & E & Hi' & Hg & Hb & Hsz & Hc)].
  { left. exists s'. rewrite (bind_ret_l _ _ s None s') by (by rewrite (bind_ret_l _ _ _ _ _ E)). done. }
  destruct (freep_split _ _ _ Hi') as (l1 & q & l2 & Hl & Hq & Eh & Hfp). rewrite (bind_ret_l _ _ s (Some (freep s')) s') by (rewrite (bind_ret_l _ _ _ _ _ E), (proj2 (Z.eqb_neq _ _)) by done; done).
  rewrite (bind_ret_l _ _ _ _ _ Eh). cbn [h_ptr]. rewrite <- Hq.
  assert (Hbig : exists b, b ∈ L' /\ nu <= b.2).
  { destruct (one_block L' (brk (world s)) nu) as (b & Hb1 & Hb2); [|apply Hi'|done| |by exists b].
    - by destruct (proj1 (sorted_cons _ _) (ui_sorted _ _ _ _ Hi')).
    - intros x Hx. apply Hc. right. lia. }
  assert (Hlen : (length (ring L') <= size (hdrs s) + 1)%nat).
  { pose proof (ring_length s' (ring L') base (ui_ring _ _ _ _ Hi') (ui_sorted _ _ _ _ Hi') (fun d => ui_size _ _ _ _ d Hi')). lia. }
  destruct (search s' L' A q l1 l2 nu fuel 0 Hi' Hl Hq Hnu) as [(k1 & p & x & k2 & Hk & Hx & ->)|[Hno _]]; [lia| |].
  - destruct (take_ok s' L' A k1 p x k2 nu Hi' Hk ltac:(lia)) as (s2 & L2 & bp & E2 & Hi2 & HA & Hw & Hc2). right. exists s2, L2, bp. split_and!; try done; [|intros (b & Hb1 & Hb2); specialize (Hsm b Hb1); lia|intros _; unfold granted; by rewrite Hw].
    intros y. rewrite <- Hc2, Hc, Hw. done.
  - destruct Hbig as (b & Hb1 & Hb2). specialize (Hno b Hb1). lia.
Qed.

Lemma nunits_ok n : 0 <= n < 2 ^ 31 - 32 -> nunits_of n = (n + 15) / 16 + 1 /\ n + 16 <= 16 * nunits_of n <= n + 31.
Proof using Type. clear HS. intros Hn. unfold nunits_of. replace (n + 16 - 1) with (n + 15) by lia. rewrite u32_small by dlia. split; [done|dlia]. Qed.

(** [malloc] once the ring is there. *)
Lemma malloc_ring s L A nbytes : uinv s L A -> 0 <= nbytes < 2 ^ 31 - 32 -> malloced s L A (nunits_of nbytes) (malloc base nbytes s).
Proof.
  intros Hi Hn. destruct (nunits_ok nbytes Hn) as [_ Hnu]. set (nu := nunits_of nbytes) in *. destruct (freep_split _ _ _ Hi) as (l1 & q & l2 & Hl & Hq & Eh & Hfp).
  unfold malloc. fold nu. unfold gets. rewrite (bind_ret_l _ _ s (freep s) s) by done. rewrite (bind_ret_l _ _ s (freep s) s) by (by rewrite (proj2 (Z.eqb_neq _ _))). rewrite (bind_ret_l _ _ s (ring_fuel s) s), (bind_ret_l _ _ _ _ _ Eh) by done. cbn [h_ptr].
  pose proof (ring_length s (ring L) base (ui_ring _ _ _ _ Hi) (ui_sorted _ _ _ _ Hi) (fun d => ui_size _ _ _ _ d Hi)) as Hlen. rewrite <- Hq. set (fuel := (ring_fuel s + ring_fuel s + 4)%nat).
  destruct (search s L A q l1 l2 nu fuel (2 * size (hdrs s) + 3) Hi Hl Hq) as [(k1 & p & x & k2 & Hk & Hx & ->)|(Hno & fuel' & Hf & ->)]; [lia|unfold fuel, ring_fuel; lia| |].
  - apply (taken_malloced s L A nu _ x); [|lia|apply (take_ok s L A k1 p x k2 nu Hi Hk); lia]. destruct k1 as [|y k1]; injection Hk as _ ->; [constructor|]. apply elem_of_app. right. do 2 constructor.
  - apply more_ok; try done; lia.
Qed.

Lemma malloc_first s nbytes : freep s = 0 -> 0 < base -> base + 16 <= brk (world s) <= 2 ^ 27 -> exists s', malloc base nbytes s = malloc base nbytes s' /\ uinv s' [] ∅ /\ world s' = world s.
Proof using Type.
  intros Hf Hb Hm. set (s1 := mkuh (<[base := mkh base 0]> (hdrs s)) base (world s)). exists s1. split_and!; [|split; cbn [s1 hdrs freep world]; try done|done].
  - unfold malloc at 1. unfold gets at 1. rewrite (bind_ret_l _ _ s 0 s) by (by rewrite Hf). rewrite (bind_ret_l _ _ s base s1).
    + unfold malloc. unfold gets at 3. rewrite (bind_ret_l _ _ s1 base s1) by done. rewrite (bind_ret_l _ _ s1 base s1); [done|]. by rewrite (proj2 (Z.eqb_neq _ _)) by lia.
    + rewrite Z.eqb_refl. unfold modify, set_ptr, set_size. rewrite (bind_ret_l _ _ s tt (set_freep base s)) by done. assert (Hb0 : 0 <= base) by lia.
      rewrite (bind_ret_l _ _ _ _ _ (hput_ok (set_freep base s) base _ Hb0 (proj1 Hm))), (bind_ret_l _ _ _ _ _ (hput_ok (set_hdrs _ (set_freep base s)) base _ Hb0 (proj1 Hm))). unfold ret, s1, set_hdrs. cbn [hdrs freep world set_freep]. rewrite lookup_insert_eq, insert_insert_eq. done.
  - split; [by rewrite lookup_insert_eq|done].
  - repeat constructor.
  - by intros b ?%not_elem_of_nil.
  - exists (base, 0). split; [constructor|done].
  - intros x. by rewrite covers_nil.
Qed.

Lemma malloc_ok s L A nbytes : uready s L A -> 0 <= nbytes < 2 ^ 31 - 32 -> malloced s L A (nunits_of nbytes) (malloc base nbytes s).
Proof.
  intros [Hi|(Hf & -> & -> & Hb & Hm)] Hn; [by apply malloc_ring|]. destruct (malloc_first s nbytes Hf Hb Hm) as (s' & -> & Hi & Hw). pose proof (malloc_ring s' [] ∅ nbytes Hi Hn) as H. unfold malloced, refused, granted in *. by rewrite Hw in H.
Qed.
End Malloc.

(** ** What callers see *)

(** Stores of the program into its blocks: any header may be lost that lies in
    the part of an allocated block that was handed out. *)
Definition scribbled {W} (A : gmap Z Z) (s s1 : uheap W) : Prop :=
  freep s1 = freep s /\ world s1 = world s /\ forall a, (forall b z, A !! b = Some z -> ~ (b < a < b + 16 * z)) -> hdrs s1 !! a = hdrs s !! a.

Lemma uinv_scribbled {W} {HW : Sbrk W} base (s s1 : uheap W) L A : uinv base s L A -> scribbled A s s1 -> uinv base s1 L A.
Proof.
  intros Hi (Hf & Hw & Hm). pose proof Hi as [H1 H2 H3 H4 H5 H6 H7 H8 H9]. assert (Hring : forall b, b ∈ (base, 0) :: L -> hdrs s1 !! b.1 = hdrs s !! b.1).
  { intros b Hb. apply Hm. intros a z Ha Hin. pose proof (ui_off_ring _ _ _ _ _ _ _ Hi Ha Hb) as (_ & _ & H). destruct (ui_alloc _ _ _ _ Hi _ _ Ha) as (_ & Ha0 & _). apply elem_of_cons in Hb as [->|Hb]; [cbn in *; lia|].
    apply (H7 b.1 a z Ha); [exists b; split; [done|]; pose proof (H3 b Hb)|]; unfold within; cbn; lia. }
  split; rewrite ?Hf, ?Hw; try done.
  - revert H1 Hring. generalize ((base, 0) :: L). intros l. induction l as [|b l IH]; intros H1 Hr; [done|]. destruct H1 as [Hb H1]. split; [rewrite Hr; [done|constructor]|apply IH; [done|intros c Hc; apply Hr; by constructor]].
  - intros a z Ha. destruct (H6 a z Ha) as (Hz & Hr). rewrite Hm; [done|]. intros b w Hb Hin. destruct (H6 b w Hb) as (Hw0 & _). assert (a = b); [|lia]. apply (H8 a a z b w Ha Hb); unfold within; cbn; lia.
Qed.

(** C32: [malloc] of user programs returns the payload of a block of the number of
    units that holds the bytes and a header, or 0.  Before the first call and
    after any call, the free blocks are a sorted circular list of blocks that do
    not touch, apart from all allocated blocks.  The block comes from the free
    ones, without a call of [sbrk], if one of these is large enough; otherwise
    [sbrk] is called once, for the units and at least 4096, and the block comes
    from the memory it grants, or the result is 0 because it refused. *)
Theorem umalloc_spec {W} {HW : Sbrk W} {HS : SbrkOk W} base (s : uheap W) L A nbytes :
  uready base s L A -> 0 <= nbytes < 2 ^ 31 - 32 ->
  nbytes + 16 <= 16 * nunits_of nbytes <= nbytes + 31 /\ malloced base s L A (nunits_of nbytes) (malloc base nbytes s).
Proof. intros Hr Hn. split; [by apply nunits_ok|by apply malloc_ok]. Qed.

(** C33: [free] of an allocated block, after any stores of the program into its
    blocks, gives exactly that block back: it is merged with the free blocks it
    touches, and everything else stays. *)
Theorem ufree_spec {W} {HW : Sbrk W} base (s s1 : uheap W) L A bp w :
  uinv base s L A -> scribbled A s s1 -> A !! bp = Some w ->
  exists s' L', free (bp + 16) s1 = Ret tt s' /\ uinv base s' L' (delete bp A) /\ world s' = world s /\ forall x, covers L' x <-> covers L x \/ within (bp, w) x.
Proof.
  intros Hi Hsc Hw. destruct (free_ok base s1 L A bp w (uinv_scribbled _ _ _ _ _ Hi Hsc) Hw) as (s' & L' & E & Hi' & Hw' & _ & Hc). exists s', L'. destruct Hsc as (_ & Hws & _). by rewrite <- Hws.
Qed.

(** A machine with [2 ^ 27] bytes. *)
#[export] Instance plain_sbrk : Sbrk Z := {| sbrk n w := if w + n <=? 2 ^ 27 then (w, w + n) else (2 ^ 64 - 1, w); brk w := w |}.

#[export] Instance plain_sbrk_ok : SbrkOk Z.
Proof. split. intros n w Hn. cbn. destruct (Z.leb_spec (w + n) (2 ^ 27)); [exists (w + n); by right|exists w; by left]. Qed.

Definition empty_heap : uheap Z := mkuh ∅ 0 12288.

Lemma empty_ready : uready 4096 empty_heap [] ∅.
Proof. right. split_and!; try done; cbn; lia. Qed.

(** The first block of 100 bytes. *)
Lemma umalloc_spec_witness : 100 + 16 <= 16 * nunits_of 100 <= 100 + 31 /\ malloced 4096 empty_heap [] ∅ (nunits_of 100) (malloc 4096 100 empty_heap).
Proof. assert (H : 0 <= 100 < 2 ^ 31 - 32) by lia. exact (umalloc_spec 4096 empty_heap [] ∅ 100 empty_ready H). Defined.

Definition after_malloc : uheap Z := match malloc 4096 100 empty_heap with Ret _ s => s | _ => empty_heap end.
Definition free_now : list blk := [(12288, 4088)].
Definition block_at : Z := 12288 + 16 * 4088.

Lemma after_malloc_ok : uinv 4096 after_malloc free_now {[block_at := 8]}.
Proof.
  assert (Hcov : forall x, covers free_now x <-> within (12288, 4088) x) by (intros x; unfold free_now; rewrite covers_cons, covers_nil; tauto).
  split; unfold block_at.
  - vm_compute. split_and!; reflexivity.
  - unfold free_now. repeat constructor.
  - unfold free_now. by intros b ->%list_elem_of_singleton.
  - exists (4096, 0). split; [constructor|vm_compute; reflexivity].
  - intros x Hx%Hcov. replace (world after_malloc) with 77824 by (vm_compute; reflexivity). unfold within in Hx. cbn in *. lia.
  - intros a z [<- <-]%lookup_singleton_Some. split_and!; [lia|lia|vm_compute; discriminate|vm_compute; by eexists].
  - intros x a z [<- <-]%lookup_singleton_Some Hx%Hcov. unfold within in *. cbn in *. lia.
  - intros x a z a' z' [<- <-]%lookup_singleton_Some [<- <-]%lookup_singleton_Some. done.
  - replace (world after_malloc) with 77824 by (vm_compute; reflexivity). cbn. lia.
Qed.

Lemma scribbled_same {W} A (s : uheap W) : scribbled A s s.
Proof. by split. Qed.

(** That block is freed again. *)
Lemma ufree_spec_witness : exists s' L', free (block_at + 16) after_malloc = Ret tt s' /\ uinv 4096 s' L' (delete block_at {[block_at := 8]}) /\ world s' = world after_malloc /\ forall x, covers L' x <-> covers free_now x \/ within (block_at, 8) x.
Proof. exact (ufree_spec 4096 after_malloc after_malloc free_now {[block_at := 8]} block_at 8 after_malloc_ok (scribbled_same _ _) (lookup_singleton_eq _ _)). Defined.
