(* ===== verification/Filters.v ===== *)
(** * user/wc.c, user/cat.c and [gets]

    Programs that read a descriptor to its end.  The system call [read] is the
    one of Grep.v: it gives the input in chunks of any size. *)

From S2P Require Import Prelude StringC Grep.

(** ** wc *)

Record counts := mkc { c_l : Z; c_w : Z; c_c : Z; c_inword : bool }.

(** [strchr(" \r\t\n\v", c)] finds the character. *)
Definition is_blank (c : Z) : bool := bool_decide (c ∈ [32; 13; 9; 10; 11]).

Definition wc_byte (s : counts) (b : Z) : counts :=
  let c := s32 (c_c s + 1) in
  let l := if b =? 10 then s32 (c_l s + 1) else c_l s in
  if is_blank b then mkc l (c_w s) c false
  else if negb (c_inword s) then mkc l (s32 (c_w s + 1)) c true
  else mkc l (c_w s) c (c_inword s).

(** The line of [printf], or the message and the exit status 1. *)
Inductive wc_end := wc_counts (l w c : Z) | wc_error.

Section Read.
Context {R : Type} (read : R -> Z -> option (list Z) * R).

Fixpoint wc_loop (fuel : nat) (r : R) (s : counts) : option (wc_end * R) :=
  match fuel with
  | O => None
  | S fuel =>
      let '(o, r) := read r 512 in
      match o with
      | None => Some (wc_error, r)
      | Some [] => Some (wc_counts (c_l s) (c_w s) (c_c s), r)
      | Some bs => wc_loop fuel r (foldl wc_byte s bs)
      end
  end.

Definition wc (fuel : nat) (r : R) : option (wc_end * R) := wc_loop fuel r (mkc 0 0 0 false).

(** ** cat *)

(** The system call [write] on descriptor 1. *)
Context {Out : Type} (write : Out -> list Z -> Z * Out).

Inductive cat_end := cat_done | cat_write_error | cat_read_error.

Fixpoint cat (fuel : nat) (r : R) (o : Out) : option (cat_end * R * Out) :=
  match fuel with
  | O => None
  | S fuel =>
      let '(x, r) := read r 512 in
      match x with
      | None => Some (cat_read_error, r, o)
      | Some [] => Some (cat_done, r, o)
      | Some bs =>
          let '(n, o) := write o bs in
          if negb (n =? Z.of_nat (length bs)) then Some (cat_write_error, r, o) else cat fuel r o
      end
  end.

(** ** gets *)

(** The bytes of the buffer, without the zero that ends them; [i] is their
    number. *)
Fixpoint gets_loop (fuel : nat) (max i : Z) (r : R) (acc : list Z) : option (list Z * R) :=
  match fuel with
  | O => None
  | S fuel =>
      if negb (i + 1 <? max) then Some (acc, r) else
      let '(x, r) := read r 1 in
      match x with
      | None | Some [] => Some (acc, r)
      | Some (c :: _) =>
          let acc := acc ++ [c] in
          if (c =? 10) || (c =? 13) then Some (acc, r) else gets_loop fuel max (i + 1) r acc
      end
  end.

Definition gets (max : Z) (r : R) : option (list Z * R) := gets_loop (S (Z.to_nat max)) max 0 r [].
End Read.

(** ** What they compute *)

(** A word starts at a byte that is not blank, at the start or after a blank. *)
Definition starts (p : Z * Z) : Prop := is_blank p.1 = true /\ is_blank p.2 = false.

#[export] Instance starts_dec p : Decision (starts p).
Proof. unfold starts. apply _. Defined.

Definition lines (l : list Z) : Z := Z.of_nat (length (filter (fun b => b = 10) l)).
Definition words (l : list Z) : Z := Z.of_nat (length (filter starts (zip (32 :: l) l))).

Lemma s32_succ a : s32 (s32 a + 1) = s32 (a + 1).
Proof. unfold s32. dlia. Qed.

Definition counted (l w c : Z) (prev : Z) : counts := mkc (s32 l) (s32 w) (s32 c) (negb (is_blank prev)).

Lemma wc_byte_ok l w c prev b : wc_byte (counted l w c prev) b =
  counted (l + if decide (b = 10) then 1 else 0) (w + if decide (starts (prev, b)) then 1 else 0) (c + 1) b.
Proof.
  unfold wc_byte, counted. cbn [c_l c_w c_c c_inword]. rewrite !s32_succ, negb_involutive. destruct (Z.eqb_spec b 10) as [->|Hb].
  - change (is_blank 10) with true. rewrite decide_True by done. rewrite decide_False by (intros [_ H]; done). by rewrite Z.add_0_r.
  - rewrite (decide_False (P := b = 10)) by done. rewrite Z.add_0_r. destruct (is_blank b) eqn:Eb; [rewrite decide_False by (intros [_ H]; cbn in H; congruence); by rewrite Z.add_0_r|].
    destruct (is_blank prev) eqn:Ep; [by rewrite decide_True by done|]. rewrite decide_False by (intros [H _]; cbn in H; congruence). by rewrite Z.add_0_r.
Qed.

Lemma wc_fold bs : forall l w c prev, foldl wc_byte (counted l w c prev) bs =
  counted (l + lines bs) (w + Z.of_nat (length (filter starts (zip (prev :: bs) bs)))) (c + Z.of_nat (length bs)) (List.last bs prev).
Proof.
  induction bs as [|b bs IH]; intros l w c prev; [unfold lines; cbn; by rewrite !Z.add_0_r|]. cbn [foldl]. rewrite wc_byte_ok, IH. unfold lines. cbn [zip zip_with]. rewrite !filter_cons. f_equal.
  - case_decide; cbn [length]; lia.
  - case_decide; cbn [length]; unfold zip; lia.
  - cbn [length]. lia.
  - symmetry. clear. revert b. induction bs as [|y bs IH]; intros b; [done|]. change (List.last (b :: y :: bs) prev) with (List.last (y :: bs) prev). rewrite IH. symmetry. clear IH. revert y. induction bs as [|z bs IH]; intros y; [done|]. cbn in *. by destruct bs.
Qed.

Section Spec.
Context {R : Type} (read : R -> Z -> option (list Z) * R) (rest : R -> list Z) (Hrd : reader read rest).

(** Every [read] but the last brings the end of the input nearer. *)
Lemma read_some r k : 0 < k -> exists bs r', read r k = (Some bs, r') /\ rest r = bs ++ rest r' /\ Z.of_nat (length bs) <= k /\ (bs = [] <-> rest r = []).
Proof.
  intros Hk. destruct (rd_ok _ _ Hrd r k ltac:(lia)) as (bs & r' & E & Hr & Hl & Hn). exists bs, r'. split_and!; try done. split; [intros H; by destruct (Hn H); [lia|]|]. rewrite Hr. by intros [? _]%app_eq_nil.
Qed.

Lemma wc_loop_ok fuel : forall r s, (length (rest r) < fuel)%nat ->
  exists r', rest r' = [] /\ wc_loop read fuel r s = (let s' := foldl wc_byte s (rest r) in Some (wc_counts (c_l s') (c_w s') (c_c s'), r')).
Proof using Hrd.
  induction fuel as [|fuel IH]; intros r s Hf; [lia|]. cbn [wc_loop]. destruct (read_some r 512 ltac:(lia)) as (bs & r' & -> & Hr & _ & Hn). destruct bs as [|b bs].
  - exists r'. cbn in Hr. rewrite <- Hr, (proj1 Hn eq_refl). done.
  - rewrite Hr, length_app in Hf. cbn [length] in Hf. destruct (IH r' (foldl wc_byte s (b :: bs)) ltac:(lia)) as (r2 & H2 & ->). exists r2. split; [done|]. by rewrite Hr, foldl_app.
Qed.

(** [cat] copies its input, when all of it can be written. *)
Lemma cat_spec {Out} (write : Out -> list Z -> Z * Out) (sent : Out -> list Z) fuel : (forall o bs, exists o', write o bs = (Z.of_nat (length bs), o') /\ sent o' = sent o ++ bs) ->
  forall r o, (length (rest r) < fuel)%nat -> exists r' o', cat read write fuel r o = Some (cat_done, r', o') /\ rest r' = [] /\ sent o' = sent o ++ rest r.
Proof using Hrd.
  intros Hw. induction fuel as [|fuel IH]; intros r o Hf; [lia|]. cbn [cat]. destruct (read_some r 512 ltac:(lia)) as (bs & r' & -> & Hr & _ & Hn). destruct bs as [|b bs].
  - exists r', o. cbn in Hr. rewrite (proj1 Hn eq_refl), app_nil_r in *. by rewrite <- Hr.
  - destruct (Hw o (b :: bs)) as (o' & -> & Ho). rewrite Z.eqb_refl. cbn [negb]. rewrite Hr, length_app in Hf. cbn [length] in Hf. destruct (IH r' o' ltac:(lia)) as (r2 & o2 & E & H2 & H3).
    exists r2, o2. split_and!; [done|done|]. by rewrite H3, Ho, Hr, app_assoc.
Qed.

(** The first line of at most [n] bytes. *)
Fixpoint line (n : nat) (l : list Z) : list Z :=
  match n, l with
  | S n, c :: l => if (c =? 10) || (c =? 13) then [c] else c :: line n l
  | _, _ => []
  end.

Lemma gets_loop_ok max fuel : forall i r acc, 0 <= i -> (Z.to_nat (max - i) < fuel)%nat ->
  exists r' l, gets_loop read fuel max i r acc = Some (acc ++ l, r') /\ rest r = l ++ rest r' /\ l = line (Z.to_nat (max - 1 - i)) (rest r).
Proof using Hrd.
  induction fuel as [|fuel IH]; intros i r acc Hi Hf; [lia|]. cbn [gets_loop]. destruct (Z.ltb_spec (i + 1) max) as [Hlt|Hge]; cbn [negb].
  - destruct (read_some r 1 ltac:(lia)) as (bs & r' & -> & Hr & Hl & Hn). replace (Z.to_nat (max - 1 - i)) with (S (Z.to_nat (max - 1 - (i + 1)))) by lia. destruct bs as [|c bs].
    + exists r', []. rewrite app_nil_r. cbn in Hr. rewrite <- Hr, (proj1 Hn eq_refl). done.
    + destruct bs; [|cbn in Hl; lia]. rewrite Hr. cbn [app line]. destruct ((c =? 10) || (c =? 13)); [by exists r', [c]|].
      destruct (IH (i + 1) r' (acc ++ [c]) ltac:(lia) ltac:(lia)) as (r2 & l & E & H2 & ->). exists r2, (c :: line (Z.to_nat (max - 1 - (i + 1))) (rest r')). rewrite E, <- app_assoc. split_and!; [done|by rewrite H2 at 1|done].
  - exists r, []. rewrite app_nil_r. by replace (Z.to_nat (max - 1 - i)) with 0%nat by lia.
Qed.

(** [gets] reads a line, or as much as fits with the zero at its end. *)
Lemma gets_spec max r : exists r' l, gets read max r = Some (l, r') /\ rest r = l ++ rest r' /\ l = line (Z.to_nat (max - 1)) (rest r).
Proof using Hrd. destruct (gets_loop_ok max (S (Z.to_nat max)) 0 r [] ltac:(lia) ltac:(lia)) as (r' & l & E & Hr & Hl). exists r', l. by rewrite Z.sub_0_r in Hl. Qed.
End Spec.

(** C34: [wc] counts the newlines, the words and the bytes of its whole input, as
    32-bit integers, however [read] cuts it into chunks, words across the border
    of two chunks included; it ends after at most one [read] more than the input
    has bytes. *)
Theorem wc_spec {R} (read : R -> Z -> option (list Z) * R) (rest : R -> list Z) r fuel : reader read rest -> (length (rest r) < fuel)%nat ->
  exists r', wc read fuel r = Some (wc_counts (s32 (lines (rest r))) (s32 (words (rest r))) (s32 (Z.of_nat (length (rest r)))), r') /\ rest r' = [].
Proof.
  intros Hrd Hf. destruct (wc_loop_ok read rest Hrd fuel r (mkc 0 0 0 false) Hf) as (r' & Hr & E). exists r'. split; [|done]. unfold wc. rewrite E.
  change (mkc 0 0 0 false) with (counted 0 0 0 32). by rewrite wc_fold.
Qed.

(** Two lines in chunks of three bytes. *)
Lemma wc_spec_witness : exists r', wc read3 12 demo_input = Some (wc_counts (s32 (lines demo_input)) (s32 (words demo_input)) (s32 11), r') /\ r' = [].
Proof. assert (H : (length demo_input < 12)%nat) by (cbn; lia). exact (wc_spec read3 (fun l => l) demo_input 12 read3_reader H). Defined.
