(* ===== verification/Virtio.v ===== *)
(** * kernel/virtio_disk.c: the driver of the disks

    One disk [n].  The state is what the driver and the device share (the
    descriptors and the two rings), the book-keeping of the driver, the flag
    [b->disk] and the block number of every buffer, and the request headers by
    their physical addresses.  Registers that the driver reads are given by the
    function [reg]; what it writes to registers is a list.  [data_addr] and
    [status_addr] are the addresses of the data of a buffer and of a status byte,
    [pages] that of the shared pages.  [fuel] bounds how often a waiting thread
    is woken in vain. *)

From S2P Require Import Prelude.

Definition NUM : Z := 8.
Definition VRING_DESC_F_NEXT : Z := 1.
Definition VRING_DESC_F_WRITE : Z := 2.
Definition VIRTIO_BLK_T_IN : Z := 0.
Definition VIRTIO_BLK_T_OUT : Z := 1.

Record vdesc := mkvd { d_addr : Z; d_len : Z; d_flags : Z; d_next : Z }.

Record vbuf := mkvb { b_blockno : Z; b_disk : bool }.

(** [struct virtio_blk_outhdr] *)
Record outhdr := mkoh { oh_type : Z; oh_reserved : Z; oh_sector : Z }.

(** [avail[1]] and [avail[2..]] are [avail_idx] and [avail_ring]; the device
    writes [used_id] and [used_elems], and the status of a request. *)
Record vst := mkvst {
  vcx : ctx;
  desc : list vdesc;
  avail_idx : Z;
  avail_ring : list Z;
  used_id : Z;
  used_elems : list Z;
  free : list bool;
  used_idx : Z;
  info_b : list Z;
  info_status : list Z;
  vinit : bool;
  bufs : gmap Z vbuf;
  headers : gmap Z outhdr;
  mmio : list (Z * Z)
}.

Definition set_vcx v s := mkvst v (desc s) (avail_idx s) (avail_ring s) (used_id s) (used_elems s) (free s) (used_idx s) (info_b s) (info_status s) (vinit s) (bufs s) (headers s) (mmio s).
Definition set_desc v s := mkvst (vcx s) v (avail_idx s) (avail_ring s) (used_id s) (used_elems s) (free s) (used_idx s) (info_b s) (info_status s) (vinit s) (bufs s) (headers s) (mmio s).
Definition set_avail_idx v s := mkvst (vcx s) (desc s) v (avail_ring s) (used_id s) (used_elems s) (free s) (used_idx s) (info_b s) (info_status s) (vinit s) (bufs s) (headers s) (mmio s).
Definition set_avail_ring v s := mkvst (vcx s) (desc s) (avail_idx s) v (used_id s) (used_elems s) (free s) (used_idx s) (info_b s) (info_status s) (vinit s) (bufs s) (headers s) (mmio s).
Definition set_free v s := mkvst (vcx s) (desc s) (avail_idx s) (avail_ring s) (used_id s) (used_elems s) v (used_idx s) (info_b s) (info_status s) (vinit s) (bufs s) (headers s) (mmio s).
Definition set_used_idx v s := mkvst (vcx s) (desc s) (avail_idx s) (avail_ring s) (used_id s) (used_elems s) (free s) v (info_b s) (info_status s) (vinit s) (bufs s) (headers s) (mmio s).
Definition set_info_b v s := mkvst (vcx s) (desc s) (avail_idx s) (avail_ring s) (used_id s) (used_elems s) (free s) (used_idx s) v (info_status s) (vinit s) (bufs s) (headers s) (mmio s).
Definition set_info_status v s := mkvst (vcx s) (desc s) (avail_idx s) (avail_ring s) (used_id s) (used_elems s) (free s) (used_idx s) (info_b s) v (vinit s) (bufs s) (headers s) (mmio s).
Definition set_bufs v s := mkvst (vcx s) (desc s) (avail_idx s) (avail_ring s) (used_id s) (used_elems s) (free s) (used_idx s) (info_b s) (info_status s) (vinit s) v (headers s) (mmio s).
Definition set_headers v s := mkvst (vcx s) (desc s) (avail_idx s) (avail_ring s) (used_id s) (used_elems s) (free s) (used_idx s) (info_b s) (info_status s) (vinit s) (bufs s) v (mmio s).
Definition set_mmio v s := mkvst (vcx s) (desc s) (avail_idx s) (avail_ring s) (used_id s) (used_elems s) (free s) (used_idx s) (info_b s) (info_status s) (vinit s) (bufs s) (headers s) v.

#[export] Instance vst_ctx : HasCtx vst.
Proof. refine {| cx := vcx; set_cx := set_vcx |}; [done|by intros []|done]. Defined.

Section Virtio.
Context (n : Z) (data_addr status_addr : Z -> Z) (pages : Z) (reg : Z -> Z).

Abbreviation V := (M vst).

Definition vdisk_lock : lock := ("virtio_disk"%string, n).
Definition free_chan : Z := - 1 - n.

(** Array accesses of the structure. *)
Definition rd {X} (f : vst -> list X) (i : Z) : V X := fun s => unwrap (aget (f s) i) s.
Definition wr {X} (f : vst -> list X) (g : list X -> vst -> vst) (i : Z) (x : X) : V unit := fun s => match aset (f s) i x with Some l => Ret tt (g l s) | None => Fault end.

(** [*R(n, r) = v] *)
Definition wreg (r v : Z) : V unit := modify (fun s => set_mmio (mmio s ++ [(r, v)]) s).

(** ** Start-up

    The message on the console and [initlock] are left out: a lock is free when
    no thread holds it. *)

Definition zero_desc : vdesc := mkvd 0 0 0 0.

Definition without_bit (x k : Z) : Z := Z.land x (Z.lnot (Z.shiftl 1 k)).

Definition virtio_disk_init : V unit :=
  i <- gets vinit ;;
  if (i : bool) then ret tt else
  if negb (reg 0 =? 1953655158) || negb (reg 4 =? 1) || negb (reg 8 =? 2) || negb (reg 12 =? 1431127377) then panic "could not find virtio disk" else
  wreg 112 1 ;;;
  wreg 112 (Z.lor 1 2) ;;;
  let features := without_bit (without_bit (without_bit (without_bit (without_bit (without_bit (without_bit (reg 16) 5) 7) 11) 12) 27) 29) 28 in
  wreg 32 (u32 features) ;;;
  wreg 112 (Z.lor (Z.lor 1 2) 8) ;;;
  wreg 112 (Z.lor (Z.lor (Z.lor 1 2) 8) 4) ;;;
  wreg 40 4096 ;;;
  wreg 48 0 ;;;
  let max := reg 52 in
  if max =? 0 then panic "virtio disk has no queue 0" else
  if max <? NUM then panic "virtio disk max queue too short" else
  wreg 56 NUM ;;;
  modify (fun s => mkvst (vcx s) (replicate 8 zero_desc) 0 (replicate 8 0) 0 (replicate 8 0) (free s) (used_idx s) (info_b s) (info_status s) (vinit s) (bufs s) (headers s) (mmio s)) ;;;
  wreg 64 (u32 (Z.shiftr pages 12)) ;;;
  modify (fun s => mkvst (vcx s) (desc s) (avail_idx s) (avail_ring s) (used_id s) (used_elems s) (replicate 8 true) (used_idx s) (info_b s) (info_status s) true (bufs s) (headers s) (mmio s)).

(** ** Descriptors *)

Fixpoint find_desc (l : list bool) (i : Z) : Z :=
  match l with
  | [] => -1
  | f :: l => if (f : bool) then i else find_desc l (i + 1)
  end.

Definition alloc_desc : V Z :=
  l <- gets free ;;
  let i := find_desc l 0 in
  if i <? 0 then ret (-1) else
  wr free set_free i false ;;;
  ret i.

Definition free_desc (i : Z) : V unit :=
  if NUM <=? i then panic "virtio_disk_intr 1" else
  f <- rd free i ;;
  if (f : bool) then panic "virtio_disk_intr 2" else
  d <- rd desc i ;;
  wr desc set_desc i (mkvd 0 (d_len d) (d_flags d) (d_next d)) ;;;
  wr free set_free i true ;;;
  wakeup_on free_chan.

(** A chain has at most [NUM] descriptors. *)
Fixpoint free_chain (fuel : nat) (i : Z) : V unit :=
  match fuel with
  | O => nofuel
  | S fuel =>
      free_desc i ;;;
      d <- rd desc i ;;
      if negb (Z.land (d_flags d) VRING_DESC_F_NEXT =? 0) then free_chain fuel (d_next d) else ret tt
  end.

Fixpoint free_all (l : list Z) : V unit :=
  match l with
  | [] => ret tt
  | i :: l => free_desc i ;;; free_all l
  end.

(** The indices, from the [k]th on; [got] are those before it. *)
Fixpoint alloc_descs (k : nat) (got : list Z) : V (option (list Z)) :=
  match k with
  | O => ret (Some got)
  | S k =>
      i <- alloc_desc ;;
      if i <? 0 then free_all got ;;; ret None else alloc_descs k (got ++ [i])
  end.

Definition alloc3_desc : V (option (list Z)) := alloc_descs 3 [].

(** ** Requests *)

Fixpoint alloc_wait (fuel : nat) : V (list Z) :=
  match fuel with
  | O => nofuel
  | S fuel =>
      o <- alloc3_desc ;;
      match o with
      | Some idx => ret idx
      | None => sleep_on free_chan vdisk_lock ;;; alloc_wait fuel
      end
  end.

Definition getbuf (b : Z) : V vbuf := fun s => unwrap (bufs s !! b) s.
Definition setdisk (b : Z) (v : bool) : V unit := x <- getbuf b ;; modify (fun s => set_bufs (<[b := mkvb (b_blockno x) v]> (bufs s)) s).

Fixpoint disk_wait (fuel : nat) (b : Z) : V unit :=
  match fuel with
  | O => nofuel
  | S fuel =>
      x <- getbuf b ;;
      if b_disk x then sleep_on b vdisk_lock ;;; disk_wait fuel b else ret tt
  end.

(** The three descriptors, with the header at the address [pa]. *)
Definition format_descs (pa b sector : Z) (write : bool) (i0 i1 i2 : Z) : V unit :=
  modify (fun s => set_headers (<[pa := mkoh (if write then VIRTIO_BLK_T_OUT else VIRTIO_BLK_T_IN) 0 sector]> (headers s)) s) ;;;
  wr desc set_desc i0 (mkvd pa 16 VRING_DESC_F_NEXT i1) ;;;
  wr desc set_desc i1 (mkvd (data_addr b) 1024 (Z.lor (if write then 0 else VRING_DESC_F_WRITE) VRING_DESC_F_NEXT) i2) ;;;
  wr info_status set_info_status i0 0 ;;;
  wr desc set_desc i2 (mkvd (status_addr i0) 1 VRING_DESC_F_WRITE 0).

(** [pa] is the physical address of the header on the stack of the thread. *)
Definition virtio_disk_rw (fuel : nat) (pa b : Z) (write : bool) : V unit :=
  x <- getbuf b ;;
  let sector := u32 (b_blockno x * (1024 / 512)) in
  acquire vdisk_lock ;;;
  idx <- alloc_wait fuel ;;
  match idx with
  | [i0; i1; i2] =>
      format_descs pa b sector write i0 i1 i2 ;;;
      setdisk b true ;;;
      wr info_b set_info_b i0 b ;;;
      a <- gets avail_idx ;;
      wr avail_ring set_avail_ring (a mod NUM) i0 ;;;
      modify (fun s => set_avail_idx (u16 (avail_idx s + 1)) s) ;;;
      wreg 80 0 ;;;
      disk_wait fuel b ;;;
      wr info_b set_info_b i0 0 ;;;
      free_chain (Z.to_nat NUM) i0 ;;;
      release vdisk_lock
  | _ => fault
  end.

(** ** Interrupts *)

Fixpoint intr_loop (fuel : nat) : V unit :=
  match fuel with
  | O => nofuel
  | S fuel =>
      u <- gets used_idx ;;
      d <- gets used_id ;;
      if u mod NUM =? d mod NUM then ret tt else
      id <- rd used_elems u ;;
      st <- rd info_status id ;;
      if negb (st =? 0) then panic "virtio_disk_intr status" else
      b <- rd info_b id ;;
      setdisk b false ;;;
      wakeup_on b ;;;
      modify (fun s => set_used_idx (u16 ((used_idx s + 1) mod NUM)) s) ;;;
      intr_loop fuel
  end.

Definition virtio_disk_intr : V unit :=
  acquire vdisk_lock ;;;
  intr_loop (Z.to_nat NUM) ;;;
  release vdisk_lock.
End Virtio.
