(* ===== verification/VirtioProps.v ===== *)
(** * The disk driver: properties

    Every descriptor that is not free belongs to the chain of one request.  A
    request takes three descriptors, from its submission to the wake-up that ends
    it, and gives them back; an interrupt ends the requests the device has
    finished. *)

From S2P Require Import Prelude Virtio.

Abbreviation chain := (Z * Z * Z)%type.

Definition members (c : chain) : list Z := [c.1.1; c.1.2; c.2].
Definition busy (C : list chain) : list Z := concat (members <$> C).

Definition linked (s : vst) (c : chain) : Prop :=
  (exists d, aget (desc s) c.1.1 = Some d /\ Z.odd (d_flags d) = true /\ d_next d = c.1.2) /\
  (exists d, aget (desc s) c.1.2 = Some d /\ Z.odd (d_flags d) = true /\ d_next d = c.2) /\
  (exists d, aget (desc s) c.2 = Some d /\ Z.odd (d_flags d) = false).

Record vinv (s : vst) (C : list chain) : Prop := {
  vi_len : length (desc s) = 8%nat /\ length (avail_ring s) = 8%nat /\ length (used_elems s) = 8%nat /\ length (free s) = 8%nat /\ length (info_b s) = 8%nat /\ length (info_status s) = 8%nat;
  vi_nodup : NoDup (busy C);
  vi_free : forall i x, aget (free s) i = Some x -> x = false <-> i ∈ busy C;
  vi_busy : forall i, i ∈ busy C -> 0 <= i < NUM;
  vi_link : forall c, c ∈ C -> linked s c
}.

Definition nfree (l : list bool) : nat := length (filter (fun b => b = true) l).

Lemma odd_land x : negb (Z.land x VRING_DESC_F_NEXT =? 0) = Z.odd x.
Proof.
  unfold VRING_DESC_F_NEXT. change 1 with (Z.ones 1). rewrite Z.land_ones by lia. change (2 ^ 1) with 2. rewrite Zmod_odd. by destruct (Z.odd x).
Qed.

(** ** Free descriptors *)

Lemma find_desc_ok l : forall k, 0 <= k ->
  (nfree l = 0%nat /\ find_desc l k = -1) \/ exists j, l !! j = Some true /\ find_desc l k = k + Z.of_nat j /\ (nfree l = S (nfree (<[j := false]> l)))%nat.
Proof.
  induction l as [|[] l IH]; intros k Hk; cbn [find_desc]; [by left| |].
  - right. exists 0%nat. split_and!; [done|lia|]. unfold nfree. cbn [list_insert insert]. rewrite filter_cons_True, filter_cons_False by done. done.
  - destruct (IH (k + 1) ltac:(lia)) as [[H1 ->]|(j & H1 & -> & H3)]; [left|right; exists (S j)]; unfold nfree in *; [rewrite filter_cons_False by done; done|]. split_and!; [done|lia|]. cbn [list_insert insert]. rewrite !filter_cons_False by done. done.
Qed.

Lemma vrd_ok {X} (f : vst -> list X) i s x : aget (f s) i = Some x -> rd f i s = Ret x s.
Proof. intros E. unfold rd. by rewrite E. Qed.

Lemma vwr_ok {X} (f : vst -> list X) g i x s : 0 <= i < Z.of_nat (length (f s)) -> wr f g i x s = Ret tt (g (<[Z.to_nat i := x]> (f s)) s).
Proof. intros Hi. unfold wr. by rewrite aset_is_Some. Qed.

Lemma alloc_desc_ok s : length (free s) = 8%nat ->
  (nfree (free s) = 0%nat /\ alloc_desc s = Ret (-1) s) \/
  exists i, 0 <= i < NUM /\ aget (free s) i = Some true /\ alloc_desc s = Ret i (set_free (<[Z.to_nat i := false]> (free s)) s) /\ nfree (free s) = S (nfree (<[Z.to_nat i := false]> (free s))).
Proof.
  intros Hl. unfold alloc_desc, gets. destruct (find_desc_ok (free s) 0 ltac:(lia)) as [[H1 H2]|(j & H1 & H2 & H3)]; [left|right]; rewrite ?(bind_ret_l _ _ s (free s) s) by done; rewrite H2; [done|].
  pose proof (lookup_lt_Some _ _ _ H1) as Hj. exists (0 + Z.of_nat j). unfold NUM. rewrite !Z.add_0_l, aget_of_nat, Nat2Z.id. split_and!; [lia|lia|done| |done].
  rewrite (proj2 (Z.ltb_ge _ _)) by lia. rewrite (bind_ret_l _ _ _ _ _ (vwr_ok free set_free (Z.of_nat j) false s ltac:(lia))). by rewrite Nat2Z.id.
Qed.

(** A descriptor is given back: nothing but its address changes. *)
Definition cleared (d : vdesc) : vdesc := mkvd 0 (d_len d) (d_flags d) (d_next d).

Lemma free_desc_ok n s i d : length (free s) = 8%nat -> length (desc s) = 8%nat -> aget (free s) i = Some false -> aget (desc s) i = Some d ->
  free_desc n i s = Ret tt (set_free (<[Z.to_nat i := true]> (free s)) (set_desc (<[Z.to_nat i := cleared d]> (desc s)) s)).
Proof.
  intros Hl1 Hl2 Hf Hd. pose proof (aget_Some_lt _ _ _ Hf) as Hi. unfold free_desc. rewrite (proj2 (Z.leb_gt _ _)) by (unfold NUM; lia). rewrite (bind_ret_l _ _ _ _ _ (vrd_ok free i s _ Hf)), (bind_ret_l _ _ _ _ _ (vrd_ok desc i s _ Hd)).
  rewrite (bind_ret_l _ _ _ _ _ (vwr_ok desc set_desc i _ s ltac:(lia))). rewrite (bind_ret_l _ _ _ _ _ (vwr_ok free set_free i true (set_desc _ s) ltac:(cbn; lia))). done.
Qed.

(** The descriptors [got] were given back. *)
Definition gave (got : list Z) (s s' : vst) : Prop := exists l ds, s' = set_free l (set_desc ds s) /\ length l = length (free s) /\ length ds = length (desc s) /\
  (forall j, aget l j = if decide (j ∈ got) then Some true else aget (free s) j) /\ (forall j, aget ds j = if decide (j ∈ got) then cleared <$> aget (desc s) j else aget (desc s) j).

Lemma free_all_ok n got : forall s, length (free s) = 8%nat -> length (desc s) = 8%nat -> NoDup got -> (forall i, i ∈ got -> aget (free s) i = Some false) -> exists s', free_all n got s = Ret tt s' /\ gave got s s'.
Proof.
  induction got as [|i got IH]; intros s Hl1 Hl2 Hn Hg; cbn [free_all].
  - exists s. split; [done|]. exists (free s), (desc s). split_and!; [by destruct s|done|done| |]; intros j; by rewrite decide_False by apply not_elem_of_nil.
  - pose proof (NoDup_cons_1_1 _ _ Hn) as Hni. apply NoDup_cons_1_2 in Hn. pose proof (Hg i ltac:(by left)) as Hi. pose proof (aget_Some_lt _ _ _ Hi) as Hr. destruct (aget_is_Some (desc s) i ltac:(lia)) as [d Hd].
    rewrite (bind_ret_l _ _ _ _ _ (free_desc_ok n s i d Hl1 Hl2 Hi Hd)). set (s1 := set_free _ _). assert (Hf1 : forall j, aget (free s1) j = if decide (j = i) then Some true else aget (free s) j) by (intros j; apply aget_insert; lia).
    assert (Hd1 : forall j, aget (desc s1) j = if decide (j = i) then Some (cleared d) else aget (desc s) j) by (intros j; apply aget_insert; lia).
    assert (Hs1 : length (free s1) = length (free s) /\ length (desc s1) = length (desc s)) by (split; apply length_insert). destruct Hs1 as [Hs1 Hs2].
    destruct (IH s1) as (s2 & E2 & l & ds & -> & L1 & L2 & H1 & H2); [lia|lia|done|intros j Hj; rewrite Hf1, decide_False by (intros ->; done); apply Hg; by right|].
    eexists. split; [exact E2|]. exists l, ds. split_and!; [done|lia|lia| |]; intros j; rewrite ?H1, ?H2, ?Hf1, ?Hd1.
    + destruct (decide (j = i)) as [->|Hne]; [rewrite (decide_True (P := i ∈ i :: got)) by (by left); by case_decide|]. destruct (decide (j ∈ got)); [by rewrite decide_True by (by right)|]. rewrite decide_False; [done|]. by intros [?|?]%elem_of_cons.
    + destruct (decide (j = i)) as [->|Hne]; [rewrite (decide_True (P := i ∈ i :: got)) by (by left); rewrite Hd; by rewrite decide_False|]. destruct (decide (j ∈ got)); [by rewrite decide_True by (by right)|]. rewrite decide_False; [done|]. by intros [?|?]%elem_of_cons.
Qed.

Lemma alloc_descs_ok n k : forall got s, length (free s) = 8%nat -> length (desc s) = 8%nat -> NoDup got -> (forall i, i ∈ got -> aget (free s) i = Some false) ->
  if decide (k <= nfree (free s))%nat then
    exists new l, alloc_descs n k got s = Ret (Some (got ++ new)) (set_free l s) /\ length new = k /\ NoDup new /\ length l = 8%nat /\ (forall i, i ∈ new -> aget (free s) i = Some true) /\
      forall j, aget l j = if decide (j ∈ new) then Some false else aget (free s) j
  else exists s', alloc_descs n k got s = Ret None s' /\ exists l ds, s' = set_free l (set_desc ds s) /\ length l = 8%nat /\ length ds = 8%nat /\
      (forall j, aget l j = if decide (j ∈ got) then Some true else aget (free s) j) /\ (forall j, j ∉ got -> aget (free s) j = Some false -> aget ds j = aget (desc s) j).
Proof.
  induction k as [|k IH]; intros got s Hl1 Hl2 Hn Hg; cbn [alloc_descs].
  - rewrite decide_True by lia. exists [], (free s). rewrite app_nil_r. split_and!; [by destruct s|done|constructor|done|by intros i ?%not_elem_of_nil|]. intros j. by rewrite decide_False by apply not_elem_of_nil.
  - destruct (alloc_desc_ok s Hl1) as [[H0 E]|(i & Hi & Ht & E & Hc)].
    + rewrite decide_False by lia. rewrite (bind_ret_l _ _ _ _ _ E). change (-1 <? 0) with true. cbv iota. destruct (free_all_ok n got s Hl1 Hl2 Hn Hg) as (s' & E' & l & ds & -> & L1 & L2 & H1 & H2). rewrite (bind_ret_l _ _ _ _ _ E'). eexists. split; [done|]. exists l, ds. split_and!; try done; [lia|lia|].
      intros j Hj _. rewrite H2. by rewrite decide_False.
    + rewrite (bind_ret_l _ _ _ _ _ E), (proj2 (Z.ltb_ge _ _)) by lia. set (s1 := set_free _ s). assert (Hf1 : forall j, aget (free s1) j = if decide (j = i) then Some false else aget (free s) j) by (intros j; apply aget_insert; unfold NUM in Hi; lia).
      assert (Hig : i ∉ got) by (intros H; apply Hg in H; congruence). specialize (IH (got ++ [i]) s1). assert (Hn' : NoDup (got ++ [i])) by (apply list.NoDup_app; split_and!; [done|intros x Hx ->%list_elem_of_singleton; done|apply NoDup_singleton]).
      assert (Hg' : forall j, j ∈ got ++ [i] -> aget (free s1) j = Some false) by (intros j [Hj| ->%list_elem_of_singleton]%elem_of_app; rewrite Hf1; [destruct (decide (j = i)); [done|by apply Hg]|by rewrite decide_True]).
      specialize (IH ltac:(cbn [s1 free set_free]; by rewrite length_insert) Hl2 Hn' Hg'). cbn [s1 free set_free] in IH. destruct (decide (S k <= nfree (free s))%nat) as [HS|HS]; [rewrite decide_True in IH by (cbn [s1 free set_free]; lia)|rewrite decide_False in IH by (cbn [s1 free set_free]; lia)].
      * destruct IH as (new & l & E1 & L & Hnn & L1 & H1 & H2). exists (i :: new), l. rewrite <- app_assoc in E1. assert (Hin : i ∉ new) by (intros H; apply H1 in H; rewrite Hf1 in H; by rewrite decide_True in H). split_and!; [exact E1|cbn; lia|by constructor|done| |].
        -- intros j [->|Hj]%elem_of_cons; [done|]. pose proof (H1 j Hj) as H. rewrite Hf1 in H. by case_decide.
        -- intros j. rewrite H2, Hf1. destruct (decide (j = i)) as [->|Hne]; [rewrite (decide_True (P := i ∈ i :: new)) by (by left); by case_decide|]. destruct (decide (j ∈ new)); [by rewrite decide_True by (by right)|]. rewrite decide_False; [done|]. by intros [?|?]%elem_of_cons.
      * destruct IH as (s' & E1 & l & ds & -> & L1 & L2 & H1 & H2). eexists. split; [exact E1|]. exists l, ds. split_and!; [done|done|done| |].
        -- intros j. rewrite H1, Hf1. destruct (decide (j = i)) as [->|Hne]; [rewrite decide_True by set_solver; by rewrite (decide_False (P := i ∈ got))|]. destruct (decide (j ∈ got)); [by rewrite decide_True by set_solver|]. by rewrite decide_False by set_solver.
        -- intros j Hj Hfj. apply H2; [|rewrite Hf1; by case_decide]. intros [?| ->%list_elem_of_singleton]%elem_of_app; [done|congruence].
Qed.

(** ** The invariant *)

Lemma aget_ext {A} (l l' : list A) : (forall j, aget l j = aget l' j) -> l = l'.
Proof. intros H. apply list_eq. intros j. by rewrite <- !aget_of_nat. Qed.

Lemma busy_cons c C : busy (c :: C) = members c ++ busy C.
Proof. done. Qed.

Lemma members_busy c C i : c ∈ C -> i ∈ members c -> i ∈ busy C.
Proof. intros Hc Hi. apply list_elem_of_In, in_concat. exists (members c). split; apply list_elem_of_In; [|done]. by apply list_elem_of_fmap_2. Qed.

Lemma vinv_false s C i : vinv s C -> i ∈ busy C -> aget (free s) i = Some false.
Proof.
  intros Hv Hi. pose proof (vi_busy _ _ Hv i Hi) as Hr. destruct (vi_len _ _ Hv) as (_ & _ & _ & L & _). destruct (aget_is_Some (free s) i ltac:(unfold NUM in Hr; lia)) as [x Hx].
  by rewrite <- (proj2 (vi_free _ _ Hv i x Hx) Hi).
Qed.

(** Only descriptors of the chains matter. *)
Lemma linked_ext s s' c : (forall j, j ∈ members c -> aget (desc s') j = aget (desc s) j) -> linked s c -> linked s' c.
Proof. intros H. unfold linked. rewrite !H by (unfold members; rewrite !elem_of_cons; tauto). done. Qed.

Lemma vinv_desc s C ds : vinv s C -> length ds = 8%nat -> (forall j, aget (free s) j = Some false -> aget ds j = aget (desc s) j) -> vinv (set_desc ds s) C.
Proof.
  intros Hv Hl H. destruct (vi_len _ _ Hv) as (? & ? & ? & ? & ? & ?). split; [done|apply (vi_nodup _ _ Hv)|apply (vi_free _ _ Hv)|apply (vi_busy _ _ Hv)|].
  intros c Hc. apply (linked_ext s); [|by apply (vi_link _ _ Hv)]. intros j Hj. apply H. eapply vinv_false, members_busy; done.
Qed.

(** The chains in another order. *)
Lemma vinv_perm s C C' : C ≡ₚ C' -> vinv s C -> vinv s C'.
Proof.
  intros HC Hv. assert (Hb : busy C ≡ₚ busy C') by (unfold busy; by rewrite HC). split; [apply (vi_len _ _ Hv)|rewrite <- Hb; apply (vi_nodup _ _ Hv)| | |].
  - intros i x Hx. rewrite <- Hb. by apply (vi_free _ _ Hv).
  - intros i. rewrite <- Hb. apply (vi_busy _ _ Hv).
  - intros c. rewrite <- HC. apply (vi_link _ _ Hv).
Qed.

Lemma alloc3_desc_ok n s C : vinv s C ->
  if decide (3 <= nfree (free s))%nat then
    exists i0 i1 i2 l, alloc3_desc n s = Ret (Some [i0; i1; i2]) (set_free l s) /\ NoDup [i0; i1; i2] /\ length l = 8%nat /\ (forall i, i ∈ [i0; i1; i2] -> aget (free s) i = Some true) /\
      forall j, aget l j = if decide (j ∈ [i0; i1; i2]) then Some false else aget (free s) j
  else exists ds, alloc3_desc n s = Ret None (set_desc ds s) /\ vinv (set_desc ds s) C.
Proof.
  intros Hv. destruct (vi_len _ _ Hv) as (L1 & _ & _ & L2 & _). pose proof (alloc_descs_ok n 3 [] s L2 L1 ltac:(constructor) ltac:(by intros i ?%not_elem_of_nil)) as H. destruct (decide (3 <= nfree (free s))%nat) as [H3|H3].
  - destruct H as (new & l & E & Hn & Hd & Hl & Ht & Hj). destruct new as [|i0 [|i1 [|i2 [|]]]]; try done. by exists i0, i1, i2, l.
  - destruct H as (s' & E & l & ds & -> & Hl & Hds & Hj & Hk). assert (l = free s) as -> by (apply aget_ext; intros j; by rewrite Hj, decide_False by apply not_elem_of_nil). exists ds. split; [exact E|].
    apply vinv_desc; [done|done|]. intros j. apply Hk, not_elem_of_nil.
Qed.

(** The descriptors of a finished request go back. *)
Lemma free_chain_step n fuel s i d : length (free s) = 8%nat -> length (desc s) = 8%nat -> aget (free s) i = Some false -> aget (desc s) i = Some d ->
  free_chain n (S fuel) i s = (if Z.odd (d_flags d) then free_chain n fuel (d_next d) else ret tt) (set_free (<[Z.to_nat i := true]> (free s)) (set_desc (<[Z.to_nat i := cleared d]> (desc s)) s)).
Proof.
  intros L1 L2 Hf Hd. cbn [free_chain]. rewrite (bind_ret_l _ _ _ _ _ (free_desc_ok n s i d L1 L2 Hf Hd)). pose proof (aget_Some_lt _ _ _ Hd). set (s1 := set_free _ _). rewrite (bind_ret_l (rd desc i) _ s1 (cleared d) s1); [by rewrite odd_land|].
  apply vrd_ok. cbn [s1 set_free set_desc desc]. rewrite aget_insert by lia. by rewrite decide_True.
Qed.

Lemma free_chain_ok n s c C : vinv s (c :: C) -> exists l ds, free_chain n (Z.to_nat NUM) c.1.1 s = Ret tt (set_free l (set_desc ds s)) /\ vinv (set_free l (set_desc ds s)) C.
Proof.
  destruct c as [[i0 i1] i2]. intros Hv. destruct (vi_len _ _ Hv) as (L1 & L3 & L4 & L2 & L5 & L6). pose proof (fun i => vinv_false _ _ i Hv) as Hf. pose proof (vi_busy _ _ Hv) as Hr. pose proof (vi_nodup _ _ Hv) as Hn.
  rewrite busy_cons in *. unfold members in *. cbn [fst snd] in *. destruct (vi_link _ _ Hv _ ltac:(by left)) as ((d0 & D0 & F0 & N0) & (d1 & D1 & F1 & N1) & (d2 & D2 & F2)). cbn [fst snd] in *.
  apply list.NoDup_app in Hn as (Hn & Hnot & HnC). rewrite !list.NoDup_cons, !not_elem_of_cons in Hn. destruct Hn as ((H01 & H02 & _) & (H12 & _) & _).
  assert (Hm : forall i, i ∈ [i0; i1; i2] -> aget (free s) i = Some false /\ 0 <= i < 8) by (intros i Hi; split; [apply Hf|apply Hr]; apply elem_of_app; by left).
  destruct (Hm i0 ltac:(by left)) as [G0 R0]. destruct (Hm i1 ltac:(right; by left)) as [G1 R1]. destruct (Hm i2 ltac:(right; right; by left)) as [G2 R2].
  exists (<[Z.to_nat i2 := true]> (<[Z.to_nat i1 := true]> (<[Z.to_nat i0 := true]> (free s)))), (<[Z.to_nat i2 := cleared d2]> (<[Z.to_nat i1 := cleared d1]> (<[Z.to_nat i0 := cleared d0]> (desc s)))). split.
  - change (Z.to_nat NUM) with 8%nat. rewrite (free_chain_step n 7 s i0 d0 L2 L1 G0 D0), F0, N0. rewrite (free_chain_step n 6 _ i1 d1), F1, N1; cbn [set_free set_desc free desc]; rewrite ?length_insert; rewrite ?aget_insert, ?decide_False by (lia || done); try done.
    rewrite (free_chain_step n 5 _ i2 d2), F2; cbn [set_free set_desc free desc]; rewrite ?length_insert; rewrite ?aget_insert by (rewrite ?length_insert; lia); rewrite ?decide_False by done; done.
  - split; cbn [set_free set_desc free desc avail_ring used_elems info_b info_status]; rewrite ?length_insert; [done|done| | |].
    + intros i x. rewrite !aget_insert by (rewrite ?length_insert; lia). destruct (decide (i ∈ [i0; i1; i2])) as [Hi|Hi].
      * assert (HC : i ∉ busy C) by (by apply Hnot). intros Hx. assert (x = true) as ->; [|split; [done|intros ?; done]]. rewrite !elem_of_cons in Hi. repeat case_decide; try congruence. destruct Hi as [|[|[|[]%not_elem_of_nil]]]; done.
      * pose proof Hi as Hi'. rewrite !not_elem_of_cons in Hi. destruct Hi as (? & ? & ? & _). rewrite !decide_False by done. intros Hx. rewrite (vi_free _ _ Hv i x Hx), busy_cons. cbn [fst snd]. unfold members. cbn [fst snd]. rewrite elem_of_app. tauto.
    + intros i Hi. apply Hr, elem_of_app. by right.
    + intros c Hc. apply (linked_ext s); [|apply (vi_link _ _ Hv); by right]. intros j Hj. pose proof (members_busy _ _ _ Hc Hj) as Hb. cbn [set_free set_desc desc]. rewrite !aget_insert by (rewrite ?length_insert; lia).
      assert (Hne : j ∉ [i0; i1; i2]) by (intros H; by apply Hnot in H). rewrite !not_elem_of_cons in Hne. destruct Hne as (? & ? & ? & _). by rewrite !decide_False.
Qed.

(** ** Requests *)

Section Requests.
Context (n : Z) (data_addr status_addr : Z -> Z).

Definition ready (s : vst) : Prop := cx_wf (cx s) /\ vdisk_lock n ∉ held (cx s).

(** The chain [c] asks the device to move the block [bn] to or from the buffer
    [b]; the header is at [pa]. *)
Record describes (s : vst) (c : chain) (pa b bn : Z) (write : bool) : Prop := {
  de_header : aget (desc s) c.1.1 = Some (mkvd pa 16 1 c.1.2) /\ headers s !! pa = Some (mkoh (if write then 1 else 0) 0 (u32 (bn * 2)));
  de_data : aget (desc s) c.1.2 = Some (mkvd (data_addr b) 1024 (if write then 1 else 3) c.2);
  de_status : aget (desc s) c.2 = Some (mkvd (status_addr c.1.1) 1 2 0) /\ aget (info_status s) c.1.1 = Some 0;
  de_info : aget (info_b s) c.1.1 = Some b /\ bufs s !! b = Some (mkvb bn true)
}.

(** The step from [s] to [s1] hands the chain [c] to the device: it is the entry
    [avail_idx] of the ring, the device is notified, and what belongs to other
    requests stays. *)
Record submitted (s s1 : vst) (C : list chain) (c : chain) (b : Z) : Prop := {
  su_ring : avail_ring s1 = <[Z.to_nat (avail_idx s mod NUM) := c.1.1]> (avail_ring s) /\ avail_idx s1 = u16 (avail_idx s + 1) /\ mmio s1 = mmio s ++ [(80, 0)];
  su_others : forall i, i ∈ busy C -> aget (desc s1) i = aget (desc s) i /\ aget (info_b s1) i = aget (info_b s) i /\ aget (info_status s1) i = aget (info_status s) i;
  su_bufs : forall b', b' <> b -> bufs s1 !! b' = bufs s !! b'
}.

(** [k] is a thread that waits for the request of the chain [c]: whenever it is
    woken, it goes back to sleep while the buffer belongs to the disk, and
    otherwise it gives the descriptors back and returns. *)
Fixpoint waits (f : nat) (c : chain) (b : Z) (k : vst -> res vst unit) : Prop :=
  match f with
  | O => True
  | S f => forall s C y, ready s -> vinv s (c :: C) -> bufs s !! b = Some y ->
      if b_disk y then exists k', k s = Sleep b (set_cx (touch (cx s)) s) k' /\ waits f c b k'
      else exists s', k s = Ret tt s' /\ cx s' = touch (cx s) /\ vinv s' C /\ bufs s' = bufs s /\ (forall i, i ∈ members c -> aget (free s') i = Some true)
  end.

(** [k] is a thread that has a request for the block [bn] in the buffer [b]:
    whenever it runs, it sleeps for want of descriptors and changes nothing the
    device or other threads see, or it submits the request and waits for it. *)
Fixpoint serves (F f : nat) (pa b bn : Z) (write : bool) (k : vst -> res vst unit) : Prop :=
  match f with
  | O => True
  | S f => forall s C y, ready s -> vinv s C -> bufs s !! b = Some y -> b_blockno y = bn ->
      if decide (3 <= nfree (free s))%nat then
        exists c s1 k', k s = Sleep b s1 k' /\ cx s1 = touch (cx s) /\ vinv s1 (c :: C) /\ describes s1 c pa b bn write /\ submitted s s1 C c b /\ waits F c b k'
      else exists ds k', k s = Sleep (free_chan n) (set_cx (touch (cx s)) (set_desc ds s)) k' /\ vinv (set_desc ds s) C /\ serves F f pa b bn write k'
  end.

Definition rw_end (fuel : nat) (i0 b : Z) : M vst unit :=
  disk_wait n fuel b ;;; wr info_b set_info_b i0 0 ;;; free_chain n (Z.to_nat NUM) i0 ;;; release (vdisk_lock n).

Definition rw_submit (fuel : nat) (pa b bn : Z) (write : bool) (i0 i1 i2 : Z) : M vst unit :=
  format_descs data_addr status_addr pa b (u32 (bn * 2)) write i0 i1 i2 ;;;
  setdisk b true ;;;
  wr info_b set_info_b i0 b ;;;
  a <- gets avail_idx ;;
  wr avail_ring set_avail_ring (a mod NUM) i0 ;;;
  modify (fun s => set_avail_idx (u16 (avail_idx s + 1)) s) ;;;
  wreg 80 0 ;;;
  rw_end fuel i0 b.

(** ** Waiting for the end *)

Lemma vinv_cx c s C : vinv (set_vcx c s) C <-> vinv s C.
Proof. split; intros []; by split. Qed.

Lemma vinv_info s C l : length l = 8%nat -> vinv s C -> vinv (set_info_b l s) C.
Proof. intros Hl Hv. destruct (vi_len _ _ Hv) as (? & ? & ? & ? & ? & ?). destruct Hv. by split. Qed.

Lemma getbuf_ok b s y : bufs s !! b = Some y -> getbuf b s = Ret y s.
Proof. intros E. unfold getbuf. by rewrite E. Qed.

(** The sleep of a thread that holds the lock of the disk, in a sequence. *)
Lemma sleep_locked {A B} chan c s (g : unit -> M vst A) (h : A -> M vst B) : cx_wf c -> vdisk_lock n ∉ held c -> cx s = locked_cx (vdisk_lock n) c ->
  exists k, rbind (bind (sleep_on chan (vdisk_lock n)) g s) h = Sleep chan (set_cx (touch c) s) k /\ forall t, k t = bind (acquire (vdisk_lock n)) (fun u => bind (g u) h) t.
Proof.
  intros Hw Hl Hs. assert (E : release (vdisk_lock n) s = Ret tt (set_cx (touch c) s)) by (apply release_ok; [done|done|]; by rewrite locked_touch).
  unfold sleep_on, bind at 1 2. rewrite E. cbn [rbind]. eexists. split; [done|]. intros t. cbn [rbind]. unfold bind, acquire. by destruct (holds (vdisk_lock n) t).
Qed.

Lemma waits_ext f c b k k' : (forall t, k t = k' t) -> waits f c b k -> waits f c b k'.
Proof.
  destruct f as [|f]; [done|]. cbn [waits]. intros Hk H s C y H1 H2 H3. specialize (H s C y H1 H2 H3). by rewrite Hk in H.
Qed.

Lemma rw_end_sleeps f i0 b y c s : cx_wf c -> vdisk_lock n ∉ held c -> cx s = locked_cx (vdisk_lock n) c -> bufs s !! b = Some y -> b_disk y = true ->
  exists k, rw_end (S f) i0 b s = Sleep b (set_cx (touch c) s) k /\ forall t, k t = (acquire (vdisk_lock n) ;;; rw_end f i0 b) t.
Proof.
  intros Hw Hl Hs Hb Hy. unfold rw_end at 1. cbn [disk_wait]. unfold bind at 1. run (getbuf_ok b s y Hb). rewrite Hy. by apply sleep_locked.
Qed.

Lemma rw_end_ok f c C b y cx0 s : cx_wf cx0 -> vdisk_lock n ∉ held cx0 -> cx s = locked_cx (vdisk_lock n) cx0 -> vinv s (c :: C) -> bufs s !! b = Some y -> b_disk y = false ->
  exists s', rw_end (S f) c.1.1 b s = Ret tt s' /\ cx s' = touch cx0 /\ vinv s' C /\ bufs s' = bufs s.
Proof.
  intros Hw Hl Hs Hv Hb Hy. destruct (vi_len _ _ Hv) as (_ & _ & _ & _ & L & _). pose proof (vi_busy _ _ Hv c.1.1 ltac:(rewrite busy_cons; by left)) as Hr.
  unfold rw_end. cbn [disk_wait]. assert (E : (x <- getbuf b ;; if b_disk x then sleep_on b (vdisk_lock n) ;;; disk_wait n f b else ret tt) s = Ret tt s) by (run (getbuf_ok b s y Hb); by rewrite Hy).
  run E. run (vwr_ok info_b set_info_b c.1.1 0 s ltac:(unfold NUM in Hr; lia)). destruct (free_chain_ok n _ c C (vinv_info s (c :: C) (<[Z.to_nat c.1.1 := 0]> (info_b s)) ltac:(rewrite length_insert; exact L) Hv)) as (l & ds & E1 & Hv1). run E1.
  rewrite (release_ok (vdisk_lock n) cx0); [|done|done|rewrite locked_touch; exact Hs]. eexists. split_and!; [done|done| |done]. by apply vinv_cx.
Qed.

Lemma freed_again s c C s' : vinv s (c :: C) -> vinv s' C -> forall i, i ∈ members c -> aget (free s') i = Some true.
Proof.
  intros Hv Hv' i Hi. pose proof (vi_busy _ _ Hv i ltac:(rewrite busy_cons; apply elem_of_app; by left)) as Hr. destruct (vi_len _ _ Hv') as (_ & _ & _ & L & _). destruct (aget_is_Some (free s') i ltac:(unfold NUM in Hr; lia)) as [x Hx].
  rewrite Hx. destruct x; [done|]. pose proof (vi_nodup _ _ Hv) as Hn. rewrite busy_cons in Hn. apply list.NoDup_app in Hn as (_ & Hn & _). destruct (Hn i Hi). by apply (vi_free _ _ Hv' i false Hx).
Qed.

Lemma rw_end_waits c b : forall f, waits f c b (acquire (vdisk_lock n) ;;; rw_end f c.1.1 b).
Proof.
  induction f as [|f IH]; [done|]. cbn [waits]. intros s C y [Hw Hl] Hv Hb. rewrite (bind_ret_l _ _ _ _ _ (acquire_ok _ s Hl)). destruct (b_disk y) eqn:Hy.
  - destruct (rw_end_sleeps f c.1.1 b y (cx s) (set_cx (locked_cx (vdisk_lock n) (cx s)) s) Hw Hl (cx_set _ _) Hb Hy) as (k & E & Hk). exists k. split; [exact E|]. by apply (waits_ext _ _ _ _ _ (fun t => eq_sym (Hk t))).
  - destruct (rw_end_ok f c C b y (cx s) (set_cx (locked_cx (vdisk_lock n) (cx s)) s) Hw Hl (cx_set _ _) ltac:(by apply vinv_cx) Hb Hy) as (s' & E & Hc & Hv' & Hb'). exists s'. split_and!; [exact E|done|done|done|]. by apply (freed_again s c C).
Qed.

(** ** Submitting a request *)

Definition after_submit (s : vst) (c : chain) (pa b bn : Z) (write : bool) : vst :=
  let '(i0, i1, i2) := c in
  mkvst (vcx s)
    (<[Z.to_nat i2 := mkvd (status_addr i0) 1 2 0]> (<[Z.to_nat i1 := mkvd (data_addr b) 1024 (if write then 1 else 3) i2]> (<[Z.to_nat i0 := mkvd pa 16 1 i1]> (desc s))))
    (u16 (avail_idx s + 1)) (<[Z.to_nat (avail_idx s mod NUM) := i0]> (avail_ring s)) (used_id s) (used_elems s) (free s) (used_idx s)
    (<[Z.to_nat i0 := b]> (info_b s)) (<[Z.to_nat i0 := 0]> (info_status s)) (vinit s) (<[b := mkvb bn true]> (bufs s))
    (<[pa := mkoh (if write then 1 else 0) 0 (u32 (bn * 2))]> (headers s)) (mmio s ++ [(80, 0)]).

Lemma wr_bind {X B} (f : vst -> list X) g i x s (k : unit -> M vst B) : 0 <= i < Z.of_nat (length (f s)) -> bind (wr f g i x) k s = k tt (g (<[Z.to_nat i := x]> (f s)) s).
Proof. intros Hi. by run (vwr_ok f g i x s Hi). Qed.

Lemma rw_submit_ok F pa b y write i0 i1 i2 s :
  length (desc s) = 8%nat /\ length (avail_ring s) = 8%nat /\ length (info_b s) = 8%nat /\ length (info_status s) = 8%nat -> 0 <= i0 < 8 -> 0 <= i1 < 8 -> 0 <= i2 < 8 -> bufs s !! b = Some y ->
  rw_submit F pa b (b_blockno y) write i0 i1 i2 s = rw_end F i0 b (after_submit s (i0, i1, i2) pa b (b_blockno y) write).
Proof.
  intros (L1 & L2 & L3 & L4) R0 R1 R2 Hb. pose proof (Z.mod_pos_bound (avail_idx s) 8 ltac:(lia)) as Hm.
  assert (E : forall sector, format_descs data_addr status_addr pa b sector write i0 i1 i2 s = Ret tt (set_desc (<[Z.to_nat i2 := mkvd (status_addr i0) 1 2 0]> (<[Z.to_nat i1 := mkvd (data_addr b) 1024 (if write then 1 else 3) i2]> (<[Z.to_nat i0 := mkvd pa 16 1 i1]> (desc s))))
    (set_info_status (<[Z.to_nat i0 := 0]> (info_status s)) (set_headers (<[pa := mkoh (if write then 1 else 0) 0 sector]> (headers s)) s)))).
  { intros sector. unfold format_descs. mstep. rewrite !wr_bind by (cbn; rewrite ?length_insert; lia).
    rewrite vwr_ok by (cbn; rewrite ?length_insert; lia). by destruct write. }
  unfold rw_submit. run (E (u32 (b_blockno y * 2))). unfold setdisk. set (s1 := set_desc _ _).
  assert (E2 : (x <- getbuf b ;; modify (fun s => set_bufs (<[b := mkvb (b_blockno x) true]> (bufs s)) s)) s1 = Ret tt (set_bufs (<[b := mkvb (b_blockno y) true]> (bufs s)) s1)) by (run (getbuf_ok b s1 y Hb); done). run E2.
  rewrite wr_bind by (cbn; lia). mstep. rewrite wr_bind by (cbn -[Z.modulo]; unfold NUM; lia). unfold wreg. mstep. done.
Qed.

Lemma after_describes s c pa b bn write : length (desc s) = 8%nat -> length (info_b s) = 8%nat -> length (info_status s) = 8%nat -> NoDup (members c) -> (forall i, i ∈ members c -> 0 <= i < 8) -> describes (after_submit s c pa b bn write) c pa b bn write.
Proof.
  destruct c as [[i0 i1] i2]. unfold members. cbn [fst snd]. intros L1 L2 L3 Hn Hr. rewrite !list.NoDup_cons, !not_elem_of_cons in Hn. destruct Hn as ((H01 & H02 & _) & (H12 & _) & _).
  pose proof (Hr i0 ltac:(by left)). pose proof (Hr i1 ltac:(right; by left)). pose proof (Hr i2 ltac:(right; right; by left)).
  split; cbn [after_submit desc headers info_b info_status bufs fst snd]; rewrite ?aget_insert by (rewrite ?length_insert; lia); rewrite ?lookup_insert_eq; rewrite ?(decide_False (P := _ = _)) by done; rewrite ?decide_True by done; done.
Qed.

(** The step from [s], whose free descriptors [members c] were taken: [l] says
    which are still free. *)
Definition took (s : vst) (c : chain) (l : list bool) : Prop :=
  NoDup (members c) /\ length l = 8%nat /\ (forall i, i ∈ members c -> aget (free s) i = Some true) /\ forall j, aget l j = if decide (j ∈ members c) then Some false else aget (free s) j.

Lemma took_range s C c l i : vinv s C -> took s c l -> i ∈ members c -> 0 <= i < 8 /\ i ∉ busy C.
Proof.
  intros Hv (_ & _ & Ht & _) Hi. pose proof (Ht i Hi) as H. destruct (vi_len _ _ Hv) as (_ & _ & _ & L & _). pose proof (aget_Some_lt _ _ _ H). split; [lia|]. intros Hb. by apply (vi_free _ _ Hv _ _ H) in Hb.
Qed.

Lemma after_desc s c pa b bn write i : length (desc s) = 8%nat -> (forall i, i ∈ members c -> 0 <= i < 8) -> i ∉ members c -> aget (desc (after_submit s c pa b bn write)) i = aget (desc s) i.
Proof.
  destruct c as [[i0 i1] i2]. unfold members. cbn [fst snd]. intros L Hr Hi. pose proof (Hr i0 ltac:(by left)). pose proof (Hr i1 ltac:(right; by left)). pose proof (Hr i2 ltac:(right; right; by left)).
  rewrite !not_elem_of_cons in Hi. destruct Hi as (? & ? & ? & _). cbn [after_submit desc]. rewrite !aget_insert by (rewrite ?length_insert; lia). by rewrite !decide_False.
Qed.

Lemma describes_linked s c pa b bn write : describes s c pa b bn write -> linked s c.
Proof. intros [[H1 _] H2 [H3 _] _]. split_and!; [by eexists|eexists; split_and!; [exact H2|by destruct write|done]|by eexists]. Qed.

Lemma after_vinv s C c l pa b bn write : vinv s C -> took s c l -> vinv (after_submit (set_free l s) c pa b bn write) (c :: C).
Proof.
  intros Hv Ht. destruct (vi_len _ _ Hv) as (L1 & L2 & L3 & L4 & L5 & L6). pose proof (fun i => took_range s C c l i Hv Ht) as Hr. destruct Ht as (Hn & Hl & Ht & Hj).
  assert (Hd : describes (after_submit (set_free l s) c pa b bn write) c pa b bn write) by (apply after_describes; [done|done|done|done|]; intros i Hi; by apply Hr).
  assert (Hf : free (after_submit (set_free l s) c pa b bn write) = l) by (by destruct c as [[]]). split; rewrite ?busy_cons, ?Hf.
  - destruct c as [[i0 i1] i2]. cbn [after_submit desc avail_ring used_elems free info_b info_status set_free]. rewrite !length_insert. done.
  - apply list.NoDup_app. split_and!; [done| |apply (vi_nodup _ _ Hv)]. intros i Hi. by apply Hr.
  - intros i x. rewrite Hj, elem_of_app. destruct (decide (i ∈ members c)) as [Hi|Hi]; [intros [= <-]; split; [by left|done]|]. intros Hx. rewrite (vi_free _ _ Hv i x Hx). tauto.
  - intros i [Hi|Hi]%elem_of_app; [by apply Hr|by apply (vi_busy _ _ Hv)].
  - intros c' [->|Hc]%elem_of_cons; [by eapply describes_linked|]. apply (linked_ext s); [|by apply (vi_link _ _ Hv)]. intros j Hj'. rewrite after_desc; [done|done|intros i Hi; by apply Hr|]. intros Hi. apply Hr in Hi as [_ Hi]. apply Hi. by eapply members_busy.
Qed.

Lemma after_submitted s C c l pa b bn write : vinv s C -> took s c l -> submitted s (after_submit (set_free l s) c pa b bn write) C c b.
Proof.
  intros Hv Ht. destruct (vi_len _ _ Hv) as (L1 & L2 & L3 & L4 & L5 & L6). pose proof (fun i => took_range s C c l i Hv Ht) as Hr. split.
  - by destruct c as [[]].
  - intros i Hi. assert (Hm : i ∉ members c) by (intros H; by apply Hr in H as [_ H]). rewrite after_desc by (done || (intros j Hj; by apply Hr)). pose proof (proj1 (Hr c.1.1 ltac:(by left))) as H0. destruct c as [[i0 i1] i2]. cbn [fst snd] in *.
    cbn [after_submit info_b info_status set_free]. rewrite !aget_insert by lia. unfold members in Hm. cbn [fst snd] in Hm. rewrite !not_elem_of_cons in Hm. by rewrite !decide_False by tauto.
  - intros b' Hb. destruct c as [[i0 i1] i2]. cbn [after_submit bufs set_free]. by rewrite lookup_insert_ne.
Qed.

Definition rw_from (F f : nat) (pa b bn : Z) (write : bool) : M vst unit :=
  idx <- alloc_wait n f ;;
  match idx with
  | [i0; i1; i2] => rw_submit F pa b bn write i0 i1 i2
  | _ => fault
  end.

Lemma serves_ext F f pa b bn write k k' : (forall s y, bufs s !! b = Some y -> b_blockno y = bn -> k s = k' s) -> serves F f pa b bn write k -> serves F f pa b bn write k'.
Proof.
  destruct f as [|f]; [done|]. cbn [serves]. intros Hk H s C y H1 H2 H3 H4. specialize (H s C y H1 H2 H3 H4). by rewrite (Hk s y H3 H4) in H.
Qed.

Lemma rw_from_serves F pa b bn write : forall f, serves F f pa b bn write (acquire (vdisk_lock n) ;;; rw_from (S F) f pa b bn write).
Proof.
  induction f as [|f IH]; [done|]. cbn [serves]. intros s C y [Hw Hl] Hv Hb <-. rewrite (bind_ret_l _ _ _ _ _ (acquire_ok _ s Hl)). set (s0 := set_cx _ s). assert (Hv0 : vinv s0 C) by (by apply vinv_cx).
  pose proof (alloc3_desc_ok n s0 C Hv0) as Ha. change (free s0) with (free s) in Ha. unfold rw_from. cbn [alloc_wait]. destruct (decide (3 <= nfree (free s))%nat) as [H3|H3].
  - destruct Ha as (i0 & i1 & i2 & l & E & Hn & Hl8 & Hfree & Hj). set (c := (i0, i1, i2) : chain). assert (Ht : took s0 c l) by done. unfold bind at 1. run E. cbn [ret rbind].
    pose proof (fun i => took_range s0 C c l i Hv0 Ht) as Hr. destruct (vi_len _ _ Hv) as (L1 & L2 & L3 & L4 & L5 & L6).
    rewrite (rw_submit_ok (S F) pa b y write i0 i1 i2 (set_free l s0)); [|done|apply Hr; by left|apply Hr; right; by left|apply Hr; right; right; by left|done].
    destruct (rw_end_sleeps F i0 b (mkvb (b_blockno y) true) (cx s) (after_submit (set_free l s0) c pa b (b_blockno y) write) Hw Hl eq_refl (lookup_insert_eq _ _ _) eq_refl) as (k & E1 & Hk).
    exists c. eexists _, k. split_and!; [exact E1|done|by apply vinv_cx, after_vinv| | |].
    + pose proof (after_describes (set_free l s0) c pa b (b_blockno y) write L1 L5 L6 Hn (fun i Hi => proj1 (Hr i Hi))) as []. by split.
    + pose proof (after_submitted s0 C c l pa b (b_blockno y) write Hv0 Ht) as []. by split.
    + apply (waits_ext _ _ _ _ _ (fun t => eq_sym (Hk t))), rw_end_waits.
  - destruct Ha as (ds & E & Hds). unfold bind at 1. run E. destruct (sleep_locked (free_chan n) (cx s) (set_desc ds s0) (fun _ => alloc_wait n f) (fun idx => match idx with [i0; i1; i2] => rw_submit (S F) pa b (b_blockno y) write i0 i1 i2 | _ => fault end) Hw Hl eq_refl) as (k & E1 & Hk).
    exists ds, k. split_and!; [exact E1|by apply (vinv_cx (vcx s0))|]. apply (serves_ext _ _ _ _ _ _ _ _ (fun s y _ _ => eq_sym (Hk s)) IH).
Qed.
End Requests.

(** C20: a call that moves a block sleeps, with nothing changed that anyone else
    sees, while fewer than three descriptors are free; once they are, it makes
    a chain of three that describes exactly this request, puts its first
    descriptor into the next entry of the ring, notifies the device and sleeps on
    the buffer; it goes back to sleep when it is woken while the disk still owns
    the buffer, and otherwise returns its three descriptors, and only those, and
    the lock.  All along every descriptor that is not free belongs to one chain. *)
Theorem virtio_disk_rw_spec n data_addr status_addr F pa b bn write :
  serves n data_addr status_addr F (S F) pa b bn write (virtio_disk_rw n data_addr status_addr (S F) pa b write).
Proof.
  apply (serves_ext n data_addr status_addr F (S F) pa b bn write (acquire (vdisk_lock n) ;;; rw_from n data_addr status_addr (S F) (S F) pa b bn write)); [|apply rw_from_serves].
  intros s y Hb <-. unfold virtio_disk_rw. run (getbuf_ok b s y Hb). done.
Qed.

(** ** Interrupts *)

(** The entries of the ring [l] that the device has used: [m] from [i] on. *)
Fixpoint used_from (l : list Z) (i : Z) (m : nat) : list Z :=
  match m with
  | O => []
  | S m => default (-1) (aget l i) :: used_from l ((i + 1) mod NUM) m
  end.

Definition used_now (s : vst) : list Z := used_from (used_elems s) (used_idx s) (Z.to_nat ((used_id s - used_idx s) mod NUM)).

(** The request at the descriptor [id] has ended well; its buffer is [b]. *)
Definition ended (s : vst) (id b : Z) : Prop := aget (info_status s) id = Some 0 /\ aget (info_b s) id = Some b /\ is_Some (bufs s !! b).

Definition not_disk (y : vbuf) : vbuf := mkvb (b_blockno y) false.

(** The buffers [bs] are no longer the disk's. *)
Definition gave_back (bs : list Z) (m m' : gmap Z vbuf) : Prop := forall b, m' !! b = if decide (b ∈ bs) then not_disk <$> m !! b else m !! b.

Lemma setdisk_ok b v y s : bufs s !! b = Some y -> setdisk b v s = Ret tt (set_bufs (<[b := mkvb (b_blockno y) v]> (bufs s)) s).
Proof. intros Hb. unfold setdisk. by run (getbuf_ok b s y Hb). Qed.

Lemma intr_mod u d m : 0 <= u < 8 -> Z.to_nat ((d - u) mod 8) = S m -> (u mod NUM =? d mod NUM) = false /\ Z.to_nat ((d - (u + 1) mod 8) mod 8) = m.
Proof. intros Hu Hm. unfold NUM. split; [apply Z.eqb_neq|]; dlia. Qed.

Lemma intr_loop_step fuel s m : 0 <= used_idx s < 8 -> length (used_elems s) = 8%nat -> Z.to_nat ((used_id s - used_idx s) mod 8) = S m ->
  exists id, aget (used_elems s) (used_idx s) = Some id /\ intr_loop (S fuel) s =
    (st <- rd info_status id ;; if negb (st =? 0) then panic "virtio_disk_intr status" else b <- rd info_b id ;; setdisk b false ;;; wakeup_on b ;;; modify (fun s => set_used_idx (u16 ((used_idx s + 1) mod NUM)) s) ;;; intr_loop fuel) s.
Proof.
  intros Hu Hl Hm. destruct (intr_mod _ _ _ Hu Hm) as [E _]. destruct (aget_is_Some (used_elems s) (used_idx s) ltac:(lia)) as [id Hid]. exists id. split; [done|]. cbn [intr_loop]. mstep. rewrite E. by run (vrd_ok used_elems _ s id Hid).
Qed.

(** One finished request. *)
Lemma intr_one fuel s m id b : 0 <= used_idx s < 8 -> length (used_elems s) = 8%nat -> Z.to_nat ((used_id s - used_idx s) mod 8) = S m -> aget (used_elems s) (used_idx s) = Some id -> ended s id b ->
  exists bm, let s1 := set_used_idx ((used_idx s + 1) mod 8) (set_bufs bm s) in
  intr_loop (S fuel) s = intr_loop fuel s1 /\ gave_back [b] (bufs s) bm /\ (forall i b', ended s i b' -> ended s1 i b') /\ 0 <= used_idx s1 < 8 /\ Z.to_nat ((used_id s - used_idx s1) mod 8) = m.
Proof.
  intros Hu Hl Hm Hid (H1 & H2 & [y Hy]). destruct (intr_loop_step fuel s m Hu Hl Hm) as (id' & Hid' & ->). rewrite Hid in Hid'. injection Hid' as <-. pose proof (Z.mod_pos_bound (used_idx s + 1) 8 ltac:(lia)) as Hb.
  exists (<[b := not_disk y]> (bufs s)). cbv zeta. split_and!; [| | |apply Hb|apply Hb|by apply intr_mod].
  - run (vrd_ok info_status id s 0 H1). change (negb (0 =? 0)) with false. cbv iota. run (vrd_ok info_b id s b H2). run (setdisk_ok b false y s Hy). unfold wakeup_on. mstep. unfold NUM, u16. cbn [used_idx set_bufs]. by rewrite (Z.mod_small (_ mod 8)) by lia.
  - intros b'. destruct (decide (b' = b)) as [->|Hne]; [rewrite lookup_insert_eq, decide_True, Hy by (by left); done|]. rewrite lookup_insert_ne by done. by rewrite decide_False by (by intros ->%list_elem_of_singleton).
  - intros i b' (? & ? & [y' Hy']). split_and!; [done|done|]. cbn [bufs set_used_idx set_bufs]. destruct (decide (b = b')) as [->|Hne]; [rewrite lookup_insert_eq|rewrite lookup_insert_ne by done]; by eexists.
Qed.

Lemma gave_back_cons b bs m m1 m2 : gave_back [b] m m1 -> gave_back bs m1 m2 -> gave_back (b :: bs) m m2.
Proof.
  intros H1 H2 b'. rewrite H2, H1. destruct (decide (b' = b)) as [->|Hne].
  - rewrite (decide_True (P := b ∈ [b])), (decide_True (P := b ∈ b :: bs)) by (by left). destruct (m !! b); by destruct (decide (b ∈ bs)).
  - rewrite (decide_False (P := b' ∈ [b])) by (by intros ->%list_elem_of_singleton). destruct (decide (b' ∈ bs)); [by rewrite decide_True by (by right)|]. rewrite decide_False; [done|]. by intros [?|?]%elem_of_cons.
Qed.

Lemma intr_loop_ok m : forall fuel s bs, (m < fuel)%nat -> 0 <= used_idx s < 8 -> length (used_elems s) = 8%nat -> Z.to_nat ((used_id s - used_idx s) mod 8) = m ->
  Forall2 (ended s) (used_from (used_elems s) (used_idx s) m) bs ->
  exists bm, intr_loop fuel s = Ret tt (set_used_idx ((used_id s) mod NUM) (set_bufs bm s)) /\ gave_back bs (bufs s) bm.
Proof.
  induction m as [|m IH]; intros [|fuel] s bs Hf Hu Hl Hm Hbs; try lia.
  - apply Forall2_nil_inv_l in Hbs as ->. exists (bufs s). split; [|intros b; by rewrite decide_False by apply not_elem_of_nil]. cbn [intr_loop]. mstep. unfold NUM. assert (E : used_id s mod 8 = used_idx s) by dlia. rewrite E, (Z.mod_small (used_idx s)), Z.eqb_refl by lia. by destruct s.
  - destruct (aget_is_Some (used_elems s) (used_idx s) ltac:(lia)) as [id Hid]. cbn [used_from] in Hbs. rewrite Hid in Hbs. apply Forall2_cons_inv_l in Hbs as (b & bs' & He & Hbs & ->).
    destruct (intr_one fuel s m id b Hu Hl Hm Hid He) as (bm1 & -> & Hg1 & Hen & Hu1 & Hm1). set (s1 := set_used_idx _ _) in *.
    destruct (IH fuel s1 bs') as (bm & E & Hg); [lia|done|done|done|eapply Forall2_impl; [exact Hen|exact Hbs]|]. exists bm. split; [exact E|]. by apply (gave_back_cons b bs' _ bm1).
Qed.

Lemma intr_loop_panics m : forall fuel s bs ids id rest st, (m < fuel)%nat -> 0 <= used_idx s < 8 -> length (used_elems s) = 8%nat -> Z.to_nat ((used_id s - used_idx s) mod 8) = m ->
  used_from (used_elems s) (used_idx s) m = ids ++ id :: rest -> Forall2 (ended s) ids bs -> aget (info_status s) id = Some st -> st <> 0 -> intr_loop fuel s = Panic "virtio_disk_intr status".
Proof.
  induction m as [|m IH]; intros [|fuel] s bs ids id rest st Hf Hu Hl Hm Hi Hbs Hst Hz; try lia; [by destruct ids|].
  destruct (aget_is_Some (used_elems s) (used_idx s) ltac:(lia)) as [i Hid]. cbn [used_from] in Hi. rewrite Hid in Hi. destruct ids as [|i' ids]; injection Hi as -> Hi.
  - destruct (intr_loop_step fuel s m Hu Hl Hm) as (id' & Hid' & ->). rewrite Hid in Hid'. injection Hid' as <-. run (vrd_ok info_status _ s st Hst). by rewrite (proj2 (Z.eqb_neq _ _) Hz).
  - apply Forall2_cons_inv_l in Hbs as (b & bs' & He & Hbs & ->). destruct (intr_one fuel s m i' b Hu Hl Hm Hid He) as (bm1 & -> & _ & Hen & Hu1 & Hm1). apply (IH _ _ bs' ids id rest st); try done; [lia|]. eapply Forall2_impl; [exact Hen|exact Hbs].
Qed.

Lemma vinv_used s C u bm : vinv s C -> vinv (set_used_idx u (set_bufs bm s)) C.
Proof. intros []. by split. Qed.

(** C21: the interrupt takes the buffers of exactly the requests the device has
    used since the last one from the disk, and has then seen all of them; no
    descriptor changes hands.  It panics at the first request that failed. *)
Theorem virtio_disk_intr_spec n s C : ready n s -> vinv s C -> 0 <= used_idx s < 8 ->
  (forall bs, Forall2 (ended s) (used_now s) bs -> exists s', virtio_disk_intr n s = Ret tt s' /\ cx s' = touch (cx s) /\ vinv s' C /\ gave_back bs (bufs s) (bufs s') /\ used_now s' = [] /\ 0 <= used_idx s' < 8) /\
  (forall ids id rest bs st, used_now s = ids ++ id :: rest -> Forall2 (ended s) ids bs -> aget (info_status s) id = Some st -> st <> 0 -> virtio_disk_intr n s = Panic "virtio_disk_intr status").
Proof.
  intros [Hw Hl] Hv Hu. destruct (vi_len _ _ Hv) as (_ & _ & L & _). unfold virtio_disk_intr. rewrite (bind_ret_l _ _ _ _ _ (acquire_ok _ s Hl)). set (s0 := set_cx _ s).
  pose proof (Z.mod_pos_bound (used_id s - used_idx s) 8 ltac:(lia)) as Hm. set (m := Z.to_nat ((used_id s - used_idx s) mod 8)). assert (Hf : (m < Z.to_nat NUM)%nat) by (change (Z.to_nat NUM) with 8%nat; lia). split.
  - intros bs Hbs. destruct (intr_loop_ok m (Z.to_nat NUM) s0 bs Hf Hu L eq_refl Hbs) as (bm & E & Hg). run E.
    rewrite (release_ok (vdisk_lock n) (cx s)); [|done|done|by rewrite locked_touch]. eexists. split_and!; [done|done|by apply vinv_cx, vinv_used, vinv_cx|done| |apply Z.mod_pos_bound; done|apply Z.mod_pos_bound; done].
    assert (E0 : (used_id s - used_id s mod NUM) mod NUM = 0) by (unfold NUM; dlia). unfold used_now. cbn [used_idx used_id set_cx set_vcx set_used_idx vst_ctx set_bufs]. change (used_id s0) with (used_id s). by rewrite E0.
  - intros ids id rest bs st Hi Hbs Hst Hz. unfold bind. by rewrite (intr_loop_panics m (Z.to_nat NUM) s0 bs ids id rest st Hf Hu L eq_refl Hi Hbs Hst Hz).
Qed.

(** ** Start-up and an example *)

Lemma wreg_step {B} r v l s (k : unit -> M vst B) : bind (wreg r v) k (set_mmio l s) = k tt (set_mmio (l ++ [(r, v)]) s).
Proof. done. Qed.

(** The driver finds its device, or panics; afterwards no request is pending and
    all descriptors are free. *)
Lemma virtio_disk_init_ok pages reg s : vinit s = false -> length (info_b s) = 8%nat -> length (info_status s) = 8%nat -> used_idx s = 0 ->
  reg 0 = 1953655158 -> reg 4 = 1 -> reg 8 = 2 -> reg 12 = 1431127377 -> NUM <= reg 52 ->
  exists s', virtio_disk_init pages reg s = Ret tt s' /\ vinv s' [] /\ nfree (free s') = 8%nat /\ used_now s' = [] /\ bufs s' = bufs s /\ virtio_disk_init pages reg s' = Ret tt s'.
Proof.
  intros Hi L1 L2 Hu R0 R4 R8 R12 R52. assert (Es : s = set_mmio (mmio s) s) by (by destruct s). eexists. split.
  { unfold virtio_disk_init. mstep. rewrite Hi, R0, R4, R8, R12, !Z.eqb_refl. cbn [negb orb]. rewrite Es at 1. rewrite !wreg_step. unfold NUM in *. rewrite (proj2 (Z.eqb_neq (reg 52) 0)), (proj2 (Z.ltb_ge (reg 52) 8)) by lia.
    rewrite wreg_step. mstep. unfold wreg. mstep. reflexivity. }
  split_and!; [| reflexivity| |reflexivity|reflexivity].
  - split; [by split_and!|constructor| |by intros i ?%not_elem_of_nil|by intros c ?%not_elem_of_nil]. intros i x Hx%aget_lookup. apply lookup_replicate in Hx as [-> _]. split; [done|]. by intros ?%not_elem_of_nil.
  - unfold used_now. cbn. by rewrite Hu.
Qed.

Definition vdemo_cx : ctx := {| noff := 0; intena := false; intr := true; held := []; mypid := 3; mykilled := false |}.

(** An idle disk, and a buffer for the block 7. *)
Definition vdemo : vst := mkvst vdemo_cx (replicate 8 zero_desc) 0 (replicate 8 0) 0 (replicate 8 0) (replicate 8 true) 0 (replicate 8 0) (replicate 8 0) true {[5 := mkvb 7 false]} ∅ [].

Lemma vdemo_vinv : vinv vdemo [].
Proof.
  split; [by split_and!|constructor| |by intros i ?%not_elem_of_nil|by intros c ?%not_elem_of_nil]. intros i x Hx%aget_lookup. apply lookup_replicate in Hx as [-> _]. split; [done|]. by intros ?%not_elem_of_nil.
Qed.

Lemma vdemo_ready : ready 0 vdemo.
Proof. split; [split_and!; [done|constructor|done]|apply not_elem_of_nil]. Qed.

(** A request to read that block, when the device has used its chain. *)
Definition vdemo_used : vst :=
  let s := after_submit id id (set_free [false; false; false; true; true; true; true; true] vdemo) (0, 1, 2) 4096 5 7 false in
  mkvst (vcx s) (desc s) (avail_idx s) (avail_ring s) 1 (used_elems s) (free s) (used_idx s) (info_b s) (info_status s) (vinit s) (bufs s) (headers s) (mmio s).

Lemma vdemo_took : took vdemo (0, 1, 2) [false; false; false; true; true; true; true; true].
Proof.
  split_and!; [by apply (bool_decide_unpack _)|done| |].
  - intros i Hi. unfold members in Hi. cbn in Hi. rewrite !elem_of_cons in Hi. by destruct Hi as [->|[->|[->|[]%not_elem_of_nil]]].
  - intros j. destruct (decide (0 <= j < 8)) as [Hj|Hj].
    + assert (Hc : j = 0 \/ j = 1 \/ j = 2 \/ j = 3 \/ j = 4 \/ j = 5 \/ j = 6 \/ j = 7) by lia. by destruct Hc as [->|[->|[->|[->|[->|[->|[->| ->]]]]]]].
    + destruct (aget _ j) eqn:E1; [apply aget_Some_lt in E1; cbn in E1; lia|]. rewrite decide_False; [destruct (aget (free vdemo) j) eqn:E2; [apply aget_Some_lt in E2; cbn in E2; lia|done]|]. intros Hi. unfold members in Hi. cbn in Hi. rewrite !elem_of_cons in Hi. destruct Hi as [->|[->|[->|[]%not_elem_of_nil]]]; lia.
Qed.

Lemma vdemo_used_vinv : vinv vdemo_used [(0, 1, 2)].
Proof. pose proof (after_vinv id id _ _ _ _ 4096 5 7 false vdemo_vinv vdemo_took) as []. by split. Qed.

(** Witness: the buffer is handed back. *)
Lemma virtio_disk_intr_spec_witness : exists s', virtio_disk_intr 0 vdemo_used = Ret tt s' /\ vinv s' [(0, 1, 2)] /\ gave_back [5] (bufs vdemo_used) (bufs s').
Proof.
  destruct (virtio_disk_intr_spec 0 vdemo_used [(0, 1, 2)] vdemo_ready vdemo_used_vinv ltac:(vm_compute; split; congruence)) as [H _].
  destruct (H [5] ltac:(repeat constructor; by eexists)) as (s' & E & _ & Hv & Hg & _). exists s'. exact (conj E (conj Hv Hg)).
Defined.

(** Witness: reading the block on the idle disk. *)
Lemma virtio_disk_rw_spec_witness : exists c s1 k, virtio_disk_rw 0 id id 2 4096 5 false vdemo = Sleep 5 s1 k /\ describes id id s1 c 4096 5 7 false /\ waits 0 1 c 5 k.
Proof.
  destruct (virtio_disk_rw_spec 0 id id 1 4096 5 7 false vdemo [] (mkvb 7 false) vdemo_ready vdemo_vinv eq_refl eq_refl) as (c & s1 & k & E & _ & _ & Hd & _ & Hw). exists c, s1, k. exact (conj E (conj Hd Hw)).
Defined.
