(* ===== verification/MkFs.v ===== *)
(** * mkfs/mkfs.c: the builder of disk images

    A host program that writes a file system with one directory.  The image is a
    map from sectors to blocks; [open] and [read] are the calls of the host on
    the files given to it.  A call of [exit(1)] or a failed [assert] is a
    [Panic].  The host is little-endian, so that [xint] and [xshort] change
    nothing; the theorem [xint_id] says so. *)

From S2P Require Import Prelude Bytes Log Fs.

Definition FSSIZE : Z := 2000.
Definition NINODES : Z := 200.
Definition BLK : Z := 1024.
Definition nbitmap : Z := FSSIZE / (BLK * 8) + 1.
Definition ninodeblocks : Z := NINODES / IPB + 1.
Definition nlog : Z := LOGSIZE.
Definition nmeta : Z := 2 + nlog + ninodeblocks + nbitmap.
Definition nblocks : Z := FSSIZE - nmeta.

Definition xshort (x : Z) : Z := of_bytes [u8 x; u8 (Z.shiftr x 8)].
Definition xint (x : Z) : Z := of_bytes [u8 x; u8 (Z.shiftr x 8); u8 (Z.shiftr x 16); u8 (Z.shiftr x 24)].

Definition sb : superblock :=
  mksb FSMAGIC (xint FSSIZE) (xint nblocks) (xint NINODES) (xint nlog) (xint 2) (xint (2 + nlog)) (xint (2 + nlog + ninodeblocks)).

(** The superblock as it lies in memory. *)
Definition sb_bytes : list Z :=
  concat (le_bytes 4 <$> [sb_magic sb; sb_size sb; sb_nblocks sb; sb_ninodes sb; sb_nlog sb; sb_logstart sb; sb_inodestart sb; sb_bmapstart sb]).

Record image := mkimg { sect : gmap Z (list Z); freeinode : Z; freeblock : Z }.

Abbreviation I := (M image).

Definition zeroes : list Z := replicate 1024 0.

(** The sector at the position [lseek] is asked for. *)
Definition seek (sec : Z) : Z := u32 (sec * BLK) / BLK.

Definition wsect (sec : Z) (buf : list Z) : I unit := modify (fun s => mkimg (<[seek sec := buf]> (sect s)) (freeinode s) (freeblock s)).

Definition rsect (sec : Z) : I (list Z) := fun s => match sect s !! seek sec with Some b => Ret b s | None => Panic "read" end.

Definition winode (inum : Z) (ip : dinode) : I unit :=
  let bn := IBLOCK inum sb in
  buf <- rsect bn ;;
  wsect bn (put_dinode (doff inum) ip buf).

Definition rinode (inum : Z) : I dinode :=
  buf <- rsect (IBLOCK inum sb) ;;
  ret (get_dinode (doff inum) buf).

Definition ialloc (type : Z) : I Z :=
  inum <- gets freeinode ;;
  modify (fun s => mkimg (sect s) (u32 (freeinode s + 1)) (freeblock s)) ;;;
  winode inum (mkdi (s16 (xshort type)) 0 0 (s16 (xshort 1)) (xint 0) (replicate 13 0)) ;;;
  ret inum.

(** [freeblock++] *)
Definition next_block : I Z :=
  b <- gets freeblock ;;
  modify (fun s => mkimg (sect s) (freeinode s) (u32 (freeblock s + 1))) ;;;
  ret b.

(** The loop of [balloc], from [i] on. *)
Fixpoint mark_used (n : nat) (i : Z) (buf : list Z) : list Z :=
  match n with
  | O => buf
  | S n => mark_used n (i + 1) (<[Z.to_nat (i / 8) := Z.lor (default 0 (aget buf (i / 8))) (Z.shiftl 1 (i mod 8))]> buf)
  end.

Definition balloc (used : Z) : I unit :=
  if negb (used <? BLK * 8) then panic "assert" else
  wsect (sb_bmapstart sb) (mark_used (Z.to_nat used) 0 zeroes).

(** The block of a file's block [fbn], allocated if need be. *)
Definition block_for (fbn : Z) (din : dinode) : I (Z * dinode) :=
  if fbn <? NDIRECT then
    a <- unwrap (aget (di_addrs din) fbn) ;;
    if xint a =? 0 then
      b <- next_block ;;
      l <- unwrap (aset (di_addrs din) fbn (xint b)) ;;
      ret (xint (xint b), set_di_addrs l din)
    else ret (xint a, din)
  else
    a <- unwrap (aget (di_addrs din) NDIRECT) ;;
    din <- (if xint a =? 0 then
              b <- next_block ;;
              l <- unwrap (aset (di_addrs din) NDIRECT (xint b)) ;;
              ret (set_di_addrs l din)
            else ret din) ;;
    a <- unwrap (aget (di_addrs din) NDIRECT) ;;
    indirect <- rsect (xint a) ;;
    let o := aoff (fbn - NDIRECT) in
    if get32 o indirect =? 0 then
      b <- next_block ;;
      wsect (xint a) (put32 o (xint b) indirect) ;;;
      ret (xint (xint b), din)
    else ret (xint (get32 o indirect), din).

Fixpoint append_loop (fuel : nat) (off : Z) (p : list Z) (din : dinode) : I (Z * dinode) :=
  match fuel with
  | O => nofuel
  | S fuel =>
      if negb (0 <? Z.of_nat (length p)) then ret (off, din) else
      let fbn := off / BLK in
      if negb (fbn <? MAXFILE) then panic "assert" else
      xd <- block_for fbn din ;;
      let n1 := Z.min (Z.of_nat (length p)) ((fbn + 1) * BLK - off) in
      buf <- rsect (fst xd) ;;
      wsect (fst xd) (splice (Z.to_nat (off - fbn * BLK)) (take (Z.to_nat n1) p) buf) ;;;
      append_loop fuel (off + n1) (drop (Z.to_nat n1) p) (snd xd)
  end.

Definition iappend (inum : Z) (p : list Z) : I unit :=
  din <- rinode inum ;;
  od <- append_loop (S (length p)) (xint (di_size din)) p din ;;
  winode inum (set_di_size (xint (fst od)) (snd od)).

(** [struct dirent] *)
Definition dirent (inum : Z) (name : list Z) : list Z := le_bytes 2 (xshort inum) ++ take 14 (name ++ replicate 14 0).

Fixpoint wzeroes (n : nat) (i : Z) : I unit :=
  match n with
  | O => ret tt
  | S n => wsect i zeroes ;;; wzeroes n (i + 1)
  end.

Section Main.
Context {R : Type} (open : list Z -> option R) (read : R -> Z -> option (list Z) * R).

Fixpoint copy_in (fuel : nat) (inum : Z) (r : R) : I unit :=
  match fuel with
  | O => nofuel
  | S fuel =>
      let '(o, r) := read r 1024 in
      match o with
      | None | Some [] => ret tt
      | Some buf => iappend inum buf ;;; copy_in fuel inum r
      end
  end.

(** The name in the directory: without [user/] and without the [_] in front. *)
Definition strip_user (arg : list Z) : list Z := if decide (take 5 arg = [117; 115; 101; 114; 47]) then drop 5 arg else arg.
Definition strip_underscore (name : list Z) : list Z := match name with 95 :: l => l | _ => name end.

Definition add_file (fuel : nat) (rootino : Z) (arg : list Z) : I unit :=
  let shortname := strip_user arg in
  if decide (47 ∈ shortname) then panic "assert" else
  match open arg with
  | None => panic "open"
  | Some r =>
      inum <- ialloc 2 ;;
      iappend rootino (dirent inum (strip_underscore shortname)) ;;;
      copy_in fuel inum r
  end.

Fixpoint add_files (fuel : nat) (rootino : Z) (args : list (list Z)) : I unit :=
  match args with
  | [] => ret tt
  | arg :: args => add_file fuel rootino arg ;;; add_files fuel rootino args
  end.

Definition main (fuel : nat) (args : list (list Z)) : I unit :=
  modify (fun s => mkimg (sect s) (freeinode s) nmeta) ;;;
  wzeroes (Z.to_nat FSSIZE) 0 ;;;
  wsect 1 (splice 0 sb_bytes zeroes) ;;;
  rootino <- ialloc T_DIR ;;
  if negb (rootino =? ROOTINO) then panic "assert" else
  iappend rootino (dirent rootino [46]) ;;;
  iappend rootino (dirent rootino [46; 46]) ;;;
  add_files fuel rootino args ;;;
  din <- rinode rootino ;;
  let off := xint (di_size din) in
  let off := (off / BLK + 1) * BLK in
  winode rootino (set_di_size (xint off) din) ;;;
  used <- gets freeblock ;;
  balloc used.
End Main.
