(* ===== verification/MkFsSpec.v ===== *)
(** * The image while it is built

    Every block behind the inodes and the bitmap that was given out belongs to
    one place of one file; the others are zero.  The loop of [iappend] keeps the
    image so, and takes as many blocks as the new size needs. *)

From S2P Require Import Prelude StringC Bytes Sleeplock UserMem Blocks Fs FsSpec FsFile FsRead FsWrite MkFs.

Lemma xint_id x : 0 <= x < 2 ^ 32 -> xint x = x.
Proof.
  intros Hx. transitivity (of_bytes (le_bytes 4 x)); [|apply of_le_bytes; lia]. unfold xint. cbn [le_bytes]. unfold u8. rewrite !Z.shiftr_div_pow2 by lia. rewrite !Z.div_div by lia. done.
Qed.

Lemma seek_small b : 0 <= b < 2 ^ 22 -> seek b = b.
Proof. intros Hb. unfold seek, BLK. rewrite u32_small by lia. by apply Z.div_mul. Qed.

Lemma nmeta_eq : nmeta = 46.
Proof. reflexivity. Qed.

(** A file: its type, its addresses, its contents and how many blocks it has. *)
Record fl := mkfl { f_ty : Z; f_a : list Z; f_c : list Z; f_n : Z }.

Definition csize (f : fl) : Z := Z.of_nat (length (f_c f)).

(** The place a block is used for: block [bn] of a file, or its indirect block. *)
Abbreviation place := (Z * option Z)%type.

Record fileat (m : gmap Z (list Z)) (own : gmap Z place) (j : Z) (f : fl) : Prop := {
  fa_len : length (f_a f) = 13%nat;
  fa_size : csize f <= 1024 * f_n f /\ 0 <= f_n f <= MAXFILE;
  fa_ind : ind (f_a f) = 0 /\ f_n f <= NDIRECT \/ own !! ind (f_a f) = Some (j, None);
  fa_blk : forall bn, 0 <= bn < MAXFILE -> if decide (bn < f_n f) then own !! blockof m (f_a f) bn = Some (j, Some bn) else blockof m (f_a f) bn = 0;
  fa_byte : forall k x, f_c f !! k = Some x -> fbyte m (f_a f) (Z.of_nat k) = x;
  fa_tail : forall off, csize f <= off < 1024 * f_n f -> fbyte m (f_a f) off = 0
}.

Record body (m : gmap Z (list Z)) (own : gmap Z place) (fb : Z) (F : gmap Z fl) : Prop := {
  bd_len : forall b, 0 <= b < FSSIZE -> exists d, m !! b = Some d /\ length d = bsize;
  bd_fb : nmeta <= fb <= FSSIZE;
  bd_own : forall b p, own !! b = Some p -> nmeta <= b < fb;
  bd_zero : forall b, fb <= b < FSSIZE -> m !! b = Some zeros;
  bd_file : forall j f, F !! j = Some f -> fileat m own j f
}.

Lemma block_index f k x : f_c f !! k = Some x -> csize f <= 1024 * f_n f -> 0 <= Z.of_nat k / 1024 < f_n f.
Proof. intros Hk%lookup_lt_Some Hs. unfold csize in Hs. dlia. Qed.

(** A file whose blocks did not change. *)
Lemma fileat_same m own m' own' j f : fileat m own j f -> own ⊆ own' -> (forall b x, own !! b = Some (j, x) -> m' !! b = m !! b) -> m' !! 0 = m !! 0 -> fileat m' own' j f.
Proof.
  intros [H1 H2 H3 H4 H5 H6] Hsub Hm H0. assert (Hb : forall bn, blockof m' (f_a f) bn = blockof m (f_a f) bn).
  { intros bn. unfold blockof. destruct (bn <? NDIRECT); [done|]. destruct H3 as [[-> _]|H3]; [by rewrite H0|by rewrite (Hm _ _ H3)]. }
  assert (Hby : forall off, 0 <= off < 1024 * f_n f -> fbyte m' (f_a f) off = fbyte m (f_a f) off).
  { intros off Ho. specialize (H4 (off / 1024) ltac:(dlia)). rewrite decide_True in H4 by dlia. unfold fbyte. by rewrite Hb, (Hm _ _ H4). }
  split; [done|done| | | |].
  - destruct H3 as [H3|H3]; [by left|right; by apply (lookup_weaken _ _ _ _ H3)].
  - intros bn Hbn. specialize (H4 bn Hbn). rewrite Hb. case_decide; [by apply (lookup_weaken _ _ _ _ H4)|done].
  - intros k x Hk. rewrite <- (H5 k x Hk). pose proof (block_index _ _ _ Hk (proj1 H2)) as Hi. apply Hby. dlia.
  - intros off Ho. rewrite Hby; [by apply H6|]. unfold csize in Ho. lia.
Qed.

(** Changes to blocks of file [i] alone leave the others alone. *)
Lemma others_same m own m' own' i j f : fileat m own j f -> i <> j -> own ⊆ own' -> (forall b, m' !! b <> m !! b -> exists x, own' !! b = Some (i, x)) -> own' !! 0 = None -> fileat m' own' j f.
Proof.
  intros Hf Hij Hsub Hm H0. apply (fileat_same m own); [done|done| |].
  - intros b x Hb. destruct (decide (m' !! b = m !! b)) as [|Hne]; [done|]. destruct (Hm b Hne) as [y Hy]. pose proof (lookup_weaken _ _ _ _ Hb Hsub). congruence.
  - destruct (decide (m' !! 0 = m !! 0)) as [|Hne]; [done|]. destruct (Hm 0 Hne) as [y Hy]. congruence.
Qed.

Lemma body_update m own fb F m' own' fb' i f' : body m own fb F -> own ⊆ own' -> fb <= fb' <= FSSIZE -> (forall b p, own' !! b = Some p -> nmeta <= b < fb') ->
  (forall b, m' !! b <> m !! b -> exists x, own' !! b = Some (i, x)) -> (forall b d, m' !! b = Some d -> 0 <= b < FSSIZE -> length d = bsize) -> (forall b, is_Some (m !! b) -> is_Some (m' !! b)) ->
  fileat m' own' i f' -> body m' own' fb' (<[i := f']> F).
Proof.
  intros [H1 H2 H3 H4 H5] Hsub Hfb Hown Hm Hl Hs Hf. assert (H0 : own' !! 0 = None) by (destruct (own' !! 0) eqn:E; [apply Hown in E; rewrite nmeta_eq in E; lia|done]).
  split; [| |done| |].
  - intros b Hb. destruct (H1 b Hb) as (d & Hd & _). destruct (Hs b) as [d' Hd']; [by eexists|]. exists d'. split; [done|by apply (Hl b)].
  - lia.
  - intros b Hb. rewrite <- (H4 b ltac:(lia)). destruct (decide (m' !! b = m !! b)) as [|Hne]; [done|]. destruct (Hm b Hne) as [x Hx]. apply Hown in Hx. lia.
  - intros j f [[<- <-]|[Hne Hj]]%lookup_insert_Some; [done|]. by apply (others_same m own m' own' i j f); [apply H5| | | |].
Qed.

(** ** Steps of [iappend] *)

Lemma zeros_word k : get32 k zeros = 0.
Proof.
  unfold get32, slice, zeros. assert (H : forall n, of_bytes (replicate n 0) = 0) by (induction n as [|n IH]; cbn; [done|by rewrite IH]). rewrite drop_replicate, take_replicate. apply H.
Qed.

Lemma zeros_byte k : default 0 (zeros !! k) = 0.
Proof. unfold zeros. destruct (replicate bsize 0 !! k) eqn:E; [|done]. by apply lookup_replicate in E as [-> _]. Qed.

Lemma fileat_inj m own j f bn bn' : fileat m own j f -> 0 <= bn < f_n f -> 0 <= bn' < MAXFILE -> blockof m (f_a f) bn = blockof m (f_a f) bn' -> own !! 0 = None -> bn = bn'.
Proof.
  intros Hf Hb Hb' E H0. pose proof (fa_size _ _ _ _ Hf) as [_ Hn]. pose proof (fa_blk _ _ _ _ Hf bn ltac:(lia)) as H1. pose proof (fa_blk _ _ _ _ Hf bn' Hb') as H2. rewrite decide_True in H1 by lia.
  rewrite E in H1. case_decide; [congruence|]. rewrite H2 in H1. congruence.
Qed.

Lemma own_zero m own fb F : body m own fb F -> own !! 0 = None.
Proof. intros Hb. destruct (own !! 0) eqn:E; [|done]. apply (bd_own _ _ _ _ Hb) in E. rewrite nmeta_eq in E. lia. Qed.

(** Bytes behind the end, in the last block. *)
Lemma fill m own fb F i f d p : body m own fb F -> F !! i = Some f -> let bn := csize f / 1024 in bn < f_n f -> m !! blockof m (f_a f) bn = Some d -> csize f mod 1024 + Z.of_nat (length p) <= 1024 ->
  body (<[blockof m (f_a f) bn := splice (Z.to_nat (csize f mod 1024)) p d]> m) own fb (<[i := mkfl (f_ty f) (f_a f) (f_c f ++ p) (f_n f)]> F).
Proof.
  intros Hb Hi bn Hbn Hd Hp. pose proof (bd_file _ _ _ _ Hb i f Hi) as Hf. pose proof Hf as [F1 [F2 F2'] F3 F4 F5 F6]. assert (Hc0 : 0 <= csize f) by (unfold csize; lia). assert (Hbn0 : 0 <= bn < MAXFILE) by (split; [unfold bn; dlia|lia]).
  set (x := blockof m (f_a f) bn) in *. pose proof (F4 bn Hbn0) as Hx. rewrite decide_True in Hx by done. fold x in Hx. pose proof (bd_own _ _ _ _ Hb _ _ Hx) as Hxr. pose proof (bd_fb _ _ _ _ Hb) as Hfb. rewrite nmeta_eq in *.
  destruct (bd_len _ _ _ _ Hb x) as (d' & Hd' & Hl); [lia|]. rewrite Hd in Hd'. injection Hd' as <-. set (d' := splice _ p d).
  assert (Hl' : length d' = bsize) by (unfold d'; rewrite splice_length; [done|unfold bsize in *; dlia]). assert (Hni : x <> ind (f_a f)) by (destruct F3 as [[-> _]|F3]; [lia|intros E; rewrite E in Hx; congruence]).
  assert (Hbo : forall k, blockof (<[x := d']> m) (f_a f) k = blockof m (f_a f) k) by (intros k; by apply blockof_write).
  apply (body_update m own fb F); [done|done|lia|rewrite nmeta_eq; apply Hb| | |intros b [e He]; destruct (decide (b = x)) as [->|]; [rewrite lookup_insert_eq|rewrite lookup_insert_ne by done]; eauto|].
  - intros b Hne. destruct (decide (b = x)) as [->|]; [by eexists|]. by rewrite lookup_insert_ne in Hne.
  - intros b e [[<- <-]|[_ He]]%lookup_insert_Some Hr; [done|]. destruct (bd_len _ _ _ _ Hb b Hr) as (e' & He' & Hle). congruence.
  - split; cbn [f_a f_c f_n f_ty]; [done| |done| | |].
    + unfold csize. cbn [f_c]. rewrite length_app. unfold csize in *. split; [unfold bn in *; dlia|done].
    + intros k Hk. rewrite Hbo. by apply F4.
    + intros k y Hk. apply lookup_app_Some in Hk as [Hk|[Hge Hk]].
      * rewrite <- (F5 k y Hk). pose proof (block_index _ _ _ Hk F2) as Hi'. pose proof (lookup_lt_Some _ _ _ Hk) as Hlt. unfold fbyte. rewrite Hbo. destruct (decide (blockof m (f_a f) (Z.of_nat k / 1024) = x)) as [E|E]; [|by rewrite lookup_insert_ne].
        assert (Hkb : Z.of_nat k / 1024 = bn) by (apply (fileat_inj _ _ _ _ _ _ Hf); [lia|lia|done|by apply (own_zero _ _ _ _ Hb)]). rewrite E, lookup_insert_eq, Hd. unfold d'. rewrite splice_lookup by (unfold bsize in *; dlia).
        rewrite decide_False; [done|]. assert (Hmod : 0 <= Z.of_nat k mod 1024 < csize f mod 1024) by (unfold bn, csize in *; clear - Hkb Hlt; dlia). lia.
      * pose proof (lookup_lt_Some _ _ _ Hk) as Hlt. unfold fbyte. rewrite Hbo. assert (Hkb : Z.of_nat k / 1024 = bn) by (unfold bn, csize in *; dlia). rewrite Hkb. fold x. rewrite lookup_insert_eq. unfold d'. rewrite splice_lookup by (unfold bsize in *; dlia).
        assert (Hmod : Z.of_nat k mod 1024 = csize f mod 1024 + (Z.of_nat k - csize f) /\ 0 <= csize f mod 1024) by (unfold bn, csize in *; clear - Hkb Hge; dlia). unfold csize in Hmod at 2.
        rewrite decide_True by lia. replace (Z.to_nat (Z.of_nat k mod 1024) - Z.to_nat (csize f mod 1024))%nat with (k - length (f_c f))%nat by lia. by rewrite Hk.
    + intros off Ho. unfold csize in Ho. cbn [f_c] in Ho. rewrite length_app in Ho. fold (csize f) in Ho. rewrite <- (F6 off) by (unfold csize in *; lia). unfold fbyte. rewrite Hbo.
      destruct (decide (blockof m (f_a f) (off / 1024) = x)) as [E|E]; [|by rewrite lookup_insert_ne]. assert (Hkb : bn = off / 1024) by (apply (fileat_inj _ _ _ _ _ _ Hf); [lia|dlia|done|by apply (own_zero _ _ _ _ Hb)]).
      rewrite E, lookup_insert_eq, Hd. unfold d'. rewrite splice_lookup by (unfold bsize in *; dlia). rewrite decide_False; [done|].
      assert (Hmod : csize f mod 1024 + Z.of_nat (length p) <= off mod 1024 /\ 0 <= csize f mod 1024) by (unfold bn, csize in *; clear - Hkb Ho; dlia). lia.
Qed.

(** The first free block is given to a place of file [i]. *)
Lemma give m own fb F m' i pl f' : body m own fb F -> fb < FSSIZE -> (forall b, m' !! b <> m !! b -> exists x, own !! b = Some (i, x)) -> (forall b d, m' !! b = Some d -> 0 <= b < FSSIZE -> length d = bsize) -> (forall b, is_Some (m !! b) -> is_Some (m' !! b)) ->
  fileat m' (<[fb := (i, pl)]> own) i f' -> own !! fb = None /\ body m' (<[fb := (i, pl)]> own) (fb + 1) (<[i := f']> F).
Proof.
  intros Hb Hlt Hm Hl Hs Hf. assert (HN : own !! fb = None) by (destruct (own !! fb) eqn:E; [apply (bd_own _ _ _ _ Hb) in E; lia|done]). split; [done|]. pose proof (bd_fb _ _ _ _ Hb) as Hfb.
  apply (body_update m own fb F); try done; [by apply insert_subseteq|lia| |].
  - intros b p [[<- _]|[_ E]]%lookup_insert_Some; [lia|]. apply (bd_own _ _ _ _ Hb) in E. lia.
  - intros b Hne. destruct (Hm b Hne) as [x Hx]. exists x. rewrite lookup_insert_ne; [done|]. intros ->. congruence.
Qed.

Lemma bd_lens m own fb F b d : body m own fb F -> m !! b = Some d -> 0 <= b < FSSIZE -> length d = bsize.
Proof. intros Hb Hd Hr. destruct (bd_len _ _ _ _ Hb b Hr) as (e & He & Hl). congruence. Qed.

Lemma own_fresh m own fb F b p : body m own fb F -> own !! b = Some p -> b <> fb.
Proof. intros Hb E ->. apply (bd_own _ _ _ _ Hb) in E. lia. Qed.

(** The addresses with block [fb] at [k]. *)
Lemma ind_insert a k fb : length a = 13%nat -> 0 <= k <= NDIRECT -> ind (<[Z.to_nat k := fb]> a) = if decide (k = NDIRECT) then fb else ind a.
Proof.
  intros Hl Hk. unfold NDIRECT in *. unfold ind, NDIRECT. change (aget ?l 12) with (l !! 12%nat). case_decide as E; [subst; by rewrite list_lookup_insert_eq by lia|]. by rewrite list_lookup_insert_ne by lia.
Qed.

Lemma direct_insert m a k fb bn : length a = 13%nat -> 0 <= k < NDIRECT -> 0 <= bn -> blockof m (<[Z.to_nat k := fb]> a) bn = if decide (bn = k) then fb else blockof m a bn.
Proof.
  intros Hl Hk Hbn. unfold blockof. rewrite ind_insert, (decide_False (P := k = NDIRECT)) by lia. unfold NDIRECT in *. destruct (Z.ltb_spec bn 12); [|by rewrite decide_False by lia].
  rewrite aget_insert by lia. by case_decide.
Qed.

Lemma fbyte_block m m' a a' k : blockof m' a' (k / 1024) = blockof m a (k / 1024) -> m' !! blockof m a (k / 1024) = m !! blockof m a (k / 1024) -> fbyte m' a' k = fbyte m a k.
Proof. intros E1 E2. unfold fbyte. by rewrite E1, E2. Qed.

Lemma img_alloc_direct m own fb F i f : body m own fb F -> F !! i = Some f -> fb < FSSIZE -> f_n f < NDIRECT ->
  body m (<[fb := (i, Some (f_n f))]> own) (fb + 1) (<[i := mkfl (f_ty f) (<[Z.to_nat (f_n f) := fb]> (f_a f)) (f_c f) (f_n f + 1)]> F).
Proof.
  intros Hb Hi Hlt Hn. pose proof (bd_file _ _ _ _ Hb i f Hi) as Hf. pose proof Hf as [F1 [F2 F2'] F3 F4 F5 F6]. pose proof MAXFILE_eq as HM. pose proof (bd_fb _ _ _ _ Hb) as Hfb. rewrite nmeta_eq in Hfb. unfold NDIRECT in *.
  apply (give m own fb F m); try done; [by intros b d Hd Hr; apply (bd_lens _ _ _ _ _ _ Hb Hd)|].
  split; cbn [f_a f_c f_n f_ty].
  - by rewrite length_insert.
  - unfold csize in *. cbn [f_c]. lia.
  - rewrite ind_insert, decide_False by (unfold NDIRECT; lia). unfold NDIRECT. destruct F3 as [F3|F3]; [left; lia|right]. rewrite lookup_insert_ne; [done|]. by apply not_eq_sym, (own_fresh _ _ _ _ _ _ Hb F3).
  - intros bn Hbn. rewrite direct_insert by (unfold NDIRECT; lia). specialize (F4 bn Hbn). destruct (decide (bn = f_n f)) as [->|Hne]; [rewrite decide_True by lia; apply lookup_insert_eq|].
    destruct (decide (bn < f_n f)); [rewrite decide_True by lia; rewrite lookup_insert_ne; [done|]; by apply not_eq_sym, (own_fresh _ _ _ _ _ _ Hb F4)|by rewrite decide_False by lia].
  - intros k x Hk. rewrite <- (F5 k x Hk). pose proof (block_index _ _ _ Hk F2). apply fbyte_block; [|done]. rewrite direct_insert by (unfold NDIRECT; lia). by rewrite decide_False by lia.
  - intros off Ho. assert (Hc0 : 0 <= csize f) by (unfold csize; lia). unfold csize in Ho. cbn [f_c] in Ho. fold (csize f) in Ho. destruct (decide (off / 1024 = f_n f)) as [E|E].
    + unfold fbyte. rewrite direct_insert, decide_True, (bd_zero _ _ _ _ Hb fb) by (unfold NDIRECT; lia). apply zeros_byte.
    + rewrite <- (F6 off) by dlia. apply fbyte_block; [|done]. rewrite direct_insert by (unfold NDIRECT; dlia). by rewrite decide_False by lia.
Qed.

Lemma ind_blocks m a bn : NDIRECT <= bn -> blockof m a bn = match m !! ind a with Some d => get32 (aoff (bn - NDIRECT)) d | None => 0 end.
Proof. intros Hb. unfold blockof. by rewrite (proj2 (Z.ltb_ge _ _)). Qed.

Lemma img_alloc_ind m own fb F i f : body m own fb F -> F !! i = Some f -> fb < FSSIZE -> f_n f = NDIRECT -> ind (f_a f) = 0 ->
  body m (<[fb := (i, None)]> own) (fb + 1) (<[i := mkfl (f_ty f) (<[Z.to_nat NDIRECT := fb]> (f_a f)) (f_c f) (f_n f)]> F).
Proof.
  intros Hb Hi Hlt Hn H0. pose proof (bd_file _ _ _ _ Hb i f Hi) as Hf. pose proof Hf as [F1 [F2 F2'] F3 F4 F5 F6]. pose proof MAXFILE_eq as HM. pose proof (bd_zero _ _ _ _ Hb fb ltac:(lia)) as Hz.
  assert (Hbo : forall bn, 0 <= bn -> blockof m (<[Z.to_nat NDIRECT := fb]> (f_a f)) bn = if decide (bn < NDIRECT) then blockof m (f_a f) bn else 0).
  { intros bn Hbn. case_decide; [|rewrite ind_blocks by lia; rewrite ind_insert, decide_True by (unfold NDIRECT; lia); by rewrite Hz, zeros_word].
    unfold blockof, NDIRECT in *. rewrite (proj2 (Z.ltb_lt bn 12)) by lia. rewrite aget_insert by lia. by rewrite decide_False by lia. }
  apply (give m own fb F m); try done; [by intros b d Hd Hr; apply (bd_lens _ _ _ _ _ _ Hb Hd)|].
  split; cbn [f_a f_c f_n f_ty].
  - by rewrite length_insert.
  - done.
  - right. rewrite ind_insert, decide_True by (unfold NDIRECT; lia). apply lookup_insert_eq.
  - intros bn Hbn. rewrite Hbo by lia. specialize (F4 bn Hbn). rewrite Hn in *. case_decide; [rewrite lookup_insert_ne; [done|]; by apply not_eq_sym, (own_fresh _ _ _ _ _ _ Hb F4)|done].
  - intros k x Hk. rewrite <- (F5 k x Hk). pose proof (block_index _ _ _ Hk F2). apply fbyte_block; [|done]. rewrite Hbo by lia. by rewrite decide_True by lia.
  - intros off Ho. assert (Hc0 : 0 <= csize f) by (unfold csize; lia). unfold csize in Ho. cbn [f_c] in Ho. fold (csize f) in Ho. rewrite <- (F6 off) by lia. apply fbyte_block; [|done]. rewrite Hbo by dlia. by rewrite decide_True by dlia.
Qed.

Lemma aoff_ne k k' : 0 <= k -> 0 <= k' -> k <> k' -> (aoff k' + 4 <= aoff k \/ aoff k + 4 <= aoff k')%nat.
Proof. intros H1 H2 H3. unfold aoff. lia. Qed.

Lemma alloc_via m own fb F i f d : body m own fb F -> F !! i = Some f -> fb < FSSIZE -> NDIRECT <= f_n f < MAXFILE -> own !! ind (f_a f) = Some (i, None) -> m !! ind (f_a f) = Some d ->
  body (<[ind (f_a f) := put32 (aoff (f_n f - NDIRECT)) fb d]> m) (<[fb := (i, Some (f_n f))]> own) (fb + 1) (<[i := mkfl (f_ty f) (f_a f) (f_c f) (f_n f + 1)]> F).
Proof.
  intros Hb Hi Hlt Hn Ho Hd. pose proof (bd_file _ _ _ _ Hb i f Hi) as Hf. pose proof Hf as [F1 [F2 F2'] F3 F4 F5 F6]. pose proof MAXFILE_eq as HM. pose proof (bd_fb _ _ _ _ Hb) as Hfb. rewrite nmeta_eq in Hfb.
  set (x := ind (f_a f)) in *. pose proof (bd_own _ _ _ _ Hb _ _ Ho) as Hx. rewrite nmeta_eq in Hx. pose proof (bd_lens _ _ _ _ _ _ Hb Hd ltac:(unfold FSSIZE in *; lia)) as Hl. unfold bsize in Hl.
  assert (Hro : forall bn, NDIRECT <= bn < MAXFILE -> (aoff (bn - NDIRECT) + 4 <= length d)%nat) by (intros bn Hbn; unfold aoff, NDIRECT in *; lia). set (d' := put32 _ fb d).
  assert (Hbo : forall bn, 0 <= bn < MAXFILE -> blockof (<[x := d']> m) (f_a f) bn = if decide (bn = f_n f) then fb else blockof m (f_a f) bn).
  { intros bn Hbn. destruct (decide (bn < NDIRECT)); [rewrite decide_False by lia; unfold blockof; by rewrite (proj2 (Z.ltb_lt _ _)) by lia|]. rewrite !ind_blocks by lia. fold x. rewrite lookup_insert_eq, Hd. unfold d'.
    case_decide as E; [subst bn; rewrite get32_put32 by (apply Hro; lia); apply u32_small; unfold FSSIZE in *; lia|]. apply get32_put32_ne; [apply aoff_ne; lia|apply Hro; lia]. }
  apply (give m own fb F (<[x := d']> m)); try done.
  - intros b Hne. destruct (decide (b = x)) as [->|]; [by eexists|]. by rewrite lookup_insert_ne in Hne.
  - intros b e [[<- <-]|[_ He]]%lookup_insert_Some Hr; [unfold d'; by rewrite put32_length by (apply Hro; lia)|by apply (bd_lens _ _ _ _ _ _ Hb He)].
  - intros b [e He]. destruct (decide (b = x)) as [->|]; [rewrite lookup_insert_eq|rewrite lookup_insert_ne by done]; eauto.
  - split; cbn [f_a f_c f_n f_ty]; [done|unfold csize in *; cbn [f_c]; lia|right; fold x; rewrite lookup_insert_ne; [done|]; by apply not_eq_sym, (own_fresh _ _ _ _ _ _ Hb Ho)| | |].
    + intros bn Hbn. rewrite Hbo by done. specialize (F4 bn Hbn). destruct (decide (bn = f_n f)) as [->|Hne]; [rewrite decide_True by lia; apply lookup_insert_eq|].
      destruct (decide (bn < f_n f)); [rewrite decide_True by lia; rewrite lookup_insert_ne; [done|]; by apply not_eq_sym, (own_fresh _ _ _ _ _ _ Hb F4)|by rewrite decide_False by lia].
    + intros k y Hk. rewrite <- (F5 k y Hk). pose proof (block_index _ _ _ Hk F2) as Hkb. apply fbyte_block; [rewrite Hbo by lia; by rewrite decide_False by lia|]. rewrite lookup_insert_ne; [done|].
      intros E. specialize (F4 (Z.of_nat k / 1024) ltac:(lia)). rewrite decide_True in F4 by lia. rewrite <- E in F4. congruence.
    + intros off Hof. assert (Hc0 : 0 <= csize f) by (unfold csize; lia). unfold csize in Hof. cbn [f_c] in Hof. fold (csize f) in Hof. destruct (decide (off / 1024 = f_n f)) as [E|E].
      * unfold fbyte. rewrite Hbo, decide_True, lookup_insert_ne, (bd_zero _ _ _ _ Hb fb) by lia. apply zeros_byte.
      * rewrite <- (F6 off) by dlia. apply fbyte_block; [rewrite Hbo by dlia; by rewrite decide_False by lia|]. rewrite lookup_insert_ne; [done|].
        intros E'. specialize (F4 (off / 1024) ltac:(dlia)). rewrite decide_True in F4 by dlia. rewrite <- E' in F4. congruence.
Qed.

(** ** [iappend] *)

Definition tight (f : fl) : Prop := f_n f = (csize f + 1023) / 1024 /\ (ind (f_a f) = 0 <-> f_n f <= NDIRECT).

(** The blocks of a file with [n] data blocks. *)
Definition bcost (n : Z) : Z := n + if NDIRECT <? n then 1 else 0.

Lemma rsect_ok s b d : 0 <= b < FSSIZE -> sect s !! b = Some d -> rsect b s = Ret d s.
Proof. intros Hb Hd. unfold rsect. rewrite seek_small by (unfold FSSIZE in Hb; lia). by rewrite Hd. Qed.

Lemma wsect_ok s b d : 0 <= b < FSSIZE -> wsect b d s = Ret tt (mkimg (<[b := d]> (sect s)) (freeinode s) (freeblock s)).
Proof. intros Hb. unfold wsect, modify. by rewrite seek_small by (unfold FSSIZE in Hb; lia). Qed.

Lemma next_block_ok s : 0 <= freeblock s < FSSIZE -> next_block s = Ret (freeblock s) (mkimg (sect s) (freeinode s) (freeblock s + 1)).
Proof. intros Hb. unfold next_block, gets, modify, ret, bind. cbn. by rewrite u32_small by (unfold FSSIZE in Hb; lia). Qed.

Lemma set_addrs_same l d : di_addrs d = l -> set_di_addrs l d = d.
Proof. intros <-. by destruct d. Qed.

(** The block [bn] of file [i] is there, after a call from state [s]. *)
Definition placed (F : gmap Z fl) (i : Z) (f : fl) (s : image) (din : dinode) (bn : Z) (r : res image (Z * dinode)) : Prop :=
  exists s' own' f', r = Ret (blockof (sect s') (f_a f') bn, set_di_addrs (f_a f') din) s' /\ body (sect s') own' (freeblock s') (<[i := f']> F) /\
    (f_ty f' = f_ty f /\ f_c f' = f_c f /\ f_n f' = bn + 1 /\ (ind (f_a f') = 0 <-> bn + 1 <= NDIRECT)) /\
    freeinode s' = freeinode s /\ freeblock s' = freeblock s + bcost (bn + 1) - bcost (f_n f) /\ forall b, b < nmeta -> sect s' !! b = sect s !! b.

Section Append.
Context (own : gmap Z place) (F : gmap Z fl) (i : Z) (f : fl) (s : image) (din : dinode).
Context (Hb : body (sect s) own (freeblock s) F) (Hi : F !! i = Some f) (Hd : di_addrs din = f_a f).

Let Hf := bd_file _ _ _ _ Hb i f Hi.

(** A block that is there. *)
Lemma block_there bn : 0 <= bn < f_n f -> nmeta <= blockof (sect s) (f_a f) bn < FSSIZE /\ block_for bn din s = Ret (blockof (sect s) (f_a f) bn, din) s.
Proof.
  intros Hbn. pose proof (fa_size _ _ _ _ Hf) as [_ Hn]. pose proof (fa_blk _ _ _ _ Hf bn ltac:(lia)) as Ho. rewrite decide_True in Ho by lia. pose proof (bd_own _ _ _ _ Hb _ _ Ho) as Hr. pose proof (bd_fb _ _ _ _ Hb) as Hfb. rewrite nmeta_eq in *. unfold FSSIZE in Hfb.
  split; [unfold FSSIZE; lia|]. pose proof (fa_len _ _ _ _ Hf) as Hl. unfold block_for. rewrite Hd. destruct (Z.ltb_spec bn NDIRECT) as [Hlt|Hge].
  - unfold blockof in *. rewrite (proj2 (Z.ltb_lt _ _) Hlt) in *. unfold NDIRECT in Hlt. destruct (aget_is_Some (f_a f) bn ltac:(lia)) as [a Ha]. rewrite Ha in *. change (default 0 (Some a)) with a in *. unfold unwrap. rewrite (bind_ret_l _ _ s a s) by done.
    rewrite xint_id by lia. by rewrite (proj2 (Z.eqb_neq _ _)) by lia.
  - rewrite ind_blocks in * by done. destruct (fa_ind _ _ _ _ Hf) as [[_ Hx]|Hx]; [lia|]. pose proof (bd_own _ _ _ _ Hb _ _ Hx) as Hxr. rewrite nmeta_eq in Hxr. destruct (aget_is_Some (f_a f) NDIRECT) as [a Ha]; [unfold NDIRECT; lia|].
    assert (Ea : ind (f_a f) = a) by (unfold ind; by rewrite Ha). rewrite Ea in *. unfold unwrap. rewrite (bind_ret_l _ _ s a s) by (by rewrite Ha). rewrite xint_id by lia. rewrite (bind_ret_l _ _ s din s) by (by rewrite (proj2 (Z.eqb_neq _ _)) by lia).
    rewrite Hd. rewrite (bind_ret_l _ _ s a s) by (by rewrite Ha). destruct (bd_len _ _ _ _ Hb a) as (d & Hda & _); [unfold FSSIZE; lia|]. rewrite xint_id by lia. rewrite (bind_ret_l _ _ _ _ _ (rsect_ok s a d ltac:(unfold FSSIZE; lia) Hda)). rewrite Hda in *.
    rewrite (proj2 (Z.eqb_neq _ _)) by lia. by rewrite xint_id by lia.
Qed.

Lemma block_direct : f_n f < NDIRECT -> (ind (f_a f) = 0 <-> f_n f <= NDIRECT) -> freeblock s < FSSIZE -> placed F i f s din (f_n f) (block_for (f_n f) din s).
Proof.
  intros Hn Hti Hlt. pose proof (fa_size _ _ _ _ Hf) as [_ Hn']. pose proof (fa_len _ _ _ _ Hf) as Hl. pose proof (bd_fb _ _ _ _ Hb) as Hfb. rewrite nmeta_eq in Hfb. pose proof MAXFILE_eq as HM.
  pose proof (fa_blk _ _ _ _ Hf (f_n f) ltac:(unfold NDIRECT in *; lia)) as H0. rewrite decide_False in H0 by lia. pose proof (img_alloc_direct _ _ _ _ _ _ Hb Hi Hlt Hn) as Hb'. set (a' := <[Z.to_nat (f_n f) := freeblock s]> (f_a f)) in *.
  assert (Hbo : blockof (sect s) a' (f_n f) = freeblock s) by (unfold a'; rewrite direct_insert by lia; by rewrite decide_True).
  set (s1 := mkimg (sect s) (freeinode s) (freeblock s + 1)). exists s1, (<[freeblock s := (i, Some (f_n f))]> own), (mkfl (f_ty f) a' (f_c f) (f_n f + 1)). cbn [f_a f_ty f_c f_n s1 sect freeblock freeinode]. split_and!; try done.
  - unfold block_for. rewrite (proj2 (Z.ltb_lt _ _) Hn), Hd. unfold blockof in H0. rewrite (proj2 (Z.ltb_lt _ _) Hn) in H0. unfold NDIRECT in Hn. destruct (aget_is_Some (f_a f) (f_n f) ltac:(lia)) as [a Ha]. rewrite Ha in *. cbn in H0. subst a.
    unfold unwrap. rewrite (bind_ret_l _ _ s 0 s) by done. change (xint 0 =? 0) with true. cbv iota. rewrite (bind_ret_l _ _ _ _ _ (next_block_ok s ltac:(lia))). unfold FSSIZE in Hlt. rewrite !(xint_id (freeblock s)) by lia.
    rewrite aset_is_Some by lia. rewrite (bind_ret_l _ _ s1 a' s1) by done. by rewrite Hbo.
  - unfold a'. rewrite ind_insert by (unfold NDIRECT in *; lia). rewrite decide_False by lia. rewrite Hti. unfold NDIRECT in *. lia.
  - unfold bcost. rewrite !(proj2 (Z.ltb_ge _ _)) by lia. lia.
Qed.

(** The second half of [block_for] for an indirect block that is there. *)
Lemma indirect_new : NDIRECT <= f_n f < MAXFILE -> own !! ind (f_a f) = Some (i, None) -> freeblock s < FSSIZE ->
  exists d, sect s !! ind (f_a f) = Some d /\ nmeta <= ind (f_a f) < FSSIZE /\ aget (f_a f) NDIRECT = Some (ind (f_a f)) /\ get32 (aoff (f_n f - NDIRECT)) d = 0 /\
    let m' := <[ind (f_a f) := put32 (aoff (f_n f - NDIRECT)) (freeblock s) d]> (sect s) in
    blockof m' (f_a f) (f_n f) = freeblock s /\ body m' (<[freeblock s := (i, Some (f_n f))]> own) (freeblock s + 1) (<[i := mkfl (f_ty f) (f_a f) (f_c f) (f_n f + 1)]> F).
Proof.
  intros Hn Ho Hlt. pose proof (bd_fb _ _ _ _ Hb) as Hfb. pose proof (bd_own _ _ _ _ Hb _ _ Ho) as Hr. rewrite nmeta_eq in *. pose proof (fa_len _ _ _ _ Hf) as Hl. pose proof MAXFILE_eq as HM. destruct (bd_len _ _ _ _ Hb (ind (f_a f)) ltac:(lia)) as (d & Hdd & Hld).
  pose proof (fa_blk _ _ _ _ Hf (f_n f) ltac:(unfold NDIRECT in *; lia)) as H0. rewrite decide_False in H0 by lia. rewrite ind_blocks, Hdd in H0 by lia. exists d. split_and!; [done|lia|lia| |done|split; [|by apply alloc_via]].
  - destruct (aget_is_Some (f_a f) NDIRECT) as [a Ha]; [unfold NDIRECT; lia|]. unfold ind. by rewrite Ha.
  - rewrite ind_blocks, lookup_insert_eq by lia. rewrite get32_put32; [apply u32_small; unfold FSSIZE in *; lia|]. unfold aoff, NDIRECT, bsize in *. lia.
Qed.

Lemma block_indirect : NDIRECT < f_n f < MAXFILE -> ind (f_a f) <> 0 -> freeblock s < FSSIZE -> placed F i f s din (f_n f) (block_for (f_n f) din s).
Proof.
  intros Hn Hti Hlt. pose proof (bd_fb _ _ _ _ Hb) as Hfb. rewrite nmeta_eq in Hfb. destruct (fa_ind _ _ _ _ Hf) as [[? _]|Ho]; [done|]. destruct (indirect_new ltac:(lia) Ho Hlt) as (d & Hdd & Hr & Ha & H0 & Hbo & Hb'). rewrite nmeta_eq in Hr.
  set (x := ind (f_a f)) in *. set (m' := <[x := _]> (sect s)) in *. set (s1 := mkimg m' (freeinode s) (freeblock s + 1)). exists s1, (<[freeblock s := (i, Some (f_n f))]> own), (mkfl (f_ty f) (f_a f) (f_c f) (f_n f + 1)). cbn [f_a f_ty f_c f_n s1 sect freeblock freeinode]. split_and!; try done.
  - unfold block_for. rewrite (proj2 (Z.ltb_ge _ _)), Hd by lia. unfold unwrap. rewrite (bind_ret_l _ _ s x s) by (by rewrite Ha). unfold FSSIZE in Hlt, Hr. rewrite (xint_id x) by lia. rewrite (bind_ret_l _ _ s din s) by (by rewrite (proj2 (Z.eqb_neq _ _)) by lia).
    rewrite Hd. rewrite (bind_ret_l _ _ s x s) by (by rewrite Ha). rewrite (xint_id x) by lia. rewrite (bind_ret_l _ _ _ _ _ (rsect_ok s x d ltac:(unfold FSSIZE; lia) Hdd)). rewrite H0. cbn [Z.eqb].
    rewrite (bind_ret_l _ _ _ _ _ (next_block_ok s ltac:(unfold FSSIZE; lia))). rewrite !(xint_id (freeblock s)) by lia. rewrite (bind_ret_l _ _ _ _ _ (wsect_ok _ x _ ltac:(unfold FSSIZE; lia))). rewrite set_addrs_same by done. by rewrite Hbo.
  - split; [done|lia].
  - unfold bcost. rewrite !(proj2 (Z.ltb_lt _ _)) by lia. lia.
  - intros b Hbm. unfold m'. apply lookup_insert_ne. rewrite nmeta_eq in Hbm. lia.
Qed.
End Append.

(** The first block behind the direct ones takes two blocks. *)
Lemma block_first own F i f s din : body (sect s) own (freeblock s) F -> F !! i = Some f -> di_addrs din = f_a f -> f_n f = NDIRECT -> ind (f_a f) = 0 -> freeblock s + 2 <= FSSIZE -> placed F i f s din (f_n f) (block_for (f_n f) din s).
Proof.
  intros Hb Hi Hd Hn H0 Hlt. pose proof (bd_file _ _ _ _ Hb i f Hi) as Hf. pose proof (fa_len _ _ _ _ Hf) as Hl. pose proof (bd_fb _ _ _ _ Hb) as Hfb. rewrite nmeta_eq in Hfb. pose proof MAXFILE_eq as HM. set (x := freeblock s) in *.
  pose proof (img_alloc_ind _ _ _ _ _ _ Hb Hi ltac:(lia) Hn H0) as Hb1. set (a1 := <[Z.to_nat NDIRECT := x]> (f_a f)) in *. set (f1 := mkfl (f_ty f) a1 (f_c f) (f_n f)) in *. set (s1 := mkimg (sect s) (freeinode s) (x + 1)).
  assert (Hx : ind a1 = x) by (unfold a1; rewrite ind_insert by (unfold NDIRECT; lia); by rewrite decide_True).
  destruct (indirect_new (<[x := (i, None)]> own) (<[i := f1]> F) i f1 s1 Hb1 ltac:(apply lookup_insert_eq)) as (d & Hdd & Hr & Ha & Hz & Hbo & Hb2); cbn [f1 f_n f_a f_c f_ty s1 freeblock sect freeinode] in *.
  { unfold NDIRECT in *. lia. } { rewrite Hx. apply lookup_insert_eq. } { lia. }
  rewrite Hx in *. set (m' := <[x := _]> (sect s)) in *. rewrite insert_insert_eq in Hb2.
  set (s2 := mkimg m' (freeinode s) (x + 1 + 1)). eexists s2, _, (mkfl (f_ty f) a1 (f_c f) (f_n f + 1)). cbn [f_a f_ty f_c f_n s2 sect freeblock freeinode]. split; [|split; [exact Hb2|]].
  - unfold block_for. rewrite (proj2 (Z.ltb_ge _ _)), Hd by lia. assert (Ha0 : aget (f_a f) NDIRECT = Some 0).
    { destruct (aget_is_Some (f_a f) NDIRECT) as [a Ha']; [unfold NDIRECT; lia|]. unfold ind in H0. rewrite Ha' in *. cbn in H0. by subst. }
    unfold unwrap. rewrite (bind_ret_l _ _ s 0 s) by (by rewrite Ha0). change (xint 0 =? 0) with true. cbv iota. unfold FSSIZE in Hlt, Hr.
    rewrite (bind_ret_l _ _ s (set_di_addrs a1 din) s1).
    2:{ rewrite (bind_ret_l _ _ _ _ _ (next_block_ok s ltac:(unfold FSSIZE; fold x; lia))). fold x. fold s1. rewrite xint_id by lia. rewrite aset_is_Some by (unfold NDIRECT; lia). by rewrite (bind_ret_l _ _ s1 a1 s1) by done. }
    cbn [di_addrs set_di_addrs]. rewrite (bind_ret_l _ _ s1 x s1) by (by rewrite Ha). rewrite (xint_id x) by lia. rewrite (bind_ret_l _ _ _ _ _ (rsect_ok s1 x d ltac:(unfold FSSIZE; lia) Hdd)). rewrite Hz. cbn [Z.eqb].
    rewrite (bind_ret_l _ _ _ _ _ (next_block_ok s1 ltac:(unfold FSSIZE; cbn; lia))). cbn [s1 freeblock freeinode sect]. rewrite !(xint_id (x + 1)) by lia. rewrite (bind_ret_l _ _ _ _ _ (wsect_ok _ x _ ltac:(unfold FSSIZE; lia))). by rewrite Hbo.
  - split_and!; try done.
    + rewrite Hx. split; [lia|unfold NDIRECT in *; lia].
    + rewrite Hn. unfold bcost. fold x. change (NDIRECT <? NDIRECT + 1) with true. change (NDIRECT <? NDIRECT) with false. cbv iota. lia.
    + intros b Hbm. unfold m'. apply lookup_insert_ne. rewrite nmeta_eq in Hbm. lia.
Qed.

(** [block_for] in every case. *)
Lemma block_for_ok own F i f s din : body (sect s) own (freeblock s) F -> F !! i = Some f -> di_addrs din = f_a f -> tight f -> let bn := csize f / 1024 in bn < MAXFILE ->
  freeblock s + bcost (bn + 1) - bcost (f_n f) <= FSSIZE -> placed F i f s din bn (block_for bn din s).
Proof.
  intros Hb Hi Hd [Ht1 Ht2] bn Hbn Hc. assert (Hc0 : 0 <= csize f) by (unfold csize; lia). assert (Hcase : f_n f = bn + 1 \/ f_n f = bn) by (unfold bn; dlia). assert (Hbn0 : 0 <= bn) by (unfold bn; dlia). clearbody bn. destruct Hcase as [E|E].
  - destruct (block_there own F i f s din Hb Hi Hd bn ltac:(lia)) as [_ Eb]. exists s, own, f. rewrite Eb, set_addrs_same, insert_id by done. split_and!; try done; [by rewrite <- E|rewrite E; lia].
  - subst bn. unfold bcost in Hc. destruct (Z.lt_trichotomy (f_n f) NDIRECT) as [H|[H|H]].
    + rewrite !(proj2 (Z.ltb_ge _ _)) in Hc by lia. apply (block_direct own); try done. lia.
    + rewrite H in Hc. change (NDIRECT <? NDIRECT + 1) with true in Hc. change (NDIRECT <? NDIRECT) with false in Hc. cbv iota in Hc. apply (block_first own); try done; [apply Ht2; lia|lia].
    + rewrite !(proj2 (Z.ltb_lt _ _)) in Hc by lia. apply (block_indirect own); try done; [intros H0; apply Ht2 in H0; lia|lia].
Qed.

Definition ceil (n : Z) : Z := (n + 1023) / 1024.

Lemma bcost_mono a b : a <= b -> bcost a <= bcost b.
Proof. intros H. unfold bcost, NDIRECT. destruct (Z.ltb_spec 12 a), (Z.ltb_spec 12 b); lia. Qed.

(** What the loop leaves, with the bytes [p] behind the file. *)
Definition appended (F : gmap Z fl) (i : Z) (f : fl) (s : image) (p : list Z) (s' : image) (f' : fl) : Prop :=
  (exists own', body (sect s') own' (freeblock s') (<[i := f']> F)) /\ f_ty f' = f_ty f /\ f_c f' = f_c f ++ p /\ tight f' /\
  freeinode s' = freeinode s /\ freeblock s' = freeblock s + bcost (f_n f') - bcost (f_n f) /\ forall b, b < nmeta -> sect s' !! b = sect s !! b.

Lemma append_loop_ok i fuel : forall own F f s din p, body (sect s) own (freeblock s) F -> F !! i = Some f -> di_addrs din = f_a f -> tight f -> (length p < fuel)%nat ->
  csize f + Z.of_nat (length p) <= MAXFILE * 1024 -> freeblock s + bcost (ceil (csize f + Z.of_nat (length p))) - bcost (f_n f) <= FSSIZE ->
  exists s' f', append_loop fuel (csize f) p din s = Ret (csize f', set_di_addrs (f_a f') din) s' /\ appended F i f s p s' f'.
Proof.
  induction fuel as [|fuel IH]; intros own F f s din p Hb Hi Hd Ht Hf Hmax Hbud; [lia|]. cbn [append_loop]. assert (Hc0 : 0 <= csize f) by (unfold csize; lia). destruct p as [|y p].
  { exists s, f. split; [by rewrite set_addrs_same|]. unfold appended. rewrite insert_id, app_nil_r by done. split_and!; try done; [by exists own|lia]. }
  set (q := y :: p) in *. assert (Hq : 0 < Z.of_nat (length q)) by (cbn; lia). clearbody q. rewrite (proj2 (Z.ltb_lt 0 _) Hq). cbn [negb]. change BLK with 1024. set (bn := csize f / 1024). pose proof MAXFILE_eq as HM.
  assert (Hbn : 0 <= bn < MAXFILE) by (unfold bn; dlia). rewrite (proj2 (Z.ltb_lt bn MAXFILE)) by lia. cbn [negb].
  assert (Hbud' : freeblock s + bcost (bn + 1) - bcost (f_n f) <= FSSIZE) by (pose proof (bcost_mono (bn + 1) (ceil (csize f + Z.of_nat (length q))) ltac:(unfold ceil, bn; dlia)); lia).
  destruct (block_for_ok own F i f s din Hb Hi Hd Ht (proj2 Hbn) Hbud') as (s1 & own1 & f1 & E1 & Hb1 & (G1 & G2 & G3 & G4) & Hfi1 & Hfb1 & Hm1). rewrite (bind_ret_l _ _ _ _ _ E1). fold bn in E1, G3, G4, Hfb1 |- *. cbn [fst snd].
  assert (Hc1 : csize f1 = csize f) by (unfold csize; by rewrite G2). assert (Hi1 : <[i := f1]> F !! i = Some f1) by apply lookup_insert_eq. set (x := blockof (sect s1) (f_a f1) bn).
  destruct (block_there own1 _ i f1 s1 (set_di_addrs (f_a f1) din) Hb1 Hi1 eq_refl bn ltac:(lia)) as [Hx _]. fold x in Hx. rewrite nmeta_eq in Hx. destruct (bd_len _ _ _ _ Hb1 x ltac:(lia)) as (d & Hdx & Hld).
  rewrite (bind_ret_l _ _ _ _ _ (rsect_ok s1 x d ltac:(lia) Hdx)), (bind_ret_l _ _ _ _ _ (wsect_ok s1 x _ ltac:(lia))). set (n1 := Z.min (Z.of_nat (length q)) ((bn + 1) * 1024 - csize f)).
  assert (Hn1 : 0 < n1 <= Z.of_nat (length q) /\ csize f mod 1024 + n1 <= 1024 /\ csize f - bn * 1024 = csize f mod 1024) by (unfold n1, bn; dlia). destruct Hn1 as (Hn1 & Hn1' & Eo). rewrite Eo.
  set (t := take (Z.to_nat n1) q). assert (Hlt : Z.of_nat (length t) = n1) by (unfold t; rewrite length_take; lia).
  pose proof (fill _ _ _ _ i f1 d t Hb1 Hi1) as Hfill. rewrite Hc1 in Hfill. fold bn in Hfill. fold x in Hfill. specialize (Hfill ltac:(lia) Hdx ltac:(lia)). rewrite insert_insert_eq in Hfill.
  set (f2 := mkfl (f_ty f1) (f_a f1) (f_c f1 ++ t) (f_n f1)) in *. set (s2 := mkimg (<[x := splice (Z.to_nat (csize f mod 1024)) t d]> (sect s1)) (freeinode s1) (freeblock s1)).
  assert (Hc2 : csize f2 = csize f + n1) by (unfold csize in *; cbn [f2 f_c]; rewrite length_app; lia). assert (Ht2 : tight f2) by (split; [rewrite Hc2; cbn [f2 f_n]; rewrite G3; unfold n1, bn in *; dlia|cbn [f2 f_a f_n]; by rewrite G3]).
  destruct (IH own1 (<[i := f2]> F) f2 s2 (set_di_addrs (f_a f1) din) (drop (Z.to_nat n1) q) Hfill ltac:(apply lookup_insert_eq) eq_refl Ht2) as (s' & f' & E & (own' & Hb') & H1 & H2 & H3 & H4 & H5 & H6).
  { rewrite length_drop. lia. } { rewrite length_drop. lia. }
  { rewrite length_drop, Hc2. replace (csize f + n1 + Z.of_nat (length q - Z.to_nat n1)) with (csize f + Z.of_nat (length q)) by lia. cbn [s2 freeblock f2 f_n]. rewrite Hfb1, G3. lia. }
  rewrite Hc2 in E. exists s', f'. split; [refine (eq_trans E _); by destruct din|]. rewrite insert_insert_eq in Hb'. unfold appended. cbn [f2 f_ty f_c f_n s2 freeinode freeblock sect] in *. split_and!; try done; [by exists own'|congruence|rewrite H2, G2, <- app_assoc; unfold t; by rewrite take_drop|congruence|rewrite H5, G3; lia|].
  intros b Hbm. rewrite H6, lookup_insert_ne by (try done; rewrite nmeta_eq in Hbm; lia). by apply Hm1.
Qed.
