(* ===== verification/MkFsImage.v ===== *)
(** * Inodes of the image

    The image as [ialloc], [iappend] and the loop over the files leave it. *)

From S2P Require Import Prelude StringC Bytes Sleeplock UserMem Blocks Fs FsSpec FsFile FsRead FsWrite FsWritei MkFs MkFsSpec.

Definition dino (f : fl) : dinode := mkdi (f_ty f) 0 0 1 (csize f) (f_a f).

(** The last inode of the blocks that mkfs leaves for them. *)
Definition max_inode : Z := 208.

Record built (s : image) (F : gmap Z fl) : Prop := {
  bu_body : exists own, body (sect s) own (freeblock s) F;
  bu_next : 1 <= freeinode s <= max_inode;
  bu_inum : forall j f, F !! j = Some f -> 1 <= j < freeinode s;
  bu_ino : forall j f, F !! j = Some f -> on_disk (sect s) sb j (dino f);
  bu_file : forall j f, F !! j = Some f -> tight f /\ short (f_ty f);
  bu_boot : sect s !! 0 = Some zeros
}.

Lemma IBLOCK_eq j : 0 <= j < max_inode -> IBLOCK j sb = 32 + j / 16 /\ 32 <= IBLOCK j sb < 45.
Proof. intros Hj. unfold IBLOCK. change (sb_inodestart sb) with 32. change IPB with 16. unfold max_inode in Hj. rewrite u32_small by dlia. dlia. Qed.

Lemma body_meta m own fb F b d : body m own fb F -> 1 <= b < nmeta -> length d = bsize -> body (<[b := d]> m) own fb F.
Proof.
  intros [H1 H2 H3 H4 H5] Hb Hl. rewrite nmeta_eq in *. split.
  - intros x Hx. destruct (decide (x = b)) as [->|]; [rewrite lookup_insert_eq; eauto|rewrite lookup_insert_ne by done; by apply H1].
  - by rewrite nmeta_eq.
  - by rewrite nmeta_eq.
  - intros x Hx. rewrite lookup_insert_ne by lia. by apply H4.
  - intros j f Hj. apply (fileat_same m own); [by apply H5|done| |by rewrite lookup_insert_ne by lia]. intros x p Hx. apply H3 in Hx. apply lookup_insert_ne. lia.
Qed.

(** The inode [j] is written; the others stay. *)
Lemma on_disk_winode m j di d j' di' : 0 <= j < max_inode -> 0 <= j' < max_inode -> j <> j' -> m !! IBLOCK j sb = Some d -> length d = bsize -> length (di_addrs di) = 13%nat ->
  on_disk m sb j' di' -> on_disk (<[IBLOCK j sb := put_dinode (doff j) di d]> m) sb j' di'.
Proof.
  intros Hj Hj' Hne Hd Hl Ha (e & He & <-). pose proof (IBLOCK_eq j Hj) as [E1 _]. pose proof (IBLOCK_eq j' Hj') as [E2 _]. destruct (decide (IBLOCK j' sb = IBLOCK j sb)) as [E|E]; [|exists e; by rewrite lookup_insert_ne].
  rewrite E in He. exists (put_dinode (doff j) di d). rewrite E, lookup_insert_eq. split; [done|]. assert (e = d) as -> by congruence. apply get_put_dinode_ne; [done|by apply doff_range|]. unfold doff. change IPB with 16. dlia.
Qed.

Lemma addrs_uint m own fb F j f : body m own fb F -> fileat m own j f -> Forall uint (f_a f).
Proof.
  intros Hb Hf. pose proof (bd_fb _ _ _ _ Hb) as Hfb. unfold FSSIZE in Hfb. assert (Hown : forall b p, own !! b = Some p -> uint b) by (intros b p Hp%(bd_own _ _ _ _ Hb); rewrite nmeta_eq in Hp; unfold uint; lia).
  apply Forall_lookup_2. intros k x Hx. pose proof (lookup_lt_Some _ _ _ Hx) as Hlt. pose proof (fa_len _ _ _ _ Hf) as Hl. assert (Ha : aget (f_a f) (Z.of_nat k) = Some x) by (by rewrite aget_of_nat). destruct (decide (k = 12)%nat) as [->|Hk].
  - assert (Ei : ind (f_a f) = x) by (unfold ind; change NDIRECT with (Z.of_nat 12); by rewrite Ha). destruct (fa_ind _ _ _ _ Hf) as [[E _]|E]; [unfold uint; lia|]. rewrite Ei in E. by apply (Hown _ _ E).
  - assert (Eb : blockof m (f_a f) (Z.of_nat k) = x) by (unfold blockof; rewrite (proj2 (Z.ltb_lt _ _)), Ha by (unfold NDIRECT; lia); done). pose proof (fa_blk _ _ _ _ Hf (Z.of_nat k) ltac:(rewrite MAXFILE_eq; lia)) as H.
    rewrite Eb in H. case_decide; [by apply (Hown _ _ H)|subst x; unfold uint; lia].
Qed.

Lemma dino_ok m own fb F j f : body m own fb F -> fileat m own j f -> short (f_ty f) -> dinode_ok (dino f).
Proof.
  intros Hb Hf Hs. pose proof (fa_size _ _ _ _ Hf) as [H1 H2]. rewrite MAXFILE_eq in H2. split; cbn [dino di_type di_major di_minor di_nlink di_size di_addrs]; try done; [unfold uint, csize in *; lia|apply (fa_len _ _ _ _ Hf)|by apply (addrs_uint _ _ _ _ _ _ Hb Hf)].
Qed.

(** [winode] of an inode. *)
Lemma winode_ok s own F j di : body (sect s) own (freeblock s) F -> 0 <= j < max_inode -> dinode_ok di ->
  exists m', winode j di s = Ret tt (mkimg m' (freeinode s) (freeblock s)) /\ body m' own (freeblock s) F /\ on_disk m' sb j di /\
    (forall j' di', 0 <= j' < max_inode -> j <> j' -> on_disk (sect s) sb j' di' -> on_disk m' sb j' di') /\ (forall b, ~ (32 <= b < 45) -> m' !! b = sect s !! b).
Proof.
  intros Hb Hr Hok. pose proof (IBLOCK_eq j Hr) as [_ Hi]. destruct (bd_len _ _ _ _ Hb (IBLOCK j sb)) as (d & Hd & Hl); [unfold FSSIZE; lia|].
  assert (Hl' : length (put_dinode (doff j) di d) = bsize) by (rewrite put_dinode_length; [done|apply Hok|by apply doff_range]). exists (<[IBLOCK j sb := put_dinode (doff j) di d]> (sect s)). split_and!.
  - unfold winode. rewrite (bind_ret_l _ _ _ _ _ (rsect_ok s (IBLOCK j sb) d ltac:(unfold FSSIZE; lia) Hd)). by rewrite wsect_ok by (unfold FSSIZE; lia).
  - apply body_meta; [done|rewrite nmeta_eq; lia|done].
  - exists (put_dinode (doff j) di d). split; [apply lookup_insert_eq|]. apply get_put_dinode; [done|by apply doff_range].
  - intros j' di' Hj' Hne. apply on_disk_winode; try done. apply Hok.
  - intros b Hnb. apply lookup_insert_ne. lia.
Qed.

Lemma rinode_ok s j f : 0 <= j < max_inode -> on_disk (sect s) sb j (dino f) -> rinode j s = Ret (dino f) s.
Proof. intros Hj (d & Hd & E). pose proof (IBLOCK_eq j Hj) as [_ Hi]. unfold rinode. rewrite (bind_ret_l _ _ _ _ _ (rsect_ok s (IBLOCK j sb) d ltac:(unfold FSSIZE; lia) Hd)). by rewrite E. Qed.

(** Bytes are appended to file [i]. *)
Definition grown (s s' : image) (F F' : gmap Z fl) (i : Z) (f : fl) (p : list Z) : Prop :=
  exists f', F' = <[i := f']> F /\ built s' F' /\ f_ty f' = f_ty f /\ f_c f' = f_c f ++ p /\ freeinode s' = freeinode s /\
    freeblock s' = freeblock s + bcost (ceil (csize f + Z.of_nat (length p))) - bcost (ceil (csize f)) /\ forall b, b < 32 \/ b = 45 -> sect s' !! b = sect s !! b.

Lemma iappend_ok s F i f p : built s F -> F !! i = Some f -> csize f + Z.of_nat (length p) <= MAXFILE * 1024 -> freeblock s + bcost (ceil (csize f + Z.of_nat (length p))) - bcost (ceil (csize f)) <= FSSIZE ->
  exists s' F', iappend i p s = Ret tt s' /\ grown s s' F F' i f p.
Proof.
  intros Hbu Hi Hmax Hbud. pose proof Hbu as [(own & Hb) Hnx Hin Hino Hfile H0]. destruct (Hfile i f Hi) as [Ht Hs]. pose proof (Hin i f Hi) as Hir. pose proof MAXFILE_eq as HM. pose proof Ht as [Ht1 _].
  unfold iappend. rewrite (bind_ret_l _ _ _ _ _ (rinode_ok s i f ltac:(lia) (Hino i f Hi))). cbn [di_size dino]. rewrite xint_id by (unfold csize in *; lia).
  destruct (append_loop_ok i (S (length p)) own F f s (dino f) p Hb Hi eq_refl Ht ltac:(lia) Hmax) as (s1 & f1 & E1 & (own1 & Hb1) & G1 & G2 & G3 & G4 & G5 & G6); [unfold ceil in Hbud; rewrite Ht1; exact Hbud|]. rewrite (bind_ret_l _ _ _ _ _ E1). cbn [fst snd].
  assert (Hc1 : csize f1 = csize f + Z.of_nat (length p)) by (unfold csize; rewrite G2, length_app; lia). rewrite xint_id by (unfold csize in *; lia).
  assert (Ed : set_di_size (csize f1) (set_di_addrs (f_a f1) (dino f)) = dino f1) by (unfold dino; cbn; by rewrite G1). rewrite Ed. set (F1 := <[i := f1]> F) in *. assert (Hi1 : F1 !! i = Some f1) by apply lookup_insert_eq.
  destruct (winode_ok s1 own1 F1 i (dino f1) Hb1 ltac:(lia) (dino_ok _ _ _ _ _ _ Hb1 (bd_file _ _ _ _ Hb1 i f1 Hi1) ltac:(by rewrite G1))) as (m' & E2 & Hb2 & Hd2 & Hoth & Hlow). rewrite E2. eexists _, F1. split; [done|]. exists f1. split; [done|]. cbn [freeinode freeblock sect]. split; [split; cbn [freeinode freeblock sect]|].
  - by exists own1.
  - by rewrite G4.
  - intros j g [[<- <-]|[_ Hj]]%lookup_insert_Some; rewrite G4; [by apply (Hin i f)|by apply (Hin j g)].
  - intros j g [[<- <-]|[Hne Hj]]%lookup_insert_Some; [done|]. pose proof (Hin j g Hj). apply Hoth; [lia|done|]. destruct (Hino j g Hj) as (d & Hd & E). exists d. rewrite G6; [done|]. pose proof (IBLOCK_eq j ltac:(lia)). rewrite nmeta_eq. lia.
  - intros j g [[<- <-]|[Hne Hj]]%lookup_insert_Some; [by rewrite G1|by apply (Hfile j g)].
  - rewrite Hlow, G6 by (rewrite ?nmeta_eq; lia). done.
  - split_and!; try done; [rewrite G5; destruct G3 as [-> _]; rewrite Hc1, Ht1; done|]. intros b Hbl. rewrite Hlow, G6 by (rewrite ?nmeta_eq; lia). done.
Qed.

Lemma grown_low s s' F F' i f p : grown s s' F F' i f p -> forall b, b < 32 \/ b = 45 -> sect s' !! b = sect s !! b.
Proof. by intros (f' & _ & _ & _ & _ & _ & _ & H). Qed.

Lemma img_grown_trans s s1 s2 F F1 F2 i f p p2 : grown s s1 F F1 i f p -> (forall f1, F1 !! i = Some f1 -> grown s1 s2 F1 F2 i f1 p2) -> grown s s2 F F2 i f (p ++ p2).
Proof.
  intros (f1 & -> & Hb1 & G1 & G2 & G3 & G4 & G5) H2. destruct (H2 f1 (lookup_insert_eq _ _ _)) as (f2 & -> & Hb2 & K1 & K2 & K3 & K4 & K5). exists f2. rewrite insert_insert_eq in *. assert (Hc : csize f1 = csize f + Z.of_nat (length p)) by (unfold csize; rewrite G2, length_app; lia).
  split_and!; try done; [congruence|by rewrite K2, G2, app_assoc|congruence|rewrite K4, G4, Hc, length_app; replace (csize f + Z.of_nat (length p + length p2)) with (csize f + Z.of_nat (length p) + Z.of_nat (length p2)) by lia; lia|].
  intros b Hb. by rewrite K5, G5.
Qed.

Lemma grown_nil s F i f : built s F -> F !! i = Some f -> grown s s F F i f [].
Proof. intros Hb Hi. exists f. rewrite insert_id, app_nil_r by done. split_and!; try done. cbn. rewrite Z.add_0_r. lia. Qed.

Lemma grown_at s s' F F' i f p : grown s s' F F' i f p -> exists f', F' = <[i := f']> F /\ F' !! i = Some f' /\ built s' F' /\ f_ty f' = f_ty f /\ f_c f' = f_c f ++ p /\ csize f' = csize f + Z.of_nat (length p).
Proof. intros (f' & -> & Hb & G1 & G2 & _). exists f'. split_and!; try done; [apply lookup_insert_eq|unfold csize; rewrite G2, length_app; lia]. Qed.

(** ** [ialloc] *)

Definition empty_fl (ty : Z) : fl := mkfl ty (replicate 13 0) [] 0.

Lemma empty_at m own j ty : m !! 0 = Some zeros -> fileat m own j (empty_fl ty).
Proof.
  intros H0. assert (Hi : ind (replicate 13 0) = 0) by done. split; cbn [empty_fl f_a f_c f_n]; [done|unfold csize; cbn; rewrite MAXFILE_eq; lia|left; split; [done|unfold NDIRECT; lia]| |done|unfold csize; cbn; lia].
  intros bn Hbn. rewrite decide_False by lia. unfold blockof. rewrite Hi, H0, zeros_word. destruct (bn <? NDIRECT); [|done]. destruct (aget (replicate 13 0) bn) as [x|] eqn:E; [|done]. by apply aget_lookup, lookup_replicate in E as [-> _].
Qed.

Lemma xshort_id x : 0 <= x < 2 ^ 16 -> xshort x = x.
Proof. intros Hx. transitivity (of_bytes (le_bytes 2 x)); [|apply of_le_bytes; lia]. unfold xshort. cbn [le_bytes]. unfold u8. rewrite !Z.shiftr_div_pow2 by lia. done. Qed.

Lemma ialloc_ok s F ty : built s F -> freeinode s < max_inode -> 0 <= ty < 2 ^ 15 ->
  exists s', ialloc ty s = Ret (freeinode s) s' /\ built s' (<[freeinode s := empty_fl ty]> F) /\ F !! freeinode s = None /\ freeinode s' = freeinode s + 1 /\ freeblock s' = freeblock s /\ forall b, b < 32 \/ b = 45 -> sect s' !! b = sect s !! b.
Proof.
  intros [(own & Hb) Hnx Hin Hino Hfile H0] Hlt Hty. set (j := freeinode s) in *. assert (HN : F !! j = None) by (destruct (F !! j) as [g|] eqn:E; [apply Hin in E; lia|done]). unfold max_inode in *. assert (Hs : short ty) by (unfold short; lia).
  set (s1 := mkimg (sect s) (j + 1) (freeblock s)). set (F1 := <[j := empty_fl ty]> F).
  assert (Hb1 : body (sect s) own (freeblock s) F1). { destruct Hb as [B1 B2 B3 B4 B5]. split; try done. intros k g [[<- <-]|[_ Hg]]%lookup_insert_Some; [by apply empty_at|by apply B5]. }
  destruct (winode_ok s1 own F1 j (dino (empty_fl ty)) Hb1 ltac:(unfold max_inode; lia) (dino_ok _ _ _ _ _ _ Hb1 (bd_file _ _ _ _ Hb1 j _ (lookup_insert_eq _ _ _)) Hs)) as (m' & E & Hb2 & Hd & Hoth & Hlow). eexists (mkimg m' (j + 1) (freeblock s)). split_and!; try done.
  - unfold ialloc, gets, modify. rewrite (bind_ret_l _ _ s j s) by done. rewrite (bind_ret_l _ _ s tt s1) by (cbn; fold j; by rewrite u32_small by lia). rewrite (bind_ret_l _ _ s1 tt (mkimg m' (j + 1) (freeblock s))); [done|].
    rewrite !xshort_id by lia. change (xint 0) with 0. replace (s16 ty) with ty by (unfold s16; rewrite Z.mod_small; lia). exact E.
  - split; cbn [sect freeinode freeblock]; [by exists own|unfold max_inode; lia| | | |by rewrite Hlow by lia].
    + intros k g [[<- <-]|[_ Hg]]%lookup_insert_Some; [lia|]. apply Hin in Hg. lia.
    + intros k g [[<- <-]|[Hne Hg]]%lookup_insert_Some; [done|]. pose proof (Hin k g Hg). apply Hoth; [unfold max_inode; lia|done|by apply Hino].
    + intros k g [[<- <-]|[_ Hg]]%lookup_insert_Some; [|by apply (Hfile k g)]. split; [|done]. split; [done|]. cbn. unfold NDIRECT. split; [lia|done].
  - intros b Hbl. cbn. rewrite Hlow by lia. done.
Qed.
