(* ===== verification/MkFsProps.v ===== *)
(** * What mkfs builds

    [main] with the files given to it.  The image is a file system as the kernel
    needs it: a superblock, an empty log, a bitmap of the blocks in use, a root
    directory with an entry for each file, and files that can be read. *)

From S2P Require Import Prelude StringC Grep Bytes Sleeplock UserMem Blocks Fs FsSpec FsFile FsRead FsWrite FsWritei MkFs MkFsSpec MkFsImage.

Section Main.
Context {R : Type} (open : list Z -> option R) (read : R -> Z -> option (list Z) * R) (rest : R -> list Z) (Hrd : reader read rest).

Lemma copy_in_ok i fuel : forall s F f r, built s F -> F !! i = Some f -> (length (rest r) < fuel)%nat -> csize f + Z.of_nat (length (rest r)) <= MAXFILE * 1024 ->
  freeblock s + bcost (ceil (csize f + Z.of_nat (length (rest r)))) - bcost (ceil (csize f)) <= FSSIZE -> exists s' F', copy_in read fuel i r s = Ret tt s' /\ grown s s' F F' i f (rest r).
Proof.
  induction fuel as [|fuel IH]; intros s F f r Hb Hi Hf Hmax Hbud; [lia|]. cbn [copy_in]. destruct (rd_ok _ _ Hrd r 1024 ltac:(lia)) as (bs & r' & -> & Hr & _ & Hn). rewrite Hr in Hf, Hmax, Hbud |- *. rewrite length_app in *. destruct bs as [|b bs].
  { destruct Hn as [?|E]; [done|lia|]. rewrite Hr in E. cbn [app] in *. rewrite E. exists s, F. split; [done|]. by apply grown_nil. }
  set (p := b :: bs) in *. assert (Hp : (0 < length p)%nat) by (cbn; lia). clearbody p.
  assert (Hmono : bcost (ceil (csize f + Z.of_nat (length p))) <= bcost (ceil (csize f + Z.of_nat (length p + length (rest r'))))) by (apply bcost_mono; unfold ceil; dlia).
  destruct (iappend_ok s F i f p Hb Hi ltac:(lia) ltac:(lia)) as (s1 & F1 & E1 & G1). destruct (grown_at _ _ _ _ _ _ _ G1) as (f1 & EF & Hi1 & Hb1 & _ & _ & Hc1). pose proof G1 as (_ & _ & _ & _ & _ & _ & Hfb1 & _).
  destruct (IH s1 F1 f1 r' Hb1 Hi1 ltac:(lia) ltac:(lia)) as (s2 & F2 & E2 & G2).
  { rewrite Hc1, Hfb1. replace (csize f + Z.of_nat (length p) + Z.of_nat (length (rest r'))) with (csize f + Z.of_nat (length p + length (rest r'))) by lia. lia. }
  exists s2, F2. split; [|apply (img_grown_trans s s1 s2 F F1 F2); [done|intros g Hg; by replace g with f1 by congruence]].
  transitivity ((iappend i p ;;; copy_in read fuel i r') s); [|by rewrite (bind_ret_l _ _ _ _ _ E1)]. destruct p; [cbn in Hp; lia|done].
Qed.

(** ** The directory *)

Definition contents (arg : list Z) : list Z := match open arg with Some r => rest r | None => [] end.
Definition name_of (arg : list Z) : list Z := strip_underscore (strip_user arg).

(** The entries of [ds], of which the first has the inode number [n]. *)
Fixpoint dir_entries (n : Z) (ds : list (list Z)) : list Z :=
  match ds with
  | [] => []
  | arg :: ds => dirent n (name_of arg) ++ dir_entries (n + 1) ds
  end.

Definition root_dir (ds : list (list Z)) : list Z := dirent 1 [46] ++ dirent 1 [46; 46] ++ dir_entries 2 ds.

Fixpoint costs (ds : list (list Z)) : Z :=
  match ds with
  | [] => 0
  | arg :: ds => bcost (ceil (Z.of_nat (length (contents arg)))) + costs ds
  end.

Lemma dirent_length n name : length (dirent n name) = 16%nat.
Proof. unfold dirent. rewrite length_app, le_bytes_length, length_take, length_app, length_replicate. lia. Qed.

Lemma dir_entries_app ds : forall n ds', dir_entries n (ds ++ ds') = dir_entries n ds ++ dir_entries (n + Z.of_nat (length ds)) ds'.
Proof. induction ds as [|a ds IH]; intros n ds'; cbn [dir_entries app length]; [by rewrite Z.add_0_r|]. rewrite IH, <- app_assoc. do 2 f_equal. f_equal. lia. Qed.

Lemma dir_entries_length ds : forall n, length (dir_entries n ds) = (16 * length ds)%nat.
Proof. induction ds as [|a ds IH]; intros n; cbn [dir_entries length]; [done|]. rewrite length_app, dirent_length, IH. lia. Qed.

Lemma root_length ds : Z.of_nat (length (root_dir ds)) = 16 * (2 + Z.of_nat (length ds)).
Proof. unfold root_dir. rewrite !length_app, !dirent_length, dir_entries_length. lia. Qed.

Lemma root_app ds arg : root_dir (ds ++ [arg]) = root_dir ds ++ dirent (2 + Z.of_nat (length ds)) (name_of arg).
Proof. unfold root_dir. rewrite dir_entries_app. cbn [dir_entries]. by rewrite app_nil_r, !app_assoc. Qed.

Lemma costs_app ds ds' : costs (ds ++ ds') = costs ds + costs ds'.
Proof. induction ds as [|a ds IH]; cbn [costs app]; [done|]. rewrite IH. lia. Qed.

Lemma bcost_nonneg n : 0 <= n -> 0 <= bcost n.
Proof. intros Hn. unfold bcost. destruct (NDIRECT <? n); lia. Qed.

Lemma costs_nonneg ds : 0 <= costs ds.
Proof. induction ds as [|a ds IH]; cbn [costs]; [lia|]. pose proof (bcost_nonneg (ceil (Z.of_nat (length (contents a)))) ltac:(unfold ceil; dlia)). lia. Qed.

(** The files [ds] are in the image. *)
Record loaded (s : image) (F : gmap Z fl) (ds : list (list Z)) : Prop := {
  lo_built : built s F;
  lo_root : exists f, F !! 1 = Some f /\ f_ty f = T_DIR /\ f_c f = root_dir ds;
  lo_files : forall k arg, ds !! k = Some arg -> exists f, F !! (Z.of_nat k + 2) = Some f /\ f_ty f = 2 /\ f_c f = contents arg;
  lo_next : freeinode s = 2 + Z.of_nat (length ds);
  lo_blocks : freeblock s = nmeta + costs ds + bcost (ceil (16 * (2 + Z.of_nat (length ds))))
}.

Definition budget (ds : list (list Z)) : Z := nmeta + costs ds + bcost (ceil (16 * (2 + Z.of_nat (length ds)))).

(** What mkfs needs of an argument. *)
Definition arg_ok (fuel : nat) (arg : list Z) : Prop :=
  47 ∉ strip_user arg /\ is_Some (open arg) /\ Z.of_nat (length (contents arg)) <= MAXFILE * 1024 /\ (length (contents arg) < fuel)%nat.

Lemma add_file_ok fuel s F ds arg : loaded s F ds -> arg_ok fuel arg -> 2 + Z.of_nat (length ds) < NINODES -> budget (ds ++ [arg]) <= FSSIZE ->
  exists s' F', add_file open read fuel 1 arg s = Ret tt s' /\ loaded s' F' (ds ++ [arg]) /\ forall b, b < 32 \/ b = 45 -> sect s' !! b = sect s !! b.
Proof.
  intros [Hb (f0 & Hf0 & Hty0 & Hc0) Hfiles Hnx Hbl] (Hsl & [r Hop] & Hsz & Hfu) Hn Hbud. unfold budget in Hbud. rewrite costs_app, length_app in Hbud. cbn [costs length] in Hbud. unfold NINODES in Hn. pose proof MAXFILE_eq as HM.
  assert (Ec : contents arg = rest r) by (unfold contents; by rewrite Hop). set (n := Z.of_nat (length ds)) in *. set (c := bcost (ceil (Z.of_nat (length (contents arg))))) in *. assert (Hc : 0 <= c) by (apply bcost_nonneg; unfold ceil; dlia).
  assert (Hmono : bcost (ceil (16 * (2 + n))) <= bcost (ceil (16 * (2 + n) + 16))) by (apply bcost_mono; unfold ceil; dlia). replace (16 * (2 + Z.of_nat (length ds + 1))) with (16 * (2 + n) + 16) in Hbud by lia. pose proof (costs_nonneg ds) as Hcs.
  unfold add_file. rewrite decide_False by done. rewrite Hop. destruct (ialloc_ok s F 2 Hb ltac:(unfold max_inode; lia) ltac:(lia)) as (s1 & E1 & Hb1 & HN & Hnx1 & Hfb1 & Hlow1). rewrite (bind_ret_l _ _ _ _ _ E1). set (j := freeinode s) in *.
  assert (Hj : j = n + 2) by lia. set (F1 := <[j := empty_fl 2]> F) in *. assert (Hf1 : F1 !! 1 = Some f0) by (unfold F1; by rewrite lookup_insert_ne by lia). assert (Hcs0 : csize f0 = 16 * (2 + n)) by (unfold csize; rewrite Hc0; apply root_length).
  destruct (iappend_ok s1 F1 1 f0 (dirent j (name_of arg)) Hb1 Hf1) as (s2 & F2 & E2 & G2); [rewrite Hcs0, dirent_length; lia|rewrite Hcs0, dirent_length, Hfb1; change (Z.of_nat 16) with 16; lia|].
  unfold name_of in E2. rewrite (bind_ret_l _ _ _ _ _ E2). fold (name_of arg) in *. destruct (grown_at _ _ _ _ _ _ _ G2) as (f2 & EF2 & Hi2 & Hb2 & Ht2 & Hc2 & _). pose proof G2 as (_ & _ & _ & _ & _ & Hnx2 & Hfb2 & _). rewrite Hcs0, dirent_length in Hfb2. change (Z.of_nat 16) with 16 in Hfb2.
  assert (Hj2 : F2 !! j = Some (empty_fl 2)) by (rewrite EF2, lookup_insert_ne by lia; apply lookup_insert_eq).
  assert (Hcs1 : csize (empty_fl 2) = 0) by done. assert (Hz : bcost (ceil 0) = 0) by done. destruct (copy_in_ok j fuel s2 F2 (empty_fl 2) r Hb2 Hj2) as (s3 & F3 & E3 & G3); [by rewrite <- Ec|rewrite Hcs1, <- Ec; lia|rewrite Hcs1, Hz, <- Ec, Z.add_0_l; fold c; lia|].
  rewrite E3. destruct (grown_at _ _ _ _ _ _ _ G3) as (f3 & EF3 & Hi3 & Hb3 & Ht3 & Hc3 & _). pose proof G3 as (_ & _ & _ & _ & _ & Hnx3 & Hfb3 & _). rewrite Hcs1, Hz, <- Ec, Z.add_0_l in Hfb3. fold c in Hfb3.
  exists s3, F3. split; [done|]. split; [split; [done| | | |]|].
  - exists f2. rewrite EF3, lookup_insert_ne by lia. split_and!; [done|congruence|]. rewrite Hc2, Hc0, root_app. fold n. do 2 f_equal. lia.
  - intros k a Hk. apply lookup_app_Some in Hk as [Hk|[Hge Hk]].
    + destruct (Hfiles k a Hk) as (g & Hg & H1 & H2). exists g. pose proof (lookup_lt_Some _ _ _ Hk). rewrite EF3, lookup_insert_ne, EF2, lookup_insert_ne by lia. unfold F1. by rewrite lookup_insert_ne by lia.
    + apply list_lookup_singleton_Some in Hk as [Hk <-]. exists f3. replace (Z.of_nat k + 2) with j by lia. rewrite Hc3, Ec. by split_and!.
  - rewrite Hnx3, Hnx2, Hnx1, length_app. cbn. lia.
  - rewrite Hfb3, Hfb2, Hfb1, Hbl, costs_app, length_app. cbn [costs length]. fold n. fold c. replace (16 * (2 + Z.of_nat (length ds + 1))) with (16 * (2 + n) + 16) by lia. change (Z.of_nat 16) with 16. lia.
  - intros b Hbb. rewrite (grown_low _ _ _ _ _ _ _ G3), (grown_low _ _ _ _ _ _ _ G2) by done. by apply Hlow1.
Qed.

Lemma add_files_ok fuel args : forall s F ds, loaded s F ds -> Forall (arg_ok fuel) args -> 2 + Z.of_nat (length (ds ++ args)) <= NINODES -> budget (ds ++ args) <= FSSIZE ->
  exists s' F', add_files open read fuel 1 args s = Ret tt s' /\ loaded s' F' (ds ++ args) /\ forall b, b < 32 \/ b = 45 -> sect s' !! b = sect s !! b.
Proof.
  induction args as [|arg args IH]; intros s F ds Hl Ha Hn Hb; cbn [add_files]; [exists s, F; by rewrite app_nil_r|]. inversion_clear Ha as [|? ? Ha1 Ha2]. replace (ds ++ arg :: args) with ((ds ++ [arg]) ++ args) in * by (by rewrite <- app_assoc).
  assert (Hb1 : budget (ds ++ [arg]) <= FSSIZE). { unfold budget in *. rewrite (costs_app (ds ++ [arg]) args) in Hb. pose proof (costs_nonneg args). pose proof (bcost_mono (ceil (16 * (2 + Z.of_nat (length (ds ++ [arg]))))) (ceil (16 * (2 + Z.of_nat (length ((ds ++ [arg]) ++ args))))) ltac:(rewrite (length_app (ds ++ [arg])); unfold ceil; dlia)). lia. }
  destruct (add_file_ok fuel s F ds arg Hl Ha1) as (s1 & F1 & E1 & Hl1 & Hlow1); [rewrite !length_app in Hn; cbn in Hn; lia|done|]. destruct (IH s1 F1 (ds ++ [arg]) Hl1 Ha2 Hn Hb) as (s2 & F2 & E2 & Hl2 & Hlow2).
  exists s2, F2. rewrite (bind_ret_l _ _ _ _ _ E1). split_and!; [done|done|]. intros b Hbb. by rewrite Hlow2, Hlow1.
Qed.

(** ** The empty image *)

Lemma wzeroes_ok n : forall i s, 0 <= i -> i + Z.of_nat n <= FSSIZE ->
  exists m, wzeroes n i s = Ret tt (mkimg m (freeinode s) (freeblock s)) /\ forall b, m !! b = if decide (i <= b < i + Z.of_nat n) then Some zeros else sect s !! b.
Proof.
  induction n as [|n IH]; intros i s Hi Hn; cbn [wzeroes].
  - exists (sect s). split; [by destruct s|]. intros b. by rewrite decide_False by lia.
  - rewrite (bind_ret_l _ _ _ _ _ (wsect_ok s i _ ltac:(lia))). destruct (IH (i + 1) (mkimg (<[i := zeroes]> (sect s)) (freeinode s) (freeblock s)) ltac:(lia) ltac:(lia)) as (m & E & Hm). exists m. split; [exact E|].
    intros b. rewrite Hm. cbn [sect]. destruct (decide (b = i)) as [->|Hne]; [rewrite decide_False by lia; rewrite decide_True by lia; apply lookup_insert_eq|]. rewrite lookup_insert_ne by done. by repeat case_decide; try lia.
Qed.

Definition super_block : list Z := splice 0 sb_bytes zeroes.

Lemma super_ok : length super_block = bsize /\ get_super super_block = sb.
Proof. split; vm_compute; reflexivity. Qed.

Lemma empty_built m : (forall b, 0 <= b < FSSIZE -> m !! b = if decide (b = 1) then Some super_block else Some zeros) -> built (mkimg m 1 nmeta) ∅.
Proof.
  intros Hm. split; cbn [sect freeinode freeblock]; try done; [|by rewrite (Hm 0)]. exists ∅. split; try done.
  - intros b Hb. rewrite (Hm b Hb). case_decide; (eexists; split; [done|]); [apply super_ok|done].
  - intros b Hb. rewrite nmeta_eq in Hb. rewrite Hm by lia. by rewrite decide_False by lia.
Qed.

(** Up to the directory with its two first entries. *)
Lemma start_ok (s0 : image) (k : Z -> M image unit) : freeinode s0 = 1 -> exists s F, loaded s F [] /\
  (modify (fun s => mkimg (sect s) (freeinode s) nmeta) ;;;
   wzeroes (Z.to_nat FSSIZE) 0 ;;;
   wsect 1 (splice 0 sb_bytes zeroes) ;;;
   rootino <- ialloc T_DIR ;;
   if negb (rootino =? ROOTINO) then panic "assert" else
   iappend rootino (dirent rootino [46]) ;;;
   iappend rootino (dirent rootino [46; 46]) ;;;
   k rootino) s0 = k 1 s /\ (forall b, 0 <= b < 32 \/ b = 45 -> sect s !! b = if decide (b = 1) then Some super_block else Some zeros).
Proof.
  intros Hfi. unfold modify. rewrite (bind_ret_l _ _ s0 tt (mkimg (sect s0) 1 nmeta)) by (by rewrite <- Hfi). destruct (wzeroes_ok (Z.to_nat FSSIZE) 0 (mkimg (sect s0) 1 nmeta) ltac:(lia)) as (m & E0 & Hm); [unfold FSSIZE; lia|]. rewrite (bind_ret_l _ _ _ _ _ E0). cbn [freeinode freeblock].
  rewrite (bind_ret_l _ _ _ _ _ (wsect_ok _ 1 _ ltac:(unfold FSSIZE; lia))). cbn [freeinode freeblock sect]. fold super_block. set (m1 := <[1 := super_block]> m).
  assert (Hm1 : forall b, 0 <= b < FSSIZE -> m1 !! b = if decide (b = 1) then Some super_block else Some zeros). { intros b Hb. unfold m1. case_decide as E; [subst; apply lookup_insert_eq|]. rewrite lookup_insert_ne by done. rewrite Hm. by rewrite decide_True by lia. }
  set (s1 := mkimg m1 1 nmeta). pose proof (empty_built m1 Hm1) as Hb1. destruct (ialloc_ok s1 ∅ T_DIR Hb1 ltac:(done) ltac:(done)) as (s2 & E2 & Hb2 & _ & Hnx2 & Hfb2 & Hlow2). cbn [s1 freeinode freeblock] in *. rewrite (bind_ret_l _ _ _ _ _ E2). change (negb (1 =? ROOTINO)) with false. cbv iota.
  set (F2 := <[1 := empty_fl T_DIR]> (∅ : gmap Z fl)) in *. assert (Hi2 : F2 !! 1 = Some (empty_fl T_DIR)) by apply lookup_insert_eq. pose proof MAXFILE_eq as HM.
  destruct (iappend_ok s2 F2 1 (empty_fl T_DIR) (dirent 1 [46]) Hb2 Hi2) as (s3 & F3 & E3 & G3); [rewrite dirent_length; unfold csize; cbn; lia|rewrite dirent_length, Hfb2; done|]. rewrite (bind_ret_l _ _ _ _ _ E3).
  destruct (grown_at _ _ _ _ _ _ _ G3) as (f3 & EF3 & Hi3 & Hb3 & Ht3 & Hc3 & Hs3). pose proof G3 as (_ & _ & _ & _ & _ & Hnx3 & Hfb3 & _). rewrite dirent_length in *. change (csize (empty_fl T_DIR)) with 0 in *.
  destruct (iappend_ok s3 F3 1 f3 (dirent 1 [46; 46]) Hb3 Hi3) as (s4 & F4 & E4 & G4); [rewrite dirent_length, Hs3; lia|rewrite dirent_length, Hs3, Hfb3, Hfb2; done|]. rewrite (bind_ret_l _ _ _ _ _ E4).
  destruct (grown_at _ _ _ _ _ _ _ G4) as (f4 & EF4 & Hi4 & Hb4 & Ht4 & Hc4 & Hs4). pose proof G4 as (_ & _ & _ & _ & _ & Hnx4 & Hfb4 & _). rewrite dirent_length in *. exists s4, F4. split_and!; [split; [done| |done| |]|done|].
  - exists f4. split_and!; [done|by rewrite Ht4, Ht3|]. rewrite Hc4, Hc3. unfold root_dir. cbn [dir_entries f_c empty_fl app]. by rewrite app_nil_r.
  - by rewrite Hnx4, Hnx3, Hnx2.
  - rewrite Hfb4, Hfb3, Hfb2, Hs3. reflexivity.
  - intros b Hb. rewrite (grown_low _ _ _ _ _ _ _ G4), (grown_low _ _ _ _ _ _ _ G3), Hlow2 by lia. apply Hm1. unfold FSSIZE. lia.
Qed.
End Main.

(** ** The image *)

Lemma mark_used_ok n : forall i buf, 0 <= i -> i + Z.of_nat n <= BPB -> length buf = bsize ->
  length (mark_used n i buf) = bsize /\ forall b, 0 <= b -> bit_in (mark_used n i buf) b = if decide (i <= b < i + Z.of_nat n) then Some true else bit_in buf b.
Proof.
  induction n as [|n IH]; intros i buf Hi Hn Hl; cbn [mark_used]; [split; [done|]; intros b Hb; by rewrite decide_False by lia|].
  assert (Hr : 0 <= i / 8 < Z.of_nat (length buf)) by (rewrite Hl; unfold bsize, BPB in *; dlia). destruct (aget_is_Some buf (i / 8) Hr) as [x Hx]. rewrite Hx. change (default 0 (Some x)) with x. set (buf' := <[_ := _]> buf).
  destruct (IH (i + 1) buf' ltac:(lia) ltac:(lia) ltac:(unfold buf'; by rewrite length_insert)) as [H1 H2]. split; [done|]. intros b Hb. rewrite H2 by done.
  assert (Hbit : bit_in buf' b = if decide (b = i) then Some true else bit_in buf b).
  { apply (bit_in_update buf i b x (Z.lor x (bmask i))); [done|done|done|by apply aset_is_Some|]. intros k Hk. by apply set_bit_spec. }
  rewrite Hbit. repeat case_decide; try lia; done.
Qed.

Lemma zeros_bit b : 0 <= b < BPB -> bit_in zeros b = Some false.
Proof.
  intros Hb. unfold bit_in. destruct (aget zeros (b / 8)) as [x|] eqn:E; [|exfalso; destruct (aget_is_Some zeros (b / 8)) as [x E']; [change (Z.of_nat (length zeros)) with 1024; unfold BPB in Hb; dlia|congruence]].
  apply aget_lookup in E. unfold zeros in E. apply lookup_replicate in E as [-> _]. cbn. by rewrite Z.land_0_l.
Qed.

(** The blocks behind the log. *)
Definition view (m : gmap Z (list Z)) : gmap Z (list Z) := filter (fun p => 32 <= p.1 < FSSIZE) m.

Lemma view_at m b : view m !! b = if decide (32 <= b < FSSIZE) then m !! b else None.
Proof. unfold view. rewrite map_lookup_filter. destruct (m !! b) as [d|]; cbn; [|by case_decide]. case_decide; [by rewrite option_guard_True|by rewrite option_guard_False]. Qed.

(** The image at the end: files [F] in blocks [own], a bitmap of the first [used]. *)
Record finished (m : gmap Z (list Z)) (own : gmap Z place) (used : Z) (F : gmap Z fl) : Prop := {
  fi_body : body m own used F;
  fi_bits : exists d, m !! 45 = Some d /\ forall b, 0 <= b < BPB -> bit_in d b = Some (b <? used);
  fi_boot : m !! 0 = Some zeros
}.

Section Finished.
Context (m : gmap Z (list Z)) (own : gmap Z place) (used : Z) (F : gmap Z fl) (Hfin : finished m own used F).

Let Hb := fi_body _ _ _ _ Hfin.

Lemma BBLOCK_sb b : 0 <= b < FSSIZE -> BBLOCK b sb = 45.
Proof. intros H. unfold BBLOCK, BPB. change (sb_bmapstart sb) with 45. rewrite Z.div_small by (unfold FSSIZE in H; lia). done. Qed.

Lemma bit_view b : 0 <= b < FSSIZE -> bit (view m) sb b = Some (b <? used).
Proof.
  intros H. unfold bit. rewrite BBLOCK_sb, view_at, decide_True by (done || (unfold FSSIZE; lia)). destruct (fi_bits _ _ _ _ Hfin) as (d & -> & Hd). cbn. rewrite Z.mod_small by (unfold FSSIZE, BPB in *; lia). apply Hd. unfold FSSIZE, BPB in *. lia.
Qed.

Lemma view_disk_ok : disk_ok (view m) sb.
Proof.
  pose proof (bd_fb _ _ _ _ Hb) as Hfb. rewrite nmeta_eq in Hfb. split; change (sb_size sb) with FSSIZE; [done|done|by rewrite view_at| | | |].
  - intros b d. rewrite view_at. case_decide; [|done]. intros Hd. destruct (bd_len _ _ _ _ Hb b ltac:(lia)) as (e & He & Hl). congruence.
  - intros b H. rewrite BBLOCK_sb, view_at by done. destruct (bd_len _ _ _ _ Hb 45 ltac:(unfold FSSIZE; lia)) as (d & -> & _). by eexists.
  - intros b H. rewrite bit_view by done. intros [= E%Z.ltb_ge]. rewrite view_at, decide_True by lia. destruct (bd_len _ _ _ _ Hb b H) as (d & -> & _). by eexists.
  - intros b b' H H'. rewrite bit_view by done. intros [= E%Z.ltb_ge]. rewrite BBLOCK_sb by done. lia.
Qed.

(** Blocks of files, and of inodes, are in use. *)
Lemma view_good x : 32 <= x < used -> x <> 45 -> good (view m) sb x.
Proof.
  intros Hx Hne. pose proof (bd_fb _ _ _ _ Hb) as Hfb. split; [change (sb_size sb) with FSSIZE; lia|rewrite bit_view by lia; f_equal; lia| |].
  - rewrite view_at, decide_True by lia. destruct (bd_len _ _ _ _ Hb x ltac:(lia)) as (d & -> & _). by eexists.
  - intros (b & Hbb & E). change (sb_size sb) with FSSIZE in Hbb. rewrite BBLOCK_sb in E by done. lia.
Qed.

Lemma own_good x p : own !! x = Some p -> good (view m) sb x /\ x <> 0 /\ nmeta <= x.
Proof. intros Hx%(bd_own _ _ _ _ Hb). rewrite nmeta_eq in *. split_and!; [apply view_good; lia|lia|lia]. Qed.

Context (j : Z) (f : fl) (Hj : F !! j = Some f).

Let Hf := bd_file _ _ _ _ Hb j f Hj.

Lemma view_own x p : own !! x = Some p -> view m !! x = m !! x.
Proof. intros Hx%(bd_own _ _ _ _ Hb). pose proof (bd_fb _ _ _ _ Hb) as Hfb. rewrite nmeta_eq in *. rewrite view_at. by rewrite decide_True by lia. Qed.

Lemma blockof_view bn : blockof (view m) (f_a f) bn = blockof m (f_a f) bn.
Proof.
  unfold blockof. destruct (bn <? NDIRECT); [done|]. destruct (fa_ind _ _ _ _ Hf) as [[-> _]|Hx]; [|by rewrite (view_own _ _ Hx)]. rewrite view_at, (fi_boot _ _ _ _ Hfin). rewrite decide_False by lia. by rewrite zeros_word.
Qed.

Lemma fbyte_view off : 0 <= off < 1024 * f_n f -> fbyte (view m) (f_a f) off = fbyte m (f_a f) off.
Proof.
  intros Ho. unfold fbyte. rewrite blockof_view. pose proof (fa_size _ _ _ _ Hf) as [_ Hn]. pose proof (fa_blk _ _ _ _ Hf (off / 1024) ltac:(dlia)) as Hx. rewrite decide_True in Hx by dlia. by rewrite (view_own _ _ Hx).
Qed.

Lemma view_file_ok : file_ok (view m) sb (f_a f).
Proof.
  split; [apply Hf| | |].
  - intros Hne. destruct (fa_ind _ _ _ _ Hf) as [[? _]|Hx]; [done|]. by apply (own_good _ _ Hx).
  - intros bn Hbn. rewrite blockof_view. pose proof (fa_blk _ _ _ _ Hf bn Hbn) as Hx. case_decide; [|done]. intros _. split; [by apply (own_good _ _ Hx)|].
    intros E. destruct (fa_ind _ _ _ _ Hf) as [[E' _]|Hi]; [rewrite E, E' in Hx; by apply own_good in Hx as (_ & ? & _)|]. rewrite E in Hx. congruence.
  - intros bn bn' Hbn Hbn'. rewrite !blockof_view. intros Hne E. pose proof (fa_blk _ _ _ _ Hf bn Hbn) as Hx. case_decide; [|done]. apply (fileat_inj _ _ _ _ _ _ Hf); [lia|done|done|by apply (own_zero _ _ _ _ Hb)].
Qed.

(** Everything a file owns was given to it. *)
Lemma owned_place y : owned (view m) (f_a f) y -> exists pl, own !! y = Some (j, pl).
Proof.
  intros [Hy [E|(bn & Hbn & E)]].
  - destruct (fa_ind _ _ _ _ Hf) as [[? _]|Hx]; [congruence|]. exists None. by rewrite <- E.
  - rewrite blockof_view in E. pose proof (fa_blk _ _ _ _ Hf bn Hbn) as Hx. case_decide; [|congruence]. exists (Some bn). by rewrite <- E.
Qed.

(** The file as the kernel wants it, of any size up to the end of its blocks. *)
Lemma view_file_state size : 0 <= size <= 1024 * f_n f -> 1 <= j < max_inode -> short (f_ty f) -> file_state (view m) sb (mkin 0 j 1 sl_free true (mkdi (f_ty f) 0 0 1 size (f_a f))).
Proof.
  intros Hs Hjr Hsh. pose proof (IBLOCK_eq j ltac:(lia)) as [_ HI]. pose proof (bd_fb _ _ _ _ Hb) as Hfb. rewrite nmeta_eq in Hfb. pose proof (fa_size _ _ _ _ Hf) as [_ Hn].
  split; cbn [i_d i_inum di_addrs di_size di_type di_major di_minor di_nlink]; [apply view_disk_ok|apply view_file_ok|lia| |lia| |done].
  - intros bn H1 H2. rewrite blockof_view. pose proof (fa_blk _ _ _ _ Hf bn ltac:(lia)) as Hx. rewrite decide_True in Hx by lia. by apply (own_good _ _ Hx).
  - split_and!; [apply view_good; lia|lia|]. intros (pl & Hx)%owned_place. apply own_good in Hx as (_ & _ & Hx). rewrite nmeta_eq in Hx. lia.
Qed.

(** Its bytes: the contents, and zeros behind them. *)
Lemma view_data n : (length (f_c f) <= n)%nat -> Z.of_nat n <= 1024 * f_n f -> fdata (view m) (f_a f) 0 n = f_c f ++ replicate (n - length (f_c f)) 0.
Proof.
  intros Hn Hmax. apply list_eq. intros k. destruct (decide (k < n)%nat) as [Hk|Hk].
  - rewrite fdata_lookup by done. rewrite Z.add_0_l, fbyte_view by lia. destruct (f_c f !! k) as [x|] eqn:E.
    + rewrite (lookup_app_l_Some _ _ _ _ E). f_equal. by apply (fa_byte _ _ _ _ Hf).
    + apply lookup_ge_None in E. rewrite lookup_app_r by lia. rewrite lookup_replicate_2 by lia. f_equal. apply (fa_tail _ _ _ _ Hf). unfold csize. lia.
  - rewrite !lookup_ge_None_2; [done|rewrite length_app, length_replicate; lia|rewrite fdata_length; lia].
Qed.
End Finished.

(** ** The whole program *)

(** The size of the root directory, rounded up. *)
Definition root_size (n : Z) : Z := (16 * (2 + n) / 1024 + 1) * 1024.

(** A file [inum] with inode [di] and contents [c]. *)
Definition has_file (v : gmap Z (list Z)) (inum : Z) (di : dinode) (c : list Z) : Prop :=
  on_disk v sb inum di /\ file_state v sb (mkin 0 inum 1 sl_free true di) /\ fdata v (di_addrs di) 0 (Z.to_nat (di_size di)) = c.

Section Whole.
Context {R : Type} (open : list Z -> option R) (read : R -> Z -> option (list Z) * R) (rest : R -> list Z) (Hrd : reader read rest).

Lemma on_disk_view m inum di : 0 <= inum < max_inode -> on_disk m sb inum di -> on_disk (view m) sb inum di.
Proof. intros Hi (d & Hd & E). exists d. split; [|done]. pose proof (IBLOCK_eq inum Hi). rewrite view_at. by rewrite decide_True by (unfold FSSIZE; lia). Qed.

(** The end of [main]. *)
Lemma finish_ok s F args : loaded open rest s F args -> 2 + Z.of_nat (length args) <= NINODES ->
  exists m' own f, (din <- rinode 1 ;; winode 1 (set_di_size (xint ((xint (di_size din) / BLK + 1) * BLK)) din) ;;; used <- gets freeblock ;; balloc used) s = Ret tt (mkimg m' (freeinode s) (freeblock s)) /\
    finished m' own (freeblock s) F /\ F !! 1 = Some f /\ f_ty f = 1 /\ f_c f = root_dir args /\ tight f /\ on_disk m' sb 1 (mkdi 1 0 0 1 (root_size (Z.of_nat (length args))) (f_a f)) /\
    (forall i g, F !! i = Some g -> i <> 1 -> on_disk m' sb i (dino g)) /\ forall b, b < 32 -> m' !! b = sect s !! b.
Proof.
  intros [Hbu (f & Hf & Hty & Hc) _ Hnx Hbl] Hn. pose proof Hbu as [(own & Hb) Hnx' Hin Hino Hfile H0]. destruct (Hfile 1 f Hf) as [Ht Hsh]. unfold NINODES in Hn. assert (Hcs : csize f = 16 * (2 + Z.of_nat (length args))) by (unfold csize; rewrite Hc; apply root_length).
  pose proof (bd_fb _ _ _ _ Hb) as Hfb. rewrite nmeta_eq in Hfb. rewrite (bind_ret_l _ _ _ _ _ (rinode_ok s 1 f ltac:(unfold max_inode; lia) (Hino 1 f Hf))). cbn [di_size dino]. rewrite Hcs. change BLK with 1024. rewrite (xint_id (16 * _)) by lia. fold (root_size (Z.of_nat (length args))).
  assert (Hrs : 0 <= root_size (Z.of_nat (length args)) < 2 ^ 32) by (unfold root_size; dlia). rewrite xint_id by done. set (di := set_di_size _ _). assert (Hok : dinode_ok di) by (destruct (dino_ok _ _ _ _ _ _ Hb (bd_file _ _ _ _ Hb 1 f Hf) Hsh); split; done).
  destruct (winode_ok s own F 1 di Hb ltac:(unfold max_inode; lia) Hok) as (m1 & E1 & Hb1 & Hd1 & Hoth & Hlow). rewrite (bind_ret_l _ _ _ _ _ E1). unfold gets. rewrite (bind_ret_l _ _ _ (freeblock s) (mkimg m1 (freeinode s) (freeblock s))) by done. unfold balloc. rewrite (proj2 (Z.ltb_lt _ _)) by (unfold BLK, FSSIZE in *; lia). cbn [negb].
  change (sb_bmapstart sb) with 45. set (bits := mark_used _ _ _). rewrite wsect_ok by (unfold FSSIZE; lia). cbn [sect freeinode freeblock]. destruct (mark_used_ok (Z.to_nat (freeblock s)) 0 zeroes ltac:(lia) ltac:(unfold BPB, FSSIZE in *; lia) eq_refl) as [Hlb Hbits]. fold bits in Hlb, Hbits.
  assert (Hmeta : forall i g, on_disk m1 sb i g -> 0 <= i < max_inode -> on_disk (<[45 := bits]> m1) sb i g) by (intros i g (d & Hd & E) Hi; exists d; pose proof (IBLOCK_eq i Hi); by rewrite lookup_insert_ne by lia).
  exists (<[45 := bits]> m1), own, f. split; [done|]. split; [split|split_and!; try done].
  - apply body_meta; [done|rewrite nmeta_eq; lia|done].
  - exists bits. split; [apply lookup_insert_eq|]. intros b Hb'. rewrite Hbits, Z.add_0_l by lia. case_decide; [f_equal; symmetry; apply Z.ltb_lt; lia|]. rewrite (zeros_bit b Hb' : bit_in zeroes b = Some false). f_equal. symmetry. apply Z.ltb_ge. lia.
  - rewrite lookup_insert_ne, Hlow by lia. done.
  - apply Hmeta; [|unfold max_inode; lia]. unfold di, dino, set_di_size in Hd1. cbn [di_type di_major di_minor di_nlink di_addrs] in Hd1. by rewrite Hty in Hd1.
  - intros i g Hi Hne. pose proof (Hin i g Hi). apply Hmeta; [apply Hoth; [lia|done|by apply Hino]|lia].
  - intros b Hbb. rewrite lookup_insert_ne, Hlow by lia. done.
Qed.

(** The files of the finished image. *)
Lemma image_files m own F s args f : finished m own (freeblock s) F -> loaded open rest s F args -> let n := Z.of_nat (length args) in 2 + n <= 200 -> (2 + n) mod 64 <> 0 -> F !! 1 = Some f -> f_ty f = 1 -> f_c f = root_dir args -> tight f ->
  on_disk m sb 1 (mkdi 1 0 0 1 (root_size n) (f_a f)) -> (forall i g, F !! i = Some g -> i <> 1 -> on_disk m sb i (dino g)) -> let v := view m in
  (exists a, has_file v 1 (mkdi 1 0 0 1 (root_size n) a) (root_dir args ++ replicate (Z.to_nat (root_size n - 16 * (2 + n))) 0)) /\
  (forall k arg, args !! k = Some arg -> let c := contents open rest arg in exists a, has_file v (Z.of_nat k + 2) (mkdi 2 0 0 1 (Z.of_nat (length c)) a) c) /\
  (forall i j di dj y, 1 <= i < 2 + n -> 1 <= j < 2 + n -> i <> j -> on_disk v sb i di -> on_disk v sb j dj -> owned v (di_addrs di) y -> owned v (di_addrs dj) y -> False).
Proof.
  intros Hfin Hl n Hn Hm Hf Hty Hc [Ht _] Hd Hino v. pose proof (root_length args) as Hrl. fold n in Hrl. assert (Hcs : csize f = 16 * (2 + n)) by (unfold csize; by rewrite Hc). assert (Hrs : root_size n = 1024 * f_n f /\ 16 * (2 + n) <= root_size n) by (rewrite Ht, Hcs; unfold root_size; dlia).
  assert (Hall : forall i, 1 <= i < 2 + n -> exists g di, F !! i = Some g /\ on_disk v sb i di /\ di_addrs di = f_a g).
  { intros i Hi. destruct (decide (i = 1)) as [->|Hne]; [exists f; eexists; split_and!; [done|apply on_disk_view; [unfold max_inode; lia|exact Hd]|done]|].
    destruct (lookup_lt_is_Some_2 args (Z.to_nat (i - 2))) as [arg Harg]; [lia|]. destruct (lo_files _ _ _ _ _ Hl _ _ Harg) as (g & Hg & _). replace (Z.of_nat (Z.to_nat (i - 2)) + 2) with i in Hg by lia. exists g. eexists. split_and!; [done|apply on_disk_view; [unfold max_inode; lia|by apply (Hino i g Hg)]|done]. }
  split_and!.
  - exists (f_a f). split_and!; [apply on_disk_view; [unfold max_inode; lia|exact Hd]|pose proof (view_file_state _ _ _ _ Hfin 1 f Hf (root_size n) ltac:(unfold root_size in *; dlia) ltac:(done) ltac:(by rewrite Hty)) as H; by rewrite Hty in H|].
    cbn [di_addrs di_size]. rewrite (view_data _ _ _ _ Hfin 1 f Hf), Hc by (rewrite ?Hc; lia). do 2 f_equal. lia.
  - intros k arg Hk c. destruct (lo_files _ _ _ _ _ Hl k arg Hk) as (g & Hg & Hgt & Hgc). pose proof (lookup_lt_Some _ _ _ Hk) as Hlt. destruct (bu_file _ _ (lo_built _ _ _ _ _ Hl) _ _ Hg) as [[Hgn _] _]. exists (f_a g). fold c in Hgc. assert (Hgs : csize g = Z.of_nat (length c)) by (unfold csize; by rewrite Hgc).
    assert (Hle : Z.of_nat (length c) <= 1024 * f_n g) by (rewrite Hgn, Hgs; dlia). split_and!.
    + apply on_disk_view; [unfold max_inode; lia|]. pose proof (Hino _ g Hg ltac:(lia)) as H. unfold dino in H. by rewrite Hgt, Hgs in H.
    + pose proof (view_file_state _ _ _ _ Hfin _ g Hg (Z.of_nat (length c)) ltac:(lia) ltac:(unfold max_inode; lia) ltac:(by rewrite Hgt)) as H. by rewrite Hgt in H.
    + cbn [di_addrs di_size]. rewrite (view_data _ _ _ _ Hfin _ g Hg), Hgc by (rewrite ?Hgc; lia). replace (Z.to_nat (Z.of_nat (length c)) - length c)%nat with 0%nat by lia. apply app_nil_r.
  - intros i j di dj y Hi Hj Hne Hdi Hdj Hoi Hoj. destruct (Hall i Hi) as (gi & di' & Hgi & Hdi' & Hai). destruct (Hall j Hj) as (gj & dj' & Hgj & Hdj' & Haj).
    assert (di' = di) as -> by (destruct Hdi as (d & H1 & <-), Hdi' as (d' & H2 & <-); congruence). assert (dj' = dj) as -> by (destruct Hdj as (d & H1 & <-), Hdj' as (d' & H2 & <-); congruence). rewrite Hai in Hoi. rewrite Haj in Hoj.
    destruct (owned_place _ _ _ _ Hfin i gi Hgi y Hoi) as [p1 Hp1]. destruct (owned_place _ _ _ _ Hfin j gj Hgj y Hoj) as [p2 Hp2]. congruence.
Qed.
End Whole.

(** C19: mkfs, given files that can be opened, are not too large and together fit on
    the disk, returns an image with the superblock in block 1, an empty log, and a
    bitmap and inodes with which the kernel's invariants hold: the root directory
    has an entry for every file, in order and followed by empty entries, every
    file has its contents, and no block belongs to two files.  Only the number of
    files with [.] and [..] must not be a multiple of 64. *)
Theorem mkfs_spec {R} (open : list Z -> option R) (read : R -> Z -> option (list Z) * R) (rest : R -> list Z) fuel args :
  reader read rest -> Forall (arg_ok open rest fuel) args -> let n := Z.of_nat (length args) in
  2 + n <= NINODES -> (2 + n) mod 64 <> 0 -> budget open rest args <= FSSIZE ->
  exists s, main open read fuel args (mkimg ∅ 1 0) = Ret tt s /\ let v := view (sect s) in
    (exists d, sect s !! 1 = Some d /\ get_super d = sb) /\ (forall b, 2 <= b < 2 + nlog -> sect s !! b = Some zeros) /\ disk_ok v sb /\
    (exists a, has_file v 1 (mkdi 1 0 0 1 (root_size n) a) (root_dir args ++ replicate (Z.to_nat (root_size n - 16 * (2 + n))) 0)) /\
    (forall k arg, args !! k = Some arg -> let c := contents open rest arg in exists a, has_file v (Z.of_nat k + 2) (mkdi 2 0 0 1 (Z.of_nat (length c)) a) c) /\
    (forall i j di dj y, 1 <= i < 2 + n -> 1 <= j < 2 + n -> i <> j -> on_disk v sb i di -> on_disk v sb j dj -> owned v (di_addrs di) y -> owned v (di_addrs dj) y -> False).
Proof.
  intros Hrd Ha n Hn Hm Hbud. unfold NINODES in Hn.
  destruct (start_ok open rest (mkimg ∅ 1 0) (fun r => add_files open read fuel r args ;;; din <- rinode r ;; winode r (set_di_size (xint ((xint (di_size din) / BLK + 1) * BLK)) din) ;;; used <- gets freeblock ;; balloc used) eq_refl) as (s1 & F1 & Hl1 & E1 & Hlow1).
  destruct (add_files_ok open read rest Hrd fuel args s1 F1 [] Hl1 Ha Hn Hbud) as (s2 & F2 & E2 & Hl2 & Hlow2). cbn [app] in Hl2.
  destruct (finish_ok open rest s2 F2 args Hl2 Hn) as (m & own & f & E3 & Hfin & Hf & Hty & Hc & Ht & Hd & Hino & Hlow3). exists (mkimg m (freeinode s2) (freeblock s2)).
  split; [unfold main; rewrite E1, (bind_ret_l _ _ _ _ _ E2); exact E3|]. cbn [sect].
  assert (Hlow : forall b, 0 <= b < 32 -> m !! b = if decide (b = 1) then Some super_block else Some zeros) by (intros b Hb; rewrite Hlow3, Hlow2 by lia; apply Hlow1; lia).
  destruct (image_files open rest m own F2 s2 args f Hfin Hl2 Hn Hm Hf Hty Hc Ht Hd Hino) as (G1 & G2 & G3).
  split_and!; [exists super_block; rewrite Hlow by lia; split; [done|apply super_ok]| |by apply (view_disk_ok _ _ _ _ Hfin)|exact G1|exact G2|exact G3].
  intros b Hb. change nlog with 30 in Hb. rewrite Hlow by lia. by rewrite decide_False by lia.
Qed.

(** One file, [user/_hi], with two bytes. *)
Definition demo_open (arg : list Z) : option (list Z) := Some [104; 105].
Definition demo_args : list (list Z) := [[117; 115; 101; 114; 47; 95; 104; 105]].

Lemma demo_arg_ok : Forall (arg_ok demo_open (fun l => l) 3) demo_args.
Proof.
  repeat constructor; [|by eexists|by rewrite MAXFILE_eq]. change (strip_user [117; 115; 101; 114; 47; 95; 104; 105]) with [95; 104; 105].
  intros H. repeat (apply elem_of_cons in H as [H|H]; [discriminate H|]). by apply elem_of_nil in H.
Qed.

Lemma mkfs_spec_witness : exists s, main demo_open read3 3 demo_args (mkimg ∅ 1 0) = Ret tt s /\ let v := view (sect s) in
    (exists d, sect s !! 1 = Some d /\ get_super d = sb) /\ (forall b, 2 <= b < 2 + nlog -> sect s !! b = Some zeros) /\ disk_ok v sb /\
    (exists a, has_file v 1 (mkdi 1 0 0 1 1024 a) (root_dir demo_args ++ replicate 976 0)) /\
    (forall k arg, demo_args !! k = Some arg -> exists a, has_file v (Z.of_nat k + 2) (mkdi 2 0 0 1 2 a) [104; 105]) /\
    (forall i j di dj y, 1 <= i < 3 -> 1 <= j < 3 -> i <> j -> on_disk v sb i di -> on_disk v sb j dj -> owned v (di_addrs di) y -> owned v (di_addrs dj) y -> False).
Proof.
  assert (H1 : 2 + Z.of_nat (length demo_args) <= NINODES) by done. assert (H2 : (2 + Z.of_nat (length demo_args)) mod 64 <> 0) by done. assert (H3 : budget demo_open (fun l => l) demo_args <= FSSIZE) by done.
  exact (mkfs_spec demo_open read3 (fun l => l) 3 demo_args read3_reader demo_arg_ok H1 H2 H3).
Defined.
