(* ===== verification/Sh.v ===== *)
(** * user/sh.c: the parser of the shell

    The parsers share the pointer [*ps] into the command line, the state of the
    monad; the command line itself is memory, read only until [nulterminate].
    Every parser spends fuel on recursive calls and loops.  A call of the shell's
    [panic] ends the process.  [malloc] is taken to succeed: a command is a value
    of the inductive type, with the pointers into the command line that the code
    stores. *)

From S2P Require Import Prelude StringC.

Definition O_RDONLY : Z := 0.
Definition O_WRONLY : Z := 1.
Definition O_CREATE : Z := 512.

Definition MAXARGS : Z := 10.

(** [argv] and [eargv] of [struct execcmd] as a list of pairs, without the final
    zero entry. *)
Inductive cmd :=
| ExecCmd (args : list (Z * Z))
| RedirCmd (c : cmd) (file efile mode fd : Z)
| PipeCmd (left right : cmd)
| ListCmd (left right : cmd)
| BackCmd (c : cmd).

Definition execcmd : cmd := ExecCmd [].
Definition redircmd (subcmd : cmd) (file efile mode fd : Z) : cmd := RedirCmd subcmd file efile mode fd.
Definition pipecmd (left right : cmd) : cmd := PipeCmd left right.
Definition listcmd (left right : cmd) : cmd := ListCmd left right.
Definition backcmd (subcmd : cmd) : cmd := BackCmd subcmd.

Definition whitespace : list Z := [32; 9; 13; 10; 11].
Definition symbols : list Z := [60; 124; 62; 38; 59; 40; 41].

(** [strchr(l, c) != 0] for a string constant. *)
Definition among (l : list Z) (c : Z) : bool := bool_decide (c ∈ l).

Section Parse.
Context (m : mem) (es : Z).

Abbreviation P := (M Z).

(** [while(s < es && p( *s)) s++;] *)
Fixpoint skip_loop (p : Z -> bool) (n : nat) (s : Z) : P Z :=
  match n with
  | O => ret s
  | S n => c <- unwrap (ld m s) ;; if p c then skip_loop p n (s + 1) else ret s
  end.

Definition skip (p : Z -> bool) (s : Z) : P Z := skip_loop p (Z.to_nat (es - s)) s.

Definition set_ps (s : Z) : P unit := fun _ => Ret tt s.

(** The token, and its start and end. *)
Definition gettoken : P (Z * Z * Z) :=
  s <- gets (fun s => s) ;;
  s <- skip (among whitespace) s ;;
  let q := s in
  c <- unwrap (ld m s) ;;
  rs <- (if c =? 0 then ret (c, s)
         else if among [124; 40; 41; 59; 38; 60] c then ret (c, s + 1)
         else if c =? 62 then
           c2 <- unwrap (ld m (s + 1)) ;;
           if c2 =? 62 then ret (43, s + 2) else ret (c, s + 1)
         else e <- skip (fun c => negb (among whitespace c) && negb (among symbols c)) s ;; ret (97, e)) ;;
  let eq := snd rs in
  s <- skip (among whitespace) (snd rs) ;;
  set_ps s ;;;
  ret (fst rs, q, eq).

Definition peek (toks : list Z) : P bool :=
  s <- gets (fun s => s) ;;
  s <- skip (among whitespace) s ;;
  set_ps s ;;;
  c <- unwrap (ld m s) ;;
  ret (negb (c =? 0) && among toks c).

Fixpoint parseredirs (n : nat) (c : cmd) : P cmd :=
  match n with
  | O => nofuel
  | S n =>
      b <- peek [60; 62] ;;
      if (b : bool) then
        t <- gettoken ;;
        let tok := fst (fst t) in
        w <- gettoken ;;
        let '(k, q, eq) := w in
        if negb (k =? 97) then panic "missing file for redirection" else
        parseredirs n
          (if tok =? 60 then redircmd c q eq O_RDONLY 0
           else if tok =? 62 then redircmd c q eq (Z.lor O_WRONLY O_CREATE) 1
           else if tok =? 43 then redircmd c q eq (Z.lor O_WRONLY O_CREATE) 1
           else c)
      else ret c
  end.

(** [cmd->argv[argc] = q; cmd->eargv[argc] = eq;] where [cmd], the command of
    the arguments, is the innermost of the redirections of [ret]. *)
Fixpoint add_arg (q eq : Z) (ret : cmd) : cmd :=
  match ret with
  | ExecCmd args => ExecCmd (args ++ [(q, eq)])
  | RedirCmd c file efile mode fd => RedirCmd (add_arg q eq c) file efile mode fd
  | c => c
  end.

Fixpoint args_loop (n : nat) (argc : Z) (r : cmd) : P cmd :=
  match n with
  | O => nofuel
  | S n' =>
      b <- peek [124; 41; 38; 59] ;;
      if (b : bool) then ret r else
      t <- gettoken ;;
      let '(tok, q, eq) := t in
      if tok =? 0 then ret r else
      if negb (tok =? 97) then panic "syntax" else
      let r := add_arg q eq r in
      let argc := argc + 1 in
      if MAXARGS <=? argc then panic "too many args" else
      r <- parseredirs n r ;;
      args_loop n' argc r
  end.

(** [while(peek(ps, es, "&"))] *)
Fixpoint back_loop (n : nat) (c : cmd) : P cmd :=
  match n with
  | O => nofuel
  | S n =>
      b <- peek [38] ;;
      if (b : bool) then gettoken ;;; back_loop n (backcmd c) else ret c
  end.

Fixpoint parseline (fuel : nat) : P cmd :=
  match fuel with
  | O => nofuel
  | S n =>
      c <- parsepipe n ;;
      c <- back_loop fuel c ;;
      b <- peek [59] ;;
      if (b : bool) then gettoken ;;; r <- parseline n ;; ret (listcmd c r) else ret c
  end
with parsepipe (fuel : nat) : P cmd :=
  match fuel with
  | O => nofuel
  | S n =>
      c <- parseexec n ;;
      b <- peek [124] ;;
      if (b : bool) then gettoken ;;; r <- parsepipe n ;; ret (pipecmd c r) else ret c
  end
with parseblock (fuel : nat) : P cmd :=
  match fuel with
  | O => nofuel
  | S n =>
      b <- peek [40] ;;
      if negb b then panic "parseblock" else
      gettoken ;;;
      c <- parseline n ;;
      b <- peek [41] ;;
      if negb b then panic "syntax - missing )" else
      gettoken ;;;
      parseredirs fuel c
  end
with parseexec (fuel : nat) : P cmd :=
  match fuel with
  | O => nofuel
  | S n =>
      b <- peek [40] ;;
      if (b : bool) then parseblock n else
      r <- parseredirs fuel execcmd ;;
      args_loop fuel 0 r
  end.
End Parse.

Fixpoint nulterminate_args (args : list (Z * Z)) (m : mem) : option mem :=
  match args with
  | [] => Some m
  | (_, e) :: args => m ← st m e 0; nulterminate_args args m
  end.

Fixpoint nulterminate (c : cmd) (m : mem) : option mem :=
  match c with
  | ExecCmd args => nulterminate_args args m
  | RedirCmd c _ efile _ _ => m ← nulterminate c m; st m efile 0
  | PipeCmd l r => m ← nulterminate l m; nulterminate r m
  | ListCmd l r => m ← nulterminate l m; nulterminate r m
  | BackCmd c => nulterminate c m
  end.

(** Every call of a parser is at most four deep per character. *)
Definition parse_fuel (len : Z) : nat := (4 * Z.to_nat len + 5)%nat.

(** The command, and the memory with the strings terminated. *)
Definition parsecmd (s : Z) (m : mem) : res Z (cmd * mem) :=
  match strlen s m with
  | None => Fault
  | Some len =>
      let es := s + len in
      (c <- parseline m es (parse_fuel len) ;;
       peek m es [] ;;;
       s <- gets (fun s => s) ;;
       if negb (s =? es) then panic "syntax" else
       m <- unwrap (nulterminate c m) ;;
       ret (c, m)) s
  end.
