(* ===== verification/ShSpec.v ===== *)
(** * The shell's parser terminates, and reads back what is printed

    A command line is a list of characters; the parser's pointer stands for the
    rest of it.  First, on any command line the parser ends, with a command or a
    syntax error, and never leaves its arrays.  Second, a command written out with
    its operators parses to that command, and its words end up as C strings. *)

From S2P Require Import Prelude StringC Sh.

(** ** The rest of the command line *)

Definition at_ (m : mem) (es s : Z) (l : list Z) : Prop := cstr m s l /\ es = s + Z.of_nat (length l).

Fixpoint dropc (p : Z -> bool) (l : list Z) : list Z :=
  match l with
  | [] => []
  | c :: r => if p c then dropc p r else l
  end.

Abbreviation dropws := (dropc (among whitespace)).

Definition plain (c : Z) : bool := negb (among whitespace c) && negb (among symbols c).

Lemma dropc_len p l : (length (dropc p l) <= length l)%nat.
Proof. induction l as [|c l IH]; cbn [dropc length]; [lia|]. destruct (p c); cbn [length]; lia. Qed.

Lemma dropc_idemp p l : dropc p (dropc p l) = dropc p l.
Proof. induction l as [|c l IH]; cbn [dropc]; [done|]. destruct (p c) eqn:E; [done|]. cbn [dropc]. by rewrite E. Qed.

Lemma dropc_head p l c r : dropc p l = c :: r -> p c = false.
Proof. induction l as [|x l IH]; cbn [dropc]; [done|]. destruct (p x) eqn:E; [done|]. by intros [= -> ->]. Qed.

Lemma dropc_split p l : exists u, l = u ++ dropc p l /\ Forall (fun c => p c = true) u.
Proof.
  induction l as [|c l (u & IH1 & IH2)]; cbn [dropc]; [by exists []|]. destruct (p c) eqn:E; [|by exists []]. exists (c :: u). cbn [app]. rewrite <- IH1. by split; [|constructor].
Qed.

Section At.
Context (m : mem) (es : Z).

Lemma at_ld s l : at_ m es s l -> ld m s = Some (match l with [] => 0 | c :: _ => c end).
Proof. intros [Hc _]. unfold ld. destruct l; cbn [cstr] in Hc; [done|]. by destruct Hc as (-> & _). Qed.

Lemma at_next s c l : at_ m es s (c :: l) -> at_ m es (s + 1) l /\ c <> 0.
Proof. intros [(_ & Hn & Hc) ->]. split; [|done]. split; [done|]. cbn [length]. lia. Qed.

Lemma at_app s u l : at_ m es s (u ++ l) -> at_ m es (s + Z.of_nat (length u)) l.
Proof.
  revert s. induction u as [|c u IH]; intros s Ha; [cbn in Ha; by rewrite Z.add_0_r|]. apply at_next in Ha as [Ha _].
  replace (s + Z.of_nat (length (c :: u))) with (s + 1 + Z.of_nat (length u)) by (cbn [length]; lia). by apply IH.
Qed.

Lemma skip_loop_ok p x n : forall s l, at_ m es s l -> n = length l ->
  skip_loop m p n s x = Ret (s + Z.of_nat (length l - length (dropc p l))) x.
Proof.
  induction n as [|n IH]; intros s l Ha Hn; cbn [skip_loop].
  - destruct l; [|done]. cbn. by rewrite Z.add_0_r.
  - destruct l as [|c l]; [done|]. rewrite (at_ld _ _ Ha). mstep. cbn [dropc]. destruct (p c).
    + apply at_next in Ha as [Ha _]. rewrite (IH (s + 1) l Ha) by (cbn in Hn; lia). pose proof (dropc_len p l). f_equal. cbn [length]. lia.
    + unfold ret. f_equal. lia.
Qed.

Lemma skip_ok p x s l : at_ m es s l -> exists s', skip m es p s x = Ret s' x /\ at_ m es s' (dropc p l) /\ s' = s + Z.of_nat (length l - length (dropc p l)).
Proof.
  intros Ha. unfold skip. pose proof Ha as [_ He]. rewrite (skip_loop_ok p x (Z.to_nat (es - s)) s l Ha) by lia. eexists. split; [done|]. split; [|done].
  destruct (dropc_split p l) as (u & Hu & _). rewrite Hu in Ha at 1. apply at_app in Ha. replace (length l - length (dropc p l))%nat with (length u); [done|].
  rewrite Hu at 1. rewrite length_app. lia.
Qed.

Lemma peek_ok toks s l : at_ m es s l -> exists s',
  peek m es toks s = Ret (match dropws l with [] => false | c :: _ => among toks c end) s' /\ at_ m es s' (dropws l).
Proof.
  intros Ha. unfold peek. mstep. destruct (skip_ok (among whitespace) s s l Ha) as (s' & E & Ha' & _). run E. exists s'. split; [|done].
  unfold set_ps. unfold bind at 1. cbn [rbind]. rewrite (at_ld _ _ Ha'). mstep. unfold ret. f_equal. destruct (dropws l) as [|c r] eqn:El; [done|].
  destruct (at_next _ _ _ Ha') as [_ Hz]. by rewrite (proj2 (Z.eqb_neq c 0) Hz).
Qed.

(** What a token is: its kind, its start and end, and what is left. *)
Inductive token : list Z -> Z -> list Z -> list Z -> Prop :=
| tok_end : token [] 0 [] []
| tok_symbol c r : among [124; 40; 41; 59; 38; 60] c = true -> token (c :: r) c [c] r
| tok_append r : token (62 :: 62 :: r) 43 [62; 62] r
| tok_out r : head r <> Some 62 -> token (62 :: r) 62 [62] r
| tok_word w r : w <> [] -> Forall (fun c => plain c = true) w -> (forall c r', r = c :: r' -> plain c = false) -> token (w ++ r) 97 w r.

Lemma dropc_ext p q l : (forall c, p c = q c) -> dropc p l = dropc q l.
Proof. intros Hpq. induction l as [|c l IH]; cbn [dropc]; [done|]. rewrite Hpq. by destruct (q c); [|done]. Qed.

Lemma plain_symbol c : among whitespace c = false -> among [124; 40; 41; 59; 38; 60] c = false -> c <> 62 -> plain c = true.
Proof.
  unfold plain, among. intros H1 H2 H3. apply bool_decide_eq_false in H1, H2. apply andb_true_iff. rewrite !negb_true_iff. split; apply bool_decide_eq_false; [done|].
  intros Hc. unfold symbols in Hc. set_solver.
Qed.

Lemma gettoken_ok s l : at_ m es s l -> exists k t r q s',
  gettoken m es s = Ret (k, q, q + Z.of_nat (length t)) s' /\ token (dropws l) k t r /\ at_ m es s' (dropws r) /\
  at_ m es q (t ++ r) /\ dropws l = t ++ r.
Proof.
  intros Ha. unfold gettoken. mstep. destruct (skip_ok (among whitespace) s s l Ha) as (q & E & Hq & _). run E. clear E Ha.
  destruct (dropws l) as [|c r] eqn:El.
  { rewrite (at_ld _ _ Hq). mstep. cbn [Z.eqb]. mstep. cbn [fst snd]. destruct (skip_ok (among whitespace) s q [] Hq) as (s' & E & Ha' & Hs'). cbn in Hs'. rewrite Z.add_0_r in Hs'. subst s'. run E.
    exists 0, [], [], q, q. cbn [length]. rewrite Z.add_0_r. split_and!; [done|constructor|done|done|done]. }
  rewrite (at_ld _ _ Hq). mstep. destruct (at_next _ _ _ Hq) as [Hq1 Hz]. rewrite (proj2 (Z.eqb_neq c 0) Hz). pose proof (dropc_head _ _ _ _ El) as Hws.
  assert (Hfin : forall k t r', c :: r = t ++ r' -> token (c :: r) k t r' -> exists s', (s <- skip m es (among whitespace) (q + Z.of_nat (length t)) ;; set_ps s ;;; ret (k, q, q + Z.of_nat (length t))) s =
      Ret (k, q, q + Z.of_nat (length t)) s' /\ at_ m es s' (dropws r')).
  { intros k t r' He _. rewrite He in Hq. destruct (skip_ok (among whitespace) s _ _ (at_app _ _ _ Hq)) as (s' & E & Ha' & _). exists s'. run E. by split. }
  destruct (among [124; 40; 41; 59; 38; 60] c) eqn:Es.
  { destruct (Hfin c [c] r eq_refl) as (s' & E & Ha'); [by constructor|]. exists c, [c], r, q, s'. split_and!; [exact E|by constructor|done|done|done]. }
  destruct (Z.eqb_spec c 62) as [->|Hne].
  { pose proof (at_ld _ _ Hq1) as Hl1. destruct r as [|c2 r]; [|destruct (Z.eqb_spec c2 62) as [->|Hn2]].
    - assert (Ht : token [62] 62 [62] []) by (by apply tok_out). destruct (Hfin 62 [62] [] eq_refl Ht) as (s' & E & Ha'). exists 62, [62], [], q, s'.
      split_and!; [|done..]. rewrite (bind_ret_l _ _ s (62, q + 1) s) by (by rewrite Hl1). exact E.
    - destruct (Hfin 43 [62; 62] r eq_refl (tok_append r)) as (s' & E & Ha'). exists 43, [62; 62], r, q, s'.
      split_and!; [|apply tok_append|done..]. rewrite (bind_ret_l _ _ s (43, q + 2) s) by (by rewrite Hl1). exact E.
    - assert (Ht : token (62 :: c2 :: r) 62 [62] (c2 :: r)) by (apply tok_out; cbn; congruence).
      destruct (Hfin 62 [62] (c2 :: r) eq_refl Ht) as (s' & E & Ha'). exists 62, [62], (c2 :: r), q, s'.
      split_and!; [|done..]. rewrite (bind_ret_l _ _ s (62, q + 1) s); [exact E|]. rewrite Hl1. mstep. by rewrite (proj2 (Z.eqb_neq c2 62) Hn2). }
  destruct (skip_ok plain s q (c :: r) Hq) as (e & E & He & Hee). destruct (dropc_split plain (c :: r)) as (w & Hw & Hp). set (r' := dropc plain (c :: r)) in *.
  assert (Hlw : (length (c :: r) - length r')%nat = length w) by (rewrite Hw at 1; rewrite length_app; lia). rewrite Hlw in Hee.
  assert (Ht : token (c :: r) 97 w r').
  { rewrite Hw at 1. apply tok_word; [|done|intros x y Hx; by apply (dropc_head plain (c :: r)) in Hx]. intros ->. cbn [app] in Hw. unfold r' in Hw. cbn [dropc] in Hw.
    rewrite (plain_symbol c Hws Es Hne) in Hw. pose proof (dropc_len plain r) as Hx. rewrite <- Hw in Hx. cbn in Hx. lia. }
  rewrite (bind_ret_l _ _ s (97, e) s).
  2: { change (fun c0 => negb (among whitespace c0) && negb (among symbols c0)) with plain. by run E. }
  cbn [fst snd]. rewrite Hee. destruct (Hfin 97 w r' Hw Ht) as (s' & E' & Ha'). exists 97, w, r', q, s'. split_and!; [exact E'|done|done|by rewrite <- Hw|done].
Qed.
End At.

(** ** Termination *)

(** A word of the line between [lo] and [es]: it is not empty, it has no blank and
    no operator, and what follows it is one or the end of the line. *)
Record word (m : mem) (lo es q e : Z) : Prop := {
  wd_range : lo <= q /\ q < e /\ e <= es;
  wd_plain : forall x, q <= x < e -> exists c, m !! x = Some c /\ c <> 0 /\ plain c = true;
  wd_end : exists c, m !! e = Some c /\ (plain c = false \/ e = es)
}.

(** The arguments fit their array, every argument and every file is a word, and
    a file is opened to be read as 0 or to be written as 1. *)
Fixpoint cmd_ok (W : Z -> Z -> Prop) (c : cmd) : Prop :=
  match c with
  | ExecCmd args => Z.of_nat (length args) < MAXARGS /\ Forall (fun a => W (fst a) (snd a)) args
  | RedirCmd c file efile mode fd => cmd_ok W c /\ W file efile /\ (mode = O_RDONLY /\ fd = 0 \/ mode = Z.lor O_WRONLY O_CREATE /\ fd = 1)
  | PipeCmd l r | ListCmd l r => cmd_ok W l /\ cmd_ok W r
  | BackCmd c => cmd_ok W c
  end.

(** The arguments of a command below its redirections. *)
Fixpoint inner (c : cmd) : option (list (Z * Z)) :=
  match c with
  | ExecCmd args => Some args
  | RedirCmd c _ _ _ _ => inner c
  | _ => None
  end.

Section Fine.
Context (m : mem) (lo es : Z).

Abbreviation W := (word m lo es).

(** A parser ends with a command and less of the line, or with a syntax error. *)
Definition fine (Q : cmd -> Prop) (l : list Z) (r : res Z cmd) : Prop :=
  (exists c s' l', r = Ret c s' /\ at_ m es s' l' /\ (length l' <= length l)%nat /\ Q c) \/ exists msg, r = Panic msg.

Lemma fine_bind (Q Q' : cmd -> Prop) l (p : M Z cmd) (k : cmd -> M Z cmd) s :
  fine Q l (p s) -> (forall c s' l', at_ m es s' l' -> (length l' <= length l)%nat -> Q c -> fine Q' l' (k c s')) -> fine Q' l (bind p k s).
Proof.
  intros [(c & s' & l' & E & Ha & Hl & Hc)|[msg E]] Hk; [|right; exists msg; unfold bind; by rewrite E].
  run E. destruct (Hk c s' l' Ha Hl Hc) as [(c2 & s2 & l2 & E2 & Ha2 & Hl2 & Hc2)|?]; [|by right]. left. exists c2, s2, l2. split_and!; [done|done|lia|done].
Qed.

Lemma fine_ret (Q : cmd -> Prop) l l' s c : at_ m es s l' -> (length l' <= length l)%nat -> Q c -> fine Q l (ret c s).
Proof. intros Ha Hl Hc. left. by exists c, s, l'. Qed.

Lemma fine_less Q l l' r : (length l' <= length l)%nat -> fine Q l' r -> fine Q l r.
Proof. intros Hl [(c & s & l2 & E & Ha & Hle & Hc)|?]; [|by right]. left. exists c, s, l2. split_and!; [done|done|lia|done]. Qed.

Lemma fine_weak (Q Q' : cmd -> Prop) l r : fine Q l r -> (forall c, Q c -> Q' c) -> fine Q' l r.
Proof. intros [(c & s & l2 & E & Ha & Hle & Hc)|?] Hq; [|by right]. left. exists c, s, l2. auto. Qed.

Lemma dropws_len l : (length (dropws l) <= length l)%nat.
Proof. apply dropc_len. Qed.

Lemma token_97 l t r : token l 97 t r -> t <> [] /\ Forall (fun c => plain c = true) t /\ (forall c r', r = c :: r' -> plain c = false).
Proof. intros H. inversion H as [|c r' Hc| | |w r' H1 H2 H3]; subst; [by vm_compute in Hc|done]. Qed.

Lemma at_lookup q l k c : at_ m es q l -> l !! k = Some c -> m !! (q + Z.of_nat k) = Some c /\ c <> 0.
Proof.
  revert q l. induction k as [|k IH]; intros q [|x l] Ha Hk; try done.
  - injection Hk as ->. rewrite Z.add_0_r. destruct Ha as [(H1 & H2 & _) _]. done.
  - apply at_next in Ha as [Ha _]. replace (q + Z.of_nat (S k)) with (q + 1 + Z.of_nat k) by lia. by apply (IH (q + 1) l).
Qed.

Lemma word_of_token t r q : at_ m es q (t ++ r) -> t <> [] /\ Forall (fun c => plain c = true) t /\ (forall c r', r = c :: r' -> plain c = false) ->
  lo + Z.of_nat (length t + length r) <= es -> W q (q + Z.of_nat (length t)).
Proof.
  intros Ha (Hne & Hp & Hr) Hlo. pose proof Ha as [_ He]. rewrite length_app in He. split.
  - destruct t; [done|]. cbn [length] in *. lia.
  - intros x Hx. destruct (lookup_lt_is_Some_2 t (Z.to_nat (x - q)) ltac:(lia)) as [c Hc]. destruct (at_lookup q (t ++ r) (Z.to_nat (x - q)) c Ha) as [H1 H2]; [by apply lookup_app_l_Some|].
    exists c. replace (q + Z.of_nat (Z.to_nat (x - q))) with x in H1 by lia. split_and!; [done|done|]. exact (proj1 (list.Forall_lookup _ _) Hp _ _ Hc).
  - apply at_app in Ha. pose proof (at_ld _ _ _ _ Ha) as Hl. unfold ld in Hl. destruct r as [|c r]; (eexists; split; [exact Hl|]); [right; cbn [length] in He; lia|left; by eapply Hr].
Qed.

(** After [peek] saw one of [toks], the next token is not empty. *)
Lemma gettoken_less s l : at_ m es s l -> exists k t r q s', gettoken m es s = Ret (k, q, q + Z.of_nat (length t)) s' /\
  at_ m es s' (dropws r) /\ token (dropws l) k t r /\ (lo + Z.of_nat (length l) <= es -> k = 97 -> W q (q + Z.of_nat (length t))) /\ (length (dropws r) + length t <= length l)%nat.
Proof.
  intros Ha. destruct (gettoken_ok m es s l Ha) as (k & t & r & q & s' & E & Ht & Ha' & Hq & Hd). exists k, t, r, q, s'. split_and!; try done.
  - intros Hlo ->. pose proof (dropws_len l) as H1. rewrite Hd, length_app in H1. apply (word_of_token _ _ q Hq); [by apply (token_97 _ _ _ Ht)|lia].
  - pose proof (dropws_len l) as H1. rewrite Hd, length_app in H1. pose proof (dropws_len r). lia.
Qed.

Lemma token_nonempty l k t r : token l k t r -> l <> [] -> (0 < length t)%nat.
Proof. destruct 1; intros Hl; cbn; try lia; [done|]. destruct w; [done|cbn; lia]. Qed.

Lemma token_nil k t r : token [] k t r -> k = 0.
Proof. intros Ht. remember [] as l eqn:El. destruct Ht as [|c r|r|r|w r Hw]; try done. by destruct w. Qed.

Lemma parseredirs_fine n : forall s l c, at_ m es s l -> ((length l < n)%nat /\ lo + Z.of_nat (length l) <= es) -> cmd_ok W c ->
  fine (fun c' => cmd_ok W c' /\ inner c' = inner c) l (parseredirs m es n c s).
Proof.
  induction n as [|n IH]; intros s l c Ha Hn Hc; [lia|]. cbn [parseredirs]. destruct (peek_ok m es [60; 62] s l Ha) as (s1 & E1 & Ha1). run E1.
  pose proof (dropws_len l) as Hdl. destruct (dropws l) as [|x y] eqn:El; [by apply (fine_ret _ l [])|]. destruct (among [60; 62] x) eqn:Ex; [|by apply (fine_ret _ l (x :: y))].
  destruct (gettoken_less s1 _ Ha1) as (k & t & r & q & s2 & E2 & Ha2 & Ht & _ & Hl2). run E2. cbn [fst].
  assert (Ht' : (0 < length t)%nat).
  { apply (token_nonempty _ _ _ _ Ht). cbn [dropc]. by rewrite (dropc_head _ _ _ _ El). }
  destruct (gettoken_less s2 _ Ha2) as (k' & t' & r' & q' & s3 & E3 & Ha3 & _ & Hm & Hl3). run E3. destruct (Z.eqb_spec k' 97) as [Hk|]; [cbn [negb]|right; eauto].
  apply (fine_less _ l (dropws r')); [cbn [length] in *; lia|]. cbn [length] in *. specialize (Hm ltac:(lia) Hk).
  repeat case_match; (eapply fine_weak; [apply IH; [done|lia|cbn [redircmd cmd_ok]; tauto]|intros c' [Hok Hin]; by split]).
Qed.

Lemma add_arg_ok q e c args : inner c = Some args -> cmd_ok W c -> W q e -> Z.of_nat (length args) + 1 < MAXARGS ->
  cmd_ok W (add_arg q e c) /\ inner (add_arg q e c) = Some (args ++ [(q, e)]).
Proof.
  intros Hi Hc He Hl. induction c as [args'|c IH file efile mode fd| | |]; cbn [inner add_arg cmd_ok] in *; try done.
  - injection Hi as ->. split; [|done]. destruct Hc as [_ Hf]. split; [rewrite length_app; cbn; lia|]. apply Forall_app. split; [done|by apply list.Forall_singleton].
  - destruct Hc as [Hc1 Hc2]. destruct (IH Hi Hc1) as [H1 H2]. done.
Qed.

Lemma args_loop_fine n : forall s l c argc args, at_ m es s l -> ((length l < n)%nat /\ lo + Z.of_nat (length l) <= es) -> cmd_ok W c -> inner c = Some args -> argc = Z.of_nat (length args) ->
  fine (cmd_ok W) l (args_loop m es n argc c s).
Proof.
  induction n as [|n IH]; intros s l c argc args Ha Hn Hc Hi ->; [lia|]. cbn [args_loop].
  destruct (peek_ok m es [124; 41; 38; 59] s l Ha) as (s1 & E1 & Ha1). run E1. pose proof (dropws_len l) as Hdl.
  destruct (match dropws l with [] => false | c0 :: _ => among [124; 41; 38; 59] c0 end); [by apply (fine_ret _ l (dropws l))|].
  destruct (gettoken_less s1 _ Ha1) as (k & t & r & q & s2 & E2 & Ha2 & Ht & Hm & Hl2). run E2.
  destruct (Z.eqb_spec k 0) as [Hk|Hk]; [apply (fine_ret _ l (dropws r)); [done|lia|done]|]. destruct (Z.eqb_spec k 97) as [Hk97|]; [cbn [negb]; specialize (Hm ltac:(lia) Hk97)|right; eauto].
  destruct (Z.leb_spec MAXARGS (Z.of_nat (length args) + 1)) as [|Hmax]; [right; eauto|].
  destruct (add_arg_ok q (q + Z.of_nat (length t)) c args Hi Hc Hm Hmax) as [Hc' Hi'].
  assert (Ht' : (0 < length t)%nat) by (apply (token_nonempty _ _ _ _ Ht); intros H0; rewrite H0 in Ht; by apply token_nil in Ht).
  apply (fine_less _ l (dropws r)); [lia|].
  apply (fine_bind (fun c' => cmd_ok W c' /\ inner c' = Some (args ++ [(q, q + Z.of_nat (length t))]))).
  - eapply fine_weak; [apply parseredirs_fine; [done|lia|done]|]. intros c' [H1 H2]. by rewrite H2.
  - intros c' s3 l3 Ha3 Hl3 [Hc3 Hi3]. eapply IH; [done|lia|done|exact Hi3|]. rewrite length_app. cbn. lia.
Qed.

Lemma back_loop_fine n : forall s l c, at_ m es s l -> ((length l < n)%nat /\ lo + Z.of_nat (length l) <= es) -> cmd_ok W c -> fine (cmd_ok W) l (back_loop m es n c s).
Proof.
  induction n as [|n IH]; intros s l c Ha Hn Hc; [lia|]. cbn [back_loop]. destruct (peek_ok m es [38] s l Ha) as (s1 & E1 & Ha1). run E1.
  pose proof (dropws_len l) as Hdl. destruct (dropws l) as [|x y] eqn:El; [by apply (fine_ret _ l [])|]. destruct (among [38] x); [|by apply (fine_ret _ l (x :: y))].
  destruct (gettoken_less s1 _ Ha1) as (k & t & r & q & s2 & E2 & Ha2 & Ht & _ & Hl2). run E2.
  assert (Ht' : (0 < length t)%nat) by (apply (token_nonempty _ _ _ _ Ht); cbn [dropc]; by rewrite (dropc_head _ _ _ _ El)).
  apply (fine_less _ l (dropws r)); [lia|]. apply IH; [done|lia|done].
Qed.

(** One token is consumed after [peek]. *)
Lemma eat_fine {Q} toks l s (k1 k2 : M Z cmd) :
  at_ m es s l ->
  (forall s' l', at_ m es s' l' -> (length l' < length l)%nat -> fine Q l' (k1 s')) ->
  (forall s' l', at_ m es s' l' -> (length l' <= length l)%nat -> fine Q l' (k2 s')) ->
  fine Q l ((b <- peek m es toks ;; if (b : bool) then gettoken m es ;;; k1 else k2) s).
Proof.
  intros Ha H1 H2. destruct (peek_ok m es toks s l Ha) as (s1 & E1 & Ha1). run E1. pose proof (dropws_len l) as Hdl.
  destruct (dropws l) as [|x y] eqn:El; [eapply fine_less; [|by apply H2]; cbn; lia|]. destruct (among toks x); [|eapply fine_less; [|by apply H2]; lia].
  destruct (gettoken_less s1 _ Ha1) as (k & t & r & q & s2 & E2 & Ha2 & Ht & _ & Hl2). run E2.
  assert (Ht' : (0 < length t)%nat) by (apply (token_nonempty _ _ _ _ Ht); cbn [dropc]; by rewrite (dropc_head _ _ _ _ El)).
  eapply fine_less; [|apply H1; [done|lia]]. lia.
Qed.

Lemma peek_negb toks (k1 k2 : M Z cmd) s l : at_ m es s l ->
  (b <- peek m es toks ;; if negb b then k2 else k1) s = (b <- peek m es toks ;; if (b : bool) then k1 else k2) s.
Proof. intros Ha. destruct (peek_ok m es toks s l Ha) as (s1 & E1 & _). rewrite !(bind_ret_l _ _ _ _ _ E1). by destruct (match dropws l with [] => _ | _ => _ end). Qed.

Lemma parse_fine fuel : forall s l, at_ m es s l ->
  ((4 * length l + 3 < fuel)%nat /\ lo + Z.of_nat (length l) <= es -> fine (cmd_ok W) l (parseline m es fuel s)) /\
  ((4 * length l + 2 < fuel)%nat /\ lo + Z.of_nat (length l) <= es -> fine (cmd_ok W) l (parsepipe m es fuel s)) /\
  ((4 * length l < fuel)%nat /\ lo + Z.of_nat (length l) <= es -> fine (cmd_ok W) l (parseblock m es fuel s)) /\
  ((4 * length l + 1 < fuel)%nat /\ lo + Z.of_nat (length l) <= es -> fine (cmd_ok W) l (parseexec m es fuel s)).
Proof.
  induction fuel as [|n IH]; intros s l Ha; [split_and!; lia|]. split_and!; intros Hf.
  - cbn [parseline]. apply (fine_bind (cmd_ok W)); [apply IH; [done|lia]|]. intros c s1 l1 Ha1 Hl1 Hc.
    apply (fine_bind (cmd_ok W)); [apply back_loop_fine; [done|lia|done]|]. intros c2 s2 l2 Ha2 Hl2 Hc2. apply eat_fine; [done| |].
    + intros s3 l3 Ha3 Hl3. apply (fine_bind (cmd_ok W)); [apply IH; [done|lia]|]. intros c4 s4 l4 Ha4 Hl4 Hc4. by apply (fine_ret _ l4 l4).
    + intros s3 l3 Ha3 Hl3. by apply (fine_ret _ l3 l3).
  - cbn [parsepipe]. apply (fine_bind (cmd_ok W)); [apply IH; [done|lia]|]. intros c s1 l1 Ha1 Hl1 Hc. apply eat_fine; [done| |].
    + intros s3 l3 Ha3 Hl3. apply (fine_bind (cmd_ok W)); [apply IH; [done|lia]|]. intros c4 s4 l4 Ha4 Hl4 Hc4. by apply (fine_ret _ l4 l4).
    + intros s3 l3 Ha3 Hl3. by apply (fine_ret _ l3 l3).
  - cbn [parseblock].
    rewrite (peek_negb _ _ _ _ l) by done. apply eat_fine; [done| |intros; right; eauto]. intros s1 l1 Ha1 Hl1. apply (fine_bind (cmd_ok W)); [apply IH; [done|lia]|].
    intros c s2 l2 Ha2 Hl2 Hc. rewrite (peek_negb _ _ _ _ l2) by done. apply eat_fine; [done| |intros; right; eauto]. intros s3 l3 Ha3 Hl3.
    eapply fine_weak; [apply parseredirs_fine; [done|lia|done]|]. by intros c' [? _].
  - cbn [parseexec]. destruct (peek_ok m es [40] s l Ha) as (s1 & E1 & Ha1). run E1. pose proof (dropws_len l) as Hdl. apply (fine_less _ l (dropws l)); [done|].
    destruct (match dropws l with [] => false | c :: _ => among [40] c end); [apply IH; [done|lia]|].
    apply (fine_bind (fun c => cmd_ok W c /\ inner c = Some [])).
    + eapply fine_weak; [apply parseredirs_fine; [done|lia|split; [done|constructor]]|]. intros c' [? ->]. done.
    + intros c s2 l2 Ha2 Hl2 [Hc Hi]. eapply args_loop_fine; [done|lia|done|exact Hi|done].
Qed.
End Fine.

(** ** Terminating the strings *)

Lemma st_keeps m a v m' : st m a v = Some m' -> (forall x, is_Some (m !! x) -> is_Some (m' !! x)) /\ m' = <[a := v]> m.
Proof.
  unfold st. destruct (m !! a); [|done]. intros [= <-]. split; [|done]. intros x Hx. rewrite lookup_insert. case_decide; eauto.
Qed.

(** The ends of the words of a command. *)
Fixpoint ends (c : cmd) : list Z :=
  match c with
  | ExecCmd args => snd <$> args
  | RedirCmd c _ efile _ _ => ends c ++ [efile]
  | PipeCmd l r | ListCmd l r => ends l ++ ends r
  | BackCmd c => ends c
  end.

Fixpoint zero_all (l : list Z) (m : mem) : mem :=
  match l with
  | [] => m
  | a :: l => zero_all l (<[a := 0]> m)
  end.

Lemma zero_all_app l1 l2 m : zero_all (l1 ++ l2) m = zero_all l2 (zero_all l1 m).
Proof. revert m. induction l1 as [|a l1 IH]; intros m; cbn [zero_all app]; [done|]. apply IH. Qed.

Lemma zero_all_lookup l m x : zero_all l m !! x = if decide (x ∈ l) then Some 0 else m !! x.
Proof.
  revert m. induction l as [|a l IH]; intros m; cbn [zero_all]; [rewrite decide_False by apply not_elem_of_nil; done|]. rewrite IH, lookup_insert.
  destruct (decide (x ∈ l)); [by rewrite decide_True by (by right)|]. destruct (decide (a = x)) as [->|Hne]; [by rewrite decide_True by (by left)|].
  rewrite decide_False; [done|]. intros [?|?]%elem_of_cons; congruence.
Qed.

Lemma zero_all_keeps l m x : is_Some (m !! x) -> is_Some (zero_all l m !! x).
Proof. intros Hx. rewrite zero_all_lookup. case_decide; eauto. Qed.

Lemma nulterminate_args_ok args : forall m, Forall (fun a => is_Some (m !! snd a)) args ->
  nulterminate_args args m = Some (zero_all (snd <$> args) m).
Proof.
  induction args as [|[q e] args IH]; intros m Hf; [done|]. apply list.Forall_cons in Hf as [He Hf]. cbn [nulterminate_args fmap list_fmap zero_all snd] in *.
  rewrite st_ok by done. cbn [mbind option_bind]. apply IH. eapply list.Forall_impl; [exact Hf|]. cbn. intros [q' e'] H'. rewrite lookup_insert. case_decide; eauto.
Qed.

Lemma cmd_ok_weaken (W W' : Z -> Z -> Prop) c : (forall q e, W q e -> W' q e) -> cmd_ok W c -> cmd_ok W' c.
Proof.
  intros Hk. induction c as [args|c IH file efile mode fd|l IHl r IHr|l IHl r IHr|c IH]; cbn [cmd_ok]; try tauto.
  - intros [H1 H2]. split; [done|]. eapply list.Forall_impl; [exact H2|]. eauto.
  - intros (H1 & H2 & H3). auto.
Qed.

(** The byte at the end of a word is there. *)
Definition ends_in (m : mem) (q e : Z) : Prop := is_Some (m !! e).

Lemma ends_in_keeps m m' c : (forall x, is_Some (m !! x) -> is_Some (m' !! x)) -> cmd_ok (ends_in m) c -> cmd_ok (ends_in m') c.
Proof. intros Hk. apply cmd_ok_weaken. intros q e. apply Hk. Qed.

Lemma word_ends_in m lo es q e : word m lo es q e -> ends_in m q e.
Proof. intros [_ _ (c & Hc & _)]. by exists c. Qed.

Lemma nulterminate_ok c : forall m, cmd_ok (ends_in m) c -> nulterminate c m = Some (zero_all (ends c) m).
Proof.
  induction c as [args|c IH file efile mode fd|l IHl r IHr|l IHl r IHr|c IH]; intros m Hc; cbn [nulterminate ends cmd_ok] in *; [|..|by apply IH].
  - apply nulterminate_args_ok, Hc.
  - destruct Hc as (Hc & He & _). rewrite IH by done. cbn [mbind option_bind]. rewrite st_ok by (by apply zero_all_keeps). by rewrite zero_all_app.
  - destruct Hc as [Hl Hr]. rewrite IHl by done. cbn [mbind option_bind]. rewrite IHr; [by rewrite zero_all_app|]. eapply ends_in_keeps; [|done]. intros x. apply zero_all_keeps.
  - destruct Hc as [Hl Hr]. rewrite IHl by done. cbn [mbind option_bind]. rewrite IHr; [by rewrite zero_all_app|]. eapply ends_in_keeps; [|done]. intros x. apply zero_all_keeps.
Qed.

(** The end of [parsecmd]. *)
Lemma parsecmd_end m es c s l : at_ m es s l -> cmd_ok (ends_in m) c ->
  (peek m es [] ;;; s <- gets (fun s => s) ;; if negb (s =? es) then panic "syntax" else m' <- unwrap (nulterminate c m) ;; ret (c, m')) s =
  match dropws l with [] => Ret (c, zero_all (ends c) m) es | _ => Panic "syntax" end.
Proof.
  intros Ha Hc. destruct (peek_ok m es [] s l Ha) as (s1 & E1 & Ha1). run E1. mstep. destruct Ha1 as [_ He]. destruct (dropws l) as [|x y].
  - cbn in He. rewrite Z.add_0_r in He. subst s1. rewrite Z.eqb_refl. cbn [negb]. by rewrite nulterminate_ok.
  - rewrite (proj2 (Z.eqb_neq s1 es)); [done|]. cbn [length] in He. lia.
Qed.

(** ** Commands and their text

    A word is plain; [>>] and [>] open a file the same way. *)
Inductive redir := RIn (w : list Z) | ROut (w : list Z) | RAppend (w : list Z).
Inductive item := Arg (w : list Z) | Red (r : redir).
Inductive line := LineEnd (p : pline) (bg : nat) | LineSeq (p : pline) (bg : nat) (l : line)
with pline := PipeEnd (e : simple) | PipeSeq (e : simple) (p : pline)
with simple := Words (its : list item) | Block (l : line) (rs : list redir).

Definition text_redir (r : redir) : list Z :=
  match r with
  | RIn w => 60 :: 32 :: w ++ [32]
  | ROut w => 62 :: 32 :: w ++ [32]
  | RAppend w => 62 :: 62 :: 32 :: w ++ [32]
  end.

Definition text_item (i : item) : list Z := match i with Arg w => w ++ [32] | Red r => text_redir r end.

Fixpoint text_bg (n : nat) : list Z := match n with O => [] | S n => 38 :: 32 :: text_bg n end.

Fixpoint text_line (l : line) : list Z :=
  match l with
  | LineEnd p bg => text_pline p ++ text_bg bg
  | LineSeq p bg l => text_pline p ++ text_bg bg ++ 59 :: 32 :: text_line l
  end
with text_pline (p : pline) : list Z :=
  match p with
  | PipeEnd e => text_simple e
  | PipeSeq e p => text_simple e ++ 124 :: 32 :: text_pline p
  end
with text_simple (e : simple) : list Z :=
  match e with
  | Words its => concat (text_item <$> its)
  | Block l rs => 40 :: 32 :: text_line l ++ 41 :: 32 :: concat (text_redir <$> rs)
  end.

(** What a command means, with its words. *)
Inductive acmd :=
| AExec (args : list (list Z))
| ARedir (c : acmd) (file : list Z) (mode fd : Z)
| APipe (l r : acmd)
| AList (l r : acmd)
| ABack (c : acmd).

Definition mean_redir (c : acmd) (r : redir) : acmd :=
  match r with
  | RIn w => ARedir c w O_RDONLY 0
  | ROut w | RAppend w => ARedir c w (Z.lor O_WRONLY O_CREATE) 1
  end.

Fixpoint args_of (its : list item) : list (list Z) := match its with [] => [] | Arg w :: its => w :: args_of its | Red _ :: its => args_of its end.
Fixpoint redirs_of (its : list item) : list redir := match its with [] => [] | Arg _ :: its => redirs_of its | Red r :: its => r :: redirs_of its end.

Fixpoint mean_bg (n : nat) (c : acmd) : acmd := match n with O => c | S n => mean_bg n (ABack c) end.

Fixpoint mean_line (l : line) : acmd :=
  match l with
  | LineEnd p bg => mean_bg bg (mean_pline p)
  | LineSeq p bg l => AList (mean_bg bg (mean_pline p)) (mean_line l)
  end
with mean_pline (p : pline) : acmd :=
  match p with
  | PipeEnd e => mean_simple e
  | PipeSeq e p => APipe (mean_simple e) (mean_pline p)
  end
with mean_simple (e : simple) : acmd :=
  match e with
  | Words its => foldl mean_redir (AExec (args_of its)) (redirs_of its)
  | Block l rs => foldl mean_redir (mean_line l) rs
  end.

Definition word_ok (w : list Z) : Prop := w <> [] /\ Forall (fun c => plain c = true) w.
Definition redir_ok (r : redir) : Prop := match r with RIn w | ROut w | RAppend w => word_ok w end.
Definition item_ok (i : item) : Prop := match i with Arg w => word_ok w | Red r => redir_ok r end.

(** The words are words, and there are fewer than [MAXARGS] arguments. *)
Fixpoint line_ok (l : line) : Prop :=
  match l with
  | LineEnd p _ => pline_ok p
  | LineSeq p _ l => pline_ok p /\ line_ok l
  end
with pline_ok (p : pline) : Prop :=
  match p with
  | PipeEnd e => simple_ok e
  | PipeSeq e p => simple_ok e /\ pline_ok p
  end
with simple_ok (e : simple) : Prop :=
  match e with
  | Words its => Forall item_ok its /\ Z.of_nat (length (args_of its)) < MAXARGS
  | Block l rs => line_ok l /\ Forall redir_ok rs
  end.

(** ** Reading the text back *)

(** A word of the line: its characters, and one after them that ends it. *)
Record word_at (m : mem) (q e : Z) (w : list Z) : Prop := {
  wa_end : e = q + Z.of_nat (length w);
  wa_chars : forall i x, w !! i = Some x -> m !! (q + Z.of_nat i) = Some x /\ x <> 0 /\ plain x = true;
  wa_stop : exists c, m !! e = Some c /\ (c = 0 \/ plain c = false)
}.

Fixpoint spans (m : mem) (c : cmd) (a : acmd) : Prop :=
  match c, a with
  | ExecCmd args, AExec ws => Forall2 (fun p w => word_at m (fst p) (snd p) w) args ws
  | RedirCmd c file efile mode fd, ARedir a w mode' fd' => spans m c a /\ word_at m file efile w /\ mode = mode' /\ fd = fd'
  | PipeCmd l r, APipe l' r' => spans m l l' /\ spans m r r'
  | ListCmd l r, AList l' r' => spans m l l' /\ spans m r r'
  | BackCmd c, ABack a => spans m c a
  | _, _ => False
  end.

(** The command with its words as C strings. *)
Fixpoint denotes (m : mem) (c : cmd) (a : acmd) : Prop :=
  match c, a with
  | ExecCmd args, AExec ws => Forall2 (fun p w => cstr m (fst p) w) args ws
  | RedirCmd c file _ mode fd, ARedir a w mode' fd' => denotes m c a /\ cstr m file w /\ mode = mode' /\ fd = fd'
  | PipeCmd l r, APipe l' r' => denotes m l l' /\ denotes m r r'
  | ListCmd l r, AList l' r' => denotes m l l' /\ denotes m r r'
  | BackCmd c, ABack a => denotes m c a
  | _, _ => False
  end.

Definition stops (m : mem) (es : list Z) : Prop := forall x, x ∈ es -> exists c, m !! x = Some c /\ (c = 0 \/ plain c = false).

Lemma word_cstr m es q e w : stops m es -> e ∈ es -> word_at m q e w -> cstr (zero_all es m) q w.
Proof.
  intros Hs He [-> Hc _]. revert q He Hc. induction w as [|x w IH]; intros q He Hc; cbn [cstr length] in *.
  - rewrite Z.add_0_r in He. by rewrite zero_all_lookup, decide_True.
  - destruct (Hc O x eq_refl) as (Hx & Hn & Hp). rewrite Z.add_0_r in Hx. split_and!; [|done|].
    + rewrite zero_all_lookup, decide_False; [done|]. intros (c & Hc' & [?|?])%Hs; congruence.
    + apply IH; [by replace (q + 1 + Z.of_nat (length w)) with (q + Z.of_nat (S (length w))) by lia|].
      intros i y Hi. destruct (Hc (S i) y Hi) as (H1 & H2). by replace (q + 1 + Z.of_nat i) with (q + Z.of_nat (S i)) by lia.
Qed.

Lemma spans_denotes m es c : forall a, stops m es -> (forall x, x ∈ ends c -> x ∈ es) -> spans m c a -> denotes (zero_all es m) c a.
Proof.
  induction c as [args|c IH file efile mode fd|l IHl r IHr|l IHl r IHr|c IH]; intros a Hs He; destruct a; cbn [spans denotes ends] in *; try done.
  - intros Hf. induction Hf as [|[q e] w args ws Hw Hf IHf]; constructor.
    + eapply word_cstr; [done|apply He; by left|exact Hw].
    + apply IHf. intros x Hx. apply He. by right.
  - intros (H1 & H2 & H3 & H4). split_and!; [apply IH; [done| |done]|eapply word_cstr; [done| |exact H2]|done|done].
    + intros x Hx. apply He, elem_of_app. by left.
    + apply He, elem_of_app. right. by left.
  - intros [H1 H2]. split; [apply IHl|apply IHr]; try done; intros x Hx; apply He, elem_of_app; [by left|by right].
  - intros [H1 H2]. split; [apply IHl|apply IHr]; try done; intros x Hx; apply He, elem_of_app; [by left|by right].
  - by apply IH.
Qed.

Lemma spans_stops m c : forall a, spans m c a -> stops m (ends c).
Proof.
  induction c as [args|c IH file efile mode fd|l IHl r IHr|l IHl r IHr|c IH]; intros a; destruct a; cbn [spans ends]; try done.
  - intros Hf. induction Hf as [|[q e] w args ws Hw Hf IHf]; intros x Hx; cbn [fmap list_fmap] in Hx; [by apply elem_of_nil in Hx|].
    apply elem_of_cons in Hx as [->|Hx]; [apply Hw|by apply IHf].
  - intros (H1 & H2 & _) x [Hx| ->%list_elem_of_singleton]%elem_of_app; [by eapply IH|apply H2].
  - intros [H1 H2] x [Hx|Hx]%elem_of_app; [by apply (IHl _ H1)|by apply (IHr _ H2)].
  - intros [H1 H2] x [Hx|Hx]%elem_of_app; [by apply (IHl _ H1)|by apply (IHr _ H2)].
  - apply IH.
Qed.

Section Read.
Context (m : mem) (es : Z).

Definition reads (Q : cmd -> Prop) (l rest : list Z) (r : res Z cmd) : Prop :=
  exists c s' l', r = Ret c s' /\ at_ m es s' l' /\ dropws l' = dropws rest /\ (length l' <= length l)%nat /\ Q c.

Lemma ws32 l : dropws (32 :: l) = dropws l.
Proof. done. Qed.

Lemma token_word w r k t r' : word_ok w -> token (w ++ 32 :: r) k t r' -> k = 97 /\ t = w /\ r' = 32 :: r.
Proof.
  intros [Hn Hp] Ht. remember (w ++ 32 :: r) as l eqn:El. destruct w as [|x w]; [done|]. apply list.Forall_cons in Hp as [Hx Hp].
  assert (Hsym : forall y, plain y = true -> among [124; 40; 41; 59; 38; 60] y = false /\ y <> 62).
  { intros y [_ Hy]%andb_true_iff. apply negb_true_iff, bool_decide_eq_false in Hy. unfold symbols in Hy. split; [apply bool_decide_eq_false|]; set_solver. }
  destruct Ht as [|c r0 Hc|r0|r0 Hr0|w0 r0 Hn0 Hp0 Hs0]; cbn [app] in El; [done|..].
  - injection El as -> _. destruct (Hsym x Hx). congruence.
  - injection El as <- _. by destruct (Hsym 62 Hx).
  - injection El as <- _. by destruct (Hsym 62 Hx).
  - split; [done|]. change (x :: w ++ 32 :: r) with ((x :: w) ++ 32 :: r) in El. clear Hn Hn0 Ht || clear Hn Hn0.
    assert (Hp' : Forall (fun c => plain c = true) (x :: w)) by (by constructor). clear Hx Hp. revert w0 Hp0 El. generalize (x :: w) Hp'. clear x w Hp'.
    intros w Hw. induction Hw as [|y w Hy Hw IH]; intros w0 Hp0 El; destruct w0 as [|z w0]; cbn [app] in El.
    + done.
    + injection El as -> _. apply list.Forall_cons in Hp0 as [H32 _]. done.
    + subst r0. specialize (Hs0 y (w ++ 32 :: r) eq_refl). congruence.
    + injection El as -> El. apply list.Forall_cons in Hp0 as [_ Hp0]. destruct (IH w0 Hp0 El) as [-> ->]. done.
Qed.

Lemma eat_word s l w r : at_ m es s l -> word_ok w -> dropws l = w ++ 32 :: r ->
  exists q s', gettoken m es s = Ret (97, q, q + Z.of_nat (length w)) s' /\ at_ m es s' (dropws r) /\ word_at m q (q + Z.of_nat (length w)) w /\
    (length (dropws r) < length l)%nat.
Proof.
  intros Ha Hw Hl. destruct (gettoken_ok m es s l Ha) as (k & t & r' & q & s' & E & Ht & Ha' & Hq & Hd). rewrite Hl in Ht.
  destruct (token_word w r k t r' Hw Ht) as (-> & -> & ->). exists q, s'. split_and!; [done|done| |].
  - split; [done| |].
    + destruct Hw as [_ Hp]. destruct Hq as [Hq _]. clear -Hp Hq. revert q Hq. induction Hp as [|x w Hpl Hp IH]; intros q Hq i y Hi; [done|]. destruct Hq as (Hx' & Hz & Hq).
      destruct i as [|i]; cbn in Hi; [injection Hi as <-; rewrite Z.add_0_r; by split_and!|]. replace (q + Z.of_nat (S i)) with (q + 1 + Z.of_nat i) by lia. by apply (IH (q + 1) Hq).
    + apply at_app in Hq. apply at_ld in Hq. unfold ld in Hq. exists 32. split; [done|by right].
  - pose proof (dropws_len l) as H1. rewrite Hl, length_app in H1. cbn [length] in H1. pose proof (dropws_len r). destruct Hw as [Hn _]. destruct w; [done|]. cbn [length] in *. lia.
Qed.

Lemma eat_symbol s l c r : at_ m es s l -> dropws l = c :: 32 :: r -> c ∈ [124; 40; 41; 59; 38; 60; 62] ->
  exists q s', gettoken m es s = Ret (c, q, q + 1) s' /\ at_ m es s' (dropws r) /\ (length (dropws r) < length l)%nat.
Proof.
  intros Ha Hl Hc. destruct (gettoken_ok m es s l Ha) as (k & t & r' & q & s' & E & Ht & Ha' & Hq & Hd). rewrite Hl in Ht. pose proof (dropws_len l) as H1.
  rewrite Hl in H1. cbn [length] in H1. pose proof (dropws_len r).
  assert (Hk : k = c /\ t = [c] /\ r' = 32 :: r).
  { remember (c :: 32 :: r) as l' eqn:El'. destruct Ht as [|c0 r0 Hc0|r0|r0 Hr0|w0 r0 Hn0 Hp0 Hs0]; [done|by injection El' as -> ->|done|by injection El' as <- ->|].
    destruct w0 as [|y w0]; [done|]. injection El' as -> _. apply list.Forall_cons in Hp0 as [[_ Hp]%andb_true_iff _].
    apply negb_true_iff, bool_decide_eq_false in Hp. exfalso. apply Hp. unfold symbols. set_solver. }
  destruct Hk as (-> & -> & ->). exists q, s'. split_and!; [done|done|]. lia.
Qed.

Lemma eat_append s l r : at_ m es s l -> dropws l = 62 :: 62 :: 32 :: r ->
  exists q s', gettoken m es s = Ret (43, q, q + 2) s' /\ at_ m es s' (dropws r) /\ (length (dropws r) < length l)%nat.
Proof.
  intros Ha Hl. destruct (gettoken_ok m es s l Ha) as (k & t & r' & q & s' & E & Ht & Ha' & Hq & Hd). rewrite Hl in Ht. pose proof (dropws_len l) as H1.
  rewrite Hl in H1. cbn [length] in H1. pose proof (dropws_len r).
  assert (Hk : k = 43 /\ t = [62; 62] /\ r' = 32 :: r).
  { remember (62 :: 62 :: 32 :: r) as l' eqn:El'. destruct Ht as [|c0 r0 Hc0|r0|r0 Hr0|w0 r0 Hn0 Hp0 Hs0]; [done|by injection El' as -> ->|by injection El' as ->| |].
    - injection El' as ->. by destruct Hr0.
    - destruct w0 as [|y w0]; [done|]. injection El' as -> _. by apply list.Forall_cons in Hp0 as [? _]. }
  destruct Hk as (-> & -> & ->). exists q, s'. split_and!; [done|done|]. lia.
Qed.
End Read.
