(* ===== verification/ShProps.v ===== *)
(** * The shell's parser: the claims

    The parser reads back the text of a command, by induction on its syntax,
    and it terminates on every line. *)

From S2P Require Import Prelude StringC Sh ShSpec.

Scheme line_mind := Induction for line Sort Prop
with pline_mind := Induction for pline Sort Prop
with simple_mind := Induction for simple Sort Prop.
Combined Scheme syntax_mind from line_mind, pline_mind, simple_mind.

(** The next character is one of [cs]. *)
Definition nexts (cs rest : list Z) : Prop := forall c r, dropws rest = c :: r -> c ∈ cs.

Lemma nexts_more cs cs' rest : (forall c, c ∈ cs -> c ∈ cs') -> nexts cs rest -> nexts cs' rest.
Proof. intros Hi Hn c r Hc. apply Hi. by eapply Hn. Qed.

Lemma nexts_char cs c r : among whitespace c = false -> c ∈ cs -> nexts cs (c :: r).
Proof. intros Hw Hc x y. cbn [dropc]. rewrite Hw. by intros [= <- _]. Qed.

Lemma among_false l c : c ∉ l -> among l c = false.
Proof. intros Hc. by apply bool_decide_eq_false. Qed.

Lemma among_true l c : c ∈ l -> among l c = true.
Proof. intros Hc. by apply bool_decide_eq_true. Qed.

Lemma dropws_word w r : word_ok w -> dropws (w ++ r) = w ++ r.
Proof.
  intros [Hn Hp]. destruct w as [|x w]; [done|]. apply list.Forall_cons in Hp as [[Hx _]%andb_true_iff _]. apply negb_true_iff in Hx. cbn [app dropc]. by rewrite Hx.
Qed.

Lemma word_head w : word_ok w -> exists x w', w = x :: w' /\ x ∉ symbols.
Proof.
  intros [Hn Hp]. destruct w as [|x w]; [done|]. exists x, w. split; [done|]. apply list.Forall_cons in Hp as [[_ Hx]%andb_true_iff _].
  by apply negb_true_iff, bool_decide_eq_false in Hx.
Qed.

Section Parse.
Context (m : mem) (es : Z).

Abbreviation at_ := (at_ m es).
Abbreviation reads := (reads m es).

Lemma reads_bind (Q Q' : cmd -> Prop) l rest rest' (p : M Z cmd) (k : cmd -> M Z cmd) s :
  reads Q l rest (p s) -> (forall c s' l', at_ s' l' -> dropws l' = dropws rest -> (length l' <= length l)%nat -> Q c -> reads Q' l' rest' (k c s')) ->
  reads Q' l rest' (bind p k s).
Proof.
  intros (c & s' & l' & E & Ha & Hd & Hl & Hc) Hk. run E. destruct (Hk c s' l' Ha Hd Hl Hc) as (c2 & s2 & l2 & E2 & Ha2 & Hd2 & Hl2 & Hc2).
  exists c2, s2, l2. split_and!; [done|done|done|lia|done].
Qed.

Lemma reads_ret (Q : cmd -> Prop) l l' rest s c : at_ s l' -> dropws l' = dropws rest -> (length l' <= length l)%nat -> Q c -> reads Q l rest (ret c s).
Proof. intros Ha Hd Hl Hc. by exists c, s, l'. Qed.

Lemma reads_less Q l l' rest r : (length l' <= length l)%nat -> reads Q l' rest r -> reads Q l rest r.
Proof. intros Hl (c & s & l2 & E & Ha & Hd & Hle & Hc). exists c, s, l2. split_and!; [done|done|done|lia|done]. Qed.

Lemma reads_weak (Q Q' : cmd -> Prop) l rest r : reads Q l rest r -> (forall c, Q c -> Q' c) -> reads Q' l rest r.
Proof. intros (c & s & l2 & E & Ha & Hd & Hle & Hc) Hq. exists c, s, l2. split_and!; auto. Qed.

(** [peek] does not find its characters. *)
Lemma peek_no toks s l rest (k1 k2 : M Z cmd) Q : at_ s l -> (forall c r, dropws l = c :: r -> c ∉ toks) ->
  (forall s', at_ s' (dropws l) -> reads Q (dropws l) rest (k2 s')) ->
  reads Q l rest ((b <- peek m es toks ;; if (b : bool) then k1 else k2) s).
Proof.
  intros Ha Hno Hk. destruct (peek_ok m es toks s l Ha) as (s1 & E1 & Ha1). run E1.
  replace (match dropws l with [] => false | c :: _ => among toks c end) with false.
  - eapply reads_less; [apply dropws_len|by apply Hk].
  - destruct (dropws l) as [|c r] eqn:Er; [done|]. symmetry. apply among_false. by eapply Hno.
Qed.

(** [peek] finds the operator [c], which is then read. *)
Lemma peek_eat toks s l c r rest (k1 k2 : M Z cmd) Q : at_ s l -> dropws l = c :: 32 :: r -> c ∈ toks -> c ∈ [124; 40; 41; 59; 38; 60; 62] ->
  (forall s', at_ s' (dropws r) -> (length (dropws r) < length l)%nat -> reads Q (dropws r) rest (k1 s')) ->
  reads Q l rest ((b <- peek m es toks ;; if (b : bool) then gettoken m es ;;; k1 else k2) s).
Proof.
  intros Ha Hd Hc Hsym Hk. destruct (peek_ok m es toks s l Ha) as (s1 & E1 & Ha1). run E1.
  replace (match dropws l with [] => false | c :: _ => among toks c end) with true by (rewrite Hd; by rewrite among_true).
  destruct (eat_symbol m es s1 (dropws l) c r Ha1) as (q & s2 & E2 & Ha2 & Hl2); [by rewrite dropc_idemp|done|]. run E2. pose proof (dropws_len l).
  eapply reads_less; [|apply Hk; [done|lia]]. lia.
Qed.

Lemma parseredirs_reads rs : forall n s l rest c a,
  at_ s l -> dropws l = dropws (concat (text_redir <$> rs) ++ rest) -> (forall c r, dropws rest = c :: r -> c ∉ [60; 62]) -> Forall redir_ok rs ->
  (length l < n)%nat -> spans m c a -> reads (fun c' => spans m c' (foldl mean_redir a rs)) l rest (parseredirs m es n c s).
Proof.
  induction rs as [|r rs IH]; intros n s l rest c a Ha Hd Hno Hok Hn Hsp; (destruct n as [|n]; [lia|]); cbn [parseredirs].
  { apply peek_no; [done|by rewrite Hd|]. intros s' Ha'. apply (reads_ret _ _ (dropws l)); [done|by rewrite dropc_idemp|done|done]. }
  apply list.Forall_cons in Hok as [Hr Hok]. cbn [fmap list_fmap concat] in Hd. rewrite <- app_assoc in Hd. set (rest1 := concat (text_redir <$> rs) ++ rest) in *.
  destruct (peek_ok m es [60; 62] s l Ha) as (s1 & E1 & Ha1). run E1. pose proof (dropws_len l) as Hll.
  assert (Hgo : forall k w s2 l2, at_ s2 l2 -> (length l2 < length l)%nat -> word_ok w -> dropws l2 = dropws (w ++ 32 :: rest1) -> (k = 60 \/ k = 62 \/ k = 43) ->
    reads (fun c' => spans m c' (foldl mean_redir (ARedir a w (if k =? 60 then O_RDONLY else Z.lor O_WRONLY O_CREATE) (if k =? 60 then 0 else 1)) rs)) l rest
      ((w0 <- gettoken m es ;; let '(k', q, eq) := w0 in if negb (k' =? 97) then panic "missing file for redirection" else
        parseredirs m es n (if k =? 60 then redircmd c q eq O_RDONLY 0 else if k =? 62 then redircmd c q eq (Z.lor O_WRONLY O_CREATE) 1
          else if k =? 43 then redircmd c q eq (Z.lor O_WRONLY O_CREATE) 1 else c)) s2)).
  { intros k w s2 l2 Ha2 Hl2 Hw Hd2 Hk. rewrite dropws_word in Hd2 by done. destruct (eat_word m es s2 l2 w rest1 Ha2 Hw Hd2) as (q & s3 & E3 & Ha3 & Hwa & Hl3). run E3.
    cbn [Z.eqb Pos.eqb negb]. apply (reads_less _ l (dropws rest1)); [lia|].
    destruct Hk as [-> |[-> | ->]]; cbn [Z.eqb Pos.eqb]; apply IH; try done; try lia; by rewrite dropc_idemp. }
  destruct r as [w|w|w]; cbn [text_redir app redir_ok mean_redir foldl] in *.
  - replace (match dropws l with [] => false | c :: _ => among [60; 62] c end) with true by (by rewrite Hd).
    destruct (eat_symbol m es s1 (dropws l) 60 (w ++ 32 :: rest1) Ha1) as (q & s2 & E2 & Ha2 & Hl2); [rewrite dropc_idemp, Hd; cbn [dropc]; rewrite <- app_assoc; done|set_solver|].
    run E2. apply (Hgo 60 w s2 _ Ha2); [lia|done|by rewrite dropc_idemp|by left].
  - replace (match dropws l with [] => false | c :: _ => among [60; 62] c end) with true by (by rewrite Hd).
    destruct (eat_symbol m es s1 (dropws l) 62 (w ++ 32 :: rest1) Ha1) as (q & s2 & E2 & Ha2 & Hl2); [rewrite dropc_idemp, Hd; cbn [dropc]; rewrite <- app_assoc; done|set_solver|].
    run E2. apply (Hgo 62 w s2 _ Ha2); [lia|done|by rewrite dropc_idemp|right; by left].
  - replace (match dropws l with [] => false | c :: _ => among [60; 62] c end) with true by (by rewrite Hd).
    destruct (eat_append m es s1 (dropws l) (w ++ 32 :: rest1) Ha1) as (q & s2 & E2 & Ha2 & Hl2); [rewrite dropc_idemp, Hd; cbn [dropc]; rewrite <- app_assoc; done|].
    run E2. apply (Hgo 43 w s2 _ Ha2); [lia|done|by rewrite dropc_idemp|right; by right].
Qed.

Lemma add_arg_spans q e w ws c rs : spans m c (foldl mean_redir (AExec ws) rs) -> word_at m q e w ->
  spans m (add_arg q e c) (foldl mean_redir (AExec (ws ++ [w])) rs).
Proof.
  intros Hs Hw. revert c Hs. induction rs as [|r rs IH] using rev_ind; intros c Hs.
  - destruct c; try done. cbn in *. apply Forall2_app; [done|]. by constructor.
  - rewrite foldl_app in *. cbn [foldl] in *. destruct r; destruct c; try done; cbn [mean_redir spans add_arg] in *; destruct Hs as [Hs Hr]; (split; [by apply IH|done]).
Qed.

Lemma split_reds its : exists rs its', its = (Red <$> rs) ++ its' /\ (its' = [] \/ exists w its2, its' = Arg w :: its2).
Proof.
  induction its as [|[w|r] its IH]; [by exists [], []; auto|exists [], (Arg w :: its); split; [done|right; eauto]|].
  destruct IH as (rs & its' & -> & H). by exists (r :: rs), its'.
Qed.

Lemma text_split rs its : concat (text_item <$> ((Red <$> rs) ++ its)) = concat (text_redir <$> rs) ++ concat (text_item <$> its).
Proof. induction rs as [|r rs IH]; [done|]. cbn [fmap list_fmap app concat text_item] in *. by rewrite IH, app_assoc. Qed.

Lemma args_split rs its : args_of ((Red <$> rs) ++ its) = args_of its.
Proof. by induction rs. Qed.

Lemma redirs_split rs its : redirs_of ((Red <$> rs) ++ its) = rs ++ redirs_of its.
Proof. induction rs as [|r rs IH]; [done|]. cbn [fmap list_fmap app redirs_of] in *. by rewrite IH. Qed.

Lemma reds_ok rs its : Forall item_ok ((Red <$> rs) ++ its) -> Forall redir_ok rs /\ Forall item_ok its.
Proof. intros [H1 H2]%Forall_app. split; [|done]. exact (proj1 (list.Forall_fmap _ _ _) H1). Qed.

(** What follows the redirections of a simple command is not one. *)
Lemma items_follow its rest : Forall item_ok its -> (its = [] \/ exists w its2, its = Arg w :: its2) -> nexts [124; 41; 38; 59] rest ->
  forall c r, dropws (concat (text_item <$> its) ++ rest) = c :: r -> c ∉ [60; 62].
Proof.
  intros Hok [-> |(w & its2 & ->)] Hn c r; cbn [fmap list_fmap concat app text_item].
  - intros Hc. specialize (Hn c r Hc). set_solver.
  - apply list.Forall_cons in Hok as [Hw _]. rewrite <- !app_assoc, dropws_word by done. destruct (word_head w Hw) as (x & w' & -> & Hx). cbn [app]. intros [= <- _].
    unfold symbols in Hx. set_solver.
Qed.

Lemma gettoken_eof s l : at_ s l -> dropws l = [] -> exists q s', gettoken m es s = Ret (0, q, q) s' /\ at_ s' [].
Proof.
  intros Ha Hl. destruct (gettoken_ok m es s l Ha) as (k & t & r & q & s' & E & Ht & Ha' & _). rewrite Hl in Ht.
  remember [] as l0 eqn:E0 in Ht. destruct Ht as [|c0 r0 Hc0|r0|r0 Hr0|w0 r0 Hn0 Hp0 Hs0]; try done.
  - cbn [length] in E. rewrite Z.add_0_r in E. by exists q, s'.
  - by destruct w0.
Qed.

Lemma args_loop_reads n : forall its rs0 ws s l rest c,
  at_ s l -> dropws l = dropws (concat (text_item <$> its) ++ rest) -> (its = [] \/ exists w its2, its = Arg w :: its2) -> Forall item_ok its ->
  nexts [124; 41; 38; 59] rest -> (length l < n)%nat -> spans m c (foldl mean_redir (AExec ws) rs0) ->
  Z.of_nat (length ws) + Z.of_nat (length (args_of its)) < MAXARGS ->
  reads (fun c' => spans m c' (foldl mean_redir (AExec (ws ++ args_of its)) (rs0 ++ redirs_of its))) l rest (args_loop m es n (Z.of_nat (length ws)) c s).
Proof.
  induction n as [|n IH]; intros its rs0 ws s l rest c Ha Hd Hits Hok Hnx Hn Hsp Hmax; [lia|]. cbn [args_loop].
  destruct (peek_ok m es [124; 41; 38; 59] s l Ha) as (s1 & E1 & Ha1). run E1. pose proof (dropws_len l) as Hll. destruct Hits as [-> |(w & its2 & ->)].
  - cbn [args_of redirs_of fmap list_fmap concat app] in *. rewrite !app_nil_r. destruct (dropws l) as [|x r] eqn:El.
    + destruct (gettoken_eof s1 [] Ha1 eq_refl) as (q & s2 & E2 & Ha2). run E2. cbn [Z.eqb]. apply (reads_ret _ _ []); [done|by rewrite <- Hd|cbn; lia|done].
    + rewrite (among_true _ x) by (by apply (Hnx x r)). apply (reads_ret _ _ (x :: r)); [done| |lia|done]. by rewrite <- El, dropc_idemp, El, Hd.
  - apply list.Forall_cons in Hok as [Hw Hok]. cbn [args_of redirs_of fmap list_fmap concat text_item] in *. rewrite <- !app_assoc in Hd.
    rewrite dropws_word in Hd by done. destruct (word_head w Hw) as (x & w' & Ew & Hx).
    replace (match dropws l with [] => false | c :: _ => among [124; 41; 38; 59] c end) with false
      by (rewrite Hd, Ew; symmetry; apply among_false; unfold symbols in Hx; set_solver).
    destruct (eat_word m es s1 (dropws l) w (concat (text_item <$> its2) ++ rest) Ha1 Hw) as (q & s2 & E2 & Ha2 & Hwa & Hl2); [by rewrite dropc_idemp|].
    run E2. cbn [Z.eqb Pos.eqb negb length] in *. rewrite (proj2 (Z.leb_gt _ _)) by lia. destruct (split_reds its2) as (rs & its3 & -> & H3).
    apply reds_ok in Hok as [Hrs Hok3]. rewrite text_split, args_split, redirs_split in *. rewrite <- app_assoc in *.
    apply (reads_less _ _ _ _ _ (Nat.le_trans _ _ _ (Nat.lt_le_incl _ _ Hl2) Hll)).
    eapply reads_bind; [eapply parseredirs_reads; [exact Ha2|by rewrite dropc_idemp|by apply items_follow|done|lia|by apply add_arg_spans]|].
    intros c3 s3 l3 Ha3 Hd3 Hl3 Hs3. rewrite <- foldl_app in Hs3.
    replace (Z.of_nat (length ws) + 1) with (Z.of_nat (length (ws ++ [w]))) by (rewrite length_app; cbn; lia).
    eapply reads_weak; [apply (IH its3 (rs0 ++ rs) (ws ++ [w])); try done; [lia|rewrite length_app; cbn; lia]|].
    intros c4. by rewrite <- !app_assoc.
Qed.

Lemma back_loop_reads bg : forall n s l rest c a, at_ s l -> dropws l = dropws (text_bg bg ++ rest) -> nexts [41; 59] rest -> (length l < n)%nat -> spans m c a ->
  reads (fun c' => spans m c' (mean_bg bg a)) l rest (back_loop m es n c s).
Proof.
  induction bg as [|bg IH]; intros n s l rest c a Ha Hd Hn Hl Hs; (destruct n as [|n]; [lia|]); cbn [back_loop text_bg app mean_bg] in *.
  - apply peek_no; [done| |].
    + rewrite Hd. intros x r Hx. specialize (Hn x r Hx). set_solver.
    + intros s1 Ha1. apply (reads_ret _ _ (dropws l)); [done|by rewrite dropc_idemp|done|done].
  - eapply peek_eat; [done|exact Hd|set_solver|set_solver|]. intros s1 Ha1 Hl1. apply IH; [done|by rewrite dropc_idemp|done|lia|done].
Qed.

Definition reads_line (L : line) : Prop := line_ok L -> forall fuel s l rest, at_ s l -> dropws l = dropws (text_line L ++ rest) -> nexts [41] rest ->
  (4 * length l + 3 < fuel)%nat -> reads (fun c => spans m c (mean_line L)) l rest (parseline m es fuel s).
Definition reads_pline (p : pline) : Prop := pline_ok p -> forall fuel s l rest, at_ s l -> dropws l = dropws (text_pline p ++ rest) -> nexts [41; 38; 59] rest ->
  (4 * length l + 2 < fuel)%nat -> reads (fun c => spans m c (mean_pline p)) l rest (parsepipe m es fuel s).
Definition reads_simple (e : simple) : Prop := simple_ok e -> forall fuel s l rest, at_ s l -> dropws l = dropws (text_simple e ++ rest) -> nexts [124; 41; 38; 59] rest ->
  (4 * length l + 1 < fuel)%nat -> reads (fun c => spans m c (mean_simple e)) l rest (parseexec m es fuel s).

Lemma items_no_paren its rest : Forall item_ok its -> nexts [124; 41; 38; 59] rest -> forall c r, dropws (concat (text_item <$> its) ++ rest) = c :: r -> c ∉ [40].
Proof.
  intros Hok Hn c r. destruct its as [|[w|[w|w|w]] its]; cbn [fmap list_fmap concat app text_item text_redir]; try (intros [= <- _]; set_solver).
  - intros Hc. specialize (Hn c r Hc). set_solver.
  - apply list.Forall_cons in Hok as [Hw _]. rewrite <- !app_assoc, dropws_word by done. destruct (word_head w Hw) as (x & w' & -> & Hx). cbn [app]. intros [= <- _].
    unfold symbols in Hx. set_solver.
Qed.

Lemma words_reads its : reads_simple (Words its).
Proof.
  intros [Hok Hmax] fuel s l rest Ha Hd Hn Hf. destruct fuel as [|n]; [lia|]. cbn [parseexec text_simple] in *.
  apply peek_no; [done|rewrite Hd; by apply items_no_paren|]. intros s1 Ha1. pose proof (dropws_len l) as Hll. destruct (split_reds its) as (rs & its' & -> & Hits).
  apply reds_ok in Hok as [Hrs Hok]. cbn [mean_simple] in *. rewrite text_split, args_split, redirs_split, <- app_assoc in *.
  eapply reads_bind; [eapply (parseredirs_reads rs _ _ _ _ _ (AExec [])); [exact Ha1|by rewrite dropc_idemp|by apply items_follow|done|lia|by apply Forall2_nil]|].
  intros c2 s2 l2 Ha2 Hd2 Hl2 Hs2. change 0 with (Z.of_nat (length (@nil (list Z)))). eapply reads_weak; [eapply (args_loop_reads (S n) its' rs []); [done|exact Hd2|done|done|done|lia|exact Hs2|cbn [length]; lia]|]. done.
Qed.

Lemma block_reads L rs : reads_line L -> reads_simple (Block L rs).
Proof.
  intros IH [HL Hrs] fuel s l rest Ha Hd Hn Hf. destruct fuel as [|[|n]]; [lia|lia|]. cbn [parseexec text_simple app] in *. rewrite <- app_assoc in Hd. cbn [app] in Hd.
  set (rest1 := concat (text_redir <$> rs) ++ rest) in *. destruct (peek_ok m es [40] s l Ha) as (s1 & E1 & Ha1). run E1. pose proof (dropws_len l) as Hll.
  replace (match dropws l with [] => false | c :: _ => among [40] c end) with true by (by rewrite Hd). cbn [parseblock].
  rewrite (peek_negb _ _ _ _ _ _ (dropws l)) by done. apply (reads_less _ l (dropws l)); [done|].
  eapply (peek_eat _ _ _ 40); [done|rewrite dropc_idemp; exact Hd|set_solver|set_solver|]. intros s2 Ha2 Hl2.
  eapply reads_bind; [apply (IH HL _ _ _ (41 :: 32 :: rest1)); [done|by rewrite dropc_idemp|apply nexts_char; [done|set_solver]|lia]|].
  intros c3 s3 l3 Ha3 Hd3 Hl3 Hs3. rewrite (peek_negb _ _ _ _ _ _ l3) by done.
  eapply (peek_eat _ _ _ 41); [done|exact Hd3|set_solver|set_solver|]. intros s4 Ha4 Hl4.
  apply parseredirs_reads; [done|by rewrite dropc_idemp| |done|lia|done]. intros x r Hx. specialize (Hn x r Hx). set_solver.
Qed.

Lemma bg_follow bg rest : nexts [41; 59] rest -> nexts [41; 38; 59] (text_bg bg ++ rest).
Proof. intros Hn. destruct bg as [|bg]; [eapply nexts_more; [|exact Hn]; set_solver|]. cbn [text_bg app]. apply nexts_char; [done|set_solver]. Qed.

Lemma parse_reads : (forall L, reads_line L) /\ (forall p, reads_pline p) /\ (forall e, reads_simple e).
Proof.
  apply syntax_mind.
  - intros p IH bg Hok fuel s l rest Ha Hd Hn Hf. destruct fuel as [|n]; [lia|]. cbn [parseline text_line mean_line line_ok] in *. rewrite <- app_assoc in Hd.
    assert (Hn' : nexts [41; 59] rest) by (eapply nexts_more; [|exact Hn]; set_solver).
    eapply reads_bind; [apply (IH Hok); [done|exact Hd|by apply bg_follow|lia]|]. intros c1 s1 l1 Ha1 Hd1 Hl1 Hs1.
    eapply reads_bind; [eapply back_loop_reads; [done|exact Hd1|done|lia|exact Hs1]|]. intros c2 s2 l2 Ha2 Hd2 Hl2 Hs2.
    apply peek_no; [done| |intros s3 Ha3; apply (reads_ret _ _ (dropws l2)); [done|by rewrite dropc_idemp|done|done]].
    rewrite Hd2. intros x r Hx. specialize (Hn x r Hx). set_solver.
  - intros p IHp bg L IHL [Hp HL] fuel s l rest Ha Hd Hn Hf. destruct fuel as [|n]; [lia|]. cbn [parseline text_line mean_line] in *. rewrite <- !app_assoc in Hd. cbn [app] in Hd.
    assert (Hn' : nexts [41; 59] (59 :: 32 :: text_line L ++ rest)) by (apply nexts_char; [done|set_solver]).
    eapply reads_bind; [apply (IHp Hp); [done|exact Hd|by apply bg_follow|lia]|]. intros c1 s1 l1 Ha1 Hd1 Hl1 Hs1.
    eapply reads_bind; [eapply back_loop_reads; [done|exact Hd1|done|lia|exact Hs1]|]. intros c2 s2 l2 Ha2 Hd2 Hl2 Hs2.
    eapply (peek_eat _ _ _ 59); [done|exact Hd2|set_solver|set_solver|]. intros s3 Ha3 Hl3.
    eapply reads_bind; [apply (IHL HL); [done|by rewrite dropc_idemp|done|lia]|]. intros c4 s4 l4 Ha4 Hd4 Hl4 Hs4. by apply (reads_ret _ _ l4).
  - intros e IH Hok fuel s l rest Ha Hd Hn Hf. destruct fuel as [|n]; [lia|]. cbn [parsepipe text_pline mean_pline pline_ok] in *.
    eapply reads_bind; [apply (IH Hok); [done|exact Hd|eapply nexts_more; [|exact Hn]; set_solver|lia]|]. intros c1 s1 l1 Ha1 Hd1 Hl1 Hs1.
    apply peek_no; [done| |intros s3 Ha3; apply (reads_ret _ _ (dropws l1)); [done|by rewrite dropc_idemp|done|done]].
    rewrite Hd1. intros x r Hx. specialize (Hn x r Hx). set_solver.
  - intros e IHe p IHp [He Hp] fuel s l rest Ha Hd Hn Hf. destruct fuel as [|n]; [lia|]. cbn [parsepipe text_pline mean_pline] in *. rewrite <- !app_assoc in Hd. cbn [app] in Hd.
    eapply reads_bind; [apply (IHe He); [done|exact Hd|apply nexts_char; [done|set_solver]|lia]|]. intros c1 s1 l1 Ha1 Hd1 Hl1 Hs1.
    eapply (peek_eat _ _ _ 124); [done|exact Hd1|set_solver|set_solver|]. intros s3 Ha3 Hl3.
    eapply reads_bind; [apply (IHp Hp); [done|by rewrite dropc_idemp|done|lia]|]. intros c4 s4 l4 Ha4 Hd4 Hl4 Hs4. by apply (reads_ret _ _ l4).
  - intros its. apply words_reads.
  - intros L IH rs. by apply block_reads.
Qed.
End Parse.

(** [a > f | b & ; ( c )] *)
Definition demo_line : line :=
  LineSeq (PipeSeq (Words [Arg [97]; Red (ROut [102])]) (PipeEnd (Words [Arg [98]]))) 1 (LineEnd (PipeEnd (Block (LineEnd (PipeEnd (Words [Arg [99]])) 0) [])) 0).
Definition demo_text : mem := bytes_at 100 (text_line demo_line ++ [0]).

Lemma demo_text_cstr : cstr demo_text 100 (text_line demo_line).
Proof. vm_compute. intuition congruence. Qed.

(** C38: on every C string shorter than [2^31] bytes [parsecmd] returns a
    command or panics with a syntax error.  It never reads or writes outside
    the string, and it always ends.  A command it returns has fewer than
    [MAXARGS] arguments in every [execcmd]; every argument and every file name
    is a whole word of the string, from its first character to the one after its
    last; and the only bytes changed are ends of words, which become zero. *)
Theorem parsecmd_total (m : mem) (s : Z) (l : list Z) :
  cstr m s l -> Z.of_nat (length l) < 2 ^ 31 ->
  let es := s + Z.of_nat (length l) in
  (exists c, parsecmd s m = Ret (c, zero_all (ends c) m) es /\ cmd_ok (word m s es) c) \/ (exists msg, parsecmd s m = Panic msg).
Proof.
  intros Hc Hl es. unfold parsecmd. rewrite (strlen_ok s m l) by done. fold es.
  destruct (parse_fine m s es (parse_fuel (Z.of_nat (length l))) s l) as [H _]; [done|]. destruct H as [(c & s1 & l1 & E & Ha & Hl1 & Hok)|[msg E]].
  - unfold parse_fuel. rewrite Nat2Z.id. lia.
  - run E. rewrite (parsecmd_end m es c s1 l1) by (done || (eapply cmd_ok_weaken; [apply word_ends_in|done])). destruct (dropws l1); [left; by exists c|right; eauto].
  - right. exists msg. unfold bind. by rewrite E.
Qed.

Lemma parsecmd_total_witness :
  (exists c, parsecmd 100 demo_text = Ret (c, zero_all (ends c) demo_text) 120 /\ cmd_ok (word demo_text 100 120) c) \/ (exists msg, parsecmd 100 demo_text = Panic msg).
Proof. apply (parsecmd_total demo_text 100 (text_line demo_line) demo_text_cstr). reflexivity. Defined.

(** C37: the text of a command parses to that command.  For a line of pipes,
    blocks, redirections, backgrounds and sequences, whose words hold no blank
    and no operator, [parsecmd] returns a tree of the same shape in which every
    argument and every file name is the C string of its word. *)
Theorem parsecmd_roundtrip (m : mem) (s : Z) (L : line) :
  line_ok L -> cstr m s (text_line L) -> Z.of_nat (length (text_line L)) < 2 ^ 31 ->
  exists c m' e, parsecmd s m = Ret (c, m') e /\ denotes m' c (mean_line L).
Proof.
  intros HL Hc Hl. unfold parsecmd. rewrite (strlen_ok s m (text_line L)) by done. set (es := s + Z.of_nat (length (text_line L))).
  assert (Ha : at_ m es s (text_line L)) by done.
  assert (Hf : (4 * length (text_line L) + 3 < parse_fuel (Z.of_nat (length (text_line L))))%nat) by (unfold parse_fuel; rewrite Nat2Z.id; lia).
  destruct (proj1 (parse_reads m es) L HL (parse_fuel (Z.of_nat (length (text_line L)))) s (text_line L) []) as (c & s1 & l1 & E & Ha1 & Hd1 & _ & Hs);
    [done|by rewrite app_nil_r|by intros ? ?|done|].
  destruct (proj1 (parse_fine m s es _ s _ Ha) (conj Hf (Z.le_refl _))) as [(c' & ? & ? & E' & _ & _ & Hok)|[msg E']]; rewrite E in E'; [injection E' as <- <-|done].
  apply (cmd_ok_weaken _ _ _ (word_ends_in m s es)) in Hok. run E. rewrite (parsecmd_end m es c s1 l1) by done. rewrite Hd1. cbn [dropc]. eexists _, _, _. split; [done|].
  eapply spans_denotes; [by eapply spans_stops|done|done].
Qed.

Lemma parsecmd_roundtrip_witness : exists c m' e, parsecmd 100 demo_text = Ret (c, m') e /\
  denotes m' c (AList (ABack (APipe (ARedir (AExec [[97]]) [102] 513 1) (AExec [[98]]))) (AExec [[99]])).
Proof.
  apply (parsecmd_roundtrip demo_text 100 demo_line); [|exact demo_text_cstr|reflexivity].
  cbn. repeat split; try lia; repeat (apply list.Forall_cons; split); try apply list.Forall_nil; try exact I; (split; [done|]); repeat constructor.
Defined.
